(* ===== verification/_CoqProject ===== *)
-Q . S2P
Prelude.v
Words.v
Host.v
Blocks.v
Notes.v
CoreApi.v
Segments.v
AddressSpace.v
MemRef.v
Elf.v
ElfProofs.v
CoreLoad.v
LoadProofs.v
SaveCore.v
SaveProofs.v
FakeBuild.v
NoteProofs.v
FakeProofs.v
Modules.v
Dwarf.v
DwarfProofs.v
DwarfTree.v
Bits.v
BitsProofs.v
OatCode.v
OatProofs.v
OatVRegs.v
Unwind.v
UnwindProofs.v
UnwindWalk.v
Threads.v
ThreadsProofs.v
Utf.v
Text.v
Process.v
CoreDump.v
DumpProofs.v
DumpLoads.v
Mirrors.v
Cxx.v
Heap.v
HeapProofs.v
Reading.v
Dex.v
DexProofs.v
Dexdump.v
DexdumpProofs.v
RuntimeTables.v
Frames.v
OatFiles.v
OatFilesProofs.v
Runtimes.v
Methods.v
MethodsProofs.v
RefCache.v
JavaObjects.v
JavaObjectsProofs.v
QuickHeaders.v
Jit.v
JitProofs.v
JavaStack.v
JavaStackProofs.v
JavaThreads.v
JavaThreadsProofs.v
Refs.v
RefsProofs.v
Spaces.v
Replay.v
SpacesProofs.v
Hprof.v
HprofDump.v
HprofReplay.v
HprofFile.v
HprofProofs.v
References.v
EventTags.v
Logcat.v
LogcatProofs.v
Props.v
PropsProofs.v
