(* ===== verification/Prelude.v ===== *)
(** OpenCoreAnalysisKit: verification library.

    The repository is an analyser of ELF core files, mostly of Android processes.  It maps a
    core file, presents the memory of the dead process, and reads the structures found in
    it: modules and their symbols, native stacks, compiled Java methods, debug information.
    This library models the part of that code that computes, as executable definitions that
    follow the functions of src/, and proves what the functions are for.

    * How the program is put together, and where each part is modelled

    - The analyser's own memory (utils/base/linux/memory_map.cpp).  [Host]: a list of mapped
      regions; [host_load], [host_store], [host_word] are [memcpy] and pointer reads, and an
      access outside every region is the result [Fault].  mmap, files and the page size are
      the class [Os]; what the code relies on is [OsLaws], with the instance [bump_os].
    - Segments and notes (core/common).  [Blocks]: [Block], [LoadBlock] with its mapped file
      and its copy-on-write overlay; [Notes]: [NoteBlock], [Auxv], [File], [ThreadApi].
    - The loaded core (core/api/core.h, core.cpp).  [CoreApi]: the two segment lists over a
      store of shared segment objects, binary search, fake segments, [v2r], [r2v], [Read],
      [Write], iterators.  [Segments] and [AddressSpace] prove it correct.
    - References into the target (core/api/memory_ref.h).  [MemRef]: every reader of the
      target goes through [MemoryRef]; the class [Presents] states what it promises, the
      readers are verified against it, and [AddressSpace] implements it.
    - The ELF reader and link maps (core/api/elf.cpp, core/common/link_map.cpp).  [Elf],
      [ElfProofs].
    - The loader (core/lp64, core/lp32 core.cpp, the machine classes, [CoreApi::Load]).
      [CoreLoad]: one model over a [Layout] with the instances [Elf64] and [Elf32]; the
      machines differ in their [NoteCallback].  [LoadProofs], and [NoteProofs] for the notes.
    - Writing core files (parser/command/fake/core).  [SaveCore]: a loaded core as a file;
      [FakeBuild]: a core file made from a crash report.  [SaveProofs], [FakeProofs].
    - Dumping a live process (parser/command/remote/opencore).  [Process]: the kernel as the class
      [Kernel], the parser of /proc/pid/maps; [CoreDump]: [DoCoredump] onto a disk that may
      fail; [DumpProofs], [DumpLoads].
    - Modules (the rest of core/lp64 and lp32).  [Modules]: link-map walk, [exec], [dlopen],
      [loader_dlopen], symbol sections, module lookups.
    - Debug information (core/api/dwarf.cpp).  [Dwarf], [DwarfProofs], [DwarfTree].
    - Stack maps of compiled methods (android/art/base, android/art/runtime/oat/stack_map).
      [Bits], [BitsProofs], [OatCode], [OatProofs], [OatVRegs].
    - Native stacks and registers (core/api/unwind, core/<machine>/unwind.cpp,
      thread_info.cpp).  [Unwind], [UnwindProofs], [UnwindWalk], [Threads], [ThreadsProofs].
    - Android properties (android/properties).  [Props]: the areas and their trie;
      [PropsProofs].
    - Java objects and the heap (android/art/runtime/mirror and gc, llvm/cxx).  [Mirrors]:
      objects, classes, arrays and strings; [Utf]: their text; [Cxx]: libc++ containers;
      [Heap]: the mark bitmap and the walks of the spaces; [HeapProofs].
    - Dex files, fields and methods (android/art/dex, android/art/runtime/art_field, art_method).
      [Dex], [DexProofs]: id tables, names, code items; [Methods], [MethodsProofs]; [Text],
      [Dexdump], [DexdumpProofs]: numbers as text, the size and the text of instructions.
      [Reading] relates fields of the target to the readers, for the proofs of all below.
    - Compiled code (android/art/runtime/oat, arch, quick, jit).  [OatFiles], [OatFilesProofs]: oat
      and vdex files; [Frames]: callee-save frames; [QuickHeaders]: headers of methods; [Jit],
      [JitProofs]: the code cache.
    - The runtime (android/art/runtime).  [RuntimeTables]: offset tables of every Android
      version; [Runtimes]: the search for the runtime; [JavaStack], [JavaStackProofs]: the walk
      over the frames of a Java thread; [Refs], [RefsProofs]: JNI references, dex caches;
      [JavaThreads], [JavaThreadsProofs]: lock words, monitors, mutexes, the list of threads.
    - Objects of the framework (android/jdk, android/sdk).  [RefCache]: no reader depends on
      the segment a reference has cached; [JavaObjects], [JavaObjectsProofs]: [instanceof],
      fields by name, strings, array maps.
    - All objects of the heap (android/art/runtime/gc/heap, gc/space/space, android/android.cpp).
      [Spaces]: the type of a space, decoded from the machine code of its virtual function; the
      lists of spaces, filled once; the walk over all of them.
    - Heap dumps (android/art/runtime/hprof).  [Hprof]: the two runs of a dump, over the walk of
      [Spaces].  [Replay], [SpacesProofs], [HprofDump], [HprofReplay]: what a second run of the
      same program does; [HprofFile]: the file and a parser for it; [HprofProofs].
    - The references of native code (android/android.cpp).  [References]: the walk over the
      local, global and weak tables of [Refs], for one thread or all of [JavaThreads].
    - Log buffers (android/logcat, parser/command/android/cmd_logcat.cpp).  [Logcat]: the search
      for the buffer of logd and the decoding of its chunks; [EventTags]: the names of events;
      [LogcatProofs].

    Calls go downwards in this list: the loader fills a [CoreApi], everything below reads
    it through [MemoryRef] and writes it through [Write] and the overlays.

    * Conventions

    A [w]-bit integer is a [Z] in [0, 2^w); [wrap w] and [sint w] are the conversions, written
    wherever the code converts or can overflow.  Bytes are lists of [Z].  A function that can
    throw or leave the defined behaviour returns a [result]; [Throw] is
    [InvalidAddressException], [Fault] an access outside mapped memory, a null pointer or a
    vector index out of range.  Code that updates objects takes and returns them; code that
    updates an object and may throw halfway is a [prog], in which the updates stay.  Shared
    objects (segments) live in a store and are named by identities.  A version of Android or
    of the oat format, which the code keeps in globals set by listeners, is an argument.

    Loops whose length the data decides take fuel, and [OutOfFuel] is not a result of the
    code.  [ends] says that a computation does not run out: [Load_terminates] (fuel: the size of
    the note segment plus one), [findLoadBlock] (the length of the list plus one),
    [ParseAbbrevSection_terminates] and [ParseInfoSection_terminates] (the size of the
    section), [arm64_WalkStack_terminates] (the size of the stack segment),
    [ZygoteSpace_Walk_objects] (the size of the space over 8, plus one), [Property_Get_map]
    (the depth of the trie).  [ParseInfoSection_diverges] and [findPropbt_cycle] show inputs
    on which no fuel is enough.  The walk of link
    maps has no such bound, because the code has none (see the findings); theorems that use
    it take its fuel as a variable.

    * What the theorems show

    - Segment lists: the search equals a linear search ([findLoadBlock_correct]); a new fake
      segment overlaps nothing and keeps the lists sorted ([newLoadBlock_sound]), except above
      the last segment ([newLoadBlock_above_last]).
    - Target memory: [target_byte] is the abstract byte map of the process.  [Read_correct],
      [Write_refines], [r2v_v2r]: the operations on core bytes, mapped files and overlays
      implement reading, updating and translating it; [Read_tagged_faults] is the case of
      tagged pointers where they do not.
    - Loading and saving: the segments present the bytes of the file ([load_presents_file]);
      a file written from a core loads to the same memory, but for what an overlay had put behind
      the contents of a segment ([execute_roundtrip]); a file made from a crash report is written
      inside its mapping and loads to the thread, auxiliary vector, files and segments of the
      report ([fake_core_loads]); the dump of a live process loads to its threads, areas and
      memory ([DoCoredump_loads]).
    - ELF: search of a dynamic table, collection of symbols ([FindDynamicEntry_spec],
      [ReadSymbols_collects]).
    - DWARF: round trips of the number formats and of abbreviation tables, bounds of attribute
      values, termination, the tree walk against a recursive specification
      ([ParseDIETree_walk]), no index out of range in the type resolution.
    - Stack maps: bit-fields and varints, decoding an encoded method ([Decode_roundtrip]), the
      searches by pc against searches over the rows ([NativePc2DexPc_spec],
      [NativePc2VRegs_spec]).
    - Stacks: the walk along frame records shows the callers of the chain
      ([FpBacktrace_frames]), the signal context found is the first ([GetUContext_first]), the
      walk ends if decoding its frames does ([arm64_WalkStack_terminates]); setting a register
      keeps thread and note equal ([RegisterSet_register]).
    - Properties: a lookup in the trie is a lookup in the map it represents
      ([Property_Get_map]), the traversal visits its entries ([Property_Foreach_visits]).
    - Heap: the bitmap walk visits the marked bits of the range ([VisitMarkedRange_marks]), a
      space walk its objects ([ZygoteSpace_Walk_objects]); the text of a Java string decodes to
      its characters ([ConvertUtf16_roundtrip]).
    - Dex and compiled code: compact code items decode ([Compact_DecodeFields_roundtrip]), a
      descriptor is shown as the name of its type ([AppendPrettyDescriptor_name]); the code of
      a method is the one the oat file was written with ([GetOatMethod_code]), at the index
      counted over the methods of the class ([oat_method_index_virtual]), or what the hash
      table of the jit holds for it ([GetCodeFor_lookup]); the disassembler shows the operands
      an instruction was assembled from ([PrettyDexInst_assembly]).
    - Java stacks: the walk collects the frames of all fragments ([WalkStack_frames]); the
      references a table walk reports decode to their objects ([Walk_Decode]); the owner of a
      lock is the one its lock word was written for ([GetLockOwnerThreadId_owner]), and a
      thread is found by its id in the list ([FindThreadByTid_first]).
    - Java objects: references are well-formed for ever ([references_stay_settled]) and their
      caches cannot be observed ([object_cache_unobservable]); [instanceof] is membership
      among the classes and interfaces of the object ([instanceof_membership]), and a field is
      looked up along the superclasses ([instance_field_last]).
    - Heap dumps: the file parses into its records ([DumpToFile_parses]); in a full dump the first
      run measures the second and collects its strings and classes ([Dump_measured]), and every
      class has its name in the file ([Dump_class_names]).
    - Log buffers: the lines printed are those of the entries logd wrote into the chunk
      ([DecodeDump_prints]).

    Every theorem with hypotheses has a witness: the theorem applied to a small concrete core,
    file or table, evaluated by computation.

    * Not modelled

    - Code outside the repository is a parameter: mmap and files ([Os]), /proc and ptrace
      ([Kernel]), write errors ([Disk]), the time zone of [Logcat], libzstd (sections of [Dwarf]),
      liblzma ([xz_decode] of [Modules]); zlib and capstone users are left out.
    - Text output (the Dump methods, the commands under parser/), the logger, the
      terminal, HTTP and MCP front ends, and path searches in the file system.
    - The vendored demangler (3rd-party) and the build files.
    - Of the fake core writer: the parsers of tombstone text, the invented dynamic section
      and link maps, and libraries inside apk files.
    - The readers of scudo structures, fdtrack, unwindstack, and the wrappers of single framework
      classes under android/sdk and android/services, which only name fields.
    - The invented link maps of a fake core, and memory reserved in advance. *)

From Stdlib Require Import ZArith Lia Bool.
From stdpp Require Export base list strings gmap.
From stdpp Require Export numbers.
#[export] Set Default Goal Selector "!".

Declare Scope core_scope.
Delimit Scope core_scope with core.
Open Scope Z_scope.

(** * Results of C++ code *)

(** What a piece of the C++ code does: it returns a value, it throws
    [InvalidAddressException(addr)] (core/common/exception.h), it leaves the behaviour
    the language defines (unmapped host access, null dereference, out-of-range vector
    index), or the fuel given to a loop of the model ran out. *)
Inductive result (A : Type) : Type :=
  | Ok (a : A)
  | Throw (addr : Z)
  | Fault
  | OutOfFuel.
Arguments Ok {A} a.
Arguments Throw {A} addr.
Arguments Fault {A}.
Arguments OutOfFuel {A}.

(** Sequencing: the rest runs only when the first part returns. *)
Definition rbind {A B} (m : result A) (f : A -> result B) : result B :=
  match m with
  | Ok a => f a
  | Throw p => Throw p
  | Fault => Fault
  | OutOfFuel => OutOfFuel
  end.

Notation "'let!' x ':=' m 'in' k" := (rbind m (fun x => k))
  (at level 200, x binder, right associativity,
   format "'[v' 'let!'  x  ':='  m  'in' '/' k ']'") : core_scope.
Notation "'let?' x ':=' m 'in' k" := (match m with Some x => k | None => None end)
  (at level 200, x pattern, right associativity) : core_scope.
Open Scope core_scope.

(** [try { m } catch (InvalidAddressException&) { h }]. *)
Definition catch {A} (m : result A) (h : Z -> result A) : result A :=
  match m with
  | Throw p => h p
  | _ => m
  end.

Definition of_option {A} (o : option A) : result A :=
  match o with Some a => Ok a | None => Fault end.

Lemma Ok_inj {A} (a b : A) : Ok a = Ok b -> a = b.
Proof. by intros [= ->]. Qed.

Lemma rbind_Ok_inv {A B} (m : result A) (f : A -> result B) b :
  rbind m f = Ok b -> exists a, m = Ok a /\ f a = Ok b.
Proof. destruct m; cbn; naive_solver. Qed.

Lemma rbind_assoc {A B C} (m : result A) (f : A -> result B) (g : B -> result C) :
  rbind (rbind m f) g = rbind m (fun a => rbind (f a) g).
Proof. by destruct m. Qed.

Lemma of_option_Ok {A} (o : option A) a : of_option o = Ok a <-> o = Some a.
Proof. destruct o; cbn; naive_solver. Qed.

(** The code finishes: it returns, throws or faults. *)
Definition ends {A} (m : result A) : Prop := m <> OutOfFuel.

Create HintDb ends_db.

Lemma ends_Ok {A} (a : A) : ends (Ok a).
Proof. done. Qed.
Lemma ends_Throw {A} p : ends (@Throw A p).
Proof. done. Qed.
Lemma ends_Fault {A} : ends (@Fault A).
Proof. done. Qed.
Lemma ends_bind {A B} (m : result A) (f : A -> result B) :
  ends m -> (forall a, m = Ok a -> ends (f a)) -> ends (rbind m f).
Proof. unfold ends. destruct m; cbn; auto. Qed.
Lemma ends_option {A} (o : option A) : ends (of_option o).
Proof. by destruct o. Qed.

#[export] Hint Resolve ends_Ok ends_Throw ends_Fault ends_option : ends_db.

(** Follows the control flow of a program down to its primitive steps. *)
Ltac ends_step :=
  repeat match goal with
  | |- ends (rbind _ _) => apply ends_bind; [|intros ? ?]
  | |- ends (let '_ := ?x in _) => destruct x
  | |- ends (if ?b then _ else _) => destruct b
  | |- ends (match ?x with _ => _ end) => destruct x
  | |- ends _ => solve [auto with ends_db]
  end.

(** Splits hypotheses [rbind m f = Ok b] into their steps. *)
Ltac res_inv :=
  repeat match goal with
  | H : rbind _ _ = Ok _ |- _ =>
      let a := fresh "v" in
      let E := fresh "E" in
      apply rbind_Ok_inv in H; destruct H as (a & E & H)
  | H : of_option _ = Ok _ |- _ => apply of_option_Ok in H
  | H : Ok _ = Ok _ |- _ => apply Ok_inj in H
  | H : Throw _ = Ok _ |- _ => discriminate H
  | H : Fault = Ok _ |- _ => discriminate H
  | H : OutOfFuel = Ok _ |- _ => discriminate H
  end.

(** Case analysis on the boolean tests of a goal, with arithmetic reflection. *)
Ltac bool_cases :=
  repeat match goal with
  | |- context [Z.ltb ?a ?b] => destruct (Z.ltb_spec a b)
  | |- context [Z.leb ?a ?b] => destruct (Z.leb_spec a b)
  | |- context [Z.eqb ?a ?b] => destruct (Z.eqb_spec a b)
  end.

(** Turns boolean hypotheses about [Z] into propositions. *)
Ltac to_prop :=
  repeat match goal with
  | H : Z.ltb _ _ = true |- _ => apply Z.ltb_lt in H
  | H : Z.ltb _ _ = false |- _ => apply Z.ltb_ge in H
  | H : Z.leb _ _ = true |- _ => apply Z.leb_le in H
  | H : Z.leb _ _ = false |- _ => apply Z.leb_gt in H
  | H : Z.eqb _ _ = true |- _ => apply Z.eqb_eq in H
  | H : Z.eqb _ _ = false |- _ => apply Z.eqb_neq in H
  | H : andb _ _ = true |- _ => apply andb_true_iff in H; destruct H
  | H : orb _ _ = false |- _ => apply orb_false_iff in H; destruct H
  | H : negb _ = true |- _ => apply negb_true_iff in H
  | H : negb _ = false |- _ => apply negb_false_iff in H
  end.

(** * Programs with a state *)

(** Code that updates an object and may throw: the updates made before an exception
    remain. *)
Definition prog (S A : Type) : Type := S -> S * result A.

Definition pret {S A} (a : A) : prog S A := fun s => (s, Ok a).
Definition pbind {S A B} (m : prog S A) (f : A -> prog S B) : prog S B := fun s =>
  match m s with
  | (s', Ok a) => f a s'
  | (s', Throw p) => (s', Throw p)
  | (s', Fault) => (s', Fault)
  | (s', OutOfFuel) => (s', OutOfFuel)
  end.
(** Code that does not touch the state. *)
Definition lift {S A} (m : result A) : prog S A := fun s => (s, m).
Definition get {S} : prog S S := fun s => (s, Ok s).
Definition modify {S} (f : S -> S) : prog S unit := fun s => (f s, Ok tt).
(** [try { m } catch (InvalidAddressException&) { h }]. *)
Definition ptry {S A} (m : prog S A) (h : Z -> prog S A) : prog S A := fun s =>
  match m s with
  | (s', Throw p) => h p s'
  | r => r
  end.
(** Code that works on a part of the state. *)
Definition on_part {S T A} (view : S -> T) (update : S -> T -> S) (m : T -> result (T * A))
    : prog S A := fun s =>
  match m (view s) with
  | Ok (t, a) => (update s t, Ok a)
  | Throw p => (s, Throw p)
  | Fault => (s, Fault)
  | OutOfFuel => (s, OutOfFuel)
  end.

Lemma pbind_Ok {S A B} (m : prog S A) (f : A -> prog S B) s s' a :
  m s = (s', Ok a) -> pbind m f s = f a s'.
Proof. unfold pbind. by intros ->. Qed.

Lemma pbind_lift {S A B} (m : result A) (f : A -> prog S B) s a :
  m = Ok a -> pbind (lift m) f s = f a s.
Proof. by intros ->. Qed.

(** A program with a state finishes from the state [s]. *)
Definition ends_from {S A} (m : prog S A) (s : S) : Prop := ends (snd (m s)).

Lemma ends_pret {S A} (a : A) (s : S) : ends_from (pret a) s.
Proof. done. Qed.
Lemma ends_lift {S A} (m : result A) (s : S) : ends m -> ends_from (lift m) s.
Proof. done. Qed.
Lemma ends_pbind {S A B} (m : prog S A) (f : A -> prog S B) s :
  ends_from m s -> (forall s' a, m s = (s', Ok a) -> ends_from (f a) s') ->
  ends_from (pbind m f) s.
Proof. unfold ends_from, pbind, ends. destruct (m s) as [s' []]; cbn; eauto. Qed.

Lemma pbind_Ok_inv {S A B} (m : prog S A) (f : A -> prog S B) s s' b :
  pbind m f s = (s', Ok b) -> exists s1 a, m s = (s1, Ok a) /\ f a s1 = (s', Ok b).
Proof. unfold pbind. destruct (m s) as [s1 []]; intros; simplify_eq; eauto. Qed.

Lemma lift_Ok_inv {S A} (m : result A) (s s' : S) a :
  lift m s = (s', Ok a) -> s' = s /\ m = Ok a.
Proof. unfold lift. naive_solver. Qed.

Notation "'let$' x ':=' m 'in' k" := (pbind m (fun x => k))
  (at level 200, x binder, right associativity,
   format "'[v' 'let$'  x  ':='  m  'in' '/' k ']'") : core_scope.

(** * Fixed-width integers *)

(** A [w]-bit unsigned integer is a [Z] in [0, 2^w); [wrap w] is the conversion. *)
Definition wrap (w z : Z) : Z := z mod 2 ^ w.
Abbreviation u8 := (wrap 8).
Abbreviation u16 := (wrap 16).
Abbreviation u32 := (wrap 32).
Abbreviation u64 := (wrap 64).

(** The two's-complement reading of the low [w] bits. *)
Definition sint (w z : Z) : Z :=
  let v := wrap w z in if v <? 2 ^ (w - 1) then v else v - 2 ^ w.
Abbreviation i32 := (sint 32).
Abbreviation i64 := (sint 64).

(** Shift left of an unsigned [w]-bit value. *)
Definition shl (w x n : Z) : Z := wrap w (Z.shiftl x n).
(** Bitwise complement of an unsigned [w]-bit value. *)
Definition bnot (w x : Z) : Z := wrap w (Z.lnot x).

Create Rewrite HintDb words.
Create HintDb words_ok.
Create HintDb core_db.

Lemma wrap_range w z : 0 <= w -> 0 <= wrap w z < 2 ^ w.
Proof. intros. apply Z.mod_pos_bound, Z.pow_pos_nonneg; lia. Qed.

Lemma wrap_small w z : 0 <= z < 2 ^ w -> wrap w z = z.
Proof. apply Z.mod_small. Qed.
Lemma sint_small w v : 0 < w -> - 2 ^ (w - 1) <= v < 2 ^ (w - 1) -> sint w v = v.
Proof.
  intros Hw Hv. assert (2 ^ w = 2 * 2 ^ (w - 1))
    by (replace w with (1 + (w - 1)) at 1 by lia; rewrite Z.pow_add_r by lia; lia).
  unfold sint, wrap. destruct (Z.leb_spec 0 v).
  - rewrite Z.mod_small by lia. by rewrite (proj2 (Z.ltb_lt v _)) by lia.
  - replace (v mod 2 ^ w) with (v + 2 ^ w)
      by (rewrite <- (Z.mod_add v 1) by lia; rewrite Z.mod_small; lia).
    rewrite (proj2 (Z.ltb_ge _ _)) by lia. lia.
Qed.

Lemma wrap_wrap w z : 0 <= w -> wrap w (wrap w z) = wrap w z.
Proof. intros. apply wrap_small, wrap_range; lia. Qed.

Lemma wrap_add_l w a b : 0 <= w -> wrap w (wrap w a + b) = wrap w (a + b).
Proof. intros. unfold wrap. apply Z.add_mod_idemp_l. lia. Qed.

Lemma wrap_ones w z : 0 <= w -> wrap w z = Z.land z (Z.ones w).
Proof. intros. symmetry. by apply Z.land_ones. Qed.

Lemma wrap_testbit w z i :
  0 <= w -> 0 <= i -> Z.testbit (wrap w z) i = (i <? w) && Z.testbit z i.
Proof.
  intros Hw Hi. unfold wrap. bool_cases; cbn.
  - by rewrite Z.mod_pow2_bits_low.
  - by rewrite Z.mod_pow2_bits_high by lia.
Qed.

Lemma testbit_small z w i : 0 <= z < 2 ^ w -> 0 <= w <= i -> Z.testbit z i = false.
Proof.
  intros Hz Hi. rewrite <- (Z.mod_small z (2 ^ w)) by done.
  by apply Z.mod_pow2_bits_high.
Qed.

#[export] Hint Rewrite wrap_testbit using lia : words.
#[export] Hint Rewrite Z.land_spec Z.lor_spec Z.lxor_spec Z.shiftr_spec using lia : words.
#[export] Hint Rewrite Z.shiftl_spec Z.lnot_spec using lia : words.
#[export] Hint Resolve wrap_range : words_ok.

(** Proves an equation between bit-vectors bit by bit. *)
Ltac bitwise i :=
  apply Z.bits_inj'; intros i ?; autorewrite with words.

(** Setting the bits above a small value adds them. *)
Lemma lor_high x k n : 0 <= n -> 0 <= x < 2 ^ n -> Z.lor x (k * 2 ^ n) = x + k * 2 ^ n.
Proof.
  intros Hn Hx. rewrite <- Z.shiftl_mul_pow2 by done.
  assert (Z.land x (Z.shiftl k n) = 0) as H.
  { apply Z.bits_inj'. intros i Hi. rewrite Z.land_spec, Z.bits_0, Z.shiftl_spec by done.
    destruct (Z.ltb_spec i n).
    - rewrite (Z.testbit_neg_r k) by lia. apply andb_false_r.
    - by rewrite (testbit_small x n) by lia. }
  by rewrite Z.add_nocarry_lxor, Z.lxor_lor.
Qed.

Lemma land_range w a b : 0 <= w -> 0 <= a < 2 ^ w -> 0 <= Z.land a b < 2 ^ w.
Proof.
  intros Hw Ha. replace (Z.land a b) with (wrap w (Z.land a b)); [by apply wrap_range|].
  apply Z.bits_inj'. intros i Hi. rewrite wrap_testbit, Z.land_spec by lia.
  destruct (Z.ltb_spec i w); [done|]. by rewrite (testbit_small a w) by lia.
Qed.

(** * Bytes and little-endian words *)

Definition byte_ok (b : Z) : Prop := 0 <= b < 256.

(** The unsigned integer stored in a run of bytes, least significant byte first. *)
Fixpoint le_value (l : list Z) : Z :=
  match l with
  | [] => 0
  | b :: t => b + 256 * le_value t
  end.

(** The first [n] bytes of an integer, least significant byte first. *)
Fixpoint le_bytes (n : nat) (z : Z) : list Z :=
  match n with
  | O => []
  | S m => z mod 256 :: le_bytes m (z / 256)
  end.

Lemma le_value_range l :
  Forall byte_ok l -> 0 <= le_value l < 2 ^ (8 * Z.of_nat (length l)).
Proof.
  induction 1 as [|b l Hb _ IH]; cbn -[Z.mul Z.pow Z.of_nat]; [done|].
  unfold byte_ok in Hb.
  replace (8 * Z.of_nat (S (length l))) with (8 + 8 * Z.of_nat (length l)) by lia.
  rewrite Z.pow_add_r by lia. change (2 ^ 8) with 256. nia.
Qed.

Lemma le_bytes_length n z : length (le_bytes n z) = n.
Proof. revert z. induction n; cbn; auto. Qed.

Lemma le_bytes_ok n z : Forall byte_ok (le_bytes n z).
Proof.
  revert z. induction n; intros z; cbn; constructor; auto.
  apply Z.mod_pos_bound. lia.
Qed.

Lemma le_value_bytes n z : le_value (le_bytes n z) = z mod 2 ^ (8 * Z.of_nat n).
Proof.
  revert z. induction n as [|n IH]; intros z; cbn -[Z.mul Z.pow Z.of_nat].
  - by rewrite Z.mod_1_r.
  - rewrite IH. replace (8 * Z.of_nat (S n)) with (8 + 8 * Z.of_nat n) by lia.
    rewrite Z.pow_add_r by lia. change (2 ^ 8) with 256.
    rewrite Z.rem_mul_r; [lia|lia|]. apply Z.pow_pos_nonneg; lia.
Qed.

Lemma byte_cons_testbit b z i :
  byte_ok b -> 0 <= i ->
  Z.testbit (b + 256 * z) i = if i <? 8 then Z.testbit b i else Z.testbit z (i - 8).
Proof.
  intros Hb Hi. unfold byte_ok in Hb. change 256 with (2 ^ 8).
  bool_cases.
  - rewrite <- (Z.mod_pow2_bits_low _ 8) by lia.
    rewrite Z.mul_comm, Z.mod_add by lia.
    by rewrite Z.mod_pow2_bits_low by lia.
  - replace i with ((i - 8) + 8) at 1 by lia.
    rewrite <- Z.div_pow2_bits by lia.
    rewrite Z.mul_comm, Z.div_add by lia.
    rewrite (Z.div_small b) by (change (2 ^ 8) with 256; lia). f_equal; lia.
Qed.

(** Bit [i] of a little-endian word is bit [i mod 8] of byte [i / 8]. *)
Lemma le_value_testbit l i :
  Forall byte_ok l -> 0 <= i ->
  Z.testbit (le_value l) i = Z.testbit (default 0 (l !! Z.to_nat (i / 8))) (i mod 8).
Proof.
  intros Hl. revert i. induction Hl as [|b l Hb _ IH]; intros i Hi.
  - cbn. rewrite lookup_nil. cbn. by rewrite !Z.bits_0.
  - cbn [le_value]. rewrite byte_cons_testbit by done. bool_cases.
    + rewrite Z.div_small, Z.mod_small by lia. done.
    + rewrite IH by lia.
      replace i with ((i - 8) + 1 * 8) at 3 4 by lia.
      rewrite Z.div_add, Z.mod_add by lia.
      rewrite Z2Nat.inj_add by (try apply Z.div_pos; lia).
      replace (Z.to_nat ((i - 8) / 8) + Z.to_nat 1)%nat
        with (S (Z.to_nat ((i - 8) / 8))) by lia.
      done.
Qed.

(** Dropping and taking bytes divides and reduces the number. *)
Lemma le_value_drop k l :
  Forall byte_ok l -> le_value (drop k l) = le_value l / 2 ^ (8 * Z.of_nat k).
Proof.
  intros Hl. revert k. induction Hl as [|b l Hb Hl IH]; intros k.
  - rewrite drop_nil. cbn [le_value]. rewrite Z.div_0_l; [done|].
    apply Z.pow_nonzero; lia.
  - destruct k as [|k]; [by rewrite drop_0, Z.mul_0_r, Z.div_1_r|].
    cbn [drop le_value]. rewrite IH. unfold byte_ok in Hb.
    replace (8 * Z.of_nat (S k)) with (8 + 8 * Z.of_nat k) by lia.
    rewrite Z.pow_add_r by lia. change (2 ^ 8) with 256.
    rewrite <- Z.div_div by (try apply Z.pow_pos_nonneg; lia).
    rewrite (Z.mul_comm 256 (le_value l)), Z.div_add by lia.
    by rewrite (Z.div_small b) by lia.
Qed.

Lemma le_value_take k l :
  Forall byte_ok l -> le_value (take k l) = le_value l mod 2 ^ (8 * Z.of_nat k).
Proof.
  intros Hl. revert k. induction Hl as [|b l Hb Hl IH]; intros k.
  - by rewrite take_nil.
  - destruct k as [|k]; [by rewrite Z.mul_0_r, Z.mod_1_r|].
    cbn [take le_value]. rewrite IH. unfold byte_ok in Hb.
    replace (8 * Z.of_nat (S k)) with (8 + 8 * Z.of_nat k) by lia.
    rewrite Z.pow_add_r by lia. change (2 ^ 8) with 256.
    rewrite Z.rem_mul_r; [|lia|apply Z.pow_pos_nonneg; lia].
    assert (Hm : (b + 256 * le_value l) mod 256 = b)
      by (rewrite Z.mul_comm, Z.mod_add by lia; by apply Z.mod_small).
    assert (Hd : (b + 256 * le_value l) / 256 = le_value l)
      by (rewrite Z.mul_comm, Z.div_add by lia; rewrite Z.div_small; lia).
    by rewrite Hm, Hd.
Qed.

(** The [n]-bit field of a number from bit [pos] on. *)
Definition field_at (v pos n : Z) : Z := (v / 2 ^ pos) mod 2 ^ n.

Lemma field_at_testbit v pos n i :
  0 <= pos -> 0 <= n -> 0 <= i ->
  Z.testbit (field_at v pos n) i = (i <? n) && Z.testbit v (i + pos).
Proof.
  intros Hp Hn Hi. unfold field_at. destruct (Z.ltb_spec i n); cbn.
  - by rewrite Z.mod_pow2_bits_low, Z.div_pow2_bits by lia.
  - by rewrite Z.mod_pow2_bits_high by lia.
Qed.

Lemma field_at_range v pos n : 0 <= n -> 0 <= field_at v pos n < 2 ^ n.
Proof. intros. apply Z.mod_pos_bound, Z.pow_pos_nonneg; lia. Qed.

(** A field of a field. *)
Lemma field_at_field v pos n p m :
  0 <= pos -> 0 <= p -> 0 <= m -> p + m <= n ->
  field_at (field_at v pos n) p m = field_at v (pos + p) m.
Proof.
  intros. apply Z.bits_inj'. intros i ?. rewrite !field_at_testbit by lia.
  destruct (Z.ltb_spec i m); cbn; [|done].
  rewrite (proj2 (Z.ltb_lt (i + p) n)) by lia. cbn. f_equal. lia.
Qed.

(** The bytes [k, k+n) of a number. *)
Lemma le_value_field k n l :
  Forall byte_ok l ->
  le_value (take n (drop k l)) = field_at (le_value l) (8 * Z.of_nat k) (8 * Z.of_nat n).
Proof.
  intros Hl. rewrite le_value_take by (by apply Forall_drop).
  by rewrite le_value_drop.
Qed.

(** The bytes of a string literal (without its terminator). *)
Definition chars (s : string) : list Z :=
  map (fun c => Z.of_N (Ascii.N_of_ascii c)) (String.list_ascii_of_string s).

(** * Lists *)

Lemma Forall_elem {A} (P : A -> Prop) l : Forall P l <-> forall x, x ∈ l -> P x.
Proof. setoid_rewrite list_elem_of_In. apply List.Forall_forall. Qed.
Lemma Exists_elem {A} (P : A -> Prop) l : Exists P l <-> exists x, x ∈ l /\ P x.
Proof.
  rewrite List.Exists_exists. split; intros (x & Hx & HP); exists x; split; try done;
    by apply list_elem_of_In.
Qed.

(** [R] holds of every pair of positions [i < j]. *)
Definition pairwise {A} (R : A -> A -> Prop) (l : list A) : Prop :=
  forall i j x y, (i < j)%nat -> l !! i = Some x -> l !! j = Some y -> R x y.

(** C++ [vector::insert(begin() + k, x)]. *)
Definition insert_at {A} (k : nat) (x : A) (l : list A) : list A :=
  take k l ++ x :: drop k l.

Lemma pairwise_cons {A} (R : A -> A -> Prop) x l :
  pairwise R (x :: l) <-> Forall (R x) l /\ pairwise R l.
Proof.
  split.
  - intros H. split.
    + apply Forall_lookup. intros i y Hi. by apply (H 0%nat (S i)); [lia|..].
    + intros i j a b Hij Ha Hb. by apply (H (S i) (S j)); [lia|..].
  - intros [Hx Hl] i j a b Hij Ha Hb.
    destruct j as [|j]; [lia|]. destruct i as [|i]; cbn in *.
    + simplify_eq. by eapply (Forall_lookup_1 _ _ _ _ Hx).
    + apply (Hl i j); [lia|done|done].
Qed.

Lemma pairwise_app {A} (R : A -> A -> Prop) l1 l2 :
  pairwise R (l1 ++ l2) <->
  pairwise R l1 /\ pairwise R l2 /\ (forall x y, x ∈ l1 -> y ∈ l2 -> R x y).
Proof.
  induction l1 as [|a l1 IH]; cbn.
  - split; [|tauto]. intros H. split_and!; [|done|set_solver].
    intros ? ? ? ? _ Hn. by rewrite lookup_nil in Hn.
  - rewrite !pairwise_cons, IH, Forall_app, !Forall_elem. clear IH. split.
    + intros ([H1 H2] & H3 & H4 & H5). split_and!; [done..|].
      intros x y [->|Hx]%elem_of_cons Hy; auto.
    + intros ([H1 H2] & H3 & H4). split_and!; [done| |done|done|].
      * intros y Hy. apply H4; [apply list_elem_of_here|done].
      * intros x y Hx Hy. apply H4; [by apply list_elem_of_further|done].
Qed.

Lemma insert_at_elem {A} k (x y : A) l : y ∈ insert_at k x l <-> y = x \/ y ∈ l.
Proof.
  unfold insert_at. rewrite elem_of_app, elem_of_cons.
  rewrite <- (take_drop k l) at 3. rewrite elem_of_app. tauto.
Qed.

Lemma pairwise_insert_at {A} (R : A -> A -> Prop) k x l :
  pairwise R l ->
  (forall y, y ∈ take k l -> R y x) -> (forall y, y ∈ drop k l -> R x y) ->
  pairwise R (insert_at k x l).
Proof.
  intros Hl Hb Ha. unfold insert_at. rewrite <- (take_drop k l) in Hl.
  apply pairwise_app in Hl as (H1 & H2 & H3).
  apply pairwise_app. split_and!; [done| |].
  - apply pairwise_cons. split; [by apply Forall_elem|done].
  - intros y z Hy [->|Hz]%elem_of_cons; auto.
Qed.

Lemma insert_at_end {A} (l : list A) x : insert_at (length l) x l = l ++ [x].
Proof. unfold insert_at. by rewrite firstn_all, drop_all. Qed.

Lemma elem_of_take_drop_l {A} k (l : list A) x : x ∈ take k l -> x ∈ l.
Proof. intros. rewrite <- (take_drop k l). apply elem_of_app. auto. Qed.

Lemma elem_of_take_drop_r {A} k (l : list A) x : x ∈ drop k l -> x ∈ l.
Proof. intros. rewrite <- (take_drop k l). apply elem_of_app. auto. Qed.

Lemma sublist_elem {A} (l1 l2 : list A) x : sublist l1 l2 -> x ∈ l1 -> x ∈ l2.
Proof.
  induction 1; [done| |]; intros Hx.
  - apply elem_of_cons in Hx as [->|Hx]; [apply list_elem_of_here|].
    apply list_elem_of_further. auto.
  - apply list_elem_of_further. auto.
Qed.

Lemma pairwise_sublist {A} (R : A -> A -> Prop) l1 l2 :
  sublist l1 l2 -> pairwise R l2 -> pairwise R l1.
Proof.
  induction 1 as [|x l1 l2 Hs IH|x l1 l2 Hs IH]; [done| |]; rewrite pairwise_cons.
  - intros [Hx Hl]. apply pairwise_cons. split; [|auto].
    rewrite Forall_elem in *. intros y Hy. apply Hx. by eapply sublist_elem.
  - intros [_ Hl]. auto.
Qed.
