(* ===== verification/Words.v ===== *)
(** Word-level helpers of the code: core/common/bit.h (rounding to a power of two and
    [GENMASK_UL]), android/art/base/bit_utils.h (masks, bit-field extraction, population
    count) and the byte-order arithmetic the loaders use. A [w]-bit unsigned value is a
    [Z] in [0, 2^w), as in [Prelude]. *)

From Stdlib Require Import ZArith Lia Bool.
From stdpp Require Import base list numbers.
From S2P Require Import Prelude.
Open Scope Z_scope.

(** * core/common/bit.h *)

(** [RoundDown<T>(x, n) = x & -n] at a [w]-bit unsigned [T]. *)
Definition RoundDown (w x n : Z) : Z := Z.land x (wrap w (- n)).

(** [RoundUp<T>(x, n) = RoundDown(x + n - 1, n)]; the addition wraps. *)
Definition RoundUp (w x n : Z) : Z := RoundDown w (wrap w (x + n - 1)) n.

(** [GENMASK_UL(h, l)], with [~0ULL] of 64 bits. *)
Definition GENMASK_UL (h l : Z) : Z :=
  Z.land (shl 64 (2 ^ 64 - 1) l) (Z.shiftr (2 ^ 64 - 1) (64 - 1 - h)).

(** * android/art/base/bit_utils.h *)

(** [MaskLeastSignificant<T>(bits)] for a [w]-bit [T]. *)
Definition MaskLeastSignificant (w bits : Z) : Z :=
  if w <=? bits then 2 ^ w - 1 else wrap w (shl w 1 bits - 1).

(** [BitFieldExtract<T>(value, lsb, width)] for an unsigned [w]-bit [T] (the only
    instantiation in the program is [uint64_t], where the sign-extension branch of the
    template is compiled out). *)
Definition BitFieldExtract (w value lsb width : Z) : Z :=
  Z.land (Z.shiftr value lsb) (MaskLeastSignificant w width).

(** [POPCOUNT(x)]: the number of one bits among the low [n] bits. *)
Fixpoint popcount (n : nat) (x : Z) : Z :=
  match n with
  | O => 0
  | S m => (if Z.testbit x (Z.of_nat m) then 1 else 0) + popcount m x
  end.
Definition POPCOUNT (x : Z) : Z := popcount 64 x.

(** * Lemmas *)

(** Masking with [-2^k] clears the low [k] bits. *)
Lemma RoundDown_pow2 w x k :
  0 <= k < w -> 0 <= x < 2 ^ w -> RoundDown w x (2 ^ k) = x / 2 ^ k * 2 ^ k.
Proof.
  intros Hk Hx. unfold RoundDown.
  rewrite <- Z.shiftr_div_pow2, <- Z.shiftl_mul_pow2, <- Z.ldiff_ones_r by lia.
  bitwise i. rewrite Z.ldiff_spec.
  replace (- 2 ^ k) with (Z.lnot (Z.ones k)) by (rewrite Z.ones_equiv; unfold Z.lnot; lia).
  rewrite Z.lnot_spec by lia.
  destruct (Z.ltb_spec i w); cbn; [done|].
  by rewrite (testbit_small x w) by lia.
Qed.

Lemma RoundDown_range w x k :
  0 <= k < w -> 0 <= x < 2 ^ w -> x - 2 ^ k < RoundDown w x (2 ^ k) <= x.
Proof.
  intros Hk Hx. rewrite RoundDown_pow2 by done.
  assert (0 < 2 ^ k) by (apply Z.pow_pos_nonneg; lia).
  pose proof (Z.div_mod x (2 ^ k)). pose proof (Z.mod_pos_bound x (2 ^ k)). lia.
Qed.

Lemma RoundUp_pow2 w x k :
  0 <= k < w -> 0 <= x -> x + 2 ^ k - 1 < 2 ^ w ->
  RoundUp w x (2 ^ k) = (x + 2 ^ k - 1) / 2 ^ k * 2 ^ k.
Proof.
  intros Hk Hx Hs. unfold RoundUp.
  assert (0 < 2 ^ k) by (apply Z.pow_pos_nonneg; lia).
  rewrite wrap_small, RoundDown_pow2 by lia. done.
Qed.

(** Without overflow, [RoundUp] is the least multiple of [2^k] not below [x]. *)
Lemma RoundUp_range w x k :
  0 <= k < w -> 0 <= x -> x + 2 ^ k - 1 < 2 ^ w ->
  x <= RoundUp w x (2 ^ k) < x + 2 ^ k.
Proof.
  intros Hk Hx Hs. rewrite RoundUp_pow2 by done.
  assert (0 < 2 ^ k) by (apply Z.pow_pos_nonneg; lia).
  pose proof (Z.div_mod (x + 2 ^ k - 1) (2 ^ k)).
  pose proof (Z.mod_pos_bound (x + 2 ^ k - 1) (2 ^ k)). lia.
Qed.

Lemma RoundUp_divide w x k :
  0 <= k < w -> 0 <= x -> x + 2 ^ k - 1 < 2 ^ w -> (2 ^ k | RoundUp w x (2 ^ k)).
Proof. intros. rewrite RoundUp_pow2 by done. apply Z.divide_factor_r. Qed.

(** Rounded values are [w]-bit values, overflow or not. *)
Lemma RoundDown_bounds w x k :
  0 <= k < w -> 0 <= x < 2 ^ w -> 0 <= RoundDown w x (2 ^ k) < 2 ^ w.
Proof.
  intros Hk Hx. split.
  - apply Z.land_nonneg. lia.
  - pose proof (RoundDown_range w x k). lia.
Qed.

Lemma RoundUp_bounds w x k : 0 <= k < w -> 0 <= RoundUp w x (2 ^ k) < 2 ^ w.
Proof. intros. apply RoundDown_bounds; [done|]. apply wrap_range. lia. Qed.

Lemma GENMASK_UL_low h : 0 <= h < 64 -> GENMASK_UL h 0 = Z.ones (h + 1).
Proof.
  intros Hh. unfold GENMASK_UL, shl. change (2 ^ 64 - 1) with (Z.ones 64).
  bitwise i. rewrite Z.sub_0_r, !Z.testbit_ones_nonneg by lia.
  bool_cases; cbn; lia || done.
Qed.

Lemma MaskLeastSignificant_ones w bits :
  0 <= bits -> 0 <= w -> MaskLeastSignificant w bits = Z.ones (Z.min bits w).
Proof.
  intros Hb Hw. unfold MaskLeastSignificant, shl. bool_cases.
  - rewrite Z.min_r, Z.ones_equiv by lia. lia.
  - rewrite Z.min_l, Z.shiftl_1_l, Z.ones_equiv by lia.
    assert (0 < 2 ^ bits) by (apply Z.pow_pos_nonneg; lia).
    assert (2 ^ bits < 2 ^ w) by (apply Z.pow_lt_mono_r; lia).
    rewrite (wrap_small w (2 ^ bits)) by lia. rewrite wrap_small by lia. lia.
Qed.

Lemma BitFieldExtract_spec w value lsb width :
  0 <= lsb -> 0 <= width <= w ->
  BitFieldExtract w value lsb width = (value / 2 ^ lsb) mod 2 ^ width.
Proof.
  intros Hl Hw. unfold BitFieldExtract.
  rewrite MaskLeastSignificant_ones, Z.min_l, Z.land_ones by lia.
  by rewrite Z.shiftr_div_pow2 by lia.
Qed.
