(* ===== verification/Host.v ===== *)
(** The memory of the analyser process itself: the regions it has mapped (the core file,
    mmapped libraries, overlays), [memcpy] and pointer reads on them, and
    utils/base/linux/memory_map.cpp, whose [MemoryMap] objects own those regions.

    The kernel and the file system are not part of the program: they are the class [Os]
    ([mmap]'s choice of address, the content of a file, the page size), and what the
    code relies on is the class [OsLaws]. *)

From Stdlib Require Import ZArith Lia Bool.
From stdpp Require Import base list numbers.
From S2P Require Import Prelude Words.
Open Scope Z_scope.

(** * Mapped regions *)

(** One mapping of the process: its base address, whether it is writable, its bytes. An
    access is defined when one region holds all the bytes it touches. *)
Record region := Region { rg_base : Z; rg_write : bool; rg_bytes : list Z }.

Definition rg_end (r : region) : Z := rg_base r + Z.of_nat (length (rg_bytes r)).

Abbreviation host := (list region).

Definition rg_has (a n : Z) (r : region) : bool :=
  (rg_base r <=? a) && (0 <=? n) && (a + n <=? rg_end r).

Definition host_find (h : host) (a n : Z) : option (nat * region) :=
  list_find (fun r => rg_has a n r = true) h.

(** Bytes [a, a+n) of the process memory. *)
Definition host_load (h : host) (a n : Z) : result (list Z) :=
  match host_find h a n with
  | Some (_, r) => Ok (take (Z.to_nat n) (drop (Z.to_nat (a - rg_base r)) (rg_bytes r)))
  | None => Fault
  end.

(** Overwrites the elements of [l] from position [off] with [bs]. *)
Definition splice (off : nat) (bs l : list Z) : list Z :=
  take off l ++ bs ++ drop (off + length bs) l.

(** Stores [bs] at address [a]. *)
Definition host_store (h : host) (a : Z) (bs : list Z) : result host :=
  match host_find h a (Z.of_nat (length bs)) with
  | Some (i, r) =>
      if rg_write r then
        Ok (<[i := Region (rg_base r) true
                     (splice (Z.to_nat (a - rg_base r)) bs (rg_bytes r))]> h)
      else Fault
  | None => Fault
  end.

(** [memcpy(dst, src, n)]. *)
Definition host_memcpy (h : host) (dst src n : Z) : result host :=
  let! bs := host_load h src n in host_store h dst bs.

(** An [n]-byte little-endian load through a pointer. *)
Definition host_word (h : host) (a n : Z) : result Z :=
  let! bs := host_load h a n in Ok (le_value bs).

(** The bytes of a NUL-terminated string, terminator excluded. *)
Fixpoint cstr_of (l : list Z) : option (list Z) :=
  match l with
  | [] => None
  | b :: t => if b =? 0 then Some [] else let? s := cstr_of t in Some (b :: s)
  end.

Definition host_cstr (h : host) (a : Z) : result (list Z) :=
  match host_find h a 1 with
  | Some (_, r) => of_option (cstr_of (drop (Z.to_nat (a - rg_base r)) (rg_bytes r)))
  | None => Fault
  end.

(** [munmap] of the region that starts at [a]. *)
Definition host_unmap (h : host) (a : Z) : host :=
  filter (fun r => rg_base r <> a) h.

(** * The operating system *)

Class Os := {
  (** The address an anonymous [mmap(NULL, size, PROT_READ|PROT_WRITE, ...)] returns. *)
  os_mmap : host -> Z -> option Z;
  (** The bytes of the file at a path, if it can be opened. *)
  os_file : list Z -> option (list Z);
  (** [sysconf(_SC_PAGE_SIZE)]. *)
  os_page : Z;
}.

(** [mmap] returns a range of the address space that no live mapping overlaps. *)
Class OsLaws `{Os} := {
  os_mmap_fresh : forall h size a, os_mmap h size = Some a -> 0 < size ->
    0 < a /\ a + size < 2 ^ 64 /\
    Forall (fun r => rg_end r <= a \/ a + size <= rg_base r) h;
  os_page_pow2 : exists k, 0 <= k < 32 /\ os_page = 2 ^ k;
}.

(** * [MemoryMap] *)

Record MemoryMap := {
  mMapName : list Z;
  mBegin : Z;
  mSize : Z;
  mMapOffset : Z;
  mMaxSize : Z;
}.

(** [MemoryMap::setFile]. *)
Definition setFile (m : MemoryMap) (file : list Z) (off : Z) : MemoryMap :=
  {| mMapName := file; mBegin := mBegin m; mSize := mSize m; mMapOffset := off;
     mMaxSize := mMaxSize m |}.

(** [Utils::CRC32] (utils/base/utils.cpp): bit by bit over each byte. *)
Fixpoint crc32_bits (n : nat) (crc : Z) : Z :=
  match n with
  | O => crc
  | S m => crc32_bits m
      (if Z.testbit crc 31 then u32 (Z.lxor (shl 32 crc 1) 0x04C11DB7)
       else u32 (shl 32 crc 1))
  end.

Definition CRC32 (data : list Z) : Z :=
  foldl (fun crc b => crc32_bits 8 (Z.lxor crc (shl 32 b 24))) 0xFFFFFFFF data.

Definition CRC64_step (crc b : Z) : Z :=
  Nat.iter 8 (fun c => if Z.testbit c 63 then Z.lxor (shl 64 c 1) 0x42F0E1EBA9EA3693
                       else shl 64 c 1) (Z.lxor crc (shl 64 b 56)).

Definition CRC64 (data : list Z) : Z := foldl CRC64_step 0xFFFFFFFFFFFFFFFF data.

Section MemoryMapOps.
Context `{Os}.

(** [MemoryMap::MmapZeroMem(size)]. *)
Definition MmapZeroMem (h : host) (size : Z) : host * option MemoryMap :=
  match os_mmap h size with
  | None => (h, None)
  | Some mem =>
      (h ++ [Region mem true (replicate (Z.to_nat size) 0)],
       Some {| mMapName := []; mBegin := mem; mSize := size; mMapOffset := 0; mMaxSize := size |})
  end.

(** [MemoryMap::MmapMem(addr, size, realSize)]: an anonymous mapping (zero-filled by
    the kernel) that starts with [realSize] bytes copied from [addr]. *)
Definition MmapMem (h : host) (addr size realSize : Z) : result (host * option MemoryMap) :=
  match os_mmap h size with
  | None => Ok (h, None)
  | Some mem =>
      let! h' := host_memcpy (h ++ [Region mem true (replicate (Z.to_nat size) 0)])
                       mem addr realSize in
      Ok (h', Some {| mMapName := []; mBegin := mem; mSize := size; mMapOffset := 0;
                      mMaxSize := size |})
  end.

(** The readable bytes of a file mapping of [size] bytes at [off]: the file's bytes,
    then zeros up to the end of the last page that holds file data. *)
Definition file_window (content : list Z) (off size : Z) : list Z :=
  let bs := drop (Z.to_nat off) content in
  let paged := RoundUp 64 (Z.of_nat (length bs)) os_page in
  take (Z.to_nat size) (bs ++ replicate (Z.to_nat paged - length bs) 0).

(** [MemoryMap::MmapFile(file, size, off)]. *)
Definition MmapFile (h : host) (file : list Z) (size off : Z) : host * option MemoryMap :=
  match os_file file with
  | None => (h, None)                                       (* open failed *)
  | Some content =>
      let st_size := Z.of_nat (length content) in
      if st_size <=? off then (h, None) else
      match os_mmap h size with
      | None => (h, None)
      | Some mem =>
          let real_size := Z.min size (st_size - off) in
          (h ++ [Region mem false (file_window content off size)],
           Some (setFile {| mMapName := []; mBegin := mem; mSize := size; mMapOffset := off;
                            mMaxSize := real_size |} file off))
      end
  end.

(** [MemoryMap::MmapFile(file, off)] and [MmapFile(file)] (offset 0). *)
Definition MmapFile_from (h : host) (file : list Z) (off : Z) : host * option MemoryMap :=
  match os_file file with
  | None => (h, None)                                       (* stat failed *)
  | Some content =>
      let st_size := Z.of_nat (length content) in
      if st_size <=? off then (h, None) else MmapFile h file (st_size - off) off
  end.

(** [~MemoryMap]. *)
Definition unmap (h : host) (m : MemoryMap) : host := host_unmap h (mBegin m).

(** [MemoryMap::GetCRC32]: the length argument of [CRC32] is a [uint32_t]. *)
Definition GetCRC32 (h : host) (m : MemoryMap) : result Z :=
  let! bs := host_load h (mBegin m) (u32 (mSize m)) in Ok (CRC32 bs).
End MemoryMapOps.

(** * Laws of the process memory *)

Section HostLaws.
Implicit Types h : host.

Lemma ends_load h a n : ends (host_load h a n).
Proof. unfold host_load. by destruct (host_find h a n) as [[]|]. Qed.
Lemma ends_word h a n : ends (host_word h a n).
Proof. unfold host_word. apply ends_bind; [apply ends_load|by intros]. Qed.
Lemma ends_cstr h a : ends (host_cstr h a).
Proof.
  unfold host_cstr. destruct (host_find h a 1) as [[i r]|]; [|done].
  by destruct (cstr_of _).
Qed.

Lemma rg_has_spec a n r :
  rg_has a n r = true <-> rg_base r <= a /\ 0 <= n /\ a + n <= rg_end r.
Proof. unfold rg_has. rewrite !andb_true_iff, !Z.leb_le. tauto. Qed.

Lemma host_find_Some h a n i r :
  host_find h a n = Some (i, r) <->
  h !! i = Some r /\ rg_has a n r = true /\
  forall j y, h !! j = Some y -> (j < i)%nat -> rg_has a n y <> true.
Proof. unfold host_find. by rewrite list_find_Some. Qed.

Lemma splice_length off bs l :
  (off + length bs <= length l)%nat -> length (splice off bs l) = length l.
Proof. intros. unfold splice. rewrite !length_app, length_take, length_drop. lia. Qed.

Lemma splice_same off bs l :
  (off + length bs <= length l)%nat ->
  take (length bs) (drop off (splice off bs l)) = bs.
Proof.
  intros. unfold splice. rewrite drop_app_length' by (rewrite length_take; lia).
  by rewrite take_app_length.
Qed.

Lemma splice_lookup off bs l k :
  (off + length bs <= length l)%nat ->
  splice off bs l !! k =
    if decide (off <= k < off + length bs)%nat then bs !! (k - off)%nat else l !! k.
Proof.
  intros Hle. unfold splice.
  destruct (decide (k < off)%nat) as [Hk|Hk].
  - rewrite lookup_app_l by (rewrite length_take; lia).
    rewrite lookup_take_lt by done. case_decide; [lia|done].
  - rewrite lookup_app_r by (rewrite length_take; lia).
    rewrite length_take, Nat.min_l by lia. case_decide.
    + by rewrite lookup_app_l by lia.
    + rewrite lookup_app_r by lia. rewrite lookup_drop. f_equal. lia.
Qed.

Lemma splice_ok off bs l :
  Forall byte_ok bs -> Forall byte_ok l -> Forall byte_ok (splice off bs l).
Proof. intros. unfold splice. rewrite !Forall_app. auto using Forall_take, Forall_drop. Qed.

Lemma host_load_length h a n bs :
  host_load h a n = Ok bs -> Z.of_nat (length bs) = n.
Proof.
  unfold host_load. destruct (host_find h a n) as [[i r]|] eqn:E; [|done].
  intros [= <-]. apply host_find_Some in E as (_ & Hr & _).
  apply rg_has_spec in Hr. unfold rg_end in Hr.
  rewrite length_take, length_drop. lia.
Qed.

Lemma rg_has_shape a n r s :
  rg_base r = rg_base s -> rg_end r = rg_end s -> rg_has a n r = rg_has a n s.
Proof. intros Hb He. unfold rg_has. by rewrite Hb, He. Qed.

(** Replacing a region by one of the same range does not change what is found where. *)
Lemma host_find_insert h i r r' b n :
  h !! i = Some r -> rg_base r' = rg_base r -> rg_end r' = rg_end r ->
  host_find (<[i:=r']> h) b n =
    (fun '(j, s) => (j, if decide (j = i) then r' else s)) <$> host_find h b n.
Proof.
  intros Hi Hb He. revert i Hi. induction h as [|x h IH]; intros [|i] Hi; cbn in *;
    simplify_eq.
  - rewrite (rg_has_shape b n r' r) by done. case_decide; [done|].
    destruct (list_find _ h) as [[j s]|]; done.
  - case_decide; [done|]. unfold host_find in IH. rewrite IH by done.
    destruct (list_find _ h) as [[j s]|]; cbn; [|done].
    repeat case_decide; done || lia.
Qed.

Lemma splice_outside off bs l k m :
  (off + length bs <= length l)%nat -> (k + m <= off \/ off + length bs <= k)%nat ->
  take m (drop k (splice off bs l)) = take m (drop k l).
Proof.
  intros Hl Hd. apply list_eq. intros i.
  destruct (decide (i < m)%nat); [|by rewrite !lookup_take_ge by lia].
  rewrite !lookup_take_lt, !lookup_drop, splice_lookup by done.
  case_decide; [lia|done].
Qed.

(** A store leaves the rest of the memory alone. *)
Lemma host_load_store_other h h' a bs b n :
  host_store h a bs = Ok h' ->
  b + n <= a \/ a + Z.of_nat (length bs) <= b ->
  host_load h' b n = host_load h b n.
Proof.
  unfold host_store. destruct (host_find h a _) as [[i r]|] eqn:E; [|done].
  destruct (rg_write r) eqn:Hw; [|done]. intros [= <-] Hd.
  apply host_find_Some in E as (Hi & Hr & _).
  apply rg_has_spec in Hr. unfold rg_end in Hr.
  unfold host_load. rewrite (host_find_insert _ _ r) by
    (done || (unfold rg_end; cbn; rewrite splice_length by lia; lia)).
  destruct (host_find h b n) as [[j s]|] eqn:Ej; cbn; [|done].
  case_decide; [|done]. subst j.
  apply host_find_Some in Ej as (Hj & Hs & _). simplify_eq. cbn.
  apply rg_has_spec in Hs. unfold rg_end in Hs. f_equal. apply splice_outside; lia.
Qed.

(** A store is seen by a load of the same range. *)
Lemma host_load_store_same h h' a bs :
  host_store h a bs = Ok h' -> host_load h' a (Z.of_nat (length bs)) = Ok bs.
Proof.
  unfold host_store. destruct (host_find h a _) as [[i r]|] eqn:E; [|done].
  destruct (rg_write r) eqn:Hw; [|done]. intros [= <-].
  pose proof E as (Hi & Hr & _)%host_find_Some.
  apply rg_has_spec in Hr. unfold rg_end in Hr.
  unfold host_load. rewrite (host_find_insert _ _ r), E by
    (done || (unfold rg_end; cbn; rewrite splice_length by lia; lia)).
  cbn. rewrite decide_True by done. cbn. by rewrite Nat2Z.id, splice_same by lia.
Qed.

(** Mapping more regions keeps what was readable. *)
Lemma host_load_app h rs a n bs :
  host_load h a n = Ok bs -> host_load (h ++ rs) a n = Ok bs.
Proof.
  unfold host_load. destruct (host_find h a n) as [[i r]|] eqn:E; [|done].
  intros [= <-]. apply host_find_Some in E as (Hi & Hr & Hmin).
  assert (host_find (h ++ rs) a n = Some (i, r)) as ->; [|done].
  apply host_find_Some. split_and!; [|done|].
  - rewrite lookup_app_l; [done|]. by eapply lookup_lt_Some.
  - intros j y Hj Hlt. apply lookup_lt_Some in Hi as Hi'.
    rewrite lookup_app_l in Hj by lia. eauto.
Qed.

(** The region added last is found for ranges that no other region holds. *)
Lemma host_find_fresh h r a n :
  Forall (fun x => rg_end x <= rg_base r \/ rg_end r <= rg_base x) h ->
  0 < n -> rg_base r <= a -> a + n <= rg_end r ->
  host_find (h ++ [r]) a n = Some (length h, r).
Proof.
  intros Hd Hn Ha He. apply host_find_Some. split_and!.
  - by rewrite lookup_app_r, Nat.sub_diag by lia.
  - apply rg_has_spec. lia.
  - intros j y Hj Hlt Hy. rewrite lookup_app_l in Hj by done.
    apply rg_has_spec in Hy. apply (Forall_lookup_1 _ _ _ _ Hd) in Hj. lia.
Qed.

(** [owns h a n bs]: one writable region is exactly [a, a+n), holds [bs] and shares no
    address with another region; what an anonymous [MemoryMap] gives its owner. *)
Definition owns h (a n : Z) (bs : list Z) : Prop :=
  exists i, h !! i = Some (Region a true bs) /\ n = Z.of_nat (length bs) /\
    forall j y, h !! j = Some y -> j <> i -> rg_end y <= a \/ a + n <= rg_base y.

Lemma owns_find h a n bs b k :
  owns h a n bs -> 0 < k -> a <= b -> b + k <= a + n ->
  exists i, h !! i = Some (Region a true bs) /\ host_find h b k = Some (i, Region a true bs).
Proof.
  intros (i & Hi & -> & Hd) Hk Ha Hb. exists i. split; [done|].
  apply host_find_Some. split_and!; [done| |].
  - apply rg_has_spec. unfold rg_end; cbn. lia.
  - intros j y Hj Hlt Hy. apply rg_has_spec in Hy. apply Hd in Hj; [|lia]. lia.
Qed.

Lemma owns_load h a n bs b k :
  owns h a n bs -> 0 < k -> a <= b -> b + k <= a + n ->
  host_load h b k = Ok (take (Z.to_nat k) (drop (Z.to_nat (b - a)) bs)).
Proof.
  intros Ho Hk Ha Hb. destruct (owns_find h a n bs b k) as (i & Hi & E); [done..|].
  unfold host_load. by rewrite E.
Qed.

Lemma owns_load_all h a n bs : owns h a n bs -> 0 < n -> host_load h a n = Ok bs.
Proof.
  intros Ho Hn. rewrite (owns_load h a n bs a n) by (done || lia).
  destruct Ho as (i & _ & -> & _). rewrite Z.sub_diag, Nat2Z.id. cbn.
  by rewrite drop_0, take_ge by lia.
Qed.

(** Stores inside an owned region succeed and update only its bytes. *)
Lemma owns_store h a n bs b new :
  owns h a n bs -> (0 < length new)%nat -> a <= b ->
  b + Z.of_nat (length new) <= a + n ->
  exists h', host_store h b new = Ok h' /\ owns h' a n (splice (Z.to_nat (b - a)) new bs).
Proof.
  intros Ho Hk Ha Hb.
  destruct (owns_find h a n bs b (Z.of_nat (length new))) as (i & Hi & E); [done|lia..|].
  destruct Ho as (i' & Hi' & Hn & Hd).
  unfold host_store. rewrite E. cbn. eexists. split; [done|].
  assert (i' = i) as ->.
  { destruct (decide (i' = i)); [done|]. apply Hd in Hi; [|done].
    unfold rg_end in Hi; cbn in Hi. lia. }
  exists i. split_and!.
  - apply list_lookup_insert_eq. by eapply lookup_lt_Some.
  - rewrite splice_length by lia. done.
  - intros j y Hj Hne. rewrite list_lookup_insert_ne in Hj by done. eauto.
Qed.

(** Freshly mapped memory is owned. *)
Lemma owns_fresh h a bs :
  Forall (fun r => rg_end r <= a \/ a + Z.of_nat (length bs) <= rg_base r) h ->
  owns (h ++ [Region a true bs]) a (Z.of_nat (length bs)) bs.
Proof.
  intros Hd. exists (length h). split_and!; [|done|].
  - by rewrite lookup_app_r, Nat.sub_diag by lia.
  - intros j y Hj Hne. destruct (decide (j < length h)%nat) as [Hlt|Hge].
    + rewrite lookup_app_l in Hj by done. by eapply (Forall_lookup_1 _ _ _ _ Hd).
    + apply lookup_lt_Some in Hj. rewrite length_app in Hj. cbn in Hj. lia.
Qed.

Lemma owns_fresh_zero h a sz :
  0 <= sz -> Forall (fun r => rg_end r <= a \/ a + sz <= rg_base r) h ->
  owns (h ++ [Region a true (replicate (Z.to_nat sz) 0)]) a sz (replicate (Z.to_nat sz) 0).
Proof.
  intros Hs Hd.
  pose proof (owns_fresh h a (replicate (Z.to_nat sz) 0)) as Ho.
  rewrite length_replicate, Z2Nat.id in Ho by done. auto.
Qed.

(** What can be loaded lies outside a range no region overlaps. *)
Lemma host_load_outside h a k x b n :
  Forall (fun r => rg_end r <= b \/ b + n <= rg_base r) h ->
  host_load h a k = Ok x -> a + k <= b \/ b + n <= a.
Proof.
  unfold host_load. intros Hd Hx.
  destruct (host_find h a k) as [[i r]|] eqn:Ef; [|done].
  apply host_find_Some in Ef as (Hi & Hr & _). apply rg_has_spec in Hr.
  apply (Forall_lookup_1 _ _ _ _ Hd) in Hi. lia.
Qed.

(** Distinct mappings of a process do not overlap. *)
Definition apart (x y : region) : Prop := rg_end x <= rg_base y \/ rg_end y <= rg_base x.
Definition host_wf h : Prop := pairwise apart h.

Lemma host_wf_app h r : host_wf h -> Forall (fun x => apart x r) h -> host_wf (h ++ [r]).
Proof.
  intros Hh Hr. apply pairwise_app. split_and!; [done| |].
  - intros i j x y Hij Hi Hj. apply lookup_lt_Some in Hj. cbn in Hj. lia.
  - intros x y Hx ->%list_elem_of_singleton. rewrite Forall_elem in Hr. auto.
Qed.

Lemma host_wf_store h h' a bs : host_wf h -> host_store h a bs = Ok h' -> host_wf h'.
Proof.
  intros Hh. unfold host_store. destruct (host_find h a _) as [[i r]|] eqn:E; [|done].
  destruct (rg_write r) eqn:Hw; [|done]. intros [= <-].
  apply host_find_Some in E as (Hi & Hr & _). apply rg_has_spec in Hr.
  unfold rg_end in Hr.
  set (r' := Region _ _ _).
  assert (Hs : forall y, apart r y <-> apart r' y).
  { intros y. unfold apart, rg_end, r'. cbn. rewrite splice_length by lia. done. }
  assert (Hs' : forall y, apart y r <-> apart y r').
  { intros y. unfold apart, rg_end, r'. cbn. rewrite splice_length by lia. done. }
  intros j k x y Hjk Hj Hk.
  destruct (decide (j = i)) as [->|Hji].
  - rewrite list_lookup_insert_eq in Hj by (by eapply lookup_lt_Some). simplify_eq.
    rewrite list_lookup_insert_ne in Hk by lia. apply Hs. by apply (Hh i k).
  - rewrite list_lookup_insert_ne in Hj by done.
    destruct (decide (k = i)) as [->|Hki].
    + rewrite list_lookup_insert_eq in Hk by (by eapply lookup_lt_Some). simplify_eq.
      apply Hs'. by apply (Hh j i).
    + rewrite list_lookup_insert_ne in Hk by done. by apply (Hh j k).
Qed.

(** A whole region is readable. *)
Lemma host_load_region h i w a bs :
  host_wf h -> h !! i = Some (Region a w bs) -> (0 < length bs)%nat ->
  host_load h a (Z.of_nat (length bs)) = Ok bs.
Proof.
  intros Hh Hi Hp. unfold host_load.
  assert (host_find h a (Z.of_nat (length bs)) = Some (i, Region a w bs)) as ->.
  { apply host_find_Some. split_and!; [done| |].
    - apply rg_has_spec. unfold rg_end. cbn. lia.
    - intros j y Hj Hlt Hy. specialize (Hh _ _ _ _ Hlt Hj Hi).
      apply rg_has_spec in Hy. unfold apart, rg_end in *. cbn in *. lia. }
  by rewrite Z.sub_diag, Nat2Z.id, drop_0, firstn_all.
Qed.

(** A part of a readable range is readable, with the same bytes. *)
Lemma host_load_sub h a n bs k m :
  host_wf h -> host_load h a n = Ok bs -> 0 <= k -> 0 <= m -> k + m <= n ->
  host_load h (a + k) m = Ok (take (Z.to_nat m) (drop (Z.to_nat k) bs)).
Proof.
  intros Hh. unfold host_load. destruct (host_find h a n) as [[i r]|] eqn:E; [|done].
  intros [= <-] Hk Hm Hn. apply host_find_Some in E as (Hi & Hr & _).
  apply rg_has_spec in Hr as (H1 & H2 & H3).
  destruct (host_find h (a + k) m) as [[j s]|] eqn:Ej.
  - f_equal. apply host_find_Some in Ej as (Hj & Hs & _).
    apply rg_has_spec in Hs as (S1 & S2 & S3).
    destruct (decide (m = 0)) as [->|Hm0]; [by rewrite !take_0|].
    assert (j = i) as ->.
    { destruct (Nat.lt_trichotomy i j) as [Hl|[?|Hl]]; [|done|].
      - specialize (Hh _ _ _ _ Hl Hi Hj). unfold apart in Hh. lia.
      - specialize (Hh _ _ _ _ Hl Hj Hi). unfold apart in Hh. lia. }
    simplify_eq. unfold rg_end in *.
    apply list_eq. intros p. destruct (decide (p < Z.to_nat m)%nat);
      [|by rewrite !lookup_take_ge by lia].
    rewrite !lookup_take_lt, !lookup_drop, lookup_take_lt, lookup_drop by lia.
    f_equal. lia.
  - exfalso. unfold host_find in Ej. rewrite list_find_None in Ej.
    apply (Forall_lookup_1 _ _ _ _ Ej) in Hi. apply Hi. apply rg_has_spec. lia.
Qed.

(** ** The bytes [bs] stand at [a] *)

Definition holds h (a : Z) (bs : list Z) : Prop :=
  host_load h a (Z.of_nat (length bs)) = Ok bs.

Lemma holds_app h a l1 l2 :
  host_wf h -> holds h a (l1 ++ l2) ->
  holds h a l1 /\ holds h (a + Z.of_nat (length l1)) l2.
Proof.
  unfold holds. intros Hh Hl. rewrite length_app in Hl. split.
  - rewrite <- (Z.add_0_r a).
    rewrite (host_load_sub h a _ _ 0 (Z.of_nat (length l1)) Hh Hl) by lia.
    by rewrite Nat2Z.id, drop_0, take_app_length.
  - rewrite (host_load_sub h a _ _ (Z.of_nat (length l1)) (Z.of_nat (length l2)) Hh Hl)
      by lia.
    by rewrite !Nat2Z.id, drop_app_length, firstn_all.
Qed.

Lemma holds_cons h a b l :
  host_wf h -> holds h a (b :: l) -> host_word h a 1 = Ok b /\ holds h (a + 1) l.
Proof.
  intros Hh Hl. apply (holds_app h a [b] l) in Hl as [Hb Hl]; [|done]. split; [|done].
  unfold host_word, holds in *. change (Z.of_nat (length [b])) with 1 in Hb. rewrite Hb.
  cbn -[Z.mul]. f_equal. lia.
Qed.

Lemma holds_word h a bs n :
  holds h a bs -> n = Z.of_nat (length bs) -> host_word h a n = Ok (le_value bs).
Proof. intros Hl ->. unfold host_word. by rewrite Hl. Qed.

Lemma holds_sub h a bs k n :
  host_wf h -> holds h a bs -> (k + n <= length bs)%nat ->
  holds h (a + Z.of_nat k) (take n (drop k bs)).
Proof.
  intros Hh Hl Hn. rewrite <- (take_drop k bs) in Hl. apply holds_app in Hl as [_ Hl]; [|done].
  rewrite <- (take_drop n (drop k bs)) in Hl. apply holds_app in Hl as [Hl _]; [|done].
  by rewrite length_take_le in Hl by lia.
Qed.

(** The memory holds bytes. *)
Definition host_bytes h : Prop := Forall (fun r => Forall byte_ok (rg_bytes r)) h.

Lemma host_bytes_check h :
  forallb (fun r => forallb (fun b => (0 <=? b) && (b <? 256)) (rg_bytes r)) h = true ->
  host_bytes h.
Proof.
  intros H. apply List.Forall_forall. rewrite forallb_forall in H. intros r Hr.
  specialize (H r Hr). apply List.Forall_forall. rewrite forallb_forall in H.
  intros b Hb. specialize (H b Hb). to_prop. by split.
Qed.

Lemma host_load_bytes h a n bs : host_bytes h -> host_load h a n = Ok bs -> Forall byte_ok bs.
Proof.
  unfold host_load. intros Hb. destruct (host_find h a n) as [[i r]|] eqn:E; [|done].
  intros [= <-]. apply host_find_Some in E as (Hi & _).
  apply (Forall_lookup_1 _ _ _ _ Hb) in Hi. by apply Forall_take, Forall_drop.
Qed.

Lemma host_word_range h a n v :
  host_bytes h -> 0 <= n -> host_word h a n = Ok v -> 0 <= v < 2 ^ (8 * n).
Proof.
  unfold host_word. intros Hb Hn H. res_inv. subst v.
  pose proof (host_load_bytes _ _ _ _ Hb E) as Hok.
  pose proof (host_load_length _ _ _ _ E) as Hlen. apply le_value_range in Hok.
  replace (8 * n) with (8 * Z.of_nat (length v0)) by lia. done.
Qed.

Lemma owns_elem h a n bs : owns h a n bs -> Region a true bs ∈ h /\ n = Z.of_nat (length bs).
Proof. intros (i & Hi & Hn & _). split; [by eapply list_elem_of_lookup_2|done]. Qed.

Lemma owns_of_elem h a bs :
  host_wf h -> Region a true bs ∈ h -> owns h a (Z.of_nat (length bs)) bs.
Proof.
  intros Hh (i & Hi)%list_elem_of_lookup. exists i. split_and!; [done..|].
  intros j y Hj Hne. destruct (Nat.lt_trichotomy i j) as [Hl|[?|Hl]]; [|done|].
  - specialize (Hh _ _ _ _ Hl Hi Hj). unfold apart, rg_end in *. cbn in *. lia.
  - specialize (Hh _ _ _ _ Hl Hj Hi). unfold apart, rg_end in *. cbn in *. lia.
Qed.

(** A store elsewhere leaves owned memory owned. *)
Lemma owns_store_other h h' a n bs b new :
  owns h a n bs -> host_store h b new = Ok h' -> 0 < n ->
  b + Z.of_nat (length new) <= a \/ a + n <= b -> (0 < length new)%nat ->
  owns h' a n bs.
Proof.
  intros (i & Hi & Hn & Hd) Hs Hp Hap Hlen. unfold host_store in Hs.
  destruct (host_find h b _) as [[k r]|] eqn:E; [|done].
  destruct (rg_write r) eqn:Hw; [|done]. injection Hs as <-.
  apply host_find_Some in E as (Hk & Hr & _). apply rg_has_spec in Hr. unfold rg_end in Hr.
  destruct (decide (k = i)) as [->|Hki].
  { simplify_eq. cbn in Hr. lia. }
  exists i. split_and!; [by rewrite list_lookup_insert_ne|done|].
  intros j y Hj Hne. destruct (decide (j = k)) as [->|Hjk].
  - rewrite list_lookup_insert_eq in Hj by (by eapply lookup_lt_Some). simplify_eq.
    specialize (Hd _ _ Hk Hne). unfold rg_end in *. cbn. rewrite splice_length by lia. done.
  - rewrite list_lookup_insert_ne in Hj by done. eauto.
Qed.
End HostLaws.

#[export] Hint Resolve ends_load ends_word ends_cstr : ends_db.

Section MapLaws.
Context `{OsLaws}.

(** [MmapMem] returns an owned copy of the source, zero-filled to its size, and every
    range that was readable still reads the same. *)
Lemma MmapMem_spec (h : host) addr sz n bs h' m :
  MmapMem h addr sz n = Ok (h', Some m) ->
  host_load h addr n = Ok bs -> 0 < n <= sz ->
  mSize m = sz /\ 0 < mBegin m /\ mBegin m + sz < 2 ^ 64 /\
  owns h' (mBegin m) sz (bs ++ replicate (Z.to_nat (sz - n)) 0) /\
  forall a k x, 0 < k -> host_load h a k = Ok x ->
    host_load h' a k = Ok x /\ (a + k <= mBegin m \/ mBegin m + sz <= a).
Proof.
  unfold MmapMem. destruct (os_mmap h sz) as [mem|] eqn:E; [|done].
  intros Hm Hl Hn. res_inv.
  match goal with Hp : (_, Some _) = (_, Some m) |- _ => injection Hp as -> <- end. cbn.
  destruct (os_mmap_fresh h sz mem E) as (H1 & H2 & Hd); [lia|].
  pose proof (host_load_length _ _ _ _ Hl) as Hlen.
  set (z := replicate (Z.to_nat sz) 0) in *.
  assert (Hz : Z.of_nat (length z) = sz) by (unfold z; rewrite length_replicate; lia).
  assert (Ho : owns (h ++ [Region mem true z]) mem sz z).
  { apply owns_fresh_zero; [lia|done]. }
  unfold host_memcpy in E0. rewrite (host_load_app _ _ _ _ _ Hl) in E0. cbn in E0.
  destruct (owns_store _ _ _ _ mem bs Ho) as (h2 & Hs & Ho'); [lia..|].
  rewrite Hs in E0. injection E0 as ->.
  split_and!; [done..| |].
  - replace (bs ++ _) with (splice (Z.to_nat (mem - mem)) bs z); [done|].
    unfold splice, z. rewrite Z.sub_diag. change (Z.to_nat 0) with O.
    rewrite take_0, drop_replicate. cbn. do 2 f_equal. lia.
  - intros a k x Hk Hx.
    assert (a + k <= mem \/ mem + sz <= a) by (by eapply host_load_outside).
    split; [|done]. rewrite (host_load_store_other _ _ _ _ _ _ Hs) by lia.
    by apply host_load_app.
Qed.

Lemma MmapMem_total (h : host) addr sz n bs a :
  os_mmap h sz = Some a -> host_load h addr n = Ok bs -> 0 < n <= sz ->
  exists h' m, MmapMem h addr sz n = Ok (h', Some m).
Proof.
  intros E Hl Hn. unfold MmapMem, host_memcpy. rewrite E.
  rewrite (host_load_app _ _ _ _ _ Hl). cbn.
  destruct (os_mmap_fresh h sz a E) as (H1 & H2 & Hd); [lia|].
  pose proof (host_load_length _ _ _ _ Hl) as Hlen.
  destruct (owns_store (h ++ [Region a true (replicate (Z.to_nat sz) 0)]) a sz
              (replicate (Z.to_nat sz) 0) a bs) as (h2 & -> & _); [|lia..|by eauto].
  apply owns_fresh_zero; [lia|done].
Qed.

Lemma MmapZeroMem_spec (h : host) sz h' m :
  MmapZeroMem h sz = (h', Some m) -> 0 < sz ->
  mSize m = sz /\ 0 < mBegin m /\ mBegin m + sz < 2 ^ 64 /\
  owns h' (mBegin m) sz (replicate (Z.to_nat sz) 0) /\
  forall a k x, 0 < k -> host_load h a k = Ok x ->
    host_load h' a k = Ok x /\ (a + k <= mBegin m \/ mBegin m + sz <= a).
Proof.
  unfold MmapZeroMem. destruct (os_mmap h sz) as [mem|] eqn:E; [|done].
  intros [= <- <-] Hs. cbn.
  destruct (os_mmap_fresh h sz mem E) as (H1 & H2 & Hd); [lia|].
  split_and!; [done..| |].
  - apply owns_fresh_zero; [lia|done].
  - intros. split; [by apply host_load_app|by eapply host_load_outside].
Qed.

Lemma os_mmap_wf (h : host) sz a bs :
  host_wf h -> os_mmap h sz = Some a -> 0 < sz -> Z.of_nat (length bs) = sz ->
  host_wf (h ++ [Region a true bs]).
Proof.
  intros Hh E Hs Hl. destruct (os_mmap_fresh h sz a E) as (_ & _ & Hd); [done|].
  apply host_wf_app; [done|]. rewrite Forall_elem in *. intros x Hx.
  specialize (Hd x Hx). unfold apart, rg_end at 2. cbn. lia.
Qed.

Lemma MmapZeroMem_wf (h : host) sz h' om :
  host_wf h -> 0 < sz -> MmapZeroMem h sz = (h', om) -> host_wf h'.
Proof.
  unfold MmapZeroMem. intros Hh Hs. destruct (os_mmap h sz) as [mem|] eqn:E;
    intros [= <- <-]; [|done].
  eapply os_mmap_wf; [done..|]. rewrite length_replicate. lia.
Qed.

Lemma MmapMem_wf (h : host) addr sz n h' om :
  host_wf h -> 0 < sz -> MmapMem h addr sz n = Ok (h', om) -> host_wf h'.
Proof.
  unfold MmapMem. intros Hh Hs. destruct (os_mmap h sz) as [mem|] eqn:E;
    [|by intros [= <- <-]].
  intros Hm. unfold host_memcpy in Hm. res_inv. simplify_eq.
  eapply host_wf_store; [|exact E0]. eapply os_mmap_wf; [done..|].
  rewrite length_replicate. lia.
Qed.

(** The memory after a successful [MmapMem]: one more region, which starts with the
    copied bytes. *)
Lemma MmapMem_shape (h : host) addr sz n bs h' m :
  MmapMem h addr sz n = Ok (h', Some m) -> host_load h addr n = Ok bs -> 0 < n <= sz ->
  h' = h ++ [Region (mBegin m) true (bs ++ replicate (Z.to_nat (sz - n)) 0)].
Proof.
  unfold MmapMem. destruct (os_mmap h sz) as [mem|] eqn:E; [|done].
  intros Hm Hl Hn. res_inv. simplify_eq. cbn.
  destruct (os_mmap_fresh h sz mem E) as (_ & _ & Hd); [lia|].
  pose proof (host_load_length _ _ _ _ Hl) as Hlen.
  unfold host_memcpy in E0. rewrite (host_load_app _ _ _ _ _ Hl) in E0. cbn in E0.
  unfold host_store in E0. rewrite host_find_fresh in E0;
    unfold rg_end in *; cbn in *; rewrite ?length_replicate; [| |lia..].
  - apply Ok_inj in E0. rewrite <- E0. rewrite <- (Nat.add_0_r (length h)).
    rewrite insert_app_r. cbn. do 3 f_equal.
    rewrite Z.sub_diag. change (Z.to_nat 0) with O.
    unfold splice. rewrite take_0, drop_replicate. cbn. do 2 f_equal. lia.
  - rewrite Z2Nat.id by lia. done.
Qed.
End MapLaws.

#[export] Hint Resolve host_load_store_same host_load_app splice_ok : core_db.

(** * A concrete operating system

    [mmap] places every mapping above the highest one; there are no files. It satisfies
    [OsLaws], so theorems that assume them can be applied. *)
Definition top_of (h : host) : Z := foldr (fun r t => Z.max (rg_end r) t) 0x10000 h.

Definition bump_os : Os := {|
  os_mmap h sz := if top_of h + sz <? 2 ^ 47 then Some (top_of h) else None;
  os_file _ := None;
  os_page := 4096;
|}.

Lemma top_of_above h : 0x10000 <= top_of h /\ Forall (fun r => rg_end r <= top_of h) h.
Proof.
  induction h as [|r h [IH1 IH2]]; [by split; [done|constructor]|].
  change (top_of (r :: h)) with (Z.max (rg_end r) (top_of h)).
  split; [lia|]. constructor; [lia|]. rewrite Forall_elem in *. intros x Hx. specialize (IH2 x Hx). lia.
Qed.

#[export] Instance bump_os_laws : @OsLaws bump_os.
Proof.
  split.
  - intros h sz a. cbn. destruct (Z.ltb_spec (top_of h + sz) (2 ^ 47)); [|done].
    intros [= <-] Hs. pose proof (top_of_above h) as [H1 H2]. split_and!; [lia|lia|].
    rewrite Forall_elem in *. intros x Hx. specialize (H2 x Hx). lia.
  - exists 12. split; [lia|reflexivity].
Qed.
