(* ===== verification/Blocks.v ===== *)
(** Segments of a core file: core/common/block.h ([Block]), core/common/load_block.h and
    load_block.cpp ([LoadBlock]: a PT_LOAD segment with its two optional replacements, a
    mmapped library file and a private overlay), core/common/syment.h. Operations that
    map or write memory take and return the process memory [host]. *)

From Stdlib Require Import ZArith Lia Bool.
From stdpp Require Import base list numbers.
From S2P Require Import Prelude Words Host.
Open Scope Z_scope.

(** * Data *)

(** [class Block]. *)
Record Block := MkBlock {
  mFlags : Z;
  mOffset : Z;
  mVaddr : Z;
  mPaddr : Z;
  mFileSize : Z;
  mMemSize : Z;
  mAlign : Z;
  mOriAddr : Z;
  mTruncated : bool;
  mFake : bool;
  mOverlay : option MemoryMap;
}.

Definition FLAG_X : Z := 1.
Definition FLAG_W : Z := 2.
Definition FLAG_R : Z := 4.
Definition OPT_READ_OR : Z := 1.
Definition OPT_READ_MMAP : Z := 2.
Definition OPT_READ_OVERLAY : Z := 4.
Definition OPT_READ_ALL : Z := Z.lor OPT_READ_OR (Z.lor OPT_READ_MMAP OPT_READ_OVERLAY).

(** A C++ integer or pointer used as a condition. *)
Definition nz (z : Z) : bool := negb (z =? 0).
Definition has {A} (o : option A) : bool := match o with Some _ => true | None => false end.
(** [flags & bit]. *)
Definition bit_set (flags bit : Z) : bool := nz (Z.land flags bit).

(** The constructor [Block(f, off, va, pa, filesz, memsz, align)]. *)
Definition NewBlock (f off va pa filesz memsz align : Z) : Block :=
  MkBlock f off va pa filesz memsz align 0 false false None.

Definition isValidBlock (b : Block) : bool := negb (mTruncated b) && (0 <? mFileSize b).

Definition setOriAddr_block (addr : Z) (b : Block) : Block :=
  if isValidBlock b then
    MkBlock (mFlags b) (mOffset b) (mVaddr b) (mPaddr b) (mFileSize b) (mMemSize b)
      (mAlign b) addr (mTruncated b) (mFake b) (mOverlay b)
  else b.

Definition setTruncated_block (t : bool) (b : Block) : Block :=
  MkBlock (mFlags b) (mOffset b) (mVaddr b) (mPaddr b) (mFileSize b) (mMemSize b)
    (mAlign b) (mOriAddr b) t (mFake b) (mOverlay b).

Definition setFake_block (f : bool) (b : Block) : Block :=
  MkBlock (mFlags b) (mOffset b) (mVaddr b) (mPaddr b) (mFileSize b) (mMemSize b)
    (mAlign b) (mOriAddr b) (mTruncated b) f (mOverlay b).

Definition setOverlay_block (o : option MemoryMap) (b : Block) : Block :=
  MkBlock (mFlags b) (mOffset b) (mVaddr b) (mPaddr b) (mFileSize b) (mMemSize b)
    (mAlign b) (mOriAddr b) (mTruncated b) (mFake b) o.

(** [Block::convertFlags]: the "rwx" letters, as character codes. *)
Definition convertFlags (b : Block) : list Z :=
  [ if bit_set (mFlags b) FLAG_R then 114 else 45;
    if bit_set (mFlags b) FLAG_W then 119 else 45;
    if bit_set (mFlags b) FLAG_X then 120 else 45 ].

(** [class SymbolEntry]; equality in the symbol sets ignores the name. *)
Record SymbolEntry := MkSymbol {
  sym_offset : Z;
  sym_type : Z;
  sym_size : Z;
  sym_name : list Z;
}.
Definition sym_same (a b : SymbolEntry) : bool :=
  (sym_offset a =? sym_offset b) && (sym_type a =? sym_type b) && (sym_size a =? sym_size b).
Definition sym_Invalid : SymbolEntry := MkSymbol 0 0 0 [].
Definition sym_IsValid (e : SymbolEntry) : bool := nz (sym_offset e) && nz (sym_size e).

(** [unordered_set<SymbolEntry>::insert]; the list holds the elements in insertion order. *)
Definition sym_insert (e : SymbolEntry) (s : list SymbolEntry) : list SymbolEntry :=
  if existsb (sym_same e) s then s else s ++ [e].

(** [class LoadBlock]. [mLinkMap] is the index of the bound link map. *)
Record LoadBlock := MkLoadBlock {
  lb_block :> Block;
  mVabitsMask : Z;
  mPointMask : Z;
  mCRC32 : Z;
  mFileName : list Z;
  mPageOffset : Z;
  mLinkMap : option nat;
  mMmap : option MemoryMap;
  mSymbols : list SymbolEntry;
}.

(** The constructor of [LoadBlock] ([mPageOffset] is left unset by the code: 0 here). *)
Definition NewLoadBlock_obj (f off va pa filesz memsz align : Z) : LoadBlock :=
  MkLoadBlock (NewBlock f off va pa filesz memsz align) 0 0 0 [] 0 None None [].

(** Applies a [Block] operation to the base part of a [LoadBlock]. *)
Definition on_block (f : Block -> Block) (b : LoadBlock) : LoadBlock :=
  MkLoadBlock (f (lb_block b)) (mVabitsMask b) (mPointMask b) (mCRC32 b) (mFileName b)
    (mPageOffset b) (mLinkMap b) (mMmap b) (mSymbols b).

Definition setOriAddr (addr : Z) : LoadBlock -> LoadBlock := on_block (setOriAddr_block addr).
Definition setTruncated (t : bool) : LoadBlock -> LoadBlock := on_block (setTruncated_block t).
Definition setFake (f : bool) : LoadBlock -> LoadBlock := on_block (setFake_block f).
Definition setOverlayMap (o : option MemoryMap) : LoadBlock -> LoadBlock :=
  on_block (setOverlay_block o).

Definition setVabitsMask (mask : Z) (b : LoadBlock) : LoadBlock :=
  MkLoadBlock b mask (mPointMask b) (mCRC32 b) (mFileName b) (mPageOffset b) (mLinkMap b)
    (mMmap b) (mSymbols b).
Definition setPointMask (mask : Z) (b : LoadBlock) : LoadBlock :=
  MkLoadBlock b (mVabitsMask b) mask (mCRC32 b) (mFileName b) (mPageOffset b) (mLinkMap b)
    (mMmap b) (mSymbols b).
Definition setCRC32 (crc : Z) (b : LoadBlock) : LoadBlock :=
  MkLoadBlock b (mVabitsMask b) (mPointMask b) crc (mFileName b) (mPageOffset b)
    (mLinkMap b) (mMmap b) (mSymbols b).
(** [LoadBlock::setFile]. *)
Definition setFile_lb (name : list Z) (off : Z) (b : LoadBlock) : LoadBlock :=
  MkLoadBlock b (mVabitsMask b) (mPointMask b) (mCRC32 b) name off (mLinkMap b)
    (mMmap b) (mSymbols b).
(** [LoadBlock::bind]. *)
Definition bind (map : option nat) (b : LoadBlock) : LoadBlock :=
  MkLoadBlock b (mVabitsMask b) (mPointMask b) (mCRC32 b) (mFileName b) (mPageOffset b)
    map (mMmap b) (mSymbols b).
Definition setMmap (m : option MemoryMap) (b : LoadBlock) : LoadBlock :=
  MkLoadBlock b (mVabitsMask b) (mPointMask b) (mCRC32 b) (mFileName b) (mPageOffset b)
    (mLinkMap b) m (mSymbols b).
Definition setSymbols (s : list SymbolEntry) (b : LoadBlock) : LoadBlock :=
  MkLoadBlock b (mVabitsMask b) (mPointMask b) (mCRC32 b) (mFileName b) (mPageOffset b)
    (mLinkMap b) (mMmap b) s.

(** * Queries *)

(** [mOverlay && (opt & OPT_READ_OVERLAY)] and [mMmap && (opt & OPT_READ_MMAP)]. *)
Definition overlay_for (b : LoadBlock) (opt : Z) : option MemoryMap :=
  if bit_set opt OPT_READ_OVERLAY then mOverlay b else None.
Definition mmap_for (b : LoadBlock) (opt : Z) : option MemoryMap :=
  if bit_set opt OPT_READ_MMAP then mMmap b else None.

(** [LoadBlock::begin(opt)]: overlay first, then the mmapped file, then the core. *)
Definition begin (b : LoadBlock) (opt : Z) : Z :=
  match overlay_for b opt, mmap_for b opt with
  | Some o, _ => mBegin o
  | None, Some m => mBegin m
  | None, None => if nz (mOriAddr b) && bit_set opt OPT_READ_OR then mOriAddr b else 0
  end.

(** [LoadBlock::size(opt)]. *)
Definition size (b : LoadBlock) (opt : Z) : Z :=
  match overlay_for b opt, mmap_for b opt with
  | Some o, _ => mSize o
  | None, Some m => mSize m
  | None, None => if nz (mOriAddr b) && bit_set opt OPT_READ_OR then mFileSize b else 0
  end.

Definition isMmapBlock (b : LoadBlock) : bool := has (mMmap b).
Definition isOverlayBlock (b : LoadBlock) : bool := has (mOverlay b).

(** [LoadBlock::isValid]. *)
Definition isValid (b : LoadBlock) : bool :=
  isValidBlock b || isMmapBlock b || isOverlayBlock b.

(** [LoadBlock::virtualContains(addr)]. *)
Definition virtualContains (b : LoadBlock) (addr : Z) : bool :=
  let clocaddr := Z.land addr (mVabitsMask b) in
  negb ((clocaddr <? mVaddr b) || (u64 (mVaddr b + mMemSize b) <=? clocaddr)).

(** [LoadBlock::realContains(raddr)]. *)
Definition realContains (b : LoadBlock) (raddr : Z) : bool :=
  let inside base := (base <=? raddr) && (raddr <? u64 (base + size b OPT_READ_ALL)) in
  match mOverlay b, mMmap b with
  | Some o, _ => inside (mBegin o)
  | None, Some m => inside (mBegin m)
  | None, None => if nz (mOriAddr b) then inside (mOriAddr b) else false
  end.

(** [LoadBlock::name()]. *)
Definition name (b : LoadBlock) : list Z :=
  match mMmap b with Some m => mMapName m | None => mFileName b end.

(** [LoadBlock::CheckCanMmap(header)]; [sysinfo_ehdr] is [FindAuxv(AT_SYSINFO_EHDR)]. *)
Definition CheckCanMmap (b : LoadBlock) (header sysinfo_ehdr : Z) : bool :=
  if mFake b then true
  else if negb (nz (mFlags b)) then false
  else if negb (bit_set (mFlags b) FLAG_R) && negb (bit_set (mFlags b) FLAG_X) then false
  else if bit_set (mFlags b) FLAG_W && negb (bit_set (mFlags b) FLAG_X) then false
  else if negb (header =? mVaddr b) then false
  else if mVaddr b =? sysinfo_ehdr then false
  else true.

(** * Operations on the process memory *)

Section Ops.
Context `{Os}.

(** Releases the mapping an owning pointer held ([unique_ptr] reset or overwritten). *)
Definition drop_map (h : host) (m : option MemoryMap) : host :=
  match m with Some m => unmap h m | None => h end.

(** [LoadBlock::setMmapFile(file, offset)]. *)
Definition setMmapFile (h : host) (b : LoadBlock) (file : list Z) (offset : Z)
    : result (host * LoadBlock) :=
  let '(h1, om) := MmapFile h file (mMemSize b) offset in
  match om with
  | None => Ok (h1, b)
  | Some map =>
      let! '(h2, map) :=
        (if RoundUp 64 (mMaxSize map) os_page <? mMemSize b then
           let! '(h2, oanon) := MmapMem h1 (mBegin map) (mMemSize b) (mMaxSize map) in
           match oanon with
           | Some anon => Ok (unmap h2 map, setFile anon file offset)
           | None => Ok (h2, map)
           end
         else Ok (h1, map)) in
      let! h3 :=
        (if mFake b || isOverlayBlock b then
           match mOverlay b with
           | Some o => host_memcpy h2 (mBegin o) (mBegin map) (mMaxSize map)
           | None => Fault
           end
         else Ok h2) in
      Ok (drop_map h3 (mMmap b), setMmap (Some map) b)
  end.

(** [LoadBlock::newOverlay()]. *)
Definition newOverlay (h : host) (b : LoadBlock) : result (host * LoadBlock * bool) :=
  match mOverlay b with
  | Some _ => Ok (h, b, true)
  | None =>
      let! '(h', omap) :=
        (if isValid b then
           MmapMem h (begin b OPT_READ_ALL) (mMemSize b)
             (match mMmap b with None => mFileSize b | Some m => mMaxSize m end)
         else Ok (MmapZeroMem h (mMemSize b))) in
      match omap with
      | Some map => Ok (h', setOverlayMap (Some map) b, true)
      | None => Ok (h', b, false)
      end
  end.

(** [LoadBlock::setOverlay(addr, buf, size)]; [buf] is the bytes to copy. *)
Definition setOverlay (h : host) (b : LoadBlock) (addr : Z) (buf : list Z)
    : result (host * LoadBlock) :=
  let! '(h1, b1, ok) := newOverlay h b in
  if ok : bool then
    match mOverlay b1 with
    | Some o =>
        let clocaddr := Z.land addr (mVabitsMask b1) in
        let! h2 := host_store h1 (u64 (mBegin o + (clocaddr - mVaddr b1))) buf in
        Ok (h2, b1)
    | None => Fault
    end
  else Ok (h1, b1).

(** [LoadBlock::removeMmap()]. *)
Definition removeMmap (h : host) (b : LoadBlock) : host * LoadBlock :=
  match mMmap b with
  | Some m => (unmap h m, setMmap None (setSymbols [] b))
  | None => (h, b)
  end.

(** [LoadBlock::removeOverlay()]: refused on a fake segment. *)
Definition removeOverlay (h : host) (b : LoadBlock) : host * LoadBlock :=
  match mOverlay b with
  | Some o => if mFake b then (h, b) else (unmap h o, setOverlayMap None b)
  | None => (h, b)
  end.

(** [LoadBlock::GetCRC32(opt)]: the checksum of the core bytes is cached. *)
Definition GetCRC32_lb (h : host) (b : LoadBlock) (opt : Z) : result (Z * LoadBlock) :=
  match overlay_for b opt, mmap_for b opt with
  | Some o, _ => let! c := GetCRC32 h o in Ok (c, b)
  | None, Some m => let! c := GetCRC32 h m in Ok (c, b)
  | None, None =>
      if nz (mOriAddr b) && bit_set opt OPT_READ_OR then
        let! b' := (if negb (nz (mCRC32 b)) && isValidBlock b then
                let! bs := host_load h (begin b OPT_READ_OR) (u32 (mFileSize b)) in
                Ok (setCRC32 (CRC32 bs) b)
              else Ok b) in
        Ok (mCRC32 b', b')
      else Ok (0, b)
  end.
End Ops.

(** * Facts *)

Lemma isValid_block (b : LoadBlock) : isValidBlock (lb_block b) = true -> isValid b = true.
Proof. unfold isValid. by intros ->. Qed.

Lemma virtualContains_spec (b : LoadBlock) addr :
  0 <= mVaddr b -> 0 <= mMemSize b -> mVaddr b + mMemSize b < 2 ^ 64 ->
  virtualContains b addr = true <->
  mVaddr b <= Z.land addr (mVabitsMask b) < mVaddr b + mMemSize b.
Proof.
  intros. unfold virtualContains. cbn zeta. rewrite wrap_small by lia.
  rewrite negb_true_iff, orb_false_iff, Z.ltb_ge, Z.leb_gt. lia.
Qed.

(** How many bytes of a segment have content behind them. *)
Definition backing (b : LoadBlock) : Z :=
  match mMmap b with None => mFileSize b | Some m => mMaxSize m end.

Section OpsFacts.
Context `{OsLaws}.

(** The overlay of a segment is the memory it owns. *)
Definition overlay_owned (h : host) (b : LoadBlock) (bs : list Z) : Prop :=
  exists o, mOverlay b = Some o /\ mSize o = mMemSize b /\ 0 < mBegin o /\
    mBegin o + mMemSize b < 2 ^ 64 /\ owns h (mBegin o) (mMemSize b) bs.

(** Memory that was readable reads the same and is not part of overlay [b]. *)
Definition kept (h h' : host) (b : LoadBlock) : Prop :=
  forall a k x, 0 < k -> host_load h a k = Ok x ->
    host_load h' a k = Ok x /\
    forall o, mOverlay b = Some o -> a + k <= mBegin o \/ mBegin o + mMemSize b <= a.

(** A new overlay of a readable segment is a private copy of it. *)
Lemma newOverlay_copy (h : host) (b : LoadBlock) h' b' bs :
  newOverlay h b = Ok (h', b', true) ->
  mOverlay b = None -> isValid b = true ->
  host_load h (begin b OPT_READ_ALL) (backing b) = Ok bs ->
  0 < backing b <= mMemSize b ->
  overlay_owned h' b' (bs ++ replicate (Z.to_nat (mMemSize b - backing b)) 0) /\
  (exists o, b' = setOverlayMap (Some o) b) /\ kept h h' b'.
Proof.
  unfold newOverlay, overlay_owned. intros Hn Ho Hv Hl Hb. rewrite Ho, Hv in Hn.
  fold (backing b) in Hn. res_inv. destruct v as [h1 [m|]]; [|by injection Hn].
  apply Ok_inj in Hn. simplify_eq.
  apply (MmapMem_spec h _ _ _ bs) in E as (H1 & H2 & H3 & H4 & H5); [|done..].
  split_and!; [|by eauto|].
  - exists m. cbn. auto.
  - intros a k x Hk Hx. destruct (H5 a k x Hk Hx). split; [done|].
    intros o [= <-]. done.
Qed.

(** A new overlay of an unreadable (empty or truncated) segment is zero-filled. *)
Lemma newOverlay_zero (h : host) (b : LoadBlock) h' b' :
  newOverlay h b = Ok (h', b', true) ->
  mOverlay b = None -> isValid b = false -> 0 < mMemSize b ->
  overlay_owned h' b' (replicate (Z.to_nat (mMemSize b)) 0) /\
  (exists o, b' = setOverlayMap (Some o) b) /\ kept h h' b'.
Proof.
  unfold newOverlay, overlay_owned. intros Hn Ho Hv Hs. rewrite Ho, Hv in Hn.
  cbn in Hn. destruct (MmapZeroMem h (mMemSize b)) as [h1 [m|]] eqn:E; [|by injection Hn].
  apply Ok_inj in Hn. simplify_eq.
  apply MmapZeroMem_spec in E as (H1 & H2 & H3 & H4 & H5); [|done].
  split_and!; [|by eauto|].
  - exists m. cbn. auto.
  - intros a k x Hk Hx. destruct (H5 a k x Hk Hx). split; [done|].
    intros o [= <-]. done.
Qed.

(** Writing inside an overlay that is already there. *)
Lemma setOverlay_owned (h : host) (b : LoadBlock) bs addr buf :
  overlay_owned h b bs -> (0 < length buf)%nat ->
  mVaddr b <= Z.land addr (mVabitsMask b) ->
  Z.land addr (mVabitsMask b) + Z.of_nat (length buf) <= mVaddr b + mMemSize b ->
  exists h', setOverlay h b addr buf = Ok (h', b) /\
    overlay_owned h' b
      (splice (Z.to_nat (Z.land addr (mVabitsMask b) - mVaddr b)) buf bs).
Proof.
  intros (o & Ho & Hs & Hp & Hb & How) Hk Ha He.
  unfold setOverlay, newOverlay. rewrite Ho. cbn. rewrite Ho. cbn zeta.
  rewrite wrap_small by lia.
  destruct (owns_store _ _ _ _
    (mBegin o + (Z.land addr (mVabitsMask b) - mVaddr b)) buf How)
    as (h' & Hst & Ho'); [lia..|].
  rewrite Hst. cbn. eexists. split; [done|]. exists o. split_and!; [done..|].
  by replace (Z.land addr (mVabitsMask b) - mVaddr b)
    with (mBegin o + (Z.land addr (mVabitsMask b) - mVaddr b) - mBegin o) at 1 by lia.
Qed.
End OpsFacts.
