(* ===== verification/Notes.v ===== *)
(** The PT_NOTE segment of a core file: core/common/note_block.h and note_block.cpp
    ([NoteBlock]: threads, auxiliary vector, file list), core/common/auxv.h and auxv.cpp
    ([Auxv]), core/common/file.h ([File]), core/api/thread.h ([ThreadApi], with the
    register blocks the per-machine [ThreadInfo] adds). *)

From Stdlib Require Import ZArith Lia Bool.
From stdpp Require Import base list numbers.
From S2P Require Import Prelude Words Host Blocks.
Open Scope Z_scope.

(** * Data *)

(** [class Auxv]; [mAuxv] is the process address of the entry in the core file. *)
Record Auxv := MkAuxv { mType : Z; mValue : Z; mAuxvAddr : Z }.

Definition AT_NULL : Z := 0.
Definition AT_PHDR : Z := 3.
Definition AT_PHENT : Z := 4.
Definition AT_PHNUM : Z := 5.
Definition AT_PAGESZ : Z := 6.
Definition AT_EXECFN : Z := 31.
Definition AT_SYSINFO_EHDR : Z := 33.

(** [class File]. *)
Record File := MkFile { fBegin : Z; fEnd : Z; fOffset : Z; fName : list Z }.

(** [FIRST_STAGE_RAMDIS], "/first_stage_ramdisk". *)
Definition FIRST_STAGE_RAMDIS : list Z :=
  [47;102;105;114;115;116;95;115;116;97;103;101;95;114;97;109;100;105;115;107].

Fixpoint is_prefix (p l : list Z) : bool :=
  match p, l with
  | [], _ => true
  | x :: p', y :: l' => (x =? y) && is_prefix p' l'
  | _ :: _, [] => false
  end.

(** [name.find(p) != npos]. *)
Fixpoint contains_sub (p l : list Z) : bool :=
  is_prefix p l || match l with [] => false | _ :: t => contains_sub p t end.

(** The constructor of [File]. *)
Definition NewFile (b e off : Z) (nm : list Z) : File :=
  MkFile b e off
    (if contains_sub FIRST_STAGE_RAMDIS nm then drop (length FIRST_STAGE_RAMDIS) nm else nm).

(** [File::contains]. *)
Definition file_contains (f : File) (vaddr : Z) : bool :=
  (fBegin f <=? vaddr) && (vaddr <? fEnd f).

(** [class ThreadApi] and the register blocks of [ThreadInfo] (raw bytes). *)
Record ThreadApi := MkThread {
  mPid : Z; mPrs : Z; t_reg : list Z; t_fpr : list Z; t_tls : list Z }.

(** [class NoteBlock]. *)
Record NoteBlock := MkNoteBlock {
  nb_block :> Block;
  mThread : list ThreadApi;
  mAuxv : list Auxv;
  mFile : list File;
  mAuxvMax : Z;
}.

(** * Operations *)

Definition NewNoteBlock (f off va pa filesz memsz align : Z) : NoteBlock :=
  MkNoteBlock (NewBlock f off va pa filesz memsz align) [] [] [] 0.

Definition note_on_block (f : Block -> Block) (b : NoteBlock) : NoteBlock :=
  MkNoteBlock (f (nb_block b)) (mThread b) (mAuxv b) (mFile b) (mAuxvMax b).
Definition with_auxv (l : list Auxv) (b : NoteBlock) : NoteBlock :=
  MkNoteBlock b (mThread b) l (mFile b) (mAuxvMax b).

(** [NoteBlock::setAuxvMaxCount]. *)
Definition setAuxvMaxCount (max : Z) (b : NoteBlock) : NoteBlock :=
  MkNoteBlock b (mThread b) (mAuxv b) (mFile b) max.

(** [NoteBlock::addAuxvItem(addr, type, value)]. *)
Definition addAuxvItem (addr type value : Z) (b : NoteBlock) : NoteBlock :=
  with_auxv (mAuxv b ++ [MkAuxv type value addr]) b.

(** [NoteBlock::addFileItem(begin, end, offset, pos)]; [nm] is the string at [pos]. *)
Definition addFileItem (b_ e off : Z) (nm : list Z) (b : NoteBlock) : NoteBlock :=
  MkNoteBlock b (mThread b) (mAuxv b) (mFile b ++ [NewFile b_ e (shl 64 off 12) nm])
    (mAuxvMax b).

(** [NoteBlock::addThreadItem(thread)]: a null thread is ignored. *)
Definition addThreadItem (t : option ThreadApi) (b : NoteBlock) : NoteBlock :=
  match t with
  | Some t => MkNoteBlock b (mThread b ++ [t]) (mAuxv b) (mFile b) (mAuxvMax b)
  | None => b
  end.

(** [NoteBlock::begin(opt)]. *)
Definition note_begin (b : NoteBlock) (opt : Z) : Z :=
  match (if bit_set opt OPT_READ_OVERLAY then mOverlay b else None) with
  | Some o => mBegin o
  | None => if nz (mOriAddr b) && bit_set opt OPT_READ_OR then mOriAddr b else 0
  end.

Section NoteOps.
Context `{Os}.

(** [NoteBlock::newOverlay()]. *)
Definition note_newOverlay (h : host) (b : NoteBlock) : result (host * NoteBlock * bool) :=
  match mOverlay b with
  | Some _ => Ok (h, b, true)
  | None =>
      let! '(h', om) := MmapMem h (note_begin b OPT_READ_ALL) (mFileSize b) (mFileSize b) in
      match om with
      | Some m => Ok (h', note_on_block (setOverlay_block (Some m)) b, true)
      | None => Ok (h', b, false)
      end
  end.

(** [NoteBlock::setOverlay(addr, buf, size)]. *)
Definition note_setOverlay (h : host) (b : NoteBlock) (addr : Z) (buf : list Z)
    : result (host * NoteBlock) :=
  let! '(h1, b1, ok) := note_newOverlay h b in
  if ok : bool then
    match mOverlay b1 with
    | Some o =>
        let! h2 := host_store h1 (u64 (mBegin o + (addr - mOriAddr b1))) buf in
        Ok (h2, b1)
    | None => Fault
    end
  else Ok (h1, b1).

(** [NoteBlock::removeOverlay()]. *)
Definition note_removeOverlay (h : host) (b : NoteBlock) : host * NoteBlock :=
  match mOverlay b with
  | Some o => (unmap h o, note_on_block (setOverlay_block None) b)
  | None => (h, b)
  end.

(** [Auxv::setTypeAndValue(type, value)] of entry [i] of its note, for a target whose
    pointers are [ps] bytes ([CoreApi::GetPointSize]); the bytes copied are the first
    [ps] of the 64-bit arguments. *)
Definition setTypeAndValue (h : host) (b : NoteBlock) (ps : Z) (i : nat) (type value : Z)
    : result (host * NoteBlock) :=
  match mAuxv b !! i with
  | None => Fault
  | Some a =>
      let! '(h1, b1) := note_setOverlay h b (mAuxvAddr a) (le_bytes (Z.to_nat ps) type) in
      let! '(h2, b2) := note_setOverlay h1 b1 (u64 (mAuxvAddr a + ps))
                          (le_bytes (Z.to_nat ps) value) in
      Ok (h2, with_auxv (<[i := MkAuxv type value (mAuxvAddr a)]> (mAuxv b2)) b2)
  end.

(** [Auxv::setValue(value)]. *)
Definition setValue (h : host) (b : NoteBlock) (ps : Z) (i : nat) (value : Z)
    : result (host * NoteBlock) :=
  match mAuxv b !! i with
  | None => Fault
  | Some a =>
      let! '(h1, b1) := note_setOverlay h b (u64 (mAuxvAddr a + ps))
                          (le_bytes (Z.to_nat ps) value) in
      Ok (h1, with_auxv (<[i := MkAuxv (mType a) value (mAuxvAddr a)]> (mAuxv b1)) b1)
  end.

(** [Auxv::setType(type)]. *)
Definition setType (h : host) (b : NoteBlock) (ps : Z) (i : nat) (type : Z)
    : result (host * NoteBlock) :=
  match mAuxv b !! i with
  | None => Fault
  | Some a =>
      let! '(h1, b1) := note_setOverlay h b (mAuxvAddr a) (le_bytes (Z.to_nat ps) type) in
      Ok (h1, with_auxv (<[i := MkAuxv type (mValue a) (mAuxvAddr a)]> (mAuxv b1)) b1)
  end.

(** [NoteBlock::appendAuxvItem(type, value)]: the first AT_NULL entry takes the item
    and a new AT_NULL follows it, unless the note is full. *)
Definition appendAuxvItem (h : host) (b : NoteBlock) (ps type value : Z)
    : result (host * NoteBlock) :=
  if Z.of_nat (length (mAuxv b)) <? mAuxvMax b then
    match list_find (fun a => mType a = AT_NULL) (mAuxv b) with
    | None => Ok (h, b)
    | Some (i, a) =>
        let! '(h1, b1) := setTypeAndValue h b ps i type value in
        Ok (h1, addAuxvItem (u64 (mAuxvAddr a + 2 * ps)) AT_NULL 0 b1)
    end
  else Ok (h, b).
End NoteOps.
