(* ===== verification/CoreApi.v ===== *)
(** The loaded core: core/api/core.h and core/api/core.cpp ([CoreApi]): the segment lists
    with their binary search, fake segments, address translation in both directions, reads
    and writes of target memory, the iterators and the note lookups.

    Segments are shared objects (the same [LoadBlock] is in [mLoad] and in [mQuickLoad]),
    so the model has a store of segments indexed by object identity and lists of
    identities. *)

From Stdlib Require Import ZArith Lia Bool.
From stdpp Require Import base list gmap numbers.
From S2P Require Import Prelude Words Host Blocks Notes.
Open Scope Z_scope.

(** * State *)

(** [api::MemoryRef] (core/api/memory_ref.h): a target address and the segment it was
    last resolved to. *)
Record MemoryRef := MkRef { vaddr : Z; ref_block : option nat }.

(** [class LinkMap] (core/common/link_map.h): its address in the target, the caches of its
    load address and name, and the dynamic symbols read from the target. *)
Record LinkMap := MkLinkMap {
  lm_ref : MemoryRef;
  addr_cache : MemoryRef;
  name_cache : MemoryRef;
  dynsyms : list SymbolEntry;
}.

(** [class CoreApi] with the objects it owns; [host_mem] is the memory of the analyser,
    [mBlocks] the segment objects, [mNext] the next object identity; [mDebug] is the cached
    r_debug reference of the base class [api::Elf]. *)
Record CoreApi := MkCore {
  mCore : MemoryMap;
  pointer_mask : Z;
  vabits_mask : Z;
  page_size : Z;
  mLoad : list nat;
  mQuickLoad : list nat;
  mNote : list NoteBlock;
  mLinkMaps : list LinkMap;
  mRemote : bool;
  QUICK_LOAD_ENABLED : bool;
  mBlocks : gmap nat LoadBlock;
  mNext : nat;
  host_mem : host;
  mDebug : MemoryRef;
}.

Definition FAKE_LOAD_BEGIN : Z := 0x100000.
Definition ELF_PAGE_SIZE : Z := 0x1000.

Definition with_loads (c : CoreApi) (l q : list nat) : CoreApi :=
  MkCore (mCore c) (pointer_mask c) (vabits_mask c) (page_size c) l q (mNote c)
    (mLinkMaps c) (mRemote c) (QUICK_LOAD_ENABLED c) (mBlocks c) (mNext c) (host_mem c) (mDebug c).
Definition with_blocks (c : CoreApi) (m : gmap nat LoadBlock) : CoreApi :=
  MkCore (mCore c) (pointer_mask c) (vabits_mask c) (page_size c) (mLoad c) (mQuickLoad c)
    (mNote c) (mLinkMaps c) (mRemote c) (QUICK_LOAD_ENABLED c) m (mNext c) (host_mem c) (mDebug c).
Definition with_next (c : CoreApi) (n : nat) : CoreApi :=
  MkCore (mCore c) (pointer_mask c) (vabits_mask c) (page_size c) (mLoad c) (mQuickLoad c)
    (mNote c) (mLinkMaps c) (mRemote c) (QUICK_LOAD_ENABLED c) (mBlocks c) n (host_mem c) (mDebug c).
Definition with_host (c : CoreApi) (h : host) : CoreApi :=
  MkCore (mCore c) (pointer_mask c) (vabits_mask c) (page_size c) (mLoad c) (mQuickLoad c)
    (mNote c) (mLinkMaps c) (mRemote c) (QUICK_LOAD_ENABLED c) (mBlocks c) (mNext c) h (mDebug c).
Definition with_notes (c : CoreApi) (n : list NoteBlock) : CoreApi :=
  MkCore (mCore c) (pointer_mask c) (vabits_mask c) (page_size c) (mLoad c) (mQuickLoad c)
    n (mLinkMaps c) (mRemote c) (QUICK_LOAD_ENABLED c) (mBlocks c) (mNext c) (host_mem c) (mDebug c).
Definition with_maps (c : CoreApi) (m : list LinkMap) : CoreApi :=
  MkCore (mCore c) (pointer_mask c) (vabits_mask c) (page_size c) (mLoad c) (mQuickLoad c)
    (mNote c) m (mRemote c) (QUICK_LOAD_ENABLED c) (mBlocks c) (mNext c) (host_mem c) (mDebug c).
Definition with_page_size (c : CoreApi) (p : Z) : CoreApi :=
  MkCore (mCore c) (pointer_mask c) (vabits_mask c) p (mLoad c) (mQuickLoad c)
    (mNote c) (mLinkMaps c) (mRemote c) (QUICK_LOAD_ENABLED c) (mBlocks c) (mNext c)
    (host_mem c) (mDebug c).
Definition with_masks (c : CoreApi) (p v : Z) : CoreApi :=
  MkCore (mCore c) p v (page_size c) (mLoad c) (mQuickLoad c) (mNote c) (mLinkMaps c)
    (mRemote c) (QUICK_LOAD_ENABLED c) (mBlocks c) (mNext c) (host_mem c) (mDebug c).

Definition with_debug (c : CoreApi) (d : MemoryRef) : CoreApi :=
  MkCore (mCore c) (pointer_mask c) (vabits_mask c) (page_size c) (mLoad c) (mQuickLoad c)
    (mNote c) (mLinkMaps c) (mRemote c) (QUICK_LOAD_ENABLED c) (mBlocks c) (mNext c)
    (host_mem c) d.

(** The constructor [CoreApi(map)], in a process whose memory is [h]. *)
Definition NewCore (map : MemoryMap) (quick : bool) (h : host) : CoreApi :=
  MkCore map (2 ^ 64 - 1) (2 ^ 64 - 1) 0 [] [] [] [] false quick ∅ O h (MkRef 0 None).

(** The segment object [id]; the lists only hold live objects. *)
Definition lb (c : CoreApi) (id : nat) : LoadBlock :=
  default (NewLoadBlock_obj 0 0 0 0 0 0 0) (mBlocks c !! id).
Definition set_lb (c : CoreApi) (id : nat) (b : LoadBlock) : CoreApi :=
  with_blocks c (<[id := b]> (mBlocks c)).

(** [CoreApi::getLoads(quick)]. *)
Definition getLoads (c : CoreApi) (quick : bool) : list nat :=
  if quick then mQuickLoad c else mLoad c.

(** The end address [vaddr() + memsz()] of a segment. *)
Definition lb_end (b : LoadBlock) : Z := u64 (mVaddr b + mMemSize b).

(** * Segment search *)

(** The [while (left < right)] loop of [findLoadBlock]. *)
Fixpoint find_loop (fuel : nat) (c : CoreApi) (loads : list nat) (clocaddr left right : Z)
    : result (option nat) :=
  match fuel with
  | O => OutOfFuel
  | S n =>
      if left <? right then
        let mid := left + Z.quot (right - left) 2 in
        match loads !! Z.to_nat mid with
        | None => Fault
        | Some id =>
            let block := lb c id in
            if clocaddr <? mVaddr block then find_loop n c loads clocaddr left mid
            else if clocaddr <? lb_end block then Ok (Some id)
            else find_loop n c loads clocaddr (mid + 1) right
        end
      else Ok None
  end.

(** [CoreApi::findLoadBlock(vaddr, quick)]. *)
Definition findLoadBlock (c : CoreApi) (vaddr : Z) (quick : bool) : result (option nat) :=
  let loads := getLoads c quick in
  match loads with
  | [] => Ok None
  | first :: _ =>
      let right := i32 (Z.of_nat (length loads)) in
      let clocaddr := Z.land vaddr (vabits_mask c) in
      match loads !! Z.to_nat (right - 1) with
      | None => Fault
      | Some last =>
          if (clocaddr <? mVaddr (lb c first)) || (lb_end (lb c last) <=? clocaddr)
          then Ok None
          else find_loop (S (length loads)) c loads clocaddr 0 right
      end
  end.

(** [CoreApi::FindLoadBlock(vaddr, check, quick)]. *)
Definition FindLoadBlock (c : CoreApi) (vaddr : Z) (check quick : bool) : result (option nat) :=
  let! block := findLoadBlock c vaddr quick in
  if check then
    match block with
    | Some id => if isValid (lb c id) then Ok (Some id) else Throw vaddr
    | None => Throw vaddr
    end
  else Ok block.

(** [CoreApi::virtualValid(vaddr)]. *)
Definition virtualValid (c : CoreApi) (vaddr : Z) : result bool :=
  let! block := findLoadBlock c vaddr true in
  Ok (match block with Some id => isValid (lb c id) | None => false end).

(** * Segment lists *)

(** [CoreApi::addLoadBlock(block)]: the new object is appended to the lists. *)
Definition addLoadBlock (c : CoreApi) (b : LoadBlock) : CoreApi :=
  let id := mNext c in
  let c1 := with_next (set_lb c id b) (S id) in
  with_loads c1 (mLoad c1 ++ [id])
    (if negb (QUICK_LOAD_ENABLED c1) || nz (mFlags b) then mQuickLoad c1 ++ [id]
     else mQuickLoad c1).

Definition removeAllLoadBlock (c : CoreApi) : CoreApi := with_loads c [] [].

(** [CoreApi::removeAllBindMap()]. *)
Definition removeAllBindMap (c : CoreApi) : CoreApi :=
  foldl (fun c id => set_lb c id (bind None (lb c id))) c (mLoad c).

Definition removeAllLinkMap (c : CoreApi) : CoreApi := with_maps (removeAllBindMap c) [].

(** [CoreApi::CleanCache()]. *)
Definition CleanCache (c : CoreApi) : CoreApi := with_debug (removeAllLinkMap c) (MkRef 0 None).

Definition addNoteBlock (c : CoreApi) (b : NoteBlock) : CoreApi := with_notes c (mNote c ++ [b]).
Definition removeAllNoteBlock (c : CoreApi) : CoreApi := with_notes c [].

(** The scan of [newLoadBlock] over [mLoad] for a requested address: the index of the
    insertion, or [None] when the segment does not fit. [n] is [mLoad.size()]. *)
Fixpoint scan_load (c : CoreApi) (rest : list nat) (idx n begin size : Z) : option Z :=
  match rest with
  | [] => Some idx
  | id :: t =>
      if (begin <? mVaddr (lb c id)) || (idx =? n - 1) then
        let endaddr := if idx =? n - 1 then vabits_mask c else mVaddr (lb c id) in
        if endaddr <? u64 (begin + size) then None else Some idx
      else scan_load c t (idx + 1) n begin size
  end.

(** The scan over [mQuickLoad]: the index of the first segment above [begin]. *)
Fixpoint scan_quick (c : CoreApi) (rest : list nat) (idx begin : Z) : Z :=
  match rest with
  | [] => idx
  | id :: t => if begin <? mVaddr (lb c id) then idx else scan_quick c t (idx + 1) begin
  end.

(** The scan for a gap of [size] bytes between consecutive segments: its insertion index
    and address. *)
Fixpoint scan_gap (c : CoreApi) (left : LoadBlock) (rest : list nat) (idx size : Z)
    : option (Z * Z) :=
  match rest with
  | [] => None
  | id :: t =>
      let right := lb c id in
      if size <=? u64 (mVaddr right - (mVaddr left + mMemSize left))
      then Some (idx, lb_end left)
      else scan_gap c right t (idx + 1) size
  end.

(** Where [newLoadBlock] puts a fake segment: address and the two insertion indices.
    [None] is the code's [return 0]. *)
Definition place (c : CoreApi) (begin size : Z) : result (option (Z * Z * Z)) :=
  match mLoad c with
  | [] =>
      let begin := if begin =? 0 then FAKE_LOAD_BEGIN else begin in
      if vabits_mask c <? u64 (begin + size) then Ok None else Ok (Some (begin, 0, 0))
  | first :: rest =>
      let! block := findLoadBlock c begin false in
      match block with
      | Some _ => Ok None
      | None =>
          if nz begin then
            match scan_load c (mLoad c) 0 (Z.of_nat (length (mLoad c))) begin size with
            | None => Ok None
            | Some idxInLoad => Ok (Some (begin, idxInLoad, scan_quick c (mQuickLoad c) 0 begin))
            end
          else
            if u64 (FAKE_LOAD_BEGIN + size) <=? mVaddr (lb c first)
            then Ok (Some (FAKE_LOAD_BEGIN, 0, 0))
            else match scan_gap c (lb c first) rest 1 size with
                 | None => Ok None
                 | Some (idxInLoad, begin) =>
                     if nz begin
                     then Ok (Some (begin, idxInLoad, scan_quick c (mQuickLoad c) 0 begin))
                     else Ok None
                 end
      end
  end.

(** The segment object [newLoadBlock] creates. *)
Definition fake_block (c : CoreApi) (flags begin size : Z) : LoadBlock :=
  setPointMask (pointer_mask c) (setVabitsMask (vabits_mask c)
    (setFake true (setTruncated false
      (NewLoadBlock_obj (u32 flags) 0 begin 0 0 size 0x1000)))).

Section NewLoad.
Context `{Os}.

(** [CoreApi::newLoadBlock(vaddr, old_size, flags)]: the address of the new segment,
    0 on failure. *)
Definition newLoadBlock (c : CoreApi) (vaddr old_size flags : Z) : result (CoreApi * Z) :=
  let begin := RoundUp 64 (Z.land vaddr (vabits_mask c)) ELF_PAGE_SIZE in
  let size := RoundUp 64 old_size ELF_PAGE_SIZE in
  if negb (nz size) then Ok (c, 0) else
  let! p := place c begin size in
  match p with
  | None => Ok (c, 0)
  | Some (begin, idxInLoad, idxInQuick) =>
      let! '(h, block, ok) := newOverlay (host_mem c) (fake_block c flags begin size) in
      if ok : bool then
        let id := mNext c in
        let c1 := with_host (with_next (set_lb c id block) (S id)) h in
        Ok (with_loads c1 (insert_at (Z.to_nat idxInLoad) id (mLoad c1))
              (if negb (QUICK_LOAD_ENABLED c1) || nz (mFlags block)
               then insert_at (Z.to_nat idxInQuick) id (mQuickLoad c1)
               else mQuickLoad c1), begin)
      else Ok (with_host c h, 0)
  end.
End NewLoad.

(** * Address translation *)

(** [CoreApi::v2r(vaddr, opt)]: target address to process address. *)
Definition v2r (c : CoreApi) (vaddr opt : Z) : result Z :=
  let! block := findLoadBlock c vaddr true in
  match block with
  | Some id =>
      let b := lb c id in
      if isValid b then
        let raddr := begin b opt in
        if nz raddr then Ok (u64 (raddr + (Z.land vaddr (mVabitsMask b) - mVaddr b)))
        else Ok 0
      else Throw vaddr
  | None => Throw vaddr
  end.

(** [CoreApi::r2v(raddr)]: process address to target address, first match wins. *)
Fixpoint r2v_loop (c : CoreApi) (l : list nat) (raddr : Z) : result Z :=
  match l with
  | [] => Throw raddr
  | id :: t =>
      let b := lb c id in
      if realContains b raddr
      then Ok (u64 (mVaddr b + (raddr - begin b OPT_READ_ALL)))
      else r2v_loop c t raddr
  end.
Definition r2v (c : CoreApi) (raddr : Z) : result Z := r2v_loop c (mQuickLoad c) raddr.

(** [CoreApi::Read(vaddr, size, buf, opt)]: [None] is [false], [Some bs] the bytes copied
    to [buf]. *)
Definition Read (c : CoreApi) (vaddr sz opt : Z) : result (option (list Z)) :=
  let! block := FindLoadBlock c vaddr true true in
  let! raddr := v2r c vaddr opt in
  if negb (nz raddr) then Ok None else
  match block with
  | None => Fault
  | Some id =>
      let b := lb c id in
      let bend := u64 (mVaddr b + size b OPT_READ_ALL) in
      let! bs :=
        (if bend <? u64 (vaddr + sz)
         then host_load (host_mem c) raddr (u64 (mVaddr b + size b OPT_READ_ALL - vaddr))
         else host_load (host_mem c) raddr sz) in
      Ok (Some bs)
  end.

Section WriteOp.
Context `{Os}.

(** [CoreApi::Write(vaddr, buf, size)]. *)
Definition Write (c : CoreApi) (vaddr : Z) (buf : list Z) : result CoreApi :=
  let! block := FindLoadBlock c vaddr false true in
  match block with
  | None => Throw vaddr
  | Some id =>
      let! '(h, b) := setOverlay (host_mem c) (lb c id) vaddr buf in
      Ok (with_host (set_lb c id b) h)
  end.
End WriteOp.

(** * Iterators and note lookups *)

(** A [for] loop over objects whose callback may stop it by returning [true]; the
    callback threads a state [S] (what the closure captures). *)
Fixpoint foreach {A S} (callback : A -> S -> S * bool) (l : list A) (s : S) : S * bool :=
  match l with
  | [] => (s, false)
  | a :: t => let '(s', stop) := callback a s in
              if stop : bool then (s', true) else foreach callback t s'
  end.

(** [foreachThread], [foreachFile], [foreachAuxv]: over every note in turn. *)
Definition foreachThread {S} (c : CoreApi) (cb : ThreadApi -> S -> S * bool) (s : S) : S :=
  fst (foreach (fun n => foreach cb (mThread n)) (mNote c) s).
Definition foreachFile {S} (c : CoreApi) (cb : File -> S -> S * bool) (s : S) : S :=
  fst (foreach (fun n => foreach cb (mFile n)) (mNote c) s).
Definition foreachAuxv {S} (c : CoreApi) (cb : Auxv -> S -> S * bool) (s : S) : S :=
  fst (foreach (fun n => foreach cb (mAuxv n)) (mNote c) s).

(** [CoreApi::foreachLoadBlock(callback, check, quick)]. *)
Definition foreachLoadBlock {S} (c : CoreApi) (cb : nat -> S -> S * bool)
    (check quick : bool) (s : S) : S :=
  fst (foreach (fun id s => if check && negb (isValid (lb c id)) then (s, false) else cb id s)
         (getLoads c quick) s).

(** [CoreApi::findAuxv(type)]. *)
Definition findAuxv (c : CoreApi) (type : Z) : Z :=
  fst (foreach (fun n => foreach
         (fun a (s : Z) => if mType a =? type then (mValue a, true) else (s, false))
         (mAuxv n)) (mNote c) 0).

(** [CoreApi::findThread(tid)]. *)
Definition findThread (c : CoreApi) (tid : Z) : option ThreadApi :=
  fst (foreach (fun n => foreach
         (fun t s => if mPid t =? tid then (Some t, true) else (s, false))
         (mThread n)) (mNote c) None).

(** [CoreApi::FindFile(vaddr)]. *)
Definition FindFile (c : CoreApi) (vaddr : Z) : option File :=
  if negb (nz vaddr) then None else
  let clocvaddr := Z.land vaddr (vabits_mask c) in
  foreachFile c (fun f s => if file_contains f clocvaddr then (Some f, true) else (s, false))
    None.

(** [CoreApi::getPageSize()]: cached, then AT_PAGESZ, then 0x1000. *)
Definition getPageSize (c : CoreApi) : CoreApi * Z :=
  if nz (page_size c) then (c, page_size c) else
  let p := findAuxv c AT_PAGESZ in
  let p := if nz p then p else ELF_PAGE_SIZE in
  (with_page_size c p, p).

(** The [bind_file] step of [CoreApi::Load]: the segment that starts where a file of the
    NT_FILE note starts takes its name. *)
Definition bind_file (c : CoreApi) (f : File) : result CoreApi :=
  let! block := findLoadBlock c (fBegin f) false in
  match block with
  | Some id =>
      if mVaddr (lb c id) =? fBegin f
      then Ok (set_lb c id (setFile_lb (fName f) (fOffset f) (lb c id)))
      else Ok c
  | None => Ok c
  end.

Fixpoint bind_files (c : CoreApi) (l : list File) : result CoreApi :=
  match l with
  | [] => Ok c
  | f :: t => let! c' := bind_file c f in bind_files c' t
  end.
