(* ===== verification/Segments.v ===== *)
(** Correctness of the segment lists of [CoreApi]: the order invariant, the binary search
    against a linear search, appending PT_LOAD segments, and where [newLoadBlock] places
    fake segments (core/api/core.h [findLoadBlock], core/api/core.cpp). *)

From Stdlib Require Import ZArith Lia Bool.
From stdpp Require Import base list gmap numbers.
From S2P Require Import Prelude Words Host Blocks Notes CoreApi.
Open Scope Z_scope.

(** * The invariant *)

(** A segment is a range of the 64-bit address space. *)
Definition range_ok (b : LoadBlock) : Prop :=
  0 <= mVaddr b /\ 0 <= mMemSize b /\ mVaddr b + mMemSize b < 2 ^ 64.

(** Segment [i] ends before segment [j] starts ("E1 <= M1 < S2" in core.h). *)
Definition before (c : CoreApi) (i j : nat) : Prop :=
  mVaddr (lb c i) + mMemSize (lb c i) <= mVaddr (lb c j).

Record sorted (c : CoreApi) (loads : list nat) : Prop := {
  sorted_range : Forall (fun id => range_ok (lb c id)) loads;
  sorted_order : pairwise (before c) loads;
  sorted_int : Z.of_nat (length loads) < 2 ^ 31;
}.

(** Segment [id] contains the masked address [a]. *)
Definition covers (c : CoreApi) (a : Z) (id : nat) : bool :=
  (mVaddr (lb c id) <=? a) && (a <? mVaddr (lb c id) + mMemSize (lb c id)).

(** The reference search: the first segment of the list that contains the address. *)
Fixpoint linear_find (c : CoreApi) (a : Z) (loads : list nat) : option nat :=
  match loads with
  | [] => None
  | id :: t => if covers c a id then Some id else linear_find c a t
  end.

Lemma covers_spec c a id :
  covers c a id = true <->
  mVaddr (lb c id) <= a < mVaddr (lb c id) + mMemSize (lb c id).
Proof. unfold covers. rewrite andb_true_iff, Z.leb_le, Z.ltb_lt. tauto. Qed.

Lemma linear_find_Some c a loads id :
  linear_find c a loads = Some id -> id ∈ loads /\ covers c a id = true.
Proof.
  induction loads as [|x t IH]; cbn; [done|].
  destruct (covers c a x) eqn:E.
  - intros [= ->]. split; [apply list_elem_of_here|done].
  - intros H. destruct (IH H). split; [by apply list_elem_of_further|done].
Qed.

Lemma linear_find_None c a loads :
  linear_find c a loads = None <-> forall id, id ∈ loads -> covers c a id = false.
Proof.
  induction loads as [|x t IH]; cbn.
  - split; [|done]. intros _ id Hid. by apply not_elem_of_nil in Hid.
  - destruct (covers c a x) eqn:E.
    + split; [done|]. intros H. rewrite H in E; [done|apply list_elem_of_here].
    + rewrite IH. split.
      * intros H id [->|Hid]%elem_of_cons; auto.
      * intros H id Hid. apply H. by apply list_elem_of_further.
Qed.

(** In a sorted list at most one segment contains an address. *)
Lemma covers_unique c loads a i j x y :
  pairwise (before c) loads -> loads !! i = Some x -> loads !! j = Some y ->
  covers c a x = true -> covers c a y = true -> i = j.
Proof.
  intros Hs Hi Hj Hx%covers_spec Hy%covers_spec.
  destruct (Nat.lt_trichotomy i j) as [Hl|[?|Hl]]; [|done|].
  - specialize (Hs i j x y Hl Hi Hj). unfold before in Hs. lia.
  - specialize (Hs j i y x Hl Hj Hi). unfold before in Hs. lia.
Qed.

Lemma linear_find_elem c loads a id :
  pairwise (before c) loads -> id ∈ loads -> covers c a id = true ->
  linear_find c a loads = Some id.
Proof.
  intros Hs Hid Hc. destruct (linear_find c a loads) as [id'|] eqn:E.
  - apply linear_find_Some in E as [Hid' Hc'].
    apply list_elem_of_lookup in Hid as [i Hi]. apply list_elem_of_lookup in Hid' as [j Hj].
    rewrite (covers_unique c loads a i j id id') in Hi by done. congruence.
  - rewrite linear_find_None in E. rewrite E in Hc by done. done.
Qed.

(** * The binary search *)

Lemma find_loop_spec c loads a fuel left right :
  sorted c loads ->
  0 <= left -> left <= right <= Z.of_nat (length loads) -> right - left < Z.of_nat fuel ->
  (forall i id, loads !! i = Some id -> Z.of_nat i < left -> covers c a id = false) ->
  (forall i id, loads !! i = Some id -> right <= Z.of_nat i -> covers c a id = false) ->
  find_loop fuel c loads a left right = Ok (linear_find c a loads).
Proof.
  intros Hs. revert left right. induction fuel as [|n IH]; intros left right Hl Hr Hf HL HR;
    [lia|].
  cbn [find_loop]. destruct (Z.ltb_spec left right) as [Hlt|Hge].
  2: { f_equal. symmetry. apply linear_find_None. intros id Hid.
       apply list_elem_of_lookup in Hid as [i Hi].
       destruct (Z.lt_ge_cases (Z.of_nat i) left); [eauto|]. apply (HR i); [done|lia]. }
  cbn zeta. rewrite Z.quot_div_nonneg by lia.
  pose proof (Z.div_mod (right - left) 2). pose proof (Z.mod_pos_bound (right - left) 2).
  set (mid := left + (right - left) / 2) in *.
  destruct (loads !! Z.to_nat mid) as [id|] eqn:Em.
  2: { apply lookup_ge_None in Em. lia. }
  pose proof (Forall_lookup_1 _ _ _ _ (sorted_range _ _ Hs) Em) as Hrg.
  unfold range_ok in Hrg. unfold lb_end. rewrite wrap_small by lia.
  destruct (Z.ltb_spec a (mVaddr (lb c id))) as [Ha|Ha].
  - apply IH; [lia..|done|]. intros i y Hi Hmi.
    apply not_true_iff_false. rewrite covers_spec.
    destruct (Z.eq_dec (Z.of_nat i) mid) as [<-|Hne].
    { rewrite Nat2Z.id in Em. simplify_eq. lia. }
    pose proof (sorted_order _ _ Hs (Z.to_nat mid) i id y) as Hb. unfold before in Hb.
    specialize (Hb ltac:(lia) Em Hi). lia.
  - destruct (Z.ltb_spec a (mVaddr (lb c id) + mMemSize (lb c id))) as [Hb|Hb].
    + f_equal. symmetry. apply linear_find_elem; [apply Hs| |by apply covers_spec].
      by eapply list_elem_of_lookup_2.
    + apply IH; [lia..| |done]. intros i y Hi Hmi.
      apply not_true_iff_false. rewrite covers_spec.
      destruct (Z.eq_dec (Z.of_nat i) mid) as [<-|Hne].
      { rewrite Nat2Z.id in Em. simplify_eq. lia. }
      pose proof (sorted_order _ _ Hs i (Z.to_nat mid) y id) as Hbf. unfold before in Hbf.
      specialize (Hbf ltac:(lia) Hi Em).
      pose proof (Forall_lookup_1 _ _ _ _ (sorted_range _ _ Hs) Hi) as Hrg'.
      unfold range_ok in Hrg'. lia.
Qed.

Lemma findLoadBlock_linear c va quick :
  sorted c (getLoads c quick) ->
  findLoadBlock c va quick =
    Ok (linear_find c (Z.land va (vabits_mask c)) (getLoads c quick)).
Proof.
  intros Hs. unfold findLoadBlock. cbn zeta.
  destruct (getLoads c quick) as [|first t] eqn:El; [done|].
  rewrite <- El in *. set (loads := getLoads c quick) in *.
  set (a := Z.land va (vabits_mask c)).
  pose proof (sorted_int _ _ Hs) as Hi.
  assert (Hlen : 0 < Z.of_nat (length loads)) by (rewrite El; cbn; lia).
  assert (Hr : i32 (Z.of_nat (length loads)) = Z.of_nat (length loads)).
  { unfold sint. rewrite wrap_small by lia. bool_cases; lia. }
  rewrite Hr. assert (Hf : loads !! 0%nat = Some first) by (by rewrite El).
  destruct (loads !! Z.to_nat (Z.of_nat (length loads) - 1)) as [last|] eqn:Elast.
  2: { apply lookup_ge_None in Elast. lia. }
  pose proof (Forall_lookup_1 _ _ _ _ (sorted_range _ _ Hs) Elast) as Hrl.
  unfold range_ok in Hrl. unfold lb_end. rewrite wrap_small by lia.
  destruct (_ || _) eqn:Eor.
  - f_equal. symmetry. apply linear_find_None. intros id Hid.
    apply list_elem_of_lookup in Hid as [i Hid]. apply not_true_iff_false.
    rewrite covers_spec. apply orb_true_iff in Eor as [E%Z.ltb_lt|E%Z.leb_le].
    + destruct (decide (i = 0%nat)) as [->|Hne]; [simplify_eq; lia|].
      pose proof (sorted_order _ _ Hs 0%nat i first id) as Hb. unfold before in Hb.
      pose proof (Forall_lookup_1 _ _ _ _ (sorted_range _ _ Hs) Hf) as Hrf.
      unfold range_ok in Hrf. specialize (Hb ltac:(lia) Hf Hid). lia.
    + apply lookup_lt_Some in Hid as Hilt.
      destruct (decide (i = Z.to_nat (Z.of_nat (length loads) - 1))) as [->|Hne].
      { simplify_eq. lia. }
      assert (Hlt' : (i < Z.to_nat (Z.of_nat (length loads) - 1))%nat) by lia.
      pose proof (sorted_order _ _ Hs i _ id last Hlt' Hid Elast) as Hb.
      unfold before in Hb. lia.
  - apply find_loop_spec; [done|lia..| |].
    + intros; lia.
    + intros i id Hid Hge. apply lookup_lt_Some in Hid. lia.
Qed.

(** The search gives up at once on an address past the end of the last segment. *)
Lemma findLoadBlock_past c va pre last :
  mLoad c = pre ++ [last] -> Z.of_nat (length pre) + 1 < 2 ^ 31 ->
  lb_end (lb c last) <= Z.land va (vabits_mask c) ->
  findLoadBlock c va false = Ok None.
Proof.
  intros El Hn He. unfold findLoadBlock. cbn [getLoads].
  destruct (mLoad c) as [|first rest] eqn:E; [done|]. rewrite El, length_app. cbn [length].
  assert (i32 (Z.of_nat (length pre + 1)) = Z.of_nat (length pre) + 1) as ->.
  { unfold sint. rewrite wrap_small by lia. bool_cases; lia. }
  rewrite Z.add_simpl_r, Nat2Z.id, list_lookup_middle by done.
  destruct (Z.leb_spec (lb_end (lb c last)) (Z.land va (vabits_mask c))); [|lia].
  by rewrite orb_true_r.
Qed.

(** * Lists of segments and the objects they refer to *)

Record wf (c : CoreApi) : Prop := {
  wf_load : sorted c (mLoad c);
  wf_quick : sorted c (mQuickLoad c);
  wf_sub : forall id, id ∈ mQuickLoad c -> id ∈ mLoad c;
  wf_ids : forall id, id ∈ mLoad c -> (id < mNext c)%nat;
}.

(** Two cores show the same objects at the positions of a list. *)
Definition agree (c c' : CoreApi) (l : list nat) : Prop :=
  forall id, id ∈ l -> lb c' id = lb c id.

Lemma sorted_agree c c' l : agree c c' l -> sorted c l -> sorted c' l.
Proof.
  intros Ha [H1 H2 H3]. split; [| |done].
  - apply Forall_elem. intros id Hid. rewrite Ha by done. rewrite Forall_elem in H1. auto.
  - intros i j x y Hij Hi Hj. unfold before.
    rewrite !Ha by (by eapply list_elem_of_lookup_2). by apply (H2 i j).
Qed.

Lemma lb_set c id b id' : lb (set_lb c id b) id' = if decide (id = id') then b else lb c id'.
Proof.
  unfold lb, set_lb. cbn. destruct (decide (id = id')) as [->|Hne].
  - by rewrite lookup_insert_eq.
  - by rewrite lookup_insert_ne.
Qed.

(** A range [b, b+sz) fits at position [k] of a list. *)
Definition gap (c : CoreApi) (l : list nat) (k : Z) (b sz : Z) : Prop :=
  0 <= k <= Z.of_nat (length l) /\
  (forall id, id ∈ take (Z.to_nat k) l -> mVaddr (lb c id) + mMemSize (lb c id) <= b) /\
  (forall id, id ∈ drop (Z.to_nat k) l -> b + sz <= mVaddr (lb c id)).

(** Inserting a segment at a gap keeps the list sorted. *)
Lemma sorted_insert c c' l k id b sz :
  sorted c l -> gap c l k b sz -> agree c c' l ->
  mVaddr (lb c' id) = b -> mMemSize (lb c' id) = sz -> range_ok (lb c' id) ->
  Z.of_nat (length l) + 1 < 2 ^ 31 ->
  sorted c' (insert_at (Z.to_nat k) id l).
Proof.
  intros Hs (Hk & Hl & Hr) Ha Hb Hz Hrg Hn.
  apply (sorted_agree c c') in Hs; [|done]. destruct Hs as [H1 H2 H3]. split.
  - apply Forall_elem. intros x [->|Hx]%insert_at_elem; [done|].
    rewrite Forall_elem in H1. auto.
  - apply pairwise_insert_at; [done| |]; intros y Hy; unfold before.
    + rewrite Ha by (by eapply elem_of_take_drop_l). rewrite Hb. auto.
    + rewrite (Ha y) by (by eapply elem_of_take_drop_r). rewrite Hb, Hz. auto.
  - unfold insert_at. rewrite length_app. cbn. rewrite length_take, length_drop. lia.
Qed.

(** Appending a segment that starts after the last one keeps both lists sorted: how
    [load64]/[load32] fill them. *)
Lemma addLoadBlock_wf c b :
  wf c -> range_ok b -> Z.of_nat (length (mLoad c)) + 1 < 2 ^ 31 ->
  Z.of_nat (length (mQuickLoad c)) + 1 < 2 ^ 31 ->
  (forall id, id ∈ mLoad c -> mVaddr (lb c id) + mMemSize (lb c id) <= mVaddr b) ->
  wf (addLoadBlock c b).
Proof.
  intros [Hl Hq Hsub Hid] Hrg Hn Hnq Hend.
  set (c' := addLoadBlock c b).
  assert (Hlb : forall id, lb c' id = if decide (mNext c = id) then b else lb c id)
    by (intros; apply lb_set).
  assert (Ha : agree c c' (mLoad c)).
  { intros id H. rewrite Hlb, decide_False; [done|]. apply Hid in H. lia. }
  assert (Hnew : lb c' (mNext c) = b) by (by rewrite Hlb, decide_True).
  assert (Happ : forall l, sorted c l -> (forall id, id ∈ l -> id ∈ mLoad c) ->
            Z.of_nat (length l) + 1 < 2 ^ 31 -> sorted c' (l ++ [mNext c])).
  { intros l Hs Hin Hlen.
    rewrite <- (insert_at_end l).
    rewrite <- (Nat2Z.id (length l)).
    apply (sorted_insert c c' l _ _ (mVaddr b) (mMemSize b)); rewrite ?Hnew; auto.
    - split_and!; [lia|lia| |]; rewrite Nat2Z.id.
      + intros id H. apply Hend, Hin. by eapply elem_of_take_drop_l.
      + intros id H. rewrite drop_all in H. by apply not_elem_of_nil in H.
    - intros id H. auto. }
  assert (Haq : sorted c' (mQuickLoad c)).
  { apply (sorted_agree c); [|done]. intros id H. auto. }
  split; cbn -[lb].
  - by apply Happ.
  - destruct (_ || _); [|done]. by apply Happ.
  - intros id. destruct (_ || _); rewrite ?elem_of_app; naive_solver.
  - intros id [H|H%list_elem_of_singleton]%elem_of_app; [|lia]. apply Hid in H. lia.
Qed.

(** * Placement of fake segments *)

(** The scan over [mLoad] stops at the first segment above [begin] or at the last one. *)
Lemma scan_load_spec c pre rest begin sz k :
  scan_load c rest (Z.of_nat (length pre)) (Z.of_nat (length (pre ++ rest))) begin sz = Some k ->
  rest <> [] ->
  exists pre' id post, pre ++ rest = pre' ++ id :: post /\ k = Z.of_nat (length pre') /\
    (forall x, x ∈ pre' -> x ∈ pre \/ mVaddr (lb c x) <= begin) /\
    (post = [] \/
     begin < mVaddr (lb c id) /\ u64 (begin + sz) <= mVaddr (lb c id)).
Proof.
  revert pre. induction rest as [|id t IH]; intros pre; [done|]. intros Hk _. cbn in Hk.
  destruct (Z.eqb_spec (Z.of_nat (length pre)) (Z.of_nat (length (pre ++ id :: t)) - 1))
    as [Hlast|Hlast].
  - rewrite orb_true_r in Hk. exists pre, id, t. destruct (_ <? _); [done|].
    injection Hk as <-. split_and!; [done..|by left|].
    rewrite length_app in Hlast. cbn in Hlast. left. destruct t; [done|cbn in Hlast; lia].
  - rewrite orb_false_r in Hk. destruct (Z.ltb_spec begin (mVaddr (lb c id))) as [Hb|Hb].
    + destruct (Z.ltb_spec (mVaddr (lb c id)) (u64 (begin + sz))); [done|].
      injection Hk as <-. exists pre, id, t. split_and!; [done..|by left|by right].
    + destruct t as [|id2 t2].
      { rewrite length_app in Hlast. cbn in Hlast. lia. }
      specialize (IH (pre ++ [id])).
      replace (Z.of_nat (length (pre ++ [id]))) with (Z.of_nat (length pre) + 1) in IH
        by (rewrite length_app; cbn; lia).
      rewrite <- app_assoc in IH. cbn [app] in IH.
      destruct (IH Hk) as (pre' & x & post & H1 & H2 & H3 & H4); [done|].
      exists pre', x, post. split_and!; [done..| |done].
      intros y Hy. apply H3 in Hy as [[Hy|Hy%list_elem_of_singleton]%elem_of_app|Hy];
        subst; auto.
Qed.

(** The scan over [mLoad] stops at the last segment when no other one starts above the
    requested address. *)
Lemma scan_load_last c (pre rest : list nat) last begin sz :
  (forall x, x ∈ rest -> mVaddr (lb c x) <= begin) ->
  scan_load c (rest ++ [last]) (Z.of_nat (length pre))
      (Z.of_nat (length pre + length (rest ++ [last]))) begin sz =
    if vabits_mask c <? u64 (begin + sz) then None
    else Some (Z.of_nat (length pre + length rest)).
Proof.
  revert pre. induction rest as [|x t IH]; intros pre Hle; cbn -[Z.of_nat].
  - replace (Z.of_nat (length pre) =? _) with true
      by (symmetry; apply Z.eqb_eq; lia).
    by rewrite orb_true_r, Nat.add_0_r.
  - assert (mVaddr (lb c x) <= begin) by (apply Hle, list_elem_of_here).
    destruct (Z.ltb_spec begin (mVaddr (lb c x))); [lia|].
    rewrite length_app. cbn [length].
    destruct (Z.eqb_spec (Z.of_nat (length pre))
      (Z.of_nat (length pre + S (length t + 1)) - 1)); [lia|]. cbn [orb].
    specialize (IH (pre ++ [x])). rewrite !length_app in IH. cbn [length] in IH.
    replace (Z.of_nat (length pre) + 1) with (Z.of_nat (length pre + 1)) by lia.
    replace (length pre + S (length t + 1))%nat with (length pre + 1 + (length t + 1))%nat by lia.
    rewrite IH.
    + by replace (length pre + S (length t))%nat with (length pre + 1 + length t)%nat by lia.
    + intros y Hy. apply Hle. by apply list_elem_of_further.
Qed.

(** The scan over [mQuickLoad] stops at the first segment above [begin]. *)
Lemma scan_quick_spec c l pre begin :
  exists pre' post, pre ++ l = pre' ++ post /\
    scan_quick c l (Z.of_nat (length pre)) begin = Z.of_nat (length pre') /\
    (forall x, x ∈ pre' -> x ∈ pre \/ mVaddr (lb c x) <= begin) /\
    (forall x, head post = Some x -> begin < mVaddr (lb c x)).
Proof.
  revert pre. induction l as [|id t IH]; intros pre; cbn.
  - exists pre, []. split_and!; [done..|by left|done].
  - destruct (Z.ltb_spec begin (mVaddr (lb c id))) as [Hb|Hb].
    + exists pre, (id :: t). split_and!; [done..|by left|]. by intros x [= <-].
    + specialize (IH (pre ++ [id])). rewrite <- app_assoc in IH.
      replace (Z.of_nat (length (pre ++ [id]))) with (Z.of_nat (length pre) + 1) in IH
        by (rewrite length_app; cbn; lia).
      destruct IH as (pre' & post & H1 & H2 & H3 & H4).
      exists pre', post. split_and!; [done..| |done].
      intros y Hy. apply H3 in Hy as [[Hy|Hy%list_elem_of_singleton]%elem_of_app|Hy];
        subst; auto.
Qed.

(** A split of a sorted list around a free range is a gap. *)
Lemma gap_of_split c l pre post b sz :
  sorted c l -> l = pre ++ post ->
  (forall x, x ∈ pre -> mVaddr (lb c x) + mMemSize (lb c x) <= b) ->
  (forall x, head post = Some x -> b + sz <= mVaddr (lb c x)) ->
  gap c l (Z.of_nat (length pre)) b sz.
Proof.
  intros [Hr Ho _] -> Hpre Hpost. split_and!; [lia|rewrite length_app; lia| |];
    rewrite Nat2Z.id.
  - intros x Hx. rewrite take_app_length in Hx. auto.
  - intros x Hx. rewrite drop_app_length in Hx.
    destruct post as [|y post]; [by apply not_elem_of_nil in Hx|].
    specialize (Hpost y eq_refl).
    apply elem_of_cons in Hx as [->|Hx]; [done|].
    apply pairwise_app in Ho as (_ & Ho & _). apply pairwise_cons in Ho as [Ho _].
    rewrite Forall_elem in Ho, Hr. specialize (Ho x Hx). unfold before in Ho.
    assert (range_ok (lb c y)) as Hy.
    { apply Hr, elem_of_app. right. apply list_elem_of_here. }
    unfold range_ok in Hy. lia.
Qed.

(** A segment that starts at or below an uncovered address ends at or below it. *)
Lemma uncovered_below c l b x :
  linear_find c b l = None -> x ∈ l -> mVaddr (lb c x) <= b ->
  mVaddr (lb c x) + mMemSize (lb c x) <= b.
Proof.
  intros Hn Hx Hle. rewrite linear_find_None in Hn. specialize (Hn x Hx).
  apply not_true_iff_false in Hn. rewrite covers_spec in Hn. lia.
Qed.

(** The scan for a free gap finds one between two consecutive segments. *)
Lemma scan_gap_spec c pre x rest sz k b :
  sorted c (pre ++ x :: rest) -> 0 < sz ->
  scan_gap c (lb c x) rest (Z.of_nat (length pre) + 1) sz = Some (k, b) ->
  gap c (pre ++ x :: rest) k b sz /\ 0 <= b /\ b + sz < 2 ^ 64.
Proof.
  revert pre x. induction rest as [|y rest IH]; intros pre x Hs Hsz; cbn; [done|].
  pose proof Hs as [Hr Ho _]. rewrite Forall_elem in Hr.
  assert (Hx : range_ok (lb c x)) by (apply Hr, elem_of_app; right; apply list_elem_of_here).
  assert (Hy : range_ok (lb c y)).
  { apply Hr, elem_of_app. right. apply list_elem_of_further, list_elem_of_here. }
  pose proof Ho as (Hp & Hxy & Hcross)%pairwise_app.
  apply pairwise_cons in Hxy as [Hxy _]. rewrite Forall_elem in Hxy.
  assert (Hb : before c x y) by (apply Hxy, list_elem_of_here).
  unfold before, range_ok, lb_end in *. rewrite (wrap_small 64 (_ - _)) by lia.
  rewrite wrap_small by lia. destruct (Z.leb_spec sz (mVaddr (lb c y) -
    (mVaddr (lb c x) + mMemSize (lb c x)))) as [Hfit|_].
  - intros [= <- <-]. split.
    + replace (Z.of_nat (length pre) + 1) with (Z.of_nat (length (pre ++ [x])))
        by (rewrite length_app; cbn; lia).
      apply (gap_of_split _ _ _ (y :: rest)); [done|by rewrite <- app_assoc| |].
      * intros z [Hz|Hz%list_elem_of_singleton]%elem_of_app; [|subst; lia].
        specialize (Hcross z x Hz ltac:(apply list_elem_of_here)). lia.
      * intros z [= <-]. lia.
    + lia.
  - intros Hsg. specialize (IH (pre ++ [x]) y). rewrite <- app_assoc in IH. cbn in IH.
    replace (Z.of_nat (length (pre ++ [x]))) with (Z.of_nat (length pre) + 1) in IH
      by (rewrite length_app; cbn; lia).
    by apply IH.
Qed.

(** The requested address is served by the checked part of the scan: nothing is
    requested, there is no segment yet, or a segment other than the last is above it. *)
Definition checked_request (c : CoreApi) (b : Z) : Prop :=
  b = 0 \/ mLoad c = [] \/
  exists pre id post, mLoad c = pre ++ id :: post /\ post <> [] /\ b < mVaddr (lb c id).

Lemma gap_elem c l k b sz x :
  gap c l k b sz -> x ∈ l ->
  mVaddr (lb c x) + mMemSize (lb c x) <= b \/ b + sz <= mVaddr (lb c x).
Proof.
  intros (_ & H1 & H2) Hx. rewrite <- (take_drop (Z.to_nat k) l) in Hx.
  apply elem_of_app in Hx as [Hx|Hx]; auto.
Qed.

(** A gap of [mLoad] is a gap of [mQuickLoad] at the index [scan_quick] finds. *)
Lemma gap_quick c k b sz :
  wf c -> 0 < sz -> gap c (mLoad c) k b sz ->
  gap c (mQuickLoad c) (scan_quick c (mQuickLoad c) 0 b) b sz.
Proof.
  intros [Hl Hq Hsub _] Hsz Hg.
  assert (Hcase : forall x, x ∈ mQuickLoad c -> 0 <= mMemSize (lb c x) /\
    (mVaddr (lb c x) + mMemSize (lb c x) <= b \/ b + sz <= mVaddr (lb c x))).
  { intros x Hx. apply Hsub in Hx. split; [|by eapply gap_elem].
    pose proof (sorted_range _ _ Hl) as Hr. rewrite Forall_elem in Hr.
    apply Hr in Hx. unfold range_ok in Hx. lia. }
  destruct (scan_quick_spec c (mQuickLoad c) [] b) as (pre & post & Heq & Hk & Hpre & Hpost).
  change (Z.of_nat (length [])) with 0 in Hk. cbn in Heq. rewrite Hk.
  apply (gap_of_split _ _ _ post); [done|done| |].
  - intros x Hx. destruct (Hcase x) as [? Hc]; [rewrite Heq; apply elem_of_app; by left|].
    apply Hpre in Hx as [Hx|Hx]; [by apply not_elem_of_nil in Hx|lia].
  - intros x Hx. pose proof (Hpost x Hx). destruct (Hcase x) as [? Hc]; [|lia].
    rewrite Heq. apply elem_of_app. right.
    destruct post; [done|]. injection Hx as ->. apply list_elem_of_here.
Qed.

(** A free range below every segment. *)
Lemma gap_front c l b sz :
  (forall x, x ∈ l -> b + sz <= mVaddr (lb c x)) -> gap c l 0 b sz.
Proof.
  intros H. split_and!; [lia|lia| |]; cbn.
  - intros x Hx. by apply not_elem_of_nil in Hx.
  - intros x Hx. apply H. by rewrite drop_0 in Hx.
Qed.

(** The request branch: a checked request is placed in a gap. *)
Lemma place_request c begin sz k :
  wf c -> 0 <= begin + sz < 2 ^ 64 -> mLoad c <> [] ->
  linear_find c begin (mLoad c) = None -> begin <> 0 -> checked_request c begin ->
  scan_load c (mLoad c) 0 (Z.of_nat (length (mLoad c))) begin sz = Some k ->
  gap c (mLoad c) k begin sz.
Proof.
  intros [Hl _ _ _] Hov Hne0 Ef Hb Hreq Es.
  pose proof (scan_load_spec c [] (mLoad c) begin sz k) as Hsc. cbn [app length] in Hsc.
  destruct (Hsc Es) as (pre & id & post & Hsplit & -> & Hpre & Hpost); [done|].
  rewrite wrap_small in Hpost by lia.
  apply (gap_of_split _ _ _ (id :: post)); [done|done| |].
  - intros x Hx. apply (uncovered_below c (mLoad c)); [done| |].
    + rewrite Hsplit. apply elem_of_app. by left.
    + apply Hpre in Hx as [Hx|Hx]; [by apply not_elem_of_nil in Hx|done].
  - intros x [= <-]. destruct Hpost as [->|[? ?]]; [exfalso|done].
    destruct Hreq as [->|[?|(p2 & id2 & post2 & Hs2 & Hne & Hlt)]]; [done..|].
    rewrite Hsplit in Hs2. assert (Hid2 : id2 ∈ pre).
    { destruct (exists_last Hne) as (post3 & z & ->).
      change (id2 :: post3 ++ [z]) with ((id2 :: post3) ++ [z]) in Hs2.
      rewrite app_assoc in Hs2. apply app_inj_tail in Hs2 as [-> _].
      apply elem_of_app. right. apply list_elem_of_here. }
    apply Hpre in Hid2 as [Hx|Hx]; [by apply not_elem_of_nil in Hx|lia].
Qed.

(** The free branch: with no requested address, the segment goes to FAKE_LOAD_BEGIN or
    into the first gap that is large enough. *)
Lemma place_free c first rest sz b i q :
  wf c -> mLoad c = first :: rest -> 0 < sz < 2 ^ 63 ->
  (if u64 (FAKE_LOAD_BEGIN + sz) <=? mVaddr (lb c first)
   then Ok (Some (FAKE_LOAD_BEGIN, 0, 0))
   else match scan_gap c (lb c first) rest 1 sz with
        | None => Ok None
        | Some (i, b) =>
            if nz b then Ok (Some (b, i, scan_quick c (mQuickLoad c) 0 b)) else Ok None
        end) = Ok (Some (b, i, q)) ->
  gap c (mLoad c) i b sz /\ gap c (mQuickLoad c) q b sz /\ 0 <= b /\ b + sz < 2 ^ 64.
Proof.
  intros Hwf El Hsz Hp. pose proof Hwf as [Hl _ Hsub _].
  pose proof Hl as [Hr Ho _]. rewrite Forall_elem in Hr.
  unfold FAKE_LOAD_BEGIN in *. rewrite wrap_small in Hp by lia.
  destruct (Z.leb_spec (0x100000 + sz) (mVaddr (lb c first))) as [Hfit|_].
  - apply Ok_inj in Hp. injection Hp as <- <- <-.
    assert (Hfront : forall x, x ∈ mLoad c -> 0x100000 + sz <= mVaddr (lb c x)).
    { rewrite El in *. intros x [->|Hx]%elem_of_cons; [done|].
      apply pairwise_cons in Ho as [Ho _]. rewrite Forall_elem in Ho.
      specialize (Ho x Hx). unfold before in Ho.
      specialize (Hr first (list_elem_of_here _ _)). unfold range_ok in Hr. lia. }
    split_and!; [by apply gap_front| |lia|lia].
    apply gap_front. auto.
  - destruct (scan_gap _ _ _ _ _) as [[k b']|] eqn:Eg; [|done].
    destruct (nz b') eqn:Enz; [|done]. apply Ok_inj in Hp. injection Hp as <- <- <-.
    pose proof (scan_gap_spec c [] first rest sz k b') as Hg. cbn [app length] in Hg.
    rewrite <- El in Hg. destruct Hg as (Hg & Hb & Hov); [done|lia|done|].
    split_and!; [done| |done|done]. eapply gap_quick; [done|lia|done].
Qed.

Lemma place_spec c begin sz b i q :
  wf c -> 0 <= begin -> 0 < sz < 2 ^ 63 -> begin + sz < 2 ^ 64 ->
  Z.land begin (vabits_mask c) = begin -> checked_request c begin ->
  place c begin sz = Ok (Some (b, i, q)) ->
  gap c (mLoad c) i b sz /\ gap c (mQuickLoad c) q b sz /\ 0 <= b /\ b + sz < 2 ^ 64.
Proof.
  intros Hwf Hb0 Hsz Hov Hmask Hreq Hp. unfold place in Hp.
  destruct (mLoad c) as [|first rest] eqn:El.
  - assert (mQuickLoad c = []) as Eq.
    { destruct (mQuickLoad c) as [|x t] eqn:Eq; [done|].
      pose proof (wf_sub _ Hwf x) as Hsub. rewrite El, Eq in Hsub.
      specialize (Hsub (list_elem_of_here _ _)). by apply not_elem_of_nil in Hsub. }
    rewrite Eq. destruct (_ <? _) eqn:E in Hp; [done|]. apply Ok_inj in Hp.
    injection Hp as <- <- <-. unfold FAKE_LOAD_BEGIN.
    split_and!; try (apply gap_front; intros ? ?%not_elem_of_nil; done); bool_cases; lia.
  - rewrite (findLoadBlock_linear c begin false) in Hp by apply Hwf. cbn [rbind] in Hp.
    rewrite <- El in *. cbn [getLoads] in Hp. rewrite Hmask in Hp.
    destruct (linear_find c begin (mLoad c)) eqn:Ef; [done|].
    destruct (nz begin) eqn:Enz.
    + destruct (scan_load _ _ _ _ _ _) as [k|] eqn:Es; [|done]. apply Ok_inj in Hp.
      injection Hp as <- <- <-.
      assert (Hg : gap c (mLoad c) k begin sz).
      { apply place_request; try done; [lia|by rewrite El|].
        intros ->. done. }
      split_and!; [done| |done|done]. eapply gap_quick; [done|lia|done].
    + by eapply place_free.
Qed.

(** * [newLoadBlock] *)

Section NewLoadFacts.
Context `{OsLaws}.

(** What a successful [newLoadBlock] did. *)
Lemma newLoadBlock_inv c va old flags c' b :
  newLoadBlock c va old flags = Ok (c', b) -> b <> 0 ->
  exists i q h o,
    let begin := RoundUp 64 (Z.land va (vabits_mask c)) ELF_PAGE_SIZE in
    let size := RoundUp 64 old ELF_PAGE_SIZE in
    let block := setOverlayMap (Some o) (fake_block c flags b size) in
    size <> 0 /\ place c begin size = Ok (Some (b, i, q)) /\
    newOverlay (host_mem c) (fake_block c flags b size) = Ok (h, block, true) /\
    c' = with_loads (with_host (with_next (set_lb c (mNext c) block) (S (mNext c))) h)
           (insert_at (Z.to_nat i) (mNext c) (mLoad c))
           (if negb (QUICK_LOAD_ENABLED c) || nz (u32 flags)
            then insert_at (Z.to_nat q) (mNext c) (mQuickLoad c) else mQuickLoad c).
Proof.
  unfold newLoadBlock. intros Hn Hb. cbn zeta.
  destruct (nz (RoundUp 64 old ELF_PAGE_SIZE)) eqn:Enz; cbn in Hn; [|by simplify_eq].
  res_inv. destruct v as [[[b0 i] q]|]; [|by simplify_eq].
  res_inv. destruct v as [[h bk] ok]. destruct ok; [|by simplify_eq].
  simplify_eq. rename E0 into Eo.
  assert (exists o, bk =
    setOverlayMap (Some o) (fake_block c flags b (RoundUp 64 old ELF_PAGE_SIZE)))
    as [o ->].
  { unfold newOverlay in Eo. cbn in Eo.
    destruct (MmapZeroMem _ _) as [h1 [m|]]; cbn in Eo; simplify_eq. by eexists. }
  exists i, q, h, o. split_and!; [|done|done|done].
  intros E0. by rewrite E0 in Enz.
Qed.

(** The segment lists after a successful [newLoadBlock] into a gap. *)
Lemma newLoadBlock_lists c c' b sz i q (block : LoadBlock) h flags :
  wf c -> gap c (mLoad c) i b sz -> gap c (mQuickLoad c) q b sz ->
  mVaddr block = b -> mMemSize block = sz -> range_ok block ->
  Z.of_nat (length (mLoad c)) + 1 < 2 ^ 31 -> Z.of_nat (length (mQuickLoad c)) + 1 < 2 ^ 31 ->
  c' = with_loads (with_host (with_next (set_lb c (mNext c) block) (S (mNext c))) h)
         (insert_at (Z.to_nat i) (mNext c) (mLoad c))
         (if negb (QUICK_LOAD_ENABLED c) || nz (u32 flags)
          then insert_at (Z.to_nat q) (mNext c) (mQuickLoad c) else mQuickLoad c) ->
  wf c' /\ agree c c' (mLoad c) /\ lb c' (mNext c) = block.
Proof.
  intros [Hl Hq Hsub Hid] Hgl Hgq Hb Hs Hr Hn Hnq ->. set (c' := with_loads _ _ _).
  assert (Hlb : forall id, lb c' id = if decide (mNext c = id) then block else lb c id)
    by (intros; apply lb_set).
  assert (Ha : agree c c' (mLoad c)).
  { intros id H1. rewrite Hlb, decide_False; [done|]. apply Hid in H1. lia. }
  assert (Hnew : lb c' (mNext c) = block) by (by rewrite Hlb, decide_True).
  assert (Haq : agree c c' (mQuickLoad c)) by (intros id H1; auto).
  split_and!; [|done|done]. split; cbn -[lb].
  - apply (sorted_insert c c' _ _ _ b sz); rewrite ?Hnew; done.
  - destruct (_ || _); [|by apply (sorted_agree c)].
    apply (sorted_insert c c' _ _ _ b sz); rewrite ?Hnew; done.
  - intros id. destruct (_ || _).
    + rewrite !insert_at_elem. naive_solver.
    + rewrite insert_at_elem. auto.
  - intros id [->|H1]%insert_at_elem; [lia|]. apply Hid in H1. lia.
Qed.
End NewLoadFacts.

(** * Properties *)

(** C1: on the sorted segment list, the binary search of [findLoadBlock] terminates, never
    reads outside the list and returns exactly what a linear search would: the segment
    that contains the masked address, or null when there is none; and that segment is the
    only one of the list that contains it. *)
Theorem findLoadBlock_correct c va quick :
  sorted c (getLoads c quick) ->
  findLoadBlock c va quick
    = Ok (linear_find c (Z.land va (vabits_mask c)) (getLoads c quick)) /\
  forall i j x y, getLoads c quick !! i = Some x -> getLoads c quick !! j = Some y ->
    covers c (Z.land va (vabits_mask c)) x = true ->
    covers c (Z.land va (vabits_mask c)) y = true -> i = j.
Proof.
  intros Hs. split; [by apply findLoadBlock_linear|].
  intros i j x y. apply covers_unique, Hs.
Qed.

(** A core with three segments, as a loader leaves it; used by the witnesses. *)
Definition demo_block (va msz : Z) : LoadBlock :=
  setPointMask (2 ^ 64 - 1) (setVabitsMask (2 ^ 39 - 1)
    (NewLoadBlock_obj 6 0 va 0 0 msz 0x1000)).
Definition demo_core : CoreApi :=
  let c := with_masks (NewCore (Build_MemoryMap [] 0 0 0 0) true []) (2 ^ 64 - 1) (2 ^ 39 - 1) in
  foldl (fun c '(va, msz) => addLoadBlock c (demo_block va msz)) c
    [(0x200000, 0x1000); (0x400000, 0x3000); (0x800000, 0x1000)].

Lemma demo_core_wf : wf demo_core.
Proof.
  assert (Hr : forall va msz, 0 <= va -> 0 <= msz -> va + msz < 2 ^ 64 ->
    range_ok (demo_block va msz)) by (unfold range_ok; cbn; lia).
  unfold demo_core. cbn [foldl].
  do 3 (apply addLoadBlock_wf; [|apply Hr; lia|cbn; lia|cbn; lia|
    intros id Hid; cbn in Hid; rewrite ?elem_of_cons, elem_of_nil in Hid;
    destruct_or? Hid; subst; cbn; lia || done]).
  split; cbn; try (intros ? ?%not_elem_of_nil; done);
    (split; [constructor|intros ? ? ? ? _ Hn; by rewrite lookup_nil in Hn|cbn; lia]).
Qed.

Lemma findLoadBlock_correct_witness :
  findLoadBlock demo_core (0xb400000000402010) true = Ok (Some 1%nat) /\
  findLoadBlock demo_core 0x403000 true = Ok None.
Proof.
  split.
  - rewrite (proj1 (findLoadBlock_correct demo_core (0xb400000000402010) true
      (wf_quick _ demo_core_wf))). vm_compute. reflexivity.
  - rewrite (proj1 (findLoadBlock_correct demo_core 0x403000 true
      (wf_quick _ demo_core_wf))). vm_compute. reflexivity.
Defined.

(** C19: a successful [newLoadBlock], for a request that is not directly below or above the
    last segment, returns the start of a fresh fake segment of the rounded size that
    overlaps no existing segment; both segment lists stay sorted, every other segment is
    untouched, and the binary search finds the new one. *)
Theorem newLoadBlock_sound `{OsLaws} c va old flags c' b :
  let start := RoundUp 64 (Z.land va (vabits_mask c)) ELF_PAGE_SIZE in
  let sz := RoundUp 64 old ELF_PAGE_SIZE in
  wf c -> 0 <= old < 2 ^ 62 -> start + sz < 2 ^ 64 ->
  Z.land start (vabits_mask c) = start -> checked_request c start ->
  Z.of_nat (length (mLoad c)) + 1 < 2 ^ 31 -> Z.of_nat (length (mQuickLoad c)) + 1 < 2 ^ 31 ->
  newLoadBlock c va old flags = Ok (c', b) -> b <> 0 ->
  wf c' /\
  (forall id, id ∈ mLoad c -> lb c' id = lb c id /\
     (mVaddr (lb c id) + mMemSize (lb c id) <= b \/ b + sz <= mVaddr (lb c id))) /\
  (exists o, lb c' (mNext c) = setOverlayMap (Some o) (fake_block c flags b sz)) /\
  (Z.land b (vabits_mask c) = b -> findLoadBlock c' b false = Ok (Some (mNext c))).
Proof.
  intros start sz Hwf Hold Hov Hmask Hreq Hn Hnq Hnew Hb.
  apply newLoadBlock_inv in Hnew as (i & q & h & o & Hsz & Hp & _ & Hc'); [|done].
  fold start sz in Hsz, Hp, Hc'.
  assert (Hszr : 0 < sz < 2 ^ 63).
  { pose proof (RoundUp_range 64 old 12) as Hr. change (2 ^ 12) with ELF_PAGE_SIZE in Hr.
    fold sz in Hr. unfold ELF_PAGE_SIZE in Hr. lia. }
  assert (Hstart : 0 <= start) by (apply (RoundUp_bounds 64 _ 12); lia).
  pose proof (place_spec _ _ _ _ _ _ Hwf Hstart Hszr Hov Hmask Hreq Hp)
    as (Hgl & Hgq & Hb0 & Hbo).
  assert (Hm : vabits_mask c' = vabits_mask c /\ mNext c ∈ mLoad c').
  { rewrite Hc'. split; [done|]. cbn. apply insert_at_elem. by left. }
  assert (Hrg : range_ok (setOverlayMap (Some o) (fake_block c flags b sz)))
    by (unfold range_ok; cbn; lia).
  pose proof (newLoadBlock_lists c c' b sz i q
    (setOverlayMap (Some o) (fake_block c flags b sz)) h flags Hwf Hgl Hgq eq_refl eq_refl Hrg
    Hn Hnq Hc') as (Hwf' & Ha & Hlb).
  split_and!; [done| | |].
  - intros id Hid. split; [by apply Ha|]. exact (gap_elem _ _ _ _ _ _ Hgl Hid).
  - rewrite Hlb. by eexists.
  - intros Hbm. destruct Hm as [Hm Hin].
    rewrite findLoadBlock_linear, Hm, Hbm by apply Hwf'. f_equal.
    apply linear_find_elem; [apply Hwf'|done|].
    apply covers_spec. rewrite Hlb. cbn. lia.
Qed.

Lemma newLoadBlock_sound_witness :
  let r := @newLoadBlock bump_os demo_core 0x300000 0x800 6 in
  exists c', r = Ok (c', 0x300000) /\ wf c' /\
    findLoadBlock c' 0x300000 false = Ok (Some 3%nat).
Proof.
  cbn zeta. destruct (@newLoadBlock bump_os demo_core 0x300000 0x800 6) as [[c' b]| | |] eqn:E;
    try (vm_compute in E; discriminate E).
  assert (b = 0x300000) as -> by (vm_compute in E; congruence).
  destruct (@newLoadBlock_sound bump_os bump_os_laws demo_core 0x300000 0x800 6 c' 0x300000)
    as (H1 & _ & _ & H4).
  - apply demo_core_wf.
  - lia.
  - vm_compute. reflexivity.
  - vm_compute. reflexivity.
  - right; right. exists [0%nat], 1%nat, [2%nat]. split_and!; [reflexivity|done|].
    vm_compute. reflexivity.
  - vm_compute. reflexivity.
  - vm_compute. reflexivity.
  - exact E.
  - done.
  - exists c'. split_and!; [reflexivity|exact H1|]. apply H4. vm_compute. reflexivity.
Defined.



(** A request just below the last segment is placed although it overlaps that segment. *)
Example newLoadBlock_overlaps_last :
  exists c', @newLoadBlock bump_os demo_core 0x7ff000 0x2000 6 = Ok (c', 0x7ff000) /\
    covers c' 0x800000 2 = true /\ covers c' 0x800000 3 = true.
Proof.
  eexists. split; [vm_compute; reflexivity|]. split; vm_compute; reflexivity.
Qed.
