(* ===== verification/AddressSpace.v ===== *)
(** The address space a [CoreApi] presents: an abstract byte map of the target process and
    the proofs that [Read], [Write], [v2r] and [r2v] (core/api/core.cpp) implement it on
    top of core bytes, mmapped files and copy-on-write overlays. *)

From Stdlib Require Import ZArith Lia Bool.
From stdpp Require Import base list gmap numbers.
From S2P Require Import Prelude Words Host Blocks Notes CoreApi Segments.
Open Scope Z_scope.

(** * The abstract memory *)

(** The bytes of a segment: what its view holds, then zeros up to its size in memory. *)
Definition seg_bytes (h : host) (b : LoadBlock) : option (list Z) :=
  if isValid b then
    match host_load h (begin b OPT_READ_ALL) (size b OPT_READ_ALL) with
    | Ok bs => Some (bs ++ replicate (Z.to_nat (mMemSize b - size b OPT_READ_ALL)) 0)
    | _ => None
    end
  else None.

(** The byte of the target process at a masked address. *)
Definition target_byte (c : CoreApi) (a : Z) : option Z :=
  let? id := linear_find c a (mQuickLoad c) in
  let? bs := seg_bytes (host_mem c) (lb c id) in
  bs !! Z.to_nat (a - mVaddr (lb c id)).

(** * The invariant *)

(** Segment [b] shows [bs]: the view is readable, a view without an overlay is its backing
    bytes followed by zeros, an overlay is owned memory. *)
Record view (h : host) (b : LoadBlock) (bs : list Z) : Prop := {
  view_begin : 0 < begin b OPT_READ_ALL;
  view_end : begin b OPT_READ_ALL + size b OPT_READ_ALL < 2 ^ 64;
  view_size : 0 < size b OPT_READ_ALL <= mMemSize b;
  view_load : host_load h (begin b OPT_READ_ALL) (size b OPT_READ_ALL) = Ok bs;
  view_back : mOverlay b = None ->
    0 < backing b <= size b OPT_READ_ALL /\
    drop (Z.to_nat (backing b)) bs
      = replicate (Z.to_nat (size b OPT_READ_ALL - backing b)) 0;
  view_overlay : forall o, mOverlay b = Some o ->
    mSize o = mMemSize b /\ owns h (mBegin o) (mMemSize b) bs;
}.

Definition views_apart (b1 b2 : LoadBlock) : Prop :=
  begin b1 OPT_READ_ALL + size b1 OPT_READ_ALL <= begin b2 OPT_READ_ALL \/
  begin b2 OPT_READ_ALL + size b2 OPT_READ_ALL <= begin b1 OPT_READ_ALL.

Record space_ok (c : CoreApi) : Prop := {
  sp_sorted : sorted c (mQuickLoad c);
  sp_host : host_wf (host_mem c);
  sp_mask : forall id, id ∈ mQuickLoad c -> mVabitsMask (lb c id) = vabits_mask c;
  sp_view : forall id, id ∈ mQuickLoad c -> isValid (lb c id) = true ->
    exists bs, view (host_mem c) (lb c id) bs;
  sp_apart : forall i j, i ∈ mQuickLoad c -> j ∈ mQuickLoad c -> i <> j ->
    isValid (lb c i) = true -> isValid (lb c j) = true -> views_apart (lb c i) (lb c j);
}.

(** ** Overlaid segments *)

Section Overlay.
Implicit Types b : LoadBlock.

Lemma begin_overlay b o : mOverlay b = Some o -> begin b OPT_READ_ALL = mBegin o.
Proof. intros Ho. unfold begin, overlay_for. rewrite Ho. done. Qed.

Lemma size_overlay b o : mOverlay b = Some o -> size b OPT_READ_ALL = mSize o.
Proof. intros Ho. unfold size, overlay_for. rewrite Ho. done. Qed.

Lemma isValid_overlay b o : mOverlay b = Some o -> isValid b = true.
Proof. intros Ho. unfold isValid, isOverlayBlock. rewrite Ho. by rewrite !orb_true_r. Qed.

(** The view of a freshly overlaid segment. *)
Lemma view_of_owned h b o bs :
  mOverlay b = Some o -> mSize o = mMemSize b -> 0 < mBegin o ->
  mBegin o + mMemSize b < 2 ^ 64 -> 0 < mMemSize b -> owns h (mBegin o) (mMemSize b) bs ->
  view h b bs.
Proof.
  intros Ho Hs Hp He Hm How.
  split; rewrite ?(begin_overlay b o Ho), ?(size_overlay b o Ho), ?Hs; try lia.
  - by apply (owns_load_all _ _ _ _ How).
  - by rewrite Ho.
  - intros o' Ho'. rewrite Ho in Ho'. by injection Ho' as <-.
Qed.

Lemma seg_bytes_view h b bs :
  isValid b = true -> view h b bs ->
  seg_bytes h b = Some (bs ++ replicate (Z.to_nat (mMemSize b - size b OPT_READ_ALL)) 0).
Proof. intros Hv Hw. unfold seg_bytes. by rewrite Hv, (view_load _ _ _ Hw). Qed.

Lemma seg_bytes_owned h b o bs :
  mOverlay b = Some o -> mSize o = mMemSize b -> 0 < mMemSize b ->
  owns h (mBegin o) (mMemSize b) bs -> seg_bytes h b = Some bs.
Proof.
  intros Ho Hs Hm How. unfold seg_bytes.
  rewrite (isValid_overlay b o Ho), (begin_overlay b o Ho), (size_overlay b o Ho), Hs.
  rewrite (owns_load_all _ _ _ _ How Hm), Z.sub_diag. cbn. by rewrite app_nil_r.
Qed.

(** The bytes of a segment without an overlay are its backing bytes, zero-extended. *)
Lemma view_backing h b bs :
  host_wf h -> view h b bs -> mOverlay b = None ->
  host_load h (begin b OPT_READ_ALL) (backing b) = Ok (take (Z.to_nat (backing b)) bs) /\
  bs ++ replicate (Z.to_nat (mMemSize b - size b OPT_READ_ALL)) 0
    = take (Z.to_nat (backing b)) bs
      ++ replicate (Z.to_nat (mMemSize b - backing b)) 0.
Proof.
  intros Hh Hv Ho. destruct (view_back _ _ _ Hv Ho) as [Hb Hd].
  pose proof (view_size _ _ _ Hv). split.
  - pose proof (host_load_sub _ _ _ _ 0 (backing b) Hh (view_load _ _ _ Hv)) as Hl.
    rewrite Z.add_0_r in Hl. cbn in Hl. rewrite drop_0 in Hl. apply Hl; lia.
  - rewrite <- (take_drop (Z.to_nat (backing b)) bs) at 1. rewrite Hd, <- app_assoc.
    f_equal. rewrite <- replicate_add. f_equal. lia.
Qed.
End Overlay.

(** * Steps that keep the invariant *)

(** What a change of segment [id] leaves alone. *)
Record other_same (c c' : CoreApi) (id : nat) : Prop := {
  os_quick : mQuickLoad c' = mQuickLoad c;
  os_vabits : vabits_mask c' = vabits_mask c;
  os_lb : forall j, j <> id -> lb c' j = lb c j;
  os_vaddr : mVaddr (lb c' id) = mVaddr (lb c id);
  os_memsz : mMemSize (lb c' id) = mMemSize (lb c id);
  os_mask : mVabitsMask (lb c' id) = mVabitsMask (lb c id);
}.

Section Steps.
Implicit Types c : CoreApi.

Lemma other_same_shape c c' id j :
  other_same c c' id ->
  mVaddr (lb c' j) = mVaddr (lb c j) /\ mMemSize (lb c' j) = mMemSize (lb c j) /\
  mVabitsMask (lb c' j) = mVabitsMask (lb c j).
Proof.
  intros [_ _ H3 H4 H5 H6]. destruct (decide (j = id)) as [->|Hne]; [done|].
  by rewrite H3.
Qed.

Lemma other_same_sorted c c' id :
  other_same c c' id -> sorted c (mQuickLoad c) -> sorted c' (mQuickLoad c').
Proof.
  intros Hs [H1 H2 H3]. rewrite (os_quick _ _ _ Hs). split; [| |done].
  - rewrite Forall_elem in *. intros j Hj. specialize (H1 j Hj). unfold range_ok in *.
    destruct (other_same_shape _ _ _ j Hs) as (-> & -> & _). done.
  - intros i j x y Hij Hi Hj. specialize (H2 i j x y Hij Hi Hj). unfold before in *.
    destruct (other_same_shape _ _ _ x Hs) as (-> & -> & _).
    by destruct (other_same_shape _ _ _ y Hs) as (-> & _ & _).
Qed.

Lemma other_same_find c c' id a :
  other_same c c' id ->
  linear_find c' a (mQuickLoad c') = linear_find c a (mQuickLoad c).
Proof.
  intros Hs. rewrite (os_quick _ _ _ Hs). induction (mQuickLoad c) as [|x l IH]; cbn; [done|].
  unfold covers. destruct (other_same_shape _ _ _ x Hs) as (-> & -> & _). by rewrite IH.
Qed.

(** A step that replaces the view of one segment by memory it owns, keeping the views of
    the others, keeps the invariant. *)
Lemma overlay_step c c' id o bs :
  space_ok c -> id ∈ mQuickLoad c -> other_same c c' id -> host_wf (host_mem c') ->
  mOverlay (lb c' id) = Some o -> mSize o = mMemSize (lb c id) -> 0 < mBegin o ->
  mBegin o + mMemSize (lb c id) < 2 ^ 64 -> 0 < mMemSize (lb c id) ->
  owns (host_mem c') (mBegin o) (mMemSize (lb c id)) bs ->
  (forall j v, j ∈ mQuickLoad c -> j <> id -> isValid (lb c j) = true ->
     view (host_mem c) (lb c j) v ->
     view (host_mem c') (lb c j) v /\
     (begin (lb c j) OPT_READ_ALL + size (lb c j) OPT_READ_ALL <= mBegin o \/
      mBegin o + mMemSize (lb c id) <= begin (lb c j) OPT_READ_ALL)) ->
  space_ok c' /\ seg_bytes (host_mem c') (lb c' id) = Some bs /\
  (forall j, j ∈ mQuickLoad c -> j <> id ->
     seg_bytes (host_mem c') (lb c' j) = seg_bytes (host_mem c) (lb c j)).
Proof.
  intros Hc Hid Hs Hh Ho Hz Hp He Hm How Hoth.
  pose proof (os_memsz _ _ _ Hs) as Hmz.
  assert (Hview : view (host_mem c') (lb c' id) bs).
  { apply (view_of_owned _ _ o); rewrite ?Hmz; done. }
  pose proof (begin_overlay _ _ Ho) as Hb. pose proof (size_overlay _ _ Ho) as Hsz.
  split_and!.
  - split; rewrite ?(os_quick _ _ _ Hs), ?(os_vabits _ _ _ Hs).
    + rewrite <- (os_quick _ _ _ Hs). apply (other_same_sorted c c' id Hs), Hc.
    + done.
    + intros j Hj. destruct (other_same_shape _ _ _ j Hs) as (_ & _ & ->). by apply Hc.
    + intros j Hj Hv. destruct (decide (j = id)) as [->|Hne]; [by eexists|].
      rewrite (os_lb _ _ _ Hs) in * by done.
      destruct (sp_view _ Hc j Hj Hv) as [v Hview']. exists v. by apply Hoth.
    + intros i j Hi Hj Hij Hvi Hvj. unfold views_apart.
      destruct (decide (i = id)) as [->|Hni]; destruct (decide (j = id)) as [->|Hnj];
        [done| | |]; rewrite ?(os_lb _ _ _ Hs i) in * by done;
        rewrite ?(os_lb _ _ _ Hs j) in * by done.
      * destruct (sp_view _ Hc j Hj Hvj) as [v Hw]. apply Hoth in Hw as [_ Hap]; [|done..].
        rewrite Hb, Hsz. lia.
      * destruct (sp_view _ Hc i Hi Hvi) as [v Hw]. apply Hoth in Hw as [_ Hap]; [|done..].
        rewrite Hb, Hsz. lia.
      * by apply (sp_apart _ Hc).
  - by apply (seg_bytes_owned _ _ o); rewrite ?Hmz.
  - intros j Hj Hne. rewrite (os_lb _ _ _ Hs) by done.
    destruct (isValid (lb c j)) eqn:Hv; [|unfold seg_bytes; by rewrite Hv].
    destruct (sp_view _ Hc j Hj Hv) as [v Hw]. rewrite (seg_bytes_view _ _ v) by
      (done || by apply Hoth). symmetry. by apply seg_bytes_view.
Qed.

Lemma view_app h b v r :
  host_wf (h ++ [r]) -> view h b v -> view (h ++ [r]) b v.
Proof.
  intros Hh [H1 H2 H3 H4 H5 H6]. split; [done..|by apply host_load_app|done|].
  intros o Ho. destruct (H6 o Ho) as [Hs How]. split; [done|].
  apply owns_elem in How as [Hin Hn]. rewrite Hn. apply owns_of_elem; [done|].
  apply elem_of_app. by left.
Qed.

Lemma view_store h h' b v a new :
  view h b v -> host_store h a new = Ok h' -> (0 < length new)%nat ->
  begin b OPT_READ_ALL + size b OPT_READ_ALL <= a \/
    a + Z.of_nat (length new) <= begin b OPT_READ_ALL ->
  view h' b v.
Proof.
  intros [H1 H2 H3 H4 H5 H6] Hst Hl Hap. split; [done..| |done|].
  - rewrite (host_load_store_other _ _ _ _ _ _ Hst) by done. done.
  - intros o Ho. destruct (H6 o Ho) as [Hs How]. split; [done|].
    rewrite (begin_overlay _ _ Ho), (size_overlay _ _ Ho), Hs in Hap.
    apply (owns_store_other h h' _ _ _ a new); [done|done|lia|lia|done].
Qed.
End Steps.

(** * Copy on write *)

(** The content a segment has once it is overlaid: its bytes, or zeros if it had none. *)
Definition seg_content (h : host) (b : LoadBlock) : list Z :=
  default (replicate (Z.to_nat (mMemSize b)) 0) (seg_bytes h b).

(** Segment [id] of [c'] has an overlay holding [bs]; nothing else differs from [c]. *)
Record overlaid (c c' : CoreApi) (id : nat) (bs : list Z) : Prop := {
  ov_other : other_same c c' id;
  ov_owned : overlay_owned (host_mem c') (lb c' id) bs;
  ov_space : space_ok c';
  ov_bytes : seg_bytes (host_mem c') (lb c' id) = Some bs;
  ov_others : forall j, j ∈ mQuickLoad c -> j <> id ->
    seg_bytes (host_mem c') (lb c' j) = seg_bytes (host_mem c) (lb c j);
}.

Lemma other_same_set c id (b : LoadBlock) h :
  mVaddr b = mVaddr (lb c id) -> mMemSize b = mMemSize (lb c id) ->
  mVabitsMask b = mVabitsMask (lb c id) ->
  other_same c (with_host (set_lb c id b) h) id.
Proof.
  intros H1 H2 H3.
  assert (Hl : forall j, lb (with_host (set_lb c id b) h) j = lb (set_lb c id b) j) by done.
  split; [done|done| |..]; intros; rewrite Hl, lb_set.
  - by rewrite decide_False by done.
  - by rewrite decide_True.
  - by rewrite decide_True.
  - by rewrite decide_True.
Qed.

Lemma linear_find_props c a id :
  space_ok c -> linear_find c a (mQuickLoad c) = Some id ->
  id ∈ mQuickLoad c /\ range_ok (lb c id) /\ 0 < mMemSize (lb c id) /\
  mVaddr (lb c id) <= a < mVaddr (lb c id) + mMemSize (lb c id).
Proof.
  intros Hc [Hin Hcov%covers_spec]%linear_find_Some. split; [done|].
  pose proof (sorted_range _ _ (sp_sorted _ Hc)) as Hr. rewrite Forall_elem in Hr.
  specialize (Hr id Hin). split; [done|]. lia.
Qed.

Section WriteFacts.
Context `{OsLaws}.

(** What [newOverlay] does when it allocates: one more region, a copy of the content. *)
Lemma newOverlay_shape c id h' b' :
  space_ok c -> id ∈ mQuickLoad c -> 0 < mMemSize (lb c id) ->
  mOverlay (lb c id) = None -> newOverlay (host_mem c) (lb c id) = Ok (h', b', true) ->
  exists o, b' = setOverlayMap (Some o) (lb c id) /\
    overlay_owned h' b' (seg_content (host_mem c) (lb c id)) /\
    kept (host_mem c) h' b' /\ host_wf h' /\
    (exists r, h' = host_mem c ++ [r]).
Proof.
  intros Hc Hin Hm Ho Hn. unfold seg_content.
  destruct (isValid (lb c id)) eqn:Hv.
  - destruct (sp_view _ Hc id Hin Hv) as [bs Hw].
    destruct (view_backing _ _ _ (sp_host _ Hc) Hw Ho) as [Hl Heq].
    pose proof (view_size _ _ _ Hw) as Hsz.
    destruct (view_back _ _ _ Hw Ho) as [Hbk _].
    rewrite (seg_bytes_view _ _ bs) by done. cbn [default]. rewrite Heq.
    pose proof (newOverlay_copy _ _ _ _ _ Hn Ho Hv Hl ltac:(lia)) as (H1 & [o Heqo] & H3).
    exists o. split_and!; [done..| |].
    + unfold newOverlay in Hn. rewrite Ho, Hv in Hn. res_inv.
      destruct v as [h1 [m|]]; simplify_eq. eapply MmapMem_wf; [|exact Hm|done]. apply Hc.
    + unfold newOverlay in Hn. rewrite Ho, Hv in Hn. fold (backing (lb c id)) in Hn. res_inv.
      destruct v as [h1 [m|]]; simplify_eq.
      eapply MmapMem_shape in E; [|done|lia]. eauto.
  - unfold seg_bytes. rewrite Hv. cbn [default].
    pose proof (newOverlay_zero _ _ _ _ Hn Ho Hv Hm) as (H1 & [o Heqo] & H3).
    exists o. unfold newOverlay in Hn. rewrite Ho, Hv in Hn. cbn [rbind] in Hn.
    destruct (MmapZeroMem _ _) as [h1 [m|]] eqn:E; [|done].
    simplify_eq. split_and!; [done..| |].
    + eapply MmapZeroMem_wf; [|exact Hm|done]. apply Hc.
    + unfold MmapZeroMem in E. destruct (os_mmap _ _); simplify_eq. eauto.
Qed.

Lemma newOverlay_overlaid c id h' b' :
  space_ok c -> id ∈ mQuickLoad c -> 0 < mMemSize (lb c id) ->
  mOverlay (lb c id) = None -> newOverlay (host_mem c) (lb c id) = Ok (h', b', true) ->
  overlaid c (with_host (set_lb c id b') h') id (seg_content (host_mem c) (lb c id)).
Proof.
  intros Hc Hin Hm Ho Hn.
  destruct (newOverlay_shape c id h' b') as (o & -> & How & Hk & Hh & [r ->]); [done..|].
  set (c' := with_host _ _). set (b' := setOverlayMap _ _) in *.
  assert (Hs : other_same c c' id) by (by apply other_same_set).
  assert (Hl : lb c' id = b') by (unfold c', b'; change (lb (set_lb c id b') id = b');
    by rewrite lb_set, decide_True).
  pose proof How as (o' & Ho' & Hz & Hp & He & Hown).
  assert (o' = o) as -> by (cbn in Ho'; congruence).
  destruct (overlay_step c c' id o (seg_content (host_mem c) (lb c id)))
    as (H1 & H2 & H3); rewrite ?Hl; try done.
  { intros j v Hj Hne Hv Hw. split; [by apply view_app|].
    pose proof (view_size _ _ _ Hw).
    destruct (Hk (begin (lb c j) OPT_READ_ALL) (size (lb c j) OPT_READ_ALL) v ltac:(lia) (view_load _ _ _ Hw)) as [_ Hap]. exact (Hap o Ho'). }
  split; rewrite ?Hl; try done. by rewrite <- Hl.
Qed.

(** Storing into the overlay of a segment. *)
Lemma setOverlay_overlaid c id a buf bs :
  space_ok c -> id ∈ mQuickLoad c -> 0 < mMemSize (lb c id) ->
  overlay_owned (host_mem c) (lb c id) bs -> (0 < length buf)%nat ->
  mVaddr (lb c id) <= Z.land a (vabits_mask c) ->
  Z.land a (vabits_mask c) + Z.of_nat (length buf)
    <= mVaddr (lb c id) + mMemSize (lb c id) ->
  exists h', setOverlay (host_mem c) (lb c id) a buf = Ok (h', lb c id) /\
    overlaid c (with_host (set_lb c id (lb c id)) h') id
      (splice (Z.to_nat (Z.land a (vabits_mask c) - mVaddr (lb c id))) buf bs).
Proof.
  intros Hc Hin Hm How Hk Ha He.
  rewrite <- (sp_mask _ Hc id Hin) in *.
  destruct (setOverlay_owned _ _ _ a buf How) as (h' & Hst & How'); [done..|].
  exists h'. split; [done|].
  set (c' := with_host _ _).
  assert (Hs : other_same c c' id) by (by apply other_same_set).
  assert (Hl : lb c' id = lb c id)
    by (change (lb (set_lb c id (lb c id)) id = lb c id); by rewrite lb_set, decide_True).
  pose proof How as (o & Ho & Hz & Hp & He' & Hown).
  pose proof How' as (o' & Ho' & _ & _ & _ & Hown').
  assert (o' = o) as -> by congruence.
  assert (Hstore : host_store (host_mem c)
    (mBegin o + (Z.land a (mVabitsMask (lb c id)) - mVaddr (lb c id))) buf = Ok h').
  { unfold setOverlay, newOverlay in Hst. rewrite Ho in Hst. cbn in Hst. rewrite Ho in Hst.
    cbn in Hst. rewrite wrap_small in Hst by lia. res_inv. by simplify_eq. }
  destruct (overlay_step c c' id o
    (splice (Z.to_nat (Z.land a (mVabitsMask (lb c id)) - mVaddr (lb c id))) buf bs))
    as (H1 & H2 & H3); rewrite ?Hl; try done.
  { eapply host_wf_store; [apply Hc|done]. }
  { intros j v Hj Hne Hv Hw.
    assert (Hvi : isValid (lb c id) = true) by (by eapply isValid_overlay).
    pose proof (sp_apart _ Hc j id Hj Hin Hne Hv Hvi) as Hap. unfold views_apart in Hap.
    rewrite (begin_overlay _ _ Ho), (size_overlay _ _ Ho), Hz in Hap.
    split; [|done]. eapply view_store; [exact Hw|exact Hstore|done|lia]. }
  split; rewrite ?Hl; try done. by rewrite <- H2, Hl.
Qed.

(** Two changes of the same segment in a row. *)
Lemma overlaid_trans c c1 c2 c3 id bs bs' :
  overlaid c c1 id bs -> overlaid c1 c2 id bs' ->
  (forall j, lb c3 j = lb c2 j) -> host_mem c3 = host_mem c2 ->
  mQuickLoad c3 = mQuickLoad c2 -> vabits_mask c3 = vabits_mask c2 ->
  overlaid c c3 id bs'.
Proof.
  intros [[A1 A2 A3 A4 A5 A6] _ _ _ A7] [[B1 B2 B3 B4 B5 B6] B7 B8 B9 B10] Hl Hh Hq Hm.
  split.
  - split; [congruence|congruence| |..]; rewrite ?Hl; [|congruence..].
    intros j Hj. rewrite Hl, B3, A3 by done. done.
  - by rewrite Hl, Hh.
  - destruct B8 as [C1 C2 C3 C4 C5]. split; rewrite ?Hq, ?Hh, ?Hm.
    + destruct C1 as [D1 D2 D3]. split; [| |done].
      * rewrite Forall_elem in *. intros j Hj. rewrite Hl. auto.
      * intros i j x y Hij Hi Hj. unfold before. rewrite !Hl. by apply (D2 i j).
    + done.
    + intros j Hj. rewrite Hl. auto.
    + intros j Hj. rewrite Hl. auto.
    + intros i j Hi Hj. rewrite !Hl. auto.
  - by rewrite Hl, Hh.
  - intros j Hj Hne. rewrite Hl, Hh, B10, A7 by (rewrite ?A1; done). done.
Qed.

Lemma newOverlay_total c id :
  space_ok c -> id ∈ mQuickLoad c -> 0 < mMemSize (lb c id) ->
  mOverlay (lb c id) = None -> os_mmap (host_mem c) (mMemSize (lb c id)) <> None ->
  exists h1 b1, newOverlay (host_mem c) (lb c id) = Ok (h1, b1, true).
Proof.
  intros Hc Hin Hm Ho Hav. destruct (os_mmap _ _) as [a|] eqn:E; [|done].
  unfold newOverlay. rewrite Ho. destruct (isValid (lb c id)) eqn:Hv.
  - destruct (sp_view _ Hc id Hin Hv) as [bs Hw].
    destruct (view_backing _ _ _ (sp_host _ Hc) Hw Ho) as [Hl _].
    destruct (view_back _ _ _ Hw Ho) as [Hb _]. pose proof (view_size _ _ _ Hw).
    destruct (MmapMem_total _ _ _ _ _ _ E Hl) as (h' & m & Heq); [lia|].
    fold (backing (lb c id)). rewrite Heq. cbn. eauto.
  - unfold MmapZeroMem. rewrite E. cbn. eauto.
Qed.

(** Both stages of [LoadBlock::setOverlay]. *)
Lemma setOverlay_any c id a buf :
  space_ok c -> id ∈ mQuickLoad c -> 0 < mMemSize (lb c id) -> (0 < length buf)%nat ->
  mVaddr (lb c id) <= Z.land a (vabits_mask c) ->
  Z.land a (vabits_mask c) + Z.of_nat (length buf)
    <= mVaddr (lb c id) + mMemSize (lb c id) ->
  mOverlay (lb c id) <> None \/ os_mmap (host_mem c) (mMemSize (lb c id)) <> None ->
  exists h' b', setOverlay (host_mem c) (lb c id) a buf = Ok (h', b') /\
    overlaid c (with_host (set_lb c id b') h') id
      (splice (Z.to_nat (Z.land a (vabits_mask c) - mVaddr (lb c id))) buf
         (seg_content (host_mem c) (lb c id))).
Proof.
  intros Hc Hin Hm Hk Ha He Hav.
  destruct (mOverlay (lb c id)) as [o|] eqn:Ho.
  - (* already overlaid *)
    assert (Hv : isValid (lb c id) = true) by (by eapply isValid_overlay).
    destruct (sp_view _ Hc id Hin Hv) as [bs Hw].
    destruct (view_overlay _ _ _ Hw o Ho) as [Hz Hown].
    pose proof (view_begin _ _ _ Hw) as Hb. pose proof (view_end _ _ _ Hw) as Hend.
    rewrite (begin_overlay _ _ Ho) in Hb, Hend. rewrite (size_overlay _ _ Ho), Hz in Hend.
    destruct (setOverlay_overlaid c id a buf bs) as (h' & H1 & H2); try done; [by exists o|].
    exists h', (lb c id). split; [done|]. unfold seg_content.
    by rewrite (seg_bytes_owned _ _ o bs).
  - (* copy on write *)
    destruct Hav as [|Hav]; [done|].
    assert (exists h1 b1, newOverlay (host_mem c) (lb c id) = Ok (h1, b1, true))
      as (h1 & b1 & Hn).
    { by apply newOverlay_total. }
    pose proof (newOverlay_overlaid c id h1 b1 Hc Hin Hm Ho Hn) as Hov.
    destruct Hov as [Hs How Hc1 Hb1 Ho1]. set (c1 := with_host _ _) in *.
    assert (Hl1 : lb c1 id = b1)
      by (change (lb (set_lb c id b1) id = b1); by rewrite lb_set, decide_True).
    destruct Hs as [Q1 Q2 Q3 Q4 Q5 Q6].
    destruct (setOverlay_overlaid c1 id a buf (seg_content (host_mem c) (lb c id)))
      as (h' & H1 & H2); rewrite ?Q1, ?Q2, ?Q4, ?Q5; try done.
    rewrite Hl1 in H1. rewrite Q2, Q4, Hl1 in H2.
    exists h', b1. split.
    { unfold setOverlay in *. rewrite Hn. cbn [rbind].
      destruct How as (o & Hob & _). rewrite Hl1 in Hob.
      unfold newOverlay in H1. rewrite Hob in H1. cbn [rbind] in H1. by rewrite Hob in *. }
    destruct H2 as [Hs' P2 P3 P4 P5]. set (c2 := with_host (set_lb c1 id b1) h') in *.
    set (c3 := with_host (set_lb c id b1) h').
    assert (Hl3 : forall j, lb c3 j = lb c2 j).
    { intros j. change (lb (set_lb c id b1) j = lb (set_lb (set_lb c id b1) id b1) j).
      rewrite !lb_set. by case_decide. }
    by eapply (overlaid_trans c c1 c2 c3).
Qed.
End WriteFacts.

(** * Reads *)

Lemma findLoadBlock_space c va :
  space_ok c ->
  findLoadBlock c va true = Ok (linear_find c (Z.land va (vabits_mask c)) (mQuickLoad c)).
Proof. intros Hc. by apply (findLoadBlock_linear c va true), Hc. Qed.

(** [v2r] of an address of a readable segment. *)
Lemma v2r_view c va id bs :
  space_ok c -> linear_find c (Z.land va (vabits_mask c)) (mQuickLoad c) = Some id ->
  isValid (lb c id) = true -> view (host_mem c) (lb c id) bs ->
  v2r c va OPT_READ_ALL =
    Ok (u64 (begin (lb c id) OPT_READ_ALL
             + (Z.land va (vabits_mask c) - mVaddr (lb c id)))).
Proof.
  intros Hc Hf Hv Hw. unfold v2r. rewrite findLoadBlock_space, Hf by done. cbn [rbind].
  rewrite Hv. pose proof (view_begin _ _ _ Hw).
  unfold nz. destruct (Z.eqb_spec (begin (lb c id) OPT_READ_ALL) 0); [lia|]. cbn [negb].
  destruct (linear_find_props _ _ _ Hc Hf) as (Hin & _). by rewrite (sp_mask _ Hc).
Qed.

Lemma target_byte_at c a id bs k :
  linear_find c a (mQuickLoad c) = Some id -> isValid (lb c id) = true ->
  view (host_mem c) (lb c id) bs -> k = Z.to_nat (a - mVaddr (lb c id)) ->
  (k < length bs)%nat -> target_byte c a = bs !! k.
Proof.
  intros Hf Hv Hw -> Hk. unfold target_byte. rewrite Hf.
  rewrite (seg_bytes_view _ _ bs) by done. by rewrite lookup_app_l.
Qed.

(** Consecutive addresses of one segment are found in that segment. *)
Lemma linear_find_shift c a id k :
  space_ok c -> linear_find c a (mQuickLoad c) = Some id -> 0 <= k ->
  a + k < mVaddr (lb c id) + mMemSize (lb c id) ->
  linear_find c (a + k) (mQuickLoad c) = Some id.
Proof.
  intros Hc Hf Hk Hlt. destruct (linear_find_props _ _ _ Hc Hf) as (Hin & _ & _ & Ha).
  apply linear_find_elem; [apply Hc|done|]. apply covers_spec. lia.
Qed.

Lemma seg_content_length c id :
  space_ok c -> id ∈ mQuickLoad c -> 0 <= mMemSize (lb c id) ->
  Z.of_nat (length (seg_content (host_mem c) (lb c id))) = mMemSize (lb c id).
Proof.
  intros Hc Hin Hm. unfold seg_content. destruct (isValid (lb c id)) eqn:Hv.
  - destruct (sp_view _ Hc id Hin Hv) as [bs Hw]. rewrite (seg_bytes_view _ _ bs) by done.
    pose proof (host_load_length _ _ _ _ (view_load _ _ _ Hw)).
    pose proof (view_size _ _ _ Hw). cbn. rewrite length_app, length_replicate. lia.
  - unfold seg_bytes. rewrite Hv. cbn. rewrite length_replicate. lia.
Qed.

(** ** Process addresses *)

Lemma realContains_view h (b : LoadBlock) bs r :
  isValid b = true -> view h b bs ->
  realContains b r
    = (begin b OPT_READ_ALL <=? r) && (r <? begin b OPT_READ_ALL + size b OPT_READ_ALL).
Proof.
  intros Hv Hw. pose proof (view_begin _ _ _ Hw). pose proof (view_end _ _ _ Hw).
  pose proof (view_size _ _ _ Hw).
  assert (Hwr : u64 (begin b OPT_READ_ALL + size b OPT_READ_ALL)
    = begin b OPT_READ_ALL + size b OPT_READ_ALL) by (apply wrap_small; lia).
  unfold realContains. cbn zeta.
  assert (Hb : begin b OPT_READ_ALL = match mOverlay b, mMmap b with
    | Some o, _ => mBegin o | None, Some m => mBegin m
    | None, None => if nz (mOriAddr b) then mOriAddr b else 0 end).
  { unfold begin, overlay_for, mmap_for. cbn. destruct (mOverlay b), (mMmap b); try done.
    by rewrite andb_true_r. }
  destruct (mOverlay b), (mMmap b); try (by rewrite <- Hb, Hwr).
  destruct (nz (mOriAddr b)); [by rewrite <- Hb, Hwr|lia].
Qed.

Lemma realContains_invalid (b : LoadBlock) r :
  isValid b = false -> mOriAddr b = 0 -> realContains b r = false.
Proof.
  unfold isValid, isMmapBlock, isOverlayBlock, realContains. intros Hv Ho.
  destruct (mOverlay b), (mMmap b); rewrite ?orb_true_r in Hv; try done. by rewrite Ho.
Qed.

Lemma r2v_loop_unique c l r id :
  id ∈ l -> realContains (lb c id) r = true ->
  (forall j, j ∈ l -> j <> id -> realContains (lb c j) r = false) ->
  r2v_loop c l r = Ok (u64 (mVaddr (lb c id) + (r - begin (lb c id) OPT_READ_ALL))).
Proof.
  intros Hin Hr Hoth. induction l as [|x l IH]; [by apply not_elem_of_nil in Hin|]. cbn.
  destruct (decide (x = id)) as [->|Hne]; [by rewrite Hr|].
  rewrite Hoth by (done || apply list_elem_of_here).
  apply IH; [apply elem_of_cons in Hin as [?|?]; congruence|].
  intros j Hj. apply Hoth. by apply list_elem_of_further.
Qed.

Lemma host_load_end (h : host) a n bs e :
  Forall (fun r => rg_end r <= e) h -> host_load h a n = Ok bs -> a + n <= e.
Proof.
  unfold host_load. intros Hh Hl. destruct (host_find h a n) as [[i r]|] eqn:E; [|done].
  apply host_find_Some in E as (Hi & Hr & _). apply rg_has_spec in Hr.
  apply (Forall_lookup_1 _ _ _ _ Hh) in Hi. lia.
Qed.

(** * Properties *)

(** C3: [Read] of a range of an untagged address space returns the bytes of the target
    memory, in order; a range that runs past the content of its segment is cut there. *)
Theorem Read_correct c va sz id :
  space_ok c -> Z.land va (vabits_mask c) = va -> 0 <= sz -> va + sz < 2 ^ 64 ->
  linear_find c va (mQuickLoad c) = Some id -> isValid (lb c id) = true ->
  va - mVaddr (lb c id) <= size (lb c id) OPT_READ_ALL ->
  exists bs, Read c va sz OPT_READ_ALL = Ok (Some bs) /\
    Z.of_nat (length bs)
      = Z.min sz (size (lb c id) OPT_READ_ALL - (va - mVaddr (lb c id))) /\
    forall i, (i < length bs)%nat -> target_byte c (va + Z.of_nat i) = bs !! i.
Proof.
  intros Hc Hmask Hsz Hov Hf Hv Hin.
  destruct (linear_find_props _ _ _ Hc Hf) as (Hid & Hr & Hm & Ha).
  destruct (sp_view _ Hc id Hid Hv) as [bs Hw].
  pose proof (view_begin _ _ _ Hw). pose proof (view_end _ _ _ Hw).
  pose proof (view_size _ _ _ Hw). unfold range_ok in Hr.
  pose proof (host_load_length _ _ _ _ (view_load _ _ _ Hw)) as Hlen.
  set (k := va - mVaddr (lb c id)) in *. set (n := size (lb c id) OPT_READ_ALL) in *.
  exists (take (Z.to_nat (Z.min sz (n - k))) (drop (Z.to_nat k) bs)).
  assert (Hload : forall m, 0 <= m -> k + m <= n ->
    host_load (host_mem c) (u64 (begin (lb c id) OPT_READ_ALL + k)) m
      = Ok (take (Z.to_nat m) (drop (Z.to_nat k) bs))).
  { intros m Hm1 Hm2. rewrite wrap_small by lia.
    apply (host_load_sub _ _ n); [apply Hc|apply Hw|lia..]. }
  split_and!.
  - unfold Read, FindLoadBlock. rewrite findLoadBlock_space, Hmask, Hf by done.
    cbn [rbind]. rewrite Hv. rewrite (v2r_view _ _ id bs), Hmask by (by rewrite ?Hmask).
    cbn [rbind]. fold k. rewrite wrap_small by lia.
    unfold nz. destruct (Z.eqb_spec (begin (lb c id) OPT_READ_ALL + k) 0); [lia|].
    cbn [negb]. fold n. rewrite !(wrap_small 64) by lia.
    rewrite wrap_small in Hload by lia.
    destruct (Z.ltb_spec (mVaddr (lb c id) + n) (va + sz)).
    + rewrite Hload by lia. cbn. do 4 f_equal. lia.
    + rewrite Hload by lia. cbn. do 4 f_equal. lia.
  - rewrite length_take, length_drop. lia.
  - intros i Hi. rewrite length_take, length_drop in Hi.
    rewrite lookup_take_lt, lookup_drop by lia.
    apply (target_byte_at c _ id); try done; [|lia|lia].
    apply linear_find_shift; [done..|lia|lia].
Qed.

(** A write turns its segment into an overlay with the new bytes. *)
Lemma Write_overlaid `{OsLaws} c va buf id :
  let a := Z.land va (vabits_mask c) in
  space_ok c -> linear_find c a (mQuickLoad c) = Some id -> (0 < length buf)%nat ->
  a + Z.of_nat (length buf) <= mVaddr (lb c id) + mMemSize (lb c id) ->
  mOverlay (lb c id) <> None \/ os_mmap (host_mem c) (mMemSize (lb c id)) <> None ->
  exists c', Write c va buf = Ok c' /\
    overlaid c c' id (splice (Z.to_nat (a - mVaddr (lb c id))) buf (seg_content (host_mem c) (lb c id))).
Proof.
  intros a Hc Hf Hk He Hav.
  destruct (linear_find_props _ _ _ Hc Hf) as (Hid & Hr & Hm & Ha).
  destruct (setOverlay_any c id va buf) as (h' & b' & Hst & Hov); [done..|lia|done|done|].
  exists (with_host (set_lb c id b') h'). split; [|done].
  unfold Write, FindLoadBlock. rewrite findLoadBlock_space by done. fold a. rewrite Hf.
  cbn [rbind]. by rewrite Hst.
Qed.

(** C2: [Write] is an update of the target memory. For a range inside one segment it
    returns (the overlay being there, or the system able to map one), the written bytes
    are read back, every other byte that was readable is unchanged, in this segment (whose
    content is copied to the overlay) and in all others, and the invariant is kept. A
    segment that had no content becomes zero around the written bytes. *)
Theorem Write_refines `{OsLaws} c va buf id :
  let a := Z.land va (vabits_mask c) in
  space_ok c -> linear_find c a (mQuickLoad c) = Some id -> (0 < length buf)%nat ->
  a + Z.of_nat (length buf) <= mVaddr (lb c id) + mMemSize (lb c id) ->
  mOverlay (lb c id) <> None \/ os_mmap (host_mem c) (mMemSize (lb c id)) <> None ->
  exists c', Write c va buf = Ok c' /\ space_ok c' /\
    forall x, target_byte c' x =
      if decide (a <= x < a + Z.of_nat (length buf)) then buf !! Z.to_nat (x - a)
      else if covers c x id && negb (isValid (lb c id)) then Some 0
      else target_byte c x.
Proof.
  intros a Hc Hf Hk He Hav.
  destruct (linear_find_props _ _ _ Hc Hf) as (Hid & Hr & Hm & Ha).
  destruct (Write_overlaid c va buf id) as (c' & Hwr & Hov); [done..|]. fold a in Hov.
  exists c'. split_and!; [done|apply Hov|].
  - intros x. destruct Hov as [Hs _ _ Hb Hoth].
    pose proof (seg_content_length c id Hc Hid ltac:(lia)) as Hlen.
    unfold target_byte. rewrite (other_same_find _ _ _ x Hs).
    destruct (linear_find c x (mQuickLoad c)) as [j|] eqn:Ej.
    + destruct (linear_find_props _ _ _ Hc Ej) as (Hj & _ & _ & Hx).
      destruct (decide (j = id)) as [->|Hne].
      * rewrite Hb, (os_vaddr _ _ _ Hs).
        rewrite splice_lookup by lia.
        assert (covers c x id = true) as -> by (by apply covers_spec).
        case_decide as Hd1; case_decide as Hd2; try lia; [f_equal; lia|].
        unfold seg_content. cbn [andb]. destruct (isValid (lb c id)) eqn:Hv; cbn [negb].
        -- destruct (sp_view _ Hc id Hid Hv) as [bs Hw].
           by rewrite (seg_bytes_view _ _ bs) by done.
        -- unfold seg_bytes. rewrite Hv. cbn.
           apply lookup_replicate_2. lia.
      * rewrite Hoth, (os_lb _ _ _ Hs) by done.
        assert (Hncov : covers c x id = false).
        { apply not_true_iff_false. intros Hcov.
          rewrite (linear_find_elem c (mQuickLoad c) x id) in Ej; [congruence| |done|done].
          apply Hc. }
        rewrite Hncov. cbn [andb]. rewrite decide_False; [done|].
        apply not_true_iff_false in Hncov. rewrite covers_spec in Hncov. lia.
    + rewrite linear_find_None in Ej. specialize (Ej id Hid). rewrite Ej. cbn [andb].
      rewrite decide_False; [done|]. apply not_true_iff_false in Ej.
      rewrite covers_spec in Ej. lia.
Qed.

(** [r2v] undoes [v2r]: the process address of a readable target byte translates back
    to the (masked) target address, given that segments without content were never given
    an address in the core file. *)
Theorem r2v_v2r c va id :
  let a := Z.land va (vabits_mask c) in
  space_ok c ->
  (forall j, j ∈ mQuickLoad c -> isValid (lb c j) = false -> mOriAddr (lb c j) = 0) ->
  linear_find c a (mQuickLoad c) = Some id -> isValid (lb c id) = true ->
  a - mVaddr (lb c id) < size (lb c id) OPT_READ_ALL ->
  exists r, v2r c va OPT_READ_ALL = Ok r /\ r2v c r = Ok a.
Proof.
  intros a Hc Hinv Hf Hv Hin.
  destruct (linear_find_props _ _ _ Hc Hf) as (Hid & Hr & Hm & Ha). unfold range_ok in Hr.
  destruct (sp_view _ Hc id Hid Hv) as [bs Hw].
  pose proof (view_begin _ _ _ Hw). pose proof (view_end _ _ _ Hw).
  eexists. split; [by apply (v2r_view c va id bs)|]. fold a.
  rewrite wrap_small by lia.
  set (r := begin (lb c id) OPT_READ_ALL + (a - mVaddr (lb c id))).
  unfold r2v. rewrite (r2v_loop_unique c (mQuickLoad c) r id); [|done| |].
  - f_equal. unfold r. rewrite wrap_small by lia. lia.
  - rewrite (realContains_view _ _ bs) by done.
    rewrite andb_true_iff, Z.leb_le, Z.ltb_lt. lia.
  - intros j Hj Hne. destruct (isValid (lb c j)) eqn:Hvj.
    + destruct (sp_view _ Hc j Hj Hvj) as [bsj Hwj].
      rewrite (realContains_view _ _ bsj) by done.
      pose proof (sp_apart _ Hc j id Hj Hid Hne Hvj Hv) as Hap. unfold views_apart in Hap.
      apply not_true_iff_false. rewrite andb_true_iff, Z.leb_le, Z.ltb_lt. lia.
    + apply realContains_invalid; auto.
Qed.

(** [Read] does not clear the tag of a pointer before it computes how much to copy: a
    tagged address that resolves to a readable segment makes the copied length wrap to
    almost 2^64 bytes, which no mapping of the process holds. *)
Theorem Read_tagged_faults c va sz id :
  let a := Z.land va (vabits_mask c) in
  space_ok c -> linear_find c a (mQuickLoad c) = Some id -> isValid (lb c id) = true ->
  Forall (fun r => rg_end r <= 2 ^ 47) (host_mem c) ->
  mVaddr (lb c id) + mMemSize (lb c id) <= 2 ^ 47 ->
  2 ^ 56 <= va <= 2 ^ 64 - 2 ^ 56 -> 0 <= sz < 2 ^ 48 ->
  Read c va sz OPT_READ_ALL = Fault.
Proof.
  intros a Hc Hf Hv Hh He Hva Hsz.
  destruct (linear_find_props _ _ _ Hc Hf) as (Hid & Hr & Hm & Ha). unfold range_ok in Hr.
  destruct (sp_view _ Hc id Hid Hv) as [bs Hw].
  pose proof (view_begin _ _ _ Hw). pose proof (view_end _ _ _ Hw).
  pose proof (view_size _ _ _ Hw) as Hvs.
  assert (Hbe : begin (lb c id) OPT_READ_ALL + size (lb c id) OPT_READ_ALL <= 2 ^ 47).
  { eapply host_load_end; [exact Hh|exact (view_load _ _ _ Hw)]. }
  unfold Read, FindLoadBlock. rewrite findLoadBlock_space by done. fold a. rewrite Hf.
  cbn [rbind]. rewrite Hv. rewrite (v2r_view _ _ id bs) by done. cbn [rbind]. fold a.
  rewrite wrap_small by lia.
  unfold nz. destruct (Z.eqb_spec (begin (lb c id) OPT_READ_ALL + (a - mVaddr (lb c id))) 0);
    [lia|]. cbn [negb]. rewrite (wrap_small 64 (va + sz)) by lia.
  rewrite (wrap_small 64 (mVaddr (lb c id) + _)) by lia.
  destruct (Z.ltb_spec (mVaddr (lb c id) + size (lb c id) OPT_READ_ALL) (va + sz)); [|lia].
  set (len := u64 _).
  assert (Hlen : len = mVaddr (lb c id) + size (lb c id) OPT_READ_ALL - va + 2 ^ 64).
  { unfold len, wrap. symmetry. apply (Z.mod_unique _ _ (-1)); lia. }
  destruct (host_load _ _ len) as [x| | |] eqn:El; try done.
  - eapply host_load_end in El; [|exact Hh]. lia.
  - unfold host_load in El. by destruct (host_find _ _ _) as [[]|].
  - unfold host_load in El. by destruct (host_find _ _ _) as [[]|].
Qed.

(** * A concrete address space

    Two segments of eight bytes whose content is a sixteen-byte core file mapped at
    0x10000, on a target with 39-bit addresses. *)
Definition demo_seg (va ori : Z) : LoadBlock :=
  setOriAddr ori (setVabitsMask (2 ^ 39 - 1) (NewLoadBlock_obj 6 0 va 0 8 8 0x1000)).
Definition demo_file : region :=
  Region 0x10000 false [1;2;3;4;5;6;7;8;9;10;11;12;13;14;15;16].
Definition demo_space : CoreApi :=
  addLoadBlock
    (addLoadBlock
       (with_masks (NewCore (Build_MemoryMap [] 0x10000 16 0 16) true [demo_file])
          (2 ^ 64 - 1) (2 ^ 39 - 1))
       (demo_seg 0x1000 0x10000))
    (demo_seg 0x2000 0x10008).

Lemma demo_space_ids id : id ∈ mQuickLoad demo_space -> id = 0%nat \/ id = 1%nat.
Proof.
  change (mQuickLoad demo_space) with [0%nat; 1%nat].
  rewrite !elem_of_cons, elem_of_nil. tauto.
Qed.

Lemma demo_space_view id :
  id ∈ mQuickLoad demo_space -> exists bs, view (host_mem demo_space) (lb demo_space id) bs.
Proof.
  intros [->| ->]%demo_space_ids; eexists; (split; [vm_compute; reflexivity|vm_compute; reflexivity|
    vm_compute; split; [reflexivity|discriminate]|vm_compute; reflexivity|
    intros _; vm_compute; repeat split; discriminate|done]).
Qed.

Lemma demo_space_ok : space_ok demo_space.
Proof.
  split.
  - split; [| |done].
    + apply Forall_elem. intros id [->| ->]%demo_space_ids; vm_compute;
        (split; [discriminate|split; [discriminate|reflexivity]]).
    + intros i j x y Hij Hi Hj. change (mQuickLoad demo_space) with [0%nat; 1%nat] in *.
      destruct j as [|[|j]]; [lia| |done].
      assert (i = 0%nat) as -> by lia. cbn in Hi, Hj. simplify_eq.
      vm_compute. discriminate.
  - apply pairwise_cons. split; [constructor|].
    intros i j x y _ Hi. done.
  - by intros id [->| ->]%demo_space_ids.
  - intros id Hid _. by apply demo_space_view.
  - intros i j [->| ->]%demo_space_ids [->| ->]%demo_space_ids Hij _ _; try done;
      unfold views_apart; vm_compute; [left|right]; discriminate.
Qed.

Lemma Read_correct_witness :
  Read demo_space 0x2002 3 OPT_READ_ALL = Ok (Some [11; 12; 13]).
Proof.
  destruct (Read_correct demo_space 0x2002 3 1) as (bs & H & _).
  - exact demo_space_ok.
  - reflexivity.
  - lia.
  - lia.
  - vm_compute. reflexivity.
  - reflexivity.
  - vm_compute. discriminate.
  - transitivity (Ok (Some bs)); [exact H|]. rewrite <- H. vm_compute. reflexivity.
Defined.

Lemma Write_refines_witness :
  exists c', @Write bump_os demo_space 0x1004 [50; 51] = Ok c' /\
    target_byte c' 0x1004 = Some 50 /\ target_byte c' 0x1003 = Some 4 /\
    target_byte c' 0x2000 = Some 9.
Proof.
  destruct (@Write_refines bump_os bump_os_laws demo_space 0x1004 [50; 51] 0)
    as (c' & H & _ & Ht).
  - exact demo_space_ok.
  - vm_compute. reflexivity.
  - cbn. lia.
  - vm_compute. discriminate.
  - right. vm_compute. discriminate.
  - exists c'. split; [exact H|]. rewrite !Ht. vm_compute. repeat split; reflexivity.
Defined.

Lemma r2v_v2r_witness :
  v2r demo_space 0x2003 OPT_READ_ALL = Ok 0x1000b /\ r2v demo_space 0x1000b = Ok 0x2003.
Proof.
  destruct (r2v_v2r demo_space 0x2003 1) as (r & H1 & H2).
  - exact demo_space_ok.
  - intros j [->| ->]%demo_space_ids; discriminate.
  - vm_compute. reflexivity.
  - reflexivity.
  - vm_compute. reflexivity.
  - assert (r = 0x1000b) as -> by (vm_compute in H1; congruence). split; [exact H1|exact H2].
Defined.

Lemma Read_tagged_faults_witness :
  Read demo_space 0xb400000000002000 4 OPT_READ_ALL = Fault.
Proof.
  apply (Read_tagged_faults demo_space 0xb400000000002000 4 1).
  - exact demo_space_ok.
  - vm_compute. reflexivity.
  - reflexivity.
  - repeat constructor. vm_compute. discriminate.
  - vm_compute. discriminate.
  - lia.
  - lia.
Defined.
