(* ===== verification/MemRef.v ===== *)
(** References into the target: core/api/memory_ref.h ([MemoryRef]), through which every
    client (the ELF reader, the link maps, the unwinders, the ART decoders) reads target
    memory. A reference caches the segment it was resolved to, so each operation returns
    the updated reference. [Presents] is the interface clients are verified against, and
    an address space in the sense of [AddressSpace] implements it. *)

From Stdlib Require Import ZArith Lia Bool.
From stdpp Require Import base list gmap numbers.
From S2P Require Import Prelude Words Host Blocks Notes CoreApi Segments AddressSpace.
Open Scope Z_scope.

(** * Operations *)

(** [MemoryRef(v)]. *)
Definition ref_at (v : Z) : MemoryRef := MkRef v None.

(** [MemoryRef::checkCopyBlock(b)], used by [copyRef] and the copying constructors. *)
Definition checkCopyBlock (c : CoreApi) (r : MemoryRef) (b : option nat) : MemoryRef :=
  match b with
  | Some id => if virtualContains (lb c id) (vaddr r) then MkRef (vaddr r) b else r
  | None => r
  end.

(** [MemoryRef(v, ref)]. *)
Definition ref_from (c : CoreApi) (v : Z) (r : MemoryRef) : MemoryRef :=
  checkCopyBlock c (ref_at v) (ref_block r).

(** [MemoryRef::Prepare(check)]. *)
Definition Prepare (c : CoreApi) (r : MemoryRef) (check : bool) : result MemoryRef :=
  if has (ref_block r) || negb (nz (vaddr r)) then Ok r
  else let! b := FindLoadBlock c (vaddr r) check true in Ok (MkRef (vaddr r) b).

(** [MemoryRef::Real()]: the process address of the reference. *)
Definition Real (c : CoreApi) (r : MemoryRef) : result (MemoryRef * Z) :=
  let! r' := Prepare c r true in
  match ref_block r' with
  | Some id =>
      let b := lb c id in
      if isValid b then
        Ok (r', u64 (begin b OPT_READ_ALL + (Z.land (vaddr r') (mVabitsMask b) - mVaddr b)))
      else Throw (vaddr r')
  | None => Throw (vaddr r')
  end.

(** [*reinterpret_cast<uintN_t*>(Real() + offset)]. *)
Definition load_at (c : CoreApi) (r : MemoryRef) (offset n : Z) : result (MemoryRef * Z) :=
  let! '(r', p) := Real c r in
  let! v := host_word (host_mem c) (u64 (p + offset)) n in
  Ok (r', v).

(** [MemoryRef::valueOf(offset)] and the macro [VALUEOF]: masked to the pointer size. *)
Definition valueOf (c : CoreApi) (r : MemoryRef) (offset : Z) : result (MemoryRef * Z) :=
  let! '(r', v) := load_at c r offset 8 in
  match ref_block r' with
  | Some id => Ok (r', Z.land v (mPointMask (lb c id)))
  | None => Fault
  end.

Definition value64Of c r offset := load_at c r offset 8.
Definition value32Of c r offset := load_at c r offset 4.
Definition value16Of c r offset := load_at c r offset 2.
Definition value8Of c r offset := load_at c r offset 1.

(** [MemoryRef::MovePtr(length)]; [length] is signed. *)
Definition MovePtr (c : CoreApi) (r : MemoryRef) (length : Z) : result MemoryRef :=
  let! r' := Prepare c r true in
  let v := u64 (vaddr r' + length) in
  match ref_block r' with
  | Some id => if virtualContains (lb c id) v then Ok (MkRef v (Some id)) else Ok (MkRef v None)
  | None => Ok (MkRef v None)
  end.

(** [MemoryRef::IsValid()]. *)
Definition IsValid (c : CoreApi) (r : MemoryRef) : result (MemoryRef * bool) :=
  let! r' := Prepare c r false in
  Ok (r', match ref_block r' with Some id => isValid (lb c id) | None => false end).

(** * The interface clients rely on *)

(** A reference is consistent when its cached segment is the one its address lies in. *)
Definition ref_ok (c : CoreApi) (r : MemoryRef) : Prop :=
  0 <= vaddr r < 2 ^ 64 /\
  forall id, ref_block r = Some id ->
    linear_find c (Z.land (vaddr r) (vabits_mask c)) (mQuickLoad c) = Some id.

(** The process has the bytes [bs] at [p]: it can load every part of them, and read the
    strings that end in them. *)
Definition shows (h : host) (p : Z) (bs : list Z) : Prop :=
  (forall k n, 0 <= k -> 0 < n -> k + n <= Z.of_nat (length bs) ->
     host_load h (p + k) n = Ok (take (Z.to_nat n) (drop (Z.to_nat k) bs))) /\
  (forall k s, 0 <= k -> cstr_of (drop (Z.to_nat k) bs) = Some s -> host_cstr h (p + k) = Ok s).

(** [run a n]: the [n] bytes at address [a], when they lie in one segment's content.
    [Presents c run]: reading [c] through consistent references agrees with [run]. *)
Class Presents (c : CoreApi) (run : Z -> Z -> option (list Z)) : Prop := {
  present_length : forall a n bs, run a n = Some bs -> Z.of_nat (length bs) = n;
  present_part : forall a n k m bs, run a n = Some bs -> 0 <= k -> 0 < m -> k + m <= n ->
    run (a + k) m = Some (take (Z.to_nat m) (drop (Z.to_nat k) bs));
  present_load : forall r off n bs, ref_ok c r -> vaddr r <> 0 -> 0 <= off -> 0 < n ->
    run (Z.land (vaddr r) (vabits_mask c)) (off + n) = Some bs ->
    exists r', load_at c r off n = Ok (r', le_value (drop (Z.to_nat off) bs)) /\
      vaddr r' = vaddr r /\ ref_ok c r' /\ ref_block r' <> None;
  present_valid : forall r bs, ref_ok c r -> vaddr r <> 0 ->
    run (Z.land (vaddr r) (vabits_mask c)) 1 = Some bs ->
    exists r', IsValid c r = Ok (r', true) /\ vaddr r' = vaddr r /\ ref_ok c r';
  present_move : forall r len bs, ref_ok c r -> vaddr r <> 0 ->
    run (Z.land (vaddr r) (vabits_mask c)) 1 = Some bs ->
    exists r', MovePtr c r len = Ok r' /\ vaddr r' = u64 (vaddr r + len) /\ ref_ok c r';
  present_contains : forall r id n k bs, ref_ok c r -> ref_block r = Some id ->
    run (Z.land (vaddr r) (vabits_mask c)) n = Some bs -> 0 <= k < n ->
    Z.land (u64 (vaddr r + k)) (vabits_mask c) = Z.land (vaddr r) (vabits_mask c) + k ->
    virtualContains (lb c id) (u64 (vaddr r + k)) = true;
  present_cstr : forall r n bs s, ref_ok c r -> vaddr r <> 0 ->
    run (Z.land (vaddr r) (vabits_mask c)) n = Some bs -> cstr_of bs = Some s ->
    exists r' p, Real c r = Ok (r', p) /\ host_cstr (host_mem c) p = Ok s;
  present_real : forall r n bs, ref_ok c r -> vaddr r <> 0 -> 0 < n ->
    run (Z.land (vaddr r) (vabits_mask c)) n = Some bs ->
    exists r' p, Real c r = Ok (r', p) /\ vaddr r' = vaddr r /\ ref_ok c r' /\
      ref_block r' <> None /\ 0 <= p /\ p + n < 2 ^ 64 /\ shows (host_mem c) p bs;
  present_adopt : forall v id, id ∈ mQuickLoad c -> 0 <= v < 2 ^ 64 ->
    ref_ok c (checkCopyBlock c (ref_at v) (Some id));
  present_prepare : forall r check r', ref_ok c r -> Prepare c r check = Ok r' -> ref_ok c r';
  present_mask : forall r id, ref_ok c r -> ref_block r = Some id ->
    mPointMask (lb c id) = pointer_mask c;
}.

(** * The address space implements the interface *)

(** The bytes of the content of one segment. *)
Definition target_run (c : CoreApi) (a n : Z) : option (list Z) :=
  let? id := linear_find c a (mQuickLoad c) in
  if isValid (lb c id) && (0 <=? n) && (a - mVaddr (lb c id) + n <=? size (lb c id) OPT_READ_ALL)
  then
    match host_load (host_mem c) (begin (lb c id) OPT_READ_ALL) (size (lb c id) OPT_READ_ALL) with
    | Ok bs => Some (take (Z.to_nat n) (drop (Z.to_nat (a - mVaddr (lb c id))) bs))
    | _ => None
    end
  else None.

(** Every segment has the pointer mask of the core. *)
Definition masks_ok (c : CoreApi) : Prop :=
  forall id, id ∈ mQuickLoad c -> mPointMask (lb c id) = pointer_mask c.

Lemma target_run_inv c a n bs :
  space_ok c -> target_run c a n = Some bs ->
  exists id v, linear_find c a (mQuickLoad c) = Some id /\ isValid (lb c id) = true /\
    view (host_mem c) (lb c id) v /\ 0 <= n /\
    mVaddr (lb c id) <= a /\ a - mVaddr (lb c id) + n <= size (lb c id) OPT_READ_ALL /\
    bs = take (Z.to_nat n) (drop (Z.to_nat (a - mVaddr (lb c id))) v).
Proof.
  intros Hc. unfold target_run.
  destruct (linear_find c a (mQuickLoad c)) as [id|] eqn:Ef; [|done].
  destruct (linear_find_props _ _ _ Hc Ef) as (Hin & _ & _ & Ha).
  destruct (isValid (lb c id)) eqn:Hv; cbn [andb]; [|done].
  destruct (sp_view _ Hc id Hin Hv) as [v Hw].
  destruct (_ && _) eqn:E; [|done]. apply andb_true_iff in E as [H1 H2]. to_prop.
  rewrite (view_load _ _ _ Hw). intros [= <-]. exists id, v. split_and!; done || lia.
Qed.

(** The segment of a consistent reference is found, cached or not. *)
Lemma Prepare_ok c r check id :
  space_ok c -> ref_ok c r -> vaddr r <> 0 ->
  linear_find c (Z.land (vaddr r) (vabits_mask c)) (mQuickLoad c) = Some id ->
  (check = true -> isValid (lb c id) = true) ->
  Prepare c r check = Ok (MkRef (vaddr r) (Some id)).
Proof.
  intros Hc [_ Hr] Hnz Hf Hck. unfold Prepare. destruct r as [v [b|]]; cbn in *.
  - rewrite (Hr b) in Hf by done. by simplify_eq.
  - unfold nz. destruct (Z.eqb_spec v 0); [done|]. cbn.
    unfold FindLoadBlock. rewrite findLoadBlock_space, Hf by done. cbn.
    destruct check; [|done]. by rewrite Hck.
Qed.

Lemma target_run_part c a n k m bs :
  space_ok c -> target_run c a n = Some bs -> 0 <= k -> 0 < m -> k + m <= n ->
  target_run c (a + k) m = Some (take (Z.to_nat m) (drop (Z.to_nat k) bs)).
Proof.
  intros Hc H Hk Hmm Hle.
  apply target_run_inv in H as (id & v & Hf & Hv & Hw & Hn & Ha & Hsz & ->); [|done].
  pose proof (view_size _ _ _ Hw) as Hvs.
  pose proof (host_load_length _ _ _ _ (view_load _ _ _ Hw)) as Hlen.
  unfold target_run. rewrite (linear_find_shift c a id k) by (done || lia). rewrite Hv.
  destruct (Z.leb_spec 0 m); [|lia].
  destruct (Z.leb_spec (a + k - mVaddr (lb c id) + m) (size (lb c id) OPT_READ_ALL)); [|lia].
  cbn [andb]. rewrite (view_load _ _ _ Hw). f_equal. apply list_eq. intros i.
  destruct (decide (i < Z.to_nat m)%nat); [|by rewrite !lookup_take_ge by lia].
  rewrite !lookup_take_lt, !lookup_drop, lookup_take_lt, lookup_drop by lia. f_equal. lia.
Qed.

Lemma Real_ok c r id v :
  space_ok c -> ref_ok c r -> vaddr r <> 0 ->
  linear_find c (Z.land (vaddr r) (vabits_mask c)) (mQuickLoad c) = Some id ->
  isValid (lb c id) = true -> view (host_mem c) (lb c id) v ->
  Real c r = Ok (MkRef (vaddr r) (Some id),
    u64 (begin (lb c id) OPT_READ_ALL
         + (Z.land (vaddr r) (vabits_mask c) - mVaddr (lb c id)))).
Proof.
  intros Hc Hr Hnz Hf Hv Hw. unfold Real. rewrite (Prepare_ok _ _ _ id) by done.
  cbn [rbind ref_block vaddr]. rewrite Hv.
  destruct (linear_find_props _ _ _ Hc Hf) as (Hin & _). by rewrite (sp_mask _ Hc).
Qed.

Lemma ref_ok_cached c r id :
  ref_ok c r -> linear_find c (Z.land (vaddr r) (vabits_mask c)) (mQuickLoad c) = Some id ->
  ref_ok c (MkRef (vaddr r) (Some id)).
Proof. intros [Hr _] Hf. split; [done|]. by intros id' [= <-]. Qed.

Lemma load_at_ok c r off n bs :
  space_ok c -> ref_ok c r -> vaddr r <> 0 -> 0 <= off -> 0 < n ->
  target_run c (Z.land (vaddr r) (vabits_mask c)) (off + n) = Some bs ->
  exists r', load_at c r off n = Ok (r', le_value (drop (Z.to_nat off) bs)) /\
    vaddr r' = vaddr r /\ ref_ok c r' /\ ref_block r' <> None.
Proof.
  intros Hc Hr Hnz Ho Hn H.
  apply target_run_inv in H as (id & v & Hf & Hv & Hw & _ & Ha & Hsz & ->); [|done].
  pose proof (view_size _ _ _ Hw) as Hvs. pose proof (view_begin _ _ _ Hw).
  pose proof (view_end _ _ _ Hw).
  set (a := Z.land (vaddr r) (vabits_mask c)) in *.
  pose proof (host_load_length _ _ _ _ (view_load _ _ _ Hw)) as Hlen.
  exists (MkRef (vaddr r) (Some id)). split_and!; [|done|by apply ref_ok_cached|done].
  unfold load_at. rewrite (Real_ok _ _ id v) by done. cbn [rbind]. fold a.
  rewrite (wrap_small 64 (begin _ _ + _)) by lia. rewrite wrap_small by lia.
  unfold host_word.
  rewrite <- Z.add_assoc.
  rewrite (host_load_sub _ _ _ _ (a - mVaddr (lb c id) + off) n (sp_host _ Hc)
    (view_load _ _ _ Hw)) by lia.
  cbn [rbind]. do 3 f_equal. apply list_eq. intros i.
  destruct (decide (i < Z.to_nat n)%nat).
  - rewrite lookup_take_lt, !lookup_drop, lookup_take_lt, lookup_drop by lia. f_equal. lia.
  - rewrite lookup_take_ge, lookup_drop, lookup_take_ge by lia. done.
Qed.

(** Adding to a tagged address and masking it again: what [virtualContains] tests. *)
Lemma MovePtr_ok c r len bs :
  space_ok c -> ref_ok c r -> vaddr r <> 0 ->
  target_run c (Z.land (vaddr r) (vabits_mask c)) 1 = Some bs ->
  exists r', MovePtr c r len = Ok r' /\ vaddr r' = u64 (vaddr r + len) /\ ref_ok c r'.
Proof.
  intros Hc Hr Hnz H.
  apply target_run_inv in H as (id & v & Hf & Hv & Hw & _ & Ha & Hsz & ->); [|done].
  unfold MovePtr. rewrite (Prepare_ok _ _ _ id) by done. cbn [rbind ref_block vaddr].
  assert (Hb : 0 <= u64 (vaddr r + len) < 2 ^ 64) by (apply wrap_range; lia).
  destruct (linear_find_props _ _ _ Hc Hf) as (Hin & Hrg & Hm & _).
  destruct (virtualContains (lb c id) _) eqn:E.
  - eexists. split_and!; [done..|]. split; [done|]. intros id' [= <-]. cbn [vaddr].
    apply virtualContains_spec in E; [|apply Hrg..]. rewrite (sp_mask _ Hc) in E by done.
    apply linear_find_elem; [apply Hc|done|]. by apply covers_spec.
  - eexists. split_and!; [done..|]. by split.
Qed.

Lemma cstr_of_prefix l1 l2 s : cstr_of l1 = Some s -> cstr_of (l1 ++ l2) = Some s.
Proof.
  revert s. induction l1 as [|b l1 IH]; intros s; cbn; [done|].
  destruct (b =? 0); [done|]. destruct (cstr_of l1); [|done].
  intros [= <-]. by rewrite (IH _ eq_refl).
Qed.

(** A string that ends inside a readable range is read as it is there. *)
Lemma host_cstr_load (h : host) a n bs k s :
  host_wf h -> host_load h a n = Ok bs -> 0 <= k ->
  cstr_of (drop (Z.to_nat k) bs) = Some s -> host_cstr h (a + k) = Ok s.
Proof.
  intros Hh Hl Hk Hs. pose proof (host_load_length _ _ _ _ Hl) as Hlen.
  assert (Hkn : k + 1 <= n).
  { destruct (Z.le_gt_cases (k + 1) n); [done|]. rewrite drop_ge in Hs by lia. done. }
  unfold host_load in Hl. destruct (host_find h a n) as [[i r]|] eqn:E; [|done].
  injection Hl as <-. apply host_find_Some in E as (Hi & Hr & _).
  apply rg_has_spec in Hr as (H1 & H2 & H3). unfold host_cstr.
  destruct (host_find h (a + k) 1) as [[j t]|] eqn:Ej.
  - apply host_find_Some in Ej as (Hj & Ht & _). apply rg_has_spec in Ht as (T1 & T2 & T3).
    assert (j = i) as ->.
    { destruct (Nat.lt_trichotomy i j) as [Hl|[?|Hl]]; [|done|].
      - specialize (Hh _ _ _ _ Hl Hi Hj). unfold apart in Hh. lia.
      - specialize (Hh _ _ _ _ Hl Hj Hi). unfold apart in Hh. lia. }
    simplify_eq. rewrite skipn_firstn_comm, skipn_skipn in Hs.
    replace (Z.to_nat (a + k - rg_base r))
      with (Z.to_nat k + Z.to_nat (a - rg_base r))%nat by lia.
    eapply cstr_of_prefix in Hs. rewrite take_drop in Hs. by rewrite Hs.
  - exfalso. unfold host_find in Ej. rewrite list_find_None in Ej.
    apply (Forall_lookup_1 _ _ _ _ Ej) in Hi. apply Hi. apply rg_has_spec. lia.
Qed.

(** The bytes of a segment behind an address, as the process sees them. *)
Lemma real_shows c r n bs :
  space_ok c -> ref_ok c r -> vaddr r <> 0 -> 0 < n ->
  target_run c (Z.land (vaddr r) (vabits_mask c)) n = Some bs ->
  exists r' p, Real c r = Ok (r', p) /\ vaddr r' = vaddr r /\ ref_ok c r' /\
    ref_block r' <> None /\ 0 <= p /\ p + n < 2 ^ 64 /\ shows (host_mem c) p bs.
Proof.
  intros Hc Hr Hnz Hnp H.
  apply target_run_inv in H as (id & v & Hf & Hv & Hw & Hn & Ha & Hsz & ->); [|done].
  pose proof (view_size _ _ _ Hw). pose proof (view_begin _ _ _ Hw). pose proof (view_end _ _ _ Hw).
  set (a := Z.land (vaddr r) (vabits_mask c)) in *. set (b := lb c id) in *.
  pose proof (host_load_length _ _ _ _ (view_load _ _ _ Hw)) as Hlen.
  exists (MkRef (vaddr r) (Some id)), (begin b OPT_READ_ALL + (a - mVaddr b)).
  split_and!; [|done|by apply ref_ok_cached|done|lia|lia|].
  { rewrite (Real_ok _ _ id v) by done. fold a b. do 2 f_equal. apply wrap_small. lia. }
  split.
  - intros k m Hk Hm Hkm. rewrite length_take, length_drop in Hkm. rewrite <- Z.add_assoc.
    rewrite (host_load_sub _ _ _ _ (a - mVaddr b + k) m (sp_host _ Hc) (view_load _ _ _ Hw))
      by lia.
    f_equal. apply list_eq. intros i. destruct (decide (i < Z.to_nat m)%nat).
    + rewrite !lookup_take_lt, !lookup_drop, lookup_take_lt, lookup_drop by lia. f_equal. lia.
    + by rewrite !lookup_take_ge by lia.
  - intros k s Hk Hs. rewrite <- Z.add_assoc.
    apply (host_cstr_load _ _ _ v _ _ (sp_host _ Hc) (view_load _ _ _ Hw)); [lia|].
    rewrite skipn_firstn_comm, skipn_skipn in Hs.
    eapply cstr_of_prefix in Hs. rewrite take_drop in Hs. rewrite <- Hs. do 2 f_equal. lia.
Qed.

#[export] Instance space_presents c :
  space_ok c -> masks_ok c -> Presents c (target_run c).
Proof.
  intros Hc Hm. split.
  - intros a n bs H. apply target_run_inv in H as (id & v & _ & _ & Hw & Hn & Ha & Hle & ->);
      [|done].
    pose proof (host_load_length _ _ _ _ (view_load _ _ _ Hw)).
    rewrite length_take, length_drop. lia.
  - intros. by apply (target_run_part _ _ n).
  - intros. by apply load_at_ok.
  - intros r bs Hr Hnz H.
    apply target_run_inv in H as (id & v & Hf & Hv & _); [|done].
    exists (MkRef (vaddr r) (Some id)). split_and!; [|done|by apply ref_ok_cached].
    unfold IsValid. rewrite (Prepare_ok _ _ _ id) by done. cbn. by rewrite Hv.
  - intros. by eapply MovePtr_ok.
  - intros r id n k bs Hr Hb H Hk Hadd.
    apply target_run_inv in H as (id' & v & Hf & Hv & Hw & Hn & Ha & Hsz & ->); [|done].
    destruct Hr as [_ Hr]. rewrite (Hr id Hb) in Hf. simplify_eq.
    destruct (linear_find_props _ _ _ Hc (Hr _ Hb)) as (Hin & Hrg & _).
    pose proof (view_size _ _ _ Hw). unfold range_ok in Hrg.
    apply virtualContains_spec; [lia..|]. rewrite (sp_mask _ Hc) by done. lia.
  - intros r n bs s Hr Hnz H Hs.
    apply target_run_inv in H as (id & v & Hf & Hv & Hw & Hn & Ha & Hsz & ->); [|done].
    pose proof (view_begin _ _ _ Hw). pose proof (view_end _ _ _ Hw).
    rewrite (Real_ok _ _ id v) by done. eexists _, _. split; [done|].
    assert (Hnp : 0 < n).
    { destruct (Z.le_gt_cases n 0); [|lia]. by replace (Z.to_nat n) with O in Hs by lia. }
    rewrite wrap_small by lia.
    eapply host_cstr_load; [apply Hc|apply Hw|lia|].
    apply (cstr_of_prefix _ (drop (Z.to_nat n)
      (drop (Z.to_nat (Z.land (vaddr r) (vabits_mask c) - mVaddr (lb c id))) v))) in Hs.
    by rewrite take_drop in Hs.
  - intros r n bs Hr Hnz Hn H. apply real_shows; done.
  - intros v id Hin Hv. unfold checkCopyBlock. cbn [vaddr ref_at].
    destruct (virtualContains (lb c id) v) eqn:E; [|by split].
    pose proof (sorted_range _ _ (sp_sorted _ Hc)) as Hrg. rewrite Forall_elem in Hrg.
    pose proof (Hrg id Hin) as Hid. unfold range_ok in Hid.
    split; [done|]. intros id' [= <-]. cbn [vaddr].
    apply virtualContains_spec in E; [|lia..]. rewrite (sp_mask _ Hc) in E by done.
    apply linear_find_elem; [apply Hc|done|]. by apply covers_spec.
  - intros r check r' Hr H. unfold Prepare in H. destruct (_ || _); [by simplify_eq|].
    unfold FindLoadBlock in H. rewrite findLoadBlock_space in H by done. cbn [rbind] in H.
    split; [destruct Hr; res_inv; by subst|].
    intros id E. res_inv. subst r'. cbn [vaddr ref_block] in *. subst v.
    destruct check, (linear_find _ _ _) as [id'|]; try done; try congruence.
    destruct (isValid (lb c id')); congruence.
  - intros r id [_ Hr] Hb. apply Hr in Hb. apply linear_find_Some in Hb as [Hin _]. auto.
Qed.

(** What [run] answers is the target memory of [AddressSpace]. *)
Lemma target_run_bytes c a n bs i :
  space_ok c -> target_run c a n = Some bs -> (i < length bs)%nat ->
  target_byte c (a + Z.of_nat i) = bs !! i.
Proof.
  intros Hc H Hi.
  pose proof H as (id & v & Hf & Hv & Hw & Hn & Ha & Hsz & ->)%target_run_inv; [|done].
  pose proof (view_size _ _ _ Hw) as Hvs.
  pose proof (host_load_length _ _ _ _ (view_load _ _ _ Hw)) as Hlen.
  rewrite length_take, length_drop in Hi.
  rewrite lookup_take_lt, lookup_drop by lia.
  apply (target_byte_at c _ id); try done; [|lia|lia].
  apply linear_find_shift; [done..|lia|lia].
Qed.

Lemma ref_from_ok c run `{!Presents c run} v r :
  ref_ok c r -> 0 <= v < 2 ^ 64 -> ref_ok c (ref_from c v r).
Proof.
  intros [_ Hr] Hv. unfold ref_from. destruct (ref_block r) as [id|]; [|by split].
  apply present_adopt; [|done]. specialize (Hr id eq_refl). apply linear_find_Some in Hr. tauto.
Qed.
Lemma Prepare_vaddr c r check r' : Prepare c r check = Ok r' -> vaddr r' = vaddr r.
Proof. unfold Prepare. destruct (_ || _); intros; res_inv; by subst. Qed.

Lemma ref_from_vaddr c v r : vaddr (ref_from c v r) = v.
Proof.
  unfold ref_from, checkCopyBlock. destruct (ref_block r) as [id|]; [|done].
  by destruct (virtualContains _ _).
Qed.

(** * Words of the target *)

Section Words.
Context (c : CoreApi) (run : Z -> Z -> option (list Z)) `{!Presents c run}.

(** The [n]-byte word at a masked address, when it lies in one segment. *)
Definition word_at (a n : Z) : option Z := le_value <$> run a n.

(** Reading field [off] of an object of [sz] bytes at a reference. *)
Lemma load_field r off n sz bs :
  ref_ok c r -> vaddr r <> 0 -> 0 <= off -> 0 < n -> off + n <= sz ->
  run (Z.land (vaddr r) (vabits_mask c)) sz = Some bs ->
  exists r', load_at c r off n
      = Ok (r', le_value (take (Z.to_nat n) (drop (Z.to_nat off) bs))) /\
    vaddr r' = vaddr r /\ ref_ok c r' /\ ref_block r' <> None.
Proof.
  intros Hr Hnz Ho Hn Hle Hrun.
  pose proof (present_part _ _ 0 (off + n) _ Hrun) as Hp.
  rewrite Z.add_0_r in Hp. rewrite drop_0 in Hp.
  destruct (present_load r off n _ Hr Hnz Ho Hn (Hp ltac:(lia) ltac:(lia) ltac:(lia)))
    as (r' & Hl & H').
  exists r'. split; [|done]. rewrite Hl. do 3 f_equal.
  apply list_eq. intros i. destruct (decide (i < Z.to_nat n)%nat).
  - rewrite lookup_drop, !lookup_take_lt, lookup_drop by lia. done.
  - rewrite lookup_drop, !lookup_take_ge by lia. done.
Qed.

(** The same through [VALUEOF], which masks to the pointer size. *)
Lemma valueOf_field r off sz bs :
  ref_ok c r -> vaddr r <> 0 -> 0 <= off -> off + 8 <= sz ->
  run (Z.land (vaddr r) (vabits_mask c)) sz = Some bs ->
  exists r', valueOf c r off
      = Ok (r', Z.land (le_value (take 8 (drop (Z.to_nat off) bs))) (pointer_mask c)) /\
    vaddr r' = vaddr r /\ ref_ok c r'.
Proof.
  intros Hr Hnz Ho Hle Hrun.
  destruct (load_field r off 8 sz bs Hr Hnz Ho ltac:(lia) Hle Hrun)
    as (r' & Hl & Hv & Hr' & Hb).
  exists r'. split; [|done]. unfold valueOf. rewrite Hl. cbn [rbind].
  destruct (ref_block r') as [id|] eqn:Eb; [|done].
  by rewrite (present_mask r' id Hr' Eb).
Qed.
End Words.

(** * Cores with one segment

    A segment at [va] holding [bytes], on a target with 39-bit addresses: the concrete
    address spaces of the witnesses. *)
Definition one_seg (va : Z) (bytes : list Z) : LoadBlock :=
  let n := Z.of_nat (length bytes) in
  setOriAddr 0x10000 (setPointMask (2 ^ 64 - 1) (setVabitsMask (2 ^ 39 - 1)
    (NewLoadBlock_obj 6 0 va 0 n n 0x1000))).
Definition one_core (va : Z) (bytes : list Z) : CoreApi :=
  addLoadBlock
    (with_masks (NewCore (Build_MemoryMap [] 0x10000 0 0 0) true [Region 0x10000 false bytes])
       (2 ^ 64 - 1) (2 ^ 39 - 1))
    (one_seg va bytes).

Section OneCore.
Context (va : Z) (bytes : list Z)
  (Hva : 0 <= va /\ va + Z.of_nat (length bytes) < 2 ^ 63)
  (Hlen : (0 < length bytes)%nat).

Lemma one_lb : lb (one_core va bytes) 0 = one_seg va bytes.
Proof. unfold lb, one_core, addLoadBlock. cbn. by rewrite lookup_insert_eq. Qed.

Lemma one_quick_list : mQuickLoad (one_core va bytes) = [0%nat].
Proof.
  unfold one_core, addLoadBlock. cbn. unfold setOriAddr_block.
  by destruct (isValidBlock _).
Qed.

Lemma one_quick id : id ∈ mQuickLoad (one_core va bytes) -> id = 0%nat.
Proof.
  rewrite one_quick_list. by intros ->%list_elem_of_singleton.
Qed.

Lemma one_block :
  lb_block (one_seg va bytes) =
    MkBlock 6 0 va 0 (Z.of_nat (length bytes)) (Z.of_nat (length bytes)) 0x1000 0x10000
      false false None.
Proof.
  unfold one_seg, setOriAddr, on_block, setOriAddr_block, isValidBlock. cbn.
  destruct (Z.ltb_spec 0 (Z.of_nat (length bytes))); [done|lia].
Qed.

Lemma one_fields :
  mOverlay (one_seg va bytes) = None /\ mMmap (one_seg va bytes) = None /\
  mVaddr (one_seg va bytes) = va /\ mMemSize (one_seg va bytes) = Z.of_nat (length bytes) /\
  mFileSize (one_seg va bytes) = Z.of_nat (length bytes) /\
  mVabitsMask (one_seg va bytes) = 2 ^ 39 - 1 /\ mPointMask (one_seg va bytes) = 2 ^ 64 - 1 /\
  mOriAddr (one_seg va bytes) = 0x10000.
Proof. by rewrite one_block. Qed.

Lemma one_size : size (one_seg va bytes) OPT_READ_ALL = Z.of_nat (length bytes).
Proof.
  destruct one_fields as (Ho & Hm & _ & _ & Hf & _ & _ & Hori).
  unfold size, overlay_for, mmap_for. rewrite Ho, Hm, Hori, Hf. done.
Qed.

Lemma one_view : view (host_mem (one_core va bytes)) (one_seg va bytes) bytes.
Proof.
  destruct one_fields as (Ho & Hm & _ & Hz & Hf & _ & _ & Hori).
  assert (Hb : begin (one_seg va bytes) OPT_READ_ALL = 0x10000).
  { unfold begin, overlay_for, mmap_for. rewrite Ho, Hm, Hori. done. }
  pose proof one_size as Hs.
  split; rewrite ?Hb, ?Hs, ?Hz; try lia.
  - unfold host_load.
    rewrite (proj2 (host_find_Some _ _ _ 0 (Region 0x10000 false bytes))).
    + cbn. by rewrite Nat2Z.id, firstn_all.
    + split_and!; [done| |intros; lia]. apply rg_has_spec. unfold rg_end. cbn. lia.
  - intros _. unfold backing. rewrite Hm, Hf. split; [lia|].
    by rewrite Nat2Z.id, drop_all, Z.sub_diag.
  - by rewrite Ho.
Qed.

Lemma one_core_ok : space_ok (one_core va bytes).
Proof.
  destruct one_fields as (_ & _ & Hv & Hz & _ & Hvm & _).
  split.
  - split; [| |by rewrite one_quick_list].
    + apply Forall_elem. intros id ->%one_quick. rewrite one_lb. unfold range_ok. lia.
    + intros i j x y Hij _ Hj. rewrite one_quick_list in Hj.
      destruct j as [|[|j]]; [lia|done..].
  - intros i j x y Hij _ Hj. destruct j as [|[|j]]; [lia|done..].
  - intros id ->%one_quick. by rewrite one_lb.
  - intros id ->%one_quick _. rewrite one_lb. eexists. apply one_view.
  - intros i j ->%one_quick ->%one_quick. done.
Qed.

Lemma one_core_masks : masks_ok (one_core va bytes).
Proof. intros id ->%one_quick. rewrite one_lb. apply one_fields. Qed.

Lemma one_valid : isValid (one_seg va bytes) = true.
Proof.
  unfold isValid, isValidBlock. rewrite one_block. cbn.
  destruct (Z.ltb_spec 0 (Z.of_nat (length bytes))); [done|lia].
Qed.

(** What the core presents: the parts of [bytes]. *)
Lemma one_run a n :
  va <= a -> 0 <= n -> a + n <= va + Z.of_nat (length bytes) -> a < va + Z.of_nat (length bytes) ->
  target_run (one_core va bytes) a n
    = Some (take (Z.to_nat n) (drop (Z.to_nat (a - va)) bytes)).
Proof.
  intros Ha Hn Hle Hlt. pose proof one_core_ok as Hok.
  destruct one_fields as (Ho & Hm & Hv & Hz & Hf & _ & _ & Hori).
  assert (linear_find (one_core va bytes) a (mQuickLoad (one_core va bytes)) = Some 0%nat) as E.
  { apply linear_find_elem; [apply Hok|rewrite one_quick_list; set_solver|].
    apply covers_spec. rewrite one_lb, Hv, Hz. lia. }
  unfold target_run. rewrite E, one_lb, one_valid, Hv, (view_load _ _ _ one_view), one_size.
  by rewrite (proj2 (Z.leb_le 0 n)), (proj2 (Z.leb_le _ _)) by lia.
Qed.

Lemma one_presents : Presents (one_core va bytes) (target_run (one_core va bytes)).
Proof. apply space_presents; [apply one_core_ok|apply one_core_masks]. Qed.
End OneCore.
