(* ===== verification/Elf.v ===== *)
(** The ELF structures of the target: core/api/elf.h and elf.cpp (the offset tables, the
    program headers of the executable, dynamic tables, dynamic symbols), and
    core/common/link_map.h and link_map.cpp ([LinkMap]: the modules the dynamic linker
    has loaded and their symbols). *)

From Stdlib Require Import ZArith Lia Bool.
From stdpp Require Import base list gmap numbers.
From S2P Require Import Prelude Words Host Blocks Notes CoreApi Segments AddressSpace MemRef.
Open Scope Z_scope.

(** * Machines *)

(** The virtual functions [getMachine], [bits] and [getPointSize] of the [Core] classes. *)
Class Machine := { machine : Z; bits : Z; point_size : Z }.

Definition EM_386 : Z := 3.
Definition EM_ARM : Z := 40.
Definition EM_X86_64 : Z := 62.
Definition EM_AARCH64 : Z := 183.
Definition EM_RISCV : Z := 243.

Definition arm64_Core : Machine := {| machine := EM_AARCH64; bits := 64; point_size := 8 |}.
Definition riscv64_Core : Machine := {| machine := EM_RISCV; bits := 64; point_size := 8 |}.
Definition x86_64_Core : Machine := {| machine := EM_X86_64; bits := 64; point_size := 8 |}.
Definition arm_Core : Machine := {| machine := EM_ARM; bits := 32; point_size := 4 |}.
Definition x86_Core : Machine := {| machine := EM_386; bits := 32; point_size := 4 |}.

(** * Offset tables *)

Record Elfx_Ehdr_OffsetTable := {
  e_ident : Z; e_type : Z; e_machine : Z; e_version : Z; e_entry : Z; e_phoff : Z;
  e_shoff : Z; e_flags : Z; e_ehsize : Z; e_phentsize : Z; e_phnum : Z; e_shentsize : Z;
  e_shnum : Z; e_shstrndx : Z; Ehdr_THIS : Z }.
Record Elfx_Phdr_OffsetTable := {
  p_type : Z; p_flags : Z; p_offset : Z; p_vaddr : Z; p_paddr : Z; p_filesz : Z;
  p_memsz : Z; p_align : Z; Phdr_THIS : Z }.
Record Elfx_Dynamic_OffsetTable := { d_type : Z; d_val : Z; Dynamic_THIS : Z }.
Record Elfx_Sym_OffsetTable := {
  st_name : Z; st_value : Z; st_size : Z; st_info : Z; st_other : Z; st_shndx : Z;
  Sym_THIS : Z }.
Record LinkMap_OffsetTable := {
  l_addr : Z; l_name : Z; l_ld : Z; l_next : Z; l_prev : Z; LinkMap_THIS : Z }.

Definition Elfx_Ehdr_Init (bits : Z) : Elfx_Ehdr_OffsetTable :=
  if bits =? 64 then
    {| e_ident := 0; e_type := 16; e_machine := 18; e_version := 20; e_entry := 24;
       e_phoff := 32; e_shoff := 40; e_flags := 48; e_ehsize := 52; e_phentsize := 54;
       e_phnum := 56; e_shentsize := 58; e_shnum := 60; e_shstrndx := 62; Ehdr_THIS := 64 |}
  else
    {| e_ident := 0; e_type := 16; e_machine := 18; e_version := 20; e_entry := 24;
       e_phoff := 28; e_shoff := 32; e_flags := 36; e_ehsize := 40; e_phentsize := 42;
       e_phnum := 44; e_shentsize := 46; e_shnum := 48; e_shstrndx := 50; Ehdr_THIS := 52 |}.

Definition Elfx_Phdr_Init (bits : Z) : Elfx_Phdr_OffsetTable :=
  if bits =? 64 then
    {| p_type := 0; p_flags := 4; p_offset := 8; p_vaddr := 16; p_paddr := 24;
       p_filesz := 32; p_memsz := 40; p_align := 48; Phdr_THIS := 56 |}
  else
    {| p_type := 0; p_flags := 4; p_offset := 8; p_vaddr := 12; p_paddr := 16;
       p_filesz := 20; p_memsz := 24; p_align := 28; Phdr_THIS := 32 |}.

Definition Elfx_Dynamic_Init (bits : Z) : Elfx_Dynamic_OffsetTable :=
  let cap := 64 / bits in
  {| d_type := 0; d_val := 8 / cap; Dynamic_THIS := 16 / cap |}.

Definition Elfx_Sym_Init (bits : Z) : Elfx_Sym_OffsetTable :=
  if bits =? 64 then
    {| st_name := 0; st_value := 8; st_size := 16; st_info := 4; st_other := 5;
       st_shndx := 6; Sym_THIS := 24 |}
  else
    {| st_name := 0; st_value := 4; st_size := 8; st_info := 12; st_other := 13;
       st_shndx := 14; Sym_THIS := 16 |}.

Definition LinkMap_Init (bits : Z) : LinkMap_OffsetTable :=
  let cap := 64 / bits in
  {| l_addr := 0; l_name := 8 / cap; l_ld := 16 / cap; l_next := 24 / cap;
     l_prev := 32 / cap; LinkMap_THIS := 40 / cap |}.

Definition PT_LOAD : Z := 1.
Definition PT_DYNAMIC : Z := 2.
Definition PT_NOTE : Z := 4.
Definition PT_PHDR : Z := 6.
Definition DT_STRTAB : Z := 5.
Definition DT_SYMTAB : Z := 6.
Definition DT_SYMENT : Z := 11.
Definition DT_DEBUG : Z := 21.
Definition DT_VERSYM : Z := 0x6ffffff0.
Definition STT_NOTYPE : Z := 0.
Definition STT_FUNC : Z := 2.

(** ["\177ELF"]. *)
Definition ELFMAG : list Z := [127; 69; 76; 70].

(** * Headers and dynamic tables *)

Section Elf.
Context {M : Machine}.

(** [Elfx_Ehdr::IsElf()]. *)
Definition IsElf (c : CoreApi) (r : MemoryRef) : result (MemoryRef * bool) :=
  let! '(r1, ok) := IsValid c r in
  if ok : bool then
    let! '(r2, p) := Real c r1 in
    let! ident := host_load (host_mem c) p 4 in
    Ok (r2, bool_decide (ident = ELFMAG))
  else Ok (r1, false).

(** The [do ... while] loop of [FindDynamicEntry]. *)
Fixpoint dynamic_loop (fuel : nat) (c : CoreApi) (tmp : MemoryRef) (type : Z) : result Z :=
  match fuel with
  | O => OutOfFuel
  | S n =>
      let T := Elfx_Dynamic_Init bits in
      let! '(r1, t) := valueOf c tmp (d_type T) in
      if t =? type then
        let! '(_, v) := valueOf c r1 (d_val T) in Ok v
      else
        let! r2 := MovePtr c r1 (Dynamic_THIS T) in
        let! '(r3, t') := valueOf c r2 (d_type T) in
        if nz t' then dynamic_loop n c r3 type else Ok 0
  end.

(** [Elf::FindDynamicEntry(dynamic, type)]; the reference passed in gets its segment. *)
Definition FindDynamicEntry (fuel : nat) (c : CoreApi) (dynamic : MemoryRef) (type : Z)
    : result (MemoryRef * Z) :=
  let! '(r, ok) := IsValid c dynamic in
  if ok : bool then let! v := dynamic_loop fuel c r type in Ok (r, v)
  else Ok (r, 0).

(** The [while (index < phnum)] loop of [GetDebug] over the [n] program headers left:
    the virtual address of PT_DYNAMIC. *)
Fixpoint debug_loop (n : nat) (c : CoreApi) (tmp : MemoryRef) : result (option Z) :=
  match n with
  | O => Ok None
  | S m =>
      let T := Elfx_Phdr_Init bits in
      let! '(r1, t) := value32Of c tmp (p_type T) in
      if t =? PT_DYNAMIC then
        let! '(_, v) := valueOf c r1 (p_vaddr T) in Ok (Some v)
      else
        let! r2 := MovePtr c r1 (Phdr_THIS T) in debug_loop m c r2
  end.

(** [Elf::GetDebug()]: [mDebug] is the cached reference; the new value is returned. *)
Definition GetDebug (fuel : nat) (c : CoreApi) (mDebug : MemoryRef) : result MemoryRef :=
  if nz (vaddr mDebug) then Ok mDebug else
  let phdr := ref_at (findAuxv c AT_PHDR) in
  let phnum := findAuxv c AT_PHNUM in
  let! '(phdr, ok) := IsValid c phdr in
  if negb ok then Ok mDebug else
  let! found := debug_loop (Z.to_nat phnum) c phdr in
  let! dynamic :=
    match found with
    | Some v =>
        let! '(_, pv) := valueOf c phdr (p_vaddr (Elfx_Phdr_Init bits)) in
        Ok (ref_at (u64 (vaddr phdr - pv + v)))
    | None => Ok (ref_at 0)
    end in
  let! '(dynamic, ok) := IsValid c dynamic in
  if ok : bool then
    let! '(_, v) := FindDynamicEntry fuel c dynamic DT_DEBUG in Ok (ref_at v)
  else Ok mDebug.
End Elf.

(** * Link maps *)

Definition with_lm_ref (m : LinkMap) (r : MemoryRef) : LinkMap :=
  MkLinkMap r (addr_cache m) (name_cache m) (dynsyms m).
Definition with_addr_cache (m : LinkMap) (r : MemoryRef) : LinkMap :=
  MkLinkMap (lm_ref m) r (name_cache m) (dynsyms m).
Definition with_name_cache (m : LinkMap) (r : MemoryRef) : LinkMap :=
  MkLinkMap (lm_ref m) (addr_cache m) r (dynsyms m).
Definition with_dynsyms (m : LinkMap) (s : list SymbolEntry) : LinkMap :=
  MkLinkMap (lm_ref m) (addr_cache m) (name_cache m) s.

(** [ELF_ST_TYPE]. *)
Definition ELF_ST_TYPE (info : Z) : Z := Z.land info 0xf.

Section LinkMaps.
Context {M : Machine} (fuel : nat) (c : CoreApi).

(** [l_addr()], [l_name()], [l_ld()]. *)
Definition lm_field (off : LinkMap_OffsetTable -> Z) : prog LinkMap Z :=
  on_part lm_ref with_lm_ref (fun r => valueOf c r (off (LinkMap_Init bits))).

(** The loop of [FindDynamic] over the [n] program headers left of a module without
    [l_ld]: the virtual address of PT_DYNAMIC, unless a PT_PHDR shows a relocation. *)
Fixpoint phdr_loop (n : nat) (tmp : MemoryRef) : result (option Z) :=
  match n with
  | O => Ok None
  | S k =>
      let T := Elfx_Phdr_Init bits in
      let! '(r1, t) := value32Of c tmp (p_type T) in
      let! '(r2, moved) :=
        (if t =? PT_PHDR then
           let! '(r2, o) := valueOf c r1 (p_offset T) in
           let! '(r3, v) := valueOf c r2 (p_vaddr T) in
           Ok (r3, negb (o =? v))
         else Ok (r1, false)) in
      if moved : bool then Ok None
      else if t =? PT_DYNAMIC then
        let! '(_, v) := valueOf c r2 (p_vaddr T) in Ok (Some v)
      else
        let! r3 := MovePtr c r2 (Phdr_THIS T) in phdr_loop k r3
  end.

(** [Elf::FindDynamic(handle)]. *)
Definition FindDynamic : prog LinkMap MemoryRef :=
  let$ ld := lm_field l_ld in
  if nz ld then
    let$ ld := lm_field l_ld in pret (ref_at ld)
  else
    let$ a := lm_field l_addr in
    let$ p := lift (IsElf c (ref_at a)) in
    let '(ehdr, ok) := p in
    if ok : bool then
      let phdr := ref_from c (u64 (vaddr ehdr + Ehdr_THIS (Elfx_Ehdr_Init bits))) ehdr in
      let$ q := lift (value16Of c ehdr (e_phnum (Elfx_Ehdr_Init bits))) in
      let$ found := lift (phdr_loop (Z.to_nat (snd q)) phdr) in
      match found with
      | Some v => let$ a := lm_field l_addr in pret (ref_at (u64 (a + v)))
      | None => pret (ref_at 0)
      end
    else pret (ref_at 0).

(** The address a table entry of the dynamic section stands for: absolute, or relative
    to the load address when it lies below it. *)
Definition rebase (v : Z) : prog LinkMap MemoryRef :=
  let$ a := lm_field l_addr in
  if a <=? v then pret (ref_at v)
  else let$ a := lm_field l_addr in pret (ref_at (u64 (a + v))).

(** Names the symbol readers skip: mapping symbols and internal labels. *)
Definition skip_name (s : list Z) : bool :=
  match s with
  | x :: _ => (x =? 36) || (x =? 46)
  | [] => false
  end.

(** The loop of [Elf::ReadSymbols] over the [n] symbols left: the two [continue]
    statements come before [symbols.MovePtr(syment)]. *)
Fixpoint symbol_loop (n : nat) (tables symbols : MemoryRef) (syment : Z) : prog LinkMap unit :=
  match n with
  | O => pret tt
  | S k =>
      let T := Elfx_Sym_Init bits in
      let next r := let$ r' := lift (MovePtr c r syment) in symbol_loop k tables r' syment in
      let$ v := lift (valueOf c symbols (st_value T)) in
      let '(s1, value) := v in
      let$ z := (if nz value then lift (valueOf c s1 (st_size T)) else pret (s1, 0)) in
      let '(s2, sz) := z in
      if nz value && nz sz then
        let$ w := lift (value32Of c s2 (st_name T)) in
        let '(s3, nm) := w in
        let symname := ref_at (u64 (vaddr tables + nm)) in
        if pointer_mask c <=? vaddr symname then symbol_loop k tables s3 syment
        else
          match ref_block tables with
          | None => lift Fault
          | Some id =>
              if negb (virtualContains (lb c id) (vaddr symname)) then pret tt
              else
                let$ i := lift (value8Of c s3 (st_info T)) in
                let '(s4, info) := i in
                let$ p := lift (Real c symname) in
                let$ str := lift (host_cstr (host_mem c) (snd p)) in
                if skip_name str then symbol_loop k tables s4 syment
                else
                  let$ _ := modify (fun m => with_dynsyms m
                    (sym_insert (MkSymbol value info sz str) (dynsyms m))) in
                  next s4
          end
      else next s2
  end.

(** [Elf::ReadSymbols(handle)]. *)
Definition ReadSymbols : prog LinkMap unit :=
  let$ a := lm_field l_addr in
  if negb (nz a) then pret tt else
  let$ dynamic := FindDynamic in
  let$ d := lift (FindDynamicEntry fuel c dynamic DT_STRTAB) in
  let '(dynamic, strtab) := d in
  let$ d := lift (FindDynamicEntry fuel c dynamic DT_SYMTAB) in
  let '(dynamic, symtab) := d in
  let$ d := lift (FindDynamicEntry fuel c dynamic DT_SYMENT) in
  let '(dynamic, syment) := d in
  let$ d := lift (FindDynamicEntry fuel c dynamic DT_VERSYM) in
  let '(dynamic, versym) := d in
  if negb (nz syment) && negb (syment =? Sym_THIS (Elfx_Sym_Init bits)) then pret tt else
  let symsz := i64 (if versym <? strtab then versym - symtab else strtab - symtab) in
  if (symsz <=? 0) || nz (u64 symsz mod syment) then pret tt else
  let count := i64 (u64 symsz / syment) in
  let$ tables := rebase strtab in
  let$ symbols := rebase symtab in
  let$ t := lift (IsValid c tables) in
  if negb (snd t) then pret tt else
  let$ s := lift (IsValid c symbols) in
  if negb (snd s) then pret tt else
  symbol_loop (Z.to_nat count) (fst t) (fst s) syment.

(** [LinkMap::ReadDynsyms()]. *)
Definition ReadDynsyms : prog LinkMap unit :=
  let$ _ := modify (fun m => with_dynsyms m []) in
  ptry ReadSymbols (fun _ => pret tt).

(** [LinkMap(m)]. *)
Definition NewLinkMap (m : Z) : LinkMap * result unit :=
  ReadDynsyms (MkLinkMap (ref_at m) (ref_at 0) (ref_at 0) []).

(** [LinkMap::GetAddrCache()]. *)
Definition GetAddrCache : prog LinkMap MemoryRef :=
  let$ m := get in
  if nz (vaddr (addr_cache m)) then pret (addr_cache m) else
  let search : prog LinkMap bool :=
    let$ dynamic := FindDynamic in
    let$ d := lift (FindDynamicEntry fuel c dynamic DT_SYMTAB) in
    let$ symbols := rebase (snd d) in
    let$ s := lift (IsValid c symbols) in
    let$ _ :=
      (if snd s then
         match ref_block (fst s) with
         | None => lift Fault
         | Some id =>
             let$ e := lift (IsElf c (ref_at (mVaddr (lb c id)))) in
             if snd e then modify (fun m => with_addr_cache m (ref_at (mVaddr (lb c id))))
             else pret tt
         end
       else pret tt) in
    pret true in
  let$ done := ptry search (fun _ => pret false) in
  let$ _ :=
    (if done : bool then
       on_part addr_cache with_addr_cache (fun r => let! r' := Prepare c r false in Ok (r', tt))
     else pret tt) in
  let$ m := get in pret (addr_cache m).

(** [LinkMap::GetNameCache()]. *)
Definition GetNameCache : prog LinkMap MemoryRef :=
  let$ m := get in
  let$ _ :=
    (if nz (vaddr (name_cache m)) then pret tt
     else
       let$ n := lm_field l_name in
       let$ _ := modify (fun m => with_name_cache m (ref_at n)) in
       on_part name_cache with_name_cache (fun r => let! r' := Prepare c r false in Ok (r', tt))) in
  let$ m := get in pret (name_cache m).

Definition lm_begin : prog LinkMap Z := let$ r := GetAddrCache in pret (vaddr r).

(** [LinkMap::block()]. *)
Definition lm_block : prog LinkMap (option nat) :=
  let$ _ := GetAddrCache in
  let$ _ := on_part addr_cache with_addr_cache
              (fun r => let! r' := Prepare c r false in Ok (r', tt)) in
  let$ r := GetAddrCache in pret (ref_block r).

(** [LinkMap::name()]. *)
Definition lm_name : prog LinkMap (list Z) :=
  let$ _ := GetNameCache in
  let$ ok := on_part name_cache with_name_cache (IsValid c) in
  let$ v := (if ok : bool then on_part name_cache with_name_cache (fun r => value8Of c r 0)
             else pret 0) in
  if negb ok || negb (nz v) then
    let$ ld := lm_field l_ld in
    pret (match FindFile c ld with Some f => fName f | None => [] end)
  else
    let$ p := on_part name_cache with_name_cache (Real c) in
    lift (host_cstr (host_mem c) p).

(** [LinkMap::GetCurrentSymbols()]: those of the mmapped file, else those of the core. *)
Definition GetCurrentSymbols : prog LinkMap (list SymbolEntry) :=
  let$ load := lm_block in
  let$ m := get in
  match load with
  | Some id => if isMmapBlock (lb c id) then pret (mSymbols (lb c id)) else pret (dynsyms m)
  | None => pret (dynsyms m)
  end.

(** [LinkMap::DlSymEntry(symbol)] and [DlSym]. *)
Definition DlSymEntry (symbol : list Z) : prog LinkMap SymbolEntry :=
  let$ symbols := GetCurrentSymbols in
  pret (match list_find (fun e => sym_name e = symbol) symbols with
        | Some (_, e) => e
        | None => sym_Invalid
        end).

Definition DlSym (symbol : list Z) : prog LinkMap Z :=
  let$ e := DlSymEntry symbol in pret (sym_offset e).

(** The predicate of [DlRegionSymEntry]: the Thumb bit is dropped on ARM. *)
Definition sym_covers (cloc_offset : Z) (e : SymbolEntry) : bool :=
  let offset := if machine =? EM_ARM then Z.land (sym_offset e) (pointer_mask c - 1)
                else sym_offset e in
  if cloc_offset <? offset then false
  else if cloc_offset <? u64 (offset + sym_size e) then true
  else false.

(** [LinkMap::DlRegionSymEntry(addr)]. *)
Definition DlRegionSymEntry (addr : Z) : prog LinkMap SymbolEntry :=
  let$ symbols := GetCurrentSymbols in
  match symbols with
  | [] => pret sym_Invalid
  | _ =>
      let cloc_addr := Z.land addr (vabits_mask c) in
      let$ a := lm_field l_addr in
      if cloc_addr <=? a then pret sym_Invalid else
      let$ a := lm_field l_addr in
      pret (match list_find (fun e => sym_covers (cloc_addr - a) e = true) symbols with
            | Some (_, e) => e
            | None => sym_Invalid
            end)
  end.

(** ["[vdso]"]. *)
Definition VDSO_NAME : list Z := [91; 118; 100; 115; 111; 93].

(** [NiceSymbol] and [LinkMap::NiceMethod(pc, symbol)]; [None]: left unset. *)
Record NiceSymbol := MkNice { nice_symbol : list Z; nice_off : Z; nice_size : Z }.

Definition NiceMethod (pc : Z) : prog LinkMap (option NiceSymbol) :=
  let$ entry := DlRegionSymEntry pc in
  if negb (sym_IsValid entry) then pret None else
  let$ nm := lm_name in
  let$ vdso :=
    (if bool_decide (nm = VDSO_NAME) then pret true
     else let$ a := lm_field l_addr in pret (a =? findAuxv c AT_SYSINFO_EHDR)) in
  if (ELF_ST_TYPE (sym_type entry) =? STT_FUNC)
     || (vdso && (ELF_ST_TYPE (sym_type entry) =? STT_NOTYPE))
  then
    let$ a := lm_field l_addr in
    let nice_offset := u64 (sym_offset entry + a) in
    let nice_offset := if machine =? EM_ARM then Z.land nice_offset (pointer_mask c - 1)
                       else nice_offset in
    pret (Some (MkNice (sym_name entry) nice_offset (sym_size entry)))
  else pret None.
End LinkMaps.
