(* ===== verification/ElfProofs.v ===== *)
(** Properties of the ELF reader (core/api/elf.cpp) against the interface [Presents] of
    target memory: the search of a dynamic table, and which symbols of a symbol table
    [Elf::ReadSymbols] keeps. *)

From Stdlib Require Import ZArith Lia Bool.
From stdpp Require Import base list gmap numbers.
From S2P Require Import Prelude Words Host Blocks Notes CoreApi Segments AddressSpace MemRef Elf.
Open Scope Z_scope.

Section Tables.
Context {M : Machine} (c : CoreApi) (run : Z -> Z -> option (list Z)) `{!Presents c run}.

(** The masked address of record [k] of an array of [sz]-byte records at [a]. *)
Definition rec_addr (a sz : Z) (k : nat) : Z := u64 (a + sz * Z.of_nat k).

(** Pointer-sized fields are masked when they are read. *)
Definition field (bs : list Z) (off n : Z) : Z :=
  le_value (take (Z.to_nat n) (drop (Z.to_nat off) bs)).
Definition pfield (bs : list Z) (off : Z) : Z := Z.land (field bs off 8) (pointer_mask c).

(** Record [k] of the array is readable in [need] bytes and holds [bs]. *)
Definition rec_at (a sz need : Z) (k : nat) (bs : list Z) : Prop :=
  rec_addr a sz k <> 0 /\ run (Z.land (rec_addr a sz k) (vabits_mask c)) need = Some bs.

(** The dynamic table at [a] starts with the entries [E]. *)
Definition dynamic_at (a : Z) (E : list (Z * Z)) : Prop :=
  let T := Elfx_Dynamic_Init bits in
  forall k e, E !! k = Some e -> exists bs,
    rec_at a (Dynamic_THIS T) (d_val T + 8) k bs /\
    e = (pfield bs (d_type T), pfield bs (d_val T)).

Lemma u64_succ a sz k : u64 (rec_addr a sz k + sz) = rec_addr a sz (S k).
Proof. unfold rec_addr. rewrite wrap_add_l by lia. f_equal. lia. Qed.

Lemma rec_range a sz k : 0 <= rec_addr a sz k < 2 ^ 64.
Proof. apply wrap_range. lia. Qed.

Lemma Dynamic_fields :
  bits = 64 \/ bits = 32 ->
  d_type (Elfx_Dynamic_Init bits) = 0 /\ 0 < d_val (Elfx_Dynamic_Init bits) /\
  Dynamic_THIS (Elfx_Dynamic_Init bits) = 2 * d_val (Elfx_Dynamic_Init bits).
Proof. intros [-> | ->]; vm_compute; repeat split; done. Qed.

(** Moving to the next record of an array, from a reference to record [k]. *)
Lemma next_record a sz need k bs r :
  0 < need -> rec_at a sz need k bs -> ref_ok c r -> vaddr r = rec_addr a sz k ->
  exists r', MovePtr c r sz = Ok r' /\ vaddr r' = rec_addr a sz (S k) /\ ref_ok c r'.
Proof.
  intros Hn [Hnz Hrun] Hr Hv.
  pose proof (present_part _ _ 0 1 _ Hrun ltac:(lia) ltac:(lia) ltac:(lia)) as Hp.
  rewrite Z.add_0_r, <- Hv in Hp.
  destruct (present_move r sz _ Hr ltac:(congruence) Hp) as (r' & Hm & Hv' & Hr').
  exists r'. split_and!; [done| |done]. by rewrite Hv', Hv, u64_succ.
Qed.

Lemma dynamic_loop_spec a type z E body k r fuel :
  bits = 64 \/ bits = 32 ->
  dynamic_at a E -> E = take k E ++ body ++ [(0, z)] -> body <> [] ->
  Forall (fun e => fst e <> 0) body ->
  ref_ok c r -> vaddr r = rec_addr a (Dynamic_THIS (Elfx_Dynamic_Init bits)) k ->
  (length body <= fuel)%nat ->
  dynamic_loop fuel c r type
    = Ok (match list_find (fun e => fst e = type) body with
          | Some (_, e) => snd e
          | None => 0
          end).
Proof.
  intros Hbits Ht. pose proof (Dynamic_fields Hbits) as (HT1 & HT2 & HT3).
  assert (Hneed : 0 < d_val (Elfx_Dynamic_Init bits) + 8) by lia.
  revert k r fuel. induction body as [|[t v] body IH]; [done|].
  intros k r fuel HE _ Hnz Hr Hv Hf. destruct fuel as [|fuel]; [cbn in Hf; lia|].
  assert (Hlen : length (take k E) = k).
  { apply length_take_le. destruct (Nat.le_gt_cases k (length E)); [done|].
    apply (f_equal length) in HE. rewrite take_ge in HE by lia.
    rewrite !length_app in HE. cbn in HE. lia. }
  assert (Hk : E !! k = Some (t, v)).
  { rewrite HE, lookup_app_r, Hlen, Nat.sub_diag by lia. done. }
  destruct (Ht k _ Hk) as (bs & Hrec & [= Et Ev]). pose proof Hrec as [Hnz0 Hrun].
  cbn [dynamic_loop].
  destruct (valueOf_field c run r (d_type (Elfx_Dynamic_Init bits))
    (d_val (Elfx_Dynamic_Init bits) + 8) _ Hr
    ltac:(congruence) ltac:(lia) ltac:(lia) ltac:(rewrite Hv; exact Hrun))
    as (r1 & -> & Hv1 & Hr1). cbn [rbind].
  replace (Z.land _ _) with t by exact Et.
  cbn [list_find fst snd]. destruct (Z.eqb_spec t type) as [Htt|Htt].
  - rewrite decide_True by done.
    destruct (valueOf_field c run r1 (d_val (Elfx_Dynamic_Init bits))
    (d_val (Elfx_Dynamic_Init bits) + 8) _ Hr1
      ltac:(congruence) ltac:(lia) ltac:(lia) ltac:(rewrite Hv1, Hv; exact Hrun))
      as (r2 & -> & _). cbn [rbind]. f_equal. symmetry. exact Ev.
  - rewrite decide_False by done.
    destruct (next_record a _ (d_val (Elfx_Dynamic_Init bits) + 8) k bs r1 Hneed Hrec Hr1
      ltac:(congruence))
      as (r2 & -> & Hv2 & Hr2). cbn [rbind].
    pose proof (Forall_inv_tail Hnz) as Hnz'. clear Hnz. rename Hnz' into Hnz.
    assert (HE' : E = take (S k) E ++ body ++ [(0, z)]).
    { rewrite (take_S_r _ _ _ Hk), <- app_assoc. done. }
    assert (exists t' v', head (body ++ [(0, z)]) = Some (t', v') /\
      nz t' = negb (bool_decide (body = []))) as (t' & v' & Hhd & Htz).
    { destruct body as [|[t' v'] body']; [by exists 0, z|].
      exists t', v'. split; [done|]. pose proof (Forall_inv Hnz) as Ht'. cbn in Ht'.
      unfold nz. by destruct (Z.eqb_spec t' 0). }
    assert (Hlen' : length (take (S k) E) = S k).
    { rewrite (take_S_r _ _ _ Hk), length_app, Hlen. cbn. lia. }
    assert (Hk' : E !! S k = Some (t', v')).
    { rewrite HE', lookup_app_r, Hlen', Nat.sub_diag by lia.
      destruct body; cbn in *; congruence. }
    destruct (Ht (S k) _ Hk') as (bs' & [Hnz' Hrun'] & [= Et' Ev']).
    destruct (valueOf_field c run r2 (d_type (Elfx_Dynamic_Init bits))
    (d_val (Elfx_Dynamic_Init bits) + 8) _ Hr2
      ltac:(congruence) ltac:(lia) ltac:(lia) ltac:(rewrite Hv2; exact Hrun'))
      as (r3 & -> & Hv3 & Hr3). cbn [rbind].
    replace (Z.land _ _) with t' by exact Et'. rewrite Htz.
    destruct (bool_decide_reflect (body = [])) as [->|Hne]; cbn [negb]; [done|].
    rewrite (IH (S k) r3 fuel); [|done..|congruence|cbn in Hf; lia].
    destruct (list_find _ body) as [[i e]|]; done.
Qed.
End Tables.

(** * Symbol tables *)

(** A symbol of the table as the code sees it: [st_value], [st_size], [st_info] and the
    name in the string table. *)
Record symrec := MkSym { s_value : Z; s_size : Z; s_info : Z; s_name : list Z }.

Definition defined (s : symrec) : bool := nz (s_value s) && nz (s_size s).
Definition entry_of (s : symrec) : SymbolEntry :=
  MkSymbol (s_value s) (s_info s) (s_size s) (s_name s).

(** What the loop adds for a list of symbols: the defined ones, up to the first defined one
    whose name is skipped. *)
Fixpoint collected (l : list symrec) (acc : list SymbolEntry) : list SymbolEntry :=
  match l with
  | [] => acc
  | s :: t =>
      if defined s then
        if skip_name (s_name s) then acc else collected t (sym_insert (entry_of s) acc)
      else collected t acc
  end.

Lemma collected_stop pre bad post acc :
  defined bad = true -> skip_name (s_name bad) = true ->
  collected (pre ++ bad :: post) acc = collected pre acc.
Proof.
  intros Hd Hs. revert acc. induction pre as [|s pre IH]; intros acc; cbn [app collected].
  - by rewrite Hd, Hs.
  - destruct (defined s); [|by apply IH]. by destruct (skip_name (s_name s)).
Qed.

Lemma collected_all l acc :
  Forall (fun s => skip_name (s_name s) = false) l ->
  collected l acc
    = foldl (fun acc s => if defined s then sym_insert (entry_of s) acc else acc) acc l.
Proof.
  intros H. revert acc. induction H as [|s l Hs _ IH]; intros acc; cbn [collected foldl]; [done|].
  rewrite Hs. by destruct (defined s); rewrite IH.
Qed.

Section Symbols.
Context {M : Machine} (c : CoreApi) (run : Z -> Z -> option (list Z)) `{!Presents c run}.

Lemma pfield_read r off sz bs :
  ref_ok c r -> vaddr r <> 0 -> 0 <= off -> off + 8 <= sz ->
  run (Z.land (vaddr r) (vabits_mask c)) sz = Some bs ->
  exists r', valueOf c r off = Ok (r', pfield c bs off) /\ vaddr r' = vaddr r /\ ref_ok c r'.
Proof. apply valueOf_field, _. Qed.

Lemma field_read r off n sz bs :
  ref_ok c r -> vaddr r <> 0 -> 0 <= off -> 0 < n -> off + n <= sz ->
  run (Z.land (vaddr r) (vabits_mask c)) sz = Some bs ->
  exists r', load_at c r off n = Ok (r', field bs off n) /\ vaddr r' = vaddr r /\ ref_ok c r'.
Proof.
  intros H1 H2 H3 H4 H5 H6.
  destruct (load_field c run r off n sz bs H1 H2 H3 H4 H5 H6) as (r' & H & ? & ? & _). eauto.
Qed.

Lemma Sym_fields :
  bits = 64 \/ bits = 32 ->
  let T := Elfx_Sym_Init bits in
  0 <= st_name T /\ 0 <= st_value T /\ 0 <= st_size T /\ 0 <= st_info T /\
  st_name T + 4 <= Sym_THIS T /\ st_value T + 8 <= Sym_THIS T /\
  st_size T + 8 <= Sym_THIS T /\ st_info T + 1 <= Sym_THIS T /\ 0 < Sym_THIS T.
Proof. intros [-> | ->]; vm_compute; repeat split; discriminate || done. Qed.

(** The string at offset [nm] of a string table of [n] bytes at [tab]. *)
Definition string_at (tab : Z) (strs : list Z) (nm : Z) (s : list Z) : Prop :=
  0 <= nm /\ cstr_of (drop (Z.to_nat nm) strs) = Some s /\
  u64 (tab + nm) <> 0 /\ u64 (tab + nm) < pointer_mask c /\
  Z.land (u64 (tab + nm)) (vabits_mask c) = Z.land tab (vabits_mask c) + nm.

(** The table at [a] holds the symbols [l], named from the string table at [tab]. *)
Definition symbols_at (a tab : Z) (strs : list Z) (l : list symrec) : Prop :=
  let T := Elfx_Sym_Init bits in
  forall k s, l !! k = Some s -> exists bs,
    rec_at c run a (Sym_THIS T) (Sym_THIS T) k bs /\
    s_value s = pfield c bs (st_value T) /\
    s_size s = pfield c bs (st_size T) /\
    (defined s = true ->
      s_info s = field bs (st_info T) 1 /\
      string_at tab strs (field bs (st_name T) 4) (s_name s)).

(** One name of the string table, found through the reference to its start. *)
Lemma name_read tables strs nm s n id :
  ref_ok c tables -> ref_block tables = Some id ->
  run (Z.land (vaddr tables) (vabits_mask c)) n = Some strs ->
  string_at (vaddr tables) strs nm s ->
  virtualContains (lb c id) (u64 (vaddr tables + nm)) = true /\
  (pointer_mask c <=? u64 (vaddr tables + nm)) = false /\
  exists r' p, Real c (ref_at (u64 (vaddr tables + nm))) = Ok (r', p) /\
    host_cstr (host_mem c) p = Ok s.
Proof.
  intros Hr Hid Hrun (Hnm & Hs & Hnz & Hlt & Hmask).
  pose proof (present_length _ _ _ Hrun) as Hlen.
  assert (Hn : nm < n).
  { destruct (Z.lt_ge_cases nm n); [done|]. by rewrite drop_ge in Hs by lia. }
  split_and!.
  - by apply (present_contains tables id n nm strs).
  - by apply Z.leb_gt.
  - assert (Hok : ref_ok c (ref_at (u64 (vaddr tables + nm)))).
    { split; [apply wrap_range; lia|done]. }
    pose proof (present_part _ _ nm (n - nm) _ Hrun Hnm ltac:(lia) ltac:(lia)) as Hp.
    rewrite <- Hmask in Hp.
    apply (present_cstr _ _ _ s Hok Hnz Hp).
    rewrite take_ge; [done|]. rewrite length_drop. lia.
Qed.

(** From a skipped symbol on, every iteration reads that symbol again. *)
Lemma symbol_loop_stuck n a tab strs l k s tables id sz r m :
  bits = 64 \/ bits = 32 -> symbols_at a tab strs l -> l !! k = Some s ->
  defined s = true -> skip_name (s_name s) = true ->
  vaddr tables = tab -> ref_ok c tables -> ref_block tables = Some id ->
  run (Z.land tab (vabits_mask c)) sz = Some strs ->
  ref_ok c r -> vaddr r = rec_addr a (Sym_THIS (Elfx_Sym_Init bits)) k ->
  symbol_loop c n tables r (Sym_THIS (Elfx_Sym_Init bits)) m = (m, Ok tt).
Proof.
  intros Hb Hs Hk Hd Hskip <- Ht Hid Hstr.
  pose proof (Sym_fields Hb) as (T1 & T2 & T3 & T4 & T5 & T6 & T7 & T8 & T9).
  set (T := Elfx_Sym_Init bits) in *.
  destruct (Hs k s Hk) as (bs & [Hnz Hrun] & Hval & Hsz & Hdef). fold T in Hnz, Hrun, Hval, Hsz, Hdef.
  destruct (Hdef Hd) as [Hinfo Hname]. unfold defined in Hd. apply andb_true_iff in Hd as [Hd1 Hd2].
  destruct (name_read _ _ _ _ _ _ Ht Hid Hstr Hname) as (Hvc & Hpm & r' & p & Hreal & Hcs).
  revert r. induction n as [|n IH]; intros r Hr Hv; [done|]. cbn [symbol_loop].
  fold T. unfold pbind, lift.
  destruct (pfield_read r (st_value T) (Sym_THIS T) bs Hr ltac:(congruence) T2 T6
    ltac:(by rewrite Hv)) as (r1 & -> & Hv1 & Hr1).
  rewrite <- Hval, Hd1.
  destruct (pfield_read r1 (st_size T) (Sym_THIS T) bs Hr1 ltac:(congruence) T3 T7
    ltac:(by rewrite Hv1, Hv)) as (r2 & -> & Hv2 & Hr2).
  rewrite <- Hsz, Hd2. cbn [andb].
  unfold value32Of.
  destruct (field_read r2 (st_name T) 4 (Sym_THIS T) bs Hr2 ltac:(congruence) T1
    ltac:(lia) T5 ltac:(by rewrite Hv2, Hv1, Hv)) as (r3 & -> & Hv3 & Hr3). cbn [ref_at vaddr].
  rewrite Hpm, Hid, Hvc. cbn [negb]. unfold value8Of.
  destruct (field_read r3 (st_info T) 1 (Sym_THIS T) bs Hr3 ltac:(congruence) T4
    ltac:(lia) T8 ltac:(by rewrite Hv3, Hv2, Hv1, Hv)) as (r4 & -> & Hv4 & Hr4).
  rewrite Hreal. cbn [snd]. rewrite Hcs, Hskip. apply IH; congruence.
Qed.

Lemma symbol_loop_spec rest a tab strs l k tables id sz r m :
  bits = 64 \/ bits = 32 -> symbols_at a tab strs l -> drop k l = rest ->
  vaddr tables = tab -> ref_ok c tables -> ref_block tables = Some id ->
  run (Z.land tab (vabits_mask c)) sz = Some strs ->
  ref_ok c r -> vaddr r = rec_addr a (Sym_THIS (Elfx_Sym_Init bits)) k ->
  exists m', symbol_loop c (length rest) tables r (Sym_THIS (Elfx_Sym_Init bits)) m
    = (m', Ok tt) /\ m' = with_dynsyms m (collected rest (dynsyms m)).
Proof.
  intros Hb Hs. revert k r m. induction rest as [|s rest IH];
    intros k r m Hk Htab Ht Hid Hstr Hr Hv; [exists m; by destruct m|].
  assert (Hsk : l !! k = Some s).
  { rewrite <- (Nat.add_0_r k), <- lookup_drop, Hk. done. }
  assert (Hk' : drop (S k) l = rest).
  { replace (S k) with (k + 1)%nat by lia. rewrite <- drop_drop, Hk. done. }
  cbn [collected length].
  destruct (defined s && skip_name (s_name s)) eqn:Hstuck.
  { apply andb_true_iff in Hstuck as [Hd Hskip]. rewrite Hd, Hskip.
    exists m. split; [|by destruct m].
    by apply (symbol_loop_stuck (S (length rest)) a tab strs l k s _ id sz). }
  pose proof (Sym_fields Hb) as (T1 & T2 & T3 & T4 & T5 & T6 & T7 & T8 & T9).
  set (T := Elfx_Sym_Init bits) in *.
  destruct (Hs k s Hsk) as (bs & Hrec & Hval & Hsz & Hdef).
  fold T in Hrec, Hval, Hsz, Hdef. pose proof Hrec as [Hnz Hrun].
  cbn [symbol_loop]. fold T. cbn zeta.
  destruct (pfield_read r (st_value T) (Sym_THIS T) bs Hr ltac:(congruence) T2 T6
    ltac:(by rewrite Hv)) as (r1 & E1 & Hv1 & Hr1). rewrite <- Hval in E1.
  erewrite pbind_lift by exact E1. cbn beta iota.
  assert (Hsize : exists r2 z, (if nz (s_value s) then lift (valueOf c r1 (st_size T))
      else pret (r1, 0)) m = (m, Ok (r2, z)) /\
      vaddr r2 = vaddr r1 /\ ref_ok c r2 /\ nz (s_value s) && nz z = defined s /\
      (defined s = true -> z = s_size s)).
  { unfold defined. destruct (nz (s_value s)) eqn:E.
    - destruct (pfield_read r1 (st_size T) (Sym_THIS T) bs Hr1 ltac:(congruence) T3 T7
        ltac:(by rewrite Hv1, Hv)) as (r2 & -> & Hv2 & Hr2). rewrite <- Hsz. eauto 10.
    - exists r1, 0. done. }
  destruct Hsize as (r2 & z & E2 & Hv2 & Hr2 & Hdz & Hz).
  erewrite pbind_Ok by exact E2. cbn beta iota. rewrite Hdz.
  destruct (defined s) eqn:Hd.
  - destruct (Hdef eq_refl) as [Hinfo Hname]. rewrite <- Htab in Hstr, Hname.
    destruct (name_read _ _ _ _ _ _ Ht Hid Hstr Hname) as (Hvc & Hpm & r' & p & Hreal & Hcs).
    destruct (field_read r2 (st_name T) 4 (Sym_THIS T) bs Hr2 ltac:(congruence) T1
      ltac:(lia) T5 ltac:(by rewrite Hv2, Hv1, Hv)) as (r3 & E3 & Hv3 & Hr3).
    erewrite pbind_lift by exact E3. cbn beta iota.
    cbn [ref_at vaddr]. rewrite Hpm, Hid, Hvc. cbn [negb].
    destruct (field_read r3 (st_info T) 1 (Sym_THIS T) bs Hr3 ltac:(congruence) T4
      ltac:(lia) T8 ltac:(by rewrite Hv3, Hv2, Hv1, Hv)) as (r4 & E4 & Hv4 & Hr4).
    erewrite pbind_lift by exact E4. cbn beta iota.
    erewrite pbind_lift by exact Hreal. cbn [snd].
    erewrite pbind_lift by exact Hcs. cbn [andb] in Hstuck. rewrite Hstuck.
    erewrite pbind_Ok by reflexivity. rewrite <- Hinfo, (Hz eq_refl).
    destruct (next_record c run a _ (Sym_THIS T) k bs r4 T9 Hrec Hr4 ltac:(congruence))
      as (r5 & E5 & Hv5 & Hr5).
    erewrite pbind_lift by exact E5. rewrite Htab in Hstr.
    destruct (IH (S k) r5 (with_dynsyms m (sym_insert (entry_of s) (dynsyms m))))
      as (m' & Hloop & ->); [done..|]. eexists. by split; [exact Hloop|].
  - destruct (next_record c run a _ (Sym_THIS T) k bs r2 T9 Hrec Hr2 ltac:(congruence))
      as (r5 & E5 & Hv5 & Hr5).
    erewrite pbind_lift by exact E5.
    destruct (IH (S k) r5 m) as (m' & Hloop & ->); [done..|]. eauto.
Qed.
End Symbols.

(** * Properties *)

(** on a dynamic table that ends with a DT_NULL entry (and does not start with it),
    [FindDynamicEntry] terminates and returns the value of the first entry of the wanted
    type, or 0 when the table has none; 32-bit and 64-bit layouts. *)
Theorem FindDynamicEntry_spec {M : Machine} c run `{!Presents c run} d type body z fuel :
  bits = 64 \/ bits = 32 -> 0 < vaddr d -> ref_ok c d ->
  dynamic_at c run (vaddr d) (body ++ [(0, z)]) -> body <> [] ->
  Forall (fun e => fst e <> 0) body -> (length body <= fuel)%nat ->
  exists d', FindDynamicEntry fuel c d type
    = Ok (d', match list_find (fun e => fst e = type) body with
              | Some (_, e) => snd e
              | None => 0
              end) /\ vaddr d' = vaddr d /\ ref_ok c d'.
Proof.
  intros Hbits Hd Hr Ht Hne Hnz Hf. pose proof Hr as [Hrange _].
  pose proof (Dynamic_fields Hbits) as (HT1 & HT2 & HT3).
  assert (Ha : forall sz, vaddr d = rec_addr (vaddr d) sz 0).
  { intros sz. unfold rec_addr. rewrite wrap_small by lia. lia. }
  destruct (body ++ [(0, z)]) as [|e0 E'] eqn:EE; [by destruct body|].
  destruct (Ht 0%nat e0 eq_refl) as (bs & [_ Hrun] & _). rewrite <- Ha in Hrun.
  pose proof (present_part _ _ 0 1 _ Hrun ltac:(lia) ltac:(lia) ltac:(cbn in *; lia)) as Hp.
  rewrite Z.add_0_r in Hp.
  destruct (present_valid d _ Hr ltac:(lia) Hp) as (d' & Hval & Hv & Hr').
  exists d'. split_and!; [|done..]. unfold FindDynamicEntry. rewrite Hval. cbn [rbind].
  rewrite (dynamic_loop_spec c run (vaddr d) type z (e0 :: E') body 0); try done.
  by rewrite Hv.
Qed.

(** what [Elf::ReadSymbols] keeps of a symbol table. Its loop terminates, reads only the
    table and its string table, and adds the symbols with a non-zero value and size in
    table order; but because [continue] skips [symbols.MovePtr(syment)], it stops at the
    first of them whose name begins with '$' or '.': no later symbol is ever added. When
    there is no such name every defined symbol is added. *)
Theorem ReadSymbols_collects {M : Machine} c run `{!Presents c run}
    symbols tables strs l id sz m :
  bits = 64 \/ bits = 32 ->
  symbols_at c run (vaddr symbols) (vaddr tables) strs l ->
  run (Z.land (vaddr tables) (vabits_mask c)) sz = Some strs ->
  ref_ok c symbols -> ref_ok c tables -> ref_block tables = Some id ->
  exists m', symbol_loop c (length l) tables symbols (Sym_THIS (Elfx_Sym_Init bits)) m
      = (m', Ok tt) /\
    dynsyms m' = collected l (dynsyms m) /\
    (forall pre bad post, l = pre ++ bad :: post -> defined bad = true ->
       skip_name (s_name bad) = true -> dynsyms m' = collected pre (dynsyms m)) /\
    (Forall (fun s => skip_name (s_name s) = false) l ->
       dynsyms m' = foldl (fun acc s => if defined s then sym_insert (entry_of s) acc else acc)
                      (dynsyms m) l).
Proof.
  intros Hb Hs Hstr Hr Ht Hid.
  destruct (symbol_loop_spec c run l (vaddr symbols) (vaddr tables) strs l 0 tables id sz
    symbols m) as (m' & Hl & ->); try done.
  { unfold rec_addr. rewrite wrap_small by (destruct Hr; lia). lia. }
  exists (with_dynsyms m (collected l (dynsyms m))). split_and!; [done|done| |].
  - intros pre bad post -> Hd Hskip. cbn. apply collected_stop; done.
  - intros Hall. cbn. by apply collected_all.
Qed.

(** ** Witnesses

    A 64-bit dynamic table at 0x1000 with DT_STRTAB and DT_SYMTAB entries, and a symbol
    table of three symbols "a", "$x" and "b" with its string table. *)
Definition demo_dynamic : list Z :=
  le_bytes 8 5 ++ le_bytes 8 0x2000 ++ le_bytes 8 6 ++ le_bytes 8 0x1040 ++
  le_bytes 8 0 ++ le_bytes 8 0.

Definition demo_sym (nm value sz info : Z) : list Z :=
  le_bytes 4 nm ++ [info; 0; 0; 0] ++ le_bytes 8 value ++ le_bytes 8 sz.
Definition demo_strs : list Z := [0; 97; 0; 36; 120; 0; 98; 0].
Definition demo_syms : list Z :=
  demo_sym 1 0x500 8 0x12 ++ demo_sym 3 0x600 8 0x10 ++ demo_sym 6 0x700 8 0x12 ++ demo_strs.

Lemma FindDynamicEntry_spec_witness :
  let c := one_core 0x1000 demo_dynamic in
  exists d', @FindDynamicEntry x86_64_Core 2 c (ref_at 0x1000) DT_SYMTAB = Ok (d', 0x1040).
Proof.
  cbn zeta.
  destruct (@FindDynamicEntry_spec x86_64_Core (one_core 0x1000 demo_dynamic)
    (target_run (one_core 0x1000 demo_dynamic))
    (one_presents 0x1000 demo_dynamic ltac:(cbn; lia) ltac:(cbn; lia))
    (ref_at 0x1000) DT_SYMTAB [(5, 0x2000); (6, 0x1040)] 0 2) as (d' & H & _).
  - by left.
  - reflexivity.
  - split; [cbn; lia|done].
  - intros [|[|[|k]]] e He; try done; injection He as <-; eexists;
      (split; [split; [vm_compute; discriminate|vm_compute; reflexivity]|
               vm_compute; reflexivity]).
  - discriminate.
  - repeat constructor; cbn; discriminate.
  - cbn. lia.
  - exists d'. exact H.
Defined.

Lemma ReadSymbols_collects_witness :
  let c := one_core 0x1000 demo_syms in
  let m := MkLinkMap (ref_at 0) (ref_at 0) (ref_at 0) [] in
  exists m', @symbol_loop x86_64_Core c 3 (MkRef 0x1048 (Some 0%nat)) (ref_at 0x1000) 24 m
      = (m', Ok tt) /\ dynsyms m' = [MkSymbol 0x500 0x12 8 [97]].
Proof.
  cbn zeta.
  destruct (@ReadSymbols_collects x86_64_Core (one_core 0x1000 demo_syms)
    (target_run (one_core 0x1000 demo_syms))
    (one_presents 0x1000 demo_syms ltac:(cbn; lia) ltac:(cbn; lia))
    (ref_at 0x1000) (MkRef 0x1048 (Some 0%nat)) demo_strs
    [MkSym 0x500 8 0x12 [97]; MkSym 0x600 8 0x10 [36; 120]; MkSym 0x700 8 0x12 [98]]
    0%nat 8 (MkLinkMap (ref_at 0) (ref_at 0) (ref_at 0) [])) as (m' & H1 & H2 & _).
  - by left.
  - intros [|[|[|k]]] s Hs; try done; injection Hs as <-; eexists;
      (split; [split; [vm_compute; discriminate|vm_compute; reflexivity]|]);
      (split_and!; [vm_compute; reflexivity..|]); intros _;
      (split; [vm_compute; reflexivity|]);
      (split_and!; vm_compute; reflexivity || discriminate).
  - vm_compute. reflexivity.
  - split; [cbn; lia|done].
  - split; [cbn; lia|]. intros id [= <-]. vm_compute. reflexivity.
  - reflexivity.
  - exists m'. split; [exact H1|]. rewrite H2. vm_compute. reflexivity.
Defined.
