(* ===== verification/CoreLoad.v ===== *)
(** Loading a core file: core/lp64/core.cpp and core/lp32/core.cpp (the same code at two
    word sizes, here over a [Layout] with two instances), the note callbacks of the
    machine classes (core/arm64/core.cpp, core/x86_64/core.cpp, core/riscv64/core.cpp,
    core/arm/core.cpp, core/x86/core.cpp), the entry point [CoreApi::Load] of
    core/api/core.cpp, the link-map walk, and the mapping of the files of the target's
    modules over its segments. *)

From Stdlib Require Import ZArith Lia Bool.
From stdpp Require Import base list gmap numbers.
From S2P Require Import Prelude Words Host Blocks Notes CoreApi Segments AddressSpace MemRef Elf.
Open Scope Z_scope.

(** * The file structures (compat/linux/elf.h, core/lp64/core.h, core/lp32/core.h) *)

(** Offsets and sizes of the fields the loader reads; [lw] is the size of an address. *)
Class Layout := {
  lw : Z;
  eh_phoff : Z; eh_shoff : Z; eh_phnum : Z; eh_shnum : Z; eh_shstrndx : Z; eh_size : Z;
  ph_type : Z; ph_flags : Z; ph_offset : Z; ph_vaddr : Z; ph_paddr : Z; ph_filesz : Z;
  ph_memsz : Z; ph_align : Z; ph_size : Z;
  sh_name : Z; sh_type : Z; sh_offset : Z; sh_size : Z; sh_info : Z; sh_entsize : Z;
  sh_bytes : Z;
  sy_name : Z; sy_value : Z; sy_size : Z; sy_info : Z; sy_bytes : Z;
}.

Definition Elf64 : Layout := {|
  lw := 8;
  eh_phoff := 32; eh_shoff := 40; eh_phnum := 56; eh_shnum := 60; eh_shstrndx := 62;
  eh_size := 64;
  ph_type := 0; ph_flags := 4; ph_offset := 8; ph_vaddr := 16; ph_paddr := 24;
  ph_filesz := 32; ph_memsz := 40; ph_align := 48; ph_size := 56;
  sh_name := 0; sh_type := 4; sh_offset := 24; sh_size := 32; sh_info := 44;
  sh_entsize := 56; sh_bytes := 64;
  sy_name := 0; sy_value := 8; sy_size := 16; sy_info := 4; sy_bytes := 24 |}.

Definition Elf32 : Layout := {|
  lw := 4;
  eh_phoff := 28; eh_shoff := 32; eh_phnum := 44; eh_shnum := 48; eh_shstrndx := 50;
  eh_size := 52;
  ph_type := 0; ph_flags := 24; ph_offset := 4; ph_vaddr := 8; ph_paddr := 12;
  ph_filesz := 16; ph_memsz := 20; ph_align := 28; ph_size := 32;
  sh_name := 0; sh_type := 4; sh_offset := 16; sh_size := 20; sh_info := 28;
  sh_entsize := 36; sh_bytes := 40;
  sy_name := 0; sy_value := 4; sy_size := 8; sy_info := 12; sy_bytes := 16 |}.

Definition PN_XNUM : Z := 0xffff.
Definition ET_DYN : Z := 3.
Definition ET_CORE : Z := 4.
Definition SHT_NOBITS : Z := 8.
Definition NT_PRSTATUS : Z := 1.
Definition NT_FPREGSET : Z := 2.
Definition NT_AUXV : Z := 6.
Definition NT_FILE : Z := 0x46494c45.
Definition NT_ARM_TLS : Z := 0x401.
Definition NT_ARM_PAC_MASK : Z := 0x406.
Definition NT_ARM_TAGGED_ADDR_CTRL : Z := 0x409.
Definition NT_ARM_PAC_ENABLED_KEYS : Z := 0x40A.
Definition sizeof_Nhdr : Z := 12.

(** * Notes *)

(** The callback of a machine's [load]: the thread an NT_PRSTATUS note describes, and what
    any other note does to the core and to the thread seen last. *)
Class NoteCallback := {
  cb_prstatus : CoreApi -> Z -> result ThreadApi;
  cb_note : CoreApi -> Z -> Z -> option ThreadApi -> result (CoreApi * option ThreadApi);
}.

(** [ThreadInfo(prs->pr_pid, args.pos)] with the registers copied: [pid_off], [reg_off]
    are the offsets of pr_pid and pr_reg, [reg_size] is sizeof(Register). *)
Definition thread_of_prstatus (pid_off reg_off reg_size : Z) (c : CoreApi) (pos : Z)
    : result ThreadApi :=
  let! pid := host_word (host_mem c) (u64 (pos + pid_off)) 4 in
  let! regs := host_load (host_mem c) (u64 (pos + reg_off)) reg_size in
  Ok (MkThread (i32 pid) pos regs [] []).

(** The machines whose callback only knows NT_PRSTATUS. *)
Definition plain_callback (pid_off reg_off reg_size : Z) : NoteCallback := {|
  cb_prstatus := thread_of_prstatus pid_off reg_off reg_size;
  cb_note c _ _ t := Ok (c, t) |}.
Definition x86_64_callback : NoteCallback := plain_callback 32 112 216.
Definition riscv64_callback : NoteCallback := plain_callback 32 112 256.
Definition arm_callback : NoteCallback := plain_callback 24 72 68.
Definition x86_callback : NoteCallback := plain_callback 24 72 68.

(** [__builtin_ctzll]: undefined on 0. *)
Fixpoint ctz_loop (n : nat) (x k : Z) : result Z :=
  match n with
  | O => Fault
  | S m => if Z.testbit x k then Ok k else ctz_loop m x (k + 1)
  end.
Definition ctzll (x : Z) : result Z := ctz_loop 64 x 0.

(** The callback of [arm64::Core::load]; the words of the PAC and tag notes that are only
    stored are read and dropped. *)
Definition arm64_note (c : CoreApi) (type pos : Z) (t : option ThreadApi)
    : result (CoreApi * option ThreadApi) :=
  let h := host_mem c in
  if type =? NT_FPREGSET then
    match t with
    | Some t =>
        let! fpr := host_load h pos 528 in
        Ok (c, Some (MkThread (mPid t) (mPrs t) (t_reg t) fpr (t_tls t)))
    | None => Ok (c, None)
    end
  else if type =? NT_ARM_TLS then
    match t with
    | Some t =>
        let! tls := host_load h pos 16 in
        Ok (c, Some (MkThread (mPid t) (mPrs t) (t_reg t) (t_fpr t) tls))
    | None => Ok (c, None)
    end
  else if type =? NT_ARM_PAC_MASK then
    let! data_mask := host_word h pos 8 in
    let! _ := host_word h (u64 (pos + 8)) 8 in
    let! k := ctzll data_mask in
    Ok (with_masks c (pointer_mask c) (GENMASK_UL (k - 1) 0), t)
  else if (type =? NT_ARM_TAGGED_ADDR_CTRL) || (type =? NT_ARM_PAC_ENABLED_KEYS) then
    let! _ := host_word h pos 8 in Ok (c, t)
  else Ok (c, t).

Definition arm64_callback : NoteCallback := {|
  cb_prstatus := thread_of_prstatus 32 112 272;
  cb_note := arm64_note |}.

(** Updates the thread of index [i] of a note, which the callback reached by pointer. *)
Definition with_thread (b : NoteBlock) (i : option nat) (t : option ThreadApi) : NoteBlock :=
  match i, t with
  | Some i, Some t =>
      MkNoteBlock b (<[i := t]> (mThread b)) (mAuxv b) (mFile b) (mAuxvMax b)
  | _, _ => b
  end.

Section Load.
Context {L : Layout} {CB : NoteCallback}.

(** The NT_AUXV loop: entries up to and including AT_NULL. *)
Fixpoint auxv_loop (n : nat) (h : host) (addr : Z) (b : NoteBlock) : result NoteBlock :=
  match n with
  | O => Ok b
  | S m =>
      let! type := host_word h addr lw in
      let! value := host_word h (u64 (addr + lw)) lw in
      let b' := addAuxvItem addr type value b in
      if nz type then auxv_loop m h (u64 (addr + 2 * lw)) b' else Ok b'
  end.

(** The NT_FILE loop; the names follow the table as NUL-terminated strings. *)
Fixpoint file_loop (n : nat) (h : host) (file name_base : Z) (b : NoteBlock)
    : result NoteBlock :=
  match n with
  | O => Ok b
  | S m =>
      let! fb := host_word h file lw in
      let! fe := host_word h (u64 (file + lw)) lw in
      let! fo := host_word h (u64 (file + 2 * lw)) lw in
      let! nm := host_cstr h name_base in
      file_loop m h (u64 (file + 3 * lw)) (u64 (name_base + Z.of_nat (length nm) + 1))
        (addFileItem fb fe fo nm b)
  end.

(** One note at [pos]; [last] is the index of the thread [last_context] points to. *)
Definition parse_note (c : CoreApi) (b : NoteBlock) (last : option nat) (pos : Z)
    : result (CoreApi * NoteBlock * option nat * Z) :=
  let h := host_mem c in
  let! namesz := host_word h pos 4 in
  let! descsz := host_word h (u64 (pos + 4)) 4 in
  let! type := host_word h (u64 (pos + 8)) 4 in
  let item_pos := if descsz =? 0 then 0
                  else u64 (pos + sizeof_Nhdr + RoundUp 32 namesz 4) in
  let! '(c, b, last) :=
    (if type =? NT_PRSTATUS then
       let! t := cb_prstatus c item_pos in
       let b' := addThreadItem (Some t) b in
       Ok (c, b', Some (length (mThread b)))
     else if type =? NT_AUXV then
       let numauxv := descsz / (2 * lw) in
       let! b' := auxv_loop (Z.to_nat numauxv) h item_pos (setAuxvMaxCount numauxv b) in
       Ok (c, b', last)
     else if type =? NT_FILE then
       let! numfile := host_word h item_pos lw in
       let! _ := host_word h (u64 (item_pos + lw)) lw in
       let file := u64 (item_pos + 2 * lw) in
       let! b' := file_loop (Z.to_nat numfile) h file (u64 (file + 3 * lw * numfile)) b in
       Ok (c, b', last)
     else
       let t := match last with Some i => mThread b !! i | None => None end in
       let! '(c', t') := cb_note c type item_pos t in
       Ok (c', with_thread b last t', last)) in
  Ok (c, b, last,
      u64 (pos + sizeof_Nhdr + RoundUp 32 namesz 4 + RoundUp 32 descsz 4)).

(** The [while (pos < end)] loop over the notes. *)
Fixpoint note_loop (fuel : nat) (c : CoreApi) (b : NoteBlock) (last : option nat)
    (pos end_ : Z) : result (CoreApi * NoteBlock) :=
  match fuel with
  | O => OutOfFuel
  | S n =>
      if pos <? end_ then
        let! '(c', b', last', pos') := parse_note c b last pos in
        note_loop n c' b' last' pos' end_
      else Ok (c, b)
  end.

(** The fields of the program header at [p]. *)
Definition read_phdr (h : host) (p : Z) : result (Z * (Z * Z * Z * Z * Z * Z * Z)) :=
  let w off n := host_word h (u64 (p + off)) n in
  let! t := w ph_type 4 in
  let! f := w ph_flags 4 in
  let! off := w ph_offset lw in
  let! va := w ph_vaddr lw in
  let! pa := w ph_paddr lw in
  let! fsz := w ph_filesz lw in
  let! msz := w ph_memsz lw in
  let! al := w ph_align lw in
  Ok (t, (f, off, va, pa, fsz, msz, al)).

(** The PT_LOAD case of [load64]/[load32]. *)
Definition load_segment (c : CoreApi) (ph : Z * Z * Z * Z * Z * Z * Z) : CoreApi :=
  let '(f, off, va, pa, fsz, msz, al) := ph in
  let b := NewLoadBlock_obj f off va pa fsz msz al in
  let b := setTruncated (mSize (mCore c) <? u64 (mOffset b + mFileSize b)) b in
  let b := setOriAddr (u64 (mBegin (mCore c) + mOffset b)) b in
  addLoadBlock c (setPointMask (pointer_mask c) (setVabitsMask (vabits_mask c) b)).

(** The PT_NOTE case: an empty or truncated note is dropped. *)
Definition load_note (c : CoreApi) (ph : Z * Z * Z * Z * Z * Z * Z) : result CoreApi :=
  let '(f, off, va, pa, fsz, msz, al) := ph in
  let b := NewNoteBlock f off va pa fsz msz al in
  let b := note_on_block
             (setTruncated_block (mSize (mCore c) <? u64 (mOffset b + mFileSize b))) b in
  if negb (isValidBlock b) then Ok c else
  let b := note_on_block (setOriAddr_block (u64 (mBegin (mCore c) + mOffset b))) b in
  let pos := mOriAddr b in
  let end_ := u64 (mOriAddr b + mFileSize b) in
  let! '(c', b') := note_loop (S (Z.to_nat (end_ - pos))) c b None pos end_ in
  Ok (addNoteBlock c' b').

(** The loop over the program headers, [n] left, the next one at [p]. *)
Fixpoint phdrs_loop (n : nat) (c : CoreApi) (p : Z) : result CoreApi :=
  match n with
  | O => Ok c
  | S m =>
      let! '(type, ph) := read_phdr (host_mem c) p in
      let! c' := (if type =? PT_LOAD then Ok (load_segment c ph)
                  else if type =? PT_NOTE then load_note c ph
                  else Ok c) in
      phdrs_loop m c' (u64 (p + ph_size))
  end.

(** [load64(api, callback)] and [load32(api, callback)]. *)
Definition load (c : CoreApi) : result (CoreApi * bool) :=
  let h := host_mem c in
  let base := mBegin (mCore c) in
  let! e_phnum := host_word h (u64 (base + eh_phnum)) 2 in
  let! num :=
    (if e_phnum =? PN_XNUM then
       let! e_shnum := host_word h (u64 (base + eh_shnum)) 2 in
       if e_shnum =? 0 then Ok None
       else
         let! shoff := host_word h (u64 (base + eh_shoff)) lw in
         let! info := host_word h (u64 (base + shoff + sh_info)) 4 in
         Ok (Some (i32 info))
     else Ok (Some e_phnum)) in
  match num with
  | None => Ok (c, false)
  | Some actual_phnum =>
      let! c' := phdrs_loop (Z.to_nat actual_phnum) c (u64 (base + eh_size)) in
      Ok (c', true)
  end.
End Load.

(** [lp64::Core::load64] and [lp32::Core::load32]. *)
Definition load64 (CB : NoteCallback) (c : CoreApi) : result (CoreApi * bool) :=
  load (L := Elf64) (CB := CB) c.
Definition load32 (CB : NoteCallback) (c : CoreApi) : result (CoreApi * bool) :=
  load (L := Elf32) (CB := CB) c.

(** * Machines *)

(** [Core::load()] of the machine classes; [VA_BITS] is the command-line setting of
    [CoreApi] (0: default). *)
Definition DEF_VA_BITS : Z := 39.
Definition arm64_load (VA_BITS : Z) (c : CoreApi) : result (CoreApi * bool) :=
  let va := if nz VA_BITS then VA_BITS else DEF_VA_BITS in
  load64 arm64_callback
    (with_masks c (GENMASK_UL (64 - 1) 0) (GENMASK_UL (va - 1) 0)).
Definition x86_64_load (c : CoreApi) : result (CoreApi * bool) :=
  load64 x86_64_callback
    (with_masks c (GENMASK_UL (64 - 1) 0) (GENMASK_UL (64 - 1) 0)).
Definition riscv64_load (c : CoreApi) : result (CoreApi * bool) :=
  load64 riscv64_callback
    (with_masks c (GENMASK_UL (64 - 1) 0) (GENMASK_UL (64 - 1) 0)).
Definition arm_load (c : CoreApi) : result (CoreApi * bool) :=
  load32 arm_callback
    (with_masks c (GENMASK_UL (32 - 1) 0) (GENMASK_UL (32 - 1) 0)).
Definition x86_load (c : CoreApi) : result (CoreApi * bool) :=
  load32 x86_callback
    (with_masks c (GENMASK_UL (32 - 1) 0) (GENMASK_UL (32 - 1) 0)).

(** [INSTANCE->mRemote = remote]. *)
Definition set_remote (c : CoreApi) (remote : bool) : CoreApi :=
  MkCore (mCore c) (pointer_mask c) (vabits_mask c) (page_size c) (mLoad c) (mQuickLoad c)
    (mNote c) (mLinkMaps c) remote (QUICK_LOAD_ENABLED c) (mBlocks c) (mNext c) (host_mem c) (mDebug c).

(** [CoreApi::Load(map, remote, callback)] of a 64-bit build with no core loaded yet: the
    machine of a core file and the loaded core, [None] for [false]. *)
Definition CoreApi_Load (VA_BITS : Z) (quick remote : bool) (h : host) (map : MemoryMap)
    : result (option (Machine * CoreApi)) :=
  let! ident := host_load h (mBegin map) 4 in
  if negb (bool_decide (ident = ELFMAG)) then Ok None else
  let! type := host_word h (u64 (mBegin map + 16)) 2 in
  if negb (type =? ET_CORE) then Ok None else
  let! mach := host_word h (u64 (mBegin map + 18)) 2 in
  let c := set_remote (NewCore map quick h) remote in
  let finish M (r : result (CoreApi * bool)) :=
    let! '(c', ok) := r in
    if ok : bool then
      let! c'' := bind_files c' (flat_map mFile (mNote c')) in Ok (Some (M, c''))
    else Ok None in
  if mach =? EM_AARCH64 then finish arm64_Core (arm64_load VA_BITS c)
  else if mach =? EM_RISCV then finish riscv64_Core (riscv64_load c)
  else if mach =? EM_X86_64 then finish x86_64_Core (x86_64_load c)
  else if mach =? EM_ARM then finish arm_Core (arm_load c)
  else if mach =? EM_386 then finish x86_Core (x86_load c)
  else Ok None.
