(* ===== verification/LoadProofs.v ===== *)
(** Properties of the loader ([CoreLoad]): it terminates on every input, and the segments
    it builds from the program headers present exactly the bytes of the core file. *)

From Stdlib Require Import ZArith Lia Bool.
From stdpp Require Import base list gmap numbers.
From S2P Require Import Prelude Words Host Blocks Notes CoreApi Segments AddressSpace MemRef Elf.
From S2P Require Import CoreLoad.
Open Scope Z_scope.

(** * Termination *)

Lemma ends_auxv {L : Layout} n h addr b : ends (auxv_loop n h addr b).
Proof. revert addr b. induction n; intros addr b; cbn [auxv_loop]; ends_step. Qed.

Lemma ends_file {L : Layout} n h file nb b : ends (file_loop n h file nb b).
Proof. revert file nb b. induction n; intros file nb b; cbn [file_loop]; ends_step. Qed.

#[export] Hint Resolve ends_auxv ends_file : ends_db.

(** A callback that finishes. *)
Class CallbackEnds (CB : NoteCallback) : Prop := {
  cb_prstatus_ends : forall c pos, ends (cb_prstatus c pos);
  cb_note_ends : forall c type pos t, ends (cb_note c type pos t);
  cb_note_core : forall c type pos t c' t', cb_note c type pos t = Ok (c', t') ->
    mCore c' = mCore c;
}.

Lemma ends_ctz n x k : ends (ctz_loop n x k).
Proof. revert k. induction n; intros k; cbn [ctz_loop]; ends_step. Qed.

#[export] Hint Resolve ends_ctz : ends_db.

Lemma ends_prstatus a b n c pos : ends (thread_of_prstatus a b n c pos).
Proof. unfold thread_of_prstatus. ends_step. Qed.

#[export] Instance plain_ends a b n : CallbackEnds (plain_callback a b n).
Proof.
  split; intros; [apply ends_prstatus|apply ends_Ok|]. cbn in *. by simplify_eq.
Qed.

#[export] Instance arm64_ends : CallbackEnds arm64_callback.
Proof.
  split; intros; [apply ends_prstatus| |]; cbn [cb_note arm64_callback] in *;
    unfold arm64_note, ctzll in *; cbn zeta in *; [ends_step|].
  repeat (case_match; res_inv; simplify_eq; try done).
Qed.

Section LoadEnds.
Context {L : Layout} {CB : NoteCallback} {HCB : CallbackEnds CB}.

Lemma ends_parse c b last pos : ends (parse_note c b last pos).
Proof.
  unfold parse_note. cbn zeta.
  pose proof cb_prstatus_ends. pose proof cb_note_ends. ends_step; auto with ends_db.
Qed.

(** Every note advances the cursor by at least the size of its header. *)
Lemma parse_note_advances c b last pos c' b' last' pos' :
  0 <= pos -> pos + 2 ^ 34 <= 2 ^ 64 ->
  parse_note c b last pos = Ok (c', b', last', pos') ->
  pos + sizeof_Nhdr <= pos' < 2 ^ 64.
Proof.
  intros H0 Hp. unfold parse_note. cbn zeta. intros H. res_inv.
  repeat match goal with v : (_ * _)%type |- _ => destruct v end. res_inv. simplify_eq.
  pose proof (RoundUp_bounds 32 v 2 ltac:(lia)) as H1.
  pose proof (RoundUp_bounds 32 v0 2 ltac:(lia)) as H2.
  change (2 ^ 2) with 4 in H1, H2. unfold sizeof_Nhdr in *.
  rewrite wrap_small by lia. lia.
Qed.

Lemma ends_notes fuel c b last pos end_ :
  0 <= pos -> end_ + 2 ^ 34 <= 2 ^ 64 -> end_ - pos < Z.of_nat fuel -> (0 < fuel)%nat ->
  ends (note_loop fuel c b last pos end_).
Proof.
  revert c b last pos. induction fuel as [|n IH]; intros c b last pos H0 He Hf Hn; [lia|].
  cbn [note_loop]. destruct (Z.ltb_spec pos end_) as [Hlt|Hge]; [|done].
  apply ends_bind; [apply ends_parse|]. intros [[[c' b'] last'] pos'] E.
  apply parse_note_advances in E; [|lia..]. unfold sizeof_Nhdr in E.
  destruct n as [|n]; [lia|]. apply IH; lia.
Qed.

Lemma parse_note_core c b last pos c' b' last' pos' :
  parse_note c b last pos = Ok (c', b', last', pos') -> mCore c' = mCore c.
Proof.
  unfold parse_note. cbn zeta. intros H. res_inv. destruct v2 as [[c1 b1] l1].
  res_inv. simplify_eq.
  destruct (_ =? NT_PRSTATUS) in E2; [res_inv; by simplify_eq|].
  destruct (_ =? NT_AUXV) in E2; [res_inv; by simplify_eq|].
  destruct (_ =? NT_FILE) in E2; [res_inv; by simplify_eq|].
  res_inv. destruct v2 as [c2 t2]. res_inv. simplify_eq. by eapply cb_note_core.
Qed.

Lemma note_loop_core fuel c b last pos end_ c' b' :
  note_loop fuel c b last pos end_ = Ok (c', b') -> mCore c' = mCore c.
Proof.
  revert c b last pos. induction fuel as [|n IH]; intros c b last pos; cbn [note_loop]; [done|].
  destruct (pos <? end_); [|by intros [= <- <-]]. intros H. res_inv.
  destruct v as [[[c1 b1] l1] p1]. apply IH in H. rewrite H. by eapply parse_note_core.
Qed.

Lemma load_note_core c ph c' : load_note c ph = Ok c' -> mCore c' = mCore c.
Proof.
  destruct ph as [[[[[[f off] va] pa] fsz] msz] al]. unfold load_note. cbn zeta.
  destruct (isValidBlock _); cbn [negb]; [|by intros [= ->]]. intros H. res_inv.
  destruct v as [c1 b1]. res_inv. simplify_eq. cbn. by eapply note_loop_core.
Qed.

Lemma ends_load_note c ph :
  0 <= mBegin (mCore c) -> 0 <= mSize (mCore c) ->
  mBegin (mCore c) + mSize (mCore c) + 2 ^ 34 <= 2 ^ 64 -> ends (load_note c ph).
Proof.
  intros Hb Hs He. destruct ph as [[[[[[f off] va] pa] fsz] msz] al].
  unfold load_note. cbn zeta. destruct (isValidBlock _) eqn:Ev; cbn [negb]; [|done].
  apply ends_bind; [|intros [c' b'] _; done].
  unfold isValidBlock in Ev. cbn in Ev. apply andb_true_iff in Ev as [Ev Hf].
  apply negb_true_iff, Z.ltb_ge in Ev.
  set (ori := mOriAddr _). assert (0 <= ori < 2 ^ 64).
  { unfold ori, note_on_block, setOriAddr_block. cbn.
    destruct (isValidBlock _); cbn; [apply wrap_range; lia|lia]. }
  assert (Hend : u64 (ori + mFileSize (note_on_block (setOriAddr_block
    (u64 (mBegin (mCore c) + off))) (note_on_block (setTruncated_block
    (mSize (mCore c) <? u64 (off + fsz))) (NewNoteBlock f off va pa fsz msz al))))
    <= mBegin (mCore c) + mSize (mCore c)).
  { unfold ori, note_on_block, setOriAddr_block, isValidBlock. cbn.
    assert (mSize (mCore c) <? u64 (off + fsz) = false) as -> by (apply Z.ltb_ge; lia).
    rewrite Hf. cbn. rewrite wrap_add_l by lia. rewrite <- Z.add_assoc.
    rewrite Z.add_comm, <- wrap_add_l, Z.add_comm by lia. rewrite wrap_small; [lia|].
    pose proof (wrap_range 64 (off + fsz)). lia. }
  apply ends_notes; [lia| |lia|lia]. cbn in *. lia.
Qed.

Lemma ends_phdrs n c p :
  0 <= mBegin (mCore c) -> 0 <= mSize (mCore c) ->
  mBegin (mCore c) + mSize (mCore c) + 2 ^ 34 <= 2 ^ 64 -> ends (phdrs_loop n c p).
Proof.
  revert c p. induction n as [|n IH]; intros c p Hb Hs He; cbn [phdrs_loop]; [done|].
  apply ends_bind; [unfold read_phdr; cbn zeta; ends_step|]. intros [type ph] _.
  destruct (type =? PT_LOAD); [|destruct (type =? PT_NOTE)]; cbn [rbind].
  - destruct ph as [[[[[[f off] va] pa] fsz] msz] al]. by apply IH.
  - apply ends_bind; [by apply ends_load_note|]. intros c' E.
    apply load_note_core in E. apply IH; by rewrite E.
  - by apply IH.
Qed.

Lemma ends_load_core c :
  0 <= mBegin (mCore c) -> 0 <= mSize (mCore c) ->
  mBegin (mCore c) + mSize (mCore c) + 2 ^ 34 <= 2 ^ 64 -> ends (load c).
Proof.
  intros Hb Hs He. unfold load. cbn zeta. apply ends_bind; [ends_step|]. intros e _.
  apply ends_bind; [ends_step|]. intros [num|] _; [|done].
  apply ends_bind; [by apply ends_phdrs|done].
Qed.
End LoadEnds.

(** The binary search finishes on any list, sorted or not. *)
Lemma ends_find_loop fuel c loads a left right :
  0 <= left -> right - left < Z.of_nat fuel -> (0 < fuel)%nat ->
  ends (find_loop fuel c loads a left right).
Proof.
  revert left right. induction fuel as [|n IH]; intros left right Hl Hf Hn; [lia|].
  cbn [find_loop]. destruct (Z.ltb_spec left right) as [Hlt|]; [|done]. cbn zeta.
  rewrite Z.quot_div_nonneg by lia.
  pose proof (Z.div_mod (right - left) 2). pose proof (Z.mod_pos_bound (right - left) 2).
  destruct (loads !! _) as [id|]; [|done].
  destruct (a <? _); [apply IH; lia|]. destruct (a <? _); [done|]. apply IH; lia.
Qed.

Lemma ends_findLoadBlock c va quick : ends (findLoadBlock c va quick).
Proof.
  unfold findLoadBlock. cbn zeta. destruct (getLoads c quick) as [|first t]; [done|].
  destruct (_ !! _) as [last|]; [|done]. destruct (_ || _); [done|].
  apply ends_find_loop; [lia| |lia].
  assert (i32 (Z.of_nat (length (first :: t))) <= Z.of_nat (length (first :: t))); [|lia].
  unfold sint, wrap. cbn zeta.
  pose proof (Z.mod_le (Z.of_nat (length (first :: t))) (2 ^ 32)). bool_cases; lia.
Qed.

Lemma ends_bind_files c l : ends (bind_files c l).
Proof.
  revert c. induction l as [|f l IH]; intros c; cbn [bind_files]; [done|].
  apply ends_bind; [|intros; apply IH]. unfold bind_file.
  apply ends_bind; [apply ends_findLoadBlock|]. intros [id|] _; [|done].
  by destruct (_ =? _).
Qed.

(** * What the segments of a core file present *)

Abbreviation phdr := (Z * Z * Z * Z * Z * Z * Z)%type.
Definition h_flags (ph : phdr) : Z := let '(f, _, _, _, _, _, _) := ph in f.
Definition h_off (ph : phdr) : Z := let '(_, o, _, _, _, _, _) := ph in o.
Definition h_va (ph : phdr) : Z := let '(_, _, v, _, _, _, _) := ph in v.
Definition h_fsz (ph : phdr) : Z := let '(_, _, _, _, s, _, _) := ph in s.
Definition h_msz (ph : phdr) : Z := let '(_, _, _, _, _, s, _) := ph in s.

(** The segment object [load_segment] makes. *)
Definition seg_of (c : CoreApi) (ph : phdr) : LoadBlock :=
  let '(f, off, va, pa, fsz, msz, al) := ph in
  setPointMask (pointer_mask c) (setVabitsMask (vabits_mask c)
    (setOriAddr (u64 (mBegin (mCore c) + off))
      (setTruncated (mSize (mCore c) <? u64 (off + fsz)) (NewLoadBlock_obj f off va pa fsz msz al)))).

Lemma load_segment_seg c ph : load_segment c ph = addLoadBlock c (seg_of c ph).
Proof.
  destruct ph as [[[[[[f off] va] pa] fsz] msz] al]. unfold load_segment, seg_of.
  unfold setOriAddr, setTruncated, on_block, setOriAddr_block, setTruncated_block. done.
Qed.

(** The header is inside the file and has content. *)
Definition h_ok (c : CoreApi) (ph : phdr) : Prop :=
  0 <= h_off ph /\ 0 <= h_fsz ph <= h_msz ph /\ h_off ph + h_fsz ph <= mSize (mCore c) /\
  0 <= h_va ph /\ h_va ph + h_msz ph < 2 ^ 64.

Lemma seg_fields c ph :
  h_ok c ph -> 0 < mBegin (mCore c) -> mBegin (mCore c) + mSize (mCore c) < 2 ^ 64 ->
  lb_block (seg_of c ph) =
    MkBlock (h_flags ph) (h_off ph) (h_va ph) (let '(_, _, _, pa, _, _, _) := ph in pa)
      (h_fsz ph) (h_msz ph) (let '(_, _, _, _, _, _, al) := ph in al)
      (if 0 <? h_fsz ph then mBegin (mCore c) + h_off ph else 0) false false None /\
  mMmap (seg_of c ph) = None /\ mVabitsMask (seg_of c ph) = vabits_mask c /\
  mPointMask (seg_of c ph) = pointer_mask c.
Proof.
  destruct ph as [[[[[[f off] va] pa] fsz] msz] al]. unfold h_ok. cbn -[Z.ltb].
  intros (H1 & H2 & H3 & H4 & H5) Hb He. split; [|done].
  unfold setOriAddr_block, isValidBlock. cbn -[Z.ltb].
  rewrite !wrap_small by lia.
  assert (mSize (mCore c) <? off + fsz = false) as -> by (apply Z.ltb_ge; lia).
  cbn [negb andb]. by destruct (0 <? fsz).
Qed.

Lemma seg_valid c ph :
  h_ok c ph -> 0 < mBegin (mCore c) -> mBegin (mCore c) + mSize (mCore c) < 2 ^ 64 ->
  isValid (seg_of c ph) = (0 <? h_fsz ph).
Proof.
  intros Hok Hb He. destruct (seg_fields c ph Hok Hb He) as (Hf & Hm & _).
  unfold isValid, isMmapBlock, isOverlayBlock, isValidBlock. rewrite Hf, Hm. cbn.
  by rewrite !orb_false_r.
Qed.

Lemma seg_view c ph content i :
  h_ok c ph -> 0 < mBegin (mCore c) -> mBegin (mCore c) + mSize (mCore c) < 2 ^ 64 ->
  host_wf (host_mem c) ->
  host_mem c !! i = Some (Region (mBegin (mCore c)) false content) ->
  Z.of_nat (length content) = mSize (mCore c) -> 0 < h_fsz ph ->
  begin (seg_of c ph) OPT_READ_ALL = mBegin (mCore c) + h_off ph /\
  size (seg_of c ph) OPT_READ_ALL = h_fsz ph /\
  view (host_mem c) (seg_of c ph)
    (take (Z.to_nat (h_fsz ph)) (drop (Z.to_nat (h_off ph)) content)).
Proof.
  intros Hok Hb He Hh Hi Hlen Hpos. destruct (seg_fields c ph Hok Hb He) as (Hf & Hm & _).
  destruct Hok as (H1 & H2 & H3 & H4 & H5).
  assert (0 <? h_fsz ph = true) as Hlt by (by apply Z.ltb_lt). rewrite Hlt in Hf.
  assert (Hbeg : begin (seg_of c ph) OPT_READ_ALL = mBegin (mCore c) + h_off ph).
  { unfold begin, overlay_for, mmap_for. rewrite Hf, Hm. cbn -[Z.add].
    unfold nz. destruct (Z.eqb_spec (mBegin (mCore c) + h_off ph) 0); [lia|done]. }
  assert (Hsz : size (seg_of c ph) OPT_READ_ALL = h_fsz ph).
  { unfold size, overlay_for, mmap_for. rewrite Hf, Hm. cbn -[Z.add].
    unfold nz. destruct (Z.eqb_spec (mBegin (mCore c) + h_off ph) 0); [lia|done]. }
  split_and!; [done..|]. split; rewrite ?Hbeg, ?Hsz, ?Hf; cbn; try lia.
  - rewrite <- (Z2Nat.id (h_off ph)) at 1 by lia.
    assert (Hall : host_load (host_mem c) (mBegin (mCore c)) (mSize (mCore c)) = Ok content).
    { rewrite <- Hlen. apply (host_load_region _ i false); [done|done|]. clear - H1 H2 H3 Hlen Hpos. lia. }
    rewrite (host_load_sub _ _ _ _ (Z.of_nat (Z.to_nat (h_off ph))) (h_fsz ph) Hh Hall) by lia.
    by rewrite Nat2Z.id.
  - intros _. unfold backing. rewrite Hm, Hf. cbn. split; [lia|].
    rewrite Z.sub_diag. apply drop_ge. rewrite length_take. lia.
  - done.
Qed.

(** The core after the headers [hs]: objects numbered from the next identity on. *)
Lemma load_segments_state hs c :
  let c' := foldl load_segment c hs in
  let n := mNext c in
  mNext c' = (n + length hs)%nat /\ host_mem c' = host_mem c /\ mCore c' = mCore c /\
  vabits_mask c' = vabits_mask c /\ pointer_mask c' = pointer_mask c /\
  QUICK_LOAD_ENABLED c' = QUICK_LOAD_ENABLED c /\
  (forall k ph, hs !! k = Some ph -> lb c' (n + k) = seg_of c ph) /\
  (forall id, (id < n)%nat -> lb c' id = lb c id) /\
  mLoad c' = mLoad c ++ seq n (length hs) /\
  exists q, mQuickLoad c' = mQuickLoad c ++ q /\ sublist q (seq n (length hs)) /\
    (forall k ph, hs !! k = Some ph ->
       negb (QUICK_LOAD_ENABLED c) || nz (h_flags ph) = true -> (n + k)%nat ∈ q) /\
    (forall id, id ∈ q -> exists k ph, hs !! k = Some ph /\ id = (n + k)%nat /\
       negb (QUICK_LOAD_ENABLED c) || nz (h_flags ph) = true).
Proof.
  revert c. induction hs as [|ph hs IH]; intros c; cbn [foldl].
  - cbn zeta. rewrite Nat.add_0_r, app_nil_r. split_and!; try done.
    exists []. rewrite app_nil_r. split_and!; try done. by intros id ?%elem_of_nil.
  - specialize (IH (load_segment c ph)). rewrite load_segment_seg in *.
    set (c1 := addLoadBlock c (seg_of c ph)) in *. cbn zeta in *.
    destruct IH as (I1 & I2 & I3 & I4 & I5 & I6 & I7 & I8 & I9 & q & I10 & I11 & I12 & I13).
    assert (Hseg : forall x, seg_of c1 x = seg_of c x) by (by intros [[[[[[??]?]?]?]?]?]).
    assert (Hlb1 : forall id, lb c1 id = if decide (mNext c = id) then seg_of c ph else lb c id)
      by (intros; apply lb_set).
    assert (Hfl : mFlags (seg_of c ph) = h_flags ph).
    { destruct ph as [[[[[[f off] va] pa] fsz] msz] al]. cbn.
      unfold setOriAddr_block. by destruct (isValidBlock _). }
    change (mNext c1) with (S (mNext c)) in *.
    split_and!; [rewrite I1; cbn; lia|done|done|done|done|done| | | |].
    + intros [|k] x Hk; cbn in Hk.
      * simplify_eq. rewrite Nat.add_0_r, I8 by lia. by rewrite Hlb1, decide_True.
      * rewrite <- Hseg, <- (I7 k x Hk). f_equal. lia.
    + intros id Hid. rewrite I8 by lia. rewrite Hlb1, decide_False by lia. done.
    + rewrite I9. change (mLoad c1) with (mLoad c ++ [mNext c]). by rewrite <- app_assoc.
    + change (mQuickLoad c1) with (if negb (QUICK_LOAD_ENABLED c) || nz (mFlags (seg_of c ph))
        then mQuickLoad c ++ [mNext c] else mQuickLoad c) in I10.
      rewrite Hfl in I10. destruct (_ || _) eqn:Hk0.
      * exists (mNext c :: q). rewrite I10, <- app_assoc.
        split_and!; [done|by constructor| |].
        -- intros [|k] x Hk Hkeep; cbn in Hk; [rewrite Nat.add_0_r; apply list_elem_of_here|].
           apply list_elem_of_further. replace (mNext c + S k)%nat with (S (mNext c) + k)%nat by lia.
           by apply (I12 k x).
        -- intros id [->|Hid]%elem_of_cons; [exists 0%nat, ph; split_and!; [done|lia|done]|].
           destruct (I13 id Hid) as (k & x & Hk & -> & Hx). exists (S k), x.
           split_and!; [done|lia|done].
      * exists q. split_and!; [done|by constructor| |].
        -- intros [|k] x Hk Hkeep; cbn in Hk; [simplify_eq; congruence|].
           replace (mNext c + S k)%nat with (S (mNext c) + k)%nat by lia. by apply (I12 k x).
        -- intros id Hid. destruct (I13 id Hid) as (k & x & Hk & -> & Hx). exists (S k), x.
           split_and!; [done|lia|done].
Qed.

Lemma sublist_length_le (l1 l2 : list nat) : sublist l1 l2 -> (length l1 <= length l2)%nat.
Proof. induction 1; cbn; lia. Qed.

(** Headers in address order give sorted segment lists. *)
Lemma loaded_sorted c' (hs : list phdr) n (q : list nat) :
  (forall k ph, hs !! k = Some ph ->
     mVaddr (lb c' (n + k)) = h_va ph /\ mMemSize (lb c' (n + k)) = h_msz ph) ->
  Forall (fun ph => 0 <= h_va ph /\ 0 <= h_msz ph /\ h_va ph + h_msz ph < 2 ^ 64) hs ->
  pairwise (fun x y => h_va x + h_msz x <= h_va y) hs -> Z.of_nat (length hs) < 2 ^ 31 ->
  sublist q (seq n (length hs)) -> sorted c' q.
Proof.
  intros Hlb Hr Ho Hlen Hq.
  assert (Hseq : forall i x, seq n (length hs) !! i = Some x ->
    x = (n + i)%nat /\ exists ph, hs !! i = Some ph).
  { intros i x Hi. apply lookup_seq in Hi as [-> Hi]. split; [done|].
    by apply lookup_lt_is_Some. }
  split.
  - apply Forall_elem. intros id Hid. apply (sublist_elem _ _ _ Hq) in Hid.
    apply list_elem_of_lookup in Hid as [k Hk]. apply Hseq in Hk as [-> [ph Hph]].
    destruct (Hlb k ph Hph) as [E1 E2]. apply (Forall_lookup_1 _ _ _ _ Hr) in Hph.
    unfold range_ok. rewrite E1, E2. done.
  - apply (pairwise_sublist _ _ _ Hq). intros i j x y Hij Hi Hj.
    apply Hseq in Hi as [-> [px Hpx]]. apply Hseq in Hj as [-> [py Hpy]].
    destruct (Hlb i px Hpx) as [E1 E2]. destruct (Hlb j py Hpy) as [E3 _].
    unfold before. rewrite E1, E2, E3. by apply (Ho i j).
  - apply sublist_length_le in Hq. rewrite length_seq in Hq. lia.
Qed.

Lemma phdrs_loop_loads {L : Layout} {CB : NoteCallback} hs c p :
  0 <= p < 2 ^ 64 ->
  (forall k ph, hs !! k = Some ph ->
     read_phdr (host_mem c) (u64 (p + ph_size * Z.of_nat k)) = Ok (PT_LOAD, ph)) ->
  phdrs_loop (length hs) c p = Ok (foldl load_segment c hs).
Proof.
  revert c p. induction hs as [|ph hs IH]; intros c p Hp H; [done|].
  cbn [length phdrs_loop foldl].
  pose proof (H 0%nat ph eq_refl) as H0. rewrite Z.mul_0_r, Z.add_0_r, wrap_small in H0 by done.
  rewrite H0. cbn [rbind]. change (PT_LOAD =? PT_LOAD) with true. cbn [rbind].
  apply IH; [apply wrap_range; lia|]. intros k x Hk. rewrite wrap_add_l by lia.
  rewrite load_segment_seg. change (host_mem (addLoadBlock c (seg_of c ph))) with (host_mem c).
  replace (p + ph_size + ph_size * Z.of_nat k) with (p + ph_size * Z.of_nat (S k)) by lia.
  exact (H (S k) x Hk).
Qed.

(** The address space of a core whose quick list holds segments of the headers. *)
Lemma loaded_space c c' hs q i content :
  host_wf (host_mem c) -> 0 < mBegin (mCore c) ->
  mBegin (mCore c) + mSize (mCore c) < 2 ^ 64 ->
  host_mem c !! i = Some (Region (mBegin (mCore c)) false content) ->
  Z.of_nat (length content) = mSize (mCore c) -> host_mem c' = host_mem c ->
  vabits_mask c' = vabits_mask c -> mQuickLoad c' = q -> sublist q (seq (mNext c) (length hs)) ->
  (forall k ph, hs !! k = Some ph ->
     mVaddr (lb c' (mNext c + k)) = h_va ph /\ mMemSize (lb c' (mNext c + k)) = h_msz ph) ->
  (forall id, id ∈ q -> exists k ph, hs !! k = Some ph /\ id = (mNext c + k)%nat /\
     lb c' id = seg_of c ph /\ h_ok c ph) ->
  Forall (fun ph => 0 <= h_va ph /\ 0 <= h_msz ph /\ h_va ph + h_msz ph < 2 ^ 64) hs ->
  pairwise (fun x y => h_va x + h_msz x <= h_va y) hs ->
  pairwise (fun x y => 0 < h_fsz x -> 0 < h_fsz y ->
    h_off x + h_fsz x <= h_off y \/ h_off y + h_fsz y <= h_off x) hs ->
  Z.of_nat (length hs) < 2 ^ 31 -> space_ok c'.
Proof.
  intros Hh Hb He Hi Hlen Ehost Emask Eq Hsub Hlb Hids Hrange Hord Hfile Hn.
  assert (Hval : forall id ph, lb c' id = seg_of c ph -> h_ok c ph ->
    isValid (lb c' id) = true -> 0 < h_fsz ph).
  { intros id ph El Hok Hv. rewrite El in Hv. rewrite (seg_valid c ph) in Hv by done. by apply Z.ltb_lt. }
  split; rewrite ?Eq, ?Ehost, ?Emask.
  - by eapply loaded_sorted.
  - done.
  - intros id Hid. destruct (Hids id Hid) as (k & ph & _ & _ & -> & Hok).
    by destruct (seg_fields c ph Hok Hb He) as (_ & _ & -> & _).
  - intros id Hid Hv. destruct (Hids id Hid) as (k & ph & _ & _ & El & Hok).
    pose proof (Hval id ph El Hok Hv) as Hf. rewrite El.
    destruct (seg_view c ph content i Hok Hb He Hh Hi Hlen Hf) as (_ & _ & Hw). eauto.
  - intros x y Hx Hy Hxy Hvx Hvy.
    destruct (Hids x Hx) as (kx & px & Hkx & -> & Ex & Hokx).
    destruct (Hids y Hy) as (ky & py & Hky & -> & Ey & Hoky).
    pose proof (Hval _ px Ex Hokx Hvx) as Hfx. pose proof (Hval _ py Ey Hoky Hvy) as Hfy.
    destruct (seg_view c px content i Hokx Hb He Hh Hi Hlen Hfx) as (Bx & Sx & _).
    destruct (seg_view c py content i Hoky Hb He Hh Hi Hlen Hfy) as (By & Sy & _).
    unfold views_apart. rewrite Ex, Ey, Bx, Sx, By, Sy.
    destruct (Nat.lt_trichotomy kx ky) as [Hl|[->|Hl]]; [| by destruct Hxy|].
    + specialize (Hfile kx ky px py Hl Hkx Hky Hfx Hfy). lia.
    + specialize (Hfile ky kx py px Hl Hky Hkx Hfy Hfx). lia.
Qed.

(** * Properties *)

(** C18: loading terminates: on any file content, well formed or not, [CoreApi::Load]
    returns or stops with a fault; neither the note cursor of a PT_NOTE segment nor the
    binary search it uses can loop. *)
Theorem Load_terminates VA_BITS quick remote h map :
  0 <= mBegin map -> 0 <= mSize map -> mBegin map + mSize map + 2 ^ 34 <= 2 ^ 64 ->
  CoreApi_Load VA_BITS quick remote h map <> OutOfFuel.
Proof.
  intros Hb Hs He. change (ends (CoreApi_Load VA_BITS quick remote h map)). unfold CoreApi_Load. cbn zeta.
  apply ends_bind; [auto with ends_db|]. intros ident _. destruct (negb _); [done|].
  apply ends_bind; [auto with ends_db|]. intros type _. destruct (negb _); [done|].
  apply ends_bind; [auto with ends_db|]. intros mach _.
  repeat (match goal with |- ends (if ?b then _ else _) => destruct b end;
    [apply ends_bind; [by apply ends_load_core|];
     intros [c' [|]] _; [|done]; apply ends_bind; [apply ends_bind_files|done]|]).
  done.
Qed.

Lemma load_presents {L : Layout} {CB : NoteCallback} c hs p i content :
  mLoad c = [] -> mQuickLoad c = [] -> host_wf (host_mem c) ->
  0 < mBegin (mCore c) -> mBegin (mCore c) + mSize (mCore c) < 2 ^ 64 ->
  host_mem c !! i = Some (Region (mBegin (mCore c)) false content) ->
  Z.of_nat (length content) = mSize (mCore c) -> 0 <= p < 2 ^ 64 ->
  (forall k ph, hs !! k = Some ph ->
     read_phdr (host_mem c) (u64 (p + ph_size * Z.of_nat k)) = Ok (PT_LOAD, ph)) ->
  Forall (h_ok c) hs -> pairwise (fun x y => h_va x + h_msz x <= h_va y) hs ->
  pairwise (fun x y => 0 < h_fsz x -> 0 < h_fsz y ->
    h_off x + h_fsz x <= h_off y \/ h_off y + h_fsz y <= h_off x) hs ->
  Z.of_nat (length hs) < 2 ^ 31 ->
  exists c', phdrs_loop (length hs) c p = Ok c' /\ wf c' /\ space_ok c' /\ masks_ok c' /\
    (forall ph j, ph ∈ hs -> negb (QUICK_LOAD_ENABLED c) || nz (h_flags ph) = true ->
       0 < h_fsz ph -> 0 <= j < h_msz ph ->
       target_byte c' (h_va ph + j)
         = if j <? h_fsz ph then content !! Z.to_nat (h_off ph + j) else Some 0) /\
    (forall a, (forall ph, ph ∈ hs -> ~ h_va ph <= a < h_va ph + h_msz ph) ->
       target_byte c' a = None) /\
    (forall ph j, ph ∈ hs -> 0 <= j < h_msz ph ->
       negb (QUICK_LOAD_ENABLED c) || nz (h_flags ph) = false \/ h_fsz ph = 0 ->
       target_byte c' (h_va ph + j) = None).
Proof.
  intros El Eq Hh Hb He Hi Hlen Hp Hread Hok Hord Hfile Hn.
  pose proof (load_segments_state hs c) as
    (S1 & S2 & S3 & S4 & S5 & S6 & S7 & S8 & S9 & q & S10 & S11 & S12 & S13).
  exists (foldl load_segment c hs). split; [by apply phdrs_loop_loads|].
  set (c' := foldl load_segment c hs) in *. rewrite El in S9. rewrite Eq in S10.
  cbn [app] in S9, S10.
  assert (Hlb : forall k ph, hs !! k = Some ph ->
     mVaddr (lb c' (mNext c + k)) = h_va ph /\ mMemSize (lb c' (mNext c + k)) = h_msz ph).
  { intros k ph Hk. rewrite (S7 k ph Hk).
    destruct (seg_fields c ph) as [-> _]; [exact (Forall_lookup_1 _ _ _ _ Hok Hk)|done..|done]. }
  assert (Hrange : Forall (fun ph => 0 <= h_va ph /\ 0 <= h_msz ph /\
     h_va ph + h_msz ph < 2 ^ 64) hs).
  { rewrite Forall_elem in *. intros ph Hph. specialize (Hok ph Hph). unfold h_ok in Hok. lia. }
  assert (Hids : forall id, id ∈ q -> exists k ph, hs !! k = Some ph /\ id = (mNext c + k)%nat /\
     lb c' id = seg_of c ph /\ h_ok c ph).
  { intros id Hid. apply (sublist_elem _ _ _ S11), list_elem_of_lookup in Hid as [k Hk].
    apply lookup_seq in Hk as [-> Hk]. apply lookup_lt_is_Some in Hk as [ph Hph].
    exists k, ph. split_and!; [done|done|by apply S7|exact (Forall_lookup_1 _ _ _ _ Hok Hph)]. }
  assert (Hspace : space_ok c').
  { apply (loaded_space c c' hs q i content); done. }
  split_and!; [|done| | | |].
  - split; rewrite ?S9, ?S10.
    + by eapply loaded_sorted.
    + by eapply loaded_sorted.
    + intros id. by apply sublist_elem.
    + intros id [k Hk]%list_elem_of_lookup. apply lookup_seq in Hk as [-> Hk]. rewrite S1. lia.
  - intros id Hid. rewrite S10 in Hid. destruct (Hids id Hid) as (k & ph & _ & _ & -> & Hph).
    rewrite S5. by destruct (seg_fields c ph Hph Hb He) as (_ & _ & _ & ->).
  - intros ph j [k Hk]%list_elem_of_lookup Hkeep Hf Hj.
    pose proof (S12 k ph Hk Hkeep) as Hin.
    pose proof (Forall_lookup_1 _ _ _ _ Hok Hk) as Hph.
    destruct (seg_view c ph content i Hph Hb He Hh Hi Hlen Hf) as (_ & Hsz & Hview).
    destruct (Hlb k ph Hk) as [Ev Em].
    unfold target_byte. rewrite (linear_find_elem c' (mQuickLoad c') (h_va ph + j) (mNext c + k)%nat).
    2: apply Hspace. 2: by rewrite S10. 2: { apply covers_spec. rewrite Ev, Em. lia. }
    rewrite Ev. rewrite (S7 k ph Hk), S2 in *.
    rewrite (seg_bytes_view _ _ _ ltac:(rewrite (seg_valid c ph) by done; by apply Z.ltb_lt) Hview).
    rewrite Em, Hsz. replace (h_va ph + j - h_va ph) with j by lia.
    unfold h_ok in Hph. destruct (Z.ltb_spec j (h_fsz ph)).
    + rewrite lookup_app_l by (rewrite length_take, length_drop; lia).
      rewrite lookup_take_lt, lookup_drop by lia. f_equal. lia.
    + rewrite lookup_app_r by (rewrite length_take, length_drop; lia).
      apply lookup_replicate_2. rewrite length_take, length_drop. lia.
  - intros a Ha. unfold target_byte.
    destruct (linear_find c' a (mQuickLoad c')) as [id|] eqn:Ef; [|done]. exfalso.
    apply linear_find_Some in Ef as [Hid Hcov%covers_spec]. rewrite S10 in Hid.
    destruct (Hids id Hid) as (k & ph & Hk & -> & _). destruct (Hlb k ph Hk) as [Ev Em].
    rewrite Ev, Em in Hcov. apply (Ha ph); [exact (list_elem_of_lookup_2 _ _ _ Hk)|lia].
  - intros ph j Hph Hj Hno. unfold target_byte.
    destruct (linear_find c' (h_va ph + j) (mQuickLoad c')) as [id|] eqn:Ef; [|done].
    apply linear_find_Some in Ef as [Hid Hcov%covers_spec]. rewrite S10 in Hid.
    destruct (S13 id Hid) as (k & x & Hk & -> & Hx). destruct (Hlb k x Hk) as [Ev Em].
    rewrite Ev, Em in Hcov. apply list_elem_of_lookup in Hph as [k' Hk'].
    assert (k' = k) as ->.
    { destruct (Nat.lt_trichotomy k k') as [Hl|[?|Hl]]; [|done|].
      - specialize (Hord _ _ _ _ Hl Hk Hk'). cbn beta in Hord. lia.
      - specialize (Hord _ _ _ _ Hl Hk' Hk). cbn beta in Hord. lia. }
    rewrite Hk in Hk'. injection Hk' as <-. destruct Hno as [|Hz]; [congruence|].
    pose proof (Forall_lookup_1 _ _ _ _ Hok Hk) as Hph.
    rewrite (S7 k x Hk), S2. unfold seg_bytes.
    by rewrite (seg_valid c x Hph Hb He), Hz.
Qed.

(** C4: the loaded segments present the core file. For PT_LOAD headers in address order
    whose contents lie in the file and do not share file bytes, the loader's loop builds
    well-formed segment lists and an address space in which every byte of a segment is the
    byte of the file at its offset, the rest of a partly backed segment is zero, and an
    address outside all segments has no byte. *)
Theorem load_presents_file {L : Layout} {CB : NoteCallback} c hs p i content :
  mLoad c = [] -> mQuickLoad c = [] -> host_wf (host_mem c) ->
  0 < mBegin (mCore c) -> mBegin (mCore c) + mSize (mCore c) < 2 ^ 64 ->
  host_mem c !! i = Some (Region (mBegin (mCore c)) false content) ->
  Z.of_nat (length content) = mSize (mCore c) -> 0 <= p < 2 ^ 64 ->
  (forall k ph, hs !! k = Some ph ->
     read_phdr (host_mem c) (u64 (p + ph_size * Z.of_nat k)) = Ok (PT_LOAD, ph)) ->
  Forall (h_ok c) hs -> pairwise (fun x y => h_va x + h_msz x <= h_va y) hs ->
  pairwise (fun x y => 0 < h_fsz x -> 0 < h_fsz y ->
    h_off x + h_fsz x <= h_off y \/ h_off y + h_fsz y <= h_off x) hs ->
  Z.of_nat (length hs) < 2 ^ 31 ->
  exists c', phdrs_loop (length hs) c p = Ok c' /\ wf c' /\ space_ok c' /\ masks_ok c' /\
    (forall ph j, ph ∈ hs -> negb (QUICK_LOAD_ENABLED c) || nz (h_flags ph) = true ->
       0 < h_fsz ph -> 0 <= j < h_msz ph ->
       target_byte c' (h_va ph + j)
         = if j <? h_fsz ph then content !! Z.to_nat (h_off ph + j) else Some 0) /\
    (forall a, (forall ph, ph ∈ hs -> ~ h_va ph <= a < h_va ph + h_msz ph) ->
       target_byte c' a = None).
Proof.
  intros. destruct (load_presents c hs p i content) as (c' & H'); [done..|].
  exists c'. by repeat destruct H' as [? H'].
Qed.

(** ** Witnesses: a small x86-64 core file

    An ELF header, two PT_LOAD headers and sixteen bytes of content. *)
Definition demo_phdr (ph : phdr) : list Z :=
  let '(f, off, va, pa, fsz, msz, al) := ph in
  le_bytes 4 PT_LOAD ++ le_bytes 4 f ++ le_bytes 8 off ++ le_bytes 8 va ++ le_bytes 8 pa ++
  le_bytes 8 fsz ++ le_bytes 8 msz ++ le_bytes 8 al.
Definition demo_hs : list phdr :=
  [(6, 176, 0x1000, 0, 8, 16, 0x1000); (5, 184, 0x2000, 0, 8, 8, 0x1000)].
Definition demo_corefile : list Z :=
  ELFMAG ++ replicate 12 0 ++ le_bytes 2 ET_CORE ++ le_bytes 2 EM_X86_64 ++ replicate 36 0 ++
  le_bytes 2 2 ++ replicate 6 0 ++ flat_map demo_phdr demo_hs ++
  [1; 2; 3; 4; 5; 6; 7; 8; 9; 10; 11; 12; 13; 14; 15; 16].
Definition demo_map : MemoryMap := Build_MemoryMap [] 0x10000 192 0 192.
Definition demo_host : host := [Region 0x10000 false demo_corefile].

Lemma Load_terminates_witness : CoreApi_Load 0 true false demo_host demo_map <> OutOfFuel.
Proof. apply (Load_terminates 0 true false demo_host demo_map); cbn; lia. Defined.

Lemma load_presents_file_witness :
  exists c', phdrs_loop (L := Elf64) (CB := x86_64_callback) 2
      (NewCore demo_map true demo_host) 0x10040 = Ok c' /\
    target_byte c' 0x1002 = Some 3 /\ target_byte c' 0x1009 = Some 0 /\
    target_byte c' 0x2007 = Some 16 /\ target_byte c' 0x3000 = None.
Proof.
  destruct (load_presents_file (L := Elf64) (CB := x86_64_callback)
    (NewCore demo_map true demo_host) demo_hs 0x10040 0 demo_corefile)
    as (c' & H1 & _ & _ & _ & H2 & H3); try done.
  - intros [|i] [|j] x y Hij Hx Hy; try lia; done.
  - intros [|[|k]] ph Hk; try done; injection Hk as <-; vm_compute; reflexivity.
  - repeat constructor; vm_compute; discriminate.
  - intros [|[|i]] [|[|j]] x y Hij Hx Hy; try lia; try done. cbn in Hx, Hy. simplify_eq.
    cbn. lia.
  - intros [|[|i]] [|[|j]] x y Hij Hx Hy; try lia; try done. cbn in Hx, Hy. simplify_eq.
    cbn. lia.
  - exists c'. split_and!; [exact H1| | | |].
    + exact (H2 (6, 176, 0x1000, 0, 8, 16, 0x1000) 2 ltac:(apply list_elem_of_here) eq_refl
        eq_refl ltac:(cbn; lia)).
    + exact (H2 (6, 176, 0x1000, 0, 8, 16, 0x1000) 9 ltac:(apply list_elem_of_here) eq_refl
        eq_refl ltac:(cbn; lia)).
    + exact (H2 (5, 184, 0x2000, 0, 8, 8, 0x1000) 7
        ltac:(apply list_elem_of_further, list_elem_of_here) eq_refl eq_refl ltac:(cbn; lia)).
    + apply H3. intros ph Hph. unfold demo_hs in Hph.
      rewrite !elem_of_cons, elem_of_nil in Hph. destruct_or? Hph; subst; cbn; lia || done.
Defined.

(** The 32-bit program-header table of [Elfx_Phdr::Init] has the field order of the 64-bit
    one: its p_offset, p_vaddr, p_filesz and p_memsz are the p_vaddr, p_paddr, p_memsz and
    p_flags of an ELF32 header. *)
Example Elfx_Phdr_32_fields :
  let T := Elfx_Phdr_Init 32 in
  p_offset T = ph_vaddr (Layout := Elf32) /\ p_vaddr T = ph_paddr (Layout := Elf32) /\
  p_filesz T = ph_memsz (Layout := Elf32) /\ p_memsz T = ph_flags (Layout := Elf32) /\
  p_offset T <> ph_offset (Layout := Elf32) /\ p_vaddr T <> ph_vaddr (Layout := Elf32).
Proof. vm_compute. repeat split; discriminate. Qed.
