(* ===== verification/SaveCore.v ===== *)
(** Saving a core file: [FakeCore::execute] of parser/command/fake/core/lp64/fake_core.cpp and
    of lp32/fake_core.cpp, which writes the loaded core, with its overlays and mapped files,
    as a new core file.  SaveProofs.v shows that loading the file gives the same memory. *)

From Stdlib Require Import ZArith Lia Bool.
From stdpp Require Import base list gmap numbers.
From S2P Require Import Prelude Words Host Blocks Notes CoreApi Segments AddressSpace MemRef Elf.
From S2P Require Import CoreLoad LoadProofs.
Open Scope Z_scope.

Definition SHT_NULL : Z := 0.

(** [IS_ALIGNED(x, a)]. *)
Definition IS_ALIGNED (x a : Z) : bool := Z.land x (a - 1) =? 0.

(** [fwrite(ptr, n, 1, fp)]: the bytes appended to the file. *)
Definition fwrite (h : host) (ptr n : Z) : result (list Z) :=
  if n =? 0 then Ok [] else host_load h ptr n.

Section Save.
Context {L : Layout}.

(** Integers of the word size of the file. *)
Definition uword (z : Z) : Z := wrap (8 * lw) z.

(** A program header as [Elf64_Phdr] or [Elf32_Phdr] lays it out. *)
Definition phdr_bytes (type : Z) (ph : phdr) : list Z :=
  let '(f, off, va, pa, fsz, msz, al) := ph in
  let w z := le_bytes (Z.to_nat lw) z in
  if lw =? 8
  then le_bytes 4 type ++ le_bytes 4 f ++ w off ++ w va ++ w pa ++ w fsz ++ w msz ++ w al
  else le_bytes 4 type ++ w off ++ w va ++ w pa ++ w fsz ++ w msz ++ le_bytes 4 f ++ w al.

(** The members of the ELF header that are set: their offsets. *)
Definition eh_shentsize : Z := eh_phnum + 2.
Definition set_half (off v : Z) (ehdr : list Z) : list Z :=
  splice (Z.to_nat off) (le_bytes 2 v) ehdr.

(** The number of program headers: [real_phnum] is 32 bits wide in lp64, in lp32 it is the
    16-bit e_phnum. *)
Definition real_phnum (n : Z) : Z := if lw =? 8 then u32 n else u16 n.
Definition extended (n : Z) : bool := (lw =? 8) && (PN_XNUM <=? n).

(** The ELF header: that of the loaded core with new counts. *)
Definition new_ehdr (n : Z) (ehdr : list Z) : list Z :=
  if lw =? 8 then
    if extended n then
      set_half eh_shstrndx 0 (set_half eh_shnum 1
        (set_half eh_shentsize sh_bytes (set_half eh_phnum PN_XNUM ehdr)))
    else
      set_half eh_shnum 0 (set_half eh_shentsize 0
        (splice (Z.to_nat eh_shoff) (le_bytes (Z.to_nat lw) 0) (set_half eh_phnum n ehdr)))
  else set_half eh_phnum n ehdr.

(** The PT_NOTE headers from [current_offset] on, and the offset behind them. *)
Fixpoint note_phdrs (notes : list NoteBlock) (current_offset : Z) : list phdr * Z :=
  match notes with
  | [] => ([], current_offset)
  | b :: l =>
      let fsz := uword (mFileSize b) in
      let ph := (u32 (mFlags b), current_offset, uword (mVaddr b), uword (mPaddr b), fsz,
                 uword (mMemSize b), uword (mAlign b)) in
      let '(phs, off) :=
        note_phdrs l (RoundUp (8 * lw) (uword (current_offset + fsz)) ELF_PAGE_SIZE) in
      (ph :: phs, off)
  end.

(** p_filesz of a segment: all of a segment that is only mapped, nothing of one that is
    not readable. *)
Definition saved_size (b : LoadBlock) : Z :=
  let fsz := if negb (nz (mFileSize b)) && isValid b then uword (mMemSize b)
             else uword (mFileSize b) in
  if nz (mFileSize b) && negb (isValid b) then 0 else fsz.

(** The PT_LOAD headers. *)
Fixpoint load_phdrs (blocks : list LoadBlock) (current_offset : Z) : list phdr :=
  match blocks with
  | [] => []
  | b :: l =>
      (u32 (mFlags b), current_offset, uword (mVaddr b), uword (mPaddr b), saved_size b,
       uword (mMemSize b), uword (mAlign b))
      :: load_phdrs l (uword (current_offset + saved_size b))
  end.

(** The contents of the notes, each padded with zeros to a page; [current_filesz] is the
    size of the file so far. *)
Fixpoint write_notes (h : host) (notes : list NoteBlock) (phs : list phdr) (current_filesz : Z)
    : result (list Z * Z) :=
  match notes, phs with
  | b :: l, ph :: phs =>
      let! bs := fwrite h (note_begin b OPT_READ_ALL) (h_fsz ph) in
      let size := uword (current_filesz + h_fsz ph) in
      let pad := if IS_ALIGNED size ELF_PAGE_SIZE then 0
                 else uword (RoundUp (8 * lw) size ELF_PAGE_SIZE - size) in
      let! rest := write_notes h l phs (uword (size + pad)) in
      Ok (bs ++ replicate (Z.to_nat pad) 0 ++ fst rest, snd rest)
  | _, _ => Ok ([], current_filesz)
  end.

(** The contents of the segments. *)
Fixpoint write_loads (h : host) (blocks : list LoadBlock) (phs : list phdr)
    (current_filesz : Z) : result (list Z * Z) :=
  match blocks, phs with
  | b :: l, ph :: phs =>
      if nz (h_fsz ph) && isValid b then
        let! bs := fwrite h (begin b OPT_READ_ALL) (h_fsz ph) in
        let! rest := write_loads h l phs (uword (current_filesz + h_fsz ph)) in
        Ok (bs ++ fst rest, snd rest)
      else write_loads h l phs current_filesz
  | _, _ => Ok ([], current_filesz)
  end.

(** The section header that carries the number of program headers. *)
Definition count_shdr (n : Z) : list Z :=
  splice (Z.to_nat sh_info) (le_bytes 4 n)
    (splice (Z.to_nat sh_type) (le_bytes 4 SHT_NULL) (replicate (Z.to_nat sh_bytes) 0)).

(** [FakeCore::execute(output)]: the bytes of the file.  More headers than the count can
    hold are stored behind the end of [tmp]. *)
Definition execute (c : CoreApi) : result (list Z) :=
  let h := host_mem c in
  let! old := host_load h (mBegin (mCore c)) eh_size in
  let blocks := lb c <$> mLoad c in
  let count := Z.of_nat (length (mLoad c)) + Z.of_nat (length (mNote c)) in
  let n := real_phnum count in
  if n <? count then Fault else
  let ehdr := new_ehdr n old in
  let start := uword (eh_size + n * ph_size) in
  let '(nphs, off) := note_phdrs (mNote c) start in
  let lphs := load_phdrs blocks off in
  let! notes := write_notes h (mNote c) nphs start in
  let! loads := write_loads h blocks lphs (snd notes) in
  let file := ehdr ++ flat_map (phdr_bytes PT_NOTE) nphs ++ flat_map (phdr_bytes PT_LOAD) lphs
                ++ fst notes ++ fst loads in
  if extended n then
    Ok (splice 0 (splice (Z.to_nat eh_shoff) (le_bytes (Z.to_nat lw) (snd loads)) ehdr)
          (file ++ count_shdr n))
  else Ok file.
End Save.

(** [lp64::FakeCore::execute] and [lp32::FakeCore::execute]. *)
Definition execute64 (c : CoreApi) : result (list Z) := execute (L := Elf64) c.
Definition execute32 (c : CoreApi) : result (list Z) := execute (L := Elf32) c.
