(* ===== verification/SaveProofs.v ===== *)
(** Saving a core and loading it again ([SaveCore], [CoreLoad]): the headers and contents
    [FakeCore::execute] writes, as the loader reads them, and the round trip. *)

From Stdlib Require Import ZArith Lia Bool.
From stdpp Require Import base list gmap numbers.
From S2P Require Import Prelude Words Host Blocks Notes CoreApi Segments AddressSpace MemRef Elf.
From S2P Require Import CoreLoad LoadProofs SaveCore.
Open Scope Z_scope.

(** * Headers *)

(** One of the two word sizes. *)
Class StdLayout (L : Layout) : Prop := std_layout : L = Elf64 \/ L = Elf32.
#[export] Instance std64 : StdLayout Elf64 := or_introl eq_refl.
#[export] Instance std32 : StdLayout Elf32 := or_intror eq_refl.

Section Headers.
Context {L : Layout} {HL : StdLayout L}.

Lemma layout_sizes : lw = 8 /\ eh_size = 64 /\ ph_size = 56 \/ lw = 4 /\ eh_size = 52 /\ ph_size = 32.
Proof. destruct HL as [->| ->]; cbn; lia. Qed.

(** The values fit the fields of a program header. *)
Definition ph_fits (ph : phdr) : Prop :=
  let '(f, off, va, pa, fsz, msz, al) := ph in
  0 <= f < 2 ^ 32 /\ Forall (fun z => 0 <= z < 2 ^ (8 * lw)) [off; va; pa; fsz; msz; al].

Lemma phdr_bytes_length t ph : Z.of_nat (length (phdr_bytes t ph)) = ph_size.
Proof.
  destruct ph as [[[[[[f off] va] pa] fsz] msz] al]. unfold phdr_bytes.
  destruct HL as [->| ->]; cbn -[le_bytes]; rewrite !length_app, !le_bytes_length; done.
Qed.

(** The bytes of a little-endian word hold it. *)
Lemma holds_le h a n v m :
  holds h a (le_bytes n v) -> m = Z.of_nat n -> 0 <= v < 2 ^ (8 * m) -> host_word h a m = Ok v.
Proof.
  intros Hh -> Hv. rewrite (holds_word h a (le_bytes n v)); [|done|by rewrite le_bytes_length].
  by rewrite le_value_bytes, Z.mod_small.
Qed.

(** The loader reads back the header that was written. *)
Lemma read_phdr_bytes h a t ph :
  host_wf h -> 0 <= a -> a + ph_size < 2 ^ 64 -> 0 <= t < 2 ^ 32 -> ph_fits ph ->
  holds h a (phdr_bytes t ph) -> read_phdr h a = Ok (t, ph).
Proof.
  destruct ph as [[[[[[f off] va] pa] fsz] msz] al]. intros Hh Ha He Ht [Hf Hw] H.
  repeat (apply Forall_cons_1 in Hw as [? Hw]). clear Hw.
  assert (Hcut : forall l1 l2 b, holds h b (l1 ++ l2) ->
    holds h b l1 /\ holds h (b + Z.of_nat (length l1)) l2) by (intros; by apply holds_app).
  unfold read_phdr, phdr_bytes in *. destruct HL as [-> | ->]; cbn -[le_bytes Z.add Z.pow] in *;
    repeat (apply Hcut in H; let H' := fresh "P" in destruct H as [H' H]); clear Hcut;
    rewrite !le_bytes_length, <- ?Z.add_assoc in *; cbn -[le_bytes Z.pow] in *;
    rewrite !wrap_small by lia;
    do 8 (erewrite holds_le; [cbn -[host_word le_bytes Z.add Z.pow]|rewrite ?Z.add_0_r; eassumption|done|lia]);
    done.
Qed.
End Headers.

(** * Contents *)

Lemma fwrite_Ok h p n bs :
  0 <= n -> fwrite h p n = Ok bs ->
  Z.of_nat (length bs) = n /\ (0 < n -> host_load h p n = Ok bs).
Proof.
  intros Hn. unfold fwrite. destruct (Z.eqb_spec n 0) as [->|]; [by intros [= <-]|].
  intros H. split; [by eapply host_load_length|done].
Qed.

(** Padding to a page ends at the next page boundary. *)
Lemma pad_RoundUp w x :
  12 < w -> 0 <= x -> x + ELF_PAGE_SIZE < 2 ^ w ->
  let pad := if IS_ALIGNED x ELF_PAGE_SIZE then 0
             else wrap w (RoundUp w x ELF_PAGE_SIZE - x) in
  x + pad = RoundUp w x ELF_PAGE_SIZE /\ 0 <= pad < ELF_PAGE_SIZE.
Proof.
  unfold ELF_PAGE_SIZE. change 0x1000 with (2 ^ 12) in *. intros Hw Hx He. cbn zeta.
  pose proof (RoundUp_range w x 12 ltac:(lia) Hx ltac:(lia)) as Hr.
  pose proof (RoundUp_divide w x 12 ltac:(lia) Hx ltac:(lia)) as [k Hk].
  unfold IS_ALIGNED. change (2 ^ 12 - 1) with (Z.ones 12). rewrite Z.land_ones by lia.
  destruct (Z.eqb_spec (x mod 2 ^ 12) 0) as [E|E].
  - apply Z.div_exact in E; [|lia]. rewrite Hk in *. nia.
  - rewrite wrap_small; lia.
Qed.

Section Contents.
Context {L : Layout} {HL : StdLayout L}.

Lemma uword_range z : 0 <= uword z < 2 ^ (8 * lw).
Proof. apply wrap_range. destruct layout_sizes; lia. Qed.

(** The offsets of the notes are the places their contents are written to. *)
Lemma write_notes_spec h notes cur out e :
  0 <= cur -> write_notes h notes (fst (note_phdrs notes cur)) cur = Ok (out, e) ->
  cur + Z.of_nat (length out) + ELF_PAGE_SIZE < 2 ^ (8 * lw) ->
  e = cur + Z.of_nat (length out) /\ snd (note_phdrs notes cur) = e.
Proof.
  assert (12 < 8 * lw) as Hw by (destruct layout_sizes; lia).
  assert (ELF_PAGE_SIZE = 4096) as Hps by done.
  revert cur out e. induction notes as [|b l IH]; intros cur out e Hc H He; cbn in H.
  { injection H as <- <-. cbn. lia. }
  set (fsz := uword (mFileSize b)) in *. pose proof (uword_range (mFileSize b)) as Hf.
  fold fsz in Hf. cbn [note_phdrs]. fold fsz.
  destruct (note_phdrs l _) as [phs off] eqn:En. cbn [fst snd] in *. cbn in H.
  res_inv. apply fwrite_Ok in E as [Hlen _]; [|lia]. destruct v0 as [rest e'].
  injection H as <- <-. cbn [fst snd] in *. rewrite !length_app, length_replicate in He |- *.
  set (x := uword (cur + fsz)) in *.
  assert (x = cur + fsz) as Hx by (apply wrap_small; lia).
  destruct (pad_RoundUp (8 * lw) x Hw ltac:(lia) ltac:(lia)) as [Hp Hr]. cbn zeta in Hp, Hr.
  change (uword (RoundUp (8 * lw) x ELF_PAGE_SIZE - x))
    with (wrap (8 * lw) (RoundUp (8 * lw) x ELF_PAGE_SIZE - x)) in *.
  set (pad := if IS_ALIGNED x ELF_PAGE_SIZE then 0 else _) in *.
  assert (uword (x + pad) = x + pad) as Hn by (apply wrap_small; lia).
  rewrite Hn in E0. rewrite <- Hp in En.
  replace phs with (fst (note_phdrs l (x + pad))) in E0 by (by rewrite En).
  apply IH in E0 as [-> Hoff]; [|lia..]. rewrite En in Hoff. cbn [snd] in Hoff.
  split; [|done]. lia.
Qed.

(** The header of a segment whose contents go to offset [o]. *)
Definition hdr (b : LoadBlock) (o : Z) : phdr :=
  (u32 (mFlags b), o, uword (mVaddr b), uword (mPaddr b), saved_size b, uword (mMemSize b),
   uword (mAlign b)).

Lemma saved_size_range b : 0 <= saved_size b < 2 ^ (8 * lw).
Proof.
  unfold saved_size. pose proof (uword_range (mMemSize b)). pose proof (uword_range (mFileSize b)).
  destruct (_ && _); [lia|]. by destruct (_ && _).
Qed.

(** Only a readable segment has contents. *)
Lemma saved_size_valid b : saved_size b <> 0 -> isValid b = true.
Proof.
  unfold saved_size. destruct (isValid b); [done|]. rewrite andb_false_r, andb_true_r.
  unfold nz. destruct (Z.eqb_spec (mFileSize b) 0) as [->|]; [|done]. done.
Qed.

(** The contents of segment [b] stand at offset [o] of the file, whose part from [off] on
    is [out]. *)
Definition placed (h : host) (off : Z) (out : list Z) (b : LoadBlock) (o : Z) : Prop :=
  off <= o /\ o + saved_size b <= off + Z.of_nat (length out) /\
  (0 < saved_size b -> host_load h (begin b OPT_READ_ALL) (saved_size b)
     = Ok (take (Z.to_nat (saved_size b)) (drop (Z.to_nat (o - off)) out))).

Lemma write_loads_spec h blocks off out e :
  0 <= off -> write_loads h blocks (load_phdrs blocks off) off = Ok (out, e) ->
  off + Z.of_nat (length out) < 2 ^ (8 * lw) ->
  e = off + Z.of_nat (length out) /\
  (forall k ph, load_phdrs blocks off !! k = Some ph ->
     exists b, blocks !! k = Some b /\ ph = hdr b (h_off ph) /\ placed h off out b (h_off ph)) /\
  pairwise (fun x y => h_off x + h_fsz x <= h_off y) (load_phdrs blocks off).
Proof.
  revert off out e. induction blocks as [|b l IH]; intros off out e Ho H He.
  { cbn in H. injection H as <- <-. cbn. split_and!; [lia|done|].
    intros ? ? ? ? _ Hx. by rewrite lookup_nil in Hx. }
  cbn [load_phdrs write_loads] in *. set (n := saved_size b) in *.
  pose proof (saved_size_range b) as Hn. fold n in Hn.
  change (h_fsz (_, _, _, _, n, _, _)) with n in H.
  assert (exists bs rest, out = bs ++ rest /\ Z.of_nat (length bs) = n /\
    (0 < n -> host_load h (begin b OPT_READ_ALL) n = Ok bs) /\
    write_loads h l (load_phdrs l (uword (off + n))) (uword (off + n)) = Ok (rest, e))
    as (bs & rest & -> & Hlen & Hbs & Hrest).
  { destruct (nz n && isValid b) eqn:E.
    - res_inv. destruct v0 as [rest e']. injection H as <- <-.
      apply fwrite_Ok in E0 as [E0 Hbs]; [|lia]. exists v, rest. by split_and!.
    - assert (n = 0) as Hz.
      { destruct (Z.eq_dec n 0) as [|Hne]; [done|]. rewrite (saved_size_valid b Hne) in E.
        unfold nz in E. rewrite andb_true_r in E. to_prop. lia. }
      exists [], out. rewrite Hz, Z.add_0_r in *. unfold uword.
      rewrite wrap_small by lia. split_and!; [done|done|lia|]. rewrite <- H.
      unfold uword. by rewrite wrap_small by lia. }
  rewrite length_app in *.
  assert (uword (off + n) = off + n) as Hu by (apply wrap_small; lia). rewrite Hu in *.
  apply IH in Hrest as (-> & Hk & Hp); [|lia..]. split_and!; [lia| |].
  - intros [|k] ph Hph; cbn in Hph.
    + injection Hph as <-. exists b. split_and!; [done..|]. cbn [h_off].
      unfold placed. rewrite length_app. fold n. split_and!; [lia|lia|]. intros Hpos.
      rewrite Z.sub_diag. cbn [Z.to_nat]. rewrite drop_0, take_app_length' by lia. auto.
    + destruct (Hk k ph Hph) as (b' & Hb' & E & H1 & H2 & H3). exists b'. split_and!; [done..|].
      unfold placed. rewrite length_app. split_and!; [lia|lia|]. intros Hpos. rewrite H3 by done.
      do 2 f_equal. rewrite drop_app_ge by lia. f_equal. lia.
  - apply pairwise_cons. split; [|done]. apply Forall_elem. intros y [k Hy]%list_elem_of_lookup.
    destruct (Hk k y Hy) as (_ & _ & _ & H1 & _). cbn. unfold n in *. lia.
Qed.
End Contents.

(** * The file *)

Section FileShape.
Context {L : Layout} {HL : StdLayout L}.

(** The ELF header of the file, [e] being the offset of the section header. *)
Definition final_ehdr (n e : Z) (old : list Z) : list Z :=
  if extended n then splice (Z.to_nat eh_shoff) (le_bytes (Z.to_nat lw) e) (new_ehdr n old)
  else new_ehdr n old.

(** Part [off] of a list is [bs]. *)
Definition part_is (l : list Z) (off : Z) (bs : list Z) : Prop :=
  take (length bs) (drop (Z.to_nat off) l) = bs.

Lemma final_ehdr_spec n e old :
  Z.of_nat (length old) = eh_size ->
  let E := final_ehdr n e old in
  Z.of_nat (length E) = eh_size /\ Z.of_nat (length (new_ehdr n old)) = eh_size /\
  part_is E eh_phnum (le_bytes 2 (if extended n then PN_XNUM else n)) /\
  (extended n = true ->
     part_is E eh_shnum (le_bytes 2 1) /\ part_is E eh_shoff (le_bytes (Z.to_nat lw) e)).
Proof.
  intros Hl. unfold final_ehdr, new_ehdr, set_half, part_is. rewrite !le_bytes_length.
  assert (Hsz : forall off m v l, Z.of_nat (length l) = eh_size -> Z.of_nat off + Z.of_nat m <= eh_size ->
    Z.of_nat (length (splice off (le_bytes m v) l)) = eh_size).
  { intros off m v l E1 E2. rewrite splice_length; [done|]. rewrite le_bytes_length. lia. }
  assert (Hsame : forall off m v l, Z.of_nat (length l) = eh_size ->
    Z.of_nat off + Z.of_nat m <= eh_size -> take m (drop off (splice off (le_bytes m v) l)) = le_bytes m v).
  { intros off m v l E1 E2. rewrite <- (le_bytes_length m v) at 1. apply splice_same.
    rewrite le_bytes_length. lia. }
  assert (Hout : forall off m v k i l, Z.of_nat (length l) = eh_size ->
    Z.of_nat off + Z.of_nat m <= eh_size -> (k + i <= off \/ off + m <= k)%nat ->
    take i (drop k (splice off (le_bytes m v) l)) = take i (drop k l)).
  { intros off m v k i l E1 E2 E3. apply splice_outside; rewrite le_bytes_length; lia. }
  unfold eh_shentsize, extended. cbn zeta.
  destruct HL as [-> | ->]; cbn -[splice le_bytes Z.leb] in *;
    [destruct (PN_XNUM <=? n)|]; cbn -[splice le_bytes] in *; split_and!; try done;
    try (intros _; split); repeat first [rewrite Hsame | rewrite Hout | apply Hsz | done | lia].
Qed.

Lemma count_shdr_info n : part_is (count_shdr n) sh_info (le_bytes 4 n).
Proof.
  unfold part_is, count_shdr. rewrite splice_same; [done|].
  rewrite splice_length; rewrite ?le_bytes_length, length_replicate;
    destruct HL as [-> | ->]; by apply Nat.leb_le.
Qed.

Lemma count_shdr_length n : Z.of_nat (length (count_shdr n)) = sh_bytes.
Proof.
  unfold count_shdr. rewrite !splice_length; rewrite ?le_bytes_length, ?length_replicate;
    destruct HL as [-> | ->]; (by apply Nat.leb_le) || done.
Qed.

Lemma phdrs_bytes_length t hs :
  Z.of_nat (length (flat_map (phdr_bytes t) hs)) = ph_size * Z.of_nat (length hs).
Proof.
  induction hs as [|ph hs IH]; cbn; [lia|]. rewrite length_app, Nat2Z.inj_add, IH, phdr_bytes_length. lia.
Qed.

Lemma note_phdrs_length notes cur : length (fst (note_phdrs notes cur)) = length notes.
Proof.
  revert cur. induction notes as [|b l IH]; intros cur; cbn; [done|].
  specialize (IH (RoundUp (8 * lw) (uword (cur + uword (mFileSize b))) ELF_PAGE_SIZE)).
  destruct (note_phdrs l _). cbn in *. by rewrite IH.
Qed.

Lemma load_phdrs_length blocks off : length (load_phdrs blocks off) = length blocks.
Proof. revert off. induction blocks; intros; cbn; auto. Qed.

Lemma note_phdrs_fits notes cur :
  0 <= cur < 2 ^ (8 * lw) -> Forall ph_fits (fst (note_phdrs notes cur)).
Proof.
  revert cur. induction notes as [|b l IH]; intros cur Hc; cbn; [done|].
  pose proof layout_sizes as Hs.
  specialize (IH (RoundUp (8 * lw) (uword (cur + uword (mFileSize b))) ELF_PAGE_SIZE)
    ltac:(apply (RoundUp_bounds _ _ 12); lia)).
  destruct (note_phdrs l _). constructor; [|done].
  split; [apply wrap_range; lia|]. repeat apply Forall_cons_2; (apply uword_range || lia || by constructor).
Qed.

(** The loader finds the written headers one after the other. *)
Lemma read_phdrs h t hs a :
  host_wf h -> 0 <= a -> a + ph_size * Z.of_nat (length hs) < 2 ^ 64 -> 0 <= t < 2 ^ 32 ->
  Forall ph_fits hs -> holds h a (flat_map (phdr_bytes t) hs) ->
  forall k ph, hs !! k = Some ph -> read_phdr h (u64 (a + ph_size * Z.of_nat k)) = Ok (t, ph).
Proof.
  intros Hh. pose proof layout_sizes as Hs. revert a. induction hs as [|x hs IH]; intros a Ha He Ht Hf H k ph Hk;
    [done|]. apply Forall_cons_1 in Hf as [Hx Hf]. cbn [flat_map length] in *.
  apply holds_app in H as [H1 H2]; [|done]. rewrite phdr_bytes_length in H2.
  rewrite Nat2Z.inj_succ, Z.mul_succ_r in He.
  assert (0 <= ph_size * Z.of_nat (length hs)) as Hp by nia.
  destruct k as [|k]; cbn in Hk.
  - injection Hk as <-. rewrite Z.mul_0_r, Z.add_0_r, wrap_small by lia.
    apply read_phdr_bytes; done || lia.
  - rewrite <- (IH (a + ph_size)) with (k := k); [|lia|lia|done..].
    do 2 f_equal. lia.
Qed.

(** The parts of the file. *)
Record file_parts (c : CoreApi) (file : list Z) (n e : Z) (old N D T : list Z)
    (nphs lphs : list phdr) : Prop := {
  fp_n : n = Z.of_nat (length (mLoad c)) + Z.of_nat (length (mNote c));
  fp_file : file = final_ehdr n e old ++ flat_map (phdr_bytes PT_NOTE) nphs
              ++ flat_map (phdr_bytes PT_LOAD) lphs ++ N ++ D ++ T;
  fp_old : Z.of_nat (length old) = eh_size;
  fp_notes : nphs = fst (note_phdrs (mNote c) (eh_size + n * ph_size));
  fp_loads : lphs = load_phdrs (lb c <$> mLoad c) (e - Z.of_nat (length D));
  fp_end : e = eh_size + n * ph_size + Z.of_nat (length N) + Z.of_nat (length D);
  fp_write : write_loads (host_mem c) (lb c <$> mLoad c) lphs (e - Z.of_nat (length D)) = Ok (D, e);
  fp_tail : T = if extended n then count_shdr n else [];
}.

Lemma execute_parts c file :
  execute c = Ok file -> Z.of_nat (length file) + ELF_PAGE_SIZE < 2 ^ (8 * lw) ->
  exists n e old N D T nphs lphs, file_parts c file n e old N D T nphs lphs.
Proof.
  intros H Hlen. unfold execute in H. res_inv. rename v into old, E into Eold.
  apply host_load_length in Eold. set (count := _ + _) in H.
  destruct (Z.ltb_spec (real_phnum count) count) as [|Hge]; [done|].
  assert (real_phnum count = count) as Hn.
  { assert (0 <= count) by lia. unfold real_phnum in *.
    destruct (lw =? 8); unfold wrap in *; pose proof (Z.mod_le count (2 ^ 32));
    pose proof (Z.mod_le count (2 ^ 16)); lia. }
  rewrite Hn in H. clear Hn Hge. set (start := uword (eh_size + count * ph_size)) in H.
  pose proof (note_phdrs_length (mNote c) start) as Hnl.
  destruct (note_phdrs (mNote c) start) as [nphs off] eqn:En. res_inv.
  destruct v as [N e1], v0 as [D e]. cbn [fst snd] in *.
  destruct (final_ehdr_spec count e old Eold) as (HE1 & HE2 & _).
  set (lphs := load_phdrs (lb c <$> mLoad c) off) in *.
  assert (Hfile : file = final_ehdr count e old ++ flat_map (phdr_bytes PT_NOTE) nphs
    ++ flat_map (phdr_bytes PT_LOAD) lphs ++ N ++ D ++ (if extended count then count_shdr count else [])).
  { unfold final_ehdr in *. destruct (extended count); injection H as <-.
    - unfold splice at 1. rewrite take_0, Nat.add_0_l. cbn [app]. f_equal.
      rewrite <- !app_assoc. rewrite drop_app_ge by lia.
      replace (_ - _)%nat with 0%nat by lia. done.
    - by rewrite app_nil_r. }
  pose proof (f_equal (fun l => Z.of_nat (length l)) Hfile) as Hl. cbn beta in Hl.
  rewrite !length_app, !Nat2Z.inj_add, !phdrs_bytes_length, HE1, Hnl in Hl.
  unfold lphs in Hl. rewrite load_phdrs_length, length_fmap in Hl.
  assert (ELF_PAGE_SIZE = 4096) as Hps by done. pose proof layout_sizes as Hsz.
  assert (start = eh_size + count * ph_size) as Hstart.
  { unfold start, uword. rewrite wrap_small; [done|]. unfold count. clear - Hl Hlen Hps Hsz. nia. }
  replace nphs with (fst (note_phdrs (mNote c) start)) in E by (by rewrite En).
  apply write_notes_spec in E as [He1 Hoff]; [|rewrite Hstart; unfold count; nia|unfold count in *; nia].
  rewrite En in Hoff. cbn [snd] in Hoff. subst off.
  assert (e = e1 + Z.of_nat (length D)) as He.
  { eapply (write_loads_spec (host_mem c) (lb c <$> mLoad c)); [|exact E0|]; subst e1;
      rewrite Hstart; unfold count in *; nia. }
  exists count, e, old, N, D, (if extended count then count_shdr count else []), nphs, lphs.
  split; try done; rewrite ?He, ?Z.add_simpl_r; [by rewrite <- Hstart, En|done|lia|by rewrite <- He].
Qed.

Lemma file_parts_length c file n e old N D T nphs lphs :
  file_parts c file n e old N D T nphs lphs ->
  Z.of_nat (length file) = e + Z.of_nat (length T) /\
  n = Z.of_nat (length nphs) + Z.of_nat (length lphs).
Proof.
  intros [Hn Hf Ho Hnl Hll He _ _]. destruct (final_ehdr_spec n e old Ho) as (E1 & _).
  apply (f_equal (fun l => Z.of_nat (length l))) in Hf.
  rewrite !length_app, !Nat2Z.inj_add, !phdrs_bytes_length, E1 in Hf.
  assert (length lphs = length (mLoad c)) as Hl by (by rewrite Hll, load_phdrs_length, length_fmap).
  assert (length nphs = length (mNote c)) as Hm by (by rewrite Hnl, note_phdrs_length).
  rewrite Hl, Hm in *. split; [|lia]. rewrite Hf, He, Hn. ring.
Qed.
End FileShape.

(** * Loading the file *)

(** A callback that only looks at the file and changes notes and masks. *)
Record same_file (c c' : CoreApi) : Prop := {
  sf_core : mCore c' = mCore c;
  sf_host : host_mem c' = host_mem c;
  sf_load : mLoad c' = mLoad c;
  sf_quick : mQuickLoad c' = mQuickLoad c;
  sf_mode : QUICK_LOAD_ENABLED c' = QUICK_LOAD_ENABLED c;
}.

Lemma same_file_refl c : same_file c c.
Proof. done. Qed.
Lemma same_file_trans c1 c2 c3 : same_file c1 c2 -> same_file c2 c3 -> same_file c1 c3.
Proof. intros [] []. split; congruence. Qed.

Class CallbackKeeps (CB : NoteCallback) : Prop :=
  cb_keeps : forall c type pos t c' t', cb_note c type pos t = Ok (c', t') -> same_file c c'.

#[export] Instance plain_keeps a b n : CallbackKeeps (plain_callback a b n).
Proof. intros ??????; cbn. intros. by simplify_eq. Qed.

#[export] Instance arm64_keeps : CallbackKeeps arm64_callback.
Proof.
  intros ??????. cbn. unfold arm64_note, ctzll. cbn zeta. intros H.
  repeat (case_match; res_inv; simplify_eq; try done).
Qed.

Section LoadFile.
Context {L : Layout} {HL : StdLayout L} {CB : NoteCallback} {HCB : CallbackKeeps CB}.

Lemma parse_note_keeps c b last pos c' b' last' pos' :
  parse_note c b last pos = Ok (c', b', last', pos') -> same_file c c'.
Proof.
  unfold parse_note. cbn zeta. intros H. res_inv. destruct v2 as [[c1 b1] l1]. res_inv.
  simplify_eq.
  destruct (_ =? NT_PRSTATUS) in E2; [res_inv; by simplify_eq|].
  destruct (_ =? NT_AUXV) in E2; [res_inv; by simplify_eq|].
  destruct (_ =? NT_FILE) in E2; [res_inv; by simplify_eq|].
  res_inv. destruct v2 as [c2 t2]. res_inv. simplify_eq. by eapply cb_keeps.
Qed.

Lemma note_loop_keeps fuel c b last pos end_ c' b' :
  note_loop fuel c b last pos end_ = Ok (c', b') -> same_file c c'.
Proof.
  revert c b last pos. induction fuel as [|n IH]; intros c b last pos; cbn [note_loop]; [done|].
  destruct (pos <? end_); [|by intros [= <- <-]]. intros H. res_inv.
  destruct v as [[[c1 b1] l1] p1]. apply IH in H. eapply same_file_trans; [|exact H].
  by eapply parse_note_keeps.
Qed.

Lemma load_note_keeps c ph c' : load_note c ph = Ok c' -> same_file c c'.
Proof.
  destruct ph as [[[[[[f off] va] pa] fsz] msz] al]. unfold load_note. cbn zeta.
  destruct (isValidBlock _); cbn [negb]; [|by intros [= ->]]. intros H. res_inv.
  destruct v as [c1 b1]. res_inv. simplify_eq. apply note_loop_keeps in E as []. by split.
Qed.

(** A loop over headers none of which is a PT_LOAD. *)
Lemma phdrs_loop_notes n c p c' :
  (forall k, (k < n)%nat -> exists ph,
     read_phdr (host_mem c) (u64 (p + ph_size * Z.of_nat k)) = Ok (PT_NOTE, ph)) ->
  0 <= p < 2 ^ 64 -> phdrs_loop n c p = Ok c' -> same_file c c'.
Proof.
  revert c p. induction n as [|n IH]; intros c p Hr Hp; cbn [phdrs_loop]; [by intros [= ->]|].
  destruct (Hr 0%nat) as [ph Hph]; [lia|]. rewrite Z.mul_0_r, Z.add_0_r, wrap_small in Hph by done.
  rewrite Hph. cbn [rbind]. change (PT_NOTE =? PT_LOAD) with false.
  change (PT_NOTE =? PT_NOTE) with true. cbn iota. intros H. res_inv.
  apply load_note_keeps in E. apply IH in H.
  - by eapply same_file_trans.
  - intros k Hk. rewrite (sf_host _ _ E), wrap_add_l by lia. destruct (Hr (S k)) as [x Hx]; [lia|].
    exists x. rewrite <- Hx. do 2 f_equal. lia.
  - apply wrap_range. lia.
Qed.

Lemma phdrs_loop_app n m c p :
  0 <= p < 2 ^ 64 ->
  phdrs_loop (n + m) c p =
    let! c1 := phdrs_loop n c p in phdrs_loop m c1 (u64 (p + ph_size * Z.of_nat n)).
Proof.
  revert c p. induction n as [|n IH]; intros c p Hp.
  - cbn -[Z.mul]. by rewrite Z.mul_0_r, Z.add_0_r, wrap_small.
  - cbn [Nat.add phdrs_loop]. destruct (read_phdr _ _) as [[t ph]| | |]; cbn [rbind]; [|done..].
    destruct (if t =? PT_LOAD then _ else _) as [c1| | |]; cbn [rbind]; [|done..].
    rewrite IH by (apply wrap_range; lia). rewrite wrap_add_l by lia.
    destruct (phdrs_loop n c1 _); cbn [rbind]; [|done..]. do 2 f_equal. lia.
Qed.

Lemma part_holds h a l off bs :
  host_wf h -> holds h a l -> 0 <= off -> off + Z.of_nat (length bs) <= Z.of_nat (length l) ->
  part_is l off bs -> holds h (a + off) bs.
Proof.
  intros Hh Hl H0 Hlen Hp. rewrite <- Hp. rewrite <- (Z2Nat.id off) at 1 by done.
  apply holds_sub; [done..|lia].
Qed.

(** An ELF header that says [n] program headers, the section header being at [e]. *)
Record counts (E : list Z) (n e : Z) : Prop := {
  ct_size : Z.of_nat (length E) = eh_size;
  ct_phnum : part_is E eh_phnum (le_bytes 2 (if PN_XNUM <=? n then PN_XNUM else n));
  ct_shnum : PN_XNUM <= n -> part_is E eh_shnum (le_bytes 2 1);
  ct_shoff : PN_XNUM <= n -> part_is E eh_shoff (le_bytes (Z.to_nat lw) e);
}.

Lemma holds_part_le h base E off m v :
  host_wf h -> holds h base E -> 0 <= off -> off + Z.of_nat m <= Z.of_nat (length E) ->
  0 <= v < 2 ^ (8 * Z.of_nat m) -> part_is E off (le_bytes m v) ->
  host_word h (base + off) (Z.of_nat m) = Ok v.
Proof.
  intros Hh HE H1 H2 H3 H4. eapply holds_le; [|done|done].
  apply (part_holds _ _ E); rewrite ?le_bytes_length; done || lia.
Qed.

(** The number of headers and where they are. *)
Lemma load_counted c0 E n e :
  counts E n e -> 0 <= n < 2 ^ 31 -> host_wf (host_mem c0) ->
  holds (host_mem c0) (mBegin (mCore c0)) E -> 0 <= mBegin (mCore c0) ->
  mBegin (mCore c0) + eh_size < 2 ^ 64 ->
  (PN_XNUM <= n -> 0 <= e < 2 ^ (8 * lw) /\ mBegin (mCore c0) + e + sh_bytes < 2 ^ 64 /\
     holds (host_mem c0) (mBegin (mCore c0) + e) (count_shdr n)) ->
  load c0 = let! c' := phdrs_loop (Z.to_nat n) c0 (mBegin (mCore c0) + eh_size) in Ok (c', true).
Proof.
  intros [E1 E2 E3 E4] Hn Hh HE Hb He Hx. set (base := mBegin (mCore c0)) in *.
  pose proof layout_sizes as Hsz.
  assert (Ho : 0 <= eh_phnum /\ eh_phnum + 2 <= eh_size /\ 0 <= eh_shnum /\ eh_shnum + 2 <= eh_size /\
    0 <= eh_shoff /\ eh_shoff + lw <= eh_size /\ 0 <= sh_info /\ sh_info + 4 <= sh_bytes).
  { destruct HL as [-> | ->]; cbn; lia. }
  unfold load. fold base. cbn zeta. rewrite (wrap_small 64 (base + eh_phnum)) by lia.
  assert (host_word (host_mem c0) (base + eh_phnum) 2
    = Ok (if PN_XNUM <=? n then PN_XNUM else n)) as ->.
  { apply (holds_part_le _ _ E eh_phnum 2); [done|done|lia|lia| |done]. unfold PN_XNUM in *.
    destruct (Z.leb_spec 0xffff n); lia. }
  cbn [rbind]. destruct (Z.leb_spec PN_XNUM n) as [Hx'|Hx'].
  - destruct (Hx Hx') as (X1 & X2 & X3). change (PN_XNUM =? PN_XNUM) with true. cbn iota.
    rewrite (wrap_small 64 (base + eh_shnum)) by lia.
    assert (host_word (host_mem c0) (base + eh_shnum) 2 = Ok 1) as ->
      by (apply (holds_part_le _ _ E eh_shnum 2); auto; lia).
    cbn [rbind]. change (1 =? 0) with false.
    cbn iota. rewrite (wrap_small 64 (base + eh_shoff)) by lia.
    assert (host_word (host_mem c0) (base + eh_shoff) lw = Ok e) as ->.
    { rewrite <- (Z2Nat.id lw) by lia.
      apply (holds_part_le _ _ E); rewrite ?Z2Nat.id by lia; auto; lia. }
    cbn [rbind]. rewrite wrap_small by lia.
    assert (host_word (host_mem c0) (base + e + sh_info) 4 = Ok n) as ->.
    { apply (holds_part_le _ _ (count_shdr n) _ 4); [done|done|lia| |lia|apply count_shdr_info].
      rewrite count_shdr_length. lia. }
    cbn [rbind]. rewrite sint_small by lia. rewrite wrap_small by lia. done.
  - destruct (Z.eqb_spec n PN_XNUM); [lia|].
    cbn [rbind]. rewrite wrap_small by lia. done.
Qed.

Lemma load_count c0 c file n e old N D T nphs lphs :
  file_parts c file n e old N D T nphs lphs ->
  host_wf (host_mem c0) -> holds (host_mem c0) (mBegin (mCore c0)) file ->
  0 <= mBegin (mCore c0) -> mBegin (mCore c0) + Z.of_nat (length file) < 2 ^ 64 ->
  Z.of_nat (length file) < 2 ^ (8 * lw) -> n < 2 ^ 31 -> lw = 8 \/ n < PN_XNUM ->
  load c0 = let! c' := phdrs_loop (Z.to_nat n) c0 (mBegin (mCore c0) + eh_size) in Ok (c', true).
Proof.
  intros HF Hh Hfile Hb He Hw Hn Hx.
  destruct (final_ehdr_spec n e old (fp_old _ _ _ _ _ _ _ _ _ _ HF)) as (E1 & _ & E2 & E3).
  pose proof (fp_file _ _ _ _ _ _ _ _ _ _ HF) as Hf. pose proof (fp_n _ _ _ _ _ _ _ _ _ _ HF) as Hn0.
  destruct (file_parts_length _ _ _ _ _ _ _ _ _ _ HF) as [Hl _]. pose proof layout_sizes as Hsz.
  pose proof (fp_tail _ _ _ _ _ _ _ _ _ _ HF) as Ht. pose proof (fp_end _ _ _ _ _ _ _ _ _ _ HF) as Hend.
  assert (0 <= n * ph_size) as Hnp by (destruct Hsz; nia).
  assert (Hext : extended n = (PN_XNUM <=? n)).
  { unfold extended. destruct Hx as [->|Hx]; [done|]. destruct (Z.leb_spec PN_XNUM n); [lia|].
    by rewrite andb_false_r. }
  rewrite Hext in *. apply (load_counted c0 (final_ehdr n e old) n e); [|lia|done| |lia|lia|].
  - split; [done|done| |]; intros Hle%Z.leb_le; by apply E3.
  - rewrite Hf in Hfile. by apply holds_app in Hfile as [Hfile _].
  - intros Hle%Z.leb_le. rewrite Hle in Ht. subst T. rewrite count_shdr_length in Hl.
    assert (0 < sh_bytes) by (destruct HL as [-> | ->]; done).
    split_and!; [lia|lia|lia|].
    assert (exists pre, file = pre ++ count_shdr n) as [pre Hpre]
      by (eexists; rewrite Hf, !app_assoc; reflexivity).
    rewrite Hpre in Hfile, Hl. rewrite length_app, <- count_shdr_length with (n := n) in Hl.
    apply holds_app in Hfile as [_ Hfile]; [|done].
    by replace e with (Z.of_nat (length pre)) by lia.
Qed.
End LoadFile.

(** * The round trip *)

(** How many bytes of a readable segment a file keeps: those of its file contents, or the
    whole memory of a segment that has none (one that is only mapped). *)
Definition kept (b : LoadBlock) : Z := if mFileSize b =? 0 then mMemSize b else mFileSize b.

(** A core whose segments can be saved: their values fit the fields of the file, the quick
    list is the one a load builds, and a readable segment has the bytes the file keeps. *)
Record saveable {L : Layout} (c : CoreApi) : Prop := {
  sv_wf : wf c;
  sv_space : space_ok c;
  sv_quick : forall id, id ∈ mLoad c ->
    (id ∈ mQuickLoad c <-> negb (QUICK_LOAD_ENABLED c) || nz (mFlags (lb c id)) = true);
  sv_fits : forall id, id ∈ mLoad c ->
    0 <= mFlags (lb c id) < 2 ^ 32 /\ 0 <= mFileSize (lb c id) <= mMemSize (lb c id) /\
    0 <= mVaddr (lb c id) /\ mVaddr (lb c id) + mMemSize (lb c id) < 2 ^ (8 * lw);
  sv_size : forall id, id ∈ mQuickLoad c -> isValid (lb c id) = true ->
    kept (lb c id) <= size (lb c id) OPT_READ_ALL;
}.

(** The byte of an address in a saved core: that of the address space, except that the part
    of a readable segment behind the bytes that are kept reads as zeros. *)
Definition saved_byte (c : CoreApi) (a : Z) : option Z :=
  let? id := linear_find c a (mQuickLoad c) in
  if isValid (lb c id) && (kept (lb c id) <=? a - mVaddr (lb c id)) then Some 0
  else target_byte c a.

Section RoundTrip.
Context {L : Layout} {HL : StdLayout L} {CB : NoteCallback} {HCB : CallbackKeeps CB}.

Lemma saved_size_le (b : LoadBlock) : 0 <= mFileSize b <= mMemSize b -> mMemSize b < 2 ^ (8 * lw) ->
  saved_size b <= mMemSize b.
Proof.
  intros Hf Hm. unfold saved_size, uword. rewrite !wrap_small by lia.
  destruct (negb (nz (mFileSize b)) && _), (nz (mFileSize b) && _); lia.
Qed.

(** A readable segment is saved with the bytes it keeps. *)
Lemma saved_size_kept (b : LoadBlock) :
  0 <= mFileSize b <= mMemSize b -> mMemSize b < 2 ^ (8 * lw) -> isValid b = true ->
  saved_size b = kept b.
Proof.
  intros Hf Hm Hv. unfold saved_size, kept, uword. rewrite !wrap_small, Hv by lia. unfold nz.
  destruct (Z.eqb_spec (mFileSize b) 0); done.
Qed.

(** The headers of the saved segments. *)
Lemma saved_headers c file n e old N D T nphs lphs :
  saveable c -> file_parts c file n e old N D T nphs lphs ->
  Z.of_nat (length file) < 2 ^ (8 * lw) ->
  (forall k ph, lphs !! k = Some ph -> exists id, mLoad c !! k = Some id /\
     h_flags ph = mFlags (lb c id) /\ h_va ph = mVaddr (lb c id) /\
     h_msz ph = mMemSize (lb c id) /\ h_fsz ph = saved_size (lb c id) /\
     placed (host_mem c) (e - Z.of_nat (length D)) D (lb c id) (h_off ph)) /\
  length lphs = length (mLoad c) /\ Forall ph_fits lphs /\
  pairwise (fun x y => h_off x + h_fsz x <= h_off y) lphs.
Proof.
  intros Hs HF Hlen. destruct (file_parts_length _ _ _ _ _ _ _ _ _ _ HF) as [Hl _].
  destruct HF as [Hn _ _ _ Hll He Hw _]. pose proof layout_sizes as Hsz.
  rewrite Hll in Hw. assert (0 <= n * ph_size) by (rewrite Hn; nia).
  apply write_loads_spec in Hw as (_ & Hk & Hp); [|lia..]. rewrite <- Hll in Hk, Hp.
  assert (Hall : forall k ph, lphs !! k = Some ph -> exists id, mLoad c !! k = Some id /\
    ph = hdr (lb c id) (h_off ph) /\
    placed (host_mem c) (e - Z.of_nat (length D)) D (lb c id) (h_off ph)).
  { intros k ph Hph. destruct (Hk k ph Hph) as (b & Hb & Eb & Pb).
    rewrite list_lookup_fmap in Hb. destruct (mLoad c !! k) as [id|]; [|done].
    injection Hb as <-. eauto. }
  split_and!; [| | |done].
  - intros k ph Hph. destruct (Hall k ph Hph) as (id & Hid & Eph & Hpl). exists id.
    destruct (sv_fits c Hs id) as (F1 & F2 & F3 & F4); [by eapply list_elem_of_lookup_2|].
    split_and!; try done; rewrite Eph; cbn; unfold uword; try apply wrap_small; lia || done.
  - by rewrite Hll, load_phdrs_length, length_fmap.
  - apply Forall_elem. intros ph [k Hph]%list_elem_of_lookup.
    destruct (Hall k ph Hph) as (id & _ & Eph & Hpl). rewrite Eph.
    destruct Hpl as (P1 & P2 & _). pose proof (saved_size_range (lb c id)).
    split; [apply wrap_range; lia|]. repeat apply Forall_cons_2; (apply uword_range || lia || by constructor).
Qed.

(** The contents of the file at the offset of a segment. *)
Lemma placed_lookup c file n e old N D T nphs lphs b o j :
  host_wf (host_mem c) -> file_parts c file n e old N D T nphs lphs ->
  placed (host_mem c) (e - Z.of_nat (length D)) D b o -> 0 <= e - Z.of_nat (length D) ->
  0 <= j < saved_size b -> saved_size b <= size b OPT_READ_ALL ->
  forall bs, view (host_mem c) b bs -> file !! Z.to_nat (o + j) = bs !! Z.to_nat j.
Proof.
  intros Hh HF (P1 & P2 & P3) H0 Hj Hsz bs Hv.
  destruct (file_parts_length _ _ _ _ _ _ _ _ _ _ HF) as [Hl _].
  assert (exists pre, file = pre ++ D ++ T) as [pre Hpre].
  { exists (final_ehdr n e old ++ flat_map (phdr_bytes PT_NOTE) nphs
      ++ flat_map (phdr_bytes PT_LOAD) lphs ++ N).
    rewrite <- !app_assoc. apply (fp_file _ _ _ _ _ _ _ _ _ _ HF). }
  rewrite Hpre, !length_app in Hl.
  pose proof (view_load _ _ _ Hv) as Hb.
  apply (host_load_sub _ _ _ _ 0 (saved_size b) Hh) in Hb; [|lia..].
  rewrite Z.add_0_r, (P3 ltac:(lia)), drop_0 in Hb. injection Hb as Hb.
  rewrite <- (lookup_take_lt bs (Z.to_nat (saved_size b))), <- Hb by lia.
  rewrite Hpre, lookup_app_r by lia. rewrite lookup_app_l by lia.
  rewrite lookup_take_lt, lookup_drop by lia. f_equal. lia.
Qed.

(** A core loaded from the file, as [load_presents] describes it. *)
Section Same.
Context (c c' : CoreApi) (file : list Z) (n e : Z) (old N D T : list Z) (nphs lphs : list phdr).
Hypothesis Hs : saveable c.
Hypothesis HF : file_parts c file n e old N D T nphs lphs.
Hypothesis Hlen : Z.of_nat (length file) < 2 ^ (8 * lw).
Hypothesis Hin : forall ph j, ph ∈ lphs ->
  negb (QUICK_LOAD_ENABLED c) || nz (h_flags ph) = true -> 0 < h_fsz ph -> 0 <= j < h_msz ph ->
  target_byte c' (h_va ph + j)
    = if j <? h_fsz ph then file !! Z.to_nat (h_off ph + j) else Some 0.
Hypothesis Hout : forall a, (forall ph, ph ∈ lphs -> ~ h_va ph <= a < h_va ph + h_msz ph) ->
  target_byte c' a = None.
Hypothesis Hno : forall ph j, ph ∈ lphs -> 0 <= j < h_msz ph ->
  negb (QUICK_LOAD_ENABLED c) || nz (h_flags ph) = false \/ h_fsz ph = 0 ->
  target_byte c' (h_va ph + j) = None.

(** Outside the segments both cores have no byte. *)
Lemma saved_outside a :
  (forall ph, ph ∈ lphs -> ~ h_va ph <= a < h_va ph + h_msz ph) ->
  target_byte c' a = saved_byte c a.
Proof.
  intros Ha. destruct (saved_headers _ _ _ _ _ _ _ _ _ _ Hs HF Hlen) as (Hk & Hkl & _).
  rewrite Hout by done. unfold saved_byte.
  destruct (linear_find c a _) as [id|] eqn:Ef; [|done]. exfalso.
  apply linear_find_Some in Ef as [Hid Hcov%covers_spec].
  apply (wf_sub c (sv_wf c Hs)), list_elem_of_lookup in Hid as [k Hid].
  destruct (lphs !! k) as [ph|] eqn:Hph;
    [|apply lookup_ge_None in Hph; apply lookup_lt_Some in Hid; lia].
  destruct (Hk k ph Hph) as (id' & Hid' & _ & Ev & Em & _).
  assert (id' = id) as -> by congruence.
  apply (Ha ph); [by eapply list_elem_of_lookup_2|lia].
Qed.

(** Segments the quick list leaves out have none in either core. *)
Lemma saved_skipped ph id k a :
  lphs !! k = Some ph -> mLoad c !! k = Some id -> covers c a id = true ->
  h_flags ph = mFlags (lb c id) -> h_va ph <= a < h_va ph + h_msz ph ->
  negb (QUICK_LOAD_ENABLED c) || nz (h_flags ph) = false ->
  target_byte c' a = saved_byte c a.
Proof.
  intros Hph Hid Hcov Ef Hr Hskip. replace a with (h_va ph + (a - h_va ph)) at 1 by lia.
  rewrite Hno; [|by eapply list_elem_of_lookup_2|lia|by left]. unfold saved_byte.
  destruct (linear_find c a _) as [id'|] eqn:Efind; [|done]. exfalso.
  apply linear_find_Some in Efind as [Hid' Hcov'].
  pose proof (wf_sub c (sv_wf c Hs) _ Hid') as [k' Hk']%list_elem_of_lookup.
  assert (k' = k) as ->.
  { apply (covers_unique c (mLoad c) a k' k id' id); try done. apply (sv_wf c Hs). }
  assert (id' = id) as -> by congruence.
  apply (sv_quick c Hs id) in Hid'; [congruence|by eapply list_elem_of_lookup_2].
Qed.

(** A segment of the quick list shows the same bytes. *)
Lemma saved_kept ph id k a :
  lphs !! k = Some ph -> mLoad c !! k = Some id -> covers c a id = true ->
  h_flags ph = mFlags (lb c id) -> h_va ph = mVaddr (lb c id) ->
  h_msz ph = mMemSize (lb c id) -> h_fsz ph = saved_size (lb c id) ->
  placed (host_mem c) (e - Z.of_nat (length D)) D (lb c id) (h_off ph) ->
  h_va ph <= a < h_va ph + h_msz ph ->
  negb (QUICK_LOAD_ENABLED c) || nz (h_flags ph) = true ->
  target_byte c' a = saved_byte c a.
Proof.
  intros Hph Hid Hcov Ef Ev Em Es Hpl Hr Hkeep. pose proof (sv_space c Hs) as Hsp.
  apply list_elem_of_lookup_2 in Hph, Hid. pose proof Hkeep as Hq. rewrite Ef in Hq.
  apply (sv_quick c Hs id Hid) in Hq.
  assert (Ea : a = h_va ph + (a - h_va ph)) by lia. rewrite Ea at 1.
  unfold saved_byte, target_byte at 2.
  rewrite (linear_find_elem c (mQuickLoad c) a id) by (done || apply Hsp). cbn [mbind option_bind].
  rewrite <- Ev. destruct (isValid (lb c id)) eqn:Eval.
  2: { unfold seg_bytes. rewrite Eval. apply Hno; [done|lia|right].
       destruct (Z.eq_dec (h_fsz ph) 0) as [|Hne]; [done|].
       rewrite Es in Hne. by rewrite (saved_size_valid _ Hne) in Eval. }
  destruct (sp_view c Hsp id Hq Eval) as [bs Hv]. pose proof (sv_size c Hs id Hq Eval) as Hsz.
  destruct (sv_fits c Hs id Hid) as (_ & F2 & F3 & F4).
  pose proof (saved_size_kept (lb c id) ltac:(lia) ltac:(lia) Eval) as Ek. rewrite <- Ek in *.
  pose proof (view_size _ _ _ Hv) as Hvs. pose proof (host_load_length _ _ _ _ (view_load _ _ _ Hv)).
  assert (0 < saved_size (lb c id))
    by (rewrite Ek; unfold kept; destruct (Z.eqb_spec (mFileSize (lb c id)) 0); lia).
  rewrite Hin, (seg_bytes_view _ _ _ Eval Hv), <- Es by (done || lia). cbn [andb].
  destruct (Z.ltb_spec (a - h_va ph) (h_fsz ph)), (Z.leb_spec (h_fsz ph) (a - h_va ph)); [lia| |done|lia].
  rewrite lookup_app_l by lia. eapply placed_lookup; eauto; [apply Hsp| |lia..].
  rewrite (fp_end _ _ _ _ _ _ _ _ _ _ HF), (fp_n _ _ _ _ _ _ _ _ _ _ HF).
  destruct layout_sizes; nia.
Qed.

Lemma saved_same a : target_byte c' a = saved_byte c a.
Proof.
  destruct (decide (Exists (fun ph => h_va ph <= a < h_va ph + h_msz ph) lphs)) as [He|He].
  2: { apply saved_outside. intros ph Hph Hr. apply He, Exists_elem. eauto. }
  apply Exists_elem in He as (ph & [k Hph]%list_elem_of_lookup & Hr).
  destruct (saved_headers _ _ _ _ _ _ _ _ _ _ Hs HF Hlen) as (Hk & _).
  destruct (Hk k ph Hph) as (id & Hid & Ef & Ev & Em & Es & Hpl).
  assert (Hcov : covers c a id = true) by (apply covers_spec; lia).
  destruct (negb (QUICK_LOAD_ENABLED c) || nz (h_flags ph)) eqn:Ekeep.
  - by eapply saved_kept.
  - by eapply saved_skipped.
Qed.
End Same.

(** The segments lie in the file, in address order. *)
Lemma saved_h_ok c file n e old N D T nphs lphs c0 :
  saveable c -> file_parts c file n e old N D T nphs lphs ->
  Z.of_nat (length file) < 2 ^ (8 * lw) -> mSize (mCore c0) = Z.of_nat (length file) ->
  Forall (h_ok c0) lphs.
Proof.
  intros Hs HF Hlen Hsz.
  pose proof (saved_headers _ _ _ _ _ _ _ _ _ _ Hs HF Hlen) as (Hk & _ & _ & _).
  destruct (file_parts_length _ _ _ _ _ _ _ _ _ _ HF) as [Hl _].
  apply Forall_elem. intros ph [k Hph]%list_elem_of_lookup.
  destruct (Hk k ph Hph) as (id & Hid & _ & Ev & Ems & Es & P1 & P2 & _).
  destruct (sv_fits c Hs id) as (F1 & F2 & F3 & F4); [by eapply list_elem_of_lookup_2|].
  assert (saved_size (lb c id) <= mMemSize (lb c id)) by (apply saved_size_le; lia).
  pose proof (saved_size_range (lb c id)).
  pose proof (fp_end _ _ _ _ _ _ _ _ _ _ HF). pose proof (fp_n _ _ _ _ _ _ _ _ _ _ HF).
  assert (2 ^ (8 * lw) <= 2 ^ 64) by (apply Z.pow_le_mono_r; destruct layout_sizes; lia).
  unfold h_ok. rewrite Es, Ev, Ems. split_and!; destruct layout_sizes; nia.
Qed.

Lemma saved_order c file n e old N D T nphs lphs :
  saveable c -> file_parts c file n e old N D T nphs lphs ->
  Z.of_nat (length file) < 2 ^ (8 * lw) ->
  pairwise (fun x y => h_va x + h_msz x <= h_va y) lphs.
Proof.
  intros Hs HF Hlen x y px py Hxy Hpx Hpy.
  pose proof (saved_headers _ _ _ _ _ _ _ _ _ _ Hs HF Hlen) as (Hk & _).
  destruct (Hk x px Hpx) as (idx & Hidx & _ & Evx & Emx & _).
  destruct (Hk y py Hpy) as (idy & Hidy & _ & Evy & _).
  rewrite Evx, Emx, Evy. by apply (sorted_order _ _ (wf_load c (sv_wf c Hs)) x y).
Qed.

(** The headers of the file as the loader reads them. *)
Lemma headers_read c file n e old N D T nphs lphs h base :
  saveable c -> file_parts c file n e old N D T nphs lphs ->
  Z.of_nat (length file) < 2 ^ (8 * lw) -> host_wf h -> holds h base file ->
  0 <= base -> base + Z.of_nat (length file) < 2 ^ 64 ->
  (forall k, (k < length nphs)%nat -> exists ph,
     read_phdr h (u64 (base + eh_size + ph_size * Z.of_nat k)) = Ok (PT_NOTE, ph)) /\
  (forall k ph, lphs !! k = Some ph ->
     read_phdr h (u64 (base + eh_size + ph_size * Z.of_nat (length nphs) + ph_size * Z.of_nat k))
       = Ok (PT_LOAD, ph)) /\
  base + eh_size + ph_size * Z.of_nat (length nphs) < 2 ^ 64.
Proof.
  intros Hs HF Hlen Hh Hfile Hb He.
  destruct (final_ehdr_spec n e old (fp_old _ _ _ _ _ _ _ _ _ _ HF)) as (E1 & _).
  pose proof (saved_headers _ _ _ _ _ _ _ _ _ _ Hs HF Hlen) as (_ & _ & Hfit & _).
  pose proof (fp_file _ _ _ _ _ _ _ _ _ _ HF) as Hf. rewrite Hf in Hfile.
  pose proof (f_equal (fun l => Z.of_nat (length l)) Hf) as Hl. cbn beta in Hl.
  rewrite !length_app, !Nat2Z.inj_add, !phdrs_bytes_length, E1 in Hl.
  assert (Forall ph_fits nphs) as Hnfit.
  { rewrite (fp_notes _ _ _ _ _ _ _ _ _ _ HF). apply note_phdrs_fits.
    pose proof (fp_n _ _ _ _ _ _ _ _ _ _ HF) as Hn.
    destruct (file_parts_length _ _ _ _ _ _ _ _ _ _ HF) as [Hl' Hn'].
    pose proof (fp_end _ _ _ _ _ _ _ _ _ _ HF). destruct layout_sizes; nia. }
  apply holds_app in Hfile as [_ Hfile]; [|done]. rewrite E1 in Hfile.
  apply holds_app in Hfile as [H1 Hfile]; [|done]. rewrite phdrs_bytes_length in Hfile.
  apply holds_app in Hfile as [H2 _]; [|done].
  assert (0 <= eh_size /\ 0 <= ph_size * Z.of_nat (length nphs) /\
    0 <= ph_size * Z.of_nat (length lphs)) by (destruct layout_sizes; nia).
  split_and!; [| |lia].
  - intros k [ph Hk]%lookup_lt_is_Some. exists ph.
    by apply (read_phdrs h PT_NOTE nphs); [done|lia|lia|done|done|done|].
  - apply (read_phdrs h PT_LOAD lphs); [done|lia|lia|done|done|done].
Qed.
End RoundTrip.

(** C5: a saved core loads back.  When [FakeCore::execute] writes a core whose segments can
    be saved (their values fit the header fields, file sizes are at most memory sizes, the
    quick list is the one a load builds, and a readable segment has the bytes the file
    keeps), and the file, placed in memory, is loaded again (its notes being readable; fewer
    than 2^31 headers in 64-bit files, where counts from PN_XNUM on stand in the section
    header, and fewer than PN_XNUM in 32-bit ones), the loader succeeds, its segment lists
    are well formed, and every address has the byte of the saved address space, overlays and
    mapped files included, or none in both, with one exception: the bytes of a readable
    segment behind its file contents read as zeros, whatever an overlay or a mapped file
    had put there. *)
Theorem execute_roundtrip {L : Layout} {HL : StdLayout L} {CB : NoteCallback}
    {HCB : CallbackKeeps CB} c file c0 c1 i :
  saveable c -> execute c = Ok file ->
  Z.of_nat (length file) + ELF_PAGE_SIZE < 2 ^ (8 * lw) ->
  Z.of_nat (length (mLoad c)) + Z.of_nat (length (mNote c)) < 2 ^ 31 ->
  lw = 8 \/ Z.of_nat (length (mLoad c)) + Z.of_nat (length (mNote c)) < PN_XNUM ->
  mLoad c0 = [] -> mQuickLoad c0 = [] -> QUICK_LOAD_ENABLED c0 = QUICK_LOAD_ENABLED c ->
  host_wf (host_mem c0) ->
  host_mem c0 !! i = Some (Region (mBegin (mCore c0)) false file) ->
  mSize (mCore c0) = Z.of_nat (length file) ->
  0 < mBegin (mCore c0) -> mBegin (mCore c0) + mSize (mCore c0) < 2 ^ 64 ->
  phdrs_loop (length (mNote c)) c0 (mBegin (mCore c0) + eh_size) = Ok c1 ->
  exists c', load c0 = Ok (c', true) /\ wf c' /\ space_ok c' /\
    forall a, target_byte c' a = saved_byte c a.
Proof.
  intros Hs Hex Hlen Hn31 Hx El Eq Em Hh Hi Hsz Hb He Hnotes.
  destruct (execute_parts c file Hex Hlen) as (n & e & old & N & D & T & nphs & lphs & HF).
  assert (Hlen' : Z.of_nat (length file) < 2 ^ (8 * lw)) by (unfold ELF_PAGE_SIZE in Hlen; lia).
  pose proof (fp_n _ _ _ _ _ _ _ _ _ _ HF) as Hn.
  destruct (file_parts_length _ _ _ _ _ _ _ _ _ _ HF) as [Hl Hn'].
  pose proof (saved_headers _ _ _ _ _ _ _ _ _ _ Hs HF Hlen') as (Hk & Hkl & _ & Hdis).
  assert (Hnn : length nphs = length (mNote c))
    by (rewrite (fp_notes _ _ _ _ _ _ _ _ _ _ HF); apply note_phdrs_length).
  assert (Hfile : holds (host_mem c0) (mBegin (mCore c0)) file).
  { destruct file; [|apply (host_load_region _ i false _ _ Hh Hi); cbn; lia].
    pose proof (fp_end _ _ _ _ _ _ _ _ _ _ HF). cbn in Hl. destruct layout_sizes; nia. }
  destruct (headers_read _ _ _ _ _ _ _ _ _ _ (host_mem c0) (mBegin (mCore c0)) Hs HF Hlen' Hh Hfile)
    as (Hrn & Hrl & Hp); [lia..|].
  rewrite Hnn in Hrn, Hrl, Hp. set (base := mBegin (mCore c0)) in *.
  assert (0 <= eh_size /\ 0 <= ph_size * Z.of_nat (length (mNote c))) as [Hpos1 Hpos2]
    by (destruct layout_sizes; nia).
  apply phdrs_loop_notes in Hnotes as Hsame; [|done|lia]. destruct Hsame as [S1 S2 S3 S4 S5].
  destruct (load_presents c1 lphs (base + eh_size + ph_size * Z.of_nat (length (mNote c))) i file)
    as (c' & H1 & H2 & H3 & _ & H4 & H5 & H6); rewrite ?S1, ?S2, ?S3, ?S4; try done; try lia.
  { replace (h_ok c1) with (h_ok c0) by (unfold h_ok; by rewrite S1). by eapply saved_h_ok. }
  { by eapply saved_order. }
  { intros x y px py Hxy Hpx Hpy _ _. left. by apply (Hdis x y). }
  exists c'. rewrite S5, Em in *. split_and!; [|done|done|].
  - rewrite (load_count c0 c file n e old N D T nphs lphs) by (done || lia). fold base.
    replace (Z.to_nat n) with (length (mNote c) + length lphs)%nat by lia.
    rewrite phdrs_loop_app by lia. rewrite Hnotes. cbn [rbind].
    rewrite wrap_small by lia. by rewrite H1.
  - by eapply saved_same.
Qed.

(** ** Witness: a core with an overlay and a note *)

Definition save_region : region :=
  Region 0x10000 false (replicate 64 0 ++ [1;2;3;4;5;6;7;8;9;10;11;12;13;14;15;16]
    ++ le_bytes 4 0 ++ le_bytes 4 8 ++ le_bytes 4 99 ++ replicate 8 7).
Definition save_seg (va ori fsz msz : Z) : LoadBlock :=
  setOriAddr ori (setVabitsMask (2 ^ 39 - 1) (NewLoadBlock_obj 6 0 va 0 fsz msz 0x1000)).
Definition save_core0 : CoreApi :=
  addNoteBlock
    (addLoadBlock
       (addLoadBlock
          (with_masks (NewCore (Build_MemoryMap [] 0x10000 100 0 100) true [save_region])
             (2 ^ 64 - 1) (2 ^ 39 - 1))
          (save_seg 0x1000 0x10040 8 16))
       (save_seg 0x2000 0x10048 8 8))
    (note_on_block (setOriAddr_block 0x10050) (NewNoteBlock 4 0 0 0 20 0 4)).

(** The core after writes to both segments, which get overlays; the second byte written to
    the first one lies behind its file contents. *)
Definition save_core1 : CoreApi :=
  match @Write bump_os save_core0 0x2004 [50; 51] with Ok c => c | _ => save_core0 end.
Definition save_core : CoreApi :=
  match @Write bump_os save_core1 0x1007 [77; 78] with Ok c => c | _ => save_core1 end.
Definition saved_file : list Z := match execute64 save_core with Ok f => f | _ => [] end.
Definition fresh_core : CoreApi :=
  NewCore (Build_MemoryMap [] 0x20000 4112 0 4112) true [Region 0x20000 false saved_file].

Lemma save_core0_ok : space_ok save_core0.
Proof.
  assert (Hids : forall id, id ∈ mQuickLoad save_core0 -> id = 0%nat \/ id = 1%nat).
  { intros id. change (mQuickLoad save_core0) with [0%nat; 1%nat].
    rewrite !elem_of_cons, elem_of_nil. tauto. }
  split.
  - split; [| |done].
    + apply Forall_elem. intros id [->| ->]%Hids; vm_compute; repeat split; discriminate.
    + intros i j x y Hij Hi Hj. change (mQuickLoad save_core0) with [0%nat; 1%nat] in *.
      destruct j as [|[|j]]; [lia| |done].
      assert (i = 0%nat) as -> by lia. cbn in Hi, Hj. simplify_eq. vm_compute. discriminate.
  - apply pairwise_cons. split; [constructor|]. intros i j x y _ Hi. done.
  - by intros id [->| ->]%Hids.
  - intros id [->| ->]%Hids _; eexists; (split; [vm_compute; reflexivity|vm_compute; reflexivity|
      vm_compute; split; [reflexivity|discriminate]|vm_compute; reflexivity|
      intros _; vm_compute; repeat split; discriminate|done]).
  - intros i j [->| ->]%Hids [->| ->]%Hids Hij _ _; try done;
      unfold views_apart; vm_compute; [left|right]; discriminate.
Qed.

Lemma save_core_ok : space_ok save_core.
Proof.
  destruct (@Write_overlaid bump_os bump_os_laws save_core0 0x2004 [50; 51] 1) as (c1 & Hw & Hov).
  - exact save_core0_ok.
  - vm_compute. reflexivity.
  - cbn. lia.
  - vm_compute. discriminate.
  - right. vm_compute. discriminate.
  - destruct (@Write_overlaid bump_os bump_os_laws save_core1 0x1007 [77; 78] 0) as (c2 & Hw' & Hov').
    + unfold save_core1. rewrite Hw. apply Hov.
    + vm_compute. reflexivity.
    + cbn. lia.
    + vm_compute. discriminate.
    + right. vm_compute. discriminate.
    + unfold save_core. rewrite Hw'. apply Hov'.
Qed.

Lemma save_core_saveable : saveable (L := Elf64) save_core.
Proof.
  assert (El : mLoad save_core = [0%nat; 1%nat]) by (vm_compute; reflexivity).
  assert (Eq : mQuickLoad save_core = mLoad save_core) by (vm_compute; reflexivity).
  assert (Hids : forall id, id ∈ mLoad save_core -> id = 0%nat \/ id = 1%nat).
  { intros id. rewrite El, !elem_of_cons, elem_of_nil. tauto. }
  pose proof save_core_ok as Hok. split; [|done|..]; rewrite ?Eq.
  - split; rewrite ?Eq; [rewrite <- Eq; apply Hok|rewrite <- Eq; apply Hok|done|].
    intros id [->| ->]%Hids; vm_compute; lia.
  - intros id Hid. split; [|done]. intros _. destruct (Hids id Hid) as [->| ->]; by vm_compute.
  - intros id [->| ->]%Hids; vm_compute; repeat split; discriminate.
  - intros id [->| ->]%Hids _; vm_compute; discriminate.
Qed.

Lemma execute_roundtrip_witness :
  exists c', load64 x86_64_callback fresh_core = Ok (c', true) /\
    target_byte c' 0x1006 = Some 7 /\ target_byte c' 0x1007 = Some 77 /\
    target_byte save_core 0x1008 = Some 78 /\ target_byte c' 0x1008 = Some 0 /\
    target_byte c' 0x2004 = Some 50 /\ target_byte c' 0x2000 = Some 9 /\
    target_byte c' 0x2008 = None.
Proof.
  destruct (execute_roundtrip (L := Elf64) (CB := x86_64_callback) save_core saved_file fresh_core
    (match phdrs_loop (L := Elf64) (CB := x86_64_callback) 1 fresh_core 0x20040 with
     | Ok c => c | _ => fresh_core end) 0) as (c' & H1 & _ & _ & H2).
  - exact save_core_saveable.
  - vm_compute. reflexivity.
  - vm_compute. reflexivity.
  - vm_compute. reflexivity.
  - left. reflexivity.
  - reflexivity.
  - reflexivity.
  - vm_compute. reflexivity.
  - apply pairwise_cons. split; [constructor|]. intros i j x y _ Hi. done.
  - reflexivity.
  - vm_compute. reflexivity.
  - reflexivity.
  - vm_compute. reflexivity.
  - vm_compute. reflexivity.
  - exists c'. split; [exact H1|]. rewrite !H2. vm_compute. repeat split; reflexivity.
Defined.

(** An overlay is saved up to p_filesz only: the byte written behind the file contents of
    a segment is lost. *)
Definition tail_core : CoreApi :=
  match @Write bump_os save_core0 0x1009 [77] with Ok c => c | _ => save_core0 end.
Example overlay_tail_lost :
  target_byte tail_core 0x1009 = Some 77 /\
  match execute64 tail_core with
  | Ok f =>
      match load64 x86_64_callback (NewCore (Build_MemoryMap [] 0x20000 4112 0 4112) true
              [Region 0x20000 false f]) with
      | Ok (c', _) => target_byte c' 0x1009 = Some 0
      | _ => False
      end
  | _ => False
  end.
Proof. vm_compute. split; reflexivity. Qed.
