(* ===== verification/FakeBuild.v ===== *)
(** Building a core file from the registers and the memory map of a crash report: the lp64
    and lp32 [FakeCore] members of parser/command/fake/core and the part of [execute] of the
    machine classes (arm64, x86_64, riscv64, arm, x86) up to the loading of the file. *)

From Stdlib Require Import ZArith Lia Bool.
From stdpp Require Import base list gmap numbers.
From S2P Require Import Prelude Words Host Blocks Notes CoreApi Segments AddressSpace MemRef Elf.
From S2P Require Import CoreLoad LoadProofs SaveCore.
Open Scope Z_scope.

(** * Data *)

(** [Opencore::VirtualMemoryArea]: a line of the memory map. *)
Record VirtualMemoryArea := MkVma {
  m_begin : Z; m_end : Z; m_flags : list Z; m_offset : Z; m_load_bias : Z;
  m_file : list Z; m_buildid : list Z }.

(** [FakeCore::Stream]: what the parser of the report provides. *)
Record Stream := MkStream {
  s_Tid : Z; s_Regs : list Z; s_Maps : list VirtualMemoryArea;
  s_TaggedAddr : Z; s_PacEnabledKeys : Z }.

(** What the machine classes differ in: [getMachine()], the layout of [Elf64_prstatus] or
    [Elf32_prstatus] (common/prstatus.h), and whether they write the notes of arm64. *)
Record FakeTarget := MkTarget {
  getMachine : Z; pr_pid : Z; pr_reg : Z; sizeof_pt_regs : Z; sizeof_prstatus : Z;
  is_arm64 : bool }.
Definition arm64_target : FakeTarget := MkTarget EM_AARCH64 32 112 272 392 true.
Definition x86_64_target : FakeTarget := MkTarget EM_X86_64 32 112 216 336 false.
Definition riscv64_target : FakeTarget := MkTarget EM_RISCV 32 112 256 376 false.
Definition arm_target : FakeTarget := MkTarget EM_ARM 24 72 68 148 false.
Definition x86_target : FakeTarget := MkTarget EM_386 24 72 68 144 false.

(** The members of the ELF header that are not constant. *)
Record Ehdr := MkEhdr { e_shoff : Z; e_phnum : Z; e_shentsize : Z; e_shnum : Z }.

(** The members of [FakeCore]; [auxv] holds the entries in use, of the note header only
    the offset and the size are set. *)
Record FakeCore := MkFakeCore {
  ehdr : Ehdr; shdr_info : Z; phdrs : list phdr; note_offset : Z; note_filesz : Z;
  auxv : list (Z * Z); nt_file : list (Z * Z * Z); fileslen : Z; extra_note_filesz : Z;
  fk_page_size : Z; va_bits : Z }.

Definition DEF_FAKE_AUXV_NUM : Z := 32.
Definition DEF_FAKE_PHNUM : Z := 2.
Definition align_size : Z := ELF_PAGE_SIZE.
Definition AT_HWCAP : Z := 16.
Definition AT_HWCAP2 : Z := 26.
Definition PF_R : Z := 4.
Definition PF_W : Z := 2.
Definition PF_X : Z := 1.
Definition NOTE_CORE_NAME_SZ : Z := 5.
Definition NOTE_LINUX_NAME_SZ : Z := 6.
(** ["CORE"] and ["LINUX"] in the eight bytes of [magic]. *)
Definition CORE_magic : list Z := [67; 79; 82; 69; 0; 0; 0; 0].
Definition LINUX_magic : list Z := [76; 73; 78; 85; 88; 0; 0; 0].

(** [Prepare] of a new [FakeCore]. *)
Definition PrepareFake (page_size va_bits : Z) : FakeCore :=
  MkFakeCore (MkEhdr 0 0 0 0) 0 [] 0 0 [] [] 0 0 page_size va_bits.

Section FakeCore.
Context {L : Layout}.

(** * Filling the members *)

(** [ParserPhdr]. *)
Definition ParserPhdr (m : VirtualMemoryArea) : phdr :=
  let flag i lower upper bit :=
    match m_flags m !! i with
    | Some x => if (x =? lower) || (x =? upper) then bit else 0
    | None => 0
    end in
  let va := uword (m_begin m) in
  (Z.lor (Z.lor (flag 0%nat 114 82 PF_R) (flag 1%nat 119 87 PF_W)) (flag 2%nat 120 88 PF_X),
   0, va, 0, 0, uword (uword (m_end m) - va), align_size).

(** [ParserNtFile]: the entry; [fileslen] grows by the name and its terminator. *)
Definition ParserNtFile (m : VirtualMemoryArea) : Z * Z * Z :=
  (uword (m_begin m), uword (m_end m), Z.shiftr (m_offset m) 12).

(** [ParseProcessMapsVma(maps)]. *)
Definition ParseProcessMapsVma (maps : list VirtualMemoryArea) (k : FakeCore) : FakeCore :=
  match maps with
  | [] => k
  | _ =>
      MkFakeCore (ehdr k) (shdr_info k) (ParserPhdr <$> maps) (note_offset k) (note_filesz k)
        (auxv k) (ParserNtFile <$> maps)
        (foldl (fun n m => i32 (n + (Z.of_nat (length (m_file m)) + 1))) (fileslen k) maps)
        (extra_note_filesz k) (fk_page_size k) (va_bits k)
  end.

(** [CreateCoreHeader()]. *)
Definition CreateCoreHeader (k : FakeCore) : FakeCore :=
  let actual_phnum := u32 (Z.of_nat (length (phdrs k)) + 1) in
  let e := ehdr k in
  MkFakeCore
    (if PN_XNUM <=? actual_phnum then MkEhdr 0 PN_XNUM sh_bytes 1
     else MkEhdr 0 actual_phnum (e_shentsize e) 0)
    (if PN_XNUM <=? actual_phnum then actual_phnum else shdr_info k)
    (phdrs k) (note_offset k) (note_filesz k) (auxv k) (nt_file k) (fileslen k)
    (extra_note_filesz k) (fk_page_size k) (va_bits k).

(** [HasSection()], [ActualPhnum()]. *)
Definition HasSection (k : FakeCore) : bool := e_phnum (ehdr k) =? PN_XNUM.
Definition ActualPhnum (k : FakeCore) : Z :=
  if HasSection k then shdr_info k else e_phnum (ehdr k).

Definition with_note (off sz : Z) (k : FakeCore) : FakeCore :=
  MkFakeCore (ehdr k) (shdr_info k) (phdrs k) off sz (auxv k) (nt_file k) (fileslen k)
    (extra_note_filesz k) (fk_page_size k) (va_bits k).

(** [CreateCoreNoteHeader()]. *)
Definition CreateCoreNoteHeader (k : FakeCore) : FakeCore :=
  with_note (uword (eh_size + ActualPhnum k * ph_size)) (note_filesz k) k.

(** [HasPAC()], [HasTaggleAddr()]: the value -1 means that the report has none. *)
Definition HasPAC (T : FakeTarget) (s : Stream) : bool :=
  is_arm64 T && negb (s_PacEnabledKeys s =? 2 ^ 64 - 1).
Definition HasTaggleAddr (T : FakeTarget) (s : Stream) : bool :=
  is_arm64 T && negb (s_TaggedAddr s =? 2 ^ 64 - 1).

(** [CreateCorePrStatus()]: the size of the notes of the thread; the status itself is
    [prstatus_bytes]. *)
Definition CreateCorePrStatus (T : FakeTarget) (s : Stream) (k : FakeCore) : FakeCore :=
  let n := extra_note_filesz k + (sizeof_prstatus T + sizeof_Nhdr + 8) in
  let n := if HasPAC T s then n + ((16 + sizeof_Nhdr + 8) + (8 + sizeof_Nhdr + 8)) else n in
  let n := if HasTaggleAddr T s then n + (8 + sizeof_Nhdr + 8) else n in
  MkFakeCore (ehdr k) (shdr_info k) (phdrs k) (note_offset k) (note_filesz k) (auxv k)
    (nt_file k) (fileslen k) n (fk_page_size k) (va_bits k).

Definition with_auxv_entries (l : list (Z * Z)) (k : FakeCore) : FakeCore :=
  MkFakeCore (ehdr k) (shdr_info k) (phdrs k) (note_offset k) (note_filesz k) (auxv k ++ l)
    (nt_file k) (fileslen k) (extra_note_filesz k) (fk_page_size k) (va_bits k).

(** [CreateCoreAUXV()]. *)
Definition CreateCoreAUXV (k : FakeCore) : FakeCore :=
  with_auxv_entries [(AT_PHDR, 0); (AT_PHENT, ph_size); (AT_PHNUM, DEF_FAKE_PHNUM);
    (AT_PAGESZ, fk_page_size k)] k.

(** The first of the possible address sizes whose addresses include [last_addr]. *)
Definition valid_va_bits : list Z := [36; 39; 42; 47; 48; 52].
Definition guess_va_bits (last_addr : Z) : Z :=
  match list_find (fun v => last_addr <= GENMASK_UL (v - 1) 0) valid_va_bits with
  | Some (_, v) => v
  | None => 0
  end.

(** The block of [arm64::FakeCore::execute] on the notes of tagged pointers. *)
Definition arm64_auxv (T : FakeTarget) (s : Stream) (k : FakeCore) : FakeCore :=
  if HasPAC T s || HasTaggleAddr T s then
    let k := with_auxv_entries [(AT_HWCAP, 0xFFFFFFFF); (AT_HWCAP2, 0xFFFFFFFF)] k in
    match negb (nz (va_bits k)), s_Maps s !! (length (s_Maps s) - 1)%nat with
    | true, Some m =>
        MkFakeCore (ehdr k) (shdr_info k) (phdrs k) (note_offset k) (note_filesz k) (auxv k)
          (nt_file k) (fileslen k) (extra_note_filesz k) (fk_page_size k)
          (guess_va_bits (m_end m))
    | _, _ => k
    end
  else k.

(** [ClocNoteFileSize()]. *)
Definition ClocNoteFileSize (k : FakeCore) : FakeCore :=
  let sz := uword (note_filesz k + (2 * lw * DEF_FAKE_AUXV_NUM + sizeof_Nhdr + 8)) in
  let sz := uword (sz + extra_note_filesz k) in
  let sz := uword (sz + (3 * lw * Z.of_nat (length (phdrs k)) + sizeof_Nhdr + 8 + 2 * lw
                         + RoundUp 32 (fileslen k) 4)) in
  with_note (note_offset k) sz k.

(** The offset of the page behind the notes. *)
Definition notes_end (k : FakeCore) : Z :=
  RoundUp (8 * lw) (uword (note_offset k + note_filesz k)) align_size.

(** [ClocSectionOffset()]. *)
Definition ClocSectionOffset (k : FakeCore) : FakeCore :=
  if HasSection k then
    MkFakeCore (MkEhdr (notes_end k) (e_phnum (ehdr k)) (e_shentsize (ehdr k)) (e_shnum (ehdr k)))
      (shdr_info k) (phdrs k) (note_offset k) (note_filesz k) (auxv k) (nt_file k) (fileslen k)
      (extra_note_filesz k) (fk_page_size k) (va_bits k)
  else k.

(** All members for a report. *)
Definition create (T : FakeTarget) (s : Stream) (page_size va_bits : Z) : FakeCore :=
  ClocSectionOffset (ClocNoteFileSize (arm64_auxv T s (CreateCoreAUXV (CreateCorePrStatus T s
    (CreateCoreNoteHeader (CreateCoreHeader (ParseProcessMapsVma (s_Maps s)
      (PrepareFake page_size va_bits)))))))).

(** * Writing the file *)

(** One [memcpy] to [map->data() + off]. *)
Definition put_at (mem : list Z) (off : Z) (bs : list Z) : result (list Z) :=
  if (0 <=? off) && (off + Z.of_nat (length bs) <=? Z.of_nat (length mem))
  then Ok (splice (Z.to_nat off) bs mem) else Fault.

(** Several of them, one behind the other; the offset behind the last is returned. *)
Fixpoint put_all (mem : list Z) (off : Z) (chunks : list (list Z)) : result (list Z * Z) :=
  match chunks with
  | [] => Ok (mem, off)
  | bs :: l => let! mem' := put_at mem off bs in put_all mem' (off + Z.of_nat (length bs)) l
  end.

Definition word_bytes (z : Z) : list Z := le_bytes (Z.to_nat lw) z.

(** [WriteCoreHeader]: the bytes of the ELF header. *)
Definition ehdr_bytes (T : FakeTarget) (e : Ehdr) : list Z :=
  (ELFMAG ++ [if lw =? 8 then 2 else 1; 1; 1; 0; 0; 0; 0; 0; 0; 0; 0; 0])
  ++ le_bytes 2 ET_CORE ++ le_bytes 2 (getMachine T) ++ le_bytes 4 1 ++ word_bytes 0 ++ word_bytes eh_size
  ++ word_bytes (e_shoff e) ++ le_bytes 4 0 ++ le_bytes 2 eh_size ++ le_bytes 2 ph_size
  ++ le_bytes 2 (e_phnum e) ++ le_bytes 2 (e_shentsize e) ++ le_bytes 2 (e_shnum e)
  ++ le_bytes 2 0.

(** [WriteCoreNoteHeader]. *)
Definition note_phdr (k : FakeCore) : phdr := (0, note_offset k, 0, 0, note_filesz k, 0, 0).

(** [WriteCoreProgramHeaders]: the offsets are set while the headers are written. *)
Fixpoint place_phdrs (off : Z) (l : list phdr) : list phdr :=
  match l with
  | [] => []
  | (f, _, va, pa, fsz, msz, al) :: l =>
      (f, off, va, pa, fsz, msz, al) :: place_phdrs (uword (off + fsz)) l
  end.

Definition nhdr_bytes (namesz descsz type : Z) : list Z :=
  le_bytes 4 namesz ++ le_bytes 4 descsz ++ le_bytes 4 type.

(** The thread status [CreateCorePrStatus] fills. *)
Definition prstatus_bytes (T : FakeTarget) (s : Stream) : list Z :=
  replicate (Z.to_nat (pr_pid T)) 0 ++ le_bytes 4 (u32 (s_Tid s))
  ++ replicate (Z.to_nat (pr_reg T - pr_pid T - 4)) 0
  ++ take (Z.to_nat (sizeof_pt_regs T)) (s_Regs s)
  ++ replicate (Z.to_nat (sizeof_prstatus T - pr_reg T - sizeof_pt_regs T)) 0.

(** [WriteCorePrStatus] with [WriteCorePAC] and [WriteCoreTaggleAddr]: what is copied. *)
Definition pac_chunks (s : Stream) (k : FakeCore) : list (list Z) :=
  let mask := GENMASK_UL 54 (if nz (va_bits k) then va_bits k else DEF_VA_BITS) in
  [nhdr_bytes NOTE_LINUX_NAME_SZ 16 NT_ARM_PAC_MASK; LINUX_magic;
   le_bytes 8 mask ++ le_bytes 8 mask;
   nhdr_bytes NOTE_LINUX_NAME_SZ 8 NT_ARM_PAC_ENABLED_KEYS; LINUX_magic;
   le_bytes 8 (s_PacEnabledKeys s)].
Definition tag_chunks (s : Stream) : list (list Z) :=
  [nhdr_bytes NOTE_LINUX_NAME_SZ 8 NT_ARM_TAGGED_ADDR_CTRL; LINUX_magic;
   le_bytes 8 (s_TaggedAddr s)].
Definition prstatus_chunks (T : FakeTarget) (s : Stream) (k : FakeCore) : list (list Z) :=
  [nhdr_bytes NOTE_CORE_NAME_SZ (sizeof_prstatus T) NT_PRSTATUS; CORE_magic; prstatus_bytes T s]
  ++ (if HasPAC T s then pac_chunks s k else [])
  ++ (if HasTaggleAddr T s then tag_chunks s else []).

(** [WriteCoreAUXV]: the entries in use and zeros. *)
Definition auxv_bytes (l : list (Z * Z)) : list (list Z) :=
  (fun e => word_bytes (fst e) ++ word_bytes (snd e)) <$>
    (l ++ replicate (Z.to_nat DEF_FAKE_AUXV_NUM - length l) (0, 0)).
Definition auxv_chunks (k : FakeCore) : list (list Z) :=
  [nhdr_bytes NOTE_CORE_NAME_SZ (2 * lw * DEF_FAKE_AUXV_NUM) NT_AUXV; CORE_magic]
  ++ auxv_bytes (auxv k).

(** [WriteNtFile]: eight bytes are copied from the 4-byte member [page_size] in lp64; the
    second half is the member behind it, [va_bits]. *)
Definition page_size_bytes (k : FakeCore) : list Z :=
  if lw =? 8 then le_bytes 4 (fk_page_size k) ++ le_bytes 4 (va_bits k)
  else le_bytes 4 (fk_page_size k).
Definition nt_file_chunks (k : FakeCore) (maps : list VirtualMemoryArea) : list (list Z) :=
  let phnum := Z.of_nat (length (phdrs k)) in
  [nhdr_bytes NOTE_CORE_NAME_SZ (u32 (3 * lw * phnum + 2 * lw + RoundUp 32 (fileslen k) 4)) NT_FILE;
   CORE_magic; word_bytes phnum; page_size_bytes k]
  ++ ((fun f => let '(b, e, o) := f in word_bytes b ++ word_bytes e ++ word_bytes o) <$> nt_file k)
  ++ ((fun m => m_file m ++ [0]) <$> maps).

(** [execute] up to [CoreApi::Load]: the bytes of the zeroed mapping of [core_size] bytes
    after all writes. *)
Definition fake_file (T : FakeTarget) (s : Stream) (page_size va_bits : Z) : result (list Z) :=
  let k := create T s page_size va_bits in
  let core_size := uword (notes_end k + e_shentsize (ehdr k) * e_shnum (ehdr k)) in
  let mem := replicate (Z.to_nat core_size) 0 in
  let! '(mem, off) := put_all mem 0 [ehdr_bytes T (ehdr k)] in
  let! '(mem, off) := put_all mem off [phdr_bytes PT_NOTE (note_phdr k)] in
  let! '(mem, off) := put_all mem off (phdr_bytes PT_LOAD <$> place_phdrs (notes_end k) (phdrs k)) in
  let! '(mem, off) := put_all mem off (prstatus_chunks T s k) in
  let! '(mem, off) := put_all mem off (auxv_chunks k) in
  let! '(mem, off) := put_all mem off (nt_file_chunks k (s_Maps s)) in
  if HasSection k then
    let! '(mem, _) := put_all mem (notes_end k) [count_shdr (shdr_info k)] in Ok mem
  else Ok mem.
End FakeCore.

(** The same code at the two word sizes and for each machine. *)
Definition create64 : FakeTarget -> Stream -> Z -> Z -> FakeCore := create (L := Elf64).
Definition create32 : FakeTarget -> Stream -> Z -> Z -> FakeCore := create (L := Elf32).
Definition place_phdrs32 : Z -> list phdr -> list phdr := place_phdrs (L := Elf32).
Definition auxv_chunks32 : FakeCore -> list (list Z) := auxv_chunks (L := Elf32).
Definition nt_file_chunks32 : FakeCore -> list VirtualMemoryArea -> list (list Z) :=
  nt_file_chunks (L := Elf32).
Definition arm64_fake_file : Stream -> Z -> Z -> result (list Z) :=
  fake_file (L := Elf64) arm64_target.
Definition x86_64_fake_file : Stream -> Z -> Z -> result (list Z) :=
  fake_file (L := Elf64) x86_64_target.
Definition riscv64_fake_file : Stream -> Z -> Z -> result (list Z) :=
  fake_file (L := Elf64) riscv64_target.
Definition arm_fake_file : Stream -> Z -> Z -> result (list Z) :=
  fake_file (L := Elf32) arm_target.
Definition x86_fake_file : Stream -> Z -> Z -> result (list Z) :=
  fake_file (L := Elf32) x86_target.
