(* ===== verification/NoteProofs.v ===== *)
(** The note parser of the loader ([CoreLoad]) on well-formed notes: thread status,
    auxiliary vector, file table and the other notes, one after the other. *)

From Stdlib Require Import ZArith Lia Bool.
From stdpp Require Import base list gmap numbers.
From S2P Require Import Prelude Words Host Blocks Notes CoreApi Segments AddressSpace MemRef Elf.
From S2P Require Import CoreLoad LoadProofs SaveCore SaveProofs FakeBuild.
Open Scope Z_scope.

(** * Encoded notes *)

(** A note with a name of [n] characters in the eight bytes [magic]. *)
Definition note_bytes (n : Z) (magic : list Z) (type : Z) (desc : list Z) : list Z :=
  nhdr_bytes n (Z.of_nat (length desc)) type ++ magic ++ desc.

Definition note_name_ok (n : Z) (magic : list Z) : Prop := 4 < n <= 8 /\ length magic = 8%nat.

Lemma core_name_ok : note_name_ok NOTE_CORE_NAME_SZ CORE_magic.
Proof. by split. Qed.
Lemma linux_name_ok : note_name_ok NOTE_LINUX_NAME_SZ LINUX_magic.
Proof. by split. Qed.
#[export] Hint Resolve core_name_ok linux_name_ok : core_db.

Lemma note_bytes_length n magic t desc :
  note_name_ok n magic -> Z.of_nat (length (note_bytes n magic t desc)) = 20 + Z.of_nat (length desc).
Proof.
  intros [_ Hm]. unfold note_bytes, nhdr_bytes. rewrite !length_app, !le_bytes_length, Hm. lia.
Qed.

(** The words of the header and the place of the description. *)
Record note_at (h : host) (pos n type : Z) (desc : list Z) : Prop := {
  na_namesz : host_word h pos 4 = Ok n;
  na_descsz : host_word h (u64 (pos + 4)) 4 = Ok (Z.of_nat (length desc));
  na_type : host_word h (u64 (pos + 8)) 4 = Ok type;
  na_item : u64 (pos + sizeof_Nhdr + RoundUp 32 n 4) = pos + 20;
  na_next : u64 (pos + sizeof_Nhdr + RoundUp 32 n 4 + RoundUp 32 (Z.of_nat (length desc)) 4)
    = pos + 20 + Z.of_nat (length desc);
  na_desc : holds h (pos + 20) desc;
}.

Lemma RoundUp_exact w x k :
  0 <= k < w -> 0 <= x -> x + 2 ^ k - 1 < 2 ^ w -> x mod 2 ^ k = 0 -> RoundUp w x (2 ^ k) = x.
Proof.
  intros Hk Hx He Hm. pose proof (RoundUp_range w x k Hk Hx He) as Hr.
  pose proof (RoundUp_divide w x k Hk Hx He) as [q Hq].
  assert (0 < 2 ^ k) by (apply Z.pow_pos_nonneg; lia).
  apply Z.div_exact in Hm; [|lia].
  rewrite Hq in *. set (d := x / 2 ^ k) in *. rewrite Hm in Hr.
  assert (d <= q) by nia. assert (q < d + 1) by nia. assert (q = d) as -> by lia. lia.
Qed.

Lemma note_bytes_at h pos n magic t desc :
  host_wf h -> note_name_ok n magic -> holds h pos (note_bytes n magic t desc) ->
  0 <= pos -> pos + 20 + Z.of_nat (length desc) < 2 ^ 64 -> 0 <= t < 2 ^ 32 ->
  Z.of_nat (length desc) mod 4 = 0 -> Z.of_nat (length desc) + 4 < 2 ^ 32 ->
  note_at h pos n t desc.
Proof.
  intros Hh [Hn Hm] H Hp He Ht H4 Hlen. unfold note_bytes, nhdr_bytes in H.
  rewrite <- !app_assoc in H.
  apply holds_app in H as [H1 H]; [|done]. apply holds_app in H as [H2 H]; [|done].
  apply holds_app in H as [H3 H]; [|done]. apply holds_app in H as [_ H]; [|done].
  rewrite !le_bytes_length in *. rewrite Hm in H. rewrite <- !Z.add_assoc in H, H3. cbn in H3.
  assert (RoundUp 32 n 4 = 8) as Hr.
  { pose proof (RoundUp_range 32 n 2 ltac:(lia) ltac:(lia) ltac:(lia)) as Hb.
    pose proof (RoundUp_divide 32 n 2 ltac:(lia) ltac:(lia) ltac:(lia)) as [q Hq].
    change (2 ^ 2) with 4 in *. lia. }
  assert (RoundUp 32 (Z.of_nat (length desc)) 4 = Z.of_nat (length desc)) as Hd.
  { apply (RoundUp_exact 32 _ 2); [lia|lia|change (2 ^ 2) with 4; lia|exact H4]. }
  split; unfold sizeof_Nhdr; rewrite ?Hr, ?Hd, ?wrap_small by lia; try lia.
  - apply (holds_le _ _ 4); [done|done|lia].
  - apply (holds_le _ _ 4); [done|done|lia].
  - apply (holds_le _ _ 4); [done|done|lia].
  - match type of H with holds _ ?a _ => by replace (pos + 20) with a by lia end.
Qed.

(** * Notes of each type *)

Section NoteTypes.
Context {L : Layout} {HL : StdLayout L} {CB : NoteCallback}.

(** A thread status opens a new thread. *)
Lemma parse_prstatus c b last pos n desc t :
  note_at (host_mem c) pos n NT_PRSTATUS desc -> desc <> [] -> cb_prstatus c (pos + 20) = Ok t ->
  parse_note c b last pos
    = Ok (c, addThreadItem (Some t) b, Some (length (mThread b)), pos + 20 + Z.of_nat (length desc)).
Proof.
  intros [E1 E2 E3 E4 E5 _] Hd Ht. unfold parse_note. cbn zeta. rewrite E1, E2, E3. cbn [rbind].
  destruct (Z.eqb_spec (Z.of_nat (length desc)) 0) as [|_]; [by destruct desc|].
  rewrite E4. change (NT_PRSTATUS =? NT_PRSTATUS) with true. cbn iota. rewrite Ht. cbn [rbind].
  by rewrite E5.
Qed.

(** A note only the machine's callback looks at. *)
Definition other_type (type : Z) : Prop :=
  type <> NT_PRSTATUS /\ type <> NT_AUXV /\ type <> NT_FILE.

Lemma with_thread_same b last :
  with_thread b last (match last with Some i => mThread b !! i | None => None end) = b.
Proof.
  destruct last as [i|]; [|done]. cbn. destruct (mThread b !! i) as [t|] eqn:E; [|done].
  rewrite list_insert_id by done. by destruct b.
Qed.

Lemma parse_other c c' b last pos n type desc :
  note_at (host_mem c) pos n type desc -> other_type type -> desc <> [] ->
  (forall t, cb_note c type (pos + 20) t = Ok (c', t)) ->
  parse_note c b last pos = Ok (c', b, last, pos + 20 + Z.of_nat (length desc)).
Proof.
  intros [E1 E2 E3 E4 E5 _] (T1 & T2 & T3) Hd Ht. unfold parse_note. cbn zeta.
  rewrite E1, E2, E3. cbn [rbind].
  destruct (Z.eqb_spec (Z.of_nat (length desc)) 0) as [|_]; [by destruct desc|].
  rewrite E4. destruct (Z.eqb_spec type NT_PRSTATUS); [done|].
  destruct (Z.eqb_spec type NT_AUXV); [done|]. destruct (Z.eqb_spec type NT_FILE); [done|].
  rewrite Ht. cbn [rbind]. by rewrite with_thread_same, E5.
Qed.

(** ** The auxiliary vector *)

Definition aux_bytes (e : Z * Z) : list Z := word_bytes (fst e) ++ word_bytes (snd e).
Definition aux_ok (e : Z * Z) : Prop :=
  0 < fst e < 2 ^ (8 * lw) /\ 0 <= snd e < 2 ^ (8 * lw).

(** The entries with their addresses, from [addr] on. *)
Fixpoint auxv_at (addr : Z) (l : list (Z * Z)) : list Auxv :=
  match l with
  | [] => []
  | e :: l => MkAuxv (fst e) (snd e) addr :: auxv_at (addr + 2 * lw) l
  end.

Lemma auxv_at_entries addr l : (fun a => (mType a, mValue a)) <$> auxv_at addr l = l.
Proof.
  revert addr. induction l as [|[a v] l IH]; intros addr; [done|].
  cbn [auxv_at]. rewrite fmap_cons, IH. done.
Qed.

Lemma word_length z : Z.of_nat (length (word_bytes z)) = lw.
Proof. unfold word_bytes. rewrite le_bytes_length. destruct layout_sizes; lia. Qed.

Lemma holds_word_value h a z :
  holds h a (word_bytes z) -> 0 <= z < 2 ^ (8 * lw) -> host_word h a lw = Ok z.
Proof.
  intros H Hz. apply (holds_le h a (Z.to_nat lw)); [done| |done]. destruct layout_sizes; lia.
Qed.

Lemma auxv_loop_entries n h addr l rest b :
  host_wf h -> Forall aux_ok l -> (length l < n)%nat -> 0 <= addr ->
  addr + 2 * lw * (Z.of_nat (length l) + 1) < 2 ^ 64 ->
  holds h addr (flat_map aux_bytes (l ++ [(0, 0)]) ++ rest) ->
  auxv_loop n h addr b = Ok (with_auxv (mAuxv b ++ auxv_at addr (l ++ [(0, 0)])) b).
Proof.
  intros Hh. pose proof layout_sizes as Hs.
  assert (Hstep : forall a t v r, 0 <= a -> a + 2 * lw < 2 ^ 64 -> 0 <= t < 2 ^ (8 * lw) ->
    0 <= v < 2 ^ (8 * lw) -> holds h a ((word_bytes t ++ word_bytes v) ++ r) ->
    host_word h a lw = Ok t /\ host_word h (u64 (a + lw)) lw = Ok v /\ holds h (a + 2 * lw) r).
  { intros a t v r Ha He Ht Hv H. rewrite <- app_assoc in H.
    apply holds_app in H as [H1 H]; [|done]. apply holds_app in H as [H2 H]; [|done].
    rewrite !word_length in *. rewrite wrap_small by lia.
    split_and!; [by apply holds_word_value|by apply holds_word_value|].
    by replace (a + 2 * lw) with (a + lw + lw) by lia. }
  revert addr b n. induction l as [|[t v] l IH]; intros addr b n Hl Hn Ha He H;
    (destruct n as [|n]; [cbn in Hn; lia|]); cbn [auxv_loop length flat_map app] in *.
  - rewrite app_nil_r in H. destruct (Hstep addr 0 0 rest) as (E1 & E2 & _); [lia..|exact H|].
    by rewrite E1, E2.
  - apply Forall_cons_1 in Hl as [[Ht Hv] Hl]. cbn [fst snd] in Ht, Hv.
    rewrite <- app_assoc in H.
    destruct (Hstep addr t v _ ltac:(lia) ltac:(lia) ltac:(lia) Hv H) as (E1 & E2 & H').
    rewrite E1, E2. cbn [rbind]. unfold nz. destruct (Z.eqb_spec t 0); [lia|]. cbn [negb].
    rewrite wrap_small by lia. rewrite (IH (addr + 2 * lw)) by (done || lia).
    cbn. by rewrite <- app_assoc.
Qed.

Lemma parse_auxv c b last pos n l rest :
  note_at (host_mem c) pos n NT_AUXV (flat_map aux_bytes (l ++ [(0, 0)]) ++ rest) ->
  host_wf (host_mem c) -> Forall aux_ok l -> 0 <= pos ->
  pos + 20 + Z.of_nat (length (flat_map aux_bytes (l ++ [(0, 0)]) ++ rest)) < 2 ^ 64 ->
  Z.of_nat (length l) < Z.of_nat (length (flat_map aux_bytes (l ++ [(0, 0)]) ++ rest)) / (2 * lw) ->
  parse_note c b last pos
    = Ok (c, with_auxv (mAuxv b ++ auxv_at (pos + 20) (l ++ [(0, 0)]))
               (setAuxvMaxCount
                  (Z.of_nat (length (flat_map aux_bytes (l ++ [(0, 0)]) ++ rest)) / (2 * lw)) b),
          last, pos + 20 + Z.of_nat (length (flat_map aux_bytes (l ++ [(0, 0)]) ++ rest))).
Proof.
  intros [E1 E2 E3 E4 E5 E6] Hh Hl Hp He Hn. set (desc := flat_map _ _ ++ rest) in *.
  pose proof layout_sizes as Hs. unfold parse_note. cbn zeta. rewrite E1, E2, E3. cbn [rbind].
  destruct (Z.eqb_spec (Z.of_nat (length desc)) 0) as [Hz|_].
  { rewrite Hz in Hn. cbn in Hn. rewrite Z.div_0_l in Hn by lia. lia. }
  rewrite E4. change (NT_AUXV =? NT_PRSTATUS) with false. change (NT_AUXV =? NT_AUXV) with true.
  cbn iota. rewrite (auxv_loop_entries _ _ _ l rest); try done; [|lia|lia|].
  - cbn [rbind]. by rewrite E5.
  - pose proof (Z.mul_div_le (Z.of_nat (length desc)) (2 * lw)). nia.
Qed.

(** ** The file table *)

Definition file_words (f : Z * Z * Z) : list Z :=
  let '(b, e, o) := f in word_bytes b ++ word_bytes e ++ word_bytes o.
Definition words_ok (f : Z * Z * Z) : Prop :=
  let '(b, e, o) := f in
  0 <= b < 2 ^ (8 * lw) /\ 0 <= e < 2 ^ (8 * lw) /\ 0 <= o < 2 ^ (8 * lw).
Definition name_ok (nm : list Z) : Prop := Forall (fun x => x <> 0) nm.

Definition file_item (fn : (Z * Z * Z) * list Z) : File :=
  let '((b, e, o), nm) := fn in NewFile b e (shl 64 o 12) nm.
Definition with_files (l : list File) (b : NoteBlock) : NoteBlock :=
  MkNoteBlock b (mThread b) (mAuxv b) (mFile b ++ l) (mAuxvMax b).

Lemma cstr_of_name nm rest : name_ok nm -> cstr_of (nm ++ 0 :: rest) = Some nm.
Proof.
  induction 1 as [|x nm Hx _ IH]; cbn; [done|].
  destruct (Z.eqb_spec x 0); [done|]. by rewrite IH.
Qed.

Lemma holds_cstr h a nm rest :
  host_wf h -> holds h a (nm ++ 0 :: rest) -> name_ok nm -> host_cstr h a = Ok nm.
Proof.
  intros Hh H Hn. rewrite <- (Z.add_0_r a). apply (host_cstr_load h a _ _ 0 nm Hh H); [lia|].
  rewrite drop_0. by apply cstr_of_name.
Qed.

Lemma file_words_length f : Z.of_nat (length (file_words f)) = 3 * lw.
Proof. destruct f as [[b e] o]. cbn. rewrite !length_app, !Nat2Z.inj_add, !word_length. lia. Qed.

Lemma file_loop_entries h fs file names b r1 r2 :
  host_wf h -> Forall words_ok fs.*1 -> Forall name_ok fs.*2 -> 0 <= file -> 0 <= names ->
  file + 3 * lw * Z.of_nat (length fs) < 2 ^ 64 ->
  holds h file (flat_map file_words fs.*1 ++ r1) ->
  names + Z.of_nat (length (flat_map (fun nm => nm ++ [0]) fs.*2)) < 2 ^ 64 ->
  holds h names (flat_map (fun nm => nm ++ [0]) fs.*2 ++ r2) ->
  file_loop (length fs) h file names b = Ok (with_files (file_item <$> fs) b).
Proof.
  intros Hh. pose proof layout_sizes as Hs. revert file names b.
  induction fs as [|[[[fb fe] fo] nm] fs IH]; intros file names b Hw Hn Hf Hnm He H1 He2 H2.
  { cbn. unfold with_files. rewrite app_nil_r. by destruct b. }
  cbn [fmap list_fmap fst snd] in *. apply Forall_cons_1 in Hw as [(W1 & W2 & W3) Hw].
  apply Forall_cons_1 in Hn as [Hnm1 Hn]. cbn [flat_map length file_loop] in *.
  assert (Hcut : host_word h file lw = Ok fb /\ host_word h (u64 (file + lw)) lw = Ok fe /\
    host_word h (u64 (file + 2 * lw)) lw = Ok fo /\ holds h (file + 3 * lw) (flat_map file_words fs.*1 ++ r1)).
  { unfold file_words at 1 in H1. rewrite <- !app_assoc in H1.
    apply holds_app in H1 as [A1 H1]; [|done]. apply holds_app in H1 as [A2 H1]; [|done].
    apply holds_app in H1 as [A3 H1]; [|done]. rewrite !word_length in *. rewrite !wrap_small by lia.
    replace (file + 2 * lw) with (file + lw + lw) by lia.
    replace (file + 3 * lw) with (file + lw + lw + lw) by lia.
    split_and!; try done; by apply holds_word_value. }
  destruct Hcut as (E1 & E2 & E3 & H1'). rewrite E1, E2, E3. cbn [rbind].
  rewrite length_app, length_app in He2. cbn [length] in He2.
  assert (Hs1 : holds h names (nm ++ 0 :: (flat_map (fun nm => nm ++ [0]) fs.*2 ++ r2))).
  { by rewrite <- !app_assoc in H2. }
  rewrite (holds_cstr h names nm _ Hh Hs1 Hnm1). cbn [rbind].
  replace (nm ++ 0 :: (flat_map (fun nm => nm ++ [0]) fs.*2 ++ r2))
    with ((nm ++ [0]) ++ (flat_map (fun nm => nm ++ [0]) fs.*2 ++ r2)) in Hs1 by (by rewrite <- app_assoc).
  apply holds_app in Hs1 as [_ Hs2]; [|done]. rewrite length_app in Hs2. cbn [length] in Hs2.
  rewrite !wrap_small by lia.
  rewrite (IH (file + 3 * lw)); try done; try lia.
  - unfold with_files. cbn. by rewrite <- app_assoc.
  - match type of Hs2 with holds _ ?a _ => by replace (names + Z.of_nat (length nm) + 1) with a by lia end.
Qed.

Definition file_desc (pg : list Z) (fs : list ((Z * Z * Z) * list Z)) (pad : list Z) : list Z :=
  word_bytes (Z.of_nat (length fs)) ++ pg ++ flat_map file_words fs.*1
    ++ flat_map (fun nm => nm ++ [0]) fs.*2 ++ pad.

Lemma file_words_all fs :
  Z.of_nat (length (flat_map file_words fs)) = 3 * lw * Z.of_nat (length fs).
Proof.
  induction fs as [|f fs IH]; cbn [flat_map length]; [lia|].
  rewrite length_app, Nat2Z.inj_add, IH, file_words_length. lia.
Qed.

Lemma parse_file c b last pos n pg fs pad :
  let desc := file_desc pg fs pad in
  note_at (host_mem c) pos n NT_FILE desc -> host_wf (host_mem c) -> Z.of_nat (length pg) = lw ->
  Forall words_ok fs.*1 -> Forall name_ok fs.*2 -> 0 <= pos ->
  pos + 20 + Z.of_nat (length desc) < 2 ^ 64 -> Z.of_nat (length fs) < 2 ^ (8 * lw) ->
  parse_note c b last pos
    = Ok (c, with_files (file_item <$> fs) b, last, pos + 20 + Z.of_nat (length desc)).
Proof.
  intros desc [E1 E2 E3 E4 E5 E6] Hh Hpg Hw Hnm Hp He Hn. pose proof layout_sizes as Hs.
  assert (Hlen : Z.of_nat (length desc) = 2 * lw + 3 * lw * Z.of_nat (length fs)
    + Z.of_nat (length (flat_map (fun nm => nm ++ [0]) fs.*2)) + Z.of_nat (length pad)).
  { unfold desc, file_desc. rewrite !length_app, !Nat2Z.inj_add, file_words_all, word_length, length_fmap. lia. }
  unfold desc, file_desc in E6. apply holds_app in E6 as [F1 F2]; [|done].
  apply holds_app in F2 as [F2 F3]; [|done]. pose proof F3 as F4.
  apply holds_app in F4 as [_ F4]; [|done]. rewrite file_words_all, length_fmap in F4.
  rewrite word_length in *. apply holds_word_value in F1; [|lia].
  unfold parse_note. cbn zeta. rewrite E1, E2, E3. cbn [rbind].
  destruct (Z.eqb_spec (Z.of_nat (length desc)) 0) as [Hz|_]; [nia|].
  rewrite E4. change (NT_FILE =? NT_PRSTATUS) with false. change (NT_FILE =? NT_AUXV) with false.
  change (NT_FILE =? NT_FILE) with true. cbn iota. rewrite F1. cbn [rbind].
  rewrite !wrap_small by nia. rewrite Nat2Z.id.
  assert (host_word (host_mem c) (pos + 20 + lw) lw = Ok (le_value pg)) as ->
    by (apply holds_word; [done|lia]).
  cbn [rbind]. rewrite (file_loop_entries _ fs _ _ b (flat_map (fun nm => nm ++ [0]) fs.*2 ++ pad) pad Hh Hw Hnm);
    [|nia|nia|nia| |nia|].
  - cbn [rbind]. by rewrite E5.
  - replace (pos + 20 + 2 * lw) with (pos + 20 + lw + Z.of_nat (length pg)) by lia. exact F3.
  - match type of F4 with holds _ ?a _ => replace (pos + 20 + 2 * lw + 3 * lw * Z.of_nat (length fs)) with a by lia end.
    exact F4.
Qed.

(** * A sequence of notes *)

(** [note_loop] from [pos] on returns [r], with the fuel [load_note] gives it or more. *)
Definition loops (c : CoreApi) (b : NoteBlock) (last : option nat) (pos end_ : Z)
    (r : CoreApi * NoteBlock) : Prop :=
  forall fuel, end_ - pos < Z.of_nat fuel -> (0 < fuel)%nat ->
    note_loop fuel c b last pos end_ = Ok r.

Lemma loops_step c b last pos end_ c' b' last' pos' r :
  parse_note c b last pos = Ok (c', b', last', pos') -> pos < end_ -> pos < pos' ->
  loops c' b' last' pos' end_ r -> loops c b last pos end_ r.
Proof.
  intros Hp Hlt Hadv Hr [|fuel] Hf Hpos; [lia|]. cbn [note_loop].
  destruct (Z.ltb_spec pos end_); [|lia]. rewrite Hp. cbn [rbind]. apply Hr; lia.
Qed.

Lemma loops_end c b last end_ : loops c b last end_ end_ (c, b).
Proof. intros [|fuel] _ Hf; [lia|]. cbn [note_loop]. by rewrite Z.ltb_irrefl. Qed.
End NoteTypes.
