(* ===== verification/FakeProofs.v ===== *)
(** The file [FakeBuild] makes of a crash report, as the loader reads it: writing never
    leaves the mapping, and the loaded core has the thread, the auxiliary vector, the file
    table and the segments of the report. *)

From Stdlib Require Import ZArith Lia Bool.
From stdpp Require Import base list gmap numbers.
From S2P Require Import Prelude Words Host Blocks Notes CoreApi Segments AddressSpace MemRef Elf.
From S2P Require Import CoreLoad LoadProofs SaveCore SaveProofs FakeBuild NoteProofs.
Open Scope Z_scope.

(** * Writing *)

(** Writes that follow each other fill zeroed memory from the front. *)
Lemma put_all_fill chunks pre k :
  (length (concat chunks) <= k)%nat ->
  put_all (pre ++ replicate k 0) (Z.of_nat (length pre)) chunks
    = Ok (pre ++ concat chunks ++ replicate (k - length (concat chunks)) 0,
          Z.of_nat (length pre) + Z.of_nat (length (concat chunks))).
Proof.
  revert pre k. induction chunks as [|bs l IH]; intros pre k Hk; cbn [put_all concat] in *.
  { cbn. by rewrite Nat.sub_0_r, Z.add_0_r. }
  rewrite length_app in Hk. unfold put_at. rewrite length_app, length_replicate.
  assert ((0 <=? Z.of_nat (length pre)) &&
    (Z.of_nat (length pre) + Z.of_nat (length bs) <=? Z.of_nat (length pre + k)) = true) as ->
    by (apply andb_true_iff; rewrite !Z.leb_le; lia).
  cbn [rbind]. rewrite Nat2Z.id. unfold splice. rewrite take_app_length.
  rewrite drop_app_ge by lia. replace (_ + _ - _)%nat with (length bs) by lia.
  rewrite drop_replicate.
  specialize (IH (pre ++ bs) (k - length bs)%nat ltac:(lia)).
  rewrite length_app, Nat2Z.inj_add, <- !app_assoc in IH. rewrite IH.
  rewrite length_app, Nat2Z.inj_add, Nat.sub_add_distr, Z.add_assoc. by rewrite <- app_assoc.
Qed.

Section FakeProofs.
Context {L : Layout} {HL : StdLayout L}.

(** * Well-formed reports *)

Definition names_bytes (maps : list VirtualMemoryArea) : list Z :=
  flat_map (fun nm => nm ++ [0]) (m_file <$> maps).

Definition vma_ok (m : VirtualMemoryArea) : Prop :=
  0 <= m_begin m <= m_end m /\ m_end m < 2 ^ (8 * lw) /\ 0 <= m_offset m < 2 ^ 32 /\
  name_ok (m_file m).

(** The report describes areas in address order and fits the 32-bit sizes of a file. *)
Record report_ok (T : FakeTarget) (s : Stream) (page_size va : Z) : Prop := {
  ro_vma : Forall vma_ok (s_Maps s);
  ro_order : pairwise (fun x y => m_end x <= m_begin y) (s_Maps s);
  ro_size : 80 * Z.of_nat (length (s_Maps s)) + Z.of_nat (length (names_bytes (s_Maps s)))
              + 0x3000 < 2 ^ 31;
  ro_regs : Z.of_nat (length (s_Regs s)) = sizeof_pt_regs T;
  ro_tid : - 2 ^ 31 <= s_Tid s < 2 ^ 31;
  ro_page : 0 <= page_size < 2 ^ 32;
  ro_va : 0 <= va <= 54;
}.

(** A target whose [Elf_prstatus] is laid out as the callback of its loader expects. *)
Class TargetOk (CB : NoteCallback) (T : FakeTarget) : Prop := {
  to_sizes : 0 <= pr_pid T /\ pr_pid T + 4 <= pr_reg T /\ 0 < sizeof_pt_regs T /\
    pr_reg T + sizeof_pt_regs T <= sizeof_prstatus T <= 400 /\ sizeof_prstatus T mod 4 = 0;
  to_cb : cb_prstatus = thread_of_prstatus (pr_pid T) (pr_reg T) (sizeof_pt_regs T);
  to_arm64 : is_arm64 T = true -> CB = arm64_callback /\ lw = 8;
}.

(** * The members *)

Definition report_auxv (T : FakeTarget) (s : Stream) (page_size : Z) : list (Z * Z) :=
  [(AT_PHDR, 0); (AT_PHENT, ph_size); (AT_PHNUM, DEF_FAKE_PHNUM); (AT_PAGESZ, page_size)]
  ++ (if HasPAC T s || HasTaggleAddr T s then [(AT_HWCAP, 0xFFFFFFFF); (AT_HWCAP2, 0xFFFFFFFF)]
      else []).

(** The address size the PAC mask is built from. *)
Definition report_va (T : FakeTarget) (s : Stream) (va : Z) : Z :=
  if (HasPAC T s || HasTaggleAddr T s) && negb (nz va) then
    match s_Maps s !! (length (s_Maps s) - 1)%nat with
    | Some m => guess_va_bits (m_end m)
    | None => va
    end
  else va.

Definition thread_notes_size (T : FakeTarget) (s : Stream) : Z :=
  sizeof_prstatus T + 20 + (if HasPAC T s then 64 else 0) + (if HasTaggleAddr T s then 28 else 0).
Definition file_note_size (maps : list VirtualMemoryArea) : Z :=
  20 + 2 * lw + 3 * lw * Z.of_nat (length maps)
    + RoundUp 32 (Z.of_nat (length (names_bytes maps))) 4.

Lemma names_cons m maps :
  Z.of_nat (length (names_bytes (m :: maps)))
    = Z.of_nat (length (m_file m)) + 1 + Z.of_nat (length (names_bytes maps)).
Proof. cbn. rewrite !length_app. cbn [length]. unfold names_bytes. lia. Qed.

Lemma fileslen_sum maps n :
  0 <= n -> n + Z.of_nat (length (names_bytes maps)) < 2 ^ 31 ->
  foldl (fun n m => i32 (n + (Z.of_nat (length (m_file m)) + 1))) n maps
    = n + Z.of_nat (length (names_bytes maps)).
Proof.
  revert n. induction maps as [|m maps IH]; intros n H0 Hn; cbn [foldl]; [cbn; lia|].
  rewrite names_cons in *. rewrite sint_small by lia. rewrite IH by lia. lia.
Qed.

Lemma parse_maps maps page_size va :
  Z.of_nat (length (names_bytes maps)) < 2 ^ 31 ->
  ParseProcessMapsVma maps (PrepareFake page_size va) =
    MkFakeCore (MkEhdr 0 0 0 0) 0 (ParserPhdr <$> maps) 0 0 [] (ParserNtFile <$> maps)
      (Z.of_nat (length (names_bytes maps))) 0 page_size va.
Proof.
  intros Hn. destruct maps as [|m maps]; [done|]. unfold ParseProcessMapsVma, PrepareFake.
  cbn [fileslen ehdr shdr_info note_offset note_filesz auxv extra_note_filesz fk_page_size va_bits].
  by rewrite fileslen_sum by lia.
Qed.

Lemma page_size_bytes_length k : Z.of_nat (length (page_size_bytes k)) = lw.
Proof.
  unfold page_size_bytes.
  destruct HL as [-> | ->]; cbn -[le_bytes]; by rewrite ?length_app, !le_bytes_length.
Qed.

Section Create.
Context {CB : NoteCallback} (T : FakeTarget) {HT : TargetOk CB T} (s : Stream) (page_size va : Z).
Hypothesis Hok : report_ok T s page_size va.

Let k := create T s page_size va.
Let n := Z.of_nat (length (s_Maps s)) + 1.

(** The size of the notes. *)
Definition notes_size : Z :=
  64 * lw + 20 + thread_notes_size T s + file_note_size (s_Maps s).

Lemma thread_size_range : 0 <= thread_notes_size T s <= 512.
Proof.
  pose proof to_sizes. unfold thread_notes_size. destruct (HasPAC T s), (HasTaggleAddr T s); lia.
Qed.

Lemma names_round :
  Z.of_nat (length (names_bytes (s_Maps s))) <= RoundUp 32 (Z.of_nat (length (names_bytes (s_Maps s)))) 4
    < Z.of_nat (length (names_bytes (s_Maps s))) + 4.
Proof. pose proof (ro_size _ _ _ _ Hok). apply (RoundUp_range 32 _ 2); lia. Qed.

(** The members when the notes are sized. *)
Definition created (fsz : Z) (x : list (Z * Z)) (extra v : Z) : FakeCore :=
  MkFakeCore (if PN_XNUM <=? n then MkEhdr 0 PN_XNUM sh_bytes 1 else MkEhdr 0 n 0 0)
    (if PN_XNUM <=? n then n else 0) (ParserPhdr <$> s_Maps s) (eh_size + n * ph_size) fsz x
    (ParserNtFile <$> s_Maps s) (Z.of_nat (length (names_bytes (s_Maps s)))) extra page_size v.

Lemma create_headers :
  CreateCoreNoteHeader (CreateCoreHeader (ParseProcessMapsVma (s_Maps s) (PrepareFake page_size va)))
    = created 0 [] 0 va.
Proof.
  pose proof (ro_size _ _ _ _ Hok) as Hsz. pose proof layout_sizes as Hl.
  rewrite parse_maps by lia. unfold CreateCoreHeader, created.
  cbn [ehdr shdr_info phdrs note_offset note_filesz auxv nt_file fileslen extra_note_filesz
    fk_page_size va_bits e_shentsize].
  rewrite length_fmap. rewrite (wrap_small 32) by lia. fold n.
  unfold CreateCoreNoteHeader, with_note, ActualPhnum, HasSection.
  cbn [ehdr shdr_info phdrs note_offset note_filesz auxv nt_file fileslen extra_note_filesz
    fk_page_size va_bits].
  assert (uword (eh_size + n * ph_size) = eh_size + n * ph_size) as Hu.
  { apply wrap_small. unfold n. destruct Hl as [(-> & -> & ->)|(-> & -> & ->)]; lia. }
  destruct (Z.leb_spec PN_XNUM n); cbn [e_phnum]; [by rewrite Z.eqb_refl, Hu|].
  destruct (Z.eqb_spec n PN_XNUM); [lia|]. by rewrite Hu.
Qed.

Lemma create_auxv :
  arm64_auxv T s (CreateCoreAUXV (CreateCorePrStatus T s (created 0 [] 0 va)))
    = created 0 (report_auxv T s page_size) (thread_notes_size T s) (report_va T s va).
Proof.
  unfold arm64_auxv, CreateCoreAUXV, with_auxv_entries, report_auxv, report_va, CreateCorePrStatus,
    created, thread_notes_size.
  cbn [ehdr shdr_info phdrs note_offset note_filesz auxv nt_file fileslen extra_note_filesz
    fk_page_size va_bits].
  destruct (HasPAC T s), (HasTaggleAddr T s); cbn [orb andb]; try destruct (negb (nz va)); cbn [andb];
    try destruct (s_Maps s !! _); cbn [app]; f_equal; unfold sizeof_Nhdr; lia.
Qed.

Lemma create_size x v :
  ClocNoteFileSize (created 0 x (thread_notes_size T s) v) = created notes_size x (thread_notes_size T s) v.
Proof.
  pose proof (ro_size _ _ _ _ Hok) as Hsz. pose proof layout_sizes as Hl.
  pose proof thread_size_range as Ht. pose proof names_round as Hr.
  unfold ClocNoteFileSize, with_note, created.
  cbn [ehdr shdr_info phdrs note_offset note_filesz auxv nt_file fileslen extra_note_filesz
    fk_page_size va_bits]. rewrite length_fmap.
  assert (Hpow : 2 ^ 32 <= 2 ^ (8 * lw)) by (apply Z.pow_le_mono_r; lia).
  assert (0 <= 3 * lw * Z.of_nat (length (s_Maps s)) <= 24 * Z.of_nat (length (s_Maps s))) by nia.
  f_equal. unfold notes_size, file_note_size, uword, DEF_FAKE_AUXV_NUM, sizeof_Nhdr.
  assert (Hw : forall z, 0 <= z < 2 ^ 32 -> wrap (8 * lw) z = z) by (intros; apply wrap_small; lia).
  rewrite (Hw (0 + _)) by lia. rewrite (Hw (_ + thread_notes_size T s)) by lia.
  rewrite Hw by lia. lia.
Qed.

Lemma create_eq :
  k = ClocSectionOffset
        (created notes_size (report_auxv T s page_size) (thread_notes_size T s) (report_va T s va)).
Proof. unfold k, create. by rewrite create_headers, create_auxv, create_size. Qed.

Lemma create_fields :
  phdrs k = ParserPhdr <$> s_Maps s /\ nt_file k = ParserNtFile <$> s_Maps s /\
  fileslen k = Z.of_nat (length (names_bytes (s_Maps s))) /\
  note_offset k = eh_size + n * ph_size /\ note_filesz k = notes_size /\
  auxv k = report_auxv T s page_size /\ va_bits k = report_va T s va /\
  fk_page_size k = page_size /\ HasSection k = (PN_XNUM <=? n) /\
  ehdr k = (if PN_XNUM <=? n then MkEhdr (notes_end k) PN_XNUM sh_bytes 1 else MkEhdr 0 n 0 0) /\
  (PN_XNUM <= n -> shdr_info k = n).
Proof.
  rewrite create_eq. unfold ClocSectionOffset, HasSection, created, notes_end.
  cbn [ehdr]. destruct (Z.leb_spec PN_XNUM n); cbn [e_phnum].
  - rewrite Z.eqb_refl. by split_and!.
  - destruct (Z.eqb_spec n PN_XNUM) as [|_]; [lia|]. split_and!; try done.
    + cbn [ehdr e_phnum]. destruct (Z.eqb_spec n PN_XNUM); [lia|done].
    + lia.
Qed.

(** * The notes *)

Definition pac_mask : Z :=
  GENMASK_UL 54 (if nz (report_va T s va) then report_va T s va else DEF_VA_BITS).
Definition thread_notes : list Z :=
  note_bytes NOTE_CORE_NAME_SZ CORE_magic NT_PRSTATUS (prstatus_bytes T s)
  ++ (if HasPAC T s then
        note_bytes NOTE_LINUX_NAME_SZ LINUX_magic NT_ARM_PAC_MASK (le_bytes 8 pac_mask ++ le_bytes 8 pac_mask)
        ++ note_bytes NOTE_LINUX_NAME_SZ LINUX_magic NT_ARM_PAC_ENABLED_KEYS (le_bytes 8 (s_PacEnabledKeys s))
      else [])
  ++ (if HasTaggleAddr T s then
        note_bytes NOTE_LINUX_NAME_SZ LINUX_magic NT_ARM_TAGGED_ADDR_CTRL (le_bytes 8 (s_TaggedAddr s))
      else []).

Definition auxv_rest : list Z :=
  flat_map aux_bytes (replicate (31 - length (report_auxv T s page_size)) (0, 0)).
Definition auxv_note : list Z :=
  note_bytes NOTE_CORE_NAME_SZ CORE_magic NT_AUXV
    (flat_map aux_bytes (report_auxv T s page_size ++ [(0, 0)]) ++ auxv_rest).

Definition named_files : list ((Z * Z * Z) * list Z) :=
  (fun m => (ParserNtFile m, m_file m)) <$> s_Maps s.
Definition file_pad : nat :=
  Z.to_nat (RoundUp 32 (Z.of_nat (length (names_bytes (s_Maps s)))) 4
            - Z.of_nat (length (names_bytes (s_Maps s)))).
Definition file_note : list Z :=
  note_bytes NOTE_CORE_NAME_SZ CORE_magic NT_FILE
    (file_desc (page_size_bytes k) named_files (replicate file_pad 0)).

Lemma prstatus_length : Z.of_nat (length (prstatus_bytes T s)) = sizeof_prstatus T.
Proof.
  pose proof to_sizes as Ht. pose proof (ro_regs _ _ _ _ Hok) as Hr. unfold prstatus_bytes.
  rewrite !length_app, !length_replicate, le_bytes_length, length_take. lia.
Qed.

Lemma entries_length l : Z.of_nat (length (flat_map aux_bytes l)) = 2 * lw * Z.of_nat (length l).
Proof.
  induction l as [|e l IH]; cbn [flat_map length]; [lia|]. unfold aux_bytes at 1.
  rewrite !length_app, !Nat2Z.inj_add, IH, !word_length. lia.
Qed.

Lemma report_auxv_length : (4 <= length (report_auxv T s page_size) <= 6)%nat.
Proof. unfold report_auxv. destruct (_ || _); cbn; lia. Qed.

Lemma thread_chunks : concat (prstatus_chunks T s k) = thread_notes.
Proof.
  destruct create_fields as (_ & _ & _ & _ & _ & _ & Hva & _).
  unfold prstatus_chunks, thread_notes, pac_chunks, tag_chunks, note_bytes. rewrite Hva.
  rewrite prstatus_length. fold pac_mask. rewrite !length_app, !le_bytes_length.
  destruct (HasPAC T s), (HasTaggleAddr T s); cbn [concat app];
    rewrite ?app_nil_r, <- ?app_assoc; reflexivity.
Qed.

Lemma concat_map {A} (f : A -> list Z) l : concat (f <$> l) = flat_map f l.
Proof. induction l as [|x l IH]; cbn; [done|]. by rewrite <- IH. Qed.

Lemma auxv_chunks_eq : concat (auxv_chunks k) = auxv_note.
Proof.
  destruct create_fields as (_ & _ & _ & _ & _ & Ha & _). pose proof report_auxv_length as Hr.
  pose proof layout_sizes as Hl.
  unfold auxv_chunks, auxv_note, note_bytes, auxv_rest. rewrite Ha. cbn [app concat]. unfold auxv_bytes.
  rewrite concat_map. change (fun e => word_bytes e.1 ++ word_bytes e.2) with aux_bytes.
  rewrite !length_app, !Nat2Z.inj_add, !entries_length, length_app, length_replicate. cbn [length].
  rewrite <- flat_map_app, <- app_assoc. cbn [app]. change DEF_FAKE_AUXV_NUM with 32.
  change ((0, 0) :: replicate (31 - length (report_auxv T s page_size)) (0, 0))
    with (replicate (S (31 - length (report_auxv T s page_size))) (0, 0)).
  replace (S (31 - length (report_auxv T s page_size))) with (Z.to_nat 32 - length (report_auxv T s page_size))%nat by lia.
  do 2 f_equal. lia.
Qed.

Lemma file_desc_length :
  Z.of_nat (length (file_desc (page_size_bytes k) named_files (replicate file_pad 0)))
    = file_note_size (s_Maps s) - 20.
Proof.
  pose proof names_round as Hr. unfold file_desc, file_note_size.
  rewrite !length_app, !Nat2Z.inj_add, file_words_all, word_length, !length_fmap, length_replicate.
  rewrite page_size_bytes_length.
  assert (named_files.*2 = m_file <$> s_Maps s) as ->.
  { unfold named_files. rewrite <- list_fmap_compose. done. }
  assert (length named_files = length (s_Maps s)) as -> by apply length_fmap.
  fold (names_bytes (s_Maps s)). unfold file_pad. lia.
Qed.

Lemma file_chunks : concat (nt_file_chunks k (s_Maps s)) ++ replicate file_pad 0 = file_note.
Proof.
  destruct create_fields as (Hp & Hf & Hl & _). pose proof names_round as Hr.
  pose proof (ro_size _ _ _ _ Hok) as Hsz. pose proof layout_sizes as Hlay.
  unfold file_note, note_bytes. rewrite file_desc_length. unfold nt_file_chunks.
  rewrite Hp, Hf, Hl, length_fmap. cbn [app concat]. rewrite concat_app, !concat_map.
  assert (0 <= 3 * lw * Z.of_nat (length (s_Maps s)) <= 24 * Z.of_nat (length (s_Maps s))) by nia.
  rewrite wrap_small by lia. unfold file_desc.
  assert (length named_files = length (s_Maps s)) as -> by apply length_fmap.
  assert (named_files.*1 = ParserNtFile <$> s_Maps s) as ->.
  { unfold named_files. rewrite <- list_fmap_compose. done. }
  assert (named_files.*2 = m_file <$> s_Maps s) as ->.
  { unfold named_files. rewrite <- list_fmap_compose. done. }
  unfold file_note_size. rewrite <- !app_assoc. f_equal; [f_equal; lia|].
  do 4 f_equal. f_equal. clear. induction (s_Maps s) as [|m l IH]; cbn; [done|]. by rewrite IH.
Qed.

Lemma thread_notes_length : Z.of_nat (length thread_notes) = thread_notes_size T s.
Proof.
  unfold thread_notes, thread_notes_size. rewrite !length_app, !Nat2Z.inj_add.
  rewrite (note_bytes_length _ _ _ _ core_name_ok), prstatus_length.
  destruct (HasPAC T s), (HasTaggleAddr T s); rewrite ?length_app, ?Nat2Z.inj_add;
    rewrite ?(note_bytes_length _ _ _ _ linux_name_ok), ?length_app, ?le_bytes_length; cbn [length]; lia.
Qed.

Lemma auxv_note_length : Z.of_nat (length auxv_note) = 20 + 64 * lw.
Proof.
  pose proof report_auxv_length. unfold auxv_note, auxv_rest.
  rewrite (note_bytes_length _ _ _ _ core_name_ok), length_app, Nat2Z.inj_add, !entries_length.
  rewrite length_app, length_replicate. cbn [length]. nia.
Qed.

Lemma file_note_length : Z.of_nat (length file_note) = file_note_size (s_Maps s).
Proof.
  unfold file_note. rewrite (note_bytes_length _ _ _ _ core_name_ok), file_desc_length. lia.
Qed.

Lemma notes_length :
  Z.of_nat (length (thread_notes ++ auxv_note ++ file_note)) = notes_size.
Proof.
  rewrite !length_app, !Nat2Z.inj_add, thread_notes_length, auxv_note_length, file_note_length.
  unfold notes_size. lia.
Qed.

(** * The file *)

Definition tail_bytes : list Z := if PN_XNUM <=? n then count_shdr n else [].
Definition headers : list Z :=
  ehdr_bytes T (ehdr k) ++ phdr_bytes PT_NOTE (note_phdr k)
    ++ flat_map (phdr_bytes PT_LOAD) (place_phdrs (notes_end k) (phdrs k)).
Definition gap_size : Z := notes_end k - (note_offset k + notes_size).
Definition report_file : list Z :=
  headers ++ (thread_notes ++ auxv_note ++ file_note)
    ++ replicate (Z.to_nat gap_size) 0 ++ tail_bytes.

Lemma ehdr_bytes_length e : Z.of_nat (length (ehdr_bytes T e)) = eh_size.
Proof.
  unfold ehdr_bytes, word_bytes. rewrite !length_app, !le_bytes_length.
  destruct HL as [-> | ->]; done.
Qed.

Lemma place_phdrs_length off l : length (place_phdrs off l) = length l.
Proof.
  revert off. induction l as [|[[[[[[f o] va'] pa] fsz] msz] al] l IH]; intros off; cbn; [done|].
  by rewrite IH.
Qed.

Lemma headers_length : Z.of_nat (length headers) = note_offset k.
Proof.
  destruct create_fields as (Hp & _ & _ & Ho & _). unfold headers.
  rewrite !length_app, !Nat2Z.inj_add, ehdr_bytes_length, phdr_bytes_length, phdrs_bytes_length.
  rewrite place_phdrs_length, Hp, length_fmap, Ho. unfold n. lia.
Qed.

(** The file is small enough for its offsets to be 32-bit values. *)
Lemma file_bounds :
  0 <= note_offset k /\ 0 <= notes_size /\ 0 <= gap_size < 4096 /\
  notes_end k = note_offset k + notes_size + gap_size /\ notes_end k + sh_bytes < 2 ^ 31 /\
  2 ^ 32 <= 2 ^ (8 * lw) /\ 0 < sh_bytes.
Proof.
  destruct create_fields as (_ & _ & _ & Ho & Hs & _). pose proof (ro_size _ _ _ _ Hok) as Hsz.
  pose proof thread_size_range as Ht. pose proof names_round as Hr. pose proof layout_sizes as Hl.
  assert (Hb : 0 <= notes_size /\ 0 <= note_offset k /\
    note_offset k + notes_size < 80 * Z.of_nat (length (s_Maps s)) +
      Z.of_nat (length (names_bytes (s_Maps s))) + 0x1000).
  { rewrite Ho. unfold notes_size, file_note_size, n.
    destruct Hl as [(-> & -> & ->)|(-> & -> & ->)]; lia. }
  assert (Hpow : 2 ^ 32 <= 2 ^ (8 * lw)) by (apply Z.pow_le_mono_r; lia).
  assert (Hru : note_offset k + notes_size <= notes_end k < note_offset k + notes_size + 4096).
  { unfold notes_end. rewrite Hs.
    assert (uword (note_offset k + notes_size) = note_offset k + notes_size) as ->
      by (apply wrap_small; lia).
    change align_size with (2 ^ 12). change 4096 with (2 ^ 12). apply RoundUp_range; lia. }
  unfold gap_size.
  assert (0 < sh_bytes <= 64) by (destruct HL as [-> | ->]; done). split_and!; lia.
Qed.

(** One step of the writer: the next part of the file. *)
Lemma put_step chunks pre bs m :
  concat chunks = bs ->
  put_all (pre ++ replicate (length bs + m) 0) (Z.of_nat (length pre)) chunks
    = Ok ((pre ++ bs) ++ replicate m 0, Z.of_nat (length (pre ++ bs))).
Proof.
  intros <-. rewrite put_all_fill by lia. rewrite length_app, Nat2Z.inj_add, <- app_assoc.
  by rewrite Nat.add_sub_swap, Nat.sub_diag by lia.
Qed.

(** Writing the file stays inside the mapping, and this is the file. *)
Lemma fake_file_eq : fake_file T s page_size va = Ok report_file.
Proof.
  destruct create_fields as (Hp & Hf & Hl & Ho & Hsz & Ha & Hva & Hps & Hsec & He & Hinfo).
  destruct file_bounds as (B1 & B2 & B3 & B4 & B5 & B6 & B7).
  pose proof headers_length as Hh. pose proof notes_length as Hn.
  pose proof file_chunks as Hfc. set (F := concat (nt_file_chunks k (s_Maps s))) in Hfc.
  set (g := (file_pad + (Z.to_nat gap_size + length tail_bytes))%nat).
  assert (Htail : Z.of_nat (length tail_bytes) = e_shentsize (ehdr k) * e_shnum (ehdr k)).
  { unfold tail_bytes. rewrite He. destruct (PN_XNUM <=? n); [|done].
    rewrite count_shdr_length. cbn. lia. }
  assert (Hcore : replicate (Z.to_nat (uword (notes_end k + e_shentsize (ehdr k) * e_shnum (ehdr k)))) 0
    = [] ++ replicate (length (ehdr_bytes T (ehdr k)) + (length (phdr_bytes PT_NOTE (note_phdr k))
        + (length (flat_map (phdr_bytes PT_LOAD) (place_phdrs (notes_end k) (phdrs k)))
        + (length thread_notes + (length auxv_note + (length F + g)))))) 0).
  { cbn [app]. f_equal. rewrite <- Htail. unfold headers in Hh. rewrite <- Hfc in Hn.
    rewrite !length_app, !length_replicate in *.
    assert (Z.of_nat (length tail_bytes) <= sh_bytes).
    { unfold tail_bytes. destruct (PN_XNUM <=? n); [|cbn; lia]. rewrite count_shdr_length. lia. }
    unfold uword. rewrite wrap_small by lia. unfold g. lia. }
  unfold fake_file. fold k. cbn zeta. rewrite Hcore. change 0 with (Z.of_nat (length (@nil Z))) at 1.
  rewrite put_step by (cbn; by rewrite app_nil_r). cbn [rbind app].
  rewrite put_step by (cbn; by rewrite app_nil_r). cbn [rbind].
  rewrite put_step by apply concat_map. cbn [rbind].
  rewrite put_step by apply thread_chunks. cbn [rbind].
  rewrite put_step by apply auxv_chunks_eq. cbn [rbind].
  rewrite put_step by done. cbn [rbind]. unfold g. rewrite !replicate_add.
  rewrite Hsec. unfold report_file, headers. rewrite <- Hfc, <- !app_assoc. unfold tail_bytes.
  destruct (Z.leb_spec PN_XNUM n) as [Hx|Hx]; [|done].
  rewrite (Hinfo Hx), !app_assoc. set (pre := _ ++ replicate (Z.to_nat gap_size) 0).
  assert (notes_end k = Z.of_nat (length pre)) as ->.
  { unfold pre. unfold headers in Hh. rewrite <- Hfc in Hn.
    rewrite !length_app, !length_replicate in *. lia. }
  replace (length (count_shdr n)) with (length (count_shdr n) + 0)%nat by lia.
  rewrite (put_step [count_shdr n] pre (count_shdr n)) by (cbn; by rewrite app_nil_r).
  cbn [rbind replicate]. by rewrite app_nil_r.
Qed.

(** The header carries the number of program headers. *)
Lemma report_counts : counts (ehdr_bytes T (ehdr k)) n (notes_end k).
Proof.
  destruct create_fields as (_ & _ & _ & _ & _ & _ & _ & _ & _ & He & _).
  split; [apply ehdr_bytes_length| | |]; rewrite He; unfold part_is, ehdr_bytes, word_bytes;
    [|intros Hx%Z.leb_le; rewrite Hx|intros Hx%Z.leb_le; rewrite Hx].
  - rewrite le_bytes_length. destruct HL as [-> | ->]; cbn -[le_bytes Z.leb];
      destruct (PN_XNUM <=? n); reflexivity.
  - rewrite le_bytes_length. destruct HL as [-> | ->]; reflexivity.
  - rewrite le_bytes_length. destruct HL as [-> | ->]; reflexivity.
Qed.

(** * Reading the notes *)

Definition report_thread (pos : Z) : ThreadApi := MkThread (s_Tid s) pos (s_Regs s) [] [].

Lemma prstatus_read c pos :
  host_wf (host_mem c) -> holds (host_mem c) pos (prstatus_bytes T s) -> 0 <= pos ->
  pos + sizeof_prstatus T < 2 ^ 64 -> cb_prstatus c pos = Ok (report_thread pos).
Proof.
  intros Hh H Hp He. pose proof to_sizes as Ht. pose proof (ro_regs _ _ _ _ Hok) as Hr.
  pose proof (ro_tid _ _ _ _ Hok) as Htid. rewrite to_cb. unfold thread_of_prstatus.
  unfold prstatus_bytes in H. apply holds_app in H as [_ H]; [|done].
  apply holds_app in H as [H1 H]; [|done]. apply holds_app in H as [_ H]; [|done].
  apply holds_app in H as [H2 _]; [|done].
  rewrite !length_replicate, le_bytes_length in *. rewrite Z2Nat.id in H1 by lia.
  rewrite take_ge in H2 by lia. rewrite !wrap_small by lia.
  assert (host_word (host_mem c) (pos + pr_pid T) 4 = Ok (u32 (s_Tid s))) as ->.
  { apply (holds_le _ _ 4); [done|done|apply wrap_range; lia]. }
  cbn [rbind]. unfold holds in H2. rewrite Hr in H2.
  replace (pos + Z.of_nat (Z.to_nat (pr_pid T)) + Z.of_nat 4 + Z.of_nat (Z.to_nat (pr_reg T - pr_pid T - 4)))
    with (pos + pr_reg T) in H2 by lia. rewrite H2. cbn [rbind]. unfold report_thread. do 2 f_equal.
  unfold sint. rewrite wrap_wrap by lia. fold (sint 32 (s_Tid s)). apply sint_small; lia.
Qed.

Lemma ctzll_mask v : 0 <= v <= 54 -> ctzll (GENMASK_UL 54 v) = Ok v.
Proof.
  intros Hv.
  assert (H : forallb (fun i => match ctzll (GENMASK_UL 54 (Z.of_nat i)) with
      Ok x => x =? Z.of_nat i | _ => false end) (seq 0 55) = true) by (vm_compute; reflexivity).
  rewrite forallb_forall in H. specialize (H (Z.to_nat v)). rewrite in_seq, Z2Nat.id in H by lia.
  specialize (H ltac:(lia)). destruct (ctzll _); [|done..]. to_prop. by subst.
Qed.

(** The address size the notes of the file give. *)
Definition noted_va : Z := if nz (report_va T s va) then report_va T s va else DEF_VA_BITS.

Lemma noted_va_range : 0 < noted_va <= 54.
Proof.
  pose proof (ro_va _ _ _ _ Hok) as Hva. unfold noted_va.
  assert (0 <= report_va T s va <= 54) as Hr.
  { unfold report_va. destruct (_ && _); [|lia]. destruct (s_Maps s !! _) as [m|]; [|lia].
    unfold guess_va_bits. destruct (list_find _ _) as [[i v]|] eqn:E; [|lia].
    apply list_find_Some in E as (E & _). unfold valid_va_bits in E.
    do 6 (destruct i as [|i]; [cbn in E; simplify_eq; lia|]). done. }
  unfold nz. destruct (Z.eqb_spec (report_va T s va) 0); cbn; [unfold DEF_VA_BITS|]; lia.
Qed.

(** What the notes of arm64 do to the masks. *)
Definition noted_masks (c : CoreApi) : CoreApi :=
  if HasPAC T s then with_masks c (pointer_mask c) (GENMASK_UL (noted_va - 1) 0) else c.

Lemma pac_read c pos :
  is_arm64 T = true -> host_wf (host_mem c) -> 0 <= pos -> pos + 16 < 2 ^ 64 ->
  holds (host_mem c) pos (le_bytes 8 pac_mask ++ le_bytes 8 pac_mask) ->
  forall t, cb_note c NT_ARM_PAC_MASK pos t
    = Ok (with_masks c (pointer_mask c) (GENMASK_UL (noted_va - 1) 0), t).
Proof.
  intros Ha Hh Hp He H t. destruct (to_arm64 Ha) as [-> _]. cbn [cb_note arm64_callback].
  apply holds_app in H as [H1 H2]; [|done]. rewrite le_bytes_length in H2.
  change (Z.of_nat 8) with 8 in H2.
  assert (Hm : 0 <= pac_mask < 2 ^ 64).
  { unfold pac_mask, GENMASK_UL, shl. split; [apply Z.land_nonneg; left; apply wrap_range; lia|].
    rewrite Z.land_comm. change (Z.shiftr (2 ^ 64 - 1) (64 - 1 - 54)) with (Z.ones 55).
    rewrite Z.land_comm, Z.land_ones by lia.
    pose proof (Z.mod_pos_bound (wrap 64 (Z.shiftl (2 ^ 64 - 1)
      (if nz (report_va T s va) then report_va T s va else DEF_VA_BITS))) (2 ^ 55)). lia. }
  unfold arm64_note. change (NT_ARM_PAC_MASK =? NT_FPREGSET) with false.
  change (NT_ARM_PAC_MASK =? NT_ARM_TLS) with false.
  change (NT_ARM_PAC_MASK =? NT_ARM_PAC_MASK) with true. cbn iota zeta.
  rewrite (holds_le _ _ _ _ 8 H1) by (done || lia). cbn [rbind]. rewrite wrap_small by lia.
  rewrite (holds_le _ _ _ _ 8 H2) by (done || lia). cbn [rbind]. unfold pac_mask. fold noted_va.
  rewrite ctzll_mask by (pose proof noted_va_range; lia). done.
Qed.

Lemma word_read c pos type v :
  is_arm64 T = true -> type = NT_ARM_TAGGED_ADDR_CTRL \/ type = NT_ARM_PAC_ENABLED_KEYS ->
  holds (host_mem c) pos (le_bytes 8 v) -> forall t, cb_note c type pos t = Ok (c, t).
Proof.
  intros Ha Ht H t. destruct (to_arm64 Ha) as [-> _]. cbn [cb_note arm64_callback].
  unfold arm64_note, host_word. unfold holds in H. rewrite le_bytes_length in H.
  change (Z.of_nat 8) with 8 in H. by destruct Ht as [-> | ->]; cbn -[host_load]; rewrite H.
Qed.

Lemma take_note h pos m magic t desc rest :
  host_wf h -> note_name_ok m magic -> holds h pos (note_bytes m magic t desc ++ rest) ->
  0 <= pos -> pos + 20 + Z.of_nat (length desc) < 2 ^ 64 -> 0 <= t < 2 ^ 32 ->
  Z.of_nat (length desc) mod 4 = 0 -> Z.of_nat (length desc) + 4 < 2 ^ 32 ->
  note_at h pos m t desc /\ holds h (pos + 20 + Z.of_nat (length desc)) rest.
Proof.
  intros Hh Hm H Hp He Ht H4 Hlen. apply holds_app in H as [H1 H2]; [|done].
  rewrite (note_bytes_length _ _ _ _ Hm) in H2. split; [by apply (note_bytes_at h pos m magic)|].
  by rewrite <- Z.add_assoc.
Qed.

(** The block the notes of the report make of [b]. *)
Definition noted_thread (pos : Z) (b : NoteBlock) : NoteBlock :=
  addThreadItem (Some (report_thread (pos + 20))) b.
Definition noted_auxv (pos : Z) (b : NoteBlock) : NoteBlock :=
  with_auxv (mAuxv b ++ auxv_at (pos + 20) (report_auxv T s page_size ++ [(0, 0)]))
    (setAuxvMaxCount 32 b).
Definition noted_files (b : NoteBlock) : NoteBlock := with_files (file_item <$> named_files) b.

Lemma report_entries_ok : Forall aux_ok (report_auxv T s page_size).
Proof.
  pose proof (ro_page _ _ _ _ Hok) as Hp. pose proof layout_sizes as Hl.
  assert (2 ^ 32 <= 2 ^ (8 * lw)) by (apply Z.pow_le_mono_r; lia).
  assert (forall a v, 0 < a < 2 ^ 32 -> 0 <= v < 2 ^ 32 -> aux_ok (a, v)) as He
    by (intros; unfold aux_ok; cbn [fst snd]; lia).
  unfold report_auxv. apply Forall_app. split.
  - repeat (apply Forall_cons_2; [apply He; [done|unfold DEF_FAKE_PHNUM; lia]|]). done.
  - destruct (_ || _); [|done]. repeat (apply Forall_cons_2; [by apply He|]). done.
Qed.

Lemma named_files_ok :
  Forall words_ok named_files.*1 /\ Forall name_ok named_files.*2.
Proof.
  pose proof (ro_vma _ _ _ _ Hok) as Hv. unfold named_files. rewrite <- !list_fmap_compose.
  assert (2 ^ 32 <= 2 ^ (8 * lw)) by (apply Z.pow_le_mono_r; destruct layout_sizes; lia).
  split; apply Forall_fmap; (eapply List.Forall_impl; [|exact Hv]); intros m (V1 & V2 & V3 & V4); cbn; [|done].
  unfold words_ok. unfold uword. rewrite !wrap_small by lia.
  rewrite Z.shiftr_div_pow2 by lia. pose proof (Z.div_pos (m_offset m) (2 ^ 12)).
  pose proof (Z.div_le_upper_bound (m_offset m) (2 ^ 12) (m_offset m)). lia.
Qed.

(** Behind the thread status: the loop reaches the auxiliary vector. *)
Lemma extra_loops c b last pos end_ rest r :
  host_wf (host_mem c) -> 0 <= pos -> pos + 92 < end_ -> end_ < 2 ^ 64 ->
  holds (host_mem c) pos
    ((if HasPAC T s then
        note_bytes NOTE_LINUX_NAME_SZ LINUX_magic NT_ARM_PAC_MASK (le_bytes 8 pac_mask ++ le_bytes 8 pac_mask)
        ++ note_bytes NOTE_LINUX_NAME_SZ LINUX_magic NT_ARM_PAC_ENABLED_KEYS (le_bytes 8 (s_PacEnabledKeys s))
      else [])
     ++ (if HasTaggleAddr T s then
           note_bytes NOTE_LINUX_NAME_SZ LINUX_magic NT_ARM_TAGGED_ADDR_CTRL (le_bytes 8 (s_TaggedAddr s))
         else []) ++ rest) ->
  let pos' := pos + (if HasPAC T s then 64 else 0) + (if HasTaggleAddr T s then 28 else 0) in
  (holds (host_mem c) pos' rest -> loops (noted_masks c) b last pos' end_ r) ->
  loops c b last pos end_ r.
Proof.
  intros Hh Hp He He2 H pos' Hr.
  assert (Htag : forall c' q, host_mem c' = host_mem c -> 0 <= q -> q + 28 < end_ ->
    holds (host_mem c) q ((if HasTaggleAddr T s then note_bytes NOTE_LINUX_NAME_SZ LINUX_magic
      NT_ARM_TAGGED_ADDR_CTRL (le_bytes 8 (s_TaggedAddr s)) else []) ++ rest) ->
    (holds (host_mem c) (q + if HasTaggleAddr T s then 28 else 0) rest ->
       loops c' b last (q + if HasTaggleAddr T s then 28 else 0) end_ r) ->
    loops c' b last q end_ r).
  { intros c' q Hc Hq Hqe Hb Hnext. destruct (HasTaggleAddr T s) eqn:Et.
    2: { rewrite Z.add_0_r in Hnext. by apply Hnext. }
    assert (Ha : is_arm64 T = true) by (unfold HasTaggleAddr in Et; by apply andb_true_iff in Et as [? _]).
    apply (take_note _ _ _ _ _ _ _ Hh linux_name_ok) in Hb as [Hn Hb]; rewrite ?le_bytes_length in *;
      [|(lia || done)..]. change (q + 20 + Z.of_nat 8) with (q + 20 + 8) in Hb.
    replace (q + 28) with (q + 20 + 8) in Hnext by lia.
    eapply loops_step; [|lia| |apply Hnext, Hb].
    - rewrite <- Hc in Hn. rewrite (parse_other c' c' b last q _ _ _ Hn); [done|by repeat split|done|].
      intros t. apply (word_read c' (q + 20) _ (s_TaggedAddr s) Ha); [by left|apply (na_desc _ _ _ _ _ Hn)].
    - lia. }
  subst pos'. unfold noted_masks in Hr. destruct (HasPAC T s) eqn:Ep.
  2: { rewrite Z.add_0_r in Hr. apply (Htag c pos); done || lia. }
  assert (Ha : is_arm64 T = true) by (unfold HasPAC in Ep; by apply andb_true_iff in Ep as [? _]).
  rewrite <- app_assoc in H.
  apply (take_note _ _ _ _ _ _ _ Hh linux_name_ok) in H as [N1 H]; rewrite ?length_app, ?le_bytes_length in *;
    [|(lia || done)..].
  apply (take_note _ _ _ _ _ _ _ Hh linux_name_ok) in H as [N2 H]; rewrite ?le_bytes_length in *;
    [|(lia || done)..].
  eapply loops_step; [|lia| |].
  - apply (parse_other c (with_masks c (pointer_mask c) (GENMASK_UL (noted_va - 1) 0)) b last pos _ _ _ N1);
      [by repeat split|done|]. apply (pac_read c (pos + 20) Ha Hh); [lia|lia|apply (na_desc _ _ _ _ _ N1)].
  - rewrite length_app, !le_bytes_length. lia.
  - set (c1 := with_masks _ _ _) in *. rewrite length_app, !le_bytes_length.
    eapply loops_step; [|lia| |].
    + apply (parse_other c1 c1 b last _ _ _ _ N2); [by repeat split|done|].
      intros t. apply (word_read c1 _ _ (s_PacEnabledKeys s) Ha); [by right|apply (na_desc _ _ _ _ _ N2)].
    + rewrite le_bytes_length. lia.
    + rewrite le_bytes_length.
      replace (pos + 64) with (pos + 20 + Z.of_nat (8 + 8) + 20 + Z.of_nat 8) in Hr by lia.
      apply (Htag c1); done || lia.
Qed.

Lemma noted_masks_keeps c :
  host_mem (noted_masks c) = host_mem c /\ mCore (noted_masks c) = mCore c /\
  mLoad (noted_masks c) = mLoad c /\ mQuickLoad (noted_masks c) = mQuickLoad c /\
  mNext (noted_masks c) = mNext c /\ mNote (noted_masks c) = mNote c /\
  QUICK_LOAD_ENABLED (noted_masks c) = QUICK_LOAD_ENABLED c /\
  mBlocks (noted_masks c) = mBlocks c.
Proof. unfold noted_masks. by destruct (HasPAC T s). Qed.

Lemma notes_mod :
  (sizeof_prstatus T) mod 4 = 0 /\ (64 * lw) mod 4 = 0 /\ (file_note_size (s_Maps s) - 20) mod 4 = 0.
Proof.
  pose proof to_sizes as Ht. pose proof (ro_size _ _ _ _ Hok) as Hsz. split_and!; [lia| |].
  - destruct layout_sizes as [(-> & _)|(-> & _)]; done.
  - unfold file_note_size.
    assert (Hd : (2 ^ 2 | RoundUp 32 (Z.of_nat (length (names_bytes (s_Maps s)))) (2 ^ 2)))
      by (apply RoundUp_divide; lia).
    change (2 ^ 2) with 4 in Hd. destruct Hd as [q ->]. apply Z.mod_divide; [lia|].
    destruct layout_sizes as [(-> & _)|(-> & _)].
    + exists (4 + 6 * Z.of_nat (length (s_Maps s)) + q). lia.
    + exists (2 + 3 * Z.of_nat (length (s_Maps s)) + q). lia.
Qed.

Lemma note_sizes :
  file_note_size (s_Maps s) + 4 < 2 ^ 31 /\ 20 <= file_note_size (s_Maps s) /\
  (HasPAC T s = true -> is_arm64 T = true) /\ 4 <= lw <= 8 /\
  Z.of_nat (length (s_Maps s)) < 2 ^ (8 * lw) /\ 0 < sizeof_prstatus T <= 400.
Proof.
  pose proof (ro_size _ _ _ _ Hok) as Hsz. pose proof names_round as Hr. pose proof to_sizes.
  assert (2 ^ 32 <= 2 ^ (8 * lw)) by (apply Z.pow_le_mono_r; destruct layout_sizes; lia).
  assert (3 * lw * Z.of_nat (length (s_Maps s)) <= 24 * Z.of_nat (length (s_Maps s)) /\ 4 <= lw <= 8)
    by (destruct layout_sizes; nia).
  unfold file_note_size. split_and!; try lia; try nia.
  unfold HasPAC. by intros [? _]%andb_true_iff.
Qed.

(** The notes of the report, parsed. *)
Lemma report_loops c b pos :
  host_wf (host_mem c) -> 0 <= pos -> pos + notes_size < 2 ^ 64 ->
  holds (host_mem c) pos (thread_notes ++ auxv_note ++ file_note) ->
  loops c b None pos (pos + notes_size)
    (noted_masks c,
     noted_files (noted_auxv (pos + thread_notes_size T s) (noted_thread pos b))).
Proof.
  intros Hh Hp He H. pose proof to_sizes as Ht. pose proof note_sizes as (F1 & F2 & _ & F3 & F4 & F5).
  pose proof notes_mod as (M1 & M2 & M3). pose proof thread_size_range as Hts.
  pose proof report_auxv_length as Hal. unfold thread_notes in H. rewrite <- !app_assoc in H.
  assert (Hns : notes_size = 64 * lw + 20 + thread_notes_size T s + file_note_size (s_Maps s)) by done.
  apply (take_note _ _ _ _ _ _ _ Hh core_name_ok) in H as [N1 H]; rewrite ?prstatus_length in *;
    [|unfold thread_notes_size in *; destruct (HasPAC T s), (HasTaggleAddr T s); (lia || done)..].
  eapply loops_step; [|lia| |].
  { apply (parse_prstatus c b None pos _ _ (report_thread (pos + 20)) N1).
    - intros E. pose proof prstatus_length as El. rewrite E in El. cbn in El. lia.
    - apply prstatus_read; [done|apply (na_desc _ _ _ _ _ N1)|lia|].
      unfold thread_notes_size in *; destruct (HasPAC T s), (HasTaggleAddr T s); lia. }
  { rewrite prstatus_length. lia. }
  rewrite prstatus_length. fold (noted_thread pos b).
  eapply (extra_loops c _ _ _ _ (auxv_note ++ file_note)); [done|lia| |lia|exact H|].
  { unfold thread_notes_size in *; destruct (HasPAC T s), (HasTaggleAddr T s); lia. }
  intros H2.
  replace (pos + 20 + sizeof_prstatus T + (if HasPAC T s then 64 else 0) + (if HasTaggleAddr T s then 28 else 0))
    with (pos + thread_notes_size T s) in * by (unfold thread_notes_size; lia).
  destruct (noted_masks_keeps c) as (K1 & _). set (c1 := noted_masks c) in *. rewrite <- K1 in H2, Hh.
  set (desc := flat_map aux_bytes (report_auxv T s page_size ++ [(0, 0)]) ++ auxv_rest) in *.
  assert (Hdl : Z.of_nat (length desc) = 64 * lw).
  { pose proof auxv_note_length as Ha. unfold auxv_note in Ha.
    rewrite (note_bytes_length _ _ _ _ core_name_ok) in Ha. fold desc in Ha. lia. }
  apply (take_note _ _ _ _ _ desc _ Hh core_name_ok) in H2 as [N2 H3]; rewrite ?Hdl in *; [|(lia || done)..].
  eapply loops_step; [|lia| |].
  { apply (parse_auxv c1 _ _ _ _ _ auxv_rest N2 Hh report_entries_ok); [lia| |]; fold desc; rewrite Hdl; [lia|].
    replace (64 * lw / (2 * lw)) with 32 by (destruct layout_sizes as [(-> & _)|(-> & _)]; done). lia. }
  { fold desc. rewrite Hdl. lia. }
  fold desc. rewrite Hdl.
  replace (64 * lw / (2 * lw)) with 32 by (destruct layout_sizes as [(-> & _)|(-> & _)]; done).
  fold (noted_auxv (pos + thread_notes_size T s) (noted_thread pos b)).
  set (p3 := pos + thread_notes_size T s + 20 + 64 * lw) in *.
  pose proof file_desc_length as Hfl. unfold file_note in H3. rewrite <- (app_nil_r (note_bytes _ _ _ _)) in H3.
  set (fdesc := file_desc _ _ _) in *.
  apply (take_note _ _ _ _ _ fdesc _ Hh core_name_ok) in H3 as [N3 _]; rewrite ?Hfl in *; [|(lia || done)..].
  destruct named_files_ok as [W1 W2].
  pose proof (page_size_bytes_length k) as Hpg.
  eapply loops_step; [|lia| |].
  { apply (parse_file c1 _ _ p3 _ (page_size_bytes k) named_files (replicate file_pad 0) N3 Hh Hpg W1 W2); [lia| |].
    - fold fdesc. lia.
    - unfold named_files. rewrite length_fmap. lia. }
  { fold fdesc. lia. }
  fold fdesc. rewrite Hfl.
  replace (p3 + 20 + (file_note_size (s_Maps s) - 20)) with (pos + notes_size) by lia.
  apply loops_end.
Qed.

(** * Loading *)

Lemma report_file_length : Z.of_nat (length report_file) = notes_end k + Z.of_nat (length tail_bytes).
Proof.
  destruct file_bounds as (B1 & B2 & B3 & B4 & _). unfold report_file.
  rewrite (length_app headers), (length_app (thread_notes ++ _)), (length_app (replicate _ _)), length_replicate.
  rewrite !Nat2Z.inj_add, headers_length, notes_length. lia.
Qed.

Lemma report_note c :
  host_wf (host_mem c) -> 0 < mBegin (mCore c) -> mSize (mCore c) = Z.of_nat (length report_file) ->
  mBegin (mCore c) + mSize (mCore c) < 2 ^ 64 ->
  holds (host_mem c) (mBegin (mCore c)) report_file ->
  exists b, load_note c (note_phdr k) = Ok (addNoteBlock (noted_masks c) b) /\
    mThread b = [report_thread (mBegin (mCore c) + note_offset k + 20)] /\
    (fun a => (mType a, mValue a)) <$> mAuxv b = report_auxv T s page_size ++ [(0, 0)] /\
    mFile b = file_item <$> named_files.
Proof.
  intros Hh Hb Hsz He H. set (base := mBegin (mCore c)) in *.
  destruct create_fields as (_ & _ & _ & _ & Hfsz & _). pose proof report_file_length as Hlen.
  destruct file_bounds as (B1 & B2 & B3 & B4 & B5 & B6 & B7).
  assert (Hpos : 0 < notes_size).
  { unfold notes_size. pose proof thread_size_range. pose proof note_sizes. lia. }
  unfold report_file in H. apply holds_app in H as [_ H]; [|done]. rewrite headers_length in H.
  apply holds_app in H as [H _]; [|done].
  unfold load_note, note_phdr. cbn zeta. rewrite Hfsz.
  unfold note_on_block, setTruncated_block, setOriAddr_block, isValidBlock, NewNoteBlock, NewBlock.
  cbn [nb_block mFlags mOffset mVaddr mPaddr mFileSize mMemSize mAlign mOriAddr mTruncated mFake
    mOverlay mThread mAuxv mFile mAuxvMax].
  fold base. rewrite !(wrap_small 64 (note_offset k + notes_size)) by lia.
  rewrite !(wrap_small 64 (base + note_offset k)) by lia.
  destruct (Z.ltb_spec (mSize (mCore c)) (note_offset k + notes_size)); [lia|].
  destruct (Z.ltb_spec 0 notes_size); [|lia]. cbn [negb andb].
  cbn [nb_block mFlags mOffset mVaddr mPaddr mFileSize mMemSize mAlign mOriAddr mTruncated mFake
    mOverlay mThread mAuxv mFile mAuxvMax].
  rewrite (wrap_small 64 (base + note_offset k + notes_size)) by lia.
  set (b0 := MkNoteBlock _ [] [] [] 0).
  assert (Hp1 : 0 <= base + note_offset k) by lia.
  assert (Hp2 : base + note_offset k + notes_size < 2 ^ 64) by lia.
  rewrite (report_loops c b0 (base + note_offset k) Hh Hp1 Hp2 H).
  2: lia.
  2: lia.
  cbn [rbind]. eexists. split_and!; [reflexivity|reflexivity| |reflexivity].
  apply auxv_at_entries.
Qed.

(** The header of an area, as it is written. *)
Definition area_phdr (m : VirtualMemoryArea) : phdr :=
  let '(f, _, va', pa, fsz, msz, al) := ParserPhdr m in (f, notes_end k, va', pa, fsz, msz, al).

Lemma place_areas :
  place_phdrs (notes_end k) (phdrs k) = area_phdr <$> s_Maps s.
Proof.
  destruct create_fields as (-> & _). destruct file_bounds as (B1 & B2 & B3 & B4 & B5 & B6 & B7).
  assert (uword (notes_end k) = notes_end k) as Hu by (apply wrap_small; lia).
  induction (s_Maps s) as [|m l IH]; [done|]. cbn. rewrite Z.add_0_r.
  by rewrite Hu, IH.
Qed.

(** The permissions of an area. *)
Definition vma_flags (m : VirtualMemoryArea) : Z := h_flags (ParserPhdr m).

Lemma vma_flags_range m : 0 <= vma_flags m < 8.
Proof.
  assert (H : forall i lo up bit,
    match m_flags m !! i with Some x => if (x =? lo) || (x =? up) then bit else 0 | None => 0 end = 0
    \/ match m_flags m !! i with Some x => if (x =? lo) || (x =? up) then bit else 0 | None => 0 end = bit).
  { intros i lo up bit. destruct (m_flags m !! i); [|auto]. destruct (_ || _); auto. }
  unfold vma_flags, ParserPhdr. cbn [h_flags].
  destruct (H 0%nat 114 82 PF_R) as [-> | ->], (H 1%nat 119 87 PF_W) as [-> | ->],
    (H 2%nat 120 88 PF_X) as [-> | ->];
    (split; [discriminate|reflexivity]).
Qed.

Lemma area_fields m :
  vma_ok m -> h_flags (area_phdr m) = vma_flags m /\ h_off (area_phdr m) = notes_end k /\
  h_va (area_phdr m) = m_begin m /\ h_fsz (area_phdr m) = 0 /\
  h_msz (area_phdr m) = m_end m - m_begin m /\ ph_fits (area_phdr m).
Proof.
  intros (V1 & V2 & V3 & V4). destruct file_bounds as (B1 & B2 & B3 & B4 & B5 & B6 & B7).
  pose proof (vma_flags_range m) as Hf.
  assert (Hb : uword (m_begin m) = m_begin m) by (apply wrap_small; lia).
  assert (He : uword (uword (m_end m) - uword (m_begin m)) = m_end m - m_begin m).
  { rewrite Hb. unfold uword. rewrite !wrap_small; try lia. rewrite wrap_small; lia. }
  unfold area_phdr, vma_flags in *. unfold ParserPhdr in *.
  cbn [h_flags h_off h_va h_fsz h_msz ph_fits] in *. rewrite He, Hb. split_and!; try done; try lia.
  change align_size with 4096.
  repeat apply Forall_cons_2; (lia || by constructor).
Qed.

(** The loader reads the header of the notes, then those of the areas. *)
Lemma report_headers c :
  host_wf (host_mem c) -> 0 < mBegin (mCore c) ->
  mBegin (mCore c) + Z.of_nat (length report_file) < 2 ^ 64 ->
  holds (host_mem c) (mBegin (mCore c)) report_file ->
  read_phdr (host_mem c) (mBegin (mCore c) + eh_size) = Ok (PT_NOTE, note_phdr k) /\
  forall i ph, (area_phdr <$> s_Maps s) !! i = Some ph ->
    read_phdr (host_mem c) (u64 (mBegin (mCore c) + eh_size + ph_size + ph_size * Z.of_nat i))
      = Ok (PT_LOAD, ph).
Proof.
  intros Hh Hb He H. destruct create_fields as (Hp & _ & _ & Ho & Hs & _).
  destruct file_bounds as (B1 & B2 & B3 & B4 & B5 & B6 & B7). pose proof headers_length as Hhl.
  rewrite report_file_length in He. pose proof layout_sizes as Hsz.
  unfold report_file in H. apply holds_app in H as [H _]; [|done].
  unfold headers in H, Hhl. rewrite place_areas in *.
  rewrite !length_app, !Nat2Z.inj_add, ehdr_bytes_length, phdr_bytes_length, phdrs_bytes_length in Hhl.
  apply holds_app in H as [_ H]; [|done]. rewrite ehdr_bytes_length in H.
  apply holds_app in H as [H1 H2]; [|done]. rewrite phdr_bytes_length in H2. split.
  - apply read_phdr_bytes; [done|lia|lia|done| |done]. unfold note_phdr. rewrite Hs.
    split; [lia|]. repeat apply Forall_cons_2; (lia || by constructor).
  - apply (read_phdrs _ PT_LOAD (area_phdr <$> s_Maps s)); [done|lia|lia|done| |done].
    apply Forall_fmap. eapply List.Forall_impl; [|exact (ro_vma _ _ _ _ Hok)].
    intros m Hm. by apply area_fields.
Qed.

(** The segments the headers of the areas give. *)
Lemma area_segments c :
  mLoad c = [] -> mQuickLoad c = [] -> 0 < mBegin (mCore c) ->
  mSize (mCore c) = Z.of_nat (length report_file) -> mBegin (mCore c) + mSize (mCore c) < 2 ^ 64 ->
  let c' := foldl load_segment c (area_phdr <$> s_Maps s) in
  wf c' /\ mNote c' = mNote c /\ vabits_mask c' = vabits_mask c /\
  length (mLoad c') = length (s_Maps s) /\
  forall i m, s_Maps s !! i = Some m -> exists id, mLoad c' !! i = Some id /\
    mVaddr (lb c' id) = m_begin m /\ mMemSize (lb c' id) = m_end m - m_begin m /\
    mFlags (lb c' id) = vma_flags m /\ isValid (lb c' id) = false.
Proof.
  intros El Eq Hb Hsz He. cbn zeta. pose proof (ro_size _ _ _ _ Hok) as Hsize.
  destruct file_bounds as (B1 & B2 & B3 & B4 & B5 & B6 & B7). rewrite report_file_length in Hsz.
  set (hs := area_phdr <$> s_Maps s).
  assert (Hlen : length hs = length (s_Maps s)) by apply length_fmap.
  assert (Hnote : forall l c, mNote (foldl load_segment c l) = mNote c).
  { induction l as [|x l IH]; intros c1; [done|]. cbn. rewrite IH, load_segment_seg. done. }
  pose proof (load_segments_state hs c) as
    (S1 & S2 & S3 & S4 & S5 & S6 & S7 & S8 & S9 & q & S10 & S11 & S12 & S13).
  set (c' := foldl load_segment c hs) in *. rewrite El in S9. rewrite Eq in S10. cbn [app] in S9, S10.
  assert (Hvma : forall i m, s_Maps s !! i = Some m -> vma_ok m).
  { intros i m Hm. exact (Forall_lookup_1 _ _ _ _ (ro_vma _ _ _ _ Hok) Hm). }
  assert (Hpow : 2 ^ (8 * lw) <= 2 ^ 64) by (apply Z.pow_le_mono_r; destruct layout_sizes; lia).
  assert (Hhok : forall i m, s_Maps s !! i = Some m -> h_ok c (area_phdr m)).
  { intros i m Hm. destruct (Hvma i m Hm) as (V1 & V2 & V3 & V4).
    destruct (area_fields m (Hvma i m Hm)) as (A1 & A2 & A3 & A4 & A5 & _).
    unfold h_ok. rewrite A2, A3, A4, A5. lia. }
  assert (Hseg : forall i m, s_Maps s !! i = Some m ->
    mVaddr (lb c' (mNext c + i)) = m_begin m /\ mMemSize (lb c' (mNext c + i)) = m_end m - m_begin m /\
    mFlags (lb c' (mNext c + i)) = vma_flags m /\ isValid (lb c' (mNext c + i)) = false).
  { intros i m Hm. destruct (area_fields m (Hvma i m Hm)) as (A1 & A2 & A3 & A4 & A5 & _).
    rewrite (S7 i (area_phdr m)) by (unfold hs; by rewrite list_lookup_fmap, Hm).
    rewrite (seg_valid c _ (Hhok i m Hm) Hb ltac:(lia)), A4.
    destruct (seg_fields c _ (Hhok i m Hm) Hb ltac:(lia)) as (-> & _).
    cbn [mVaddr mMemSize mFlags]. by rewrite A1, A3, A5. }
  assert (Hsort : forall l, sublist l (seq (mNext c) (length hs)) -> sorted c' l).
  { intros l Hl. apply (loaded_sorted c' hs (mNext c) l); [| | |lia|done].
    - intros i ph Hph. unfold hs in Hph. rewrite list_lookup_fmap in Hph.
      destruct (s_Maps s !! i) as [m|] eqn:Hm; [|done]. injection Hph as <-.
      destruct (Hseg i m Hm) as (-> & -> & _).
      by destruct (area_fields m (Hvma i m Hm)) as (_ & _ & -> & _ & -> & _).
    - apply Forall_fmap. eapply List.Forall_impl; [|exact (ro_vma _ _ _ _ Hok)]. intros m Hm.
      change (0 <= h_va (area_phdr m) /\ 0 <= h_msz (area_phdr m) /\
        h_va (area_phdr m) + h_msz (area_phdr m) < 2 ^ 64).
      destruct (area_fields m Hm) as (_ & _ & -> & _ & -> & _). destruct Hm as (V1 & V2 & _). lia.
    - intros x y px py Hxy Hx Hy. unfold hs in Hx, Hy. rewrite list_lookup_fmap in Hx, Hy.
      destruct (s_Maps s !! x) as [mx|] eqn:Hmx; [|done]. destruct (s_Maps s !! y) as [my|] eqn:Hmy; [|done].
      injection Hx as <-. injection Hy as <-.
      destruct (area_fields mx (Hvma x mx Hmx)) as (_ & _ & -> & _ & -> & _).
      destruct (area_fields my (Hvma y my Hmy)) as (_ & _ & -> & _).
      pose proof (ro_order _ _ _ _ Hok x y mx my Hxy Hmx Hmy) as Ho. cbn beta in Ho. lia. }
  split_and!; [|by unfold c'; rewrite Hnote|done|by rewrite S9, length_seq|].
  - split; rewrite ?S9, ?S10; [by apply Hsort|by apply Hsort|intros id; by apply sublist_elem|].
    intros id [j Hj]%list_elem_of_lookup. apply lookup_seq in Hj as [-> Hj]. rewrite S1. lia.
  - intros i m Hm. exists (mNext c + i)%nat. rewrite S9. split; [|by apply Hseg].
    apply lookup_seq. split; [done|]. rewrite Hlen. by apply lookup_lt_Some in Hm.
Qed.

(** The loader finds the number of headers, the notes and then the areas. *)
Lemma report_load c0 i w :
  mNote c0 = [] -> host_wf (host_mem c0) ->
  host_mem c0 !! i = Some (Region (mBegin (mCore c0)) w report_file) ->
  mSize (mCore c0) = Z.of_nat (length report_file) ->
  0 < mBegin (mCore c0) -> mBegin (mCore c0) + mSize (mCore c0) < 2 ^ 64 ->
  exists b, load c0 = Ok (foldl load_segment (addNoteBlock (noted_masks c0) b) (area_phdr <$> s_Maps s), true)
    /\ mThread b = [report_thread (mBegin (mCore c0) + note_offset k + 20)] /\
    (fun a => (mType a, mValue a)) <$> mAuxv b = report_auxv T s page_size ++ [(0, 0)] /\
    mFile b = file_item <$> named_files.
Proof.
  intros En Hh Hi Hsz Hb He. set (base := mBegin (mCore c0)) in *.
  pose proof report_file_length as Hlen. pose proof headers_length as Hhl.
  destruct file_bounds as (B1 & B2 & B3 & B4 & B5 & B6 & B7).
  pose proof (ro_size _ _ _ _ Hok) as Hsize. pose proof layout_sizes as Hl.
  assert (Hehsz : eh_size <= notes_end k /\ 0 < notes_end k).
  { destruct create_fields as (_ & _ & _ & Ho & _). rewrite B4, Ho. unfold n. destruct Hl; nia. }
  assert (H : holds (host_mem c0) base report_file).
  { apply (host_load_region _ i w _ _ Hh Hi). lia. }
  destruct (report_headers c0) as [Hrn Hrl]; [done..|lia|done|]. fold base in Hrn, Hrl.
  destruct (report_note c0) as (b & Hnote & Hb'); [done..|]. fold base in Hb'.
  exists b. split; [|exact Hb'].
  rewrite (load_counted c0 (ehdr_bytes T (ehdr k)) n (notes_end k));
    [|apply report_counts|unfold n; lia|done| |lia|fold base; lia|]; fold base.
  - replace (Z.to_nat n) with (S (length (area_phdr <$> s_Maps s)))%nat by (rewrite length_fmap; unfold n; lia).
    cbn [phdrs_loop]. rewrite Hrn. cbn [rbind]. change (PT_NOTE =? PT_LOAD) with false.
    change (PT_NOTE =? PT_NOTE) with true. cbn iota. rewrite Hnote. cbn [rbind].
    rewrite phdrs_loop_loads; [done|apply wrap_range; lia|]. intros j ph Hj.
    destruct (noted_masks_keeps c0) as (K1 & _). unfold addNoteBlock, with_notes. cbn [host_mem].
    rewrite K1, wrap_add_l by lia. by apply Hrl.
  - unfold report_file, headers in H. apply holds_app in H as [H _]; [|done].
    by apply holds_app in H as [H _].
  - intros Hx. assert (Htl : tail_bytes = count_shdr n).
    { unfold tail_bytes. destruct (Z.leb_spec PN_XNUM n); [done|lia]. }
    rewrite Htl, count_shdr_length in Hlen. split_and!; [lia|lia|lia|].
    unfold report_file in H. rewrite !app_assoc in H. apply holds_app in H as [_ H]; [|done].
    rewrite Htl in H. replace (notes_end k) with (Z.of_nat (length ((headers ++
      (thread_notes ++ auxv_note ++ file_note)) ++ replicate (Z.to_nat gap_size) 0))); [by rewrite !app_assoc|].
    pose proof notes_length. rewrite (length_app (_ ++ _)), (length_app headers), length_replicate. lia.
Qed.

(** The entries of the file table. *)
Definition vma_file (m : VirtualMemoryArea) : File :=
  NewFile (m_begin m) (m_end m) (m_offset m - m_offset m mod ELF_PAGE_SIZE) (m_file m).

Lemma file_items : file_item <$> named_files = vma_file <$> s_Maps s.
Proof.
  pose proof (ro_vma _ _ _ _ Hok) as Hv. unfold named_files. rewrite <- list_fmap_compose.
  assert (2 ^ (8 * lw) <= 2 ^ 64) by (apply Z.pow_le_mono_r; destruct layout_sizes; lia).
  induction Hv as [|m l (V1 & V2 & V3 & V4) _ IH]; [done|]. rewrite !fmap_cons, IH. f_equal.
  cbn. unfold vma_file, uword. rewrite !wrap_small by lia. f_equal.
  unfold shl. rewrite Z.shiftr_div_pow2, Z.shiftl_mul_pow2 by lia.
  change ELF_PAGE_SIZE with (2 ^ 12). pose proof (Z.div_mod (m_offset m) (2 ^ 12)).
  pose proof (Z.mod_pos_bound (m_offset m) (2 ^ 12)). rewrite wrap_small; lia.
Qed.
End Create.
End FakeProofs.

(** * The loaded report *)

(** C6: a core file built from a crash report loads. The writer stays inside the mapping it
    allocated, and loading the file gives a core with one note block, whose thread has the
    id and the registers of the report, whose auxiliary vector is the one the writer made
    and whose file table lists the areas of the memory map; the segments are those areas,
    in order and without content, the segment lists are well formed, and on arm64 the
    address mask is that of the address size encoded in the PAC note. *)
Theorem fake_core_loads {L : Layout} {HL : StdLayout L} {CB : NoteCallback} (T : FakeTarget)
    {HT : TargetOk CB T} (s : Stream) (page_size va : Z) :
  report_ok T s page_size va ->
  exists file, fake_file T s page_size va = Ok file /\
  forall c0 i w,
    mLoad c0 = [] -> mQuickLoad c0 = [] -> mNote c0 = [] -> host_wf (host_mem c0) ->
    host_mem c0 !! i = Some (Region (mBegin (mCore c0)) w file) ->
    mSize (mCore c0) = Z.of_nat (length file) ->
    0 < mBegin (mCore c0) -> mBegin (mCore c0) + mSize (mCore c0) < 2 ^ 64 ->
    exists c' b t, load c0 = Ok (c', true) /\ wf c' /\ mNote c' = [b] /\ mThread b = [t] /\
      mPid t = s_Tid s /\ t_reg t = s_Regs s /\
      (fun a => (mType a, mValue a)) <$> mAuxv b = report_auxv T s page_size ++ [(AT_NULL, 0)] /\
      mFile b = vma_file <$> s_Maps s /\
      length (mLoad c') = length (s_Maps s) /\
      (forall i m, s_Maps s !! i = Some m -> exists id, mLoad c' !! i = Some id /\
         mVaddr (lb c' id) = m_begin m /\ mMemSize (lb c' id) = m_end m - m_begin m /\
         mFlags (lb c' id) = vma_flags m /\ isValid (lb c' id) = false) /\
      vabits_mask c' = (if HasPAC T s then Z.ones (noted_va T s va) else vabits_mask c0).
Proof.
  intros Hok. exists (report_file T s page_size va). split; [by apply fake_file_eq|].
  intros c0 i w El Eq En Hh Hi Hsz Hb He.
  destruct (report_load T s page_size va Hok c0 i w) as (b & Hload & Ht & Ha & Hf); [done..|].
  set (c1 := addNoteBlock (noted_masks T s va c0) b) in *.
  assert (Hc1 : mCore c1 = mCore c0 /\ mLoad c1 = [] /\ mQuickLoad c1 = [] /\ mNote c1 = [b]).
  { destruct (noted_masks_keeps T s va c0) as (K1 & K2 & K3 & K4 & _ & K5 & _).
    unfold c1. cbn. by rewrite K2, K3, K4, K5, En. }
  destruct Hc1 as (C2 & C3 & C4 & C5).
  destruct (area_segments T s page_size va Hok c1) as (W1 & W2 & W3 & W4 & W5); rewrite ?C2; [done..|].
  eexists _, b, _.
  split_and!; [exact Hload|exact W1|by rewrite W2|exact Ht|done|done|done| |exact W4|exact W5|].
  - rewrite Hf. by apply (file_items T s page_size va).
  - rewrite W3. unfold c1. cbn. unfold noted_masks. destruct (HasPAC T s); [|done]. cbn.
    pose proof (noted_va_range T s page_size va Hok). rewrite GENMASK_UL_low by lia. f_equal. lia.
Qed.

(** ** The five targets *)

#[export] Instance arm64_target_ok : TargetOk (L := Elf64) arm64_callback arm64_target.
Proof. split; [vm_compute; repeat split; discriminate|done|done]. Qed.
#[export] Instance x86_64_target_ok : TargetOk (L := Elf64) x86_64_callback x86_64_target.
Proof. split; [vm_compute; repeat split; discriminate|done|done]. Qed.
#[export] Instance riscv64_target_ok : TargetOk (L := Elf64) riscv64_callback riscv64_target.
Proof. split; [vm_compute; repeat split; discriminate|done|done]. Qed.
#[export] Instance arm_target_ok : TargetOk (L := Elf32) arm_callback arm_target.
Proof. split; [vm_compute; repeat split; discriminate|done|done]. Qed.
#[export] Instance x86_target_ok : TargetOk (L := Elf32) x86_callback x86_target.
Proof. split; [vm_compute; repeat split; discriminate|done|done]. Qed.

(** ** Witness: a report of an arm64 process with two areas and pointer authentication *)

Definition demo_report : Stream :=
  MkStream 1234 (replicate 272 5)
    [MkVma 0x1000 0x3000 [114; 45; 120; 112] 0 0 [47; 97] [];
     MkVma 0x4000 0x5000 [114; 119; 45; 112] 0x1234 0 [47; 98; 98] []] 1 15.
Definition report_bytes : list Z :=
  match fake_file (L := Elf64) arm64_target demo_report 0x1000 0 with Ok f => f | _ => [] end.
Definition report_core : CoreApi :=
  NewCore (Build_MemoryMap [] 0x20000 4096 0 4096) true [Region 0x20000 true report_bytes].

Lemma fake_core_loads_witness :
  exists c' b t, load64 arm64_callback report_core = Ok (c', true) /\ mNote c' = [b] /\
    mThread b = [t] /\ mPid t = 1234 /\ vabits_mask c' = 2 ^ 36 - 1 /\
    mFile b = [MkFile 0x1000 0x3000 0 [47; 97]; MkFile 0x4000 0x5000 0x1000 [47; 98; 98]].
Proof.
  destruct (fake_core_loads (L := Elf64) (CB := arm64_callback) arm64_target demo_report 0x1000 0) as (file & Hf & Hload).
  - split.
    + repeat (apply Forall_cons_2; [unfold vma_ok, name_ok; cbn; split_and!; try lia; by repeat constructor|]).
      constructor.
    + intros [|[|i]] [|[|j]] x y Hij Hx Hy; try lia; try done. cbn in Hx, Hy. simplify_eq. cbn. lia.
    + vm_compute. reflexivity.
    + reflexivity.
    + cbn. lia.
    + lia.
    + lia.
  - assert (report_bytes = file) as <- by (unfold report_bytes; by rewrite Hf).
    destruct (Hload report_core 0%nat true) as (c' & b & t & H1 & _ & H3 & H4 & H5 & _ & _ & H8 & _ & _ & H11).
    + reflexivity.
    + reflexivity.
    + reflexivity.
    + apply pairwise_cons. split; [constructor|]. intros i j x y _ Hi. done.
    + reflexivity.
    + vm_compute. reflexivity.
    + reflexivity.
    + reflexivity.
    + exists c', b, t. split_and!; [exact H1|exact H3|exact H4|exact H5| |].
      * rewrite H11. vm_compute. reflexivity.
      * rewrite H8. vm_compute. reflexivity.
Defined.
