(* ===== verification/Modules.v ===== *)
(** The modules of the target: core/lp64/core.cpp and core/lp32/core.cpp after the core
    file is loaded ([loadLinkMap], [exec], [dlopen], [loader_dlopen], the section symbol
    readers), the symbol files of [LinkMap] (core/common/link_map.cpp), and the module
    lookups of core/api/core.cpp. *)

From Stdlib Require Import ZArith Lia Bool.
From stdpp Require Import base list gmap numbers.
From S2P Require Import Prelude Words Host Blocks Notes CoreApi Segments AddressSpace MemRef Elf.
From S2P Require Import CoreLoad.
Open Scope Z_scope.

(** * Link maps *)

(** [CoreApi::addLinkMap(map)]; a fault in the constructor propagates. *)
Definition addLinkMap {M : Machine} (fuel : nat) (map : Z) : prog CoreApi unit := fun c =>
  let '(m, r) := NewLinkMap fuel c map in
  match r with
  | Ok _ => (with_maps c (mLinkMaps c ++ [m]), Ok tt)
  | Throw p => (c, Throw p)
  | Fault => (c, Fault)
  | OutOfFuel => (c, OutOfFuel)
  end.

(** Runs code on link map [i] of the core. *)
Definition on_map {A} (i : nat) (m : CoreApi -> prog LinkMap A) : prog CoreApi A := fun c =>
  match mLinkMaps c !! i with
  | None => (c, Fault)
  | Some lm => let '(lm', r) := m c lm in (with_maps c (<[i := lm']> (mLinkMaps c)), r)
  end.

Section LinkMapWalk.
Context {M : Machine} {L : Layout}.

(** The [while (map)] loop of [loadLinkMap64]/[loadLinkMap32]. *)
Fixpoint walk_maps (n fuel : nat) (map : Z) : prog CoreApi unit :=
  match n with
  | O => lift OutOfFuel
  | S n =>
      if nz map then
        let$ c := get in
        let$ link := lift (v2r c map OPT_READ_ALL) in
        let$ _ := addLinkMap fuel map in
        let$ next := lift (host_word (host_mem c) (u64 (link + 3 * lw)) lw) in
        walk_maps n fuel next
      else pret tt
  end.

(** [r_debug_ptr()], that is [GetDebug()]. *)
Definition r_debug_ptr (fuel : nat) : prog CoreApi MemoryRef :=
  let$ c := get in
  let$ d := lift (GetDebug fuel c (mDebug c)) in
  let$ _ := modify (fun c => with_debug c d) in
  pret d.

(** [loadLinkMap64(api)]/[loadLinkMap32(api)]. An unreadable address ends the walk, the
    maps added so far remain. *)
Definition loadLinkMap (n fuel : nat) : prog CoreApi unit :=
  let$ debug := r_debug_ptr fuel in
  if negb (nz (vaddr debug)) then pret tt else
  ptry
    (let$ c := get in
     let$ d := lift (Real c debug) in
     let$ _ := modify (fun c => with_debug c (fst d)) in
     let$ map := lift (host_word (host_mem c) (u64 (snd d + lw)) lw) in
     walk_maps n fuel map)
    (fun _ => pret tt).

(** The start of [CoreApi::foreachLinkMap]: the maps are loaded on first use. *)
Definition ensure_maps (n fuel : nat) : prog CoreApi unit :=
  let$ c := get in
  match mLinkMaps c with
  | [] => ptry (loadLinkMap n fuel) (fun _ => pret tt)
  | _ => pret tt
  end.
End LinkMapWalk.

(** * Mapping files over segments *)

(** [ElfHeader::CheckLibrary(file)] of the header at a process address. *)
Definition CheckLibrary {M : Machine} (h : host) (p : Z) : result bool :=
  let! ident := host_load h p 4 in
  if negb (bool_decide (ident = ELFMAG)) then Ok false else
  let! type := host_word h (u64 (p + 16)) 2 in
  if negb (type =? ET_DYN) then Ok false else
  let! mach := host_word h (u64 (p + 18)) 2 in
  Ok (mach =? machine).

Section Dlopen.
Context `{Os} {M : Machine} {L : Layout}.

(** Integers of the address size of the target: [uint64_t] in lp64, [uint32_t] in lp32. *)
Definition uaddr (z : Z) : Z := wrap (8 * lw) z.

(** [block->setMmapFile(file, off); if (handle) block->bind(handle)]. *)
Definition mmap_block (id : nat) (handle : option nat) (file : list Z) (off : Z)
    : prog CoreApi unit := fun c =>
  match setMmapFile (host_mem c) (lb c id) file off with
  | Ok (h, b) =>
      let b := match handle with Some _ => bind handle b | None => b end in
      (with_host (set_lb c id b) h, Ok tt)
  | Throw p => (c, Throw p)
  | Fault => (c, Fault)
  | OutOfFuel => (c, OutOfFuel)
  end.

(** [vma && offset != vma->offset() ? vma->offset() : offset]. *)
Definition vma_offset (c : CoreApi) (current off : Z) : Z :=
  match FindFile c current with
  | Some vma => if off =? fOffset vma then off else uaddr (fOffset vma)
  | None => off
  end.

(** The loop over the segments that follow the first one of a PT_LOAD header. *)
Fixpoint next_blocks (fuel : nat) (handle : option nat) (file : list Z)
    (current page_offset cur_size mem_size : Z) : prog CoreApi unit :=
  match fuel with
  | O => lift OutOfFuel
  | S n =>
      if cur_size <? mem_size then
        let next := uaddr (current + cur_size) in
        let next_page_offset := uaddr (page_offset + cur_size) in
        let$ c := get in
        let$ nb := lift (findLoadBlock c next false) in
        match nb with
        | None => pret tt
        | Some id =>
            let cur_size := uaddr (cur_size + mMemSize (lb c id)) in
            if CheckCanMmap (lb c id) next (findAuxv c AT_SYSINFO_EHDR) then
              let$ _ := mmap_block id handle file (vma_offset c next next_page_offset) in
              next_blocks n handle file current page_offset cur_size mem_size
            else next_blocks n handle file current page_offset cur_size mem_size
        end
      else pret tt
  end.

(** One PT_LOAD header of [loader_dlopen]: the status so far, and whether to go on. *)
Definition dlopen_segment (fuel : nat) (handle : option nat) (file : list Z)
    (map_offset addr : Z) (idx : Z) (ph : Z * Z * Z * Z * Z * Z * Z) (status : bool)
    : prog CoreApi (bool * bool) :=
  let '(f, off, va, _, fsz, msz, al) := ph in
  if bit_set f FLAG_W || (fsz =? 0) then pret (status, true) else
  let$ c := get in
  let '(c1, ps) := getPageSize c in
  let$ _ := modify (fun _ => c1) in
  let current := uaddr (addr + RoundDown (8 * lw) va (uaddr ps)) in
  let page_offset := uaddr (RoundDown 64 (u64 (off + map_offset)) ps) in
  let$ ob := lift (findLoadBlock c1 current false) in
  match ob with
  | None => pret (status, true)
  | Some id =>
      let block := lb c1 id in
      let$ _ :=
        (match handle with
         | Some i =>
             if (idx =? 1) && (current =? mVaddr block) then
               on_map i (fun c =>
                 let$ _ := GetAddrCache fuel c in
                 modify (fun m => with_addr_cache m (ref_at current)))
             else pret tt
         | None => pret tt
         end) in
      if negb (CheckCanMmap block current (findAuxv c1 AT_SYSINFO_EHDR))
      then pret (status, true)
      else
        let page_offset := vma_offset c1 current page_offset in
        let mem_size := uaddr (RoundUp 64 (u64 (off + map_offset + msz)) al) in
        if mem_size <? page_offset then pret (status, false) else
        let mem_size := mem_size - page_offset in
        if mem_size <? mMemSize block then pret (status, false) else
        let$ _ := mmap_block id handle file page_offset in
        let$ _ :=
          (if mMemSize block <? mem_size then
             next_blocks fuel handle file current page_offset (uaddr (mMemSize block)) mem_size
           else pret tt) in
        pret (true, true)
  end.

(** The loop over the program headers of the file, [n] left, the next one at [p]. *)
Fixpoint dlopen_loop (n fuel : nat) (handle : option nat) (file : list Z)
    (map_offset addr p idx : Z) (status : bool) : prog CoreApi bool :=
  match n with
  | O => pret status
  | S k =>
      let$ c := get in
      let$ hd := lift (read_phdr (host_mem c) p) in
      let p' := u64 (p + ph_size) in
      if negb (fst hd =? PT_LOAD)
      then dlopen_loop k fuel handle file map_offset addr p' idx status
      else
        let$ r := dlopen_segment fuel handle file map_offset addr (idx + 1) (snd hd) status in
        if snd r : bool
        then dlopen_loop k fuel handle file map_offset addr p' (idx + 1) (fst r)
        else pret (fst r)
  end.

(** [loader_dlopen64]/[loader_dlopen32](api, map, handle, addr, file). *)
Definition loader_dlopen (fuel : nat) (map : MemoryMap) (handle : option nat) (addr : Z)
    (file : list Z) : prog CoreApi bool :=
  if negb (nz addr) then pret false else
  let$ c := get in
  let$ num := lift (host_word (host_mem c) (u64 (mBegin map + eh_phnum)) 2) in
  dlopen_loop (Z.to_nat num) fuel handle file (mMapOffset map) addr
    (u64 (mBegin map + eh_size)) 0 false.

(** Maps [file] whole for the time of [m]. *)
Definition with_file (file : list Z) (m : MemoryMap -> prog CoreApi bool) : prog CoreApi bool :=
  fun c =>
    let '(h, om) := MmapFile_from (host_mem c) file 0 in
    match om with
    | None => (with_host c h, Ok false)
    | Some map =>
        let '(c', r) := m map (with_host c h) in
        (with_host c' (unmap (host_mem c') map), r)
    end.

(** [exec64(api, phdr, file)] and [exec32]. *)
Definition exec (fuel : nat) (phdr : Z) (file : list Z) : prog CoreApi bool :=
  with_file file (fun map =>
    let$ c := get in
    let h := host_mem c in
    let$ ok := lift (CheckLibrary h (mBegin map)) in
    if negb ok then pret false else
    let$ pt := lift (read_phdr h (u64 (mBegin map + eh_size))) in
    let '(type, (_, off, va, _, _, _, _)) := pt in
    if negb (type =? PT_PHDR) then pret false else
    let$ phoff := lift (host_word h (u64 (mBegin map + eh_phoff)) lw) in
    loader_dlopen fuel map None (uaddr (phdr - phoff - (va - off))) file).

(** [dlopen64(api, handle, file, nullptr)] and [dlopen32]; [handle] is a link map. *)
Definition dlopen (fuel : nat) (handle : nat) (file : list Z) : prog CoreApi bool :=
  with_file file (fun map =>
    let$ c := get in
    let$ ok := lift (CheckLibrary (host_mem c) (mBegin map)) in
    if negb ok then pret false else
    let$ addr := on_map handle (fun c => lm_field c l_addr) in
    loader_dlopen fuel map (Some handle) (uaddr addr) file).
End Dlopen.

(** * Symbol files *)

(** Section names the readers look for. *)
Definition DYNSYM : list Z := [46; 100; 121; 110; 115; 121; 109].
Definition DYNSTR : list Z := [46; 100; 121; 110; 115; 116; 114].
Definition SYMTAB : list Z := [46; 115; 121; 109; 116; 97; 98].
Definition STRTAB : list Z := [46; 115; 116; 114; 116; 97; 98].
Definition GNU_DEBUGDATA : list Z :=
  [46; 103; 110; 117; 95; 100; 101; 98; 117; 103; 100; 97; 116; 97].

Section SymbolFiles.
Context `{Os} {M : Machine} {L : Layout}.
(** [xz::Codec::Create(data, size)->Decode2Map()]: the decoded bytes; liblzma is not part
    of the program. [None]: no codec, or the stream does not decode. *)
Context (xz_decode : list Z -> option (list Z)).

Definition word (h : host) (a n : Z) : result Z := host_word h (u64 a) n.

(** The loop of [ReadSymbolEntry64]/[32] over the [n] symbols left, the next one at
    [sym]; skipped names do not stop it. *)
Fixpoint section_symbols (n : nat) (h : host) (sym strtab : Z) (symbols : list SymbolEntry)
    : result (list SymbolEntry) :=
  match n with
  | O => Ok symbols
  | S k =>
      let! value := word h (sym + sy_value) lw in
      let! sz := (if nz value then word h (sym + sy_size) lw else Ok 0) in
      let! symbols' :=
        (if nz value && nz sz then
           let! info := word h (sym + sy_info) 1 in
           let! nm := word h (sym + sy_name) 4 in
           let! str := host_cstr h (u64 (strtab + nm)) in
           Ok (if skip_name str then symbols
               else sym_insert (MkSymbol value info sz str) symbols)
         else Ok symbols) in
      section_symbols k h (u64 (sym + sy_bytes)) strtab symbols'
  end.

(** [ReadSymbolEntry64]/[ReadSymbolEntry32](map, symndx, strndx, symbols); the count is
    an [int]. *)
Definition ReadSymbolEntry (h : host) (map : MemoryMap) (symndx strndx : Z)
    (symbols : list SymbolEntry) : result (list SymbolEntry) :=
  if negb (nz symndx) || negb (nz strndx) then Ok symbols else
  let data := mBegin map in
  let! shoff := word h (data + eh_shoff) lw in
  let shdr i := data + shoff + sh_bytes * i in
  let! sz := word h (shdr symndx + sh_size) lw in
  let! ent := word h (shdr symndx + sh_entsize) lw in
  if ent =? 0 then Fault else
  let count := i32 (sz / ent) in
  let! symoff := word h (shdr symndx + sh_offset) lw in
  let! stroff := word h (shdr strndx + sh_offset) lw in
  section_symbols (Z.to_nat count) h (u64 (data + symoff)) (u64 (data + stroff)) symbols.

(** The loop over the section headers, [n] left, the next one of index [i]: the last
    index of each of the four sections. *)
Fixpoint sections_loop (n : nat) (h : host) (map : MemoryMap) (shdrs shstr i : Z)
    (acc : Z * Z * Z * Z) : result (Z * Z * Z * Z) :=
  match n with
  | O => Ok acc
  | S k =>
      let s := shdrs + sh_bytes * i in
      let next acc := sections_loop k h map shdrs shstr (i + 1) acc in
      let! nm := word h (s + sh_name) 4 in
      let addr := u64 (shstr + nm) in
      if (addr <? mBegin map) || (u64 (mBegin map + mSize map) <=? addr) then next acc else
      let! type := word h (s + sh_type) 4 in
      if type =? SHT_NOBITS then next acc else
      let! str := host_cstr h addr in
      let '(ds, dt, ss, st) := acc in
      next (if bool_decide (str = DYNSYM) then (i, dt, ss, st)
            else if bool_decide (str = DYNSTR) then (ds, i, ss, st)
            else if bool_decide (str = SYMTAB) then (ds, dt, i, st)
            else if bool_decide (str = STRTAB) then (ds, dt, ss, i)
            else acc)
  end.

(** [ReadSymbol64]/[ReadSymbol32](map, symbols). *)
Definition ReadSymbol (h : host) (map : MemoryMap) (symbols : list SymbolEntry)
    : result (list SymbolEntry) :=
  let data := mBegin map in
  let! shoff := word h (data + eh_shoff) lw in
  let! shstrndx := word h (data + eh_shstrndx) 2 in
  let! stroff := word h (data + shoff + sh_bytes * shstrndx + sh_offset) lw in
  let! num := word h (data + eh_shnum) 2 in
  let! '(ds, dt, ss, st) :=
    sections_loop (Z.to_nat num) h map (data + shoff) (u64 (data + stroff)) 0 (0, 0, 0, 0) in
  let! symbols := ReadSymbolEntry h map ds dt symbols in
  ReadSymbolEntry h map ss st symbols.

(** The loop that looks for [.gnu_debugdata]: its index, 0 if there is none. *)
Fixpoint debugdata_loop (n : nat) (h : host) (map : MemoryMap) (shdrs shstr i : Z)
    : result Z :=
  match n with
  | O => Ok 0
  | S k =>
      let s := shdrs + sh_bytes * i in
      let next := debugdata_loop k h map shdrs shstr (i + 1) in
      let! nm := word h (s + sh_name) 4 in
      let addr := u64 (shstr + nm) in
      if (addr <? mBegin map) || (u64 (mBegin map + mSize map) <=? addr) then next else
      let! type := word h (s + sh_type) 4 in
      if type =? SHT_NOBITS then next else
      let! str := host_cstr h addr in
      if bool_decide (str = GNU_DEBUGDATA) then Ok i else next
  end.

(** The symbols of a mapped file, with those of its compressed [.gnu_debugdata]. *)
Definition map_symbols (h : host) (map : MemoryMap) (symbols : list SymbolEntry)
    : result (list SymbolEntry) :=
  let data := mBegin map in
  let! shoff := word h (data + eh_shoff) lw in
  if mSize map <? shoff then Ok symbols else
  let! shstrndx := word h (data + eh_shstrndx) 2 in
  let! stroff := word h (data + shoff + sh_bytes * shstrndx + sh_offset) lw in
  if mSize map <? stroff then Ok symbols else
  let! num := word h (data + eh_shnum) 2 in
  let! ndx := debugdata_loop (Z.to_nat num) h map (data + shoff) (u64 (data + stroff)) 0 in
  let! symbols := ReadSymbol h map symbols in
  if 0 <? ndx then
    let! off := word h (data + shoff + sh_bytes * ndx + sh_offset) lw in
    let! sz := word h (data + shoff + sh_bytes * ndx + sh_size) lw in
    let! bs := host_load h (u64 (data + off)) sz in
    match xz_decode bs with
    | None => Ok symbols
    | Some out =>
        let '(h1, om) := MmapZeroMem h (Z.of_nat (length out)) in
        match om with
        | None => Ok symbols
        | Some dm =>
            let! h2 := host_store h1 (mBegin dm) out in
            let! ok := CheckLibrary h2 (mBegin dm) in
            if ok : bool then ReadSymbol h2 dm symbols else Ok symbols
        end
    end
  else Ok symbols.

(** [readsym64]/[readsym32](handle) on the segment [id] of the link map: the file the
    segment is mapped from is mapped again, from the same offset, while it is read. *)
Definition readsym (c : CoreApi) (id : nat) : result (list SymbolEntry) :=
  let b := lb c id in
  match mMmap b with
  | None => Fault
  | Some m =>
      let '(h, om) := MmapFile_from (host_mem c) (name b) (mMapOffset m) in
      match om with
      | None => Ok (mSymbols b)
      | Some map => map_symbols h map (mSymbols b)
      end
  end.

(** [LinkMap::ReadSymbols()] of link map [i]; the DWARF loader it also creates is
    [Dwarf]'s. *)
Definition LinkMap_ReadSymbols (fuel : nat) (i : nat) : prog CoreApi unit :=
  let$ load := on_map i (fun c => lm_block fuel c) in
  let$ c := get in
  match load with
  | Some id =>
      if isMmapBlock (lb c id) then
        let$ ok := lift (CheckLibrary (host_mem c) (begin (lb c id) OPT_READ_ALL)) in
        if negb ok then pret tt else
        let$ _ := modify (fun c => set_lb c id (setSymbols [] (lb c id))) in
        let$ c := get in
        let$ symbols := lift (readsym c id) in
        modify (fun c => set_lb c id (setSymbols symbols (lb c id)))
      else pret tt
  | None => pret tt
  end.
End SymbolFiles.

(** * Lookups over the link maps *)

Section Lookups.
Context {M : Machine} {L : Layout}.

(** [CoreApi::DlSym(symbol)]: over the link maps from index [i], [n] left. *)
Fixpoint DlSym_from (n fuel i : nat) (symbol : list Z) : prog CoreApi Z :=
  match n with
  | O => pret 0
  | S k =>
      let$ value := on_map i (fun c => DlSym fuel c symbol) in
      if nz value then
        let$ a := on_map i (fun c => lm_field c l_addr) in pret (u64 (value + a))
      else DlSym_from k fuel (S i) symbol
  end.

Definition CoreApi_DlSym (n fuel : nat) (symbol : list Z) : prog CoreApi Z :=
  let$ _ := ensure_maps n fuel in
  let$ c := get in DlSym_from (length (mLinkMaps c)) fuel 0 symbol.
End Lookups.

(** * The two word sizes *)

Section WordSizes.
Context `{Os} {M : Machine} (xz_decode : list Z -> option (list Z)).

Definition loadLinkMap64 (n fuel : nat) : prog CoreApi unit := loadLinkMap (L := Elf64) n fuel.
Definition loadLinkMap32 (n fuel : nat) : prog CoreApi unit := loadLinkMap (L := Elf32) n fuel.

Definition exec64 (fuel : nat) (phdr : Z) (file : list Z) : prog CoreApi bool :=
  exec (L := Elf64) fuel phdr file.
Definition exec32 (fuel : nat) (phdr : Z) (file : list Z) : prog CoreApi bool :=
  exec (L := Elf32) fuel (u32 phdr) file.

Definition dlopen64 (fuel handle : nat) (file : list Z) : prog CoreApi bool :=
  dlopen (L := Elf64) fuel handle file.
Definition dlopen32 (fuel handle : nat) (file : list Z) : prog CoreApi bool :=
  dlopen (L := Elf32) fuel handle file.

Definition loader_dlopen64 (fuel : nat) (map : MemoryMap) (handle : option nat) (addr : Z)
    (file : list Z) : prog CoreApi bool := loader_dlopen (L := Elf64) fuel map handle addr file.
Definition loader_dlopen32 (fuel : nat) (map : MemoryMap) (handle : option nat) (addr : Z)
    (file : list Z) : prog CoreApi bool := loader_dlopen (L := Elf32) fuel map handle addr file.

Definition ReadSymbolEntry64 := ReadSymbolEntry (L := Elf64).
Definition ReadSymbolEntry32 := ReadSymbolEntry (L := Elf32).
Definition ReadSymbol64 := ReadSymbol (L := Elf64).
Definition ReadSymbol32 := ReadSymbol (L := Elf32).
Definition readsym64 (c : CoreApi) (id : nat) : result (list SymbolEntry) :=
  readsym (L := Elf64) xz_decode c id.
Definition readsym32 (c : CoreApi) (id : nat) : result (list SymbolEntry) :=
  readsym (L := Elf32) xz_decode c id.
End WordSizes.
