(* ===== verification/Dwarf.v ===== *)
(** DWARF reader: core/api/dwarf.{h,cpp}, which builds the table of C++ structures of a
    debug library.

    The sections are read through pointers into the process memory ([host]); a pointer is
    a 64-bit address, pointer arithmetic wraps ([padd]), [nullptr] as a return value is
    [None], and an optional output parameter is a boolean that says whether it was given
    together with an optional value that says whether it was written.  The three loops
    whose iterations consume input ([abbrev_loop], [die_loop], [unit_loop]) take fuel;
    DwarfProofs.v shows how much is enough, and when none is. *)

From Stdlib Require Import ZArith Lia Bool.
From stdpp Require Import base list numbers gmap.
From S2P Require Import Prelude Words Host.
Open Scope Z_scope.

(** * Constants (dwarf.h, dwarf.cpp) *)

Definition DW_TAG_array_type : Z := 0x01.
Definition DW_TAG_class_type : Z := 0x02.
Definition DW_TAG_enumeration_type : Z := 0x04.
Definition DW_TAG_member : Z := 0x0d.
Definition DW_TAG_pointer_type : Z := 0x0f.
Definition DW_TAG_reference_type : Z := 0x10.
Definition DW_TAG_typedef : Z := 0x16.
Definition DW_TAG_union_type : Z := 0x17.
Definition DW_TAG_inheritance : Z := 0x1c.
Definition DW_TAG_structure_type : Z := 0x13.
Definition DW_TAG_base_type : Z := 0x24.
Definition DW_TAG_const_type : Z := 0x26.
Definition DW_TAG_volatile_type : Z := 0x35.
Definition DW_TAG_namespace : Z := 0x39.
Definition DW_TAG_rvalue_reference_type : Z := 0x42.
Definition DW_AT_name : Z := 0x03.
Definition DW_AT_byte_size : Z := 0x0b.
Definition DW_AT_data_member_location : Z := 0x38.
Definition DW_AT_type : Z := 0x49.
Definition DW_AT_str_offsets_base : Z := 0x72.
Definition DW_OP_plus_uconst : Z := 0x23.

Definition DW_FORM_addr : Z := 0x01.
Definition DW_FORM_block2 : Z := 0x03.
Definition DW_FORM_block4 : Z := 0x04.
Definition DW_FORM_data2 : Z := 0x05.
Definition DW_FORM_data4 : Z := 0x06.
Definition DW_FORM_data8 : Z := 0x07.
Definition DW_FORM_string : Z := 0x08.
Definition DW_FORM_block : Z := 0x09.
Definition DW_FORM_block1 : Z := 0x0a.
Definition DW_FORM_data1 : Z := 0x0b.
Definition DW_FORM_flag : Z := 0x0c.
Definition DW_FORM_sdata : Z := 0x0d.
Definition DW_FORM_strp : Z := 0x0e.
Definition DW_FORM_udata : Z := 0x0f.
Definition DW_FORM_ref_addr : Z := 0x10.
Definition DW_FORM_ref1 : Z := 0x11.
Definition DW_FORM_ref2 : Z := 0x12.
Definition DW_FORM_ref4 : Z := 0x13.
Definition DW_FORM_ref8 : Z := 0x14.
Definition DW_FORM_ref_udata : Z := 0x15.
Definition DW_FORM_indirect : Z := 0x16.
Definition DW_FORM_sec_offset : Z := 0x17.
Definition DW_FORM_exprloc : Z := 0x18.
Definition DW_FORM_flag_present : Z := 0x19.
Definition DW_FORM_strx : Z := 0x1a.
Definition DW_FORM_addrx : Z := 0x1b.
Definition DW_FORM_ref_sup4 : Z := 0x1c.
Definition DW_FORM_strp_sup : Z := 0x1d.
Definition DW_FORM_data16 : Z := 0x1e.
Definition DW_FORM_line_strp : Z := 0x1f.
Definition DW_FORM_ref_sig8 : Z := 0x20.
Definition DW_FORM_implicit_const : Z := 0x21.
Definition DW_FORM_loclistx : Z := 0x22.
Definition DW_FORM_rnglistx : Z := 0x23.
Definition DW_FORM_ref_sup8 : Z := 0x24.
Definition DW_FORM_strx1 : Z := 0x25.
Definition DW_FORM_strx2 : Z := 0x26.
Definition DW_FORM_strx3 : Z := 0x27.
Definition DW_FORM_strx4 : Z := 0x28.
Definition DW_FORM_addrx1 : Z := 0x29.
Definition DW_FORM_addrx2 : Z := 0x2a.
Definition DW_FORM_addrx3 : Z := 0x2b.
Definition DW_FORM_addrx4 : Z := 0x2c.
Definition DW_CHILDREN_yes : Z := 1.
Definition DW_UT_compile : Z := 0x01.

(** * LEB128 numbers and words *)

(** Pointer arithmetic on [const uint8_t*]. *)
Definition padd (p n : Z) : Z := u64 (p + n).

(** The loop of [ReadULEB128]: at most ten bytes pass the test [shift < 64]. *)
Fixpoint uleb_loop (fuel : nat) (h : host) (ptr end_ res shift : Z) : result (Z * Z) :=
  if (ptr <? end_) && (shift <? 64) then
    match fuel with
    | O => OutOfFuel
    | S fuel =>
        let! b := host_word h ptr 1 in
        let res := Z.lor res (shl 64 (Z.land b 0x7f) shift) in
        if Z.land b 0x80 =? 0 then Ok (res, padd ptr 1)
        else uleb_loop fuel h (padd ptr 1) end_ res (shift + 7)
    end
  else Ok (res, ptr).

(** [ReadULEB128(&ptr, end)]: the value and the advanced pointer. *)
Definition ReadULEB128 (h : host) (ptr end_ : Z) : result (Z * Z) :=
  uleb_loop 10 h ptr end_ 0 0.

(** The loop of [ReadSLEB128]: the bits read, the last byte, the shift, the pointer. *)
Fixpoint sleb_loop (fuel : nat) (h : host) (ptr end_ res shift b : Z)
    : result (Z * Z * Z * Z) :=
  if (ptr <? end_) && (shift <? 64) then
    match fuel with
    | O => OutOfFuel
    | S fuel =>
        let! b := host_word h ptr 1 in
        let res := Z.lor res (shl 64 (Z.land b 0x7f) shift) in
        if Z.land b 0x80 =? 0 then Ok (res, b, shift + 7, padd ptr 1)
        else sleb_loop fuel h (padd ptr 1) end_ res (shift + 7) b
    end
  else Ok (res, b, shift, ptr).

(** [ReadSLEB128(&ptr, end)]; [-(int64_t)(1LL << shift)] is taken modulo 2^64. *)
Definition ReadSLEB128 (h : host) (ptr end_ : Z) : result (Z * Z) :=
  let! r := sleb_loop 10 h ptr end_ 0 0 0 in
  let '(res, b, shift, ptr) := r in
  let res := if (shift <? 64) && negb (Z.land b 0x40 =? 0)
             then Z.lor res (u64 (- shl 64 1 shift)) else res in
  Ok (i64 res, ptr).

Definition IsRelRef (form : Z) : bool :=
  (form =? DW_FORM_ref1) || (form =? DW_FORM_ref2) || (form =? DW_FORM_ref4) ||
  (form =? DW_FORM_ref8) || (form =? DW_FORM_ref_udata).

(** * Data (dwarf.h) *)

Record AttrSpec := { as_name : Z; as_form : Z; implicit_const : Z }.

Record AbbrevEntry := { ab_code : Z; ab_tag : Z; has_children : bool; attrs : list AttrSpec }.

Abbreviation AbbrevTable := (gmap Z AbbrevEntry).
Abbreviation AbbrevMap := (gmap Z AbbrevTable).

Record BaseInfo := { bi_type_name : list Z; bi_offset : Z; bi_has_offset : bool }.

Record MemberInfo := {
  mi_name : list Z; mi_type_name : list Z; mi_offset : Z; mi_has_offset : bool }.

Record StructInfo := {
  si_name : list Z; si_byte_size : Z; si_has_size : bool;
  si_bases : list BaseInfo; si_members : list MemberInfo }.

(** [qualifier]: 0 named, 1 pointer, 2 reference, 3 const, 4 volatile, 5 typedef, 6 array. *)
Record TypeEntry := { te_name : list Z; te_ref : Z; te_qual : Z }.

Record PendingRef := { pr_struct : Z; pr_base : bool; pr_item : Z; pr_type : Z }.

(** A section: its address (0 is [nullptr]) and its size. *)
Record Section_ := { sec_data : Z; sec_size : Z }.
Definition no_section : Section_ := {| sec_data := 0; sec_size := 0 |}.

Record DwarfLoader := {
  dw_map : option MemoryMap;
  debug_abbrev : Section_;
  debug_info : Section_;
  debug_str : Section_;
  debug_str_offsets : Section_;
  elf_bits_ : Z;
  abbrev_map_ : AbbrevMap;
  structs_ : list StructInfo;
  decompressed_sections_ : list Z;        (* the addresses of the buffers *)
  type_registry_ : gmap Z TypeEntry;
  pending_refs_ : list PendingRef;
}.

Definition new_DwarfLoader : DwarfLoader := {|
  dw_map := None; debug_abbrev := no_section; debug_info := no_section;
  debug_str := no_section; debug_str_offsets := no_section; elf_bits_ := 64;
  abbrev_map_ := ∅; structs_ := []; decompressed_sections_ := [];
  type_registry_ := ∅; pending_refs_ := [] |}.

Definition with_map (m : option MemoryMap) (d : DwarfLoader) : DwarfLoader :=
  Build_DwarfLoader m (debug_abbrev d) (debug_info d) (debug_str d) (debug_str_offsets d)
    (elf_bits_ d) (abbrev_map_ d) (structs_ d) (decompressed_sections_ d)
    (type_registry_ d) (pending_refs_ d).
Definition with_sections (ab inf st so : Section_) (d : DwarfLoader) : DwarfLoader :=
  Build_DwarfLoader (dw_map d) ab inf st so
    (elf_bits_ d) (abbrev_map_ d) (structs_ d) (decompressed_sections_ d)
    (type_registry_ d) (pending_refs_ d).
Definition with_bits (b : Z) (d : DwarfLoader) : DwarfLoader :=
  Build_DwarfLoader (dw_map d) (debug_abbrev d) (debug_info d) (debug_str d)
    (debug_str_offsets d) b (abbrev_map_ d) (structs_ d) (decompressed_sections_ d)
    (type_registry_ d) (pending_refs_ d).
Definition with_abbrevs (m : AbbrevMap) (d : DwarfLoader) : DwarfLoader :=
  Build_DwarfLoader (dw_map d) (debug_abbrev d) (debug_info d) (debug_str d)
    (debug_str_offsets d) (elf_bits_ d) m (structs_ d) (decompressed_sections_ d)
    (type_registry_ d) (pending_refs_ d).
Definition with_structs (l : list StructInfo) (d : DwarfLoader) : DwarfLoader :=
  Build_DwarfLoader (dw_map d) (debug_abbrev d) (debug_info d) (debug_str d)
    (debug_str_offsets d) (elf_bits_ d) (abbrev_map_ d) l (decompressed_sections_ d)
    (type_registry_ d) (pending_refs_ d).
Definition with_buffers (l : list Z) (d : DwarfLoader) : DwarfLoader :=
  Build_DwarfLoader (dw_map d) (debug_abbrev d) (debug_info d) (debug_str d)
    (debug_str_offsets d) (elf_bits_ d) (abbrev_map_ d) (structs_ d) l
    (type_registry_ d) (pending_refs_ d).
Definition with_types (m : gmap Z TypeEntry) (d : DwarfLoader) : DwarfLoader :=
  Build_DwarfLoader (dw_map d) (debug_abbrev d) (debug_info d) (debug_str d)
    (debug_str_offsets d) (elf_bits_ d) (abbrev_map_ d) (structs_ d)
    (decompressed_sections_ d) m (pending_refs_ d).
Definition with_pending (l : list PendingRef) (d : DwarfLoader) : DwarfLoader :=
  Build_DwarfLoader (dw_map d) (debug_abbrev d) (debug_info d) (debug_str d)
    (debug_str_offsets d) (elf_bits_ d) (abbrev_map_ d) (structs_ d)
    (decompressed_sections_ d) (type_registry_ d) l.

(** * Strings *)

(** [while (p < end && *p) ++p]: the first NUL of [ptr, ptr+n), or its end. *)
Fixpoint scan_nul (n : nat) (h : host) (p : Z) : result Z :=
  match n with
  | O => Ok p
  | S n =>
      let! b := host_word h p 1 in
      if b =? 0 then Ok p else scan_nul n h (padd p 1)
  end.

(** [GetDebugStr(offset)]. *)
Definition GetDebugStr (h : host) (d : DwarfLoader) (offset : Z) : result (option Z) :=
  let '{| sec_data := data; sec_size := size |} := debug_str d in
  if (data =? 0) || (size <=? offset) then Ok None else
  let s := padd data offset in
  let end_ := padd data size in
  let! p := scan_nul (Z.to_nat (end_ - s)) h s in
  Ok (if end_ <=? p then None else Some s).

Definition entry_size (dwarf64 : bool) : Z := if dwarf64 then 8 else 4.

(** [GetDebugStrX(index, str_offsets_base, dwarf64)]. *)
Definition GetDebugStrX (h : host) (d : DwarfLoader) (index base : Z) (dwarf64 : bool)
    : result (option Z) :=
  let '{| sec_data := data; sec_size := size |} := debug_str_offsets d in
  if data =? 0 then Ok None else
  let off := u64 (base + index * entry_size dwarf64) in
  if size <? u64 (off + entry_size dwarf64) then Ok None else
  let! str_off := host_word h (padd data off) (entry_size dwarf64) in
  GetDebugStr h d str_off.

(** * Attribute values *)

(** [ParseExprloc(data, size, &v)]: the value written, if it returns true. *)
Definition ParseExprloc (h : host) (data size : Z) : result (option Z) :=
  if (data =? 0) || (size =? 0) then Ok None else
  let end_ := padd data size in
  let! op := host_word h data 1 in
  if (op =? DW_OP_plus_uconst) || (op =? 0x10) then
    let p := padd data 1 in
    if end_ <=? p then Ok None else
    let! r := ReadULEB128 h p end_ in
    Ok (Some (fst r))
  else Ok None.

(** What [ReadAttrValue] returns when it does not return [nullptr]: the pointer, and what
    it wrote to [out_value] and [out_str]. *)
Record AttrValue := { av_ptr : Z; av_value : option Z; av_str : option (list Z) }.

Section Attr.
Context (h : host) (d : DwarfLoader) (end_ addr_size : Z) (dwarf64 : bool).
Context (str_offsets_base : Z) (out_value out_str : bool).

(** [*out = v], when the output parameter was given. *)
Definition out {A} (given : bool) (v : A) : option A := if given then Some v else None.

Definition attr_end (p : Z) : result (option AttrValue) :=
  Ok (Some {| av_ptr := p; av_value := None; av_str := None |}).

(** [if (ptr + n > end) return nullptr; ptr += n]. *)
Definition skip_bytes (ptr n : Z) : result (option AttrValue) :=
  if end_ <? padd ptr n then Ok None else attr_end (padd ptr n).

(** [if (ptr + n > end) return nullptr; if (out_value) *out_value = read; else ptr += n]. *)
Definition read_fixed (ptr n : Z) : result (option AttrValue) :=
  if end_ <? padd ptr n then Ok None else
  if out_value then
    let! v := host_word h ptr n in
    Ok (Some {| av_ptr := padd ptr n; av_value := Some v; av_str := None |})
  else attr_end (padd ptr n).

(** [if (s) *out_str = s]. *)
Definition set_str (s : option Z) : result (option (list Z)) :=
  match s with
  | None => Ok None
  | Some a => let! str := host_cstr h a in Ok (Some str)
  end.

(** The end of the [DW_FORM_strx*] cases. *)
Definition strx_index (ptr idx : Z) : result (option AttrValue) :=
  if out_str then
    let! s := GetDebugStrX h d idx str_offsets_base dwarf64 in
    let! str := set_str s in
    Ok (Some {| av_ptr := ptr; av_value := None; av_str := str |})
  else attr_end ptr.

(** [DW_FORM_strx1] to [strx4]. *)
Definition read_strx (ptr n : Z) : result (option AttrValue) :=
  if end_ <? padd ptr n then Ok None else
  let! idx := host_word h ptr n in
  strx_index (padd ptr n) idx.

(** A block of [len] bytes at [ptr]. *)
Definition read_block (ptr len : Z) : result (option AttrValue) :=
  if end_ <? padd ptr len then Ok None else
  let! v := (if out_value then ParseExprloc h ptr len else Ok None) in
  Ok (Some {| av_ptr := padd ptr len; av_value := v; av_str := None |}).

(** [DW_FORM_block1], [block2], [block4]: an [n]-byte length, then the block. *)
Definition read_block_n (ptr n : Z) : result (option AttrValue) :=
  if end_ <? padd ptr n then Ok None else
  let! len := host_word h ptr n in
  read_block (padd ptr n) len.

(** [DW_FORM_addr]: a shift by 64 or more is undefined. *)
Definition read_addr (ptr : Z) : result (option AttrValue) :=
  if end_ <? padd ptr addr_size then Ok None else
  if out_value then
    if 8 <? addr_size then Fault else
    let! v := (if addr_size =? 0 then Ok 0 else host_word h ptr addr_size) in
    Ok (Some {| av_ptr := padd ptr addr_size; av_value := Some v; av_str := None |})
  else attr_end (padd ptr addr_size).

(** [DW_FORM_string]: an inline string. *)
Definition read_string (ptr : Z) : result (option AttrValue) :=
  let! p := scan_nul (Z.to_nat (end_ - ptr)) h ptr in
  if end_ <=? p then Ok None else
  let! str := (if out_str then set_str (Some ptr) else Ok None) in
  Ok (Some {| av_ptr := padd p 1; av_value := None; av_str := str |}).

(** [DW_FORM_strp] and the two forms whose offset is only skipped. *)
Definition read_strp (form ptr : Z) : result (option AttrValue) :=
  if end_ <? padd ptr (entry_size dwarf64) then Ok None else
  let! off := host_word h ptr (entry_size dwarf64) in
  let! str := (if (form =? DW_FORM_strp) && out_str then
                 let! s := GetDebugStr h d off in set_str s
               else Ok None) in
  Ok (Some {| av_ptr := padd ptr (entry_size dwarf64); av_value := None; av_str := str |}).

(** [ReadAttrValue]; the fuel bounds the nesting of [DW_FORM_indirect]. *)
Fixpoint ReadAttrValue (fuel : nat) (ptr form : Z) : result (option AttrValue) :=
  if (ptr =? 0) || (end_ <=? ptr) then Ok None else
  let f := Z.eqb form in
  if f DW_FORM_addr then read_addr ptr
  else if f DW_FORM_data1 then read_fixed ptr 1
  else if f DW_FORM_data2 then read_fixed ptr 2
  else if f DW_FORM_data4 then read_fixed ptr 4
  else if f DW_FORM_data8 then read_fixed ptr 8
  else if f DW_FORM_data16 then skip_bytes ptr 16
  else if f DW_FORM_udata || f DW_FORM_ref_udata then
    let! r := ReadULEB128 h ptr end_ in
    Ok (Some {| av_ptr := snd r; av_value := out out_value (fst r); av_str := None |})
  else if f DW_FORM_loclistx || f DW_FORM_rnglistx || f DW_FORM_addrx then
    let! r := ReadULEB128 h ptr end_ in attr_end (snd r)
  else if f DW_FORM_strx then
    let! r := ReadULEB128 h ptr end_ in strx_index (snd r) (fst r)
  else if f DW_FORM_addrx1 then skip_bytes ptr 1
  else if f DW_FORM_addrx2 then skip_bytes ptr 2
  else if f DW_FORM_addrx3 then skip_bytes ptr 3
  else if f DW_FORM_addrx4 then skip_bytes ptr 4
  else if f DW_FORM_strx1 then read_strx ptr 1
  else if f DW_FORM_strx2 then read_strx ptr 2
  else if f DW_FORM_strx3 then read_strx ptr 3
  else if f DW_FORM_strx4 then read_strx ptr 4
  else if f DW_FORM_sdata then
    let! r := ReadSLEB128 h ptr end_ in
    Ok (Some {| av_ptr := snd r; av_value := out out_value (u64 (fst r)); av_str := None |})
  else if f DW_FORM_string then read_string ptr
  else if f DW_FORM_strp || f DW_FORM_strp_sup || f DW_FORM_line_strp then
    read_strp form ptr
  else if f DW_FORM_block1 then read_block_n ptr 1
  else if f DW_FORM_block2 then read_block_n ptr 2
  else if f DW_FORM_block4 then read_block_n ptr 4
  else if f DW_FORM_block || f DW_FORM_exprloc then
    let! r := ReadULEB128 h ptr end_ in read_block (snd r) (fst r)
  else if f DW_FORM_flag then read_fixed ptr 1
  else if f DW_FORM_flag_present then
    Ok (Some {| av_ptr := ptr; av_value := out out_value 1; av_str := None |})
  else if f DW_FORM_ref1 then read_fixed ptr 1
  else if f DW_FORM_ref2 then read_fixed ptr 2
  else if f DW_FORM_ref4 || f DW_FORM_ref_sup4 then read_fixed ptr 4
  else if f DW_FORM_ref8 || f DW_FORM_ref_sup8 || f DW_FORM_ref_sig8 then read_fixed ptr 8
  else if f DW_FORM_ref_addr || f DW_FORM_sec_offset then
    read_fixed ptr (entry_size dwarf64)
  else if f DW_FORM_indirect then
    match fuel with
    | O => OutOfFuel
    | S fuel =>
        let! r := ReadULEB128 h ptr end_ in
        ReadAttrValue fuel (snd r) (u32 (fst r))
    end
  else if f DW_FORM_implicit_const then attr_end ptr
  else Ok None.
End Attr.

(** * Abbreviation tables *)

(** The attribute specifications of one entry. *)
Fixpoint specs_loop (fuel : nat) (h : host) (ptr end_ : Z) (acc : list AttrSpec)
    : result (list AttrSpec * Z) :=
  if ptr <? end_ then
    match fuel with
    | O => OutOfFuel
    | S fuel =>
        let! n := ReadULEB128 h ptr end_ in
        let! f := ReadULEB128 h (snd n) end_ in
        let attr_name := u32 (fst n) in
        let attr_form := u32 (fst f) in
        if (attr_name =? 0) && (attr_form =? 0) then Ok (acc, snd f) else
        let! c := (if attr_form =? DW_FORM_implicit_const
                   then ReadSLEB128 h (snd f) end_ else Ok (0, snd f)) in
        specs_loop fuel h (snd c) end_
          (acc ++ [{| as_name := attr_name; as_form := attr_form; implicit_const := fst c |}])
    end
  else Ok (acc, ptr).

(** The loop of [ParseAbbrevTable]. *)
Fixpoint abbrev_loop (fuel : nat) (h : host) (ptr end_ : Z) (table : AbbrevTable)
    : result (AbbrevTable * Z) :=
  if ptr <? end_ then
    match fuel with
    | O => OutOfFuel
    | S fuel =>
        let! c := ReadULEB128 h ptr end_ in
        if fst c =? 0 then Ok (table, snd c) else
        let! t := ReadULEB128 h (snd c) end_ in
        if end_ <=? snd t then Ok (table, snd t) else
        let! b := host_word h (snd t) 1 in
        let! s := specs_loop fuel h (padd (snd t) 1) end_ [] in
        let entry := {| ab_code := u32 (fst c); ab_tag := u32 (fst t);
                        has_children := b =? DW_CHILDREN_yes; attrs := fst s |} in
        abbrev_loop fuel h (snd s) end_ (<[ab_code entry := entry]> table)
    end
  else Ok (table, ptr).

(** [ParseAbbrevTable(ptr, end, base_offset)]. *)
Definition ParseAbbrevTable (fuel : nat) (h : host) (ptr end_ base_offset : Z)
    : prog DwarfLoader Z :=
  let$ r := lift (abbrev_loop fuel h ptr end_ ∅) in
  let$ _ := modify (fun d => with_abbrevs (<[base_offset := fst r]> (abbrev_map_ d)) d) in
  pret (snd r).

Fixpoint tables_loop (fuel : nat) (h : host) (data ptr end_ : Z) : prog DwarfLoader unit :=
  if ptr <? end_ then
    match fuel with
    | O => lift OutOfFuel
    | S fuel =>
        let$ next := ParseAbbrevTable fuel h ptr end_ (u64 (ptr - data)) in
        if (next =? 0) || (next <=? ptr) then pret tt
        else tables_loop fuel h data next end_
    end
  else pret tt.

(** [ParseAbbrevSection]. *)
Definition ParseAbbrevSection (fuel : nat) (h : host) : prog DwarfLoader unit :=
  let$ d := get in
  let '{| sec_data := data; sec_size := size |} := debug_abbrev d in
  if data =? 0 then pret tt else tables_loop fuel h data data (padd data size).

(** * Debugging information entries *)

(** The attributes of an entry that the parser keeps. *)
Record DieAttrs := {
  die_name : list Z;
  member_loc : Z; has_member_loc : bool;
  byte_sz : Z; has_byte_sz : bool;
  type_ref : Z; type_ref_form : Z;
}.
Definition no_attrs : DieAttrs := {|
  die_name := []; member_loc := 0; has_member_loc := false; byte_sz := 0;
  has_byte_sz := false; type_ref := 0; type_ref_form := 0 |}.

(** The [switch (attr.name)]. *)
Definition keep_attr (name form v : Z) (s : list Z) (a : DieAttrs) : DieAttrs :=
  let '(Build_DieAttrs nm ml hl bs hb tr tf) := a in
  if name =? DW_AT_name then
    if bool_decide (s = []) then a else Build_DieAttrs s ml hl bs hb tr tf
  else if name =? DW_AT_data_member_location then Build_DieAttrs nm v true bs hb tr tf
  else if name =? DW_AT_byte_size then Build_DieAttrs nm ml hl v true tr tf
  else if name =? DW_AT_type then Build_DieAttrs nm ml hl bs hb v form
  else a.

(** The loop over [entry.attrs]; [None] is the parse error. *)
Fixpoint read_attrs (fuel : nat) (h : host) (d : DwarfLoader) (cu_end addr_size : Z)
    (dwarf64 : bool) (base : Z) (l : list AttrSpec) (ptr : Z) (a : DieAttrs)
    : result (option (Z * DieAttrs)) :=
  match l with
  | [] => Ok (Some (ptr, a))
  | spec :: l =>
      if as_form spec =? DW_FORM_implicit_const then
        read_attrs fuel h d cu_end addr_size dwarf64 base l ptr
          (keep_attr (as_name spec) (as_form spec) (u64 (implicit_const spec)) [] a)
      else
        let! r := ReadAttrValue h d cu_end addr_size dwarf64 base true true fuel ptr
                    (as_form spec) in
        match r with
        | None => Ok None
        | Some av =>
            if av_ptr av =? 0 then Ok None else
            read_attrs fuel h d cu_end addr_size dwarf64 base l (av_ptr av)
              (keep_attr (as_name spec) (as_form spec) (default 0 (av_value av))
                 (default [] (av_str av)) a)
        end
  end.

Definition kNoStruct : Z := -1.

(** The locals of [ParseDIETree]: the stack of [(ns_prefix, struct_idx)], the current
    scope. *)
Record Scope := { stk : list (list Z * Z); cur_ns : list Z; cur_struct_idx : Z }.

(** [stk.push({cur_ns, cur_struct_idx})], then the scope of the children. *)
Definition push_scope (ns : list Z) (idx : Z) (sc : Scope) : Scope :=
  {| stk := (cur_ns sc, cur_struct_idx sc) :: stk sc; cur_ns := ns; cur_struct_idx := idx |}.

(** [if (entry.has_children) { stk.push(...); cur_struct_idx = kNoStruct; }]. *)
Definition skip_children (children : bool) (sc : Scope) : Scope :=
  if children then push_scope (cur_ns sc) kNoStruct sc else sc.

(** [cur_ns.empty() ? die_name : cur_ns + "::" + die_name]. *)
Definition full_name (ns name : list Z) : list Z :=
  if bool_decide (ns = []) then name else ns ++ chars "::" ++ name.

(** [type_registry_[off] = {name, ref, qual}]. *)
Definition register_type (off : Z) (name : list Z) (ref qual : Z) (d : DwarfLoader)
    : DwarfLoader :=
  with_types (<[off := {| te_name := name; te_ref := ref; te_qual := qual |}]>
    (type_registry_ d)) d.

(** [structs_[idx]], updated by [f]: an index outside the vector is undefined. *)
Definition update_struct (idx : Z) (f : StructInfo -> result StructInfo) (d : DwarfLoader)
    : result DwarfLoader :=
  if idx <? 0 then Fault else
  let! s := of_option (structs_ d !! Z.to_nat idx) in
  let! s' := f s in
  Ok (with_structs (<[Z.to_nat idx := s']> (structs_ d)) d).

Definition add_member (m : MemberInfo) (s : StructInfo) : StructInfo :=
  {| si_name := si_name s; si_byte_size := si_byte_size s; si_has_size := si_has_size s;
     si_bases := si_bases s; si_members := si_members s ++ [m] |}.
Definition add_base (b : BaseInfo) (s : StructInfo) : StructInfo :=
  {| si_name := si_name s; si_byte_size := si_byte_size s; si_has_size := si_has_size s;
     si_bases := si_bases s ++ [b]; si_members := si_members s |}.

Definition add_pending (p : PendingRef) (d : DwarfLoader) : DwarfLoader :=
  with_pending (pending_refs_ d ++ [p]) d.

(** Appends a member or a base to [structs_[idx]], and the reference to its type. *)
Definition append_item (idx : Z) (base : bool) (f : StructInfo -> StructInfo) (ref : Z)
    (d : DwarfLoader) : result DwarfLoader :=
  let! d := update_struct idx (fun s => Ok (f s)) d in
  if ref =? 0 then Ok d else
  let! s := of_option (structs_ d !! Z.to_nat idx) in
  let item := i32 (if base then Z.of_nat (length (si_bases s))
                   else Z.of_nat (length (si_members s))) - 1 in
  Ok (add_pending {| pr_struct := idx; pr_base := base; pr_item := item; pr_type := ref |} d).

(** [DW_TAG_namespace]. *)
Definition die_namespace (children : bool) (a : DieAttrs) (sc : Scope) : Scope :=
  if children then push_scope (full_name (cur_ns sc) (die_name a)) (cur_struct_idx sc) sc
  else sc.

(** [DW_TAG_structure_type], [DW_TAG_class_type]. *)
Definition die_struct (off : Z) (children : bool) (a : DieAttrs) (sc : Scope)
    (d : DwarfLoader) : DwarfLoader * Scope :=
  if bool_decide (die_name a = []) then (d, skip_children children sc) else
  let name := full_name (cur_ns sc) (die_name a) in
  let d := register_type off name 0 0 d in
  let d := with_structs (structs_ d ++
    [{| si_name := name; si_byte_size := u32 (byte_sz a); si_has_size := has_byte_sz a;
        si_bases := []; si_members := [] |}]) d in
  let new_idx := i32 (Z.of_nat (length (structs_ d))) - 1 in
  (d, if children then push_scope (cur_ns sc) new_idx sc else sc).

(** [DW_TAG_member]. *)
Definition die_member (a : DieAttrs) (ref : Z) (sc : Scope) (d : DwarfLoader)
    : result DwarfLoader :=
  if negb (cur_struct_idx sc =? kNoStruct) && negb (bool_decide (die_name a = [])) then
    append_item (cur_struct_idx sc) false
      (add_member {| mi_name := die_name a; mi_type_name := [];
                     mi_offset := u32 (member_loc a); mi_has_offset := has_member_loc a |})
      ref d
  else Ok d.

(** [DW_TAG_inheritance]. *)
Definition die_base (a : DieAttrs) (ref : Z) (sc : Scope) (d : DwarfLoader)
    : result DwarfLoader :=
  if negb (cur_struct_idx sc =? kNoStruct) then
    append_item (cur_struct_idx sc) true
      (add_base {| bi_type_name := []; bi_offset := u32 (member_loc a);
                   bi_has_offset := has_member_loc a |})
      ref d
  else Ok d.

(** A tag whose entry only registers a named type. *)
Definition die_named (off : Z) (a : DieAttrs) (sc : Scope) (ref qual : Z) (d : DwarfLoader)
    : DwarfLoader :=
  if bool_decide (die_name a = []) then d
  else register_type off (full_name (cur_ns sc) (die_name a)) ref qual d.

(** The qualifier of the unnamed types ([DW_TAG_pointer_type], ...). *)
Definition tag_qualifier (tag : Z) : option Z :=
  if (tag =? DW_TAG_pointer_type) || (tag =? DW_TAG_rvalue_reference_type) then Some 1
  else if tag =? DW_TAG_reference_type then Some 2
  else if tag =? DW_TAG_const_type then Some 3
  else if tag =? DW_TAG_volatile_type then Some 4
  else if tag =? DW_TAG_array_type then Some 6
  else None.

(** The [switch (entry.tag)]. *)
Definition die_tag (tag : Z) (children : bool) (off ref : Z) (a : DieAttrs) (sc : Scope)
    (d : DwarfLoader) : result (DwarfLoader * Scope) :=
  if tag =? DW_TAG_namespace then Ok (d, die_namespace children a sc)
  else if (tag =? DW_TAG_structure_type) || (tag =? DW_TAG_class_type) then
    Ok (die_struct off children a sc d)
  else if tag =? DW_TAG_member then
    let! d := die_member a ref sc d in Ok (d, skip_children children sc)
  else if tag =? DW_TAG_inheritance then
    let! d := die_base a ref sc d in Ok (d, skip_children children sc)
  else if (tag =? DW_TAG_base_type) || (tag =? DW_TAG_enumeration_type) ||
          (tag =? DW_TAG_union_type) then
    Ok (die_named off a sc 0 0 d, skip_children children sc)
  else if tag =? DW_TAG_typedef then
    Ok (die_named off a sc ref 5 d, skip_children children sc)
  else match tag_qualifier tag with
       | Some q => Ok (register_type off [] ref q d, skip_children children sc)
       | None => Ok (d, skip_children children sc)
       end.

(** [abs_type_ref]. *)
Definition abs_type_ref (cu_base : Z) (a : DieAttrs) : Z :=
  if type_ref_form a =? 0 then 0
  else if IsRelRef (type_ref_form a) then u64 (cu_base + type_ref a)
  else type_ref a.

(** The loop of [ParseDIETree]; [None] is [nullptr]. *)
Fixpoint die_loop (fuel : nat) (h : host) (cu_end addr_size : Z) (dwarf64 : bool)
    (table : AbbrevTable) (base cu_base ptr : Z) (sc : Scope) : prog DwarfLoader (option Z) :=
  if ptr <? cu_end then
    match fuel with
    | O => lift OutOfFuel
    | S fuel =>
        let$ d := get in
        let off := u64 (ptr - sec_data (debug_info d)) in
        let$ c := lift (ReadULEB128 h ptr cu_end) in
        if fst c =? 0 then
          match stk sc with
          | [] => pret (Some (snd c))
          | (ns, idx) :: rest =>
              die_loop fuel h cu_end addr_size dwarf64 table base cu_base (snd c)
                {| stk := rest; cur_ns := ns; cur_struct_idx := idx |}
          end
        else
        match table !! u32 (fst c) with
        | None => pret None                                  (* unknown abbrev code *)
        | Some entry =>
            let$ r := lift (read_attrs fuel h d cu_end addr_size dwarf64 base
                              (attrs entry) (snd c) no_attrs) in
            match r with
            | None => pret None                              (* parse error *)
            | Some (ptr, a) =>
                let$ sc := on_part id (fun _ d => d)
                             (die_tag (ab_tag entry) (has_children entry) off
                                (abs_type_ref cu_base a) a sc) in
                die_loop fuel h cu_end addr_size dwarf64 table base cu_base ptr sc
            end
        end
    end
  else pret (Some ptr).

(** [ParseDIETree]. *)
Definition ParseDIETree (fuel : nat) (h : host) (ptr cu_end addr_size : Z) (dwarf64 : bool)
    (table : AbbrevTable) (ns_prefix : list Z) (base cu_base : Z)
    : prog DwarfLoader (option Z) :=
  die_loop fuel h cu_end addr_size dwarf64 table base cu_base ptr
    {| stk := []; cur_ns := ns_prefix; cur_struct_idx := kNoStruct |}.

(** * Compile units *)

(** The scan of the first entry for [DW_AT_str_offsets_base]. *)
Fixpoint peek_base (fuel : nat) (h : host) (d : DwarfLoader) (cu_end addr_size : Z)
    (dwarf64 : bool) (l : list AttrSpec) (peek : Z) : result Z :=
  match l with
  | [] => Ok 0
  | spec :: l =>
      let wanted := as_name spec =? DW_AT_str_offsets_base in
      if as_form spec =? DW_FORM_implicit_const then
        if wanted then Ok (u64 (implicit_const spec))
        else peek_base fuel h d cu_end addr_size dwarf64 l peek
      else
        let! r := ReadAttrValue h d cu_end addr_size dwarf64 0 wanted false fuel peek
                    (as_form spec) in
        match r with
        | None => Ok 0
        | Some av =>
            if av_ptr av =? 0 then Ok 0 else
            if wanted then Ok (default 0 (av_value av))
            else peek_base fuel h d cu_end addr_size dwarf64 l (av_ptr av)
        end
  end.

Definition read_base (fuel : nat) (h : host) (d : DwarfLoader) (cu_end addr_size : Z)
    (dwarf64 : bool) (table : AbbrevTable) (ptr : Z) : result Z :=
  let! c := ReadULEB128 h ptr cu_end in
  match table !! u32 (fst c) with
  | None => Ok 0
  | Some entry => peek_base fuel h d cu_end addr_size dwarf64 (attrs entry) (snd c)
  end.

(** The header of a unit: the end of the unit, or [None] for a truncated section; then
    the fields a compile unit is parsed with, [None] where the unit is skipped. *)
Record UnitHeader := {
  uh_ptr : Z; uh_dwarf64 : bool; uh_addr_size : Z; uh_abbrev_offset : Z }.

Definition unit_fields (h : host) (ptr cu_end : Z) (dwarf64 : bool)
    : result (option UnitHeader) :=
  let n := entry_size dwarf64 in
  if cu_end <? padd ptr 2 then Ok None else
  let! version := host_word h ptr 2 in
  let ptr := padd ptr 2 in
  if 5 <=? version then
    if cu_end <? padd ptr 2 then Ok None else
    let! unit_type := host_word h ptr 1 in
    let! addr_size := host_word h (padd ptr 1) 1 in
    let ptr := padd ptr 2 in
    if negb (unit_type =? DW_UT_compile) then Ok None else
    if cu_end <? padd ptr n then Ok None else
    let! abbrev_offset := host_word h ptr n in
    Ok (Some {| uh_ptr := padd ptr n; uh_dwarf64 := dwarf64; uh_addr_size := addr_size;
                uh_abbrev_offset := abbrev_offset |})
  else
    if cu_end <? padd ptr n then Ok None else
    let! abbrev_offset := host_word h ptr n in
    let ptr := padd ptr n in
    if cu_end <? padd ptr 1 then Ok None else
    let! addr_size := host_word h ptr 1 in
    Ok (Some {| uh_ptr := padd ptr 1; uh_dwarf64 := dwarf64; uh_addr_size := addr_size;
                uh_abbrev_offset := abbrev_offset |}).

(** [unit_length]: where the unit starts and ends, and its format. *)
Definition unit_extent (h : host) (ptr end_ : Z) : result (option (Z * Z * bool)) :=
  if end_ <? padd ptr 4 then Ok None else
  let! len32 := host_word h ptr 4 in
  let ptr := padd ptr 4 in
  if len32 =? 0xffffffff then
    if end_ <? padd ptr 8 then Ok None else
    let! len := host_word h ptr 8 in
    Ok (Some (padd ptr 8, padd (padd ptr 8) len, true))
  else Ok (Some (ptr, padd ptr len32, false)).

(** [ParseCompileUnit(ptr, end)]. *)
Definition ParseCompileUnit (fuel : nat) (h : host) (ptr end_ : Z)
    : prog DwarfLoader (option Z) :=
  let$ ext := lift (unit_extent h ptr end_) in
  match ext with
  | None => pret None
  | Some (p, cu_end, dwarf64) =>
      if end_ <? cu_end then pret None else
      let$ hdr := lift (unit_fields h p cu_end dwarf64) in
      match hdr with
      | None => pret (Some cu_end)
      | Some u =>
          let$ d := get in
          match abbrev_map_ d !! uh_abbrev_offset u with
          | None => pret (Some cu_end)                       (* no abbrev table *)
          | Some table =>
              let$ base := lift (read_base fuel h d cu_end (uh_addr_size u) dwarf64 table
                                   (uh_ptr u)) in
              let$ _ := ParseDIETree fuel h (uh_ptr u) cu_end (uh_addr_size u) dwarf64 table
                          [] base (u64 (ptr - sec_data (debug_info d))) in
              pret (Some cu_end)
          end
      end
  end.

(** * Type names *)

(** [ResolveTypeName(offset, depth)]; [fuel] is [9 - depth], the calls left. *)
Fixpoint resolve_type (fuel : nat) (types : gmap Z TypeEntry) (offset : Z) : list Z :=
  match fuel with
  | O => []                                                  (* depth > 8 *)
  | S fuel =>
      if offset =? 0 then [] else
      match types !! offset with
      | None => []
      | Some e =>
          let q := te_qual e in
          let inner := resolve_type fuel types (te_ref e) in
          let prefix s := if bool_decide (inner = []) then chars s
                          else chars s ++ chars " " ++ inner in
          if q =? 1 then inner ++ chars "*"
          else if q =? 2 then inner ++ chars "&"
          else if q =? 3 then prefix "const"%string
          else if q =? 4 then prefix "volatile"%string
          else if q =? 5 then (if bool_decide (te_name e = []) then inner else te_name e)
          else if q =? 6 then inner ++ chars "[]"
          else te_name e
      end
  end.

Definition ResolveTypeName (d : DwarfLoader) (offset : Z) (depth : nat) : list Z :=
  resolve_type (9 - depth) (type_registry_ d) offset.

(** [bases[i].type_name = name] and [members[i].type_name = name]: an index outside the
    vector is undefined. *)
Definition set_type_name (base : bool) (item : Z) (name : list Z) (s : StructInfo)
    : result StructInfo :=
  if item <? 0 then Fault else
  if base then
    let! b := of_option (si_bases s !! Z.to_nat item) in
    Ok {| si_name := si_name s; si_byte_size := si_byte_size s; si_has_size := si_has_size s;
          si_bases := <[Z.to_nat item := {| bi_type_name := name; bi_offset := bi_offset b;
                                            bi_has_offset := bi_has_offset b |}]> (si_bases s);
          si_members := si_members s |}
  else
    let! m := of_option (si_members s !! Z.to_nat item) in
    Ok {| si_name := si_name s; si_byte_size := si_byte_size s; si_has_size := si_has_size s;
          si_bases := si_bases s;
          si_members := <[Z.to_nat item := {| mi_name := mi_name m; mi_type_name := name;
                                              mi_offset := mi_offset m;
                                              mi_has_offset := mi_has_offset m |}]>
                          (si_members s) |}.

(** One iteration of [ResolveTypes]. *)
Definition resolve_ref (d : DwarfLoader) (p : PendingRef) : result DwarfLoader :=
  if pr_type p =? 0 then Ok d else
  let name := ResolveTypeName d (pr_type p) 0 in
  if bool_decide (name = []) then Ok d else
  update_struct (pr_struct p) (set_type_name (pr_base p) (pr_item p) name) d.

Fixpoint resolve_refs (l : list PendingRef) (d : DwarfLoader) : result DwarfLoader :=
  match l with
  | [] => Ok d
  | p :: l => let! d := resolve_ref d p in resolve_refs l d
  end.

(** [ResolveTypes]. *)
Definition ResolveTypes (d : DwarfLoader) : result DwarfLoader :=
  resolve_refs (pending_refs_ d) d.

(** * The sections *)

Fixpoint unit_loop (fuel : nat) (h : host) (ptr end_ : Z) : prog DwarfLoader unit :=
  if ptr <? end_ then
    match fuel with
    | O => lift OutOfFuel
    | S fuel =>
        let$ next := ParseCompileUnit fuel h ptr end_ in
        match next with
        | None => pret tt
        | Some next =>
            if (next =? 0) || (next <=? ptr) then pret tt else unit_loop fuel h next end_
        end
    end
  else pret tt.

(** [ParseInfoSection]. *)
Definition ParseInfoSection (fuel : nat) (h : host) : prog DwarfLoader unit :=
  let$ d := get in
  let '{| sec_data := data; sec_size := size |} := debug_info d in
  if data =? 0 then pret tt else
  let$ _ := unit_loop fuel h data (padd data size) in
  on_part id (fun _ d => d) (fun d => let! d := ResolveTypes d in Ok (d, tt)).

(** Which of the four sections of the loader a name denotes. *)
Inductive slot := SAbbrev | SInfo | SStr | SStrOffsets.

Definition section_slot (name : list Z) : option slot :=
  if bool_decide (name = chars ".debug_abbrev") then Some SAbbrev
  else if bool_decide (name = chars ".debug_info") then Some SInfo
  else if bool_decide (name = chars ".debug_str") then Some SStr
  else if bool_decide (name = chars ".debug_str_offsets") then Some SStrOffsets
  else None.

(** [*sec_data = ...; *sec_size = ...]. *)
Definition set_section (s : slot) (x : Section_) (d : DwarfLoader) : DwarfLoader :=
  match s with
  | SAbbrev => with_sections x (debug_info d) (debug_str d) (debug_str_offsets d) d
  | SInfo => with_sections (debug_abbrev d) x (debug_str d) (debug_str_offsets d) d
  | SStr => with_sections (debug_abbrev d) (debug_info d) x (debug_str_offsets d) d
  | SStrOffsets => with_sections (debug_abbrev d) (debug_info d) (debug_str d) x d
  end.

(** The fields of a section header that [locate] reads; [Elf64_Shdr] and [Elf32_Shdr]. *)
Record Shdr := { shd_name : Z; shd_type : Z; shd_flags : Z; shd_offset : Z; shd_size : Z }.

Definition shdr_bytes (bits : Z) : Z := if bits =? 64 then 64 else 40.

Definition read_shdr (h : host) (bits p : Z) : result Shdr :=
  let w := if bits =? 64 then 8 else 4 in
  let! nm := host_word h p 4 in
  let! ty := host_word h (padd p 4) 4 in
  let! fl := host_word h (padd p 8) w in
  let! off := host_word h (padd p (if bits =? 64 then 24 else 16)) w in
  let! sz := host_word h (padd p (if bits =? 64 then 32 else 20)) w in
  Ok {| shd_name := nm; shd_type := ty; shd_flags := fl; shd_offset := off; shd_size := sz |}.

Definition SHT_NOBITS : Z := 8.
Definition SHF_COMPRESSED : Z := 0x800.
Definition ELFCOMPRESS_ZSTD : Z := 2.

(** libzstd, where the build has it: the content of a frame that fits in a buffer of the
    given size, [None] for an error. *)
Class Zstd := { ZSTD_decompress : option (Z -> list Z -> option (list Z)) }.

Section Sections.
Context `{Os} `{Zstd}.

(** [DecompressSection(raw, raw_size, ...)]: the section it sets, if it returns true. An
    allocation that fails is outside the model ([std::bad_alloc] is not caught). *)
Definition DecompressSection (h : host) (d : DwarfLoader) (raw raw_size : Z)
    : result (host * DwarfLoader * option Section_) :=
  let is64 := elf_bits_ d =? 64 in
  let chdr_size := if is64 then 24 else 12 in
  if raw_size <? chdr_size then Ok (h, d, None) else
  let! ch_type := host_word h raw 4 in
  let! ch_size := (if is64 then host_word h (padd raw 8) 8 else host_word h (padd raw 4) 4) in
  if ch_type =? ELFCOMPRESS_ZSTD then
    match ZSTD_decompress with
    | None => Ok (h, d, None)                                (* not compiled in *)
    | Some decompress =>
        let! buf := (if ch_size =? 0 then Ok 0 else of_option (os_mmap h ch_size)) in
        let! payload := host_load h (padd raw chdr_size) (raw_size - chdr_size) in
        match decompress ch_size payload with
        | None => Ok (h, d, None)
        | Some bs =>
            Ok ((if ch_size =? 0 then h else h ++ [Region buf true bs]),
                with_buffers (decompressed_sections_ d ++ [buf]) d,
                Some {| sec_data := buf; sec_size := Z.of_nat (length bs) |})
        end
    end
  else Ok (h, d, None).

(** One iteration of [locate]. *)
Definition locate_one (h : host) (d : DwarfLoader) (data size shstr p : Z)
    : result (host * DwarfLoader) :=
  let! s := read_shdr h (elf_bits_ d) p in
  if shd_type s =? SHT_NOBITS then Ok (h, d) else
  if size <? u64 (shd_offset s + shd_size s) then Ok (h, d) else
  let name_addr := padd shstr (shd_name s) in
  if (name_addr <? data) || (padd data size <=? name_addr) then Ok (h, d) else
  let! name := host_cstr h name_addr in
  match section_slot name with
  | None => Ok (h, d)
  | Some sl =>
      let raw := padd data (shd_offset s) in
      if negb (Z.land (shd_flags s) SHF_COMPRESSED =? 0) then
        let! r := DecompressSection h d raw (shd_size s) in
        let '(h, d, sec) := r in
        match sec with
        | None => Ok (h, d)
        | Some x => Ok (h, set_section sl x d)
        end
      else Ok (h, set_section sl {| sec_data := raw; sec_size := shd_size s |} d)
  end.

Fixpoint locate (n : nat) (i : Z) (h : host) (d : DwarfLoader) (data size shstr shdr : Z)
    : result (host * DwarfLoader) :=
  match n with
  | O => Ok (h, d)
  | S n =>
      let! r := locate_one h d data size shstr (padd shdr (i * shdr_bytes (elf_bits_ d))) in
      locate n (i + 1) (fst r) (snd r) data size shstr shdr
  end.

(** The branch of [LocateSections] for one class of ELF file: the offsets of [e_shoff],
    [e_shnum] and [e_shstrndx]. *)
Definition locate_in (h : host) (d : DwarfLoader) (data size : Z)
    : result (host * DwarfLoader * bool) :=
  let bits := elf_bits_ d in
  let w := if bits =? 64 then 8 else 4 in
  if size <? (if bits =? 64 then 64 else 52) then Ok (h, d, false) else
  let! e_shoff := host_word h (padd data (if bits =? 64 then 40 else 32)) w in
  let! e_shnum := host_word h (padd data (if bits =? 64 then 60 else 48)) 2 in
  let! e_shstrndx := host_word h (padd data (if bits =? 64 then 62 else 50)) 2 in
  if (e_shoff =? 0) || (size <? u64 (e_shoff + e_shnum * shdr_bytes bits))
  then Ok (h, d, false) else
  if e_shnum <=? e_shstrndx then Ok (h, d, false) else
  let shdr := padd data e_shoff in
  let! str := read_shdr h bits (padd shdr (e_shstrndx * shdr_bytes bits)) in
  if size <=? shd_offset str then Ok (h, d, false) else
  let! r := locate (Z.to_nat e_shnum) 0 h d data size (padd data (shd_offset str)) shdr in
  Ok (fst r, snd r, true).

(** [LocateSections]. *)
Definition LocateSections (h : host) (d : DwarfLoader) : result (host * DwarfLoader * bool) :=
  match dw_map d with
  | None => Ok (h, d, false)
  | Some m =>
      let data := mBegin m in
      let size := mSize m in
      if size <? 5 then Ok (h, d, false) else
      let! magic := host_load h data 4 in
      if negb (bool_decide (magic = 0x7f :: chars "ELF")) then Ok (h, d, false) else
      let! cls := host_word h (padd data 4) 1 in
      let d := with_bits (if cls =? 1 then 32 else 64) d in
      let! r := locate_in h d data size in
      let '(h, d, ok) := r in
      Ok (h, d, ok && negb (sec_data (debug_abbrev d) =? 0)
                   && negb (sec_data (debug_info d) =? 0))
  end.

(** [Init(elf_path)]. *)
Definition Init (fuel : nat) (h : host) (path : list Z) (d : DwarfLoader)
    : result (host * DwarfLoader * bool) :=
  let '(h, m) := MmapFile_from h path 0 in
  let d := with_map m d in
  match m with
  | None => Ok (h, d, false)
  | Some _ =>
      let! r := LocateSections h d in
      let '(h, d, ok) := r in
      if negb ok then Ok (h, d, false) else
      match (let$ _ := ParseAbbrevSection fuel h in ParseInfoSection fuel h) d with
      | (d, Ok _) => Ok (h, d, negb (bool_decide (structs_ d = [])))
      | (_, Throw p) => Throw p
      | (_, Fault) => Fault
      | (_, OutOfFuel) => OutOfFuel
      end
  end.

(** [~DwarfLoader]: the mapping and the buffers go. *)
Definition destroy (h : host) (d : DwarfLoader) : host :=
  let h := foldl host_unmap h (decompressed_sections_ d) in
  match dw_map d with
  | Some m => unmap h m
  | None => h
  end.

(** [DwarfLoader::Load(elf_path)]. *)
Definition DwarfLoader_Load (fuel : nat) (h : host) (path : list Z)
    : result (host * option DwarfLoader) :=
  let! r := Init fuel h path new_DwarfLoader in
  let '(h, d, ok) := r in
  Ok (if ok : bool then (h, Some d) else (destroy h d, None)).
End Sections.

(** [ForEachStruct(cb)]: the callback stops the walk by returning true. *)
Fixpoint each_struct {S : Type} (cb : StructInfo -> S -> S * bool) (l : list StructInfo)
    (s : S) : S :=
  match l with
  | [] => s
  | si :: l => let '(s, stop) := cb si s in if stop then s else each_struct cb l s
  end.

Definition ForEachStruct {S : Type} (d : DwarfLoader) (cb : StructInfo -> S -> S * bool)
    (s : S) : S :=
  each_struct cb (structs_ d) s.
