(* ===== verification/DwarfProofs.v ===== *)
(** Properties of the DWARF reader ([Dwarf]): the LEB128 codecs, the bounds of attribute
    values, termination of the loops and the input on which there is none, the scope walk
    of [ParseDIETree] against a recursive walk of the tree, and the safety of
    [ResolveTypes]. *)

From Stdlib Require Import ZArith Lia Bool.
From stdpp Require Import base list numbers gmap.
From S2P Require Import Prelude Words Host Dwarf.
Open Scope Z_scope.

(** * LEB128 *)

(** The unsigned encoding of [v] in at most [n] bytes. *)
Fixpoint uleb_bytes (n : nat) (v : Z) : list Z :=
  match n with
  | O => []
  | S n => if v <? 128 then [v] else (v mod 128 + 128) :: uleb_bytes n (v / 128)
  end.

(** The signed encoding. *)
Fixpoint sleb_bytes (n : nat) (v : Z) : list Z :=
  match n with
  | O => []
  | S n => if (-64 <=? v) && (v <? 64) then [v mod 128]
           else (v mod 128 + 128) :: sleb_bytes n (v / 128)
  end.

Lemma byte_forall (P : Z -> bool) b :
  forallb P (seqZ 0 256) = true -> byte_ok b -> P b = true.
Proof.
  intros HP Hb. rewrite forallb_forall in HP. apply HP, list_elem_of_In, elem_of_seqZ.
  unfold byte_ok in Hb. lia.
Qed.

Lemma land_7f b : Z.land b 0x7f = b mod 128.
Proof. change 0x7f with (Z.ones 7). by rewrite Z.land_ones. Qed.

Lemma land_80 b : byte_ok b -> (Z.land b 0x80 =? 0) = (b <? 128).
Proof.
  intros Hb. apply eqb_prop.
  by apply (byte_forall (fun b => eqb (Z.land b 0x80 =? 0) (b <? 128))).
Qed.

Lemma land_40 b : byte_ok b -> (Z.land b 0x40 =? 0) = (b mod 128 <? 64).
Proof.
  intros Hb. apply eqb_prop.
  by apply (byte_forall (fun b => eqb (Z.land b 0x40 =? 0) (b mod 128 <? 64))).
Qed.

Lemma padd_small p n : 0 <= p + n < 2 ^ 64 -> padd p n = p + n.
Proof. apply wrap_small. Qed.

(** One more group of seven bits, below 2^64. *)
Lemma group_lor r v s :
  0 <= s < 64 -> 0 <= r < 2 ^ s -> 0 <= v < 2 ^ (64 - s) ->
  Z.lor r (shl 64 (v mod 128) s) = r + v mod 128 * 2 ^ s /\
  r + v mod 128 * 2 ^ s + v / 128 * 2 ^ (s + 7) = r + v * 2 ^ s /\
  0 <= r + v mod 128 * 2 ^ s < 2 ^ (s + 7).
Proof.
  intros Hs Hr Hv. pose proof (Z.div_mod v 128 ltac:(lia)) as Hdm.
  pose proof (Z.mod_pos_bound v 128 ltac:(lia)).
  pose proof (Z.div_pos v 128 ltac:(lia) ltac:(lia)).
  assert (H64 : 2 ^ 64 = 2 ^ (64 - s) * 2 ^ s) by (rewrite <- Z.pow_add_r by lia; f_equal; lia).
  assert (Hp : 2 ^ (s + 7) = 128 * 2 ^ s) by (rewrite Z.pow_add_r by lia; lia).
  pose proof (Z.pow_pos_nonneg 2 s ltac:(lia) ltac:(lia)).
  unfold shl. rewrite Z.shiftl_mul_pow2 by lia. rewrite wrap_small by nia.
  split_and!; [apply lor_high; lia|nia|nia|nia].
Qed.

Lemma uleb_loop_enc n h ptr end_ k v r tail :
  host_wf h -> (n + k = 10)%nat ->
  let s := 7 * Z.of_nat k in
  0 <= r < 2 ^ s -> 0 <= v -> v * 2 ^ s < 2 ^ 64 ->
  holds h ptr (uleb_bytes n v ++ tail) ->
  0 <= ptr -> ptr + Z.of_nat (length (uleb_bytes n v)) <= end_ < 2 ^ 64 ->
  uleb_loop n h ptr end_ r s =
    Ok (r + v * 2 ^ s, ptr + Z.of_nat (length (uleb_bytes n v))).
Proof.
  intros Hh. revert k ptr v r.
  induction n as [|n IH]; intros k ptr v r Hk s Hr Hv Hvs Hl Hp He.
  - replace s with 70 in * by lia. assert (v = 0) by lia. subst v. cbn [uleb_loop].
    change (70 <? 64) with false. rewrite andb_false_r. cbn. f_equal. f_equal; lia.
  - assert (Hs : 0 <= s < 64) by lia.
    assert (H64 : 2 ^ 64 = 2 ^ (64 - s) * 2 ^ s)
      by (rewrite <- Z.pow_add_r by lia; f_equal; lia).
    pose proof (Z.pow_pos_nonneg 2 s ltac:(lia) ltac:(lia)).
    assert (Hv' : 0 <= v < 2 ^ (64 - s)) by nia.
    destruct (group_lor r v s Hs Hr Hv') as (G1 & G2 & G3).
    pose proof (Z.mod_pos_bound v 128 ltac:(lia)) as Hm.
    cbn [uleb_loop uleb_bytes] in *.
    destruct (Z.ltb_spec v 128) as [Hlt|Hge]; cbn [length app] in *;
      apply holds_cons in Hl as [Hb Hl]; try done;
      rewrite (proj2 (Z.ltb_lt ptr end_)), (proj2 (Z.ltb_lt s 64)) by lia;
      cbn [andb]; rewrite Hb; cbn [rbind].
    + rewrite land_7f, land_80 by (unfold byte_ok; lia).
      rewrite (proj2 (Z.ltb_lt v 128)) by done. rewrite G1, Z.mod_small by lia.
      by rewrite padd_small by lia.
    + rewrite land_7f, land_80 by (unfold byte_ok; lia).
      rewrite (proj2 (Z.ltb_ge _ 128)) by lia.
      replace ((v mod 128 + 128) mod 128) with (v mod 128)
        by (rewrite <- Z.add_mod_idemp_r, Z.mod_same, Z.add_0_r, Z.mod_mod by lia; done).
      rewrite G1, padd_small by lia.
      assert (Hd : v / 128 * 2 ^ (s + 7) = v * 2 ^ s - v mod 128 * 2 ^ s) by lia.
      replace (s + 7) with (7 * Z.of_nat (S k)) in * by lia.
      rewrite (IH (S k) (ptr + 1) (v / 128)); [|lia|lia| |nia|done|lia|lia].
      * f_equal. f_equal; lia.
      * apply Z.div_pos; lia.
Qed.

Lemma sint_add_mul w a k : 0 <= w -> sint w (a + k * 2 ^ w) = sint w a.
Proof. intros. unfold sint, wrap. by rewrite Z.mod_add by lia. Qed.

(** The last lines of [ReadSLEB128]. *)
Definition sleb_sign (res b shift : Z) : Z :=
  i64 (if (shift <? 64) && negb (Z.land b 0x40 =? 0)
       then Z.lor res (u64 (- shl 64 1 shift)) else res).

(** The last byte of an encoding, with the sign extension. *)
Lemma sleb_last r v k :
  (k <= 9)%nat -> let s := 7 * Z.of_nat k in
  0 <= r < 2 ^ s -> -64 <= v < 64 -> - 2 ^ (63 - s) <= v < 2 ^ (63 - s) ->
  sleb_sign (Z.lor r (shl 64 (v mod 128) s)) (v mod 128) (s + 7) = i64 (r + v * 2 ^ s).
Proof.
  intros Hk s Hr Hv Hf. unfold sleb_sign.
  assert (Hm : v mod 128 = if 0 <=? v then v else v + 128).
  { destruct (Z.leb_spec 0 v); [by apply Z.mod_small; lia|].
    rewrite <- (Z.mod_add v 1) by lia. rewrite Z.mod_small; lia. }
  pose proof (Z.mod_pos_bound v 128 ltac:(lia)) as Hb.
  pose proof (Z.pow_pos_nonneg 2 s ltac:(lia) ltac:(lia)).
  rewrite land_40, Z.mod_mod by (unfold byte_ok; lia).
  destruct (decide (k = 9%nat)) as [->|Hk9].
  - change s with 63 in *. change (63 + 7 <? 64) with false. cbn [andb].
    change (2 ^ (63 - 63)) with 1 in Hf. assert (v = -1 \/ v = 0) as [-> | ->] by lia.
    + change (shl 64 (-1 mod 128) 63) with (1 * 2 ^ 63). rewrite lor_high by lia.
      rewrite <- (sint_add_mul 64 (r + -1 * 2 ^ 63) 1) by lia. f_equal. lia.
    + change (shl 64 (0 mod 128) 63) with 0. by rewrite Z.lor_0_r, Z.add_0_r.
  - assert (Hs : 0 <= s <= 56) by lia.
    assert (H64 : 2 ^ 64 = 2 ^ (57 - s) * (2 ^ s * 128)).
    { replace (2 ^ s * 128) with (2 ^ (s + 7)) by (rewrite Z.pow_add_r by lia; lia).
      rewrite <- Z.pow_add_r by lia. f_equal. lia. }
    assert (H2 : 2 <= 2 ^ (57 - s)) by (change 2 with (2 ^ 1) at 1; apply Z.pow_le_mono_r; lia).
    assert (Hp : 2 ^ (s + 7) = 2 ^ s * 128) by (rewrite Z.pow_add_r by lia; lia).
    assert (HS : shl 64 (v mod 128) s = v mod 128 * 2 ^ s)
      by (unfold shl; rewrite Z.shiftl_mul_pow2 by lia; apply wrap_small; nia).
    rewrite HS, lor_high by lia. rewrite (proj2 (Z.ltb_lt (s + 7) 64)) by lia.
    cbn [andb]. destruct (Z.leb_spec 0 v).
    + rewrite (proj2 (Z.ltb_lt _ 64)) by lia. cbn [negb]. by rewrite Hm.
    + rewrite (proj2 (Z.ltb_ge _ 64)) by lia. cbn [negb].
      assert (HN : u64 (- shl 64 1 (s + 7)) = (2 ^ (57 - s) - 1) * 2 ^ (s + 7)).
      { unfold shl. rewrite Z.shiftl_mul_pow2, Z.mul_1_l by lia.
        rewrite (wrap_small 64 (2 ^ (s + 7))) by (rewrite H64, Hp; nia).
        unfold wrap. rewrite <- (Z.mod_add _ 1) by lia. rewrite Z.mod_small; rewrite ?H64, ?Hp; nia. }
      rewrite HN, lor_high by nia.
      rewrite <- (sint_add_mul 64 (r + v * 2 ^ s) 1) by lia. f_equal.
      rewrite H64, Hm, Hp. nia.
Qed.

Lemma sleb_loop_enc n h ptr end_ k v r b tail :
  host_wf h -> (n + k = 10)%nat -> (0 < n)%nat ->
  let s := 7 * Z.of_nat k in
  0 <= r < 2 ^ s -> - 2 ^ (63 - s) <= v < 2 ^ (63 - s) ->
  holds h ptr (sleb_bytes n v ++ tail) ->
  0 <= ptr -> ptr + Z.of_nat (length (sleb_bytes n v)) <= end_ < 2 ^ 64 ->
  exists res b' sh,
    sleb_loop n h ptr end_ r s b =
      Ok (res, b', sh, ptr + Z.of_nat (length (sleb_bytes n v))) /\
    sleb_sign res b' sh = i64 (r + v * 2 ^ s).
Proof.
  intros Hh. revert k ptr v r b.
  induction n as [|n IH]; intros k ptr v r b Hk Hn s Hr Hv Hl Hp He; [lia|].
  assert (Hs : 0 <= s < 64) by lia.
  pose proof (Z.mod_pos_bound v 128 ltac:(lia)) as Hm.
  pose proof (Z.div_mod v 128 ltac:(lia)) as Hdm.
  assert (Hm' : (v mod 128 + 128) mod 128 = v mod 128)
    by (rewrite <- Z.add_mod_idemp_r, Z.mod_same, Z.add_0_r, Z.mod_mod by lia; done).
  cbn [sleb_loop sleb_bytes] in *.
  destruct ((-64 <=? v) && (v <? 64)) eqn:Hc; cbn [length app] in *;
    apply holds_cons in Hl as [Hb Hl]; try done;
    rewrite (proj2 (Z.ltb_lt ptr end_)), (proj2 (Z.ltb_lt s 64)) by lia;
    cbn [andb]; rewrite Hb; cbn [rbind];
    rewrite land_7f, land_80 by (unfold byte_ok; lia).
  - to_prop. rewrite (proj2 (Z.ltb_lt _ 128)) by lia. rewrite Z.mod_mod by lia.
    rewrite padd_small by lia. eexists _, _, _. split; [done|]. apply (sleb_last r v k); [lia|done|lia|done].
  - rewrite (proj2 (Z.ltb_ge _ 128)), Hm' by lia.
    assert (Hbig : v < -64 \/ 64 <= v) by (apply andb_false_iff in Hc; lia).
    assert (Hk9 : (k < 9)%nat).
    { destruct (decide (k = 9%nat)) as [->|]; [|lia]. change (63 - s) with 0 in Hv. lia. }
    assert (HS : shl 64 (v mod 128) s = v mod 128 * 2 ^ s).
    { assert (2 ^ 64 = 2 ^ (64 - s) * 2 ^ s) by (rewrite <- Z.pow_add_r by lia; f_equal; lia).
      assert (128 <= 2 ^ (64 - s)) by (change 128 with (2 ^ 7); apply Z.pow_le_mono_r; lia).
      unfold shl. rewrite Z.shiftl_mul_pow2 by lia. apply wrap_small. nia. }
    rewrite HS, lor_high, padd_small by lia.
    assert (Hp7 : 2 ^ (s + 7) = 2 ^ s * 128) by (rewrite Z.pow_add_r by lia; lia).
    assert (Hq : 2 ^ (63 - s) = 2 ^ (63 - (s + 7)) * 128)
      by (replace (63 - s) with (63 - (s + 7) + 7) by lia; rewrite Z.pow_add_r by lia; lia).
    replace (s + 7) with (7 * Z.of_nat (S k)) in * by lia.
    destruct (IH (S k) (ptr + 1) (v / 128) (r + v mod 128 * 2 ^ s) (v mod 128 + 128))
      as (res & b' & sh & E & Es); [lia|lia|nia|nia|done|lia|lia|].
    exists res, b', sh. rewrite E, Es. split; [do 2 f_equal; lia|]. f_equal. nia.
Qed.

Abbreviation len l := (Z.of_nat (length l)).

(** The codecs, with the advanced pointer left to rewriting. *)
Lemma uleb_at h ptr end_ v tail :
  host_wf h -> 0 <= v < 2 ^ 64 -> 0 <= ptr -> holds h ptr (uleb_bytes 10 v ++ tail) ->
  ptr + len (uleb_bytes 10 v) <= end_ < 2 ^ 64 ->
  ReadULEB128 h ptr end_ = Ok (v, ptr + len (uleb_bytes 10 v)) /\
  holds h (ptr + len (uleb_bytes 10 v)) tail.
Proof.
  intros Hh Hv Hp Hl He. split; [|by apply holds_app in Hl as [_ ?]].
  pose proof (uleb_loop_enc 10 h ptr end_ 0 v 0 tail Hh eq_refl) as E. unfold ReadULEB128.
  cbn zeta in E. change (7 * Z.of_nat 0) with 0 in E. change (2 ^ 0) with 1 in E.
  rewrite E; try done; try lia. do 2 f_equal; lia.
Qed.

Lemma sleb_at h ptr end_ v tail :
  host_wf h -> - 2 ^ 63 <= v < 2 ^ 63 -> 0 <= ptr -> holds h ptr (sleb_bytes 10 v ++ tail) ->
  ptr + len (sleb_bytes 10 v) <= end_ < 2 ^ 64 ->
  ReadSLEB128 h ptr end_ = Ok (v, ptr + len (sleb_bytes 10 v)) /\
  holds h (ptr + len (sleb_bytes 10 v)) tail.
Proof.
  intros Hh Hv Hp Hl He. split; [|by apply holds_app in Hl as [_ ?]].
  destruct (sleb_loop_enc 10 h ptr end_ 0 v 0 0 tail Hh eq_refl) as (res & b & sh & E & Es);
    [lia|cbn; lia|done..|].
  unfold ReadSLEB128. change (7 * Z.of_nat 0) with 0 in *. rewrite E. cbn [rbind].
  unfold sleb_sign in Es. rewrite Es. do 2 f_equal.
  rewrite sint_small by (cbn; lia). cbn. lia.
Qed.

(** [ReadULEB128] decodes the unsigned LEB128 encoding of every 64-bit value and
    stops right behind it, whatever bytes follow. *)
Theorem ReadULEB128_roundtrip (h : host) (ptr end_ v : Z) (tail : list Z)
    (Hh : host_wf h) (Hv : 0 <= v < 2 ^ 64) (Hp : 0 <= ptr)
    (Hl : holds h ptr (uleb_bytes 10 v ++ tail))
    (He : ptr + Z.of_nat (length (uleb_bytes 10 v)) <= end_ < 2 ^ 64) :
  ReadULEB128 h ptr end_ = Ok (v, ptr + Z.of_nat (length (uleb_bytes 10 v))).
Proof. by destruct (uleb_at h ptr end_ v tail). Qed.

(** The process memory of the witnesses: one read-only mapping at 0x1000. *)
Definition page (bs : list Z) : host := [Region 0x1000 false bs].

Lemma page_wf bs : host_wf (page bs).
Proof. intros i j x y Hij Hi Hj. apply lookup_lt_Some in Hj. cbn in Hj. lia. Qed.

Lemma ReadULEB128_roundtrip_witness :
  ReadULEB128 (page [0xe5; 0x8e; 0x26; 0x7f]) 0x1000 0x1004 = Ok (624485, 0x1003).
Proof.
  exact (ReadULEB128_roundtrip (page [0xe5; 0x8e; 0x26; 0x7f]) 0x1000 0x1004 624485 [0x7f]
           (page_wf _) ltac:(lia) ltac:(lia) eq_refl ltac:(vm_compute; split; congruence)).
Defined.

(** [ReadSLEB128] decodes the signed LEB128 encoding of every [int64_t], the
    ten-byte encodings of the extreme values included. *)
Theorem ReadSLEB128_roundtrip (h : host) (ptr end_ v : Z) (tail : list Z)
    (Hh : host_wf h) (Hv : - 2 ^ 63 <= v < 2 ^ 63) (Hp : 0 <= ptr)
    (Hl : holds h ptr (sleb_bytes 10 v ++ tail))
    (He : ptr + Z.of_nat (length (sleb_bytes 10 v)) <= end_ < 2 ^ 64) :
  ReadSLEB128 h ptr end_ = Ok (v, ptr + Z.of_nat (length (sleb_bytes 10 v))).
Proof. by destruct (sleb_at h ptr end_ v tail). Qed.

Lemma ReadSLEB128_roundtrip_witness :
  ReadSLEB128 (page [0x80; 0x7f; 0x01]) 0x1000 0x1003 = Ok (-128, 0x1002).
Proof.
  exact (ReadSLEB128_roundtrip (page [0x80; 0x7f; 0x01]) 0x1000 0x1003 (-128) [0x01]
           (page_wf _) ltac:(lia) ltac:(lia) eq_refl ltac:(vm_compute; split; congruence)).
Defined.

(** * Bounds *)

Lemma lor_range w a b : 0 <= w -> 0 <= a < 2 ^ w -> 0 <= b < 2 ^ w -> 0 <= Z.lor a b < 2 ^ w.
Proof.
  intros Hw Ha Hb. replace (Z.lor a b) with (wrap w (Z.lor a b)); [by apply wrap_range|].
  bitwise i. destruct (Z.ltb_spec i w); [done|].
  cbn. by rewrite (testbit_small a w), (testbit_small b w) by lia.
Qed.

Lemma padd_range p n : 0 <= padd p n < 2 ^ 64.
Proof. by apply wrap_range. Qed.

(** The pointer moves forward, by at most ten bytes, and not behind the end. *)
Definition advances (ptr end_ q : Z) : Prop :=
  ptr <= q /\ (ptr < end_ -> ptr < q <= end_) /\ (end_ <= ptr -> q = ptr).

Lemma uleb_loop_bounds n h ptr end_ r s v q :
  0 <= r < 2 ^ 64 -> 0 <= s -> 0 <= ptr -> end_ < 2 ^ 64 ->
  uleb_loop n h ptr end_ r s = Ok (v, q) ->
  0 <= v < 2 ^ 64 /\ (s < 64 -> advances ptr end_ q) /\ ptr <= q <= Z.max ptr end_.
Proof.
  revert ptr r s. induction n as [|n IH]; intros ptr r s Hr Hs Hp He; cbn [uleb_loop];
    destruct (Z.ltb_spec ptr end_); destruct (Z.ltb_spec s 64); cbn [andb];
    try (by intros; simplify_eq; unfold advances; split_and!; lia).
  - intros H1. res_inv.
    assert (Hr' : 0 <= Z.lor r (shl 64 (Z.land v0 127) s) < 2 ^ 64)
      by (apply lor_range; [lia..|]; by apply wrap_range).
    rewrite padd_small in H1 by lia. destruct (Z.land v0 128 =? 0).
    + simplify_eq. unfold advances. split_and!; lia.
    + apply IH in H1 as (H1 & _ & H3); [|lia..]. unfold advances. split_and!; lia.
Qed.

Lemma ReadULEB128_bounds h ptr end_ v q :
  0 <= ptr -> end_ < 2 ^ 64 -> ReadULEB128 h ptr end_ = Ok (v, q) ->
  0 <= v < 2 ^ 64 /\ advances ptr end_ q.
Proof.
  intros Hp He H. apply uleb_loop_bounds in H as (H1 & H2 & _); [|lia..]. split; [done|].
  apply H2. lia.
Qed.

Lemma sleb_loop_bounds n h ptr end_ r s b res b' sh q :
  0 <= s -> 0 <= ptr -> end_ < 2 ^ 64 ->
  sleb_loop n h ptr end_ r s b = Ok (res, b', sh, q) ->
  (s < 64 -> advances ptr end_ q) /\ ptr <= q <= Z.max ptr end_.
Proof.
  revert ptr r s b. induction n as [|n IH]; intros ptr r s b Hs Hp He; cbn [sleb_loop];
    destruct (Z.ltb_spec ptr end_); destruct (Z.ltb_spec s 64); cbn [andb];
    try (by intros; simplify_eq; unfold advances; split_and!; lia).
  - intros H1. res_inv. rewrite padd_small in H1 by lia. destruct (Z.land _ 128 =? 0).
    + simplify_eq. unfold advances. split_and!; lia.
    + apply IH in H1 as (_ & H3); [|lia..]. unfold advances. split_and!; lia.
Qed.

Lemma ReadSLEB128_bounds h ptr end_ v q :
  0 <= ptr -> end_ < 2 ^ 64 -> ReadSLEB128 h ptr end_ = Ok (v, q) -> advances ptr end_ q.
Proof.
  intros Hp He H. unfold ReadSLEB128 in H. res_inv. destruct v0 as [[[res b] sh] p].
  simplify_eq. apply sleb_loop_bounds in E as [H1 _]; [|lia..]. apply H1. lia.
Qed.

(** The loops end: the shift reaches 64 after ten bytes. *)
Lemma uleb_loop_ends n h ptr end_ r s :
  64 <= s + 7 * Z.of_nat n -> ends (uleb_loop n h ptr end_ r s).
Proof.
  revert ptr r s. induction n as [|n IH]; intros ptr r s Hn; cbn [uleb_loop].
  - rewrite (proj2 (Z.ltb_ge s 64)), andb_false_r by lia. done.
  - destruct (_ && _); [|done]. ends_step. apply IH. lia.
Qed.

Lemma sleb_loop_ends n h ptr end_ r s b :
  64 <= s + 7 * Z.of_nat n -> ends (sleb_loop n h ptr end_ r s b).
Proof.
  revert ptr r s b. induction n as [|n IH]; intros ptr r s b Hn; cbn [sleb_loop].
  - rewrite (proj2 (Z.ltb_ge s 64)), andb_false_r by lia. done.
  - destruct (_ && _); [|done]. ends_step. apply IH. lia.
Qed.

Lemma ReadULEB128_ends h ptr end_ : ends (ReadULEB128 h ptr end_).
Proof. by apply uleb_loop_ends. Qed.

Lemma ReadSLEB128_ends h ptr end_ : ends (ReadSLEB128 h ptr end_).
Proof.
  unfold ReadSLEB128. apply ends_bind; [by apply sleb_loop_ends|].
  intros [[[res b] sh] q] _. done.
Qed.

#[export] Hint Resolve ReadULEB128_ends ReadSLEB128_ends : ends_db.

(** A run of [scan_nul] stays in its range. *)
Lemma scan_nul_bounds n h p q :
  0 <= p -> p + Z.of_nat n < 2 ^ 64 -> scan_nul n h p = Ok q -> p <= q <= p + Z.of_nat n.
Proof.
  revert p. induction n as [|n IH]; intros p Hp Hn H; cbn [scan_nul] in H.
  - simplify_eq. lia.
  - res_inv. destruct (v =? 0); [simplify_eq; lia|].
    rewrite padd_small in H by lia. apply IH in H; lia.
Qed.

Lemma scan_nul_ends n h p : ends (scan_nul n h p).
Proof. revert p. induction n; intros p; cbn [scan_nul]; ends_step. Qed.

#[export] Hint Resolve scan_nul_ends : ends_db.

(** No number read as ULEB128 between [lo] and [hi] reaches 2^63. *)
Definition lengths_ok (h : host) (lo hi : Z) : Prop :=
  forall q e v r, lo <= q < e -> e <= hi -> ReadULEB128 h q e = Ok (v, r) -> v < 2 ^ 63.

Definition lengths_okb (h : host) (lo : Z) (n : nat) : bool :=
  forallb (fun q => forallb (fun e =>
    match ReadULEB128 h q e with Ok (v, _) => v <? 2 ^ 63 | _ => true end)
    (seqZ lo (Z.of_nat (S n)))) (seqZ lo (Z.of_nat (S n))).

Lemma lengths_okb_ok h lo n : lengths_okb h lo n = true -> lengths_ok h lo (lo + Z.of_nat n).
Proof.
  unfold lengths_okb. rewrite forallb_forall. intros H q e v r Hq He E.
  specialize (H q). rewrite <- list_elem_of_In, elem_of_seqZ, forallb_forall in H.
  specialize (H ltac:(lia) e). rewrite <- list_elem_of_In, elem_of_seqZ in H.
  specialize (H ltac:(lia)). rewrite E in H. by apply Z.ltb_lt.
Qed.

Lemma lengths_ok_sub h lo hi lo' hi' :
  lengths_ok h lo hi -> lo <= lo' -> hi' <= hi -> lengths_ok h lo' hi'.
Proof. intros H ? ? q e v r ? ?. apply H; lia. Qed.

Section AttrBounds.
Context (h : host) (d : DwarfLoader) (end_ addr_size : Z) (dwarf64 : bool).
Context (base : Z) (ov os : bool).
Context (Hb : host_bytes h) (Hend : end_ < 2 ^ 62) (Hsize : 0 <= addr_size < 256).

Definition within (ptr : Z) (r : option AttrValue) : Prop :=
  forall av, r = Some av -> ptr <= av_ptr av <= end_.

Lemma within_skip ptr n r :
  0 <= ptr < end_ -> 0 <= n < 2 ^ 62 -> skip_bytes end_ ptr n = Ok r -> within ptr r.
Proof.
  intros Hp Hn. unfold skip_bytes. rewrite padd_small by lia.
  destruct (Z.ltb_spec end_ (ptr + n)); intros H'; unfold attr_end in H'; simplify_eq;
    intros av Hav; simplify_eq; cbn; lia.
Qed.

Lemma within_fixed ptr n r :
  0 <= ptr < end_ -> 0 <= n < 2 ^ 62 -> read_fixed h end_ ov ptr n = Ok r -> within ptr r.
Proof.
  intros Hp Hn. unfold read_fixed. rewrite padd_small by lia.
  destruct (Z.ltb_spec end_ (ptr + n)); [by intros; simplify_eq|].
  unfold attr_end. destruct ov; intros H'; res_inv; intros av Hav; simplify_eq; cbn; lia.
Qed.

Lemma within_strx_index ptr q idx r :
  ptr <= q <= end_ -> strx_index h d dwarf64 base os q idx = Ok r -> within ptr r.
Proof.
  intros Hq. unfold strx_index, attr_end. destruct os; intros H'; res_inv; intros av Hav;
    simplify_eq; cbn; lia.
Qed.

Lemma within_strx ptr n r :
  0 <= ptr < end_ -> 0 <= n < 2 ^ 62 ->
  read_strx h d end_ dwarf64 base os ptr n = Ok r -> within ptr r.
Proof.
  intros Hp Hn. unfold read_strx. rewrite padd_small by lia.
  destruct (Z.ltb_spec end_ (ptr + n)); [by intros; simplify_eq|].
  intros H'. res_inv. by eapply within_strx_index; [|exact H']; lia.
Qed.

Lemma within_block ptr q len r :
  ptr <= q <= end_ -> 0 <= ptr -> 0 <= len <= 2 ^ 63 ->
  read_block h end_ ov q len = Ok r -> within ptr r.
Proof.
  intros Hq Hp Hlen. unfold read_block. rewrite padd_small by lia.
  destruct (Z.ltb_spec end_ (q + len)); [by intros; simplify_eq|].
  intros H'. res_inv. intros av Hav. simplify_eq. cbn. lia.
Qed.

Lemma within_block_n ptr n r :
  0 <= ptr < end_ -> 0 <= n <= 4 -> read_block_n h end_ ov ptr n = Ok r -> within ptr r.
Proof.
  intros Hp Hn. unfold read_block_n. rewrite padd_small by lia.
  destruct (Z.ltb_spec end_ (ptr + n)); [by intros; simplify_eq|].
  intros H'. res_inv. apply host_word_range in E; [|done|lia].
  assert (2 ^ (8 * n) <= 2 ^ 32) by (apply Z.pow_le_mono_r; lia).
  by eapply within_block; [..|exact H']; lia.
Qed.

Lemma within_addr ptr r :
  0 <= ptr < end_ -> read_addr h end_ addr_size ov ptr = Ok r -> within ptr r.
Proof.
  intros Hp. unfold read_addr, attr_end. rewrite padd_small by lia.
  destruct (Z.ltb_spec end_ (ptr + addr_size)); [by intros; simplify_eq|].
  destruct ov; [destruct (8 <? addr_size); [done|]|];
    intros H'; res_inv; intros av Hav; simplify_eq; cbn; lia.
Qed.

Lemma within_string ptr r :
  0 <= ptr < end_ -> read_string h end_ os ptr = Ok r -> within ptr r.
Proof.
  intros Hp H'. unfold read_string in H'. res_inv. apply scan_nul_bounds in E; [|lia..].
  destruct (Z.leb_spec end_ v); [by simplify_eq|]. rewrite padd_small in H' by lia.
  res_inv. intros av Hav. simplify_eq. cbn. lia.
Qed.

Lemma within_strp ptr form r :
  0 <= ptr < end_ -> read_strp h d end_ dwarf64 os form ptr = Ok r -> within ptr r.
Proof.
  intros Hp H'. unfold read_strp in H'.
  assert (Hn : 0 <= entry_size dwarf64 <= 8) by (destruct dwarf64; cbn; lia).
  rewrite padd_small in H' by lia.
  destruct (Z.ltb_spec end_ (ptr + entry_size dwarf64)); [by simplify_eq|].
  res_inv. intros av Hav. simplify_eq. cbn. lia.
Qed.

End AttrBounds.

(** C22: [ReadAttrValue] never leaves the unit: for every attribute form it returns
    [nullptr] or a pointer between [ptr] and [end], provided no ULEB128 block length in
    the unit reaches 2^63 (the sum [ptr + len] would wrap). *)
Theorem ReadAttrValue_bounds h d end_ addr_size dwarf64 base ov os fuel ptr form av
    (Hb : host_bytes h) (Hend : end_ < 2 ^ 62) (Hsize : 0 <= addr_size < 256)
    (Hp : 0 <= ptr) (Hlen : lengths_ok h ptr end_)
    (H : ReadAttrValue h d end_ addr_size dwarf64 base ov os fuel ptr form = Ok (Some av)) :
  ptr < end_ /\ ptr <= av_ptr av <= end_.
Proof.
  revert ptr form Hp Hlen H. induction fuel as [|fuel IH]; intros ptr form Hp Hlen;
    cbn [ReadAttrValue]; destruct (Z.eqb_spec ptr 0); cbn [orb]; try done;
    destruct (Z.leb_spec end_ ptr); try done; intros H'; (split; [done|]); revert H'; cbn zeta.
  all: repeat match goal with
    | |- (if ?b then _ else _) = _ -> _ => destruct b
    end; intros H'; try done;
    lazymatch goal with
    | H' : read_addr _ _ _ _ _ = _ |- _ => by eapply within_addr in H'; [apply H'|..]
    | H' : read_fixed _ _ _ _ (entry_size _) = _ |- _ =>
        eapply within_fixed in H'; [by apply H'|lia..|destruct dwarf64; cbn; lia]
    | H' : read_fixed _ _ _ _ _ = _ |- _ =>
        eapply within_fixed in H'; [by apply H'|lia..]
    | H' : skip_bytes _ _ _ = _ |- _ => eapply within_skip in H'; [by apply H'|lia..]
    | H' : read_strx _ _ _ _ _ _ _ _ = _ |- _ =>
        eapply within_strx in H'; [by apply H'|lia..]
    | H' : read_string _ _ _ _ = _ |- _ => eapply within_string in H'; [by apply H'|lia..]
    | H' : read_strp _ _ _ _ _ _ _ = _ |- _ => eapply within_strp in H'; [by apply H'|lia..]
    | H' : read_block_n _ _ _ _ _ = _ |- _ =>
        eapply within_block_n in H'; [by apply H'|done|lia..]
    | H' : rbind (ReadULEB128 _ _ _) _ = _ |- _ =>
        apply rbind_Ok_inv in H' as ([v q] & E & H'); cbn [fst snd] in H';
        pose proof (Hlen ptr end_ v q ltac:(lia) ltac:(lia) E) as Hv;
        apply ReadULEB128_bounds in E as (Hv0 & Ha & Hq & _); [|lia..];
        specialize (Hq ltac:(lia));
        lazymatch type of H' with
        | read_block _ _ _ _ _ = _ =>
            eapply within_block in H'; [by apply H'|done|lia..]
        | strx_index _ _ _ _ _ _ _ = _ =>
            by eapply within_strx_index in H'; [apply H'|lia]
        | ReadAttrValue _ _ _ _ _ _ _ _ _ _ _ = _ =>
            apply IH in H' as [_ H']; [lia|lia|by apply (lengths_ok_sub _ _ _ _ _ Hlen); lia]
        | _ => unfold attr_end in H'; simplify_eq; cbn; lia
        end
    | H' : rbind (ReadSLEB128 _ _ _) _ = _ |- _ =>
        apply rbind_Ok_inv in H' as ([v q] & E & H');
        apply ReadSLEB128_bounds in E as (_ & Hq & _); [|lia..];
        specialize (Hq ltac:(lia)); simplify_eq; cbn; lia
    | _ => unfold attr_end in H'; simplify_eq; cbn; lia
    end.
Qed.

Lemma ReadAttrValue_bounds_witness :
  let h := page [0x02; 0x23; 0x08; 0x7f] in
  ReadAttrValue h new_DwarfLoader 0x1004 8 false 0 true true 0 0x1000 DW_FORM_exprloc =
    Ok (Some {| av_ptr := 0x1003; av_value := Some 8; av_str := None |}) /\
  0x1000 < 0x1004 /\ 0x1000 <= 0x1003 <= 0x1004.
Proof.
  intros h. assert (E : ReadAttrValue h new_DwarfLoader 0x1004 8 false 0 true true 0 0x1000
    DW_FORM_exprloc = Ok (Some {| av_ptr := 0x1003; av_value := Some 8; av_str := None |}))
    by (vm_compute; reflexivity).
  split; [exact E|].
  apply (ReadAttrValue_bounds h new_DwarfLoader 0x1004 8 false 0 true true 0 0x1000
           DW_FORM_exprloc {| av_ptr := 0x1003; av_value := Some 8; av_str := None |});
    [|lia..| |exact E].
  - by apply host_bytes_check.
  - apply (lengths_okb_ok h 0x1000 4). vm_compute. reflexivity.
Defined.

(** * Termination *)

Lemma ends_debug_str h d off : ends (GetDebugStr h d off).
Proof. unfold GetDebugStr. ends_step. Qed.
#[export] Hint Resolve ends_debug_str : ends_db.
Lemma ends_debug_strx h d i b w : ends (GetDebugStrX h d i b w).
Proof. unfold GetDebugStrX. ends_step. Qed.
Lemma ends_exprloc h p n : ends (ParseExprloc h p n).
Proof. unfold ParseExprloc. cbn zeta. ends_step. Qed.
Lemma ends_set_str h s : ends (set_str h s).
Proof. unfold set_str. ends_step. Qed.
#[export] Hint Resolve ends_debug_strx ends_exprloc ends_set_str : ends_db.
Lemma ends_skip e p n : ends (skip_bytes e p n).
Proof. unfold skip_bytes, attr_end. ends_step. Qed.
Lemma ends_fixed h e o p n : ends (read_fixed h e o p n).
Proof. unfold read_fixed, attr_end. ends_step. Qed.
Lemma ends_strx_index h d w b o p i : ends (strx_index h d w b o p i).
Proof. unfold strx_index, attr_end. ends_step. Qed.
#[export] Hint Resolve ends_strx_index : ends_db.
Lemma ends_strx h d e w b o p n : ends (read_strx h d e w b o p n).
Proof. unfold read_strx. ends_step. Qed.
Lemma ends_block h e o p n : ends (read_block h e o p n).
Proof. unfold read_block. ends_step. Qed.
#[export] Hint Resolve ends_block : ends_db.
Lemma ends_block_n h e o p n : ends (read_block_n h e o p n).
Proof. unfold read_block_n. ends_step. Qed.
Lemma ends_addr h e a o p : ends (read_addr h e a o p).
Proof. unfold read_addr, attr_end. ends_step. Qed.
Lemma ends_string h e o p : ends (read_string h e o p).
Proof. unfold read_string. ends_step. Qed.
Lemma ends_strp h d e w o f p : ends (read_strp h d e w o f p).
Proof. unfold read_strp. ends_step. Qed.
#[export] Hint Resolve ends_skip ends_fixed ends_strx ends_block_n ends_addr ends_string
  ends_strp : ends_db.

(** Every [DW_FORM_indirect] consumes a byte. *)
Lemma ReadAttrValue_ends h d end_ asz w base ov os fuel ptr form :
  0 <= ptr -> end_ < 2 ^ 64 -> end_ - ptr <= Z.of_nat fuel ->
  ends (ReadAttrValue h d end_ asz w base ov os fuel ptr form).
Proof.
  intros Hp He. revert ptr form Hp.
  induction fuel as [|fuel IH]; intros ptr form Hp Hf; cbn [ReadAttrValue];
    destruct (Z.eqb_spec ptr 0); cbn [orb]; try done;
    destruct (Z.leb_spec end_ ptr); try done; try lia; cbn zeta; unfold attr_end.
  repeat match goal with |- ends (if ?b then _ else _) => destruct b end;
    auto with ends_db; apply ends_bind; auto with ends_db.
  intros [v q] E. apply ReadULEB128_bounds in E as (_ & _ & Hq & _); [|lia..].
  apply IH; cbn; lia.
Qed.

Lemma read_attrs_ends h d end_ asz w base fuel l ptr a :
  host_bytes h -> 0 <= ptr -> end_ < 2 ^ 62 -> 0 <= asz < 256 -> lengths_ok h ptr end_ ->
  end_ - ptr <= Z.of_nat fuel ->
  ends (read_attrs fuel h d end_ asz w base l ptr a).
Proof.
  intros Hb Hp He Hs. revert ptr a Hp.
  induction l as [|spec l IH]; intros ptr a Hp Hl Hf; cbn [read_attrs]; [done|].
  destruct (_ =? _); [by apply IH|]. apply ends_bind; [by apply ReadAttrValue_ends; lia|].
  intros [av|] E; [|done]. destruct (_ =? 0); [done|].
  apply ReadAttrValue_bounds in E; [|done..].
  apply IH; [lia| |lia]. apply (lengths_ok_sub _ _ _ _ _ Hl); lia.
Qed.

Lemma read_attrs_bounds h d end_ asz w base fuel l ptr a q a' :
  host_bytes h -> 0 <= ptr <= end_ -> end_ < 2 ^ 62 -> 0 <= asz < 256 ->
  lengths_ok h ptr end_ ->
  read_attrs fuel h d end_ asz w base l ptr a = Ok (Some (q, a')) -> ptr <= q <= end_.
Proof.
  intros Hb Hp He Hs. revert ptr a Hp.
  induction l as [|spec l IH]; intros ptr a Hp Hl; cbn [read_attrs]; [intros; simplify_eq; lia|].
  destruct (_ =? _); [by apply IH|]. intros H. res_inv. destruct v as [av|]; [|done].
  destruct (_ =? 0); [done|].
  apply ReadAttrValue_bounds in E; [|done..|lia|done].
  apply IH in H; [lia|lia|]. apply (lengths_ok_sub _ _ _ _ _ Hl); lia.
Qed.

Lemma on_part_ends {S T A} (v : S -> T) u (m : T -> result (T * A)) s :
  ends (m (v s)) -> ends_from (on_part v u m) s.
Proof. unfold ends_from, on_part, ends. by destruct (m (v s)) as [[]| | |]. Qed.

Lemma ends_update idx f d : (forall s, ends (f s)) -> ends (update_struct idx f d).
Proof. intros Hf. unfold update_struct. ends_step. Qed.

Lemma ends_append idx b f ref d : ends (append_item idx b f ref d).
Proof.
  unfold append_item. cbn zeta. apply ends_bind; [by apply ends_update|]. intros. ends_step.
Qed.
#[export] Hint Resolve ends_append : ends_db.

Lemma ends_die_tag tag ch off ref a sc d : ends (die_tag tag ch off ref a sc d).
Proof. unfold die_tag, die_member, die_base. ends_step. Qed.

(** The entry at [ptr] and the recursion behind it: [ParseDIETree] ends. *)
Lemma die_loop_ends fuel h end_ asz w table base cu ptr sc d :
  host_bytes h -> 0 <= ptr -> end_ < 2 ^ 62 -> 0 <= asz < 256 -> lengths_ok h ptr end_ ->
  end_ - ptr <= Z.of_nat fuel ->
  ends_from (die_loop fuel h end_ asz w table base cu ptr sc) d.
Proof.
  intros Hb Hp He Hs. revert ptr sc d Hp.
  induction fuel as [|fuel IH]; intros ptr sc d Hp Hl Hf; cbn [die_loop];
    destruct (Z.ltb_spec ptr end_); try done; [lia|].
  apply ends_pbind; [done|]. intros d1 d' Hd. injection Hd as <- <-. cbn zeta.
  apply ends_pbind; [apply ends_lift; auto with ends_db|].
  intros d1 [c q] [-> E]%lift_Ok_inv. cbn [fst snd].
  apply ReadULEB128_bounds in E as (_ & _ & Hq & _); [|lia..]. specialize (Hq ltac:(lia)).
  assert (Hl' : lengths_ok h q end_) by (apply (lengths_ok_sub _ _ _ _ _ Hl); lia).
  destruct (c =? 0).
  { destruct (stk sc) as [|[ns idx] rest]; [done|]. apply IH; [lia|done|lia]. }
  destruct (table !! u32 c) as [entry|]; [|done].
  apply ends_pbind; [apply ends_lift, read_attrs_ends; (done || lia)|].
  intros d1 [[p a]|] [-> E]%lift_Ok_inv; [|done].
  apply read_attrs_bounds in E; [|done || lia..].
  apply ends_pbind; [apply on_part_ends, ends_die_tag|]. intros d1 sc' _.
  apply IH; [lia| |lia]. apply (lengths_ok_sub _ _ _ _ _ Hl'); lia.
Qed.

Lemma peek_base_ends h d end_ asz w fuel l ptr :
  host_bytes h -> 0 <= ptr -> end_ < 2 ^ 62 -> 0 <= asz < 256 -> lengths_ok h ptr end_ ->
  end_ - ptr <= Z.of_nat fuel ->
  ends (peek_base fuel h d end_ asz w l ptr).
Proof.
  intros Hb Hp He Hs. revert ptr Hp.
  induction l as [|spec l IH]; intros ptr Hp Hl Hf; cbn [peek_base]; [done|]. cbn zeta.
  destruct (_ =? _); [destruct (_ =? _); [done|by apply IH]|].
  apply ends_bind; [by apply ReadAttrValue_ends; lia|].
  intros [av|] E; [|done]. destruct (_ =? 0); [done|]. destruct (_ =? _); [done|].
  apply ReadAttrValue_bounds in E; [|done..].
  apply IH; [lia| |lia]. apply (lengths_ok_sub _ _ _ _ _ Hl); lia.
Qed.

Lemma unit_extent_ends h ptr end_ : ends (unit_extent h ptr end_).
Proof. unfold unit_extent. cbn zeta. ends_step. Qed.

Lemma unit_fields_ends h ptr e w : ends (unit_fields h ptr e w).
Proof. unfold unit_fields. cbn zeta. ends_step. Qed.

Lemma unit_extent_bounds h ptr end_ p cu_end w :
  0 <= ptr -> end_ < 2 ^ 62 -> ptr < end_ ->
  unit_extent h ptr end_ = Ok (Some (p, cu_end, w)) -> ptr < p < 2 ^ 63.
Proof.
  intros Hp He Hlt. unfold unit_extent. cbn zeta. rewrite (padd_small ptr 4) by lia.
  destruct (end_ <? ptr + 4); [done|]. intros H. res_inv. destruct (_ =? _).
  - destruct (_ <? _); [done|]. res_inv. rewrite (padd_small (ptr + 4)) in H by lia.
    injection H as <- <- <-. lia.
  - injection H as <- <- <-. lia.
Qed.

Lemma unit_fields_bounds h ptr cu_end w u :
  host_bytes h -> 0 <= ptr -> cu_end < 2 ^ 62 -> ptr < 2 ^ 63 ->
  unit_fields h ptr cu_end w = Ok (Some u) ->
  ptr < uh_ptr u <= cu_end /\ 0 <= uh_addr_size u < 256.
Proof.
  intros Hb Hp Hc Hp'. unfold unit_fields. cbn zeta. rewrite (padd_small ptr 2) by lia.
  assert (Hn : 0 <= entry_size w <= 8) by (destruct w; cbn; lia).
  destruct (Z.ltb_spec cu_end (ptr + 2)); [done|]. intros H'. res_inv.
  destruct (5 <=? v).
  - rewrite !(padd_small (ptr + 2)) in H' by lia.
    destruct (Z.ltb_spec cu_end (ptr + 2 + 2)); [done|]. res_inv.
    destruct (negb _); [done|]. rewrite !padd_small in H' by lia.
    destruct (Z.ltb_spec cu_end (ptr + 2 + 2 + entry_size w)); [done|]. res_inv.
    injection H' as <-. cbn. apply host_word_range in E1; [|done|lia]. lia.
  - rewrite !padd_small in H' by lia.
    destruct (Z.ltb_spec cu_end (ptr + 2 + entry_size w)); [done|]. res_inv.
    destruct (Z.ltb_spec cu_end (ptr + 2 + entry_size w + 1)); [done|]. res_inv.
    injection H' as <-. cbn. apply host_word_range in E1; [|done|lia]. lia.
Qed.

Lemma ParseCompileUnit_ends fuel h ptr end_ d :
  host_bytes h -> 0 <= ptr < end_ -> end_ < 2 ^ 62 -> lengths_ok h ptr end_ ->
  end_ - ptr <= Z.of_nat fuel + 1 ->
  ends_from (ParseCompileUnit fuel h ptr end_) d.
Proof.
  intros Hb Hp He Hl Hf. unfold ParseCompileUnit.
  apply ends_pbind; [apply ends_lift, unit_extent_ends|].
  intros d1 [[[p cu_end] w]|] [-> E]%lift_Ok_inv; [|done].
  apply unit_extent_bounds in E; [|lia..].
  destruct (Z.ltb_spec end_ cu_end); [done|].
  apply ends_pbind; [apply ends_lift, unit_fields_ends|].
  intros d1 [u|] [-> Eu]%lift_Ok_inv; [|done].
  apply unit_fields_bounds in Eu as [Hu Hs]; [|done || lia..].
  apply ends_pbind; [done|]. intros d1 d' Hd. injection Hd as <- <-.
  destruct (_ !! _) as [table|]; [|done].
  assert (Hl' : lengths_ok h (uh_ptr u) cu_end) by (apply (lengths_ok_sub _ _ _ _ _ Hl); lia).
  apply ends_pbind.
  { apply ends_lift. unfold read_base. apply ends_bind; [auto with ends_db|].
    intros [c q] E'. apply ReadULEB128_bounds in E' as (_ & Hq & _); [|lia..].
    destruct (table !! _); [|done]. apply peek_base_ends; cbn; try done; try lia.
    apply (lengths_ok_sub _ _ _ _ _ Hl'); lia. }
  intros d1 base _. apply ends_pbind; [|done].
  apply die_loop_ends; (done || lia).
Qed.

Lemma ParseCompileUnit_next fuel h ptr end_ d d' next :
  ParseCompileUnit fuel h ptr end_ d = (d', Ok (Some next)) -> next <= end_.
Proof.
  unfold ParseCompileUnit. intros (d1 & ext & _ & H)%pbind_Ok_inv.
  destruct ext as [[[p cu_end] w]|]; [|done].
  destruct (Z.ltb_spec end_ cu_end); [done|].
  assert (Hn : next = cu_end); [|lia].
  apply pbind_Ok_inv in H as (d2 & hdr & _ & H). destruct hdr as [u|]; [|by injection H].
  apply pbind_Ok_inv in H as (d3 & x & _ & H).
  destruct (_ !! _); [|by injection H].
  apply pbind_Ok_inv in H as (d4 & y & _ & H).
  apply pbind_Ok_inv in H as (d5 & z & _ & H). by injection H.
Qed.

Lemma unit_loop_ends fuel h ptr end_ d :
  host_bytes h -> 0 <= ptr -> end_ < 2 ^ 62 -> lengths_ok h ptr end_ ->
  end_ - ptr <= Z.of_nat fuel ->
  ends_from (unit_loop fuel h ptr end_) d.
Proof.
  intros Hb Hp He. revert ptr d Hp.
  induction fuel as [|fuel IH]; intros ptr d Hp Hl Hf; cbn [unit_loop];
    destruct (Z.ltb_spec ptr end_); try done; [lia|].
  apply ends_pbind; [apply ParseCompileUnit_ends; [done|lia|done|done|lia]|].
  intros d1 [next|] E; [|done]. apply ParseCompileUnit_next in E.
  destruct (Z.eqb_spec next 0); [done|]. destruct (Z.leb_spec next ptr); [done|].
  cbn [orb]. apply IH; [lia| |lia]. apply (lengths_ok_sub _ _ _ _ _ Hl); lia.
Qed.

Lemma resolve_refs_ends l d : ends (resolve_refs l d).
Proof.
  revert d. induction l as [|p l IH]; intros d; cbn [resolve_refs]; [done|].
  apply ends_bind; [|auto]. unfold resolve_ref. cbn zeta.
  destruct (_ =? 0); [done|]. destruct (bool_decide _); [done|].
  apply ends_update. intros s. unfold set_type_name. ends_step.
Qed.

(** C23: parsing the .debug_info section ends on every content in which no ULEB128
    number reaches 2^63: each unit, each entry and each nested form consumes a byte, so
    fuel for the size of the section is enough. *)
Theorem ParseInfoSection_terminates (fuel : nat) (h : host) (d : DwarfLoader)
    (Hb : host_bytes h) (Hdata : 0 <= sec_data (debug_info d))
    (Hsize : 0 <= sec_size (debug_info d))
    (Hend : sec_data (debug_info d) + sec_size (debug_info d) < 2 ^ 62)
    (Hl : lengths_ok h (sec_data (debug_info d))
            (sec_data (debug_info d) + sec_size (debug_info d)))
    (Hf : sec_size (debug_info d) <= Z.of_nat fuel) :
  snd (ParseInfoSection fuel h d) <> OutOfFuel.
Proof.
  unfold ParseInfoSection. apply ends_pbind; [done|]. intros d1 d' Hd. injection Hd as <- <-.
  destruct (debug_info d) as [data size]. cbn [sec_data sec_size] in *.
  destruct (data =? 0); [done|]. rewrite padd_small by lia.
  apply ends_pbind; [apply unit_loop_ends; (done || lia)|]. intros d1 x _.
  apply on_part_ends. apply ends_bind; [apply resolve_refs_ends|done].
Qed.

(** A library with one abbreviation (a variable with a location block) and one unit with
    one such entry. *)
Definition demo_abbrev : list Z := [0x01; 0x34; 0x00; 0x02; 0x09; 0x00; 0x00; 0x00].
Definition demo_unit (block : list Z) : list Z :=
  le_bytes 4 (8 + Z.of_nat (length block)) ++ [0x04; 0x00; 0; 0; 0; 0; 0x08; 0x01] ++ block.
Definition demo_host (block : list Z) : host :=
  [Region 0x1000 false demo_abbrev; Region 0x2000 false (demo_unit block)].
Definition demo_loader (block : list Z) : DwarfLoader :=
  with_sections {| sec_data := 0x1000; sec_size := 8 |}
    {| sec_data := 0x2000; sec_size := Z.of_nat (length (demo_unit block)) |}
    no_section no_section new_DwarfLoader.
(** After [ParseAbbrevSection]. *)
Definition demo_parsed (block : list Z) : DwarfLoader :=
  fst (ParseAbbrevSection 8 (demo_host block) (demo_loader block)).

Lemma ParseInfoSection_terminates_witness :
  let block := [0x02; 0x23; 0x08] in
  snd (ParseInfoSection 15 (demo_host block) (demo_parsed block)) <> OutOfFuel.
Proof.
  intros block. apply ParseInfoSection_terminates.
  - by apply host_bytes_check.
  - by vm_compute.
  - by vm_compute.
  - by vm_compute.
  - apply (lengths_okb_ok (demo_host block) 0x2000 15). vm_compute. reflexivity.
  - by vm_compute.
Defined.

(** A block length of 2^64 - 11, in ten bytes, and one more byte. *)
Definition wrap_block : list Z :=
  [0xf5; 0xff; 0xff; 0xff; 0xff; 0xff; 0xff; 0xff; 0xff; 0x01; 0x00].

Definition wrap_table : AbbrevTable :=
  {[ 1 := {| ab_code := 1; ab_tag := 0x34; has_children := false;
             attrs := [{| as_name := 0x02; as_form := 0x09; implicit_const := 0 |}] |} ]}.

(** The entry's end is its own start. *)
Lemma wrap_entry_again n sc d : exists d',
  die_loop n (demo_host wrap_block) 0x2017 8 false wrap_table 0 0 0x200b sc d
  = (d', OutOfFuel).
Proof.
  revert sc d. induction n as [|n IH]; intros sc d; [by eexists|].
  cbn [die_loop]. change (0x200b <? 0x2017) with true. cbv iota.
  erewrite (pbind_Ok get) by reflexivity. cbv zeta.
  erewrite pbind_lift by (vm_compute; reflexivity). cbn [fst snd].
  change (1 =? 0) with false. cbv iota.
  change (wrap_table !! u32 1) with (Some {| ab_code := 1; ab_tag := 0x34;
    has_children := false;
    attrs := [{| as_name := 0x02; as_form := 0x09; implicit_const := 0 |}] |}).
  cbv iota. erewrite pbind_lift by (destruct n; vm_compute; reflexivity). cbv iota.
  assert (Ht : die_tag 0x34 false (u64 (0x200b - sec_data (debug_info d)))
    (abs_type_ref 0 no_attrs) no_attrs sc d = Ok (d, sc)) by reflexivity.
  erewrite pbind_Ok; [apply IH|]. unfold on_part. cbn [ab_tag has_children id].
  exact (f_equal (fun r => match r with Ok (t, a) => (t, Ok a) | Throw p => (d, Throw p)
    | Fault => (d, Fault) | OutOfFuel => (d, OutOfFuel) end) Ht).
Qed.

(** On a unit whose entry holds a block of 2^64 - 11 bytes the test
    [ptr + len > end] wraps, the entry's end is its own start, and [ParseDIETree] reads
    it for ever. *)
Theorem ParseInfoSection_diverges (fuel : nat) :
  snd (ParseAbbrevSection 8 (demo_host wrap_block) (demo_loader wrap_block)) = Ok tt /\
  snd (ParseInfoSection fuel (demo_host wrap_block) (demo_parsed wrap_block)) = OutOfFuel.
Proof.
  split; [by vm_compute|]. pose proof wrap_entry_again as Hdie.
  unfold ParseInfoSection. set (d0 := demo_parsed wrap_block).
  assert (Hu : exists d', unit_loop fuel (demo_host wrap_block) 0x2000 0x2017 d0
                          = (d', OutOfFuel)).
  { destruct fuel as [|n]; [by eexists|]. cbn [unit_loop].
    change (0x2000 <? 0x2017) with true. cbv iota.
    assert (exists d', ParseCompileUnit n (demo_host wrap_block) 0x2000 0x2017 d0
                       = (d', OutOfFuel)) as [d' E]; [|exists d'; by unfold pbind; rewrite E].
    unfold ParseCompileUnit.
    erewrite pbind_lift by (vm_compute; reflexivity). cbv beta iota.
    change (0x2017 <? 0x2017) with false. cbv iota.
    erewrite pbind_lift by (vm_compute; reflexivity). cbv beta iota.
    erewrite (pbind_Ok get) by reflexivity.
    assert (El : abbrev_map_ d0 !! 0 = Some wrap_table) by (vm_compute; reflexivity).
    cbn [uh_abbrev_offset uh_addr_size uh_ptr]. rewrite El.
    erewrite pbind_lift by (destruct n; vm_compute; reflexivity).
    change (sec_data (debug_info d0)) with 0x2000.
    destruct (Hdie n {| stk := []; cur_ns := []; cur_struct_idx := kNoStruct |} d0)
      as [d' E].
    exists d'. unfold ParseDIETree, pbind. change (u64 (0x2000 - 0x2000)) with 0.
    by rewrite E. }
  destruct Hu as [d' E]. erewrite (pbind_Ok get) by reflexivity.
  change (debug_info d0) with {| sec_data := 0x2000; sec_size := 23 |}. cbv beta iota.
  change (0x2000 =? 0) with false. cbv iota. change (padd 0x2000 23) with 0x2017.
  unfold pbind. by rewrite E.
Qed.

(** * Abbreviation tables *)

Lemma specs_loop_ends fuel h ptr end_ acc :
  0 <= ptr -> end_ < 2 ^ 64 -> end_ - ptr <= Z.of_nat fuel ->
  ends (specs_loop fuel h ptr end_ acc) /\
  forall l q, specs_loop fuel h ptr end_ acc = Ok (l, q) -> ptr <= q <= Z.max ptr end_.
Proof.
  intros Hp He. revert ptr acc Hp.
  induction fuel as [|fuel IH]; intros ptr acc Hp Hf; cbn [specs_loop];
    destruct (Z.ltb_spec ptr end_); [lia| | |];
    try (split; [done|intros; simplify_eq; lia]).
  assert (Hstep : forall n f c,
    ReadULEB128 h ptr end_ = Ok n -> ReadULEB128 h (snd n) end_ = Ok f ->
    (if u32 (fst f) =? DW_FORM_implicit_const then ReadSLEB128 h (snd f) end_
     else Ok (0, snd f)) = Ok c -> ptr < snd n <= snd f /\ snd f <= snd c <= end_).
  { intros [n p] [f q] [c r] En Ef Ec. cbn [fst snd] in *.
    apply ReadULEB128_bounds in En as (_ & _ & Hn & _); [|lia..].
    apply ReadULEB128_bounds in Ef as (_ & Hf1 & Hf2 & Hf3); [|lia..].
    destruct (_ =? _).
    - apply ReadSLEB128_bounds in Ec as (Hc1 & Hc2 & Hc3); [|lia..]. lia.
    - simplify_eq. lia. }
  split.
  - apply ends_bind; [auto with ends_db|]. intros n En.
    apply ends_bind; [auto with ends_db|]. intros f Ef. cbn zeta.
    destruct (_ && _); [done|].
    apply ends_bind; [destruct (_ =? _); auto with ends_db|]. intros c Ec.
    destruct (Hstep _ _ _ En Ef Ec). apply IH; lia.
  - intros l q H'. res_inv. cbn zeta in H'.
    destruct (_ && _) eqn:Hz.
    { simplify_eq. destruct v as [n p], v0 as [f q]. cbn [fst snd] in *.
      apply ReadULEB128_bounds in E as (_ & _ & Hn & _); [|lia..].
      apply ReadULEB128_bounds in E0 as (_ & Hf1 & Hf2 & Hf3); [|lia..]. lia. }
    res_inv. destruct (Hstep _ _ _ E E0 E1). apply IH in H'; lia.
Qed.

Lemma abbrev_loop_ends fuel h ptr end_ table :
  0 <= ptr -> end_ < 2 ^ 64 -> end_ - ptr <= Z.of_nat fuel ->
  ends (abbrev_loop fuel h ptr end_ table).
Proof.
  intros Hp He. revert ptr table Hp.
  induction fuel as [|fuel IH]; intros ptr table Hp Hf; cbn [abbrev_loop];
    destruct (Z.ltb_spec ptr end_); try done; [lia|].
  apply ends_bind; [auto with ends_db|]. intros [c p] Ec. cbn [fst snd].
  apply ReadULEB128_bounds in Ec as (_ & _ & Hc & _); [|lia..].
  destruct (c =? 0); [done|].
  apply ends_bind; [auto with ends_db|]. intros [t q] Et. cbn [fst snd].
  apply ReadULEB128_bounds in Et as (_ & Ht & _); [|lia..].
  destruct (Z.leb_spec end_ q); [done|]. rewrite padd_small by lia.
  apply ends_bind; [auto with ends_db|]. intros b _.
  destruct (specs_loop_ends fuel h (q + 1) end_ []) as [Hs Hb]; [lia..|].
  apply ends_bind; [done|]. intros [l r] El. apply Hb in El. cbn [fst snd].
  apply IH; lia.
Qed.

(** Parsing the .debug_abbrev section ends on every content. *)
Theorem ParseAbbrevSection_terminates (fuel : nat) (h : host) (d : DwarfLoader)
    (Hdata : 0 <= sec_data (debug_abbrev d)) (Hsize : 0 <= sec_size (debug_abbrev d))
    (Hend : sec_data (debug_abbrev d) + sec_size (debug_abbrev d) < 2 ^ 64)
    (Hf : sec_size (debug_abbrev d) < Z.of_nat fuel) :
  snd (ParseAbbrevSection fuel h d) <> OutOfFuel.
Proof.
  unfold ParseAbbrevSection. apply ends_pbind; [done|]. intros d1 d' Hd. injection Hd as <- <-.
  destruct (debug_abbrev d) as [data size]. cbn [sec_data sec_size] in *.
  destruct (data =? 0); [done|]. rewrite padd_small by lia.
  enough (forall n ptr d, 0 <= ptr -> data + size - ptr < Z.of_nat n ->
    ends_from (tables_loop n h data ptr (data + size)) d) as H by (apply H; lia).
  clear d Hf. induction n as [|n IH]; intros ptr d Hp Hf; cbn [tables_loop];
    destruct (Z.ltb_spec ptr (data + size)); try done; [lia|].
  apply ends_pbind.
  { unfold ParseAbbrevTable. apply ends_pbind; [|done].
    apply ends_lift, abbrev_loop_ends; lia. }
  intros d1 next _. destruct (Z.eqb_spec next 0); [done|].
  destruct (Z.leb_spec next ptr); [done|]. cbn [orb]. apply IH; lia.
Qed.

Lemma ParseAbbrevSection_terminates_witness :
  snd (ParseAbbrevSection 9 (demo_host []) (demo_loader [])) <> OutOfFuel.
Proof. apply ParseAbbrevSection_terminates; by vm_compute. Defined.

(** The encoding of a table: its entries, then a zero code. *)
Definition spec_bytes (s : AttrSpec) : list Z :=
  uleb_bytes 10 (as_name s) ++ uleb_bytes 10 (as_form s) ++
  (if as_form s =? DW_FORM_implicit_const then sleb_bytes 10 (implicit_const s) else []).
Definition specs_bytes (l : list AttrSpec) : list Z := concat (map spec_bytes l) ++ [0; 0].
Definition entry_bytes (e : AbbrevEntry) : list Z :=
  uleb_bytes 10 (ab_code e) ++ uleb_bytes 10 (ab_tag e) ++
  [if has_children e then DW_CHILDREN_yes else 0] ++ specs_bytes (attrs e).
Definition table_bytes (l : list AbbrevEntry) : list Z := concat (map entry_bytes l) ++ [0].

Definition spec_ok (s : AttrSpec) : Prop :=
  0 <= as_name s < 2 ^ 32 /\ 0 <= as_form s < 2 ^ 32 /\ (as_name s <> 0 \/ as_form s <> 0) /\
  (if as_form s =? DW_FORM_implicit_const then - 2 ^ 63 <= implicit_const s < 2 ^ 63
   else implicit_const s = 0).
Definition entry_ok (e : AbbrevEntry) : Prop :=
  0 < ab_code e < 2 ^ 32 /\ 0 <= ab_tag e < 2 ^ 32 /\ Forall spec_ok (attrs e).

Lemma uleb_bytes_pos n v : (1 <= length (uleb_bytes (S n) v))%nat.
Proof. cbn [uleb_bytes]. destruct (v <? 128); cbn; lia. Qed.

Lemma specs_loop_enc fuel h ptr end_ acc l tail :
  host_wf h -> 0 <= ptr -> Forall spec_ok l -> (length l < fuel)%nat ->
  holds h ptr (specs_bytes l ++ tail) -> ptr + len (specs_bytes l) <= end_ < 2 ^ 64 ->
  specs_loop fuel h ptr end_ acc = Ok (acc ++ l, ptr + len (specs_bytes l)).
Proof.
  intros Hh. revert fuel ptr acc.
  induction l as [|s l IH]; intros fuel ptr acc Hp Hok Hf Hl He;
    (destruct fuel as [|fuel]; [cbn in Hf; lia|]); cbn [specs_loop].
  - cbn in He. rewrite (proj2 (Z.ltb_lt ptr end_)) by lia.
    unfold specs_bytes in Hl. cbn [map concat app] in Hl.
    apply (uleb_at h ptr end_ 0) in Hl as [E Hl]; [|done || (cbn; lia)..]. rewrite E.
    apply (uleb_at h _ end_ 0) in Hl as [E' Hl]; [|done || (cbn; lia)..].
    cbn [rbind fst snd]. rewrite E'. cbn [rbind fst snd]. change (u32 0 =? 0) with true.
    cbn [andb]. rewrite app_nil_r. do 2 f_equal. cbn. lia.
  - apply Forall_cons_1 in Hok as [(Hn & Hfm & Hnz & Hic) Hok].
    assert (Hs : specs_bytes (s :: l) = spec_bytes s ++ specs_bytes l)
      by (unfold specs_bytes; cbn [map concat]; by rewrite app_assoc).
    rewrite Hs in Hl, He |- *. rewrite length_app in He |- *. unfold spec_bytes in Hl, He |- *.
    rewrite !length_app in He |- *. rewrite <- !app_assoc in Hl.
    pose proof (uleb_bytes_pos 9 (as_name s)).
    rewrite (proj2 (Z.ltb_lt ptr end_)) by lia.
    apply uleb_at with (end_ := end_) in Hl as [E Hl]; [|done || lia..].
    rewrite E. cbn [rbind fst snd].
    apply uleb_at with (end_ := end_) in Hl as [E' Hl]; [|done || lia..].
    rewrite E'. cbn [rbind fst snd]. cbn zeta. rewrite !wrap_small by lia.
    assert (Hz : (as_name s =? 0) && (as_form s =? 0) = false).
    { apply andb_false_iff. rewrite !Z.eqb_neq. lia. }
    rewrite Hz. destruct (Z.eqb_spec (as_form s) DW_FORM_implicit_const) as [Hi|Hi].
    + apply sleb_at with (end_ := end_) in Hl as [E'' Hl]; [|done || lia..].
      rewrite E''. cbn [rbind fst snd].
      rewrite (IH fuel); [|lia|done|cbn in Hf; lia|done|lia].
      rewrite <- app_assoc. destruct s. do 2 f_equal. lia.
    + cbn [rbind fst snd length app] in *.
      rewrite (IH fuel); [|lia|done|cbn in Hf; lia|done|lia].
      rewrite <- app_assoc. destruct s. cbn in Hic. subst. do 2 f_equal. lia.
Qed.

Lemma uleb_bytes_bounded n v : (length (uleb_bytes n v) <= n)%nat.
Proof.
  revert v. induction n as [|n IH]; intros v; cbn [uleb_bytes]; [done|].
  destruct (v <? 128); cbn; [lia|]. specialize (IH (v / 128)). lia.
Qed.

Lemma abbrev_loop_enc fuel h ptr end_ table l tail :
  host_wf h -> 0 <= ptr -> Forall entry_ok l -> (length (table_bytes l) <= fuel)%nat ->
  holds h ptr (table_bytes l ++ tail) -> ptr + len (table_bytes l) <= end_ < 2 ^ 64 ->
  abbrev_loop fuel h ptr end_ table =
    Ok (foldl (fun t e => <[ab_code e := e]> t) table l, ptr + len (table_bytes l)).
Proof.
  intros Hh. revert fuel ptr table.
  induction l as [|e l IH]; intros fuel ptr table Hp Hok Hf Hl He;
    (destruct fuel as [|fuel]; [unfold table_bytes in Hf; rewrite length_app in Hf;
       cbn in Hf; lia|]); cbn [abbrev_loop].
  - cbn in He. rewrite (proj2 (Z.ltb_lt ptr end_)) by lia.
    unfold table_bytes in Hl. cbn [map concat app] in Hl.
    apply (uleb_at h ptr end_ 0) in Hl as [E Hl]; [|done || (cbn; lia)..]. by rewrite E.
  - apply Forall_cons_1 in Hok as [(Hc & Ht & Hs) Hok].
    assert (Eb : table_bytes (e :: l) = entry_bytes e ++ table_bytes l)
      by (unfold table_bytes; cbn [map concat]; by rewrite app_assoc).
    rewrite Eb in Hl, He, Hf |- *. rewrite length_app in He, Hf |- *.
    unfold entry_bytes in Hl, He, Hf |- *. rewrite !length_app in He, Hf |- *.
    rewrite <- !app_assoc in Hl. cbn [length] in *.
    pose proof (uleb_bytes_pos 9 (ab_code e)).
    assert (Hsl : (length (attrs e) < fuel)%nat).
    { assert (length (attrs e) <= length (specs_bytes (attrs e)))%nat; [|lia].
      unfold specs_bytes. rewrite length_app. clear. induction (attrs e) as [|s l IH];
        cbn [map concat length] in *; [lia|]. rewrite length_app.
      assert (1 <= length (spec_bytes s))%nat; [|lia]. unfold spec_bytes.
      rewrite length_app. pose proof (uleb_bytes_pos 9 (as_name s)). lia. }
    rewrite (proj2 (Z.ltb_lt ptr end_)) by lia.
    apply uleb_at with (end_ := end_) in Hl as [E Hl]; [|done || lia..].
    rewrite E. cbn [rbind fst snd]. rewrite (proj2 (Z.eqb_neq _ 0)) by lia.
    apply uleb_at with (end_ := end_) in Hl as [E' Hl]; [|done || lia..].
    rewrite E'. cbn [rbind fst snd]. rewrite (proj2 (Z.leb_gt end_ _)) by lia.
    cbn [app] in Hl. apply holds_cons in Hl as [Eh Hl]; [|done].
    rewrite Eh. cbn [rbind]. rewrite padd_small by lia.
    rewrite (specs_loop_enc fuel) with (l := attrs e) (tail := table_bytes l ++ tail);
      [|done|lia|done|done|done|lia].
    cbn [rbind fst snd]. rewrite !wrap_small by lia.
    apply holds_app in Hl as [_ Hl]; [|done].
    rewrite (IH fuel); [|lia|done|lia|done|lia].
    cbn [foldl app]. destruct e as [code tag ch at_]. cbn.
    f_equal. f_equal; [|lia]. do 3 f_equal. by destruct ch.
Qed.

(** C21: [ParseAbbrevTable] reads back the encoding of every list of abbreviations: the
    table it stores for the offset maps each code to its (last) entry, with its tag, its
    children flag and its attribute specifications, implicit constants included, and the
    returned pointer stands behind the terminating zero. *)
Theorem ParseAbbrevTable_roundtrip (fuel : nat) (h : host) (ptr end_ off : Z)
    (l : list AbbrevEntry) (tail : list Z) (d : DwarfLoader)
    (Hh : host_wf h) (Hp : 0 <= ptr) (Hok : Forall entry_ok l)
    (Hf : (length (table_bytes l) <= fuel)%nat)
    (Hl : holds h ptr (table_bytes l ++ tail))
    (He : ptr + Z.of_nat (length (table_bytes l)) <= end_ < 2 ^ 64) :
  ParseAbbrevTable fuel h ptr end_ off d =
    (with_abbrevs (<[off := foldl (fun t e => <[ab_code e := e]> t) ∅ l]> (abbrev_map_ d)) d,
     Ok (ptr + Z.of_nat (length (table_bytes l)))).
Proof.
  unfold ParseAbbrevTable. erewrite pbind_lift by (by apply abbrev_loop_enc with (tail := tail)).
  done.
Qed.

Lemma ParseAbbrevTable_roundtrip_witness :
  let e := {| ab_code := 300; ab_tag := DW_TAG_structure_type; has_children := true;
              attrs := [{| as_name := DW_AT_name; as_form := DW_FORM_string;
                           implicit_const := 0 |};
                        {| as_name := DW_AT_byte_size; as_form := DW_FORM_implicit_const;
                           implicit_const := -3 |}] |} in
  let h := page (table_bytes [e] ++ [7; 7]) in
  fst (ParseAbbrevTable 20 h 0x1000 0x1010 5 new_DwarfLoader) =
    with_abbrevs {[ 5 := {[ 300 := e ]} ]} new_DwarfLoader.
Proof.
  intros e h.
  assert (He : entry_ok e).
  { unfold entry_ok. split_and!; [by vm_compute..|]. unfold spec_ok.
    repeat (constructor; [split_and!; vm_compute; try (left; congruence);
      repeat split; congruence|]). constructor. }
  rewrite (ParseAbbrevTable_roundtrip 20 h 0x1000 0x1010 5 [e] [7; 7] new_DwarfLoader
    (page_wf _) ltac:(lia) ltac:(constructor; [exact He|constructor])
    ltac:(vm_compute; lia) eq_refl ltac:(vm_compute; split; congruence)).
  reflexivity.
Defined.

(** The bounds test of [GetDebugStrX] wraps for the last indices below 2^64: the word in
    front of the section is read. *)
Example GetDebugStrX_wraps :
  GetDebugStrX (page [0; 0; 0; 0; 0; 0; 0; 0])
    (with_sections no_section no_section no_section {| sec_data := 0x1000; sec_size := 8 |}
       new_DwarfLoader) (2 ^ 62 - 1) 0 false = Fault.
Proof. vm_compute. reflexivity. Qed.

(** An attribute of no size at the very end of a unit is taken for a parse error. *)
Example flag_present_at_end :
  ReadAttrValue (page [1]) new_DwarfLoader 0x1001 8 false 0 true true 0 0x1001
    DW_FORM_flag_present = Ok None.
Proof. vm_compute. reflexivity. Qed.
