(* ===== verification/DwarfTree.v ===== *)
(** What [ParseDIETree] and [ResolveTypes] compute ([Dwarf]): the loop with its explicit
    stack is a recursive walk of the tree of entries under lexical scopes; the indices it
    records stay inside the vectors they index; type names are the chain of qualifiers of
    the registered types. *)

From Stdlib Require Import ZArith Lia Bool.
From stdpp Require Import base list numbers gmap.
From S2P Require Import Prelude Words Host Dwarf DwarfProofs.
Open Scope Z_scope.

(** * The tree of entries *)

(** An entry as the parser sees it: tag, children flag, offset in .debug_info, type
    reference, attributes, children. *)
Inductive die := Die (tag : Z) (children : bool) (off ref : Z) (a : DieAttrs) (kids : list die).

Definition is_struct (tag : Z) : bool :=
  (tag =? DW_TAG_structure_type) || (tag =? DW_TAG_class_type).

(** The scope of the children of an entry that stands in scope [(ns, idx)]: a namespace
    extends the prefix, a named structure becomes the current one (it is the last of the
    [n] structures so far), every other entry hides the enclosing structure. *)
Definition child_ns (tag : Z) (a : DieAttrs) (ns : list Z) : list Z :=
  if tag =? DW_TAG_namespace then full_name ns (die_name a) else ns.
Definition child_idx (tag : Z) (a : DieAttrs) (idx : Z) (n : nat) : Z :=
  if tag =? DW_TAG_namespace then idx
  else if is_struct tag && negb (bool_decide (die_name a = [])) then i32 (Z.of_nat n) - 1
  else kNoStruct.

(** What an entry adds to the loader in scope [(ns, idx)]. *)
Definition record_die (tag off ref : Z) (a : DieAttrs) (ns : list Z) (idx : Z)
    (d : DwarfLoader) : result DwarfLoader :=
  let! r := die_tag tag false off ref a {| stk := []; cur_ns := ns; cur_struct_idx := idx |} d in
  Ok (fst r).

(** The recursive walk. *)
Fixpoint visit (ns : list Z) (idx : Z) (x : die) (d : DwarfLoader) : result DwarfLoader :=
  match x with
  | Die tag _ off ref a kids =>
      let! d := record_die tag off ref a ns idx d in
      let cns := child_ns tag a ns in
      let cidx := child_idx tag a idx (length (structs_ d)) in
      (fix go (l : list die) (d : DwarfLoader) : result DwarfLoader :=
         match l with
         | [] => Ok d
         | k :: l => let! d := visit cns cidx k d in go l d
         end) kids d
  end.

Fixpoint visit_all (ns : list Z) (idx : Z) (l : list die) (d : DwarfLoader)
    : result DwarfLoader :=
  match l with
  | [] => Ok d
  | x :: l => let! d := visit ns idx x d in visit_all ns idx l d
  end.

Lemma visit_eq ns idx tag ch off ref a kids d :
  visit ns idx (Die tag ch off ref a kids) d =
  let! d := record_die tag off ref a ns idx d in
  visit_all (child_ns tag a ns) (child_idx tag a idx (length (structs_ d))) kids d.
Proof.
  cbn [visit]. destruct (record_die tag off ref a ns idx d) as [d1| | |]; cbn [rbind]; try done.
  set (cns := child_ns _ _ _). set (cidx := child_idx _ _ _ _). clearbody cns cidx.
  revert d1. induction kids as [|k kids IH]; intros d1; [done|].
  cbn [visit_all]. by destruct (visit cns cidx k d1); cbn [rbind].
Qed.

(** The iterations of the loop: one per entry, one per end of a list of children. *)
Fixpoint steps (x : die) : nat :=
  match x with
  | Die _ ch _ _ _ kids => S (if ch then S (list_sum (map steps kids)) else 0)
  end.

(** [die_tag] leaves the scope alone, or pushes it and enters the scope of the children. *)
Lemma die_tag_scope tag ch off ref a s ns idx d :
  die_tag tag ch off ref a {| stk := s; cur_ns := ns; cur_struct_idx := idx |} d =
  let! d' := record_die tag off ref a ns idx d in
  Ok (d', if ch then {| stk := (ns, idx) :: s; cur_ns := child_ns tag a ns;
                        cur_struct_idx := child_idx tag a idx (length (structs_ d')) |}
          else {| stk := s; cur_ns := ns; cur_struct_idx := idx |}).
Proof.
  unfold record_die, die_tag, child_ns, child_idx, is_struct.
  destruct (Z.eqb_spec tag DW_TAG_namespace) as [->|]; [by destruct ch|].
  destruct ((tag =? DW_TAG_structure_type) || (tag =? DW_TAG_class_type)).
  { unfold die_struct. cbn [cur_ns andb].
    destruct (bool_decide (die_name a = [])); by destruct ch. }
  cbn [andb]. unfold die_member, die_base. cbn [cur_struct_idx].
  destruct (tag =? DW_TAG_member).
  { destruct (if _ : bool then _ else _); cbn; by destruct ch. }
  destruct (tag =? DW_TAG_inheritance).
  { destruct (if _ : bool then _ else _); cbn; by destruct ch. }
  destruct ((_ =? DW_TAG_base_type) || _ || _); [by destruct ch|].
  destruct (tag =? DW_TAG_typedef); [by destruct ch|].
  destruct (tag_qualifier tag); by destruct ch.
Qed.

(** * The tree in memory *)

(** The reader depends on the loader only through the two string sections. *)
Definition same_strings (d d' : DwarfLoader) : Prop :=
  debug_str d = debug_str d' /\ debug_str_offsets d = debug_str_offsets d'.

Lemma GetDebugStr_same h d d' off :
  same_strings d d' -> GetDebugStr h d off = GetDebugStr h d' off.
Proof. unfold GetDebugStr. by intros [-> _]. Qed.

Lemma GetDebugStrX_same h d d' i b w :
  same_strings d d' -> GetDebugStrX h d i b w = GetDebugStrX h d' i b w.
Proof.
  intros H. unfold GetDebugStrX. rewrite (proj2 H).
  destruct (debug_str_offsets d') as [data size]. destruct (data =? 0); [done|].
  destruct (_ <? _); [done|]. destruct (host_word _ _ _); cbn; try done.
  by apply GetDebugStr_same.
Qed.

Lemma ReadAttrValue_same h d d' e asz w b ov os fuel ptr form :
  same_strings d d' ->
  ReadAttrValue h d e asz w b ov os fuel ptr form = ReadAttrValue h d' e asz w b ov os fuel ptr form.
Proof.
  intros H.
  assert (Hx : forall p i, strx_index h d w b os p i = strx_index h d' w b os p i).
  { intros p i. unfold strx_index. by rewrite (GetDebugStrX_same h d d') by done. }
  assert (Hn : forall p n, read_strx h d e w b os p n = read_strx h d' e w b os p n).
  { intros p n. unfold read_strx. destruct (_ <? _); [done|].
    destruct (host_word _ _ _); cbn; auto. }
  assert (Hp : forall f p, read_strp h d e w os f p = read_strp h d' e w os f p).
  { intros f p. unfold read_strp. destruct (_ <? _); [done|].
    destruct (host_word _ _ _); cbn; [|done..]. destruct (_ && _); [|done].
    by rewrite (GetDebugStr_same h d d') by done. }
  revert ptr form. induction fuel as [|fuel IH]; intros ptr form; cbn [ReadAttrValue];
    rewrite ?Hn, ?Hp; cbn zeta;
    repeat match goal with |- (if ?b then _ else _) = (if ?b then _ else _) =>
      destruct b; [try done|] end; try done;
    destruct (ReadULEB128 _ _ _); cbn [rbind]; auto.
Qed.

(** More fuel for [DW_FORM_indirect] changes nothing. *)
Lemma ReadAttrValue_more h d e asz w b ov os n m ptr form r :
  (n <= m)%nat -> ReadAttrValue h d e asz w b ov os n ptr form = Ok r ->
  ReadAttrValue h d e asz w b ov os m ptr form = Ok r.
Proof.
  revert m ptr form. induction n as [|n IH]; intros m ptr form Hm; destruct m as [|m];
    try done; try lia; cbn [ReadAttrValue]; cbn zeta;
    repeat match goal with |- (if ?b then _ else _) = _ -> _ => destruct b; [try done|] end;
    try done.
  destruct (ReadULEB128 _ _ _); cbn [rbind]; [|done..]. apply IH. lia.
Qed.

Lemma read_attrs_stable h d d' e asz w b n m l ptr a r :
  same_strings d d' -> (n <= m)%nat ->
  read_attrs n h d e asz w b l ptr a = Ok r -> read_attrs m h d' e asz w b l ptr a = Ok r.
Proof.
  intros Hs Hm. revert ptr a. induction l as [|s l IH]; intros ptr a; cbn [read_attrs]; [done|].
  destruct (_ =? _); [apply IH|].
  rewrite <- (ReadAttrValue_same h d d') by done. intros H. res_inv.
  erewrite ReadAttrValue_more by eassumption. cbn [rbind].
  destruct v as [av|]; [|done]. destruct (_ =? 0); [done|]. by apply IH.
Qed.

Section Memory.
Context (n : nat) (h : host) (d0 : DwarfLoader) (cu_end addr_size : Z) (dwarf64 : bool).
Context (table : AbbrevTable) (base cu_base : Z).

(** The bytes from [p] to [q] encode an entry (a list of children with the null entry that
    ends it): their abbreviation codes and attribute values decode to it. *)
Inductive die_at : Z -> die -> Z -> Prop :=
  | die_leaf p code p1 entry q a :
      p < cu_end -> ReadULEB128 h p cu_end = Ok (code, p1) -> code <> 0 ->
      table !! u32 code = Some entry -> has_children entry = false ->
      read_attrs n h d0 cu_end addr_size dwarf64 base (attrs entry) p1 no_attrs
        = Ok (Some (q, a)) ->
      die_at p (Die (ab_tag entry) false (u64 (p - sec_data (debug_info d0)))
                  (abs_type_ref cu_base a) a []) q
  | die_node p code p1 entry p2 a kids q :
      p < cu_end -> ReadULEB128 h p cu_end = Ok (code, p1) -> code <> 0 ->
      table !! u32 code = Some entry -> has_children entry = true ->
      read_attrs n h d0 cu_end addr_size dwarf64 base (attrs entry) p1 no_attrs
        = Ok (Some (p2, a)) ->
      kids_at p2 kids q ->
      die_at p (Die (ab_tag entry) true (u64 (p - sec_data (debug_info d0)))
                  (abs_type_ref cu_base a) a kids) q
with kids_at : Z -> list die -> Z -> Prop :=
  | kids_end p q : p < cu_end -> ReadULEB128 h p cu_end = Ok (0, q) -> kids_at p [] q
  | kids_more p x q l r : die_at p x q -> kids_at q l r -> kids_at p (x :: l) r.

Scheme die_at_mind := Induction for die_at Sort Prop
  with kids_at_mind := Induction for kids_at Sort Prop.
Combined Scheme die_kids_ind from die_at_mind, kids_at_mind.

(** What the walk keeps of the loader it started from. *)
Definition same_input (d : DwarfLoader) : Prop :=
  same_strings d0 d /\ debug_info d = debug_info d0.

Lemma update_struct_input idx f d d' :
  update_struct idx f d = Ok d' -> same_input d -> same_input d'.
Proof. unfold update_struct. destruct (_ <? _); [done|]. intros H. res_inv. by subst. Qed.

Lemma record_die_input tag off ref a ns idx d d' :
  record_die tag off ref a ns idx d = Ok d' -> same_input d -> same_input d'.
Proof.
  assert (Ha : forall b f d d', append_item idx b f ref d = Ok d' ->
                same_input d -> same_input d').
  { intros b f x y H Hx. unfold append_item in H. res_inv.
    eapply update_struct_input in E; [|done]. destruct (_ =? 0); res_inv; by subst. }
  unfold record_die, die_tag, die_member, die_base, die_named, die_struct. intros H Hd.
  repeat match goal with
  | H : rbind (if ?b then _ else _) _ = _ |- _ => destruct b
  | H : rbind (match ?x with _ => _ end) _ = _ |- _ => destruct x
  end; res_inv; subst; cbn [fst] in *; try done;
  repeat match goal with
  | H : (if ?b then _ else _) = Ok _ |- _ => destruct b
  | |- context [if ?b then _ else _] => destruct b
  end; res_inv; subst; cbn [fst] in *; try done; by eapply Ha.
Qed.

Abbreviation loop k := (die_loop k h cu_end addr_size dwarf64 table base cu_base).
Abbreviation scope s ns idx := {| stk := s; cur_ns := ns; cur_struct_idx := idx |}.

(** One iteration on an entry. *)
Lemma loop_entry k p code p1 entry q a s ns idx d d' :
  p < cu_end -> ReadULEB128 h p cu_end = Ok (code, p1) -> code <> 0 ->
  table !! u32 code = Some entry ->
  read_attrs n h d0 cu_end addr_size dwarf64 base (attrs entry) p1 no_attrs = Ok (Some (q, a)) ->
  same_input d -> (n <= k)%nat ->
  record_die (ab_tag entry) (u64 (p - sec_data (debug_info d0))) (abs_type_ref cu_base a) a
    ns idx d = Ok d' ->
  loop (S k) p (scope s ns idx) d =
  loop k q (if has_children entry
            then scope ((ns, idx) :: s) (child_ns (ab_tag entry) a ns)
                   (child_idx (ab_tag entry) a idx (length (structs_ d')))
            else scope s ns idx) d'.
Proof.
  intros Hp Hc Hnz Ht Ha [Hs Hi] Hk Hr. cbn [die_loop].
  rewrite (proj2 (Z.ltb_lt p cu_end)) by done.
  erewrite (pbind_Ok get) by reflexivity. cbn zeta. rewrite (pbind_lift _ _ _ _ Hc).
  cbn [fst snd]. rewrite (proj2 (Z.eqb_neq code 0)), Ht by done.
  eapply read_attrs_stable in Ha; [|exact Hs|exact Hk]. rewrite (pbind_lift _ _ _ _ Ha).
  rewrite Hi.
  erewrite pbind_Ok; [reflexivity|]. unfold on_part, id. by rewrite die_tag_scope, Hr.
Qed.

(** The null entry that ends a list of children. *)
Lemma loop_null k p q s pns pidx ns idx d :
  p < cu_end -> ReadULEB128 h p cu_end = Ok (0, q) ->
  loop (S k) p (scope ((pns, pidx) :: s) ns idx) d = loop k q (scope s pns pidx) d.
Proof.
  intros Hp Hc. cbn [die_loop]. rewrite (proj2 (Z.ltb_lt p cu_end)) by done.
  erewrite (pbind_Ok get) by reflexivity. cbn zeta. by rewrite (pbind_lift _ _ _ _ Hc).
Qed.

Lemma die_loop_walk :
  (forall p x q, die_at p x q -> forall k s ns idx d d', same_input d ->
     visit ns idx x d = Ok d' -> (n <= k)%nat ->
     same_input d' /\
     loop (steps x + k) p (scope s ns idx) d = loop k q (scope s ns idx) d') /\
  (forall p l q, kids_at p l q -> forall k s pns pidx ns idx d d', same_input d ->
     visit_all ns idx l d = Ok d' -> (n <= k)%nat ->
     same_input d' /\
     loop (S (list_sum (map steps l)) + k) p (scope ((pns, pidx) :: s) ns idx) d
       = loop k q (scope s pns pidx) d').
Proof.
  apply die_kids_ind.
  - intros p code p1 entry q a Hp Hc Hnz Ht Hch Ha k s ns idx d d' Hi Hv Hk.
    rewrite visit_eq in Hv. res_inv. cbn [visit_all] in Hv. simplify_eq.
    split; [by eapply record_die_input|]. cbn [steps Nat.add].
    erewrite loop_entry by eassumption. by rewrite Hch.
  - intros p code p1 entry p2 a kids q Hp Hc Hnz Ht Hch Ha Hkids IH k s ns idx d d' Hi Hv Hk.
    rewrite visit_eq in Hv. res_inv. cbn [steps Nat.add].
    erewrite loop_entry; [|eassumption..|lia|eassumption]. rewrite Hch.
    apply IH; [by eapply record_die_input|done|done].
  - intros p q Hp Hc k s pns pidx ns idx d d' Hi Hv Hk. cbn [visit_all] in Hv. simplify_eq.
    split; [done|]. by apply loop_null.
  - intros p x q l r Hx IHx Hl IHl k s pns pidx ns idx d d' Hi Hv Hk.
    cbn [visit_all] in Hv. res_inv.
    change (list_sum (map steps (x :: l))) with (steps x + list_sum (map steps l))%nat.
    destruct (IHx (S (list_sum (map steps l)) + k)%nat ((pns, pidx) :: s) ns idx d v)
      as [Hi' E']; [done..|lia|].
    destruct (IHl k s pns pidx ns idx v d') as [Hi'' E'']; [done..|].
    split; [done|]. rewrite <- E'', <- E'. f_equal. lia.
Qed.

(** The top level of a unit: entries up to the end of the unit, or a null entry. *)
Inductive unit_at : Z -> list die -> Z -> Prop :=
  | unit_end p : cu_end <= p -> unit_at p [] p
  | unit_null p q : p < cu_end -> ReadULEB128 h p cu_end = Ok (0, q) -> unit_at p [] q
  | unit_more p x q l r : die_at p x q -> unit_at q l r -> unit_at p (x :: l) r.

(** C7: on a unit whose bytes encode a forest of entries, [ParseDIETree] computes the
    recursive walk of the forest: its explicit stack implements lexical scopes
    (namespaces, enclosing structures), entry by entry, and the pointer ends behind the
    last entry. *)
Theorem ParseDIETree_walk (p q : Z) (l : list die) (ns : list Z) (d d' : DwarfLoader)
    (fuel : nat) (Hu : unit_at p l q) (Hi : same_input d)
    (Hv : visit_all ns kNoStruct l d = Ok d')
    (Hf : (S (list_sum (map steps l)) + n <= fuel)%nat) :
  ParseDIETree fuel h p cu_end addr_size dwarf64 table ns base cu_base d = (d', Ok (Some q)).
Proof.
  unfold ParseDIETree. revert fuel d Hi Hv Hf.
  induction Hu as [p Hp|p q Hp Hc|p x q l r Hx Hu IH]; intros fuel d Hi Hv Hf;
    cbn [visit_all] in Hv.
  - simplify_eq. destruct fuel; cbn [die_loop];
      by rewrite (proj2 (Z.ltb_ge p cu_end)) by done.
  - simplify_eq. destruct fuel; [lia|]. cbn [die_loop].
    rewrite (proj2 (Z.ltb_lt p cu_end)) by done.
    erewrite (pbind_Ok get) by reflexivity. cbn zeta. by rewrite (pbind_lift _ _ _ _ Hc).
  - res_inv.
    change (list_sum (map steps (x :: l))) with (steps x + list_sum (map steps l))%nat in Hf.
    replace fuel with (steps x + (fuel - steps x))%nat by lia.
    destruct (proj1 die_loop_walk p x q Hx (fuel - steps x)%nat [] ns kNoStruct d v)
      as [Hi' E']; [done..|lia|].
    rewrite E'. apply IH; [done..|lia].
Qed.
End Memory.

(** A namespace scope "art" with [struct A { T x; }], [x] at offset 8. *)
Definition walk_table : AbbrevTable :=
  {[ 1 := {| ab_code := 1; ab_tag := DW_TAG_structure_type; has_children := true;
             attrs := [{| as_name := DW_AT_name; as_form := DW_FORM_string;
                          implicit_const := 0 |}] |};
     2 := {| ab_code := 2; ab_tag := DW_TAG_member; has_children := false;
             attrs := [{| as_name := DW_AT_name; as_form := DW_FORM_string;
                          implicit_const := 0 |};
                       {| as_name := DW_AT_type; as_form := DW_FORM_ref1;
                          implicit_const := 0 |};
                       {| as_name := DW_AT_data_member_location; as_form := DW_FORM_data1;
                          implicit_const := 0 |}] |} ]}.
Definition walk_host : host := page ([0x01; 65; 0; 0x02; 120; 0; 0x05; 0x08; 0x00]).
Definition walk_loader : DwarfLoader :=
  with_sections no_section {| sec_data := 0x1000; sec_size := 9 |} no_section no_section
    new_DwarfLoader.

Lemma ParseDIETree_walk_witness :
  structs_ (fst (ParseDIETree 10 walk_host 0x1000 0x1009 8 false walk_table (chars "art") 0 0
                   walk_loader)) =
  [{| si_name := chars "art::A"; si_byte_size := 0; si_has_size := false; si_bases := [];
      si_members := [{| mi_name := chars "x"; mi_type_name := []; mi_offset := 8;
                        mi_has_offset := true |}] |}].
Proof.
  assert (Hu : exists x, unit_at 0 walk_host walk_loader 0x1009 8 false walk_table 0 0
                           0x1000 [x] 0x1009 /\ steps x = 3%nat /\
    exists d', visit_all (chars "art") kNoStruct [x] walk_loader = Ok d' /\
      structs_ d' =
      [{| si_name := chars "art::A"; si_byte_size := 0; si_has_size := false; si_bases := [];
          si_members := [{| mi_name := chars "x"; mi_type_name := []; mi_offset := 8;
                            mi_has_offset := true |}] |}]).
  { eexists. split; [|split].
    - eapply (unit_more _ _ _ _ _ _ _ _ _ _ _ 0x1009); [|by apply unit_end].
      eapply die_node; [done|by vm_compute|done|by vm_compute|done|by vm_compute|].
      eapply kids_more.
      + eapply die_leaf; [done|by vm_compute|done|by vm_compute|done|by vm_compute].
      + eapply kids_end; [done|by vm_compute].
    - done.
    - eexists. split; by vm_compute. }
  destruct Hu as (x & Hu & Hsteps & d' & Hv & Hd).
  rewrite (ParseDIETree_walk 0 walk_host walk_loader 0x1009 8 false walk_table 0 0 0x1000
    0x1009 [x] (chars "art") walk_loader d' 10 Hu (conj (conj eq_refl eq_refl) eq_refl) Hv
    ltac:(cbn; rewrite Hsteps; lia)).
  exact Hd.
Defined.

(** * The indices the parser records *)

Definition idx_ok (d : DwarfLoader) (i : Z) : Prop :=
  i = kNoStruct \/ 0 <= i < len (structs_ d).
Definition scope_ok (d : DwarfLoader) (sc : Scope) : Prop :=
  idx_ok d (cur_struct_idx sc) /\ Forall (fun f => idx_ok d (snd f)) (stk sc).

(** A pending reference denotes an existing base or member. *)
Definition ref_ok (d : DwarfLoader) (p : PendingRef) : Prop :=
  0 <= pr_struct p /\ exists s, structs_ d !! Z.to_nat (pr_struct p) = Some s /\
  0 <= pr_item p < (if pr_base p then len (si_bases s) else len (si_members s)).
Definition refs_ok (d : DwarfLoader) : Prop := Forall (ref_ok d) (pending_refs_ d).

(** The sizes fit an [int]. *)
Definition small (d : DwarfLoader) : Prop :=
  len (structs_ d) < 2 ^ 31 /\
  Forall (fun s => len (si_bases s) < 2 ^ 31 /\ len (si_members s) < 2 ^ 31) (structs_ d).

(** Structures, bases and members are only added. *)
Definition grows (d d' : DwarfLoader) : Prop :=
  forall i s, structs_ d !! i = Some s -> exists s', structs_ d' !! i = Some s' /\
    (length (si_bases s) <= length (si_bases s'))%nat /\
    (length (si_members s) <= length (si_members s'))%nat.

#[export] Instance grows_preorder : PreOrder grows.
Proof.
  split; [intros d i s Hs; by exists s|].
  intros d1 d2 d3 H12 H23 i s Hs. apply H12 in Hs as (s2 & Hs2 & ? & ?).
  apply H23 in Hs2 as (s3 & Hs3 & ? & ?). exists s3. split_and!; [done|lia|lia].
Qed.

Lemma grows_length d d' : grows d d' -> (length (structs_ d) <= length (structs_ d'))%nat.
Proof.
  intros H. destruct (length (structs_ d)) as [|n] eqn:E; [lia|].
  destruct (lookup_lt_is_Some_2 (structs_ d) n) as [s Hs]; [lia|].
  apply H in Hs as (s' & Hs' & _). apply lookup_lt_Some in Hs'. lia.
Qed.

Lemma small_grows d d' : grows d d' -> small d' -> small d.
Proof.
  intros H [H1 H2]. pose proof (grows_length _ _ H). split; [lia|].
  apply Forall_lookup_2. intros i s Hs. apply H in Hs as (s' & Hs' & ? & ?).
  apply (Forall_lookup_1 _ _ _ _ H2) in Hs'. lia.
Qed.

Lemma idx_ok_grows d d' i : grows d d' -> idx_ok d i -> idx_ok d' i.
Proof. intros H%grows_length [?|?]; [by left|right; lia]. Qed.

Lemma scope_ok_grows d d' sc : grows d d' -> scope_ok d sc -> scope_ok d' sc.
Proof.
  intros H [H1 H2]. split; [by eapply idx_ok_grows|].
  rewrite Forall_elem in H2 |- *. intros f Hf. eapply idx_ok_grows; [done|]. by apply H2.
Qed.

Lemma ref_ok_grows d d' p : grows d d' -> ref_ok d p -> ref_ok d' p.
Proof.
  intros H (Hi & s & Hs & Hp). apply H in Hs as (s' & Hs' & ? & ?).
  split; [done|]. exists s'. split; [done|]. destruct (pr_base p); lia.
Qed.

Lemma refs_ok_grows d d' :
  grows d d' -> pending_refs_ d' = pending_refs_ d -> refs_ok d -> refs_ok d'.
Proof.
  intros Hg Hp H. unfold refs_ok in *. rewrite Hp. rewrite Forall_elem in *. intros p Hin.
  eapply ref_ok_grows; [exact Hg|]. by apply H.
Qed.

Lemma update_struct_grows idx f d s s' :
  0 <= idx -> structs_ d !! Z.to_nat idx = Some s -> f s = Ok s' ->
  (length (si_bases s) <= length (si_bases s'))%nat ->
  (length (si_members s) <= length (si_members s'))%nat ->
  let d' := with_structs (<[Z.to_nat idx := s']> (structs_ d)) d in
  update_struct idx f d = Ok d' /\ grows d d' /\ structs_ d' !! Z.to_nat idx = Some s'.
Proof.
  intros Hi Hs Hf Hb Hm d'. pose proof (lookup_lt_Some _ _ _ Hs) as Hlt.
  split_and!.
  - unfold update_struct. rewrite (proj2 (Z.ltb_ge idx 0)), Hs by lia. cbn [of_option rbind].
    by rewrite Hf.
  - intros i x Hx. cbn [structs_ d' with_structs]. destruct (decide (i = Z.to_nat idx)) as [->|].
    + exists s'. rewrite list_lookup_insert_eq by done. simplify_eq. done.
    + exists x. by rewrite list_lookup_insert_ne by done.
  - cbn. by rewrite list_lookup_insert_eq.
Qed.

(** Appending a base or a member to the current structure. *)
Lemma append_item_ok idx b f ref d d' :
  idx_ok d idx -> idx <> kNoStruct -> refs_ok d ->
  (forall s, if b : bool
   then length (si_bases (f s)) = S (length (si_bases s)) /\ si_members (f s) = si_members s
   else length (si_members (f s)) = S (length (si_members s)) /\ si_bases (f s) = si_bases s) ->
  append_item idx b f ref d = Ok d' ->
  grows d d' /\ (small d' -> refs_ok d').
Proof.
  intros [Hno|Hi] Hne Hr Hf H; [done|].
  destruct (lookup_lt_is_Some_2 (structs_ d) (Z.to_nat idx)) as [s Hs]; [lia|].
  specialize (Hf s).
  destruct (update_struct_grows idx (fun s => Ok (f s)) d s (f s)) as (E & Hg & Hs');
    [lia|done|done|destruct b; destruct Hf as [? Hf]; rewrite ?Hf; lia..|].
  unfold append_item in H. rewrite E in H. cbn [rbind] in H.
  assert (Hr1 : refs_ok (with_structs (<[Z.to_nat idx := f s]> (structs_ d)) d)).
  { by eapply refs_ok_grows. }
  destruct (ref =? 0); [by simplify_eq|]. rewrite Hs' in H. cbn [of_option rbind] in H.
  simplify_eq. split; [exact Hg|]. intros [Hsm1 Hsm2]. unfold refs_ok, add_pending.
  cbn [pending_refs_ with_pending]. apply Forall_app. split; [exact Hr1|].
  apply Forall_singleton. split; [cbn; lia|]. cbn [pr_struct]. exists (f s). split; [exact Hs'|].
  apply (Forall_lookup_1 _ _ _ _ Hsm2) in Hs'. cbn [pr_item pr_base].
  destruct b; rewrite sint_small by lia; lia.
Qed.

Lemma skip_children_ok d ch sc : scope_ok d sc -> scope_ok d (skip_children ch sc).
Proof.
  intros [H1 H2]. destruct ch; [|done]. split; [by left|]. by constructor.
Qed.

(** One entry keeps the indices valid. *)
Lemma die_tag_ok tag ch off ref a sc d d' sc' :
  die_tag tag ch off ref a sc d = Ok (d', sc') -> scope_ok d sc -> refs_ok d ->
  grows d d' /\ (small d' -> scope_ok d' sc' /\ refs_ok d').
Proof.
  intros H Hsc Hr. unfold die_tag in H.
  destruct (tag =? DW_TAG_namespace).
  { simplify_eq. split; [done|]. intros _. split; [|done]. destruct ch; [|done].
    destruct Hsc as [H1 H2]. split; [done|]. by constructor. }
  destruct (_ || _).
  { unfold die_struct in H. destruct (bool_decide _).
    { simplify_eq. split; [done|]. intros _. split; [by apply skip_children_ok|done]. }
    cbn zeta in H. set (d1 := with_structs _ _) in H. injection H as <- <-.
    assert (Hg : grows d d1).
    { intros i s Hs. exists s. split; [|lia]. cbn. by apply lookup_app_l_Some. }
    split; [done|]. intros [Hs1 Hs2]. split.
    - apply (scope_ok_grows _ _ _ Hg) in Hsc as [H1 H2]. destruct ch; [|done].
      split; [|by constructor]. right. cbn [push_scope cur_struct_idx].
      assert (1 <= len (structs_ d1)) by (cbn; rewrite length_app; cbn; lia).
      cbn -[Z.pow Z.of_nat] in Hs1, H |- *. rewrite sint_small by lia. lia.
    - by eapply refs_ok_grows. }
  destruct (tag =? DW_TAG_member).
  { unfold die_member in H. res_inv. simplify_eq. destruct (_ && _) eqn:Eb.
    - to_prop. apply append_item_ok in E as [Hg Hr'];
        [|apply Hsc|done|done|intros s; cbn; rewrite length_app; cbn; split; [lia|done]].
      split; [done|]. intros Hsm. split; [|auto].
      apply skip_children_ok. by eapply scope_ok_grows.
    - simplify_eq. split; [done|]. intros _. split; [by apply skip_children_ok|done]. }
  destruct (tag =? DW_TAG_inheritance).
  { unfold die_base in H. res_inv. simplify_eq. destruct (negb _) eqn:Eb.
    - to_prop. apply append_item_ok in E as [Hg Hr'];
        [|apply Hsc|done|done|intros s; cbn; rewrite length_app; cbn; split; [lia|done]].
      split; [done|]. intros Hsm. split; [|auto].
      apply skip_children_ok. by eapply scope_ok_grows.
    - simplify_eq. split; [done|]. intros _. split; [by apply skip_children_ok|done]. }
  assert (Hreg : forall x y q, grows d (register_type off x y q d))
    by (intros x y q i s Hs; by exists s).
  assert (Hn : forall y q, grows d (die_named off a sc y q d) /\
                           pending_refs_ (die_named off a sc y q d) = pending_refs_ d /\
                           structs_ (die_named off a sc y q d) = structs_ d).
  { intros y q. unfold die_named. destruct (bool_decide _); [done|].
    split_and!; [by apply Hreg|done|done]. }
  destruct ((_ =? DW_TAG_base_type) || _ || _); [|destruct (tag =? DW_TAG_typedef);
    [|destruct (tag_qualifier tag)]]; simplify_eq.
  - destruct (Hn 0 0) as (Hg & Hp & _). split; [done|]. intros _.
    split; [by apply skip_children_ok; eapply scope_ok_grows|by eapply refs_ok_grows].
  - destruct (Hn ref 5) as (Hg & Hp & _). split; [done|]. intros _.
    split; [by apply skip_children_ok; eapply scope_ok_grows|by eapply refs_ok_grows].
  - split; [by apply Hreg|]. intros _. split; [by apply skip_children_ok|done].
  - split; [done|]. intros _. split; [by apply skip_children_ok|done].
Qed.

Lemma update_struct_inv idx f d d' :
  (forall s s', f s = Ok s' -> (length (si_bases s) <= length (si_bases s'))%nat /\
                               (length (si_members s) <= length (si_members s'))%nat) ->
  update_struct idx f d = Ok d' -> grows d d'.
Proof.
  intros Hf H. pose proof H as H'. unfold update_struct in H'.
  destruct (Z.ltb_spec idx 0); [done|]. res_inv. destruct (Hf _ _ E0).
  edestruct (update_struct_grows idx f d) as (E' & Hg & _); [done|exact E|exact E0|done|done|].
  assert (d' = with_structs (<[Z.to_nat idx := v0]> (structs_ d)) d) as -> by congruence.
  done.
Qed.

Lemma append_item_grows idx b f ref d d' :
  (forall s, (length (si_bases s) <= length (si_bases (f s)))%nat /\
             (length (si_members s) <= length (si_members (f s)))%nat) ->
  append_item idx b f ref d = Ok d' -> grows d d'.
Proof.
  intros Hf H. unfold append_item in H. res_inv.
  assert (grows d v) by (eapply update_struct_inv; [|done]; intros s s' [= <-]; apply Hf).
  destruct (_ =? 0); [by simplify_eq|]. res_inv. by subst.
Qed.

Lemma die_tag_grows tag ch off ref a sc d d' sc' :
  die_tag tag ch off ref a sc d = Ok (d', sc') -> grows d d'.
Proof.
  assert (Hreg : forall x y q d, grows d (register_type off x y q d))
    by (intros x y q d1 i s Hs; by exists s).
  assert (Hn : forall y q, grows d (die_named off a sc y q d)).
  { intros y q. unfold die_named. destruct (bool_decide _); [done|]. apply Hreg. }
  intros H. unfold die_tag in H. destruct (tag =? DW_TAG_namespace); [by simplify_eq|].
  destruct (_ || _).
  { unfold die_struct in H. destruct (bool_decide _); [by simplify_eq|].
    cbn zeta in H. injection H as <- _. intros i s Hs. exists s. split; [|lia].
    cbn. by apply lookup_app_l_Some. }
  destruct (tag =? DW_TAG_member); [|destruct (tag =? DW_TAG_inheritance)].
  - unfold die_member in H. res_inv. destruct (_ && _); [|by simplify_eq].
    apply append_item_grows in E; [by simplify_eq|]. intros s. cbn. rewrite length_app. lia.
  - unfold die_base in H. res_inv. destruct (negb _); [|by simplify_eq].
    apply append_item_grows in E; [by simplify_eq|]. intros s. cbn. rewrite length_app. lia.
  - destruct ((_ =? DW_TAG_base_type) || _ || _); [|destruct (tag =? DW_TAG_typedef);
      [|destruct (tag_qualifier tag)]]; simplify_eq;
      first [apply Hn|apply Hreg|reflexivity].
Qed.

(** The loader is left as it was. *)
Ltac stay := unfold pret in *; simplify_eq; split; [reflexivity|by auto].

Lemma die_loop_ok k h e asz w table base cu ptr sc d d' r :
  die_loop k h e asz w table base cu ptr sc d = (d', Ok r) ->
  grows d d' /\ (small d' -> scope_ok d sc -> refs_ok d -> refs_ok d').
Proof.
  revert ptr sc d. induction k as [|k IH]; intros ptr sc d; cbn [die_loop];
    (destruct (ptr <? e); [|intros; stay]); [done|].
  intros (d1 & x & Hd & H)%pbind_Ok_inv. injection Hd as <- <-. cbn zeta in H.
  apply pbind_Ok_inv in H as (d1 & c & [-> _]%lift_Ok_inv & H). cbn [fst snd] in H.
  destruct (_ =? 0).
  { destruct (stk sc) as [|[ns idx] rest] eqn:Es; [stay|].
    apply IH in H as [Hg H]. split; [done|]. intros Hsm [_ Hst] Hr. apply H; [done| |done].
    rewrite Es in Hst. by apply Forall_cons_1 in Hst. }
  destruct (table !! _); [|stay].
  apply pbind_Ok_inv in H as (d1 & o & [-> _]%lift_Ok_inv & H).
  destruct o as [[p a']|]; [|stay].
  apply pbind_Ok_inv in H as (d1 & sc1 & Ht & H). unfold on_part, id in Ht.
  destruct (die_tag _ _ _ _ _ _ _) as [[d2 sc2]| | |] eqn:Et; simplify_eq.
  apply IH in H as [Hg H]. pose proof (die_tag_grows _ _ _ _ _ _ _ _ _ Et) as Hg1.
  split; [by etrans|]. intros Hsm Hsc Hr.
  apply die_tag_ok in Et as [_ Ht]; [|done..].
  destruct (Ht (small_grows _ _ Hg Hsm)). by apply H.
Qed.

Lemma ParseCompileUnit_ok k h ptr e d d' r :
  ParseCompileUnit k h ptr e d = (d', Ok r) ->
  grows d d' /\ (small d' -> refs_ok d -> refs_ok d').
Proof.
  unfold ParseCompileUnit. intros (d1 & ext & [-> _]%lift_Ok_inv & H)%pbind_Ok_inv.
  destruct ext as [[[p cu_end] w]|]; [|stay].
  destruct (_ <? _); [stay|].
  apply pbind_Ok_inv in H as (d1 & hdr & [-> _]%lift_Ok_inv & H).
  destruct hdr as [u|]; [|stay].
  apply pbind_Ok_inv in H as (d1 & x & Hd & H). injection Hd as <- <-.
  destruct (_ !! _); [|stay].
  apply pbind_Ok_inv in H as (d1 & base & [-> _]%lift_Ok_inv & H).
  apply pbind_Ok_inv in H as (d1 & o & Hd & H). injection H as <- _.
  apply die_loop_ok in Hd as [Hg Hok]. split; [done|]. intros. apply Hok; [done| |done].
  split; [by left|constructor].
Qed.

Lemma unit_loop_ok k h ptr e d d' r :
  unit_loop k h ptr e d = (d', Ok r) -> grows d d' /\ (small d' -> refs_ok d -> refs_ok d').
Proof.
  revert ptr d. induction k as [|k IH]; intros ptr d; cbn [unit_loop];
    (destruct (ptr <? e); [|intros; stay]); [done|].
  intros (d1 & next & Hc & H)%pbind_Ok_inv. apply ParseCompileUnit_ok in Hc as [Hg Hok].
  destruct next as [next|]; [|by injection H as <- _].
  destruct (_ || _); [by injection H as <- _|].
  apply IH in H as [Hg' Hok']. split; [by etrans|]. intros Hsm Hr.
  apply Hok'; [done|]. apply Hok; [|done]. by eapply small_grows.
Qed.

(** A type name is stored: the vectors keep their sizes. *)
Lemma set_type_name_ok b i nm s :
  0 <= i < (if b : bool then len (si_bases s) else len (si_members s)) ->
  exists s', set_type_name b i nm s = Ok s' /\
    length (si_bases s') = length (si_bases s) /\ length (si_members s') = length (si_members s).
Proof.
  intros Hi. unfold set_type_name. rewrite (proj2 (Z.ltb_ge i 0)) by lia. destruct b.
  - destruct (lookup_lt_is_Some_2 (si_bases s) (Z.to_nat i)) as [x Hx]; [lia|].
    rewrite Hx. eexists. split; [done|]. cbn. by rewrite length_insert.
  - destruct (lookup_lt_is_Some_2 (si_members s) (Z.to_nat i)) as [x Hx]; [lia|].
    rewrite Hx. eexists. split; [done|]. cbn. by rewrite length_insert.
Qed.

Lemma resolve_ref_ok d p :
  ref_ok d p -> exists d', resolve_ref d p = Ok d' /\ grows d d'.
Proof.
  intros (Hi & s & Hs & Hp). unfold resolve_ref. destruct (pr_type p =? 0); [by exists d|].
  destruct (bool_decide _); [by exists d|].
  destruct (set_type_name_ok (pr_base p) (pr_item p) (ResolveTypeName d (pr_type p) 0) s Hp)
    as (s' & E & Hb & Hm).
  destruct (update_struct_grows (pr_struct p)
    (set_type_name (pr_base p) (pr_item p) (ResolveTypeName d (pr_type p) 0)) d s s')
    as (E' & Hg & _); [done..|lia|lia|]. by eexists.
Qed.

Lemma resolve_refs_ok l d :
  Forall (ref_ok d) l -> exists d', resolve_refs l d = Ok d' /\ grows d d'.
Proof.
  revert d. induction l as [|p l IH]; intros d Hl; cbn [resolve_refs]; [by exists d|].
  apply Forall_cons_1 in Hl as [Hp Hl]. apply resolve_ref_ok in Hp as (d1 & E & Hg).
  rewrite E. cbn [rbind]. destruct (IH d1) as (d2 & E2 & Hg2).
  - rewrite Forall_elem in Hl |- *. intros q Hq. eapply ref_ok_grows; [done|]. by apply Hl.
  - exists d2. split; [done|by etrans].
Qed.

(** Every pending type reference that parsing .debug_info records denotes an
    existing base or member of an existing structure (as long as the vectors fit an
    [int]), so [ResolveTypes] never indexes outside a vector: it succeeds and only ever
    adds to the structures found. *)
Theorem ResolveTypes_safe (fuel : nat) (h : host) (ptr end_ : Z) (d d' : DwarfLoader)
    (Hparse : unit_loop fuel h ptr end_ d = (d', Ok tt))
    (Hd : pending_refs_ d = []) (Hsm : small d') :
  refs_ok d' /\ exists d'', ResolveTypes d' = Ok d'' /\ grows d' d''.
Proof.
  apply unit_loop_ok in Hparse as [Hg Hok].
  assert (Hr : refs_ok d') by (apply Hok; [done|]; unfold refs_ok; by rewrite Hd).
  split; [done|]. by apply resolve_refs_ok.
Qed.

Lemma ResolveTypes_safe_witness :
  let t : AbbrevMap := {[ 0 := walk_table ]} in
  let unit := le_bytes 4 16 ++ [0x04; 0; 0; 0; 0; 0; 0x08] ++
              [0x01; 65; 0; 0x02; 120; 0; 0x05; 0x08; 0x00] in
  let d := with_sections no_section {| sec_data := 0x1000; sec_size := 20 |} no_section
             no_section (with_abbrevs t new_DwarfLoader) in
  exists d', unit_loop 20 (page unit) 0x1000 0x1014 d = (d', Ok tt) /\
    pending_refs_ d' = [{| pr_struct := 0; pr_base := false; pr_item := 0; pr_type := 5 |}] /\
    refs_ok d'.
Proof.
  intros t unit d. set (r := unit_loop 20 (page unit) 0x1000 0x1014 d).
  exists (fst r). assert (E : r = (fst r, Ok tt)) by (vm_compute; reflexivity).
  split; [exact E|]. split; [vm_compute; reflexivity|].
  apply (ResolveTypes_safe 20 (page unit) 0x1000 0x1014 d (fst r) E eq_refl).
  split; [by vm_compute|]. apply Forall_singleton. by vm_compute.
Defined.

(** * Type names *)

(** The name of the type at an offset, a chain of [n] entries: [void] is the offset 0 and
    has the empty name. *)
Inductive type_name (types : gmap Z TypeEntry) : nat -> Z -> list Z -> Prop :=
  | tn_void : type_name types 0 0 []
  | tn_named off e :
      off <> 0 -> types !! off = Some e -> te_qual e = 0 -> type_name types 1 off (te_name e)
  | tn_typedef off e :
      off <> 0 -> types !! off = Some e -> te_qual e = 5 -> te_name e <> [] ->
      type_name types 1 off (te_name e)
  | tn_alias off e n s :                                  (* an unnamed typedef *)
      off <> 0 -> types !! off = Some e -> te_qual e = 5 -> te_name e = [] ->
      type_name types n (te_ref e) s -> type_name types (S n) off s
  | tn_suffix off e n s x :
      off <> 0 -> types !! off = Some e ->
      (te_qual e, x) ∈ [(1, chars "*"); (2, chars "&"); (6, chars "[]")] ->
      type_name types n (te_ref e) s -> type_name types (S n) off (s ++ x)
  | tn_prefix off e n s x :
      off <> 0 -> types !! off = Some e ->
      (te_qual e, x) ∈ [(3, chars "const"); (4, chars "volatile")] ->
      type_name types n (te_ref e) s ->
      type_name types (S n) off (if bool_decide (s = []) then x else x ++ chars " " ++ s).

Lemma resolve_type_name types n off s fuel :
  type_name types n off s -> (n <= fuel)%nat -> resolve_type fuel types off = s.
Proof.
  intros H. revert fuel.
  induction H as [|off e Hz He Hq|off e Hz He Hq Hn|off e n s Hz He Hq Hn _ IH
    |off e n s x Hz He Hq _ IH|off e n s x Hz He Hq _ IH]; intros fuel Hf;
    (destruct fuel as [|fuel]; [done || lia|]); cbn [resolve_type];
    try (rewrite (proj2 (Z.eqb_neq off 0)), He by done); cbn zeta; try done;
    try (rewrite IH by lia).
  - by rewrite Hq.
  - rewrite Hq. cbn. by rewrite bool_decide_eq_false_2.
  - rewrite Hq. cbn. by rewrite bool_decide_eq_true_2.
  - rewrite !elem_of_cons, elem_of_nil in Hq.
    destruct Hq as [[= -> ->]|[[= -> ->]|[[= -> ->]|[]]]]; done.
  - rewrite !elem_of_cons, elem_of_nil in Hq.
    destruct Hq as [[= -> ->]|[[= -> ->]|[]]]; done.
Qed.

(** [ResolveTypeName] returns the C++ name of every type whose chain of qualifiers,
    typedefs and arrays has at most nine entries. *)
Theorem ResolveTypeName_spec (d : DwarfLoader) (n : nat) (off : Z) (s : list Z)
    (Ht : type_name (type_registry_ d) n off s) (Hn : (n <= 9)%nat) :
  ResolveTypeName d off 0 = s.
Proof. by eapply resolve_type_name. Qed.

(** [const char*]. *)
Definition names_demo : gmap Z TypeEntry :=
  {[ 10 := {| te_name := chars "char"; te_ref := 0; te_qual := 0 |};
     20 := {| te_name := []; te_ref := 10; te_qual := 3 |};
     30 := {| te_name := []; te_ref := 20; te_qual := 1 |} ]}.

Lemma ResolveTypeName_spec_witness :
  ResolveTypeName (with_types names_demo new_DwarfLoader) 30 0 = chars "const char*".
Proof.
  apply (ResolveTypeName_spec (with_types names_demo new_DwarfLoader) 3); [|lia].
  apply (tn_suffix _ 30 {| te_name := []; te_ref := 20; te_qual := 1 |} 2
           (chars "const char") (chars "*")); [done|done|by left|].
  apply (tn_prefix _ 20 {| te_name := []; te_ref := 10; te_qual := 3 |} 1 (chars "char")
           (chars "const")); [done|done|by left|].
  by apply (tn_named _ 10 {| te_name := chars "char"; te_ref := 0; te_qual := 0 |}).
Defined.

(** A chain of ten pointers loses its base: the name is nine stars. *)
Definition deep_types : gmap Z TypeEntry :=
  list_to_map ((1, {| te_name := chars "int"; te_ref := 0; te_qual := 0 |}) ::
    map (fun i => (i, {| te_name := []; te_ref := i - 1; te_qual := 1 |})) (seqZ 2 10)).

Example ResolveTypeName_deep :
  ResolveTypeName (with_types deep_types new_DwarfLoader) 11 0 = chars "*********".
Proof. vm_compute. reflexivity. Qed.
