(* ===== verification/Bits.v ===== *)
(** Bit-level access to target memory, on which the ART decoders are built:
    android/art/base/bit_memory_region.{h,cpp} ([BitMemoryRegion], [BitMemoryReader]),
    memory_region.{h,cpp} ([MemoryRegion]) and leb128.h.

    A region is a page-aligned reference and a bit offset; a load reads one or two whole
    words of the pointer size and cuts the field out of them.  The reader is a region
    whose length is the number of bits read so far.  BitsProofs.v shows that all of this
    is the reading of consecutive bit-fields of one little-endian number. *)

From Stdlib Require Import ZArith Lia Bool.
From stdpp Require Import base list gmap numbers.
From S2P Require Import Prelude Words Host Blocks Notes CoreApi Segments AddressSpace MemRef Elf.
Open Scope Z_scope.

(** * Constants (globals.h) *)

Definition kBitsPerByte : Z := 8.
Definition kBitsPerByteLog2 : Z := 3.
Definition kStackAlignment : Z := 16.
Definition kPageSize : Z := 0x1000.

(** * [MemoryRegion] *)

Record MemoryRegion := { mr_pointer : Z; mr_size : Z }.

Definition mr_empty : MemoryRegion := {| mr_pointer := 0; mr_size := 0 |}.
Definition mr_size_in_bits (r : MemoryRegion) : Z := u64 (mr_size r * kBitsPerByte).
(** [MemoryRegion::Subregion(offset, size)]. *)
Definition mr_Subregion (r : MemoryRegion) (offset size : Z) : MemoryRegion :=
  {| mr_pointer := u64 (mr_pointer r + offset); mr_size := size |}.

(** [LoadUnalignedN(offset)]: the bytes one by one; the sum wraps at the width. *)
Fixpoint load_bytes (n : nat) (c : CoreApi) (r : MemoryRef) (offset i : Z) : result Z :=
  match n with
  | O => Ok 0
  | S n =>
      let! b := value8Of c r (u64 (offset + i)) in
      let! rest := load_bytes n c (fst b) offset (i + 1) in
      Ok (Z.shiftl (snd b) (i * kBitsPerByte) + rest)
  end.

Definition LoadUnaligned (w : Z) (c : CoreApi) (r : MemoryRegion) (offset : Z) : result Z :=
  let! v := load_bytes (Z.to_nat (w / 8)) c (ref_at (mr_pointer r)) offset 0 in
  Ok (wrap w v).

Definition LoadUnaligned32 := LoadUnaligned 32.

(** [ComputeBitPointer(bit_offset, &bit_mask)]. *)
Definition ComputeBitPointer (r : MemoryRegion) (bit_offset : Z) : Z * Z :=
  (u64 (mr_pointer r + Z.shiftr bit_offset kBitsPerByteLog2),
   u8 (Z.shiftl 1 (Z.land bit_offset (kBitsPerByte - 1)))).

(** [MemoryRegion::LoadBit(bit_offset)]. *)
Definition mr_LoadBit (c : CoreApi) (r : MemoryRegion) (bit_offset : Z) : result bool :=
  let '(byte, mask) := ComputeBitPointer r bit_offset in
  let! v := value8Of c (ref_at byte) 0 in
  Ok (negb (Z.land (snd v) mask =? 0)).

(** * [BitMemoryRegion] *)

Record BitMemoryRegion := { data_ : MemoryRef; bit_start_ : Z; bit_size_ : Z }.

(** The default constructor leaves [bit_start_] and [bit_size_] indeterminate; no such
    region is read. *)
Definition no_region : BitMemoryRegion :=
  {| data_ := ref_at 0; bit_start_ := 0; bit_size_ := 0 |}.

(** [BitMemoryRegion(data, bit_start, bit_size)]; [bit_start] is signed. *)
Definition bit_region (data bit_start bit_size : Z) : BitMemoryRegion :=
  let p := RoundDown 64 (u64 (data + Z.shiftr bit_start kBitsPerByteLog2)) kPageSize in
  {| data_ := ref_at p;
     bit_start_ := u64 (bit_start + kBitsPerByte * (data - p));
     bit_size_ := bit_size |}.

(** [BitMemoryRegion(region)]. *)
Definition region_bits (r : MemoryRegion) : BitMemoryRegion :=
  bit_region (mr_pointer r) 0 (mr_size_in_bits r).

(** [Subregion(bit_offset, bit_length)]. *)
Definition Subregion (r : BitMemoryRegion) (off len : Z) : BitMemoryRegion :=
  {| data_ := data_ r; bit_start_ := u64 (bit_start_ r + off); bit_size_ := len |}.

(** [BitMemoryRegion(region, bit_offset, bit_length)]. *)
Definition region_part (r : MemoryRegion) (off len : Z) : BitMemoryRegion :=
  Subregion (region_bits r) off len.

Definition Resize (r : BitMemoryRegion) (n : Z) : BitMemoryRegion :=
  {| data_ := data_ r; bit_start_ := bit_start_ r; bit_size_ := n |}.

(** [data()]. *)
Definition region_data (r : BitMemoryRegion) : Z :=
  u64 (vaddr (data_ r) + bit_start_ r / kBitsPerByte).

Definition with_data (d : MemoryRef) (r : BitMemoryRegion) : BitMemoryRegion :=
  {| data_ := d; bit_start_ := bit_start_ r; bit_size_ := bit_size_ r |}.

(** [LoadBit(bit_offset)]. *)
Definition LoadBit (c : CoreApi) (r : BitMemoryRegion) (off : Z)
    : result (BitMemoryRegion * bool) :=
  let pos := u64 (bit_start_ r + off) in
  let! v := value8Of c (data_ r) (pos / kBitsPerByte) in
  Ok (with_data (fst v) r, negb (Z.land (Z.shiftr (snd v) (pos mod kBitsPerByte)) 1 =? 0)).

(** The body of [LoadBits] and [LoadBits64]: words of [width] bits, [point_size] bytes,
    read by [word]. A length above 64 shifts by more than the width of the type. *)
Definition load_bits (word : CoreApi -> MemoryRef -> Z -> result (MemoryRef * Z))
    (width point_size : Z) (c : CoreApi) (r : BitMemoryRegion) (off len : Z)
    : result (BitMemoryRegion * Z) :=
  if len =? 0 then Ok (r, 0) else
  if 64 <? len then Fault else
  let pos := u64 (bit_start_ r + off) in
  let index := pos / width in
  let shift := pos mod width in
  let! v := word c (data_ r) (u64 (index * point_size)) in
  let! x := word c (fst v) (u64 (u64 (index + (shift + (len - 1)) / width) * point_size)) in
  let clear := shl 64 (shl 64 (2 ^ 64 - 1) 1) (len - 1) in
  Ok (with_data (fst x) r,
      Z.land (Z.lor (Z.shiftr (snd v) shift)
                    (shl 64 (snd x) (Z.land (width - shift) (width - 1))))
             (bnot 64 clear)).

Section Machine.
Context {M : Machine}.

(** [LoadBits(bit_offset, bit_length)]: words of the pointer size. *)
Definition LoadBits : CoreApi -> BitMemoryRegion -> Z -> Z -> result (BitMemoryRegion * Z) :=
  load_bits valueOf bits point_size.
(** [LoadBits64(bit_offset, bit_length)]. *)
Definition LoadBits64 : CoreApi -> BitMemoryRegion -> Z -> Z -> result (BitMemoryRegion * Z) :=
  load_bits value64Of 64 8.

(** The chunks of whole words of [VisitChunks]: [n] of them from the reference [d]. The
    visitor returns false to stop. *)
Fixpoint visit_words {A : Type} (visitor : A -> Z -> Z -> Z -> A * bool) (n : nat)
    (c : CoreApi) (d : MemoryRef) (offset : Z) (a : A) : result (MemoryRef * A * bool) :=
  match n with
  | O => Ok (d, a, true)
  | S n =>
      let! v := valueOf c d 0 in
      let '(a, more) := visitor a offset bits (snd v) in
      if more : bool then
        let! d := MovePtr c (fst v) point_size in
        visit_words visitor n c d (offset + bits) a
      else Ok (fst v, a, false)
  end.

(** [value & ~(max << n)]. *)
Definition low_bits (v n : Z) : Z := Z.land v (bnot 64 (shl 64 (2 ^ 64 - 1) n)).

(** The last, partial chunk. *)
Definition visit_tail {A : Type} (visitor : A -> Z -> Z -> Z -> A * bool)
    (c : CoreApi) (d : MemoryRef) (offset remaining : Z) (a : A) : result (A * bool) :=
  if remaining =? 0 then Ok (a, true) else
  let! v := valueOf c d 0 in
  Ok (visitor a offset remaining (low_bits (snd v) remaining)).

(** The whole words, then the tail. *)
Definition visit_rest {A : Type} (visitor : A -> Z -> Z -> Z -> A * bool)
    (c : CoreApi) (d : MemoryRef) (offset remaining : Z) (a : A) : result (A * bool) :=
  let n := remaining / bits in
  let! r := visit_words visitor (Z.to_nat n) c d offset a in
  let '(d, a, more) := r in
  if more : bool then visit_tail visitor c d (offset + n * bits) (remaining - n * bits) a
  else Ok (a, false).

(** [VisitChunks(visitor)] with an accumulator: a leading partial word, whole words, a
    trailing partial word. *)
Definition VisitChunks {A : Type} (visitor : A -> Z -> Z -> Z -> A * bool)
    (c : CoreApi) (r : BitMemoryRegion) (a : A) : result (A * bool) :=
  let remaining := bit_size_ r in
  if remaining =? 0 then Ok (a, true) else
  let! d := MovePtr c (data_ r) (u64 (bit_start_ r / bits * point_size)) in
  let lead := bit_start_ r mod bits in
  if lead =? 0 then visit_rest visitor c d 0 remaining a else
  let! v := valueOf c d 0 in
  let value := Z.shiftr (snd v) lead in
  let leading := bits - lead in
  let '(leading, value) :=
    if remaining <? leading then (remaining, low_bits value remaining) else (leading, value) in
  let '(a, more) := visitor a 0 leading value in
  if more : bool then
    let! d := MovePtr c (fst v) point_size in
    visit_rest visitor c d leading (remaining - leading) a
  else Ok (a, false).

(** [PopCount()] and [PopCount(bit_offset, bit_length)]. *)
Definition PopCount (c : CoreApi) (r : BitMemoryRegion) : result Z :=
  let! s := VisitChunks (fun s _ _ value => (u64 (s + POPCOUNT value), true)) c r 0 in
  Ok (fst s).
Definition PopCount_part (c : CoreApi) (r : BitMemoryRegion) (off len : Z) : result Z :=
  PopCount c (Subregion r off len).

(** * [BitMemoryReader] *)

Definition kVarintBits : Z := 4.
Definition kVarintMax : Z := 11.

(** The reader is its [finished_region_]. *)
Definition BitMemoryReader : Type := BitMemoryRegion.

(** [BitMemoryReader(data, bit_offset)] and [BitMemoryReader(region)]. *)
Definition reader_at (data bit_offset : Z) : BitMemoryReader := bit_region data bit_offset 0.
Definition reader_of (r : BitMemoryRegion) : BitMemoryReader := Subregion r 0 0.

Definition NumberOfReadBits (rd : BitMemoryReader) : Z := bit_size_ rd.

(** [ReadRegion(bit_length)]. *)
Definition ReadRegion (rd : BitMemoryReader) (n : Z) : BitMemoryReader * BitMemoryRegion :=
  let off := bit_size_ rd in
  let rd := Resize rd (u64 (off + n)) in
  (rd, Subregion rd off n).

Definition ReadBit (c : CoreApi) (rd : BitMemoryReader) : result (BitMemoryReader * bool) :=
  let '(rd, r) := ReadRegion rd 1 in
  let! v := LoadBit c r 0 in Ok (rd, snd v).

Definition ReadBits (c : CoreApi) (rd : BitMemoryReader) (n : Z) : result (BitMemoryReader * Z) :=
  let '(rd, r) := ReadRegion rd n in
  let! v := LoadBits c r 0 n in Ok (rd, snd v).

Definition ReadBits64 (c : CoreApi) (rd : BitMemoryReader) (n : Z)
    : result (BitMemoryReader * Z) :=
  let '(rd, r) := ReadRegion rd n in
  let! v := LoadBits64 c r 0 n in Ok (rd, snd v).

(** [ReadVarint()]: four bits, and up to four bytes more. *)
Definition ReadVarint (c : CoreApi) (rd : BitMemoryReader) : result (BitMemoryReader * Z) :=
  let! x := ReadBits c rd kVarintBits in
  if u32 (snd x) <=? kVarintMax then Ok (fst x, u32 (snd x)) else
  let! v := ReadBits c (fst x) ((u32 (snd x) - kVarintMax) * kBitsPerByte) in
  Ok (fst v, u32 (snd v)).

(** The second loop of [ReadInterleavedVarints] over [values[i]], [values[i+1]], ...: the
    [n] values from index [i] on. *)
Fixpoint read_rest (n : nat) (i : nat) (c : CoreApi) (rd : BitMemoryReader) (values : list Z)
    : result (BitMemoryReader * list Z) :=
  match n with
  | O => Ok (rd, values)
  | S n =>
      let! x := of_option (values !! i) in
      if kVarintMax <? x then
        let! v := ReadBits c rd ((x - kVarintMax) * kBitsPerByte) in
        read_rest n (S i) c (fst v) (<[i := u32 (snd v)]> values)
      else read_rest n (S i) c rd values
  end.

(** [ReadInterleavedVarints(num, values)]: all the 4-bit parts first. *)
Definition ReadInterleavedVarints (c : CoreApi) (rd : BitMemoryReader) (num : nat)
    (values : list Z) : result (BitMemoryReader * list Z) :=
  let! d := ReadBits64 c rd (u32 (Z.of_nat num * kVarintBits)) in
  let values := values ++ map (fun i => u32 (BitFieldExtract 64 (snd d)
                                   (u32 (i * kVarintBits)) kVarintBits)) (seqZ 0 (Z.of_nat num)) in
  read_rest num 0 c (fst d) values.
End Machine.

(** * leb128.h *)

(** [DecodeUnsignedLeb128(&ptr)]: at most five bytes, no end pointer; the high bits of the
    fifth byte fall off. *)
Fixpoint leb_loop (n : nat) (h : host) (ptr shift acc : Z) : result (Z * Z) :=
  let! b := host_word h ptr 1 in
  let ptr := u64 (ptr + 1) in
  match n with
  | O => Ok (Z.lor acc (shl 32 b shift), ptr)
  | S n =>
      if 0x7f <? b then leb_loop n h ptr (shift + 7) (Z.lor acc (Z.shiftl (Z.land b 0x7f) shift))
      else Ok (Z.lor acc (Z.shiftl b shift), ptr)
  end.

Definition DecodeUnsignedLeb128 (h : host) (ptr : Z) : result (Z * Z) := leb_loop 4 h ptr 0 0.
