(* ===== verification/BitsProofs.v ===== *)
(** The bit-level reader ([Bits]) against the interface of [MemRef]: the memory at a
    reference is one little-endian number, a load is a bit-field of it, and the reader
    walks through consecutive fields. Round trips of the varint formats and the population
    count follow. *)

From Stdlib Require Import ZArith Lia Bool.
From stdpp Require Import base list gmap numbers.
From S2P Require Import Prelude Words Host Blocks Notes CoreApi Segments AddressSpace MemRef Elf.
From S2P Require Import Bits.
Open Scope Z_scope.

(** * Words *)

(** A machine of the program: words of 32 or 64 bits. *)
Class MachineOk {M : Machine} (c : CoreApi) : Prop := {
  mo_bits : bits = 8 * point_size;
  mo_size : point_size = 4 \/ point_size = 8;
  mo_mask : pointer_mask c = 2 ^ bits - 1;
}.

Section Loads.
Context {M : Machine} (c : CoreApi) (run : Z -> Z -> option (list Z)) `{!Presents c run}.

(** The [n] bytes from a reference on are readable and form the number [V]. *)
Definition number_at (d : MemoryRef) (n V : Z) : Prop :=
  ref_ok c d /\ vaddr d <> 0 /\ n < 2 ^ 60 /\
  exists bs, run (Z.land (vaddr d) (vabits_mask c)) n = Some bs /\ Forall byte_ok bs /\
    V = le_value bs.

Lemma number_at_ref d d' n V :
  number_at d n V -> vaddr d' = vaddr d -> ref_ok c d' -> number_at d' n V.
Proof. intros (H1 & H2 & H3 & bs & H4 & H5 & H6) E H. split_and!; rewrite ?E; eauto. Qed.

(** A word of [w] bits at the word index [i]. *)
Definition reads_words (word : CoreApi -> MemoryRef -> Z -> result (MemoryRef * Z))
    (w ps : Z) : Prop :=
  forall d n V i, number_at d n V -> 0 <= i -> i * ps + 8 <= n ->
  exists d', word c d (u64 (i * ps)) = Ok (d', field_at V (i * w) w) /\ number_at d' n V /\
    vaddr d' = vaddr d.

Lemma value64Of_words : reads_words value64Of 64 8.
Proof.
  intros d n V i Hn Hi Hle. pose proof Hn as (Hr & Hnz & Hb & bs & Hrun & Hok & ->).
  destruct (load_field c run d (i * 8) 8 n bs Hr Hnz ltac:(lia) ltac:(lia) ltac:(lia) Hrun)
    as (d' & E & Hv & Hr' & _).
  exists d'. rewrite wrap_small by lia. split_and!; [|by eapply number_at_ref|done].
  unfold value64Of. rewrite E. rewrite le_value_field by done.
  by replace (8 * Z.of_nat (Z.to_nat (i * 8))) with (i * 64) by lia.
Qed.

Lemma valueOf_words `{!MachineOk c} : reads_words valueOf bits point_size.
Proof.
  intros d n V i Hn Hi Hle. pose proof Hn as (Hr & Hnz & Hb & bs & Hrun & Hok & ->).
  pose proof mo_bits as Eb. pose proof mo_size as Es. pose proof (mo_mask (c := c)) as Em.
  assert (Hip : 0 <= i * point_size) by (destruct Es; nia).
  destruct (valueOf_field c run d (i * point_size) n bs Hr Hnz Hip Hle Hrun)
    as (d' & E & Hv & Hr').
  exists d'. rewrite wrap_small by lia. split_and!; [|by eapply number_at_ref|done].
  rewrite E, Em, le_value_field by done. rewrite Z.sub_1_r, <- Z.ones_equiv.
  rewrite Z.land_ones by lia. do 2 f_equal.
  replace (8 * Z.of_nat (Z.to_nat (i * point_size))) with (i * bits) by nia.
  change (8 * Z.of_nat 8) with 64.
  pose proof (field_at_field (le_value bs) (i * bits) 64 0 bits) as F.
  rewrite Z.add_0_r in F. rewrite <- F by (destruct Es; nia).
  unfold field_at at 2. by rewrite Z.pow_0_r, Z.div_1_r.
Qed.

(** [~clear]: the mask of the low [len] bits. *)
Lemma clear_mask len :
  1 <= len <= 64 -> bnot 64 (shl 64 (shl 64 (2 ^ 64 - 1) 1) (len - 1)) = Z.ones len.
Proof.
  intros Hl. unfold bnot. change (shl 64 (2 ^ 64 - 1) 1) with (2 ^ 64 - 2). unfold shl.
  assert (Hw : forall z, wrap 64 (Z.lnot (wrap 64 z)) = wrap 64 (Z.lnot z)).
  { intros z. bitwise i. by destruct (i <? 64). }
  rewrite Hw, Z.shiftl_mul_pow2 by lia. unfold Z.lnot, wrap.
  rewrite <- (Z.mod_add _ (2 ^ (len - 1))) by lia.
  replace (Z.pred _ + _) with (2 * 2 ^ (len - 1) - 1) by lia.
  rewrite <- Z.pow_succ_r, Z.ones_equiv by lia.
  replace (Z.succ (len - 1)) with len by lia.
  assert (0 < 2 ^ len) by (apply Z.pow_pos_nonneg; lia).
  assert (2 ^ len <= 2 ^ 64) by (apply Z.pow_le_mono_r; lia).
  rewrite Z.mod_small by lia. lia.
Qed.

(** [(width - shift) & (width - 1)] for a width that is a power of two. *)
Lemma other_shift w k shift :
  0 <= k -> w = 2 ^ k -> 0 <= shift < w ->
  Z.land (w - shift) (w - 1) = if shift =? 0 then 0 else w - shift.
Proof.
  intros Hk -> Hs. rewrite Z.sub_1_r, <- Z.ones_equiv, Z.land_ones by lia.
  destruct (Z.eqb_spec shift 0) as [->|].
  - rewrite Z.sub_0_r, Z.mod_same; [done|]. apply Z.pow_nonzero; lia.
  - apply Z.mod_small. lia.
Qed.

(** The words that hold a field. *)
Lemma load_bits_spec word w ps k r n V off len :
  reads_words word w ps -> w = 8 * ps -> w = 2 ^ k -> 0 <= k -> w <= 64 ->
  number_at (data_ r) n V -> 0 <= bit_start_ r -> 0 <= off -> 0 <= len <= w ->
  bit_start_ r + off + len + 64 <= 8 * n ->
  exists r', load_bits word w ps c r off len =
      Ok (r', field_at V (bit_start_ r + off) len) /\
    number_at (data_ r') n V /\ bit_start_ r' = bit_start_ r /\
    bit_size_ r' = bit_size_ r /\ vaddr (data_ r') = vaddr (data_ r).
Proof.
  intros Hw Hps Hk Hk0 Hw64 Hn Hs Ho Hl Hle. unfold load_bits.
  assert (0 < w) by (rewrite Hk; apply Z.pow_pos_nonneg; lia).
  pose proof Hn as (_ & _ & Hb & _).
  destruct (Z.eqb_spec len 0) as [->|Hl0].
  { exists r. unfold field_at. by rewrite Z.pow_0_r, Z.mod_1_r. }
  rewrite (proj2 (Z.ltb_ge 64 len)), (wrap_small 64 (bit_start_ r + off)) by lia.
  set (pos := bit_start_ r + off) in *. cbn zeta.
  pose proof (Z.div_mod pos w ltac:(lia)) as Hdm.
  pose proof (Z.mod_pos_bound pos w ltac:(lia)) as Hm.
  set (idx := pos / w) in *. set (sh := pos mod w) in *.
  assert (Hi : 0 <= idx) by (apply Z.div_pos; lia).
  set (step := (sh + (len - 1)) / w).
  assert (Hst : step = (if sh + (len - 1) <? w then 0 else 1)).
  { unfold step. destruct (Z.ltb_spec (sh + (len - 1)) w); [by apply Z.div_small; lia|].
    symmetry. apply (Z.div_unique _ _ _ (sh + (len - 1) - w)); lia. }
  assert (Hstep : 0 <= step <= 1) by (rewrite Hst; destruct (_ <? _); lia).
  destruct (Hw (data_ r) n V idx Hn Hi ltac:(nia)) as (d1 & E1 & Hn1 & Hv1).
  rewrite E1. cbn [rbind fst snd]. rewrite (wrap_small 64 (idx + step)) by nia.
  assert (Hle2 : (idx + step) * ps + 8 <= n).
  { rewrite Hst. destruct (Z.ltb_spec (sh + (len - 1)) w); nia. }
  destruct (Hw d1 n V (idx + step) Hn1 ltac:(lia) Hle2) as (d2 & E2 & Hn2 & Hv2).
  rewrite E2. cbn [rbind fst snd].
  exists (with_data d2 r). split; [|split_and!; [done|done|done|cbn; congruence]].
  rewrite clear_mask, (other_shift w k) by lia. do 2 f_equal.
  assert (Hbits : forall i, 0 <= i < len ->
    Z.testbit (Z.lor (Z.shiftr (field_at V (idx * w) w) sh)
      (shl 64 (field_at V ((idx + step) * w) w) (if sh =? 0 then 0 else w - sh))) i
    = Z.testbit V (i + pos)).
  { intros i Hil. unfold shl. autorewrite with words.
    assert (Hlo : Z.testbit (field_at V (idx * w) w) (i + sh)
              = ((i + sh <? w) && Z.testbit V (i + pos))%bool)
      by (rewrite field_at_testbit by nia; do 2 f_equal; lia).
    rewrite Hlo, (proj2 (Z.ltb_lt i 64)) by lia. cbn [andb].
    destruct (Z.eqb_spec sh 0) as [Hz|Hz].
    - rewrite Z.sub_0_r, field_at_testbit by nia.
      rewrite Hst, (proj2 (Z.ltb_lt (sh + (len - 1)) w)), !(proj2 (Z.ltb_lt _ w)) by lia.
      cbn [andb]. replace (i + (idx + 0) * w) with (i + pos) by lia. apply orb_diag.
    - destruct (Z.ltb_spec (i + sh) w); cbn [andb].
      + rewrite (Z.testbit_neg_r _ (i - (w - sh))) by lia. apply orb_false_r.
      + rewrite field_at_testbit by nia. rewrite Hst.
        rewrite (proj2 (Z.ltb_ge (sh + (len - 1)) w)), (proj2 (Z.ltb_lt _ w)) by lia.
        cbn. f_equal. lia. }
  apply Z.bits_inj'. intros i Hi0.
  rewrite Z.land_spec, field_at_testbit, Z.testbit_ones_nonneg by lia.
  destruct (Z.ltb_spec i len); [|apply andb_false_r].
  rewrite andb_true_r. cbn [andb]. by apply Hbits.
Qed.

Lemma LoadBits_at `{!MachineOk c} (r : BitMemoryRegion) (n V off len : Z)
    (Hn : number_at (data_ r) n V) (Hs : 0 <= bit_start_ r) (Ho : 0 <= off)
    (Hl : 0 <= len <= bits) (Hle : bit_start_ r + off + len + 64 <= 8 * n) :
  exists r', LoadBits c r off len = Ok (r', field_at V (bit_start_ r + off) len) /\
    number_at (data_ r') n V /\ bit_start_ r' = bit_start_ r /\ bit_size_ r' = bit_size_ r.
Proof.
  pose proof mo_bits as Eb. pose proof mo_size as Es.
  destruct (load_bits_spec valueOf bits point_size (if point_size =? 4 then 5 else 6)
              r n V off len valueOf_words) as (r' & H1 & H2 & H3 & H4 & _);
    try done; try (destruct Es as [E|E]; rewrite ?Eb, E; cbn; lia).
  by exists r'.
Qed.

(** [LoadBits] returns the field of the number that the memory at the region's base
    is: the one or two words it reads, shifted and combined, are the [len] bits from
    [bit_start_ + off] on, on 64-bit and on 32-bit targets, and the region only gets its
    reference resolved. *)
Theorem LoadBits_field `{!MachineOk c} (r : BitMemoryRegion) (n V off len : Z)
    (Hn : number_at (data_ r) n V) (Hs : 0 <= bit_start_ r) (Ho : 0 <= off)
    (Hl : 0 <= len <= bits) (Hle : bit_start_ r + off + len + 64 <= 8 * n) :
  exists r', LoadBits c r off len = Ok (r', field_at V (bit_start_ r + off) len) /\
    number_at (data_ r') n V /\ bit_start_ r' = bit_start_ r /\ bit_size_ r' = bit_size_ r.
Proof. by apply LoadBits_at. Qed.

(** * The reader *)

(** The bit the reader stands at. *)
Definition position (rd : BitMemoryReader) : Z := bit_start_ rd + bit_size_ rd.
Definition advance (rd : BitMemoryReader) (k : Z) : BitMemoryReader :=
  Resize rd (bit_size_ rd + k).

(** [k] more bits of [V] can be read. *)
Definition covers (rd : BitMemoryReader) (n V k : Z) : Prop :=
  number_at (data_ rd) n V /\ 0 <= bit_start_ rd /\ 0 <= bit_size_ rd /\ 0 <= k /\
  position rd + k + 64 <= 8 * n.

Lemma covers_advance rd n V a b :
  covers rd n V (a + b) -> 0 <= a -> 0 <= b -> covers (advance rd a) n V b.
Proof.
  intros (H1 & H2 & H3 & H4 & H5) Ha Hb. unfold covers, position, advance in *. cbn.
  split_and!; done || lia.
Qed.

Lemma advance_advance rd a b : advance (advance rd a) b = advance rd (a + b).
Proof. unfold advance, Resize. cbn. f_equal. lia. Qed.

Lemma position_advance rd a : position (advance rd a) = position rd + a.
Proof. unfold position, advance. cbn. lia. Qed.

Lemma advance_0 rd : advance rd 0 = rd.
Proof. destruct rd. unfold advance, Resize. cbn. f_equal. lia. Qed.

Lemma reader_words word w ps k rd n V m :
  reads_words word w ps -> w = 8 * ps -> w = 2 ^ k -> 0 <= k -> w <= 64 ->
  covers rd n V m -> m <= w ->
  exists r', load_bits word w ps c (snd (ReadRegion rd m)) 0 m
    = Ok (r', field_at V (position rd) m) /\ fst (ReadRegion rd m) = advance rd m.
Proof.
  intros Hw Hps Hk Hk0 Hw64 (H1 & H2 & H3 & H4 & H5) Hm.
  pose proof H1 as (_ & _ & Hb & _).
  unfold ReadRegion, position in *. cbn [fst snd].
  rewrite (wrap_small 64 (bit_size_ rd + m)) by lia.
  set (sub := Subregion _ _ _).
  assert (Hst : bit_start_ sub = bit_start_ rd + bit_size_ rd)
    by (cbn; by rewrite wrap_small by lia).
  destruct (load_bits_spec word w ps k sub n V 0 m Hw Hps Hk Hk0 Hw64 H1) as (r' & E & _);
    [lia..|]. exists r'. rewrite E, Hst, Z.add_0_r. done.
Qed.

Lemma ReadBits_at `{!MachineOk c} rd n V m :
  covers rd n V m -> m <= bits -> ReadBits c rd m = Ok (advance rd m, field_at V (position rd) m).
Proof.
  intros Hc Hm. pose proof mo_bits as Eb. pose proof mo_size as Es.
  destruct (reader_words valueOf bits point_size (if point_size =? 4 then 5 else 6)
              rd n V m valueOf_words) as (r' & E & E');
    try done; try (destruct Es as [Ep|Ep]; rewrite ?Eb, Ep; cbn; lia).
  unfold ReadBits, LoadBits. destruct (ReadRegion rd m) as [rd' r]. cbn [fst snd] in *.
  by rewrite E, E'.
Qed.

Lemma ReadBits64_at rd n V m :
  covers rd n V m -> m <= 64 -> ReadBits64 c rd m = Ok (advance rd m, field_at V (position rd) m).
Proof.
  intros Hc Hm.
  destruct (reader_words value64Of 64 8 6 rd n V m value64Of_words) as (r' & E & E');
    try done; try lia.
  unfold ReadBits64, LoadBits64. destruct (ReadRegion rd m) as [rd' r]. cbn [fst snd] in *.
  by rewrite E, E'.
Qed.

(** * Varints *)

(** Consecutive fields, with their widths. *)
Fixpoint fields_at (V pos : Z) (fs : list (Z * Z)) : Prop :=
  match fs with
  | [] => True
  | (w, v) :: fs => field_at V pos w = v /\ fields_at V (pos + w) fs
  end.
Definition width (fs : list (Z * Z)) : Z := foldr (fun f s => fst f + s) 0 fs.

(** The bytes of a value above 11. *)
Definition varint_bytes (v : Z) : Z :=
  if v <? 2 ^ 8 then 1 else if v <? 2 ^ 16 then 2 else if v <? 2 ^ 24 then 3 else 4.
Definition varint_head (v : Z) : Z := if v <=? 11 then v else 11 + varint_bytes v.
Definition varint_tail (v : Z) : list (Z * Z) :=
  if v <=? 11 then [] else [(8 * varint_bytes v, v)].
Definition varint_fields (v : Z) : list (Z * Z) := (4, varint_head v) :: varint_tail v.
Definition interleaved (vs : list Z) : list (Z * Z) :=
  map (fun v => (4, varint_head v)) vs ++ concat (map varint_tail vs).

Lemma width_app a b : width (a ++ b) = width a + width b.
Proof. unfold width. induction a as [|f a IH]; cbn; [lia|]. rewrite IH. lia. Qed.

Lemma fields_at_app V pos a b :
  fields_at V pos (a ++ b) <-> fields_at V pos a /\ fields_at V (pos + width a) b.
Proof.
  revert pos. induction a as [|[w v] a IH]; intros pos; cbn [app fields_at].
  - unfold width. cbn. rewrite Z.add_0_r. tauto.
  - rewrite IH. change (width ((w, v) :: a)) with (w + width a).
    rewrite Z.add_assoc. tauto.
Qed.

Lemma varint_bytes_range v : 1 <= varint_bytes v <= 4.
Proof. unfold varint_bytes. bool_cases; lia. Qed.

Lemma varint_tail_width v : 0 <= width (varint_tail v) <= 32.
Proof.
  unfold varint_tail, width. pose proof (varint_bytes_range v). destruct (v <=? 11); cbn; lia.
Qed.

(** The rest of a varint whose head is [x]. *)
Lemma read_tail `{!MachineOk c} rd n V v :
  0 <= v < 2 ^ 32 -> covers rd n V (width (varint_tail v)) ->
  fields_at V (position rd) (varint_tail v) ->
  (kVarintMax <? varint_head v) = negb (v <=? 11) /\
  (v <=? 11 = false ->
   ReadBits c rd ((varint_head v - kVarintMax) * kBitsPerByte) =
     Ok (advance rd (width (varint_tail v)), v)).
Proof.
  intros Hv Hc Hf. unfold varint_head, varint_tail, kVarintMax, kBitsPerByte in *.
  pose proof (varint_bytes_range v). pose proof mo_bits as Eb. pose proof mo_size as Es.
  destruct (Z.leb_spec v 11); (split; [cbn; lia|]); [done|]. intros _.
  replace ((11 + varint_bytes v - 11) * 8) with (8 * varint_bytes v) by lia.
  unfold width in *. cbn [foldr fst fields_at] in *. rewrite Z.add_0_r in *.
  rewrite (ReadBits_at rd n V) by (done || (destruct Es as [E|E]; rewrite Eb, E; lia)).
  by rewrite (proj1 Hf).
Qed.

Lemma ReadVarint_at `{!MachineOk c} (rd : BitMemoryReader) (n V v : Z)
    (Hv : 0 <= v < 2 ^ 32) (Hc : covers rd n V (width (varint_fields v)))
    (Hf : fields_at V (position rd) (varint_fields v)) :
  ReadVarint c rd = Ok (advance rd (width (varint_fields v)), v).
Proof.
  unfold varint_fields in *. cbn [fields_at] in Hf. destruct Hf as [Hh Ht].
  assert (Hw : width ((4, varint_head v) :: varint_tail v) = 4 + width (varint_tail v)) by done.
  rewrite Hw in *. pose proof (varint_tail_width v). pose proof (varint_bytes_range v).
  pose proof mo_bits as Eb. pose proof mo_size as Es.
  assert (Hc4 : covers rd n V 4).
  { destruct Hc as (? & ? & ? & ? & ?). split_and!; done || lia. }
  unfold ReadVarint, kVarintBits. rewrite (ReadBits_at rd n V 4) by (done || lia).
  cbn [rbind fst snd]. rewrite Hh.
  assert (Hr : 0 <= varint_head v < 16) by (unfold varint_head; bool_cases; lia).
  rewrite !wrap_small by lia.
  apply covers_advance in Hc; [|lia..]. rewrite <- position_advance in Ht.
  destruct (read_tail (advance rd 4) n V v Hv Hc Ht) as [H1 H2].
  destruct (Z.leb_spec v 11) as [Hle|Hgt].
  - rewrite (proj2 (Z.leb_le _ kVarintMax)) by (cbn in H1; to_prop; lia).
    unfold varint_tail, varint_head. rewrite (proj2 (Z.leb_le v 11)) by lia.
    unfold width. cbn. done.
  - rewrite (proj2 (Z.leb_gt _ kVarintMax)) by (cbn in H1; to_prop; lia).
    rewrite H2 by done. cbn [rbind fst snd].
    by rewrite advance_advance, wrap_small by lia.
Qed.

(** [ReadVarint] reads back the varint encoding of every 32-bit value and leaves the
    reader right behind it. *)
Theorem ReadVarint_roundtrip `{!MachineOk c} (rd : BitMemoryReader) (n V v : Z)
    (Hv : 0 <= v < 2 ^ 32) (Hc : covers rd n V (width (varint_fields v)))
    (Hf : fields_at V (position rd) (varint_fields v)) :
  ReadVarint c rd = Ok (advance rd (width (varint_fields v)), v).
Proof. by apply (ReadVarint_at rd n V). Qed.

Lemma interleaved_width vs :
  width (interleaved vs) = 4 * Z.of_nat (length vs) + width (concat (map varint_tail vs)).
Proof.
  unfold interleaved. rewrite width_app. f_equal.
  induction vs as [|v vs IH]; [done|]. cbn [map length].
  change (width ((4, varint_head v) :: map (fun v => (4, varint_head v)) vs))
    with (4 + width (map (fun v => (4, varint_head v)) vs)). lia.
Qed.

Lemma tails_width vs : 0 <= width (concat (map varint_tail vs)).
Proof.
  induction vs as [|v vs IH]; cbn [map concat]; [done|]. rewrite width_app.
  pose proof (varint_tail_width v). lia.
Qed.

Lemma read_rest_at `{!MachineOk c} rd n V prev rest :
  Forall (fun v => 0 <= v < 2 ^ 32) rest ->
  covers rd n V (width (concat (map varint_tail rest))) ->
  fields_at V (position rd) (concat (map varint_tail rest)) ->
  read_rest (length rest) (length prev) c rd (prev ++ map varint_head rest) =
    Ok (advance rd (width (concat (map varint_tail rest))), prev ++ rest).
Proof.
  intros Hr. revert rd prev. induction Hr as [|v rest Hv _ IH]; intros rd prev Hc Hf.
  - cbn. rewrite app_nil_r. change (width []) with 0. by rewrite advance_0.
  - cbn [map concat length read_rest] in *. rewrite width_app in Hc |- *.
    apply fields_at_app in Hf as [Hf Hfs].
    pose proof (varint_tail_width v). pose proof (tails_width rest).
    rewrite list_lookup_middle by done. cbn [of_option rbind].
    assert (Hc1 : covers rd n V (width (varint_tail v))).
    { destruct Hc as (? & ? & ? & ? & ?). split_and!; done || lia. }
    destruct (read_tail rd n V v Hv Hc1 Hf) as [H1 H2].
    apply covers_advance in Hc; [|lia..]. rewrite <- position_advance in Hfs.
    rewrite H1. destruct (Z.leb_spec v 11) as [Hle|Hgt]; cbn [negb].
    + assert (Ht : varint_tail v = [])
        by (unfold varint_tail; by rewrite (proj2 (Z.leb_le v 11))).
      assert (Hh : varint_head v = v)
        by (unfold varint_head; by rewrite (proj2 (Z.leb_le v 11))).
      rewrite Ht in *. change (width []) with 0 in *. rewrite advance_0 in *. rewrite Hh.
      specialize (IH rd (prev ++ [v]) Hc Hfs). rewrite <- !app_assoc, length_app in IH.
      cbn [length app] in IH. by rewrite Nat.add_1_r in IH.
    + rewrite H2 by done. cbn [rbind fst snd]. rewrite wrap_small by lia.
      rewrite <- (Nat.add_0_r (length prev)) at 2. rewrite insert_app_r. cbn [insert list_insert].
      specialize (IH (advance rd (width (varint_tail v))) (prev ++ [v]) Hc Hfs).
      rewrite <- !app_assoc, length_app, advance_advance in IH.
      cbn [length app] in IH. by rewrite Nat.add_1_r in IH.
Qed.

Lemma heads_at V pos vs i :
  (i < length vs)%nat -> fields_at V pos (map (fun v => (4, varint_head v)) vs) ->
  field_at V (pos + 4 * Z.of_nat i) 4 = default 0 (varint_head <$> vs !! i).
Proof.
  revert pos i. induction vs as [|v vs IH]; intros pos i Hi Hf; [cbn in Hi; lia|].
  cbn [map fields_at] in Hf. destruct Hf as [Hv Hf]. destruct i as [|i].
  - cbn. by rewrite Z.add_0_r.
  - cbn [lookup list_lookup]. rewrite <- (IH (pos + 4)); [f_equal; lia| |done].
    cbn in Hi. lia.
Qed.

Lemma ReadInterleavedVarints_at `{!MachineOk c} (rd : BitMemoryReader)
    (n V : Z) (vs : list Z) (Hv : Forall (fun v => 0 <= v < 2 ^ 32) vs)
    (Hlen : (length vs <= 16)%nat) (Hc : covers rd n V (width (interleaved vs)))
    (Hf : fields_at V (position rd) (interleaved vs)) :
  ReadInterleavedVarints c rd (length vs) [] = Ok (advance rd (width (interleaved vs)), vs).
Proof.
  rewrite interleaved_width in Hc |- *. unfold interleaved in Hf.
  apply fields_at_app in Hf as [Hh Ht].
  assert (Hw : width (map (fun v => (4, varint_head v)) vs) = 4 * Z.of_nat (length vs)).
  { pose proof (interleaved_width vs) as E. unfold interleaved in E. rewrite width_app in E. lia. }
  rewrite Hw in Ht. pose proof (tails_width vs).
  assert (Hc1 : covers rd n V (4 * Z.of_nat (length vs))).
  { destruct Hc as (? & ? & ? & ? & ?). split_and!; done || lia. }
  unfold ReadInterleavedVarints, kVarintBits. rewrite wrap_small by lia.
  replace (Z.of_nat (length vs) * 4) with (4 * Z.of_nat (length vs)) by lia.
  rewrite (ReadBits64_at rd n V) by (done || lia). cbn [rbind fst snd app].
  assert (Hm : map (fun i => u32 (BitFieldExtract 64
      (field_at V (position rd) (4 * Z.of_nat (length vs))) (u32 (i * 4)) 4))
      (seqZ 0 (Z.of_nat (length vs))) = map varint_head vs).
  { apply list_eq. intros i. rewrite !list_lookup_fmap.
    destruct (decide (i < length vs)%nat) as [Hi|Hi].
    - rewrite lookup_seqZ_lt by lia.
      destruct (lookup_lt_is_Some_2 vs i Hi) as [v Hvi]. rewrite Hvi, Z.add_0_l.
      cbn [fmap option_fmap option_map]. f_equal.
      rewrite (wrap_small 32 (Z.of_nat i * 4)) by lia.
      rewrite BitFieldExtract_spec by lia. fold (field_at
        (field_at V (position rd) (4 * Z.of_nat (length vs))) (Z.of_nat i * 4) 4).
      rewrite field_at_field by (lia || (destruct Hc as (? & ? & ? & ? & ?);
        unfold position; lia)).
      replace (Z.of_nat i * 4) with (4 * Z.of_nat i) by lia.
      rewrite (heads_at V _ vs) by done. rewrite Hvi. cbn [fmap option_fmap option_map default].
      apply (Forall_lookup_1 _ _ _ _ Hv) in Hvi. pose proof (varint_bytes_range v).
      apply wrap_small. unfold varint_head. bool_cases; lia.
    - rewrite lookup_ge_None_2 by (rewrite length_seqZ; lia).
      by rewrite lookup_ge_None_2 by lia. }
  rewrite Hm. apply covers_advance in Hc; [|lia..]. rewrite <- position_advance in Ht.
  pose proof (read_rest_at (advance rd (4 * Z.of_nat (length vs))) n V [] vs Hv Hc Ht) as E.
  cbn [length app] in E. by rewrite E, advance_advance.
Qed.

(** [ReadInterleavedVarints] reads back up to sixteen 32-bit values from the
    interleaved varint format (the header of every table and of [CodeInfo]). *)
Theorem ReadInterleavedVarints_roundtrip `{!MachineOk c} (rd : BitMemoryReader)
    (n V : Z) (vs : list Z) (Hv : Forall (fun v => 0 <= v < 2 ^ 32) vs)
    (Hlen : (length vs <= 16)%nat) (Hc : covers rd n V (width (interleaved vs)))
    (Hf : fields_at V (position rd) (interleaved vs)) :
  ReadInterleavedVarints c rd (length vs) [] = Ok (advance rd (width (interleaved vs)), vs).
Proof. by apply (ReadInterleavedVarints_at rd n V). Qed.

(** * Population count *)

(** The number of one bits among the [m] bits from [pos] on. *)
Definition ones_at (V pos m : Z) : Z := popcount (Z.to_nat m) (V / 2 ^ pos).

Lemma popcount_range k x : 0 <= popcount k x <= Z.of_nat k.
Proof. induction k as [|k IH]; cbn [popcount]; [done|]. destruct (Z.testbit _ _); lia. Qed.

Lemma popcount_ext k x y :
  (forall i, 0 <= i < Z.of_nat k -> Z.testbit x i = Z.testbit y i) ->
  popcount k x = popcount k y.
Proof.
  induction k as [|k IH]; intros H; cbn [popcount]; [done|].
  rewrite H by lia. f_equal. apply IH. intros i Hi. apply H. lia.
Qed.

Lemma popcount_add a b x :
  popcount (a + b) x = popcount a x + popcount b (x / 2 ^ Z.of_nat a).
Proof.
  induction b as [|b IH]; [cbn; rewrite Nat.add_0_r; lia|].
  rewrite Nat.add_succ_r. cbn [popcount]. rewrite IH, Z.div_pow2_bits by lia.
  rewrite Nat2Z.inj_add, (Z.add_comm (Z.of_nat b)). lia.
Qed.

Lemma popcount_zero k x : (forall i, 0 <= i < Z.of_nat k -> Z.testbit x i = false) ->
  popcount k x = 0.
Proof.
  induction k as [|k IH]; intros H; cbn [popcount]; [done|].
  rewrite H by lia. rewrite IH; [done|]. intros i Hi. apply H. lia.
Qed.

Lemma ones_at_add V pos a b :
  0 <= pos -> 0 <= a -> 0 <= b -> ones_at V pos (a + b) = ones_at V pos a + ones_at V (pos + a) b.
Proof.
  intros Hp Ha Hb. unfold ones_at. rewrite Z2Nat.inj_add, popcount_add by lia.
  rewrite Z.div_div, Z2Nat.id by (try apply Z.pow_nonzero; try apply Z.pow_pos_nonneg; lia).
  by rewrite <- Z.pow_add_r by lia.
Qed.

Lemma ones_at_range V pos m : 0 <= m -> 0 <= ones_at V pos m <= m.
Proof. intros. pose proof (popcount_range (Z.to_nat m) (V / 2 ^ pos)). unfold ones_at. lia. Qed.

Lemma POPCOUNT_field V pos m x :
  0 <= pos -> 0 <= m <= 64 ->
  (forall i, 0 <= i < 64 -> Z.testbit x i = (i <? m) && Z.testbit V (i + pos)) ->
  POPCOUNT x = ones_at V pos m.
Proof.
  intros Hp Hm Hx. unfold POPCOUNT, ones_at.
  replace 64%nat with (Z.to_nat m + (64 - Z.to_nat m))%nat by lia.
  rewrite popcount_add, (popcount_zero (64 - Z.to_nat m)).
  - rewrite Z.add_0_r. apply popcount_ext. intros i Hi.
    rewrite Hx, (proj2 (Z.ltb_lt i m)), Z.div_pow2_bits by lia. done.
  - intros i Hi. rewrite Z.div_pow2_bits, Hx by lia.
    by rewrite (proj2 (Z.ltb_ge _ m)) by lia.
Qed.

Lemma low_bits_testbit v n i :
  0 <= n < 64 -> 0 <= i < 64 -> Z.testbit (low_bits v n) i = (i <? n) && Z.testbit v i.
Proof.
  intros Hn Hi. unfold low_bits, bnot, shl. change (2 ^ 64 - 1) with (Z.ones 64).
  autorewrite with words. rewrite (proj2 (Z.ltb_lt i 64)) by lia. cbn [andb].
  destruct (Z.ltb_spec i n).
  - rewrite (Z.testbit_neg_r _ (i - n)) by lia. by rewrite andb_true_r.
  - rewrite Z.testbit_ones_nonneg, (proj2 (Z.ltb_lt _ 64)) by lia. apply andb_false_r.
Qed.

(** The reference can be moved over the whole range: no carry into the tag bits. *)
Definition straight (d : MemoryRef) (n : Z) : Prop :=
  forall k, 0 <= k <= n ->
  Z.land (u64 (vaddr d + k)) (vabits_mask c) = Z.land (vaddr d) (vabits_mask c) + k.

Lemma MovePtr_number d n V k :
  number_at d n V -> straight d n -> 0 <= k < n ->
  exists d', MovePtr c d k = Ok d' /\ number_at d' (n - k) (V / 2 ^ (8 * k)) /\
    straight d' (n - k).
Proof.
  intros Hn Hs Hk. pose proof Hn as (Hr & Hnz & Hb & bs & Hrun & Hok & ->).
  pose proof (present_part _ _ 0 1 _ Hrun) as Hp. rewrite Z.add_0_r in Hp.
  destruct (present_move d k _ Hr Hnz (Hp ltac:(lia) ltac:(lia) ltac:(lia)))
    as (d' & E & Hv & Hr').
  assert (Ha : Z.land (vaddr d') (vabits_mask c) = Z.land (vaddr d) (vabits_mask c) + k)
    by (rewrite Hv; apply Hs; lia).
  exists d'. split_and!; [done| |].
  - split_and!; [done| |lia|].
    + intros Hz. rewrite Hz in Ha. rewrite Z.land_0_l in Ha.
      assert (0 <= Z.land (vaddr d) (vabits_mask c))
        by (apply Z.land_nonneg; left; apply Hr).
      assert (k = 0) as -> by lia. rewrite Z.add_0_r, wrap_small in Hv by apply Hr. congruence.
    + exists (drop (Z.to_nat k) bs). split_and!.
      * pose proof (present_length _ _ _ Hrun) as Hlen.
        rewrite Ha, (present_part _ _ k (n - k) _ Hrun) by lia.
        f_equal. rewrite firstn_all2; [done|]. rewrite length_drop. lia.
      * by apply Forall_drop.
      * rewrite le_value_drop by done. by rewrite Z2Nat.id by lia.
  - intros j Hj. rewrite Ha, Hv. rewrite wrap_add_l by lia.
    rewrite <- Z.add_assoc, Hs by lia. lia.
Qed.

Definition count_visitor (s off m value : Z) : Z * bool := (u64 (s + POPCOUNT value), true).

Lemma field_shift V p pos m :
  0 <= p -> 0 <= pos -> 0 <= m -> field_at (V / 2 ^ p) pos m = field_at V (p + pos) m.
Proof.
  intros. unfold field_at. rewrite Z.div_div
    by (try apply Z.pow_nonzero; try apply Z.pow_pos_nonneg; lia).
  by rewrite <- Z.pow_add_r by lia.
Qed.

Lemma ones_shift V p pos m :
  0 <= p -> 0 <= pos -> ones_at (V / 2 ^ p) pos m = ones_at V (p + pos) m.
Proof.
  intros. unfold ones_at. rewrite Z.div_div
    by (try apply Z.pow_nonzero; try apply Z.pow_pos_nonneg; lia).
  by rewrite <- Z.pow_add_r by lia.
Qed.

Lemma valueOf_first `{!MachineOk c} d n V :
  number_at d n V -> 8 <= n -> exists d', valueOf c d 0 = Ok (d', field_at V 0 bits) /\
  number_at d' n V /\ vaddr d' = vaddr d.
Proof. intros Hn Hle. by apply (valueOf_words d n V 0). Qed.

Lemma straight_ref d d' n : straight d n -> vaddr d' = vaddr d -> straight d' n.
Proof. unfold straight. by intros H ->. Qed.

(** A word of the number counts its ones. *)
Lemma POPCOUNT_word V m : 0 <= m <= 64 -> POPCOUNT (field_at V 0 m) = ones_at V 0 m.
Proof.
  intros Hm. apply POPCOUNT_field; [done..|]. intros i Hi. by rewrite field_at_testbit by lia.
Qed.

Lemma machine_cases `{!MachineOk c} :
  (bits = 32 /\ point_size = 4) \/ (bits = 64 /\ point_size = 8).
Proof. pose proof mo_bits as Eb. destruct mo_size as [E|E]; rewrite Eb, E; lia. Qed.

Lemma visit_words_count `{!MachineOk c} k d n V off s :
  number_at d n V -> straight d n -> Z.of_nat k * point_size + 8 <= n ->
  0 <= s -> s + 8 * n < 2 ^ 64 ->
  exists d', visit_words count_visitor k c d off s =
      Ok (d', s + ones_at V 0 (Z.of_nat k * bits), true) /\
    number_at d' (n - Z.of_nat k * point_size) (V / 2 ^ (Z.of_nat k * bits)) /\
    straight d' (n - Z.of_nat k * point_size).
Proof.
  revert d n V off s. induction k as [|k IH]; intros d n V off s Hn Hs Hle H0 Hm.
  - exists d. change (Z.of_nat 0 * bits) with 0. change (Z.of_nat 0 * point_size) with 0.
    change (ones_at V 0 0) with 0. rewrite Z.sub_0_r, Z.pow_0_r, Z.div_1_r, Z.add_0_r. done.
  - cbn [visit_words]. assert (Hps : 0 < point_size) by (destruct machine_cases; lia).
    assert (Hbits : bits = 8 * point_size) by apply mo_bits.
    assert (Hb64 : bits <= 64) by (destruct machine_cases; lia).
    assert (Hk : Z.of_nat (S k) * point_size = point_size + Z.of_nat k * point_size) by lia.
    assert (0 <= Z.of_nat k * point_size) by nia.
    destruct (valueOf_first d n V) as (d1 & E & Hn1 & Hv1); [done|nia|].
    rewrite E. cbn [rbind fst snd]. unfold count_visitor at 1.
    rewrite POPCOUNT_word by lia. assert (Hb0 : 0 <= bits) by lia.
    pose proof (ones_at_range V 0 bits Hb0) as Ho.
    rewrite wrap_small by nia.
    destruct (MovePtr_number d1 n V point_size) as (d2 & E2 & Hn2 & Hs2);
      [done|by eapply straight_ref|nia|].
    rewrite E2. cbn [rbind]. rewrite <- Hbits in Hn2.
    destruct (IH d2 (n - point_size) (V / 2 ^ bits) (off + bits) (s + ones_at V 0 bits))
      as (d3 & E3 & Hn3 & Hs3); [done|done|nia|lia|lia|].
    exists d3. rewrite E3. rewrite ones_shift by lia.
    replace (Z.of_nat (S k) * bits) with (bits + Z.of_nat k * bits) by lia.
    rewrite (ones_at_add V 0 bits) by lia.
    rewrite Z.div_div in Hn3 by (try apply Z.pow_nonzero; try apply Z.pow_pos_nonneg; lia).
    rewrite <- Z.pow_add_r in Hn3 by lia.
    replace (n - Z.of_nat (S k) * point_size) with (n - point_size - Z.of_nat k * point_size)
      by lia.
    split_and!; [|done|done]. do 3 f_equal. rewrite Z.add_0_r, Z.add_0_l. lia.
Qed.

(** Whole words and a tail. *)
Lemma visit_rest_count `{!MachineOk c} d n V off m s :
  number_at d n V -> straight d n -> 0 <= m -> m + 64 <= 8 * n ->
  0 <= s -> s + 8 * n + m < 2 ^ 64 ->
  visit_rest count_visitor c d off m s = Ok (s + ones_at V 0 m, true).
Proof.
  intros Hn Hs Hm Hle H0 Hb. unfold visit_rest.
  assert (Hps : 0 < point_size) by (destruct machine_cases; lia).
  assert (Hbits : bits = 8 * point_size) by apply mo_bits.
  assert (Hb64 : bits <= 64) by (destruct machine_cases; lia).
  assert (Hdm : m = bits * (m / bits) + m mod bits) by (apply Z.div_mod; lia).
  assert (Hmb : 0 <= m mod bits < bits) by (apply Z.mod_pos_bound; lia).
  set (k := m / bits) in *. assert (0 <= k) by (apply Z.div_pos; lia).
  assert (Hk8 : 8 * (k * point_size) = k * bits) by (rewrite Hbits; ring).
  destruct (visit_words_count (Z.to_nat k) d n V off s) as (d' & E & Hn' & Hs');
    [done|done|rewrite Z2Nat.id by lia; lia|done|lia|].
  rewrite Z2Nat.id in * by lia. rewrite E. cbn [rbind].
  replace (m - k * bits) with (m mod bits) by lia.
  assert (Ht : ones_at V 0 m = ones_at V 0 (k * bits) + ones_at V (k * bits) (m mod bits)).
  { replace m with (k * bits + m mod bits) at 1 by lia. rewrite ones_at_add by nia.
    by rewrite Z.add_0_l. }
  assert (Hkb : 0 <= k * bits) by nia.
  pose proof (ones_at_range V 0 (k * bits) Hkb).
  unfold visit_tail. destruct (Z.eqb_spec (m mod bits) 0) as [Hz|Hz].
  - rewrite Ht, Hz. change (ones_at V (k * bits) 0) with 0. by rewrite Z.add_0_r.
  - destruct (valueOf_first d' (n - k * point_size) (V / 2 ^ (k * bits))) as (d1 & E1 & _);
      [done|lia|].
    rewrite E1. cbn [rbind fst snd]. unfold count_visitor.
    assert (Hp : POPCOUNT (low_bits (field_at (V / 2 ^ (k * bits)) 0 bits) (m mod bits))
                 = ones_at V (k * bits) (m mod bits)).
    { rewrite field_shift by lia. rewrite Z.add_0_r. apply POPCOUNT_field; [nia|lia|].
      intros i Hi. rewrite low_bits_testbit, field_at_testbit by lia.
      destruct (Z.ltb_spec i (m mod bits)); [|done].
      by rewrite (proj2 (Z.ltb_lt i bits)) by lia. }
    pose proof (ones_at_range V (k * bits) (m mod bits) (proj1 Hmb)).
    rewrite Hp, wrap_small by nia. rewrite Ht. do 2 f_equal. lia.
Qed.

(** [PopCount] of a region is the number of one bits of the field it denotes: the
    chunks of [VisitChunks] (a leading partial word, whole words, a trailing partial word)
    cover each bit of the region exactly once. *)
Lemma PopCount_spec `{!MachineOk c} (r : BitMemoryRegion) (n V : Z)
    (Hn : number_at (data_ r) n V) (Hst : straight (data_ r) n)
    (Hs : 0 <= bit_start_ r) (Hz : 0 <= bit_size_ r)
    (Hle : bit_start_ r + bit_size_ r + 128 <= 8 * n) :
  PopCount c r = Ok (ones_at V (bit_start_ r) (bit_size_ r)).
Proof.
  unfold PopCount. fold count_visitor. unfold VisitChunks.
  pose proof Hn as (_ & _ & Hb & _).
  destruct (Z.eqb_spec (bit_size_ r) 0) as [E0|E0]; [by rewrite E0|].
  assert (Hps : 0 < point_size) by (destruct machine_cases; lia).
  assert (Hbits : bits = 8 * point_size) by apply mo_bits.
  assert (Hb64 : bits <= 64) by (destruct machine_cases; lia).
  assert (Hdm : bit_start_ r = bits * (bit_start_ r / bits) + bit_start_ r mod bits) by (apply Z.div_mod; lia).
  assert (Hmb : 0 <= bit_start_ r mod bits < bits) by (apply Z.mod_pos_bound; lia).
  set (k := bit_start_ r / bits) in *. assert (0 <= k) by (apply Z.div_pos; lia).
  assert (Hk8 : 8 * (k * point_size) = k * bits) by (rewrite Hbits; ring).
  assert (Hk0 : 0 <= k * point_size) by nia.
  set (lead := bit_start_ r mod bits) in *.
  rewrite wrap_small by nia.
  destruct (MovePtr_number (data_ r) n V (k * point_size)) as (d & E & Hnd & Hsd);
    [done|done|nia|].
  rewrite E. cbn [rbind]. replace (8 * (k * point_size)) with (k * bits) in Hnd by lia.
  destruct (Z.eqb_spec lead 0) as [El|El].
  { rewrite (visit_rest_count d (n - k * point_size) (V / 2 ^ (k * bits)))
      by (done || nia). cbn [rbind fst].
    rewrite ones_shift, !Z.add_0_l, Z.add_0_r by nia. do 2 f_equal. lia. }
  destruct (valueOf_first d (n - k * point_size) (V / 2 ^ (k * bits)))
    as (d1 & E1 & Hn1 & Hv1); [done|nia|].
  rewrite E1. cbn [rbind fst snd].
  set (leading := bits - lead).
  set (m := if bit_size_ r <? leading then bit_size_ r else leading).
  assert (Hm : 0 < m <= leading /\ m <= bit_size_ r)
    by (unfold m, leading; destruct (Z.ltb_spec (bit_size_ r) (bits - lead)); lia).
  set (value := Z.shiftr (field_at (V / 2 ^ (k * bits)) 0 bits) lead).
  assert (Hp : forall x, x = (if bit_size_ r <? leading then low_bits value (bit_size_ r)
                              else value) -> POPCOUNT x = ones_at V (bit_start_ r) m).
  { intros x ->. apply POPCOUNT_field; [lia|unfold leading in *; lia|]. intros i Hi.
    assert (Hvi : Z.testbit value i = (i <? leading) && Z.testbit V (i + bit_start_ r)).
    { unfold value. rewrite Z.shiftr_spec, field_shift, field_at_testbit by nia.
      unfold leading. bool_cases; cbn; [f_equal; lia|lia|lia|done]. }
    unfold m. destruct (Z.ltb_spec (bit_size_ r) leading).
    - rewrite low_bits_testbit, Hvi by (unfold leading in *; lia).
      destruct (Z.ltb_spec i (bit_size_ r)); [|done].
      by rewrite (proj2 (Z.ltb_lt i leading)) by lia.
    - done. }
  assert (Hpair : (if bit_size_ r <? leading then (bit_size_ r, low_bits value (bit_size_ r))
                   else (leading, value)) =
                  (m, if bit_size_ r <? leading then low_bits value (bit_size_ r) else value))
    by (unfold m; by destruct (bit_size_ r <? leading)).
  rewrite Hpair. unfold count_visitor at 1. rewrite (Hp _ eq_refl).
  pose proof (ones_at_range V (bit_start_ r) m ltac:(lia)).
  rewrite Z.add_0_l, wrap_small by nia.
  destruct (MovePtr_number d1 (n - k * point_size) (V / 2 ^ (k * bits)) point_size)
    as (d2 & E2 & Hn2 & Hs2); [done|by eapply straight_ref|nia|].
  rewrite E2. cbn [rbind].
  rewrite (visit_rest_count d2 (n - k * point_size - point_size)
    (V / 2 ^ (k * bits) / 2 ^ (8 * point_size)))
    by (done || unfold leading in *; nia). cbn [rbind fst]. f_equal.
  replace (bit_size_ r) with (m + (bit_size_ r - m)) at 2 by lia.
  rewrite ones_at_add by lia. f_equal.
  destruct (Z.ltb_spec (bit_size_ r) leading) as [Hlt|Hge]; unfold m.
  - rewrite Z.sub_diag. done.
  - rewrite !ones_shift by nia. f_equal. unfold leading. lia.
Qed.
End Loads.

(** * Concrete memories *)

Lemma demo_number bytes :
  (length bytes < 4096)%nat ->
  forallb (fun b => (0 <=? b) && (b <? 256)) bytes = true ->
  target_run (one_core 0x1000 bytes) 0x1000 (Z.of_nat (length bytes)) = Some bytes ->
  number_at (one_core 0x1000 bytes) (target_run (one_core 0x1000 bytes)) (ref_at 0x1000)
    (Z.of_nat (length bytes)) (le_value bytes).
Proof.
  intros Hlen Hok Hrun. split_and!; [split; [cbn; lia|done]|done|lia|].
  exists bytes. split_and!; [exact Hrun| |done].
  apply List.Forall_forall. rewrite forallb_forall in Hok. intros b Hb.
  specialize (Hok b Hb). to_prop. by split.
Qed.

Lemma demo_machine bytes : @MachineOk arm64_Core (one_core 0x1000 bytes).
Proof. split; [done|by right|done]. Qed.

(** The values 7, 300 and 0x12345678 as interleaved varints (4-bit parts 7, 13, 15, then
    two and four bytes), from bit 4 on. *)
Definition demo_varints : list Z :=
  [0x70; 0xfd; 0x2c; 0x01; 0x78; 0x56; 0x34; 0x12] ++ replicate 24 0.

Lemma LoadBits_field_witness :
  let c := one_core 0x1000 demo_varints in
  exists r', @LoadBits arm64_Core c (bit_region 0x1000 0 256) 4 12 = Ok (r', 0xfd7).
Proof.
  intros c.
  destruct (@LoadBits_field arm64_Core c (target_run c)
    (one_presents 0x1000 demo_varints ltac:(cbn; lia) ltac:(cbn; lia)) (demo_machine demo_varints)
    (bit_region 0x1000 0 256) 32 (le_value demo_varints) 4 12
    (demo_number demo_varints ltac:(cbn; lia) eq_refl eq_refl)
    ltac:(by vm_compute) ltac:(lia) ltac:(cbn; lia) ltac:(by vm_compute)) as (r' & E & _).
  exists r'. rewrite E. reflexivity.
Defined.

Definition demo_varint : list Z := [0x8f; 0x67; 0x45; 0x23; 0x01] ++ replicate 27 0.

Lemma ReadVarint_roundtrip_witness :
  let c := one_core 0x1000 demo_varint in
  exists rd, @ReadVarint arm64_Core c (reader_at 0x1000 0) = Ok (rd, 0x12345678).
Proof.
  intros c.
  eexists.
  apply (@ReadVarint_roundtrip arm64_Core c (target_run c)
    (one_presents 0x1000 demo_varint ltac:(cbn; lia) ltac:(cbn; lia)) (demo_machine demo_varint)
    (reader_at 0x1000 0) 32 (le_value demo_varint) 0x12345678 ltac:(lia)).
  - split_and!; try by vm_compute.
    exact (demo_number demo_varint ltac:(cbn; lia) eq_refl eq_refl).
  - by vm_compute.
Defined.

Lemma ReadInterleavedVarints_roundtrip_witness :
  let c := one_core 0x1000 demo_varints in
  exists rd, @ReadInterleavedVarints arm64_Core c (reader_at 0x1000 4) 3 []
    = Ok (rd, [7; 300; 0x12345678]).
Proof.
  intros c. eexists.
  apply (@ReadInterleavedVarints_roundtrip arm64_Core c (target_run c)
    (one_presents 0x1000 demo_varints ltac:(cbn; lia) ltac:(cbn; lia)) (demo_machine demo_varints)
    (reader_at 0x1000 4) 32 (le_value demo_varints) [7; 300; 0x12345678]).
  - repeat (constructor; [lia|]). constructor.
  - cbn; lia.
  - split_and!; try by vm_compute.
    exact (demo_number demo_varints ltac:(cbn; lia) eq_refl eq_refl).
  - by vm_compute.
Defined.

Lemma PopCount_spec_witness :
  let c := one_core 0x1000 demo_varints in
  @PopCount arm64_Core c (bit_region 0x1000 4 28) = Ok 14.
Proof.
  intros c.
  rewrite (@PopCount_spec arm64_Core c (target_run c)
    (one_presents 0x1000 demo_varints ltac:(cbn; lia) ltac:(cbn; lia)) (demo_machine demo_varints)
    (bit_region 0x1000 4 28) 32 (le_value demo_varints)
    (demo_number demo_varints ltac:(cbn; lia) eq_refl eq_refl)).
  - reflexivity.
  - intros k Hk. change (vaddr _) with 0x1000. change (vabits_mask c) with (Z.ones 39).
    rewrite !Z.land_ones, wrap_small by lia. by rewrite !Z.mod_small by lia.
  - by vm_compute.
  - by vm_compute.
  - by vm_compute.
Defined.
