(* ===== verification/OatCode.v ===== *)
(** Stack maps of compiled methods: android/art/base/bit_table.{h,cpp} ([BitTable]) and
    android/art/runtime/oat/stack_map.{h,cpp} ([CodeInfo]), which map a native pc of a
    frame to the dex pc and to the places of the dex registers.

    The format depends on the version of the oat file, a global of the program that is an
    argument [v] here; the tables whose shape the OatInit listeners select are functions
    of it. *)

From Stdlib Require Import ZArith Lia Bool.
From stdpp Require Import base list gmap numbers.
From S2P Require Import Prelude Words Host Blocks Notes CoreApi Segments AddressSpace MemRef Elf.
From S2P Require Import Bits.
Open Scope Z_scope.

(** * [BitTable] *)

Definition kNoValue : Z := 0xffffffff.
Definition kValueBias : Z := kNoValue.

Record BitTable := { table_data_ : BitMemoryRegion; num_rows_ : Z; column_offset_ : list Z }.
Definition no_table : BitTable :=
  {| table_data_ := no_region; num_rows_ := 0; column_offset_ := [] |}.

(** [column_offset_[i]]: an index outside the vector is undefined. *)
Definition column (t : BitTable) (i : Z) : result Z :=
  of_option (column_offset_ t !! Z.to_nat i).

(** [NumRowBits()], for a class of [ncols] columns. *)
Definition NumRowBits (ncols : nat) (t : BitTable) : result Z := column t (Z.of_nat ncols).
Definition NumColumnBits (t : BitTable) (col : Z) : result Z :=
  let! b := column t (col + 1) in
  let! a := column t col in
  Ok (u32 (b - a)).

(** [row * NumRowBits() + column_offset_[column]] in [uint32_t]. *)
Definition cell_offset (ncols : nat) (t : BitTable) (row col : Z) : result Z :=
  let! w := NumRowBits ncols t in
  let! o := column t col in
  Ok (u32 (row * w + o)).

Definition table_IsValid (t : BitTable) : bool := 0 <? num_rows_ t.

(** [GetBitMemoryRegion(row, column)]. *)
Definition GetBitMemoryRegion (ncols : nat) (t : BitTable) (row col : Z)
    : result BitMemoryRegion :=
  let! off := cell_offset ncols t row col in
  let! n := NumColumnBits t col in
  Ok (Subregion (table_data_ t) off n).

(** The offsets of the columns: sums of the widths, each truncated to 16 bits. *)
Fixpoint column_offsets (last : Z) (widths : list Z) : list Z :=
  match widths with
  | [] => [last]
  | w :: ws => last :: column_offsets (u16 (u32 (last + w))) ws
  end.

Section Code.
Context {M : Machine}.

(** [Get(row, column)]; the reference inside [table_data_] may get resolved. *)
Definition Get (ncols : nat) (c : CoreApi) (t : BitTable) (row col : Z) : result Z :=
  let! off := cell_offset ncols t row col in
  let! n := NumColumnBits t col in
  let! v := LoadBits c (table_data_ t) off n in
  Ok (u32 (snd v + kValueBias)).

(** [n] varints in a row. *)
Fixpoint read_varints (n : nat) (c : CoreApi) (rd : BitMemoryReader)
    : result (BitMemoryReader * list Z) :=
  match n with
  | O => Ok (rd, [])
  | S n =>
      let! x := ReadVarint c rd in
      let! r := read_varints n c (fst x) in
      Ok (fst r, snd x :: snd r)
  end.

(** The last lines of [DecodeOnly]: the data of the table. *)
Definition read_rows (ncols : nat) (rd : BitMemoryReader) (rows : Z) (offsets : list Z)
    : result (BitMemoryReader * BitTable) :=
  let! w := of_option (offsets !! ncols) in
  let '(rd, data) := ReadRegion rd (u32 (rows * w)) in
  Ok (rd, {| table_data_ := data; num_rows_ := rows; column_offset_ := offsets |}).

(** [DecodeOnly(reader, header)] of a class of [ncols] columns, for a fresh table and an
    empty header: the reader, the table, the header. *)
Definition DecodeOnly (v : Z) (ncols : nat) (c : CoreApi) (rd : BitMemoryReader)
    : result (BitMemoryReader * BitTable * list Z) :=
  if 173 <=? v then
    let! h := ReadInterleavedVarints c rd (S ncols) [] in
    let '(rd, header) := h in
    let! rows := of_option (header !! 0%nat) in
    let! r := read_rows ncols rd rows (column_offsets 0 (take ncols (drop 1 header))) in
    Ok (fst r, snd r, header)
  else if 159 <=? v then
    let! h := ReadVarint c rd in
    let '(rd, rows) := h in
    if negb (rows =? 0) then
      let! ws := read_varints ncols c rd in
      let! r := read_rows ncols (fst ws) rows (column_offsets 0 (snd ws)) in
      Ok (fst r, snd r, rows :: snd ws)
    else
      let! r := read_rows ncols rd rows (replicate (S ncols) 0) in
      Ok (fst r, snd r, [rows])
  else Ok (rd, no_table, []).

(** * The eight tables of a [CodeInfo] *)

(** The classes derived from [BitTable], in the order of the macros' [NUM]. *)
Inductive table_kind :=
  | StackMap | RegisterMask | StackMask | InlineInfo | MethodInfo
  | DexRegisterMask | DexRegisterMap | DexRegisterInfo.

(** [NumColumns()]: the statics set by [OatInit170] and [OatInit225]. *)
Definition NumColumns (v : Z) (k : table_kind) : nat :=
  match k with
  | StackMap => if 170 <=? v then 8%nat else 6%nat
  | RegisterMask | DexRegisterInfo => 2%nat
  | StackMask | DexRegisterMask | DexRegisterMap => 1%nat
  | InlineInfo => 6%nat
  | MethodInfo => if 225 <=? v then 3%nat else 1%nat
  end.

(** How many entries of the header [Decode] stores behind the row count. *)
Definition num_fields (v : Z) (k : table_kind) : nat :=
  if 170 <=? v then NumColumns v k else O.

Definition kColNumPackedNativePc : Z := 1.
Definition kColNumDexPc : Z := 2.
Definition kColNumDexRegisterMaskIndex : Z := 6.
Definition kColNumDexRegisterMapIndex : Z := 7.
Definition kColNumMask : Z := 0.
Definition kColNumCatalogueIndex : Z := 0.
Definition kColNumKind : Z := 0.
Definition kColNumPackedValue : Z := 1.

(** [header[1]], ..., [header[n]]: an index outside the vector is undefined. *)
Fixpoint header_fields (n : nat) (i : nat) (header : list Z) : result (list Z) :=
  match n with
  | O => Ok []
  | S n =>
      let! x := of_option (header !! i) in
      let! r := header_fields n (S i) header in
      Ok (x :: r)
  end.

(** [StackMap::Decode] to [DexRegisterInfo::Decode]: the table and the bit widths of its
    columns ([kind], [packed_native_pc], ...; [mask]; [value], [shift]; ...). *)
Definition Decode_table (v : Z) (k : table_kind) (c : CoreApi) (rd : BitMemoryReader)
    : result (BitMemoryReader * (BitTable * list Z)) :=
  let! d := DecodeOnly v (NumColumns v k) c rd in
  let '(rd, t, header) := d in
  let! fs := header_fields (num_fields v k) 1 header in
  Ok (rd, (t, fs)).

(** * [CodeInfoEncoding] (oat 79 to 143) *)

Record StackMapEncoding := {
  dex_pc_bit_offset_ : Z; dex_register_map_bit_offset_ : Z; inline_info_bit_offset_ : Z;
  register_mask_index_bit_offset_ : Z; stack_mask_index_bit_offset_ : Z;
  sm_total_bit_size_ : Z }.
Record InvokeInfoEncoding := {
  invoke_type_bit_offset_ : Z; method_index_bit_offset_ : Z; iv_total_bit_size_ : Z }.
Record InlineInfoEncoding := {
  in_dex_pc_bit_offset_ : Z; extra_data_bit_offset_ : Z; in_dex_register_map_bit_offset_ : Z;
  in_total_bit_size_ : Z }.

Definition byte_at (h : host) (p i : Z) : result Z := host_word h (u64 (p + i)) 1.

(** [StackMapEncoding::Decode(&ptr)]. *)
Definition StackMapEncoding_Decode (v : Z) (h : host) (p : Z) : result (StackMapEncoding * Z) :=
  let! a := byte_at h p 0 in
  let! b := byte_at h p 1 in
  let! i := byte_at h p 2 in
  let! r := byte_at h p 3 in
  let! s := byte_at h p 4 in
  if 124 <=? v then
    let! t := byte_at h p 5 in
    Ok (Build_StackMapEncoding a b i r s t, u64 (p + 6))
  else Ok (Build_StackMapEncoding a b i r s 0, u64 (p + 5)).

Definition InvokeInfoEncoding_Decode (h : host) (p : Z) : result (InvokeInfoEncoding * Z) :=
  let! a := byte_at h p 0 in
  let! b := byte_at h p 1 in
  let! t := byte_at h p 2 in
  Ok (Build_InvokeInfoEncoding a b t, u64 (p + 3)).

Definition InlineInfoEncoding_Decode (h : host) (p : Z) : result (InlineInfoEncoding * Z) :=
  let! a := byte_at h p 0 in
  let! b := byte_at h p 1 in
  let! r := byte_at h p 2 in
  let! t := byte_at h p 3 in
  Ok (Build_InlineInfoEncoding a b r t, u64 (p + 4)).

(** [FieldEncoding]: a bit range and the value that is added. *)
Record FieldEncoding := { start_offset_ : Z; end_offset_ : Z; min_value_ : Z }.
Definition fe_BitSize (f : FieldEncoding) : Z := u32 (end_offset_ f - start_offset_ f).
(** [Load(region)], as the [uint32_t] its callers store it in. *)
Definition fe_Load (f : FieldEncoding) (c : CoreApi) (r : BitMemoryRegion) : result Z :=
  let! x := LoadBits c r (start_offset_ f) (fe_BitSize f) in
  Ok (u32 (i32 (snd x) + min_value_ f)).

Definition GetNativePcEncoding (e : StackMapEncoding) : FieldEncoding :=
  {| start_offset_ := 0; end_offset_ := dex_pc_bit_offset_ e; min_value_ := -1 |}.
Definition GetDexPcEncoding (e : StackMapEncoding) : FieldEncoding :=
  {| start_offset_ := dex_pc_bit_offset_ e; end_offset_ := dex_register_map_bit_offset_ e;
     min_value_ := -1 |}.
Definition GetDexRegisterMapEncoding (e : StackMapEncoding) : FieldEncoding :=
  {| start_offset_ := dex_register_map_bit_offset_ e; end_offset_ := inline_info_bit_offset_ e;
     min_value_ := -1 |}.
Definition GetInlineInfoEncoding (e : StackMapEncoding) : FieldEncoding :=
  {| start_offset_ := inline_info_bit_offset_ e;
     end_offset_ := register_mask_index_bit_offset_ e; min_value_ := -1 |}.

(** [ByteSizedTable] and [BitEncodingTable<E>]; an unset offset is [kInvalidOffset]. *)
Record ByteSizedTable := { bs_num_entries : Z; bs_num_bytes : Z; bs_byte_offset : Z }.
Record BitEncodingTable (E : Type) := {
  be_encoding : E; be_num_entries : Z; be_bit_offset : Z }.
Arguments be_encoding {E} _.
Arguments be_num_entries {E} _.
Arguments be_bit_offset {E} _.
Arguments Build_BitEncodingTable {E} _ _ _.
Definition kInvalidOffset : Z := 0xffffffff.

(** [ByteSizedTable::Decode(&ptr)]. *)
Definition ByteSizedTable_Decode (h : host) (p : Z) : result (ByteSizedTable * Z) :=
  let! a := DecodeUnsignedLeb128 h p in
  let! b := DecodeUnsignedLeb128 h (snd a) in
  Ok (Build_ByteSizedTable (fst a) (fst b) kInvalidOffset, snd b).

(** [BitEncodingTable<E>::Decode(&ptr)], for the decoder of [E]. *)
Definition BitEncodingTable_Decode {E : Type} (decode : host -> Z -> result (E * Z))
    (h : host) (p : Z) : result (BitEncodingTable E * Z) :=
  let! a := DecodeUnsignedLeb128 h p in
  let! e := decode h (snd a) in
  Ok (Build_BitEncodingTable (fst e) (fst a) kInvalidOffset, snd e).

(** [UpdateBitOffset(&offset)] of the two kinds: the table placed at [offset], and the
    offset behind it. *)
Definition bs_place (t : ByteSizedTable) (off : Z) : ByteSizedTable * Z :=
  (Build_ByteSizedTable (bs_num_entries t) (bs_num_bytes t) (off / kBitsPerByte),
   u32 (off + u32 (bs_num_bytes t * kBitsPerByte))).
Definition be_place {E : Type} (size : E -> Z) (t : BitEncodingTable E) (off : Z)
    : BitEncodingTable E * Z :=
  (Build_BitEncodingTable (be_encoding t) (be_num_entries t) off,
   u32 (off + u32 (size (be_encoding t) * be_num_entries t))).

Record CodeInfoEncoding := {
  ce_number_of_stack_maps : Z;
  stack_map_size_in_bytes : Z;
  number_of_location_catalog_entries : Z;
  cache_header_size : Z;
  cache_non_header_size : Z;
  ce_dex_register_map : ByteSizedTable;
  ce_location_catalog : ByteSizedTable;
  ce_stack_map : BitEncodingTable StackMapEncoding;
  ce_register_mask : BitEncodingTable Z;                 (* BitRegionEncoding: num_bits *)
  ce_stack_mask : BitEncodingTable Z;
  ce_invoke_info : BitEncodingTable InvokeInfoEncoding;
  ce_inline_info : BitEncodingTable InlineInfoEncoding;
}.

Definition no_bytes : ByteSizedTable := Build_ByteSizedTable 0 0 kInvalidOffset.
Definition no_stack_map : BitEncodingTable StackMapEncoding :=
  Build_BitEncodingTable (Build_StackMapEncoding 0 0 0 0 0 0) 0 kInvalidOffset.
Definition no_bits : BitEncodingTable Z := Build_BitEncodingTable 0 0 kInvalidOffset.
Definition no_invoke : BitEncodingTable InvokeInfoEncoding :=
  Build_BitEncodingTable (Build_InvokeInfoEncoding 0 0 0) 0 kInvalidOffset.
Definition no_inline : BitEncodingTable InlineInfoEncoding :=
  Build_BitEncodingTable (Build_InlineInfoEncoding 0 0 0 0) 0 kInvalidOffset.
Definition no_encoding : CodeInfoEncoding :=
  Build_CodeInfoEncoding 0 0 0 kInvalidOffset kInvalidOffset no_bytes no_bytes no_stack_map
    no_bits no_bits no_invoke no_inline.

(** [ComputeTableOffsets()]. *)
Definition ComputeTableOffsets (header : Z) (e : CodeInfoEncoding) : CodeInfoEncoding :=
  let off := u32 (header * kBitsPerByte) in
  let '(drm, off) := bs_place (ce_dex_register_map e) off in
  let '(lc, off) := bs_place (ce_location_catalog e) off in
  let '(sm, off) := be_place sm_total_bit_size_ (ce_stack_map e) off in
  let '(rm, off) := be_place id (ce_register_mask e) off in
  let '(km, off) := be_place id (ce_stack_mask e) off in
  let '(iv, off) := be_place iv_total_bit_size_ (ce_invoke_info e) off in
  let '(il, off) := be_place in_total_bit_size_ (ce_inline_info e) off in
  Build_CodeInfoEncoding (ce_number_of_stack_maps e) (stack_map_size_in_bytes e)
    (number_of_location_catalog_entries e) header
    (u32 (RoundUp 32 off kBitsPerByte / kBitsPerByte - header)) drm lc sm rm km iv il.

(** [CodeInfoEncoding(code_info_data)]; [number_of_stack_maps] and the two fields behind it
    stay unset from oat 124 on. *)
Definition new_CodeInfoEncoding (v : Z) (c : CoreApi) (data : Z) : result CodeInfoEncoding :=
  let! r := Real c (ref_at data) in
  let p := snd r in
  let h := host_mem c in
  if 124 <=? v then
    let! drm := ByteSizedTable_Decode h p in
    let! lc := ByteSizedTable_Decode h (snd drm) in
    let! sm := BitEncodingTable_Decode (StackMapEncoding_Decode v) h (snd lc) in
    let! rm := BitEncodingTable_Decode DecodeUnsignedLeb128 h (snd sm) in
    let! km := BitEncodingTable_Decode DecodeUnsignedLeb128 h (snd rm) in
    let! iv := BitEncodingTable_Decode InvokeInfoEncoding_Decode h (snd km) in
    let! il := (if 0 <? fe_BitSize (GetInlineInfoEncoding (be_encoding (fst sm)))
                then BitEncodingTable_Decode InlineInfoEncoding_Decode h (snd iv)
                else Ok (no_inline, snd iv)) in
    Ok (ComputeTableOffsets (u32 (snd il - p))
          (Build_CodeInfoEncoding 0 0 0 kInvalidOffset kInvalidOffset (fst drm) (fst lc)
             (fst sm) (fst rm) (fst km) (fst iv) (fst il)))
  else if 79 <=? v then
    let! nh := DecodeUnsignedLeb128 h p in
    let! ns := DecodeUnsignedLeb128 h (snd nh) in
    let! sz := DecodeUnsignedLeb128 h (snd ns) in
    let! nl := DecodeUnsignedLeb128 h (snd sz) in
    let! sm := StackMapEncoding_Decode v h (snd nl) in
    let! il := (if 0 <? fe_BitSize (GetInlineInfoEncoding (fst sm))
                then let! e := InlineInfoEncoding_Decode h (snd sm) in
                     Ok (Build_BitEncodingTable (fst e) 0 kInvalidOffset, snd e)
                else Ok (no_inline, snd sm)) in
    Ok (Build_CodeInfoEncoding (fst ns) (fst sz) (fst nl) (u32 (snd il - p)) (fst nh)
          no_bytes no_bytes (Build_BitEncodingTable (fst sm) 0 kInvalidOffset) no_bits no_bits
          no_invoke (fst il))
  else Ok no_encoding.

(** * [CodeInfo] *)

Record CodeInfo := {
  ci_region : MemoryRegion;
  ci_encoding : CodeInfoEncoding;
  ci_reader : BitMemoryReader;
  flags_ : Z;
  code_size_ : Z;
  packed_frame_size_ : Z;
  core_spill_mask_ : Z;
  fp_spill_mask_ : Z;
  number_of_dex_registers_ : Z;
  bit_table_flags_ : Z;
  number_of_stack_maps_ : Z;
  frame_size_in_bytes_ : Z;
  tables : list (BitTable * list Z);       (* in the order of [table_kind] *)
}.

Definition all_kinds : list table_kind :=
  [StackMap; RegisterMask; StackMask; InlineInfo; MethodInfo;
   DexRegisterMask; DexRegisterMap; DexRegisterInfo].
Definition kind_index (k : table_kind) : nat :=
  match k with
  | StackMap => 0 | RegisterMask => 1 | StackMask => 2 | InlineInfo => 3 | MethodInfo => 4
  | DexRegisterMask => 5 | DexRegisterMap => 6 | DexRegisterInfo => 7
  end.
Definition kNumBitTables : Z := 8.

(** [kNumHeaders], set by the OatInit listeners of [CodeInfo]. *)
Definition kNumHeaders (v : Z) : nat :=
  if 191 <=? v then 7%nat else if 172 <=? v then 6%nat else if 171 <=? v then 5%nat
  else if 150 <=? v then 4%nat else if 64 <=? v then 2%nat else 0%nat.

(** [CodeInfo(code_info_data)]. *)
Definition new_CodeInfo (v data : Z) : CodeInfo := {|
  ci_region := mr_empty; ci_encoding := no_encoding;
  ci_reader := if 150 <=? v then reader_at data 0 else reader_at 0 0;
  flags_ := 0; code_size_ := 0; packed_frame_size_ := 0; core_spill_mask_ := 0;
  fp_spill_mask_ := 0; number_of_dex_registers_ := 0; bit_table_flags_ := 0;
  number_of_stack_maps_ := 0; frame_size_in_bytes_ := 0;
  tables := replicate 8 (no_table, []) |}.

(** The header fields, and the frame size in units of [kStackAlignment]. *)
Definition with_header (rd : BitMemoryReader) (fl cs pfs core fp regs btf frame : Z)
    (i : CodeInfo) : CodeInfo :=
  Build_CodeInfo (ci_region i) (ci_encoding i) rd fl cs pfs core fp regs btf
    (number_of_stack_maps_ i) frame (tables i).
Definition with_region (r : MemoryRegion) (i : CodeInfo) : CodeInfo :=
  Build_CodeInfo r (ci_encoding i) (ci_reader i) (flags_ i) (code_size_ i)
    (packed_frame_size_ i) (core_spill_mask_ i) (fp_spill_mask_ i)
    (number_of_dex_registers_ i) (bit_table_flags_ i) (number_of_stack_maps_ i)
    (frame_size_in_bytes_ i) (tables i).
Definition with_encoding (e : CodeInfoEncoding) (n : Z) (i : CodeInfo) : CodeInfo :=
  Build_CodeInfo (ci_region i) e (ci_reader i) (flags_ i) (code_size_ i)
    (packed_frame_size_ i) (core_spill_mask_ i) (fp_spill_mask_ i)
    (number_of_dex_registers_ i) (bit_table_flags_ i) n (frame_size_in_bytes_ i) (tables i).
Definition with_tables (rd : BitMemoryReader) (t : list (BitTable * list Z)) (i : CodeInfo)
    : CodeInfo :=
  Build_CodeInfo (ci_region i) (ci_encoding i) rd (flags_ i) (code_size_ i)
    (packed_frame_size_ i) (core_spill_mask_ i) (fp_spill_mask_ i)
    (number_of_dex_registers_ i) (bit_table_flags_ i) (number_of_stack_maps_ i)
    (frame_size_in_bytes_ i) t.

Definition frame_bytes (packed : Z) : Z := u32 (packed * kStackAlignment).

(** The headers of oat 191, 173, 172, 171 and 159, given as the list of their values. *)
Definition header_of (rd : BitMemoryReader) (l : list Z) (i : CodeInfo)
    : result CodeInfo :=
  match l with
  | [fl; cs; pfs; core; fp; regs; btf] =>
      Ok (with_header rd fl cs pfs core fp regs btf (frame_bytes pfs) i)
  | [fl; pfs; core; fp; regs; btf] =>
      Ok (with_header rd fl 0 pfs core fp regs btf (frame_bytes pfs) i)
  | [fl; pfs; core; fp; regs] => Ok (with_header rd fl 0 pfs core fp regs 0 (frame_bytes pfs) i)
  | [pfs; core; fp; regs] => Ok (with_header rd 0 0 pfs core fp regs 0 (frame_bytes pfs) i)
  | _ => Fault
  end.

(** Four LEB128 numbers: frame size, spill masks, dex registers. *)
Definition leb_header (h : host) (p : Z) : result (list Z * Z) :=
  let! a := DecodeUnsignedLeb128 h p in
  let! b := DecodeUnsignedLeb128 h (snd a) in
  let! f := DecodeUnsignedLeb128 h (snd b) in
  let! r := DecodeUnsignedLeb128 h (snd f) in
  Ok ([fst a; fst b; fst f; fst r], snd r).

Definition with_leb (rd : BitMemoryReader) (l : list Z) (i : CodeInfo) : result CodeInfo :=
  match l with
  | [frame; core; fp; regs] => Ok (with_header rd 0 0 0 core fp regs 0 frame i)
  | _ => Fault
  end.

(** [DecodeHeaderOnly(code_info_data)]. *)
Definition DecodeHeaderOnly (v : Z) (c : CoreApi) (data : Z) : result CodeInfo :=
  let i := new_CodeInfo v data in
  if 173 <=? v then
    let! h := ReadInterleavedVarints c (ci_reader i) (kNumHeaders v) [] in
    header_of (fst h) (snd h) i
  else if 159 <=? v then
    let! h := read_varints (kNumHeaders v) c (ci_reader i) in
    header_of (fst h) (snd h) i
  else if 151 <=? v then
    let! r := Real c (ref_at data) in
    let! h := leb_header (host_mem c) (snd r) in
    with_leb (reader_at (u64 (data + u32 (snd h - snd r))) 0) (fst h) i
  else if 150 <=? v then
    let! r := Real c (ref_at data) in
    let! n := DecodeUnsignedLeb128 (host_mem c) (snd r) in
    let end_ := u64 (snd n + fst n) in
    let! h := leb_header (host_mem c) (snd n) in
    let region := {| mr_pointer := u64 (data + u32 (snd h - snd r));
                     mr_size := u64 (end_ - snd h) |} in
    with_leb (reader_of (region_bits region)) (fst h) (with_region region i)
  else if 144 <=? v then
    let! r := Real c (ref_at data) in
    let! n := DecodeUnsignedLeb128 (host_mem c) (snd r) in
    Ok (with_region {| mr_pointer := u64 (data + u32 (snd n - snd r)); mr_size := fst n |} i)
  else Ok i.

(** [DecodeCodeSize] and [DecodeFrameInfo]: frame size and spill masks. *)
Definition DecodeCodeSize (v : Z) (c : CoreApi) (data : Z) : result Z :=
  let! i := DecodeHeaderOnly v c data in Ok (code_size_ i).
Definition DecodeFrameInfo (v : Z) (c : CoreApi) (data : Z) : result (Z * Z * Z) :=
  let! i := DecodeHeaderOnly v c data in
  Ok (frame_size_in_bytes_ i, core_spill_mask_ i, fp_spill_mask_ i).

Definition HasBitTable (i : CodeInfo) (k : table_kind) : bool :=
  Z.testbit (bit_table_flags_ i) (Z.of_nat (kind_index k)).
Definition IsBitTableDeduped (i : CodeInfo) (k : table_kind) : bool :=
  Z.testbit (bit_table_flags_ i) (kNumBitTables + Z.of_nat (kind_index k)).

(** The operands of [-] in [NumberOfReadBits() - ReadVarint()] are evaluated in an order
    that C++ leaves open: [left] says that the number of read bits is taken first. *)
Definition dedup_offset (left : bool) (c : CoreApi) (rd : BitMemoryReader)
    : result (BitMemoryReader * Z) :=
  let! x := ReadVarint c rd in
  let bits_ := NumberOfReadBits (if left then rd else fst x) in
  Ok (fst x, sint 64 (u64 (bits_ - snd x))).

(** A table that is stored once for several methods: a back reference, read through a
    second reader. *)
Definition decode_deduped (left : bool) (v : Z) (k : table_kind) (c : CoreApi)
    (rd : BitMemoryReader) : result (BitMemoryReader * (BitTable * list Z)) :=
  let! o := dedup_offset left c rd in
  let! t := Decode_table v k c (reader_at (region_data (fst o)) (snd o)) in
  Ok (fst o, snd t).

(** [DECODE_BIT_TABLE_173], [_172] (which differ in a statement without effect) and
    [_159]. *)
Definition DECODE_BIT_TABLE (left : bool) (v : Z) (c : CoreApi) (i : CodeInfo)
    (k : table_kind) : result CodeInfo :=
  if 172 <=? v then
    if HasBitTable i k then
      let! t := (if IsBitTableDeduped i k then decode_deduped left v k c (ci_reader i)
                 else Decode_table v k c (ci_reader i)) in
      Ok (with_tables (fst t) (<[kind_index k := snd t]> (tables i)) i)
    else Ok i
  else
    let! b := ReadBit c (ci_reader i) in
    let! t := (if snd b : bool then decode_deduped left v k c (fst b)
               else Decode_table v k c (fst b)) in
    Ok (with_tables (fst t) (<[kind_index k := snd t]> (tables i)) i).

Fixpoint decode_tables (left : bool) (v : Z) (c : CoreApi) (ks : list table_kind)
    (i : CodeInfo) : result CodeInfo :=
  match ks with
  | [] => Ok i
  | k :: ks => let! i := DECODE_BIT_TABLE left v c i k in decode_tables left v c ks i
  end.

(** [CodeInfo::Decode(code_info_data)]. *)
Definition Decode (left : bool) (v : Z) (c : CoreApi) (data : Z) : result CodeInfo :=
  if 144 <=? v then
    let! i := DecodeHeaderOnly v c data in
    if 159 <=? v then decode_tables left v c all_kinds i else Ok i
  else if 79 <=? v then
    let! e := new_CodeInfoEncoding v c data in
    let region := {| mr_pointer := data;
                     mr_size := u32 (cache_header_size e + cache_non_header_size e) |} in
    let n := if 124 <=? v then be_num_entries (ce_stack_map e) else ce_number_of_stack_maps e in
    Ok (with_region region (with_encoding e n (new_CodeInfo v data)))
  else if 64 <=? v then
    let! size := value32Of c (ref_at data) 0 in
    let region := {| mr_pointer := data; mr_size := snd size |} in
    let! n := LoadUnaligned32 c region 10 in
    Ok (with_region region (with_encoding no_encoding n (new_CodeInfo v data)))
  else Ok (new_CodeInfo v data).

(** [ExtendNumRegister(method)]; [num_regs] is the register count of the method's code
    item, when it has one. *)
Definition ExtendNumRegister (v : Z) (num_regs : option Z) (i : CodeInfo) : CodeInfo :=
  if v <? 150 then
    match num_regs with
    | Some n => with_header (ci_reader i) (flags_ i) (code_size_ i) (packed_frame_size_ i)
                  (core_spill_mask_ i) (fp_spill_mask_ i) n (bit_table_flags_ i)
                  (frame_size_in_bytes_ i) i
    | None => i
    end
  else i.

(** * Lookups *)

(** [StackMap::UnpackNativePc]. *)
Definition UnpackNativePc (packed : Z) : Z :=
  if machine =? EM_ARM then u32 (packed * 2)
  else if machine =? EM_AARCH64 then u32 (packed * 4)
  else if machine =? EM_RISCV then u32 (packed * 2)
  else packed.

Definition table_of (i : CodeInfo) (k : table_kind) : BitTable :=
  fst (default (no_table, []) (tables i !! kind_index k)).

(** [Get##k().Get(row, col)]. *)
Definition get_cell (v : Z) (c : CoreApi) (i : CodeInfo) (k : table_kind) (row col : Z)
    : result Z :=
  Get (NumColumns v k) c (table_of i k) row col.

(** The bits of stack map [row] before oat 144: [BitRegion], or the row of the byte-sized
    table of oat 79. *)
Definition old_row (v : Z) (i : CodeInfo) (row : Z) : BitMemoryRegion :=
  let e := ci_encoding i in
  if 124 <=? v then
    let n := sm_total_bit_size_ (be_encoding (ce_stack_map e)) in
    region_part (ci_region i) (u32 (be_bit_offset (ce_stack_map e) + u32 (row * n))) n
  else
    let n := stack_map_size_in_bytes e in
    region_bits (mr_Subregion
      (mr_Subregion (ci_region i) (cache_header_size e)
         (u32 (stack_map_size_in_bytes e * ce_number_of_stack_maps e)))
      (u32 (row * n)) n).

(** A field of a stack map before oat 144. *)
Definition old_field (v : Z) (c : CoreApi) (i : CodeInfo) (row : Z)
    (f : StackMapEncoding -> FieldEncoding) : result Z :=
  fe_Load (f (be_encoding (ce_stack_map (ci_encoding i)))) c (old_row v i row).

(** Native pc and another column of stack map [row]. *)
Definition stack_map_row (v : Z) (c : CoreApi) (i : CodeInfo) (col : Z)
    (old : StackMapEncoding -> FieldEncoding) (row : Z) : result (Z * Z) :=
  if 144 <=? v then
    let! p := get_cell v c i StackMap row kColNumPackedNativePc in
    let! x := get_cell v c i StackMap row col in
    Ok (UnpackNativePc p, x)
  else
    let! p := old_field v c i row GetNativePcEncoding in
    let! x := old_field v c i row old in
    Ok (p, x).

(** How many stack maps there are, and whether the loops run at all. *)
Definition stack_map_rows (v : Z) (i : CodeInfo) : Z :=
  if 144 <=? v then num_rows_ (table_of i StackMap)
  else if 124 <=? v then number_of_stack_maps_ i
  else if 79 <=? v then if mr_size (ci_region i) =? 0 then 0 else number_of_stack_maps_ i
  else 0.

(** [NativeStackMaps(maps)]: native pc and dex pc of every row. *)
Fixpoint rows_from (n : nat) (v : Z) (c : CoreApi) (i : CodeInfo) (row : Z)
    : result (list (Z * Z)) :=
  match n with
  | O => Ok []
  | S n =>
      let! x := stack_map_row v c i kColNumDexPc GetDexPcEncoding row in
      let! l := rows_from n v c i (row + 1) in
      Ok (x :: l)
  end.
Definition NativeStackMaps (v : Z) (c : CoreApi) (i : CodeInfo) : result (list (Z * Z)) :=
  rows_from (Z.to_nat (stack_map_rows v i)) v c i 0.

(** The search loop: the row and the column value of the first stack map behind
    [native_pc], or of the last one. *)
Fixpoint scan_rows (n : nat) (v : Z) (c : CoreApi) (i : CodeInfo) (col : Z)
    (old : StackMapEncoding -> FieldEncoding) (native_pc row : Z) (found : Z * Z)
    : result (Z * Z) :=
  match n with
  | O => Ok found
  | S n =>
      let! x := stack_map_row v c i col old row in
      if native_pc <? fst x then Ok (row, snd x)
      else scan_rows n v c i col old native_pc (row + 1) (row, snd x)
  end.

(** [NativePc2DexPc(native_pc)]. *)
Definition NativePc2DexPc (v : Z) (c : CoreApi) (i : CodeInfo) (native_pc : Z) : result Z :=
  let! r := scan_rows (Z.to_nat (stack_map_rows v i)) v c i kColNumDexPc GetDexPcEncoding
              native_pc 0 (kNoValue, 0) in
  Ok (snd r).

(** [__builtin_ctz(bits)] of a non-zero [uint32_t]: its lowest set bit. *)
Fixpoint ctz_from (n : nat) (bits_ k : Z) : Z :=
  match n with
  | O => k
  | S n => if Z.testbit bits_ k then k else ctz_from n bits_ (k + 1)
  end.
Definition builtin_ctz (bits_ : Z) : Z := ctz_from 31 bits_ 0.

(** The registers found so far: their locations (kind, packed value), the registers with a
    location, and how many are still wanted. *)
Record VRegs := { vregs : gmap Z (Z * Z); bits_set : gset Z; remaining_registers : Z }.

(** The dex register [reg] is the [map_index]-th location of the row. *)
Definition add_vreg (v : Z) (c : CoreApi) (i : CodeInfo) (reg map_index : Z) (s : VRegs)
    : result VRegs :=
  let! cat := get_cell v c i DexRegisterMap map_index kColNumCatalogueIndex in
  if cat =? kNoValue then Ok s else
  let! kind := get_cell v c i DexRegisterInfo cat kColNumKind in
  let! value := get_cell v c i DexRegisterInfo cat kColNumPackedValue in
  if bool_decide (reg ∈ bits_set s) then Ok s
  else Ok {| vregs := <[reg := (kind, value)]> (vregs s);
             bits_set := {[reg]} ∪ bits_set s;
             remaining_registers := u32 (remaining_registers s - 1) |}.

(** [while (bits != 0)]: every turn clears the lowest set bit of 32. *)
Fixpoint mask_bits (n : nat) (v : Z) (c : CoreApi) (i : CodeInfo) (reg bits_ map_index : Z)
    (s : VRegs) : result (Z * VRegs) :=
  if bits_ =? 0 then Ok (map_index, s) else
  match n with
  | O => OutOfFuel
  | S n =>
      let bit := builtin_ctz bits_ in
      let! s := add_vreg v c i (u32 (reg + bit)) map_index s in
      mask_bits n v c i reg (Z.lxor bits_ (shl 32 1 bit)) (u32 (map_index + 1)) s
  end.

(** [for (reg = 0; reg < end; reg += 32)]. *)
Fixpoint mask_words (n : nat) (v : Z) (c : CoreApi) (i : CodeInfo) (mask : BitMemoryRegion)
    (reg end_ map_index : Z) (s : VRegs) : result VRegs :=
  if reg <? end_ then
    match n with
    | O => OutOfFuel
    | S n =>
        let! b := LoadBits c mask reg (Z.min (end_ - reg) 32) in
        let! r := mask_bits 32 v c i reg (u32 (snd b)) map_index s in
        mask_words n v c i (fst b) (u32 (reg + 32)) end_ (fst r) (snd r)
    end
  else Ok s.

(** One row of the backward walk. *)
Definition vregs_row (v : Z) (c : CoreApi) (i : CodeInfo) (row : Z) (s : VRegs)
    : result VRegs :=
  let! mask_index := get_cell v c i StackMap row kColNumDexRegisterMaskIndex in
  if mask_index =? kNoValue then Ok s else
  if mask_index <? num_rows_ (table_of i DexRegisterMask) then
    let! mask := GetBitMemoryRegion (NumColumns v DexRegisterMask) (table_of i DexRegisterMask)
                   mask_index kColNumMask in
    if bit_size_ mask <=? 0 then Ok s else
    let! map_index := get_cell v c i StackMap row kColNumDexRegisterMapIndex in
    let! skipped := PopCount_part c mask 0 0 in
    let mask := Subregion mask 0 (bit_size_ mask) in
    let end_ := Z.min (number_of_dex_registers_ i) (u32 (bit_size_ mask)) in
    mask_words (Z.to_nat (end_ / 32 + 1)) v c i mask 0 end_ (u32 (map_index + skipped)) s
  else Ok s.

(** [for (row = current_row; row >= 0 && remaining_registers != 0; row--)]: [n] rows from
    [n - 1] down to 0. *)
Fixpoint vregs_rows (n : nat) (v : Z) (c : CoreApi) (i : CodeInfo) (s : VRegs)
    : result VRegs :=
  match n with
  | O => Ok s
  | S m =>
      if remaining_registers s =? 0 then Ok s else
      let! s := vregs_row v c i (Z.of_nat m) s in
      vregs_rows m v c i s
  end.

(** [NativePc2VRegsV2(native_pc, vreg_map)]; [current_row] is an [int] in the walk. *)
Definition NativePc2VRegsV2 (v : Z) (c : CoreApi) (i : CodeInfo) (native_pc : Z)
    (vreg_map : gmap Z (Z * Z)) : result (gmap Z (Z * Z)) :=
  let sm := table_of i StackMap in
  if negb (table_IsValid sm) then Ok vreg_map else
  let! r := scan_rows (Z.to_nat (num_rows_ sm)) v c i kColNumDexRegisterMapIndex
              GetDexRegisterMapEncoding native_pc 0 (kNoValue, kNoValue) in
  let '(current_row, map_index) := r in
  if map_index =? kNoValue then Ok vreg_map else
  if negb (table_IsValid (table_of i DexRegisterMap)) then Ok vreg_map else
  if negb (table_IsValid (table_of i DexRegisterMask)) then Ok vreg_map else
  if negb (table_IsValid (table_of i DexRegisterInfo)) then Ok vreg_map else
  let! s := vregs_rows (Z.to_nat (i32 current_row + 1)) v c i
              {| vregs := vreg_map; bits_set := ∅;
                 remaining_registers := number_of_dex_registers_ i |} in
  Ok (vregs s).

(** [NativePc2VRegsV0], [V1]: the row is looked up, nothing is stored. *)
Definition NativePc2VRegs_old (v : Z) (c : CoreApi) (i : CodeInfo) (native_pc : Z)
    (vreg_map : gmap Z (Z * Z)) : result (gmap Z (Z * Z)) :=
  let! r := scan_rows (Z.to_nat (stack_map_rows v i)) v c i kColNumDexRegisterMapIndex
              GetDexRegisterMapEncoding native_pc 0 (kNoValue, kNoValue) in
  Ok vreg_map.

(** [NativePc2VRegs(native_pc, vregs)]. *)
Definition NativePc2VRegs (v : Z) (c : CoreApi) (i : CodeInfo) (native_pc : Z)
    (vreg_map : gmap Z (Z * Z)) : result (gmap Z (Z * Z)) :=
  if 170 <=? v then NativePc2VRegsV2 v c i native_pc vreg_map
  else if 144 <=? v then Ok vreg_map
  else if 79 <=? v then NativePc2VRegs_old v c i native_pc vreg_map
  else Ok vreg_map.
End Code.
