(* ===== verification/OatProofs.v ===== *)
(** What the stack map decoder of OatCode.v computes.

    A table in memory is a header (row count and column widths) and rows of bit-fields;
    [TableAt] relates a decoded table to the list of its rows.  The file shows that
    decoding an encoded table gives back its rows, and that the searches by native pc are
    the searches over those rows. *)

From Stdlib Require Import ZArith Lia Bool.
From stdpp Require Import base list gmap numbers.
From S2P Require Import Prelude Words Host Blocks Notes CoreApi Segments AddressSpace MemRef Elf.
From S2P Require Import Bits BitsProofs OatCode.
Open Scope Z_scope.

(** * Tables as lists of rows *)

(** The fields of one row, and of all rows, for columns of the widths [ws]. *)
Definition row_fields (ws row : list Z) : list (Z * Z) := zip ws row.
Definition rows_fields (ws : list Z) (cells : list (list Z)) : list (Z * Z) :=
  concat (map (row_fields ws) cells).

Definition total (ws : list Z) : Z := foldr Z.add 0 ws.

(** A stored value of a cell: the value plus one, so that zero is [kNoValue]. *)
Definition cell_value (x : Z) : Z := u32 (x + kValueBias).

(** A header with its row count and widths, in the format of version [v]. *)
Definition table_header (v rows : Z) (ws : list Z) : list Z :=
  if 173 <=? v then rows :: ws else if rows =? 0 then [rows] else rows :: ws.
Definition header_fields_at (v rows : Z) (ws : list Z) : list (Z * Z) :=
  if 173 <=? v then interleaved (rows :: ws)
  else concat (map varint_fields (table_header v rows ws)).
Definition table_fields (v : Z) (ws : list Z) (cells : list (list Z)) : list (Z * Z) :=
  header_fields_at v (Z.of_nat (length cells)) ws ++ rows_fields ws cells.

(** A table that can be encoded: its cells fill a rectangle, the offsets of its columns
    fit in 16 bits and the bits of all rows in 32. *)
Record encodable (ws : list Z) (cells : list (list Z)) : Prop := {
  en_widths : Forall (fun w => 0 <= w) ws;
  en_columns : total ws < 2 ^ 16;
  en_rows : Z.of_nat (length cells) * total ws < 2 ^ 32;
  en_count : Z.of_nat (length cells) < 2 ^ 32;
  en_shape : Forall (fun row => length row = length ws) cells;
}.

Lemma total_cons w ws : total (w :: ws) = w + total ws.
Proof. done. Qed.

Lemma total_nonneg ws : Forall (fun w => 0 <= w) ws -> 0 <= total ws.
Proof. induction 1; [done|]. rewrite total_cons. lia. Qed.

Lemma total_take_drop k ws : total (take k ws) + total (drop k ws) = total ws.
Proof.
  revert ws. induction k as [|k IH]; intros ws; [done|]. destruct ws as [|w ws]; [done|].
  cbn [take drop]. rewrite !total_cons. specialize (IH ws). lia.
Qed.

Lemma width_zip ws row :
  length row = length ws -> width (row_fields ws row) = total ws.
Proof.
  revert row. induction ws as [|w ws IH]; intros [|x row] H; try done.
  rewrite total_cons, <- (IH row); [done|]. cbn in H. lia.
Qed.

Lemma width_rows ws cells :
  Forall (fun row => length row = length ws) cells ->
  width (rows_fields ws cells) = Z.of_nat (length cells) * total ws.
Proof.
  unfold rows_fields. induction 1 as [|row cells Hr _ IH]; [done|].
  cbn [map concat length]. rewrite width_app, IH, width_zip by done. lia.
Qed.

(** The field of a cell lies where the sums of the widths say. *)
Lemma row_field_at V pos ws row j w x :
  fields_at V pos (row_fields ws row) -> length row = length ws ->
  ws !! j = Some w -> row !! j = Some x ->
  field_at V (pos + total (take j ws)) w = x.
Proof.
  revert pos ws row. induction j as [|j IH]; intros pos ws row Hf Hl Hw Hx;
    destruct ws as [|w' ws], row as [|x' row]; try discriminate; destruct Hf as [H1 H2].
  - cbn in Hw, Hx. simplify_eq. cbn. by rewrite Z.add_0_r.
  - cbn [take]. rewrite total_cons, Z.add_assoc.
    apply (IH _ ws row); try done. cbn in Hl. lia.
Qed.

Lemma rows_field_at V pos ws cells i row :
  fields_at V pos (rows_fields ws cells) ->
  Forall (fun row => length row = length ws) cells -> cells !! i = Some row ->
  fields_at V (pos + Z.of_nat i * total ws) (row_fields ws row) /\ length row = length ws.
Proof.
  revert pos cells. induction i as [|i IH]; intros pos cells Hf Hs Hi;
    destruct cells as [|r cells]; try discriminate;
    apply Forall_cons_1 in Hs as [Hr Hs];
    apply fields_at_app in Hf as [H1 H2].
  - cbn in Hi. simplify_eq. split; [|done]. by rewrite Z.mul_0_l, Z.add_0_r.
  - cbn in Hi. rewrite width_zip in H2 by done. destruct (IH _ _ H2 Hs Hi) as [H3 H4].
    split; [|done]. by replace (pos + Z.of_nat (S i) * total ws)
      with (pos + total ws + Z.of_nat i * total ws) by lia.
Qed.

(** The column offsets are the sums of the widths. *)
Lemma column_offsets_lookup last ws k :
  Forall (fun w => 0 <= w) ws -> 0 <= last -> last + total ws < 2 ^ 16 -> (k <= length ws)%nat ->
  column_offsets last ws !! k = Some (last + total (take k ws)).
Proof.
  intros Hw. revert last k. induction Hw as [|w ws Hw Hws IH]; intros last k Hl Ht Hk.
  - destruct k; [|cbn in Hk; lia]. cbn. f_equal. lia.
  - rewrite total_cons in Ht. pose proof (total_nonneg ws Hws).
    destruct k as [|k]; [cbn; f_equal; lia|].
    change (column_offsets (u16 (u32 (last + w))) ws !! k
            = Some (last + total (w :: take k ws))). rewrite total_cons. cbn in Hk. rewrite !wrap_small by (rewrite ?wrap_small; lia).
    rewrite IH by lia. f_equal. lia.
Qed.

Lemma column_offsets_length last ws : length (column_offsets last ws) = S (length ws).
Proof. revert last. induction ws; intros last; cbn; [done|]. by rewrite IHws. Qed.

Section Tables.
Context {M : Machine} (c : CoreApi) (run : Z -> Z -> option (list Z)) `{!Presents c run}.

(** The table [t] lies in the number [V] and has the rows [cells]. *)
Record TableAt (n V : Z) (ws : list Z) (cells : list (list Z)) (t : BitTable) : Prop := {
  ta_number : number_at c run (data_ (table_data_ t)) n V;
  ta_start : 0 <= bit_start_ (table_data_ t);
  ta_encodable : encodable ws cells;
  ta_rows : num_rows_ t = Z.of_nat (length cells);
  ta_columns : column_offset_ t = column_offsets 0 ws;
  ta_fields : fields_at V (bit_start_ (table_data_ t)) (rows_fields ws cells);
  ta_end : bit_start_ (table_data_ t) + Z.of_nat (length cells) * total ws + 64 <= 8 * n;
}.

Section At.
Context (n V : Z) (ws : list Z) (cells : list (list Z)) (t : BitTable).
Hypothesis Ht : TableAt n V ws cells t.

Lemma column_at k : (k <= length ws)%nat ->
  column t (Z.of_nat k) = Ok (total (take k ws)).
Proof.
  intros Hk. destruct Ht as [_ _ [Hw Hc _ _ _] _ Ho _ _].
  unfold column. rewrite Nat2Z.id, Ho. rewrite column_offsets_lookup by (done || lia). done.
Qed.

Lemma columns_at j w : ws !! j = Some w ->
  NumColumnBits t (Z.of_nat j) = Ok w /\ 0 <= w /\ total (take j ws) + w <= total ws.
Proof.
  intros Hj. destruct Ht as [_ _ [Hw Hc _ _ _] _ _ _ _].
  pose proof (lookup_lt_Some _ _ _ Hj) as Hlt.
  assert (E : total (take (S j) ws) = total (take j ws) + w).
  { rewrite (take_S_r _ _ w) by done. unfold total. rewrite foldr_app. cbn.
    rewrite Z.add_0_r. clear. induction (take j ws) as [|x l IH]; cbn; lia. }
  pose proof (Forall_lookup_1 _ _ _ _ Hw Hj) as Hw0.
  pose proof (total_take_drop (S j) ws). pose proof (total_take_drop j ws).
  pose proof (total_nonneg _ (Forall_take _ j _ Hw)).
  pose proof (total_nonneg _ (Forall_drop _ (S j) _ Hw)).
  unfold NumColumnBits. replace (Z.of_nat j + 1) with (Z.of_nat (S j)) by lia.
  rewrite !column_at by lia. cbn [rbind]. rewrite E.
  split_and!; [|cbn in Hw0; lia|lia]. f_equal. rewrite wrap_small; cbn in *; lia.
Qed.

(** The offset of a cell does not wrap around. *)
Lemma cell_offset_at ncols i j w :
  length ws = ncols -> (i < length cells)%nat -> ws !! j = Some w ->
  cell_offset ncols t (Z.of_nat i) (Z.of_nat j)
    = Ok (Z.of_nat i * total ws + total (take j ws)).
Proof.
  intros <- Hi Hj. destruct (columns_at j w Hj) as (_ & Hw & Hle).
  pose proof (lookup_lt_Some _ _ _ Hj). destruct Ht as [_ _ [Hws Hc Hr Hn _] _ _ _ _].
  pose proof (total_nonneg _ (Forall_take _ j _ Hws)).
  unfold cell_offset, NumRowBits. rewrite !column_at by lia. cbn [rbind].
  rewrite firstn_all. f_equal. apply wrap_small. nia.
Qed.

(** [Get] returns the value of the cell. *)
Lemma Get_at `{!MachineOk c} ncols i j row w x :
  length ws = ncols -> cells !! i = Some row -> ws !! j = Some w -> row !! j = Some x ->
  w <= bits -> Get ncols c t (Z.of_nat i) (Z.of_nat j) = Ok (cell_value x).
Proof.
  intros Hl Hi Hj Hx Hb. pose proof (lookup_lt_Some _ _ _ Hi).
  destruct (columns_at j w Hj) as (En & Hw & Hle).
  unfold Get. rewrite (cell_offset_at ncols i j w) by done. cbn [rbind]. rewrite En. cbn [rbind].
  destruct Ht as [Hnum Hs [Hws Hc Hr Hn Hsh] _ _ Hf He].
  pose proof (total_nonneg _ (Forall_take _ j _ Hws)).
  destruct (rows_field_at _ _ _ _ _ _ Hf Hsh Hi) as [Hrow Hlen].
  destruct (LoadBits_at c run (table_data_ t) n V
    (Z.of_nat i * total ws + total (take j ws)) w) as (r' & E & _); try done; try nia.
  rewrite E. cbn [rbind snd]. unfold cell_value. do 3 f_equal.
  rewrite Z.add_assoc. by apply (row_field_at _ _ _ row).
Qed.

(** A region of a cell denotes the stored bits of the cell. *)
Lemma GetBitMemoryRegion_at ncols i j row w x :
  length ws = ncols -> cells !! i = Some row -> ws !! j = Some w -> row !! j = Some x ->
  exists r, GetBitMemoryRegion ncols t (Z.of_nat i) (Z.of_nat j) = Ok r /\
    data_ r = data_ (table_data_ t) /\ bit_size_ r = w /\ 0 <= bit_start_ r /\
    bit_start_ r + w + 64 <= 8 * n /\ field_at V (bit_start_ r) w = x.
Proof.
  intros Hl Hi Hj Hx. pose proof (lookup_lt_Some _ _ _ Hi).
  destruct (columns_at j w Hj) as (En & Hw & Hle).
  unfold GetBitMemoryRegion. rewrite (cell_offset_at ncols i j w) by done. cbn [rbind].
  rewrite En. cbn [rbind]. eexists. split; [done|].
  destruct Ht as [Hnum Hs [Hws Hc Hr Hn Hsh] _ _ Hf He].
  pose proof (total_nonneg _ (Forall_take _ j _ Hws)). pose proof Hnum as (_ & _ & Hn60 & _).
  destruct (rows_field_at _ _ _ _ _ _ Hf Hsh Hi) as [Hrow Hlen].
  unfold Subregion. cbn [data_ bit_size_ bit_start_]. rewrite wrap_small by nia.
  split_and!; try done; try nia.
  rewrite Z.add_assoc. by apply (row_field_at _ _ _ row).
Qed.
End At.

(** * Decoding a table *)

Lemma covers_app rd n V a b :
  covers c run rd n V (a + b) -> 0 <= a -> 0 <= b ->
  covers c run rd n V a /\ covers c run (advance rd a) n V b.
Proof.
  intros Hc Ha Hb. split; [|by apply covers_advance].
  destruct Hc as (? & ? & ? & ? & ?). split_and!; done || lia.
Qed.

Lemma varint_fields_width v : 0 <= width (varint_fields v).
Proof.
  pose proof (varint_tail_width v).
  change (width (varint_fields v)) with (4 + width (varint_tail v)). lia.
Qed.

Lemma varints_width vs : 0 <= width (concat (map varint_fields vs)).
Proof.
  induction vs as [|v vs IH]; [done|]. cbn [map concat]. rewrite width_app.
  pose proof (varint_fields_width v). lia.
Qed.

Lemma read_varints_at `{!MachineOk c} rd n V vs :
  Forall (fun v => 0 <= v < 2 ^ 32) vs ->
  covers c run rd n V (width (concat (map varint_fields vs))) ->
  fields_at V (position rd) (concat (map varint_fields vs)) ->
  read_varints (length vs) c rd = Ok (advance rd (width (concat (map varint_fields vs))), vs).
Proof.
  intros Hv. revert rd. induction Hv as [|v vs Hv _ IH]; intros rd Hc Hf.
  - by rewrite advance_0.
  - cbn [map concat length read_varints] in *. rewrite width_app in Hc |- *.
    apply fields_at_app in Hf as [H1 H2]. pose proof (varint_fields_width v).
    apply covers_app in Hc as [Hc1 Hc2]; [|done|apply varints_width].
    rewrite (ReadVarint_at c run rd n V v) by done. cbn [rbind fst snd].
    rewrite IH by (rewrite ?position_advance; done). cbn [rbind fst snd].
    by rewrite advance_advance.
Qed.

Lemma interleaved_nonneg vs : 0 <= width (interleaved vs).
Proof. rewrite interleaved_width. pose proof (tails_width vs). lia. Qed.

(** The widths of a decoded table: an empty table of oat 159 to 172 stores none. *)
Definition table_widths (v rows : Z) (ws : list Z) : list Z :=
  if (173 <=? v) || negb (rows =? 0) then ws else replicate (length ws) 0.

(** Reading the rows, once the offsets are known. *)
Lemma read_rows_at rd n V ws cells :
  encodable ws cells -> covers c run rd n V (width (rows_fields ws cells)) ->
  fields_at V (position rd) (rows_fields ws cells) ->
  exists t, read_rows (length ws) rd (Z.of_nat (length cells)) (column_offsets 0 ws)
      = Ok (advance rd (width (rows_fields ws cells)), t) /\
    TableAt n V ws cells t.
Proof.
  intros He Hc Hf. pose proof He as [Hw Hcol Hr Hn Hs]. rewrite width_rows in * by done.
  pose proof (total_nonneg ws Hw). destruct Hc as (H1 & H2 & H3 & H4 & H5).
  pose proof H1 as (_ & _ & Hn60 & _). unfold position in *.
  unfold read_rows. rewrite column_offsets_lookup by (done || lia).
  rewrite firstn_all. cbn [of_option rbind]. rewrite Z.add_0_l.
  rewrite (wrap_small 32) by nia. unfold ReadRegion. rewrite (wrap_small 64) by nia.
  eexists. split; [done|].
  split; cbn [table_data_ num_rows_ column_offset_ Subregion Resize data_ bit_start_];
    rewrite ?wrap_small by nia; try done; lia.
Qed.

Lemma replicate_offsets k : column_offsets 0 (replicate k 0) = replicate (S k) 0.
Proof. induction k as [|k IH]; [done|]. cbn [replicate column_offsets]. f_equal. exact IH. Qed.

Lemma total_replicate k : total (replicate k 0) = 0.
Proof. induction k as [|k IH]; [done|]. cbn [replicate]. by rewrite total_cons, IH. Qed.

Lemma empty_encodable k : encodable (replicate k 0) [].
Proof.
  split; rewrite ?total_replicate; try done. apply Forall_replicate. lia.
Qed.

(** Decoding an encoded table leaves the reader right behind it, and the table has the
    encoded rows. *)
Lemma DecodeOnly_at `{!MachineOk c} v rd n V ws cells :
  159 <= v -> encodable ws cells -> Forall (fun w => w < 2 ^ 32) ws -> (length ws <= 15)%nat ->
  covers c run rd n V (width (table_fields v ws cells)) ->
  fields_at V (position rd) (table_fields v ws cells) ->
  exists t, DecodeOnly v (length ws) c rd
      = Ok (advance rd (width (table_fields v ws cells)), t,
            table_header v (Z.of_nat (length cells)) ws) /\
    TableAt n V (table_widths v (Z.of_nat (length cells)) ws) cells t.
Proof.
  intros Hv He Hw32 Hl Hc Hf. pose proof He as [Hw Hcol Hr Hn Hs].
  set (rows := Z.of_nat (length cells)) in *.
  assert (Hvs : Forall (fun x => 0 <= x < 2 ^ 32) (rows :: ws)).
  { constructor; [lia|]. by apply List.Forall_and. }
  unfold table_fields in *. fold rows in Hc, Hf |- *. rewrite width_app in *. apply fields_at_app in Hf as [Hf1 Hf2].
  pose proof (total_nonneg ws Hw).
  assert (Hrw : 0 <= width (rows_fields ws cells)) by (rewrite width_rows by done; lia).
  unfold DecodeOnly, header_fields_at, table_header, table_widths in *.
  destruct (Z.leb_spec 173 v) as [H173|H173]; cbn [orb].
  - apply covers_app in Hc as [Hc1 Hc2]; [|apply interleaved_nonneg|done].
    change (S (length ws)) with (length (rows :: ws)).
    rewrite (ReadInterleavedVarints_at c run rd n V) by (done || cbn; lia).
    cbn [rbind]. change ((rows :: ws) !! 0%nat) with (Some rows). cbn [of_option rbind drop].
    rewrite firstn_all.
    destruct (read_rows_at _ n V ws cells He Hc2) as (t & E & Ht);
      [by rewrite position_advance|].
    fold rows in E. rewrite drop_0, E. cbn [rbind fst snd]. rewrite advance_advance. by exists t.
  - rewrite (proj2 (Z.leb_le 159 v)) by lia.
    apply covers_app in Hc as [Hc1 Hc2]; [|apply varints_width|done].
    destruct (Z.eqb_spec rows 0) as [E0|E0]; cbn [negb map concat] in *.
    + rewrite app_nil_r in *. rewrite (ReadVarint_at c run rd n V rows) by (done || lia).
      cbn [rbind]. rewrite (proj2 (Z.eqb_eq rows 0) E0). cbn [negb].
      assert (cells = []) as -> by (destruct cells; [done|cbn in rows; lia]).
      destruct (read_rows_at (advance rd (width (varint_fields rows))) n V
        (replicate (length ws) 0) []) as (t & E & Ht); [apply empty_encodable|done|done|].
      rewrite length_replicate, replicate_offsets in E. rewrite E0 in E |- *.
      change (Z.of_nat (length [])) with 0 in E.
      rewrite E. cbn [rbind fst snd]. rewrite advance_advance. by exists t.
    + rewrite width_app in Hc1, Hc2 |- *. apply fields_at_app in Hf1 as [Hf1 Hf3].
      pose proof (varint_fields_width rows).
      apply covers_app in Hc1 as [Hc0 Hc1]; [|done|apply varints_width].
      rewrite (ReadVarint_at c run rd n V rows) by (done || lia). cbn [rbind].
      rewrite (proj2 (Z.eqb_neq rows 0) E0). cbn [negb].
      inversion Hvs as [|? ? _ Hws]; subst.
      rewrite (read_varints_at _ n V) by (rewrite ?position_advance; done).
      cbn [rbind fst snd]. rewrite advance_advance.
      destruct (read_rows_at _ n V ws cells He Hc2) as (t & E & Ht).
      { by rewrite position_advance, width_app in *. }
      fold rows in E. rewrite E. cbn [rbind fst snd]. rewrite advance_advance. by exists t.
Qed.

(** An empty table of oat 170 to 172 cannot be decoded: its header has one element,
    the row count, and the table classes go on to read the widths behind it. *)
Theorem Decode_table_empty_170 (v : Z) (k : table_kind) (rd rd' : BitMemoryReader)
    (Hv : 170 <= v < 173) (Hr : ReadVarint c rd = Ok (rd', 0)) :
  Decode_table v k c rd = Fault.
Proof.
  unfold Decode_table, DecodeOnly.
  rewrite (proj2 (Z.leb_gt 173 v)), (proj2 (Z.leb_le 159 v)), Hr by lia. cbn [rbind negb].
  change (negb (0 =? 0)) with false. cbn match. unfold read_rows.
  rewrite lookup_replicate_2 by lia. cbn [of_option rbind fst snd].
  unfold num_fields. rewrite (proj2 (Z.leb_le 170 v)) by lia.
  destruct k; cbn [NumColumns]; rewrite ?(proj2 (Z.leb_le 170 v)),
    ?(proj2 (Z.leb_gt 225 v)) by lia; done.
Qed.

(** * Decoding a [CodeInfo] *)

(** The tables of a method: widths and rows of those that are present. *)
Definition method_tables := table_kind -> option (list Z * list (list Z)).

Definition info_fields (v : Z) (ts : method_tables) (ks : list table_kind) : list (Z * Z) :=
  concat (map (fun k => match ts k with
                        | Some (ws, cells) => table_fields v ws cells
                        | None => []
                        end) ks).

(** The flags announce the present tables, none of them shared. *)
Definition announces (v flags : Z) (ts : method_tables) : Prop := forall k,
  Z.testbit flags (kNumBitTables + Z.of_nat (kind_index k)) = false /\
  match ts k with
  | Some (ws, cells) =>
      Z.testbit flags (Z.of_nat (kind_index k)) = true /\ length ws = NumColumns v k /\
      encodable ws cells /\ Forall (fun w => w < 2 ^ 32) ws
  | None => Z.testbit flags (Z.of_nat (kind_index k)) = false
  end.

Definition holds_table (n V : Z) (i : CodeInfo) (k : table_kind)
    (t : option (list Z * list (list Z))) : Prop :=
  match t with
  | Some (ws, cells) => TableAt n V ws cells (table_of i k)
  | None => table_of i k = no_table
  end.

Lemma NumColumns_bound v k : (NumColumns v k <= 8)%nat.
Proof. destruct k; cbn; try lia; [destruct (170 <=? v)|destruct (225 <=? v)]; lia. Qed.

Lemma header_fields_total header i k :
  (i + k <= length header)%nat -> exists l, header_fields k i header = Ok l.
Proof.
  revert i. induction k as [|k IH]; intros i Hk; [by eexists|].
  destruct (lookup_lt_is_Some_2 header i) as [x Hx]; [lia|].
  cbn [header_fields]. rewrite Hx. cbn [of_option rbind].
  destruct (IH (S i)) as [l ->]; [lia|]. by eexists.
Qed.

Lemma kind_index_inj k k' : kind_index k = kind_index k' -> k = k'.
Proof. by destruct k, k'. Qed.

Lemma kind_index_lt k : (kind_index k < 8)%nat.
Proof. destruct k; cbn; lia. Qed.

Lemma Decode_table_at `{!MachineOk c} v k rd n V ws cells :
  173 <= v -> length ws = NumColumns v k -> encodable ws cells ->
  Forall (fun w => w < 2 ^ 32) ws ->
  covers c run rd n V (width (table_fields v ws cells)) ->
  fields_at V (position rd) (table_fields v ws cells) ->
  exists t fs, Decode_table v k c rd
      = Ok (advance rd (width (table_fields v ws cells)), (t, fs)) /\
    TableAt n V ws cells t.
Proof.
  intros Hv Hl He Hw Hc Hf. pose proof (NumColumns_bound v k).
  destruct (DecodeOnly_at v rd n V ws cells) as (t & E & Ht); [lia|done|done|lia|done|done|].
  unfold Decode_table, table_widths, table_header in *. rewrite <- Hl, E.
  rewrite !(proj2 (Z.leb_le 173 v)) in * by done. cbn [orb] in Ht. cbn [rbind].
  destruct (header_fields_total (Z.of_nat (length cells) :: ws) 1 (num_fields v k)) as [fs ->].
  { unfold num_fields. cbn [length]. destruct (170 <=? v); lia. }
  by exists t, fs.
Qed.

Lemma table_of_with_tables i rd k k' t :
  length (tables i) = 8%nat ->
  table_of (with_tables rd (<[kind_index k := t]> (tables i)) i) k'
    = if bool_decide (kind_index k = kind_index k') then fst t else table_of i k'.
Proof.
  intros Hl. unfold table_of, with_tables. cbn [tables]. case_bool_decide as Hk.
  - rewrite Hk, list_lookup_insert_eq; [done|]. rewrite Hl. apply kind_index_lt.
  - by rewrite list_lookup_insert_ne.
Qed.

Lemma table_fields_width v ws cells : encodable ws cells -> 0 <= width (table_fields v ws cells).
Proof.
  intros [Hw _ _ _ Hs]. pose proof (total_nonneg ws Hw).
  unfold table_fields, header_fields_at. rewrite width_app, width_rows by done.
  destruct (173 <=? v); [pose proof (interleaved_nonneg (Z.of_nat (length cells) :: ws))|
    pose proof (varints_width (table_header v (Z.of_nat (length cells)) ws))]; lia.
Qed.

Lemma info_width v flags ts ks : announces v flags ts -> 0 <= width (info_fields v ts ks).
Proof.
  intros Ha. induction ks as [|k ks IH]; [done|].
  unfold info_fields in *. cbn [map concat]. rewrite width_app.
  destruct (Ha k) as [_ Hp]. destruct (ts k) as [[ws cells]|]; [|done].
  destruct Hp as (_ & _ & He & _). pose proof (table_fields_width v ws cells He). lia.
Qed.

Lemma decode_tables_at `{!MachineOk c} left v n V ts ks i :
  173 <= v -> NoDup ks -> length (tables i) = 8%nat ->
  announces v (bit_table_flags_ i) ts ->
  (forall k, k ∈ ks -> table_of i k = no_table) ->
  covers c run (ci_reader i) n V (width (info_fields v ts ks)) ->
  fields_at V (position (ci_reader i)) (info_fields v ts ks) ->
  exists rd l, decode_tables left v c ks i = Ok (with_tables rd l i) /\ length l = 8%nat /\
    forall k, (k ∈ ks -> holds_table n V (with_tables rd l i) k (ts k)) /\
              (k ∉ ks -> table_of (with_tables rd l i) k = table_of i k).
Proof.
  intros Hv Hnd. revert i. induction Hnd as [|k ks Hk _ IH]; intros i Hl Ha Hno Hc Hf.
  { exists (ci_reader i), (tables i). cbn [decode_tables]. split_and!; [by destruct i|done|].
    intros k. split; [by intros ?%elem_of_nil|done]. }
  cbn [decode_tables]. unfold info_fields in Hc, Hf. cbn [map concat] in Hc, Hf.
  rewrite width_app in Hc. apply fields_at_app in Hf as [Hf1 Hf2].
  destruct (Ha k) as [Hd Hp].
  unfold DECODE_BIT_TABLE, HasBitTable, IsBitTableDeduped.
  rewrite (proj2 (Z.leb_le 172 v)), Hd by lia.
  destruct (ts k) as [[ws cells]|] eqn:Ek.
  - destruct Hp as (Hp & Hlen & He & Hw). rewrite Hp.
    assert (Hw0 : 0 <= width (table_fields v ws cells)) by by apply table_fields_width.
    apply covers_app in Hc as [Hc1 Hc2]; [|done|by eapply info_width].
    destruct (Decode_table_at v k (ci_reader i) n V ws cells) as (t & fs & E & Ht);
      [done..|]. rewrite E. cbn [rbind fst snd].
    set (i1 := with_tables _ _ _).
    assert (Ht1 : forall k', table_of i1 k' =
      if bool_decide (kind_index k = kind_index k') then t else table_of i k')
      by (intros; apply (table_of_with_tables i _ k k' (t, fs)); done).
    destruct (IH i1) as (rd & l & E1 & Hl1 & HT).
    + unfold i1. cbn. by rewrite length_insert.
    + done.
    + intros k' Hk'. rewrite Ht1. case_bool_decide as Heq; [|apply Hno; by right].
      apply kind_index_inj in Heq as ->. done.
    + done.
    + by change (ci_reader i1) with (advance (ci_reader i) (width (table_fields v ws cells)));
        rewrite position_advance.
    + exists rd, l. split_and!; [exact E1|done|]. intros k'. destruct (HT k') as [H1 H2].
      change (with_tables rd l i1) with (with_tables rd l i) in *.
      split; intros Hin.
      * apply elem_of_cons in Hin as [->|Hin]; [|by apply H1].
        rewrite Ek. unfold holds_table. rewrite H2, Ht1 by done. by rewrite bool_decide_true.
      * apply not_elem_of_cons in Hin as [Hne Hin]. rewrite H2, Ht1 by done.
        rewrite bool_decide_false; [done|]. intros Heq%kind_index_inj. congruence.
  - rewrite Hp. cbn [rbind].
    destruct (IH i) as (rd & l & E1 & Hl1 & HT); [done|done| |exact Hc| |].
    + intros k' Hk'. apply Hno. by right.
    + by rewrite Z.add_0_r in Hf2.
    + exists rd, l. split_and!; [exact E1|done|]. intros k'. destruct (HT k') as [H1 H2].
      split; intros Hin.
      * apply elem_of_cons in Hin as [->|Hin]; [|by apply H1].
        rewrite Ek. cbn. rewrite H2 by done. apply Hno. left.
      * apply not_elem_of_cons in Hin as [Hne Hin]. by apply H2.
Qed.

(** The header of a method; [mh_code_size] is stored from oat 191 on. *)
Record method_header := {
  mh_flags : Z; mh_code_size : Z; mh_frame : Z; mh_core : Z; mh_fp : Z; mh_regs : Z;
  mh_tables : Z }.
Definition header_list (v : Z) (h : method_header) : list Z :=
  [mh_flags h] ++ (if 191 <=? v then [mh_code_size h] else []) ++
  [mh_frame h; mh_core h; mh_fp h; mh_regs h; mh_tables h].

(** What [Decode] stores of the header. *)
Definition has_header (v : Z) (h : method_header) (i : CodeInfo) : Prop :=
  flags_ i = mh_flags h /\ code_size_ i = (if 191 <=? v then mh_code_size h else 0) /\
  packed_frame_size_ i = mh_frame h /\ core_spill_mask_ i = mh_core h /\
  fp_spill_mask_ i = mh_fp h /\ number_of_dex_registers_ i = mh_regs h /\
  bit_table_flags_ i = mh_tables h /\
  frame_size_in_bytes_ i = u32 (mh_frame h * kStackAlignment).

Lemma DecodeHeaderOnly_at `{!MachineOk c} v data n V h :
  173 <= v -> Forall (fun x => 0 <= x < 2 ^ 32) (header_list v h) ->
  covers c run (reader_at data 0) n V (width (interleaved (header_list v h))) ->
  fields_at V (position (reader_at data 0)) (interleaved (header_list v h)) ->
  exists i, DecodeHeaderOnly v c data = Ok i /\ has_header v h i /\
    ci_reader i = advance (reader_at data 0) (width (interleaved (header_list v h))) /\
    tables i = replicate 8 (no_table, []).
Proof.
  intros Hv Hh Hc Hf. unfold DecodeHeaderOnly, new_CodeInfo, has_header.
  cbn [ci_reader]. rewrite (proj2 (Z.leb_le 173 v)), (proj2 (Z.leb_le 150 v)) by lia.
  assert (Hn : kNumHeaders v = length (header_list v h)).
  { unfold kNumHeaders, header_list. rewrite (proj2 (Z.leb_le 172 v)) by lia.
    by destruct (191 <=? v). }
  rewrite Hn, (ReadInterleavedVarints_at c run _ n V); try done.
  - cbn [rbind fst snd]. unfold header_list.
    destruct (191 <=? v); cbn [app header_of]; eexists; split; done.
  - unfold header_list. destruct (191 <=? v); cbn; lia.
Qed.

Lemma Decode_at `{!MachineOk c} (left : bool) (v data n V : Z)
    (h : method_header) (ts : method_tables) (Hv : 173 <= v)
    (Hh : Forall (fun x => 0 <= x < 2 ^ 32) (header_list v h))
    (Ha : announces v (mh_tables h) ts)
    (Hc : covers c run (reader_at data 0) n V
            (width (interleaved (header_list v h)) + width (info_fields v ts all_kinds)))
    (Hf : fields_at V (position (reader_at data 0))
            (interleaved (header_list v h) ++ info_fields v ts all_kinds)) :
  exists i, Decode left v c data = Ok i /\ has_header v h i /\
    forall k, holds_table n V i k (ts k).
Proof.
  apply fields_at_app in Hf as [Hf1 Hf2].
  apply covers_app in Hc as [Hc1 Hc2]; [|apply interleaved_nonneg|by eapply info_width].
  destruct (DecodeHeaderOnly_at v data n V h) as (i & E & Hi & Hr & Ht); [done..|].
  unfold Decode. rewrite (proj2 (Z.leb_le 144 v)), E, (proj2 (Z.leb_le 159 v)) by lia.
  cbn [rbind].
  destruct (decode_tables_at left v n V ts all_kinds i) as (rd & l & E1 & _ & HT); try done.
  - repeat (apply NoDup_cons_2; [set_solver|]). apply NoDup_nil_2.
  - by rewrite Ht.
  - by destruct Hi as (_ & _ & _ & _ & _ & _ & -> & _).
  - intros k _. unfold table_of. rewrite Ht. by destruct k.
  - by rewrite Hr.
  - by rewrite Hr, position_advance.
  - exists (with_tables rd l i). split_and!; [done|exact Hi|].
    intros k. destruct (HT k) as [H _]. apply H. destruct k; set_solver.
Qed.

(** C8: [CodeInfo::Decode] of an encoded method (oat 173 and later, no shared table) reads
    back its header and, for every one of the eight kinds, the rows of its table, whatever
    the widths of the columns. *)
Theorem Decode_roundtrip `{!MachineOk c} (left : bool) (v data n V : Z)
    (h : method_header) (ts : method_tables) (Hv : 173 <= v)
    (Hh : Forall (fun x => 0 <= x < 2 ^ 32) (header_list v h))
    (Ha : announces v (mh_tables h) ts)
    (Hc : covers c run (reader_at data 0) n V
            (width (interleaved (header_list v h)) + width (info_fields v ts all_kinds)))
    (Hf : fields_at V (position (reader_at data 0))
            (interleaved (header_list v h) ++ info_fields v ts all_kinds)) :
  exists i, Decode left v c data = Ok i /\ has_header v h i /\
    forall k, holds_table n V i k (ts k).
Proof. by apply Decode_at. Qed.

(** * Searching by native pc *)

(** [m] is the [k]-th of [maps], the first one behind [pc], or the last one. *)
Definition picked (pc : Z) (maps : list (Z * Z)) (k : nat) (m : Z * Z) : Prop :=
  maps !! k = Some m /\ Forall (fun m' => fst m' <= pc) (take k maps) /\
  (pc < fst m \/ S k = length maps).

Lemma scan_rows_at v i col old pc maps row found :
  (forall j m, maps !! j = Some m -> stack_map_row v c i col old (row + Z.of_nat j) = Ok m) ->
  exists r, scan_rows (length maps) v c i col old pc row found = Ok r /\
    match maps with
    | [] => r = found
    | _ => exists k m, picked pc maps k m /\ r = (row + Z.of_nat k, snd m)
    end.
Proof.
  revert row found. induction maps as [|m maps IH]; intros row found Hm; [by eexists|].
  cbn [length scan_rows]. pose proof (Hm 0%nat m eq_refl) as H0. rewrite Z.add_0_r in H0.
  rewrite H0. cbn [rbind]. destruct (Z.ltb_spec pc (fst m)) as [Hlt|Hge].
  { eexists. split; [done|]. exists 0%nat, m. rewrite Z.add_0_r.
    split; [|done]. split_and!; [done|constructor|by left]. }
  destruct (IH (row + 1) (row, snd m)) as (r & E & Hr).
  { intros j m' Hj. rewrite <- (Hm (S j) m') by done. f_equal. lia. }
  exists r. split; [done|]. destruct maps as [|m1 maps].
  - exists 0%nat, m. rewrite Hr, Z.add_0_r. split; [|done].
    split_and!; [done|constructor|by right].
  - destruct Hr as (k & m' & (Hk & Hall & Hend) & ->). exists (S k), m'. split.
    + split_and!; [done|by constructor|]. destruct Hend as [?|Hend]; [by left|right].
      cbn in *. lia.
    + f_equal. lia.
Qed.

Lemma get_cell_at `{!MachineOk c} v n V i k ws cells r row j :
  TableAt n V ws cells (table_of i k) -> length ws = NumColumns v k ->
  Forall (fun w => w <= bits) ws -> cells !! r = Some row -> (j < length ws)%nat ->
  get_cell v c i k (Z.of_nat r) (Z.of_nat j) = Ok (cell_value (nth j row 0)).
Proof.
  intros Ht Hl Hw Hr Hj. pose proof Ht as [_ _ [_ _ _ _ Hs] _ _ _ _].
  destruct (lookup_lt_is_Some_2 ws j Hj) as [w Ew].
  pose proof (Forall_lookup_1 _ _ _ _ Hs Hr) as Hrow. cbn in Hrow.
  destruct (lookup_lt_is_Some_2 row j) as [x Ex]; [lia|].
  unfold get_cell. rewrite (Get_at n V ws cells _ Ht _ r j row w x); try done.
  - by rewrite (nth_lookup_Some _ _ _ _ Ex).
  - by apply (Forall_lookup_1 _ _ _ _ Hw Ew).
Qed.

(** The stack maps of a table: native pc and a column. *)
Definition stack_maps (col : nat) (cells : list (list Z)) : list (Z * Z) :=
  map (fun row => (UnpackNativePc (cell_value (nth 1 row 0)), cell_value (nth col row 0))) cells.

Lemma stack_map_columns v (ws : list Z) : length ws = NumColumns v StackMap -> (6 <= length ws)%nat.
Proof. intros ->. cbn. destruct (170 <=? v); lia. Qed.

Lemma stack_map_row_at `{!MachineOk c} v n V i ws cells col old j m :
  144 <= v -> TableAt n V ws cells (table_of i StackMap) ->
  length ws = NumColumns v StackMap -> Forall (fun w => w <= bits) ws ->
  (col < length ws)%nat -> stack_maps col cells !! j = Some m ->
  stack_map_row v c i (Z.of_nat col) old (Z.of_nat j) = Ok m.
Proof.
  intros Hv Ht Hl Hw Hcol Hj. unfold stack_maps in Hj.
  pose proof (stack_map_columns v ws Hl).
  rewrite list_lookup_fmap in Hj. destruct (cells !! j) as [row|] eqn:Er; [|done].
  injection Hj as <-. unfold stack_map_row. rewrite (proj2 (Z.leb_le 144 v)) by done.
  change kColNumPackedNativePc with (Z.of_nat 1).
  rewrite (get_cell_at v n V i StackMap ws cells j row 1) by (done || lia).
  cbn [rbind]. by rewrite (get_cell_at v n V i StackMap ws cells j row col).
Qed.

(** [NativePc2DexPc] returns the dex pc of the first stack map whose native pc lies
    behind the given one, of the last stack map when there is none, and 0 for a method
    without stack maps. *)
Theorem NativePc2DexPc_spec `{!MachineOk c} (v n V : Z) (i : CodeInfo) (ws : list Z)
    (cells : list (list Z)) (pc : Z) (Hv : 144 <= v)
    (Ht : TableAt n V ws cells (table_of i StackMap))
    (Hl : length ws = NumColumns v StackMap) (Hw : Forall (fun w => w <= bits) ws) :
  exists dex, NativePc2DexPc v c i pc = Ok dex /\
    (cells = [] -> dex = 0) /\
    (cells <> [] -> exists k m, picked pc (stack_maps 2 cells) k m /\ dex = snd m).
Proof.
  unfold NativePc2DexPc, stack_map_rows. rewrite (proj2 (Z.leb_le 144 v)) by done.
  pose proof Ht as [_ _ _ Hr _ _ _]. rewrite Hr, Nat2Z.id.
  destruct (scan_rows_at v i kColNumDexPc GetDexPcEncoding pc (stack_maps 2 cells) 0
              (kNoValue, 0)) as (r & E & Hres).
  { intros j m Hj. rewrite Z.add_0_l. pose proof (stack_map_columns v ws Hl).
    apply (stack_map_row_at v n V i ws cells 2); done || lia. }
  unfold stack_maps in E at 1. rewrite length_map in E. rewrite E. cbn [rbind].
  eexists. split; [done|]. destruct cells as [|row cells]; cbn [stack_maps map] in Hres.
  - by rewrite Hres.
  - split; [done|]. intros _. destruct Hres as (k & m & Hp & ->). by exists k, m.
Qed.
End Tables.

(** * A concrete method *)

(** The number whose low bits are the given fields. *)
Definition pack (fs : list (Z * Z)) : Z :=
  foldr (fun f acc => snd f + acc * 2 ^ fst f) 0 fs.

(** Two stack maps: native pcs 16 and 32 (packed by four), dex pcs 7 and 11; registers 0 and
    2 live in the first, registers 1 and 2 in the second. *)
Definition demo_stack : list (list Z) :=
  [[0; 5; 8; 0; 0; 0; 1; 1]; [0; 9; 12; 0; 0; 0; 2; 3]].
Definition demo_tables : method_tables := fun k =>
  match k with
  | StackMap => Some ([0; 4; 4; 0; 0; 0; 2; 3], demo_stack)
  | DexRegisterMask => Some ([4], [[5]; [6]])
  | DexRegisterMap => Some ([2], [[1]; [2]; [2]; [0]])
  | DexRegisterInfo => Some ([3; 6], [[2; 17]; [1; 33]])
  | _ => None
  end.
Definition demo_header : method_header :=
  {| mh_flags := 1; mh_code_size := 300; mh_frame := 5; mh_core := 0x40000000; mh_fp := 0;
     mh_regs := 3; mh_tables := 0xe1 |}.
Definition demo_method : list Z :=
  le_bytes 64 (pack (interleaved (header_list 191 demo_header) ++
                     info_fields 191 demo_tables all_kinds)).
Definition demo_core : CoreApi := one_core 0x1000 demo_method.

Lemma demo_method_number :
  number_at demo_core (target_run demo_core) (ref_at 0x1000) 64 (le_value demo_method).
Proof. exact (demo_number demo_method ltac:(cbn; lia) eq_refl eq_refl). Qed.

Lemma demo_announces : announces 191 (mh_tables demo_header) demo_tables.
Proof.
  intros k. split; [by destruct k|].
  destruct k; cbn -[Z.pow]; try done;
    (split_and!; [done|done|split; try done; repeat constructor; lia|repeat constructor; lia]).
Qed.

(** What the decoder makes of it. *)
Definition demo_info : CodeInfo :=
  match @Decode arm64_Core true 191 demo_core 0x1000 with
  | Ok i => i
  | _ => new_CodeInfo 191 0x1000
  end.

Lemma demo_at : exists i, @Decode arm64_Core true 191 demo_core 0x1000 = Ok i /\
  has_header 191 demo_header i /\
  forall k, holds_table demo_core (target_run demo_core) 64 (le_value demo_method) i k
    (demo_tables k).
Proof.
  apply (@Decode_at arm64_Core demo_core (target_run demo_core)
    (one_presents 0x1000 demo_method ltac:(cbn; lia) ltac:(cbn; lia)) (demo_machine demo_method)
    true 191 0x1000 64 (le_value demo_method) demo_header demo_tables).
  - lia.
  - repeat (constructor; [cbn; lia|]). constructor.
  - exact demo_announces.
  - split_and!; [exact demo_method_number|by vm_compute..].
  - by vm_compute.
Qed.

Lemma demo_info_tables k :
  holds_table demo_core (target_run demo_core) 64 (le_value demo_method) demo_info k
    (demo_tables k).
Proof. unfold demo_info. destruct demo_at as (i & -> & _ & H). apply H. Qed.

Lemma Decode_roundtrip_witness :
  exists i, @Decode arm64_Core true 191 demo_core 0x1000 = Ok i /\
    has_header 191 demo_header i /\ num_rows_ (table_of i StackMap) = 2.
Proof.
  destruct (@Decode_roundtrip arm64_Core demo_core (target_run demo_core)
    (one_presents 0x1000 demo_method ltac:(cbn; lia) ltac:(cbn; lia)) (demo_machine demo_method)
    true 191 0x1000 64 (le_value demo_method) demo_header demo_tables)
    as (i & E & Hi & HT).
  - lia.
  - repeat (constructor; [cbn; lia|]). constructor.
  - exact demo_announces.
  - split_and!; [exact demo_method_number|by vm_compute..].
  - by vm_compute.
  - exists i. split_and!; [exact E|exact Hi|]. exact (ta_rows _ _ _ _ _ _ _ (HT StackMap)).
Defined.

(** Pc 20 lies between the two stack maps. *)
Lemma NativePc2DexPc_spec_witness :
  @NativePc2DexPc arm64_Core 191 demo_core demo_info 20 = Ok 11 /\
  exists dex, @NativePc2DexPc arm64_Core 191 demo_core demo_info 20 = Ok dex /\
    exists k m, picked 20 (@stack_maps arm64_Core 2 demo_stack) k m /\ dex = snd m.
Proof.
  split; [by vm_compute|].
  destruct (@NativePc2DexPc_spec arm64_Core demo_core (target_run demo_core)
    (one_presents 0x1000 demo_method ltac:(cbn; lia) ltac:(cbn; lia)) (demo_machine demo_method)
    191 64 (le_value demo_method) demo_info [0; 4; 4; 0; 0; 0; 2; 3] demo_stack 20 ltac:(lia)
    (demo_info_tables StackMap) eq_refl) as (dex & E & _ & H).
  - repeat constructor; cbn; lia.
  - exists dex. split; [exact E|]. apply H. done.
Defined.

(** An empty table of oat 171: a varint 0. *)
Lemma Decode_table_empty_170_witness :
  let c := one_core 0x1000 (replicate 32 0) in
  @Decode_table arm64_Core 171 InlineInfo c (reader_at 0x1000 0) = Fault.
Proof.
  intros c. eapply (@Decode_table_empty_170 arm64_Core c); [lia|]. by vm_compute.
Defined.
