(* ===== verification/OatVRegs.v ===== *)
(** [CodeInfo::NativePc2VRegs]: the places of the dex registers at a native pc.

    The code walks the stack maps backwards from the one of the pc, reads each map's
    register mask in words of 32 bits and clears the bits one by one.  The file shows that
    this is one visit of the bits of the mask in order, and that the whole walk gives every
    dex register the location of the nearest stack map that has one. *)

From Stdlib Require Import ZArith Lia Bool.
From stdpp Require Import base list gmap numbers.
From S2P Require Import Prelude Words Host Blocks Notes CoreApi Segments AddressSpace MemRef Elf.
From S2P Require Import Bits BitsProofs OatCode OatProofs.
Open Scope Z_scope.

(** * The loops over a mask as one visit of its bits *)

Section Visit.
Context {M : Machine} (v : Z) (c : CoreApi) (i : CodeInfo).

(** [m] bits of [mask] from register [reg] on. *)
Fixpoint visit (m : nat) (mask reg idx : Z) (s : VRegs) : result (Z * VRegs) :=
  match m with
  | O => Ok (idx, s)
  | S m =>
      if Z.testbit mask reg then
        let! s := add_vreg v c i reg idx s in
        visit m mask (reg + 1) (u32 (idx + 1)) s
      else visit m mask (reg + 1) idx s
  end.

Lemma visit_app a b mask reg idx s :
  visit (a + b) mask reg idx s =
    let! r := visit a mask reg idx s in visit b mask (reg + Z.of_nat a) (fst r) (snd r).
Proof.
  revert reg idx s. induction a as [|a IH]; intros reg idx s.
  - cbn [visit rbind fst snd Nat.add]. f_equal. lia.
  - cbn [visit Nat.add]. replace (reg + Z.of_nat (S a)) with (reg + 1 + Z.of_nat a) by lia.
    destruct (Z.testbit mask reg).
    + rewrite rbind_assoc. destruct (add_vreg _ _ _ _ _ _); cbn [rbind]; [apply IH|done..].
    + apply IH.
Qed.

(** [__builtin_ctz] finds the lowest set bit. *)
Lemma ctz_from_at n bits_ j k :
  j <= k <= j + Z.of_nat n -> Z.testbit bits_ k = true ->
  (forall i, j <= i < k -> Z.testbit bits_ i = false) -> ctz_from n bits_ j = k.
Proof.
  revert j. induction n as [|n IH]; intros j Hk Hb Hz; cbn [ctz_from]; [lia|].
  destruct (decide (j = k)) as [->|Hne]; [by rewrite Hb|].
  rewrite Hz by lia. apply IH; [lia|done|]. intros x Hx. apply Hz. lia.
Qed.

Lemma builtin_ctz_at bits_ k :
  0 <= k < 32 -> Z.testbit bits_ k = true ->
  (forall i, 0 <= i < k -> Z.testbit bits_ i = false) -> builtin_ctz bits_ = k.
Proof. intros. apply ctz_from_at; [lia|done|done]. Qed.

(** Only bits of [k, 32) are set. *)
Definition bits_from (k b : Z) : Prop := forall j, (j < k \/ 32 <= j) -> Z.testbit b j = false.

Lemma bits_from_next k b : bits_from k b -> Z.testbit b k = false -> bits_from (k + 1) b.
Proof.
  intros Hb Hk j Hj. destruct (decide (j = k)) as [->|]; [done|]. apply Hb. lia.
Qed.

Lemma clear_testbit b k j :
  0 <= k < 32 -> Z.testbit b k = true -> 0 <= j ->
  Z.testbit (Z.lxor b (shl 32 1 k)) j = if j =? k then false else Z.testbit b j.
Proof.
  intros Hk Hb Hj. rewrite Z.lxor_spec. unfold shl.
  rewrite wrap_testbit, Z.shiftl_spec by lia.
  destruct (Z.eqb_spec j k) as [->|Hne].
  - destruct (Z.ltb_spec k 32); [|lia]. by rewrite Hb, Z.sub_diag.
  - assert (H1 : Z.testbit 1 (j - k) = false).
    { destruct (Z.ltb_spec j k); [by rewrite Z.testbit_neg_r by lia|].
      rewrite Z.bits_above_log2; [done|lia|cbn; lia]. }
    rewrite H1, andb_false_r. apply xorb_false_r.
Qed.

(** Clearing the set bits one by one is the visit of 32 bits. *)
Lemma mask_bits_visit m n k b b' reg idx s :
  Z.of_nat m = 32 - k -> 0 <= k -> (m <= n)%nat -> bits_from k b ->
  0 <= reg -> reg + 32 < 2 ^ 32 ->
  (forall j, k <= j < 32 -> Z.testbit b' (reg + j) = Z.testbit b j) ->
  mask_bits n v c i reg b idx s = visit m b' (reg + k) idx s.
Proof.
  revert n k b idx s. induction m as [|m IH]; intros n k b idx s Hm Hk Hn Hb Hr0 Hr Heq.
  - assert (b = 0) as ->.
    { apply Z.bits_inj'. intros j Hj. rewrite Z.bits_0. apply Hb. lia. }
    by destruct n.
  - cbn [visit]. rewrite Heq by lia. destruct (Z.testbit b k) eqn:Ek.
    + destruct n as [|n]; [lia|]. cbn [mask_bits].
      destruct (Z.eqb_spec b 0) as [->|_]; [by rewrite Z.bits_0 in Ek|].
      rewrite (builtin_ctz_at b k) by (try done; try lia; intros; apply Hb; lia).
      rewrite (wrap_small 32 (reg + k)) by lia.
      destruct (add_vreg v c i (reg + k) idx s) as [s'| | |]; cbn [rbind]; [|done..].
      rewrite <- Z.add_assoc. apply IH; try lia.
      * intros j Hj. destruct (Z.ltb_spec j 0); [by apply Z.testbit_neg_r|].
        rewrite clear_testbit by (done || lia).
        destruct (Z.eqb_spec j k); [done|]. apply Hb. lia.
      * intros j Hj. rewrite clear_testbit by (done || lia).
        rewrite (proj2 (Z.eqb_neq j k)) by lia. apply Heq. lia.
    + rewrite <- Z.add_assoc. apply IH; try lia.
      * by apply bits_from_next.
      * intros j Hj. apply Heq. lia.
Qed.

Lemma visit_zero m mask reg idx s :
  (forall j, reg <= j < reg + Z.of_nat m -> Z.testbit mask j = false) ->
  visit m mask reg idx s = Ok (idx, s).
Proof.
  revert reg. induction m as [|m IH]; intros reg Hz; cbn [visit]; [done|].
  rewrite Hz by lia. apply IH. intros j Hj. apply Hz. lia.
Qed.

Context (run : Z -> Z -> option (list Z)) `{!Presents c run} `{!MachineOk c}.

Lemma mask_word_at V bs end_ reg :
  0 <= bs -> 0 <= reg < end_ ->
  forall j, 0 <= j < 32 ->
    Z.testbit (field_at V bs end_) (reg + j) =
    Z.testbit (field_at V (bs + reg) (Z.min (end_ - reg) 32)) j.
Proof.
  intros Hb Hr j Hj. rewrite !field_at_testbit by lia.
  replace (j + (bs + reg)) with (reg + j + bs) by lia. bool_cases; done || lia.
Qed.

(** The words of a mask: one visit of its [end_] bits. *)
Lemma mask_words_visit n nn V (mask : BitMemoryRegion) reg end_ idx s :
  number_at c run (data_ mask) nn V -> 0 <= bit_start_ mask ->
  bit_start_ mask + end_ + 64 <= 8 * nn -> 0 <= reg <= end_ + 32 -> 0 <= end_ < 2 ^ 16 ->
  end_ - reg < 32 * Z.of_nat n ->
  mask_words n v c i mask reg end_ idx s =
    let! r := visit (Z.to_nat (end_ - reg)) (field_at V (bit_start_ mask) end_) reg idx s in
    Ok (snd r).
Proof.
  revert mask reg idx s. induction n as [|n IH]; intros mask reg idx s Hn Hs Hle Hr He Hfuel.
  { replace (Z.to_nat (end_ - reg)) with 0%nat by lia. cbn [visit rbind snd mask_words].
    by rewrite (proj2 (Z.ltb_ge reg end_)) by lia. }
  cbn [mask_words]. destruct (Z.ltb_spec reg end_) as [Hlt|Hge]; cycle 1.
  { replace (Z.to_nat (end_ - reg)) with 0%nat by lia. done. }
  set (len := Z.min (end_ - reg) 32). set (x := field_at V (bit_start_ mask) end_).
  assert (Hlen : 0 <= len <= 32) by (unfold len; lia).
  assert (Hbits : 32 <= bits) by (destruct (machine_cases c) as [[-> _]|[-> _]]; lia).
  destruct (LoadBits_at c run mask nn V reg len) as (mask' & E & Hn' & Hs' & _);
    [done|done|lia|lia|unfold len; lia|]. rewrite E. cbn [rbind fst snd].
  pose proof (field_at_range V (bit_start_ mask + reg) len ltac:(lia)) as Hf.
  assert (2 ^ len <= 2 ^ 32) by (apply Z.pow_le_mono_r; lia).
  rewrite (wrap_small 32 (field_at _ _ _)) by lia.
  rewrite (mask_bits_visit 32 32 0 _ x); [|lia|lia|lia| |lia|lia|]; cycle 1.
  { intros j Hj. destruct (Z.ltb_spec j 0); [by apply Z.testbit_neg_r|].
    rewrite field_at_testbit by lia. bool_cases; done || lia. }
  { intros j Hj. apply mask_word_at; lia. }
  rewrite Z.add_0_r, (wrap_small 32 (reg + 32)) by lia.
  assert (Hvis : visit 32 x reg idx s = visit (Z.to_nat len) x reg idx s).
  { replace 32%nat with (Z.to_nat len + (32 - Z.to_nat len))%nat by lia.
    rewrite visit_app, Z2Nat.id by lia.
    destruct (visit _ x reg idx s) as [[idx1 s1]| | |]; cbn [rbind fst snd]; [|done..].
    apply visit_zero. intros j Hj. unfold x. rewrite field_at_testbit by lia.
    rewrite (proj2 (Z.ltb_ge j end_)) by lia. done. }
  rewrite Hvis.
  replace (Z.to_nat (end_ - reg)) with (Z.to_nat len + Z.to_nat (end_ - (reg + 32)))%nat by lia.
  rewrite visit_app, rbind_assoc, Z2Nat.id by lia.
  destruct (visit (Z.to_nat len) x reg idx s) as [[idx1 s1]| | |]; cbn [rbind fst snd]; [|done..].
  rewrite IH by (rewrite ?Hs'; done || lia). rewrite Hs'. fold x.
  destruct (decide (len = 32)) as [->|Hne]; [done|].
  by replace (Z.to_nat (end_ - (reg + 32))) with 0%nat by lia.
Qed.
End Visit.

(** * Sets of registers *)

Lemma registers_size N : base.size (list_to_set (seqZ 0 N) : gset Z) = Z.to_nat N.
Proof. rewrite size_list_to_set by apply NoDup_seqZ. by rewrite length_seqZ. Qed.

Lemma registers_subset N (s : gset Z) :
  (forall r, r ∈ s -> 0 <= r < N) -> s ⊆ list_to_set (seqZ 0 N).
Proof. intros H r Hr. apply elem_of_list_to_set, elem_of_seqZ. specialize (H r Hr). lia. Qed.

Lemma registers_bound N (s : gset Z) :
  0 <= N -> (forall r, r ∈ s -> 0 <= r < N) -> Z.of_nat (base.size s) <= N.
Proof.
  intros HN H. pose proof (subseteq_size _ _ (registers_subset N s H)) as Hs.
  rewrite registers_size in Hs. lia.
Qed.

(** A set of [N] registers below [N] has them all. *)
Lemma registers_full N (s : gset Z) r :
  (forall r, r ∈ s -> 0 <= r < N) -> Z.of_nat (base.size s) = N -> 0 <= r < N -> r ∈ s.
Proof.
  intros H Hs Hr. rewrite (set_subseteq_size_eq s (list_to_set (seqZ 0 N))).
  - apply elem_of_list_to_set, elem_of_seqZ. lia.
  - by apply registers_subset.
  - rewrite registers_size. lia.
Qed.

(** * Locations *)

Definition first_of {A} (a b : option A) : option A :=
  match a with Some _ => a | None => b end.

(** The state of the walk: [f] gives the locations found so far. *)
Record walked (N : Z) (vm : gmap Z (Z * Z)) (f : Z -> option (Z * Z)) (s : VRegs) : Prop := {
  wk_map : forall r, vregs s !! r = first_of (f r) (vm !! r);
  wk_set : forall r, r ∈ bits_set s <-> is_Some (f r);
  wk_range : forall r, is_Some (f r) -> 0 <= r < N;
  wk_left : remaining_registers s = N - Z.of_nat (base.size (bits_set s));
}.

Lemma walked_ext N vm f g s : (forall r, f r = g r) -> walked N vm f s -> walked N vm g s.
Proof.
  intros H [H1 H2 H3 H4]. split; [intros r..|done]; rewrite <- H; auto.
Qed.

(** One more location for [reg], unless it has one. *)
Definition put (reg : Z) (o : option (Z * Z)) (s : VRegs) : VRegs :=
  match o with
  | None => s
  | Some x => if bool_decide (reg ∈ bits_set s) then s else
      {| vregs := <[reg := x]> (vregs s); bits_set := {[reg]} ∪ bits_set s;
         remaining_registers := u32 (remaining_registers s - 1) |}
  end.

Lemma walked_put N vm f s reg o :
  0 <= N < 2 ^ 32 -> 0 <= reg < N -> walked N vm f s ->
  walked N vm (fun r => first_of (f r) (if r =? reg then o else None)) (put reg o s).
Proof.
  intros HN Hreg [H1 H2 H3 H4]. unfold put. destruct o as [x|]; cycle 1.
  { apply (walked_ext _ _ f); [|done]. intros r. destruct (f r), (r =? reg); done. }
  case_bool_decide as Hin.
  { apply (walked_ext _ _ f); [|done]. intros r. apply H2 in Hin.
    destruct (Z.eqb_spec r reg) as [->|]; [by destruct Hin as [y ->]|by destruct (f r)]. }
  assert (Hf : f reg = None).
  { destruct (f reg) eqn:E; [|done]. exfalso. apply Hin, H2. by eexists. }
  assert (Hall : forall r, r ∈ {[reg]} ∪ bits_set s -> 0 <= r < N).
  { intros r Hr. apply elem_of_union in Hr as [Hr|Hr].
    - by apply elem_of_singleton in Hr as ->.
    - by apply H3, H2. }
  pose proof (registers_bound N _ ltac:(lia) Hall) as Hb.
  rewrite size_union, size_singleton in Hb by set_solver.
  split; cbn [vregs bits_set remaining_registers].
  - intros r. destruct (Z.eqb_spec r reg) as [->|Hne].
    + by rewrite lookup_insert_eq, Hf.
    + rewrite lookup_insert_ne, H1 by done. by destruct (f r).
  - intros r. rewrite elem_of_union, elem_of_singleton, H2.
    destruct (Z.eqb_spec r reg) as [->|Hne].
    + rewrite Hf. cbn. split; [by eexists|by left].
    + split; [intros [?|[y ->]]; [done|by eexists]|intros [y Hy]; right].
      destruct (f r); [by eexists|done].
  - intros r Hr. apply Hall. destruct (decide (r = reg)) as [E|Hne]; [rewrite E; set_solver|].
    rewrite (proj2 (Z.eqb_neq r reg)) in Hr by done.
    apply elem_of_union_r, H2. destruct (f r); [by eexists|by destruct Hr].
  - rewrite size_union, size_singleton, H4 by set_solver. rewrite wrap_small; lia.
Qed.

(** * The reference: locations as functions of the rows of the tables *)

(** The rows of the four tables of a method, and the width of its register masks. *)
Record method_rows := {
  stack_rows : list (list Z); mask_rows : list (list Z); map_rows : list (list Z);
  info_rows : list (list Z); mask_width : Z }.

Section Reference.
Context (N : Z) (R : method_rows).

Definition cell (row : list Z) (col : nat) : Z := cell_value (nth col row 0).

(** The location behind entry [idx] of the register maps. *)
Definition location_at (idx : Z) : option (Z * Z) :=
  let cat := cell (nth (Z.to_nat idx) (map_rows R) []) 0 in
  if cat =? kNoValue then None
  else let info := nth (Z.to_nat cat) (info_rows R) [] in Some (cell info 0, cell info 1).

(** The registers that stack map [row] mentions, as a mask. *)
Definition live_mask (row : list Z) : Z :=
  let m := cell row 6 in
  if (m =? kNoValue) || negb (m <? Z.of_nat (length (mask_rows R))) then 0
  else field_at (nth 0 (nth (Z.to_nat m) (mask_rows R) []) 0) 0 (Z.min N (mask_width R)).

(** The location of register [reg] in stack map [row]: the map entries of a stack map are
    in the order of its registers. *)
Definition row_location (row : list Z) (reg : Z) : option (Z * Z) :=
  if (0 <=? reg) && Z.testbit (live_mask row) reg
  then location_at (cell row 7 + ones_at (live_mask row) 0 reg) else None.

(** The nearest location of [reg] among the first [n] stack maps. *)
Fixpoint nearest_location (n : nat) (reg : Z) : option (Z * Z) :=
  match n with
  | O => None
  | S m => first_of (row_location (nth m (stack_rows R) []) reg) (nearest_location m reg)
  end.

(** The entries a stack map refers to exist. *)
Definition maps_in_range : Prop :=
  Forall (fun row => live_mask row <> 0 ->
    cell row 7 + ones_at (live_mask row) 0 N <= Z.of_nat (length (map_rows R))) (stack_rows R) /\
  Forall (fun row => cell row 0 = kNoValue \/ cell row 0 < Z.of_nat (length (info_rows R)))
    (map_rows R).

Lemma live_mask_bits row reg : 0 <= N -> 0 <= mask_width R ->
  Z.testbit (live_mask row) reg = true -> 0 <= reg < N.
Proof.
  intros HN Hw H. destruct (Z.ltb_spec reg 0); [by rewrite Z.testbit_neg_r in H|].
  unfold live_mask in H. destruct (_ || _); [by rewrite Z.bits_0 in H|].
  rewrite field_at_testbit in H by lia. apply andb_true_iff in H as [H _]. to_prop. lia.
Qed.
End Reference.

Lemma cell_range row col : 0 <= cell row col < 2 ^ 32.
Proof. apply wrap_range. lia. Qed.

Lemma ones_at_1 V pos : 0 <= pos -> ones_at V pos 1 = if Z.testbit V pos then 1 else 0.
Proof.
  intros. unfold ones_at. change (Z.to_nat 1) with 1%nat. cbn [popcount Z.of_nat].
  rewrite Z.div_pow2_bits by lia. rewrite Z.add_0_l. by destruct (Z.testbit V pos).
Qed.

Section Walk.
Context {M : Machine} (c : CoreApi) (run : Z -> Z -> option (list Z)) `{!Presents c run}.
Context `{!MachineOk c} (v n V : Z) (i : CodeInfo) (R : method_rows).
Context (ws_stack ws_map ws_info : list Z).

(** The four tables of a method with register maps (oat 170 and later). *)
Record method_at : Prop := {
  ma_version : 170 <= v;
  ma_stack : TableAt c run n V ws_stack (stack_rows R) (table_of i StackMap);
  ma_stack_ws : length ws_stack = 8%nat /\ Forall (fun w => w <= bits) ws_stack;
  ma_mask : TableAt c run n V [mask_width R] (mask_rows R) (table_of i DexRegisterMask);
  ma_map : TableAt c run n V ws_map (map_rows R) (table_of i DexRegisterMap);
  ma_map_ws : length ws_map = 1%nat /\ Forall (fun w => w <= bits) ws_map;
  ma_info : TableAt c run n V ws_info (info_rows R) (table_of i DexRegisterInfo);
  ma_info_ws : length ws_info = 2%nat /\ Forall (fun w => w <= bits) ws_info;
  ma_registers : 0 <= number_of_dex_registers_ i < 2 ^ 32;
}.
Hypothesis Hm : method_at.
Notation N := (number_of_dex_registers_ i).
Hypothesis Hrange : maps_in_range N R.

Lemma mask_width_range : 0 <= mask_width R < 2 ^ 16.
Proof.
  destruct Hm as [_ _ _ [_ _ [Hw Hc _ _ _] _ _ _ _] _ _ _ _ _].
  apply Forall_cons_1 in Hw as [Hw _]. unfold total in Hc. cbn in *. lia.
Qed.

(** [Get] of a cell of a table, by the list of its rows. *)
Lemma map_cell_at idx : 0 <= idx < Z.of_nat (length (map_rows R)) ->
  get_cell v c i DexRegisterMap idx kColNumCatalogueIndex
    = Ok (cell (nth (Z.to_nat idx) (map_rows R) []) 0).
Proof.
  intros Hidx. destruct Hm as [_ _ _ _ Ht [Hl Hw] _ _ _].
  destruct (lookup_lt_is_Some_2 (map_rows R) (Z.to_nat idx)) as [row Er]; [lia|].
  pose proof (get_cell_at c run v n V i DexRegisterMap ws_map (map_rows R) (Z.to_nat idx) row 0
    Ht Hl Hw Er ltac:(lia)) as E.
  rewrite Z2Nat.id in E by lia. by rewrite (nth_lookup_Some _ _ _ _ Er).
Qed.

Lemma info_cell_at idx col : 0 <= idx < Z.of_nat (length (info_rows R)) -> (col < 2)%nat ->
  get_cell v c i DexRegisterInfo idx (Z.of_nat col)
    = Ok (cell (nth (Z.to_nat idx) (info_rows R) []) col).
Proof.
  intros Hidx Hcol. destruct Hm as [_ _ _ _ _ _ Ht [Hl Hw] _].
  destruct (lookup_lt_is_Some_2 (info_rows R) (Z.to_nat idx)) as [row Er]; [lia|].
  pose proof (get_cell_at c run v n V i DexRegisterInfo ws_info (info_rows R) (Z.to_nat idx) row
    col Ht Hl Hw Er ltac:(lia)) as E.
  rewrite Z2Nat.id in E by lia. by rewrite (nth_lookup_Some _ _ _ _ Er).
Qed.

Lemma stack_cell_at j col : (j < length (stack_rows R))%nat -> (col < 8)%nat ->
  get_cell v c i StackMap (Z.of_nat j) (Z.of_nat col) = Ok (cell (nth j (stack_rows R) []) col).
Proof.
  intros Hj Hcol. destruct Hm as [Hv Ht [Hl Hw] _ _ _ _ _ _].
  destruct (lookup_lt_is_Some_2 (stack_rows R) j) as [row Er]; [lia|].
  rewrite (nth_lookup_Some _ _ _ _ Er).
  apply (get_cell_at c run v n V i StackMap ws_stack (stack_rows R) j row col);
    try done; [|lia]. cbn. by rewrite (proj2 (Z.leb_le 170 v)).
Qed.

(** A turn of the inner loop is [put]. *)
Lemma add_vreg_at reg idx s : 0 <= idx < Z.of_nat (length (map_rows R)) ->
  add_vreg v c i reg idx s = Ok (put reg (location_at R idx) s).
Proof.
  intros Hidx. unfold add_vreg. rewrite map_cell_at by done. cbn [rbind].
  unfold location_at. set (row := nth (Z.to_nat idx) (map_rows R) []).
  destruct (Z.eqb_spec (cell row 0) kNoValue) as [|Hne]; [done|].
  assert (Hcat : cell row 0 < Z.of_nat (length (info_rows R))).
  { destruct (lookup_lt_is_Some_2 (map_rows R) (Z.to_nat idx)) as [row' Er]; [lia|].
    destruct (Forall_lookup_1 _ _ _ _ (proj2 Hrange) Er) as [H|H];
      unfold row in *; rewrite (nth_lookup_Some _ _ _ _ Er) in *; done. }
  pose proof (cell_range row 0).
  change kColNumKind with (Z.of_nat 0). change kColNumPackedValue with (Z.of_nat 1).
  rewrite !info_cell_at by lia. cbn [rbind put]. by case_bool_decide.
Qed.

Lemma maps_count : Z.of_nat (length (map_rows R)) < 2 ^ 32.
Proof. by destruct Hm as [_ _ _ _ [_ _ [_ _ _ ? _] _ _ _ _] _ _ _ _]. Qed.

(** What [m] bits of [mask] from [reg] on contribute. *)
Definition visited (mask reg m idx r : Z) : option (Z * Z) :=
  if (reg <=? r) && (r <? reg + m) && Z.testbit mask r
  then location_at R (idx + ones_at mask reg (r - reg)) else None.

Lemma visit_at vm m mask reg idx f s :
  (forall j, Z.testbit mask j = true -> 0 <= j < N) -> 0 <= reg -> 0 <= idx ->
  idx + ones_at mask reg (Z.of_nat m) <= Z.of_nat (length (map_rows R)) ->
  walked N vm f s ->
  exists idx' s', visit v c i m mask reg idx s = Ok (idx', s') /\
    walked N vm (fun r => first_of (f r) (visited mask reg (Z.of_nat m) idx r)) s'.
Proof.
  intros Hmask. revert reg idx f s.
  induction m as [|m IH]; intros reg idx f s Hreg Hidx Hle Hw; cbn [visit].
  { exists idx, s. split; [done|]. apply (walked_ext _ _ f); [|done]. intros r.
    unfold visited. bool_cases; cbn; try lia; by destruct (f r). }
  assert (Hones : ones_at mask reg (Z.of_nat (S m)) =
    (if Z.testbit mask reg then 1 else 0) + ones_at mask (reg + 1) (Z.of_nat m)).
  { rewrite <- ones_at_1, <- ones_at_add by lia. f_equal. lia. }
  pose proof (ones_at_range mask (reg + 1) (Z.of_nat m) ltac:(lia)).
  assert (Hnext : forall r, r <> reg ->
    visited mask reg (Z.of_nat (S m)) idx r =
    visited mask (reg + 1) (Z.of_nat m) (idx + (if Z.testbit mask reg then 1 else 0)) r).
  { intros r Hne. unfold visited.
    bool_cases; cbn; try lia; try done. destruct (Z.testbit mask r); [|done].
    f_equal. rewrite <- Z.add_assoc, <- ones_at_1, <- ones_at_add by lia. do 2 f_equal. lia. }
  destruct (Z.testbit mask reg) eqn:Eb.
  - pose proof maps_count. rewrite add_vreg_at by lia. cbn [rbind].
    rewrite wrap_small by lia.
    destruct (IH (reg + 1) (idx + 1) _ (put reg (location_at R idx) s) ltac:(lia) ltac:(lia)
      ltac:(lia) (walked_put N vm f s reg _ (ma_registers Hm) (Hmask reg Eb) Hw))
      as (idx' & s' & E & Hw').
    exists idx', s'. split; [done|]. eapply walked_ext; [|exact Hw'].
    intros r. destruct (Z.eqb_spec r reg) as [->|Hne].
    + unfold visited at 2. rewrite Z.sub_diag, Eb.
      rewrite (proj2 (Z.leb_le reg reg)), (proj2 (Z.ltb_lt reg _)) by lia. cbn [andb].
      change (ones_at mask reg 0) with 0. rewrite Z.add_0_r.
      unfold visited. rewrite (proj2 (Z.leb_gt (reg + 1) reg)) by lia. cbn [andb].
      rewrite Z.eqb_refl. destruct (f reg), (location_at R idx); done.
    + rewrite (Hnext r Hne), (proj2 (Z.eqb_neq r reg)) by done. by destruct (f r).
  - destruct (IH (reg + 1) idx f s ltac:(lia) ltac:(lia) ltac:(lia) Hw) as (idx' & s' & E & Hw').
    exists idx', s'. split; [done|]. eapply walked_ext; [|exact Hw'].
    intros r. destruct (Z.eqb_spec r reg) as [->|Hne].
    + unfold visited. rewrite Eb, !andb_false_r. done.
    + rewrite (Hnext r Hne). by rewrite Z.add_0_r.
Qed.

Lemma field_at_none x pos : field_at x pos 0 = 0.
Proof. apply Z.mod_1_r. Qed.

(** Visiting the bits of a stack map's mask. *)
Lemma visit_row_at vm row end_ f s :
  let mask := live_mask N R row in
  row ∈ stack_rows R -> 0 <= end_ <= N -> (forall j, end_ <= j -> Z.testbit mask j = false) ->
  walked N vm f s ->
  exists idx' s', visit v c i (Z.to_nat end_) mask 0 (cell row 7) s = Ok (idx', s') /\
    walked N vm (fun r => first_of (f r) (row_location N R row r)) s'.
Proof.
  intros mask Hrow Hend Hhigh Hw. pose proof mask_width_range.
  assert (Hmask : forall j, Z.testbit mask j = true -> 0 <= j < N)
    by (intros j Hj; eapply live_mask_bits; [lia| |exact Hj]; lia).
  destruct (decide (mask = 0)) as [E0|E0].
  { exists (cell row 7), s. split.
    - apply visit_zero. intros j _. by rewrite E0, Z.bits_0.
    - apply (walked_ext _ _ f); [|done]. intros r. unfold row_location. fold mask.
      rewrite E0, Z.bits_0, andb_false_r. by destruct (f r). }
  pose proof (cell_range row 7).
  destruct (visit_at vm (Z.to_nat end_) mask 0 (cell row 7) f s) as (idx' & s' & E & Hw');
    [done|lia|lia| |done|].
  { rewrite Z2Nat.id by lia. pose proof (proj1 (Forall_elem _ _) (proj1 Hrange) row Hrow E0) as Hin.
    cbn in Hin. fold mask in Hin. replace N with (end_ + (N - end_)) in Hin by lia.
    rewrite ones_at_add in Hin by lia.
    pose proof (ones_at_range mask (0 + end_) (N - end_)). lia. }
  exists idx', s'. split; [done|]. eapply walked_ext; [|exact Hw']. intros r. cbn beta. f_equal.
  unfold visited, row_location. fold mask. rewrite Z2Nat.id, Z.add_0_l, Z.sub_0_r by lia.
  destruct (Z.ltb_spec r end_) as [|Hge]; [by rewrite andb_true_r|].
  by rewrite (Hhigh r Hge), !andb_false_r.
Qed.

(** The region of a stack map's mask denotes its live mask. *)
Lemma live_region_at row :
  cell row 6 <> kNoValue -> cell row 6 < Z.of_nat (length (mask_rows R)) ->
  exists r, GetBitMemoryRegion (NumColumns v DexRegisterMask) (table_of i DexRegisterMask)
      (cell row 6) kColNumMask = Ok r /\
    bit_size_ r = mask_width R /\ number_at c run (data_ r) n V /\ 0 <= bit_start_ r /\
    bit_start_ r + mask_width R + 64 <= 8 * n /\
    field_at V (bit_start_ r) (Z.min N (mask_width R)) = live_mask N R row.
Proof.
  intros Hne Hin. pose proof (cell_range row 6). pose proof mask_width_range.
  pose proof (ma_mask Hm) as Ht. pose proof (ma_registers Hm).
  destruct (lookup_lt_is_Some_2 (mask_rows R) (Z.to_nat (cell row 6))) as [mrow Em]; [lia|].
  pose proof (en_shape _ _ (ta_encodable _ _ _ _ _ _ _ Ht)) as Hsh.
  pose proof (Forall_lookup_1 _ _ _ _ Hsh Em) as Hlen. destruct mrow as [|x [|? ?]]; try done.
  destruct (GetBitMemoryRegion_at c run n V _ _ _ Ht 1 _ 0 _ (mask_width R) x eq_refl Em
    eq_refl eq_refl) as (r & E & Hd & Hsz & Hs0 & Hle & Hx).
  rewrite Z2Nat.id in E by lia. exists r. split_and!; try done.
  { rewrite Hd. apply (ta_number _ _ _ _ _ _ _ Ht). }
  unfold live_mask. rewrite (proj2 (Z.eqb_neq _ _) Hne), (proj2 (Z.ltb_lt _ _) Hin).
  cbn [orb negb]. rewrite (nth_lookup_Some _ _ _ _ Em). cbn [nth].
  rewrite <- Hx, field_at_field by lia. by rewrite Z.add_0_r.
Qed.

(** The words of that region are a visit of the live mask. *)
Lemma row_words_at vm row r f s :
  row ∈ stack_rows R -> number_at c run (data_ r) n V -> 0 <= bit_start_ r ->
  bit_start_ r + mask_width R + 64 <= 8 * n ->
  field_at V (bit_start_ r) (Z.min N (mask_width R)) = live_mask N R row ->
  walked N vm f s ->
  let end_ := Z.min N (mask_width R) in
  exists s', mask_words (Z.to_nat (end_ / 32 + 1)) v c i (Subregion r 0 (mask_width R)) 0 end_
      (cell row 7) s = Ok s' /\
    walked N vm (fun r => first_of (f r) (row_location N R row r)) s'.
Proof.
  intros Hrow Hnum Hs0 Hle Hlive Hw end_. pose proof mask_width_range.
  pose proof (ma_registers Hm). pose proof Hnum as (_ & _ & Hn60 & _).
  assert (Hend : 0 <= end_ <= mask_width R) by (unfold end_; lia).
  assert (Hst : bit_start_ (Subregion r 0 (mask_width R)) = bit_start_ r)
    by (cbn; rewrite Z.add_0_r; apply wrap_small; lia).
  assert (Hfuel : end_ - 0 < 32 * Z.of_nat (Z.to_nat (end_ / 32 + 1))).
  { pose proof (Z.div_mod end_ 32 ltac:(lia)). pose proof (Z.mod_pos_bound end_ 32 ltac:(lia)).
    pose proof (Z.div_pos end_ 32 ltac:(lia) ltac:(lia)). lia. }
  rewrite (mask_words_visit v c i run _ n V _ 0 end_); rewrite ?Hst; [|done|lia|lia|lia|lia|lia].
  fold end_ in Hlive. rewrite Hlive, Z.sub_0_r.
  destruct (visit_row_at vm row end_ f s) as (idx' & s' & Ev & Hw'); [done|lia| |done|].
  - intros k Hk. rewrite <- Hlive, field_at_testbit by lia.
    by rewrite (proj2 (Z.ltb_ge k end_)).
  - rewrite Ev. cbn [rbind snd]. by exists s'.
Qed.

Lemma vregs_row_at vm j row f s :
  stack_rows R !! j = Some row -> walked N vm f s ->
  exists s', vregs_row v c i (Z.of_nat j) s = Ok s' /\
    walked N vm (fun r => first_of (f r) (row_location N R row r)) s'.
Proof.
  intros Hj Hw. pose proof (lookup_lt_Some _ _ _ Hj) as Hlt. pose proof mask_width_range as HW.
  assert (Hskip : live_mask N R row = 0 -> walked N vm
    (fun r => first_of (f r) (row_location N R row r)) s).
  { intros E. apply (walked_ext _ _ f); [|done]. intros r. unfold row_location.
    rewrite E, Z.bits_0, andb_false_r. by destruct (f r). }
  unfold vregs_row. change kColNumDexRegisterMaskIndex with (Z.of_nat 6).
  change kColNumDexRegisterMapIndex with (Z.of_nat 7).
  rewrite !stack_cell_at, (nth_lookup_Some _ _ _ _ Hj) by lia. cbn [rbind].
  rewrite (ta_rows _ _ _ _ _ _ _ (ma_mask Hm)). unfold live_mask in Hskip.
  destruct (Z.eqb_spec (cell row 6) kNoValue) as [|Hne]; [exists s; by split; [|apply Hskip]|].
  destruct (Z.ltb_spec (cell row 6) (Z.of_nat (length (mask_rows R)))) as [Hin|];
    [|exists s; by split; [|apply Hskip]].
  cbn [orb negb] in Hskip. pose proof (cell_range row 7). pose proof (ma_registers Hm).
  destruct (live_region_at row Hne Hin) as (r & E & Hsz & Hnum & Hs0 & Hle & Hlive).
  rewrite E. cbn [rbind]. rewrite Hsz.
  destruct (Z.leb_spec (mask_width R) 0) as [Hz|Hpos].
  { exists s. split; [done|]. apply Hskip. replace (Z.min N (mask_width R)) with 0 by lia.
    apply field_at_none. }
  change (PopCount_part c r 0 0) with (Ok 0). cbn [rbind].
  change (bit_size_ (Subregion r 0 (mask_width R))) with (mask_width R).
  rewrite Z.add_0_r, (wrap_small 32 (cell row 7)), (wrap_small 32 (mask_width R)) by lia.
  apply row_words_at; try done. by eapply list_elem_of_lookup_2.
Qed.

(** The walk: nearest rows first; when no register is left, the rest adds nothing. *)
Lemma vregs_rows_at vm k f s :
  (k <= length (stack_rows R))%nat -> walked N vm f s ->
  exists s', vregs_rows k v c i s = Ok s' /\
    walked N vm (fun r => first_of (f r) (nearest_location N R k r)) s'.
Proof.
  revert f s. induction k as [|k IH]; intros f s Hk Hw; cbn [vregs_rows nearest_location].
  { exists s. split; [done|]. apply (walked_ext _ _ f); [|done]. intros r. by destruct (f r). }
  pose proof mask_width_range. pose proof (ma_registers Hm).
  destruct (Z.eqb_spec (remaining_registers s) 0) as [E0|_].
  - exists s. split; [done|]. apply (walked_ext _ _ f); [|done]. intros r.
    destruct (f r) eqn:Er; [done|]. cbn [first_of].
    assert (Hout : ~ (0 <= r < N)).
    { intros Hr. rewrite (wk_left _ _ _ _ Hw) in E0.
      assert (Hin : r ∈ bits_set s).
      { apply (registers_full N); [|lia|done].
        intros x Hx. by apply (wk_range _ _ _ _ Hw), (wk_set _ _ _ _ Hw). }
      apply (wk_set _ _ _ _ Hw) in Hin. rewrite Er in Hin. by destruct Hin. }
    symmetry. assert (Hnone : forall m, nearest_location N R m r = None); [|apply (Hnone (S k))].
    induction m as [|m IHm]; [done|]. cbn [nearest_location]. rewrite IHm.
    unfold row_location. destruct (Z.testbit _ r) eqn:Eb; [|by rewrite andb_false_r].
    apply live_mask_bits in Eb; lia.
  - destruct (lookup_lt_is_Some_2 (stack_rows R) k) as [row Er]; [lia|].
    destruct (vregs_row_at vm k row f s Er Hw) as (s1 & E1 & Hw1). rewrite E1. cbn [rbind].
    destruct (IH _ s1 ltac:(lia) Hw1) as (s2 & E2 & Hw2). exists s2. split; [done|].
    eapply walked_ext; [|exact Hw2]. intros r. cbn beta.
    rewrite (nth_lookup_Some _ _ _ _ Er). by destruct (f r).
Qed.

(** A method without locations at all, or whose stack map at [k] has no register map. *)
Definition no_locations (k : nat) : Prop :=
  cell (nth k (stack_rows R) []) 7 = kNoValue \/ mask_rows R = [] \/ map_rows R = [] \/
  info_rows R = [].

Lemma IsValid_at ws cells t :
  TableAt c run n V ws cells t -> table_IsValid t = bool_decide (cells <> []).
Proof.
  intros Ht. unfold table_IsValid. rewrite (ta_rows _ _ _ _ _ _ _ Ht).
  destruct cells; [done|]. by rewrite (proj2 (Z.ltb_lt _ _)) by (cbn; lia).
Qed.

Lemma stack_map_lookup k m :
  stack_maps 7 (stack_rows R) !! k = Some m ->
  (k < length (stack_rows R))%nat /\ snd m = cell (nth k (stack_rows R) []) 7.
Proof.
  unfold stack_maps. rewrite list_lookup_fmap.
  destruct (stack_rows R !! k) as [row|] eqn:E; [|done]. intros [= <-].
  split; [by eapply lookup_lt_Some|]. by rewrite (nth_lookup_Some _ _ _ _ E).
Qed.

(** The walk from the picked stack map. *)
Lemma vregs_walk_at vm k m :
  stack_maps 7 (stack_rows R) !! k = Some m -> Z.of_nat k < 2 ^ 31 -> ~ no_locations k ->
  exists s, vregs_rows (Z.to_nat (i32 (Z.of_nat k) + 1)) v c i
      {| vregs := vm; bits_set := ∅; remaining_registers := N |} = Ok s /\
    forall r, vregs s !! r = first_of (nearest_location N R (S k) r) (vm !! r).
Proof.
  intros Hk H31 _. apply stack_map_lookup in Hk as [Hlt _].
  rewrite sint_small by lia. replace (Z.to_nat (Z.of_nat k + 1)) with (S k) by lia.
  destruct (vregs_rows_at vm (S k) (fun _ => None)
    {| vregs := vm; bits_set := ∅; remaining_registers := N |}) as (s & E & Hw); [lia| |].
  - split; cbn [vregs bits_set remaining_registers]; [done| |by intros r []|].
    + intros r. split; [set_solver|by intros []].
    + rewrite size_empty. lia.
  - exists s. split; [done|]. intros r. by rewrite (wk_map _ _ _ _ Hw).
Qed.

(** C14: [NativePc2VRegs] on a method of oat 170 or later whose tables are well formed (the
    register map entries and the locations they name exist, fewer than 2^31 stack maps)
    succeeds.  It starts at the [picked]
    stack map, the first one whose native pc is behind the given pc, or the last one if there
    is none.  From there towards the first stack map, every dex register gets its location in
    the nearest stack map whose register mask has the register and whose entry for it names a
    location; an entry without one (kNoValue) falls through to the stack maps before, and a
    register that finds no location keeps the value the caller's map had.  When the picked
    stack map has no register map, or the method has no masks, register maps or locations at
    all, or no stack maps, the caller's map is unchanged.  The walk of masks, words and bits,
    with its early exit when all registers are found, is that function of the tables' rows. *)
Theorem NativePc2VRegs_spec (pc : Z) (vm : gmap Z (Z * Z))
    (Hrows : Z.of_nat (length (stack_rows R)) < 2 ^ 31) :
  exists m, NativePc2VRegs v c i pc vm = Ok m /\
    match stack_rows R with
    | [] => m = vm
    | _ => exists k s, picked pc (stack_maps 7 (stack_rows R)) k s /\
        (no_locations k -> m = vm) /\
        (~ no_locations k ->
          forall r, m !! r = first_of (nearest_location N R (S k) r) (vm !! r))
    end.
Proof.
  pose proof Hm as [Hv Hst [Hl Hw] Hmk Hmp _ Hin _ _].
  unfold NativePc2VRegs. rewrite (proj2 (Z.leb_le 170 v)) by done.
  unfold NativePc2VRegsV2. rewrite (IsValid_at _ _ _ Hst).
  destruct (stack_rows R) as [|row0 rows] eqn:ER; [by exists vm|]. rewrite <- ER in *.
  rewrite bool_decide_true by (by rewrite ER). cbn [negb].
  rewrite (ta_rows _ _ _ _ _ _ _ Hst), Nat2Z.id.
  destruct (scan_rows_at c v i kColNumDexRegisterMapIndex GetDexRegisterMapEncoding pc
    (stack_maps 7 (stack_rows R)) 0 (kNoValue, kNoValue)) as (res & E & Hres).
  { intros j m Hj. rewrite Z.add_0_l.
    apply (stack_map_row_at c run v n V i ws_stack (stack_rows R) 7); try done; [lia| |lia].
    rewrite Hl. cbn. by rewrite (proj2 (Z.leb_le 170 v)). }
  unfold stack_maps in E at 1. rewrite length_map in E. rewrite E. cbn [rbind].
  assert (Hres' : exists k s, picked pc (stack_maps 7 (stack_rows R)) k s /\
    res = (Z.of_nat k, snd s)) by (by rewrite ER in Hres |- *).
  destruct Hres' as (k & s & Hp & ->). pose proof (proj1 Hp) as Hk.
  destruct (stack_map_lookup k s Hk) as [Hlt Hs]. rewrite Hs.
  rewrite (IsValid_at _ _ _ Hmk), (IsValid_at _ _ _ Hmp), (IsValid_at _ _ _ Hin).
  assert (Hdec : no_locations k \/ ~ no_locations k).
  { unfold no_locations. destruct (decide (cell (nth k (stack_rows R) []) 7 = kNoValue)),
      (decide (mask_rows R = [])), (decide (map_rows R = [])), (decide (info_rows R = []));
      tauto. }
  destruct Hdec as [Hno|Hloc].
  - exists vm. split; [|by exists k, s].
    destruct (Z.eqb_spec (cell (nth k (stack_rows R) []) 7) kNoValue) as [|Hne]; [done|].
    destruct Hno as [H|[H|[H|H]]]; try rewrite H; [done|..];
      repeat case_bool_decide; cbn [negb]; done.
  - destruct (vregs_walk_at vm k s Hk ltac:(lia) Hloc) as (s' & Es & Hs').
    exists (vregs s'). unfold no_locations in Hloc.
    rewrite (proj2 (Z.eqb_neq _ _)), !bool_decide_true by tauto. cbn [negb].
    rewrite Es. cbn [rbind]. split; [done|]. exists k, s. split_and!; [done|tauto|done].
Qed.
End Walk.

(** * The concrete method *)

Definition demo_rows : method_rows :=
  {| stack_rows := demo_stack; mask_rows := [[5]; [6]]; map_rows := [[1]; [2]; [2]; [0]];
     info_rows := [[2; 17]; [1; 33]]; mask_width := 4 |}.

Lemma demo_method_at :
  @method_at arm64_Core demo_core (target_run demo_core) 191 64 (le_value demo_method)
    demo_info demo_rows [0; 4; 4; 0; 0; 0; 2; 3] [2] [3; 6].
Proof.
  split; try exact (demo_info_tables StackMap); try exact (demo_info_tables DexRegisterMask);
    try exact (demo_info_tables DexRegisterMap); try exact (demo_info_tables DexRegisterInfo);
    [lia|split; [done|repeat constructor; cbn; lia]..|by vm_compute].
Qed.

Lemma demo_in_range : maps_in_range (number_of_dex_registers_ demo_info) demo_rows.
Proof.
  replace (number_of_dex_registers_ demo_info) with 3 by (by vm_compute).
  split.
  - repeat (constructor; [intros _; by vm_compute|]). constructor.
  - repeat (constructor; [(by right; vm_compute) || by left|]). constructor.
Qed.

(** Pc 20: register 1 from the second stack map; register 2, without a location there, and
    register 0 from the first; register 3 keeps what the caller knew. *)
Lemma NativePc2VRegs_spec_witness :
  let vm : gmap Z (Z * Z) := {[3 := (9, 9)]} in
  exists m, @NativePc2VRegs arm64_Core 191 demo_core demo_info 20 vm = Ok m /\
    m !! 0 = Some (1, 16) /\ m !! 1 = Some (0, 32) /\ m !! 2 = Some (0, 32) /\
    m !! 3 = Some (9, 9).
Proof.
  intros vm.
  destruct (@NativePc2VRegs_spec arm64_Core demo_core (target_run demo_core)
    (one_presents 0x1000 demo_method ltac:(cbn; lia) ltac:(cbn; lia)) (demo_machine demo_method)
    191 64 (le_value demo_method) demo_info demo_rows _ _ _ demo_method_at demo_in_range 20 vm
    ltac:(cbn; lia)) as (m & E & k & s & (Hk & Hall & Hend) & _ & Hm).
  assert (Ek : k = 1%nat).
  { destruct k as [|[|k]]; [|done|by destruct k].
    injection Hk as <-. by destruct Hend as [Hlt|Hlt]; vm_compute in Hlt. }
  rewrite Ek in Hm.
  assert (Hloc : ~ no_locations demo_rows 1).
  { intros [H|[H|[H|H]]]; vm_compute in H; discriminate. }
  exists m. split; [exact E|]. split_and!; rewrite (Hm Hloc); by vm_compute.
Defined.
