(* ===== verification/Unwind.v ===== *)
(** Native stacks: core/api/unwind.{h,cpp} ([UnwindStack]), the unwinders of the machines
    (core/arm64, arm, x86_64, x86 and riscv64 unwind.cpp) with the layouts of
    core/common/ucontext.h, and core/common/native_frame.{h,cpp} ([NativeFrame]).

    An unwinder visits frames and pushes them on a list.  On arm64 it follows the chain of
    frame records (saved fp, saved lr) through one segment; on every machine but riscv64 it
    then searches the stack for the ucontext of a signal handler and walks on from there.
    UnwindProofs.v shows what the walk visits and that it ends. *)

From Stdlib Require Import ZArith Lia Bool.
From stdpp Require Import base list gmap numbers.
From S2P Require Import Prelude Words Host Blocks Notes CoreApi Segments AddressSpace MemRef Elf.
From S2P Require Import CoreLoad Modules.
Open Scope Z_scope.

(** * Frames *)

(** [class NativeFrame]; [frame_map] is the index of its link map. *)
Record NativeFrame := {
  frame_fp : Z; frame_sp : Z; frame_pc : Z; frame_map : option nat;
  frame_symbol : NiceSymbol; thumb : bool }.

(** [NiceSymbol()]. *)
Definition no_symbol : NiceSymbol := MkNice [] 0 0.

Section Frames.
Context {M : Machine} {L : Layout}.

(** [SetFramePc(pc)]. *)
Definition frame_pc_of (c : CoreApi) (pc : Z) : Z :=
  if machine =? EM_ARM then Z.land pc (u64 (pointer_mask c - 1)) else pc.

(** [NativeFrame(fp, sp, pc)]. *)
Definition new_frame (c : CoreApi) (fp sp pc : Z) : NativeFrame :=
  {| frame_fp := fp; frame_sp := sp; frame_pc := frame_pc_of c pc; frame_map := None;
     frame_symbol := no_symbol; thumb := false |}.

Definition SetThumbMode (f : NativeFrame) : NativeFrame :=
  {| frame_fp := frame_fp f; frame_sp := frame_sp f; frame_pc := frame_pc f;
     frame_map := frame_map f; frame_symbol := frame_symbol f; thumb := true |}.

Definition with_method (map : option nat) (s : NiceSymbol) (f : NativeFrame) : NativeFrame :=
  {| frame_fp := frame_fp f; frame_sp := frame_sp f; frame_pc := frame_pc f;
     frame_map := map; frame_symbol := s; thumb := thumb f |}.

(** The callback of [Decode] on link map [i]: whether the pc belongs to it. *)
Definition pc_in_map (fuel i : nat) (block : option nat) (pc : Z) : prog CoreApi bool :=
  let$ ld := on_map i (fun c => lm_field c l_ld) in
  let$ c := get in
  let$ ld_block := lift (FindLoadBlock c ld false true) in
  let va_pc := Z.land pc (vabits_mask c) in
  let file := match block with Some id => mFileName (lb c id) | None => [] end in
  let$ same :=
    (match file with
     | [] => pret false
     | _ => let$ n := on_map i (fun c => lm_name c) in pret (bool_decide (file = n))
     end) in
  if same : bool then pret true else
  let$ b := on_map i (fun c => lm_begin fuel c) in
  if negb (nz b) then pret false else
  let$ b := on_map i (fun c => lm_begin fuel c) in
  if va_pc <? b then pret false else
  let$ ld := on_map i (fun c => lm_field c l_ld) in
  let$ c := get in
  pret ((va_pc <? ld) ||
        match ld_block with Some id => va_pc <=? lb_end (lb c id) | None => false end).

(** [foreachLinkMap] with that callback: the first of the [n] link maps from [i] on. *)
Fixpoint find_map (n fuel i : nat) (block : option nat) (pc : Z) : prog CoreApi (option nat) :=
  match n with
  | O => pret None
  | S n =>
      let$ found := pc_in_map fuel i block pc in
      if found : bool then pret (Some i) else find_map n fuel (S i) block pc
  end.

(** [NativeFrame::Decode()]; [n] bounds the link maps of the target. *)
Definition Decode_frame (n fuel : nat) (f : NativeFrame) : prog CoreApi NativeFrame :=
  let$ c := get in
  let$ block := lift (FindLoadBlock c (frame_pc f) false true) in
  let handle := match block with Some id => mLinkMap (lb c id) | None => None end in
  let$ map :=
    (match handle with
     | Some i => pret (Some i)
     | None =>
         let$ _ := ensure_maps n fuel in
         let$ c := get in find_map (length (mLinkMaps c)) fuel 0 block (frame_pc f)
     end) in
  match map with
  | None => pret f
  | Some i =>
      let$ s := on_map i (fun c => NiceMethod fuel c (frame_pc f)) in
      pret (with_method map (default (frame_symbol f) s) f)
  end.

(** [GetLibrary()], [GetOrigin()] and [IsMmap()]. *)
Definition GetOrigin (f : NativeFrame) : prog CoreApi (list Z) :=
  match frame_map f with
  | None => pret []
  | Some i => on_map i (fun c => lm_name c)
  end.
Definition mmap_of (fuel : nat) (f : NativeFrame) : prog CoreApi (option nat) :=
  match frame_map f with
  | None => pret None
  | Some i =>
      let$ block := on_map i (fun c => lm_block fuel c) in
      let$ c := get in
      pret (match block with
            | Some id => if isMmapBlock (lb c id) then Some id else None
            | None => None
            end)
  end.
Definition IsMmap (fuel : nat) (f : NativeFrame) : prog CoreApi bool :=
  let$ b := mmap_of fuel f in pret (has b).
Definition GetLibrary (fuel : nat) (f : NativeFrame) : prog CoreApi (list Z) :=
  let$ nm := GetOrigin f in
  let$ b := mmap_of fuel f in
  let$ c := get in
  pret (match b with Some id => name (lb c id) | None => nm end).
End Frames.

(** * The state of an unwinder *)

(** [class UnwindStack]. *)
Record UnwindStack := {
  native_frames_ : list NativeFrame; cur_frame_fp_ : Z; cur_frame_sp_ : Z;
  cur_frame_pc_ : Z; cur_state_ : Z; cur_uc_ : Z; cur_num_ : Z; uc_num_ : Z }.

(** [UnwindStack(thread)]. *)
Definition new_UnwindStack : UnwindStack :=
  {| native_frames_ := []; cur_frame_fp_ := 0; cur_frame_sp_ := 0; cur_frame_pc_ := 0;
     cur_state_ := 0; cur_uc_ := 0; cur_num_ := 0; uc_num_ := 2 ^ 64 - 1 |}.

Definition set_frames (l : list NativeFrame) (s : UnwindStack) : UnwindStack :=
  Build_UnwindStack l (cur_frame_fp_ s) (cur_frame_sp_ s) (cur_frame_pc_ s) (cur_state_ s)
    (cur_uc_ s) (cur_num_ s) (uc_num_ s).
Definition set_fp (fp : Z) (s : UnwindStack) : UnwindStack :=
  Build_UnwindStack (native_frames_ s) fp (cur_frame_sp_ s) (cur_frame_pc_ s) (cur_state_ s)
    (cur_uc_ s) (cur_num_ s) (uc_num_ s).
Definition set_pc (pc : Z) (s : UnwindStack) : UnwindStack :=
  Build_UnwindStack (native_frames_ s) (cur_frame_fp_ s) (cur_frame_sp_ s) pc (cur_state_ s)
    (cur_uc_ s) (cur_num_ s) (uc_num_ s).
Definition set_state (st : Z) (s : UnwindStack) : UnwindStack :=
  Build_UnwindStack (native_frames_ s) (cur_frame_fp_ s) (cur_frame_sp_ s) (cur_frame_pc_ s) st
    (cur_uc_ s) (cur_num_ s) (uc_num_ s).
Definition set_uc (uc : Z) (s : UnwindStack) : UnwindStack :=
  Build_UnwindStack (native_frames_ s) (cur_frame_fp_ s) (cur_frame_sp_ s) (cur_frame_pc_ s)
    (cur_state_ s) uc (cur_num_ s) (uc_num_ s).
Definition set_num (n : Z) (s : UnwindStack) : UnwindStack :=
  Build_UnwindStack (native_frames_ s) (cur_frame_fp_ s) (cur_frame_sp_ s) (cur_frame_pc_ s)
    (cur_state_ s) (cur_uc_ s) n (uc_num_ s).
Definition set_uc_num (n : Z) (s : UnwindStack) : UnwindStack :=
  Build_UnwindStack (native_frames_ s) (cur_frame_fp_ s) (cur_frame_sp_ s) (cur_frame_pc_ s)
    (cur_state_ s) (cur_uc_ s) (cur_num_ s) n.

(** The unwinder and the core it reads. *)
Definition walk : Type := CoreApi * UnwindStack.
Definition core_part {A} (m : prog CoreApi A) : prog walk A := fun w =>
  let '(c, r) := m (fst w) in ((c, snd w), r).
Definition update (f : UnwindStack -> UnwindStack) : prog walk unit :=
  modify (fun w => (fst w, f (snd w))).
Definition the_core : prog walk CoreApi := let$ w := get in pret (fst w).
Definition the_stack : prog walk UnwindStack := let$ w := get in pret (snd w).

(** * Registers and signal contexts *)

(** The register at [off], [n] bytes, of a register block. *)
Definition reg_at (regs : list Z) (off n : Z) : Z :=
  le_value (take (Z.to_nat n) (drop (Z.to_nat off) regs)).

(** The layout of [struct ucontext] and of [Register] of a machine: offsets in bytes. *)
Record Context := {
  uc_size : Z;              (* sizeof(struct ucontext) *)
  uc_link : Z; uc_stack : Z; ss_size : Z;  (* ss_size is relative to uc_stack *)
  uc_word : Z;              (* size of the words above, and the step of the search *)
  uc_mcontext : Z;
  reg_sp : Z; reg_pc : Z;   (* in Register *)
  reg_word : Z;
}.
Definition arm64_context : Context :=
  {| uc_size := 4560; uc_link := 8; uc_stack := 16; ss_size := 16; uc_word := 8;
     uc_mcontext := 176; reg_sp := 248; reg_pc := 256; reg_word := 8 |}.
Definition arm_context : Context :=
  {| uc_size := 744; uc_link := 4; uc_stack := 8; ss_size := 8; uc_word := 4;
     uc_mcontext := 20; reg_sp := 52; reg_pc := 60; reg_word := 4 |}.
Definition x86_64_context : Context :=
  {| uc_size := 816; uc_link := 8; uc_stack := 16; ss_size := 16; uc_word := 8;
     uc_mcontext := 40; reg_sp := 152; reg_pc := 128; reg_word := 8 |}.
Definition x86_context : Context :=
  {| uc_size := 232; uc_link := 4; uc_stack := 8; ss_size := 8; uc_word := 4;
     uc_mcontext := 20; reg_sp := 60; reg_pc := 48; reg_word := 4 |}.

(** A member of the context at the process address [p]. *)
Definition member (c : CoreApi) (p off n : Z) : result Z := host_word (host_mem c) (u64 (p + off)) n.

(** [!memcmp(zeros, context + off, n)]. *)
Definition zero_bytes (c : CoreApi) (p off n : Z) : result bool :=
  let! bs := host_load (host_mem c) (u64 (p + off)) n in
  Ok (forallb (fun b => b =? 0) bs).

Definition GetPageSize (c : CoreApi) : Z := snd (getPageSize c).

(** The part of the search condition that all machines share. *)
Definition stack_member_ok (X : Context) (c : CoreApi) (id : nat) (p : Z) : result bool :=
  let! sp := member c p (uc_stack X) (uc_word X) in
  if negb (virtualContains (lb c id) sp) then Ok false else
  let! sz := member c p (uc_stack X + ss_size X) (uc_word X) in
  if mMemSize (lb c id) <? sz then Ok false else
  if sz <? GetPageSize c then Ok false else
  if negb (sz mod GetPageSize c =? 0) then Ok false else
  let! link := member c p (uc_link X) (uc_word X) in
  Ok (link =? 0).

Section Unwinders.
Context {M : Machine} {L : Layout}.

(** [context->uc_mcontext.fpstate && !block->virtualContains(fpstate)] is false. *)
Definition fpstate_ok (X : Context) (c : CoreApi) (id : nat) (p off : Z) : result bool :=
  let! fp := member c p (uc_mcontext X + off) (uc_word X) in
  Ok ((fp =? 0) || virtualContains (lb c id) fp).

(** [api::MemoryRef uc_sp = context->uc_mcontext.sp; uc_sp.IsValid()]. *)
Definition sp_ok (X : Context) (c : CoreApi) (p off : Z) : result bool :=
  let! sp := member c p (uc_mcontext X + off) (uc_word X) in
  let! v := IsValid c (ref_at sp) in Ok (snd v).

(** What each machine demands besides. *)
Definition arm64_extra (c : CoreApi) (id : nat) (p : Z) : result bool := zero_bytes c p 48 128.
Definition arm_extra (c : CoreApi) (id : nat) (p : Z) : result bool := zero_bytes c p 112 120.
Definition x86_64_extra (c : CoreApi) (id : nat) (p : Z) : result bool :=
  let! f := fpstate_ok x86_64_context c id p 184 in
  if negb f then Ok false else
  let! z := zero_bytes c p 232 64 in
  if negb z then Ok false else sp_ok x86_64_context c p 120.
Definition x86_extra (c : CoreApi) (id : nat) (p : Z) : result bool :=
  let! f := fpstate_ok x86_context c id p 76 in
  if negb f then Ok false else sp_ok x86_context c p 28.

(** The loop of [GetUContext] in the segment [id]: the address of the context, 0 for none;
    [n] bounds the steps. *)
Fixpoint ucontext_loop (n : nat) (X : Context) (extra : CoreApi -> nat -> Z -> result bool)
    (c : CoreApi) (id : nat) (uc : MemoryRef) : result Z :=
  if u64 (vaddr uc + uc_size X) <? u64 (mVaddr (lb c id) + size (lb c id) OPT_READ_ALL) then
    match n with
    | O => OutOfFuel
    | S n =>
        let! r := Real c uc in
        let! ok := stack_member_ok X c id (snd r) in
        let! ok := (if ok : bool then extra c id (snd r) else Ok false) in
        if ok : bool then Ok (vaddr (fst r))
        else let! uc := MovePtr c (fst r) (uc_word X) in ucontext_loop n X extra c id uc
    end
  else Ok 0.

(** [GetUContext()] of a thread whose stack pointer is [sp]; the result has the word size of
    the machine. *)
Definition GetUContext (n : nat) (X : Context)
    (extra : CoreApi -> nat -> Z -> result bool) (sp : Z) : prog walk Z :=
  let$ s := the_stack in
  if nz (cur_uc_ s) then pret (wrap (8 * uc_word X) (cur_uc_ s)) else
  let$ c := the_core in
  let$ r := lift (Prepare c (ref_at sp) false) in
  match ref_block r with
  | None => pret 0
  | Some id =>
      let uc := checkCopyBlock c (ref_at (Z.land (vaddr r) (vabits_mask c))) (Some id) in
      let$ uc := lift (catch (ucontext_loop n X extra c id uc) (fun _ => Ok 0)) in
      let$ _ := update (set_uc uc) in
      pret (wrap (8 * uc_word X) uc)
  end.

(** [UnwindStack::VisitFrame()]; [decode] is [NativeFrame::Decode]. *)
Definition VisitFrame (decode : NativeFrame -> prog CoreApi NativeFrame) : prog walk unit :=
  let$ c := the_core in
  let$ s := the_stack in
  let f := new_frame c (cur_frame_fp_ s) (cur_frame_sp_ s) (cur_frame_pc_ s) in
  let f := if (machine =? EM_ARM) &&
              (nz (Z.land (cur_state_ s) 0x20) || nz (Z.land (cur_frame_pc_ s) 1))
           then SetThumbMode f else f in
  let$ f := core_part (decode f) in
  update (fun s => set_num (u64 (cur_num_ s + 1)) (set_frames (native_frames_ s ++ [f]) s)).

Context (decode : NativeFrame -> prog CoreApi NativeFrame).

(** The pc of a caller: the call in front of the return address, outside the vdso. *)
Definition call_pc (c : CoreApi) (vdso : option nat) (ret : Z) : Z :=
  match vdso with
  | Some id => if virtualContains (lb c id) ret then ret else u64 (ret - 4)
  | None => u64 (ret - 4)
  end.

Definition find_vdso (c : CoreApi) : result (option nat) :=
  FindLoadBlock c (findAuxv c AT_SYSINFO_EHDR) false true.

(** The [while (1)] of [OnlyFpBackStack] from the frame record [fp] in segment [id]. *)
Fixpoint fp_loop (n : nat) (vdso : option nat) (id : nat) (fp : MemoryRef) : prog walk unit :=
  match n with
  | O => lift OutOfFuel
  | S n =>
      let$ c := the_core in
      let$ ret := lift (value64Of c fp 8) in
      let$ _ := update (set_pc (call_pc c vdso (snd ret))) in
      let$ next := lift (value64Of c (fst ret) 0) in
      let$ _ := update (set_fp (snd next)) in
      if snd next <=? vaddr (fst next) then pret tt else
      let fp := checkCopyBlock c (ref_at (snd next)) (Some id) in
      if bool_decide (ref_block fp = Some id) then
        let$ _ := VisitFrame decode in fp_loop n vdso id fp
      else pret tt
  end.

(** [OnlyFpBackStack(curfp)]. *)
Definition OnlyFpBackStack (n : nat) (curfp : Z) : prog walk unit :=
  ptry
    (let$ c := the_core in
     let$ vdso := lift (find_vdso c) in
     let$ fp := lift (Prepare c (ref_at curfp) false) in
     match ref_block fp with
     | None => pret tt
     | Some id => fp_loop n vdso id fp
     end)
    (fun _ => pret tt).

(** The frame of the link register is dropped when it repeats the frame of the pc. *)
Definition repeats (lr_frame pc_frame : NativeFrame) : bool :=
  (let lr_symbol := nice_symbol (frame_symbol lr_frame) in
   negb (bool_decide (lr_symbol = [])) &&
   bool_decide (lr_symbol = nice_symbol (frame_symbol pc_frame)))
  || (frame_pc lr_frame =? frame_pc pc_frame).
Definition skip_lr_frame (l : list NativeFrame) : result (list NativeFrame) :=
  if (length l <? 2)%nat then Fault else
  let! lr_frame := of_option (l !! (length l - 1)%nat) in
  let! pc_frame := of_option (l !! (length l - 2)%nat) in
  if repeats lr_frame pc_frame then Ok (take (length l - 1) l) else Ok l.

(** The [try] block of [FpBacktrace]. *)
Definition lr_backtrace (regs : list Z) : prog walk unit :=
  let$ _ := update (set_fp (reg_at regs 232 8)) in
  let$ _ := update (set_pc (reg_at regs 256 8)) in
  let$ _ := VisitFrame decode in
  let$ c := the_core in
  let$ vdso := lift (find_vdso c) in
  let lr := reg_at regs 240 8 in
  let$ _ := update (set_pc (call_pc c vdso lr)) in
  let$ s := the_stack in
  let$ fp := lift (Prepare c (ref_at (cur_frame_fp_ s)) false) in
  let$ visit :=
    (match ref_block fp with
     | None => pret true
     | Some _ => let$ v := lift (value64Of c fp 8) in pret (negb (lr =? snd v))
     end) in
  if visit : bool then
    let$ _ := VisitFrame decode in
    let$ s := the_stack in
    let$ l := lift (skip_lr_frame (native_frames_ s)) in
    update (set_frames l)
  else pret tt.

(** [arm64::UnwindStack::FpBacktrace(regs)]. *)
Definition FpBacktrace (n : nat) (regs : list Z) : prog walk unit :=
  let$ _ := ptry (lr_backtrace regs) (fun _ => pret tt) in
  let$ s := the_stack in
  OnlyFpBackStack n (cur_frame_fp_ s).

(** [Backtrace(regs)] of arm, x86_64 and x86: one frame; arm sets [cur_state_] from the
    register at [state] around it. *)
Definition Backtrace (X : Context) (state : option Z) (regs : list Z) : prog walk unit :=
  ptry
    (let$ _ := update (set_pc (reg_at regs (reg_pc X) (reg_word X))) in
     match state with
     | Some off =>
         let$ _ := update (set_state (reg_at regs off (reg_word X))) in
         let$ _ := VisitFrame decode in
         update (set_state 0)
     | None => VisitFrame decode
     end)
    (fun _ => pret tt).

(** [reg.f = context->uc_mcontext.g;] for a list of members: the offset and width of [f] in
    [Register] and those of [g] in the context.  [regs] is what [reg] holds before. *)
Fixpoint assign (c : CoreApi) (p : Z) (fields : list (Z * Z * Z * Z)) (regs : list Z)
    : result (list Z) :=
  match fields with
  | [] => Ok regs
  | (dst, dn, src, sn) :: fs =>
      let! v := member c p src sn in
      assign c p fs (splice (Z.to_nat dst) (le_bytes (Z.to_nat dn) v) regs)
  end.

Definition x86_64_fields : list (Z * Z * Z * Z) :=
  [(0, 8, 96, 8); (8, 8, 88, 8); (16, 8, 80, 8); (24, 8, 72, 8); (32, 8, 120, 8);
   (40, 8, 128, 8); (48, 8, 64, 8); (56, 8, 56, 8); (64, 8, 48, 8); (72, 8, 40, 8);
   (80, 8, 144, 8); (88, 8, 152, 8); (96, 8, 136, 8); (104, 8, 112, 8); (112, 8, 104, 8);
   (128, 8, 168, 8); (136, 4, 184, 2); (144, 8, 176, 8); (152, 8, 160, 8); (160, 4, 190, 2);
   (200, 4, 188, 2); (208, 4, 186, 2)].
Definition x86_fields : list (Z * Z * Z * Z) :=
  [(0, 4, 52, 4); (4, 4, 60, 4); (8, 4, 56, 4); (12, 4, 40, 4); (16, 4, 36, 4);
   (20, 4, 44, 4); (24, 4, 64, 4); (28, 2, 32, 2); (32, 2, 28, 2); (36, 2, 24, 2);
   (40, 2, 20, 2); (44, 4, 64, 4); (48, 4, 76, 4); (56, 4, 84, 4); (60, 4, 48, 4);
   (64, 2, 92, 2)].

(** The registers of a context; [junk] is the uninitialised [Register uc_regs]. *)
Definition x86_64_uc_regs (junk : list Z) (c : CoreApi) (p : Z) : result (list Z) :=
  assign c p x86_64_fields junk.
Definition x86_uc_regs (junk : list Z) (c : CoreApi) (p : Z) : result (list Z) :=
  assign c p x86_fields junk.

(** [memcpy(&uc_regs, &context->uc_mcontext..., sizeof(Register))]. *)
Definition arm64_uc_regs (c : CoreApi) (p : Z) : result (list Z) :=
  host_load (host_mem c) (u64 (p + 184)) 272.
Definition arm_uc_regs (c : CoreApi) (p : Z) : result (list Z) :=
  host_load (host_mem c) (u64 (p + 32)) 68.

(** The second half of [WalkStack]: the context [uc], its registers and their walk. *)
Definition walk_context (uc_regs : CoreApi -> Z -> result (list Z))
    (back : list Z -> prog walk unit) (uc : Z) : prog walk unit :=
  if nz uc then
    let$ _ := update (fun s => set_uc_num (cur_num_ s) s) in
    let$ c := the_core in
    let$ r := lift (Real c (ref_at uc)) in
    let$ regs := lift (uc_regs c (snd r)) in
    back regs
  else pret tt.

(** [arm64::UnwindStack::WalkStack()] for the thread's registers. *)
Definition arm64_WalkStack (n : nat) (regs : list Z) : prog walk unit :=
  let$ _ := FpBacktrace n regs in
  let$ uc := GetUContext n arm64_context arm64_extra (reg_at regs 248 8) in
  walk_context arm64_uc_regs (FpBacktrace n) uc.

(** [arm::UnwindStack::WalkStack()]. *)
Definition arm_WalkStack (n : nat) (regs : list Z) : prog walk unit :=
  let back := Backtrace arm_context (Some 64) in
  let$ _ := back regs in
  let$ uc := GetUContext n arm_context arm_extra (reg_at regs 52 4) in
  walk_context arm_uc_regs back uc.

(** [x86_64::UnwindStack::WalkStack()] and [x86::UnwindStack::WalkStack()]. *)
Definition x86_64_WalkStack (n : nat) (junk regs : list Z) : prog walk unit :=
  let back := Backtrace x86_64_context None in
  let$ _ := back regs in
  let$ uc := GetUContext n x86_64_context x86_64_extra (reg_at regs 152 8) in
  walk_context (x86_64_uc_regs junk) back uc.
Definition x86_WalkStack (n : nat) (junk regs : list Z) : prog walk unit :=
  let back := Backtrace x86_context None in
  let$ _ := back regs in
  let$ uc := GetUContext n x86_context x86_extra (reg_at regs 60 4) in
  walk_context (x86_uc_regs junk) back uc.

(** [riscv64::UnwindStack::WalkStack()]. *)
Definition riscv64_WalkStack (regs : list Z) : prog walk unit :=
  let$ _ := update (set_pc (reg_at regs 0 8)) in VisitFrame decode.

(** [UnwindStack::MakeUnwindStack(thread)->WalkStack()]; a machine without an unwinder makes
    a null pointer. *)
Definition WalkStack (n : nat) (junk regs : list Z) : prog walk unit :=
  if machine =? EM_386 then x86_WalkStack n junk regs
  else if machine =? EM_X86_64 then x86_64_WalkStack n junk regs
  else if machine =? EM_ARM then arm_WalkStack n regs
  else if machine =? EM_AARCH64 then arm64_WalkStack n regs
  else if machine =? EM_RISCV then riscv64_WalkStack regs
  else lift Fault.
End Unwinders.
