(* ===== verification/UnwindProofs.v ===== *)
(** Theorems on the unwinder ([Unwind]): decoding a frame never changes the target memory;
    the frame-record walk of arm64 pushes exactly the callers of the chain of frame records
    and always ends; the search for a signal context finds the first one. *)

From Stdlib Require Import ZArith Lia Bool.
From stdpp Require Import base list gmap numbers.
From S2P Require Import Prelude Words Host Blocks Notes CoreApi Segments AddressSpace MemRef Elf.
From S2P Require Import CoreLoad LoadProofs Modules Unwind.
Open Scope Z_scope.

(** * Code that leaves the target memory alone *)

(** [c'] is [c] with other link maps and another cached r_debug. *)
Definition relinked (c c' : CoreApi) : Prop :=
  exists m d, c' = with_debug (with_maps c m) d.

Lemma relinked_refl c : relinked c c.
Proof. exists (mLinkMaps c), (mDebug c). by destruct c. Qed.
Lemma relinked_trans c1 c2 c3 : relinked c1 c2 -> relinked c2 c3 -> relinked c1 c3.
Proof. intros (m & d & ->) (m' & d' & ->). by exists m', d'. Qed.

(** The program only ever relinks the core, however it ends. *)
Definition keeps {A} (m : prog CoreApi A) : Prop := forall c, relinked c (fst (m c)).

Create HintDb keeps_db.

Lemma keeps_pret {A} (a : A) : keeps (pret a).
Proof. intros c. apply relinked_refl. Qed.
Lemma keeps_lift {A} (m : result A) : keeps (lift m).
Proof. intros c. apply relinked_refl. Qed.
Lemma keeps_get : keeps get.
Proof. intros c. apply relinked_refl. Qed.
Lemma keeps_debug d : keeps (modify (fun c => with_debug c d)).
Proof. intros c. exists (mLinkMaps c), d. by destruct c. Qed.
Lemma keeps_pbind {A B} (m : prog CoreApi A) (f : A -> prog CoreApi B) :
  keeps m -> (forall a, keeps (f a)) -> keeps (pbind m f).
Proof.
  intros Hm Hf c. unfold pbind. specialize (Hm c).
  destruct (m c) as [c' [a|p| |]]; cbn in *; try done.
  eapply relinked_trans; [exact Hm|apply Hf].
Qed.
Lemma keeps_ptry {A} (m : prog CoreApi A) h :
  keeps m -> (forall p, keeps (h p)) -> keeps (ptry m h).
Proof.
  intros Hm Hh c. unfold ptry. specialize (Hm c).
  destruct (m c) as [c' [a|p| |]]; cbn in *; try done.
  eapply relinked_trans; [exact Hm|apply Hh].
Qed.
Lemma keeps_on_map {A} i (m : CoreApi -> prog LinkMap A) : keeps (on_map i m).
Proof.
  intros c. unfold on_map. destruct (mLinkMaps c !! i); [|apply relinked_refl].
  destruct (m c _) as [lm r]. cbn. exists (<[i:=lm]> (mLinkMaps c)), (mDebug c). by destruct c.
Qed.
Lemma keeps_addLinkMap {M : Machine} fuel map : keeps (addLinkMap fuel map).
Proof.
  intros c. unfold addLinkMap. destruct (NewLinkMap fuel c map) as [m [u|p| |]]; cbn;
    try apply relinked_refl.
  exists (mLinkMaps c ++ [m]), (mDebug c). by destruct c.
Qed.
#[export] Hint Resolve keeps_pret keeps_lift keeps_get keeps_debug keeps_on_map
  keeps_addLinkMap : keeps_db.

Ltac keeps_step :=
  repeat match goal with
  | |- keeps (pbind _ _) => apply keeps_pbind; [|intros ?]
  | |- keeps (ptry _ _) => apply keeps_ptry; [|intros ?]
  | |- keeps (if ?b then _ else _) => destruct b
  | |- keeps (match ?x with _ => _ end) => destruct x
  | |- keeps _ => solve [auto with keeps_db]
  end.

Section Keeps.
Context {M : Machine} {L : Layout}.

Lemma keeps_walk_maps n fuel map : keeps (walk_maps n fuel map).
Proof.
  revert map. induction n as [|n IH]; intros map; cbn [walk_maps]; keeps_step.
Qed.
Lemma keeps_ensure_maps n fuel : keeps (ensure_maps n fuel).
Proof.
  unfold ensure_maps, loadLinkMap, r_debug_ptr. keeps_step. apply keeps_walk_maps.
Qed.
Lemma keeps_find_map n fuel i block pc : keeps (find_map n fuel i block pc).
Proof.
  revert i. induction n as [|n IH]; intros i; cbn [find_map]; [keeps_step|].
  unfold pc_in_map. keeps_step.
Qed.
Lemma keeps_Decode_frame n fuel f : keeps (Decode_frame n fuel f).
Proof.
  unfold Decode_frame. keeps_step; [apply keeps_ensure_maps|apply keeps_find_map].
Qed.
End Keeps.

(** What the walk relies on in [NativeFrame::Decode]: the target memory and the registers of
    the frame stay as they are. *)
Class Decoder (decode : NativeFrame -> prog CoreApi NativeFrame) : Prop := {
  decoder_keeps : forall f, keeps (decode f);
  decoder_regs : forall f c c' f', decode f c = (c', Ok f') ->
    frame_fp f' = frame_fp f /\ frame_sp f' = frame_sp f /\ frame_pc f' = frame_pc f;
}.

#[export] Instance Decode_frame_decoder {M : Machine} {L : Layout} n fuel :
  Decoder (Decode_frame n fuel).
Proof.
  split; [apply keeps_Decode_frame|]. intros f c c' f'. unfold Decode_frame.
  intros (c1 & a1 & _ & H)%pbind_Ok_inv. apply pbind_Ok_inv in H as (c2 & a2 & _ & H).
  apply pbind_Ok_inv in H as (c3 & [i|] & _ & H).
  - apply pbind_Ok_inv in H as (c4 & s & _ & H). unfold pret in H. by simplify_eq.
  - unfold pret in H. by simplify_eq.
Qed.

(** What a relinked core shows of the target. *)
Lemma relinked_find c c' fuel loads a left right :
  relinked c c' -> find_loop fuel c' loads a left right = find_loop fuel c loads a left right.
Proof.
  intros (m & d & ->). revert left right.
  induction fuel as [|fuel IH]; intros left right; cbn [find_loop]; [done|].
  destruct (left <? right); [|done]. destruct (loads !! _) as [id|]; [|done].
  by rewrite !IH.
Qed.
Lemma relinked_FindLoadBlock c c' va check quick :
  relinked c c' -> FindLoadBlock c' va check quick = FindLoadBlock c va check quick.
Proof.
  intros Hr. pose proof (fun f l a x y => relinked_find c c' f l a x y Hr) as E.
  destruct Hr as (m & d & ->). unfold FindLoadBlock, findLoadBlock.
  change (getLoads (with_debug (with_maps c m) d) quick) with (getLoads c quick).
  destruct (getLoads c quick) as [|first l]; [done|].
  destruct ((first :: l) !! _) as [last|]; [|done]. by rewrite !E.
Qed.
Lemma relinked_Prepare c c' r check : relinked c c' -> Prepare c' r check = Prepare c r check.
Proof. intros Hr. unfold Prepare. by rewrite (relinked_FindLoadBlock _ _ _ _ _ Hr). Qed.
Lemma relinked_Real c c' r : relinked c c' -> Real c' r = Real c r.
Proof.
  intros Hr. unfold Real. rewrite (relinked_Prepare _ _ _ _ Hr). by destruct Hr as (m & d & ->).
Qed.
Lemma relinked_view c c' :
  relinked c c' ->
  (forall r off n, load_at c' r off n = load_at c r off n) /\
  (forall r b, checkCopyBlock c' r b = checkCopyBlock c r b) /\
  (forall r check, Prepare c' r check = Prepare c r check) /\
  (forall r, Real c' r = Real c r) /\
  (forall vdso ret, call_pc c' vdso ret = call_pc c vdso ret) /\
  find_vdso c' = find_vdso c.
Proof.
  intros Hr. split_and!; intros.
  - unfold load_at. rewrite (relinked_Real _ _ _ Hr). by destruct Hr as (m & d & ->).
  - by destruct Hr as (m & d & ->).
  - by apply relinked_Prepare.
  - by apply relinked_Real.
  - by destruct Hr as (m & d & ->).
  - unfold find_vdso. rewrite (relinked_FindLoadBlock _ _ _ _ _ Hr).
    by destruct Hr as (m & d & ->).
Qed.

Lemma relinked_pc {M : Machine} c c' pc : relinked c c' -> frame_pc_of c' pc = frame_pc_of c pc.
Proof. by intros (m & d & ->). Qed.

(** * Frames that the walk pushes *)

(** The state after [k] more frames [new] are pushed and [d] counted. *)
Record pushed (s s' : UnwindStack) (new : list NativeFrame) (d : nat) : Prop := {
  pushed_frames : native_frames_ s' = native_frames_ s ++ new;
  pushed_num : cur_num_ s' = u64 (cur_num_ s + Z.of_nat d);
  pushed_sp : cur_frame_sp_ s' = cur_frame_sp_ s;
  pushed_state : cur_state_ s' = cur_state_ s;
  pushed_uc : cur_uc_ s' = cur_uc_ s;
  pushed_uc_num : uc_num_ s' = uc_num_ s;
}.

Lemma pushed_none s fp pc :
  0 <= cur_num_ s < 2 ^ 64 -> pushed s (set_fp fp (set_pc pc s)) [] 0.
Proof. split; cbn; rewrite ?app_nil_r, ?Z.add_0_r, ?wrap_small; done. Qed.

Lemma pushed_refl s : 0 <= cur_num_ s < 2 ^ 64 -> pushed s s [] 0.
Proof. split; cbn; rewrite ?app_nil_r, ?Z.add_0_r, ?wrap_small; done. Qed.

Lemma pushed_trans s1 s2 s3 l1 l2 d1 d2 :
  pushed s1 s2 l1 d1 -> pushed s2 s3 l2 d2 -> pushed s1 s3 (l1 ++ l2) (d1 + d2).
Proof.
  intros [H1 H2 H3 H4 H5 H6] [K1 K2 K3 K4 K5 K6]. split; try congruence.
  - by rewrite K1, H1, app_assoc.
  - rewrite K2, H2, wrap_add_l by lia. f_equal. lia.
Qed.

Section Frames.
Context {M : Machine} (decode : NativeFrame -> prog CoreApi NativeFrame) `{!Decoder decode}.
(** Decoding returns from every state that the walk meets. *)
Context (I : CoreApi -> Prop)
  (HI : forall f c, I c -> exists c' f', decode f c = (c', Ok f') /\ I c').
Context (c0 : CoreApi).

Definition at_core (c : CoreApi) : Prop := relinked c0 c /\ I c.

Lemma VisitFrame_pushes c s :
  at_core c ->
  exists c' s' f, VisitFrame decode (c, s) = ((c', s'), Ok tt) /\ at_core c' /\
    pushed s s' [f] 1 /\ frame_fp f = cur_frame_fp_ s /\
    frame_pc f = frame_pc_of c0 (cur_frame_pc_ s) /\
    cur_frame_fp_ s' = cur_frame_fp_ s.
Proof.
  intros [Hr Hc]. unfold VisitFrame, the_core, the_stack, pbind, get, pret, core_part. cbn.
  set (f0 := if _ : bool then _ else _).
  destruct (HI f0 c Hc) as (c' & f & Hd & Hc').
  destruct (decoder_regs _ _ _ _ Hd) as (E1 & E2 & E3).
  pose proof (decoder_keeps f0 c) as Hk. rewrite Hd in Hk |- *. cbn in Hk |- *.
  eexists c', _, f. split; [reflexivity|]. split_and!.
  - split; [by eapply relinked_trans|done].
  - by split.
  - rewrite E1. unfold f0. by destruct (_ : bool).
  - rewrite E3. unfold f0. rewrite <- (relinked_pc _ _ _ Hr). by destruct (_ : bool).
  - done.
Qed.

(** * Chains of frame records *)

(** The frame record at [fp]: the saved frame pointer and the return address. *)
Definition record_at (c : CoreApi) (fp : Z) : option (Z * Z) :=
  let? bs := target_run c (Z.land fp (vabits_mask c)) 16 in
  Some (le_value (take 8 bs), le_value (take 8 (drop 8 bs))).

(** The callers that the records from [fp] on name: their frame pointer and their pc.  The
    chain goes up through the segment [id] and ends at the first record that does not. *)
Inductive fp_chain (vdso : option nat) (id : nat) : Z -> list (Z * Z) -> Prop :=
  | chain_last fp next ret :
      record_at c0 fp = Some (next, ret) ->
      next <= fp \/ virtualContains (lb c0 id) next = false ->
      fp_chain vdso id fp []
  | chain_caller fp next ret l :
      record_at c0 fp = Some (next, ret) ->
      fp < next < 2 ^ 64 -> virtualContains (lb c0 id) next = true ->
      fp_chain vdso id next l ->
      fp_chain vdso id fp ((next, frame_pc_of c0 (call_pc c0 vdso ret)) :: l).

Definition place_of (f : NativeFrame) : Z * Z := (frame_fp f, frame_pc f).

Context (Hc0 : space_ok c0).

Lemma contained_ok id v :
  id ∈ mQuickLoad c0 -> 0 <= v < 2 ^ 64 -> virtualContains (lb c0 id) v = true ->
  ref_ok c0 (MkRef v (Some id)).
Proof.
  intros Hin Hv Hk. split; [done|]. intros id' [= <-]. cbn [vaddr].
  pose proof (sorted_range _ _ (sp_sorted _ Hc0)) as Hr. rewrite Forall_elem in Hr.
  specialize (Hr id Hin). unfold range_ok in Hr.
  apply virtualContains_spec in Hk; [|lia..]. rewrite (sp_mask _ Hc0) in Hk by done.
  apply linear_find_elem; [apply Hc0|done|]. by apply covers_spec.
Qed.

(** Both words of a readable record. *)
Lemma record_words r fp next ret :
  ref_ok c0 r -> vaddr r = fp -> fp <> 0 -> record_at c0 fp = Some (next, ret) ->
  exists r1 r2, load_at c0 r 8 8 = Ok (r1, ret) /\ load_at c0 r1 0 8 = Ok (r2, next) /\
    vaddr r2 = fp.
Proof.
  intros Hr <- Hnz. unfold record_at.
  destruct (target_run c0 _ 16) as [bs|] eqn:E; [|done]. intros [= <- <-].
  assert (Hp : forall k, 0 < k <= 16 ->
    target_run c0 (Z.land (vaddr r) (vabits_mask c0)) k = Some (take (Z.to_nat k) bs)).
  { intros k Hk. pose proof (target_run_part _ _ 16 0 k _ Hc0 E) as H.
    rewrite Z.add_0_r, drop_0 in H. apply H; lia. }
  destruct (load_at_ok c0 r 8 8 _ Hc0 Hr Hnz ltac:(lia) ltac:(lia) (Hp 16 ltac:(lia)))
    as (r1 & H1 & V1 & O1 & _).
  rewrite <- V1 in Hp, Hnz.
  destruct (load_at_ok c0 r1 0 8 _ Hc0 O1 Hnz ltac:(lia) ltac:(lia) (Hp 8 ltac:(lia)))
    as (r2 & H2 & V2 & _). exists r1, r2. split_and!; [|done|congruence].
  rewrite H1. do 3 f_equal. change (Z.to_nat 16) with (8 + 8)%nat.
  change (Z.to_nat 8) with 8%nat. by rewrite <- take_drop_commute.
Qed.

(** The loop pushes the callers of the chain, in order. *)
Lemma fp_loop_chain vdso id fp l :
  fp_chain vdso id fp l -> id ∈ mQuickLoad c0 ->
  forall n r c s, ref_ok c0 r -> vaddr r = fp -> 0 < fp -> at_core c ->
    0 <= cur_num_ s < 2 ^ 64 -> (length l < n)%nat ->
  exists c' s' new, fp_loop decode n vdso id r (c, s) = ((c', s'), Ok tt) /\ at_core c' /\
    pushed s s' new (length l) /\ place_of <$> new = l.
Proof.
  intros H Hin. induction H as [fp next ret Hrec Hend | fp next ret l Hrec Hlt Hk _ IH];
    intros n r c s Hr Hv Hfp Hc Hnum Hn; (destruct n as [|n]; [cbn in Hn; lia|]);
    destruct (record_words r fp next ret Hr Hv ltac:(lia) Hrec) as (r1 & r2 & L1 & L2 & V2);
    destruct (relinked_view c0 c (proj1 Hc)) as (Eld & Ecp & _ & _ & Ecall & _);
    cbn [fp_loop]; unfold the_core, update, pbind, get, pret, lift, modify, value64Of;
    cbn [fst snd]; rewrite Eld, L1; cbn [fst snd]; rewrite Eld, L2; cbn [fst snd];
    rewrite V2, ?Ecp, Ecall.
  - assert (Hp := pushed_none s next (call_pc c0 vdso ret) Hnum).
    unfold checkCopyBlock. cbn [vaddr ref_at]. destruct (Z.leb_spec next fp).
    + by eexists c, _, []; split_and!.
    + destruct Hend as [?| ->]; [lia|]. cbn. by eexists c, _, []; split_and!.
  - destruct (Z.leb_spec next fp); [lia|]. unfold checkCopyBlock. cbn [vaddr ref_at].
    rewrite Hk. cbn [ref_block]. rewrite bool_decide_true by done.
    destruct (VisitFrame_pushes c (set_fp next (set_pc (call_pc c0 vdso ret) s)) Hc)
      as (c1 & s1 & f & -> & Hc1 & Hp1 & Ef & Ep & _).
    pose proof (pushed_trans _ _ _ _ _ _ _
      (pushed_none s next (call_pc c0 vdso ret) Hnum) Hp1) as Hs1.
    destruct (IH n (MkRef next (Some id)) c1 s1) as (c' & s' & new & -> & Hc' & Hp' & E);
      [by apply contained_ok; [|lia|]|done|lia|done| |cbn in Hn; lia|].
    { rewrite (pushed_num _ _ _ _ Hs1). by apply wrap_range. }
    exists c', s', (f :: new). split_and!; [done..| |].
    + apply (pushed_trans _ _ _ [f] new 1 _ Hs1 Hp').
    + cbn. rewrite E. f_equal. unfold place_of. by rewrite Ef, Ep.
Qed.

(** * The walk from the registers of a thread *)

(** What the stack at [fp] says: the return address saved there, and the callers. *)
Inductive stack_walk (vdso : option nat) (fp : Z) : option Z -> list (Z * Z) -> Prop :=
  | walk_nowhere :
      fp = 0 \/ linear_find c0 (Z.land fp (vabits_mask c0)) (mQuickLoad c0) = None ->
      stack_walk vdso fp None []
  | walk_stack id next ret l :
      0 < fp < 2 ^ 64 ->
      linear_find c0 (Z.land fp (vabits_mask c0)) (mQuickLoad c0) = Some id ->
      record_at c0 fp = Some (next, ret) -> fp_chain vdso id fp l ->
      stack_walk vdso fp (Some ret) l.

(** [FpBacktrace] on registers [fp], [pc], [lr] pushes [new] and counts [d]: the frame of the
    pc, the frame of the link register unless the frame record has it already or it repeats
    the first, and the callers. *)
Inductive backtrace (vdso : option nat) (fp pc lr : Z) (saved : option Z) (l : list (Z * Z)) :
    list NativeFrame -> nat -> Prop :=
  | backtrace_leaf f callers :
      saved = Some lr -> place_of f = (fp, frame_pc_of c0 pc) -> place_of <$> callers = l ->
      backtrace vdso fp pc lr saved l (f :: callers) (1 + length l)
  | backtrace_repeated f g callers :
      saved <> Some lr -> place_of f = (fp, frame_pc_of c0 pc) ->
      place_of g = (fp, frame_pc_of c0 (call_pc c0 vdso lr)) -> repeats g f = true ->
      place_of <$> callers = l ->
      backtrace vdso fp pc lr saved l (f :: callers) (2 + length l)
  | backtrace_both f g callers :
      saved <> Some lr -> place_of f = (fp, frame_pc_of c0 pc) ->
      place_of g = (fp, frame_pc_of c0 (call_pc c0 vdso lr)) -> repeats g f = false ->
      place_of <$> callers = l ->
      backtrace vdso fp pc lr saved l (f :: g :: callers) (2 + length l).

Lemma skip_last l f g :
  skip_lr_frame (l ++ [f; g]) = Ok (if repeats g f then l ++ [f] else l ++ [f; g]).
Proof.
  unfold skip_lr_frame. rewrite length_app. cbn [length].
  rewrite (proj2 (Nat.ltb_ge _ _)) by lia.
  rewrite !lookup_app_r by lia.
  replace (length l + 2 - 1 - length l)%nat with 1%nat by lia.
  replace (length l + 2 - 2 - length l)%nat with 0%nat by lia. cbn.
  destruct (repeats g f); [|done]. rewrite take_app.
  replace (length l + 2 - 1 - length l)%nat with 1%nat by lia.
  by rewrite take_ge by lia.
Qed.

(** The reference to the frame record. *)
Lemma Prepare_stack vdso c fp saved l :
  at_core c -> stack_walk vdso fp saved l ->
  exists r, Prepare c (ref_at fp) false = Ok r /\ vaddr r = fp /\
    ((ref_block r = None /\ saved = None /\ l = []) \/
     (exists id next ret, ref_block r = Some id /\ ref_ok c0 r /\ id ∈ mQuickLoad c0 /\
        0 < fp /\ record_at c0 fp = Some (next, ret) /\ saved = Some ret /\
        fp_chain vdso id fp l)).
Proof.
  intros [Hc _] Hw. rewrite (relinked_Prepare _ _ _ _ Hc). inversion Hw; subst.
  - exists (ref_at fp). split_and!; [|done|by left]. unfold Prepare, ref_at. cbn.
    unfold nz. destruct (Z.eqb_spec fp 0); [done|]. cbn. unfold FindLoadBlock.
    rewrite findLoadBlock_space by done. cbn.
    destruct H as [?|H]; [done|]. by rewrite H.
  - exists (MkRef fp (Some id)). split_and!; [|done|right].
    + apply (Prepare_ok c0 (ref_at fp) false id); cbn; try done || lia. split; cbn; [lia|done].
    + exists id, next, ret. split_and!; try done; try lia.
      * split; [cbn; lia|]. by intros ? [= <-].
      * by destruct (linear_find_props _ _ _ Hc0 H0).
Qed.

Lemma OnlyFpBackStack_at vdso fp saved l c s n :
  find_vdso c0 = Ok vdso -> stack_walk vdso fp saved l -> at_core c ->
  0 <= cur_num_ s < 2 ^ 64 -> (length l < n)%nat ->
  exists c' s' new, OnlyFpBackStack decode n fp (c, s) = ((c', s'), Ok tt) /\ at_core c' /\
    pushed s s' new (length l) /\ place_of <$> new = l.
Proof.
  intros Hv Hw Hc Hnum Hn.
  destruct (Prepare_stack _ _ _ _ _ Hc Hw) as (r & Hp & Hr & Hcase).
  destruct (relinked_view c0 c (proj1 Hc)) as (_ & _ & _ & _ & _ & Ev).
  unfold OnlyFpBackStack, ptry, the_core, pbind, get, pret, lift. cbn [fst].
  rewrite Ev, Hv, Hp. destruct Hcase as [(-> & _ & ->)|(id & next & ret & Eb & Ho & Hin & Hpos & Hrec & _ & Hch)].
  - exists c, s, []. split_and!; [done..| |done]. by apply pushed_refl.
  - rewrite Eb.
    destruct (fp_loop_chain vdso id fp l Hch Hin n r c s Ho Hr Hpos Hc Hnum Hn)
      as (c' & s' & new & -> & H). by exists c', s', new.
Qed.

(** The [try] block of [FpBacktrace]: the frames of the pc and of the link register. *)
Lemma lr_backtrace_at vdso regs saved l c s :
  let fp := reg_at regs 232 8 in
  find_vdso c0 = Ok vdso -> stack_walk vdso fp saved l -> at_core c ->
  0 <= cur_num_ s < 2 ^ 64 ->
  exists c' s' new d, lr_backtrace decode regs (c, s) = ((c', s'), Ok tt) /\ at_core c' /\
    pushed s s' new d /\ cur_frame_fp_ s' = fp /\
    forall callers, place_of <$> callers = l ->
      backtrace vdso fp (reg_at regs 256 8) (reg_at regs 240 8) saved l (new ++ callers)
        (d + length l).
Proof.
  intros fp Hv Hw Hc Hnum. set (pc := reg_at regs 256 8). set (lr := reg_at regs 240 8).
  unfold lr_backtrace. fold fp pc lr.
  destruct (VisitFrame_pushes c (set_pc pc (set_fp fp s)) Hc)
    as (c1 & s1 & f & V1 & Hc1 & Hp1 & Ef & Ep & Efp).
  destruct (relinked_view c0 c1 (proj1 Hc1)) as (Eld & _ & _ & _ & Ecall & Ev).
  destruct (Prepare_stack _ _ _ _ _ Hc1 Hw) as (r & Hp & Hr & Hcase).
  unfold the_core, the_stack, update, pbind, get, pret, lift, modify. cbn [fst snd].
  rewrite V1. cbn [fst snd]. rewrite Ev, Hv. cbn [fst snd set_pc cur_frame_fp_].
  rewrite Efp. cbn [set_pc set_fp cur_frame_fp_]. rewrite Hp. cbn [fst snd].
  set (s2 := set_pc (call_pc c1 vdso lr) s1).
  assert (Hs0 : pushed s (set_pc pc (set_fp fp s)) [] 0)
    by (split; cbn; rewrite ?app_nil_r, ?Z.add_0_r, ?wrap_small; done).
  pose proof (pushed_trans _ _ _ _ _ _ _ Hs0 Hp1) as Hs1. cbn [app Nat.add] in Hs1.
  assert (Hs2 : pushed s s2 [f] 1) by (destruct Hs1; by split).
  assert (Hpf : place_of f = (fp, frame_pc_of c0 pc))
    by (unfold place_of; rewrite Ef, Ep; done).
  assert (Hvisit : exists c2 s3 g, VisitFrame decode (c1, s2) = ((c2, s3), Ok tt) /\
    at_core c2 /\ pushed s s3 [f; g] 2 /\ cur_frame_fp_ s3 = fp /\
    place_of g = (fp, frame_pc_of c0 (call_pc c0 vdso lr))).
  { destruct (VisitFrame_pushes c1 s2 Hc1)
      as (c2 & s3 & g & V2 & Hc2 & Hp2 & Eg & Egp & Efp2).
    exists c2, s3, g. split_and!; [done..| | |].
    - apply (pushed_trans _ _ _ [f] [g] 1 1 Hs2 Hp2).
    - rewrite Efp2. unfold s2. cbn. by rewrite Efp.
    - unfold place_of. rewrite Eg, Egp. unfold s2. cbn. by rewrite Efp, Ecall. }
  assert (Hlr : saved <> Some lr -> exists c' s' new d,
    (match VisitFrame decode (c1, s2) with
     | (s', Ok _) => match skip_lr_frame (native_frames_ (snd s')) with
                     | Ok a => ((fst s', set_frames a (snd s')), Ok tt)
                     | Throw p => (s', Throw p)
                     | Fault => (s', Fault)
                     | OutOfFuel => (s', OutOfFuel)
                     end
     | (s', Throw p) => (s', Throw p)
     | (s', Fault) => (s', Fault)
     | (s', OutOfFuel) => (s', OutOfFuel)
     end) = ((c', s'), Ok tt) /\ at_core c' /\ pushed s s' new d /\ cur_frame_fp_ s' = fp /\
    forall callers, place_of <$> callers = l ->
      backtrace vdso fp pc lr saved l (new ++ callers) (d + length l)).
  { intros Hs. destruct Hvisit as (c2 & s3 & g & -> & Hc2 & Hp2 & Efp2 & Hpg).
    cbn [fst snd]. rewrite (pushed_frames _ _ _ _ Hp2), skip_last.
    destruct (repeats g f) eqn:Er; eexists c2, _, _, 2%nat.
    - split_and!; [done..| |done|].
      + instantiate (1 := [f]). destruct Hp2. by split.
      + intros callers Hl. by eapply (backtrace_repeated vdso fp pc lr saved l f g callers).
    - split_and!; [done..| |done|].
      + instantiate (1 := [f; g]). destruct Hp2. by split.
      + intros callers Hl. by eapply (backtrace_both vdso fp pc lr saved l f g callers). }
  destruct Hcase as [(-> & -> & ->)|(id & next & ret & Eb & Ho & Hin & Hpos & Hrec & -> & _)].
  - by apply Hlr.
  - rewrite Eb. destruct (record_words r fp next ret Ho Hr ltac:(lia) Hrec)
      as (r1 & r2 & L1 & _).
    unfold value64Of. rewrite Eld, L1. cbn [fst snd]. destruct (Z.eqb_spec lr ret) as [->|Hne].
    + cbn. exists c1, s2, [f], 1%nat. split_and!; [done..| |].
      * unfold s2. cbn. by rewrite Efp.
      * intros callers Hl. by eapply (backtrace_leaf vdso fp pc ret (Some ret) l f callers).
    + apply Hlr. congruence.
Qed.

Lemma FpBacktrace_at vdso regs saved l c s n :
  let fp := reg_at regs 232 8 in
  find_vdso c0 = Ok vdso -> stack_walk vdso fp saved l -> at_core c ->
  0 <= cur_num_ s < 2 ^ 64 -> (length l < n)%nat ->
  exists c' s' new d, FpBacktrace decode n regs (c, s) = ((c', s'), Ok tt) /\ at_core c' /\
    pushed s s' new d /\
    backtrace vdso fp (reg_at regs 256 8) (reg_at regs 240 8) saved l new d.
Proof.
  intros fp Hv Hw Hc Hnum Hn.
  destruct (lr_backtrace_at vdso regs saved l c s Hv Hw Hc Hnum)
    as (c1 & s1 & new & d & H1 & Hc1 & Hp1 & Efp & Hb). fold fp in Efp, Hb.
  assert (Hnum1 : 0 <= cur_num_ s1 < 2 ^ 64)
    by (rewrite (pushed_num _ _ _ _ Hp1); by apply wrap_range).
  destruct (OnlyFpBackStack_at vdso fp saved l c1 s1 n Hv Hw Hc1 Hnum1 Hn)
    as (c2 & s2 & callers & H2 & Hc2 & Hp2 & Hl).
  exists c2, s2, (new ++ callers), (d + length l)%nat. split_and!; [|done| |by apply Hb].
  - unfold FpBacktrace, ptry, the_stack, pbind, get, pret. rewrite H1. cbn [snd].
    by rewrite Efp.
  - by apply (pushed_trans _ s1).
Qed.
End Frames.

(** * Termination

    A small program logic: from every relinked core whose frames decode, with a frame pointer
    that is a 64-bit word, the program ends in such a state and what it returns satisfies
    [Q]. *)
Definition word64 (v : Z) : Prop := 0 <= v < 2 ^ 64.

Section Settles.
Context (c0 : CoreApi) (decodes : CoreApi -> Prop).

Definition settled (w : walk) : Prop :=
  (relinked c0 (fst w) /\ decodes (fst w)) /\ word64 (cur_frame_fp_ (snd w)).

Definition settles {A} (m : prog walk A) (Q : A -> Prop) : Prop :=
  forall w, settled w ->
    settled (fst (m w)) /\ ends (snd (m w)) /\ forall a, snd (m w) = Ok a -> Q a.

Lemma settles_pbind {A B} (m : prog walk A) (f : A -> prog walk B) Q R :
  settles m Q -> (forall a, Q a -> settles (f a) R) -> settles (pbind m f) R.
Proof.
  intros Hm Hf w Hw. destruct (Hm w Hw) as (H1 & H2 & H3).
  unfold pbind. destruct (m w) as [w' [a|p| |]]; cbn in *; try done.
  by apply (Hf a (H3 a eq_refl)).
Qed.
Lemma settles_ptry {A} (m : prog walk A) h Q :
  settles m Q -> (forall p, settles (h p) Q) -> settles (ptry m h) Q.
Proof.
  intros Hm Hh w Hw. destruct (Hm w Hw) as (H1 & H2 & H3).
  unfold ptry. destruct (m w) as [w' [a|p| |]]; cbn in *; try done. by apply Hh.
Qed.
Lemma settles_pret {A} (a : A) (Q : A -> Prop) : Q a -> settles (pret a) Q.
Proof. intros Ha w Hw. cbn. split_and!; [done|done|]. by intros b [= <-]. Qed.
Lemma settles_lift {A} (m : result A) (Q : A -> Prop) :
  ends m -> (forall a, m = Ok a -> Q a) -> settles (lift m) Q.
Proof. intros Hm Hq w Hw. by split_and!. Qed.
Lemma settles_core : settles the_core (relinked c0).
Proof.
  intros w [Hc Hf]. cbn. split; [done|]. split; [done|]. intros ? [= <-]. apply Hc.
Qed.
Lemma settles_stack : settles the_stack (fun s => word64 (cur_frame_fp_ s)).
Proof. intros w [Hc Hf]. cbn. split; [done|]. split; [done|]. by intros ? [= <-]. Qed.
Lemma settles_update f :
  (forall s, word64 (cur_frame_fp_ s) -> word64 (cur_frame_fp_ (f s))) ->
  settles (update f) (fun _ => True).
Proof. intros Hf w [Hc Hw]. cbn. split; [|done]. by split; [|apply Hf]. Qed.
Lemma settles_core_part {A} (m : prog CoreApi A) :
  keeps m ->
  (forall c, relinked c0 c -> decodes c -> ends_from m c /\ decodes (fst (m c))) ->
  settles (core_part m) (fun _ => True).
Proof.
  intros Hk He [c s] [[Hc Hd] Hf]. cbn in Hc, Hd, Hf. specialize (Hk c).
  destruct (He c Hc Hd) as [He' Hd']. unfold core_part, ends_from in *. cbn.
  destruct (m c) as [c' r]. cbn in *. split; [|done].
  split; [split; [by eapply relinked_trans|done]|done].
Qed.

(** ** Reading the target *)

Lemma ends_FindLoadBlock c va check quick : ends (FindLoadBlock c va check quick).
Proof. pose proof (ends_findLoadBlock c va quick). unfold FindLoadBlock. ends_step; done. Qed.
Hint Resolve ends_FindLoadBlock : ends_db.
Lemma ends_Prepare c r check : ends (Prepare c r check).
Proof. unfold Prepare. ends_step. Qed.
Hint Resolve ends_Prepare : ends_db.
Lemma ends_Real c r : ends (Real c r).
Proof. unfold Real. ends_step. Qed.
Hint Resolve ends_Real : ends_db.
Lemma ends_load_at c r off n : ends (load_at c r off n).
Proof. unfold load_at. ends_step. Qed.
Hint Resolve ends_load_at : ends_db.

Lemma Real_vaddr c r r' p : Real c r = Ok (r', p) -> vaddr r' = vaddr r.
Proof.
  unfold Real. intros H. res_inv. apply Prepare_vaddr in E.
  destruct (ref_block v) as [id|]; [|done]. destruct (isValid (lb c id)); [|done].
  res_inv. congruence.
Qed.
Lemma load_at_facts c r off n r' v :
  host_bytes (host_mem c) -> 0 <= n -> load_at c r off n = Ok (r', v) ->
  vaddr r' = vaddr r /\ 0 <= v < 2 ^ (8 * n).
Proof.
  unfold load_at. intros Hb Hn H. apply rbind_Ok_inv in H as ([r1 p] & E & H).
  apply rbind_Ok_inv in H as (w & Ew & H). apply Ok_inj in H. simplify_eq.
  split; [by eapply Real_vaddr|by eapply host_word_range].
Qed.

Context (Hbytes : host_bytes (host_mem c0)).
Context {M : Machine} (decode : NativeFrame -> prog CoreApi NativeFrame) `{!Decoder decode}.
Context (Hdecode : forall f c, relinked c0 c -> decodes c ->
  ends_from (decode f) c /\ decodes (fst (decode f c))).

Lemma VisitFrame_settles : settles (VisitFrame decode) (fun _ => True).
Proof.
  unfold VisitFrame. eapply settles_pbind; [apply settles_core|]. intros c Hc.
  eapply settles_pbind; [apply settles_stack|]. intros s _.
  eapply settles_pbind; [|intros; by apply settles_update].
  apply settles_core_part; [apply decoder_keeps|]. intros c' Hc' Hd. by apply Hdecode.
Qed.

Lemma load_settles c r off :
  relinked c0 c -> 0 <= vaddr r < 2 ^ 64 ->
  settles (lift (value64Of c r off))
    (fun x => vaddr (fst x) = vaddr r /\ 0 <= snd x < 2 ^ 64).
Proof.
  intros Hc Hr. apply settles_lift; [apply ends_load_at|]. intros [r' v] H. cbn [fst snd].
  apply (load_at_facts c r off 8); [by destruct Hc as (m & d & ->)|lia|done].
Qed.

(** Each frame record is above the one before: at most 2^64 of them. *)
Lemma fp_loop_settles n vdso id r :
  0 <= vaddr r < 2 ^ 64 -> 2 ^ 64 - vaddr r < Z.of_nat n ->
  settles (fp_loop decode n vdso id r) (fun _ => True).
Proof.
  revert r. induction n as [|n IH]; intros r Hr Hn; [lia|]. cbn [fp_loop].
  eapply settles_pbind; [apply settles_core|]. intros c Hc.
  eapply settles_pbind; [by apply load_settles|]. intros [r1 ret] [E1 _]. cbn [fst snd] in *.
  eapply settles_pbind; [by apply settles_update|]. intros _ _.
  eapply settles_pbind; [apply load_settles; [done|congruence]|].
  intros [r2 next] [E2 Hnx]. cbn [fst snd] in *.
  eapply settles_pbind; [by apply settles_update|]. intros _ _.
  destruct (Z.leb_spec next (vaddr r2)); [by apply settles_pret|].
  assert (Hv : vaddr (checkCopyBlock c (ref_at next) (Some id)) = next)
    by (unfold checkCopyBlock; by destruct (virtualContains _ _)).
  destruct (bool_decide _); [|by apply settles_pret].
  eapply settles_pbind; [apply VisitFrame_settles|]. intros _ _. apply IH; lia.
Qed.

Lemma Prepare_settles c fp :
  settles (lift (Prepare c (ref_at fp) false)) (fun r => vaddr r = fp).
Proof. apply settles_lift; [auto with ends_db|]. intros r H. by apply Prepare_vaddr in H. Qed.

Lemma vdso_settles c : settles (lift (find_vdso c)) (fun _ => True).
Proof. apply settles_lift; [apply ends_FindLoadBlock|done]. Qed.

Lemma OnlyFpBackStack_settles n fp :
  0 <= fp < 2 ^ 64 -> 2 ^ 64 < Z.of_nat n ->
  settles (OnlyFpBackStack decode n fp) (fun _ => True).
Proof.
  intros Hfp Hn. unfold OnlyFpBackStack. apply settles_ptry; [|intros; by apply settles_pret].
  eapply settles_pbind; [apply settles_core|]. intros c Hc.
  eapply settles_pbind; [apply vdso_settles|]. intros vdso _.
  eapply settles_pbind; [apply Prepare_settles|]. intros r Hr. cbv beta in Hr.
  destruct (ref_block r); [|by apply settles_pret]. apply fp_loop_settles; lia.
Qed.

(** ** The walk of arm64 *)

Lemma reg_at_word regs off : Forall byte_ok regs -> word64 (reg_at regs off 8).
Proof.
  intros Hb. unfold reg_at, word64.
  set (l := take (Z.to_nat 8) (drop (Z.to_nat off) regs)).
  assert (Hl : Forall byte_ok l) by (unfold l; by apply Forall_take, Forall_drop).
  apply le_value_range in Hl.
  assert (2 ^ (8 * Z.of_nat (length l)) <= 2 ^ 64); [|lia].
  apply Z.pow_le_mono_r; [lia|]. unfold l. rewrite length_take. lia.
Qed.

Lemma ends_skip_lr l : ends (skip_lr_frame l).
Proof. unfold skip_lr_frame. ends_step. Qed.

Lemma lr_backtrace_settles regs :
  Forall byte_ok regs -> settles (lr_backtrace decode regs) (fun _ => True).
Proof.
  intros Hb. unfold lr_backtrace.
  eapply settles_pbind; [apply settles_update; intros s _; by apply reg_at_word|]. intros _ _.
  eapply settles_pbind; [by apply settles_update|]. intros _ _.
  eapply settles_pbind; [apply VisitFrame_settles|]. intros _ _.
  eapply settles_pbind; [apply settles_core|]. intros c Hc.
  eapply settles_pbind; [apply vdso_settles|]. intros vdso _.
  eapply settles_pbind; [by apply settles_update|]. intros _ _.
  eapply settles_pbind; [apply settles_stack|]. intros s Hs. cbv beta in Hs.
  eapply settles_pbind; [apply Prepare_settles|]. intros r Hr. cbv beta in Hr.
  eapply (settles_pbind _ _ (fun _ => True)).
  - destruct (ref_block r); [|by apply settles_pret].
    eapply settles_pbind; [apply load_settles; [done|by rewrite Hr]|].
    intros. by apply settles_pret.
  - intros [] _; [|by apply settles_pret].
    eapply settles_pbind; [apply VisitFrame_settles|]. intros _ _.
    eapply settles_pbind; [apply settles_stack|]. intros s' _.
    eapply settles_pbind; [by apply settles_lift; [apply ends_skip_lr|intros; exact I]|].
    intros l _. by apply settles_update.
Qed.

Lemma FpBacktrace_settles n regs :
  Forall byte_ok regs -> 2 ^ 64 < Z.of_nat n ->
  settles (FpBacktrace decode n regs) (fun _ => True).
Proof.
  intros Hb Hn. unfold FpBacktrace.
  eapply settles_pbind; [apply settles_ptry; [by apply lr_backtrace_settles|]|].
  - intros. by apply settles_pret.
  - intros _ _. eapply settles_pbind; [apply settles_stack|]. intros s Hs.
    by apply OnlyFpBackStack_settles.
Qed.
End Settles.

(** * The search for a signal context *)

(** The [n]-byte field at [off] of an object. *)
Definition field (bs : list Z) (off n : Z) : Z :=
  le_value (take (Z.to_nat n) (drop (Z.to_nat off) bs)).

(** What the bytes of a context must satisfy in the stack [id]. *)
Definition looks_like (X : Context) (extra : list Z -> bool) (c : CoreApi) (id : nat)
    (bs : list Z) : bool :=
  let size := field bs (uc_stack X + ss_size X) (uc_word X) in
  virtualContains (lb c id) (field bs (uc_stack X) (uc_word X)) &&
  (size <=? mMemSize (lb c id)) && (GetPageSize c <=? size) &&
  (size mod GetPageSize c =? 0) && (field bs (uc_link X) (uc_word X) =? 0) && extra bs.

Definition is_context (X : Context) (extra : list Z -> bool) (c : CoreApi) (id : nat)
    (a : Z) : bool :=
  match target_run c a (uc_size X) with
  | Some bs => looks_like X extra c id bs
  | None => false
  end.

(** What each machine demands besides. *)
Definition zeros (bs : list Z) (off n : Z) : bool :=
  forallb (fun b => b =? 0) (take (Z.to_nat n) (drop (Z.to_nat off) bs)).
Definition valid_at (c : CoreApi) (sp : Z) : bool :=
  nz sp && match linear_find c (Z.land sp (vabits_mask c)) (mQuickLoad c) with
           | Some id => isValid (lb c id)
           | None => false
           end.
Definition in_stack (c : CoreApi) (id : nat) (fpstate : Z) : bool :=
  (fpstate =? 0) || virtualContains (lb c id) fpstate.
Definition arm64_test (bs : list Z) : bool := zeros bs 48 128.
Definition arm_test (bs : list Z) : bool := zeros bs 112 120.
Definition x86_64_test (c : CoreApi) (id : nat) (bs : list Z) : bool :=
  in_stack c id (field bs 224 8) && zeros bs 232 64 && valid_at c (field bs 160 8).
Definition x86_test (c : CoreApi) (id : nat) (bs : list Z) : bool :=
  in_stack c id (field bs 96 4) && valid_at c (field bs 48 4).

(** The addresses the search visits. *)
Definition candidates (X : Context) (start end_ : Z) : list Z :=
  (fun k => start + uc_word X * Z.of_nat k) <$>
    seq 0 (Z.to_nat ((end_ - uc_size X - start + uc_word X - 1) / uc_word X)).

Section Search.
Context (c : CoreApi) (Hc : space_ok c) (id : nat) (v : list Z)
  (Hin : id ∈ mQuickLoad c) (Hvalid : isValid (lb c id) = true)
  (Hw : view (host_mem c) (lb c id) v).
(** The segment lies below the end of the masked addresses. *)
Context (k : Z) (Hk : 0 <= k <= 64) (Hmask : vabits_mask c = Z.ones k)
  (Hend : mVaddr (lb c id) + mMemSize (lb c id) <= 2 ^ k).

Abbreviation base := (mVaddr (lb c id)).
Abbreviation limit := (mVaddr (lb c id) + size (lb c id) OPT_READ_ALL).
Definition host_of (a : Z) : Z := begin (lb c id) OPT_READ_ALL + (a - base).

Lemma seg_range : 0 <= base /\ limit <= base + mMemSize (lb c id) < 2 ^ 64.
Proof.
  pose proof (sorted_range _ _ (sp_sorted _ Hc)) as Hr. rewrite Forall_elem in Hr.
  specialize (Hr id Hin). unfold range_ok in Hr. pose proof (view_size _ _ _ Hw). lia.
Qed.

Lemma masked a : base <= a < limit -> Z.land a (vabits_mask c) = a.
Proof.
  intros Ha. pose proof seg_range. rewrite Hmask, Z.land_ones by lia. apply Z.mod_small. lia.
Qed.

Lemma seg_find a : base <= a < limit -> linear_find c a (mQuickLoad c) = Some id.
Proof.
  intros Ha. pose proof seg_range. apply linear_find_elem; [apply Hc|done|].
  apply covers_spec. lia.
Qed.

Lemma seg_ref a : base <= a < limit -> ref_ok c (MkRef a (Some id)).
Proof.
  intros Ha. pose proof seg_range. split; [cbn; lia|]. intros ? [= <-]. cbn [vaddr].
  rewrite masked by done. by apply seg_find.
Qed.

Lemma run_at a n : base <= a -> 0 < n -> a + n <= limit ->
  target_run c a n = Some (take (Z.to_nat n) (drop (Z.to_nat (a - base)) v)).
Proof.
  intros Ha Hn Hl. unfold target_run. rewrite seg_find by lia. rewrite Hvalid.
  rewrite (proj2 (Z.leb_le 0 n)) by lia. rewrite (proj2 (Z.leb_le _ _)) by lia.
  cbn [andb]. by rewrite (view_load _ _ _ Hw).
Qed.

Lemma bytes_at a n off m bs : base <= a -> 0 <= off -> 0 < m -> off + m <= n ->
  a + n <= limit -> target_run c a n = Some bs ->
  host_load (host_mem c) (u64 (host_of a + off)) m
    = Ok (take (Z.to_nat m) (drop (Z.to_nat off) bs)).
Proof.
  intros Ha Ho Hm Hle Hl. rewrite run_at by lia. intros [= <-].
  pose proof seg_range. pose proof (view_begin _ _ _ Hw). pose proof (view_end _ _ _ Hw).
  unfold host_of. rewrite wrap_small by lia.
  rewrite <- Z.add_assoc.
  rewrite (host_load_sub _ _ _ _ (a - base + off) m (sp_host _ Hc) (view_load _ _ _ Hw)) by lia.
  f_equal. apply list_eq. intros i. destruct (decide (i < Z.to_nat m)%nat).
  - rewrite !lookup_take_lt, !lookup_drop, lookup_take_lt, lookup_drop by lia. f_equal. lia.
  - by rewrite !lookup_take_ge by lia.
Qed.

Lemma member_at a n off m bs : base <= a -> 0 <= off -> 0 < m -> off + m <= n ->
  a + n <= limit -> target_run c a n = Some bs ->
  member c (host_of a) off m = Ok (field bs off m).
Proof.
  intros. unfold member, host_word. by rewrite (bytes_at a n off m bs).
Qed.

Lemma zero_bytes_at a n off m bs : base <= a -> 0 <= off -> 0 < m -> off + m <= n ->
  a + n <= limit -> target_run c a n = Some bs ->
  zero_bytes c (host_of a) off m = Ok (zeros bs off m).
Proof.
  intros. unfold zero_bytes. by rewrite (bytes_at a n off m bs).
Qed.

Lemma fpstate_at X a n off bs : base <= a -> 0 <= uc_mcontext X + off -> 0 < uc_word X ->
  uc_mcontext X + off + uc_word X <= n -> a + n <= limit -> target_run c a n = Some bs ->
  fpstate_ok X c id (host_of a) off
    = Ok (in_stack c id (field bs (uc_mcontext X + off) (uc_word X))).
Proof. intros. unfold fpstate_ok. by rewrite (member_at a n _ _ bs) by done. Qed.

Lemma sp_at X a n off bs : base <= a -> 0 <= uc_mcontext X + off -> 0 < uc_word X ->
  uc_mcontext X + off + uc_word X <= n -> a + n <= limit -> target_run c a n = Some bs ->
  sp_ok X c (host_of a) off = Ok (valid_at c (field bs (uc_mcontext X + off) (uc_word X))).
Proof.
  intros. unfold sp_ok. rewrite (member_at a n _ _ bs) by done. cbn [rbind].
  set (sp := field bs _ _). unfold IsValid, Prepare, valid_at, ref_at. cbn [ref_block vaddr has].
  destruct (nz sp) eqn:E; cbn [negb orb andb]; [|done].
  unfold FindLoadBlock. rewrite findLoadBlock_space by done. cbn.
  by destruct (linear_find c _ _).
Qed.

(** The fields the search reads lie in the context, and the machine's demand is [test]. *)
Record searches (X : Context) (extra : CoreApi -> nat -> Z -> result bool)
    (test : list Z -> bool) : Prop := {
  search_word : 0 < uc_word X;
  search_size : uc_word X < uc_size X;
  search_link : 0 <= uc_link X /\ uc_link X + uc_word X <= uc_size X;
  search_stack : 0 <= uc_stack X /\ 0 <= ss_size X /\
    uc_stack X + ss_size X + uc_word X <= uc_size X;
  search_extra : forall a bs, base <= a -> a + uc_size X <= limit ->
    target_run c a (uc_size X) = Some bs -> extra c id (host_of a) = Ok (test bs);
}.

Ltac search_fields := split; cbn; try lia; intros a bs Ha Hl Hrun.

Lemma arm64_searches : searches arm64_context arm64_extra arm64_test.
Proof. search_fields. by apply (zero_bytes_at a 4560); try lia. Qed.
Lemma arm_searches : searches arm_context arm_extra arm_test.
Proof. search_fields. by apply (zero_bytes_at a 744); try lia. Qed.
Lemma x86_64_searches : searches x86_64_context x86_64_extra (x86_64_test c id).
Proof.
  search_fields. unfold x86_64_extra, x86_64_test.
  rewrite (fpstate_at x86_64_context a 816 184 bs) by (cbn; done || lia). cbn [rbind].
  change (uc_mcontext x86_64_context + 184) with 224. cbn [uc_word x86_64_context].
  destruct (in_stack _ _ _); [|done]. cbn [negb andb].
  rewrite (zero_bytes_at a 816 232 64 bs) by (done || lia). cbn [rbind].
  destruct (zeros _ _ _); [|done]. by apply (sp_at x86_64_context a 816 120); cbn; try lia.
Qed.
Lemma x86_searches : searches x86_context x86_extra (x86_test c id).
Proof.
  search_fields. unfold x86_extra, x86_test.
  rewrite (fpstate_at x86_context a 232 76 bs) by (cbn; done || lia). cbn [rbind].
  change (uc_mcontext x86_context + 76) with 96. cbn [uc_word x86_context].
  destruct (in_stack _ _ _); [|done]. cbn [negb andb].
  by apply (sp_at x86_context a 232 28); cbn; try lia.
Qed.

Section Loop.
Context (X : Context) (extra : CoreApi -> nat -> Z -> result bool) (test : list Z -> bool)
  (HX : searches X extra test).

(** One address of the search. *)
Lemma check_at a : base <= a -> a + uc_size X <= limit ->
  (let! ok := stack_member_ok X c id (host_of a) in
   if ok : bool then extra c id (host_of a) else Ok false)
  = Ok (is_context X test c id a).
Proof.
  intros Ha Hl. destruct HX as [Hwd Hsz Hlk Hst Hex].
  unfold is_context. destruct (target_run c a (uc_size X)) as [bs|] eqn:E.
  2: { rewrite run_at in E by lia. done. }
  unfold looks_like, stack_member_ok.
  rewrite (member_at a (uc_size X) (uc_stack X) _ bs) by (done || lia). cbn [rbind].
  destruct (virtualContains _ _); [|done]. cbn [negb andb].
  rewrite (member_at a (uc_size X) (uc_stack X + ss_size X) _ bs) by (done || lia). cbn [rbind].
  rewrite (Z.leb_antisym (mMemSize _)). destruct (mMemSize (lb c id) <? _); [done|].
  rewrite (Z.leb_antisym _ (GetPageSize c)). destruct (_ <? GetPageSize c); [done|].
  cbn [negb andb]. destruct (_ mod _ =? 0); [|done]. cbn [negb andb].
  rewrite (member_at a (uc_size X) (uc_link X) _ bs) by (done || lia). cbn [rbind].
  destruct (_ =? 0); [|done]. cbn [andb]. by apply Hex.
Qed.

Lemma candidates_step a : a + uc_size X < limit ->
  candidates X a limit = a :: candidates X (a + uc_word X) limit.
Proof.
  intros Ha. destruct HX as [Hwd _ _ _ _]. unfold candidates.
  replace (limit - uc_size X - a + uc_word X - 1)
    with ((limit - uc_size X - (a + uc_word X) + uc_word X - 1) + 1 * uc_word X) by lia.
  rewrite Z.div_add by lia.
  assert (0 <= (limit - uc_size X - (a + uc_word X) + uc_word X - 1) / uc_word X)
    by (apply Z.div_pos; lia).
  rewrite Z2Nat.inj_add, Nat.add_comm by lia.
  change (Z.to_nat 1 + ?x)%nat with (S x).
  cbn [seq fmap list_fmap]. rewrite Z.mul_0_r, Z.add_0_r. f_equal.
  rewrite <- fmap_S_seq, <- list_fmap_compose. apply list_fmap_ext. intros _ j _. cbn. lia.
Qed.

Lemma candidates_end a : limit <= a + uc_size X -> candidates X a limit = [].
Proof.
  intros Ha. destruct HX as [Hwd _ _ _ _]. unfold candidates.
  assert ((limit - uc_size X - a + uc_word X - 1) / uc_word X <= 0)
    by (apply Z.lt_succ_r, Z.div_lt_upper_bound; lia).
  by replace (Z.to_nat _) with O by lia.
Qed.

(** The loop answers the first candidate that is a context. *)
Lemma ucontext_loop_first n r a :
  ref_ok c r -> vaddr r = a -> a <> 0 -> base <= a < limit -> limit - a < Z.of_nat n ->
  limit + uc_size X < 2 ^ 64 ->
  ucontext_loop n X extra c id r
    = Ok (match list_find (is_context X test c id) (candidates X a limit) with
          | Some (_, b) => b
          | None => 0
          end).
Proof.
  revert r a. induction n as [|n IH]; intros r a Hr Hv Hnz Ha Hn Hb; [lia|].
  destruct HX as [Hwd Hsz _ _ _]. pose proof seg_range.
  assert (Hlim : u64 (base + size (lb c id) OPT_READ_ALL) = limit)
    by (apply wrap_small; lia).
  cbn [ucontext_loop]. rewrite Hv, Hlim, wrap_small by lia.
  destruct (Z.ltb_spec (a + uc_size X) limit) as [Hlt|Hge].
  2: { by rewrite candidates_end by lia. }
  rewrite candidates_step by lia.
  assert (Hf : linear_find c (Z.land (vaddr r) (vabits_mask c)) (mQuickLoad c) = Some id)
    by (rewrite Hv, masked by lia; by apply seg_find).
  rewrite (Real_ok c r id v Hc Hr) by (done || congruence). cbn [rbind fst snd vaddr].
  rewrite Hv, masked by lia. fold (host_of a).
  pose proof (view_begin _ _ _ Hw). pose proof (view_end _ _ _ Hw).
  rewrite wrap_small by (unfold host_of; lia).
  rewrite <- rbind_assoc, check_at by lia. cbn [rbind list_find].
  destruct (is_context X test c id a) eqn:Ec.
  - by rewrite decide_True by done.
  - rewrite decide_False by (cbn; intros ?; congruence).
    set (r1 := MkRef a (Some id)).
    assert (Hr1 : ref_ok c r1) by (apply seg_ref; lia).
    assert (Hmove : MovePtr c r1 (uc_word X) = Ok (MkRef (a + uc_word X) (Some id))).
    { unfold MovePtr. rewrite Hv in Hf.
      rewrite (Prepare_ok c r1 true id Hc Hr1 Hnz Hf (fun _ => Hvalid)).
      cbn [rbind ref_block vaddr r1]. rewrite wrap_small by lia.
      rewrite (proj2 (virtualContains_spec (lb c id) (a + uc_word X) ltac:(lia) ltac:(lia)
        ltac:(lia))); [done|]. rewrite (sp_mask _ Hc) by done. rewrite masked by lia. lia. }
    rewrite Hmove. cbn [rbind]. rewrite (IH _ (a + uc_word X)); [|by apply seg_ref; lia|done|lia..].
    by destruct (list_find _ _) as [[]|].
Qed.
End Loop.
End Search.

(** The segments lie between address 1 and the end of the [k]-bit addresses. *)
Record addressable (c : CoreApi) (k : Z) : Prop := {
  addr_bits : 0 <= k < 64;
  addr_mask : vabits_mask c = Z.ones k;
  addr_segment : forall id, id ∈ mQuickLoad c ->
    0 < mVaddr (lb c id) /\ mVaddr (lb c id) + mMemSize (lb c id) <= 2 ^ k;
}.

(** The searches of the machines. *)
Inductive machine_search (c : CoreApi) (id : nat) :
    Context -> (CoreApi -> nat -> Z -> result bool) -> (list Z -> bool) -> Prop :=
  | arm64_search : machine_search c id arm64_context arm64_extra arm64_test
  | arm_search : machine_search c id arm_context arm_extra arm_test
  | x86_64_search : machine_search c id x86_64_context x86_64_extra (x86_64_test c id)
  | x86_search : machine_search c id x86_context x86_extra (x86_test c id).

(** The first context of the stack [id] from the masked stack pointer on, 0 for none. *)
Definition first_context (X : Context) (test : list Z -> bool) (c : CoreApi) (id : nat)
    (sp : Z) : Z :=
  let limit := mVaddr (lb c id) + size (lb c id) OPT_READ_ALL in
  match list_find (is_context X test c id) (candidates X (Z.land sp (vabits_mask c)) limit) with
  | Some (_, a) => a
  | None => 0
  end.

Lemma machine_searches c id v X extra test :
  space_ok c -> id ∈ mQuickLoad c -> isValid (lb c id) = true ->
  view (host_mem c) (lb c id) v ->
  machine_search c id X extra test -> searches c id X extra test /\ 0 < uc_size X < 2 ^ 13.
Proof.
  intros Hc Hin Hv Hw [].
  - split; [by apply (arm64_searches c Hc id v Hin Hv Hw 0)|done].
  - split; [by apply (arm_searches c Hc id v Hin Hv Hw 0)|done].
  - split; [by apply (x86_64_searches c Hc id v Hin Hv Hw 0)|done].
  - split; [by apply (x86_searches c Hc id v Hin Hv Hw 0)|done].
Qed.

Lemma GetUContext_at k c s id sp n X extra test :
  space_ok c -> addressable c k -> machine_search c id X extra test ->
  0 < sp < 2 ^ 64 -> linear_find c (Z.land sp (vabits_mask c)) (mQuickLoad c) = Some id ->
  isValid (lb c id) = true -> Z.land sp (vabits_mask c) - mVaddr (lb c id)
    < size (lb c id) OPT_READ_ALL -> size (lb c id) OPT_READ_ALL < Z.of_nat n ->
  cur_uc_ s = 0 ->
  GetUContext n X extra sp (c, s) =
    let uc := first_context X test c id sp in
    ((c, set_uc uc s), Ok (wrap (8 * uc_word X) uc)).
Proof.
  intros Hc [Hk Hmask Hseg] HX Hsp Hf Hv Hsz Hn Hs. cbn zeta.
  destruct (linear_find_props _ _ _ Hc Hf) as (Hin & Hrg & Ha).
  destruct (sp_view _ Hc id Hin Hv) as [v Hw].
  destruct (machine_searches _ _ _ _ _ _ Hc Hin Hv Hw HX) as [Hse Hucs].
  destruct (Hseg id Hin) as [Hpos Hend]. pose proof (view_size _ _ _ Hw).
  assert (2 ^ k <= 2 ^ 63) by (apply Z.pow_le_mono_r; lia).
  assert (Hk' : 0 <= k <= 64) by lia.
  set (a := Z.land sp (vabits_mask c)) in *.
  unfold GetUContext, the_stack, the_core, update, pbind, get, pret, lift, modify. cbn [snd fst].
  rewrite Hs. change (nz 0) with false. cbn [fst snd].
  rewrite (Prepare_ok c (ref_at sp) false id); [|done| |cbn; lia|done|done].
  2: { split; [cbn; lia|done]. }
  cbn [ref_block vaddr ref_at].
  assert (Hmk := masked c Hc id v Hin Hw k Hk' Hmask Hend a ltac:(lia)).
  replace (checkCopyBlock _ _ _) with (MkRef a (Some id)).
  2: { unfold checkCopyBlock. cbn [vaddr ref_at]. fold a.
    rewrite (proj2 (virtualContains_spec (lb c id) a ltac:(lia) ltac:(lia) ltac:(lia)));
      [done|]. rewrite (sp_mask _ Hc) by done. rewrite Hmk. lia. }
  rewrite (ucontext_loop_first c Hc id v Hin Hv Hw k Hk' Hmask Hend X extra test Hse n _ a);
    [done| |done|lia|lia|lia|lia].
  by apply (seg_ref c Hc id v Hin Hw k Hk' Hmask Hend); lia.
Qed.
