(* ===== verification/UnwindWalk.v ===== *)
(** Properties of the native stack walk: the frames [FpBacktrace] shows, the signal context
    [GetUContext] finds, and that the walk of arm64 ends on every target. *)

From Stdlib Require Import ZArith Lia Bool.
From stdpp Require Import base list gmap numbers.
From S2P Require Import Prelude Words Host Blocks Notes CoreApi Segments AddressSpace MemRef Elf.
From S2P Require Import CoreLoad LoadProofs Modules Unwind UnwindProofs.
Open Scope Z_scope.

(** * The whole walk ends *)

Lemma relinked_space c c' : space_ok c -> relinked c c' -> space_ok c'.
Proof.
  intros [H1 H2 H3 H4 H5] (m & d & ->). split; [|done..]. destruct H1. by split.
Qed.
Lemma relinked_addressable c c' k : addressable c k -> relinked c c' -> addressable c' k.
Proof. intros [H1 H2 H3] (m & d & ->). by split. Qed.

Section WalkEnds.
Context (c0 : CoreApi) (Hc0 : space_ok c0) (Hbytes : host_bytes (host_mem c0)).
Context (k : Z) (Hk : addressable c0 k).
Context {M : Machine} (decode : NativeFrame -> prog CoreApi NativeFrame) `{!Decoder decode}.
Context (decodes : CoreApi -> Prop) (Hdecode : forall f c, relinked c0 c -> decodes c ->
  ends_from (decode f) c /\ decodes (fst (decode f c))).

Lemma ucontext_loop_ends c id sp n X extra test :
  relinked c0 c -> id ∈ mQuickLoad c -> mVaddr (lb c id) <= Z.land sp (vabits_mask c) ->
  Z.land sp (vabits_mask c) < mVaddr (lb c id) + mMemSize (lb c id) ->
  machine_search c id X extra test -> 2 ^ 64 < Z.of_nat n ->
  ends (ucontext_loop n X extra c id
    (checkCopyBlock c (ref_at (Z.land sp (vabits_mask c))) (Some id))).
Proof.
  intros Hr Hin Hlo Hhi HX Hn.
  pose proof (relinked_space _ _ Hc0 Hr) as Hc.
  destruct (relinked_addressable _ _ _ Hk Hr) as [Hk1 Hmask Hseg].
  destruct (Hseg id Hin) as [Hpos Hend].
  assert (2 ^ k <= 2 ^ 63) by (apply Z.pow_le_mono_r; lia).
  set (a := Z.land sp (vabits_mask c)) in *.
  assert (Hmk : Z.land a (vabits_mask c) = a).
  { unfold a. by rewrite <- Z.land_assoc, Z.land_diag. }
  assert (Hcopy : checkCopyBlock c (ref_at a) (Some id) = MkRef a (Some id)).
  { unfold checkCopyBlock. cbn [vaddr ref_at].
    rewrite (proj2 (virtualContains_spec (lb c id) a ltac:(lia) ltac:(lia) ltac:(lia)));
      [done|]. by rewrite (sp_mask _ Hc), Hmk by done. }
  rewrite Hcopy. destruct (isValid (lb c id)) eqn:Hv.
  - destruct (sp_view _ Hc id Hin Hv) as [v Hw].
    destruct (machine_searches _ _ _ _ _ _ Hc Hin Hv Hw HX) as [Hse Hucs].
    pose proof (view_size _ _ _ Hw).
    destruct (Z.lt_ge_cases a (mVaddr (lb c id) + size (lb c id) OPT_READ_ALL)).
    + rewrite (ucontext_loop_first c Hc id v Hin Hv Hw k ltac:(lia) Hmask Hend X extra test
        Hse n _ a); [done| |done|lia..].
      by apply (seg_ref c Hc id v Hin Hw k ltac:(lia) Hmask Hend).
    + destruct n as [|n]; [lia|]. cbn [ucontext_loop vaddr]. rewrite !wrap_small by lia.
      by rewrite (proj2 (Z.ltb_ge _ _)) by lia.
  - destruct n as [|n]; [lia|]. cbn [ucontext_loop]. destruct (_ <? _); [|done].
    unfold Real, Prepare. cbn [ref_block has orb rbind vaddr]. by rewrite Hv.
Qed.

Lemma GetUContext_settles n X extra sp :
  (forall c id, exists test, machine_search c id X extra test) ->
  0 <= sp < 2 ^ 64 -> 2 ^ 64 < Z.of_nat n ->
  settles c0 decodes (GetUContext n X extra sp) (fun _ => True).
Proof.
  intros HX Hsp Hn. unfold GetUContext.
  eapply settles_pbind; [apply settles_stack|]. intros s _.
  destruct (nz (cur_uc_ s)); [by apply settles_pret|].
  eapply settles_pbind; [apply settles_core|]. intros c Hc.
  eapply (settles_pbind _ _ _ _ (fun r => Prepare c (ref_at sp) false = Ok r)).
  { apply settles_lift; [apply ends_Prepare|done]. }
  intros r Hr. cbv beta in Hr. destruct (ref_block r) as [id|] eqn:Eb; [|by apply settles_pret].
  eapply (settles_pbind _ _ _ _ (fun _ => True)); [|intros; eapply settles_pbind;
    [by apply settles_update|intros; by apply settles_pret]].
  apply settles_lift; [|done].
  pose proof (relinked_space _ _ Hc0 Hc) as Hs.
  assert (Hf : vaddr r = sp /\
    linear_find c (Z.land sp (vabits_mask c)) (mQuickLoad c) = Some id).
  { revert Hr. unfold Prepare, ref_at. cbn. destruct (negb (nz sp)).
    - intros [= <-]. done.
    - unfold FindLoadBlock. rewrite findLoadBlock_space by done. cbn. intros [= <-]. done. }
  destruct Hf as [-> Hf]. destruct (linear_find_props _ _ _ Hs Hf) as (Hin & _ & Ha).
  destruct (HX c id) as [test HX'].
  pose proof (ucontext_loop_ends c id sp n X extra test Hc Hin
    ltac:(lia) ltac:(lia) HX' Hn) as He.
  destruct (ucontext_loop _ _ _ _ _ _); done.
Qed.

Lemma arm64_WalkStack_settles n regs :
  Forall byte_ok regs -> 2 ^ 64 < Z.of_nat n ->
  settles c0 decodes (arm64_WalkStack decode n regs) (fun _ => True).
Proof.
  intros Hb Hn. unfold arm64_WalkStack.
  eapply settles_pbind; [by apply FpBacktrace_settles|]. intros _ _.
  eapply settles_pbind; [apply GetUContext_settles; [|by apply reg_at_word|done]|].
  { intros c id. exists arm64_test. constructor. }
  intros uc _. unfold walk_context. destruct (nz uc); [|by apply settles_pret].
  eapply settles_pbind; [by apply settles_update|]. intros _ _.
  eapply settles_pbind; [apply settles_core|]. intros c Hc.
  eapply (settles_pbind _ _ _ _ (fun _ => True)); [apply settles_lift; [apply ends_Real|done]|].
  intros r _.
  eapply (settles_pbind _ _ _ _ (Forall byte_ok)); [|intros; by apply FpBacktrace_settles].
  apply settles_lift; [apply ends_load|]. intros bs H. unfold arm64_uc_regs in H.
  eapply host_load_bytes; [|exact H]. by destruct Hc as (m & d & ->).
Qed.
End WalkEnds.

(** * Properties *)

(** C12: on a stack whose frame records are readable, [FpBacktrace] of arm64 shows the frame
    of the pc, the frame of the link register unless the frame record already names that
    caller or the frame repeats the first one, and then exactly the callers of the chain of
    frame records, in order; it counts the dropped frame too, so the number it leaves for
    the first frame of a signal context is one too high then.  The target memory is not
    changed. *)
Theorem FpBacktrace_frames {M : Machine} (decode : NativeFrame -> prog CoreApi NativeFrame)
    `{!Decoder decode} (decodes : CoreApi -> Prop) c vdso regs saved l s n :
  (forall f c', decodes c' -> exists c'' f', decode f c' = (c'', Ok f') /\ decodes c'') ->
  decodes c -> space_ok c -> find_vdso c = Ok vdso ->
  stack_walk c vdso (reg_at regs 232 8) saved l ->
  0 <= cur_num_ s < 2 ^ 64 -> (length l < n)%nat ->
  exists c' s' new d, FpBacktrace decode n regs (c, s) = ((c', s'), Ok tt) /\
    relinked c c' /\ pushed s s' new d /\
    backtrace c vdso (reg_at regs 232 8) (reg_at regs 256 8) (reg_at regs 240 8) saved l new d.
Proof.
  intros HI Hi Hc Hv Hw Hnum Hn.
  destruct (FpBacktrace_at decode decodes HI c Hc vdso regs saved l c s n Hv Hw)
    as (c' & s' & new & d & H & [Hr _] & H'); [|done|done|by exists c', s', new, d].
  split; [apply relinked_refl|done].
Qed.

(** C15: the search of [GetUContext] on arm64, arm, x86_64 and x86, from a stack pointer in a
    readable segment: it returns the first address, in steps of a word, whose bytes are a
    context as the code defines it (a stack of whole pages inside the segment, no link, the
    machine's reserved words), 0 if there is none, and caches it. *)
Theorem GetUContext_first k c s id sp n X extra test :
  space_ok c -> addressable c k -> machine_search c id X extra test ->
  0 < sp < 2 ^ 64 -> linear_find c (Z.land sp (vabits_mask c)) (mQuickLoad c) = Some id ->
  isValid (lb c id) = true ->
  Z.land sp (vabits_mask c) - mVaddr (lb c id) < size (lb c id) OPT_READ_ALL ->
  size (lb c id) OPT_READ_ALL < Z.of_nat n -> cur_uc_ s = 0 ->
  GetUContext n X extra sp (c, s) =
    let uc := first_context X test c id sp in
    ((c, set_uc uc s), Ok (wrap (8 * uc_word X) uc)).
Proof. apply GetUContext_at. Qed.

(** C17: the walk of arm64 ends for all register values, whatever the stack holds, and
    leaves the target memory as it is, when decoding the frames it meets ends: when some
    property [decodes] of the core says so and decoding keeps it.  Cycles of frame records
    and of signal contexts cannot hold the walk.  (Decoding itself, which may load the link
    maps of the target, runs for ever when their list is a cycle.) *)
Theorem arm64_WalkStack_terminates {M : Machine}
    (decode : NativeFrame -> prog CoreApi NativeFrame) `{!Decoder decode}
    (decodes : CoreApi -> Prop) k c regs n s :
  (forall f c', relinked c c' -> decodes c' ->
     ends_from (decode f) c' /\ decodes (fst (decode f c'))) ->
  decodes c -> space_ok c -> host_bytes (host_mem c) -> addressable c k ->
  Forall byte_ok regs -> 2 ^ 64 < Z.of_nat n -> 0 <= cur_frame_fp_ s < 2 ^ 64 ->
  ends (snd (arm64_WalkStack decode n regs (c, s))) /\
  relinked c (fst (fst (arm64_WalkStack decode n regs (c, s)))).
Proof.
  intros Hd Hdc Hc Hb Hk Hr Hn Hs.
  destruct (arm64_WalkStack_settles c Hc Hb k Hk decode decodes Hd n regs Hr Hn (c, s))
    as (H1 & H2 & _); [|split; [done|apply H1]].
  split; [split; [apply relinked_refl|done]|done].
Qed.

(** ** Witnesses

    A stack at 0x70000000 with two frame records; the thread's lr is the instruction after
    its pc. *)
Definition demo_stack : list Z :=
  le_bytes 8 0x70000010 ++ le_bytes 8 0x5004 ++
  le_bytes 8 0x70000020 ++ le_bytes 8 0x6004 ++
  le_bytes 8 0 ++ le_bytes 8 0.
Definition demo_thread : CoreApi := one_core 0x70000000 demo_stack.
Definition demo_regs : list Z :=
  replicate 232 0 ++ le_bytes 8 0x70000000 ++ le_bytes 8 0x4004 ++ le_bytes 8 0 ++
  le_bytes 8 0x4000 ++ le_bytes 8 0.

Lemma demo_thread_ok : space_ok demo_thread.
Proof. by apply one_core_ok; vm_compute; [split|lia]. Qed.

(** On a target without modules decoding a frame leaves it as it is. *)
Lemma demo_decode f :
  @Decode_frame arm64_Core Elf64 1 1 f demo_thread = (demo_thread, Ok f).
Proof.
  unfold Decode_frame, pbind, get, lift.
  assert (Hf : exists o, FindLoadBlock demo_thread (frame_pc f) false true = Ok o /\
    match o with Some id => mLinkMap (lb demo_thread id) | None => None end = None).
  { unfold FindLoadBlock. rewrite findLoadBlock_space by apply demo_thread_ok. cbn [rbind].
    eexists. split; [reflexivity|]. destruct (linear_find _ _ _) as [id|] eqn:E; [|done].
    apply linear_find_Some in E as [Hin _].
    by apply (one_quick 0x70000000 demo_stack) in Hin as ->. }
  destruct Hf as (o & -> & ->).
  assert (He : @ensure_maps arm64_Core Elf64 1 1 demo_thread = (demo_thread, Ok tt))
    by (vm_compute; reflexivity).
  by rewrite He.
Qed.

Lemma FpBacktrace_frames_witness :
  exists c' s' f callers,
    FpBacktrace (M := arm64_Core) (@Decode_frame arm64_Core Elf64 1 1) 4 demo_regs
      (demo_thread, new_UnwindStack) = ((c', s'), Ok tt) /\
    native_frames_ s' = f :: callers /\
    place_of f = (0x70000000, 0x4000) /\
    place_of <$> callers = [(0x70000010, 0x5000); (0x70000020, 0x6000)] /\ cur_num_ s' = 4.
Proof.
  destruct (@FpBacktrace_frames arm64_Core (@Decode_frame arm64_Core Elf64 1 1) _
    (eq demo_thread) demo_thread None demo_regs (Some 0x5004)
    [(0x70000010, 0x5000); (0x70000020, 0x6000)] new_UnwindStack 4)
    as (c' & s' & new & d & H & _ & Hp & Hb).
  - intros f c' <-. exists demo_thread, f. split; [apply demo_decode|done].
  - reflexivity.
  - apply demo_thread_ok.
  - vm_compute. reflexivity.
  - change (reg_at demo_regs 232 8) with 0x70000000.
    apply (walk_stack _ _ _ 0 0x70000010 0x5004); [vm_compute; by split|vm_compute; reflexivity..|].
    apply (@chain_caller arm64_Core demo_thread None 0 0x70000000 0x70000010 0x5004); [vm_compute; reflexivity|lia|vm_compute; reflexivity|].
    apply (@chain_caller arm64_Core demo_thread None 0 0x70000010 0x70000020 0x6004); [vm_compute; reflexivity|lia|vm_compute; reflexivity|].
    apply (chain_last demo_thread None 0 0x70000020 0 0); [vm_compute; reflexivity|left; lia].
  - cbn. lia.
  - cbn. lia.
  - exists c', s'. inversion Hb as [f cs E|f g cs ? Ef Eg Er El|f g cs ? Ef Eg Er El]; subst.
    + vm_compute in E. discriminate E.
    + exists f, cs. split_and!; [exact H|exact (pushed_frames _ _ _ _ Hp)|exact Ef|exact El|].
      rewrite (pushed_num _ _ _ _ Hp). reflexivity.
    + exfalso. unfold repeats in Er. apply orb_false_iff in Er as [_ Er].
      unfold place_of in Ef, Eg. injection Ef as _ Ef. injection Eg as _ Eg.
      rewrite Ef, Eg in Er. vm_compute in Er. discriminate Er.
Defined.

(** A stack of two pages with an x86 context on it. *)
Definition demo_context : list Z :=
  le_bytes 4 1 ++ le_bytes 4 0 ++ le_bytes 4 0x70000000 ++ le_bytes 4 0 ++ le_bytes 4 0x1000 ++
  replicate 28 0 ++ le_bytes 4 0x70000100 ++ replicate 180 0.
Definition demo_pages : list Z :=
  replicate 16 1 ++ demo_context ++ replicate (8192 - 16 - length demo_context) 1.
Definition demo_signal : CoreApi := one_core 0x70000000 demo_pages.

Lemma demo_signal_ok : space_ok demo_signal.
Proof. by apply one_core_ok; vm_compute; [split|lia]. Qed.

Lemma demo_signal_addressable : addressable demo_signal 39.
Proof.
  split; [lia|vm_compute; reflexivity|]. intros id Hin.
  apply (one_quick 0x70000000 demo_pages) in Hin as ->. vm_compute. split; [done|discriminate].
Qed.

Lemma GetUContext_first_witness :
  GetUContext 9000 x86_context x86_extra 0x70000004 (demo_signal, new_UnwindStack)
  = ((demo_signal, set_uc 0x70000010 new_UnwindStack), Ok 0x70000010).
Proof.
  rewrite (GetUContext_first 39 demo_signal new_UnwindStack 0 0x70000004 9000 x86_context
    x86_extra (x86_test demo_signal 0)).
  - assert (E : first_context x86_context (x86_test demo_signal 0) demo_signal 0 0x70000004
      = 0x70000010) by (vm_compute; reflexivity).
    rewrite E. reflexivity.
  - exact demo_signal_ok.
  - exact demo_signal_addressable.
  - constructor.
  - lia.
  - vm_compute. reflexivity.
  - vm_compute. reflexivity.
  - vm_compute. reflexivity.
  - vm_compute. reflexivity.
  - reflexivity.
Defined.

(** The walk with the real decoder. *)
Lemma arm64_WalkStack_terminates_witness :
  ends (snd (arm64_WalkStack (M := arm64_Core) (@Decode_frame arm64_Core Elf64 1 1)
    (Z.to_nat (2 ^ 64 + 1)) demo_regs (demo_thread, new_UnwindStack))).
Proof.
  refine (proj1 (@arm64_WalkStack_terminates arm64_Core (@Decode_frame arm64_Core Elf64 1 1) _
    (eq demo_thread) 39 demo_thread demo_regs (Z.to_nat (2 ^ 64 + 1)) new_UnwindStack
    _ eq_refl _ _ _ _ _ _)).
  - intros f c' _ <-. unfold ends_from. by rewrite demo_decode.
  - exact demo_thread_ok.
  - apply host_bytes_check. vm_compute. reflexivity.
  - split; [lia|vm_compute; reflexivity|]. intros id Hin.
    apply (one_quick 0x70000000 demo_stack) in Hin as ->. vm_compute. split; [done|discriminate].
  - unfold demo_regs. repeat (apply Forall_app; split); try apply le_bytes_ok.
    apply Forall_replicate. unfold byte_ok. lia.
  - rewrite Z2Nat.id; lia.
  - cbn. lia.
Defined.
