(* ===== verification/Threads.v ===== *)
(** Thread registers: the tables and [RegisterGet]/[RegisterSet] of thread_info.{h,cpp} of
    the machines (core/arm64, arm, x86_64, x86, riscv64), with [Utils::atol]
    (utils/base/utils.cpp).  A register is set in the thread and, through an overlay, in the
    NT_PRSTATUS note it came from; the theorems show that both stay equal. *)

From Stdlib Require Import ZArith Lia Bool.
From stdpp Require Import base list gmap numbers strings.
From S2P Require Import Prelude Words Host Blocks Notes CoreApi Segments AddressSpace MemRef Elf.
From S2P Require Import CoreLoad Modules Unwind.
Open Scope Z_scope.

(** * Tables *)

(** [struct ThreadApi::RegsMap]. *)
Record RegsMap := MkRegs { rm_regs : list Z; rm_offset : Z; rm_size : Z }.

(** Consecutive members of [Register] of [w] bytes, from offset [off] on. *)
Fixpoint members (w off : Z) (names : list string) : list RegsMap :=
  match names with
  | [] => []
  | s :: l => MkRegs (chars s) off w :: members w (off + w) l
  end.

Definition arm64_kMap : list RegsMap :=
  members 8 0
    ["x0"; "x1"; "x2"; "x3"; "x4"; "x5"; "x6"; "x7"; "x8"; "x9"; "x10"; "x11"; "x12"; "x13";
     "x14"; "x15"; "x16"; "x17"; "x18"; "x19"; "x20"; "x21"; "x22"; "x23"; "x24"; "x25";
     "x26"; "x27"; "x28"; "x29"]%string ++
  members 8 232 ["fp"; "lr"; "sp"; "pc"]%string ++
  members 8 264 ["cpsr"]%string ++ members 8 264 ["pst"]%string.
Definition arm_kMap : list RegsMap :=
  members 4 0
    ["r0"; "r1"; "r2"; "r3"; "r4"; "r5"; "r6"; "r7"; "r8"; "r9"; "r10"; "r11"; "r12"; "sp";
     "lr"; "pc"; "cpsr"]%string.
Definition x86_64_kMap : list RegsMap :=
  members 8 0
    ["r15"; "r14"; "r13"; "r12"; "rbp"; "rbx"; "r11"; "r10"; "r9"; "r8"; "rax"; "rcx"; "rdx";
     "rsi"; "rdi"; "orig_rax"; "rip"]%string ++
  members 8 152 ["rsp"]%string ++ members 8 144 ["flags"]%string ++
  members 4 184 ["ds"]%string ++ members 4 192 ["es"]%string ++ members 4 200 ["fs"]%string ++
  members 4 208 ["gs"]%string ++ members 4 136 ["cs"]%string ++ members 4 160 ["ss"]%string.
Definition x86_kMap : list RegsMap :=
  members 4 0 ["ebx"; "ecx"; "edx"; "esi"; "edi"; "ebp"; "eax"]%string ++
  members 4 48 ["eip"]%string ++ members 4 60 ["esp"]%string ++
  members 4 56 ["eflags"]%string ++ members 4 44 ["orig_eax"]%string ++
  members 2 28 ["ds"]%string ++ members 2 32 ["es"]%string ++ members 2 36 ["fs"]%string ++
  members 2 40 ["gs"]%string ++ members 2 52 ["cs"]%string ++ members 2 64 ["ss"]%string.
Definition riscv64_kMap : list RegsMap :=
  members 8 0
    ["pc"; "ra"; "sp"; "gp"; "tp"; "t0"; "t1"; "t2"; "s0"; "s1"; "a0"; "a1"; "a2"; "a3";
     "a4"; "a5"; "a6"; "a7"; "s2"; "s3"; "s4"; "s5"; "s6"; "s7"; "s8"; "s9"; "s10"; "s11";
     "t3"; "t4"; "t5"; "t6"]%string.

(** * Text *)

(** [strtok(s, sep)]: the token and what the next call goes on with. *)
Fixpoint skip_sep (sep : Z) (s : list Z) : list Z :=
  match s with
  | b :: t => if b =? sep then skip_sep sep t else s
  | [] => []
  end.
Fixpoint until_sep (sep : Z) (s : list Z) : list Z * list Z :=
  match s with
  | [] => ([], [])
  | b :: t => if b =? sep then ([], t) else let '(x, y) := until_sep sep t in (b :: x, y)
  end.
Definition strtok (sep : Z) (s : list Z) : option (list Z) * list Z :=
  match skip_sep sep s with
  | [] => (None, [])
  | s => let '(x, y) := until_sep sep s in (Some x, y)
  end.

(** A hexadecimal digit. *)
Definition hex_digit (b : Z) : option Z :=
  if (48 <=? b) && (b <=? 57) then Some (b - 48)
  else if (97 <=? b) && (b <=? 102) then Some (b - 87)
  else if (65 <=? b) && (b <=? 70) then Some (b - 55)
  else None.
Definition isspace (b : Z) : bool := (b =? 32) || ((9 <=? b) && (b <=? 13)).
Fixpoint skip_space (s : list Z) : list Z :=
  match s with
  | b :: t => if isspace b then skip_space t else s
  | [] => []
  end.
(** The digits in front of [s]; [None] before the first. *)
Fixpoint hex_digits (s : list Z) (acc : option Z) : option Z :=
  match s with
  | [] => acc
  | b :: t => match hex_digit b with
              | Some d => hex_digits t (Some (16 * default 0 acc + d))
              | None => acc
              end
  end.
Definition strip_0x (s : list Z) : list Z :=
  match s with
  | 48 :: x :: t => if (x =? 120) || (x =? 88) then t else s
  | _ => s
  end.
(** What [sscanf] converts by PRIx64: white space, a sign, the prefix 0x, the digits; a value
    that does not fit is ULLONG_MAX.  [None]: nothing is assigned. *)
Definition sscanf_PRIx64 (s : list Z) : option Z :=
  let s := skip_space s in
  let '(neg, s) := match s with
                   | 45 :: t => (true, t)
                   | 43 :: t => (false, t)
                   | _ => (false, s)
                   end in
  let? v := hex_digits (strip_0x s) None in
  Some (if 2 ^ 64 <=? v then 2 ^ 64 - 1 else if neg : bool then u64 (- v) else v).

(** [Utils::atol(src)]; [junk] is the uninitialised [value]. *)
Definition atol (junk : Z) (src : list Z) : Z := default junk (sscanf_PRIx64 src).

(** * Registers of a machine *)

Record Registers := {
  kMap : list RegsMap;
  access : Z -> Z;                  (* bytes of the integer a register of that size is read as *)
  value_size : Z;                   (* sizeof(value) *)
  reg_bytes : Z;                    (* sizeof(Register) *)
  pr_reg : Z;                       (* offsetof(ElfN_prstatus, pr_reg) *)
  context_end : Z;                  (* end of the registers in struct ucontext *)
  context_regs : list Z -> CoreApi -> Z -> result (list Z);
  find_context : nat -> list Z -> prog CoreApi Z;
}.

(** [UnwindStack stack(this); stack.GetUContext()]. *)
Definition fresh_stack (m : prog walk Z) : prog CoreApi Z := fun c =>
  let '(w, r) := m (c, new_UnwindStack) in (fst w, r).

Definition riscv64_uc_regs (c : CoreApi) (p : Z) : result (list Z) :=
  host_load (host_mem c) (u64 (p + 176)) 256.

Definition arm64_registers : Registers :=
  {| kMap := arm64_kMap; access := fun _ => 8; value_size := 8; reg_bytes := 272; pr_reg := 112;
     context_end := 176 + 8 + 272; context_regs := fun _ => arm64_uc_regs;
     find_context := fun n regs =>
       fresh_stack (GetUContext n arm64_context arm64_extra (reg_at regs 248 8)) |}.
Definition arm_registers : Registers :=
  {| kMap := arm_kMap; access := fun _ => 4; value_size := 4; reg_bytes := 68; pr_reg := 72;
     context_end := 20 + 12 + 68; context_regs := fun _ => arm_uc_regs;
     find_context := fun n regs =>
       fresh_stack (GetUContext n arm_context arm_extra (reg_at regs 52 4)) |}.
Definition x86_64_registers : Registers :=
  {| kMap := x86_64_kMap; access := fun s => if s =? 8 then 8 else 4; value_size := 8;
     reg_bytes := 216; pr_reg := 112; context_end := 40 + 152; context_regs := x86_64_uc_regs;
     find_context := fun n regs =>
       fresh_stack (GetUContext n x86_64_context x86_64_extra (reg_at regs 152 8)) |}.
Definition x86_registers : Registers :=
  {| kMap := x86_kMap; access := fun s => if s =? 4 then 4 else 2; value_size := 4;
     reg_bytes := 68; pr_reg := 72; context_end := 20 + 80; context_regs := x86_uc_regs;
     find_context := fun n regs =>
       fresh_stack (GetUContext n x86_context x86_extra (reg_at regs 60 4)) |}.
Definition riscv64_registers : Registers :=
  {| kMap := riscv64_kMap; access := fun _ => 8; value_size := 8; reg_bytes := 256;
     pr_reg := 112; context_end := 176 + 0 + 256; context_regs := fun _ => riscv64_uc_regs;
     find_context := fun _ _ => pret 0 |}.

(** [reinterpret_cast<uintN_t*>(&reg) + offset / w]: a byte offset. *)
Definition cast_offset (offset w : Z) : Z := offset / w * w.

(** [ThreadApi] with new registers. *)
Definition with_reg (regs : list Z) (t : ThreadApi) : ThreadApi :=
  MkThread (mPid t) (mPrs t) regs (t_fpr t) (t_tls t).
Definition set_thread (i : nat) (t : ThreadApi) (b : NoteBlock) : NoteBlock :=
  MkNoteBlock b (<[i := t]> (mThread b)) (mAuxv b) (mFile b) (mAuxvMax b).

Section Registers.
Context `{Os} (R : Registers).

(** The loop over [kMap]. *)
Definition find_reg (name : list Z) : option RegsMap :=
  snd <$> list_find (fun e => rm_regs e = name) (kMap R).

(** [ThreadInfo::RegisterGet(regs)]. *)
Definition RegisterGet (t : ThreadApi) (name : list Z) : Z :=
  match find_reg name with
  | Some e => let w := access R (rm_size e) in reg_at (t_reg t) (cast_offset (rm_offset e) w) w
  | None => 0
  end.

(** [reg = regs; block()->setOverlay(prs() + pr_reg + offset, buf, size)] of thread [i] of
    note [j]. *)
Definition put_regs (j i : nat) (regs : list Z) (offset : Z) (buf : list Z)
    : prog CoreApi unit := fun c =>
  match mNote c !! j with
  | None => (c, Fault)
  | Some b =>
      match mThread b !! i with
      | None => (c, Fault)
      | Some t =>
          let b := set_thread i (with_reg regs t) b in
          match note_setOverlay (host_mem c) b (u64 (mPrs t + pr_reg R + offset)) buf with
          | Ok (h, b) => (with_host (with_notes c (<[j := b]> (mNote c))) h, Ok tt)
          | Throw p => (with_notes c (<[j := b]> (mNote c)), Throw p)
          | Fault => (with_notes c (<[j := b]> (mNote c)), Fault)
          | OutOfFuel => (with_notes c (<[j := b]> (mNote c)), OutOfFuel)
          end
      end
  end.

Definition thread_of (c : CoreApi) (j i : nat) : result ThreadApi :=
  of_option (let? b := mNote c !! j in mThread b !! i).

(** The ["ucontext"] branch: the registers of a signal context, given or searched for;
    [junk] is the uninitialised [uc_regs] of x86_64 and x86. *)
Definition set_from_context (n : nat) (junk : list Z) (j i : nat) (value : Z)
    : prog CoreApi unit :=
  let$ c := get in
  let$ t := lift (thread_of c j i) in
  let$ r := lift (IsValid c (ref_at value)) in
  let$ uc :=
    (if snd r : bool then pret (fst r)
     else let$ a := find_context R n (t_reg t) in pret (ref_at a)) in
  let$ c := get in
  let$ r := lift (IsValid c uc) in
  match ref_block (fst r) with
  | Some id =>
      if snd r && virtualContains (lb c id) (u64 (vaddr (fst r) + context_end R)) then
        let$ p := lift (Real c (fst r)) in
        let$ regs := lift (context_regs R junk c (snd p)) in
        put_regs j i regs 0 regs
      else pret tt
  | None => pret tt
  end.

(** [ThreadInfo::RegisterSet(command)]; [junk_value] is the uninitialised integer of
    [Utils::atol]. *)
Definition RegisterSet (n : nat) (junk : list Z) (junk_value : Z) (j i : nat)
    (command : list Z) : prog CoreApi unit :=
  match strtok 61 command with
  | (None, _) => pret tt
  | (Some name, rest) =>
      let value := match strtok 61 rest with
                   | (Some token, _) => wrap (8 * value_size R) (atol junk_value token)
                   | (None, _) => 0
                   end in
      if bool_decide (name = chars "ucontext") then set_from_context n junk j i value
      else
        match find_reg name with
        | None => pret tt
        | Some e =>
            let$ c := get in
            let$ t := lift (thread_of c j i) in
            let w := access R (rm_size e) in
            put_regs j i (splice (Z.to_nat (cast_offset (rm_offset e) w)) (le_bytes (Z.to_nat w) value)
                            (t_reg t))
              (rm_offset e) (le_bytes (Z.to_nat (rm_size e)) value)
        end
  end.
End Registers.
