(* ===== verification/ThreadsProofs.v ===== *)
(** Theorems on the registers of a thread ([Threads]): [RegisterSet] changes one register of
    the thread and the same bytes of the NT_PRSTATUS note, so both stay equal. *)

From Stdlib Require Import ZArith Lia Bool.
From stdpp Require Import base list gmap numbers strings.
From S2P Require Import Prelude Words Host Blocks Notes CoreApi Segments AddressSpace MemRef Elf.
From S2P Require Import CoreLoad Modules Unwind Threads.
Open Scope Z_scope.

(** * What a note shows *)

(** The note presents the bytes [bs]: those of the core file, or its overlay. *)
Definition note_shows (h : host) (b : NoteBlock) (bs : list Z) : Prop :=
  Z.of_nat (length bs) = mFileSize b /\ 0 < mFileSize b /\
  match mOverlay b with
  | Some o => 0 < mBegin o /\ mBegin o + mFileSize b < 2 ^ 64 /\
              owns h (mBegin o) (mFileSize b) bs
  | None => mOriAddr b <> 0 /\ host_load h (mOriAddr b) (mFileSize b) = Ok bs
  end.

Section NoteFacts.
Context `{OsLaws}.

(** The copy a note makes of itself before the first write. *)
Lemma note_newOverlay_shows (h : host) (b : NoteBlock) bs :
  note_shows h b bs -> mOverlay b <> None \/ os_mmap h (mFileSize b) <> None ->
  exists h1 o, note_newOverlay h b = Ok (h1, note_on_block (setOverlay_block (Some o)) b, true) /\
    note_shows h1 (note_on_block (setOverlay_block (Some o)) b) bs.
Proof.
  intros (Hlen & Hpos & Hv) Hav. unfold note_newOverlay.
  destruct (mOverlay b) as [o|] eqn:Eo.
  - exists h, o. assert (E : note_on_block (setOverlay_block (Some o)) b = b).
    { destruct b as [[] ? ? ? ?]. cbn in Eo |- *. unfold note_on_block, setOverlay_block. cbn.
      by rewrite Eo. }
    rewrite E. split; [done|]. unfold note_shows. by rewrite Eo.
  - destruct Hav as [|Hav]; [done|]. destruct Hv as [Hori Hl].
    destruct (os_mmap h (mFileSize b)) as [a|] eqn:Ea; [|done].
    assert (Hb : note_begin b OPT_READ_ALL = mOriAddr b).
    { unfold note_begin. rewrite Eo. unfold nz. destruct (Z.eqb_spec (mOriAddr b) 0); [done|].
      done. }
    rewrite Hb.
    destruct (MmapMem_total h (mOriAddr b) (mFileSize b) (mFileSize b) bs a Ea Hl ltac:(lia))
      as (h1 & m & E).
    destruct (MmapMem_spec _ _ _ _ _ _ _ E Hl ltac:(lia)) as (M1 & M2 & M3 & M4 & _).
    exists h1, m. rewrite E. cbn. split; [done|]. split_and!; [done..|].
    by rewrite Z.sub_diag, app_nil_r in M4.
Qed.

(** A write through [NoteBlock::setOverlay]. *)
Lemma note_setOverlay_shows (h : host) (b : NoteBlock) bs addr buf :
  note_shows h b bs -> mOverlay b <> None \/ os_mmap h (mFileSize b) <> None ->
  (0 < length buf)%nat -> mOriAddr b <= addr ->
  addr - mOriAddr b + Z.of_nat (length buf) <= mFileSize b ->
  exists h' o, note_setOverlay h b addr buf
      = Ok (h', note_on_block (setOverlay_block (Some o)) b) /\
    note_shows h' (note_on_block (setOverlay_block (Some o)) b)
      (splice (Z.to_nat (addr - mOriAddr b)) buf bs).
Proof.
  intros Hs Hav Hbuf Ha He.
  destruct (note_newOverlay_shows h b bs Hs Hav) as (h1 & o & E & Hlen & Hpos & Ho1 & Ho2 & Hown).
  unfold note_setOverlay. rewrite E. cbn [rbind note_on_block nb_block setOverlay_block].
  cbn in Hlen, Hpos, Ho2, Hown. cbn.
  rewrite wrap_small by lia.
  destruct (owns_store _ _ _ _ (mBegin o + (addr - mOriAddr b)) buf Hown Hbuf)
    as (h2 & E2 & Hown2); [lia..|].
  replace (mBegin o + (addr - mOriAddr b) - mBegin o) with (addr - mOriAddr b) in Hown2 by lia.
  rewrite E2. exists h2, o. split; [done|]. split_and!; cbn; [|done..].
  rewrite splice_length by lia. done.
Qed.
End NoteFacts.

(** Overwriting inside a window of a list. *)
Lemma splice_window (d n off : nat) (buf l : list Z) :
  (off + length buf <= n)%nat -> (d + n <= length l)%nat ->
  take n (drop d (splice (d + off) buf l)) = splice off buf (take n (drop d l)).
Proof.
  intros H1 H2. assert (Hw : length (take n (drop d l)) = n)
    by (rewrite length_take, length_drop; lia).
  apply list_eq. intros i. rewrite splice_lookup by lia.
  destruct (decide (i < n)%nat).
  - rewrite !lookup_take_lt, lookup_drop, splice_lookup by lia. rewrite lookup_drop.
    repeat case_decide; try lia; [|done]. f_equal. lia.
  - rewrite !lookup_take_ge by lia. case_decide; [lia|done].
Qed.

(** * The register tables *)

Inductive machine_registers : Registers -> Prop :=
  | is_arm64 : machine_registers arm64_registers
  | is_arm : machine_registers arm_registers
  | is_x86_64 : machine_registers x86_64_registers
  | is_x86 : machine_registers x86_registers
  | is_riscv64 : machine_registers riscv64_registers.

(** One row of a table: an aligned member of [Register], read as an integer of its size,
    with a name that the command syntax can express and that finds this row. *)
Definition row_ok (R : Registers) (e : RegsMap) : bool :=
  (0 <? rm_size e) && (access R (rm_size e) =? rm_size e) &&
  (cast_offset (rm_offset e) (rm_size e) =? rm_offset e) && (0 <=? rm_offset e) &&
  (rm_offset e + rm_size e <=? reg_bytes R) && (rm_size e <=? value_size R) &&
  forallb (fun b => negb (b =? 61)) (rm_regs e) && bool_decide (rm_regs e <> []) &&
  bool_decide (rm_regs e <> chars "ucontext") &&
  match find_reg R (rm_regs e) with
  | Some e' => (rm_offset e' =? rm_offset e) && (rm_size e' =? rm_size e)
  | None => false
  end.
(** Two rows are the same register or do not overlap. *)
Definition rows_apart (e f : RegsMap) : bool :=
  (rm_offset e =? rm_offset f) && (rm_size e =? rm_size f) ||
  (rm_offset e + rm_size e <=? rm_offset f) || (rm_offset f + rm_size f <=? rm_offset e).
Definition table_ok (R : Registers) : bool :=
  forallb (row_ok R) (kMap R) &&
  forallb (fun e => forallb (rows_apart e) (kMap R)) (kMap R).

Lemma tables_ok R : machine_registers R -> table_ok R = true.
Proof. intros []; vm_compute; reflexivity. Qed.

Record row_facts (R : Registers) (e : RegsMap) : Prop := {
  row_size : 0 < rm_size e <= value_size R;
  row_access : access R (rm_size e) = rm_size e;
  row_slot : cast_offset (rm_offset e) (rm_size e) = rm_offset e;
  row_range : 0 <= rm_offset e /\ rm_offset e + rm_size e <= reg_bytes R;
  row_name : Forall (fun b => b <> 61) (rm_regs e) /\ rm_regs e <> [];
  row_plain : rm_regs e <> chars "ucontext";
  row_found : exists e', find_reg R (rm_regs e) = Some e' /\
    rm_offset e' = rm_offset e /\ rm_size e' = rm_size e;
}.

Lemma row_of R e : machine_registers R -> e ∈ kMap R -> row_facts R e.
Proof.
  intros HR He. apply tables_ok in HR. apply andb_true_iff in HR as [HR _].
  rewrite forallb_forall in HR. specialize (HR e). rewrite <- list_elem_of_In in HR.
  specialize (HR He). unfold row_ok in HR. to_prop.
  destruct (find_reg R (rm_regs e)) as [e'|] eqn:Ef; [|done]. to_prop.
  split; [lia|done|done|lia| |by eapply bool_decide_eq_true_1|].
  - split; [|by eapply bool_decide_eq_true_1]. apply Forall_elem. intros b Hb.
    match goal with H : forallb _ (rm_regs e) = true |- _ =>
      rewrite forallb_forall in H; specialize (H b); rewrite <- list_elem_of_In in H;
      specialize (H Hb) end. by to_prop.
  - by exists e'.
Qed.

Lemma rows_of R e f : machine_registers R -> e ∈ kMap R -> f ∈ kMap R ->
  rm_offset e <> rm_offset f ->
  rm_offset e + rm_size e <= rm_offset f \/ rm_offset f + rm_size f <= rm_offset e.
Proof.
  intros HR He Hf Hne. apply tables_ok in HR. apply andb_true_iff in HR as [_ HR].
  rewrite forallb_forall in HR. specialize (HR e). rewrite <- list_elem_of_In in HR.
  specialize (HR He). cbv beta in HR. rewrite forallb_forall in HR. specialize (HR f).
  rewrite <- list_elem_of_In in HR. specialize (HR Hf). unfold rows_apart in HR.
  apply orb_true_iff in HR as [HR|HR]; [|to_prop; lia].
  apply orb_true_iff in HR as [HR|HR]; to_prop; lia.
Qed.

(** * Reading and writing a register *)

Section RegisterFacts.
Context (R : Registers) (HR : machine_registers R).

Lemma RegisterGet_row t e : e ∈ kMap R ->
  RegisterGet R t (rm_regs e) = reg_at (t_reg t) (rm_offset e) (rm_size e).
Proof.
  intros He. destruct (row_of R e HR He) as [_ Ha Hs _ _ _ (e' & Hf & Eo & Es)].
  unfold RegisterGet. by rewrite Hf, Eo, Es, Ha, Hs.
Qed.

(** The stored value is read back, rows that do not overlap keep theirs. *)
Lemma reg_at_splice regs off w v : 0 <= off -> 0 < w -> off + w <= Z.of_nat (length regs) ->
  reg_at (splice (Z.to_nat off) (le_bytes (Z.to_nat w) v) regs) off w = v mod 2 ^ (8 * w).
Proof.
  intros Ho Hw Hl. unfold reg_at. pose proof (le_bytes_length (Z.to_nat w) v) as Hlen.
  rewrite <- Hlen at 1. rewrite splice_same by lia.
  rewrite le_value_bytes. by rewrite Z2Nat.id by lia.
Qed.
Lemma reg_at_other regs off w v off' w' : 0 <= off -> 0 < w ->
  off + w <= Z.of_nat (length regs) -> 0 <= off' -> 0 < w' ->
  off + w <= off' \/ off' + w' <= off ->
  reg_at (splice (Z.to_nat off) (le_bytes (Z.to_nat w) v) regs) off' w' = reg_at regs off' w'.
Proof.
  intros Ho Hw Hl Ho' Hw' Hd. unfold reg_at.
  rewrite splice_outside; [done| |]; rewrite le_bytes_length; lia.
Qed.
End RegisterFacts.

(** ** The command *)

Lemma until_sep_token sep x y : Forall (fun b => b <> sep) x ->
  until_sep sep (x ++ sep :: y) = (x, y) /\ until_sep sep x = (x, []).
Proof.
  induction 1 as [|b x Hb _ [IH1 IH2]]; cbn; [by rewrite Z.eqb_refl|].
  destruct (Z.eqb_spec b sep); [done|]. by rewrite IH1, IH2.
Qed.
Lemma strtok_token sep x y : Forall (fun b => b <> sep) x -> x <> [] ->
  strtok sep (x ++ sep :: y) = (Some x, y) /\ strtok sep x = (Some x, []).
Proof.
  intros Hx Hne. destruct (until_sep_token sep x y Hx) as [H1 H2].
  destruct x as [|b x]; [done|]. apply Forall_cons_1 in Hx as [Hb _].
  unfold strtok. cbn [app skip_sep]. destruct (Z.eqb_spec b sep); [done|].
  rewrite app_comm_cons, H1, H2. done.
Qed.

(** * Threads and their note *)

(** The registers of [t] are the bytes of pr_reg in its note. *)
Record mirrors (R : Registers) (b : NoteBlock) (t : ThreadApi) (bs : list Z) : Prop := {
  mirror_start : mOriAddr b <= mPrs t + pr_reg R;
  mirror_end : mPrs t + pr_reg R + reg_bytes R - mOriAddr b <= mFileSize b;
  mirror_word : 0 <= mPrs t /\ mPrs t + pr_reg R + reg_bytes R < 2 ^ 64;
  mirror_regs : t_reg t = take (Z.to_nat (reg_bytes R))
                            (drop (Z.to_nat (mPrs t + pr_reg R - mOriAddr b)) bs);
}.

(** Thread [i] of note [j] is [t], the note is [b] and shows [bs], and they agree. *)
Definition thread_at (R : Registers) (c : CoreApi) (j i : nat) (b : NoteBlock)
    (t : ThreadApi) (bs : list Z) : Prop :=
  mNote c !! j = Some b /\ mThread b !! i = Some t /\ note_shows (host_mem c) b bs /\
  mirrors R b t bs.

Section Setting.
Context `{OsLaws} (R : Registers) (HR : machine_registers R).

Lemma machine_sizes : 0 <= pr_reg R /\ 0 <= reg_bytes R.
Proof. destruct HR; cbn; lia. Qed.

Lemma mirrors_length b t bs c j i :
  thread_at R c j i b t bs -> Z.of_nat (length (t_reg t)) = reg_bytes R.
Proof.
  intros (_ & _ & (Hl & _) & [H1 H2 H3 ->]). pose proof machine_sizes.
  rewrite length_take, length_drop. lia.
Qed.

(** Writing [buf] at [off] of the registers, in the thread and in the note. *)
Lemma put_regs_mirrors c j i b t bs off buf :
  thread_at R c j i b t bs ->
  mOverlay b <> None \/ os_mmap (host_mem c) (mFileSize b) <> None ->
  (0 < length buf)%nat -> 0 <= off -> off + Z.of_nat (length buf) <= reg_bytes R ->
  exists c' b' t' bs',
    put_regs R j i (splice (Z.to_nat off) buf (t_reg t)) off buf c = (c', Ok tt) /\
    thread_at R c' j i b' t' bs' /\ mOverlay b' <> None /\
    t_reg t' = splice (Z.to_nat off) buf (t_reg t) /\
    bs' = splice (Z.to_nat (mPrs t + pr_reg R - mOriAddr b + off)) buf bs.
Proof.
  intros Hat Hav Hbuf Ho He. pose proof machine_sizes as [Hp1 Hp2].
  destruct Hat as (Hb & Ht & Hs & Hm). pose proof Hm as [M1 M2 M3 M4].
  set (regs := splice (Z.to_nat off) buf (t_reg t)).
  set (b1 := set_thread i (with_reg regs t) b).
  destruct (note_setOverlay_shows (host_mem c) b1 bs (mPrs t + pr_reg R + off) buf)
    as (h' & o & E & Hs'); [exact Hs|exact Hav|done|cbn; lia|cbn; lia|].
  set (b2 := note_on_block (setOverlay_block (Some o)) b1) in *.
  exists (with_host (with_notes c (<[j:=b2]> (mNote c))) h'), b2, (with_reg regs t).
  eexists. split; [|split; [|split; [|split]]].
  - unfold put_regs. rewrite Hb, Ht. fold b1. rewrite wrap_small by lia. by rewrite E.
  - split_and!; cbn [mNote with_notes with_host host_mem].
    + apply list_lookup_insert_eq. by eapply lookup_lt_Some.
    + cbn. apply list_lookup_insert_eq. by eapply lookup_lt_Some.
    + exact Hs'.
    + destruct Hs as (Hl & _). split; cbn; try done. unfold regs. rewrite M4.
      replace (Z.to_nat (mPrs t + pr_reg R + off - mOriAddr b))
        with (Z.to_nat (mPrs t + pr_reg R - mOriAddr b) + Z.to_nat off)%nat by lia.
      by rewrite splice_window by lia.
  - done.
  - done.
  - cbn. do 2 f_equal. lia.
Qed.

Lemma RegisterSet_at n junk junk_value c j i b t bs e tok :
  thread_at R c j i b t bs ->
  mOverlay b <> None \/ os_mmap (host_mem c) (mFileSize b) <> None ->
  e ∈ kMap R -> Forall (fun x => x <> 61) tok -> tok <> [] ->
  exists c' b' t' bs',
    RegisterSet R n junk junk_value j i (rm_regs e ++ 61 :: tok) c = (c', Ok tt) /\
    thread_at R c' j i b' t' bs' /\
    RegisterGet R t' (rm_regs e) = wrap (8 * rm_size e) (atol junk_value tok) /\
    (forall f, f ∈ kMap R -> rm_offset f <> rm_offset e ->
       RegisterGet R t' (rm_regs f) = RegisterGet R t (rm_regs f)).
Proof.
  intros Hat Hav He Htok Hne.
  destruct (row_of R e HR He) as [Hsz Hacc Hslot Hrg [Hn1 Hn2] Hpl (e' & Hf & Eo & Es)].
  pose proof (mirrors_length _ _ _ _ _ _ Hat) as Hlen.
  set (v := wrap (8 * value_size R) (atol junk_value tok)).
  destruct (put_regs_mirrors c j i b t bs (rm_offset e) (le_bytes (Z.to_nat (rm_size e)) v))
    as (c' & b' & t' & bs' & E & Hat' & _ & Et & _);
    [done|done|rewrite le_bytes_length; lia|lia|rewrite le_bytes_length; lia|].
  exists c', b', t', bs'. split; [|split; [done|split]].
  - unfold RegisterSet. rewrite (proj1 (strtok_token 61 (rm_regs e) tok Hn1 Hn2)).
    rewrite (proj2 (strtok_token 61 tok [] Htok Hne)). fold v.
    rewrite bool_decide_false by done. rewrite Hf, Eo, Es, Hacc, Hslot.
    unfold pbind, get, lift, thread_of. destruct Hat as (-> & Ht & _). rewrite Ht.
    exact E.
  - rewrite (RegisterGet_row R HR) by done. rewrite Et, reg_at_splice by lia. unfold v, wrap.
    apply Z.mod_mod_divide. exists (2 ^ (8 * value_size R - 8 * rm_size e)).
    rewrite <- Z.pow_add_r by lia. f_equal. lia.
  - intros f Hfin Hneq. rewrite !(RegisterGet_row R HR) by done. rewrite Et.
    destruct (row_of R f HR Hfin) as [Hfs _ _ Hfr _ _ _].
    apply reg_at_other; try lia. apply (rows_of R); done || congruence.
Qed.
End Setting.

(** * Properties *)

(** C13: [RegisterSet("r=v")] on every machine, for every register of its table: the thread
    keeps mirroring the registers of its NT_PRSTATUS note (the invariant a written dump relies
    on), [RegisterGet] answers the low bits of the value, and every other register keeps its
    value. *)
Theorem RegisterSet_register `{OsLaws} R n junk junk_value c j i b t bs e tok :
  machine_registers R -> thread_at R c j i b t bs ->
  mOverlay b <> None \/ os_mmap (host_mem c) (mFileSize b) <> None ->
  e ∈ kMap R -> Forall (fun x => x <> 61) tok -> tok <> [] ->
  exists c' b' t' bs',
    RegisterSet R n junk junk_value j i (rm_regs e ++ 61 :: tok) c = (c', Ok tt) /\
    thread_at R c' j i b' t' bs' /\
    RegisterGet R t' (rm_regs e) = wrap (8 * rm_size e) (atol junk_value tok) /\
    (forall f, f ∈ kMap R -> rm_offset f <> rm_offset e ->
       RegisterGet R t' (rm_regs f) = RegisterGet R t (rm_regs f)).
Proof. intros HR. by apply RegisterSet_at. Qed.

(** ** Witness

    A core with one note of 160 bytes at 0x20000 that holds the prstatus of an arm thread at
    offset 8; "r3=0x1F" is set. *)
Definition demo_note_bytes : list Z := replicate 160 7.
Definition demo_arm_thread : ThreadApi := MkThread 1 0x20008 (replicate 68 7) [] [].
Definition demo_note : NoteBlock :=
  MkNoteBlock (MkBlock 0 0 0 0 160 0 4 0x20000 false false None) [demo_arm_thread] [] [] 0.
Definition demo_note_core : CoreApi :=
  with_notes (NewCore (Build_MemoryMap [] 0x20000 160 0 0) true [Region 0x20000 false demo_note_bytes])
    [demo_note].

Lemma RegisterSet_register_witness :
  exists c' b' t', @RegisterSet bump_os arm_registers 0 [] 0 0 0 (chars "r3=0x1F") demo_note_core
      = (c', Ok tt) /\
    mNote c' !! 0%nat = Some b' /\ mThread b' !! 0%nat = Some t' /\
    RegisterGet arm_registers t' (chars "r3") = 0x1F /\
    RegisterGet arm_registers t' (chars "r4") = 0x07070707.
Proof.
  destruct (@RegisterSet_register bump_os bump_os_laws arm_registers 0 [] 0 demo_note_core 0 0
    demo_note demo_arm_thread demo_note_bytes (MkRegs (chars "r3") 12 4) (chars "0x1F"))
    as (c' & b' & t' & bs' & E & (Hb & Ht & _) & Hg & Ho).
  - constructor.
  - split_and!; [reflexivity|reflexivity| |].
    + split_and!; [reflexivity|reflexivity|]. cbn. split; [discriminate|].
      vm_compute. reflexivity.
    + split; [cbn; lia|cbn; lia|cbn; lia|vm_compute; reflexivity].
  - right. vm_compute. discriminate.
  - apply (list_elem_of_lookup_2 _ 3%nat). reflexivity.
  - repeat constructor; discriminate.
  - discriminate.
  - exists c', b', t'. split_and!; [exact E|exact Hb|exact Ht| |].
    + etransitivity; [exact Hg|vm_compute; reflexivity].
    + etransitivity; [apply (Ho (MkRegs (chars "r4") 16 4)); [|discriminate]|].
      * apply (list_elem_of_lookup_2 _ 4%nat). reflexivity.
      * vm_compute. reflexivity.
Defined.
