(* ===== verification/Utf.v ===== *)
(** Java strings as text: android/art/dex/utf.cpp, which turns the UTF-16 units of a
    [java.lang.String] into the bytes of modified UTF-8.

    A string is the list of its units, a text the list of its bytes. *)

From Stdlib Require Import ZArith Lia Bool.
From stdpp Require Import base list numbers.
From S2P Require Import Prelude.
Open Scope Z_scope.

(** * The code *)

(** [CountUtf8Bytes(chars, char_count)]. *)
Fixpoint CountUtf8Bytes (chars : list Z) : Z :=
  match chars with
  | [] => 0
  | ch :: rest =>
      if negb (ch =? 0) && (ch <? 0x80) then 1 + CountUtf8Bytes rest
      else if ch <? 0x800 then 2 + CountUtf8Bytes rest
      else if (0xd800 <=? ch) && (ch <? 0xdc00) then
        match rest with
        | ch2 :: rest' =>
            if (0xdc00 <=? ch2) && (ch2 <? 0xe000) then 4 + CountUtf8Bytes rest'
            else 3 + CountUtf8Bytes rest
        | [] => 3
        end
      else 3 + CountUtf8Bytes rest
  end.

(** The bytes of a unit that is not a byte itself, and of a pair of surrogates; stores go to
    [char]. *)
Definition encode_unit (ch : Z) : list Z :=
  if 0x07ff <? ch then
    [u8 (Z.lor (Z.shiftr ch 12) 0xe0); u8 (Z.lor (Z.land (Z.shiftr ch 6) 0x3f) 0x80);
     u8 (Z.lor (Z.land ch 0x3f) 0x80)]
  else [u8 (Z.lor (Z.shiftr ch 6) 0xc0); u8 (Z.lor (Z.land ch 0x3f) 0x80)].
Definition encode_pair (ch ch2 : Z) : list Z :=
  let code_point := u32 (Z.shiftl ch 10 + ch2 - 0x035fdc00) in
  [u8 (Z.lor (Z.shiftr code_point 18) 0xf0);
   u8 (Z.lor (Z.land (Z.shiftr code_point 12) 0x3f) 0x80);
   u8 (Z.lor (Z.land (Z.shiftr code_point 6) 0x3f) 0x80);
   u8 (Z.lor (Z.land code_point 0x3f) 0x80)].

(** The [while (char_count--)] loop. *)
Fixpoint convert_loop (utf16_in : list Z) : list Z :=
  match utf16_in with
  | [] => []
  | ch :: rest =>
      if (0 <? ch) && (ch <=? 0x7f) then ch :: convert_loop rest
      else if (0xd800 <=? ch) && (ch <=? 0xdbff) then
        match rest with
        | ch2 :: rest' =>
            if (0xdc00 <=? ch2) && (ch2 <=? 0xdfff) then encode_pair ch ch2 ++ convert_loop rest'
            else encode_unit ch ++ convert_loop rest
        | [] => encode_unit ch
        end
      else encode_unit ch ++ convert_loop rest
  end.

(** [ConvertUtf16ToModifiedUtf8(utf8_out, byte_count, utf16_in, char_count)]: the bytes
    written at [utf8_out]. *)
Definition ConvertUtf16ToModifiedUtf8 (byte_count : Z) (utf16_in : list Z) : list Z :=
  if byte_count =? Z.of_nat (length utf16_in) then map u8 utf16_in
  else convert_loop utf16_in.

(** * The format *)

(** Modified UTF-8: one, two or three bytes for a unit, four for a pair of surrogates. *)
Fixpoint utf8_units (l : list Z) : option (list Z) :=
  match l with
  | [] => Some []
  | a :: t =>
      if a <? 0x80 then let? s := utf8_units t in Some (a :: s)
      else if a <? 0xe0 then
        match t with
        | b :: t => let? s := utf8_units t in Some ((a - 0xc0) * 64 + (b - 0x80) :: s)
        | _ => None
        end
      else if a <? 0xf0 then
        match t with
        | b :: d :: t =>
            let? s := utf8_units t in
            Some ((a - 0xe0) * 4096 + (b - 0x80) * 64 + (d - 0x80) :: s)
        | _ => None
        end
      else
        match t with
        | b :: d :: e :: t =>
            let? s := utf8_units t in
            let cp := (a - 0xf0) * 262144 + (b - 0x80) * 4096 + (d - 0x80) * 64 + (e - 0x80) in
            Some (0xd800 + (cp - 0x10000) / 1024 :: 0xdc00 + (cp - 0x10000) mod 1024 :: s)
        | _ => None
        end
  end.

Definition unit_ok (ch : Z) : Prop := 0 <= ch < 2 ^ 16.

(** * Lemmas *)

Lemma low6 x : Z.land x 0x3f = x mod 64.
Proof. apply (Z.land_ones x 6). lia. Qed.

(** A byte made of a tag and [n] bits. *)
Lemma tagged x n k :
  0 <= n -> 0 <= x < 2 ^ n -> 0 <= k -> (k + 1) * 2 ^ n <= 256 ->
  u8 (Z.lor x (k * 2 ^ n)) = x + k * 2 ^ n.
Proof. intros. rewrite lor_high by lia. apply wrap_small. lia. Qed.

Lemma encode_unit_bytes ch :
  unit_ok ch -> encode_unit ch =
    if 0x07ff <? ch then [ch / 4096 + 0xe0; ch / 64 mod 64 + 0x80; ch mod 64 + 0x80]
    else [ch / 64 + 0xc0; ch mod 64 + 0x80].
Proof.
  unfold unit_ok, encode_unit. intros H. rewrite !low6, !Z.shiftr_div_pow2 by lia.
  pose proof (Z.mod_pos_bound ch 64). pose proof (Z.mod_pos_bound (ch / 64) 64).
  pose proof (tagged (ch mod 64) 6 2). pose proof (tagged (ch / 64 mod 64) 6 2).
  destruct (Z.ltb_spec 0x7ff ch).
  - pose proof (tagged (ch / 4096) 4 14).
    assert (0 <= ch / 4096 < 16) by (Z.to_euclidean_division_equations; lia).
    change (2 ^ 12) with 4096. change (2 ^ 6) with 64 in *. change (2 ^ 4) with 16 in *.
    change (14 * 16) with 0xe0 in *. change (2 * 64) with 0x80 in *.
    repeat f_equal; auto with lia.
  - pose proof (tagged (ch / 64) 5 6).
    assert (0 <= ch / 64 < 32) by (Z.to_euclidean_division_equations; lia).
    change (2 ^ 6) with 64 in *. change (2 ^ 5) with 32 in *.
    change (6 * 32) with 0xc0 in *. change (2 * 64) with 0x80 in *.
    repeat f_equal; auto with lia.
Qed.

Lemma encode_pair_bytes ch ch2 :
  0xd800 <= ch <= 0xdbff -> 0xdc00 <= ch2 <= 0xdfff ->
  let cp := 0x10000 + (ch - 0xd800) * 1024 + (ch2 - 0xdc00) in
  encode_pair ch ch2 =
    [cp / 262144 + 0xf0; cp / 4096 mod 64 + 0x80; cp / 64 mod 64 + 0x80; cp mod 64 + 0x80].
Proof.
  intros H1 H2 cp. unfold encode_pair.
  assert (u32 (Z.shiftl ch 10 + ch2 - 0x035fdc00) = cp) as ->.
  { rewrite Z.shiftl_mul_pow2 by lia. subst cp. rewrite wrap_small; lia. }
  rewrite !low6, !Z.shiftr_div_pow2 by lia.
  assert (0x10000 <= cp < 0x110000) as Hcp by (subst cp; lia). clearbody cp.
  pose proof (tagged (cp mod 64) 6 2). pose proof (tagged (cp / 64 mod 64) 6 2).
  pose proof (tagged (cp / 4096 mod 64) 6 2). pose proof (tagged (cp / 262144) 4 15).
  pose proof (Z.mod_pos_bound cp 64). pose proof (Z.mod_pos_bound (cp / 64) 64).
  pose proof (Z.mod_pos_bound (cp / 4096) 64).
  assert (0 <= cp / 262144 < 16) by (Z.to_euclidean_division_equations; lia).
  change (2 ^ 18) with 262144. change (2 ^ 12) with 4096. change (2 ^ 6) with 64 in *.
  change (2 ^ 4) with 16 in *. change (15 * 16) with 0xf0 in *. change (2 * 64) with 0x80 in *.
  repeat f_equal; auto with lia.
Qed.

(** The units of a string, one or two at a time as the code takes them. *)
Inductive units : list Z -> Prop :=
  | units_nil : units []
  | units_ascii ch rest : 0 < ch <= 0x7f -> units rest -> units (ch :: rest)
  | units_two ch rest : ch = 0 \/ 0x80 <= ch <= 0x7ff -> units rest -> units (ch :: rest)
  | units_three ch rest :
      0x7ff < ch < 2 ^ 16 ->
      (0xd800 <= ch <= 0xdbff -> forall ch2 t, rest = ch2 :: t -> ~ 0xdc00 <= ch2 <= 0xdfff) ->
      units rest -> units (ch :: rest)
  | units_pair ch ch2 rest :
      0xd800 <= ch <= 0xdbff -> 0xdc00 <= ch2 <= 0xdfff -> units rest ->
      units (ch :: ch2 :: rest).

Lemma units_all cs : Forall unit_ok cs -> units cs.
Proof.
  enough (forall n, (length cs <= n)%nat -> Forall unit_ok cs -> units cs) as H
    by (intros Hc; by apply (H (length cs))).
  intros n. revert cs. induction n as [|n IH]; intros [|ch rest] Hlen Hc;
    [constructor|cbn in Hlen; lia|constructor|].
  pose proof (Forall_inv Hc) as Hch. apply Forall_inv_tail in Hc. unfold unit_ok in Hch.
  cbn in Hlen. pose proof (IH rest ltac:(lia) Hc) as Hrest.
  destruct (Z.le_gt_cases ch 0x7f).
  { destruct (Z.eq_dec ch 0); [apply units_two|apply units_ascii]; auto with lia. }
  destruct (Z.le_gt_cases ch 0x7ff); [apply units_two; auto with lia|].
  destruct rest as [|ch2 rest].
  { apply units_three; [lia|done|done]. }
  destruct (decide (0xd800 <= ch <= 0xdbff /\ 0xdc00 <= ch2 <= 0xdfff)) as [[Ha Hb]|Hn].
  - apply units_pair; [done..|]. apply IH; [cbn in Hlen; lia|]. by apply Forall_inv_tail in Hc.
  - apply units_three; [lia| |done]. intros Ha ch2' t [= <- <-]. tauto.
Qed.

(** Follows the tests of the code on a unit. *)
Ltac unit_cases :=
  repeat (match goal with
  | |- context [?a <? ?b] => destruct (Z.ltb_spec a b); [try lia|try lia]
  | |- context [?a <=? ?b] => destruct (Z.leb_spec a b); [try lia|try lia]
  | |- context [?a =? ?b] => destruct (Z.eqb_spec a b); [try lia|try lia]
  end; cbn [andb negb]).

(** The bytes of a unit that is not followed by its other half. *)
Lemma convert_single ch rest :
  ch = 0 \/ 0x80 <= ch < 2 ^ 16 ->
  (0xd800 <= ch <= 0xdbff -> forall ch2 t, rest = ch2 :: t -> ~ 0xdc00 <= ch2 <= 0xdfff) ->
  convert_loop (ch :: rest) = encode_unit ch ++ convert_loop rest.
Proof.
  intros Hch Hno. cbn [convert_loop]. unit_cases; try done.
  all: destruct rest as [|ch2 t]; [by rewrite app_nil_r|].
  all: specialize (Hno ltac:(lia) ch2 t eq_refl); unit_cases; done.
Qed.
Lemma count_single ch rest :
  0x7ff < ch < 2 ^ 16 ->
  (0xd800 <= ch <= 0xdbff -> forall ch2 t, rest = ch2 :: t -> ~ 0xdc00 <= ch2 <= 0xdfff) ->
  CountUtf8Bytes (ch :: rest) = 3 + CountUtf8Bytes rest.
Proof.
  intros Hch Hno. cbn [CountUtf8Bytes]. unit_cases; try done.
  all: destruct rest as [|ch2 t]; [done|].
  all: specialize (Hno ltac:(lia) ch2 t eq_refl); unit_cases; done.
Qed.

(** What the conversion promises about its output. *)
Definition encodes (cs out : list Z) : Prop :=
  Z.of_nat (length out) = CountUtf8Bytes cs /\ Forall (fun b => 1 <= b < 256) out /\
  utf8_units out = Some cs.

Lemma convert_encodes cs : Forall unit_ok cs -> encodes cs (convert_loop cs).
Proof.
  intros Hc. apply units_all in Hc. unfold encodes. induction Hc as
    [|ch rest Hch _ IH|ch rest Hch _ IH|ch rest Hch Hno _ IH|ch ch2 rest H1 H2 _ IH];
    try destruct IH as (IH1 & IH2 & IH3).
  - by split_and!.
  - assert (convert_loop (ch :: rest) = ch :: convert_loop rest) as ->
      by (cbn [convert_loop]; unit_cases; done).
    assert (CountUtf8Bytes (ch :: rest) = 1 + CountUtf8Bytes rest) as ->
      by (cbn [CountUtf8Bytes]; unit_cases; done).
    split_and!; [cbn [length]; lia|constructor; [lia|done]|].
    cbn [utf8_units]. unit_cases. by rewrite IH3.
  - rewrite convert_single by lia. rewrite encode_unit_bytes by (unfold unit_ok; lia).
    assert (CountUtf8Bytes (ch :: rest) = 2 + CountUtf8Bytes rest) as ->
      by (cbn [CountUtf8Bytes]; unit_cases; done).
    destruct (Z.ltb_spec 0x7ff ch); [lia|].
    assert (0 <= ch / 64 < 32 /\ ch = ch / 64 * 64 + ch mod 64 /\ 0 <= ch mod 64 < 64)
      by (Z.to_euclidean_division_equations; lia).
    set (x := ch / 64) in *. set (y := ch mod 64) in *. clearbody x y.
    cbn [app]. split_and!; [cbn [length]; lia|repeat (constructor; [lia|]); done|].
    cbn [utf8_units]. unit_cases. rewrite IH3. do 2 f_equal. lia.
  - rewrite convert_single by (auto with lia). rewrite encode_unit_bytes by (unfold unit_ok; lia).
    rewrite count_single by done. destruct (Z.ltb_spec 0x7ff ch); [|lia].
    assert (0 <= ch / 4096 < 16 /\ ch = ch / 4096 * 4096 + ch / 64 mod 64 * 64 + ch mod 64 /\
      0 <= ch mod 64 < 64 /\ 0 <= ch / 64 mod 64 < 64)
      by (Z.to_euclidean_division_equations; lia).
    set (x := ch / 4096) in *. set (y := ch / 64 mod 64) in *. set (z := ch mod 64) in *.
    clearbody x y z.
    cbn [app]. split_and!; [cbn [length]; lia|repeat (constructor; [lia|]); done|].
    cbn [utf8_units]. unit_cases. rewrite IH3. do 2 f_equal. lia.
  - assert (convert_loop (ch :: ch2 :: rest) = encode_pair ch ch2 ++ convert_loop rest) as ->
      by (cbn [convert_loop]; unit_cases; done).
    assert (CountUtf8Bytes (ch :: ch2 :: rest) = 4 + CountUtf8Bytes rest) as ->
      by (cbn [CountUtf8Bytes]; unit_cases; done).
    rewrite encode_pair_bytes by done. cbn zeta.
    set (cp := 0x10000 + _ + _).
    assert (0x10000 <= cp < 0x110000 /\ ch = 0xd800 + (cp - 0x10000) / 1024 /\
      ch2 = 0xdc00 + (cp - 0x10000) mod 1024) as (Hcp & E1 & E2).
    { subst cp. Z.to_euclidean_division_equations; lia. }
    rewrite E1, E2. clearbody cp.
    assert (0 <= cp / 262144 < 5 /\ 0 <= cp / 4096 mod 64 < 64 /\ 0 <= cp / 64 mod 64 < 64 /\
      0 <= cp mod 64 < 64 /\ cp = cp / 262144 * 262144 + cp / 4096 mod 64 * 4096
        + cp / 64 mod 64 * 64 + cp mod 64)
      by (Z.to_euclidean_division_equations; lia).
    cbn [app]. split_and!; [cbn [length]; lia|repeat (constructor; [lia|]); done|].
    set (x := cp / 262144) in *. set (y := cp / 4096 mod 64) in *. set (z := cp / 64 mod 64) in *.
    set (w := cp mod 64) in *. clearbody x y z w.
    cbn [utf8_units]. unit_cases. rewrite IH3. cbn zeta.
    replace ((x + 0xf0 - 0xf0) * 262144 + (y + 0x80 - 0x80) * 4096 + (z + 0x80 - 0x80) * 64
      + (w + 0x80 - 0x80)) with cp by lia. done.
Qed.

(** Every unit takes a byte; when that is all, every unit is its byte. *)
Lemma count_length cs :
  units cs -> Z.of_nat (length cs) <= CountUtf8Bytes cs /\
    (CountUtf8Bytes cs = Z.of_nat (length cs) -> convert_loop cs = map u8 cs).
Proof.
  induction 1 as [|ch rest Hch _ [IH1 IH2]|ch rest Hch _ [IH1 IH2]|ch rest Hch Hno _ [IH1 IH2]
                  |ch ch2 rest H1 H2 _ [IH1 IH2]].
  - done.
  - assert (CountUtf8Bytes (ch :: rest) = 1 + CountUtf8Bytes rest) as ->
      by (cbn [CountUtf8Bytes]; unit_cases; done).
    cbn [length]. split; [lia|]. intros H. cbn [map convert_loop]. unit_cases.
    rewrite IH2 by lia. by rewrite wrap_small by lia.
  - assert (CountUtf8Bytes (ch :: rest) = 2 + CountUtf8Bytes rest) as ->
      by (cbn [CountUtf8Bytes]; unit_cases; done).
    cbn [length]. lia.
  - rewrite count_single by done. cbn [length]. lia.
  - assert (CountUtf8Bytes (ch :: ch2 :: rest) = 4 + CountUtf8Bytes rest) as ->
      by (cbn [CountUtf8Bytes]; unit_cases; done).
    cbn [length]. lia.
Qed.

(** C16: The text of a Java string: [ConvertUtf16ToModifiedUtf8] writes as many bytes as
    [CountUtf8Bytes] has counted, none of them is zero, and the units are read back from them;
    unpaired surrogates and the unit 0 included, and on the path for plain text too. *)
Theorem ConvertUtf16_roundtrip cs :
  Forall unit_ok cs ->
  let out := ConvertUtf16ToModifiedUtf8 (CountUtf8Bytes cs) cs in
  Z.of_nat (length out) = CountUtf8Bytes cs /\ Forall (fun b => 1 <= b < 256) out /\
  utf8_units out = Some cs.
Proof.
  intros Hc out. pose proof (convert_encodes cs Hc) as H.
  subst out. unfold ConvertUtf16ToModifiedUtf8.
  destruct (Z.eqb_spec (CountUtf8Bytes cs) (Z.of_nat (length cs))) as [E|]; [|exact H].
  apply units_all, count_length in Hc as [_ Hf]. by rewrite <- (Hf E).
Qed.

Lemma ConvertUtf16_roundtrip_witness :
  let cs := [0x48; 0; 0xe9; 0x20ac; 0xd83d; 0xde00; 0xd800] in
  ConvertUtf16ToModifiedUtf8 (CountUtf8Bytes cs) cs
    = [0x48; 0xc0; 0x80; 0xc3; 0xa9; 0xe2; 0x82; 0xac; 0xf0; 0x9f; 0x98; 0x80; 0xed; 0xa0; 0x80]
  /\ utf8_units (ConvertUtf16ToModifiedUtf8 (CountUtf8Bytes cs) cs) = Some cs.
Proof.
  split; [reflexivity|].
  apply (ConvertUtf16_roundtrip [0x48; 0; 0xe9; 0x20ac; 0xd83d; 0xde00; 0xd800]).
  repeat constructor; lia.
Defined.
