(* ===== verification/Text.v ===== *)
(** Numbers as text: utils/base/utils.cpp ([ToHex]), [std::to_string], the [%04x] of printf and
    the colours of utils/logger/log.h. *)

From Stdlib Require Import ZArith Lia Bool String.
From stdpp Require Import base list numbers.
From S2P Require Import Prelude.
Open Scope Z_scope.

Definition digit_char (d : Z) : Z := if d <? 10 then 48 + d else 87 + d.
(** The digits of [v], at most [n] of them, without leading zeros. *)
Fixpoint num_digits (base : Z) (n : nat) (v : Z) : list Z :=
  match n with
  | O => []
  | S n => if v <? base then [digit_char v]
           else num_digits base n (v / base) ++ [digit_char (v mod base)]
  end.
(** [std::to_string]. *)
Definition to_string (v : Z) : list Z :=
  if v <? 0 then 45 :: num_digits 10 20 (- v) else num_digits 10 20 v.
(** [Utils::ToHex]. *)
Definition ToHex (v : Z) : list Z := chars "0x" ++ num_digits 16 16 v.
(** [%04x]. *)
Definition hex4 (v : Z) : list Z :=
  let ds := num_digits 16 16 v in replicate (4 - length ds) 48 ++ ds.

(** [Logger::LightYellow()] and the others, with the escape character in front. *)
Definition ansi (light : bool) (s : string) : list Z := if light then 27 :: chars s else [].
Definition LightGreen (light : bool) : list Z := ansi light "[92m".
Definition LightYellow (light : bool) : list Z := ansi light "[93m".
Definition LightCyan (light : bool) : list Z := ansi light "[96m".
Definition ColorEnd (light : bool) : list Z := ansi light "[0m".
