(* ===== verification/Process.v ===== *)
(** A live process, as the kernel shows it to the dumper, and the parser of its memory map:
    [ParseMaps], [IsBit64], [StopTheWorld] and [isAlive] of
    parser/command/remote/opencore/opencore.cpp.

    Everything that comes from the system is the class [Kernel]: the files of /proc, ptrace,
    pread of the memory, and the contents of variables the code does not initialise.  The
    memory map is read back from its text, and the threads from the names of the directory of
    its tasks. *)

From Stdlib Require Import ZArith Lia Bool String.
From stdpp Require Import base list numbers.
From S2P Require Import Prelude Words Text Host Blocks Notes CoreApi Elf CoreLoad LoadProofs SaveCore.
From S2P Require Import FakeBuild NoteProofs.
Open Scope Z_scope.

Class Kernel := {
  (** [kill(pid, 0)]: the error, if it fails. *)
  k_kill : Z -> option Z;
  (** The entries of /proc/pid/task, /proc/pid/maps, /proc/pid/auxv, and of comm of a thread. *)
  k_tasks : Z -> option (list (list Z));
  k_maps : Z -> option (list Z);
  k_auxv : Z -> option (list Z);
  k_comm : Z -> Z -> option (list Z);
  (** [ptrace(PTRACE_ATTACH, tid)] succeeds. *)
  k_attach : Z -> bool;
  (** [ptrace(PTRACE_GETREGSET, tid, type)]: the bytes of the set. *)
  k_regset : Z -> Z -> option (list Z);
  (** /proc/pid/mem can be opened; [pread64] of so many bytes at an address. *)
  k_mem : Z -> bool;
  k_pread : Z -> Z -> Z -> option (list Z);
  (** [gettimeofday], [uname]. *)
  k_time : Z;
  k_machine : option (list Z);
  (** What variables hold that were not written: so many bytes of the stack, and the four
      bytes behind [page_size]. *)
  k_stack : Z -> list Z;
  k_beside : Z;
}.

(** [memcpy] of the bytes the system has into a buffer. *)
Definition fill_buffer (buffer bs : list Z) : list Z :=
  take (length buffer) bs ++ drop (length bs) buffer.

(** * Scanning text *)

Definition is_blank (b : Z) : bool := (b =? 32) || ((9 <=? b) && (b <=? 13)).
Fixpoint skip_spaces (l : list Z) : list Z :=
  match l with
  | b :: t => if is_blank b then skip_spaces t else l
  | [] => []
  end.
Definition digit_value (base b : Z) : option Z :=
  let d := if (48 <=? b) && (b <=? 57) then b - 48
           else if (97 <=? b) && (b <=? 102) then b - 87
           else if (65 <=? b) && (b <=? 70) then b - 55 else base in
  if d <? base then Some d else None.
(** The digits at the front: their value and what is left. *)
Fixpoint scan_digits (base v : Z) (l : list Z) : Z * list Z :=
  match l with
  | b :: t =>
      match digit_value base b with
      | Some d => scan_digits base (v * base + d) t
      | None => (v, l)
      end
  | [] => (v, [])
  end.
(** A number as [%lx] and the like: spaces, a sign, 0x for hexadecimal, at least one digit; a
    number of more than 64 bits is the largest one. *)
Definition scan_number (base width : Z) (l : list Z) : option (Z * list Z) :=
  let l := skip_spaces l in
  let '(neg, l) :=
    match l with
    | b :: t => if b =? 45 then (true, t) else if b =? 43 then (false, t) else (false, l)
    | [] => (false, l)
    end in
  let l :=
    match l with
    | z :: x :: d :: t =>
        if (base =? 16) && (z =? 48) && ((x =? 120) || (x =? 88))
           && (match digit_value 16 d with Some _ => true | None => false end)
        then d :: t else l
    | _ => l
    end in
  match l with
  | b :: _ =>
      match digit_value base b with
      | Some _ =>
          let '(v, rest) := scan_digits base 0 l in
          let v := Z.min v (2 ^ 64 - 1) in
          Some (wrap width (if neg : bool then - v else v), rest)
      | None => None
      end
  | [] => None
  end.

(** The conversions of a format. *)
Inductive conversion (V : Type) :=
| Number (base width : Z) (set : Z -> V -> V)
| Char (set : Z -> V -> V)
| Literal (b : Z)
| Spaces
| Line (size : Z) (set : list Z -> V -> V).
Arguments Number {V}. Arguments Char {V}. Arguments Literal {V}. Arguments Spaces {V}.
Arguments Line {V}.

Fixpoint until_newline (l : list Z) : list Z * list Z :=
  match l with
  | b :: t => if b =? 10 then ([], l) else let '(s, r) := until_newline t in (b :: s, r)
  | [] => ([], [])
  end.
(** [sscanf]: it stops at the first conversion that fails.  [Line size]: [%[^\n]] into an array
    of [size] characters, which is overrun by a longer line. *)
Fixpoint sscanf {V} (format : list (conversion V)) (l : list Z) (v : V) : result V :=
  match format with
  | [] => Ok v
  | Number base width set :: f =>
      match scan_number base width l with
      | Some (x, l) => sscanf f l (set x v)
      | None => Ok v
      end
  | Char set :: f => match l with b :: l => sscanf f l (set b v) | [] => Ok v end
  | Literal c :: f =>
      match l with b :: l => if b =? c then sscanf f l v else Ok v | [] => Ok v end
  | Spaces :: f => sscanf f (skip_spaces l) v
  | Line size set :: f =>
      match until_newline l with
      | ([], _) => Ok v
      | (s, l) => if Z.of_nat (length s) <? size then sscanf f l (set s v) else Fault
      end
  end.

(** [fgets] of [n + 1] characters until the end of the file: lines with their newline, long
    ones in pieces. *)
Fixpoint fgets_lines (n room : nat) (line l : list Z) : list (list Z) :=
  match l with
  | [] => match line with [] => [] | _ => [line] end
  | b :: t =>
      let line := line ++ [b] in
      if b =? 10 then line :: fgets_lines n n [] t
      else match room with
           | S (S room) => fgets_lines n (S room) line t
           | _ => line :: fgets_lines n n [] t
           end
  end.

(** * The memory map *)

(** [Opencore::VirtualMemoryArea] with the members only the dumper uses. *)
Record ProcArea := MkProcArea {
  pa_vma : VirtualMemoryArea; pa_major : Z; pa_minor : Z; pa_inode : Z }.
Definition empty_area : ProcArea := MkProcArea (MkVma 0 0 [0; 0; 0; 0] 0 0 [] []) 0 0 0.
Definition on_vma (f : VirtualMemoryArea -> VirtualMemoryArea) (a : ProcArea) : ProcArea :=
  MkProcArea (f (pa_vma a)) (pa_major a) (pa_minor a) (pa_inode a).
Definition set_begin (x : Z) := on_vma (fun m =>
  MkVma x (m_end m) (m_flags m) (m_offset m) (m_load_bias m) (m_file m) (m_buildid m)).
Definition set_end (x : Z) := on_vma (fun m =>
  MkVma (m_begin m) x (m_flags m) (m_offset m) (m_load_bias m) (m_file m) (m_buildid m)).
Definition set_flag (i : nat) (x : Z) := on_vma (fun m =>
  MkVma (m_begin m) (m_end m) (<[i := x]> (m_flags m)) (m_offset m) (m_load_bias m) (m_file m)
    (m_buildid m)).
Definition set_offset (x : Z) := on_vma (fun m =>
  MkVma (m_begin m) (m_end m) (m_flags m) x (m_load_bias m) (m_file m) (m_buildid m)).
Definition set_file (s : list Z) := on_vma (fun m =>
  MkVma (m_begin m) (m_end m) (m_flags m) (m_offset m) (m_load_bias m) s (m_buildid m)).
Definition set_major (x : Z) (a : ProcArea) := MkProcArea (pa_vma a) x (pa_minor a) (pa_inode a).
Definition set_minor (x : Z) (a : ProcArea) := MkProcArea (pa_vma a) (pa_major a) x (pa_inode a).
Definition set_inode (x : Z) (a : ProcArea) := MkProcArea (pa_vma a) (pa_major a) (pa_minor a) x.

(** ["%lx-%lx %c%c%c%c %x %x:%x  %lu  %[^\n] %n"]. *)
Definition maps_format : list (conversion ProcArea) :=
  [Number 16 64 set_begin; Literal 45; Number 16 64 set_end; Spaces;
   Char (set_flag 0); Char (set_flag 1); Char (set_flag 2); Char (set_flag 3); Spaces;
   Number 16 32 set_offset; Spaces; Number 16 32 set_major; Literal 58; Number 16 32 set_minor;
   Spaces; Number 10 64 set_inode; Spaces; Line 256 set_file].
Definition maps_line (line : list Z) : result ProcArea := sscanf maps_format line empty_area.

Section Process.
Context {K : Kernel}.

(** [sizeof(Elf64_Phdr)] and the 32 entries of [vec]. *)
Fixpoint phent_is_64 (n : nat) (vec : list Z) : bool :=
  match n with
  | O => false
  | S n =>
      let type := le_value (take 8 vec) in
      let value := le_value (take 8 (drop 8 vec)) in
      if (type =? AT_PHENT) && (value =? 56) then true
      else if type =? 0 then false else phent_is_64 n (drop 16 vec)
  end.
(** [IsBit64(pid)]. *)
Definition IsBit64 (pid : Z) : bool :=
  let vec := k_stack 512 in
  phent_is_64 32 (match k_auxv pid with Some bs => fill_buffer vec bs | None => vec end).

Fixpoint parse_lines (compat32 : bool) (lines : list (list Z)) : result (list ProcArea) :=
  match lines with
  | [] => Ok []
  | line :: lines =>
      let! a := maps_line line in
      if compat32 && (0xFFFFFFFF <? m_begin (pa_vma a)) then Ok []
      else let! l := parse_lines compat32 lines in Ok (a :: l)
  end.
(** [ParseMaps(pid, maps)]. *)
Definition ParseMaps (pid : Z) : result (list ProcArea) :=
  match k_maps pid with
  | Some text => parse_lines (negb (IsBit64 pid)) (fgets_lines 1023 1023 [] text)
  | None => Ok []
  end.

(** * Threads *)

Definition ESRCH : Z := 3.
Definition EPERM : Z := 1.
(** [isAlive(pid)]. *)
Definition isAlive (pid : Z) : bool :=
  if pid <=? 0 then false
  else match k_kill pid with None => true | Some e => negb (e =? ESRCH) && (e =? EPERM) end.

(** [std::atoi] of a file name. *)
Definition atoi (s : list Z) : Z :=
  match scan_number 10 64 s with Some (v, _) => i32 v | None => 0 end.
(** [ThreadRecord]: the id, and whether the thread was attached. *)
Definition ThreadRecord : Type := Z * bool.
(** [StopTheThread(tid)], the record it adds. *)
Definition StopTheThread (tid : Z) : ThreadRecord := (tid, k_attach tid).
(** [StopTheWorld(pid)]. *)
Definition StopTheWorld (pid : Z) : list ThreadRecord :=
  match k_tasks pid with
  | Some entries =>
      map (fun name => StopTheThread (atoi name))
        (List.filter (fun name => negb (match name with 46 :: _ => true | _ => false end)) entries)
  | None => []
  end.
End Process.

(** * Reading the memory map and the tasks back *)

(** * Numbers *)

Lemma digit_value_char base d :
  base = 10 \/ base = 16 -> 0 <= d < base -> digit_value base (digit_char d) = Some d.
Proof.
  intros Hb Hd. unfold digit_value, digit_char.
  assert (H : forallb (fun b => forallb (fun d => (b <=? d) ||
    match digit_value b (digit_char d) with Some x => x =? d | None => false end)
    (map Z.of_nat (seq 0 16))) [10; 16] = true) by (vm_compute; reflexivity).
  rewrite forallb_forall in H. specialize (H base ltac:(destruct Hb as [-> | ->]; cbn; tauto)).
  rewrite forallb_forall in H. specialize (H d). cbn beta in H.
  destruct (Z.leb_spec base d); [lia|]. cbn [orb] in H. unfold digit_value, digit_char in H.
  destruct (if _ <? base then _ else None) as [x|]; [f_equal; apply Z.eqb_eq, H|discriminate H];
    apply in_map_iff; exists (Z.to_nat d); rewrite in_seq; lia.
Qed.

Definition digits_ok (base : Z) (l : list Z) : Prop := Forall (fun b => digit_value base b <> None) l.

Lemma scan_digits_number base n acc x rest :
  base = 10 \/ base = 16 -> 0 <= x < base ^ Z.of_nat n ->
  scan_digits base acc (num_digits base n x ++ rest) =
    scan_digits base (acc * base ^ Z.of_nat (length (num_digits base n x)) + x) rest.
Proof.
  intros Hb. revert x rest. induction n as [|n IH]; intros x rest Hx.
  - change (base ^ Z.of_nat 0) with 1 in Hx. cbn. f_equal. lia.
  - cbn [num_digits]. destruct (Z.ltb_spec x base) as [Hl|Hl].
    + cbn [app scan_digits length]. rewrite digit_value_char by (done || lia).
      f_equal. change (Z.of_nat 1) with 1. lia.
    + rewrite <- app_assoc. rewrite IH.
      2: { rewrite Nat2Z.inj_succ, Z.pow_succ_r in Hx by lia.
           split; [apply Z.div_pos; lia|]. apply Z.div_lt_upper_bound; lia. }
      cbn [app scan_digits]. rewrite digit_value_char by (done || (apply Z.mod_pos_bound; lia)).
      f_equal. rewrite length_app, Nat2Z.inj_add. change (Z.of_nat (length [_])) with 1.
      rewrite Z.pow_add_r by lia. pose proof (Z.div_mod x base). nia.
Qed.

Lemma num_digits_ok base n x :
  base = 10 \/ base = 16 -> 0 <= x -> digits_ok base (num_digits base n x).
Proof.
  intros Hb. revert x. induction n as [|n IH]; intros x Hx; cbn [num_digits]; [constructor|].
  destruct (Z.ltb_spec x base).
  - repeat constructor. by rewrite digit_value_char.
  - apply Forall_app. split; [apply IH, Z.div_pos; lia|]. repeat constructor.
    rewrite digit_value_char; [done|done|]. apply Z.mod_pos_bound. lia.
Qed.
Lemma num_digits_nonempty base n x : (0 < n)%nat -> num_digits base n x <> [].
Proof.
  destruct n; [lia|]. intros _. cbn [num_digits]. destruct (x <? base); [done|].
  by destruct (num_digits _ _ _).
Qed.

(** Text behind a number: it does not go on. *)
Definition stops (base : Z) (rest : list Z) : Prop :=
  match rest with b :: _ => digit_value base b = None | [] => True end.
Lemma scan_digits_stop base v rest : stops base rest -> scan_digits base v rest = (v, rest).
Proof. destruct rest as [|b rest]; cbn; [done|]. by intros ->. Qed.

Lemma digit_plain base b : digit_value base b <> None -> base <= 16 ->
  is_blank b = false /\ (b =? 45) = false /\ (b =? 43) = false /\ (b =? 120) = false
  /\ (b =? 88) = false.
Proof.
  unfold digit_value, is_blank. intros H Hb.
  destruct (Z.leb_spec 48 b), (Z.leb_spec b 57), (Z.leb_spec 97 b), (Z.leb_spec b 102),
    (Z.leb_spec 65 b), (Z.leb_spec b 70); cbn [andb] in H; try lia;
    try (exfalso; destruct (Z.ltb_spec base base); [lia|done]);
    split_and!; try (apply Z.eqb_neq; lia);
    (apply orb_false_iff; split; [apply Z.eqb_neq; lia|apply andb_false_iff; right; apply Z.leb_gt; lia]).
Qed.

Lemma scan_number_digits base width ds rest v :
  base = 10 \/ base = 16 -> digits_ok base ds -> ds <> [] -> stops base rest ->
  match rest with b :: _ => (b =? 120) = false /\ (b =? 88) = false | [] => True end ->
  scan_digits base 0 (ds ++ rest) = (v, rest) -> 0 <= v < 2 ^ width -> 0 <= width <= 64 ->
  scan_number base width (ds ++ rest) = Some (v, rest).
Proof.
  intros Hb Hd Hne Hst Hx Hv Hr Hw. unfold scan_number.
  assert (2 ^ width <= 2 ^ 64) by (apply Z.pow_le_mono_r; lia).
  destruct ds as [|d ds]; [done|]. apply Forall_cons_1 in Hd as [Hd Hds].
  destruct (digit_plain base d Hd ltac:(lia)) as (P1 & P2 & P3 & _).
  cbn [app skip_spaces]. rewrite P1, P2, P3.
  assert (Hsame : match d :: ds ++ rest with
    | z :: x :: d' :: t => if (base =? 16) && (z =? 48) && ((x =? 120) || (x =? 88))
        && (match digit_value 16 d' with Some _ => true | None => false end)
      then d' :: t else d :: ds ++ rest
    | _ => d :: ds ++ rest end = d :: ds ++ rest).
  { destruct (ds ++ rest) as [|x [|y t]] eqn:E; try done.
    assert ((x =? 120) = false /\ (x =? 88) = false) as [-> ->].
    { destruct ds as [|x' ds]; cbn in E.
      - subst rest. done.
      - injection E as -> _. apply Forall_cons_1 in Hds as [Hx' _].
        by destruct (digit_plain base x Hx' ltac:(lia)) as (_ & _ & _ & ? & ?). }
    cbn [orb]. by rewrite andb_false_r. }
  rewrite Hsame. destruct (digit_value base d); [|done].
  cbn [app] in Hv. rewrite Hv. rewrite Z.min_l by lia. by rewrite wrap_small by lia.
Qed.

(** A number with at least [w] digits. *)
Definition padded_number (base : Z) (w : nat) (v : Z) : list Z :=
  let ds := num_digits base 20 v in replicate (w - length ds) 48 ++ ds.
Lemma scan_padded base width w v rest :
  base = 10 \/ base = 16 -> 0 <= v < 2 ^ width -> 0 <= width <= 64 -> stops base rest ->
  match rest with b :: _ => (b =? 120) = false /\ (b =? 88) = false | [] => True end ->
  scan_number base width (padded_number base w v ++ rest) = Some (v, rest).
Proof.
  intros Hb Hv Hw Hst Hx. assert (2 ^ width <= 2 ^ 64) by (apply Z.pow_le_mono_r; lia).
  assert (Hz : forall k l, scan_digits base 0 (replicate k 48 ++ l) = scan_digits base 0 l).
  { induction k as [|k IH]; intros l; [done|]. cbn [replicate app scan_digits].
    assert (digit_value base 48 = Some 0) as -> by (destruct Hb as [-> | ->]; done). apply IH. }
  apply scan_number_digits; try done.
  - unfold padded_number. apply Forall_app. split; [|apply num_digits_ok; [done|lia]].
    apply Forall_replicate. by destruct Hb as [-> | ->].
  - unfold padded_number. intros E%app_nil. destruct E as [_ E].
    by apply num_digits_nonempty in E; [|lia].
  - unfold padded_number. rewrite <- app_assoc, Hz, scan_digits_number; [|done|].
    + rewrite Z.mul_0_l, Z.add_0_l. by apply scan_digits_stop.
    + assert (2 ^ 64 <= base ^ Z.of_nat 20) by (destruct Hb as [-> | ->]; vm_compute; discriminate). lia.
Qed.

Lemma atoi_number v : 0 <= v < 2 ^ 31 -> atoi (to_string v) = v.
Proof.
  intros Hv. unfold atoi, to_string. destruct (Z.ltb_spec v 0); [lia|].
  pose proof (scan_padded 10 64 0 v [] ltac:(auto) ltac:(lia) ltac:(lia) I I) as E.
  unfold padded_number in E. rewrite Nat.sub_0_l, app_nil_r in E. cbn [replicate app] in E.
  rewrite E. apply sint_small; lia.
Qed.

(** * The memory map *)

(** A line of /proc/pid/maps; [pad] more spaces are in front of the name. *)
Definition maps_line_body (a : ProcArea) (pad : nat) : list Z :=
  let m := pa_vma a in
  padded_number 16 8 (m_begin m) ++ [45] ++ padded_number 16 8 (m_end m) ++ [32] ++ m_flags m
  ++ [32] ++ padded_number 16 8 (m_offset m) ++ [32] ++ padded_number 16 2 (pa_major a) ++ [58]
  ++ padded_number 16 2 (pa_minor a) ++ [32] ++ padded_number 10 0 (pa_inode a)
  ++ replicate (S pad) 32 ++ m_file m.
Definition maps_line_text (a : ProcArea) (pad : nat) : list Z := maps_line_body a pad ++ [10].

(** An area as the kernel shows it. *)
Record area_shown (a : ProcArea) : Prop := {
  as_begin : 0 <= m_begin (pa_vma a) < 2 ^ 64;
  as_end : 0 <= m_end (pa_vma a) < 2 ^ 64;
  as_flags : length (m_flags (pa_vma a)) = 4%nat /\
    Forall (fun b => is_blank b = false /\ b <> 10) (m_flags (pa_vma a));
  as_offset : 0 <= m_offset (pa_vma a) < 2 ^ 32;
  as_major : 0 <= pa_major a < 2 ^ 32;
  as_minor : 0 <= pa_minor a < 2 ^ 32;
  as_inode : 0 <= pa_inode a < 2 ^ 64;
  as_name : Forall (fun b => b <> 10) (m_file (pa_vma a)) /\
    (length (m_file (pa_vma a)) < 256)%nat /\
    match m_file (pa_vma a) with b :: _ => is_blank b = false | [] => True end;
  as_rest : m_load_bias (pa_vma a) = 0 /\ m_buildid (pa_vma a) = [];
}.

Lemma until_newline_app s t : Forall (fun b => b <> 10) s -> until_newline (s ++ 10 :: t) = (s, 10 :: t).
Proof.
  induction 1 as [|b s Hb _ IH]; [done|]. cbn [app until_newline].
  by rewrite (proj2 (Z.eqb_neq b 10) Hb), IH.
Qed.
Lemma skip_spaces_replicate k l : skip_spaces (replicate k 32 ++ l) = skip_spaces l.
Proof. by induction k. Qed.

Lemma sscanf_number {V} base width set (f : list (conversion V)) w x rest v :
  base = 10 \/ base = 16 -> 0 <= x < 2 ^ width -> 0 <= width <= 64 -> stops base rest ->
  match rest with b :: _ => (b =? 120) = false /\ (b =? 88) = false | [] => True end ->
  sscanf (Number base width set :: f) (padded_number base w x ++ rest) v = sscanf f rest (set x v).
Proof. intros. cbn [sscanf]. by rewrite scan_padded. Qed.

Lemma skip_padded base w x rest : base = 10 \/ base = 16 -> 0 <= x ->
  skip_spaces (32 :: padded_number base w x ++ rest) = padded_number base w x ++ rest.
Proof.
  intros Hb Hx. cbn [skip_spaces].
  assert (Hok : digits_ok base (padded_number base w x)).
  { unfold padded_number. apply Forall_app. split; [|by apply num_digits_ok].
    apply Forall_replicate. by destruct Hb as [-> | ->]. }
  destruct (padded_number base w x) as [|d ds] eqn:E.
  { exfalso. unfold padded_number in E. apply app_nil in E as [_ E].
    by apply num_digits_nonempty in E; [|lia]. }
  apply Forall_cons_1 in Hok as [Hd _]. cbn [app skip_spaces].
  by destruct (digit_plain base d Hd ltac:(lia)) as (-> & _).
Qed.

Lemma sscanf_literal {V} b (f : list (conversion V)) l v :
  sscanf (Literal b :: f) (b :: l) v = sscanf f l v.
Proof. cbn [sscanf]. by rewrite Z.eqb_refl. Qed.
Lemma sscanf_char {V} set (f : list (conversion V)) b l v :
  sscanf (Char set :: f) (b :: l) v = sscanf f l (set b v).
Proof. done. Qed.
Lemma sscanf_spaces {V} (f : list (conversion V)) l v :
  sscanf (Spaces :: f) l v = sscanf f (skip_spaces l) v.
Proof. done. Qed.
Lemma skip_blank l : skip_spaces (32 :: l) = skip_spaces l.
Proof. done. Qed.
Lemma skip_space_stop b l : is_blank b = false -> skip_spaces (b :: l) = b :: l.
Proof. cbn [skip_spaces]. by intros ->. Qed.

Lemma maps_line_area a pad : area_shown a -> maps_line (maps_line_text a pad) = Ok a.
Proof.
  intros [B E [F4 F] O MA MI I [N1 [N2 N3]] [R1 R2]].
  destruct a as [[vb ve fl off lbias file bid] ma mi ino].
  cbn [pa_vma pa_major pa_minor pa_inode m_begin m_end m_flags m_offset m_load_bias m_file m_buildid] in *.
  subst lbias bid.
  unfold maps_line, maps_line_text, maps_line_body, maps_format. cbn [pa_vma pa_major pa_minor pa_inode m_begin m_end
    m_flags m_offset m_file].
  destruct fl as [|f0 [|f1 [|f2 [|f3 [|]]]]]; try done.
  apply Forall_cons_1 in F as [[F0 _] _].
  rewrite <- !app_assoc. cbn [app].
  rewrite sscanf_number by (done || lia || auto). rewrite sscanf_literal.
  rewrite sscanf_number by (done || lia || auto). rewrite sscanf_spaces.
  rewrite skip_blank, (skip_space_stop f0) by done. rewrite !sscanf_char.
  rewrite sscanf_spaces, skip_padded by (auto || lia).
  rewrite sscanf_number by (done || lia || auto).
  rewrite sscanf_spaces, skip_padded by (auto || lia).
  rewrite sscanf_number by (done || lia || auto). rewrite sscanf_literal.
  rewrite sscanf_number by (done || lia || auto).
  rewrite sscanf_spaces, skip_padded by (auto || lia).
  rewrite sscanf_number by (done || lia || auto).
  rewrite sscanf_spaces. cbn [replicate app].
  rewrite skip_blank, skip_spaces_replicate.
  destruct file as [|b file]; [done|]. cbn [app]. rewrite skip_space_stop by done.
  change (b :: file ++ [10]) with ((b :: file) ++ [10]). cbn [sscanf].
  rewrite until_newline_app by done. cbn [app].
  rewrite (proj2 (Z.ltb_lt (Z.of_nat (length (b :: file))) 256)) by lia. done.
Qed.

(** * All lines *)

Lemma fgets_short n room line s t :
  Forall (fun b => b <> 10) s -> (length s < room)%nat ->
  fgets_lines n room line (s ++ 10 :: t) = (line ++ s ++ [10]) :: fgets_lines n n [] t.
Proof.
  intros Hs. revert room line. induction Hs as [|b s Hb _ IH]; intros room line Hr.
  - cbn [app fgets_lines]. by rewrite Z.eqb_refl.
  - cbn [app fgets_lines length] in *. rewrite (proj2 (Z.eqb_neq b 10) Hb).
    destruct room as [|[|room]]; [lia|lia|]. rewrite IH by lia. by rewrite <- app_assoc.
Qed.

Lemma padded_plain base w x : base = 10 \/ base = 16 -> 0 <= x ->
  Forall (fun b => b <> 10) (padded_number base w x).
Proof.
  intros Hb Hx. unfold padded_number. apply Forall_app. split; [by apply Forall_replicate|].
  eapply List.Forall_impl; [|by apply (num_digits_ok base 20)].
  intros b Hd ->. destruct Hb as [-> | ->]; by apply Hd.
Qed.

(** The text of the whole map; lines fit the buffer of the parser. *)
Definition maps_text (l : list (ProcArea * nat)) : list Z :=
  concat (map (fun e => maps_line_text (fst e) (snd e)) l).
Definition line_fits (e : ProcArea * nat) : Prop :=
  (length (maps_line_text (fst e) (snd e)) <= 1023)%nat.

Lemma maps_line_plain a pad : area_shown a -> Forall (fun b => b <> 10) (maps_line_body a pad).
Proof.
  intros [B E [F4 F] O MA MI I [N1 [N2 N3]] [R1 R2]]. unfold maps_line_body.
  repeat first [solve [apply padded_plain; auto || lia] | apply Forall_app; split];
    try (by repeat constructor); try done.
  - eapply List.Forall_impl; [|exact F]. by intros b [_ ?].
  - by apply Forall_replicate.
Qed.

Lemma maps_text_lines l :
  Forall (fun e => area_shown (fst e)) l -> Forall line_fits l ->
  fgets_lines 1023 1023 [] (maps_text l) = map (fun e => maps_line_text (fst e) (snd e)) l.
Proof.
  induction 1 as [|e l He _ IH]; intros Hf; [done|]. apply Forall_cons_1 in Hf as [Hf Hl].
  unfold maps_text. cbn [map concat]. fold (maps_text l). unfold line_fits in Hf.
  unfold maps_line_text in Hf at 1. unfold maps_line_text at 1.
  pose proof (maps_line_plain (fst e) (snd e) He) as Hs. rewrite length_app in Hf.
  cbn [length] in Hf. rewrite <- app_assoc. cbn [app].
  rewrite fgets_short by (done || lia). cbn [app]. by rewrite IH.
Qed.

Section Maps.
Context {K : Kernel}.

(** [ParseMaps] reads the areas of a process back from the text the kernel prints for
    them, with their permissions, offsets, devices, inodes and names, whatever the padding in
    front of the names. *)
Theorem ParseMaps_roundtrip pid (l : list (ProcArea * nat))
    (Ha : Forall (fun e => area_shown (fst e)) l) (Hl : Forall line_fits l)
    (Hbits : IsBit64 pid = true \/ Forall (fun e => m_begin (pa_vma (fst e)) <= 0xFFFFFFFF) l)
    (Ht : k_maps pid = Some (maps_text l)) :
  ParseMaps pid = Ok (map fst l).
Proof.
  unfold ParseMaps. rewrite Ht, maps_text_lines by done. clear Ht Hl.
  induction Ha as [|e l He _ IH]; [done|]. cbn [map parse_lines].
  rewrite maps_line_area by done. cbn [rbind].
  assert (negb (IsBit64 pid) && (0xFFFFFFFF <? m_begin (pa_vma (fst e))) = false) as ->.
  { destruct Hbits as [->|Hb]; [done|]. apply Forall_cons_1 in Hb as [Hb _].
    apply andb_false_iff. right. by apply Z.ltb_ge. }
  rewrite IH; [done|]. destruct Hbits as [?|Hb]; [by left|right].
  by apply Forall_cons_1 in Hb as [_ Hb].
Qed.

(** The names of the directory of the tasks. *)
Lemma StopTheWorld_ids pid ids :
  k_tasks pid = Some ([46] :: [46; 46] :: map to_string ids) -> Forall (fun v => 0 <= v < 2 ^ 31) ids ->
  StopTheWorld pid = map StopTheThread ids.
Proof.
  unfold StopTheWorld. intros -> Hi. cbn [List.filter negb].
  induction Hi as [|v l Hv _ IH]; [done|]. cbn [map List.filter].
  assert (Hd : match to_string v with 46 :: _ => true | _ => false end = false).
  { unfold to_string. destruct (Z.ltb_spec v 0); [lia|].
    pose proof (num_digits_ok 10 20 v ltac:(auto) ltac:(lia)) as Hok.
    destruct (num_digits 10 20 v) as [|d ds]; [done|]. apply Forall_cons_1 in Hok as [Hd _].
    destruct (Z.eq_dec d 46) as [->|Hne]; [by destruct Hd|].
    destruct d as [|p|p]; try done. repeat (destruct p as [p|p|]; try done). }
  rewrite Hd. cbn [negb map]. rewrite atoi_number by done. by rewrite IH.
Qed.
End Maps.
