(* ===== verification/CoreDump.v ===== *)
(** Dumping a live process into a core file: [Opencore::Coredump] of
    parser/command/remote/opencore/opencore.cpp, [OpencoreImpl] of lp64/opencore.cpp and
    lp32/opencore.cpp (the same code at two word sizes) and the machine classes.

    The file is written through [FILE], whose writes may fail as [Disk] says. *)

From Stdlib Require Import ZArith Lia Bool String.
From stdpp Require Import base list numbers.
From S2P Require Import Prelude Words Text Host Blocks Notes CoreApi Elf CoreLoad LoadProofs SaveCore.
From S2P Require Import FakeBuild Process.
Open Scope Z_scope.

(** * Files *)

Record FILE := { f_bytes : list Z; f_pos : Z; f_ops : nat }.
(** Whether the [n]-th write to the file fails: the error, and how much is written before. *)
Class Disk := { disk_fault : nat -> option (Z * nat) }.

Definition write_at (pos : Z) (bs old : list Z) : list Z :=
  take (Z.to_nat pos) old ++ bs ++ drop (Z.to_nat pos + length bs) old.
(** [fwrite(bs, length, 1, fp)]: the error, if it is not 1. *)
Definition fput `{Disk} (bs : list Z) : prog FILE (option Z) := fun f =>
  let done bs := {| f_bytes := write_at (f_pos f) bs (f_bytes f);
                    f_pos := f_pos f + Z.of_nat (length bs); f_ops := S (f_ops f) |} in
  match disk_fault (f_ops f) with
  | None => (done bs, Ok None)
  | Some (e, k) => (done (take k bs), Ok (Some e))
  end.
Definition fputs `{Disk} (chunks : list (list Z)) : prog FILE unit :=
  foldr (fun bs p => let$ _ := fput bs in p) (pret tt) chunks.
Definition ftell : prog FILE Z := let$ f := get in pret (f_pos f).
Definition fseek (pos : Z) : prog FILE unit :=
  modify (fun f => {| f_bytes := f_bytes f; f_pos := pos; f_ops := f_ops f |}).
Definition fseek_end : prog FILE unit :=
  modify (fun f => {| f_bytes := f_bytes f; f_pos := Z.of_nat (length (f_bytes f));
                      f_ops := f_ops f |}).
Definition ENOSPC : Z := 28.

(** * Filters *)

Definition FILTER_SPECIAL_VMA : Z := 1.
Definition FILTER_FILE_VMA : Z := 2.
Definition FILTER_SHARED_VMA : Z := 4.
Definition FILTER_SANITIZER_SHADOW_VMA : Z := 8.
Definition FILTER_NON_READ_VMA : Z := 16.
Definition FILTER_MINIDUMP : Z := 64.
Definition FILTER_JAVAHEAP_VMA : Z := 128.
Definition FILTER_JIT_CACHE_VMA : Z := 256.
Definition VMA_NORMAL : Z := 0.
Definition VMA_NULL : Z := 1.
Definition VMA_INCLUDE : Z := 2.

Definition named (s : string) (m : VirtualMemoryArea) : bool := bool_decide (m_file m = chars s).
(** [vma.file.compare(0, n, s) == 0]. *)
Definition name_begins (s : string) (m : VirtualMemoryArea) : bool :=
  bool_decide (take (length (chars s)) (m_file m) = chars s).
Definition area_flag (m : VirtualMemoryArea) (i : nat) : Z := default 0 (m_flags m !! i).

(** What the machine classes differ in, besides [FakeTarget]: the words of the registers that
    keep an area in a small dump. *)
Record DumpTarget := MkDumpTarget { dt_fake : FakeTarget; dt_regs : list nat }.
Definition arm64_dump : DumpTarget := MkDumpTarget arm64_target (32 :: seq 0 32)%nat.
Definition riscv64_dump : DumpTarget := MkDumpTarget riscv64_target (seq 0 32)%nat.
Definition x86_64_dump : DumpTarget := MkDumpTarget x86_64_target (seq 0 15 ++ [16])%nat.
Definition arm_dump : DumpTarget := MkDumpTarget arm_target (15 :: seq 0 15)%nat.
Definition x86_dump : DumpTarget := MkDumpTarget x86_target [0; 2; 3; 4; 5; 6; 12; 15]%nat.

(** * The members of [OpencoreImpl] *)

Record OpencoreImpl := MkOpencore {
  oc_threads : list ThreadRecord; oc_maps : list ProcArea; oc_ehdr : Ehdr; oc_shdr_info : Z;
  oc_phdr : list phdr; oc_note_offset : Z; oc_note_filesz : Z; oc_auxv : list (Z * Z);
  oc_file : list (Z * Z * Z); oc_fileslen : Z; oc_extra_note_filesz : Z;
  (** [prstatus]: pr_pid and pr_reg. *)
  oc_prstatus : list (Z * list Z) }.
Definition Prepare_dump : OpencoreImpl :=
  MkOpencore [] [] (MkEhdr 0 0 0 0) 0 [] 0 0 [] [] 0 0 [].

Section Opencore.
Context {L : Layout} {K : Kernel} `{Os}.
Context (T : DumpTarget) (h : host) (filter : Z).

Definition dump_ParserPhdr (m : VirtualMemoryArea) : phdr :=
  let flag i lower upper bit :=
    if (area_flag m i =? lower) || (area_flag m i =? upper) then bit else 0 in
  let va := uword (m_begin m) in
  let memsz := uword (uword (m_end m) - va) in
  (Z.lor (Z.lor (flag 0%nat 114 82 PF_R) (flag 1%nat 119 87 PF_W)) (flag 2%nat 120 88 PF_X),
   0, va, 0, memsz, memsz, align_size).
Definition dump_ParserNtFile (m : VirtualMemoryArea) : Z * Z * Z :=
  (uword (m_begin m), uword (m_end m), Z.shiftr (m_offset m) 12).

(** [ParseProcessMapsVma(pid)]. *)
Definition dump_ParseProcessMapsVma (pid : Z) (k : OpencoreImpl) : result OpencoreImpl :=
  let! maps := ParseMaps pid in
  match maps with
  | [] => Ok k
  | _ =>
      let vmas := map pa_vma maps in
      Ok (MkOpencore (oc_threads k) maps (oc_ehdr k) (oc_shdr_info k) (map dump_ParserPhdr vmas)
            (oc_note_offset k) (oc_note_filesz k) (oc_auxv k) (map dump_ParserNtFile vmas)
            (foldl (fun n m => i32 (n + (Z.of_nat (length (m_file m)) + 1))) (oc_fileslen k) vmas)
            (oc_extra_note_filesz k) (oc_prstatus k))
  end.

(** [CreateCoreHeader()]. *)
Definition dump_CreateCoreHeader (k : OpencoreImpl) : OpencoreImpl :=
  let actual_phnum := u32 (Z.of_nat (length (oc_phdr k)) + 1) in
  let large := PN_XNUM <=? actual_phnum in
  MkOpencore (oc_threads k) (oc_maps k)
    (if large then MkEhdr 0 PN_XNUM sh_bytes 1
     else MkEhdr 0 actual_phnum (e_shentsize (oc_ehdr k)) 0)
    (if large then actual_phnum else 0)
    (oc_phdr k) (oc_note_offset k) (oc_note_filesz k) (oc_auxv k) (oc_file k) (oc_fileslen k)
    (oc_extra_note_filesz k) (oc_prstatus k).
Definition dump_HasSection (k : OpencoreImpl) : bool := e_phnum (oc_ehdr k) =? PN_XNUM.
Definition dump_ActualPhnum (k : OpencoreImpl) : Z :=
  if dump_HasSection k then oc_shdr_info k else e_phnum (oc_ehdr k).
Definition with_dump_note (off sz : Z) (k : OpencoreImpl) : OpencoreImpl :=
  MkOpencore (oc_threads k) (oc_maps k) (oc_ehdr k) (oc_shdr_info k) (oc_phdr k) off sz
    (oc_auxv k) (oc_file k) (oc_fileslen k) (oc_extra_note_filesz k) (oc_prstatus k).
(** [CreateCoreNoteHeader()]. *)
Definition dump_CreateCoreNoteHeader (k : OpencoreImpl) : OpencoreImpl :=
  with_dump_note (uword (eh_size + dump_ActualPhnum k * ph_size)) (oc_note_filesz k) k.

(** * Threads *)

(** [ptrace(PTRACE_GETREGSET)] into a buffer; [failed] is the buffer when it fails. *)
Definition getregset (tid type : Z) (buffer failed : list Z) : list Z :=
  match k_regset tid type with Some bs => fill_buffer buffer bs | None => failed end.
Definition zeros (n : Z) : list Z := replicate (Z.to_nat n) 0.

(** The loop of [CreateCorePrStatus]: entry 0 is for the thread [main], the others follow. *)
Fixpoint prstatus_loop (main prnum cur : Z) (threads : list ThreadRecord) (l : list (Z * list Z))
    : list (Z * list Z) :=
  match threads with
  | [] => l
  | (tid, _) :: threads =>
      let idx := if tid =? main then 0 else if prnum <=? cur then 0 else cur in
      let cur := if tid =? main then cur else i32 (cur + 1) in
      let old := match l !! Z.to_nat idx with Some e => snd e | None => [] end in
      prstatus_loop main prnum cur threads
        (<[Z.to_nat idx := (u32 tid, getregset tid NT_PRSTATUS old old)]> l)
  end.
(** The size of the notes of a thread. *)
Definition thread_extra : Z :=
  let note n := n + sizeof_Nhdr + 8 in
  note (sizeof_prstatus (dt_fake T)) +
  (if is_arm64 (dt_fake T) then note 528 + note 16 + (note 16 + note 8) + note 8 else 0).
(** [CreateCorePrStatus(pid)]. *)
Definition dump_CreateCorePrStatus (main : Z) (k : OpencoreImpl) : OpencoreImpl :=
  match oc_threads k with
  | [] => k
  | threads =>
      let prnum := Z.of_nat (length threads) in
      MkOpencore threads (oc_maps k) (oc_ehdr k) (oc_shdr_info k) (oc_phdr k) (oc_note_offset k)
        (oc_note_filesz k) (oc_auxv k) (oc_file k) (oc_fileslen k)
        (i32 (oc_extra_note_filesz k + thread_extra * prnum))
        (prstatus_loop main (i32 prnum) 1 threads
           (replicate (length threads) (0, zeros (sizeof_pt_regs (dt_fake T)))))
  end.

(** The entries [fread] reads. *)
Fixpoint auxv_entries (n : nat) (bs : list Z) : list (Z * Z) :=
  match n with
  | O => []
  | S n =>
      if Z.of_nat (length bs) <? 2 * lw then []
      else (le_value (take (Z.to_nat lw) bs), le_value (take (Z.to_nat lw) (drop (Z.to_nat lw) bs)))
             :: auxv_entries n (drop (Z.to_nat (2 * lw)) bs)
  end.
(** [CreateCoreAUXV(pid)]. *)
Definition dump_CreateCoreAUXV (pid : Z) (k : OpencoreImpl) : OpencoreImpl :=
  match k_auxv pid with
  | None => k
  | Some bs =>
      MkOpencore (oc_threads k) (oc_maps k) (oc_ehdr k) (oc_shdr_info k) (oc_phdr k)
        (oc_note_offset k) (oc_note_filesz k) (auxv_entries (length bs) bs) (oc_file k)
        (oc_fileslen k) (oc_extra_note_filesz k) (oc_prstatus k)
  end.

(** * Which areas get content *)

(** The loop of [NeedFilterFile] over the program headers of the mapped file. *)
Fixpoint file_phdrs_loop (n : nat) (h : host) (p offset ret : Z) : result Z :=
  match n with
  | O => Ok ret
  | S n =>
      let! type := host_word h (u64 (p + ph_type)) 4 in
      let! ret :=
        (if type =? PT_LOAD then
           let! off := host_word h (u64 (p + ph_offset)) lw in
           let! memsz := host_word h (u64 (p + ph_memsz)) lw in
           let pos := i32 (RoundDown (8 * lw) off os_page) in
           let end_ := i32 (uword (pos + memsz)) in
           if (u32 pos <=? offset) && (offset <? u32 end_) then
             let! flags := host_word h (u64 (p + ph_flags)) 4 in
             Ok (if nz (Z.land flags PF_W) then VMA_NORMAL else ret)
           else Ok ret
         else Ok ret) in
      file_phdrs_loop n h (u64 (p + ph_size)) offset ret
  end.
(** [NeedFilterFile(vma)]. *)
Definition NeedFilterFile (m : VirtualMemoryArea) : result Z :=
  match MmapFile_from h (m_file m) 0 with
  | (_, None) => Ok VMA_NULL
  | (h, Some map) =>
      let mem := mBegin map in
      let! magic := host_load h mem 4 in
      let! machine := (if bool_decide (magic = ELFMAG) then host_word h (u64 (mem + 18)) 2 else Ok 0) in
      if negb (bool_decide (magic = ELFMAG)) || negb (machine =? getMachine (dt_fake T)) then
        Ok VMA_NULL
      else
        let! phnum := host_word h (u64 (mem + eh_phnum)) 2 in
        file_phdrs_loop (Z.to_nat phnum) h (u64 (mem + eh_size)) (m_offset m) VMA_NULL
  end.

(** [IsFilterSegment(vma)]. *)
Definition has_filter (bit : Z) : bool := nz (Z.land filter bit).
Definition IsFilterSegment (a : ProcArea) : result Z :=
  let m := pa_vma a in
  let flag := area_flag m in
  if has_filter FILTER_SPECIAL_VMA && (named "/dev/binderfs/hwbinder" m
       || named "/dev/binderfs/binder" m || named "[vvar]" m || named "/dev/mali0" m)
  then Ok VMA_NULL
  else if has_filter FILTER_FILE_VMA && (0 <? pa_inode a) && (flag 1%nat =? 45)
  then NeedFilterFile m
  else if has_filter FILTER_SHARED_VMA && ((flag 3%nat =? 115) || (flag 3%nat =? 83))
  then Ok VMA_NULL
  else if has_filter FILTER_SANITIZER_SHADOW_VMA && (named "[anon:low shadow]" m
            || named "[anon:high shadow]" m || name_begins "[anon:hwasan" m)
  then Ok VMA_NULL
  else if has_filter FILTER_NON_READ_VMA
            && ((flag 0%nat =? 45) && (flag 1%nat =? 45) && (flag 2%nat =? 45))
  then Ok VMA_NULL
  else if has_filter FILTER_JAVAHEAP_VMA && name_begins "[anon:dalvik" m then Ok VMA_NULL
  else if has_filter FILTER_JIT_CACHE_VMA && name_begins "/memfd:jit" m then Ok VMA_NULL
  else Ok VMA_NORMAL.

(** [IsSpecialFilterSegment(vma)] of the machine classes. *)
Definition register (regs : list Z) (i : nat) : Z :=
  le_value (take (Z.to_nat lw) (drop (i * Z.to_nat lw) regs)).
Definition IsSpecialFilterSegment (k : OpencoreImpl) (m : VirtualMemoryArea) : Z :=
  if has_filter FILTER_MINIDUMP then
    match oc_prstatus k with
    | [] => VMA_NULL
    | (_, regs) :: _ =>
        if existsb (fun i => (m_begin m <=? register regs i) && (register regs i <? m_end m))
             (dt_regs T)
        then VMA_INCLUDE else VMA_NULL
    end
  else VMA_NORMAL.

Definition with_filesz (fsz : Z) (ph : phdr) : phdr :=
  let '(f, off, va, pa, _, msz, al) := ph in (f, off, va, pa, fsz, msz, al).
Definition filtered_phdr (vma_flag : Z) (ph : phdr) : phdr :=
  let ph := if nz (Z.land vma_flag VMA_NULL) then with_filesz 0 ph else ph in
  if nz (Z.land vma_flag VMA_INCLUDE) then with_filesz (h_msz ph) ph else ph.
Fixpoint filter_loop (k : OpencoreImpl) (maps : list ProcArea) (l : list phdr)
    : result (list phdr) :=
  match maps, l with
  | a :: maps, ph :: l =>
      let! v := IsFilterSegment a in
      let! rest := filter_loop k maps l in
      Ok (filtered_phdr (Z.lor v (IsSpecialFilterSegment k (pa_vma a))) ph :: rest)
  | _, _ => Ok []
  end.
(** [SpecialCoreFilter()]. *)
Definition SpecialCoreFilter (k : OpencoreImpl) : result OpencoreImpl :=
  let! l := filter_loop k (oc_maps k) (oc_phdr k) in
  Ok (MkOpencore (oc_threads k) (oc_maps k) (oc_ehdr k) (oc_shdr_info k) l (oc_note_offset k)
        (oc_note_filesz k) (oc_auxv k) (oc_file k) (oc_fileslen k) (oc_extra_note_filesz k)
        (oc_prstatus k)).

(** * Writing *)

(** The size [WriteCoreNoteHeader] computes. *)
Definition dump_note_size (k : OpencoreImpl) : Z :=
  let auxvnum := Z.of_nat (length (oc_auxv k)) in
  let sz := uword (oc_note_filesz k + (2 * lw * auxvnum + sizeof_Nhdr + 8)) in
  let sz := uword (sz + oc_extra_note_filesz k) in
  uword (sz + (3 * lw * Z.of_nat (length (oc_phdr k)) + sizeof_Nhdr + 8 + 2 * lw
               + RoundUp 32 (oc_fileslen k) 4)).
(** [WriteCoreProgramHeaders] sets the offsets. *)
Definition placed_phdrs (k : OpencoreImpl) : list phdr :=
  place_phdrs (RoundUp (8 * lw) (uword (oc_note_offset k + oc_note_filesz k)) align_size)
    (oc_phdr k).

Definition status_bytes (e : Z * list Z) : list Z :=
  let '(pid, regs) := e in
  zeros (pr_pid (dt_fake T)) ++ le_bytes 4 pid
  ++ zeros (pr_reg (dt_fake T) - pr_pid (dt_fake T) - 4) ++ regs
  ++ zeros (sizeof_prstatus (dt_fake T) - pr_reg (dt_fake T) - sizeof_pt_regs (dt_fake T)).
(** [WriteCoreFpRegs], [WriteCoreTLS], [WriteCorePAC], [WriteCoreMTE]. *)
Definition fp_chunks (tid : Z) : list (list Z) :=
  [nhdr_bytes NOTE_CORE_NAME_SZ 528 NT_FPREGSET; CORE_magic;
   getregset tid NT_FPREGSET (zeros 528) (zeros 528)].
Definition tls_chunks (tid : Z) : list (list Z) :=
  [nhdr_bytes NOTE_LINUX_NAME_SZ 16 NT_ARM_TLS; LINUX_magic;
   getregset tid NT_ARM_TLS (k_stack 16) (zeros 16)].
Definition default_mask : list Z :=
  le_bytes 8 (GENMASK_UL 54 DEF_VA_BITS) ++ le_bytes 8 (GENMASK_UL 54 DEF_VA_BITS).
Definition dump_pac_chunks (tid : Z) : list (list Z) :=
  [nhdr_bytes NOTE_LINUX_NAME_SZ 16 NT_ARM_PAC_MASK; LINUX_magic;
   getregset tid NT_ARM_PAC_MASK (k_stack 16) default_mask;
   nhdr_bytes NOTE_LINUX_NAME_SZ 8 NT_ARM_PAC_ENABLED_KEYS; LINUX_magic;
   getregset tid NT_ARM_PAC_ENABLED_KEYS (k_stack 8) (le_bytes 8 (2 ^ 64 - 1))].
Definition mte_chunks (tid : Z) : list (list Z) :=
  [nhdr_bytes NOTE_LINUX_NAME_SZ 8 NT_ARM_TAGGED_ADDR_CTRL; LINUX_magic;
   getregset tid NT_ARM_TAGGED_ADDR_CTRL (k_stack 8) (le_bytes 8 (2 ^ 64 - 1))].
(** What [WriteCorePrStatus] writes for a thread. *)
Definition thread_chunks (e : Z * list Z) : list (list Z) :=
  [nhdr_bytes NOTE_CORE_NAME_SZ (sizeof_prstatus (dt_fake T)) NT_PRSTATUS; CORE_magic; status_bytes e]
  ++ (if is_arm64 (dt_fake T) then
        fp_chunks (i32 (fst e)) ++ tls_chunks (i32 (fst e)) ++ dump_pac_chunks (i32 (fst e))
        ++ mte_chunks (i32 (fst e))
      else []).
(** [WriteCoreAUXV]. *)
Definition dump_auxv_chunks (k : OpencoreImpl) : list (list Z) :=
  [nhdr_bytes NOTE_CORE_NAME_SZ (u32 (2 * lw * Z.of_nat (length (oc_auxv k)))) NT_AUXV; CORE_magic]
  ++ map (fun e => word_bytes (fst e) ++ word_bytes (snd e)) (oc_auxv k).
(** [WriteNtFile]: in lp64 eight bytes are written from the 4-byte member [page_size]. *)
Definition dump_page_size : list Z :=
  le_bytes 4 os_page ++ (if lw =? 8 then le_bytes 4 k_beside else []).
Definition dump_nt_file_chunks (k : OpencoreImpl) : list (list Z) :=
  let phnum := Z.of_nat (length (oc_phdr k)) in
  [nhdr_bytes NOTE_CORE_NAME_SZ
     (u32 (3 * lw * phnum + 2 * lw + RoundUp 32 (oc_fileslen k) 4)) NT_FILE;
   CORE_magic; word_bytes phnum; dump_page_size]
  ++ map (fun f => let '(b, e, o) := f in word_bytes b ++ word_bytes e ++ word_bytes o) (oc_file k)
  ++ map (fun a => m_file (pa_vma a) ++ [0]) (oc_maps k).
(** [AlignNoteSegment]: how many zeros. *)
Definition note_padding (k : OpencoreImpl) : Z :=
  let align_filesz := uword (uword (oc_note_filesz k - RoundUp 32 (oc_fileslen k) 4) + oc_fileslen k) in
  let end_ := uword (oc_note_offset k + align_filesz) in
  uword (RoundUp (8 * lw) end_ align_size - end_).

Context `{Disk}.

(** The page of the process at the [i]-th place of an area: what [pread64] leaves in the
    buffer.  The distance is an [unsigned int]. *)
Definition page_at (pid va i : Z) : list Z :=
  let addr := uword (va + u32 (i * align_size)) in
  match k_pread pid addr align_size with
  | Some bs => fill_buffer (zeros align_size) bs
  | None => zeros align_size
  end.
(** The pages of an area: [None] when all are written, or the error. *)
Fixpoint write_pages (n : nat) (pid va i : Z) : prog FILE (option Z) :=
  match n with
  | O => pret None
  | S n =>
      let$ e := fput (page_at pid va i) in
      match e with None => write_pages n pid va (i + 1) | Some e => pret (Some e) end
  end.
Definition page_count (ph : phdr) : nat := Z.to_nat (i32 (h_msz ph / align_size)).
(** The loop of [WriteCoreLoadSegment]. *)
Fixpoint write_areas (pid : Z) (l : list phdr) : prog FILE unit :=
  match l with
  | [] => pret tt
  | ph :: l =>
      if 0 <? h_fsz ph then
        let$ current_pos := ftell in
        let$ e := write_pages (page_count ph) pid (h_va ph) 0 in
        match e with
        | None => write_areas pid l
        | Some e =>
            if e =? ENOSPC then pret tt
            else
              let$ _ :=
                (if 0 <? current_pos then
                   let$ _ := fseek current_pos in
                   fputs (replicate (page_count ph) (zeros align_size))
                 else pret tt) in
              write_areas pid l
        end
      else write_areas pid l
  end.
Definition WriteCoreLoadSegment (pid : Z) (k : OpencoreImpl) : prog FILE unit :=
  if k_mem pid then write_areas pid (oc_phdr k) else pret tt.

(** [WriteExtendSection]. *)
Definition WriteExtendSection (k : OpencoreImpl) : prog FILE unit :=
  if dump_HasSection k then
    let$ pos := ftell in
    let e := oc_ehdr k in
    let$ _ := fputs [count_shdr (oc_shdr_info k)] in
    let$ _ := fseek 0 in
    let$ _ := fputs [ehdr_bytes (dt_fake T)
      (MkEhdr (uword pos) (e_phnum e) (e_shentsize e) (e_shnum e))] in
    fseek_end
  else pret tt.

(** The members when everything is collected. *)
Definition collect_process (pid tid : Z) : result OpencoreImpl :=
  let k := Prepare_dump in
  let k := MkOpencore (StopTheWorld pid) (oc_maps k) (oc_ehdr k) (oc_shdr_info k) (oc_phdr k)
             (oc_note_offset k) (oc_note_filesz k) (oc_auxv k) (oc_file k) (oc_fileslen k)
             (oc_extra_note_filesz k) (oc_prstatus k) in
  let! k := dump_ParseProcessMapsVma pid k in
  SpecialCoreFilter (dump_CreateCoreAUXV pid (dump_CreateCorePrStatus tid
    (dump_CreateCoreNoteHeader (dump_CreateCoreHeader k)))).
(** All writes. *)
Definition write_core (pid : Z) (k : OpencoreImpl) : prog FILE unit :=
  let$ _ := fputs [ehdr_bytes (dt_fake T) (oc_ehdr k)] in
  let k := with_dump_note (oc_note_offset k) (dump_note_size k) k in
  let$ _ := fputs [phdr_bytes PT_NOTE (0, oc_note_offset k, 0, 0, oc_note_filesz k, 0, 0)] in
  let$ _ := fputs (map (phdr_bytes PT_LOAD) (placed_phdrs k)) in
  let$ _ := fputs (flat_map thread_chunks (oc_prstatus k)) in
  let$ _ := fputs (dump_auxv_chunks k) in
  let$ _ := fputs (dump_nt_file_chunks k) in
  let$ _ := fputs [zeros (note_padding k)] in
  let$ _ := WriteCoreLoadSegment pid k in
  WriteExtendSection k.
(** [DoCoredump(filename)]: the file, if it could be opened ([opened]). *)
Definition DoCoredump (pid tid : Z) (opened : bool) : result (option (list Z)) :=
  if negb (isAlive pid) || negb opened then Ok None
  else
    let! k := collect_process pid tid in
    let '(f, r) := write_core pid k {| f_bytes := []; f_pos := 0; f_ops := 0 |} in
    let! _ := r in Ok (Some (f_bytes f)).
End Opencore.
