(* ===== verification/DumpProofs.v ===== *)
(** Dumping a process: the notes of a dump ([CoreDump]), parsed by the loader (every thread with
    its registers, on arm64 with floating-point and tls registers, and the address mask of the
    PAC notes), and the layout of the file for a process that is [dumpable].

    The file is laid out as headers, notes, the pages of the areas that are not left out, and,
    for 65535 headers or more, a section header that counts them. *)

From Stdlib Require Import ZArith Lia Bool String.
From stdpp Require Import base list gmap numbers.
From S2P Require Import Prelude Words Text Host Blocks Notes CoreApi Segments AddressSpace MemRef Elf.
From S2P Require Import CoreLoad LoadProofs SaveCore SaveProofs FakeBuild NoteProofs FakeProofs.
From S2P Require Import Process CoreDump.
Open Scope Z_scope.

(** * The notes of threads *)

Lemma fill_length buffer bs : length (fill_buffer buffer bs) = length buffer.
Proof. unfold fill_buffer. rewrite length_app, length_take, length_drop. lia. Qed.
Lemma zeros_length n : 0 <= n -> Z.of_nat (length (zeros n)) = n.
Proof. intros. unfold zeros. rewrite length_replicate. lia. Qed.

(** A note: the size and the bytes of its name, its type and its description. *)
Definition note : Type := Z * list Z * Z * list Z.
Definition bytes_of_note (x : note) : list Z :=
  let '(n, magic, type, desc) := x in note_bytes n magic type desc.

Section DumpNotes.
Context {L : Layout} {HL : StdLayout L} {CB : NoteCallback} {K : Kernel}.
Context (T : DumpTarget) {HT : TargetOk CB (dt_fake T)}.

Lemma getregset_length tid type buffer failed :
  length failed = length buffer -> length (getregset tid type buffer failed) = length buffer.
Proof. intros. unfold getregset. destruct (k_regset tid type); [apply fill_length|done]. Qed.

Definition fp_regs (tid : Z) : list Z := getregset tid NT_FPREGSET (zeros 528) (zeros 528).
Definition tls_regs (tid : Z) : list Z := getregset tid NT_ARM_TLS (k_stack 16) (zeros 16).
Definition pac_masks (tid : Z) : list Z := getregset tid NT_ARM_PAC_MASK (k_stack 16) default_mask.
Definition pac_keys (tid : Z) : list Z :=
  getregset tid NT_ARM_PAC_ENABLED_KEYS (k_stack 8) (le_bytes 8 (2 ^ 64 - 1)).
Definition tag_ctrl (tid : Z) : list Z :=
  getregset tid NT_ARM_TAGGED_ADDR_CTRL (k_stack 8) (le_bytes 8 (2 ^ 64 - 1)).

Definition arm64_notes (tid : Z) : list note :=
  [(NOTE_CORE_NAME_SZ, CORE_magic, NT_FPREGSET, fp_regs tid);
   (NOTE_LINUX_NAME_SZ, LINUX_magic, NT_ARM_TLS, tls_regs tid);
   (NOTE_LINUX_NAME_SZ, LINUX_magic, NT_ARM_PAC_MASK, pac_masks tid);
   (NOTE_LINUX_NAME_SZ, LINUX_magic, NT_ARM_PAC_ENABLED_KEYS, pac_keys tid);
   (NOTE_LINUX_NAME_SZ, LINUX_magic, NT_ARM_TAGGED_ADDR_CTRL, tag_ctrl tid)].
Definition thread_notes (e : Z * list Z) : list note :=
  (NOTE_CORE_NAME_SZ, CORE_magic, NT_PRSTATUS, status_bytes T e)
  :: (if is_arm64 (dt_fake T) then arm64_notes (i32 (fst e)) else []).

(** What a thread and the kernel must satisfy: full register sets, and for arm64 one address
    size in the PAC masks of all threads. *)
Record status_ok (va : Z) (e : Z * list Z) : Prop := {
  so_pid : 0 <= fst e < 2 ^ 32;
  so_regs : Z.of_nat (length (snd e)) = sizeof_pt_regs (dt_fake T);
  so_mask : is_arm64 (dt_fake T) = true ->
    le_value (take 8 (pac_masks (i32 (fst e)))) = GENMASK_UL 54 va;
}.
Definition stack_ok : Prop := forall n, 0 <= n -> Z.of_nat (length (k_stack n)) = n.

Lemma status_length e va : status_ok va e ->
  Z.of_nat (length (status_bytes T e)) = sizeof_prstatus (dt_fake T).
Proof.
  intros [_ Hr _]. pose proof to_sizes as Ht. destruct e as [pid regs]. unfold status_bytes.
  cbn [snd] in Hr. unfold zeros. rewrite !length_app, !length_replicate, le_bytes_length. lia.
Qed.

Lemma note_lengths tid : stack_ok ->
  map (fun x : note => Z.of_nat (length (snd x))) (arm64_notes tid) = [528; 16; 16; 8; 8].
Proof.
  intros Hs. pose proof (Hs 16 ltac:(lia)). pose proof (Hs 8 ltac:(lia)).
  unfold arm64_notes, fp_regs, tls_regs, pac_masks, pac_keys, tag_ctrl. cbn [map snd].
  rewrite !getregset_length; [|by unfold zeros, default_mask;
    rewrite ?length_replicate, ?length_app, ?le_bytes_length; lia..].
  repeat f_equal; try lia.
Qed.

(** The chunks of a thread are the bytes of its notes. *)
Lemma thread_chunks_eq va e : stack_ok -> status_ok va e ->
  concat (thread_chunks T e) = concat (map bytes_of_note (thread_notes e)).
Proof.
  intros Hs He. pose proof (status_length e va He) as Hl. pose proof (note_lengths (i32 (fst e)) Hs) as Hn.
  unfold thread_chunks, thread_notes, fp_chunks, tls_chunks, dump_pac_chunks, mte_chunks.
  unfold arm64_notes in *. cbn [map snd] in Hn. injection Hn as H1 H2 H3 H4 H5.
  destruct (is_arm64 (dt_fake T)); cbn [app concat map]; unfold bytes_of_note, note_bytes;
    rewrite ?H1, ?H2, ?H3, ?H4, ?H5, Hl; fold (fp_regs (i32 (fst e))) (tls_regs (i32 (fst e)))
      (pac_masks (i32 (fst e))) (pac_keys (i32 (fst e))) (tag_ctrl (i32 (fst e)));
    by rewrite ?app_nil_r, <- ?app_assoc.
Qed.
Lemma dumped_notes_length va e : stack_ok -> status_ok va e ->
  Z.of_nat (length (concat (map bytes_of_note (thread_notes e)))) = thread_extra T.
Proof.
  intros Hs He. pose proof (status_length e va He) as Hl. pose proof (note_lengths (i32 (fst e)) Hs) as Hn.
  unfold thread_notes, thread_extra, arm64_notes in *. cbn [map snd] in Hn.
  injection Hn as H1 H2 H3 H4 H5. unfold sizeof_Nhdr.
  destruct (is_arm64 (dt_fake T)); cbn [concat map bytes_of_note]; rewrite !length_app, !Nat2Z.inj_add;
    rewrite ?(note_bytes_length _ _ _ _ core_name_ok), ?(note_bytes_length _ _ _ _ linux_name_ok);
    rewrite ?H1, ?H2, ?H3, ?H4, ?H5, Hl; cbn [length]; lia.
Qed.

(** * Parsing *)

(** The thread the notes at [pos] give. *)
Definition dumped_thread (e : Z * list Z) (pos : Z) : ThreadApi :=
  if is_arm64 (dt_fake T)
  then MkThread (i32 (fst e)) pos (snd e) (fp_regs (i32 (fst e))) (tls_regs (i32 (fst e)))
  else MkThread (i32 (fst e)) pos (snd e) [] [].
Definition thread_masks (va : Z) (c : CoreApi) : CoreApi :=
  if is_arm64 (dt_fake T) then with_masks c (pointer_mask c) (GENMASK_UL (va - 1) 0) else c.

Lemma status_read c e va pos :
  status_ok va e -> host_wf (host_mem c) -> holds (host_mem c) pos (status_bytes T e) -> 0 <= pos ->
  pos + sizeof_prstatus (dt_fake T) < 2 ^ 64 ->
  cb_prstatus c pos = Ok (MkThread (i32 (fst e)) pos (snd e) [] []).
Proof.
  intros [Hpid Hr _] Hh H Hp He. pose proof to_sizes as Ht. rewrite to_cb. unfold thread_of_prstatus.
  destruct e as [pid regs]. cbn [fst snd] in *. unfold status_bytes, zeros in H.
  apply holds_app in H as [_ H]; [|done].
  apply holds_app in H as [H1 H]; [|done]. apply holds_app in H as [_ H]; [|done].
  apply holds_app in H as [H2 _]; [|done].
  rewrite !length_replicate, le_bytes_length in *. rewrite Z2Nat.id in H1 by lia.
  rewrite !wrap_small by lia.
  assert (host_word (host_mem c) (pos + pr_pid (dt_fake T)) 4 = Ok pid) as ->.
  { apply (holds_le _ _ 4); [done|done|lia]. }
  cbn [rbind]. unfold holds in H2. rewrite Hr in H2.
  match type of H2 with host_load _ ?a _ = _ =>
    replace a with (pos + pr_reg (dt_fake T)) in H2 by lia end.
  by rewrite H2.
Qed.

Lemma addThreadItem_lookup t b : mThread (addThreadItem (Some t) b) !! length (mThread b) = Some t.
Proof. cbn. rewrite lookup_app_r by lia. by rewrite Nat.sub_diag. Qed.
Lemma addThreadItem_replace t t' b :
  with_thread (addThreadItem (Some t) b) (Some (length (mThread b))) (Some t')
    = addThreadItem (Some t') b.
Proof.
  unfold with_thread, addThreadItem. cbn [mThread mAuxv mFile mAuxvMax]. f_equal.
  rewrite insert_app_r_alt by lia. by rewrite Nat.sub_diag.
Qed.

(** A note behind the status of a thread. *)
Lemma parse_thread_note c c' b t t' pos n type desc :
  note_at (host_mem c) pos n type desc -> other_type type -> desc <> [] ->
  cb_note c type (pos + 20) (Some t) = Ok (c', Some t') ->
  parse_note c (addThreadItem (Some t) b) (Some (length (mThread b))) pos
    = Ok (c', addThreadItem (Some t') b, Some (length (mThread b)),
          pos + 20 + Z.of_nat (length desc)).
Proof.
  intros [E1 E2 E3 E4 E5 _] (T1 & T2 & T3) Hd Ht. unfold parse_note. cbn zeta.
  rewrite E1, E2, E3. cbn [rbind].
  destruct (Z.eqb_spec (Z.of_nat (length desc)) 0) as [|_]; [by destruct desc|].
  rewrite E4. destruct (Z.eqb_spec type NT_PRSTATUS); [done|].
  destruct (Z.eqb_spec type NT_AUXV); [done|]. destruct (Z.eqb_spec type NT_FILE); [done|].
  rewrite addThreadItem_lookup, Ht. cbn [rbind]. by rewrite addThreadItem_replace, E5.
Qed.

Lemma loops_note c c' b t t' pos end_ n magic type desc rest r :
  host_wf (host_mem c) -> note_name_ok n magic -> holds (host_mem c) pos (note_bytes n magic type desc ++ rest) ->
  0 <= pos -> pos + 20 + Z.of_nat (length desc) <= end_ -> end_ < 2 ^ 64 -> 0 <= type < 2 ^ 32 ->
  other_type type -> Z.of_nat (length desc) mod 4 = 0 -> 0 < Z.of_nat (length desc) < 1024 ->
  (holds (host_mem c) (pos + 20) desc -> cb_note c type (pos + 20) (Some t) = Ok (c', Some t')) ->
  (holds (host_mem c) (pos + 20 + Z.of_nat (length desc)) rest ->
     loops c' (addThreadItem (Some t') b) (Some (length (mThread b)))
       (pos + 20 + Z.of_nat (length desc)) end_ r) ->
  loops c (addThreadItem (Some t) b) (Some (length (mThread b))) pos end_ r.
Proof.
  intros Hh Hn H Hp He He2 Ht Ho H4 Hl Hcb Hnext.
  apply (take_note _ _ _ _ _ _ _ Hh Hn) in H as [N H]; [|lia || done..].
  eapply loops_step; [|lia| |by apply Hnext].
  - apply (parse_thread_note c c' b t t' pos n type desc N Ho).
    + intros ->. cbn in Hl. lia.
    + apply Hcb, (na_desc _ _ _ _ _ N).
  - lia.
Qed.

(** What the notes of arm64 do. *)
Lemma holds_word_ok h a bs : holds h a bs -> Z.of_nat (length bs) = 8 ->
  host_word h a 8 = Ok (le_value bs).
Proof. intros H E. unfold host_word. unfold holds in H. rewrite E in H. by rewrite H. Qed.

Lemma arm64_word c pos type bs t :
  is_arm64 (dt_fake T) = true -> type = NT_ARM_TAGGED_ADDR_CTRL \/ type = NT_ARM_PAC_ENABLED_KEYS ->
  holds (host_mem c) pos bs -> Z.of_nat (length bs) = 8 -> cb_note c type pos t = Ok (c, t).
Proof.
  intros Ha Ht H E. destruct (to_arm64 Ha) as [-> _]. cbn [cb_note arm64_callback].
  unfold arm64_note. pose proof (holds_word_ok _ _ _ H E) as Hw.
  by destruct Ht as [-> | ->]; cbn -[host_word]; rewrite Hw.
Qed.
Lemma arm64_pac c pos bs t va :
  is_arm64 (dt_fake T) = true -> host_wf (host_mem c) -> holds (host_mem c) pos bs ->
  Z.of_nat (length bs) = 16 -> 0 <= pos -> pos + 16 < 2 ^ 64 ->
  le_value (take 8 bs) = GENMASK_UL 54 va -> 0 < va <= 54 ->
  cb_note c NT_ARM_PAC_MASK pos t = Ok (with_masks c (pointer_mask c) (GENMASK_UL (va - 1) 0), t).
Proof.
  intros Ha Hh H E Hp He Hm Hva. destruct (to_arm64 Ha) as [-> _]. cbn [cb_note arm64_callback].
  rewrite <- (take_drop 8 bs) in H. apply holds_app in H as [H1 H2]; [|done].
  rewrite length_take in H2. replace (Z.of_nat (8 `min` length bs)) with 8 in H2 by lia.
  apply holds_word_ok in H1; [|rewrite length_take; lia].
  apply holds_word_ok in H2; [|rewrite length_drop; lia].
  unfold arm64_note. change (NT_ARM_PAC_MASK =? NT_FPREGSET) with false.
  change (NT_ARM_PAC_MASK =? NT_ARM_TLS) with false.
  change (NT_ARM_PAC_MASK =? NT_ARM_PAC_MASK) with true. cbn iota zeta.
  rewrite H1. cbn [rbind]. rewrite wrap_small by lia. rewrite H2. cbn [rbind].
  rewrite Hm. assert (ctzll (GENMASK_UL 54 va) = Ok va) as -> by (apply (ctzll_mask (MkStream 0 [] [] 0 0)); lia). done.
Qed.
Lemma arm64_regs c pos bs t :
  is_arm64 (dt_fake T) = true -> holds (host_mem c) pos bs ->
  (Z.of_nat (length bs) = 528 -> cb_note c NT_FPREGSET pos (Some t)
     = Ok (c, Some (MkThread (mPid t) (mPrs t) (t_reg t) bs (t_tls t)))) /\
  (Z.of_nat (length bs) = 16 -> cb_note c NT_ARM_TLS pos (Some t)
     = Ok (c, Some (MkThread (mPid t) (mPrs t) (t_reg t) (t_fpr t) bs))).
Proof.
  intros Ha H. destruct (to_arm64 Ha) as [-> _]. cbn [cb_note arm64_callback]. unfold holds in H.
  split; intros E; rewrite E in H; unfold arm64_note; cbn -[host_load]; by rewrite H.
Qed.

(** The notes of arm64 behind the status of a thread. *)
Lemma arm64_loops c b pid prs regs pos tid va end_ rest r :
  is_arm64 (dt_fake T) = true -> stack_ok -> 0 < va <= 54 ->
  le_value (take 8 (pac_masks tid)) = GENMASK_UL 54 va ->
  host_wf (host_mem c) -> 0 <= pos -> end_ < 2 ^ 64 -> pos + 676 <= end_ ->
  holds (host_mem c) pos (concat (map bytes_of_note (arm64_notes tid)) ++ rest) ->
  (holds (host_mem c) (pos + 676) rest ->
     loops (thread_masks va c)
       (addThreadItem (Some (MkThread pid prs regs (fp_regs tid) (tls_regs tid))) b)
       (Some (length (mThread b))) (pos + 676) end_ r) ->
  loops c (addThreadItem (Some (MkThread pid prs regs [] [])) b) (Some (length (mThread b))) pos end_ r.
Proof.
  intros Ha Hst Hva Hm Hh Hp He Hle H Hnext. pose proof (note_lengths tid Hst) as Hn.
  unfold arm64_notes in *. cbn [map snd concat bytes_of_note app] in *.
  injection Hn as H1 H2 H3 H4 H5. rewrite <- !app_assoc in H. cbn [app] in H.
  eapply loops_note; [done|apply core_name_ok|exact H|rewrite ?H1; try lia; try done; by split_and! ..| |].
  { intros Hd. exact (proj1 (arm64_regs _ _ _ _ Ha Hd) H1). }
  rewrite H1. clear H. intros H. cbn [mPid mPrs t_reg t_tls].
  eapply loops_note; [done|apply linux_name_ok|exact H|rewrite ?H2; try lia; try done; by split_and! ..| |].
  { intros Hd. exact (proj2 (arm64_regs _ _ _ _ Ha Hd) H2). }
  rewrite H2. clear H. intros H. cbn [mPid mPrs t_reg t_fpr].
  eapply loops_note; [done|apply linux_name_ok|exact H|rewrite ?H3; try lia; try done; by split_and! ..| |].
  { intros Hd. apply (arm64_pac c _ _ _ va Ha Hh Hd H3); [lia|lia|done|done]. }
  rewrite H3. clear H. intros H. unfold thread_masks in Hnext. rewrite Ha in Hnext.
  set (c1 := with_masks _ _ _) in *.
  eapply (loops_note c1 c1); [done|apply linux_name_ok|exact H|rewrite ?H4; try lia; try done; by split_and! ..| |].
  { intros Hd. apply (arm64_word c1 _ _ _ _ Ha ltac:(by right) Hd H4). }
  rewrite H4. clear H. intros H.
  eapply (loops_note c1 c1); [done|apply linux_name_ok|exact H|rewrite ?H5; try lia; try done; by split_and! ..| |].
  { intros Hd. apply (arm64_word c1 _ _ _ _ Ha ltac:(by left) Hd H5). }
  rewrite H5. clear H. intros H.
  match type of H with holds _ ?a _ => replace a with (pos + 676) in * by lia end. by apply Hnext.
Qed.

(** All notes of a thread. *)
Lemma thread_loops c b last va e pos end_ rest r :
  stack_ok -> 0 < va <= 54 -> status_ok va e -> host_wf (host_mem c) -> 0 <= pos -> end_ < 2 ^ 64 ->
  pos + thread_extra T <= end_ ->
  holds (host_mem c) pos (concat (map bytes_of_note (thread_notes e)) ++ rest) ->
  (holds (host_mem c) (pos + thread_extra T) rest ->
     loops (thread_masks va c) (addThreadItem (Some (dumped_thread e (pos + 20))) b)
       (Some (length (mThread b))) (pos + thread_extra T) end_ r) ->
  loops c b last pos end_ r.
Proof.
  intros Hst Hva He Hh Hp Hend Hle H Hnext. pose proof to_sizes as Ht.
  pose proof (status_length e va He) as Hl. pose proof He as [Hpid _ Hm].
  assert (Hx : thread_extra T
    = sizeof_prstatus (dt_fake T) + 20 + if is_arm64 (dt_fake T) then 676 else 0).
  { unfold thread_extra, sizeof_Nhdr. destruct (is_arm64 (dt_fake T)); lia. }
  assert (Hx0 : 0 <= if is_arm64 (dt_fake T) then 676 else 0) by (destruct (is_arm64 _); lia).
  unfold thread_notes in H. cbn [map concat bytes_of_note] in H. rewrite <- app_assoc in H.
  apply (take_note _ _ _ _ _ _ _ Hh core_name_ok) in H as [N H]; [|rewrite ?Hl; (lia || done)..].
  eapply loops_step.
  { apply (parse_prstatus c b last pos _ _ (MkThread (i32 (fst e)) (pos + 20) (snd e) [] []) N).
    - intros E. rewrite E in Hl. cbn in Hl. lia.
    - apply (status_read c e va); [done|done|apply (na_desc _ _ _ _ _ N)|lia|lia]. }
  { lia. }
  { rewrite Hl. lia. }
  rewrite Hl in *. unfold dumped_thread, thread_masks in Hnext.
  destruct (is_arm64 (dt_fake T)) eqn:Ea.
  - eapply (arm64_loops c b _ _ _ _ (i32 (fst e)) va); [auto|done|done|auto|done|lia|lia|lia|exact H|].
    intros H'. unfold thread_masks. rewrite Ea.
    replace (pos + 20 + sizeof_prstatus (dt_fake T) + 676) with (pos + thread_extra T) in * by lia.
    by apply Hnext.
  - cbn [map concat app] in H.
    replace (pos + 20 + sizeof_prstatus (dt_fake T)) with (pos + thread_extra T) in * by lia.
    by apply Hnext.
Qed.

(** The notes of all threads. *)
Fixpoint dumped_threads (l : list (Z * list Z)) (pos : Z) : list ThreadApi :=
  match l with
  | [] => []
  | e :: l => dumped_thread e (pos + 20) :: dumped_threads l (pos + thread_extra T)
  end.
Fixpoint threads_masks (va : Z) (l : list (Z * list Z)) (c : CoreApi) : CoreApi :=
  match l with
  | [] => c
  | _ :: l => threads_masks va l (thread_masks va c)
  end.
Definition with_dumped (ts : list ThreadApi) (b : NoteBlock) : NoteBlock :=
  MkNoteBlock b (mThread b ++ ts) (mAuxv b) (mFile b) (mAuxvMax b).

Lemma thread_masks_keeps va c :
  host_mem (thread_masks va c) = host_mem c /\ mCore (thread_masks va c) = mCore c /\
  mLoad (thread_masks va c) = mLoad c /\ mQuickLoad (thread_masks va c) = mQuickLoad c /\
  mNext (thread_masks va c) = mNext c /\ mNote (thread_masks va c) = mNote c /\
  QUICK_LOAD_ENABLED (thread_masks va c) = QUICK_LOAD_ENABLED c /\
  mBlocks (thread_masks va c) = mBlocks c.
Proof. unfold thread_masks. by destruct (is_arm64 (dt_fake T)). Qed.
Lemma threads_masks_keeps va l c :
  host_mem (threads_masks va l c) = host_mem c /\ mCore (threads_masks va l c) = mCore c /\
  mLoad (threads_masks va l c) = mLoad c /\ mQuickLoad (threads_masks va l c) = mQuickLoad c /\
  mNext (threads_masks va l c) = mNext c /\ mNote (threads_masks va l c) = mNote c /\
  QUICK_LOAD_ENABLED (threads_masks va l c) = QUICK_LOAD_ENABLED c /\
  mBlocks (threads_masks va l c) = mBlocks c.
Proof.
  revert c. induction l as [|e l IH]; intros c; [done|]. cbn [threads_masks].
  destruct (IH (thread_masks va c)) as (-> & -> & -> & -> & -> & -> & -> & ->).
  apply thread_masks_keeps.
Qed.

Lemma threads_loops va l : forall c b last pos end_ rest r,
  stack_ok -> 0 < va <= 54 -> Forall (status_ok va) l -> host_wf (host_mem c) -> 0 <= pos ->
  end_ < 2 ^ 64 -> pos + thread_extra T * Z.of_nat (length l) <= end_ -> 0 <= thread_extra T ->
  holds (host_mem c) pos (concat (map (fun e => concat (map bytes_of_note (thread_notes e))) l) ++ rest) ->
  (forall last', holds (host_mem c) (pos + thread_extra T * Z.of_nat (length l)) rest ->
     loops (threads_masks va l c) (with_dumped (dumped_threads l pos) b) last'
       (pos + thread_extra T * Z.of_nat (length l)) end_ r) ->
  loops c b last pos end_ r.
Proof.
  induction l as [|e l IH]; intros c b last pos end_ rest r Hst Hva Hl Hh Hp Hend Hle Hx H Hnext.
  - cbn [length map concat app dumped_threads threads_masks] in *.
    rewrite Z.mul_0_r, Z.add_0_r in Hnext. specialize (Hnext last H). unfold with_dumped in Hnext.
    rewrite app_nil_r in Hnext. by destruct b.
  - apply Forall_cons_1 in Hl as [He Hl]. rewrite length_cons in *.
    cbn [map concat] in H. rewrite <- app_assoc in H.
    eapply (thread_loops c b last va e pos end_); [done|done|done|done|done|done|nia|exact H|].
    intros H'. eapply (IH (thread_masks va c)); [done|done|done| |nia|done|nia|done| |].
    + by rewrite (proj1 (thread_masks_keeps va c)).
    + rewrite (proj1 (thread_masks_keeps va c)). exact H'.
    + rewrite (proj1 (thread_masks_keeps va c)). intros last' H2.
      replace (pos + thread_extra T + thread_extra T * Z.of_nat (length l))
        with (pos + thread_extra T * Z.of_nat (S (length l))) in * by lia.
      specialize (Hnext last' H2). cbn [dumped_threads threads_masks] in Hnext.
      unfold with_dumped in *. cbn [addThreadItem mThread mAuxv mFile mAuxvMax].
      rewrite <- app_assoc. exact Hnext.
Qed.
End DumpNotes.


(** * Writing without failures *)

Class NoFaults `{Disk} : Prop := no_faults : forall n, disk_fault n = None.
Definition at_end (f : FILE) : Prop := f_pos f = Z.of_nat (length (f_bytes f)).
(** [p] appends [out] to a file and returns [a]. *)
Definition appends {A} (p : prog FILE A) (out : list Z) (a : A) : Prop :=
  forall f, at_end f -> exists f', p f = (f', Ok a) /\ f_bytes f' = f_bytes f ++ out /\ at_end f'.

Section Writing.
Context `{NoFaults}.

Lemma write_at_end f bs : at_end f -> write_at (f_pos f) bs (f_bytes f) = f_bytes f ++ bs.
Proof.
  unfold at_end, write_at. intros ->. rewrite Nat2Z.id, firstn_all, drop_ge by lia.
  by rewrite app_nil_r.
Qed.
Lemma appends_fput bs : appends (fput bs) bs None.
Proof.
  intros f Hf. eexists. split; [unfold fput; rewrite no_faults; reflexivity|].
  cbn [f_bytes f_pos]. split; [by apply write_at_end|]. unfold at_end. cbn [f_bytes f_pos].
  rewrite write_at_end, length_app by done. unfold at_end in Hf. lia.
Qed.
Lemma appends_ret {A} (a : A) : appends (pret a) [] a.
Proof. intros f Hf. exists f. by rewrite app_nil_r. Qed.
Lemma appends_bind {A B} (p : prog FILE A) (q : A -> prog FILE B) o1 o2 a b :
  appends p o1 a -> appends (q a) o2 b -> appends (pbind p q) (o1 ++ o2) b.
Proof.
  intros Hp Hq f Hf. destruct (Hp f Hf) as (f1 & E1 & B1 & A1).
  destruct (Hq f1 A1) as (f2 & E2 & B2 & A2). exists f2. unfold pbind. rewrite E1.
  split_and!; [done|by rewrite B2, B1, app_assoc|done].
Qed.
Lemma appends_fputs chunks : appends (fputs chunks) (concat chunks) tt.
Proof.
  induction chunks as [|bs l IH]; [apply appends_ret|]. cbn [fputs foldr concat].
  eapply appends_bind; [apply appends_fput|exact IH].
Qed.
Lemma appends_ftell {A} (q : Z -> prog FILE A) out a :
  (forall pos, appends (q pos) out a) -> appends (pbind ftell q) out a.
Proof. intros Hq f Hf. unfold pbind, ftell, get, pret. exact (Hq (f_pos f) f Hf). Qed.
End Writing.

Section Pages.
Context {L : Layout} {K : Kernel} `{NoFaults}.

(** The pages of an area, and the contents of the areas. *)
Definition pages (pid va : Z) (n : nat) (i : Z) : list Z :=
  concat (map (fun k => page_at pid va (i + Z.of_nat k)) (seq 0 n)).
Definition area_content (pid : Z) (ph : phdr) : list Z :=
  if 0 <? h_fsz ph then pages pid (h_va ph) (page_count ph) 0 else [].

Lemma page_length pid va i : Z.of_nat (length (page_at pid va i)) = align_size.
Proof.
  unfold page_at. destruct (k_pread _ _ _); rewrite ?fill_length; by apply zeros_length.
Qed.
Lemma pages_succ pid va n i : pages pid va (S n) i = page_at pid va i ++ pages pid va n (i + 1).
Proof.
  unfold pages. cbn [seq map concat]. rewrite Z.add_0_r. do 2 f_equal.
  rewrite <- seq_shift, map_map. apply map_ext. intros k. f_equal. lia.
Qed.
Lemma pages_length pid va n i : Z.of_nat (length (pages pid va n i)) = align_size * Z.of_nat n.
Proof.
  revert i. induction n as [|n IH]; intros i; [cbn; lia|].
  rewrite pages_succ, length_app, Nat2Z.inj_add, page_length, IH. lia.
Qed.
Lemma pages_lookup pid va n i (j : nat) :
  Z.of_nat j < align_size * Z.of_nat n ->
  pages pid va n i !! j
    = page_at pid va (i + Z.of_nat j / align_size) !! Z.to_nat (Z.of_nat j mod align_size).
Proof.
  change align_size with 4096. revert i j. induction n as [|n IH]; intros i j Hj; [lia|].
  rewrite pages_succ. pose proof (page_length pid va i) as Hl. change align_size with 4096 in Hl.
  destruct (Z.lt_ge_cases (Z.of_nat j) 4096) as [Hlt|Hge].
  - rewrite lookup_app_l by lia. rewrite Z.div_small, Z.mod_small, Z.add_0_r, Nat2Z.id by lia. done.
  - rewrite lookup_app_r by lia. rewrite IH by lia.
    replace (Z.of_nat (j - length (page_at pid va i))) with (Z.of_nat j + (-1) * 4096) by lia.
    rewrite Z.div_add, Z_mod_plus_full by lia. do 2 f_equal. lia.
Qed.

Lemma appends_pages pid va n i : appends (write_pages n pid va i) (pages pid va n i) None.
Proof.
  revert i. induction n as [|n IH]; intros i; [apply appends_ret|].
  rewrite pages_succ. cbn [write_pages]. eapply appends_bind; [apply appends_fput|]. apply IH.
Qed.
Lemma appends_areas pid l : appends (write_areas pid l) (concat (map (area_content pid) l)) tt.
Proof.
  induction l as [|ph l IH]; [apply appends_ret|]. cbn [write_areas map concat].
  unfold area_content at 1. destruct (0 <? h_fsz ph); [|exact IH].
  apply appends_ftell. intros pos. eapply appends_bind; [apply appends_pages|exact IH].
Qed.
End Pages.

(** * The process *)

(** A thread's status: its id and the registers the kernel gives. *)
Definition thread_status {K : Kernel} (T : DumpTarget) (tid : Z) : Z * list Z :=
  (u32 tid, getregset tid NT_PRSTATUS (zeros (sizeof_pt_regs (dt_fake T)))
              (zeros (sizeof_pt_regs (dt_fake T)))).

Section Status.
Context {K : Kernel} (T : DumpTarget) (main : Z).

Lemma prstatus_others ids : forall prnum cur more m done rest,
  ~ main ∈ ids -> cur = 1 + Z.of_nat (length done) -> cur + Z.of_nat (length ids) <= prnum ->
  prnum < 2 ^ 31 ->
  prstatus_loop main prnum cur (map StopTheThread ids ++ more)
    (m :: done ++ replicate (length ids) (0, zeros (sizeof_pt_regs (dt_fake T))) ++ rest)
  = prstatus_loop main prnum (cur + Z.of_nat (length ids)) more
      (m :: done ++ map (thread_status T) ids ++ rest).
Proof.
  induction ids as [|t ids IH]; intros prnum cur more m done rest Hin Hc Hp Hlt.
  - cbn [map app length replicate]. by rewrite Z.add_0_r.
  - rewrite length_cons in *. cbn [map app replicate prstatus_loop StopTheThread].
    rewrite elem_of_cons in Hin.
    destruct (Z.eqb_spec t main) as [->|Ht]; [tauto|].
    destruct (Z.leb_spec prnum cur); [lia|].
    rewrite sint_small by lia.
    replace (Z.to_nat cur) with (length (m :: done)) by (cbn [length]; lia).
    set (z := (0, zeros (sizeof_pt_regs (dt_fake T)))).
    change (m :: done ++ z :: replicate (length ids) z ++ rest)
      with ((m :: done) ++ z :: (replicate (length ids) z ++ rest)).
    rewrite list_lookup_middle by done.
    rewrite insert_app_r_alt, Nat.sub_diag by done. cbn [app].
    match goal with |- context [<[0%nat := ?x]> (?y :: ?l)] => change (<[0%nat := x]> (y :: l)) with (x :: l) end.
    unfold z. cbn [snd]. fold (thread_status T t). fold z.
    replace (m :: done ++ thread_status T t :: replicate (length ids) z ++ rest)
      with (m :: (done ++ [thread_status T t]) ++ replicate (length ids) z ++ rest)
      by (by rewrite <- app_assoc).
    rewrite (IH prnum (cur + 1)) by (rewrite ?length_app; cbn [length]; tauto || lia).
    rewrite <- app_assoc. f_equal. lia.
Qed.

(** The main thread comes first, the others follow in their order. *)
Lemma prstatus_order before after :
  ~ main ∈ before -> ~ main ∈ after ->
  Z.of_nat (length before + length after) + 1 < 2 ^ 31 ->
  let ids := before ++ main :: after in
  prstatus_loop main (i32 (Z.of_nat (length (map StopTheThread ids)))) 1 (map StopTheThread ids)
    (replicate (length (map StopTheThread ids)) (0, zeros (sizeof_pt_regs (dt_fake T))))
  = map (thread_status T) (main :: before ++ after).
Proof.
  intros Hb Ha Hn ids. rewrite length_map. unfold ids. rewrite length_app, length_cons, map_app.
  rewrite sint_small by lia.
  set (z := (0, zeros (sizeof_pt_regs (dt_fake T)))).
  replace (replicate (length before + S (length after)) z)
    with (z :: [] ++ replicate (length before) z ++ replicate (length after) z).
  2: { rewrite Nat.add_succ_r, replicate_S. cbn [app]. by rewrite replicate_add. }
  unfold z at 2. rewrite prstatus_others by (done || cbn; lia).
  cbn [map prstatus_loop StopTheThread]. rewrite Z.eqb_refl. change (Z.to_nat 0) with 0%nat.
  cbn [lookup list_lookup insert list_insert snd app]. fold (thread_status T main).
  rewrite <- (app_nil_r (map StopTheThread after)), <- (app_nil_r (replicate (length after) z)).
  unfold z. rewrite prstatus_others; [|done|rewrite length_map; lia|lia|lia].
  cbn [prstatus_loop]. by rewrite map_app, app_nil_r.
Qed.
End Status.

Lemma auxv_entries_read {L : Layout} {HL : StdLayout L} l n :
  Forall (fun e => 0 <= fst e < 2 ^ (8 * lw) /\ 0 <= snd e < 2 ^ (8 * lw)) l -> (length l < n)%nat ->
  auxv_entries n (flat_map aux_bytes l) = l.
Proof.
  pose proof layout_sizes as Hs. intros Hl. revert n.
  induction Hl as [|e l [He1 He2] _ IH]; intros n Hn; (destruct n as [|n]; [cbn in Hn; lia|]).
  - cbn [flat_map auxv_entries]. change (Z.of_nat (length [])) with 0.
    destruct (Z.ltb_spec 0 (2 * lw)); [done|lia].
  - cbn [flat_map length] in *. set (rest := flat_map aux_bytes l) in *. unfold aux_bytes.
    cbn [auxv_entries]. rewrite !length_app, !Nat2Z.inj_add, !word_length.
    destruct (Z.ltb_spec (lw + lw + Z.of_nat (length rest)) (2 * lw)); [lia|].
    assert (Hw : forall z, length (word_bytes z) = Z.to_nat lw).
    { intros z. pose proof (word_length z). lia. }
    rewrite <- !app_assoc. rewrite take_app_length' by (by rewrite Hw).
    rewrite drop_app_length' by (by rewrite Hw). rewrite take_app_length' by (by rewrite Hw).
    replace (Z.to_nat (2 * lw)) with (Z.to_nat lw + Z.to_nat lw)%nat by lia.
    rewrite <- drop_drop, drop_app_length' by (by rewrite Hw). rewrite drop_app_length' by (by rewrite Hw).
    rewrite IH by lia. unfold word_bytes. rewrite !le_value_bytes, Z2Nat.id by lia.
    rewrite !Z.mod_small by lia. by destruct e.
Qed.

Section Dump.
Context {L : Layout} {HL : StdLayout L} {CB : NoteCallback} {K : Kernel} `{Os}.
Context (T : DumpTarget) {HT : TargetOk CB (dt_fake T)} (h : host) (filter : Z).
Context (pid tid va : Z) (lines : list (ProcArea * nat)) (before after : list Z)
  (aux : list (Z * Z)).

Definition areas : list ProcArea := map fst lines.
Definition vmas : list VirtualMemoryArea := map pa_vma areas.
Definition statuses : list (Z * list Z) := map (thread_status T) (tid :: before ++ after).

(** The sizes of the notes, and where the contents start. *)
Definition dump_notes_size : Z :=
  thread_extra T * Z.of_nat (length statuses) + (20 + 2 * lw * (Z.of_nat (length aux) + 1))
  + file_note_size vmas.
Definition areas_size : Z := foldr (fun m n => m_end m - m_begin m + n) 0 vmas.

(** The process: it lives, its directory of tasks lists the main thread and others, its map
    has ordered areas of whole pages below 4 GiB each, and the kernel answers. *)
Record dumpable : Prop := {
  du_alive : isAlive pid = true;
  du_mem : k_mem pid = true;
  du_stack : stack_ok;
  du_text : k_maps pid = Some (maps_text lines);
  du_shown : Forall (fun e => area_shown (fst e)) lines;
  du_lines : Forall line_fits lines;
  du_bits : IsBit64 pid = true \/ Forall (fun e => m_begin (pa_vma (fst e)) <= 0xFFFFFFFF) lines;
  du_tasks : k_tasks pid = Some ([46] :: [46; 46] :: map to_string (before ++ tid :: after));
  du_ids : Forall (fun t => 0 <= t < 2 ^ 31) (before ++ tid :: after);
  du_main : ~ tid ∈ before /\ ~ tid ∈ after;
  du_masks : 0 < va <= 54 /\ (is_arm64 (dt_fake T) = true ->
    Forall (fun t => le_value (take 8 (pac_masks t)) = GENMASK_UL 54 va) (before ++ tid :: after));
  du_auxv : k_auxv pid = Some (flat_map aux_bytes (aux ++ [(0, 0)]));
  du_aux : Forall aux_ok aux;
  du_vmas : Forall vma_ok vmas;
  du_pages : Forall (fun m => (m_end m - m_begin m) mod align_size = 0 /\
    m_end m - m_begin m <= 2 ^ 32) vmas;
  du_order : pairwise (fun x y => m_end x <= m_begin y) vmas;
  du_filter : Forall (fun a => exists v, IsFilterSegment T h filter a = Ok v) areas;
  du_size : 80 * Z.of_nat (length lines) + Z.of_nat (length (names_bytes vmas))
    + 1024 * Z.of_nat (length statuses) + 1096 * Z.of_nat (length statuses)
    + 16 * Z.of_nat (length aux) + 0x3000 < 2 ^ 31;
  du_total : 80 * Z.of_nat (length lines) + Z.of_nat (length (names_bytes vmas))
    + 1024 * Z.of_nat (length statuses) + 1096 * Z.of_nat (length statuses)
    + 16 * Z.of_nat (length aux) + 0x3000 + areas_size < 2 ^ (8 * lw - 1);
}.
Hypothesis Hok : dumpable.

Let n := Z.of_nat (length lines) + 1.

(** The verdict of the filters on an area, and whether it leaves the contents out. *)
Definition verdict (a : ProcArea) : Z :=
  Z.lor (match IsFilterSegment T h filter a with Ok v => v | _ => 0 end)
    (if has_filter filter FILTER_MINIDUMP then
       if existsb (fun i => (m_begin (pa_vma a) <=? register (snd (thread_status T tid)) i)
            && (register (snd (thread_status T tid)) i <? m_end (pa_vma a))) (dt_regs T)
       then VMA_INCLUDE else VMA_NULL
     else VMA_NORMAL).
Definition left_out (a : ProcArea) : bool :=
  nz (Z.land (verdict a) VMA_NULL) && negb (nz (Z.land (verdict a) VMA_INCLUDE)).
Definition final_phdr (a : ProcArea) : phdr := filtered_phdr (verdict a) (dump_ParserPhdr (pa_vma a)).
Definition span (a : ProcArea) : Z := m_end (pa_vma a) - m_begin (pa_vma a).

Definition collected : OpencoreImpl :=
  MkOpencore (map StopTheThread (before ++ tid :: after)) areas
    (if PN_XNUM <=? n then MkEhdr 0 PN_XNUM sh_bytes 1 else MkEhdr 0 n 0 0)
    (if PN_XNUM <=? n then n else 0) (map final_phdr areas) (eh_size + n * ph_size) 0
    (aux ++ [(0, 0)]) (map dump_ParserNtFile vmas) (Z.of_nat (length (names_bytes vmas)))
    (thread_extra T * Z.of_nat (length statuses)) statuses.

Lemma lengths : length areas = length lines /\ length vmas = length lines.
Proof. unfold vmas, areas. by rewrite !length_map. Qed.
Lemma statuses_length : Z.of_nat (length statuses) = Z.of_nat (length (before ++ tid :: after)).
Proof. unfold statuses. rewrite length_map. cbn. rewrite !length_app. cbn. lia. Qed.

Lemma thread_extra_range : 0 < thread_extra T <= 1096.
Proof.
  pose proof to_sizes. unfold thread_extra, sizeof_Nhdr. destruct (is_arm64 (dt_fake T)); lia.
Qed.

Lemma filter_areas k l :
  oc_prstatus k = statuses -> Forall (fun a => exists v, IsFilterSegment T h filter a = Ok v) l ->
  filter_loop T h filter k l (map dump_ParserPhdr (map pa_vma l)) = Ok (map final_phdr l).
Proof.
  intros Hk. induction 1 as [|a l [v Hv] _ IH]; [done|]. cbn [map filter_loop].
  rewrite Hv, IH. cbn [rbind]. unfold final_phdr at 2, verdict. rewrite Hv.
  unfold IsSpecialFilterSegment. rewrite Hk. unfold statuses. cbn [map].
  by destruct (thread_status T tid).
Qed.

Lemma collect_eq : collect_process T h filter pid tid = Ok collected.
Proof.
  destruct Hok as [_ _ Hst Htext Hshown Hlines Hbits Htasks Hids [Hm1 Hm2] _ Hauxv Haux _ _ _ Hfil Hsz _].
  pose proof lengths as [Hl1 Hl2]. pose proof thread_extra_range as Hx.
  pose proof statuses_length as Hsl. pose proof layout_sizes as Hlay.
  unfold collect_process, Prepare_dump. cbn zeta. unfold dump_ParseProcessMapsVma.
  rewrite (ParseMaps_roundtrip pid lines) by done. cbn [rbind]. fold areas.
  set (k1 := match areas with [] => _ | _ => _ end).
  assert (k1 = Ok (MkOpencore (StopTheWorld pid) areas (MkEhdr 0 0 0 0) 0
    (map dump_ParserPhdr vmas) 0 0 [] (map dump_ParserNtFile vmas)
    (Z.of_nat (length (names_bytes vmas))) 0 [])) as ->.
  { unfold k1. unfold vmas. destruct areas as [|a l] eqn:Ea; [done|]. rewrite <- Ea.
    cbn [oc_threads oc_maps oc_ehdr oc_shdr_info oc_phdr oc_note_offset oc_note_filesz oc_auxv oc_file
      oc_fileslen oc_extra_note_filesz oc_prstatus].
    rewrite fileslen_sum; [done|lia|]. fold areas in Ea. change (map pa_vma areas) with vmas. lia. }
  cbn [rbind]. rewrite (StopTheWorld_ids pid (before ++ tid :: after)) by done.
  unfold dump_CreateCoreHeader.
  cbn [oc_threads oc_maps oc_ehdr oc_shdr_info oc_phdr oc_note_offset oc_note_filesz oc_auxv oc_file
    oc_fileslen oc_extra_note_filesz oc_prstatus e_shentsize].
  rewrite length_map, Hl2, wrap_small by lia. fold n.
  unfold dump_CreateCoreNoteHeader, with_dump_note, dump_ActualPhnum, dump_HasSection.
  cbn [oc_threads oc_maps oc_ehdr oc_shdr_info oc_phdr oc_note_offset oc_note_filesz oc_auxv oc_file
    oc_fileslen oc_extra_note_filesz oc_prstatus].
  set (off := uword _).
  assert (off = eh_size + n * ph_size) as ->.
  { unfold off. assert (uword (eh_size + n * ph_size) = eh_size + n * ph_size) as Hu.
    { apply wrap_small. unfold n. assert (2 ^ 32 <= 2 ^ (8 * lw)) by (apply Z.pow_le_mono_r; lia).
      destruct Hlay as [(-> & -> & ->)|(-> & -> & ->)]; lia. }
    destruct (Z.leb_spec PN_XNUM n); cbn [e_phnum]; [by rewrite Z.eqb_refl, Hu|].
    destruct (Z.eqb_spec n PN_XNUM); [lia|]. by rewrite Hu. }
  unfold dump_CreateCorePrStatus.
  cbn [oc_threads oc_maps oc_ehdr oc_shdr_info oc_phdr oc_note_offset oc_note_filesz oc_auxv oc_file
    oc_fileslen oc_extra_note_filesz oc_prstatus].
  destruct (map StopTheThread (before ++ tid :: after)) as [|th0 ths] eqn:Eth.
  { by destruct before. }
  rewrite <- Eth.
  assert (Hcnt : Z.of_nat (length before + length after) + 1 < 2 ^ 31).
  { rewrite length_app, length_cons in Hsl. lia. }
  rewrite prstatus_order by done. fold statuses.
  replace (Z.of_nat (length (map StopTheThread (before ++ tid :: after)))) with (Z.of_nat (length statuses))
    by (by rewrite length_map).
  rewrite Z.add_0_l, sint_small by nia.
  unfold dump_CreateCoreAUXV. rewrite Hauxv.
  cbn [oc_threads oc_maps oc_ehdr oc_shdr_info oc_phdr oc_note_offset oc_note_filesz oc_auxv oc_file
    oc_fileslen oc_extra_note_filesz oc_prstatus].
  rewrite auxv_entries_read.
  2: { apply Forall_app. split.
       - eapply List.Forall_impl; [|exact Haux]. intros e [He1 He2]. lia.
       - repeat constructor; cbn; try lia; apply Z.pow_pos_nonneg; lia. }
  2: { clear - HL. assert (forall l, (2 * length l <= length (flat_map aux_bytes l))%nat) as Hle.
       { intros l. pose proof (entries_length (MkStream 0 [] [] 0 0) l). pose proof layout_sizes. nia. }
       pose proof (Hle (aux ++ [(0, 0)])) as Hle2. rewrite length_app in *. cbn [length] in *. lia. }
  unfold SpecialCoreFilter.
  cbn [oc_threads oc_maps oc_ehdr oc_shdr_info oc_phdr oc_note_offset oc_note_filesz oc_auxv oc_file
    oc_fileslen oc_extra_note_filesz oc_prstatus].
  unfold vmas at 1. rewrite filter_areas by done. reflexivity.
Qed.

(** * The layout of the file *)

Definition note_start : Z := eh_size + n * ph_size.
Definition content_start : Z := RoundUp (8 * lw) (uword (note_start + dump_notes_size)) align_size.
Definition name_pad : Z :=
  RoundUp 32 (Z.of_nat (length (names_bytes vmas))) 4 - Z.of_nat (length (names_bytes vmas)).
Definition written : OpencoreImpl := with_dump_note note_start dump_notes_size collected.

Lemma pow_bounds : 2 ^ 32 <= 2 ^ (8 * lw) /\ 2 ^ (8 * lw) <= 2 ^ 64 /\ 4 <= lw <= 8.
Proof.
  pose proof layout_sizes. split_and!; [apply Z.pow_le_mono_r; lia..|lia|lia].
Qed.
Lemma name_pad_range : 0 <= name_pad < 4 /\
  (Z.of_nat (length (names_bytes vmas)) + name_pad) mod 4 = 0.
Proof.
  pose proof (du_size Hok). pose proof (RoundUp_range 32 (Z.of_nat (length (names_bytes vmas))) 2) as Hr.
  pose proof (RoundUp_divide 32 (Z.of_nat (length (names_bytes vmas))) 2) as Hd.
  change (2 ^ 2) with 4 in *. unfold name_pad. specialize (Hr ltac:(lia) ltac:(lia) ltac:(lia)).
  destruct (Hd ltac:(lia) ltac:(lia) ltac:(lia)) as [q Hq]. split; [lia|].
  replace (_ + (_ - _)) with (q * 4) by lia. apply Z_mod_mult.
Qed.
Lemma sizes :
  dump_notes_size = thread_extra T * Z.of_nat (length statuses) + (20 + 2 * lw * (Z.of_nat (length aux) + 1))
    + (20 + 2 * lw + 3 * lw * Z.of_nat (length lines)
       + (Z.of_nat (length (names_bytes vmas)) + name_pad)) /\
  0 <= note_start /\ 0 < dump_notes_size /\
  note_start + dump_notes_size <= 80 * Z.of_nat (length lines) + Z.of_nat (length (names_bytes vmas))
    + 1096 * Z.of_nat (length statuses) + 16 * Z.of_nat (length aux) + 0x1000 /\
  dump_notes_size mod 4 = 0 /\ note_start mod 4 = 0.
Proof.
  pose proof thread_extra_range as Hx. pose proof name_pad_range as [Hp Hp4]. pose proof lengths as [_ Hl].
  assert (Hns : dump_notes_size = thread_extra T * Z.of_nat (length statuses)
    + (20 + 2 * lw * (Z.of_nat (length aux) + 1))
    + (20 + 2 * lw + 3 * lw * Z.of_nat (length lines)
       + (Z.of_nat (length (names_bytes vmas)) + name_pad))).
  { unfold dump_notes_size, file_note_size, name_pad. rewrite Hl. lia. }
  assert (Hx4 : thread_extra T mod 4 = 0).
  { pose proof to_sizes as Ht. unfold thread_extra, sizeof_Nhdr.
    cbn zeta. destruct Ht as (_ & _ & _ & _ & Ht).
    set (z := sizeof_prstatus (dt_fake T)) in *.
    pose proof (Z.div_mod z 4 ltac:(lia)) as Hz. rewrite Ht in Hz.
    destruct (is_arm64 (dt_fake T)); Z.div_mod_to_equations; lia. }
  assert (Hts : 0 <= thread_extra T * Z.of_nat (length statuses) <= 1096 * Z.of_nat (length statuses)) by nia.
  unfold note_start, n. pose proof layout_sizes as Hlay.
  split_and!; [done| | | | |].
  - destruct Hlay as [(_ & -> & ->)|(_ & -> & ->)]; lia.
  - rewrite Hns. destruct Hlay as [(-> & _)|(-> & _)]; lia.
  - rewrite Hns. destruct Hlay as [(-> & -> & ->)|(-> & -> & ->)]; lia.
  - rewrite Hns. assert (exists q, thread_extra T = q * 4) as [q ->].
    { exists (thread_extra T / 4). pose proof (Z.div_mod (thread_extra T) 4). lia. }
    set (N := Z.of_nat (length (names_bytes vmas)) + name_pad) in *.
    replace (q * 4 * Z.of_nat (length statuses)) with (q * Z.of_nat (length statuses) * 4) by lia.
    set (p := q * Z.of_nat (length statuses)). pose proof (Z.div_mod N 4 ltac:(lia)) as HN.
    rewrite Hp4 in HN. set (r := N / 4) in *. rewrite HN.
    destruct Hlay as [(-> & _)|(-> & _)]; Z.div_mod_to_equations; lia.
  - destruct Hlay as [(_ & -> & ->)|(_ & -> & ->)]; Z.div_mod_to_equations; lia.
Qed.

Lemma content_start_range :
  note_start + dump_notes_size <= content_start < note_start + dump_notes_size + 4096 /\
  (4096 | content_start) /\ content_start < 2 ^ 31 /\
  content_start < 80 * Z.of_nat (length lines) + Z.of_nat (length (names_bytes vmas))
    + 1096 * Z.of_nat (length statuses) + 16 * Z.of_nat (length aux) + 0x2000.
Proof.
  pose proof sizes as (_ & S1 & S2 & S3 & _). pose proof (du_size Hok) as Hsz. pose proof pow_bounds as (P1 & _ & P3).
  unfold content_start. assert (uword (note_start + dump_notes_size) = note_start + dump_notes_size) as ->
    by (apply wrap_small; lia).
  assert (0 <= 12 < 8 * lw) as R1 by lia. assert (0 <= note_start + dump_notes_size) as R2 by lia.
  assert (note_start + dump_notes_size + 2 ^ 12 - 1 < 2 ^ (8 * lw)) as R3 by (change (2 ^ 12) with 4096; lia).
  change align_size with (2 ^ 12).
  pose proof (RoundUp_range (8 * lw) (note_start + dump_notes_size) 12 R1 R2 R3) as Hr.
  pose proof (RoundUp_divide (8 * lw) (note_start + dump_notes_size) 12 R1 R2 R3) as Hd.
  change (2 ^ 12) with 4096 in *. split_and!; lia || done.
Qed.

Lemma note_size_eq : dump_note_size collected = dump_notes_size.
Proof.
  pose proof sizes as (S0 & S1 & S2 & S3 & _). pose proof (du_size Hok) as Hsz.
  pose proof pow_bounds as (P1 & _ & P3). pose proof thread_extra_range as Hx.
  pose proof name_pad_range as [Hp _]. pose proof lengths as [Hl1 Hl2].
  unfold dump_note_size, collected.
  cbn [oc_threads oc_maps oc_ehdr oc_shdr_info oc_phdr oc_note_offset oc_note_filesz oc_auxv oc_file
    oc_fileslen oc_extra_note_filesz oc_prstatus].
  rewrite length_app, length_map, Hl1. cbn [length]. unfold sizeof_Nhdr, uword.
  assert (Hw : forall z, 0 <= z < 2 ^ 32 -> wrap (8 * lw) z = z) by (intros; apply wrap_small; lia).
  assert (0 <= thread_extra T * Z.of_nat (length statuses)) by nia.
  assert (0 <= lw * Z.of_nat (length aux)) by nia. assert (0 <= lw * Z.of_nat (length lines)) by nia.
  unfold name_pad in S0, Hp.
  rewrite (Hw (0 + _)) by lia. rewrite (Hw (_ + thread_extra T * _)) by lia. rewrite Hw by lia. lia.
Qed.

(** The padding behind the names reaches the page of the first area. *)
Lemma note_padding_eq :
  note_padding written = name_pad + (content_start - (note_start + dump_notes_size)).
Proof.
  pose proof sizes as (S0 & S1 & S2 & S3 & S4 & S5). pose proof (du_size Hok) as Hsz.
  pose proof pow_bounds as (P1 & _ & P3). pose proof name_pad_range as [Hp Hp4].
  pose proof content_start_range as ([C1 C1'] & [q C2] & C3 & _). pose proof thread_extra_range as Hx.
  unfold note_padding, written, with_dump_note, collected.
  cbn [oc_threads oc_maps oc_ehdr oc_shdr_info oc_phdr oc_note_offset oc_note_filesz oc_auxv oc_file
    oc_fileslen oc_extra_note_filesz oc_prstatus].
  set (N := Z.of_nat (length (names_bytes vmas))) in *.
  assert (Hw : forall z, 0 <= z < 2 ^ 32 -> uword z = z) by (clear - P1; intros; apply wrap_small; lia).
  replace (RoundUp 32 N 4) with (N + name_pad) by (unfold name_pad; fold N; lia).
  assert (0 <= thread_extra T * Z.of_nat (length statuses)) by nia.
  assert (0 <= lw * Z.of_nat (length aux)) by nia. assert (0 <= lw * Z.of_nat (length lines)) by nia.
  rewrite (Hw (dump_notes_size - (N + name_pad))) by lia.
  rewrite (Hw (dump_notes_size - (N + name_pad) + N)) by lia. rewrite (Hw (note_start + _)) by lia.
  set (e := note_start + (dump_notes_size - (N + name_pad) + N)).
  assert (RoundUp (8 * lw) e align_size = content_start) as ->.
  { assert (e + name_pad = note_start + dump_notes_size) as E1 by (unfold e; lia).
    assert (0 <= e) as E2 by (unfold e; lia).
    assert (0 <= 12 < 8 * lw) as R1 by lia.
    assert (e + 2 ^ 12 - 1 < 2 ^ (8 * lw)) as R3 by (change (2 ^ 12) with 4096; lia).
    change align_size with (2 ^ 12).
    pose proof (RoundUp_range (8 * lw) e 12 R1 E2 R3) as Hr.
    destruct (RoundUp_divide (8 * lw) e 12 R1 E2 R3) as [q' Hq'].
    set (R := RoundUp (8 * lw) e (2 ^ 12)) in *. change (2 ^ 12) with 4096 in *.
    assert (E4 : (e + name_pad) mod 4 = 0)
      by (rewrite E1, Zplus_mod, S4, S5; reflexivity).
    assert (e + name_pad <= R) as E5.
    { clear - Hq' Hr E4 Hp. Z.div_mod_to_equations. lia. }
    clear - C1 C1' C2 Hq' Hr Hp E1 E5. lia. }
  rewrite Hw by (unfold e; lia). unfold e. lia.
Qed.
End Dump.
