(* ===== verification/DumpLoads.v ===== *)
(** The bytes of a dump, and the dump loaded: what [DoCoredump] writes for a process of
    [DumpProofs.dumpable], part by part; and the core that the loader ([CoreLoad]) makes of it,
    which shows the process. *)

From Stdlib Require Import ZArith Lia Bool String.
From stdpp Require Import base list gmap numbers.
From S2P Require Import Prelude Words Text Host Blocks Notes CoreApi Segments AddressSpace MemRef Elf.
From S2P Require Import CoreLoad LoadProofs SaveCore SaveProofs FakeBuild NoteProofs FakeProofs.
From S2P Require Import Process CoreDump DumpProofs.
Open Scope Z_scope.

(** * Writing over the front of a file *)

Lemma write_front E E' rest : length E = length E' -> write_at 0 E (E' ++ rest) = E ++ rest.
Proof.
  intros HE. unfold write_at. change (Z.to_nat 0) with 0%nat. rewrite Nat.add_0_l, HE.
  by rewrite drop_app_length.
Qed.

Section DumpFile.
Context {L : Layout} {HL : StdLayout L} {CB : NoteCallback} {K : Kernel} `{Os}.
Context (T : DumpTarget) {HT : TargetOk CB (dt_fake T)} (h : host) (filter : Z).
Context (pid tid va : Z) (lines : list (ProcArea * nat)) (before after : list Z)
  (aux : list (Z * Z)).
Hypothesis Hok : dumpable T h filter pid tid va lines before after aux.

Let n := Z.of_nat (length lines) + 1.
#[local] Abbreviation core := (collected T h filter tid lines before after aux).
#[local] Abbreviation core_written := (written T h filter tid lines before after aux).
#[local] Abbreviation threads := (statuses T tid before after).
#[local] Abbreviation notes_size := (dump_notes_size T tid lines before after aux).
#[local] Abbreviation start := (content_start T tid lines before after aux).

(** * The notes *)

Definition notes_of_threads : list Z :=
  concat (map (fun e => concat (map bytes_of_note (thread_notes T e))) threads).
Definition note_of_auxv : list Z :=
  note_bytes NOTE_CORE_NAME_SZ CORE_magic NT_AUXV (flat_map aux_bytes (aux ++ [(0, 0)]) ++ []).
Definition named_areas : list ((Z * Z * Z) * list Z) :=
  (fun m => (dump_ParserNtFile m, m_file m)) <$> vmas lines.
Definition note_of_files : list Z :=
  note_bytes NOTE_CORE_NAME_SZ CORE_magic NT_FILE
    (file_desc dump_page_size named_areas (zeros (name_pad lines))).
Definition dump_notes : list Z := notes_of_threads ++ note_of_auxv ++ note_of_files.

Lemma ids_perm : Forall (fun t => 0 <= t < 2 ^ 31) (tid :: before ++ after).
Proof.
  pose proof (du_ids _ _ _ _ _ _ _ _ _ _ Hok) as Hi. apply Forall_app in Hi as [H1 [H2 H3]%Forall_cons_1].
  constructor; [done|]. by apply Forall_app.
Qed.

Lemma statuses_ok : Forall (status_ok T va) threads.
Proof.
  pose proof ids_perm as Hi. pose proof (du_masks _ _ _ _ _ _ _ _ _ _ Hok) as [_ Hm].
  pose proof to_sizes as Ht. unfold statuses. apply Forall_fmap.
  assert (Hm' : is_arm64 (dt_fake T) = true ->
    Forall (fun t => le_value (take 8 (pac_masks t)) = GENMASK_UL 54 va) (tid :: before ++ after)).
  { intros Ha. specialize (Hm Ha). apply Forall_app in Hm as [H1 [H2 H3]%Forall_cons_1].
    constructor; [done|]. by apply Forall_app. }
  rewrite Forall_elem in Hi. apply Forall_elem. intros t Hin. specialize (Hi t Hin). unfold thread_status.
  split; cbn [fst snd compose]; unfold thread_status; cbn [fst snd].
  - rewrite wrap_small by lia. lia.
  - rewrite getregset_length by done. apply zeros_length. lia.
  - intros Ha. pose proof (Hm' Ha) as Hm1. rewrite Forall_elem in Hm1. specialize (Hm1 t Hin).
    rewrite wrap_small, sint_small by lia. done.
Qed.

Lemma notes_of_threads_length :
  Z.of_nat (length notes_of_threads) = thread_extra T * Z.of_nat (length threads).
Proof.
  unfold notes_of_threads. pose proof statuses_ok as Hs. pose proof (du_stack _ _ _ _ _ _ _ _ _ _ Hok) as Hst.
  induction Hs as [|e l He _ IH]; [cbn; lia|]. cbn [map concat length].
  rewrite length_app, Nat2Z.inj_add, IH, (dumped_notes_length T va e Hst He). lia.
Qed.
Lemma threads_chunks : concat (flat_map (thread_chunks T) threads) = notes_of_threads.
Proof.
  unfold notes_of_threads. pose proof statuses_ok as Hs. pose proof (du_stack _ _ _ _ _ _ _ _ _ _ Hok) as Hst.
  induction Hs as [|e l He _ IH]; [done|]. cbn [map concat flat_map].
  by rewrite concat_app, (thread_chunks_eq T va e Hst He), IH.
Qed.

Lemma auxv_entries_length :
  Z.of_nat (length (flat_map aux_bytes (aux ++ [(0, 0)]) ++ [])) = 2 * lw * (Z.of_nat (length aux) + 1).
Proof.
  rewrite app_nil_r, (entries_length (MkStream 0 [] [] 0 0)), length_app. cbn [length]. f_equal. lia.
Qed.
Lemma note_of_auxv_length : Z.of_nat (length note_of_auxv) = 20 + 2 * lw * (Z.of_nat (length aux) + 1).
Proof.
  unfold note_of_auxv. by rewrite (note_bytes_length _ _ _ _ core_name_ok), auxv_entries_length.
Qed.
Lemma auxv_chunks_written : concat (dump_auxv_chunks core_written) = note_of_auxv.
Proof.
  pose proof (du_size _ _ _ _ _ _ _ _ _ _ Hok) as Hsz. pose proof layout_sizes as Hl.
  assert (0 <= lw * Z.of_nat (length aux) <= 8 * Z.of_nat (length aux)) by nia.
  unfold dump_auxv_chunks, written, with_dump_note, collected, note_of_auxv, note_bytes. cbn [oc_auxv].
  cbn [app concat]. rewrite auxv_entries_length, length_app. cbn [length].
  rewrite wrap_small by lia. rewrite app_nil_r.
  replace (concat (map _ (aux ++ [(0, 0)]))) with (flat_map aux_bytes (aux ++ [(0, 0)]))
    by apply flat_map_concat_map.
  by replace (Z.of_nat (length aux + 1)) with (Z.of_nat (length aux) + 1) by lia.
Qed.

Lemma named_lengths : length named_areas = length lines /\ length named_areas = length (vmas lines) /\
  named_areas.*1 = map dump_ParserNtFile (vmas lines) /\ named_areas.*2 = m_file <$> vmas lines.
Proof.
  unfold named_areas. rewrite !length_fmap, <- !list_fmap_compose.
  by rewrite (proj2 (lengths lines)).
Qed.
Lemma page_size_length : Z.of_nat (length dump_page_size) = lw.
Proof.
  unfold dump_page_size. destruct HL as [-> | ->]; cbn -[le_bytes];
    by rewrite ?length_app, !le_bytes_length.
Qed.
Lemma file_desc_size :
  Z.of_nat (length (file_desc dump_page_size named_areas (zeros (name_pad lines))))
    = file_note_size (vmas lines) - 20.
Proof.
  destruct named_lengths as (N1 & N2 & N3 & N4).
  pose proof (name_pad_range T h filter pid tid va lines before after aux Hok) as [Hp _].
  unfold file_desc, file_note_size. rewrite !length_app, !Nat2Z.inj_add, file_words_all, word_length, N4.
  rewrite page_size_length, length_fmap, zeros_length, N2 by lia. fold (names_bytes (vmas lines)).
  unfold name_pad. lia.
Qed.
Lemma note_of_files_length : Z.of_nat (length note_of_files) = file_note_size (vmas lines).
Proof. unfold note_of_files. rewrite (note_bytes_length _ _ _ _ core_name_ok), file_desc_size. lia. Qed.
Lemma file_chunks_written :
  concat (dump_nt_file_chunks core_written) ++ zeros (name_pad lines) = note_of_files.
Proof.
  destruct named_lengths as (N1 & N2 & N3 & N4). pose proof (lengths lines) as [L1 L2].
  pose proof (name_pad_range T h filter pid tid va lines before after aux Hok) as [Hp _].
  pose proof (du_size _ _ _ _ _ _ _ _ _ _ Hok) as Hsz. pose proof layout_sizes as Hl.
  assert (0 <= lw * Z.of_nat (length lines) <= 8 * Z.of_nat (length lines)) by nia.
  unfold note_of_files, note_bytes. rewrite file_desc_size. unfold file_note_size. rewrite L2.
  unfold dump_nt_file_chunks, written, with_dump_note, collected, file_desc.
  cbn [oc_phdr oc_fileslen oc_file oc_maps]. rewrite length_map, L1.
  replace (RoundUp 32 (Z.of_nat (length (names_bytes (vmas lines)))) 4)
    with (Z.of_nat (length (names_bytes (vmas lines))) + name_pad lines) by (unfold name_pad; lia).
  rewrite wrap_small by lia. cbn [app concat]. rewrite concat_app, N1, N3, N4.
  rewrite <- flat_map_concat_map. rewrite <- !app_assoc. f_equal; [f_equal; lia|].
  do 4 f_equal. f_equal. unfold vmas. generalize (areas lines). intros l.
  induction l as [|a l IH]; [done|]. cbn. by rewrite IH.
Qed.

Lemma dump_notes_length : Z.of_nat (length dump_notes) = notes_size.
Proof.
  unfold dump_notes. rewrite !length_app, !Nat2Z.inj_add.
  rewrite notes_of_threads_length, note_of_auxv_length, note_of_files_length. unfold dump_notes_size. lia.
Qed.

(** * The file *)

Definition placed : list phdr :=
  place_phdrs start (map (final_phdr T h filter tid) (areas lines)).
Definition contents : list Z := concat (map (area_content pid) placed).
Definition contents_end : Z := start + Z.of_nat (length contents).
Definition ehdr_final : list Z :=
  ehdr_bytes (dt_fake T)
    (if PN_XNUM <=? n then MkEhdr (uword contents_end) PN_XNUM sh_bytes 1 else MkEhdr 0 n 0 0).
Definition front : list Z :=
  phdr_bytes PT_NOTE (0, note_start lines, 0, 0, notes_size, 0, 0)
    ++ flat_map (phdr_bytes PT_LOAD) placed.
Definition gap : Z := start - (note_start lines + notes_size).
Definition dump_tail : list Z := if PN_XNUM <=? n then count_shdr n else [].
Definition dump_file : list Z :=
  ehdr_final ++ front ++ dump_notes ++ zeros gap ++ contents ++ dump_tail.

Lemma content_unplaced l off :
  concat (map (area_content pid) (place_phdrs off l)) = concat (map (area_content pid) l).
Proof.
  revert off. induction l as [|[[[[[[f o] v] pa] fsz] msz] al] l IH]; intros off; [done|].
  cbn [place_phdrs map concat]. by rewrite IH.
Qed.

Lemma front_length : Z.of_nat (length front) = note_start lines - eh_size.
Proof.
  unfold front, placed. rewrite length_app, Nat2Z.inj_add, phdr_bytes_length, phdrs_bytes_length.
  rewrite place_phdrs_length, length_map, (proj1 (lengths lines)). unfold note_start. lia.
Qed.
Lemma gap_range : 0 <= gap < 4096.
Proof.
  unfold gap. pose proof (content_start_range T h filter pid tid va lines before after aux Hok). lia.
Qed.
Lemma ehdr_size e : Z.of_nat (length (ehdr_bytes (dt_fake T) e)) = eh_size.
Proof. apply (ehdr_bytes_length (dt_fake T) (MkStream 0 [] [] 0 0) 0 0). Qed.

(** The parts before the section header, as they are first written. *)
Definition body : list Z := front ++ dump_notes ++ zeros gap ++ contents.
Lemma body_length : Z.of_nat (length body) = contents_end - eh_size.
Proof.
  unfold body. pose proof gap_range. rewrite !length_app, !Nat2Z.inj_add, front_length, dump_notes_length.
  rewrite zeros_length by lia. unfold contents_end, gap. lia.
Qed.

(** * Writing it *)

Context `{NoFaults}.

(** [p] makes of a file [bs] the file [bs']. *)
Definition makes (p : prog FILE unit) (bs bs' : list Z) : Prop :=
  forall f, at_end f -> f_bytes f = bs -> exists f', p f = (f', Ok tt) /\ f_bytes f' = bs'.
Lemma makes_bind {A} (p : prog FILE A) q out a bs bs' :
  appends p out a -> makes (q a) (bs ++ out) bs' -> makes (pbind p q) bs bs'.
Proof.
  intros Hp Hq f Hf Hb. destruct (Hp f Hf) as (f1 & E1 & B1 & A1). unfold pbind. rewrite E1.
  apply Hq; [done|]. by rewrite B1, Hb.
Qed.
Lemma makes_bind_one q bs0 bs bs' :
  makes (q tt) (bs ++ bs0) bs' -> makes (pbind (fputs [bs0]) q) bs bs'.
Proof.
  intros Hq. eapply makes_bind; [apply appends_fputs|]. cbn [concat]. by rewrite app_nil_r.
Qed.

Lemma makes_section E bs :
  Z.of_nat (length E) = eh_size -> Z.of_nat (length bs) = contents_end - eh_size ->
  E = ehdr_bytes (dt_fake T) (oc_ehdr core_written) ->
  makes (WriteExtendSection T core_written) (E ++ bs) (ehdr_final ++ bs ++ dump_tail).
Proof.
  intros HE Hbs HEe f Hf Hb. unfold WriteExtendSection, dump_HasSection, ehdr_final, dump_tail in *.
  unfold written, with_dump_note, collected in *. cbn [oc_ehdr oc_shdr_info] in *. fold n in HEe |- *.
  destruct (Z.leb_spec PN_XNUM n) as [Hx|Hx]; cbn [e_phnum] in *.
  2: { destruct (Z.eqb_spec n PN_XNUM); [lia|]. exists f. rewrite Hb, app_nil_r. by subst E. }
  rewrite Z.eqb_refl. assert (Hpos : f_pos f = contents_end) by (rewrite Hf, Hb, length_app; lia).
  assert (ftell f = (f, Ok contents_end)) as Ht by (unfold ftell, pbind, get, pret; by rewrite Hpos).
  unfold pbind at 1. rewrite Ht.
  destruct (appends_fputs [count_shdr n] f Hf) as (f1 & E1 & B1 & A1). rewrite Hb in B1.
  cbn [concat] in B1. rewrite app_nil_r, <- app_assoc in B1.
  unfold pbind at 1. rewrite E1. unfold pbind at 1, fseek, modify.
  unfold pbind at 1, fputs, foldr, pbind, fput. rewrite no_faults. unfold pret, fseek_end, modify.
  eexists. split; [reflexivity|]. cbn [f_bytes f_pos e_phnum e_shentsize e_shnum]. rewrite B1.
  apply write_front. pose proof (ehdr_size (MkEhdr (uword contents_end) PN_XNUM sh_bytes 1)). lia.
Qed.

(** Every byte that is written. *)
Lemma write_core_file :
  write_core T pid core {| f_bytes := []; f_pos := 0; f_ops := 0 |}
  = (fst (write_core T pid core {| f_bytes := []; f_pos := 0; f_ops := 0 |}), Ok tt) /\
  f_bytes (fst (write_core T pid core {| f_bytes := []; f_pos := 0; f_ops := 0 |})) = dump_file.
Proof.
  assert (Hm : makes (write_core T pid core) [] dump_file).
  { unfold write_core. rewrite (note_size_eq T h filter pid tid va lines before after aux Hok).
    change (with_dump_note (oc_note_offset core) notes_size core) with core_written.
    apply makes_bind_one. eapply makes_bind; [apply appends_fputs|].
    eapply makes_bind; [apply appends_fputs|]. eapply makes_bind; [apply appends_fputs|].
    eapply makes_bind; [apply appends_fputs|]. eapply makes_bind; [apply appends_fputs|].
    eapply makes_bind; [apply appends_fputs|].
    eapply makes_bind; [unfold WriteCoreLoadSegment; rewrite (du_mem _ _ _ _ _ _ _ _ _ _ Hok); apply appends_areas|].
    change (oc_prstatus core_written) with threads.
    rewrite threads_chunks, auxv_chunks_written, <- flat_map_concat_map.
    assert (Hgap : concat (dump_nt_file_chunks core_written) ++ zeros (note_padding core_written)
      = note_of_files ++ zeros gap).
    { rewrite <- file_chunks_written, (note_padding_eq T h filter pid tid va lines before after aux Hok), <- app_assoc.
      f_equal. fold gap. pose proof gap_range.
      pose proof (name_pad_range T h filter pid tid va lines before after aux Hok) as [Hp _].
      unfold zeros. rewrite Z2Nat.inj_add by lia. apply replicate_add. }
    assert (Hpl : placed_phdrs core_written = placed) by reflexivity. rewrite Hpl.
    assert (Hc : concat (map (area_content pid) (oc_phdr core_written)) = contents).
    { unfold contents, placed. by rewrite content_unplaced. }
    rewrite Hc. cbn [concat]. rewrite !app_nil_r. rewrite <- !app_assoc.
    rewrite (app_assoc (concat (dump_nt_file_chunks core_written))), Hgap.
    match goal with |- makes _ ?bs _ => replace bs with (ehdr_bytes (dt_fake T) (oc_ehdr core_written) ++ body) end.
    2: { unfold body, front, dump_notes. by rewrite <- !app_assoc. }
    assert (dump_file = ehdr_final ++ body ++ dump_tail) as ->
      by (unfold dump_file, body; by rewrite <- !app_assoc).
    apply makes_section; [apply ehdr_size|apply body_length|done]. }
  destruct (Hm {| f_bytes := []; f_pos := 0; f_ops := 0 |} eq_refl eq_refl) as (f' & E & B).
  by rewrite E.
Qed.

Lemma DoCoredump_writes : DoCoredump T h filter pid tid true = Ok (Some dump_file).
Proof.
  unfold DoCoredump. rewrite (du_alive _ _ _ _ _ _ _ _ _ _ Hok).
  rewrite (collect_eq T h filter pid tid va lines before after aux Hok). cbn [negb orb rbind].
  destruct write_core_file as [E B]. destruct (write_core _ _ _ _) as [f r]. cbn [fst] in *.
  injection E as ->. cbn [rbind]. by rewrite B.
Qed.
End DumpFile.


(** * Headers with their offsets *)

Definition sum_fsz (l : list phdr) : Z := foldr (fun ph s => h_fsz ph + s) 0 l.
Definition at_offset (off : Z) (ph : phdr) : phdr :=
  let '(f, _, va, pa, fsz, msz, al) := ph in (f, off, va, pa, fsz, msz, al).

Lemma sum_fsz_take i l :
  Forall (fun ph => 0 <= h_fsz ph) l -> 0 <= sum_fsz (take i l) <= sum_fsz l.
Proof.
  intros H. revert i. induction H as [|ph l Hp H IH]; intros i; [by rewrite take_nil|].
  destruct i as [|i]; cbn [take sum_fsz foldr].
  - specialize (IH 0%nat). cbn in IH. fold (sum_fsz l). lia.
  - fold (sum_fsz (take i l)) (sum_fsz l). specialize (IH i). lia.
Qed.
(** A header's content starts behind those of the headers before it. *)
Lemma sum_fsz_next i j l x :
  Forall (fun ph => 0 <= h_fsz ph) l -> (i < j)%nat -> l !! i = Some x ->
  sum_fsz (take i l) + h_fsz x <= sum_fsz (take j l).
Proof.
  intros H. revert i j. induction H as [|ph l Hp H IH]; intros i j Hij Hi; [done|].
  destruct j as [|j]; [lia|]. destruct i as [|i]; cbn in Hi.
  - injection Hi as <-. cbn [take sum_fsz foldr]. fold (sum_fsz (take j l)).
    pose proof (sum_fsz_take j l H). lia.
  - cbn [take sum_fsz foldr]. fold (sum_fsz (take i l)) (sum_fsz (take j l)).
    specialize (IH i j ltac:(lia) Hi). lia.
Qed.

Lemma place_lookup {L : Layout} l i off :
  Forall (fun ph => 0 <= h_fsz ph) l -> 0 <= off -> off + sum_fsz l < 2 ^ (8 * lw) ->
  place_phdrs off l !! i = at_offset (off + sum_fsz (take i l)) <$> l !! i.
Proof.
  intros H. revert i off. induction H as [|ph l Hp H IH]; intros i off Ho He; [done|].
  destruct ph as [[[[[[f o] v] pa] fsz] msz] al]. cbn [place_phdrs sum_fsz foldr h_fsz] in *.
  fold (sum_fsz l) in He. pose proof (sum_fsz_take 0 l H) as Hs. change (sum_fsz (take 0 l)) with 0 in Hs.
  destruct i as [|i]; cbn [lookup list_lookup take sum_fsz foldr h_fsz].
  - cbn. by rewrite Z.add_0_r.
  - fold (sum_fsz (take i l)). unfold uword. rewrite wrap_small by lia. rewrite IH by lia.
    by rewrite Z.add_assoc.
Qed.

(** A part of a concatenation. *)
Lemma concat_lookup_part {A} (ls : list (list A)) i x j :
  ls !! i = Some x -> (j < length x)%nat ->
  concat ls !! (length (concat (take i ls)) + j)%nat = x !! j.
Proof.
  revert i. induction ls as [|y ls IH]; intros [|i] Hi Hj; cbn in Hi; [done|done| |].
  - injection Hi as ->. cbn. by rewrite lookup_app_l.
  - cbn [take concat]. rewrite length_app, lookup_app_r by lia.
    rewrite <- (IH i) by done. f_equal. lia.
Qed.

(** * What a dump shows of the process *)

(** Byte [j] of an area that begins at [first]: that of the page [pread64] reads there, or 0 where
    it reads nothing. *)
Definition process_byte {K : Kernel} (pid first j : Z) : Z :=
  match k_pread pid (first + align_size * (j / align_size)) align_size with
  | Some bs => nth (Z.to_nat (j mod align_size)) bs 0
  | None => 0
  end.
(** The permissions of an area: readable 4, writable 2, executable 1. *)
Definition permissions (m : VirtualMemoryArea) : Z :=
  let allowed i s := bool_decide (default 0 (m_flags m !! i) ∈ chars s) in
  (if allowed 0%nat "rR" then 4 else 0) + (if allowed 1%nat "wW" then 2 else 0)
  + (if allowed 2%nat "xX" then 1 else 0).
(** The registers of thread [t]: what ptrace gives, zeros where it gives nothing. *)
Definition thread_registers {K : Kernel} (T : DumpTarget) (t : Z) : list Z :=
  let regs := default [] (k_regset t NT_PRSTATUS) in
  let size := Z.to_nat (sizeof_pt_regs (dt_fake T)) in
  take size (regs ++ replicate size 0).
(** A thread of the core is thread [t] of the process. *)
Definition is_thread {K : Kernel} (T : DumpTarget) (t : Z) (th : ThreadApi) : Prop :=
  mPid th = t /\ t_reg th = thread_registers T t /\
  (is_arm64 (dt_fake T) = true -> t_fpr th = fp_regs t /\ t_tls th = tls_regs t).

Section DumpLoads.
Context {L : Layout} {HL : StdLayout L} {CB : NoteCallback} {K : Kernel} `{Os}.
Context (T : DumpTarget) {HT : TargetOk CB (dt_fake T)} (h : host) (filter : Z).
Context (pid tid va : Z) (lines : list (ProcArea * nat)) (before after : list Z)
  (aux : list (Z * Z)).
Hypothesis Hok : dumpable T h filter pid tid va lines before after aux.

#[local] Abbreviation threads := (statuses T tid before after).
#[local] Abbreviation notes_size := (dump_notes_size T tid lines before after aux).
#[local] Abbreviation start := (content_start T tid lines before after aux).
#[local] Abbreviation headers_placed := (placed T h filter tid lines before after aux).
#[local] Abbreviation file := (dump_file T h filter pid tid lines before after aux).
#[local] Abbreviation area_contents := (contents T h filter pid tid lines before after aux).

(** The size of the contents of an area in the file. *)
Definition kept_size (a : ProcArea) : Z := if left_out T h filter tid a then 0 else span a.
Definition flags_of (a : ProcArea) : Z := h_flags (dump_ParserPhdr (pa_vma a)).
Definition unplaced : list phdr := map (final_phdr T h filter tid) (areas lines).

Lemma flags_range a : 0 <= flags_of a < 8.
Proof.
  unfold flags_of, dump_ParserPhdr. cbn [h_flags].
  assert (Hf : forall (b : bool) bit, (if b then bit else 0) = 0 \/ (if b then bit else 0) = bit)
    by (intros []; auto).
  destruct (Hf ((area_flag (pa_vma a) 0 =? 114) || (area_flag (pa_vma a) 0 =? 82)) PF_R) as [-> | ->],
    (Hf ((area_flag (pa_vma a) 1 =? 119) || (area_flag (pa_vma a) 1 =? 87)) PF_W) as [-> | ->],
    (Hf ((area_flag (pa_vma a) 2 =? 120) || (area_flag (pa_vma a) 2 =? 88)) PF_X) as [-> | ->];
    (split; [discriminate|reflexivity]).
Qed.

(** What is known of an area. *)
Record known_area (a : ProcArea) : Prop := {
  ak_begin : 0 <= m_begin (pa_vma a); ak_size : 0 <= span a <= 2 ^ 32;
  ak_end : m_begin (pa_vma a) + span a < 2 ^ (8 * lw);
  ak_pages : span a mod align_size = 0;
}.
Lemma areas_ok : Forall known_area (areas lines).
Proof.
  pose proof (du_vmas _ _ _ _ _ _ _ _ _ _ Hok) as Hv. pose proof (du_pages _ _ _ _ _ _ _ _ _ _ Hok) as Hp.
  unfold vmas in *. rewrite Forall_elem in Hv. rewrite Forall_elem in Hp. apply Forall_elem. intros a Ha.
  destruct (Hv (pa_vma a)) as (V1 & V2 & _). { by apply list_elem_of_In, in_map, list_elem_of_In. }
  destruct (Hp (pa_vma a)) as (P1 & P2). { by apply list_elem_of_In, in_map, list_elem_of_In. }
  unfold span. split; unfold span; lia || done.
Qed.

Lemma final_fields a : known_area a ->
  h_flags (final_phdr T h filter tid a) = flags_of a /\
  h_va (final_phdr T h filter tid a) = m_begin (pa_vma a) /\
  h_fsz (final_phdr T h filter tid a) = kept_size a /\
  h_msz (final_phdr T h filter tid a) = span a /\
  align_size * Z.of_nat (page_count (final_phdr T h filter tid a)) = span a /\
  (forall off, 0 <= off < 2 ^ (8 * lw) -> ph_fits (at_offset off (final_phdr T h filter tid a))).
Proof.
  intros [B1 [B2 B3] B4 B5]. pose proof (flags_range a) as Hf. unfold flags_of in *.
  pose proof (pow_bounds lines) as (P1 & P2 & P3). unfold span in *.
  unfold final_phdr, kept_size, left_out, span, dump_ParserPhdr in *. cbn [h_flags] in *.
  set (fl := Z.lor _ _) in *.
  assert (uword (m_begin (pa_vma a)) = m_begin (pa_vma a)) as -> by (apply wrap_small; lia).
  assert (uword (uword (m_end (pa_vma a)) - m_begin (pa_vma a)) = m_end (pa_vma a) - m_begin (pa_vma a)) as ->.
  { unfold uword. rewrite !wrap_small; try lia. rewrite wrap_small; lia. }
  set (sz := m_end (pa_vma a) - m_begin (pa_vma a)) in *.
  assert (Hpc : align_size * Z.of_nat (Z.to_nat (i32 (sz / align_size))) = sz).
  { change align_size with 4096 in *. pose proof (Z.div_mod sz 4096 ltac:(lia)).
    rewrite sint_small by lia. lia. }
  assert (Hfit : forall x off, x = 0 \/ x = sz -> 0 <= off < 2 ^ (8 * lw) ->
    ph_fits (fl, off, m_begin (pa_vma a), 0, x, sz, align_size)).
  { intros x off Hx Ho. split; [lia|]. change align_size with 4096.
    repeat apply Forall_cons_2; (lia || by constructor). }
  unfold filtered_phdr, with_filesz, page_count.
  destruct (nz (Z.land (verdict T h filter tid a) VMA_NULL)),
    (nz (Z.land (verdict T h filter tid a) VMA_INCLUDE)); cbn [h_flags h_va h_fsz h_msz negb andb at_offset];
    split_and!; try done; intros off Ho; apply Hfit; auto.
Qed.

Lemma unplaced_length : length unplaced = length lines.
Proof. unfold unplaced. by rewrite length_map, (proj1 (lengths lines)). Qed.
Lemma kept_range a : known_area a -> 0 <= kept_size a <= span a.
Proof. intros [_ [? _] _ _]. unfold kept_size. destruct (left_out _ _ _ _ _); lia. Qed.

Lemma sizes_nonneg : Forall (fun ph => 0 <= h_fsz ph) unplaced.
Proof.
  unfold unplaced. apply Forall_fmap. eapply List.Forall_impl; [|apply areas_ok]. intros a Ha.
  change (0 <= h_fsz (final_phdr T h filter tid a)).
  destruct (final_fields a Ha) as (_ & _ & -> & _). by apply kept_range.
Qed.
Lemma sum_le : sum_fsz unplaced <= areas_size lines.
Proof.
  unfold unplaced, areas_size, vmas. pose proof areas_ok as Ha.
  induction Ha as [|a l Ha _ IH]; cbn [map sum_fsz foldr]; [lia|].
  fold (sum_fsz (map (final_phdr T h filter tid) l)).
  destruct (final_fields a Ha) as (_ & _ & -> & _). pose proof (kept_range a Ha). unfold span in *. lia.
Qed.
Lemma total_range :
  0 <= start /\ 0 <= sum_fsz unplaced /\ start + sum_fsz unplaced + sh_bytes < 2 ^ (8 * lw - 1).
Proof.
  pose proof (content_start_range T h filter pid tid va lines before after aux Hok) as (C1 & C2 & C3 & C4).
  pose proof (sizes T h filter pid tid va lines before after aux Hok) as (_ & S1 & S2 & _).
  pose proof (du_total _ _ _ _ _ _ _ _ _ _ Hok) as Ht. pose proof sum_le as Hs.
  pose proof (sum_fsz_take 0 unplaced sizes_nonneg) as H0. change (sum_fsz (take 0 unplaced)) with 0 in H0.
  assert (0 < sh_bytes <= 64) by (destruct HL as [-> | ->]; done). split_and!; lia.
Qed.

Lemma area_placed i a : areas lines !! i = Some a ->
  headers_placed !! i
    = Some (at_offset (start + sum_fsz (take i unplaced)) (final_phdr T h filter tid a)).
Proof.
  intros Ha. destruct total_range as (H1 & H2 & H3). assert (0 < sh_bytes) by (destruct HL as [-> | ->]; done).
  assert (2 ^ (8 * lw - 1) <= 2 ^ (8 * lw)) by (apply Z.pow_le_mono_r; pose proof layout_sizes; lia).
  unfold placed. fold unplaced. rewrite place_lookup by (apply sizes_nonneg || lia).
  unfold unplaced. by rewrite list_lookup_fmap, Ha.
Qed.
Lemma placed_length : length headers_placed = length lines.
Proof. unfold placed. by rewrite place_phdrs_length, length_map, (proj1 (lengths lines)). Qed.
Lemma placed_inv i ph : headers_placed !! i = Some ph ->
  exists a, areas lines !! i = Some a /\ known_area a /\
    ph = at_offset (start + sum_fsz (take i unplaced)) (final_phdr T h filter tid a).
Proof.
  intros Hi. assert (Hl := lookup_lt_Some _ _ _ Hi). rewrite placed_length in Hl.
  destruct (lookup_lt_is_Some_2 (areas lines) i) as [a Ha]; [by rewrite (proj1 (lengths lines))|].
  exists a. rewrite (area_placed i a Ha) in Hi. injection Hi as <-.
  split_and!; [done|exact (Forall_lookup_1 _ _ _ _ areas_ok Ha)|done].
Qed.

(** * Contents *)

Lemma contents_unplaced : map (area_content pid) headers_placed = map (area_content pid) unplaced.
Proof.
  unfold placed. fold unplaced. generalize start. induction unplaced as [|[[[[[[f o] v] pa] fsz] msz] al] l IH];
    intros off; [done|]. cbn [place_phdrs map]. by rewrite IH.
Qed.
Lemma content_length a : known_area a ->
  Z.of_nat (length (area_content pid (final_phdr T h filter tid a))) = kept_size a.
Proof.
  intros Ha. destruct (final_fields a Ha) as (_ & Hva & Hf & _ & Hp & _). unfold area_content.
  pose proof (kept_range a Ha) as Hk. rewrite Hf. destruct (Z.ltb_spec 0 (kept_size a)).
  - rewrite pages_length, Hp. unfold kept_size in *. destruct (left_out _ _ _ _ _); lia.
  - cbn. lia.
Qed.
Lemma contents_take i :
  Z.of_nat (length (concat (take i (map (area_content pid) unplaced)))) = sum_fsz (take i unplaced).
Proof.
  unfold unplaced. pose proof areas_ok as Ha. revert i.
  induction Ha as [|a l Ha _ IH]; intros i; [by destruct i|].
  destruct i as [|i]; [done|]. cbn [map take concat sum_fsz foldr].
  rewrite length_app, Nat2Z.inj_add, IH, (content_length a Ha).
  by destruct (final_fields a Ha) as (_ & _ & -> & _).
Qed.
Lemma contents_length : Z.of_nat (length area_contents) = sum_fsz unplaced.
Proof.
  unfold contents. rewrite contents_unplaced.
  pose proof (contents_take (length (map (area_content pid) unplaced))) as Hc.
  by rewrite firstn_all, length_map, firstn_all in Hc.
Qed.
Lemma contents_lookup i a j :
  areas lines !! i = Some a -> left_out T h filter tid a = false -> 0 <= j < span a ->
  area_contents !! Z.to_nat (sum_fsz (take i unplaced) + j)
    = page_at pid (m_begin (pa_vma a)) (j / align_size) !! Z.to_nat (j mod align_size).
Proof.
  intros Hi Hl Hj. pose proof (Forall_lookup_1 _ _ _ _ areas_ok Hi) as Ha.
  destruct (final_fields a Ha) as (_ & Hva & Hf & _ & Hp & _).
  unfold contents. rewrite contents_unplaced.
  pose proof (sum_fsz_take i unplaced sizes_nonneg) as Hs. pose proof (contents_take i) as Ht.
  rewrite Z2Nat.inj_add by lia. rewrite <- Ht, Nat2Z.id.
  pose proof (content_length a Ha) as Hc. unfold kept_size in Hc. rewrite Hl in Hc.
  rewrite (concat_lookup_part _ i (area_content pid (final_phdr T h filter tid a))).
  - unfold area_content. rewrite Hf. unfold kept_size. rewrite Hl.
    destruct (Z.ltb_spec 0 (span a)); [|lia].
    rewrite pages_lookup by (rewrite Hp; lia). rewrite Hva, Z2Nat.id by lia. done.
  - unfold unplaced. rewrite !list_lookup_fmap, Hi. done.
  - lia.
Qed.

(** * The notes *)

#[local] Abbreviation dumped := (dump_notes T tid lines before after aux).
Let pos_auxv (pos : Z) : Z := pos + thread_extra T * Z.of_nat (length threads).
(** The block the notes at [pos] make of [b]. *)
Definition noted (pos : Z) (b : NoteBlock) : NoteBlock :=
  with_files (file_item <$> named_areas lines)
    (with_auxv (mAuxv b ++ auxv_at (pos_auxv pos + 20) (aux ++ [(0, 0)]))
       (setAuxvMaxCount (Z.of_nat (length aux) + 1) (with_dumped (dumped_threads T threads pos) b))).

Lemma named_areas_ok :
  Forall words_ok (named_areas lines).*1 /\ Forall name_ok (named_areas lines).*2.
Proof.
  destruct (named_lengths lines) as (_ & _ & -> & ->).
  pose proof (du_vmas _ _ _ _ _ _ _ _ _ _ Hok) as Hv. destruct (pow_bounds lines) as (P1 & _ & _).
  split; apply Forall_fmap; (eapply List.Forall_impl; [|exact Hv]); intros m (V1 & V2 & V3 & V4); cbn; [|done].
  unfold words_ok, dump_ParserNtFile, uword. rewrite !wrap_small by lia.
  rewrite Z.shiftr_div_pow2 by lia. pose proof (Z.div_pos (m_offset m) (2 ^ 12)).
  pose proof (Z.div_le_upper_bound (m_offset m) (2 ^ 12) (m_offset m)). lia.
Qed.

(** The sizes of the three kinds of notes. *)
Let threads_part : Z := thread_extra T * Z.of_nat (length threads).
Let auxv_part : Z := 2 * lw * (Z.of_nat (length aux) + 1).
Let files_part : Z := file_note_size (vmas lines) - 20.
Record part_sizes : Prop := {
  ps_total : notes_size = threads_part + (20 + auxv_part) + (20 + files_part);
  ps_threads : 0 <= threads_part;
  ps_auxv : 8 <= auxv_part < 2 ^ 31 /\ auxv_part mod 4 = 0;
  ps_files : 8 <= files_part < 2 ^ 31 /\ files_part mod 4 = 0;
}.
Lemma note_part_sizes : part_sizes.
Proof.
  pose proof (thread_extra_range T lines) as Hx. destruct (pow_bounds lines) as (P1 & P2 & P3).
  pose proof (du_size _ _ _ _ _ _ _ _ _ _ Hok) as Hsz.
  destruct (name_pad_range T h filter pid tid va lines before after aux Hok) as [Hp Hp4].
  assert (Hfp : files_part = 2 * lw + 3 * lw * Z.of_nat (length lines)
    + (Z.of_nat (length (names_bytes (vmas lines))) + name_pad lines)).
  { unfold files_part, file_note_size, name_pad. rewrite (proj2 (lengths lines)). lia. }
  apply Z.mod_divide in Hp4; [|lia]. destruct Hp4 as [q Hq].
  split.
  - unfold dump_notes_size, threads_part, auxv_part, files_part. lia.
  - unfold threads_part. apply Z.mul_nonneg_nonneg; lia.
  - unfold auxv_part. clear Hfp Hq Hx P1 P2. destruct layout_sizes as [(E & _)|(E & _)]; rewrite E in *.
    + split; [lia|]. apply Z.mod_divide; [lia|]. exists (4 * (Z.of_nat (length aux) + 1)). lia.
    + split; [lia|]. apply Z.mod_divide; [lia|]. exists (2 * (Z.of_nat (length aux) + 1)). lia.
  - rewrite Hfp. clear Hfp Hx P1 P2. rewrite Hq.
    destruct layout_sizes as [(E & _)|(E & _)]; rewrite E in *.
    + split; [lia|]. apply Z.mod_divide; [lia|]. exists (4 + 6 * Z.of_nat (length lines) + q). lia.
    + split; [lia|]. apply Z.mod_divide; [lia|]. exists (2 + 3 * Z.of_nat (length lines) + q). lia.
Qed.

(** The file table, the last note. *)
Lemma files_loops c b last pos :
  host_wf (host_mem c) -> 0 <= pos -> pos + 20 + files_part < 2 ^ 64 ->
  holds (host_mem c) pos (note_of_files lines) ->
  loops c b last pos (pos + 20 + files_part) (c, with_files (file_item <$> named_areas lines) b).
Proof.
  intros Hh Hp He Hb. pose proof (ps_files note_part_sizes) as [[F1 F2] F3].
  pose proof (file_desc_size T h filter pid tid va lines before after aux Hok) as Hfl. fold files_part in Hfl.
  unfold note_of_files in Hb. rewrite <- (app_nil_r (note_bytes _ _ _ _)) in Hb.
  set (fdesc := file_desc _ _ _) in *. set (sz := files_part) in *. clearbody sz.
  apply (take_note _ _ _ _ _ fdesc _ Hh core_name_ok) in Hb as [N _]; rewrite ?Hfl in *; [|(lia || done)..].
  destruct named_areas_ok as [W1 W2]. pose proof (page_size_length T h filter pid tid va lines before after aux Hok) as Hpg.
  destruct (pow_bounds lines) as (P1 & _).
  assert (Hlen : Z.of_nat (length (named_areas lines)) < 2 ^ 31).
  { destruct (named_lengths lines) as (-> & _). pose proof (du_size _ _ _ _ _ _ _ _ _ _ Hok). lia. }
  eapply loops_step.
  { apply (parse_file c b last pos _ dump_page_size (named_areas lines) (zeros (name_pad lines)) N Hh Hpg W1 W2);
      [lia| |lia]. fold fdesc. lia. }
  { lia. }
  { fold fdesc. lia. }
  fold fdesc. rewrite Hfl. apply loops_end.
Qed.

(** The auxiliary vector, and the file table behind it. *)
Lemma auxv_loops c b last pos :
  host_wf (host_mem c) -> 0 <= pos -> pos + 20 + auxv_part + (20 + files_part) < 2 ^ 64 ->
  holds (host_mem c) pos (note_of_auxv aux ++ note_of_files lines) ->
  loops c b last pos (pos + 20 + auxv_part + (20 + files_part))
    (c, with_files (file_item <$> named_areas lines)
          (with_auxv (mAuxv b ++ auxv_at (pos + 20) (aux ++ [(0, 0)]))
             (setAuxvMaxCount (Z.of_nat (length aux) + 1) b))).
Proof.
  intros Hh Hp He Hb. pose proof (ps_files note_part_sizes) as [[F1 F2] _].
  pose proof (ps_auxv note_part_sizes) as [[A1 A2] A3]. destruct (pow_bounds lines) as (P1 & P2 & P3).
  pose proof (auxv_entries_length lines aux) as Hal. fold auxv_part in Hal.
  assert (Hdiv : auxv_part / (2 * lw) = Z.of_nat (length aux) + 1).
  { unfold auxv_part. rewrite Z.mul_comm. apply Z.div_mul. lia. }
  unfold note_of_auxv in Hb. set (sz := auxv_part) in *. clearbody sz.
  apply (take_note _ _ _ _ _ _ _ Hh core_name_ok) in Hb as [N Hb]; rewrite ?Hal in *; [|(lia || done)..].
  eapply loops_step.
  { apply (parse_auxv c _ _ _ _ _ _ N Hh (du_aux _ _ _ _ _ _ _ _ _ _ Hok)); [done| |]; rewrite Hal; [lia|].
    rewrite Hdiv. lia. }
  { lia. }
  { rewrite Hal. lia. }
  rewrite Hal, Hdiv. replace (pos + 20 + sz + (20 + files_part)) with (pos + 20 + sz + 20 + files_part) by lia.
  apply files_loops; [done|lia..|done].
Qed.

(** All of them. *)
Lemma notes_loops c b pos :
  host_wf (host_mem c) -> 0 <= pos -> pos + notes_size < 2 ^ 64 ->
  holds (host_mem c) pos dumped ->
  loops c b None pos (pos + notes_size) (threads_masks T va threads c, noted pos b).
Proof.
  intros Hh Hp He Hb. pose proof (statuses_ok T h filter pid tid va lines before after aux Hok) as Hst.
  pose proof (du_masks _ _ _ _ _ _ _ _ _ _ Hok) as [Hva _].
  pose proof (thread_extra_range T lines) as Hx. destruct note_part_sizes as [S1 S2 [S3 _] [S4 _]].
  unfold dump_notes in Hb. pose proof (du_stack _ _ _ _ _ _ _ _ _ _ Hok) as Hstack.
  apply (threads_loops T va threads c b None pos _ (note_of_auxv aux ++ note_of_files lines));
    [done..|fold threads_part; lia|lia|exact Hb|].
  fold threads_part. intros last Hb2. rewrite S1.
  replace (pos + (threads_part + (20 + auxv_part) + (20 + files_part)))
    with (pos + threads_part + 20 + auxv_part + (20 + files_part)) by lia.
  destruct (threads_masks_keeps T va threads c) as (K1 & _).
  apply (auxv_loops (threads_masks T va threads c) (with_dumped (dumped_threads T threads pos) b) last
    (pos + threads_part)); rewrite ?K1; [done|lia..|done].
Qed.

(** * The parts of the file *)

Let n := Z.of_nat (length lines) + 1.
#[local] Abbreviation ehdr := (ehdr_final T h filter pid tid lines before after aux).
#[local] Abbreviation front_bytes := (front T h filter tid lines before after aux).
#[local] Abbreviation pos_end := (contents_end T h filter pid tid lines before after aux).
#[local] Abbreviation fill_size := (gap T tid lines before after aux).
Definition note_header : phdr := (0, note_start lines, 0, 0, notes_size, 0, 0).

(** Where the parts lie. *)
Record file_places : Prop := {
  fl_notes : eh_size + ph_size * n = note_start lines;
  fl_front : Z.of_nat (length front_bytes) = note_start lines - eh_size;
  fl_gap : fill_size = start - (note_start lines + notes_size) /\ 0 <= fill_size;
  fl_end : pos_end = start + sum_fsz unplaced;
  fl_size : Z.of_nat (length file) = pos_end + Z.of_nat (length (dump_tail lines));
  fl_range : 0 <= note_start lines /\ 0 < notes_size /\ 0 <= start /\ 0 <= sum_fsz unplaced /\
    Z.of_nat (length file) < 2 ^ (8 * lw - 1);
}.
Lemma tail_range : 0 <= Z.of_nat (length (dump_tail lines)) <= sh_bytes.
Proof.
  assert (0 < sh_bytes) by (destruct HL as [-> | ->]; done).
  unfold dump_tail. destruct (PN_XNUM <=? _); [rewrite count_shdr_length; lia|cbn; lia].
Qed.
Lemma places : file_places.
Proof.
  pose proof (sizes T h filter pid tid va lines before after aux Hok) as (_ & S1 & S2 & _).
  pose proof (gap_range T h filter pid tid va lines before after aux Hok) as G.
  pose proof contents_length as Hc. destruct total_range as (R1 & R2 & R3). pose proof tail_range as Ht.
  pose proof (front_length T h filter tid lines before after aux) as Hf.
  assert (He : pos_end = start + sum_fsz unplaced) by (unfold contents_end; by rewrite Hc).
  assert (Hfile : Z.of_nat (length file) = pos_end + Z.of_nat (length (dump_tail lines))).
  { unfold dump_file. rewrite !length_app, !Nat2Z.inj_add, zeros_length by lia.
    unfold ehdr_final. rewrite (ehdr_size T), (dump_notes_length T h filter pid tid va lines before after aux Hok), Hf.
    unfold contents_end, gap. lia. }
  split; [unfold note_start, n; lia|done|unfold gap in *; lia|done|done|].
  rewrite Hfile, He. split_and!; lia.
Qed.

Lemma dump_counts : counts ehdr n pos_end.
Proof.
  destruct places as [P1 P2 P3 P4 P5 P6]. pose proof layout_sizes as Hl. pose proof tail_range as Ht.
  assert (2 ^ (8 * lw - 1) <= 2 ^ (8 * lw)) as Hpow by (apply Z.pow_le_mono_r; lia).
  assert (Hu : uword pos_end = pos_end) by (apply wrap_small; lia).
  unfold ehdr_final. rewrite Hu. fold n. split; [apply (ehdr_size T)| | |].
  all: unfold part_is, ehdr_bytes, word_bytes.
  - rewrite le_bytes_length. destruct HL as [-> | ->]; cbn -[le_bytes Z.leb];
      destruct (PN_XNUM <=? n); reflexivity.
  - intros Hx%Z.leb_le. rewrite Hx, le_bytes_length. destruct HL as [-> | ->]; reflexivity.
  - intros Hx%Z.leb_le. rewrite Hx, le_bytes_length. destruct HL as [-> | ->]; reflexivity.
Qed.

(** Where the loader finds the parts. *)
Record dump_held (hm : host) (base : Z) : Prop := {
  dh_ehdr : holds hm base ehdr;
  dh_note : holds hm (base + eh_size) (phdr_bytes PT_NOTE note_header);
  dh_loads : holds hm (base + eh_size + ph_size) (flat_map (phdr_bytes PT_LOAD) headers_placed);
  dh_notes : holds hm (base + note_start lines) dumped;
  dh_tail : holds hm (base + pos_end) (dump_tail lines);
}.
Lemma dump_holds hm base : host_wf hm -> holds hm base file -> dump_held hm base.
Proof.
  intros Hh Hb. destruct places as [P1 P2 [P3 P3'] P4 P5 P6].
  assert (HE : Z.of_nat (length ehdr) = eh_size) by apply (ehdr_size T).
  pose proof (dump_notes_length T h filter pid tid va lines before after aux Hok) as Hn.
  pose proof contents_length as Hc.
  unfold dump_file in Hb. apply holds_app in Hb as [H1 Hb]; [|done]. rewrite HE in Hb.
  apply holds_app in Hb as [H2 Hb]; [|done]. rewrite P2 in Hb.
  apply holds_app in Hb as [H3 Hb]; [|done]. rewrite Hn in Hb.
  apply holds_app in Hb as [_ Hb]; [|done]. rewrite zeros_length in Hb by lia.
  apply holds_app in Hb as [_ H4]; [|done]. rewrite Hc in H4.
  unfold front in H2. apply holds_app in H2 as [H5 H6]; [|done]. rewrite phdr_bytes_length in H6.
  split; [done|done|done| |].
  - by replace (base + note_start lines) with (base + eh_size + (note_start lines - eh_size)) by lia.
  - rewrite P4. match type of H4 with holds _ ?a _ => by replace (base + (start + sum_fsz unplaced)) with a by lia end.
Qed.

(** The headers. *)
Lemma dump_headers hm base :
  host_wf hm -> dump_held hm base -> 0 < base -> base + Z.of_nat (length file) < 2 ^ 64 ->
  read_phdr hm (base + eh_size) = Ok (PT_NOTE, note_header) /\
  forall i ph, headers_placed !! i = Some ph ->
    read_phdr hm (u64 (base + eh_size + ph_size + ph_size * Z.of_nat i)) = Ok (PT_LOAD, ph).
Proof.
  intros Hh Hd Hb He. destruct places as [P1 P2 [P3 P3'] P4 P5 P6]. pose proof layout_sizes as Hl.
  pose proof tail_range as Ht. destruct total_range as (R1 & R2 & R3). pose proof placed_length as Hpl.
  assert (2 ^ (8 * lw - 1) <= 2 ^ (8 * lw)) as Hpow by (apply Z.pow_le_mono_r; lia).
  unfold n in P1. split.
  - apply read_phdr_bytes; [done|lia|nia|done| |apply Hd].
    split; [lia|]. repeat apply Forall_cons_2; (lia || by constructor).
  - apply (read_phdrs hm PT_LOAD headers_placed); [done|lia| |done| |apply Hd].
    + rewrite Hpl. nia.
    + apply Forall_elem. intros ph [i Hi]%list_elem_of_lookup.
      destruct (placed_inv i ph Hi) as (a & _ & Ha & ->). apply final_fields; [done|].
      pose proof (sum_fsz_take i unplaced sizes_nonneg). lia.
Qed.

(** * Loading *)

(** The note block: the threads, the auxiliary vector and the files of the process. *)
Record noted_block (base : Z) (b : NoteBlock) : Prop := {
  nt_threads : mThread b = dumped_threads T threads (base + note_start lines);
  nt_auxv : (fun a => (mType a, mValue a)) <$> mAuxv b = aux ++ [(0, 0)];
  nt_files : mFile b = file_item <$> named_areas lines;
}.
Lemma dump_note c :
  host_wf (host_mem c) -> dump_held (host_mem c) (mBegin (mCore c)) ->
  0 < mBegin (mCore c) -> mSize (mCore c) = Z.of_nat (length file) ->
  mBegin (mCore c) + mSize (mCore c) < 2 ^ 64 ->
  exists b, load_note c note_header = Ok (addNoteBlock (threads_masks T va threads c) b) /\
    noted_block (mBegin (mCore c)) b.
Proof.
  intros Hh Hd Hb Hsz He. set (base := mBegin (mCore c)) in *.
  destruct places as [P1 P2 [P3 P3'] P4 P5 [P6 [P7 [P8 [P9 P10]]]]].
  pose proof tail_range as Ht. pose proof (dh_notes _ _ Hd) as Hn.
  unfold load_note, note_header. cbn zeta.
  unfold note_on_block, setTruncated_block, setOriAddr_block, isValidBlock, NewNoteBlock, NewBlock.
  cbn [nb_block mFlags mOffset mVaddr mPaddr mFileSize mMemSize mAlign mOriAddr mTruncated mFake
    mOverlay mThread mAuxv mFile mAuxvMax].
  fold base. rewrite !(wrap_small 64 (note_start lines + notes_size)) by lia.
  rewrite !(wrap_small 64 (base + note_start lines)) by lia.
  destruct (Z.ltb_spec (mSize (mCore c)) (note_start lines + notes_size)); [lia|].
  destruct (Z.ltb_spec 0 notes_size); [|lia]. cbn [negb andb].
  cbn [nb_block mFlags mOffset mVaddr mPaddr mFileSize mMemSize mAlign mOriAddr mTruncated mFake
    mOverlay mThread mAuxv mFile mAuxvMax].
  rewrite (wrap_small 64 (base + note_start lines + notes_size)) by lia.
  set (b0 := MkNoteBlock _ [] [] [] 0).
  rewrite (notes_loops c b0 (base + note_start lines) Hh); [|lia|lia|exact Hn|lia|lia].
  cbn [rbind]. eexists. split; [reflexivity|]. split; [done| |done].
  apply auxv_at_entries.
Qed.

(** The areas in the file, in order and apart. *)
Lemma placed_h_ok c : mSize (mCore c) = Z.of_nat (length file) -> Forall (h_ok c) headers_placed.
Proof.
  intros Hsz. destruct places as [P1 P2 [P3 P3'] P4 P5 [P6 [P7 [P8 [P9 P10]]]]].
  destruct (pow_bounds lines) as (B1 & B2 & B3).
  apply Forall_elem. intros ph [i Hi]%list_elem_of_lookup.
  destruct (placed_inv i ph Hi) as (a & Hia & Ha & ->).
  destruct (final_fields a Ha) as (_ & F2 & F3 & F4 & _). pose proof (kept_range a Ha). destruct Ha as [A1 A2 A3 _].
  pose proof (sum_fsz_take (S i) unplaced sizes_nonneg). pose proof (sum_fsz_take i unplaced sizes_nonneg).
  assert (Hnext : sum_fsz (take i unplaced) + kept_size a <= sum_fsz (take (S i) unplaced)).
  { rewrite <- F3. apply sum_fsz_next; [apply sizes_nonneg|lia|]. unfold unplaced. by rewrite list_lookup_fmap, Hia. }
  unfold h_ok, at_offset. destruct (final_phdr T h filter tid a) as [[[[[[f o] v] pa] fsz] msz] al].
  cbn [h_off h_fsz h_msz h_va] in *. subst. lia.
Qed.
Lemma placed_order : pairwise (fun x y => h_va x + h_msz x <= h_va y) headers_placed.
Proof.
  intros x y px py Hxy Hx Hy.
  destruct (placed_inv x px Hx) as (a & Hia & Ha & ->). destruct (placed_inv y py Hy) as (a' & Hia' & Ha' & ->).
  destruct (final_fields a Ha) as (_ & F2 & _ & F4 & _). destruct (final_fields a' Ha') as (_ & F2' & _).
  pose proof (du_order _ _ _ _ _ _ _ _ _ _ Hok x y (pa_vma a) (pa_vma a') Hxy) as Ho. unfold vmas in Ho.
  rewrite !list_lookup_fmap, Hia, Hia' in Ho. specialize (Ho eq_refl eq_refl). cbn beta in Ho.
  unfold at_offset, span in *.
  destruct (final_phdr T h filter tid a) as [[[[[[? ?] ?] ?] ?] ?] ?].
  destruct (final_phdr T h filter tid a') as [[[[[[? ?] ?] ?] ?] ?] ?].
  cbn [h_va h_msz] in *. lia.
Qed.
Lemma placed_apart : pairwise (fun x y => 0 < h_fsz x -> 0 < h_fsz y ->
  h_off x + h_fsz x <= h_off y \/ h_off y + h_fsz y <= h_off x) headers_placed.
Proof.
  intros x y px py Hxy Hx Hy _ _. left.
  destruct (placed_inv x px Hx) as (a & Hia & Ha & ->). destruct (placed_inv y py Hy) as (a' & Hia' & Ha' & ->).
  assert (Hnext : sum_fsz (take x unplaced) + h_fsz (final_phdr T h filter tid a) <= sum_fsz (take y unplaced)).
  { apply sum_fsz_next; [apply sizes_nonneg|done|]. unfold unplaced. by rewrite list_lookup_fmap, Hia. }
  unfold at_offset.
  destruct (final_phdr T h filter tid a) as [[[[[[? ?] ?] ?] ?] ?] ?].
  destruct (final_phdr T h filter tid a') as [[[[[[? ?] ?] ?] ?] ?] ?].
  cbn [h_off h_fsz] in *. lia.
Qed.

(** The loader finds the number of headers, the notes and then the areas. *)
Lemma dump_load c0 i :
  mLoad c0 = [] -> mQuickLoad c0 = [] -> mNote c0 = [] -> host_wf (host_mem c0) ->
  host_mem c0 !! i = Some (Region (mBegin (mCore c0)) false file) ->
  mSize (mCore c0) = Z.of_nat (length file) ->
  0 < mBegin (mCore c0) -> mBegin (mCore c0) + mSize (mCore c0) < 2 ^ 64 ->
  exists b c1 p, noted_block (mBegin (mCore c0)) b /\
    c1 = addNoteBlock (threads_masks T va threads c0) b /\
    load c0 = (let! c' := phdrs_loop (length headers_placed) c1 p in Ok (c', true)) /\
    0 <= p < 2 ^ 64 /\
    forall k ph, headers_placed !! k = Some ph ->
      read_phdr (host_mem c0) (u64 (p + ph_size * Z.of_nat k)) = Ok (PT_LOAD, ph).
Proof.
  intros El Eq En Hh Hi Hsz Hb He. set (base := mBegin (mCore c0)) in *.
  destruct places as [P1 P2 [P3 P3'] P4 P5 [P6 [P7 [P8 [P9 P10]]]]]. pose proof layout_sizes as Hl.
  pose proof tail_range as Ht. pose proof placed_length as Hpl. destruct (pow_bounds lines) as (B1 & B2 & B3).
  destruct total_range as (R1 & R2 & R3).
  assert (2 ^ (8 * lw - 1) <= 2 ^ (8 * lw)) as Hpow by (apply Z.pow_le_mono_r; lia).
  assert (Hsizes : 0 < eh_size /\ 0 < ph_size) by (destruct Hl as [(_ & -> & ->)|(_ & -> & ->)]; lia).
  assert (Hlines : ph_size <= ph_size * n) by (unfold n; nia).
  assert (Hb2 : holds (host_mem c0) base file).
  { apply (host_load_region _ i false _ _ Hh Hi). lia. }
  pose proof (dump_holds _ _ Hh Hb2) as Hd.
  destruct (dump_headers (host_mem c0) base Hh Hd Hb) as [Hrn Hrl]; [lia|].
  destruct (dump_note c0 Hh Hd Hb Hsz He) as (b & Hnote & Hb').
  exists b, (addNoteBlock (threads_masks T va threads c0) b), (base + eh_size + ph_size).
  split_and!; [done|done| |lia|lia|exact Hrl].
  rewrite (load_counted c0 ehdr n pos_end);
    [|apply dump_counts| |done|apply Hd|fold base; lia|fold base; lia|]; fold base.
  - replace (Z.to_nat n) with (S (length headers_placed)) by (rewrite Hpl; unfold n; lia).
    cbn [phdrs_loop]. rewrite Hrn. cbn [rbind]. change (PT_NOTE =? PT_LOAD) with false.
    change (PT_NOTE =? PT_NOTE) with true. cbn iota. rewrite Hnote. cbn [rbind].
    by rewrite wrap_small by lia.
  - pose proof (du_size _ _ _ _ _ _ _ _ _ _ Hok). unfold n. lia.
  - intros Hx. pose proof (dh_tail _ _ Hd) as Htl. unfold dump_tail in *. fold n in Htl, P5, Ht.
    rewrite (proj2 (Z.leb_le _ _) Hx) in *. rewrite count_shdr_length in P5, Ht.
    split_and!; [lia|lia|lia|done].
Qed.

(** The entries of the file table. *)
Lemma dump_file_items : file_item <$> named_areas lines = vma_file <$> vmas lines.
Proof.
  pose proof (du_vmas _ _ _ _ _ _ _ _ _ _ Hok) as Hv. destruct (pow_bounds lines) as (P1 & P2 & _).
  unfold named_areas. rewrite <- list_fmap_compose.
  induction Hv as [|m l (V1 & V2 & V3 & V4) _ IH]; [done|]. rewrite !fmap_cons, IH. f_equal.
  cbn. unfold vma_file, uword. rewrite !wrap_small by lia. f_equal.
  unfold shl. rewrite Z.shiftr_div_pow2, Z.shiftl_mul_pow2 by lia.
  change ELF_PAGE_SIZE with (2 ^ 12). pose proof (Z.div_mod (m_offset m) (2 ^ 12)).
  pose proof (Z.mod_pos_bound (m_offset m) (2 ^ 12)). rewrite wrap_small; lia.
Qed.

(** The address mask is set by the last thread; the core is otherwise that of the loader. *)
Lemma threads_mask l c : l <> [] ->
  vabits_mask (threads_masks T va l c)
    = if is_arm64 (dt_fake T) then GENMASK_UL (va - 1) 0 else vabits_mask c.
Proof.
  revert c. induction l as [|e l IH]; intros c; [done|]. intros _. cbn [threads_masks].
  destruct l as [|e' l]; [cbn; unfold thread_masks; by destruct (is_arm64 (dt_fake T))|].
  rewrite IH by done. unfold thread_masks. by destruct (is_arm64 (dt_fake T)).
Qed.

(** * The dump, loaded *)

Lemma registers_read t :
  snd (thread_status T t) = thread_registers T t.
Proof.
  unfold thread_status, thread_registers, getregset, zeros. cbn [snd].
  set (m := Z.to_nat _). destruct (k_regset t NT_PRSTATUS) as [bs|]; cbn [default].
  - unfold fill_buffer. rewrite length_replicate, take_app, drop_replicate. f_equal.
    by rewrite take_replicate, Nat.min_l by lia.
  - rewrite app_nil_l, take_replicate. f_equal. lia.
Qed.

Lemma threads_shown pos : Forall2 (is_thread T) (tid :: before ++ after) (dumped_threads T threads pos).
Proof.
  pose proof (ids_perm T h filter pid tid va lines before after aux Hok) as Hi. unfold statuses.
  revert pos. induction Hi as [|t l Ht _ IH]; intros pos; [constructor|].
  cbn [map dumped_threads]. constructor; [|apply IH].
  assert (Hid : i32 (fst (thread_status T t)) = t).
  { unfold thread_status. cbn [fst]. rewrite wrap_small, sint_small; lia. }
  unfold is_thread, dumped_thread. rewrite Hid, registers_read.
  by destruct (is_arm64 (dt_fake T)).
Qed.

Lemma flags_permissions a : flags_of a = permissions (pa_vma a).
Proof.
  unfold flags_of, dump_ParserPhdr, permissions, area_flag. cbn [h_flags].
  assert (Hb : forall x lo up, (x =? lo) || (x =? up) = bool_decide (x ∈ [lo; up])).
  { intros x lo up. assert (E : x ∈ [lo; up] <-> x = lo \/ x = up) by set_solver.
    destruct (Z.eqb_spec x lo), (Z.eqb_spec x up); cbn; symmetry;
      (apply bool_decide_eq_true_2; tauto) || (apply bool_decide_eq_false_2; tauto). }
  rewrite !Hb. change (chars "rR") with [114; 82]. change (chars "wW") with [119; 87].
  change (chars "xX") with [120; 88].
  by destruct (bool_decide _), (bool_decide _), (bool_decide _).
Qed.

(** The bytes of a page. *)
Lemma page_byte first j :
  0 <= first -> 0 <= j < 2 ^ 32 -> first + j < 2 ^ (8 * lw) ->
  page_at pid first (j / align_size) !! Z.to_nat (j mod align_size)
    = Some (process_byte pid first j).
Proof.
  intros Hf Hj He. unfold page_at, process_byte. change align_size with 4096.
  pose proof (Z.div_mod j 4096 ltac:(lia)) as Hd. pose proof (Z.mod_pos_bound j 4096 ltac:(lia)) as Hm.
  assert (0 <= j / 4096) by (apply Z.div_pos; lia).
  assert (uword (first + u32 (j / 4096 * 4096)) = first + 4096 * (j / 4096)) as ->.
  { unfold uword. rewrite (wrap_small 32) by lia. rewrite wrap_small; lia. }
  assert (Hz : length (zeros 4096) = 4096%nat) by (pose proof (zeros_length 4096); lia).
  set (k := Z.to_nat (j mod 4096)) in *. assert (Hk : (k < 4096)%nat) by lia.
  destruct (k_pread _ _ _) as [bs|].
  - unfold fill_buffer. rewrite Hz. destruct (decide (k < length bs)%nat) as [Hlt|Hge].
    + rewrite lookup_app_l by (rewrite length_take; lia). rewrite lookup_take_lt by lia.
      destruct (lookup_lt_is_Some_2 bs k Hlt) as [x Hx]. by rewrite Hx, (nth_lookup_Some _ _ _ _ Hx).
    + rewrite lookup_app_r by (rewrite length_take; lia). rewrite length_take.
      rewrite (nth_overflow bs) by lia. rewrite lookup_drop. unfold zeros. apply lookup_replicate_2. lia.
  - unfold zeros. apply lookup_replicate_2. lia.
Qed.

(** The byte of an area in the file. *)
Lemma file_byte i a j :
  areas lines !! i = Some a -> left_out T h filter tid a = false -> 0 <= j < span a ->
  file !! Z.to_nat (start + sum_fsz (take i unplaced) + j)
    = Some (process_byte pid (m_begin (pa_vma a)) j).
Proof.
  intros Hi Hl Hj. pose proof (Forall_lookup_1 _ _ _ _ areas_ok Hi) as [A1 [A2 A2'] A3 _].
  destruct places as [P1 P2 [P3 P3'] P4 P5 [P6 [P7 [P8 [P9 P10]]]]].
  pose proof (sum_fsz_take i unplaced sizes_nonneg) as Hs.
  pose proof (dump_notes_length T h filter pid tid va lines before after aux Hok) as Hn.
  assert (HE : Z.of_nat (length ehdr) = eh_size) by apply (ehdr_size T).
  pose proof (contents_lookup i a j Hi Hl Hj) as Hc.
  assert (Hlen : (Z.to_nat (sum_fsz (take i unplaced) + j) < length area_contents)%nat).
  { apply lookup_lt_is_Some. rewrite Hc, page_byte by lia. by eexists. }
  unfold dump_file. rewrite !app_assoc. rewrite lookup_app_l.
  - rewrite lookup_app_r; rewrite !length_app;
      pose proof (zeros_length fill_size P3').
    + rewrite <- (page_byte (m_begin (pa_vma a)) j), <- Hc by lia. f_equal. lia.
    + lia.
  - rewrite !length_app. pose proof (zeros_length fill_size P3'). lia.
Qed.

(** What the core shows at an address of an area. *)
Definition area_kept (quick : bool) (a : ProcArea) : bool :=
  negb (left_out T h filter tid a) && (negb quick || nz (permissions (pa_vma a))).

Lemma area_bytes c' quick :
  (forall ph j, ph ∈ headers_placed -> negb quick || nz (h_flags ph) = true ->
     0 < h_fsz ph -> 0 <= j < h_msz ph ->
     target_byte c' (h_va ph + j) = if j <? h_fsz ph then file !! Z.to_nat (h_off ph + j) else Some 0) ->
  (forall ph j, ph ∈ headers_placed -> 0 <= j < h_msz ph ->
     negb quick || nz (h_flags ph) = false \/ h_fsz ph = 0 -> target_byte c' (h_va ph + j) = None) ->
  forall a j, a ∈ areas lines -> 0 <= j < span a ->
    target_byte c' (m_begin (pa_vma a) + j)
      = if area_kept quick a then Some (process_byte pid (m_begin (pa_vma a)) j) else None.
Proof.
  intros Hin Hno a j [i Hi]%list_elem_of_lookup Hj.
  pose proof (Forall_lookup_1 _ _ _ _ areas_ok Hi) as Ha.
  destruct (final_fields a Ha) as (F1 & F2 & F3 & F4 & _).
  pose proof (area_placed i a Hi) as Hp%list_elem_of_lookup_2.
  pose proof (file_byte i a j Hi) as Hb. rewrite flags_permissions in F1. unfold area_kept.
  set (off := start + sum_fsz (take i unplaced)) in *.
  specialize (Hin _ j Hp). specialize (Hno _ j Hp). unfold at_offset in Hin, Hno.
  destruct (final_phdr T h filter tid a) as [[[[[[f o] v] pa] fsz] msz] al].
  cbn [h_flags h_off h_fsz h_msz h_va] in *. subst. unfold kept_size in *.
  destruct (left_out T h filter tid a); cbn [negb andb].
  { apply Hno; [done|by right]. }
  destruct (negb quick || nz (permissions (pa_vma a))) eqn:Ek; [|apply Hno; [done|by left]].
  rewrite Hin by lia. destruct (Z.ltb_spec j (span a)); [|lia]. by apply Hb.
Qed.

(** An address outside the areas. *)
Lemma area_outside x :
  (forall a, a ∈ areas lines -> ~ m_begin (pa_vma a) <= x < m_end (pa_vma a)) ->
  forall ph, ph ∈ headers_placed -> ~ h_va ph <= x < h_va ph + h_msz ph.
Proof.
  intros Hx ph [i Hi]%list_elem_of_lookup. destruct (placed_inv i ph Hi) as (a & Hia & Ha & ->).
  destruct (final_fields a Ha) as (_ & F2 & _ & F4 & _). specialize (Hx a (list_elem_of_lookup_2 _ _ _ Hia)).
  unfold at_offset, span in *. destruct (final_phdr T h filter tid a) as [[[[[[f o] v] pa] fsz] msz] al].
  cbn [h_va h_msz] in *. lia.
Qed.

(** The segments. *)
Lemma area_segment c :
  mLoad c = [] -> 0 < mBegin (mCore c) -> mSize (mCore c) = Z.of_nat (length file) ->
  mBegin (mCore c) + mSize (mCore c) < 2 ^ 64 ->
  let c' := foldl load_segment c headers_placed in
  Forall2 (fun a id => mVaddr (lb c' id) = m_begin (pa_vma a) /\ mMemSize (lb c' id) = span a /\
    mFlags (lb c' id) = permissions (pa_vma a)) (areas lines) (mLoad c').
Proof.
  intros El Hb Hsz He. cbn zeta. pose proof (load_segments_state headers_placed c) as
    (S1 & S2 & S3 & S4 & S5 & S6 & S7 & S8 & S9 & _).
  set (c' := foldl load_segment c headers_placed) in *. rewrite El in S9. cbn [app] in S9. rewrite S9.
  pose proof placed_length as Hpl. pose proof (placed_h_ok c Hsz) as Hhok.
  apply Forall2_same_length_lookup_2.
  { by rewrite length_seq, Hpl, (proj1 (lengths lines)). }
  intros i a id Ha [-> _]%lookup_seq. pose proof (area_placed i a Ha) as Hp.
  pose proof (Forall_lookup_1 _ _ _ _ Hhok Hp) as Hok1. rewrite (S7 i _ Hp).
  destruct (seg_fields c _ Hok1 Hb He) as (-> & _). cbn [mVaddr mMemSize mFlags].
  destruct (final_fields a (Forall_lookup_1 _ _ _ _ areas_ok Ha)) as (F1 & F2 & F3 & F4 & _).
  rewrite <- flags_permissions. unfold at_offset.
  destruct (final_phdr T h filter tid a) as [[[[[[f o] v] pa] fsz] msz] al].
  cbn [h_va h_msz h_flags] in *. done.
Qed.
End DumpLoads.


(** ** Witness: an arm64 process of two threads, with a heap and a shared area

    Thread 101 is dumped; the shared area is left out, and the second page of the heap cannot be
    read. *)
Definition demo_heap : ProcArea :=
  MkProcArea (MkVma 0x10000 0x12000 (chars "rw-p") 0 0 (chars "[heap]") []) 0 0 0.
Definition demo_shared : ProcArea :=
  MkProcArea (MkVma 0x20000 0x21000 (chars "r--s") 0x3000 0 (chars "/dev/x") []) 0 5 77.
Definition demo_lines : list (ProcArea * nat) := [(demo_heap, 1%nat); (demo_shared, 1%nat)].
#[local] Instance demo_kernel : Kernel := {|
  k_kill _ := None;
  k_tasks _ := Some ([46] :: [46; 46] :: map to_string [100; 101]);
  k_maps _ := Some (maps_text demo_lines);
  k_auxv _ := Some (flat_map (aux_bytes (L := Elf64)) ([(AT_PHENT, 56)] ++ [(0, 0)]));
  k_comm _ _ := None;
  k_attach _ := true;
  k_regset t type := if type =? NT_PRSTATUS then Some (replicate 272 (t mod 256)) else None;
  k_mem _ := true;
  k_pread _ addr n := if addr =? 0x10000 then Some (replicate (Z.to_nat n) 42) else None;
  k_time := 0;
  k_machine := None;
  k_stack n := replicate (Z.to_nat n) 0;
  k_beside := 0 |}.
#[local] Instance demo_disk : Disk := {| disk_fault _ := None |}.
#[local] Instance demo_disk_works : NoFaults.
Proof. done. Qed.
Definition dumped_file : list Z :=
  match DoCoredump (L := Elf64) (H := bump_os) arm64_dump [] FILTER_SHARED_VMA 101 101 true with
  | Ok (Some f) => f
  | _ => []
  end.
Definition dumped_core : CoreApi :=
  let size := Z.of_nat (length dumped_file) in
  NewCore (Build_MemoryMap [] 0x20000 size 0 size) true [Region 0x20000 false dumped_file].

Lemma demo_dumpable :
  dumpable (L := Elf64) (H := bump_os) arm64_dump [] FILTER_SHARED_VMA 101 101 DEF_VA_BITS demo_lines [100] []
    [(AT_PHENT, 56)].
Proof.
  split.
  - by vm_compute.
  - done.
  - intros m Hm. cbn. rewrite length_replicate. lia.
  - done.
  - repeat constructor; cbn; repeat constructor; by vm_compute.
  - repeat constructor; unfold line_fits; apply Nat.leb_le; by vm_compute.
  - left. by vm_compute.
  - done.
  - repeat constructor; lia.
  - split; intros Hin%list_elem_of_In; cbn in Hin; lia.
  - split; [by vm_compute|]. intros _. repeat constructor; by vm_compute.
  - done.
  - repeat constructor; by vm_compute.
  - repeat constructor; by vm_compute.
  - repeat constructor; by vm_compute.
  - intros [|[|i]] [|[|j]] x y Hij Hx Hy; try lia; try done. cbn in Hx, Hy. simplify_eq. cbn. lia.
  - repeat constructor; eexists; by vm_compute.
  - by vm_compute.
  - by vm_compute.
Qed.

Ltac by_computing := vm_compute; repeat split; let E := fresh in intros E; discriminate E.
