(* ===== verification/Mirrors.v ===== *)
(** Java objects in the target: android/art/runtime/mirror ([Object], [Class], [Array],
    [String]), with android/art/dex/primitive.h, modifiers.h and
    android/art/base/length_prefixed_array.h.

    An object is a reference whose address has 32 bits.  The layout of [Class] depends on
    the version [sdk] of Android, an argument of the definitions that use it.  An accessor
    returns the value read; that the objects of the code remember the segment and the class
    they have found is not modelled, the core does not change between two reads. *)

From Stdlib Require Import ZArith Lia Bool.
From stdpp Require Import base list gmap numbers.
From S2P Require Import Prelude Words Host Blocks Notes CoreApi Segments AddressSpace MemRef Elf.
From S2P Require Import Utf.
Open Scope Z_scope.

(** * Versions and constants *)

Module Sdk.
Definition M : Z := 23.
Definition N : Z := 24.
Definition O : Z := 26.
Definition P : Z := 28.
Definition Q : Z := 29.
Definition R : Z := 30.
Definition S : Z := 31.
Definition T : Z := 33.
Definition U : Z := 34.
Definition V : Z := 35.
Definition W : Z := 36.
Definition X : Z := 37.
End Sdk.

Definition kObjectAlignmentShift : Z := 3.
Definition kObjectAlignment : Z := Z.shiftl 1 kObjectAlignmentShift.
Definition kPoisonDeadObject : Z := 0xBADDB01D.
Definition kValidObjectSize : Z := 1 * 1024 * 1024.
Definition kPrimitiveTypeSizeShiftShift : Z := 16.
Definition kPrimitiveTypeMask : Z := Z.shiftl 1 kPrimitiveTypeSizeShiftShift - 1.

(** [Primitive::Type]. *)
Definition kPrimNot : Z := 0.
Definition kPrimBoolean : Z := 1.
Definition kPrimByte : Z := 2.
Definition kPrimChar : Z := 3.
Definition kPrimShort : Z := 4.
Definition kPrimInt : Z := 5.
Definition kPrimLong : Z := 6.
Definition kPrimFloat : Z := 7.
Definition kPrimDouble : Z := 8.
Definition kPrimVoid : Z := 9.

Definition kClassFlagString : Z := 0x4.
Definition kClassFlagClassLoader : Z := 0x20.
Definition kClassFlagDexCache : Z := 0x40.
Definition kClassFlagSoftReference : Z := 0x80.
Definition kClassFlagWeakReference : Z := 0x100.
Definition kClassFlagFinalizerReference : Z := 0x200.
Definition kClassFlagPhantomReference : Z := 0x400.
Definition kClassFlagRecord : Z := 0x800.
Definition kClassFlagReference : Z :=
  Z.lor (Z.lor (Z.lor kClassFlagSoftReference kClassFlagWeakReference)
    kClassFlagFinalizerReference) kClassFlagPhantomReference.

Definition kAccPublic : Z := 0x1.
Definition kAccFinal : Z := 0x10.
Definition kAccInterface : Z := 0x200.
Definition kAccAbstract : Z := 0x400.
Definition kAccSynthetic : Z := 0x1000.
Definition kAccAnnotation : Z := 0x2000.
Definition kAccEnum : Z := 0x4000.
Definition kAccClassIsProxy : Z := 0x40000.
Definition kAccVerificationAttempted : Z := 0x80000.
Definition kAccSkipHiddenapiChecks : Z := 0x100000.
Definition kAccObsoleteObject : Z := 0x200000.
Definition kAccClassIsFinalizable : Z := 0x80000000.
Definition kAccClassIsReference : Z := 0x08000000.
Definition kAccClassIsWeakReference : Z := 0x04000000.
Definition kAccClassIsFinalizerReference : Z := 0x02000000.
Definition kAccClassIsPhantomReference : Z := 0x01000000.
Definition kAccClassIsStringClass : Z := 0x00800000.
Definition kAccReferenceFlagsMask : Z :=
  Z.lor (Z.lor (Z.lor kAccClassIsReference kAccClassIsWeakReference)
    kAccClassIsFinalizerReference) kAccClassIsPhantomReference.

(** [ClassStatus]. *)
Definition kRetired : Z := 1.
Definition kErrorResolved : Z := 2.
Definition kErrorUnresolved : Z := 3.
Definition kIdx : Z := 4.
Definition kResolved : Z := 7.
Definition kRetryVerificationAtRuntime : Z := 9.
Definition kVerifiedNeedsAccessChecks : Z := 10.
Definition kVerified : Z := 11.
Definition kInitializing : Z := 13.
Definition kVisiblyInitialized : Z := 15.

(** * Offset tables *)

Record Object_OffsetTable := { klass_ : Z; monitor_ : Z }.
Definition Object_Init : Object_OffsetTable := {| klass_ := 0; monitor_ := 4 |}.
Record Array_OffsetTable := { length_ : Z; first_element_ : Z }.
Definition Array_Init : Array_OffsetTable := {| length_ := 8; first_element_ := 12 |}.
Record String_OffsetTable := {
  count_ : Z; hash_code_ : Z; value_ : Z; value_compressed_ : Z; String_THIS : Z }.
Definition String_Init : String_OffsetTable :=
  {| count_ := 8; hash_code_ := 12; value_ := 16; value_compressed_ := 16; String_THIS := 16 |}.
Record LengthPrefixedArray_OffsetTable := { lpa_size_ : Z; lpa_data_ : Z }.
Definition LengthPrefixedArray_Init : LengthPrefixedArray_OffsetTable :=
  {| lpa_size_ := 0; lpa_data_ := 4 |}.

Record Class_OffsetTable := {
  class_loader_ : Z; component_type_ : Z; dex_cache_ : Z; ext_data_ : Z; iftable_ : Z;
  name_ : Z; super_class_ : Z; vtable_ : Z; ifields_ : Z; methods_ : Z; sfields_ : Z;
  access_flags_ : Z; class_flags_ : Z; class_size_ : Z; clinit_thread_id_ : Z;
  dex_class_def_idx_ : Z; dex_type_idx_ : Z; num_reference_instance_fields_ : Z;
  num_reference_static_fields_ : Z; object_size_ : Z; object_size_alloc_fast_path_ : Z;
  primitive_type_ : Z; reference_instance_offsets_ : Z; status_ : Z;
  copied_methods_offset_ : Z; virtual_methods_offset_ : Z;
  dex_cache_strings_ : Z; direct_methods_ : Z; virtual_methods_ : Z; num_direct_methods_ : Z;
  num_instance_fields_ : Z; num_static_fields_ : Z; num_virtual_methods_ : Z;
  fields_ : Z; Class_THIS : Z }.

Definition Class_Init23 : Class_OffsetTable :=
  {| class_loader_ := 8; component_type_ := 12; dex_cache_ := 16; ext_data_ := 0;
     iftable_ := 24; name_ := 28; super_class_ := 32; vtable_ := 40; ifields_ := 56;
     methods_ := 0; sfields_ := 64; access_flags_ := 44; class_flags_ := 0;
     class_size_ := 80; clinit_thread_id_ := 84; dex_class_def_idx_ := 88;
     dex_type_idx_ := 92; num_reference_instance_fields_ := 104;
     num_reference_static_fields_ := 108; object_size_ := 120;
     object_size_alloc_fast_path_ := 0; primitive_type_ := 124;
     reference_instance_offsets_ := 128; status_ := 132; copied_methods_offset_ := 0;
     virtual_methods_offset_ := 0; dex_cache_strings_ := 20; direct_methods_ := 48;
     virtual_methods_ := 72; num_direct_methods_ := 96; num_instance_fields_ := 100;
     num_static_fields_ := 112; num_virtual_methods_ := 116; fields_ := 0;
     Class_THIS := 136 |}.

Definition Class_Init24 : Class_OffsetTable :=
  {| class_loader_ := 12; component_type_ := 16; dex_cache_ := 20; ext_data_ := 0;
     iftable_ := 24; name_ := 28; super_class_ := 32; vtable_ := 40; ifields_ := 56;
     methods_ := 64; sfields_ := 72; access_flags_ := 44; class_flags_ := 80;
     class_size_ := 84; clinit_thread_id_ := 88; dex_class_def_idx_ := 92;
     dex_type_idx_ := 96; num_reference_instance_fields_ := 100;
     num_reference_static_fields_ := 104; object_size_ := 108;
     object_size_alloc_fast_path_ := 0; primitive_type_ := 112;
     reference_instance_offsets_ := 118; status_ := 122; copied_methods_offset_ := 126;
     virtual_methods_offset_ := 128; dex_cache_strings_ := 48; direct_methods_ := 0;
     virtual_methods_ := 0; num_direct_methods_ := 0; num_instance_fields_ := 0;
     num_static_fields_ := 0; num_virtual_methods_ := 0; fields_ := 0; Class_THIS := 130 |}.

Definition Class_Init26 : Class_OffsetTable :=
  {| class_loader_ := 8; component_type_ := 12; dex_cache_ := 16; ext_data_ := 20;
     iftable_ := 24; name_ := 28; super_class_ := 32; vtable_ := 36; ifields_ := 40;
     methods_ := 48; sfields_ := 56; access_flags_ := 64; class_flags_ := 68;
     class_size_ := 72; clinit_thread_id_ := 76; dex_class_def_idx_ := 80;
     dex_type_idx_ := 84; num_reference_instance_fields_ := 88;
     num_reference_static_fields_ := 92; object_size_ := 96;
     object_size_alloc_fast_path_ := 100; primitive_type_ := 104;
     reference_instance_offsets_ := 108; status_ := 112; copied_methods_offset_ := 116;
     virtual_methods_offset_ := 118; dex_cache_strings_ := 0; direct_methods_ := 0;
     virtual_methods_ := 0; num_direct_methods_ := 0; num_instance_fields_ := 0;
     num_static_fields_ := 0; num_virtual_methods_ := 0; fields_ := 0; Class_THIS := 120 |}.

(** [Init36] and [Init37] differ in the last fields only. *)
Definition Class_fields36 (copied virtual this : Z) : Class_OffsetTable :=
  {| class_loader_ := 8; component_type_ := 12; dex_cache_ := 16; ext_data_ := 20;
     iftable_ := 24; name_ := 28; super_class_ := 32; vtable_ := 36; ifields_ := 40;
     methods_ := 48; sfields_ := 40; access_flags_ := 56; class_flags_ := 60;
     class_size_ := 64; clinit_thread_id_ := 68; dex_class_def_idx_ := 72;
     dex_type_idx_ := 76; num_reference_instance_fields_ := 80;
     num_reference_static_fields_ := 84; object_size_ := 88;
     object_size_alloc_fast_path_ := 92; primitive_type_ := 96;
     reference_instance_offsets_ := 100; status_ := 104; copied_methods_offset_ := copied;
     virtual_methods_offset_ := virtual; dex_cache_strings_ := 0; direct_methods_ := 0;
     virtual_methods_ := 0; num_direct_methods_ := 0; num_instance_fields_ := 0;
     num_static_fields_ := 0; num_virtual_methods_ := 0; fields_ := 40; Class_THIS := this |}.
Definition Class_Init36 : Class_OffsetTable := Class_fields36 108 110 112.
Definition Class_Init37 : Class_OffsetTable := Class_fields36 0 0 108.

(** The table after the listeners of [Class::Init] have run for a version from 23 on. *)
Definition Class_Init (sdk : Z) : Class_OffsetTable :=
  if Sdk.X <=? sdk then Class_Init37
  else if Sdk.W <=? sdk then Class_Init36
  else if Sdk.O <=? sdk then Class_Init26
  else if Sdk.N <=? sdk then Class_Init24
  else Class_Init23.

Section Vtable.
Context {M : Machine} (sdk : Z).
(** The fields behind the class: the length of the embedded vtable, the pointer to the
    table of interface methods, the vtable. *)
Definition embedded_vtable_length_ : Z := Class_THIS (Class_Init sdk).
Definition imt_ptr_ : Z := RoundUp 64 (embedded_vtable_length_ + 4) point_size.
Definition embedded_vtable_ : Z := imt_ptr_ + point_size.
End Vtable.

(** * Objects *)

(** [Object(v)] and [Object(v, ref)]: the constructors take [uint32_t]. *)
Definition Object (v : Z) : MemoryRef := ref_at (u32 v).
Definition Object_from (c : CoreApi) (v : Z) (r : MemoryRef) : MemoryRef :=
  ref_from c (u32 v) r.

(** The value read at an offset of an object. *)
Definition word (c : CoreApi) (r : MemoryRef) (off n : Z) : result Z :=
  let! x := load_at c r off n in Ok (snd x).

Section Mirrors.
Context {M : Machine} (sdk : Z) (c : CoreApi).

(** [GetClass()], through the cache [klass_cache]. *)
Definition GetClass (obj : MemoryRef) : result MemoryRef :=
  let! k := word c obj (klass_ Object_Init) 4 in
  Prepare c (ref_from c k obj) false.

(** The accessors of [Class] with four bytes; [Class(v, this)]. *)
Definition class_word (k : MemoryRef) (f : Class_OffsetTable -> Z) : result Z :=
  word c k (f (Class_Init sdk)) 4.
Definition class_ref (k : MemoryRef) (f : Class_OffsetTable -> Z) : result MemoryRef :=
  let! v := class_word k f in Ok (Object_from c v k).

Definition GetComponentType (k : MemoryRef) : result MemoryRef := class_ref k component_type_.
Definition GetSuperClass (k : MemoryRef) : result MemoryRef := class_ref k super_class_.
Definition GetName (k : MemoryRef) : result MemoryRef := class_ref k name_.
Definition GetClassLoader (k : MemoryRef) : result MemoryRef := class_ref k class_loader_.
Definition GetAccessFlags (k : MemoryRef) : result Z := class_word k access_flags_.
Definition GetClassFlags (k : MemoryRef) : result Z := class_word k class_flags_.
Definition GetClassSize (k : MemoryRef) : result Z := class_word k class_size_.
Definition GetObjectSize (k : MemoryRef) : result Z := class_word k object_size_.
Definition GetStatus (k : MemoryRef) : result Z :=
  let! s := class_word k status_ in Ok (Z.shiftr s (32 - 4)).
Definition GetPrimitiveType (k : MemoryRef) : result Z :=
  let! v := class_word k primitive_type_ in Ok (Z.land v kPrimitiveTypeMask).
(** [v32 >> 16] of an [int32_t], converted to [uint64_t]. *)
Definition GetPrimitiveTypeSizeShift (k : MemoryRef) : result Z :=
  let! v := class_word k primitive_type_ in
  Ok (u64 (Z.shiftr (i32 v) kPrimitiveTypeSizeShiftShift)).
Definition GetComponentSizeShift (k : MemoryRef) : result Z :=
  let! e := GetComponentType k in GetPrimitiveTypeSizeShift e.
Definition GetDexTypeIndex (k : MemoryRef) : result Z :=
  let! v := class_word k dex_type_idx_ in Ok (u16 v).
Definition GetDexClassDefIndex (k : MemoryRef) : result Z :=
  let! v := class_word k dex_class_def_idx_ in Ok (u16 v).

(** * Kinds of classes *)

Definition has_flags (m : result Z) (mask : Z) : result bool :=
  let! v := m in Ok (nz (Z.land v mask)).
Definition test (m : result Z) (p : Z -> bool) : result bool :=
  let! v := m in Ok (p v).

Definition IsArrayClass (k : MemoryRef) : result bool :=
  let! e := GetComponentType k in Ok (nz (vaddr e)).
Definition IsStringClass (k : MemoryRef) : result bool :=
  if Sdk.N <=? sdk then has_flags (GetClassFlags k) kClassFlagString
  else has_flags (GetAccessFlags k) kAccClassIsStringClass.
Definition IsDexCacheClass k := has_flags (GetClassFlags k) kClassFlagDexCache.
Definition IsClassLoaderClass k := has_flags (GetClassFlags k) kClassFlagClassLoader.
Definition IsRecordClass k := has_flags (GetClassFlags k) kClassFlagRecord.
Definition IsClassClass (k : MemoryRef) : result bool :=
  let! kk := GetClass k in Ok (vaddr kk =? vaddr k).
Definition IsPrimitive (k : MemoryRef) : result bool :=
  test (GetPrimitiveType k) (fun t => negb (t =? kPrimNot)).
Definition IsObjectClass (k : MemoryRef) : result bool :=
  let! p := IsPrimitive k in
  if p : bool then Ok false
  else let! s := GetSuperClass k in Ok (vaddr s =? 0).
(** [IsPrimitiveBoolean] to [IsPrimitiveVoid] all compare with [!=]. *)
Definition IsPrimitiveOf (type : Z) (k : MemoryRef) : result bool :=
  test (GetPrimitiveType k) (fun t => negb (t =? type)).
Definition IsPrimitiveBoolean := IsPrimitiveOf kPrimBoolean.
Definition IsPrimitiveByte := IsPrimitiveOf kPrimByte.
Definition IsPrimitiveChar := IsPrimitiveOf kPrimChar.
Definition IsPrimitiveShort := IsPrimitiveOf kPrimShort.
Definition IsPrimitiveInt := IsPrimitiveOf kPrimInt.
Definition IsPrimitiveLong := IsPrimitiveOf kPrimLong.
Definition IsPrimitiveFloat := IsPrimitiveOf kPrimFloat.
Definition IsPrimitiveDouble := IsPrimitiveOf kPrimDouble.
Definition IsPrimitiveVoid := IsPrimitiveOf kPrimVoid.

Definition IsTypeOfReferenceClass (k : MemoryRef) : result bool :=
  if Sdk.N <=? sdk then has_flags (GetClassFlags k) kClassFlagReference
  else has_flags (GetAccessFlags k) kAccClassIsReference.
Definition IsWeakReferenceClass (k : MemoryRef) : result bool :=
  if Sdk.N <=? sdk then test (GetClassFlags k) (Z.eqb kClassFlagWeakReference)
  else has_flags (GetAccessFlags k) kAccClassIsWeakReference.
Definition IsSoftReferenceClass (k : MemoryRef) : result bool :=
  if Sdk.N <=? sdk then test (GetClassFlags k) (Z.eqb kClassFlagSoftReference)
  else test (GetAccessFlags k)
         (fun f => Z.land f kAccReferenceFlagsMask =? kAccClassIsReference).
Definition IsFinalizerReferenceClass (k : MemoryRef) : result bool :=
  if Sdk.N <=? sdk then test (GetClassFlags k) (Z.eqb kClassFlagFinalizerReference)
  else has_flags (GetAccessFlags k) kAccClassIsFinalizerReference.
Definition IsPhantomReferenceClass (k : MemoryRef) : result bool :=
  if Sdk.N <=? sdk then test (GetClassFlags k) (Z.eqb kClassFlagPhantomReference)
  else has_flags (GetAccessFlags k) kAccClassIsPhantomReference.

Definition IsRetired k := test (GetStatus k) (Z.eqb kRetired).
Definition IsErroneousUnresolved k := test (GetStatus k) (Z.eqb kErrorUnresolved).
Definition IsErroneousResolved k := test (GetStatus k) (Z.eqb kErrorResolved).
Definition IsErroneous k :=
  test (GetStatus k) (fun s => (s =? kErrorUnresolved) || (s =? kErrorResolved)).
Definition IsIdxLoaded k := test (GetStatus k) (Z.leb kIdx).
Definition IsResolved k :=
  test (GetStatus k) (fun s => (kResolved <=? s) || (s =? kErrorResolved)).
Definition ShouldVerifyAtRuntime k := test (GetStatus k) (Z.eqb kRetryVerificationAtRuntime).
Definition IsVerifiedNeedsAccessChecks k := test (GetStatus k) (Z.leb kVerifiedNeedsAccessChecks).
Definition IsVerified k := test (GetStatus k) (Z.leb kVerified).
Definition IsInitializing k := test (GetStatus k) (Z.leb kInitializing).
Definition IsVisiblyInitialized k := test (GetStatus k) (Z.eqb kVisiblyInitialized).

Definition IsEnum k := has_flags (GetAccessFlags k) kAccEnum.
Definition IsInterface k := has_flags (GetAccessFlags k) kAccInterface.
Definition IsPublic k := has_flags (GetAccessFlags k) kAccPublic.
Definition IsFinal k := has_flags (GetAccessFlags k) kAccFinal.
Definition IsFinalizable k := has_flags (GetAccessFlags k) kAccClassIsFinalizable.
Definition ShouldSkipHiddenApiChecks k := has_flags (GetAccessFlags k) kAccSkipHiddenapiChecks.
Definition IsAbstract k := has_flags (GetAccessFlags k) kAccAbstract.
Definition IsAnnotation k := has_flags (GetAccessFlags k) kAccAnnotation.
Definition IsSynthetic k := has_flags (GetAccessFlags k) kAccSynthetic.
Definition WasVerificationAttempted k := has_flags (GetAccessFlags k) kAccVerificationAttempted.
Definition IsObsoleteObject k := has_flags (GetAccessFlags k) kAccObsoleteObject.
Definition IsProxyClass k := has_flags (GetAccessFlags k) kAccClassIsProxy.
(** [(!IsPrimitive() && !IsInterface() && !IsAbstract()) || (IsAbstract() && IsArrayClass())]. *)
Definition IsInstantiable (k : MemoryRef) : result bool :=
  let! p := IsPrimitive k in
  let! i := (if p : bool then Ok true else IsInterface k) in
  let! a := (if i : bool then Ok true else IsAbstract k) in
  if negb a then Ok true
  else let! a := IsAbstract k in if a : bool then IsArrayClass k else Ok false.

(** * Field and method arrays of a class *)

(** [LengthPrefixedArray(v, this)] with [size()] and [data()]. *)
Definition lpa_size (k : MemoryRef) (v : Z) : result Z :=
  let arr := ref_from c v k in
  if nz (vaddr arr) then word c arr (lpa_size_ LengthPrefixedArray_Init) 4 else Ok 0.
Definition lpa_data (k : MemoryRef) (v : Z) : Z :=
  let arr := ref_from c v k in
  if nz (vaddr arr) then u64 (vaddr arr + lpa_data_ LengthPrefixedArray_Init) else 0.
(** The accessors of [Class] with eight bytes, and with two. *)
Definition class_quad (k : MemoryRef) (f : Class_OffsetTable -> Z) : result Z :=
  word c k (f (Class_Init sdk)) 8.
Definition class_half (k : MemoryRef) (f : Class_OffsetTable -> Z) : result Z :=
  word c k (f (Class_Init sdk)) 2.

Definition GetIFields (k : MemoryRef) : result Z :=
  let! v := class_quad k ifields_ in Ok (if Sdk.N <=? sdk then lpa_data k v else v).
Definition GetSFields (k : MemoryRef) : result Z :=
  let! v := class_quad k sfields_ in Ok (if Sdk.N <=? sdk then lpa_data k v else v).
Definition GetFields (k : MemoryRef) : result Z :=
  let! v := class_quad k fields_ in Ok (lpa_data k v).
Definition NumFields (k : MemoryRef) : result Z :=
  let! v := class_quad k fields_ in lpa_size k v.
Definition NumDirectMethods (k : MemoryRef) : result Z :=
  if Sdk.N <=? sdk then class_half k virtual_methods_offset_
  else class_word k num_direct_methods_.
Definition NumVirtualMethods (k : MemoryRef) : result Z := class_word k num_virtual_methods_.
Definition NumMethods (k : MemoryRef) : result Z :=
  if Sdk.N <=? sdk then let! v := class_quad k methods_ in lpa_size k v
  else
    let! d := NumDirectMethods k in
    let! v := NumVirtualMethods k in Ok (u32 (d + v)).
Definition GetMethods (k : MemoryRef) : result Z :=
  let! v := class_quad k methods_ in
  if nz v then Ok (RoundUp 64 (lpa_data k v) point_size) else Ok 0.
Definition GetDirectMethods (k : MemoryRef) : result Z :=
  let! v := class_quad k direct_methods_ in Ok (Z.land v (pointer_mask c)).
Definition GetVirtualMethods (k : MemoryRef) : result Z :=
  let! v := class_quad k virtual_methods_ in Ok (Z.land v (pointer_mask c)).

(** * Kinds of objects *)

Definition by_class (p : MemoryRef -> result bool) (obj : MemoryRef) : result bool :=
  let! k := GetClass obj in p k.

(** [IsClass()]: the class of an object is the class of classes. *)
Definition IsClass (obj : MemoryRef) : result bool :=
  let! k := GetClass obj in
  let! j := GetClass k in Ok (vaddr k =? vaddr j).
Definition IsArrayInstance := by_class IsArrayClass.
Definition IsReferenceInstance := by_class IsTypeOfReferenceClass.
Definition IsString := by_class IsStringClass.
Definition IsWeakReferenceInstance := by_class IsWeakReferenceClass.
Definition IsSoftReferenceInstance := by_class IsSoftReferenceClass.
Definition IsFinalizerReferenceInstance := by_class IsFinalizerReferenceClass.
Definition IsPhantomReferenceInstance := by_class IsPhantomReferenceClass.
Definition IsClassLoader := by_class IsClassLoaderClass.
Definition IsDexCache := by_class IsDexCacheClass.
Definition IsObjectArray (obj : MemoryRef) : result bool :=
  let! k := GetClass obj in
  let! e := GetComponentType k in
  let! a := IsArrayInstance obj in
  if a : bool then let! p := IsPrimitive e in Ok (negb p) else Ok false.
Definition IsSpecificPrimitiveArray (type : Z) (obj : MemoryRef) : result bool :=
  let! k := GetClass obj in
  let! e := GetComponentType k in
  if nz (vaddr e) then test (GetPrimitiveType e) (Z.eqb type) else Ok false.
Definition IsBooleanArray := IsSpecificPrimitiveArray kPrimBoolean.
Definition IsByteArray := IsSpecificPrimitiveArray kPrimByte.
Definition IsCharArray := IsSpecificPrimitiveArray kPrimChar.
Definition IsShortArray := IsSpecificPrimitiveArray kPrimShort.
Definition IsIntArray := IsSpecificPrimitiveArray kPrimInt.
Definition IsLongArray := IsSpecificPrimitiveArray kPrimLong.
Definition IsFloatArray := IsSpecificPrimitiveArray kPrimFloat.
Definition IsDoubleArray := IsSpecificPrimitiveArray kPrimDouble.

(** * Arrays and strings *)

Definition GetLength (arr : MemoryRef) : result Z :=
  let! n := word c arr (length_ Array_Init) 4 in Ok (i32 n).
(** [GetRawData(component_size, index)], with [index * component_size] in [size_t]. *)
Definition GetRawData (arr : MemoryRef) (component_size index : Z) : Z :=
  u64 (vaddr arr + RoundUp 32 (first_element_ Array_Init) component_size
       + u64 (index * component_size)).
(** [Array::SizeOf()]. Shifting an [int] by its width or more is undefined; an element
    count that overflows is taken modulo 2^32, as compilers do. *)
Definition Array_SizeOf (arr : MemoryRef) : result Z :=
  let! k := GetClass arr in
  let! shift := GetComponentSizeShift k in
  let! component_count := GetLength arr in
  if 32 <=? shift then Fault
  else
    let header_size := RoundUp 32 0xC (shl 32 1 shift) in
    let data_size := u64 (i32 (Z.shiftl component_count shift)) in
    Ok (u64 (u64 (i32 header_size) + data_size)).

Definition GetCount (s : MemoryRef) : result Z :=
  let! n := word c s (count_ String_Init) 4 in Ok (i32 n).
Definition GetLengthFromCount (count : Z) : Z := Z.shiftr (u32 count) 1.
Definition String_GetLength (s : MemoryRef) : result Z :=
  let! n := GetCount s in Ok (if Sdk.O <=? sdk then GetLengthFromCount n else n).
Definition IsCompressed (s : MemoryRef) : result bool :=
  if Sdk.O <=? sdk then let! n := GetCount s in Ok (Z.land (u32 n) 1 =? 0) else Ok false.
(** [String::SizeOf()], in [uint64_t]. *)
Definition String_SizeOf (s : MemoryRef) : result Z :=
  let! compressed := IsCompressed s in
  let! n := String_GetLength s in
  let size := u64 (String_THIS String_Init + u64 ((if compressed : bool then 1 else 2) * n)) in
  Ok (RoundUp 64 size kObjectAlignment).

(** The units at [GetValue()]. *)
Fixpoint units_of (l : list Z) : list Z :=
  match l with
  | a :: b :: t => a + 256 * b :: units_of t
  | _ => []
  end.
Definition GetValue (s : MemoryRef) (n : Z) : result (list Z) :=
  let! '(_, p) := Real c s in
  if n <? 0 then Fault
  else
    let! bs := host_load (host_mem c) (u64 (p + value_ String_Init)) (2 * n) in
    Ok (units_of bs).
Definition GetUtfLength (s : MemoryRef) : result Z :=
  let! compressed := IsCompressed s in
  let! n := String_GetLength s in
  if compressed : bool then Ok n
  else let! us := GetValue s n in Ok (i32 (CountUtf8Bytes us)).
(** [ToModifiedUtf8()]: the bytes of the [std::string]; a store behind its end is
    undefined. *)
Definition ToModifiedUtf8 (s : MemoryRef) : result (list Z) :=
  let! compressed := IsCompressed s in
  let! n := String_GetLength s in
  if compressed : bool then
    let! '(_, p) := Real c s in
    host_load (host_mem c) (u64 (p + value_compressed_ String_Init)) n
  else
    let! byte_count := GetUtfLength s in
    if byte_count <? 0 then Fault
    else
      let! us := GetValue s n in
      let out := ConvertUtf16ToModifiedUtf8 byte_count us in
      if byte_count <? Z.of_nat (length out) then Fault
      else Ok (out ++ replicate (Z.to_nat byte_count - length out) 0).

(** * Valid objects *)

(** [Object::SizeOf()]. *)
Definition SizeOf (obj : MemoryRef) : result Z :=
  let! a := IsArrayInstance obj in
  if a : bool then Array_SizeOf obj else
  let! k := IsClass obj in
  if k : bool then GetClassSize obj else
  let! s := IsString obj in
  if s : bool then String_SizeOf obj
  else let! k := GetClass obj in GetObjectSize k.

(** What [IsValid] and [IsNonLargeValid] share: an object with a class and an acceptable
    size; an exception means no. *)
Definition valid_object (size_ok : Z -> bool) (obj : MemoryRef) : result bool :=
  catch
    (let! k := GetClass obj in
     if (vaddr k =? 0) || (vaddr k =? kPoisonDeadObject) then Ok false
     else
       let! b := IsClass k in
       if b : bool then let! n := SizeOf obj in Ok (size_ok (i64 n)) else Ok false)
    (fun _ => Ok false).
Definition obj_IsValid := valid_object (fun n => negb (n <? kObjectAlignment)).
Definition IsNonLargeValid :=
  valid_object (fun n => negb (n <? kObjectAlignment) && (n <? kValidObjectSize)).

(** [NextValidOffset(max)] of the object [this]; [thiz] is the address reached. *)
Fixpoint next_loop (fuel : nat) (this : MemoryRef) (thiz max : Z) : result Z :=
  match fuel with
  | O => OutOfFuel
  | S n =>
      let thiz := u32 (thiz + kObjectAlignment) in
      let! v := obj_IsValid (ref_from c thiz this) in
      if v : bool then Ok thiz
      else if thiz <? max then next_loop n this thiz max else Ok thiz
  end.
Definition NextValidOffset (fuel : nat) (this : MemoryRef) (max : Z) : result Z :=
  next_loop fuel this (vaddr this) max.
End Mirrors.
