(* ===== verification/Cxx.v ===== *)
(** Containers of libc++ in the target: llvm/cxx ([string], [vector], [list], [map],
    [unordered_map], [split_buffer], [deque]; [set] and [unordered_set] are the same code as
    [map] and [unordered_map]).

    A range-based [for] over a container is a program [*_for] that runs a body on every
    element; the body gets the address of the element.  A field is read through [VALUEOF],
    which masks it to the size of a pointer. *)

From Stdlib Require Import ZArith Lia Bool.
From stdpp Require Import base list gmap numbers.
From S2P Require Import Prelude Words Host Blocks Notes CoreApi Segments AddressSpace MemRef Elf.
Open Scope Z_scope.

(** * Offset tables *)

Section Tables.
Context {M : Machine}.
(** The fields are pointers: [cap] is 1 on 64-bit machines and 2 on 32-bit ones. *)
Definition cap : Z := 64 / bits.

Definition vector__begin_ : Z := 0.
Definition vector__end_ : Z := 8 / cap.
Definition kDefEntrySize : Z := 8 / cap.

Definition list__next_ : Z := 8 / cap.
Definition list__value_ : Z := 16 / cap.

Definition map__pair1_ : Z := 8 / cap.
Definition map__pair3_ : Z := 16 / cap.
Definition pair__left_ : Z := 0.
Definition pair__right_ : Z := 8 / cap.
Definition pair__data_ : Z := 32 / cap.

Definition unordered_map__p1_ : Z := 16 / cap.
Definition unordered_map__p2_ : Z := 24 / cap.
Definition unordered_pair__next_ : Z := 0.
Definition unordered_pair__data_ : Z := 16 / cap.

Definition string__l__data_ : Z := 16 / cap.
Definition string__s__size_ : Z := 0.
Definition string__s__data_ : Z := 1.
Definition __short_mask : Z := 1.

Definition split_buffer__begin_ : Z := 8 / cap.
Definition split_buffer__end_ : Z := 16 / cap.
Definition deque__map_ : Z := 0.
Definition deque__start_ : Z := 32 / cap.
Definition deque__size_ : Z := 40 / cap.
End Tables.

(** [VALUEOF] of a field. *)
Definition vword (c : CoreApi) (r : MemoryRef) (off : Z) : result Z :=
  let! x := valueOf c r off in Ok (snd x).

(** A program on a part of the state whose updates stay when it throws. *)
Definition zoom {S T A} (view : S -> T) (update : S -> T -> S) (m : prog T A) : prog S A :=
  fun s => let '(t, r) := m (view s) in (update s t, r).

Section Containers.
Context {M : Machine} (c : CoreApi).

(** * Strings *)

(** [string::c_str()]: an address of the process. *)
Definition c_str (s : MemoryRef) : result Z :=
  let! size := vword c s string__s__size_ in
  if Z.land size __short_mask =? 0 then
    let! '(_, p) := Real c s in Ok (u64 (p + string__s__data_))
  else
    let! d := vword c s string__l__data_ in
    let! '(_, p) := Real c (ref_from c d s) in Ok p.

(** * Vectors *)

Definition vector_size (v : MemoryRef) (entry_size : Z) : result Z :=
  let! e := vword c v vector__end_ in
  let! b := vword c v vector__begin_ in
  if entry_size =? 0 then Fault else Ok (u64 (e - b) / entry_size).
(** [operator[](idx)]; [idx] is an [int]. *)
Definition vector_at (v : MemoryRef) (entry_size idx : Z) : result Z :=
  let! b := vword c v vector__begin_ in Ok (u64 (b + idx * entry_size)).
(** The loop from [begin()] to [end()]. *)
Fixpoint vector_loop {S} (fuel : nat) (current last entry_size : Z) (body : Z -> prog S unit)
    : prog S unit :=
  match fuel with
  | O => lift OutOfFuel
  | Datatypes.S n =>
      if current =? last then pret tt
      else
        let$ _ := body current in
        vector_loop n (u64 (current + entry_size)) last entry_size body
  end.
Definition vector_for {S} (fuel : nat) (v : MemoryRef) (entry_size : Z) (body : Z -> prog S unit)
    : prog S unit :=
  let$ b := lift (vword c v vector__begin_) in
  let$ e := lift (vword c v vector__end_) in
  vector_loop fuel b e entry_size body.

(** * Lists *)

Fixpoint list_loop {S} (fuel : nat) (current : MemoryRef) (last : Z) (body : Z -> prog S unit)
    : prog S unit :=
  match fuel with
  | O => lift OutOfFuel
  | Datatypes.S n =>
      if vaddr current =? last then pret tt
      else
        let$ _ := body (u64 (vaddr current + list__value_)) in
        let$ next := lift (vword c current list__next_) in
        list_loop n (ref_at (Z.land next (vabits_mask c))) last body
  end.
Definition list_for {S} (fuel : nat) (l : MemoryRef) (body : Z -> prog S unit) : prog S unit :=
  let$ first := lift (vword c l list__next_) in
  list_loop fuel (ref_at (Z.land first (vabits_mask c))) (Z.land (vaddr l) (vabits_mask c)) body.
Definition list_size (l : MemoryRef) : result Z := vword c l list__value_.

(** * Maps *)

(** [iterator::traversal(p)]: appends the nodes below [p], and [p], to the cache. *)
Fixpoint traversal (fuel : nat) (p : MemoryRef) : prog (list MemoryRef) unit :=
  match fuel with
  | O => lift OutOfFuel
  | S n =>
      let$ l := lift (vword c p pair__left_) in
      let$ _ := (if nz l then traversal n (ref_from c l p) else pret tt) in
      let$ r := lift (vword c p pair__right_) in
      let$ _ := (if nz r then traversal n (ref_from c r p) else pret tt) in
      modify (fun cache => cache ++ [p])
  end.
Definition map_size (m : MemoryRef) : result Z := vword c m map__pair3_.
(** [begin()]: the nodes are collected when the cache is empty. *)
Definition map_begin (fuel : nat) (m : MemoryRef) : prog (list MemoryRef) unit :=
  let$ cache := get in
  match cache with
  | [] =>
      let$ n := lift (map_size m) in
      if nz n then
        let$ root := lift (vword c m map__pair1_) in traversal fuel (ref_at root)
      else pret tt
  | _ => pret tt
  end.
(** The loop over the positions from [current] on; an index outside the cache is undefined. *)
Fixpoint map_loop {S} (n : nat) (cache : list MemoryRef) (current : nat) (body : Z -> prog S unit)
    : prog S unit :=
  match n with
  | O => pret tt
  | Datatypes.S k =>
      match cache !! current with
      | None => lift Fault
      | Some p =>
          let$ _ := body (u64 (vaddr p + pair__data_)) in
          map_loop k cache (Datatypes.S current) body
      end
  end.
(** The nodes of a map, whose cache is the part [view] of the state, and their number. *)
Definition map_nodes {S} (view : S -> list MemoryRef) (update : S -> list MemoryRef -> S)
    (fuel : nat) (m : MemoryRef) : prog S (Z * list MemoryRef) :=
  let$ _ := zoom view update (map_begin fuel m) in
  let$ n := lift (map_size m) in
  let$ s := get in pret (n, view s).
(** A loop over the map. *)
Definition map_for {S} (view : S -> list MemoryRef) (update : S -> list MemoryRef -> S)
    (fuel : nat) (m : MemoryRef) (body : Z -> prog S unit) : prog S unit :=
  let$ nodes := map_nodes view update fuel m in
  map_loop (Z.to_nat (fst nodes)) (snd nodes) 0 body.
(** A loop over a map that has no cache yet. *)
Definition new_map_for {S} (fuel : nat) (m : MemoryRef) (body : Z -> prog S unit) : prog S unit :=
  fun s =>
    let '(s', r) :=
      map_for snd (fun s cache => (fst s, cache)) fuel m
        (fun value => zoom fst (fun s x => (x, snd s)) (body value)) (s, []) in (fst s', r).

(** * Hash maps *)

Fixpoint unordered_loop {S} (fuel : nat) (p : MemoryRef) (body : Z -> prog S unit)
    : prog S unit :=
  match fuel with
  | O => lift OutOfFuel
  | Datatypes.S n =>
      if vaddr p =? 0 then pret tt
      else
        let$ _ := body (u64 (vaddr p + unordered_pair__data_)) in
        let$ next := lift (vword c p unordered_pair__next_) in
        unordered_loop n (ref_from c next p) body
  end.
Definition unordered_map_for {S} (fuel : nat) (m : MemoryRef) (body : Z -> prog S unit)
    : prog S unit :=
  let$ first := lift (vword c m unordered_map__p1_) in
  unordered_loop fuel (ref_at first) body.
Definition unordered_map_size (m : MemoryRef) : result Z := vword c m unordered_map__p2_.

(** * Deques *)

(** [SetBlockSize(size)] and the constructors of the iterator. *)
Definition deque_block_size (pointer_size : Z) : Z :=
  if pointer_size <? 256 then 4096 / pointer_size else 16.

(** [begin()] and [end()], of which [index] is the position: the reference into the block
    table and the pointer to the element. *)
Definition deque_iterator (d : MemoryRef) (pointer_size index : Z) : result (MemoryRef * Z) :=
  let bs := deque_block_size pointer_size in
  let map := ref_from c (u64 (vaddr d + deque__map_)) d in
  let! first := vword c map split_buffer__begin_ in
  let mp := ref_at (u64 (first + index / bs * point_size)) in
  let! b := vword c map split_buffer__begin_ in
  let! e := vword c map split_buffer__end_ in
  if e =? b then Ok (mp, 0)
  else let! block := vword c mp 0 in Ok (mp, u64 (block + index mod bs * pointer_size)).

(** The loop from the element [pointer] to [last]; [map] is the block table entry. *)
Fixpoint deque_loop {S} (fuel : nat) (map pointer : MemoryRef) (last pointer_size : Z)
    (body : Z -> prog S unit) : prog S unit :=
  match fuel with
  | O => lift OutOfFuel
  | Datatypes.S n =>
      if vaddr pointer =? last then pret tt
      else
        let$ _ := body (vaddr pointer) in
        let$ pointer := lift (MovePtr c pointer pointer_size) in
        let$ block := lift (vword c map 0) in
        if u64 (vaddr pointer - block) =? deque_block_size pointer_size * pointer_size then
          let$ map := lift (MovePtr c map point_size) in
          let$ block := lift (vword c map 0) in
          let$ pointer := lift (Prepare c (ref_at block) false) in
          deque_loop n map pointer last pointer_size body
        else deque_loop n map pointer last pointer_size body
  end.
Definition deque_size (d : MemoryRef) : result Z := vword c d deque__size_.
Definition deque_for {S} (fuel : nat) (d : MemoryRef) (pointer_size : Z) (body : Z -> prog S unit)
    : prog S unit :=
  if pointer_size =? 0 then lift Fault else
  let$ start := lift (vword c d deque__start_) in
  let$ first := lift (deque_iterator d pointer_size start) in
  let$ n := lift (deque_size d) in
  let$ start := lift (vword c d deque__start_) in
  let$ last := lift (deque_iterator d pointer_size (u64 (n + start))) in
  let$ pointer := lift (Prepare c (ref_at (snd first)) false) in
  deque_loop fuel (fst first) pointer (snd last) pointer_size body.
End Containers.
