(* ===== verification/Heap.v ===== *)
(** The heap of the Android runtime: android/art/runtime/gc/accounting/space_bitmap.{h,cpp}
    and the spaces of android/art/runtime/gc/space ([RegionSpace], [BumpPointerSpace],
    [ZygoteSpace], [ImageSpace], [FreeListSpace], [LargeObjectMapSpace]).

    [Walk] of a space calls a visitor on the objects of the space; the visitor is a program
    over the state of its caller, and what it returns is not used by the code.  The version
    of Android is an argument, as in [Mirrors]; log output is left out. *)

From Stdlib Require Import ZArith Lia Bool.
From stdpp Require Import base list gmap numbers.
From S2P Require Import Prelude Words Host Blocks Notes CoreApi Segments AddressSpace MemRef Elf.
From S2P Require Import Mirrors Cxx.
Open Scope Z_scope.

Definition heap_kBitsPerByte : Z := 8.
Definition kPageSize : Z := 0x1000.
Definition kLargeObjectAlignment : Z := kPageSize.

(** * Offset tables *)

Record ContinuousSpaceBitmap_OffsetTable := {
  mem_map_ : Z; bitmap_begin_ : Z; bitmap_size_ : Z; heap_begin_ : Z }.
Record ContinuousSpace_OffsetTable := { begin_ : Z; end_ : Z; limit_ : Z }.
Record RegionSpace_OffsetTable := { num_regions_ : Z; regions_ : Z; rs_mark_bitmap_ : Z }.
Record Region_OffsetTable := {
  idx_ : Z; live_bytes_ : Z; rg_begin_ : Z; thread_ : Z; top_ : Z; rg_end_ : Z;
  objects_allocated_ : Z; alloc_time_ : Z; is_newly_allocated_ : Z; is_a_tlab_ : Z;
  state_ : Z; type_ : Z; Region_THIS : Z }.
Record BumpPointerSpace_OffsetTable := {
  main_block_size_ : Z; num_blocks_ : Z; block_sizes_ : Z; black_dense_region_size_ : Z }.
Record ContinuousMemMapAllocSpace_OffsetTable := {
  live_bitmap_ : Z; mark_bitmap_ : Z; temp_bitmap_ : Z }.
Record LargeObjectSpace_OffsetTable := {
  lock_ : Z; num_bytes_allocated_ : Z; num_objects_allocated_ : Z; total_bytes_allocated_ : Z;
  total_objects_allocated_ : Z; los_begin_ : Z; los_end_ : Z }.
Record FreeListSpace_OffsetTable := {
  fls_mem_map_ : Z; allocation_info_map_ : Z; allocation_info_ : Z; free_end_ : Z;
  free_blocks_ : Z }.
Record AllocationInfo_OffsetTable := { prev_free_ : Z; alloc_size_ : Z; AllocationInfo_THIS : Z }.

Section Layouts.
Context {M : Machine} (sdk : Z).

Definition ContinuousSpaceBitmap_Init : ContinuousSpaceBitmap_OffsetTable :=
  if Sdk.Q <=? sdk then
    if bits =? 64 then
      {| mem_map_ := 0; bitmap_begin_ := 72; bitmap_size_ := 80; heap_begin_ := 88 |}
    else {| mem_map_ := 0; bitmap_begin_ := 40; bitmap_size_ := 44; heap_begin_ := 48 |}
  else if Sdk.O <=? sdk then
    if bits =? 64 then
      {| mem_map_ := 0; bitmap_begin_ := 8; bitmap_size_ := 16; heap_begin_ := 24 |}
    else {| mem_map_ := 0; bitmap_begin_ := 4; bitmap_size_ := 8; heap_begin_ := 12 |}
  else {| mem_map_ := 0; bitmap_begin_ := 0; bitmap_size_ := 0; heap_begin_ := 0 |}.

Definition ContinuousSpace_Init : ContinuousSpace_OffsetTable :=
  if bits =? 64 then {| begin_ := 40; end_ := 48; limit_ := 56 |}
  else {| begin_ := 20; end_ := 24; limit_ := 28 |}.

Definition RegionSpace_Init : RegionSpace_OffsetTable :=
  let t n r b := {| num_regions_ := n; regions_ := r; rs_mark_bitmap_ := b |} in
  if Sdk.S <=? sdk then if bits =? 64 then t 576 616 744 else t 320 348 484
  else if Sdk.R <=? sdk then if bits =? 64 then t 576 608 736 else t 320 336 404
  else if Sdk.Q <=? sdk then if bits =? 64 then t 216 248 352 else t 128 144 200
  else if Sdk.P <=? sdk then if bits =? 64 then t 168 200 312 else t 100 116 172
  else if Sdk.O <=? sdk then if bits =? 64 then t 176 192 304 else t 100 108 164
  else t 0 0 0.

Definition Region_Init : Region_OffsetTable :=
  if Sdk.Q <=? sdk then
    if bits =? 64 then
      {| idx_ := 0; live_bytes_ := 8; rg_begin_ := 16; thread_ := 24; top_ := 32;
         rg_end_ := 40; objects_allocated_ := 48; alloc_time_ := 56;
         is_newly_allocated_ := 60; is_a_tlab_ := 61; state_ := 62; type_ := 63;
         Region_THIS := 64 |}
    else
      {| idx_ := 0; live_bytes_ := 4; rg_begin_ := 8; thread_ := 12; top_ := 16;
         rg_end_ := 20; objects_allocated_ := 24; alloc_time_ := 28;
         is_newly_allocated_ := 32; is_a_tlab_ := 33; state_ := 34; type_ := 35;
         Region_THIS := 36 |}
  else if Sdk.O <=? sdk then
    if bits =? 64 then
      {| idx_ := 0; live_bytes_ := 56; rg_begin_ := 8; thread_ := 72; top_ := 16;
         rg_end_ := 24; objects_allocated_ := 40; alloc_time_ := 48;
         is_newly_allocated_ := 64; is_a_tlab_ := 65; state_ := 32; type_ := 33;
         Region_THIS := 80 |}
    else
      {| idx_ := 0; live_bytes_ := 28; rg_begin_ := 4; thread_ := 36; top_ := 8;
         rg_end_ := 12; objects_allocated_ := 20; alloc_time_ := 24;
         is_newly_allocated_ := 32; is_a_tlab_ := 33; state_ := 16; type_ := 17;
         Region_THIS := 40 |}
  else
    {| idx_ := 0; live_bytes_ := 0; rg_begin_ := 0; thread_ := 0; top_ := 0; rg_end_ := 0;
       objects_allocated_ := 0; alloc_time_ := 0; is_newly_allocated_ := 0; is_a_tlab_ := 0;
       state_ := 0; type_ := 0; Region_THIS := 0 |}.

Definition BumpPointerSpace_Init : BumpPointerSpace_OffsetTable :=
  let t m n b d := {| main_block_size_ := m; num_blocks_ := n; block_sizes_ := b;
                      black_dense_region_size_ := d |} in
  if Sdk.W <=? sdk then if bits =? 64 then t 584 0 592 640 else t 328 0 332 356
  else if Sdk.U <=? sdk then if bits =? 64 then t 584 0 592 0 else t 328 0 332 0
  else if Sdk.O <=? sdk then if bits =? 64 then t 584 592 0 0 else t 328 332 0 0
  else t 0 0 0 0.

Definition ContinuousMemMapAllocSpace_Init : ContinuousMemMapAllocSpace_OffsetTable :=
  let t l m p := {| live_bitmap_ := l; mark_bitmap_ := m; temp_bitmap_ := p |} in
  if Sdk.W <=? sdk then if bits =? 64 then t 144 272 400 else t 76 144 212 else t 0 0 0.

(** [SIZEOF(ImageHeader)]. *)
Definition ImageHeader_THIS : Z :=
  if Sdk.V <=? sdk then 264 else if Sdk.U <=? sdk then 256 else if Sdk.S <=? sdk then 248
  else if Sdk.R <=? sdk then 256 else if Sdk.Q <=? sdk then 248 else if Sdk.P <=? sdk then 232
  else if Sdk.O <=? sdk then 216 else if Sdk.N <=? sdk then 272 else 140.

Definition LargeObjectSpace_Init : LargeObjectSpace_OffsetTable :=
  let t l b o tb to be en :=
    {| lock_ := l; num_bytes_allocated_ := b; num_objects_allocated_ := o;
       total_bytes_allocated_ := tb; total_objects_allocated_ := to; los_begin_ := be;
       los_end_ := en |} in
  if Sdk.R <=? sdk then
    if bits =? 64 then t 304 344 352 360 368 376 384 else t 160 192 200 208 216 224 228
  else if Sdk.Q <=? sdk then
    if bits =? 64 then t 0 104 112 120 128 136 144 else t 0 64 72 80 88 96 100
  else if bits =? 64 then t 0 64 72 80 88 96 104 else t 0 32 40 48 56 64 68.

(** [large_objects_] of [LargeObjectMapSpace]; [patch] is the last part of the version. *)
Definition large_objects_ (patch : Z) : Z :=
  if Sdk.R <=? sdk then if bits =? 64 then 392 else 232
  else if Sdk.Q <=? sdk then if bits =? 64 then 152 else 104
  else if Sdk.P <=? sdk then if bits =? 64 then 168 else 112
  else if Sdk.O <=? sdk then if bits =? 64 then 176 else 112
  else if Sdk.N <=? sdk then if bits =? 64 then 168 else 112
  else if bits =? 64 then 168 else if 1 <=? patch then 120 else 112.

Definition FreeListSpace_Init : FreeListSpace_OffsetTable :=
  let t m im ai fe fb :=
    {| fls_mem_map_ := m; allocation_info_map_ := im; allocation_info_ := ai;
       free_end_ := fe; free_blocks_ := fb |} in
  if Sdk.R <=? sdk then if bits =? 64 then t 392 464 536 544 552 else t 232 272 312 316 320
  else if Sdk.Q <=? sdk then
    if bits =? 64 then t 152 224 296 304 312 else t 104 144 184 188 192
  else if Sdk.O <=? sdk then if bits =? 64 then t 112 120 128 176 184 else t 72 76 80 116 120
  else if bits =? 64 then t 112 120 128 176 184 else t 72 76 80 136 140.

Definition AllocationInfo_Init : AllocationInfo_OffsetTable :=
  {| prev_free_ := 0; alloc_size_ := 4; AllocationInfo_THIS := 8 |}.
End Layouts.

(** * The bitmap of a space *)

(** [__builtin_ctzll(w)]: the number of zero bits below the lowest one; undefined for 0. *)
Fixpoint ctz (n : nat) (w : Z) : Z :=
  match n with
  | O => 0
  | S m => if Z.testbit w 0 then 0 else 1 + ctz m (Z.shiftr w 1)
  end.

Definition OffsetToIndex (offset point_bit : Z) : Z :=
  offset / kObjectAlignment / (heap_kBitsPerByte * point_bit).
Definition IndexToOffset (index point_bit : Z) : Z :=
  u64 (index * kObjectAlignment * (heap_kBitsPerByte * point_bit)).

Section Walks.
Context {M : Machine} (sdk : Z) (c : CoreApi) {S : Type} (visitor : MemoryRef -> prog S unit).

(** The visit of one object: only of a valid one. *)
Definition visit_valid (obj : MemoryRef) : prog S unit :=
  let$ ok := lift (IsNonLargeValid sdk c obj) in
  if ok : bool then visitor obj else pret tt.

(** The [do ... while (w != 0)] loops over the bits of a word, from the lowest on; a word has
    at most 64. *)
Fixpoint bits_loop (n : nat) (w ptr_base : Z) (heap : MemoryRef) : prog S unit :=
  match n with
  | O => lift OutOfFuel
  | Datatypes.S k =>
      let shift := ctz 64 w in
      let$ _ := visit_valid (Object_from c (u64 (ptr_base + shift * kObjectAlignment)) heap) in
      let w := Z.lxor w (shl 64 1 shift) in
      if nz w then bits_loop k w ptr_base heap else pret tt
  end.
(** The words are skipped when they are zero. *)
Definition visit_word (w index : Z) (heap : MemoryRef) : prog S unit :=
  if nz w then bits_loop 64 w (u64 (IndexToOffset index point_size + vaddr heap)) heap
  else pret tt.
(** The full words between the edges: [n] words from [i] on. *)
Fixpoint middle_loop (n : nat) (i : Z) (words heap : MemoryRef) : prog S unit :=
  match n with
  | O => pret tt
  | Datatypes.S k =>
      let$ w := lift (vword c words (u64 (i * point_size))) in
      let$ _ := visit_word w i heap in
      middle_loop k (i + 1) words heap
  end.

(** [VisitMarkedRange(visit_begin, visit_end, visitor, check)]. *)
Definition VisitMarkedRange (bitmap : MemoryRef) (visit_begin visit_end : Z) : prog S unit :=
  let$ b := lift (vword c bitmap (bitmap_begin_ (ContinuousSpaceBitmap_Init sdk))) in
  let$ h := lift (vword c bitmap (heap_begin_ (ContinuousSpaceBitmap_Init sdk))) in
  let words := ref_at b in
  let$ heap := lift (Prepare c (ref_at h) false) in
  let offset_start := u64 (visit_begin - vaddr heap) in
  let offset_end := u64 (visit_end - vaddr heap) in
  let index_start := OffsetToIndex offset_start point_size in
  let index_end := OffsetToIndex offset_end point_size in
  let bit_start := offset_start / kObjectAlignment mod (heap_kBitsPerByte * point_size) in
  let bit_end := offset_end / kObjectAlignment mod (heap_kBitsPerByte * point_size) in
  let$ w := lift (vword c words (u64 (index_start * point_size))) in
  let left_edge := Z.land w (bnot 64 (u64 (shl 64 1 bit_start - 1))) in
  let$ right_edge :=
    (if index_start <? index_end then
       let$ _ := visit_word left_edge index_start heap in
       let$ _ := middle_loop (Z.to_nat (index_end - (index_start + 1))) (index_start + 1)
                   words heap in
       if bit_end =? 0 then pret 0 else lift (vword c words (u64 (index_end * point_size)))
     else pret left_edge) in
  visit_word (Z.land right_edge (u64 (shl 64 1 bit_end - 1))) index_end heap.

(** * Continuous spaces *)

Definition Begin (space : MemoryRef) : result Z := vword c space (begin_ ContinuousSpace_Init).
Definition End_ (space : MemoryRef) : result Z := vword c space (end_ ContinuousSpace_Init).

(** [GetNextObject(object)]. *)
Definition GetNextObject (object : MemoryRef) : result Z :=
  let! n := SizeOf sdk c object in
  Ok (RoundUp 64 (u64 (vaddr object + n)) kObjectAlignment).

(** The loop of the walks: from object to object, and over what is no object in steps of the
    alignment. [valid] is the test of the loop. *)
Fixpoint walk_loop (fuel : nat) (valid : MemoryRef -> result bool) (object_cache : MemoryRef)
    (pos top : Z) : prog S unit :=
  match fuel with
  | O => lift OutOfFuel
  | Datatypes.S n =>
      if pos <? top then
        let object := Object_from c pos object_cache in
        let$ ok := lift (valid object) in
        if ok : bool then
          let$ _ := visitor object in
          let$ pos := lift (GetNextObject object) in
          walk_loop n valid object_cache pos top
        else
          let$ pos := lift (NextValidOffset sdk c fuel object top) in
          walk_loop n valid object_cache pos top
      else pret tt
  end.
(** [mirror::Object object_cache = pos; object_cache.Prepare(false)]. *)
Definition cache_at (pos : Z) : result MemoryRef := Prepare c (Object pos) false.

Definition ZygoteSpace_Walk (fuel : nat) (space : MemoryRef) : prog S unit :=
  let$ pos := lift (Begin space) in
  let$ top := lift (End_ space) in
  let$ cache := lift (cache_at pos) in
  walk_loop fuel (IsNonLargeValid sdk c) cache pos top.

Definition ImageSpace_Walk (fuel : nat) (space : MemoryRef) : prog S unit :=
  let$ b := lift (Begin space) in
  let pos := RoundUp 64 (u64 (b + ImageHeader_THIS sdk)) kObjectAlignment in
  let$ top := lift (End_ space) in
  let$ cache := lift (cache_at pos) in
  walk_loop fuel (IsNonLargeValid sdk c) cache pos top.

(** * Region spaces *)

Definition kRegionStateFree : Z := 0.
Definition kRegionStateLarge : Z := 2.
Definition kRegionStateLargeTail : Z := 3.
Definition kRegionTypeToSpace : Z := 3.

(** The accessors of [Region]. *)
Definition region_word (r : MemoryRef) (f : Region_OffsetTable -> Z) : result Z :=
  vword c r (f (Region_Init sdk)).
Definition region_byte (r : MemoryRef) (f : Region_OffsetTable -> Z) : result Z :=
  word c r (f (Region_Init sdk)) 1.

(** [GetLiveBitmap()]. *)
Definition GetLiveBitmap (space : MemoryRef) : result MemoryRef :=
  let off := rs_mark_bitmap_ (RegionSpace_Init sdk) in
  let! b := (if Sdk.Q <? sdk then Ok (u64 (vaddr space + off)) else vword c space off) in
  Prepare c (ref_from c b space) false.

(** [WalkNonLargeRegion(visitor, region, check)]. *)
Definition WalkNonLargeRegion (fuel : nat) (space region : MemoryRef) : prog S unit :=
  let$ pos := lift (region_word region rg_begin_) in
  let$ top := lift (region_word region top_) in
  let$ cache := lift (cache_at pos) in
  let$ live := lift (region_word region live_bytes_) in
  let$ need_bitmap :=
    (if live =? Z.land (2 ^ 64 - 1) (pointer_mask c) then pret false
     else let$ live := lift (region_word region live_bytes_) in
          pret (negb (live =? u64 (top - pos)))) in
  if need_bitmap : bool then
    let$ bitmap := lift (GetLiveBitmap space) in VisitMarkedRange bitmap pos top
  else walk_loop fuel (IsNonLargeValid sdk c) cache pos top.

(** One round of [WalkInternal]. *)
Definition walk_region (fuel : nat) (space r : MemoryRef) (only : bool) : prog S unit :=
  let$ _ := lift (region_word r rg_begin_) in
  let$ _ := lift (region_word r top_) in
  let$ state := lift (region_byte r state_) in
  let$ skip :=
    (if state =? kRegionStateFree then pret true
     else if only then let$ t := lift (region_byte r type_) in pret (t =? kRegionTypeToSpace)
     else pret false) in
  if skip : bool then pret tt
  else
    let$ state := lift (region_byte r state_) in
    if state =? kRegionStateLarge then
      let$ b := lift (region_word r rg_begin_) in
      let$ k := lift (GetClass c (Object b)) in
      if nz (vaddr k) then visitor (Object b) else pret tt
    else
      let$ state := lift (region_byte r state_) in
      if state =? kRegionStateLargeTail then pret tt
      else ptry (WalkNonLargeRegion fuel space r) (fun _ => pret tt).
Fixpoint regions_loop (n : nat) (i : Z) (fuel : nat) (space regions : MemoryRef) (only : bool)
    : prog S unit :=
  match n with
  | O => pret tt
  | Datatypes.S k =>
      let r := ref_from c (u64 (vaddr regions + u32 (i * Region_THIS (Region_Init sdk))))
                 regions in
      let$ _ := walk_region fuel space r only in
      regions_loop k (i + 1) fuel space regions only
  end.
(** [WalkInternal(visitor, only, check)]; [Walk] is the case [only = false]. *)
Definition RegionSpace_WalkInternal (fuel : nat) (space : MemoryRef) (only : bool)
    : prog S unit :=
  let$ rs := lift (vword c space (regions_ (RegionSpace_Init sdk))) in
  let$ n := lift (vword c space (num_regions_ (RegionSpace_Init sdk))) in
  regions_loop (Z.to_nat n) 0 fuel space (ref_from c rs space) only.
Definition RegionSpace_Walk (fuel : nat) (space : MemoryRef) : prog S unit :=
  RegionSpace_WalkInternal fuel space false.
End Walks.

(** * Bump pointer spaces *)

Section Bump.
Context {M : Machine} (sdk : Z) (c : CoreApi) {S : Type} (visitor : MemoryRef -> prog S unit).

(** [SlowWalk(visitor)]: all objects, large ones too. *)
Definition SlowWalk (fuel : nat) (space : MemoryRef) : prog S unit :=
  let$ pos := lift (Begin c space) in
  let$ top := lift (End_ c space) in
  let$ cache := lift (cache_at c pos) in
  walk_loop sdk c visitor fuel (obj_IsValid sdk c) cache pos top.

(** [GetBlockSizes()]: the sizes in the deque of the space. *)
Definition GetBlockSizes (fuel : nat) (space : MemoryRef) : result (list Z) :=
  let d := ref_from c (u64 (vaddr space + block_sizes_ (BumpPointerSpace_Init sdk))) space in
  let! n := deque_size c d in
  if nz n then
    match deque_for c fuel d point_size
            (fun p sizes => match vword c (ref_at p) 0 with
                            | Ok v => (sizes ++ [v], Ok tt)
                            | Throw e => (sizes, Throw e)
                            | Fault => (sizes, Fault)
                            | OutOfFuel => (sizes, OutOfFuel)
                            end) [] with
    | (sizes, Ok _) => Ok sizes
    | (_, Throw e) => Throw e
    | (_, Fault) => Fault
    | (_, OutOfFuel) => OutOfFuel
    end
  else Ok [].

(** The walk of the black dense region, which remembers the last object visited. *)
Definition visit_last (bitmap : MemoryRef) (visit_begin visit_end : Z) : prog S MemoryRef :=
  fun s =>
    match VisitMarkedRange sdk c
            (fun obj st => match visitor obj (fst st) with
                           | (s', Ok _) => ((s', obj), Ok tt)
                           | (s', r) => ((s', snd st), r)
                           end) bitmap visit_begin visit_end (s, Object 0) with
    | ((s', last), Ok _) => (s', Ok last)
    | ((s', _), Throw p) => (s', Throw p)
    | ((s', _), Fault) => (s', Fault)
    | ((s', _), OutOfFuel) => (s', OutOfFuel)
    end.

(** The blocks behind the main block. *)
Fixpoint blocks_loop (sizes : list Z) (fuel : nat) (cache : MemoryRef) (pos : Z) : prog S unit :=
  match sizes with
  | [] => pret tt
  | block_size :: sizes =>
      let$ _ := walk_loop sdk c visitor fuel (IsNonLargeValid sdk c) cache pos
                  (u64 (pos + block_size)) in
      blocks_loop sizes fuel cache (u64 (pos + block_size))
  end.

(** [BumpPointerSpace::Walk(visitor, check)]. *)
Definition BumpPointerSpace_Walk (fuel : nat) (space : MemoryRef) : prog S unit :=
  if sdk <? Sdk.V then SlowWalk fuel space
  else
    let$ pos := lift (Begin c space) in
    let$ top := lift (End_ c space) in
    let$ cache := lift (cache_at c pos) in
    let$ main := lift (vword c space (main_block_size_ (BumpPointerSpace_Init sdk))) in
    let$ sizes := lift (GetBlockSizes fuel space) in
    let main := match sizes with [] => u64 (top - pos) | _ => main end in
    let$ b := lift (Begin c space) in
    let main_end := u64 (b + main) in
    let$ pos :=
      (if Sdk.W <=? sdk then
         let$ dense := lift (vword c space
                               (black_dense_region_size_ (BumpPointerSpace_Init sdk))) in
         if 0 <? dense then
           let bitmap := ref_at (u64 (vaddr space
                           + mark_bitmap_ (ContinuousMemMapAllocSpace_Init sdk))) in
           let$ last := visit_last bitmap pos (u64 (pos + dense)) in
           let pos := u64 (pos + dense) in
           if nz (vaddr last) then
             let$ next := lift (GetNextObject sdk c last) in pret (Z.max pos next)
           else pret pos
         else pret pos
       else pret pos) in
    let$ _ := walk_loop sdk c visitor fuel (IsNonLargeValid sdk c) cache pos main_end in
    blocks_loop sizes fuel cache main_end.

(** * Large object spaces *)

(** The visit of an object of any size. *)
Definition visit_any (obj : MemoryRef) : prog S unit :=
  let$ ok := lift (obj_IsValid sdk c obj) in
  if ok : bool then visitor obj else pret tt.

(** [GetLargeObjectsCache()]. *)
Definition GetLargeObjectsCache (patch : Z) (space : MemoryRef) : result MemoryRef :=
  Prepare c (ref_from c (u64 (vaddr space + large_objects_ sdk patch)) space) false.
(** [LargeObjectMapSpace::Walk(visitor, check)]; [view] and [update] give the cache of the map
    in the state. *)
Definition LargeObjectMapSpace_Walk (view : S -> list MemoryRef)
    (update : S -> list MemoryRef -> S) (patch : Z) (fuel : nat) (space : MemoryRef)
    : prog S unit :=
  let$ m := lift (GetLargeObjectsCache patch space) in
  map_for c view update fuel m
    (fun pair =>
       let$ first := lift (vword c (ref_at pair) 0) in
       let$ v := lift (IsValid c (ref_at first)) in
       if snd v then visit_any (fst v) else pret tt).

Definition kFlagFree : Z := 0x80000000.
Definition kFlagZygote : Z := 0x40000000.
Definition kFlagsMask : Z := bnot 32 (Z.lor kFlagFree kFlagZygote).
Definition info_word (r : MemoryRef) (f : AllocationInfo_OffsetTable -> Z) : result Z :=
  word c r (f AllocationInfo_Init) 4.
(** [MoveNexInfo()]. *)
Definition MoveNexInfo (info : MemoryRef) : result MemoryRef :=
  let! a := info_word info alloc_size_ in
  let n := Z.land a kFlagsMask in
  MovePtr c info (u32 ((if nz n then n else 1) * AllocationInfo_THIS AllocationInfo_Init)).
(** The loop of [FreeListSpace::Walk] over the slots; [infos] is the address of the first
    one, [base] the beginning of the space. *)
Fixpoint free_list_loop (fuel : nat) (info : MemoryRef) (last infos : Z) (space block_cache : MemoryRef)
    : prog S unit :=
  match fuel with
  | O => lift OutOfFuel
  | Datatypes.S n =>
      if vaddr info <? last then
        let$ a := lift (info_word info alloc_size_) in
        let$ _ :=
          (if nz (Z.land a kFlagFree) then pret tt
           else
             let$ base := lift (vword c space (los_begin_ (LargeObjectSpace_Init sdk))) in
             let slot := u64 (vaddr info - infos) / AllocationInfo_THIS AllocationInfo_Init in
             visit_any (Object_from c (u64 (base + u64 (slot * kLargeObjectAlignment)))
                          block_cache)) in
        let$ info := lift (MoveNexInfo info) in
        free_list_loop n info last infos space block_cache
      else pret tt
  end.
(** [FreeListSpace::Walk(visitor, check)]. *)
Definition FreeListSpace_Walk (fuel : nat) (space : MemoryRef) : prog S unit :=
  let T := LargeObjectSpace_Init sdk in
  let$ e := lift (vword c space (los_end_ T)) in
  let$ f := lift (vword c space (free_end_ (FreeListSpace_Init sdk))) in
  let free_end_start := u64 (e - f) in
  let$ b := lift (vword c space (los_begin_ T)) in
  let$ block_cache := lift (Prepare c (ref_at b) false) in
  let$ i := lift (vword c space (allocation_info_ (FreeListSpace_Init sdk))) in
  let$ infos := lift (Prepare c (ref_at i) false) in
  let$ b := lift (vword c space (los_begin_ T)) in
  let slot := u64 (free_end_start - b) / kLargeObjectAlignment in
  let last := u64 (vaddr infos + u64 (slot * AllocationInfo_THIS AllocationInfo_Init)) in
  free_list_loop fuel infos last (vaddr infos) space block_cache.
End Bump.
