(* ===== verification/HeapProofs.v ===== *)
(** Properties of the heap walks ([Heap]): the bitmap walk visits the objects whose bits are
    set, the walk of a space visits its objects one behind the other, and both end. *)

From Stdlib Require Import ZArith Lia Bool.
From stdpp Require Import base list gmap numbers.
From S2P Require Import Prelude Words Host Blocks Notes CoreApi Segments AddressSpace MemRef Elf.
From S2P Require Import Mirrors Cxx Heap.
Open Scope Z_scope.

(** * Programs run in a row *)

(** The specification of a visit: [f] on every element, until one fails. *)
Fixpoint pseq {A S} (f : A -> prog S unit) (l : list A) : prog S unit :=
  match l with
  | [] => pret tt
  | a :: t => let$ _ := f a in pseq f t
  end.

Lemma pbind_ext {S A B} (m m' : prog S A) (f f' : A -> prog S B) :
  (forall s, m s = m' s) -> (forall a s, f a s = f' a s) -> forall s, pbind m f s = pbind m' f' s.
Proof. intros Hm Hf s. unfold pbind. rewrite Hm. destruct (m' s) as [s' []]; auto. Qed.

Lemma pbind_assoc {S A B C} (m : prog S A) (f : A -> prog S B) (g : B -> prog S C) s :
  pbind (pbind m f) g s = pbind m (fun a => pbind (f a) g) s.
Proof. unfold pbind. by destruct (m s) as [s' []]. Qed.

Lemma pseq_app {A S} (f : A -> prog S unit) l1 l2 s :
  pseq f (l1 ++ l2) s = pbind (pseq f l1) (fun _ => pseq f l2) s.
Proof.
  revert s. induction l1 as [|a l1 IH]; intros s; cbn [pseq app]; [done|].
  rewrite pbind_assoc. apply pbind_ext; [done|]. intros _ s'. apply IH.
Qed.

Lemma pseq_map {A B S} (f : B -> prog S unit) (g : A -> B) l s :
  pseq f (map g l) s = pseq (fun a => f (g a)) l s.
Proof.
  revert s. induction l as [|a l IH]; intros s; cbn [pseq map]; [done|].
  by apply pbind_ext.
Qed.

Lemma pseq_ext {A S} (f g : A -> prog S unit) l :
  (forall a s, a ∈ l -> f a s = g a s) -> forall s, pseq f l s = pseq g l s.
Proof.
  induction l as [|a l IH]; intros H s; cbn [pseq]; [done|].
  apply pbind_ext; [intros; apply H; set_solver|]. intros _ s'. apply IH. set_solver.
Qed.

(** * Bits *)

(** The positions from [lo] up to [hi] of the bits set in [w]. *)
Definition set_bits (w lo hi : Z) : list Z :=
  filter (fun k => Z.testbit w k = true) (seqZ lo (hi - lo)).

Lemma ctz_spec n w :
  0 <= w < 2 ^ Z.of_nat n -> w <> 0 ->
  0 <= ctz n w < Z.of_nat n /\ Z.testbit w (ctz n w) = true /\
  forall i, 0 <= i < ctz n w -> Z.testbit w i = false.
Proof.
  revert w. induction n as [|n IH]; intros w Hw Hnz; [cbn in Hw; lia|].
  cbn [ctz]. destruct (Z.testbit w 0) eqn:E0.
  { split_and!; [lia|lia|done|lia]. }
  assert (w = 2 * Z.shiftr w 1) as Hsh.
  { rewrite Z.shiftr_div_pow2 by lia. change (2 ^ 1) with 2. rewrite Z.bit0_odd in E0.
    rewrite (Z.div_mod w 2) at 1 by lia. rewrite Zmod_odd, E0. lia. }
  destruct (IH (Z.shiftr w 1)) as (H1 & H2 & H3).
  - replace (Z.of_nat (S n)) with (1 + Z.of_nat n) in Hw by lia. rewrite Z.pow_add_r in Hw by lia.
    lia.
  - lia.
  - rewrite Z.shiftr_spec in H2 by lia. split_and!; [lia|lia| |].
    + by rewrite Z.add_comm.
    + intros i Hi. destruct (Z.eq_dec i 0) as [->|]; [done|].
      specialize (H3 (i - 1) ltac:(lia)). rewrite Z.shiftr_spec in H3 by lia.
      by replace (i - 1 + 1) with i in H3 by lia.
Qed.

Lemma seqZ_split lo n k : 0 <= k <= n -> seqZ lo n = seqZ lo k ++ seqZ (lo + k) (n - k).
Proof. intros. rewrite <- seqZ_app by lia. f_equal. lia. Qed.

Lemma filter_nil {A} (P : A -> Prop) `{!forall x, Decision (P x)} l :
  (forall x, x ∈ l -> ~ P x) -> filter P l = [].
Proof.
  induction l as [|x l IH]; intros Hno; [done|].
  rewrite filter_cons, decide_False by (apply Hno; set_solver). apply IH. set_solver.
Qed.
Lemma filter_same {A} (P Q : A -> Prop)
    `{!forall x, Decision (P x)} `{!forall x, Decision (Q x)} (l : list A) :
  (forall x, x ∈ l -> P x <-> Q x) -> filter P l = filter Q l.
Proof.
  induction l as [|x l IH]; intros HPQ; [done|]. rewrite !filter_cons.
  rewrite (IH ltac:(set_solver)). specialize (HPQ x ltac:(set_solver)).
  destruct (decide (P x)), (decide (Q x)); tauto.
Qed.

(** Masking a word cuts the range of its bits. *)
Lemma set_bits_mask w w' lo hi :
  0 <= lo <= hi -> hi <= 64 ->
  (forall k, 0 <= k < 64 -> Z.testbit w' k = Z.testbit w k && ((lo <=? k) && (k <? hi))) ->
  set_bits w' 0 64 = set_bits w lo hi.
Proof.
  intros Hlo Hhi Hw. unfold set_bits.
  rewrite (seqZ_split 0 (64 - 0) lo), (seqZ_split (0 + lo) (64 - 0 - lo) (hi - lo)) by lia.
  rewrite !list.filter_app, filter_nil.
  2: { intros k Hk%elem_of_seqZ. rewrite Hw by lia.
       rewrite (proj2 (Z.leb_gt lo k)), andb_false_r by lia. done. }
  rewrite (filter_nil _ (seqZ (0 + lo + (hi - lo)) _)).
  2: { intros k Hk%elem_of_seqZ. rewrite Hw by lia.
       rewrite (proj2 (Z.ltb_ge k hi)), !andb_false_r by lia. done. }
  rewrite app_nil_r. cbn [app]. apply filter_same. intros k Hk%elem_of_seqZ.
  rewrite Hw, (proj2 (Z.leb_le lo k)), (proj2 (Z.ltb_lt k hi)), andb_true_r by lia. done.
Qed.

(** Taking the lowest bit off. *)
Lemma set_bits_first w lo :
  0 <= w < 2 ^ 64 -> w <> 0 -> 0 <= lo ->
  (forall i, 0 <= i < lo -> Z.testbit w i = false) ->
  let t := ctz 64 w in let w' := Z.lxor w (shl 64 1 t) in
  set_bits w lo 64 = t :: set_bits w' (t + 1) 64 /\ lo <= t < 64 /\ 0 <= w' < 2 ^ 64 /\
  (forall i, 0 <= i < t + 1 -> Z.testbit w' i = false).
Proof.
  intros Hw Hnz Hlo Hbelow t w'.
  destruct (ctz_spec 64 w Hw Hnz) as (H1 & H2 & H3). fold t in H1, H2, H3.
  assert (lo <= t) as Hlt.
  { destruct (Z.le_gt_cases lo t); [done|]. rewrite Hbelow in H2 by lia. done. }
  assert (forall i, 0 <= i -> Z.testbit w' i = xorb (Z.testbit w i) (i =? t)) as Hw'.
  { intros i Hi. unfold w', shl. rewrite Z.shiftl_1_l, wrap_small by
      (split; [apply Z.pow_nonneg; lia|apply Z.pow_lt_mono_r; lia]).
    rewrite Z.lxor_spec, Z.pow2_bits_eqb by lia. by rewrite Z.eqb_sym. }
  split_and!; [|lia|lia| | |].
  - unfold set_bits. rewrite (seqZ_split lo _ (t - lo)) by lia.
    replace (lo + (t - lo)) with t by lia. rewrite (seqZ_cons t) by lia.
    rewrite list.filter_app, filter_nil by (intros k Hk%elem_of_seqZ; rewrite H3 by lia; done).
    cbn [app]. rewrite filter_cons, decide_True by done. f_equal.
    replace (Z.pred (64 - lo - (t - lo))) with (64 - (t + 1)) by lia.
    replace (Z.succ t) with (t + 1) by lia. apply filter_same.
    intros k Hk%elem_of_seqZ. rewrite Hw', (proj2 (Z.eqb_neq k t)), xorb_false_r by lia. done.
  - unfold w'. apply Z.lxor_nonneg. unfold shl. pose proof (wrap_range 64 (Z.shiftl 1 t)). lia.
  - destruct (Z.eq_dec w' 0) as [->|Hnz']; [done|].
    assert (0 <= w') by (unfold w'; apply Z.lxor_nonneg; unfold shl;
      pose proof (wrap_range 64 (Z.shiftl 1 t)); lia).
    apply Z.log2_lt_pow2; [lia|]. destruct (Z.lt_ge_cases (Z.log2 w') 64) as [|Hge]; [done|].
    pose proof (Z.bit_log2 w' ltac:(lia)) as Hb. rewrite Hw' in Hb by lia.
    rewrite (testbit_small w 64) in Hb by lia. rewrite (proj2 (Z.eqb_neq _ t)) in Hb by lia.
    done.
  - intros i Hi. rewrite Hw' by lia. destruct (Z.eqb_spec i t) as [->|]; [by rewrite H2|].
    by rewrite H3 by lia.
Qed.

(** * The bitmap walk *)

Section Bitmap.
Context {M : Machine} (sdk : Z) (c : CoreApi) {S : Type} (visitor : MemoryRef -> prog S unit).
Context (Hpoint : point_size = 8 \/ point_size = 4).

(** The visit of the object of bit [b], in a space that begins at [h]. *)
Definition visit_bit (h : Z) (heap : MemoryRef) (b : Z) : prog S unit :=
  visit_valid sdk c visitor (Object_from c (u64 (h + kObjectAlignment * b)) heap).

(** The number of bits in a word of the bitmap. *)
Definition word_bits : Z := heap_kBitsPerByte * point_size.

Lemma word_bits_cases : word_bits = 64 \/ word_bits = 32.
Proof. unfold word_bits, heap_kBitsPerByte. destruct Hpoint as [-> | ->]; lia. Qed.

Lemma bits_loop_spec n w lo base heap :
  0 <= w < 2 ^ 64 -> w <> 0 -> 0 <= lo -> 64 - lo <= Z.of_nat n ->
  (forall i, 0 <= i < lo -> Z.testbit w i = false) ->
  forall s, bits_loop sdk c visitor n w base heap s
    = pseq (fun k => visit_valid sdk c visitor
        (Object_from c (u64 (base + k * kObjectAlignment)) heap)) (set_bits w lo 64) s.
Proof.
  revert w lo. induction n as [|n IH]; intros w lo Hw Hnz Hlo Hn Hbelow s.
  { destruct (set_bits_first w lo Hw Hnz Hlo Hbelow) as (_ & H & _). lia. }
  destruct (set_bits_first w lo Hw Hnz Hlo Hbelow) as (-> & Ht & Hw' & Hbelow').
  cbn [bits_loop pseq]. apply pbind_ext; [done|]. intros _ s'.
  unfold nz. destruct (Z.eqb_spec (Z.lxor w (shl 64 1 (ctz 64 w))) 0) as [E|E]; cbn [negb].
  - rewrite E. unfold set_bits. rewrite filter_nil; [done|].
    intros k _. by rewrite Z.testbit_0_l.
  - apply IH; try done; lia.
Qed.

(** The addresses a word stands for. *)
Lemma visit_word_spec h heap w i s :
  vaddr heap = h -> 0 <= i -> 0 <= w < 2 ^ 64 ->
  visit_word sdk c visitor w i heap s
    = pseq (visit_bit h heap) (map (fun k => i * word_bits + k) (set_bits w 0 64)) s.
Proof.
  intros Hh Hi Hw. rewrite pseq_map. unfold visit_word, nz.
  destruct (Z.eqb_spec w 0) as [->|Hnz]; cbn [negb].
  - unfold set_bits. rewrite filter_nil; [done|]. intros k _. by rewrite Z.testbit_0_l.
  - rewrite (bits_loop_spec 64 w 0) by (done || lia). apply pseq_ext. intros k s' _.
    unfold visit_bit, IndexToOffset. fold word_bits. rewrite Hh. do 2 f_equal.
    rewrite wrap_add_l, <- Z.add_assoc, wrap_add_l by lia. f_equal.
    unfold kObjectAlignment. lia.
Qed.

(** * Bits of the whole bitmap *)

Context (wd : Z -> Z) (Hwd : forall i, 0 <= wd i < 2 ^ word_bits).

(** Bit [b] of the bitmap whose words are [wd]. *)
Definition marked (b : Z) : Prop := Z.testbit (wd (b / word_bits)) (b mod word_bits) = true.
#[export] Instance marked_dec b : Decision (marked b).
Proof. unfold marked. apply _. Defined.
(** The marked bits from [lo] up to [hi]. *)
Definition marks (lo hi : Z) : list Z := filter marked (seqZ lo (hi - lo)).

Lemma marks_split lo mid hi : lo <= mid <= hi -> marks lo hi = marks lo mid ++ marks mid hi.
Proof.
  intros. unfold marks. rewrite <- list.filter_app, (seqZ_split lo (hi - lo) (mid - lo)) by lia.
  do 3 f_equal; lia.
Qed.

Lemma wd_range i : 0 <= wd i < 2 ^ 64.
Proof.
  pose proof (Hwd i). pose proof word_bits_cases.
  pose proof (Z.pow_le_mono_r 2 word_bits 64 ltac:(lia) ltac:(lia)). lia.
Qed.

(** The marked bits inside one word. *)
Lemma marks_word i lo hi :
  0 <= i -> 0 <= lo <= hi -> hi <= word_bits ->
  map (fun k => i * word_bits + k) (set_bits (wd i) lo hi)
    = marks (i * word_bits + lo) (i * word_bits + hi).
Proof.
  intros Hi Hlo Hhi. pose proof word_bits_cases. unfold marks, set_bits.
  replace (i * word_bits + hi - (i * word_bits + lo)) with (hi - lo) by lia.
  assert (forall k, lo <= k < hi ->
    (i * word_bits + k) / word_bits = i /\ (i * word_bits + k) mod word_bits = k) as Hdm.
  { intros k Hk. rewrite (Z.add_comm (i * _)).
    rewrite Z.div_add, Z.mod_add, Z.div_small, Z.mod_small by lia. lia. }
  assert (forall k, lo <= k -> seqZ (i * word_bits + k) (hi - k)
    = map (fun j => i * word_bits + j) (seqZ k (hi - k))) as Hs.
  { intros k _. rewrite <- fmap_add_seqZ. done. }
  rewrite Hs by lia. clear Hs.
  assert (forall l, Forall (fun k => lo <= k < hi) l ->
    map (fun k => i * word_bits + k) (filter (fun k => Z.testbit (wd i) k = true) l)
      = filter marked (map (fun j => i * word_bits + j) l)) as Hl.
  { induction 1 as [|k l Hk _ IH]; [done|]. cbn [map]. rewrite !filter_cons.
    destruct (Hdm k Hk) as [Hd Hmo].
    assert (marked (i * word_bits + k) <-> Z.testbit (wd i) k = true) as Hiff
      by (unfold marked; by rewrite Hd, Hmo).
    destruct (decide (Z.testbit (wd i) k = true)), (decide (marked (i * word_bits + k)));
      try tauto; cbn [map]; by rewrite IH. }
  apply Hl, Forall_elem. intros k Hk%elem_of_seqZ. lia.
Qed.

(** A whole word has no bit behind its width. *)
Lemma set_bits_word i : set_bits (wd i) 0 64 = set_bits (wd i) 0 word_bits.
Proof.
  pose proof word_bits_cases. apply set_bits_mask; [lia|lia|]. intros k Hk.
  rewrite (proj2 (Z.leb_le 0 k)) by lia. cbn [andb]. destruct (Z.ltb_spec k word_bits).
  - by rewrite andb_true_r.
  - rewrite (testbit_small _ word_bits) by (apply Hwd || lia). done.
Qed.

Lemma middle_loop_spec h heap words n : forall i s,
  vaddr heap = h -> 0 <= i ->
  (forall j, i <= j < i + Z.of_nat n ->
     vword c words (u64 (j * point_size)) = Ok (wd j)) ->
  middle_loop sdk c visitor n i words heap s
    = pseq (visit_bit h heap) (marks (i * word_bits) ((i + Z.of_nat n) * word_bits)) s.
Proof.
  pose proof word_bits_cases as Hwb. induction n as [|n IH]; intros i s Hh Hi Hread.
  - unfold marks. cbn [middle_loop]. by replace ((i + Z.of_nat 0) * word_bits - i * word_bits) with 0 by lia.
  - cbn [middle_loop]. rewrite (pbind_lift _ _ _ _ (Hread i ltac:(lia))).
    rewrite (marks_split _ ((i + 1) * word_bits)) by lia. rewrite pseq_app.
    apply pbind_ext.
    + intros s'. rewrite (visit_word_spec h) by (done || apply wd_range).
      rewrite set_bits_word, marks_word by lia. do 2 f_equal; lia.
    + intros _ s'. rewrite IH; [|done|lia|intros; apply Hread; lia].
      do 2 f_equal. lia.
Qed.

(** The masks of the edges of a range. *)
Lemma set_bits_left w lo :
  0 <= w < 2 ^ 64 -> 0 <= lo < 64 ->
  let w' := Z.land w (bnot 64 (u64 (shl 64 1 lo - 1))) in
  0 <= w' < 2 ^ 64 /\
  forall k, 0 <= k < 64 -> Z.testbit w' k = Z.testbit w k && (lo <=? k).
Proof.
  intros Hw Hlo w'.
  assert (u64 (shl 64 1 lo - 1) = Z.ones lo) as E.
  { unfold shl. rewrite Z.shiftl_1_l, Z.ones_equiv.
    pose proof (Z.pow_pos_nonneg 2 lo). pose proof (Z.pow_lt_mono_r 2 lo 64).
    rewrite (wrap_small 64 (2 ^ lo)), wrap_small by lia. lia. }
  split.
  - by apply land_range.
  - intros k Hk. unfold w'. rewrite E, Z.land_spec. f_equal. unfold bnot.
    rewrite wrap_testbit, Z.lnot_spec, Z.testbit_ones_nonneg by lia.
    bool_cases; cbn; lia || done.
Qed.
Lemma set_bits_right w hi :
  0 <= w < 2 ^ 64 -> 0 <= hi < 64 ->
  let w' := Z.land w (u64 (shl 64 1 hi - 1)) in
  0 <= w' < 2 ^ 64 /\
  forall k, 0 <= k < 64 -> Z.testbit w' k = Z.testbit w k && (k <? hi).
Proof.
  intros Hw Hhi w'.
  assert (u64 (shl 64 1 hi - 1) = Z.ones hi) as E.
  { unfold shl. rewrite Z.shiftl_1_l, Z.ones_equiv.
    pose proof (Z.pow_pos_nonneg 2 hi). pose proof (Z.pow_lt_mono_r 2 hi 64).
    rewrite (wrap_small 64 (2 ^ hi)), wrap_small by lia. lia. }
  split.
  - by apply land_range.
  - intros k Hk. unfold w'. rewrite E, Z.land_spec, Z.testbit_ones_nonneg by lia. done.
Qed.

(** C10: The bitmap walk visits the objects whose bits are set, in the order of their addresses:
    for a range of bits from [start] to [stop] of a space that begins at [h], exactly the
    marked bits of the range, partial words at both ends included, and it reads no word of
    the bitmap behind the range. *)
Theorem VisitMarkedRange_marks bitmap b h heap start stop s :
  vword c bitmap (bitmap_begin_ (ContinuousSpaceBitmap_Init sdk)) = Ok b ->
  vword c bitmap (heap_begin_ (ContinuousSpaceBitmap_Init sdk)) = Ok h ->
  Prepare c (ref_at h) false = Ok heap ->
  0 <= h -> 0 <= start <= stop -> h + kObjectAlignment * stop < 2 ^ 64 ->
  (forall i, start / word_bits <= i -> i = start / word_bits \/ i * word_bits < stop ->
     vword c (ref_at b) (u64 (i * point_size)) = Ok (wd i)) ->
  VisitMarkedRange sdk c visitor bitmap (h + kObjectAlignment * start)
      (h + kObjectAlignment * stop) s
    = pseq (visit_bit h heap) (marks start stop) s.
Proof.
  intros Hb Hh Hprep H0 Hrange Hmax Hread. pose proof word_bits_cases as Hwb.
  change kObjectAlignment with 8 in *. unfold VisitMarkedRange.
  rewrite (pbind_lift _ _ _ _ Hb), (pbind_lift _ _ _ _ Hh), (pbind_lift _ _ _ _ Hprep).
  pose proof (Prepare_vaddr _ _ _ _ Hprep) as Hv. cbn [vaddr ref_at] in Hv. rewrite Hv.
  replace (h + 8 * start - h) with (start * 8) by lia.
  replace (h + 8 * stop - h) with (stop * 8) by lia. rewrite (wrap_small 64 (start * 8)), (wrap_small 64 (stop * 8)) by lia.
  unfold OffsetToIndex. change kObjectAlignment with 8. rewrite !Z.div_mul by lia.
  fold word_bits. set (i1 := start / word_bits) in *. set (i2 := stop / word_bits).
  set (lo := start mod word_bits). set (hi := stop mod word_bits).
  assert (start = i1 * word_bits + lo /\ stop = i2 * word_bits + hi /\ 0 <= lo < word_bits /\
    0 <= hi < word_bits /\ 0 <= i1 <= i2) as (Hs & Ht & Hlo & Hhi & Hi).
  { pose proof (Z.div_mod start word_bits). pose proof (Z.div_mod stop word_bits).
    pose proof (Z.mod_pos_bound start word_bits). pose proof (Z.mod_pos_bound stop word_bits).
    pose proof (Z.div_le_mono start stop word_bits).
    pose proof (Z.div_pos start word_bits). lia. }
  rewrite (pbind_lift _ _ _ _ (Hread i1 ltac:(lia) (or_introl eq_refl))).
  destruct (set_bits_left (wd i1) lo (wd_range i1) ltac:(lia)) as [Hl1 Hl2].
  set (left_edge := Z.land (wd i1) _) in *.
  destruct (Z.ltb_spec i1 i2) as [Hlt|Hge].
  - rewrite (marks_split start ((i1 + 1) * word_bits)) by nia.
    rewrite (marks_split ((i1 + 1) * word_bits) (i2 * word_bits)) by nia.
    rewrite !pseq_app, !pbind_assoc. apply pbind_ext.
    { intros s'. rewrite (visit_word_spec h) by (done || lia).
      rewrite (set_bits_mask (wd i1) left_edge lo word_bits).
      - rewrite marks_word by lia. do 2 f_equal; lia.
      - lia.
      - lia.
      - intros k Hk. rewrite Hl2 by done. destruct (Z.ltb_spec k word_bits).
        + by rewrite andb_true_r.
        + rewrite (testbit_small _ word_bits) by (apply Hwd || lia). done. }
    intros _ s1. rewrite pbind_assoc, pseq_app. apply pbind_ext.
    { intros s'. rewrite (middle_loop_spec h); [|done|lia|].
      - do 2 f_equal. lia.
      - intros j Hj. apply Hread; [lia|]. right. nia. }
    intros _ s2. destruct (Z.eqb_spec hi 0) as [E|E].
    + unfold pbind, pret. rewrite Z.land_0_l. unfold visit_word, nz. cbn [Z.eqb negb].
      unfold marks. by replace (stop - i2 * word_bits) with 0 by lia.
    + assert (i2 * word_bits < stop) as Hi2 by (clear - Ht Hhi E; lia).
      rewrite (pbind_lift _ _ _ _ (Hread i2 ltac:(lia) (or_intror Hi2))).
      destruct (set_bits_right (wd i2) hi (wd_range i2) ltac:(lia)) as [Hr1 Hr2].
      rewrite (visit_word_spec h) by (done || lia).
      rewrite (set_bits_mask (wd i2) _ 0 hi); [|lia|lia|].
      * rewrite marks_word by lia. do 2 f_equal; lia.
      * intros k Hk. rewrite Hr2 by done. rewrite (proj2 (Z.leb_le 0 k)) by lia. done.
  - assert (i2 = i1) as E by lia. unfold pbind at 1, pret at 1.
    destruct (set_bits_right left_edge hi Hl1 ltac:(lia)) as [Hr1 Hr2].
    rewrite (visit_word_spec h) by (done || lia).
    rewrite (set_bits_mask (wd i1) _ lo hi); [|nia|lia|].
    + rewrite E, marks_word by nia. do 2 f_equal; lia.
    + intros k Hk. rewrite Hr2, Hl2 by done. by rewrite andb_assoc.
Qed.
End Bitmap.

(** * The walk from object to object *)

Section Walk.
Context {M : Machine} (sdk : Z) (c : CoreApi) (run : Z -> Z -> option (list Z)) `{!Presents c run}.
Context {S : Type} (visitor : MemoryRef -> prog S unit).
(** The test of the loop: [IsValid] or [IsNonLargeValid]. *)
Context (size_ok : Z -> bool) (Hsize : forall n, size_ok n = true -> 8 <= n).
Abbreviation valid := (valid_object sdk c size_ok).

(** A reference to the object at [a]. *)
Definition at_object (r : MemoryRef) (a : Z) : Prop := ref_ok c r /\ vaddr r = a.
(** There is an object of [n] bytes at [a], or none the walk would visit. *)
Definition live (a n : Z) : Prop :=
  0 <= n < 2 ^ 32 /\ forall r, at_object r a -> valid r = Ok true /\ SizeOf sdk c r = Ok n.
Definition dead (a : Z) : Prop := forall r, at_object r a -> valid r = Ok false.

(** The address behind an object. *)
Definition behind (a n : Z) : Z := (a + n + 7) / 8 * 8.

(** What lies between two addresses: objects one behind the other, and dead words. *)
Inductive layout (top : Z) : Z -> list Z -> Prop :=
  | layout_end pos : top <= pos -> layout top pos []
  | layout_object pos n l :
      pos < top -> live pos n -> layout top (behind pos n) l -> layout top pos (pos :: l)
  | layout_dead pos l : pos < top -> dead pos -> layout top (pos + 8) l -> layout top pos l.

Lemma at_here a : 0 <= a < 2 ^ 64 -> at_object (ref_at a) a.
Proof. by split. Qed.

(** A valid object has a positive size, and is valid for every size limit. *)
Lemma valid_facts r :
  valid r = Ok true ->
  obj_IsValid sdk c r = Ok true /\ forall n, SizeOf sdk c r = Ok n -> 8 <= i64 n.
Proof.
  unfold obj_IsValid, valid_object, catch.
  destruct (GetClass c r) as [k| | |]; cbn [rbind]; try done.
  destruct (_ || _); [done|].
  destruct (IsClass c k) as [[]| | |]; cbn [rbind]; try done.
  destruct (SizeOf sdk c r) as [n| | |]; cbn [rbind]; try done.
  intros [= H%Hsize]. split; [|by intros ? [= <-]]. change kObjectAlignment with 8.
  by rewrite (proj2 (Z.ltb_ge _ 8)).
Qed.

Lemma live_size a n : 0 <= a < 2 ^ 64 -> live a n -> 8 <= n.
Proof.
  intros Ha [Hn Hl]. destruct (Hl _ (at_here a Ha)) as [Hv Hs].
  destruct (valid_facts _ Hv) as [_ H]. specialize (H n Hs).
  rewrite sint_small in H by lia. done.
Qed.

Lemma behind_range a n : (8 | a) -> 8 <= n -> a + 8 <= behind a n /\ (8 | behind a n).
Proof.
  intros [k ->] Hn. unfold behind. split; [|by exists ((k * 8 + n + 7) / 8)].
  pose proof (Z.div_mod (k * 8 + n + 7) 8). pose proof (Z.mod_pos_bound (k * 8 + n + 7) 8). lia.
Qed.

(** Which objects there are is determined. *)
Lemma layout_dead_inv top pos l :
  0 <= pos < 2 ^ 64 -> pos < top -> dead pos -> layout top pos l -> layout top (pos + 8) l.
Proof.
  intros Hp Hlt Hd Hl. inversion Hl as [| ? n l' _ [_ Hlive] _|]; subst; [lia| |done].
  destruct (Hlive _ (at_here pos Hp)) as [Hv _]. rewrite Hd in Hv by (by apply at_here). done.
Qed.

Context (lowest top : Z) (Htop : top + 8 <= 2 ^ 32) (Hlow : 0 <= lowest).
(** No access of the tests leaves the behaviour of the language. *)
Context (Hsafe : forall a r, lowest <= a < top + 8 -> (8 | a) -> at_object r a ->
  exists b, obj_IsValid sdk c r = Ok b).

(** Skipping dead words. *)
Lemma next_loop_ok this l : ref_ok c this -> forall fuel pos,
  lowest <= pos < top -> (8 | pos) -> dead pos -> layout top pos l -> top - pos <= 8 * Z.of_nat fuel ->
  exists pos', next_loop sdk c fuel this pos top = Ok pos' /\ pos + 8 <= pos' /\ (8 | pos') /\
    layout top pos' l.
Proof.
  intros Hthis fuel. induction fuel as [|fuel IH]; intros pos Hp Hdiv Hd Hl Hf; [lia|].
  apply layout_dead_inv in Hl; [|lia|lia|done]. cbn [next_loop]. change kObjectAlignment with 8.
  rewrite wrap_small by lia.
  assert (at_object (ref_from c (pos + 8) this) (pos + 8)) as Hat.
  { split; [apply ref_from_ok with run; [done..|lia]|apply ref_from_vaddr]. }
  assert (8 | pos + 8) as Hdiv' by (apply Z.divide_add_r; [done|by exists 1]).
  destruct (Hsafe (pos + 8) _ ltac:(lia) Hdiv' Hat) as [b Hb]. rewrite Hb. cbn [rbind].
  destruct b; [exists (pos + 8); by split_and!|].
  destruct (Z.ltb_spec (pos + 8) top) as [Hlt|]; [|exists (pos + 8); by split_and!].
  assert (dead (pos + 8)) as Hd'.
  { inversion Hl as [| ? n l' _ [_ Hlive] _|]; subst; [lia| |done].
    destruct (Hlive _ Hat) as [Hv _]. apply valid_facts in Hv as [Hv _]. congruence. }
  destruct (IH (pos + 8)) as (pos' & -> & ? & ? & ?); [lia|done..|lia|].
  exists pos'. split_and!; [done|lia|done|done].
Qed.

Lemma walk_loop_ok cache : ref_ok c cache -> forall fuel pos l s,
  lowest <= pos -> (8 | pos) -> layout top pos l -> Z.max 0 (top - pos) + 8 <= 8 * Z.of_nat fuel ->
  walk_loop sdk c visitor fuel valid cache pos top s
    = pseq visitor (map (fun a => Object_from c a cache) l) s.
Proof.
  intros Hcache fuel. induction fuel as [|fuel IH]; intros pos l s Hp Hdiv Hl Hf.
  { lia. }
  cbn [walk_loop]. destruct (Z.ltb_spec pos top) as [Hlt|Hge].
  2: { inversion Hl; subst; [done|lia..]. }
  assert (at_object (Object_from c pos cache) pos) as Hat.
  { unfold Object_from. rewrite wrap_small by lia.
    split; [apply ref_from_ok with run; [done..|lia]|apply ref_from_vaddr]. }
  assert (dead pos \/ exists n l', l = pos :: l' /\ live pos n /\ layout top (behind pos n) l')
    as [Hd|(n & l' & -> & Hlive & Hl')].
  { inversion Hl; subst; [lia|right; eauto|by left]. }
  - rewrite (pbind_lift _ _ _ _ (Hd _ Hat)). destruct Hat as [Hok Hva].
    destruct (next_loop_ok (Object_from c pos cache) l Hok (Datatypes.S fuel) pos)
      as (pos' & Hnext & Hge & Hdiv' & Hl'); [lia|done..|lia|].
    unfold NextValidOffset. rewrite Hva, (pbind_lift _ _ _ _ Hnext).
    apply IH; [lia|done|done|lia].
  - pose proof (live_size pos n ltac:(lia) Hlive) as Hn8.
    destruct Hlive as [Hn Hlive]. destruct (Hlive _ Hat) as [Hv Hs].
    rewrite (pbind_lift _ _ _ _ Hv). cbn [map pseq]. apply pbind_ext; [done|]. intros _ s'.
    assert (GetNextObject sdk c (Object_from c pos cache) = Ok (behind pos n)) as Hg.
    { unfold GetNextObject. rewrite Hs. cbn [rbind]. destruct Hat as [_ ->]. f_equal.
      rewrite wrap_small by lia. change kObjectAlignment with (2 ^ 3).
      rewrite RoundUp_pow2 by lia. unfold behind. do 2 f_equal. lia. }
    rewrite (pbind_lift _ _ _ _ Hg). destruct (behind_range pos n Hdiv Hn8).
    apply IH; [lia|done|done|lia].
Qed.

(** Where every aligned address is decided, the layout is there. *)
Lemma layout_exists pos :
  0 <= pos -> (8 | pos) ->
  (forall a, pos <= a < top -> (8 | a) -> (exists n, live a n) \/ dead a) ->
  exists l, layout top pos l.
Proof.
  enough (forall n pos, top - pos <= 8 * Z.of_nat n -> 0 <= pos -> (8 | pos) ->
    (forall a, pos <= a < top -> (8 | a) -> (exists n, live a n) \/ dead a) ->
    exists l, layout top pos l) as H.
  { intros. apply (H (Z.to_nat (top - pos))); [lia|done..]. }
  induction n as [|n IH]; intros p Hn Hp Hdiv Hall.
  { exists []. apply layout_end. lia. }
  destruct (Z.lt_ge_cases p top) as [Hlt|]; [|exists []; by apply layout_end].
  destruct (Hall p ltac:(lia) Hdiv) as [[m Hl]|Hd].
  - pose proof (live_size p m ltac:(lia) Hl). destruct (behind_range p m Hdiv ltac:(lia)).
    destruct (IH (behind p m)) as [l Hlay]; [lia|lia|done|intros; apply Hall; [lia|done]|].
    exists (p :: l). by apply (layout_object top p m).
  - destruct (IH (p + 8)) as [l Hlay]; [lia|lia| |intros; apply Hall; [lia|done]|].
    + apply Z.divide_add_r; [done|by exists 1].
    + exists l. by apply layout_dead.
Qed.
End Walk.

Section Zygote.
Context {M : Machine} (sdk : Z) (c : CoreApi) (run : Z -> Z -> option (list Z)) `{!Presents c run}.
Context {S : Type} (visitor : MemoryRef -> prog S unit).

Definition nonlarge (n : Z) : bool := negb (n <? kObjectAlignment) && (n <? kValidObjectSize).

(** C11: The walk of a space ends and visits its objects: when the tests of the code decide at
    every aligned address whether there is a valid object, then the visited objects are those
    of the layout that starts with the space, each one once, with the next object looked for
    behind the last one or, where there is none, at the next aligned address. *)
Theorem ZygoteSpace_Walk_objects fuel space pos top s :
  Begin c space = Ok pos -> End_ c space = Ok top ->
  0 <= pos -> (8 | pos) -> top + 8 <= 2 ^ 32 -> pos < 2 ^ 32 ->
  (forall a r, pos <= a < top + 8 -> (8 | a) -> at_object c r a ->
     exists b, obj_IsValid sdk c r = Ok b) ->
  (forall a, pos <= a < top -> (8 | a) ->
     (exists n, live sdk c nonlarge a n) \/ dead sdk c nonlarge a) ->
  Z.max 0 (top - pos) + 8 <= 8 * Z.of_nat fuel ->
  forall cache, cache_at c pos = Ok cache ->
  exists l, layout sdk c nonlarge top pos l /\
    ZygoteSpace_Walk sdk c visitor fuel space s
      = pseq visitor (map (fun a => Object_from c a cache) l) s.
Proof.
  intros Hb He Hp Hdiv Htop Hp32 Hsafe Hall Hf cache Hcache.
  assert (forall n, nonlarge n = true -> 8 <= n) as Hsize.
  { intros n. unfold nonlarge. change kObjectAlignment with 8. destruct (Z.ltb_spec n 8); lia || done. }
  destruct (layout_exists sdk c nonlarge Hsize top Htop pos Hp Hdiv Hall) as [l Hl].
  exists l. split; [done|]. unfold ZygoteSpace_Walk.
  rewrite (pbind_lift _ _ _ _ Hb), (pbind_lift _ _ _ _ He), (pbind_lift _ _ _ _ Hcache).
  apply (walk_loop_ok sdk c run visitor nonlarge Hsize pos top Htop Hp Hsafe); try done; try lia.
  refine (present_prepare (Object pos) false cache _ Hcache). split; [|done].
  cbn [vaddr Object ref_at]. pose proof (wrap_range 32 pos). lia.
Qed.
End Zygote.

(** * A core with a small heap *)

(** The word [w] at the offset [off] of [l]. *)
Definition put (off : nat) (w : list Z) (l : list Z) : list Z := splice off w l.

(** At 0x1000 the class of classes, at 0x1080 a class whose objects have 16 bytes, at 0x1100
    a space from 0x1140 to 0x1168 with two objects and a free word between them, behind it a
    bitmap for the space: the bitmap object at 0x1180 and its word at 0x1200. *)
Definition demo_heap : list Z :=
  put 0x200 (le_bytes 8 5) (put 0x188 (le_bytes 8 0)
  (put (0x180 + 72) (le_bytes 8 0x1200) (put (0x180 + 88) (le_bytes 8 0x1140)
  (put 0x158 (le_bytes 4 0x1080) (put 0x140 (le_bytes 4 0x1080)
  (put (0x100 + 40) (le_bytes 8 0x1140) (put (0x100 + 48) (le_bytes 8 0x1168)
  (put (0x80 + 96) (le_bytes 4 16) (put 0x80 (le_bytes 4 0x1000) (put 0 (le_bytes 4 0x1000)
  (replicate 0x220 0))))))))))).
Definition heap_core : CoreApi := one_core 0x1000 demo_heap.
#[local] Existing Instance arm64_Core.

#[export] Instance heap_presents : Presents heap_core (target_run heap_core).
Proof. apply one_presents; [done|cbn; lia]. Qed.

Lemma heap_quick : mQuickLoad heap_core = [0%nat].
Proof. done. Qed.

(** The two references there are to an address of the core. *)
Lemma heap_refs r a : at_object heap_core r a -> r = ref_at a \/ r = MkRef a (Some 0%nat).
Proof.
  destruct r as [v [id|]]; intros [[_ Hr] <-]; [right|by left].
  specialize (Hr id eq_refl). apply linear_find_Some in Hr as [Hin _].
  rewrite heap_quick in Hin. apply list_elem_of_singleton in Hin as ->. done.
Qed.

Lemma aligned_cases lo n a :
  (8 | lo) -> lo <= a < lo + 8 * Z.of_nat n -> (8 | a) ->
  exists k, (k < n)%nat /\ a = lo + 8 * Z.of_nat k.
Proof.
  intros [x ->] Ha [y ->]. exists (Z.to_nat (y - x)). lia.
Qed.

Lemma heap_safe a r :
  0x1140 <= a < 0x1168 + 8 -> (8 | a) -> at_object heap_core r a ->
  exists b, obj_IsValid 30 heap_core r = Ok b.
Proof.
  intros Ha Hd Hr. destruct (aligned_cases 0x1140 6 a) as (k & Hk & ->); [by exists 552|lia|done|].
  destruct (heap_refs _ _ Hr) as [-> | ->];
    do 6 (destruct k as [|k]; [eexists; vm_compute; reflexivity|]); lia.
Qed.

Lemma heap_all a :
  0x1140 <= a < 0x1168 -> (8 | a) ->
  (exists n, live 30 heap_core nonlarge a n) \/ dead 30 heap_core nonlarge a.
Proof.
  intros Ha Hd. destruct (aligned_cases 0x1140 5 a) as (k & Hk & ->); [by exists 552|lia|done|].
  destruct k as [|[|[|[|[|k]]]]]; [left; exists 16|right|right|left; exists 16|right|lia].
  all: try (split; [lia|]); intros r Hr; destruct (heap_refs _ _ Hr) as [-> | ->];
    vm_compute; try split; reflexivity.
Qed.

(** The visitor of the witnesses: collects the addresses. *)
Definition collect (obj : MemoryRef) : prog (list Z) unit := fun s => (s ++ [vaddr obj], Ok tt).

Example heap_walk :
  ZygoteSpace_Walk 30 heap_core collect 6 (ref_at 0x1100) [] = ([0x1140; 0x1158], Ok tt).
Proof. vm_compute. reflexivity. Qed.

Lemma ZygoteSpace_Walk_objects_witness :
  exists cache l, layout 30 heap_core nonlarge 0x1168 0x1140 l /\
    ZygoteSpace_Walk 30 heap_core collect 6 (ref_at 0x1100) []
      = pseq collect (map (fun a => Object_from heap_core a cache) l) [].
Proof.
  exists (MkRef 0x1140 (Some 0%nat)).
  apply (ZygoteSpace_Walk_objects 30 heap_core (target_run heap_core) collect 6 (ref_at 0x1100)
    0x1140 0x1168 []).
  - vm_compute. reflexivity.
  - vm_compute. reflexivity.
  - lia.
  - by exists 552.
  - lia.
  - lia.
  - exact heap_safe.
  - exact heap_all.
  - lia.
  - vm_compute. reflexivity.
Defined.

Lemma VisitMarkedRange_marks_witness :
  VisitMarkedRange 30 heap_core collect (ref_at 0x1180) 0x1140 0x1168 []
    = pseq (visit_bit 30 heap_core collect 0x1140 (MkRef 0x1140 (Some 0%nat)))
        (marks (fun _ => 5) 0 5) [] /\
  marks (fun _ => 5) 0 5 = [0; 2].
Proof.
  split; [|vm_compute; reflexivity].
  apply (VisitMarkedRange_marks 30 heap_core collect (or_introl (eq_refl : @point_size arm64_Core = 8)) (fun _ => 5)
    ltac:(intros; change word_bits with 64; lia) (ref_at 0x1180) 0x1200 0x1140
    (MkRef 0x1140 (Some 0%nat)) 0 5 []).
  - vm_compute. reflexivity.
  - vm_compute. reflexivity.
  - vm_compute. reflexivity.
  - lia.
  - lia.
  - change kObjectAlignment with 8. lia.
  - intros i Hi Hor. change word_bits with 64 in *. change (0 / 64) with 0 in *.
    assert (i = 0) as -> by lia. vm_compute. reflexivity.
Defined.
