(* ===== verification/Reading.v ===== *)
(** Reading objects of the target: what clients of [Presents] need to know about the memory
    they decode, and the values they then read.

    [has_field a off n v]: the target has [off + n] bytes at the object [a], the last [n] of
    which are the integer [v].  [shown a bs]: the bytes [bs] lie at [a], and every address
    inside them can be used on its own. *)

From Stdlib Require Import ZArith Lia Bool.
From stdpp Require Import base list gmap numbers.
From S2P Require Import Prelude Words Host Blocks Notes CoreApi Segments AddressSpace MemRef Elf.
From S2P Require Import Mirrors Cxx.
Open Scope Z_scope.

Section Reading.
Context (c : CoreApi) (run : Z -> Z -> option (list Z)) `{!Presents c run}.

Definition has_field (a off n v : Z) : Prop :=
  0 < a < 2 ^ 64 /\ 0 <= off /\ 0 < n /\
  exists bs, run (Z.land a (vabits_mask c)) (off + n) = Some bs /\
    le_value (drop (Z.to_nat off) bs) = v.

Definition shown (a : Z) (bs : list Z) : Prop :=
  0 < a /\ a + Z.of_nat (length bs) < 2 ^ 64 /\ Forall byte_ok bs /\
  forall k n, 0 <= k -> 0 < n -> k + n <= Z.of_nat (length bs) ->
    run (Z.land (a + k) (vabits_mask c)) n = Some (take (Z.to_nat n) (drop (Z.to_nat k) bs)).

Lemma ref_at_ok v : 0 <= v < 2 ^ 64 -> ref_ok c (ref_at v).
Proof. by split. Qed.

Lemma word_field r a off n v :
  ref_ok c r -> vaddr r = a -> has_field a off n v -> word c r off n = Ok v.
Proof.
  intros Hr <- (Ha & Ho & Hn & bs & Hrun & <-). unfold word.
  by destruct (present_load r off n bs Hr ltac:(lia) Ho Hn Hrun) as (r' & -> & _).
Qed.

Lemma word_at_field a off n v : has_field a off n v -> word c (ref_at a) off n = Ok v.
Proof. intros Hf. eapply word_field; [apply ref_at_ok; destruct Hf; lia|done|done]. Qed.

Lemma vword_field r a off v :
  ref_ok c r -> vaddr r = a -> has_field a off 8 v ->
  vword c r off = Ok (Z.land v (pointer_mask c)).
Proof.
  intros Hr <- (Ha & Ho & Hn & bs & Hrun & <-). unfold vword, valueOf.
  destruct (present_load r off 8 bs Hr ltac:(lia) Ho Hn Hrun) as (r' & -> & _ & Hr' & Hb).
  cbn [rbind]. destruct (ref_block r') as [id|] eqn:Eb; [|done]. cbn.
  by rewrite (present_mask r' id Hr' Eb).
Qed.

Lemma vword_at_field a off v :
  has_field a off 8 v -> vword c (ref_at a) off = Ok (Z.land v (pointer_mask c)).
Proof. intros Hf. eapply vword_field; [apply ref_at_ok; destruct Hf; lia|done|done]. Qed.

(** A pointer of the target: a word without the bits above the pointer mask. *)
Definition pointer_at (a off v : Z) : Prop :=
  exists w, has_field a off 8 w /\ Z.land w (pointer_mask c) = v.
Lemma pointer_word r a off v :
  ref_ok c r -> vaddr r = a -> pointer_at a off v -> vword c r off = Ok v.
Proof. intros Hr Ha (w & Hw & <-). by eapply vword_field. Qed.
Lemma pointer_at_range a off v : pointer_at a off v -> 0 < a < 2 ^ 64.
Proof. intros (w & Hw & _). apply Hw. Qed.

(** A part of the target can be prepared, whatever the reference has cached. *)
Lemma Prepare_field r a off n v :
  ref_ok c r -> vaddr r = a -> has_field a off n v ->
  exists r', Prepare c r false = Ok r' /\ vaddr r' = a /\ ref_ok c r'.
Proof.
  intros Hr <- (Ha & Ho & Hn & bs & Hrun & _).
  pose proof (present_part _ _ 0 1 _ Hrun) as H1. rewrite Z.add_0_r in H1.
  destruct (present_valid r _ Hr ltac:(lia) (H1 ltac:(lia) ltac:(lia) ltac:(lia)))
    as (r' & E & _). unfold IsValid in E.
  destruct (Prepare c r false) as [r0| | |] eqn:E0; try done.
  exists r0. split_and!; [done|by apply Prepare_vaddr in E0|by eapply present_prepare].
Qed.

Lemma shown_app a l1 l2 :
  shown a (l1 ++ l2) -> shown a l1 /\ shown (a + Z.of_nat (length l1)) l2.
Proof.
  intros (Ha & He & Hb & Hrun). rewrite length_app, Nat2Z.inj_add in *.
  apply Forall_app in Hb as [Hb1 Hb2].
  split; (split_and!; [lia|lia|done|]); intros k n Hk Hn Hle.
  - rewrite Hrun by lia. f_equal. rewrite drop_app_le by lia.
    rewrite take_app_le; [done|]. rewrite length_drop. lia.
  - rewrite <- Z.add_assoc, Hrun by lia. f_equal.
    rewrite drop_app_ge by lia. do 2 f_equal. lia.
Qed.

Lemma word_shown r a bs off n :
  ref_ok c r -> vaddr r = a -> shown a bs -> 0 <= off -> 0 < n ->
  off + n <= Z.of_nat (length bs) ->
  word c r off n = Ok (le_value (take (Z.to_nat n) (drop (Z.to_nat off) bs))).
Proof.
  intros Hr <- (Ha & He & _ & Hrun) Ho Hn Hle. unfold word.
  specialize (Hrun 0 (off + n)). rewrite Z.add_0_r, drop_0 in Hrun.
  destruct (load_field c run r off n (off + n) _ Hr ltac:(lia) Ho Hn ltac:(lia)
    (Hrun ltac:(lia) ltac:(lia) Hle)) as (r' & -> & _).
  cbn [rbind snd]. do 2 f_equal.
  by rewrite Z2Nat.inj_add, <- take_drop_commute, take_take, Nat.min_id by lia.
Qed.

(** The word at the start. *)
Lemma word_head r a n v bs :
  ref_ok c r -> vaddr r = a -> (0 < n)%nat -> 0 <= v < 2 ^ (8 * Z.of_nat n) ->
  shown a (le_bytes n v ++ bs) -> word c r 0 (Z.of_nat n) = Ok v.
Proof.
  intros Hr Ha Hn Hv Hs. rewrite (word_shown r a _ 0 (Z.of_nat n) Hr Ha Hs) by
    (try rewrite length_app, le_bytes_length; lia).
  change (Z.to_nat 0) with 0%nat.
  rewrite drop_0, Nat2Z.id, take_app_length' by (by rewrite le_bytes_length).
  rewrite le_value_bytes. f_equal. by apply Z.mod_small.
Qed.

Lemma word32_head r a v bs :
  ref_ok c r -> vaddr r = a -> 0 <= v < 2 ^ 32 -> shown a (le_bytes 4 v ++ bs) ->
  word c r 0 4 = Ok v.
Proof. intros Hr Ha Hv. apply (word_head r a 4); [done..|lia|done]. Qed.
Lemma word16_head r a v bs :
  ref_ok c r -> vaddr r = a -> 0 <= v < 2 ^ 16 -> shown a (le_bytes 2 v ++ bs) ->
  word c r 0 2 = Ok v.
Proof. intros Hr Ha Hv. apply (word_head r a 2); [done..|lia|done]. Qed.

(** A field of a long integer. *)
Lemma word_number r a N V k m :
  ref_ok c r -> vaddr r = a -> 0 <= k -> 0 < m -> k + m <= Z.of_nat N ->
  shown a (le_bytes N V) -> word c r k m = Ok (field_at V (8 * k) (8 * m)).
Proof.
  intros Hr Ha Hk Hm Hle Hs.
  rewrite (word_shown r a _ k m Hr Ha Hs) by (try rewrite le_bytes_length; lia).
  rewrite le_value_field by apply le_bytes_ok. rewrite le_value_bytes. f_equal.
  rewrite !Z2Nat.id by lia. apply Z.bits_inj'. intros i Hi.
  rewrite !field_at_testbit by lia. destruct (Z.ltb_spec i (8 * m)); cbn; [|done].
  by rewrite Z.mod_pow2_bits_low by lia.
Qed.

Lemma MovePtr_shown r a bs len :
  ref_ok c r -> vaddr r = a -> shown a bs -> bs <> [] -> 0 <= a + len < 2 ^ 64 ->
  exists r', MovePtr c r len = Ok r' /\ vaddr r' = a + len /\ ref_ok c r'.
Proof.
  intros Hr <- (Ha & He & _ & Hrun) Hne Hl.
  assert (0 < length bs)%nat by (destruct bs; cbn; [done|lia]).
  specialize (Hrun 0 1). rewrite Z.add_0_r in Hrun.
  destruct (present_move r len _ Hr ltac:(lia) (Hrun ltac:(lia) ltac:(lia) ltac:(lia)))
    as (r' & E & Hv & Hr').
  exists r'. split_and!; [done| |done]. rewrite Hv. by apply wrap_small.
Qed.

(** An entry of a table of integers. *)
Definition table_bytes (n : nat) (l : list Z) : list Z := concat (map (le_bytes n) l).
Lemma table_bytes_length n l : length (table_bytes n l) = (n * length l)%nat.
Proof.
  unfold table_bytes. induction l as [|v l IH]; cbn [map concat length]; [lia|].
  rewrite length_app, le_bytes_length. lia.
Qed.
Lemma shown_entry a n l i v :
  shown a (table_bytes n l) -> l !! i = Some v ->
  shown (a + Z.of_nat (n * i)) (le_bytes n v).
Proof.
  intros Hs Hi. apply list_elem_of_split_length in Hi as (l1 & l2 & -> & ->).
  unfold table_bytes in Hs. rewrite map_app, concat_app in Hs.
  apply shown_app in Hs as [_ Hs]. fold (table_bytes n l1) in Hs.
  rewrite table_bytes_length in Hs. cbn [map concat] in Hs. by apply shown_app in Hs as [Hs _].
Qed.
End Reading.

(** * Concrete targets *)

Definition bytes_ok (l : list Z) : bool := forallb (fun b => (0 <=? b) && (b <? 256)) l.
Lemma bytes_ok_spec l : bytes_ok l = true -> Forall byte_ok l.
Proof.
  unfold bytes_ok, byte_ok. rewrite forallb_forall, Forall_forall. intros H x Hx.
  specialize (H x Hx). to_prop. lia.
Qed.
(** [has_field] and [shown] by computation, for the core with one segment at [va]. *)
Definition check_field (c : CoreApi) (a off n v : Z) : bool :=
  (0 <? a) && (a <? 2 ^ 64) && (0 <=? off) && (0 <? n) &&
  match target_run c (Z.land a (vabits_mask c)) (off + n) with
  | Some bs => le_value (drop (Z.to_nat off) bs) =? v
  | None => false
  end.
Lemma check_field_ok c a off n v :
  check_field c a off n v = true -> has_field c (target_run c) a off n v.
Proof.
  unfold check_field. intros H. to_prop. destruct (target_run _ _ _) as [bs|] eqn:E; [|done].
  to_prop. split_and!; try done. by exists bs.
Qed.

Definition check_pointer (c : CoreApi) (a off v : Z) : bool :=
  match target_run c (Z.land a (vabits_mask c)) (off + 8) with
  | Some bs =>
      let w := le_value (drop (Z.to_nat off) bs) in
      check_field c a off 8 w && (Z.land w (pointer_mask c) =? v)
  | None => false
  end.
Lemma check_pointer_ok c a off v :
  check_pointer c a off v = true -> pointer_at c (target_run c) a off v.
Proof.
  unfold check_pointer. destruct (target_run _ _ _) as [bs|]; [|done]. intros H. to_prop.
  eexists. split; [by apply check_field_ok|done].
Qed.

Definition check_shown (va : Z) (bytes : list Z) (a : Z) (bs : list Z) : bool :=
  (0 <? va) && (va <=? a) && (a + Z.of_nat (length bs) <=? va + Z.of_nat (length bytes)) &&
  (va + Z.of_nat (length bytes) <? 2 ^ 39) && bytes_ok bs &&
  bool_decide (take (length bs) (drop (Z.to_nat (a - va)) bytes) = bs).
Lemma check_shown_ok va bytes a bs :
  check_shown va bytes a bs = true -> (0 < length bytes)%nat ->
  shown (one_core va bytes) (target_run (one_core va bytes)) a bs.
Proof.
  unfold check_shown. intros H Hne. to_prop.
  match goal with H : bytes_ok _ = true |- _ => apply bytes_ok_spec in H end.
  match goal with H : bool_decide _ = true |- _ => apply bool_decide_eq_true in H; rename H into E end.
  split_and!; [lia|lia|done|]. intros k n Hk Hn Hle.
  change (vabits_mask _) with (Z.ones 39). rewrite Z.land_ones, Z.mod_small by lia.
  rewrite one_run by lia. f_equal. rewrite <- E.
  replace (length bs) with (Z.to_nat k + (length bs - Z.to_nat k))%nat by lia.
  rewrite <- take_drop_commute, take_take, drop_drop.
  rewrite Nat.min_l by lia. do 2 f_equal. lia.
Qed.

(** A memory of [n] bytes with the given runs of bytes, zero elsewhere. *)
Definition memory (n : nat) (l : list (Z * list Z)) : list Z :=
  fold_left (fun m '(o, bs) =>
    take (Z.to_nat o) m ++ bs ++ drop (Z.to_nat o + length bs) m) l (replicate n 0).
