(* ===== verification/Dex.v ===== *)
(** Dex files: android/art/dex (dex_file.{h,cpp}, dex_file_structs, dex_file_types.h,
    standard_dex_file, compact_dex_file, primitive, descriptors_names, modifiers.cpp) and the
    dex cache of android/art/runtime/mirror.

    A [const char*] of the code is the string it points to, without the terminator.  The
    cached references of an object ([QUICK_CACHE]) are computed at every use.  Log output is
    left out. *)

From Stdlib Require Import ZArith Lia Bool.
From stdpp Require Import base list gmap numbers.
From S2P Require Import Prelude Words Host Blocks Notes CoreApi Segments AddressSpace MemRef Elf.
From S2P Require Import Mirrors Cxx Bits.
Open Scope Z_scope.

(** * Primitive types *)

Definition chr (s : string) : Z := match chars s with ch :: _ => ch | [] => 0 end.

(** [Primitive::GetType(type)]. *)
Definition Primitive_GetType (type : Z) : Z :=
  if type =? chr "B" then kPrimByte else if type =? chr "C" then kPrimChar
  else if type =? chr "D" then kPrimDouble else if type =? chr "F" then kPrimFloat
  else if type =? chr "I" then kPrimInt else if type =? chr "J" then kPrimLong
  else if type =? chr "S" then kPrimShort else if type =? chr "Z" then kPrimBoolean
  else if type =? chr "V" then kPrimVoid else kPrimNot.

(** An entry of a table over the types; the code does not return for other numbers. *)
Definition by_type {A} (l : list A) (type : Z) : result A :=
  if type <? 0 then Fault else of_option (l !! Z.to_nat type).

Definition ComponentSizeShiftWidth (component_size : Z) : Z :=
  if component_size =? 1 then 0 else if component_size =? 2 then 1
  else if component_size =? 4 then 2 else if component_size =? 8 then 3 else 0.
Definition kObjectReferenceSize : Z := 4.
Definition ComponentSizeShift : Z -> result Z :=
  by_type [ComponentSizeShiftWidth kObjectReferenceSize; 0; 0; 1; 1; 2; 3; 2; 3; 0].
Definition ComponentSize : Z -> result Z :=
  by_type [kObjectReferenceSize; 1; 1; 2; 2; 4; 8; 4; 8; 0].
(** [Primitive::Descriptor(type)]; [None] is the null pointer. *)
Definition Primitive_Descriptor (type : Z) : option (list Z) :=
  if type <? 1 then None
  else (map chars ["Z"; "B"; "C"; "S"; "I"; "J"; "F"; "D"; "V"])%string !! Z.to_nat (type - 1).
Definition Primitive_PrettyDescriptor : Z -> result (list Z) :=
  by_type (map chars ["PrimNot"; "PrimBoolean"; "PrimByte"; "PrimChar"; "PrimShort"; "PrimInt";
                      "PrimLong"; "PrimFloat"; "PrimDouble"; "PrimVoid"])%string.
Definition BoxedDescriptor : Z -> result (list Z) :=
  by_type (map chars ["Ljava/lang/Object;"; "Ljava/lang/Boolean;"; "Ljava/lang/Byte;";
                      "Ljava/lang/Character;"; "Ljava/lang/Short;"; "Ljava/lang/Integer;";
                      "Ljava/lang/Long;"; "Ljava/lang/Float;"; "Ljava/lang/Double;";
                      "Ljava/lang/Void;"])%string.
Definition IsNumericType : Z -> result bool :=
  by_type [false; false; true; true; true; true; true; true; true; false].
Definition IsSignedNumericType : Z -> result bool :=
  by_type [false; false; true; false; true; true; true; true; true; false].
Definition BitsRequiredForLargestValue : Z -> result Z :=
  by_type [0; 1; 7; 16; 15; 31; 63; 128; 1024; 0].
Definition Is64BitType (type : Z) : bool := (type =? kPrimLong) || (type =? kPrimDouble).

(** * Descriptors *)

(** The loop that counts the ['[']. *)
Fixpoint strip_dims (c : list Z) : nat * list Z :=
  match c with
  | ch :: t => if ch =? chr "[" then let '(dim, c) := strip_dims t in (S dim, c) else (O, c)
  | [] => (O, c)
  end.

Definition replace_char (a b : Z) : list Z -> list Z := map (fun ch => if ch =? a then b else ch).

(** The [switch] over the primitive types. *)
Definition primitive_name (ch : Z) : option (list Z) :=
  if ch =? chr "B" then Some (chars "byte") else if ch =? chr "C" then Some (chars "char")
  else if ch =? chr "D" then Some (chars "double") else if ch =? chr "F" then Some (chars "float")
  else if ch =? chr "I" then Some (chars "int") else if ch =? chr "J" then Some (chars "long")
  else if ch =? chr "S" then Some (chars "short") else if ch =? chr "Z" then Some (chars "boolean")
  else if ch =? chr "V" then Some (chars "void") else None.

(** [temp.back() == ';'] and [pop_back()]; [back] of an empty string is undefined. *)
Definition drop_semicolon (temp : list Z) : result (list Z) :=
  match rev temp with
  | [] => Fault
  | ch :: _ => Ok (if ch =? chr ";" then removelast temp else temp)
  end.

Fixpoint brackets (dim : nat) : list Z :=
  match dim with O => [] | S n => chars "[]" ++ brackets n end.

(** [AppendPrettyDescriptor(descriptor, result)]: what is appended. *)
Definition AppendPrettyDescriptor (descriptor : list Z) : result (list Z) :=
  let '(dim, c) := strip_dims descriptor in
  match c with
  | [] => Ok descriptor
  | ch :: t =>
      if ch =? chr "L" then
        let! temp := drop_semicolon (replace_char (chr "/") (chr ".") t) in
        Ok (temp ++ brackets dim)
      else match primitive_name ch with
           | Some name => Ok (name ++ brackets dim)
           | None => Ok descriptor
           end
  end.
(** [AppendPrettyDescriptor(descriptor, result, def)]. *)
Definition AppendPrettyDescriptor_def (descriptor def : list Z) : result (list Z) :=
  match descriptor with
  | ch :: _ => if existsb (Z.eqb ch) (chars "[LZCFDBSIJV") then AppendPrettyDescriptor descriptor
               else AppendPrettyDescriptor def
  | [] => AppendPrettyDescriptor def
  end.
(** [DotToDescriptor(class_name)]. *)
Definition DotToDescriptor (class_name : list Z) : list Z :=
  match replace_char (chr ".") (chr "/") class_name with
  | [] => []
  | ch :: t => if ch =? chr "[" then ch :: t else chars "L" ++ (ch :: t) ++ chars ";"
  end.

(** * Access flags as text *)

Definition kAccPrivate : Z := 0x2.
Definition kAccProtected : Z := 0x4.
Definition kAccStatic : Z := 0x8.
Definition kAccSynchronized : Z := 0x20.
Definition kAccVolatile : Z := 0x40.
Definition kAccTransient : Z := 0x80.
Definition kAccNative : Z := 0x100.
Definition kAccConstructor : Z := 0x10000.
Definition kAccDeclaredSynchronized : Z := 0x20000.
Definition kAccDefault : Z := 0x400000.
Definition kAccCopied : Z := 0x1000000.
Definition kAccIntrinsic : Z := 0x80000000.

Definition flag_text (access_flags flag : Z) (text : string) : list Z :=
  if nz (Z.land access_flags flag) then chars text else [].

Definition PrettyJavaAccessFlags (access_flags : Z) : list Z :=
  flag_text access_flags kAccPublic "public " ++ flag_text access_flags kAccProtected "protected "
  ++ flag_text access_flags kAccPrivate "private " ++ flag_text access_flags kAccFinal "final "
  ++ flag_text access_flags kAccStatic "static " ++ flag_text access_flags kAccAbstract "abstract "
  ++ flag_text access_flags kAccSynchronized "synchronized ".
Definition PrettyFieldAccessFlags (access_flags : Z) : list Z :=
  PrettyJavaAccessFlags access_flags ++ flag_text access_flags kAccTransient "transient "
  ++ flag_text access_flags kAccVolatile "volatile ".
Definition PrettyClassAccessFlags (access_flags : Z) : list Z :=
  PrettyJavaAccessFlags access_flags ++ flag_text access_flags kAccClassIsProxy "proxy "
  ++ flag_text access_flags kAccInterface "interface " ++ flag_text access_flags kAccEnum "enum ".
(** [IsDefaultConflicting]: the mask and the value. *)
Definition kConflictMask : Z :=
  Z.lor (Z.lor (Z.lor kAccIntrinsic kAccCopied) kAccAbstract) kAccDefault.
Definition kConflictValue : Z := Z.lor (Z.lor kAccCopied kAccAbstract) kAccDefault.
Definition PrettyMethodAccessFlags (access_flags : Z) : list Z :=
  PrettyJavaAccessFlags access_flags ++ flag_text access_flags kAccNative "native "
  ++ (if Z.land access_flags kConflictMask =? kConflictValue then chars "conflicting " else []).

(** * Offset tables *)

Record TypeId_OffsetTable := { descriptor_idx_ : Z; TypeId_THIS : Z }.
Definition TypeId_Init : TypeId_OffsetTable := {| descriptor_idx_ := 0; TypeId_THIS := 4 |}.
Record StringId_OffsetTable := { string_data_off_ : Z; StringId_THIS : Z }.
Definition StringId_Init : StringId_OffsetTable := {| string_data_off_ := 0; StringId_THIS := 4 |}.
Record FieldId_OffsetTable := {
  fid_class_idx_ : Z; fid_type_idx_ : Z; fid_name_idx_ : Z; FieldId_THIS : Z }.
Definition FieldId_Init : FieldId_OffsetTable :=
  {| fid_class_idx_ := 0; fid_type_idx_ := 2; fid_name_idx_ := 4; FieldId_THIS := 8 |}.
Record MethodId_OffsetTable := {
  mid_class_idx_ : Z; mid_proto_idx_ : Z; mid_name_idx_ : Z; MethodId_THIS : Z }.
Definition MethodId_Init : MethodId_OffsetTable :=
  {| mid_class_idx_ := 0; mid_proto_idx_ := 2; mid_name_idx_ := 4; MethodId_THIS := 8 |}.
Record ProtoId_OffsetTable := {
  shorty_idx_ : Z; return_type_idx_ : Z; pad_ : Z; parameters_off_ : Z; ProtoId_THIS : Z }.
Definition ProtoId_Init : ProtoId_OffsetTable :=
  {| shorty_idx_ := 0; return_type_idx_ := 4; pad_ := 6; parameters_off_ := 8;
     ProtoId_THIS := 12 |}.
Record TypeList_OffsetTable := { tl_size_ : Z; tl_list_ : Z }.
Definition TypeList_Init : TypeList_OffsetTable := {| tl_size_ := 0; tl_list_ := 4 |}.
Record TypeItem_OffsetTable := { ti_type_idx_ : Z; TypeItem_THIS : Z }.
Definition TypeItem_Init : TypeItem_OffsetTable := {| ti_type_idx_ := 0; TypeItem_THIS := 2 |}.

Record DexFile_OffsetTable := {
  df_begin_ : Z; df_size_ : Z; data_begin_ : Z; data_size_ : Z; df_location_ : Z;
  location_checksum_ : Z; header_ : Z; string_ids_ : Z; type_ids_ : Z; field_ids_ : Z;
  method_ids_ : Z; proto_ids_ : Z; class_defs_ : Z; method_handles_ : Z;
  num_method_handles_ : Z; call_site_ids_ : Z; num_call_site_ids_ : Z;
  hiddenapi_class_data_ : Z; oat_dex_file_ : Z; container_ : Z; is_compact_dex_ : Z }.

Section Tables.
Context {M : Machine} (sdk : Z).

(** The tables up to 27, in which the data begins with the file, and from 28 on. *)
Definition dex_table_old (b sz loc chk hdr str typ fld mth pro cls mh nmh cs ncs oat : Z) :=
  {| df_begin_ := b; df_size_ := sz; data_begin_ := b; data_size_ := sz; df_location_ := loc;
     location_checksum_ := chk; header_ := hdr; string_ids_ := str; type_ids_ := typ;
     field_ids_ := fld; method_ids_ := mth; proto_ids_ := pro; class_defs_ := cls;
     method_handles_ := mh; num_method_handles_ := nmh; call_site_ids_ := cs;
     num_call_site_ids_ := ncs; hiddenapi_class_data_ := 0; oat_dex_file_ := oat;
     container_ := 0; is_compact_dex_ := 0 |}.
Definition dex_table (hidden oat container compact : Z) : DexFile_OffsetTable :=
  if bits =? 64 then
    {| df_begin_ := 8; df_size_ := 16; data_begin_ := 24; data_size_ := 32;
       df_location_ := 40; location_checksum_ := 64; header_ := 72; string_ids_ := 80;
       type_ids_ := 88; field_ids_ := 96; method_ids_ := 104; proto_ids_ := 112;
       class_defs_ := 120; method_handles_ := 128; num_method_handles_ := 136;
       call_site_ids_ := 144; num_call_site_ids_ := 152; hiddenapi_class_data_ := hidden;
       oat_dex_file_ := oat; container_ := container; is_compact_dex_ := compact |}
  else
    {| df_begin_ := 4; df_size_ := 8; data_begin_ := 12; data_size_ := 16;
       df_location_ := 20; location_checksum_ := 32; header_ := 36; string_ids_ := 40;
       type_ids_ := 44; field_ids_ := 48; method_ids_ := 52; proto_ids_ := 56;
       class_defs_ := 60; method_handles_ := 64; num_method_handles_ := 68;
       call_site_ids_ := 72; num_call_site_ids_ := 76; hiddenapi_class_data_ := hidden;
       oat_dex_file_ := oat; container_ := container; is_compact_dex_ := compact |}.

(** [DexFile::Init23] to [Init34], for a version from 23 on. *)
Definition DexFile_Init : DexFile_OffsetTable :=
  if Sdk.U <=? sdk then if bits =? 64 then dex_table 160 168 176 192 else dex_table 80 84 88 96
  else if Sdk.Q <=? sdk then
    if bits =? 64 then dex_table 160 168 176 184 else dex_table 80 84 88 92
  else if Sdk.P <=? sdk then
    if bits =? 64 then dex_table 0 160 168 176 else dex_table 0 80 84 88
  else if Sdk.O <=? sdk then
    if bits =? 64 then dex_table_old 8 16 24 48 64 72 80 88 96 104 112 120 128 136 144 152
    else dex_table_old 4 8 12 24 32 36 40 44 48 52 56 60 64 68 72 76
  else if Sdk.N <=? sdk then
    if bits =? 64 then dex_table_old 8 16 24 48 64 72 80 88 96 104 112 0 0 0 0 120
    else dex_table_old 4 8 12 24 32 36 40 44 48 52 56 0 0 0 0 60
  else
    if bits =? 64 then dex_table_old 8 16 24 48 64 72 80 88 96 104 112 0 0 0 0 136
    else dex_table_old 4 8 12 24 32 36 40 44 48 52 56 0 0 0 0 68.

(** The fields of [DexCache] that the code reads. *)
Record DexCache_OffsetTable := { dc_class_loader_ : Z; dc_location_ : Z; dc_dex_file_ : Z }.
Definition DexCache_Init : DexCache_OffsetTable :=
  let t cl l d := {| dc_class_loader_ := cl; dc_location_ := l; dc_dex_file_ := d |} in
  if Sdk.R <=? sdk then t 8 12 16 else if Sdk.O <=? sdk then t 0 8 16
  else if Sdk.N <=? sdk then t 0 12 16 else t 0 12 32.
End Tables.

(** * Code items *)

Record StandardDexFile_CodeItem_OffsetTable := {
  registers_size_ : Z; sci_ins_size_ : Z; outs_size_ : Z; sci_tries_size_ : Z;
  debug_info_off_ : Z; insns_size_in_code_units_ : Z; sci_insns_ : Z }.
Definition StandardDexFile_CodeItem_Init : StandardDexFile_CodeItem_OffsetTable :=
  {| registers_size_ := 0; sci_ins_size_ := 2; outs_size_ := 4; sci_tries_size_ := 6;
     debug_info_off_ := 8; insns_size_in_code_units_ := 12; sci_insns_ := 16 |}.
Record CompactDexFile_CodeItem_OffsetTable := {
  cci_fields_ : Z; insns_count_and_flags_ : Z; cci_insns_ : Z }.
Definition CompactDexFile_CodeItem_Init : CompactDexFile_CodeItem_OffsetTable :=
  {| cci_fields_ := 0; insns_count_and_flags_ := 2; cci_insns_ := 4 |}.

Definition kRegistersSizeShift : Z := 12.
Definition kInsSizeShift : Z := 8.
Definition kOutsSizeShift : Z := 4.
Definition kTriesSizeSizeShift : Z := 0.
Definition kInsnsSizeShift : Z := 5.
Definition kFlagPreHeaderRegistersSize : Z := Z.shiftl 1 0.
Definition kFlagPreHeaderInsSize : Z := Z.shiftl 1 1.
Definition kFlagPreHeaderOutsSize : Z := Z.shiftl 1 2.
Definition kFlagPreHeaderTriesSize : Z := Z.shiftl 1 3.
Definition kFlagPreHeaderInsnsSize : Z := Z.shiftl 1 4.
Definition kFlagPreHeaderCombined : Z :=
  Z.lor (Z.lor (Z.lor (Z.lor kFlagPreHeaderRegistersSize kFlagPreHeaderInsSize)
                 kFlagPreHeaderOutsSize) kFlagPreHeaderTriesSize) kFlagPreHeaderInsnsSize.

(** The decoded fields of [dex::CodeItem]. *)
Record CodeFields := {
  num_regs_ : Z; out_regs_ : Z; insns_count_ : Z; ins_size_ : Z; tries_size_ : Z;
  code_offset_ : Z }.

Section CodeItems.
Context (c : CoreApi).

(** [StandardDexFile::CodeItem::DecodeFields()]. *)
Definition Standard_DecodeFields (item : MemoryRef) : result CodeFields :=
  let T := StandardDexFile_CodeItem_Init in
  let! regs := word c item (registers_size_ T) 2 in
  let! outs := word c item (outs_size_ T) 2 in
  let! n := word c item (insns_size_in_code_units_ T) 4 in
  let! ins := word c item (sci_ins_size_ T) 2 in
  let! tries := word c item (sci_tries_size_ T) 2 in
  Ok {| num_regs_ := regs; out_regs_ := outs; insns_count_ := n; ins_size_ := ins;
        tries_size_ := tries; code_offset_ := sci_insns_ T |}.

(** [preheader.MovePtr(-sizeof(uint16_t)); preheader.value16Of()]. *)
Definition pre_half (pre : MemoryRef) : result (MemoryRef * Z) :=
  let! pre := MovePtr c pre (-2) in value16Of c pre 0.
(** A 16-bit field to which the pre-header adds when its flag is set. *)
Definition pre_field (flags flag : Z) (pre : MemoryRef) (v : Z) : result (MemoryRef * Z) :=
  if nz (Z.land flags flag) then
    let! '(pre, h) := pre_half pre in Ok (pre, u16 (v + h))
  else Ok (pre, v).
Definition pre_insns (flags : Z) (pre : MemoryRef) (v : Z) : result (MemoryRef * Z) :=
  if nz (Z.land flags kFlagPreHeaderInsnsSize) then
    let! '(pre, lo) := pre_half pre in
    let v := u32 (v + lo) in
    let! '(pre, hi) := pre_half pre in Ok (pre, u32 (v + shl 32 hi 16))
  else Ok (pre, v).

(** [CompactDexFile::CodeItem::DecodeFields()]. *)
Definition Compact_DecodeFields (item : MemoryRef) : result CodeFields :=
  let T := CompactDexFile_CodeItem_Init in
  let! flags := word c item (insns_count_and_flags_ T) 2 in
  let! f := word c item (cci_fields_ T) 2 in
  let nibble shift := Z.land (Z.shiftr f shift) 0xF in
  let insns := Z.shiftr flags kInsnsSizeShift in
  let regs := nibble kRegistersSizeShift in
  let ins := nibble kInsSizeShift in
  let outs := nibble kOutsSizeShift in
  let tries := nibble kTriesSizeSizeShift in
  let! '(insns, regs, ins, outs, tries) :=
    (if nz (Z.land flags kFlagPreHeaderCombined) then
       let pre := ref_from c (vaddr item) item in
       let! '(pre, insns) := pre_insns flags pre insns in
       let! '(pre, regs) := pre_field flags kFlagPreHeaderRegistersSize pre regs in
       let! '(pre, ins) := pre_field flags kFlagPreHeaderInsSize pre ins in
       let! '(pre, outs) := pre_field flags kFlagPreHeaderOutsSize pre outs in
       let! '(pre, tries) := pre_field flags kFlagPreHeaderTriesSize pre tries in
       Ok (insns, regs, ins, outs, tries)
     else Ok (insns, regs, ins, outs, tries)) in
  Ok {| num_regs_ := u16 (regs + ins); out_regs_ := outs; insns_count_ := insns;
        ins_size_ := ins; tries_size_ := tries; code_offset_ := cci_insns_ T |}.
End CodeItems.

(** * Dex files *)

(** [QUICK_CACHE(NAME)] of the object [owner] for the address [v]. *)
Definition quick_cache (c : CoreApi) (v : result Z) (owner : MemoryRef) : result MemoryRef :=
  let! v := v in Prepare c (ref_from c v owner) false.

Section DexFiles.
Context {M : Machine} (sdk : Z) (c : CoreApi).

Definition dex_field (dex : MemoryRef) (f : DexFile_OffsetTable -> Z) : result Z :=
  vword c dex (f (DexFile_Init sdk)).
Definition DataBegin (dex : MemoryRef) : result MemoryRef :=
  quick_cache c (dex_field dex data_begin_) dex.
(** An id table, whose cached reference copies the segment of the data. *)
Definition id_table (dex : MemoryRef) (f : DexFile_OffsetTable -> Z) : result MemoryRef :=
  let! v := dex_field dex f in
  let! d := DataBegin dex in quick_cache c (Ok v) d.
(** Entry [idx] of an id table; the product is an [uint32_t]. *)
Definition id_at (dex : MemoryRef) (f : DexFile_OffsetTable -> Z) (size idx : Z)
    : result MemoryRef :=
  let! t := id_table dex f in
  Ok (ref_from c (u64 (vaddr t + u32 (size * idx))) t).

Definition GetTypeId dex idx := id_at dex type_ids_ (TypeId_THIS TypeId_Init) idx.
Definition GetMethodId dex idx := id_at dex method_ids_ (MethodId_THIS MethodId_Init) idx.
Definition GetProtoId dex idx := id_at dex proto_ids_ (ProtoId_THIS ProtoId_Init) idx.
Definition GetStringId dex idx := id_at dex string_ids_ (StringId_THIS StringId_Init) idx.
Definition GetFieldId dex idx := id_at dex field_ids_ (FieldId_THIS FieldId_Init) idx.
Definition GetMethodPrototype (dex method_id : MemoryRef) : result MemoryRef :=
  let! idx := word c method_id (mid_proto_idx_ MethodId_Init) 2 in GetProtoId dex idx.

(** What the getters do with an id that may lie outside the target's memory. *)
Definition with_valid {A} (id : MemoryRef) (def : A) (f : MemoryRef -> result A) : result A :=
  let! '(id, ok) := IsValid c id in if ok : bool then f id else Ok def.

(** [GetStringDataAndUtf16Length(string_id, utf16_length, def)]; no length when it is not
    assigned. *)
Definition GetStringDataAndUtf16Length (dex string_id : MemoryRef) (def : list Z)
    : result (option Z * list Z) :=
  with_valid string_id (None, def) (fun id =>
    let! d := DataBegin dex in
    let! off := word c id (string_data_off_ StringId_Init) 4 in
    let! '(_, p) := Real c (ref_from c (u64 (vaddr d + off)) id) in
    let! '(n, p) := DecodeUnsignedLeb128 (host_mem c) p in
    let! s := host_cstr (host_mem c) p in Ok (Some n, s)).
Definition StringDataAndUtf16LengthByIdx (dex : MemoryRef) (idx : Z) (def : list Z)
    : result (option Z * list Z) :=
  if idx =? 2 ^ 32 - 1 then Ok (Some 0, def)
  else let! id := GetStringId dex idx in GetStringDataAndUtf16Length dex id def.
Definition StringDataByIdx (dex : MemoryRef) (idx : Z) (def : list Z) : result (list Z) :=
  let! '(_, s) := StringDataAndUtf16LengthByIdx dex idx def in Ok s.
Definition GetTypeDescriptor (dex type_id : MemoryRef) (def : list Z) : result (list Z) :=
  with_valid type_id def (fun id =>
    let! idx := word c id (descriptor_idx_ TypeId_Init) 4 in StringDataByIdx dex idx def).
(** The default of [GetTypeDescriptor(type_id)]. *)
Definition invalid_class : list Z := chars "L<invalid-class>;".
Definition type_descriptor (dex : MemoryRef) (idx : Z) (def : list Z) : result (list Z) :=
  let! id := GetTypeId dex idx in GetTypeDescriptor dex id def.

Definition GetFieldTypeDescriptor (dex field_id : MemoryRef) (def : list Z) : result (list Z) :=
  with_valid field_id def (fun id =>
    let! idx := word c id (fid_type_idx_ FieldId_Init) 2 in type_descriptor dex idx def).
Definition GetFieldDeclaringClassDescriptor (dex field_id : MemoryRef) (def : list Z)
    : result (list Z) :=
  with_valid field_id def (fun id =>
    let! idx := word c id (fid_class_idx_ FieldId_Init) 2 in type_descriptor dex idx def).
Definition GetFieldName (dex field_id : MemoryRef) (def : list Z) : result (list Z) :=
  with_valid field_id def (fun id =>
    let! idx := word c id (fid_name_idx_ FieldId_Init) 4 in StringDataByIdx dex idx def).
Definition GetMethodName (dex method_id : MemoryRef) : result (list Z) :=
  with_valid method_id (chars "<unknown>") (fun id =>
    let! idx := word c id (mid_name_idx_ MethodId_Init) 4 in
    StringDataByIdx dex idx (chars "<unknown>")).
Definition GetMethodDeclaringClassDescriptor (dex method_id : MemoryRef) (def : list Z)
    : result (list Z) :=
  with_valid method_id def (fun id =>
    let! idx := word c id (mid_class_idx_ MethodId_Init) 2 in type_descriptor dex idx def).
Definition GetMethodReturnTypeDescriptor (dex method_id : MemoryRef) (def : list Z)
    : result (list Z) :=
  with_valid method_id def (fun id =>
    let! p := GetMethodPrototype dex id in
    let! idx := word c p (return_type_idx_ ProtoId_Init) 2 in
    type_descriptor dex idx invalid_class).
Definition GetMethodShorty (dex method_id : MemoryRef) : result (option Z * list Z) :=
  let! p := GetMethodPrototype dex method_id in
  let! idx := word c p (shorty_idx_ ProtoId_Init) 4 in
  StringDataAndUtf16LengthByIdx dex idx [].

(** The loops over a [TypeList]: entry [i] of the [n] left, shown by [show]. *)
Fixpoint type_list (n : nat) (i : Z) (dex items : MemoryRef) (show : Z -> list Z -> result (list Z))
    : result (list Z) :=
  match n with
  | O => Ok []
  | S k =>
      let! idx := word c items (u32 (i * TypeItem_THIS TypeItem_Init)) 2 in
      let! d := type_descriptor dex idx (chars "V") in
      let! s := show i d in
      let! rest := type_list k (i + 1) dex items show in
      Ok (s ++ rest)
  end.
(** The parameters of a prototype between parentheses. *)
Definition parameters (dex proto_id : MemoryRef) (show : Z -> list Z -> result (list Z))
    : result (list Z) :=
  let! off := word c proto_id (parameters_off_ ProtoId_Init) 4 in
  if nz off then
    let! d := dex_field dex data_begin_ in
    let list := u64 (d + off) in
    let items := ref_at (u64 (list + tl_list_ TypeList_Init)) in
    let! n := word c (ref_at list) (tl_size_ TypeList_Init) 4 in
    let! s := type_list (Z.to_nat n) 0 dex items show in
    Ok (chars "(" ++ s ++ chars ")")
  else Ok (chars "()").
Definition GetMethodParametersDescriptor (dex proto_id : MemoryRef) : result (list Z) :=
  with_valid proto_id (chars "(...)") (fun id => parameters dex id (fun _ d => Ok d)).
Definition PrettyMethodParameters (dex method_id : MemoryRef) : result (list Z) :=
  with_valid method_id (chars "(...)") (fun id =>
    let! p := GetMethodPrototype dex id in
    parameters dex p (fun i d =>
      let! s := AppendPrettyDescriptor d in
      Ok ((if 0 <? i then chars ", " else []) ++ s))).

Definition is_compact_dex (dex : MemoryRef) : result bool :=
  let! b := word c dex (is_compact_dex_ (DexFile_Init sdk)) 1 in Ok (nz b).
Definition IsCompactDexFile (dex : MemoryRef) : result bool :=
  if Sdk.X <=? sdk then Ok false else is_compact_dex dex.
Definition IsStandardDexFile (dex : MemoryRef) : result bool :=
  if Sdk.X <=? sdk then Ok true else let! b := is_compact_dex dex in Ok (negb b).
Definition GetLocation (dex : MemoryRef) : MemoryRef :=
  ref_from c (u64 (vaddr dex + df_location_ (DexFile_Init sdk))) dex.
Definition GetOatDexFile (dex : MemoryRef) : result MemoryRef :=
  quick_cache c (dex_field dex oat_dex_file_) dex.

(** * Dex caches and the descriptors of classes *)

(** [DexCache::GetDexFile()], [Class::GetDexCache()], [Class::GetDexFile()]. *)
Definition DexCache_GetDexFile (dc : MemoryRef) : result MemoryRef :=
  quick_cache c (word c dc (dc_dex_file_ (DexCache_Init sdk)) 8) dc.
Definition GetDexCache (k : MemoryRef) : result MemoryRef :=
  quick_cache c (class_word sdk c k dex_cache_) k.
Definition Class_GetDexFile (k : MemoryRef) : result MemoryRef :=
  let! dc := GetDexCache k in DexCache_GetDexFile dc.

(** The loop of [GetDescriptor] over the component types. *)
Fixpoint component_loop (fuel : nat) (k : MemoryRef) (dim : nat) : result (nat * MemoryRef) :=
  match fuel with
  | O => OutOfFuel
  | S n =>
      if vaddr k =? 0 then Ok (dim, k)
      else
        let! a := IsArrayClass sdk c k in
        if a : bool then let! e := GetComponentType sdk c k in component_loop n e (S dim)
        else Ok (dim, k)
  end.
(** [Class::GetDescriptor(storage)]; a null descriptor is not usable by the callers. *)
Definition GetDescriptor (fuel : nat) (k : MemoryRef) : result (list Z) :=
  let! '(dim, k) := component_loop fuel k 0 in
  let! proxy := IsProxyClass sdk c k in
  let! d :=
    (if proxy : bool then
       let! name := GetName sdk c k in
       let! s := ToModifiedUtf8 sdk c name in
       Ok (DotToDescriptor (match cstr_of (s ++ [0]) with Some s => s | None => [] end))
     else
       let! prim := IsPrimitive sdk c k in
       if prim : bool then
         let! t := GetPrimitiveType sdk c k in of_option (Primitive_Descriptor t)
       else
         let! dex := Class_GetDexFile k in
         let! idx := GetDexTypeIndex sdk c k in
         let! id := GetTypeId dex idx in GetTypeDescriptor dex id invalid_class) in
  Ok (replicate dim (chr "[") ++ d).
(** [Class::PrettyDescriptor()]. *)
Definition PrettyDescriptor (fuel : nat) (k : MemoryRef) : result (list Z) :=
  let! d := GetDescriptor fuel k in AppendPrettyDescriptor d.
End DexFiles.
