(* ===== verification/DexProofs.v ===== *)
(** Theorems about [Dex]: pretty names of types against the grammar of descriptors, and the
    decoding of code items against their encoding. *)

From Stdlib Require Import ZArith Lia Bool.
From stdpp Require Import base list gmap numbers.
From S2P Require Import Prelude Words Host Blocks Notes CoreApi Segments AddressSpace MemRef Elf.
From S2P Require Import Mirrors Cxx Bits Dex.
Open Scope Z_scope.

#[local] Ltac Zify.zify_post_hook ::= Z.to_euclidean_division_equations.

(** * Types and their names *)

(** The primitive types of the Java language, their letters in descriptors (JVM specification,
    4.3.2) and their keywords. *)
Inductive java_primitive : Type :=
  | Java_byte | Java_char | Java_double | Java_float | Java_int | Java_long | Java_short
  | Java_boolean | Java_void.
Definition primitive_letter (p : java_primitive) : Z :=
  match p with
  | Java_byte => chr "B" | Java_char => chr "C" | Java_double => chr "D"
  | Java_float => chr "F" | Java_int => chr "I" | Java_long => chr "J"
  | Java_short => chr "S" | Java_boolean => chr "Z" | Java_void => chr "V"
  end.
Definition primitive_keyword (p : java_primitive) : list Z :=
  match p with
  | Java_byte => chars "byte" | Java_char => chars "char" | Java_double => chars "double"
  | Java_float => chars "float" | Java_int => chars "int" | Java_long => chars "long"
  | Java_short => chars "short" | Java_boolean => chars "boolean" | Java_void => chars "void"
  end.

(** A type: a primitive type, a class by the identifiers of its packages and its own, an
    array. *)
Inductive java_type : Type :=
  | Primitive_type (p : java_primitive)
  | Class_type (identifiers : list (list Z))
  | Array_type (component : java_type).

(** An identifier has no character that separates identifiers or ends a descriptor. *)
Definition identifier_ok (s : list Z) : Prop :=
  s <> [] /\ chr "." ∉ s /\ chr "/" ∉ s /\ chr ";" ∉ s /\ chr "[" ∉ s.
Fixpoint java_type_ok (t : java_type) : Prop :=
  match t with
  | Primitive_type _ => True
  | Class_type ids => ids <> [] /\ Forall identifier_ok ids
  | Array_type t => java_type_ok t
  end.

Fixpoint joined (sep : Z) (ids : list (list Z)) : list Z :=
  match ids with
  | [] => []
  | [s] => s
  | s :: ids => s ++ sep :: joined sep ids
  end.

(** The descriptor of a type. *)
Fixpoint descriptor (t : java_type) : list Z :=
  match t with
  | Primitive_type p => [primitive_letter p]
  | Class_type ids => chars "L" ++ joined (chr "/") ids ++ chars ";"
  | Array_type t => chr "[" :: descriptor t
  end.
(** Its name in the source language. *)
Fixpoint java_name (t : java_type) : list Z :=
  match t with
  | Primitive_type p => primitive_keyword p
  | Class_type ids => joined (chr ".") ids
  | Array_type t => java_name t ++ chars "[]"
  end.
(** The number of dimensions, and the innermost component type. *)
Fixpoint dimensions (t : java_type) : nat :=
  match t with Array_type t => S (dimensions t) | _ => O end.
Fixpoint element (t : java_type) : java_type :=
  match t with Array_type t => element t | t => t end.

Lemma primitive_name_keyword p :
  primitive_name (primitive_letter p) = Some (primitive_keyword p) /\
  primitive_letter p <> chr "[" /\ primitive_letter p <> chr "L".
Proof. by destruct p. Qed.

Lemma replace_other a b l : a ∉ l -> replace_char a b l = l.
Proof.
  unfold replace_char. intros H. rewrite <- (map_id l) at 2.
  apply map_ext_in. intros x Hx%list_elem_of_In.
  destruct (Z.eqb_spec x a) as [->|]; done.
Qed.
(** Replacing the separator of identifiers. *)
Lemma replace_joined a b ids :
  Forall (fun s => a ∉ s) ids -> replace_char a b (joined a ids) = joined b ids.
Proof.
  induction 1 as [|s ids Hs H IH]; [done|]. destruct ids as [|s' ids]; cbn [joined].
  - by apply replace_other.
  - unfold replace_char in *. rewrite map_app. cbn [map]. rewrite Z.eqb_refl.
    cbn [joined] in IH. rewrite IH. f_equal. by apply (replace_other a b).
Qed.

(** Counting the brackets of a descriptor. *)
Lemma strip_dims_descriptor t :
  java_type_ok t -> strip_dims (descriptor t) = (dimensions t, descriptor (element t)).
Proof.
  induction t as [ch|name|t IH]; cbn [java_type_ok descriptor dimensions element strip_dims].
  - intros _. destruct (primitive_name_keyword ch) as (_ & H & _). cbn.
    by rewrite (proj2 (Z.eqb_neq _ _)).
  - intros _. reflexivity.
  - intros H. by rewrite Z.eqb_refl, IH.
Qed.

Lemma java_name_element t : java_name t = java_name (element t) ++ brackets (dimensions t).
Proof.
  induction t as [ch|name|t IH]; cbn [java_name element dimensions brackets].
  - by rewrite app_nil_r.
  - by rewrite app_nil_r.
  - rewrite IH, <- app_assoc. f_equal. clear. induction (dimensions t) as [|n IH]; [done|].
    cbn [brackets]. by rewrite <- app_assoc, IH.
Qed.

Lemma element_ok t : java_type_ok t -> java_type_ok (element t).
Proof. induction t; auto. Qed.

Lemma element_cases t : (exists ch, element t = Primitive_type ch) \/
  (exists name, element t = Class_type name).
Proof. induction t; eauto. Qed.

(** The text of a class between the letter and the semicolon. *)
Lemma drop_semicolon_app l : drop_semicolon (l ++ chars ";") = Ok l.
Proof.
  unfold drop_semicolon. rewrite rev_app_distr. cbn [chars map rev app String.list_ascii_of_string].
  by rewrite removelast_last.
Qed.

(** C25: For every type of the Java language, built from the primitive types, classes given by
    their identifiers, and arrays, [AppendPrettyDescriptor] of its descriptor is the name of
    the type in the source language: the keyword or the identifiers with dots between them,
    followed by a pair of brackets per dimension; and for a class, [DotToDescriptor] of the
    name is the descriptor. *)
Theorem AppendPrettyDescriptor_name (t : java_type) (Ht : java_type_ok t) :
  AppendPrettyDescriptor (descriptor t) = Ok (java_name t) /\
  forall ids, t = Class_type ids -> DotToDescriptor (java_name t) = descriptor t.
Proof.
  split.
  - unfold AppendPrettyDescriptor. rewrite (strip_dims_descriptor _ Ht), java_name_element.
    pose proof (element_ok _ Ht) as He.
    destruct (element_cases t) as [[p E]|[ids E]]; rewrite E in He |- *.
    + cbn [descriptor java_name]. destruct (primitive_name_keyword p) as (-> & _ & HL).
      by rewrite (proj2 (Z.eqb_neq _ _) HL).
    + destruct He as [_ Hids]. cbn [descriptor java_name chars map app
        String.list_ascii_of_string].
      change (Z.of_N _ =? chr "L") with true. cbn [rbind].
      unfold replace_char at 1. rewrite map_app.
      change (map _ (chars ";")) with (chars ";").
      fold (replace_char (chr "/") (chr ".") (joined (chr "/") ids)).
      rewrite replace_joined by (eapply List.Forall_impl; [|exact Hids]; by intros s (_ & _ & ? & _)).
      by rewrite drop_semicolon_app.
  - intros ids ->. destruct Ht as [Hne Hids].
    unfold DotToDescriptor. cbn [descriptor java_name].
    rewrite replace_joined by (eapply List.Forall_impl; [|exact Hids]; by intros s (_ & ? & _)).
    assert (Hx : exists x l, joined (chr "/") ids = x :: l /\ x <> chr "[").
    { destruct Hids as [|[|x s] ids (H1 & _ & _ & _ & H2) _]; [done|done|].
      destruct ids as [|s' ids]; cbn [joined app]; eexists _, _; (split; [reflexivity|set_solver]). }
    destruct Hx as (x & l & -> & Hx). by rewrite (proj2 (Z.eqb_neq x (chr "["))).
Qed.

Lemma AppendPrettyDescriptor_name_witness :
  let t := Array_type (Array_type
    (Class_type [chars "java"; chars "lang"; chars "String"])) in
  AppendPrettyDescriptor (chars "[[Ljava/lang/String;") = Ok (chars "java.lang.String[][]") /\
  AppendPrettyDescriptor (descriptor (Array_type (Primitive_type Java_long))) = Ok (chars "long[]").
Proof.
  intros t. split.
  - refine (proj1 (AppendPrettyDescriptor_name t _)). split; [done|].
    repeat (apply Forall_cons_2; [split_and!; [done|..]; vm_compute; intros H;
      repeat (apply elem_of_cons in H as [H|H]; [done|]); by apply elem_of_nil in H|]).
    constructor.
  - exact (proj1 (AppendPrettyDescriptor_name (Array_type (Primitive_type Java_long)) I)).
Defined.

(** * Code items of compact dex files *)

(** A size as a compact code item stores it: a small part in the item, and the rest, when
    there is one, in the words before the item. *)
Record packed := { small : Z; rest : option Z }.
Definition unpack (p : packed) : Z := small p + default 0 (rest p).
Definition has_rest (p : packed) : bool := match rest p with Some _ => true | None => false end.
(** The small part has [k] bits, the rest and the whole [w]. *)
Definition packed_ok (k w : Z) (p : packed) : Prop :=
  0 <= small p < 2 ^ k /\ (forall r, rest p = Some r -> 0 <= r < 2 ^ w) /\ unpack p < 2 ^ w.

(** The sizes of a method: [c_regs] does not count the arguments. *)
Record compact_item := {
  c_insns : packed; c_regs : packed; c_ins : packed; c_outs : packed; c_tries : packed }.
Definition compact_ok (i : compact_item) : Prop :=
  packed_ok 11 32 (c_insns i) /\ packed_ok 4 16 (c_regs i) /\ packed_ok 4 16 (c_ins i)
  /\ packed_ok 4 16 (c_outs i) /\ packed_ok 4 16 (c_tries i)
  /\ unpack (c_regs i) + unpack (c_ins i) < 2 ^ 16.

(** The two words of the item. *)
Definition item_fields (i : compact_item) : Z :=
  small (c_regs i) * 2 ^ 12 + small (c_ins i) * 2 ^ 8 + small (c_outs i) * 2 ^ 4
  + small (c_tries i).
Definition item_flags (i : compact_item) : Z :=
  small (c_insns i) * 2 ^ 5 + Z.b2z (has_rest (c_insns i)) * 2 ^ 4
  + Z.b2z (has_rest (c_tries i)) * 2 ^ 3 + Z.b2z (has_rest (c_outs i)) * 2 ^ 2
  + Z.b2z (has_rest (c_ins i)) * 2 + Z.b2z (has_rest (c_regs i)).
(** The words before the item, the nearest first. *)
Definition rest_words (p : packed) : list Z := match rest p with Some r => [r] | None => [] end.
Definition item_words (i : compact_item) : list Z :=
  match rest (c_insns i) with Some r => [r mod 2 ^ 16; r / 2 ^ 16] | None => [] end
  ++ rest_words (c_regs i) ++ rest_words (c_ins i) ++ rest_words (c_outs i)
  ++ rest_words (c_tries i).

Section Compact.
Context (c : CoreApi) (run : Z -> Z -> option (list Z)) `{!Presents c run}.

(** The target has the 16-bit word [h] at [a]. *)
Definition half_at (a h : Z) : Prop :=
  0 < a < 2 ^ 64 /\ 0 <= h < 2 ^ 16 /\ Z.land a (vabits_mask c) = a /\
  run a 2 = Some (le_bytes 2 h).
(** It has the words [hs] below [a], the first one nearest. *)
Fixpoint halves_below (a : Z) (hs : list Z) : Prop :=
  match hs with
  | [] => True
  | h :: hs => half_at (a - 2) h /\ halves_below (a - 2) hs
  end.
Definition half_here (a : Z) : Prop := exists h, half_at a h.

Lemma half_load r h :
  ref_ok c r -> half_at (vaddr r) h ->
  exists r', value16Of c r 0 = Ok (r', h) /\ vaddr r' = vaddr r /\ ref_ok c r'.
Proof.
  intros Hr (Ha & Hh & Hm & Hrun).
  destruct (load_field c run r 0 2 2 (le_bytes 2 h)) as (r' & Hl & Hv & Hr' & _);
    try done; try lia; [by rewrite Hm|].
  exists r'. split; [|done]. unfold value16Of. rewrite Hl. do 2 f_equal.
  change (take (Z.to_nat 2) _) with (le_bytes 2 h). rewrite le_value_bytes. apply Z.mod_small. lia.
Qed.

Lemma pre_half_ok pre h :
  ref_ok c pre -> half_here (vaddr pre) -> half_at (vaddr pre - 2) h ->
  exists pre', pre_half c pre = Ok (pre', h) /\ ref_ok c pre' /\ vaddr pre' = vaddr pre - 2.
Proof.
  intros Hr (f & Ha & _ & Hm & Hrun) Hh. unfold pre_half.
  destruct (present_move pre (-2) (take 1 (le_bytes 2 f)) Hr) as (p & Hp & Hv & Hpr); [lia| |].
  { rewrite Hm. pose proof (present_part (vaddr pre) 2 0 1 _ Hrun) as E.
    rewrite Z.add_0_r, drop_0 in E. apply E; lia. }
  pose proof Hh as (Ha' & _). rewrite Hp. cbn [rbind].
  assert (vaddr p = vaddr pre - 2) as Hv' by (rewrite Hv; apply wrap_small; lia).
  destruct (half_load p h Hpr) as (r' & Hl & Hvr & Hr'); [by rewrite Hv'|].
  exists r'. rewrite Hl. split_and!; [done..|]. congruence.
Qed.

(** A flag of the item says whether the rest of its size is there. *)
Lemma flag_bit i k : 0 <= k < 5 ->
  nz (Z.land (item_flags i) (Z.shiftl 1 k)) =
    default false ([has_rest (c_regs i); has_rest (c_ins i); has_rest (c_outs i);
      has_rest (c_tries i); has_rest (c_insns i)] !! Z.to_nat k).
Proof.
  intros Hk. unfold nz.
  assert (Z.land (item_flags i) (Z.shiftl 1 k) =? 0 = negb (Z.testbit (item_flags i) k)) as ->.
  { destruct (Z.testbit (item_flags i) k) eqn:E; cbn.
    - apply Z.eqb_neq. intros H. apply (f_equal (fun z => Z.testbit z k)) in H.
      rewrite Z.land_spec, E, Z.shiftl_spec, Z.sub_diag, Z.bits_0 in H by lia. discriminate H.
    - apply Z.eqb_eq, Z.bits_inj. intros j. rewrite Z.bits_0, Z.land_spec, Z.shiftl_1_l.
      rewrite Z.pow2_bits_eqb by lia. destruct (Z.eqb_spec k j) as [<-|]; [by rewrite E|].
      apply andb_false_r. }
  rewrite negb_involutive, Z.testbit_eqb by lia. unfold item_flags.
  assert (k = 0 \/ k = 1 \/ k = 2 \/ k = 3 \/ k = 4) as Hc by lia.
  destruct Hc as [-> | [-> | [-> | [-> | ->]]]]; cbn;
  destruct (has_rest (c_regs i)), (has_rest (c_ins i)), (has_rest (c_outs i)),
    (has_rest (c_tries i)), (has_rest (c_insns i)); cbn; bool_cases; reflexivity || lia.
Qed.

(** The four sizes of 16 bits. *)
Lemma pre_field_ok flags flag pre p hs :
  packed_ok 4 16 p -> nz (Z.land flags flag) = has_rest p ->
  ref_ok c pre -> half_here (vaddr pre) -> halves_below (vaddr pre) (rest_words p ++ hs) ->
  exists pre', pre_field c flags flag pre (small p) = Ok (pre', unpack p) /\
    ref_ok c pre' /\ half_here (vaddr pre') /\ halves_below (vaddr pre') hs.
Proof.
  unfold packed_ok, unpack, pre_field, has_rest, rest_words. destruct p as [s [r|]]; cbn.
  - intros (Hs & Hr & Hu) -> Hpre Hh [Hb Hbs].
    destruct (pre_half_ok pre r Hpre Hh Hb) as (pre' & -> & Hp & Hv). cbn.
    specialize (Hr r eq_refl). exists pre'. rewrite Hv, wrap_small by lia.
    split_and!; [done..|by exists r|done].
  - intros (Hs & _ & Hu) -> Hpre Hh Hb. exists pre. by rewrite Z.add_0_r.
Qed.

(** The number of instructions, of 32 bits. *)
Lemma pre_insns_ok flags pre p hs :
  packed_ok 11 32 p -> nz (Z.land flags kFlagPreHeaderInsnsSize) = has_rest p ->
  ref_ok c pre -> half_here (vaddr pre) ->
  halves_below (vaddr pre)
    (match rest p with Some r => [r mod 2 ^ 16; r / 2 ^ 16] | None => [] end ++ hs) ->
  exists pre', pre_insns c flags pre (small p) = Ok (pre', unpack p) /\
    ref_ok c pre' /\ half_here (vaddr pre') /\ halves_below (vaddr pre') hs.
Proof.
  unfold packed_ok, unpack, pre_insns, has_rest. destruct p as [s [r|]]; cbn [rest small app default id].
  - intros (Hs & Hr & Hu) -> Hpre Hh [Hb [Hb2 Hbs]]. specialize (Hr r eq_refl).
    destruct (pre_half_ok pre _ Hpre Hh Hb) as (p1 & -> & Hp1 & Hv1). cbn [rbind].
    rewrite <- Hv1 in Hb2.
    destruct (pre_half_ok p1 (r / 2 ^ 16) Hp1) as (p2 & -> & Hp2 & Hv2); [by exists (r mod 2 ^ 16); rewrite Hv1|done|].
    cbn [rbind]. exists p2. split_and!; [|done| |].
    + do 2 f_equal. unfold shl. rewrite Z.shiftl_mul_pow2 by lia.
      change (2 ^ 16) with 65536. change (2 ^ 32) with 4294967296 in *.
      change (2 ^ 11) with 2048 in *. unfold wrap. change (2 ^ 32) with 4294967296. lia.
    + exists (r / 2 ^ 16). by rewrite Hv2.
    + by rewrite Hv2, Hv1.
  - intros (Hs & _ & Hu) -> Hpre Hh Hb. exists pre. by rewrite Z.add_0_r.
Qed.

(** The target has the encoding of [i]: the two words of the item at [a], and the others
    below it. *)
Definition encoded_at (a : Z) (i : compact_item) : Prop :=
  0 < a < 2 ^ 64 /\ Z.land a (vabits_mask c) = a /\
  run a 4 = Some (le_bytes 2 (item_fields i) ++ le_bytes 2 (item_flags i)) /\
  halves_below a (item_words i).

Lemma item_range i :
  compact_ok i -> 0 <= item_fields i < 2 ^ 16 /\ 0 <= item_flags i < 2 ^ 16.
Proof.
  unfold compact_ok, packed_ok, item_fields, item_flags.
  intros ([H1 _] & [H2 _] & [H3 _] & [H4 _] & [H5 _] & _).
  destruct (has_rest (c_regs i)), (has_rest (c_ins i)), (has_rest (c_outs i)),
    (has_rest (c_tries i)), (has_rest (c_insns i)); cbn in *; lia.
Qed.

Lemma item_word item i k h :
  encoded_at (vaddr item) i -> ref_ok c item -> 0 <= h < 2 ^ 16 ->
  (k = 0 /\ h = item_fields i \/ k = 2 /\ h = item_flags i) -> word c item k 2 = Ok h.
Proof.
  intros (Ha & Hm & Hrun & _) Hr Hh Hk. unfold word.
  destruct (load_field c run item k 2 4
    (le_bytes 2 (item_fields i) ++ le_bytes 2 (item_flags i)) Hr) as (r' & -> & _);
    try lia; [by rewrite Hm|].
  cbn [rbind snd]. f_equal.
  replace (take _ _) with (le_bytes 2 h) by (destruct Hk as [[-> ->]|[-> ->]]; reflexivity).
  rewrite le_value_bytes. apply Z.mod_small. lia.
Qed.

Lemma small_nibbles i : compact_ok i ->
  Z.land (Z.shiftr (item_fields i) kRegistersSizeShift) 0xF = small (c_regs i) /\
  Z.land (Z.shiftr (item_fields i) kInsSizeShift) 0xF = small (c_ins i) /\
  Z.land (Z.shiftr (item_fields i) kOutsSizeShift) 0xF = small (c_outs i) /\
  Z.land (Z.shiftr (item_fields i) kTriesSizeSizeShift) 0xF = small (c_tries i) /\
  Z.shiftr (item_flags i) kInsnsSizeShift = small (c_insns i).
Proof.
  unfold compact_ok, packed_ok, item_fields, item_flags.
  intros ([H1 _] & [H2 _] & [H3 _] & [H4 _] & [H5 _] & _).
  change 0xF with (Z.ones 4).
  rewrite !Z.land_ones, !Z.shiftr_div_pow2 by (vm_compute; congruence).
  change (2 ^ kRegistersSizeShift) with 4096. change (2 ^ kInsSizeShift) with 256.
  change (2 ^ kOutsSizeShift) with 16. change (2 ^ kTriesSizeSizeShift) with 1.
  change (2 ^ kInsnsSizeShift) with 32. change (2 ^ 12) with 4096. change (2 ^ 8) with 256.
  change (2 ^ 5) with 32. change (2 ^ 4) with 16 in *. change (2 ^ 3) with 8.
  change (2 ^ 2) with 4. change (2 ^ 11) with 2048 in *.
  split_and!; destruct (has_rest (c_regs i)), (has_rest (c_ins i)), (has_rest (c_outs i)),
    (has_rest (c_tries i)), (has_rest (c_insns i)); cbn [Z.b2z]; lia.
Qed.

(** Without any flag every size is its small part. *)
Lemma no_flags i : nz (Z.land (item_flags i) kFlagPreHeaderCombined) = false ->
  Forall (fun p => rest p = None) [c_insns i; c_regs i; c_ins i; c_outs i; c_tries i].
Proof.
  unfold nz. intros H%negb_false_iff%Z.eqb_eq. change kFlagPreHeaderCombined with (Z.ones 5) in H.
  rewrite Z.land_ones in H by lia. unfold item_flags in H.
  change (2 ^ 5) with 32 in H. change (2 ^ 4) with 16 in H. change (2 ^ 3) with 8 in H.
  change (2 ^ 2) with 4 in H.
  repeat apply Forall_cons; try apply Forall_nil; try done;
  unfold has_rest in H; destruct (rest (c_regs i)), (rest (c_ins i)), (rest (c_outs i)),
    (rest (c_tries i)), (rest (c_insns i)); cbn [Z.b2z] in H; reflexivity || lia.
Qed.

(** [CompactDexFile::CodeItem::DecodeFields] reads back the encoding of every code item,
    whichever sizes have a rest in the words before the item: the number of registers (the
    arguments included), of arguments, of outgoing arguments, of tries and of instructions. *)
Theorem Compact_DecodeFields_roundtrip (item : MemoryRef) (i : compact_item)
    (Hr : ref_ok c item) (Hi : compact_ok i) (He : encoded_at (vaddr item) i) :
  Compact_DecodeFields c item = Ok {|
    num_regs_ := unpack (c_regs i) + unpack (c_ins i); out_regs_ := unpack (c_outs i);
    insns_count_ := unpack (c_insns i); ins_size_ := unpack (c_ins i);
    tries_size_ := unpack (c_tries i); code_offset_ := 4 |}.
Proof.
  destruct (item_range i Hi) as [Hf Hg]. destruct (small_nibbles i Hi) as (N1 & N2 & N3 & N4 & N5).
  pose proof Hi as (Hp1 & Hp2 & Hp3 & Hp4 & Hp5 & Hsum).
  unfold Compact_DecodeFields. cbn [insns_count_and_flags_ cci_fields_ CompactDexFile_CodeItem_Init].
  rewrite (item_word item i 2 _ He Hr Hg), (item_word item i 0 _ He Hr Hf) by auto.
  cbn [rbind]. rewrite N1, N2, N3, N4, N5.
  assert (Hregs : u16 (unpack (c_regs i) + unpack (c_ins i)) = unpack (c_regs i) + unpack (c_ins i)).
  { apply wrap_small. split; [|done]. clear N1 N2 N3 N4 N5. unfold packed_ok, unpack in *.
    destruct Hp2 as (? & Ha & _), Hp3 as (? & Hb & _). destruct (rest (c_regs i)) as [x|], (rest (c_ins i)) as [y|];
      cbn; try specialize (Ha _ eq_refl); try specialize (Hb _ eq_refl); lia. }
  destruct (nz _) eqn:Ef.
  - pose proof He as (Ha & Hm & Hrun & Hbelow).
    set (pre := ref_from c (vaddr item) item).
    assert (Hv : vaddr pre = vaddr item) by apply ref_from_vaddr.
    assert (Hpre : ref_ok c pre) by (eapply ref_from_ok; [done..|lia]).
    assert (Hh : half_here (vaddr pre)).
    { exists (item_fields i). rewrite Hv. split_and!; try done; try lia.
      pose proof (present_part _ _ 0 2 _ Hrun) as E. rewrite Z.add_0_r, drop_0 in E.
      rewrite E by lia. reflexivity. }
    rewrite <- Hv in Hbelow. unfold item_words in Hbelow.
    destruct (pre_insns_ok _ pre _ _ Hp1 (flag_bit i 4 ltac:(lia)) Hpre Hh Hbelow)
      as (p1 & -> & Q1 & Q2 & Q3). cbn [rbind].
    unfold kFlagPreHeaderRegistersSize, kFlagPreHeaderInsSize, kFlagPreHeaderOutsSize,
      kFlagPreHeaderTriesSize.
    destruct (pre_field_ok _ _ p1 _ _ Hp2 (flag_bit i 0 ltac:(lia)) Q1 Q2 Q3)
      as (p2 & -> & R1 & R2 & R3). cbn [rbind].
    destruct (pre_field_ok _ _ p2 _ _ Hp3 (flag_bit i 1 ltac:(lia)) R1 R2 R3)
      as (p3 & -> & S1 & S2 & S3). cbn [rbind].
    destruct (pre_field_ok _ _ p3 _ _ Hp4 (flag_bit i 2 ltac:(lia)) S1 S2 S3)
      as (p4 & -> & T1 & T2 & T3). cbn [rbind].
    rewrite <- (app_nil_r (rest_words _)) in T3.
    destruct (pre_field_ok _ _ p4 _ _ Hp5 (flag_bit i 3 ltac:(lia)) T1 T2 T3)
      as (p5 & -> & _). cbn [rbind]. by rewrite Hregs.
  - apply no_flags in Ef. rewrite !Forall_cons_iff in Ef. destruct Ef as (E1 & E2 & E3 & E4 & E5 & _).
    cbn [rbind]. rewrite <- Hregs. unfold unpack. rewrite E1, E2, E3, E4, E5. cbn.
    by rewrite !Z.add_0_r.
Qed.
End Compact.

(** A code item at 0x1008 with 300 registers, 17 of them arguments, and 70000 instructions:
    four words before the item. *)
Definition demo_item : compact_item :=
  {| c_insns := {| small := 0; rest := Some 70000 |}; c_regs := {| small := 0; rest := Some 283 |};
     c_ins := {| small := 1; rest := Some 16 |}; c_outs := {| small := 5; rest := None |};
     c_tries := {| small := 2; rest := None |} |}.
Definition demo_code : list Z :=
  concat (map (le_bytes 2) (rev (item_words demo_item)))
  ++ le_bytes 2 (item_fields demo_item) ++ le_bytes 2 (item_flags demo_item).
Definition code_core : CoreApi := one_core 0x1000 demo_code.
#[local] Instance code_presents : Presents code_core (target_run code_core).
Proof. apply one_presents; [done|cbn; lia]. Qed.

Lemma Compact_DecodeFields_roundtrip_witness :
  Compact_DecodeFields code_core (ref_at 0x1008) = Ok {|
    num_regs_ := 300; out_regs_ := 5; insns_count_ := 70000; ins_size_ := 17;
    tries_size_ := 2; code_offset_ := 4 |}.
Proof.
  apply (Compact_DecodeFields_roundtrip code_core (target_run code_core) (ref_at 0x1008) demo_item).
  - by split.
  - unfold compact_ok, packed_ok, demo_item. cbn.
    split_and!; try done; try lia; intros ? [= <-]; lia.
  - split_and!; vm_compute; repeat split; reflexivity || congruence.
Defined.
