(* ===== verification/Dexdump.v ===== *)
(** Printing of dex instructions: android/art/dexdump/dexdump.{h,cpp} and
    android/dalvik_vm_bytecode.h.

    The functions append to a string; here they return what they append.  An instruction is
    a sequence of 16-bit code units, whose first has the opcode in its low byte.  [light] is
    the setting of the logger for colours. *)

From Stdlib Require Import ZArith Lia Bool String.
From stdpp Require Import base list numbers.
From S2P Require Import Prelude Words Host Blocks Notes CoreApi Segments AddressSpace MemRef Elf.
From S2P Require Import Text Mirrors Dex.
Open Scope Z_scope.

(** * Opcodes *)

Module DEXOP.
Inductive dexop :=
  | NOP | MOVE | MOVE_FROM16 | MOVE_16 | MOVE_WIDE | MOVE_WIDE_FROM16 | MOVE_WIDE_16 | MOVE_OBJECT
  | MOVE_OBJECT_FROM16 | MOVE_OBJECT_16 | MOVE_RESULT | MOVE_RESULT_WIDE | MOVE_RESULT_OBJECT
  | MOVE_EXCEPTION | RETURN_VOID | RETURN | RETURN_WIDE | RETURN_OBJECT | CONST_4 | CONST_16
  | CONST | CONST_HIGH16 | CONST_WIDE_16 | CONST_WIDE_32 | CONST_WIDE | CONST_WIDE_HIGH16
  | CONST_STRING | CONST_STRING_JUMBO | CONST_CLASS | MONITOR_ENTER | MONITOR_EXIT | CHECK_CAST
  | INSTANCE_OF | ARRAY_LENGTH | NEW_INSTANCE | NEW_ARRAY | FILLED_NEW_ARRAY
  | FILLED_NEW_ARRAY_RANGE | FILL_ARRAY_DATA | THROW | GOTO | GOTO_16 | GOTO_32 | PACKED_SWITCH
  | SPARSE_SWITCH | CMPL_FLOAT | CMPG_FLOAT | CMPL_DOUBLE | CMPG_DOUBLE | CMP_LONG | IF_EQ | IF_NE
  | IF_LT | IF_GE | IF_GT | IF_LE | IF_EQZ | IF_NEZ | IF_LTZ | IF_GEZ | IF_GTZ | IF_LEZ | AGET
  | AGET_WIDE | AGET_OBJECT | AGET_BOOLEAN | AGET_BYTE | AGET_CHAR | AGET_SHORT | APUT | APUT_WIDE
  | APUT_OBJECT | APUT_BOOLEAN | APUT_BYTE | APUT_CHAR | APUT_SHORT | IGET | IGET_WIDE
  | IGET_OBJECT | IGET_BOOLEAN | IGET_BYTE | IGET_CHAR | IGET_SHORT | IPUT | IPUT_WIDE
  | IPUT_OBJECT | IPUT_BOOLEAN | IPUT_BYTE | IPUT_CHAR | IPUT_SHORT | SGET | SGET_WIDE
  | SGET_OBJECT | SGET_BOOLEAN | SGET_BYTE | SGET_CHAR | SGET_SHORT | SPUT | SPUT_WIDE
  | SPUT_OBJECT | SPUT_BOOLEAN | SPUT_BYTE | SPUT_CHAR | SPUT_SHORT | INVOKE_VIRTUAL
  | INVOKE_SUPER | INVOKE_DIRECT | INVOKE_STATIC | INVOKE_INTERFACE | RETURN_VOID_NO_BARRIER
  | INVOKE_VIRTUAL_RANGE | INVOKE_SUPER_RANGE | INVOKE_DIRECT_RANGE | INVOKE_STATIC_RANGE
  | INVOKE_INTERFACE_RANGE | NEG_INT | NOT_INT | NEG_LONG | NOT_LONG | NEG_FLOAT | NEG_DOUBLE
  | INT_TO_LONG | INT_TO_FLOAT | INT_TO_DOUBLE | LONG_TO_INT | LONG_TO_FLOAT | LONG_TO_DOUBLE
  | FLOAT_TO_INT | FLOAT_TO_LONG | FLOAT_TO_DOUBLE | DOUBLE_TO_INT | DOUBLE_TO_LONG
  | DOUBLE_TO_FLOAT | INT_TO_BYTE | INT_TO_CHAR | INT_TO_SHORT | ADD_INT | SUB_INT | MUL_INT
  | DIV_INT | REM_INT | AND_INT | OR_INT | XOR_INT | SHL_INT | SHR_INT | USHR_INT | ADD_LONG
  | SUB_LONG | MUL_LONG | DIV_LONG | REM_LONG | AND_LONG | OR_LONG | XOR_LONG | SHL_LONG
  | SHR_LONG | USHR_LONG | ADD_FLOAT | SUB_FLOAT | MUL_FLOAT | DIV_FLOAT | REM_FLOAT | ADD_DOUBLE
  | SUB_DOUBLE | MUL_DOUBLE | DIV_DOUBLE | REM_DOUBLE | ADD_INT_2ADDR | SUB_INT_2ADDR
  | MUL_INT_2ADDR | DIV_INT_2ADDR | REM_INT_2ADDR | AND_INT_2ADDR | OR_INT_2ADDR | XOR_INT_2ADDR
  | SHL_INT_2ADDR | SHR_INT_2ADDR | USHR_INT_2ADDR | ADD_LONG_2ADDR | SUB_LONG_2ADDR
  | MUL_LONG_2ADDR | DIV_LONG_2ADDR | REM_LONG_2ADDR | AND_LONG_2ADDR | OR_LONG_2ADDR
  | XOR_LONG_2ADDR | SHL_LONG_2ADDR | SHR_LONG_2ADDR | USHR_LONG_2ADDR | ADD_FLOAT_2ADDR
  | SUB_FLOAT_2ADDR | MUL_FLOAT_2ADDR | DIV_FLOAT_2ADDR | REM_FLOAT_2ADDR | ADD_DOUBLE_2ADDR
  | SUB_DOUBLE_2ADDR | MUL_DOUBLE_2ADDR | DIV_DOUBLE_2ADDR | REM_DOUBLE_2ADDR | ADD_INT_LIT16
  | RSUB_INT_LIT16 | MUL_INT_LIT16 | DIV_INT_LIT16 | REM_INT_LIT16 | AND_INT_LIT16 | OR_INT_LIT16
  | XOR_INT_LIT16 | ADD_INT_LIT8 | RSUB_INT_LIT8 | MUL_INT_LIT8 | DIV_INT_LIT8 | REM_INT_LIT8
  | AND_INT_LIT8 | OR_INT_LIT8 | XOR_INT_LIT8 | SHL_INT_LIT8 | SHR_INT_LIT8 | USHR_INT_LIT8
  | IGET_QUICK | IGET_WIDE_QUICK | IGET_OBJECT_QUICK | IPUT_QUICK | IPUT_WIDE_QUICK
  | IPUT_OBJECT_QUICK | INVOKE_VIRTUAL_QUICK | INVOKE_VIRTUAL_QUICK_RANGE | IPUT_BOOLEAN_QUICK
  | IPUT_BYTE_QUICK | IPUT_CHAR_QUICK | IPUT_SHORT_QUICK | IGET_BOOLEAN_QUICK | IGET_BYTE_QUICK
  | IGET_CHAR_QUICK | IGET_SHORT_QUICK | INVOKE_POLYMORPHIC | INVOKE_POLYMORPHIC_RANGE
  | INVOKE_CUSTOM | INVOKE_CUSTOM_RANGE | CONST_METHOD_HANDLE | CONST_METHOD_TYPE.
#[export] Instance dexop_eq : EqDecision dexop.
Proof. solve_decision. Defined.
Definition opcode (op : dexop) : Z :=
  match op with
  | NOP => 0x00 | MOVE => 0x01 | MOVE_FROM16 => 0x02 | MOVE_16 => 0x03 | MOVE_WIDE => 0x04
  | MOVE_WIDE_FROM16 => 0x05 | MOVE_WIDE_16 => 0x06 | MOVE_OBJECT => 0x07
  | MOVE_OBJECT_FROM16 => 0x08 | MOVE_OBJECT_16 => 0x09 | MOVE_RESULT => 0x0A
  | MOVE_RESULT_WIDE => 0x0B | MOVE_RESULT_OBJECT => 0x0C | MOVE_EXCEPTION => 0x0D
  | RETURN_VOID => 0x0E | RETURN => 0x0F | RETURN_WIDE => 0x10 | RETURN_OBJECT => 0x11
  | CONST_4 => 0x12 | CONST_16 => 0x13 | CONST => 0x14 | CONST_HIGH16 => 0x15
  | CONST_WIDE_16 => 0x16 | CONST_WIDE_32 => 0x17 | CONST_WIDE => 0x18 | CONST_WIDE_HIGH16 => 0x19
  | CONST_STRING => 0x1A | CONST_STRING_JUMBO => 0x1B | CONST_CLASS => 0x1C
  | MONITOR_ENTER => 0x1D | MONITOR_EXIT => 0x1E | CHECK_CAST => 0x1F | INSTANCE_OF => 0x20
  | ARRAY_LENGTH => 0x21 | NEW_INSTANCE => 0x22 | NEW_ARRAY => 0x23 | FILLED_NEW_ARRAY => 0x24
  | FILLED_NEW_ARRAY_RANGE => 0x25 | FILL_ARRAY_DATA => 0x26 | THROW => 0x27 | GOTO => 0x28
  | GOTO_16 => 0x29 | GOTO_32 => 0x2A | PACKED_SWITCH => 0x2B | SPARSE_SWITCH => 0x2C
  | CMPL_FLOAT => 0x2D | CMPG_FLOAT => 0x2E | CMPL_DOUBLE => 0x2F | CMPG_DOUBLE => 0x30
  | CMP_LONG => 0x31 | IF_EQ => 0x32 | IF_NE => 0x33 | IF_LT => 0x34 | IF_GE => 0x35
  | IF_GT => 0x36 | IF_LE => 0x37 | IF_EQZ => 0x38 | IF_NEZ => 0x39 | IF_LTZ => 0x3A
  | IF_GEZ => 0x3B | IF_GTZ => 0x3C | IF_LEZ => 0x3D | AGET => 0x44 | AGET_WIDE => 0x45
  | AGET_OBJECT => 0x46 | AGET_BOOLEAN => 0x47 | AGET_BYTE => 0x48 | AGET_CHAR => 0x49
  | AGET_SHORT => 0x4A | APUT => 0x4B | APUT_WIDE => 0x4C | APUT_OBJECT => 0x4D
  | APUT_BOOLEAN => 0x4E | APUT_BYTE => 0x4F | APUT_CHAR => 0x50 | APUT_SHORT => 0x51
  | IGET => 0x52 | IGET_WIDE => 0x53 | IGET_OBJECT => 0x54 | IGET_BOOLEAN => 0x55
  | IGET_BYTE => 0x56 | IGET_CHAR => 0x57 | IGET_SHORT => 0x58 | IPUT => 0x59 | IPUT_WIDE => 0x5A
  | IPUT_OBJECT => 0x5B | IPUT_BOOLEAN => 0x5C | IPUT_BYTE => 0x5D | IPUT_CHAR => 0x5E
  | IPUT_SHORT => 0x5F | SGET => 0x60 | SGET_WIDE => 0x61 | SGET_OBJECT => 0x62
  | SGET_BOOLEAN => 0x63 | SGET_BYTE => 0x64 | SGET_CHAR => 0x65 | SGET_SHORT => 0x66
  | SPUT => 0x67 | SPUT_WIDE => 0x68 | SPUT_OBJECT => 0x69 | SPUT_BOOLEAN => 0x6A
  | SPUT_BYTE => 0x6B | SPUT_CHAR => 0x6C | SPUT_SHORT => 0x6D | INVOKE_VIRTUAL => 0x6E
  | INVOKE_SUPER => 0x6F | INVOKE_DIRECT => 0x70 | INVOKE_STATIC => 0x71
  | INVOKE_INTERFACE => 0x72 | RETURN_VOID_NO_BARRIER => 0x73 | INVOKE_VIRTUAL_RANGE => 0x74
  | INVOKE_SUPER_RANGE => 0x75 | INVOKE_DIRECT_RANGE => 0x76 | INVOKE_STATIC_RANGE => 0x77
  | INVOKE_INTERFACE_RANGE => 0x78 | NEG_INT => 0x7B | NOT_INT => 0x7C | NEG_LONG => 0x7D
  | NOT_LONG => 0x7E | NEG_FLOAT => 0x7F | NEG_DOUBLE => 0x80 | INT_TO_LONG => 0x81
  | INT_TO_FLOAT => 0x82 | INT_TO_DOUBLE => 0x83 | LONG_TO_INT => 0x84 | LONG_TO_FLOAT => 0x85
  | LONG_TO_DOUBLE => 0x86 | FLOAT_TO_INT => 0x87 | FLOAT_TO_LONG => 0x88
  | FLOAT_TO_DOUBLE => 0x89 | DOUBLE_TO_INT => 0x8A | DOUBLE_TO_LONG => 0x8B
  | DOUBLE_TO_FLOAT => 0x8C | INT_TO_BYTE => 0x8D | INT_TO_CHAR => 0x8E | INT_TO_SHORT => 0x8F
  | ADD_INT => 0x90 | SUB_INT => 0x91 | MUL_INT => 0x92 | DIV_INT => 0x93 | REM_INT => 0x94
  | AND_INT => 0x95 | OR_INT => 0x96 | XOR_INT => 0x97 | SHL_INT => 0x98 | SHR_INT => 0x99
  | USHR_INT => 0x9A | ADD_LONG => 0x9B | SUB_LONG => 0x9C | MUL_LONG => 0x9D | DIV_LONG => 0x9E
  | REM_LONG => 0x9F | AND_LONG => 0xA0 | OR_LONG => 0xA1 | XOR_LONG => 0xA2 | SHL_LONG => 0xA3
  | SHR_LONG => 0xA4 | USHR_LONG => 0xA5 | ADD_FLOAT => 0xA6 | SUB_FLOAT => 0xA7
  | MUL_FLOAT => 0xA8 | DIV_FLOAT => 0xA9 | REM_FLOAT => 0xAA | ADD_DOUBLE => 0xAB
  | SUB_DOUBLE => 0xAC | MUL_DOUBLE => 0xAD | DIV_DOUBLE => 0xAE | REM_DOUBLE => 0xAF
  | ADD_INT_2ADDR => 0xB0 | SUB_INT_2ADDR => 0xB1 | MUL_INT_2ADDR => 0xB2 | DIV_INT_2ADDR => 0xB3
  | REM_INT_2ADDR => 0xB4 | AND_INT_2ADDR => 0xB5 | OR_INT_2ADDR => 0xB6 | XOR_INT_2ADDR => 0xB7
  | SHL_INT_2ADDR => 0xB8 | SHR_INT_2ADDR => 0xB9 | USHR_INT_2ADDR => 0xBA
  | ADD_LONG_2ADDR => 0xBB | SUB_LONG_2ADDR => 0xBC | MUL_LONG_2ADDR => 0xBD
  | DIV_LONG_2ADDR => 0xBE | REM_LONG_2ADDR => 0xBF | AND_LONG_2ADDR => 0xC0
  | OR_LONG_2ADDR => 0xC1 | XOR_LONG_2ADDR => 0xC2 | SHL_LONG_2ADDR => 0xC3
  | SHR_LONG_2ADDR => 0xC4 | USHR_LONG_2ADDR => 0xC5 | ADD_FLOAT_2ADDR => 0xC6
  | SUB_FLOAT_2ADDR => 0xC7 | MUL_FLOAT_2ADDR => 0xC8 | DIV_FLOAT_2ADDR => 0xC9
  | REM_FLOAT_2ADDR => 0xCA | ADD_DOUBLE_2ADDR => 0xCB | SUB_DOUBLE_2ADDR => 0xCC
  | MUL_DOUBLE_2ADDR => 0xCD | DIV_DOUBLE_2ADDR => 0xCE | REM_DOUBLE_2ADDR => 0xCF
  | ADD_INT_LIT16 => 0xD0 | RSUB_INT_LIT16 => 0xD1 | MUL_INT_LIT16 => 0xD2 | DIV_INT_LIT16 => 0xD3
  | REM_INT_LIT16 => 0xD4 | AND_INT_LIT16 => 0xD5 | OR_INT_LIT16 => 0xD6 | XOR_INT_LIT16 => 0xD7
  | ADD_INT_LIT8 => 0xD8 | RSUB_INT_LIT8 => 0xD9 | MUL_INT_LIT8 => 0xDA | DIV_INT_LIT8 => 0xDB
  | REM_INT_LIT8 => 0xDC | AND_INT_LIT8 => 0xDD | OR_INT_LIT8 => 0xDE | XOR_INT_LIT8 => 0xDF
  | SHL_INT_LIT8 => 0xE0 | SHR_INT_LIT8 => 0xE1 | USHR_INT_LIT8 => 0xE2 | IGET_QUICK => 0xE3
  | IGET_WIDE_QUICK => 0xE4 | IGET_OBJECT_QUICK => 0xE5 | IPUT_QUICK => 0xE6
  | IPUT_WIDE_QUICK => 0xE7 | IPUT_OBJECT_QUICK => 0xE8 | INVOKE_VIRTUAL_QUICK => 0xE9
  | INVOKE_VIRTUAL_QUICK_RANGE => 0xEA | IPUT_BOOLEAN_QUICK => 0xEB | IPUT_BYTE_QUICK => 0xEC
  | IPUT_CHAR_QUICK => 0xED | IPUT_SHORT_QUICK => 0xEE | IGET_BOOLEAN_QUICK => 0xEF
  | IGET_BYTE_QUICK => 0xF0 | IGET_CHAR_QUICK => 0xF1 | IGET_SHORT_QUICK => 0xF2
  | INVOKE_POLYMORPHIC => 0xFA | INVOKE_POLYMORPHIC_RANGE => 0xFB | INVOKE_CUSTOM => 0xFC
  | INVOKE_CUSTOM_RANGE => 0xFD | CONST_METHOD_HANDLE => 0xFE | CONST_METHOD_TYPE => 0xFF
  end.
Definition dexops : list dexop :=
  [NOP; MOVE; MOVE_FROM16; MOVE_16; MOVE_WIDE; MOVE_WIDE_FROM16; MOVE_WIDE_16; MOVE_OBJECT;
   MOVE_OBJECT_FROM16; MOVE_OBJECT_16; MOVE_RESULT; MOVE_RESULT_WIDE; MOVE_RESULT_OBJECT;
   MOVE_EXCEPTION; RETURN_VOID; RETURN; RETURN_WIDE; RETURN_OBJECT; CONST_4; CONST_16; CONST;
   CONST_HIGH16; CONST_WIDE_16; CONST_WIDE_32; CONST_WIDE; CONST_WIDE_HIGH16; CONST_STRING;
   CONST_STRING_JUMBO; CONST_CLASS; MONITOR_ENTER; MONITOR_EXIT; CHECK_CAST; INSTANCE_OF;
   ARRAY_LENGTH; NEW_INSTANCE; NEW_ARRAY; FILLED_NEW_ARRAY; FILLED_NEW_ARRAY_RANGE;
   FILL_ARRAY_DATA; THROW; GOTO; GOTO_16; GOTO_32; PACKED_SWITCH; SPARSE_SWITCH; CMPL_FLOAT;
   CMPG_FLOAT; CMPL_DOUBLE; CMPG_DOUBLE; CMP_LONG; IF_EQ; IF_NE; IF_LT; IF_GE; IF_GT; IF_LE;
   IF_EQZ; IF_NEZ; IF_LTZ; IF_GEZ; IF_GTZ; IF_LEZ; AGET; AGET_WIDE; AGET_OBJECT; AGET_BOOLEAN;
   AGET_BYTE; AGET_CHAR; AGET_SHORT; APUT; APUT_WIDE; APUT_OBJECT; APUT_BOOLEAN; APUT_BYTE;
   APUT_CHAR; APUT_SHORT; IGET; IGET_WIDE; IGET_OBJECT; IGET_BOOLEAN; IGET_BYTE; IGET_CHAR;
   IGET_SHORT; IPUT; IPUT_WIDE; IPUT_OBJECT; IPUT_BOOLEAN; IPUT_BYTE; IPUT_CHAR; IPUT_SHORT;
   SGET; SGET_WIDE; SGET_OBJECT; SGET_BOOLEAN; SGET_BYTE; SGET_CHAR; SGET_SHORT; SPUT;
   SPUT_WIDE; SPUT_OBJECT; SPUT_BOOLEAN; SPUT_BYTE; SPUT_CHAR; SPUT_SHORT; INVOKE_VIRTUAL;
   INVOKE_SUPER; INVOKE_DIRECT; INVOKE_STATIC; INVOKE_INTERFACE; RETURN_VOID_NO_BARRIER;
   INVOKE_VIRTUAL_RANGE; INVOKE_SUPER_RANGE; INVOKE_DIRECT_RANGE; INVOKE_STATIC_RANGE;
   INVOKE_INTERFACE_RANGE; NEG_INT; NOT_INT; NEG_LONG; NOT_LONG; NEG_FLOAT; NEG_DOUBLE;
   INT_TO_LONG; INT_TO_FLOAT; INT_TO_DOUBLE; LONG_TO_INT; LONG_TO_FLOAT; LONG_TO_DOUBLE;
   FLOAT_TO_INT; FLOAT_TO_LONG; FLOAT_TO_DOUBLE; DOUBLE_TO_INT; DOUBLE_TO_LONG; DOUBLE_TO_FLOAT;
   INT_TO_BYTE; INT_TO_CHAR; INT_TO_SHORT; ADD_INT; SUB_INT; MUL_INT; DIV_INT; REM_INT; AND_INT;
   OR_INT; XOR_INT; SHL_INT; SHR_INT; USHR_INT; ADD_LONG; SUB_LONG; MUL_LONG; DIV_LONG;
   REM_LONG; AND_LONG; OR_LONG; XOR_LONG; SHL_LONG; SHR_LONG; USHR_LONG; ADD_FLOAT; SUB_FLOAT;
   MUL_FLOAT; DIV_FLOAT; REM_FLOAT; ADD_DOUBLE; SUB_DOUBLE; MUL_DOUBLE; DIV_DOUBLE; REM_DOUBLE;
   ADD_INT_2ADDR; SUB_INT_2ADDR; MUL_INT_2ADDR; DIV_INT_2ADDR; REM_INT_2ADDR; AND_INT_2ADDR;
   OR_INT_2ADDR; XOR_INT_2ADDR; SHL_INT_2ADDR; SHR_INT_2ADDR; USHR_INT_2ADDR; ADD_LONG_2ADDR;
   SUB_LONG_2ADDR; MUL_LONG_2ADDR; DIV_LONG_2ADDR; REM_LONG_2ADDR; AND_LONG_2ADDR;
   OR_LONG_2ADDR; XOR_LONG_2ADDR; SHL_LONG_2ADDR; SHR_LONG_2ADDR; USHR_LONG_2ADDR;
   ADD_FLOAT_2ADDR; SUB_FLOAT_2ADDR; MUL_FLOAT_2ADDR; DIV_FLOAT_2ADDR; REM_FLOAT_2ADDR;
   ADD_DOUBLE_2ADDR; SUB_DOUBLE_2ADDR; MUL_DOUBLE_2ADDR; DIV_DOUBLE_2ADDR; REM_DOUBLE_2ADDR;
   ADD_INT_LIT16; RSUB_INT_LIT16; MUL_INT_LIT16; DIV_INT_LIT16; REM_INT_LIT16; AND_INT_LIT16;
   OR_INT_LIT16; XOR_INT_LIT16; ADD_INT_LIT8; RSUB_INT_LIT8; MUL_INT_LIT8; DIV_INT_LIT8;
   REM_INT_LIT8; AND_INT_LIT8; OR_INT_LIT8; XOR_INT_LIT8; SHL_INT_LIT8; SHR_INT_LIT8;
   USHR_INT_LIT8; IGET_QUICK; IGET_WIDE_QUICK; IGET_OBJECT_QUICK; IPUT_QUICK; IPUT_WIDE_QUICK;
   IPUT_OBJECT_QUICK; INVOKE_VIRTUAL_QUICK; INVOKE_VIRTUAL_QUICK_RANGE; IPUT_BOOLEAN_QUICK;
   IPUT_BYTE_QUICK; IPUT_CHAR_QUICK; IPUT_SHORT_QUICK; IGET_BOOLEAN_QUICK; IGET_BYTE_QUICK;
   IGET_CHAR_QUICK; IGET_SHORT_QUICK; INVOKE_POLYMORPHIC; INVOKE_POLYMORPHIC_RANGE;
   INVOKE_CUSTOM; INVOKE_CUSTOM_RANGE; CONST_METHOD_HANDLE; CONST_METHOD_TYPE].
End DEXOP.

(** * Names *)

Definition kComKinds : list string :=
  ["cmpl-float"; "cmpg-float"; "cmpl-double"; "cmpg-double"; "cmp-long"]%string.
Definition kIfTest : list string :=
  ["if-eq"; "if-ne"; "if-lt"; "if-ge"; "if-gt"; "if-le"]%string.
Definition kIfTestz : list string :=
  ["if-eqz"; "if-nez"; "if-ltz"; "if-gez"; "if-gtz"; "if-lez"]%string.
Definition kArrayOp : list string :=
  ["aget"; "aget-wide"; "aget-object"; "aget-boolean"; "aget-byte"; "aget-char"; "aget-short";
   "aput"; "aput-wide"; "aput-object"; "aput-boolean"; "aput-byte"; "aput-char";
   "aput-short"]%string.
Definition kIInstanceOp : list string :=
  ["iget"; "iget-wide"; "iget-object"; "iget-boolean"; "iget-byte"; "iget-char"; "iget-short";
   "iput"; "iput-wide"; "iput-object"; "iput-boolean"; "iput-byte"; "iput-char";
   "iput-short"]%string.
Definition kIInstanceQuickOffsetOp : list string :=
  ["iget-quick"; "iget-wide-quick"; "iget-object-quick"; "iput-quick"; "iput-wide-quick";
   "iput-object-quick"]%string.
Definition kIInstanceQuickThingOp : list string :=
  ["iput-boolean-quick"; "iput-byte-quick"; "iput-char-quick"; "iput-short-quick";
   "iget-boolean-quick"; "iget-byte-quick"; "iget-char-quick"; "iget-short-quick"]%string.
Definition kSStaticOp : list string :=
  ["sget"; "sget-wide"; "sget-object"; "sget-boolean"; "sget-byte"; "sget-char"; "sget-short";
   "sput"; "sput-wide"; "sput-object"; "sput-boolean"; "sput-byte"; "sput-char";
   "sput-short"]%string.
Definition kInvokeKind : list string :=
  ["invoke-virtual"; "invoke-super"; "invoke-direct"; "invoke-static";
   "invoke-interface"]%string.
Definition kInvokeKindRange : list string :=
  ["invoke-virtual/range"; "invoke-super/range"; "invoke-direct/range"; "invoke-static/range";
   "invoke-interface/range"]%string.
Definition kUnOp : list string :=
  ["neg-int"; "not-int"; "neg-long"; "not-long"; "neg-float"; "neg-double"; "int-to-long";
   "int-to-float"; "int-to-double"; "long-to-int"; "long-to-float"; "long-to-double";
   "float-to-int"; "float-to-long"; "float-to-double"; "double-to-int"; "double-to-long";
   "double-to-float"; "int-to-byte"; "int-to-char"; "int-to-short"]%string.
Definition kBinOp : list string :=
  ["add-int"; "sub-int"; "mul-int"; "div-int"; "rem-int"; "and-int"; "or-int"; "xor-int";
   "shl-int"; "shr-int"; "ushr-int"; "add-long"; "sub-long"; "mul-long"; "div-long"; "rem-long";
   "and-long"; "or-long"; "xor-long"; "shl-long"; "shr-long"; "ushr-long"; "add-float";
   "sub-float"; "mul-float"; "div-float"; "rem-float"; "add-double"; "sub-double"; "mul-double";
   "div-double"; "rem-double"]%string.
Definition kBinOp2Addr : list string :=
  ["add-int/2addr"; "sub-int/2addr"; "mul-int/2addr"; "div-int/2addr"; "rem-int/2addr";
   "and-int/2addr"; "or-int/2addr"; "xor-int/2addr"; "shl-int/2addr"; "shr-int/2addr";
   "ushr-int/2addr"; "add-long/2addr"; "sub-long/2addr"; "mul-long/2addr"; "div-long/2addr";
   "rem-long/2addr"; "and-long/2addr"; "or-long/2addr"; "xor-long/2addr"; "shl-long/2addr";
   "shr-long/2addr"; "ushr-long/2addr"; "add-float/2addr"; "sub-float/2addr"; "mul-float/2addr";
   "div-float/2addr"; "rem-float/2addr"; "add-double/2addr"; "sub-double/2addr";
   "mul-double/2addr"; "div-double/2addr"; "rem-double/2addr"]%string.
Definition kBinOpLit16 : list string :=
  ["add-int/lit16"; "rsub-int/lit16"; "mul-int/lit16"; "div-int/lit16"; "rem-int/lit16";
   "and-int/lit16"; "or-int/lit16"; "xor-int/lit16"]%string.
Definition kBinOpLit8 : list string :=
  ["add-int/lit8"; "rsub-int/lit8"; "mul-int/lit8"; "div-int/lit8"; "rem-int/lit8";
   "and-int/lit8"; "or-int/lit8"; "xor-int/lit8"; "shl-int/lit8"; "shr-int/lit8";
   "ushr-int/lit8"]%string.

Import DEXOP.

(** [IsVaildDexOp(op)], and the enumerator for the value the switches test. *)
Definition IsVaildDexOp (op : Z) : bool :=
  negb (((0x3E <=? op) && (op <=? 0x43)) || ((0x79 <=? op) && (op <=? 0x7A))
        || ((0xF3 <=? op) && (op <=? 0xF9))).
Definition dex_op (op : Z) : option dexop := List.find (fun o => opcode o =? op) dexops.

(** * Operands *)

(** The digits behind the sign of a negative operand: [~((v & mask) - 1) & mask]. *)
Definition magnitude (mask v : Z) : Z := Z.land (Z.lnot (Z.land v mask - 1)) mask.
Definition negative (sign v : Z) : bool := nz (Z.land v sign).
(** A literal with the sign bit [sign], moved up by [shift] bits. *)
Definition literal (sign shift v : Z) : list Z :=
  if negative sign v then chars "#-" ++ to_string (Z.shiftl (magnitude (sign - 1) v) shift)
  else chars "#+" ++ to_string (Z.shiftl (Z.land v (sign - 1)) shift).
(** The target of a jump at [ptr]; the distance of a forward jump is kept in [w] bits. *)
Definition branch (ptr sign w v : Z) : list Z :=
  if negative sign v then
    let d := magnitude (sign - 1) v in
    ToHex (u64 (ptr - u32 (d * 2))) ++ chars " //-" ++ to_string d
  else
    let d := wrap w (Z.land v (sign - 1)) in
    ToHex (u64 (ptr + u32 (d * 2))) ++ chars " //+" ++ to_string d.
Definition vreg (v : Z) : list Z := chars "v" ++ to_string v.
Definition comma_sp : list Z := chars ", ".
(** The fields of the first code unit. *)
Definition unit_aa (code0 : Z) : Z := Z.shiftr (Z.land code0 0xFF00) 8.
Definition unit_a (code0 : Z) : Z := Z.land (unit_aa code0) 0x0F.
Definition unit_b (code0 : Z) : Z := Z.shiftr (Z.land (unit_aa code0) 0xF0) 4.
Definition low_byte (code : Z) : Z := Z.land code 0x00FF.
Definition wide (code1 code2 : Z) : Z := Z.lor (Z.shiftl (Z.land code2 0xFFFF) 16) code1.
Definition wide4 (code1 code2 code3 code4 : Z) : Z :=
  Z.lor (Z.lor (Z.lor (Z.shiftl (Z.land code4 0xFFFF) 48) (Z.shiftl (Z.land code3 0xFFFF) 32))
    (Z.shiftl (Z.land code2 0xFFFF) 16)) (Z.land code1 0xFFFF).

(** [{vC, vD, vE, vF, vG}]: the registers from [i] on of [num]. *)
Fixpoint registers (n : nat) (i num code0 code2 : Z) : list Z :=
  match n with
  | O => []
  | S n =>
      chars "v"
      ++ (if i <? 4 then to_string (Z.shiftr (Z.land code2 (Z.shiftl 0xF (i * 4))) (i * 4))
          else to_string (Z.shiftr (Z.land code0 0x0F00) 8))
      ++ (if negb (i =? num - 1) then comma_sp else []) ++ registers n (i + 1) num code0 code2
  end.
Definition arguments (code0 code2 : Z) : list Z :=
  chars "{" ++ registers (Z.to_nat (unit_b code0)) 0 (unit_b code0) code0 code2 ++ chars "}, ".
(** [{vCCCC .. vNNNN}]. *)
Definition argument_range (code0 code2 : Z) : list Z :=
  chars "{" ++ vreg code2 ++ chars " .. " ++ vreg (code2 + unit_aa code0 - 1) ++ chars "}, ".

(** The code units in a column of 25 characters. *)
Definition codec (us : list Z) : list Z :=
  flat_map (fun u => hex4 u ++ chars " ") us ++ replicate (25 - 5 * length us) 32.

(** [kXxx[op-DEXOP::BASE]]. *)
Definition op_name (names : list string) (o base : dexop) : result (list Z) :=
  let i := opcode o - opcode base in
  if i <? 0 then Fault
  else match names !! Z.to_nat i with Some s => Ok (chars s) | None => Fault end.

Section Dexdump.
Context {M : Machine} (sdk : Z) (c : CoreApi) (light : bool).

Definition code_unit (ref : MemoryRef) (off : Z) : result Z := word c ref off 2.
Definition GetDexOp (ref : MemoryRef) : result Z := word c ref 0 1.
(** What every instruction starts with: its code units and the name of the operation. *)
Definition inst (us op : list Z) : list Z :=
  LightYellow light ++ codec us ++ ColorEnd light ++ chars "| " ++ LightGreen light ++ op.
Definition inst_sp (us op : list Z) : list Z := inst us op ++ chars " ".

(** [GetDexInstSize(ref)]. *)
Definition GetDexInstSize (ref : MemoryRef) : result Z :=
  let! op := GetDexOp ref in
  if negb (IsVaildDexOp op) then Ok 0x2
  else
    match dex_op op with
    | None => Ok 0x2
    | Some o =>
      match o with
      | NOP => let! code0 := code_unit ref 0 in Ok (if nz code0 then 0xA else 0x2)
      | MOVE => Ok 0x2
      | MOVE_FROM16 => Ok 0x4
      | MOVE_16 => Ok 0x6
      | MOVE_WIDE => Ok 0x2
      | MOVE_WIDE_FROM16 => Ok 0x4
      | MOVE_WIDE_16 => Ok 0x6
      | MOVE_OBJECT => Ok 0x2
      | MOVE_OBJECT_FROM16 => Ok 0x4
      | MOVE_OBJECT_16 => Ok 0x6
      | MOVE_RESULT => Ok 0x2
      | MOVE_RESULT_WIDE => Ok 0x2
      | MOVE_RESULT_OBJECT => Ok 0x2
      | MOVE_EXCEPTION => Ok 0x2
      | RETURN_VOID => Ok 0x2
      | RETURN => Ok 0x2
      | RETURN_WIDE => Ok 0x2
      | RETURN_OBJECT => Ok 0x2
      | CONST_4 => Ok 0x2
      | CONST_16 => Ok 0x4
      | CONST => Ok 0x6
      | CONST_HIGH16 => Ok 0x4
      | CONST_WIDE_16 => Ok 0x4
      | CONST_WIDE_32 => Ok 0x6
      | CONST_WIDE => Ok 0xA
      | CONST_WIDE_HIGH16 => Ok 0x4
      | CONST_STRING => Ok 0x4
      | CONST_STRING_JUMBO => Ok 0x6
      | CONST_CLASS => Ok 0x4
      | MONITOR_ENTER => Ok 0x2
      | MONITOR_EXIT => Ok 0x2
      | CHECK_CAST => Ok 0x4
      | INSTANCE_OF => Ok 0x4
      | ARRAY_LENGTH => Ok 0x2
      | NEW_INSTANCE => Ok 0x4
      | NEW_ARRAY => Ok 0x4
      | FILLED_NEW_ARRAY => Ok 0x6
      | FILLED_NEW_ARRAY_RANGE => Ok 0x6
      | FILL_ARRAY_DATA => Ok 0x6
      | THROW => Ok 0x2
      | GOTO => Ok 0x2
      | GOTO_16 => Ok 0x4
      | GOTO_32 => Ok 0x6
      | PACKED_SWITCH => Ok 0x6
      | SPARSE_SWITCH => Ok 0x6
      | CMPL_FLOAT | CMPG_FLOAT | CMPL_DOUBLE | CMPG_DOUBLE | CMP_LONG => Ok 0x4
      | IF_EQ | IF_NE | IF_LT | IF_GE | IF_GT | IF_LE => Ok 0x4
      | IF_EQZ | IF_NEZ | IF_LTZ | IF_GEZ | IF_GTZ | IF_LEZ => Ok 0x4
      | AGET | AGET_WIDE | AGET_OBJECT | AGET_BOOLEAN | AGET_BYTE | AGET_CHAR | AGET_SHORT | APUT
      | APUT_WIDE | APUT_OBJECT | APUT_BOOLEAN | APUT_BYTE | APUT_CHAR | APUT_SHORT => Ok 0x4
      | IGET | IGET_WIDE | IGET_OBJECT | IGET_BOOLEAN | IGET_BYTE | IGET_CHAR | IGET_SHORT | IPUT
      | IPUT_WIDE | IPUT_OBJECT | IPUT_BOOLEAN | IPUT_BYTE | IPUT_CHAR | IPUT_SHORT => Ok 0x4
      | SGET | SGET_WIDE | SGET_OBJECT | SGET_BOOLEAN | SGET_BYTE | SGET_CHAR | SGET_SHORT | SPUT
      | SPUT_WIDE | SPUT_OBJECT | SPUT_BOOLEAN | SPUT_BYTE | SPUT_CHAR | SPUT_SHORT => Ok 0x4
      | INVOKE_VIRTUAL | INVOKE_SUPER | INVOKE_DIRECT | INVOKE_STATIC | INVOKE_INTERFACE => Ok 0x6
      | RETURN_VOID_NO_BARRIER => Ok 0x2
      | INVOKE_VIRTUAL_RANGE | INVOKE_SUPER_RANGE | INVOKE_DIRECT_RANGE | INVOKE_STATIC_RANGE
      | INVOKE_INTERFACE_RANGE => Ok 0x6
      | NEG_INT | NOT_INT | NEG_LONG | NOT_LONG | NEG_FLOAT | NEG_DOUBLE | INT_TO_LONG
      | INT_TO_FLOAT | INT_TO_DOUBLE | LONG_TO_INT | LONG_TO_FLOAT | LONG_TO_DOUBLE | FLOAT_TO_INT
      | FLOAT_TO_LONG | FLOAT_TO_DOUBLE | DOUBLE_TO_INT | DOUBLE_TO_LONG | DOUBLE_TO_FLOAT
      | INT_TO_BYTE | INT_TO_CHAR | INT_TO_SHORT => Ok 0x2
      | ADD_INT | SUB_INT | MUL_INT | DIV_INT | REM_INT | AND_INT | OR_INT | XOR_INT | SHL_INT
      | SHR_INT | USHR_INT | ADD_LONG | SUB_LONG | MUL_LONG | DIV_LONG | REM_LONG | AND_LONG
      | OR_LONG | XOR_LONG | SHL_LONG | SHR_LONG | USHR_LONG | ADD_FLOAT | SUB_FLOAT | MUL_FLOAT
      | DIV_FLOAT | REM_FLOAT | ADD_DOUBLE | SUB_DOUBLE | MUL_DOUBLE | DIV_DOUBLE
      | REM_DOUBLE => Ok 0x4
      | ADD_INT_2ADDR | SUB_INT_2ADDR | MUL_INT_2ADDR | DIV_INT_2ADDR | REM_INT_2ADDR
      | AND_INT_2ADDR | OR_INT_2ADDR | XOR_INT_2ADDR | SHL_INT_2ADDR | SHR_INT_2ADDR
      | USHR_INT_2ADDR | ADD_LONG_2ADDR | SUB_LONG_2ADDR | MUL_LONG_2ADDR | DIV_LONG_2ADDR
      | REM_LONG_2ADDR | AND_LONG_2ADDR | OR_LONG_2ADDR | XOR_LONG_2ADDR | SHL_LONG_2ADDR
      | SHR_LONG_2ADDR | USHR_LONG_2ADDR | ADD_FLOAT_2ADDR | SUB_FLOAT_2ADDR | MUL_FLOAT_2ADDR
      | DIV_FLOAT_2ADDR | REM_FLOAT_2ADDR | ADD_DOUBLE_2ADDR | SUB_DOUBLE_2ADDR | MUL_DOUBLE_2ADDR
      | DIV_DOUBLE_2ADDR | REM_DOUBLE_2ADDR => Ok 0x2
      | ADD_INT_LIT16 | RSUB_INT_LIT16 | MUL_INT_LIT16 | DIV_INT_LIT16 | REM_INT_LIT16
      | AND_INT_LIT16 | OR_INT_LIT16 | XOR_INT_LIT16 => Ok 0x4
      | ADD_INT_LIT8 | RSUB_INT_LIT8 | MUL_INT_LIT8 | DIV_INT_LIT8 | REM_INT_LIT8 | AND_INT_LIT8
      | OR_INT_LIT8 | XOR_INT_LIT8 | SHL_INT_LIT8 | SHR_INT_LIT8 | USHR_INT_LIT8 => Ok 0x4
      | IGET_QUICK | IGET_WIDE_QUICK | IGET_OBJECT_QUICK | IPUT_QUICK | IPUT_WIDE_QUICK
      | IPUT_OBJECT_QUICK => Ok 0x4
      | INVOKE_VIRTUAL_QUICK | INVOKE_VIRTUAL_QUICK_RANGE => Ok 0x6
      | IPUT_BOOLEAN_QUICK | IPUT_BYTE_QUICK | IPUT_CHAR_QUICK | IPUT_SHORT_QUICK
      | IGET_BOOLEAN_QUICK | IGET_BYTE_QUICK | IGET_CHAR_QUICK | IGET_SHORT_QUICK => Ok 0x4
      | INVOKE_POLYMORPHIC => Ok 0x8
      | INVOKE_POLYMORPHIC_RANGE => Ok 0x8
      | INVOKE_CUSTOM => Ok 0x6
      | INVOKE_CUSTOM_RANGE => Ok 0x6
      | CONST_METHOD_HANDLE => Ok 0x4
      | CONST_METHOD_TYPE => Ok 0x4
      end
    end.

(** * Formats without references into the dex file *)

Definition AppendCodecNoArgs (op : list Z) (ref : MemoryRef) : result (list Z) :=
  let! code0 := code_unit ref 0 in Ok (inst [code0] op).
Definition AppendCodecArgsvAvB (op : list Z) (ref : MemoryRef) : result (list Z) :=
  let! code0 := code_unit ref 0 in
  Ok (inst_sp [code0] op ++ vreg (unit_a code0) ++ comma_sp ++ vreg (unit_b code0)).
Definition AppendCodecArgsvAAvBBBB (op : list Z) (ref : MemoryRef) : result (list Z) :=
  let! code0 := code_unit ref 0 in
  let! code1 := code_unit ref 2 in
  Ok (inst_sp [code0; code1] op ++ vreg (unit_aa code0) ++ comma_sp ++ vreg code1).
Definition AppendCodecArgsvAAAAvBBBB (op : list Z) (ref : MemoryRef) : result (list Z) :=
  let! code0 := code_unit ref 0 in
  let! code1 := code_unit ref 2 in
  let! code2 := code_unit ref 4 in
  Ok (inst_sp [code0; code1; code2] op ++ vreg code1 ++ comma_sp ++ vreg code2).
Definition AppendCodecArgsvAA (op : list Z) (ref : MemoryRef) : result (list Z) :=
  let! code0 := code_unit ref 0 in Ok (inst_sp [code0] op ++ vreg (unit_aa code0)).
Definition AppendCodecArgsvAB (op : list Z) (ref : MemoryRef) : result (list Z) :=
  let! code0 := code_unit ref 0 in
  let va := Z.shiftr (Z.land code0 0x0F00) 8 in
  let b := Z.shiftr (Z.land code0 0xF000) 12 in
  Ok (inst_sp [code0] op ++ vreg va ++ comma_sp ++ literal 0x8 0 b).
Definition AppendCodecArgsvAABBBB (op : list Z) (ref : MemoryRef) : result (list Z) :=
  let! code0 := code_unit ref 0 in
  let! code1 := code_unit ref 2 in
  Ok (inst_sp [code0; code1] op ++ vreg (unit_aa code0) ++ comma_sp ++ literal 0x8000 0 code1).
Definition AppendCodecArgsvAABBBBBBBB (op : list Z) (ref : MemoryRef) : result (list Z) :=
  let! code0 := code_unit ref 0 in
  let! code1 := code_unit ref 2 in
  let! code2 := code_unit ref 4 in
  Ok (inst_sp [code0; code1; code2] op ++ vreg (unit_aa code0) ++ comma_sp
      ++ literal 0x80000000 0 (wide code1 code2)).
Definition AppendCodecArgsvAABBBB0000 (op : list Z) (ref : MemoryRef) : result (list Z) :=
  let! code0 := code_unit ref 0 in
  let! code1 := code_unit ref 2 in
  Ok (inst_sp [code0; code1] op ++ vreg (unit_aa code0) ++ comma_sp ++ literal 0x8000 16 code1).
Definition AppendCodecArgsvAABBBBBBBBBBBBBBBB (op : list Z) (ref : MemoryRef)
    : result (list Z) :=
  let! code0 := code_unit ref 0 in
  let! code1 := code_unit ref 2 in
  let! code2 := code_unit ref 4 in
  let! code3 := code_unit ref 6 in
  let! code4 := code_unit ref 8 in
  Ok (inst_sp [code0; code1; code2; code3; code4] op ++ vreg (unit_aa code0) ++ comma_sp
      ++ literal 0x8000000000000000 0 (wide4 code1 code2 code3 code4)).
Definition AppendCodecArgsvAABBBB000000000000 (op : list Z) (ref : MemoryRef)
    : result (list Z) :=
  let! code0 := code_unit ref 0 in
  let! code1 := code_unit ref 2 in
  Ok (inst_sp [code0; code1] op ++ vreg (unit_aa code0) ++ comma_sp ++ literal 0x8000 48 code1).
Definition AppendCodecArgsAA (op : list Z) (ref : MemoryRef) : result (list Z) :=
  let! code0 := code_unit ref 0 in
  Ok (inst_sp [code0] op ++ literal 0x80 0 (unit_aa code0)).
Definition AppendCodecArgsAAAA (op : list Z) (ref : MemoryRef) : result (list Z) :=
  let! code0 := code_unit ref 0 in
  let! code1 := code_unit ref 2 in
  Ok (inst_sp [code0; code1] op ++ literal 0x8000 0 code1).
Definition AppendCodecArgsAAAAAAAA (op : list Z) (ref : MemoryRef) : result (list Z) :=
  let! code0 := code_unit ref 0 in
  let! code1 := code_unit ref 2 in
  let! code2 := code_unit ref 4 in
  Ok (inst_sp [code0; code1; code2] op ++ literal 0x80000000 0 (wide code1 code2)).
Definition AppendCodecArgsvAAvBBvCC (op : list Z) (ref : MemoryRef) : result (list Z) :=
  let! code0 := code_unit ref 0 in
  let! code1 := code_unit ref 2 in
  Ok (inst_sp [code0; code1] op ++ vreg (unit_aa code0) ++ comma_sp ++ vreg (low_byte code1)
      ++ comma_sp ++ vreg (unit_aa code1)).
Definition AppendCodecArgsvAvBCCCC (op : list Z) (ref : MemoryRef) : result (list Z) :=
  let! code0 := code_unit ref 0 in
  let! code1 := code_unit ref 2 in
  Ok (inst_sp [code0; code1] op ++ vreg (unit_a code0) ++ comma_sp ++ vreg (unit_b code0)
      ++ comma_sp ++ literal 0x8000 0 code1).
Definition AppendCodecArgsvAAvBBCC (op : list Z) (ref : MemoryRef) : result (list Z) :=
  let! code0 := code_unit ref 0 in
  let! code1 := code_unit ref 2 in
  Ok (inst_sp [code0; code1] op ++ vreg (unit_aa code0) ++ comma_sp ++ vreg (low_byte code1)
      ++ comma_sp ++ literal 0x80 0 (unit_aa code1)).
(** A nop that is not zero starts a table; the code shows five units of it. *)
Definition AppendCodecNop (ref : MemoryRef) : result (list Z) :=
  let! code0 := code_unit ref 0 in
  if negb (nz code0) then Ok (inst [code0] (chars "nop"))
  else
    let! code1 := code_unit ref 2 in
    let! code2 := code_unit ref 4 in
    let! code3 := code_unit ref 6 in
    let! code4 := code_unit ref 8 in
    Ok (inst [code0; code1; code2; code3; code4] (chars "nop")).
Definition AppendCodecGoto (ref : MemoryRef) : result (list Z) :=
  let! code0 := code_unit ref 0 in
  Ok (inst_sp [code0] (chars "goto") ++ branch (vaddr ref) 0x80 8 (unit_aa code0)).
Definition AppendCodecGoto16 (ref : MemoryRef) : result (list Z) :=
  let! code0 := code_unit ref 0 in
  let! code1 := code_unit ref 2 in
  Ok (inst_sp [code0; code1] (chars "goto/16") ++ branch (vaddr ref) 0x8000 8 code1).
Definition AppendCodecGoto32 (ref : MemoryRef) : result (list Z) :=
  let! code0 := code_unit ref 0 in
  let! code1 := code_unit ref 2 in
  let! code2 := code_unit ref 4 in
  Ok (inst_sp [code0; code1; code2] (chars "goto/32")
      ++ branch (vaddr ref) 0x80000000 32 (wide code1 code2)).
Definition AppendCodecIfTest (o : dexop) (ref : MemoryRef) : result (list Z) :=
  let! code0 := code_unit ref 0 in
  let! code1 := code_unit ref 2 in
  let! op := op_name kIfTest o IF_EQ in
  Ok (inst_sp [code0; code1] op ++ vreg (unit_a code0) ++ comma_sp ++ vreg (unit_b code0)
      ++ comma_sp ++ branch (vaddr ref) 0x8000 16 code1).
Definition AppendCodecIfTestz (o : dexop) (ref : MemoryRef) : result (list Z) :=
  let! code0 := code_unit ref 0 in
  let! code1 := code_unit ref 2 in
  let! op := op_name kIfTestz o IF_EQZ in
  Ok (inst_sp [code0; code1] op ++ vreg (unit_aa code0) ++ comma_sp
      ++ branch (vaddr ref) 0x8000 16 code1).
(** The quick instructions: two registers and a number. *)
Definition quick_inst (names : list string) (base : dexop) (what : string) (o : dexop)
    (ref : MemoryRef) : result (list Z) :=
  let! code0 := code_unit ref 0 in
  let! code1 := code_unit ref 2 in
  let! op := op_name names o base in
  Ok (inst_sp [code0; code1] op ++ vreg (unit_a code0) ++ comma_sp ++ vreg (unit_b code0)
      ++ comma_sp ++ chars what ++ to_string code1).
Definition AppendCodecIInstanceQuickOffsetOp :=
  quick_inst kIInstanceQuickOffsetOp IGET_QUICK " // offset@".
Definition AppendCodecIInstanceQuickThingOp :=
  quick_inst kIInstanceQuickThingOp IPUT_BOOLEAN_QUICK " // thing@".
(** The calls whose target is only a number. *)
Definition numbered_call (args : Z -> Z -> list Z) (op what : string) (ref : MemoryRef)
    : result (list Z) :=
  let! code0 := code_unit ref 0 in
  let! code1 := code_unit ref 2 in
  let! code2 := code_unit ref 4 in
  Ok (inst_sp [code0; code1; code2] (chars op) ++ args code0 code2 ++ chars what
      ++ to_string code1).
Definition AppendCodecInvokeVirtualQuick :=
  numbered_call arguments "invoke-virtual-quick" " // vtable@".
Definition AppendCodecInvokeVirtualQuickRange :=
  numbered_call argument_range "invoke-virtual-quick/range" " // vtable@".
Definition AppendCodecInvokeCustom (ref dex_file : MemoryRef) : result (list Z) :=
  numbered_call arguments "invoke-custom" " // call_site@" ref.
Definition AppendCodecInvokeCustomRange (ref dex_file : MemoryRef) : result (list Z) :=
  numbered_call argument_range "invoke-custom/range" " // call_site@" ref.
Definition AppendCodecConstMethodHandle (ref dex_file : MemoryRef) : result (list Z) :=
  let! code0 := code_unit ref 0 in
  let! code1 := code_unit ref 2 in
  Ok (inst_sp [code0; code1] (chars "const-method-handle") ++ vreg (unit_aa code0) ++ comma_sp
      ++ chars " // method_handle@" ++ to_string code1).

(** * Formats that name something of the dex file *)

Definition string_text (dex_file : MemoryRef) (idx : Z) : result (list Z) :=
  let! s := StringDataByIdx sdk c dex_file idx (chars "<unknown>") in
  Ok (34 :: s ++ 34 :: chars " // string@" ++ to_string idx).
Definition type_text (dex_file : MemoryRef) (idx : Z) : result (list Z) :=
  let! tid := GetTypeId sdk c dex_file idx in
  let! d := GetTypeDescriptor sdk c dex_file tid invalid_class in
  let! s := AppendPrettyDescriptor d in Ok (s ++ chars " // type@" ++ to_string idx).
Definition field_text (dex_file : MemoryRef) (idx : Z) : result (list Z) :=
  let! fid := GetFieldId sdk c dex_file idx in
  let! d := GetFieldDeclaringClassDescriptor sdk c dex_file fid invalid_class in
  let! n := GetFieldName sdk c dex_file fid (chars "<invalid-field>") in
  let! t := GetFieldTypeDescriptor sdk c dex_file fid (chars "B") in
  Ok (d ++ chars "." ++ n ++ chars ":" ++ t ++ chars " // field@" ++ to_string idx).
Definition method_text (dex_file : MemoryRef) (idx : Z) : result (list Z) :=
  let! mid := GetMethodId sdk c dex_file idx in
  let! r := GetMethodReturnTypeDescriptor sdk c dex_file mid (chars "V") in
  let! r := AppendPrettyDescriptor r in
  let! d := GetMethodDeclaringClassDescriptor sdk c dex_file mid invalid_class in
  let! d := AppendPrettyDescriptor d in
  let! n := GetMethodName sdk c dex_file mid in
  let! p := PrettyMethodParameters sdk c dex_file mid in
  Ok (r ++ chars " " ++ d ++ chars "." ++ n ++ p).
Definition proto_text (dex_file : MemoryRef) (idx : Z) : result (list Z) :=
  let! pid := GetProtoId sdk c dex_file idx in
  let! return_type_idx := word c pid (return_type_idx_ ProtoId_Init) 2 in
  let! return_type_id := GetTypeId sdk c dex_file return_type_idx in
  let! p := GetMethodParametersDescriptor sdk c dex_file pid in
  let! r := GetTypeDescriptor sdk c dex_file return_type_id invalid_class in Ok (p ++ r).

Definition AppendCodecArgsvAAStringBBBB (op : list Z) (ref dex_file : MemoryRef)
    : result (list Z) :=
  let! code0 := code_unit ref 0 in
  let! code1 := code_unit ref 2 in
  let! s := string_text dex_file code1 in
  Ok (inst_sp [code0; code1] op ++ vreg (unit_aa code0) ++ comma_sp ++ s).
Definition AppendCodecArgsvAAStringBBBBBBBB (op : list Z) (ref dex_file : MemoryRef)
    : result (list Z) :=
  let! code0 := code_unit ref 0 in
  let! code1 := code_unit ref 2 in
  let! code2 := code_unit ref 4 in
  let! s := string_text dex_file (wide code1 code2) in
  Ok (inst_sp [code0; code1; code2] op ++ vreg (unit_aa code0) ++ comma_sp ++ s).
Definition AppendCodecArgsvAATypeBBBB (op : list Z) (ref dex_file : MemoryRef)
    : result (list Z) :=
  let! code0 := code_unit ref 0 in
  let! code1 := code_unit ref 2 in
  let! s := type_text dex_file code1 in
  Ok (inst_sp [code0; code1] op ++ vreg (unit_aa code0) ++ comma_sp ++ s).
Definition AppendCodecArgsvAvBTypeCCCC (op : list Z) (ref dex_file : MemoryRef)
    : result (list Z) :=
  let! code0 := code_unit ref 0 in
  let! code1 := code_unit ref 2 in
  let! s := type_text dex_file code1 in
  Ok (inst_sp [code0; code1] op ++ vreg (unit_a code0) ++ comma_sp ++ vreg (unit_b code0)
      ++ comma_sp ++ s ++ chars "]").
(** An array with its elements, a call: the arguments, then what [show] gives for the index. *)
Definition listed_inst (args : Z -> Z -> list Z) (show : Z -> result (list Z)) (op : list Z)
    (ref : MemoryRef) : result (list Z) :=
  let! code0 := code_unit ref 0 in
  let! code1 := code_unit ref 2 in
  let! code2 := code_unit ref 4 in
  let! s := show code1 in
  Ok (inst_sp [code0; code1; code2] op ++ args code0 code2 ++ s).
Definition AppendCodecFilledNewArray (ref dex_file : MemoryRef) : result (list Z) :=
  listed_inst arguments (type_text dex_file) (chars "filled-new-array") ref.
Definition AppendCodecFilledNewArrayRange (ref dex_file : MemoryRef) : result (list Z) :=
  listed_inst argument_range (type_text dex_file) (chars "filled-new-array/range") ref.
Definition AppendCodecIInstanceOp (o : dexop) (ref dex_file : MemoryRef)
    : result (list Z) :=
  let! code0 := code_unit ref 0 in
  let! code1 := code_unit ref 2 in
  let! op := op_name kIInstanceOp o IGET in
  let! s := field_text dex_file code1 in
  Ok (inst_sp [code0; code1] op ++ vreg (unit_a code0) ++ comma_sp ++ vreg (unit_b code0)
      ++ comma_sp ++ s).
Definition AppendCodecSStaicOp (o : dexop) (ref dex_file : MemoryRef) : result (list Z) :=
  let! code0 := code_unit ref 0 in
  let! code1 := code_unit ref 2 in
  let! op := op_name kSStaticOp o SGET in
  let! s := field_text dex_file code1 in
  Ok (inst_sp [code0; code1] op ++ vreg (unit_aa code0) ++ comma_sp ++ s).
Definition numbered_method (dex_file : MemoryRef) (idx : Z) : result (list Z) :=
  let! s := method_text dex_file idx in Ok (s ++ chars " // method@" ++ to_string idx).
Definition AppendCodecInvokeKind (o : dexop) (ref dex_file : MemoryRef) : result (list Z) :=
  let! op := op_name kInvokeKind o INVOKE_VIRTUAL in
  listed_inst arguments (numbered_method dex_file) op ref.
Definition AppendCodecInvokeKindRange (o : dexop) (ref dex_file : MemoryRef)
    : result (list Z) :=
  let! op := op_name kInvokeKindRange o INVOKE_VIRTUAL_RANGE in
  listed_inst argument_range (numbered_method dex_file) op ref.
(** The fourth unit is read at the byte 8, behind the instruction. *)
Definition polymorphic (args : Z -> Z -> list Z) (op : string) (ref dex_file : MemoryRef)
    : result (list Z) :=
  let! code0 := code_unit ref 0 in
  let! code1 := code_unit ref 2 in
  let! code2 := code_unit ref 4 in
  let! code3 := code_unit ref 8 in
  let! m := method_text dex_file code1 in
  let! p := proto_text dex_file code3 in
  Ok (inst_sp [code0; code1; code2; code3] (chars op) ++ args code0 code2 ++ m ++ comma_sp ++ p
      ++ chars " // method@" ++ to_string code1 ++ comma_sp ++ chars " // proto@" ++ to_string code3).
Definition AppendCodecInvokePolymorphic := polymorphic arguments "invoke-polymorphic".
Definition AppendCodecInvokePolymorphicRange :=
  polymorphic argument_range "invoke-polymorphic/range".
Definition AppendCodecConstMethodType (ref dex_file : MemoryRef) : result (list Z) :=
  let! code0 := code_unit ref 0 in
  let! code1 := code_unit ref 2 in
  let! p := proto_text dex_file code1 in
  Ok (inst_sp [code0; code1] (chars "const-method-type") ++ vreg (unit_aa code0) ++ comma_sp ++ p
      ++ chars " // proto@" ++ to_string code1).

(** * The instructions *)

Definition AppendCodecMove (ref : MemoryRef) : result (list Z) :=
  AppendCodecArgsvAvB (chars "move") ref.
Definition AppendCodecMoveFrom16 (ref : MemoryRef) : result (list Z) :=
  AppendCodecArgsvAAvBBBB (chars "move/from16") ref.
Definition AppendCodecMove16 (ref : MemoryRef) : result (list Z) :=
  AppendCodecArgsvAAAAvBBBB (chars "move/16") ref.
Definition AppendCodecMoveWide (ref : MemoryRef) : result (list Z) :=
  AppendCodecArgsvAvB (chars "move-wide") ref.
Definition AppendCodecMoveWideFrom16 (ref : MemoryRef) : result (list Z) :=
  AppendCodecArgsvAAvBBBB (chars "move-wide/from16") ref.
Definition AppendCodecMoveWide16 (ref : MemoryRef) : result (list Z) :=
  AppendCodecArgsvAAAAvBBBB (chars "move-wide/16") ref.
Definition AppendCodecMoveObject (ref : MemoryRef) : result (list Z) :=
  AppendCodecArgsvAvB (chars "move-object") ref.
Definition AppendCodecMoveObjectFrom16 (ref : MemoryRef) : result (list Z) :=
  AppendCodecArgsvAAvBBBB (chars "move-object/from16") ref.
Definition AppendCodecMoveObject16 (ref : MemoryRef) : result (list Z) :=
  AppendCodecArgsvAAAAvBBBB (chars "move-object/16") ref.
Definition AppendCodecMoveResult (ref : MemoryRef) : result (list Z) :=
  AppendCodecArgsvAA (chars "move-result") ref.
Definition AppendCodecMoveResultWide (ref : MemoryRef) : result (list Z) :=
  AppendCodecArgsvAA (chars "move-result-wide") ref.
Definition AppendCodecMoveResultObject (ref : MemoryRef) : result (list Z) :=
  AppendCodecArgsvAA (chars "move-result-object") ref.
Definition AppendCodecMoveException (ref : MemoryRef) : result (list Z) :=
  AppendCodecArgsvAA (chars "move-exception") ref.
Definition AppendCodecReturnVoid (ref : MemoryRef) : result (list Z) :=
  AppendCodecNoArgs (chars "return-void") ref.
Definition AppendCodecReturn (ref : MemoryRef) : result (list Z) :=
  AppendCodecArgsvAA (chars "return") ref.
Definition AppendCodecReturnWide (ref : MemoryRef) : result (list Z) :=
  AppendCodecArgsvAA (chars "return-wide") ref.
Definition AppendCodecReturnObject (ref : MemoryRef) : result (list Z) :=
  AppendCodecArgsvAA (chars "return-object") ref.
Definition AppendCodecReturnVoidNoBarrier (ref : MemoryRef) : result (list Z) :=
  AppendCodecNoArgs (chars "return-void-no-barrier") ref.
Definition AppendCodecConst4 (ref : MemoryRef) : result (list Z) :=
  AppendCodecArgsvAB (chars "const/4") ref.
Definition AppendCodecConst16 (ref : MemoryRef) : result (list Z) :=
  AppendCodecArgsvAABBBB (chars "const/16") ref.
Definition AppendCodecConst (ref : MemoryRef) : result (list Z) :=
  AppendCodecArgsvAABBBBBBBB (chars "const") ref.
Definition AppendCodecConstHigh16 (ref : MemoryRef) : result (list Z) :=
  AppendCodecArgsvAABBBB0000 (chars "const/high16") ref.
Definition AppendCodecConstWide16 (ref : MemoryRef) : result (list Z) :=
  AppendCodecArgsvAABBBB (chars "const-wide/16") ref.
Definition AppendCodecConstWide32 (ref : MemoryRef) : result (list Z) :=
  AppendCodecArgsvAABBBBBBBB (chars "const-wide/32") ref.
Definition AppendCodecConstWide (ref : MemoryRef) : result (list Z) :=
  AppendCodecArgsvAABBBBBBBBBBBBBBBB (chars "const-wide") ref.
Definition AppendCodecConstWideHigh16 (ref : MemoryRef) : result (list Z) :=
  AppendCodecArgsvAABBBB000000000000 (chars "const-wide/high16") ref.
Definition AppendCodecConstString (ref : MemoryRef) (dex_file : MemoryRef) : result (list Z) :=
  AppendCodecArgsvAAStringBBBB (chars "const-string") ref dex_file.
Definition AppendCodecConstStringJumbo (ref : MemoryRef) (dex_file : MemoryRef) : result (list Z) :=
  AppendCodecArgsvAAStringBBBBBBBB (chars "const-string/jumbo") ref dex_file.
Definition AppendCodecConstClass (ref : MemoryRef) (dex_file : MemoryRef) : result (list Z) :=
  AppendCodecArgsvAATypeBBBB (chars "const-class") ref dex_file.
Definition AppendCodecMonitorEnter (ref : MemoryRef) : result (list Z) :=
  AppendCodecArgsvAA (chars "monitor-enter") ref.
Definition AppendCodecMonitorExit (ref : MemoryRef) : result (list Z) :=
  AppendCodecArgsvAA (chars "monitor-exit") ref.
Definition AppendCodecCheckCast (ref : MemoryRef) (dex_file : MemoryRef) : result (list Z) :=
  AppendCodecArgsvAATypeBBBB (chars "check-cast") ref dex_file.
Definition AppendCodecInstanceOf (ref : MemoryRef) (dex_file : MemoryRef) : result (list Z) :=
  AppendCodecArgsvAvBTypeCCCC (chars "instance-of") ref dex_file.
Definition AppendCodecArrayLength (ref : MemoryRef) : result (list Z) :=
  AppendCodecArgsvAvB (chars "array-length") ref.
Definition AppendCodecNewInstance (ref : MemoryRef) (dex_file : MemoryRef) : result (list Z) :=
  AppendCodecArgsvAATypeBBBB (chars "new-instance") ref dex_file.
Definition AppendCodecNewArray (ref : MemoryRef) (dex_file : MemoryRef) : result (list Z) :=
  AppendCodecArgsvAvBTypeCCCC (chars "new-array") ref dex_file.
Definition AppendCodecFillArrayData (ref : MemoryRef) : result (list Z) :=
  AppendCodecArgsvAABBBBBBBB (chars "fill-array-data") ref.
Definition AppendCodecThrow (ref : MemoryRef) : result (list Z) :=
  AppendCodecArgsvAA (chars "throw") ref.
Definition AppendCodecPackedSwitch (ref : MemoryRef) : result (list Z) :=
  AppendCodecArgsvAABBBBBBBB (chars "packed-switch") ref.
Definition AppendCodecSparseSwitch (ref : MemoryRef) : result (list Z) :=
  AppendCodecArgsvAABBBBBBBB (chars "sparse-switch") ref.
Definition AppendCodecCmpKind (o : dexop) (ref : MemoryRef) : result (list Z) :=
  let! op := op_name kComKinds o CMPL_FLOAT in AppendCodecArgsvAAvBBvCC op ref.
Definition AppendCodecArrayOp (o : dexop) (ref : MemoryRef) : result (list Z) :=
  let! op := op_name kArrayOp o AGET in AppendCodecArgsvAAvBBvCC op ref.
Definition AppendCodecUnOp (o : dexop) (ref : MemoryRef) : result (list Z) :=
  let! op := op_name kUnOp o NEG_INT in AppendCodecArgsvAvB op ref.
Definition AppendCodecBinOp (o : dexop) (ref : MemoryRef) : result (list Z) :=
  let! op := op_name kBinOp o ADD_INT in AppendCodecArgsvAAvBBvCC op ref.
Definition AppendCodecBinOp2Addr (o : dexop) (ref : MemoryRef) : result (list Z) :=
  let! op := op_name kBinOp2Addr o ADD_INT_2ADDR in AppendCodecArgsvAvB op ref.
Definition AppendCodecBinOpLit16 (o : dexop) (ref : MemoryRef) : result (list Z) :=
  let! op := op_name kBinOpLit16 o ADD_INT_LIT16 in AppendCodecArgsvAvBCCCC op ref.
Definition AppendCodecBinOpLit8 (o : dexop) (ref : MemoryRef) : result (list Z) :=
  let! op := op_name kBinOpLit8 o ADD_INT_LIT8 in AppendCodecArgsvAAvBBCC op ref.

(** The switch of [PrettyDexInst]. *)
Definition pretty_op (o : dexop) (ref dex_file : MemoryRef) : result (list Z) :=
  match o with
  | NOP => AppendCodecNop ref
  | MOVE => AppendCodecMove ref
  | MOVE_FROM16 => AppendCodecMoveFrom16 ref
  | MOVE_16 => AppendCodecMove16 ref
  | MOVE_WIDE => AppendCodecMoveWide ref
  | MOVE_WIDE_FROM16 => AppendCodecMoveWideFrom16 ref
  | MOVE_WIDE_16 => AppendCodecMoveWide16 ref
  | MOVE_OBJECT => AppendCodecMoveObject ref
  | MOVE_OBJECT_FROM16 => AppendCodecMoveObjectFrom16 ref
  | MOVE_OBJECT_16 => AppendCodecMoveObject16 ref
  | MOVE_RESULT => AppendCodecMoveResult ref
  | MOVE_RESULT_WIDE => AppendCodecMoveResultWide ref
  | MOVE_RESULT_OBJECT => AppendCodecMoveResultObject ref
  | MOVE_EXCEPTION => AppendCodecMoveException ref
  | RETURN_VOID => AppendCodecReturnVoid ref
  | RETURN => AppendCodecReturn ref
  | RETURN_WIDE => AppendCodecReturnWide ref
  | RETURN_OBJECT => AppendCodecReturnObject ref
  | CONST_4 => AppendCodecConst4 ref
  | CONST_16 => AppendCodecConst16 ref
  | CONST => AppendCodecConst ref
  | CONST_HIGH16 => AppendCodecConstHigh16 ref
  | CONST_WIDE_16 => AppendCodecConstWide16 ref
  | CONST_WIDE_32 => AppendCodecConstWide32 ref
  | CONST_WIDE => AppendCodecConstWide ref
  | CONST_WIDE_HIGH16 => AppendCodecConstWideHigh16 ref
  | CONST_STRING => AppendCodecConstString ref dex_file
  | CONST_STRING_JUMBO => AppendCodecConstStringJumbo ref dex_file
  | CONST_CLASS => AppendCodecConstClass ref dex_file
  | MONITOR_ENTER => AppendCodecMonitorEnter ref
  | MONITOR_EXIT => AppendCodecMonitorExit ref
  | CHECK_CAST => AppendCodecCheckCast ref dex_file
  | INSTANCE_OF => AppendCodecInstanceOf ref dex_file
  | ARRAY_LENGTH => AppendCodecArrayLength ref
  | NEW_INSTANCE => AppendCodecNewInstance ref dex_file
  | NEW_ARRAY => AppendCodecNewArray ref dex_file
  | FILLED_NEW_ARRAY => AppendCodecFilledNewArray ref dex_file
  | FILLED_NEW_ARRAY_RANGE => AppendCodecFilledNewArrayRange ref dex_file
  | FILL_ARRAY_DATA => AppendCodecFillArrayData ref
  | THROW => AppendCodecThrow ref
  | GOTO => AppendCodecGoto ref
  | GOTO_16 => AppendCodecGoto16 ref
  | GOTO_32 => AppendCodecGoto32 ref
  | PACKED_SWITCH => AppendCodecPackedSwitch ref
  | SPARSE_SWITCH => AppendCodecSparseSwitch ref
  | CMPL_FLOAT | CMPG_FLOAT | CMPL_DOUBLE | CMPG_DOUBLE | CMP_LONG => AppendCodecCmpKind o ref
  | IF_EQ | IF_NE | IF_LT | IF_GE | IF_GT | IF_LE => AppendCodecIfTest o ref
  | IF_EQZ | IF_NEZ | IF_LTZ | IF_GEZ | IF_GTZ | IF_LEZ => AppendCodecIfTestz o ref
  | AGET | AGET_WIDE | AGET_OBJECT | AGET_BOOLEAN | AGET_BYTE | AGET_CHAR | AGET_SHORT | APUT
  | APUT_WIDE | APUT_OBJECT | APUT_BOOLEAN | APUT_BYTE | APUT_CHAR
  | APUT_SHORT => AppendCodecArrayOp o ref
  | IGET | IGET_WIDE | IGET_OBJECT | IGET_BOOLEAN | IGET_BYTE | IGET_CHAR | IGET_SHORT | IPUT
  | IPUT_WIDE | IPUT_OBJECT | IPUT_BOOLEAN | IPUT_BYTE | IPUT_CHAR
  | IPUT_SHORT => AppendCodecIInstanceOp o ref dex_file
  | SGET | SGET_WIDE | SGET_OBJECT | SGET_BOOLEAN | SGET_BYTE | SGET_CHAR | SGET_SHORT | SPUT
  | SPUT_WIDE | SPUT_OBJECT | SPUT_BOOLEAN | SPUT_BYTE | SPUT_CHAR
  | SPUT_SHORT => AppendCodecSStaicOp o ref dex_file
  | INVOKE_VIRTUAL | INVOKE_SUPER | INVOKE_DIRECT | INVOKE_STATIC
  | INVOKE_INTERFACE => AppendCodecInvokeKind o ref dex_file
  | RETURN_VOID_NO_BARRIER => AppendCodecReturnVoidNoBarrier ref
  | INVOKE_VIRTUAL_RANGE | INVOKE_SUPER_RANGE | INVOKE_DIRECT_RANGE | INVOKE_STATIC_RANGE
  | INVOKE_INTERFACE_RANGE => AppendCodecInvokeKindRange o ref dex_file
  | NEG_INT | NOT_INT | NEG_LONG | NOT_LONG | NEG_FLOAT | NEG_DOUBLE | INT_TO_LONG
  | INT_TO_FLOAT | INT_TO_DOUBLE | LONG_TO_INT | LONG_TO_FLOAT | LONG_TO_DOUBLE | FLOAT_TO_INT
  | FLOAT_TO_LONG | FLOAT_TO_DOUBLE | DOUBLE_TO_INT | DOUBLE_TO_LONG | DOUBLE_TO_FLOAT
  | INT_TO_BYTE | INT_TO_CHAR | INT_TO_SHORT => AppendCodecUnOp o ref
  | ADD_INT | SUB_INT | MUL_INT | DIV_INT | REM_INT | AND_INT | OR_INT | XOR_INT | SHL_INT
  | SHR_INT | USHR_INT | ADD_LONG | SUB_LONG | MUL_LONG | DIV_LONG | REM_LONG | AND_LONG
  | OR_LONG | XOR_LONG | SHL_LONG | SHR_LONG | USHR_LONG | ADD_FLOAT | SUB_FLOAT | MUL_FLOAT
  | DIV_FLOAT | REM_FLOAT | ADD_DOUBLE | SUB_DOUBLE | MUL_DOUBLE | DIV_DOUBLE
  | REM_DOUBLE => AppendCodecBinOp o ref
  | ADD_INT_2ADDR | SUB_INT_2ADDR | MUL_INT_2ADDR | DIV_INT_2ADDR | REM_INT_2ADDR
  | AND_INT_2ADDR | OR_INT_2ADDR | XOR_INT_2ADDR | SHL_INT_2ADDR | SHR_INT_2ADDR
  | USHR_INT_2ADDR | ADD_LONG_2ADDR | SUB_LONG_2ADDR | MUL_LONG_2ADDR | DIV_LONG_2ADDR
  | REM_LONG_2ADDR | AND_LONG_2ADDR | OR_LONG_2ADDR | XOR_LONG_2ADDR | SHL_LONG_2ADDR
  | SHR_LONG_2ADDR | USHR_LONG_2ADDR | ADD_FLOAT_2ADDR | SUB_FLOAT_2ADDR | MUL_FLOAT_2ADDR
  | DIV_FLOAT_2ADDR | REM_FLOAT_2ADDR | ADD_DOUBLE_2ADDR | SUB_DOUBLE_2ADDR | MUL_DOUBLE_2ADDR
  | DIV_DOUBLE_2ADDR | REM_DOUBLE_2ADDR => AppendCodecBinOp2Addr o ref
  | ADD_INT_LIT16 | RSUB_INT_LIT16 | MUL_INT_LIT16 | DIV_INT_LIT16 | REM_INT_LIT16
  | AND_INT_LIT16 | OR_INT_LIT16 | XOR_INT_LIT16 => AppendCodecBinOpLit16 o ref
  | ADD_INT_LIT8 | RSUB_INT_LIT8 | MUL_INT_LIT8 | DIV_INT_LIT8 | REM_INT_LIT8 | AND_INT_LIT8
  | OR_INT_LIT8 | XOR_INT_LIT8 | SHL_INT_LIT8 | SHR_INT_LIT8
  | USHR_INT_LIT8 => AppendCodecBinOpLit8 o ref
  | IGET_QUICK | IGET_WIDE_QUICK | IGET_OBJECT_QUICK | IPUT_QUICK | IPUT_WIDE_QUICK
  | IPUT_OBJECT_QUICK => AppendCodecIInstanceQuickOffsetOp o ref
  | INVOKE_VIRTUAL_QUICK => AppendCodecInvokeVirtualQuick ref
  | INVOKE_VIRTUAL_QUICK_RANGE => AppendCodecInvokeVirtualQuickRange ref
  | IPUT_BOOLEAN_QUICK | IPUT_BYTE_QUICK | IPUT_CHAR_QUICK | IPUT_SHORT_QUICK
  | IGET_BOOLEAN_QUICK | IGET_BYTE_QUICK | IGET_CHAR_QUICK
  | IGET_SHORT_QUICK => AppendCodecIInstanceQuickThingOp o ref
  | INVOKE_POLYMORPHIC => AppendCodecInvokePolymorphic ref dex_file
  | INVOKE_POLYMORPHIC_RANGE => AppendCodecInvokePolymorphicRange ref dex_file
  | INVOKE_CUSTOM => AppendCodecInvokeCustom ref dex_file
  | INVOKE_CUSTOM_RANGE => AppendCodecInvokeCustomRange ref dex_file
  | CONST_METHOD_HANDLE => AppendCodecConstMethodHandle ref dex_file
  | CONST_METHOD_TYPE => AppendCodecConstMethodType ref dex_file
  end.
(** [PrettyDexInst(ref, dex_file)]. *)
Definition PrettyDexInst (ref dex_file : MemoryRef) : result (list Z) :=
  let! op := GetDexOp ref in
  let addr := LightCyan light ++ ToHex (vaddr ref) ++ ColorEnd light ++ chars ": " in
  if negb (IsVaildDexOp op) then
    let! code0 := code_unit ref 0 in
    Ok (addr ++ inst [code0] (chars "<unknown>") ++ ColorEnd light)
  else
    let! s := match dex_op op with Some o => pretty_op o ref dex_file | None => Ok [] end in
    Ok (addr ++ s ++ ColorEnd light).
End Dexdump.
