(* ===== verification/DexdumpProofs.v ===== *)
(** Theorems about [Dexdump]: the text of an instruction is the assembly of its encoding.

    The formats and the mnemonics of the instructions are those of the comments in
    android/dalvik_vm_bytecode.h.  (The comments write aget_short, iget_short and sget_short
    with an underscore, and rsub-int for what is printed as rsub-int/lit16; here they are as
    printed.)  Instructions that name a string, type, field, method or prototype of the dex
    file have no format here. *)

From Stdlib Require Import ZArith Lia Bool String.
From stdpp Require Import base list numbers.
From S2P Require Import Prelude Words Host Blocks Notes CoreApi Segments AddressSpace MemRef Elf.
From S2P Require Import Reading Text Mirrors Dex Dexdump.
Open Scope Z_scope.
#[local] Ltac Zify.zify_post_hook ::= Z.to_euclidean_division_equations.
Import DEXOP.

(** * Instructions and their encoding *)

(** What a number that is only shown counts. *)
Inductive counted := Offset | Thing | Vtable | CallSite | MethodHandle.
Inductive fmt :=
  | F10x | F12x | F11n | F11x | F22x | F32x | F21s | F31i | F21h (shift : Z) | F51l | F23x
  | F22b | F22s | F10t | F20t | F30t | F22t | F21t
  | F22cs (k : counted) | F35ms (k : counted) | F3rms (k : counted) | F21c (k : counted).

Definition format (o : dexop) : option fmt :=
  match o with
  | NOP | RETURN_VOID | RETURN_VOID_NO_BARRIER => Some F10x
  | MOVE | MOVE_WIDE | MOVE_OBJECT | ARRAY_LENGTH | NEG_INT | NOT_INT | NEG_LONG | NOT_LONG
  | NEG_FLOAT | NEG_DOUBLE | INT_TO_LONG | INT_TO_FLOAT | INT_TO_DOUBLE | LONG_TO_INT
  | LONG_TO_FLOAT | LONG_TO_DOUBLE | FLOAT_TO_INT | FLOAT_TO_LONG | FLOAT_TO_DOUBLE
  | DOUBLE_TO_INT | DOUBLE_TO_LONG | DOUBLE_TO_FLOAT | INT_TO_BYTE | INT_TO_CHAR | INT_TO_SHORT
  | ADD_INT_2ADDR | SUB_INT_2ADDR | MUL_INT_2ADDR | DIV_INT_2ADDR | REM_INT_2ADDR | AND_INT_2ADDR
  | OR_INT_2ADDR | XOR_INT_2ADDR | SHL_INT_2ADDR | SHR_INT_2ADDR | USHR_INT_2ADDR | ADD_LONG_2ADDR
  | SUB_LONG_2ADDR | MUL_LONG_2ADDR | DIV_LONG_2ADDR | REM_LONG_2ADDR | AND_LONG_2ADDR
  | OR_LONG_2ADDR | XOR_LONG_2ADDR | SHL_LONG_2ADDR | SHR_LONG_2ADDR | USHR_LONG_2ADDR
  | ADD_FLOAT_2ADDR | SUB_FLOAT_2ADDR | MUL_FLOAT_2ADDR | DIV_FLOAT_2ADDR | REM_FLOAT_2ADDR
  | ADD_DOUBLE_2ADDR | SUB_DOUBLE_2ADDR | MUL_DOUBLE_2ADDR | DIV_DOUBLE_2ADDR
  | REM_DOUBLE_2ADDR => Some F12x
  | MOVE_FROM16 | MOVE_WIDE_FROM16 | MOVE_OBJECT_FROM16 => Some F22x
  | MOVE_16 | MOVE_WIDE_16 | MOVE_OBJECT_16 => Some F32x
  | MOVE_RESULT | MOVE_RESULT_WIDE | MOVE_RESULT_OBJECT | MOVE_EXCEPTION | RETURN | RETURN_WIDE
  | RETURN_OBJECT | MONITOR_ENTER | MONITOR_EXIT | THROW => Some F11x
  | CONST_4 => Some F11n
  | CONST_16 | CONST_WIDE_16 => Some F21s
  | CONST | CONST_WIDE_32 | FILL_ARRAY_DATA | PACKED_SWITCH | SPARSE_SWITCH => Some F31i
  | CONST_HIGH16 => Some (F21h 16)
  | CONST_WIDE => Some F51l
  | CONST_WIDE_HIGH16 => Some (F21h 48)
  | GOTO => Some F10t
  | GOTO_16 => Some F20t
  | GOTO_32 => Some F30t
  | CMPL_FLOAT | CMPG_FLOAT | CMPL_DOUBLE | CMPG_DOUBLE | CMP_LONG | AGET | AGET_WIDE
  | AGET_OBJECT | AGET_BOOLEAN | AGET_BYTE | AGET_CHAR | AGET_SHORT | APUT | APUT_WIDE
  | APUT_OBJECT | APUT_BOOLEAN | APUT_BYTE | APUT_CHAR | APUT_SHORT | ADD_INT | SUB_INT | MUL_INT
  | DIV_INT | REM_INT | AND_INT | OR_INT | XOR_INT | SHL_INT | SHR_INT | USHR_INT | ADD_LONG
  | SUB_LONG | MUL_LONG | DIV_LONG | REM_LONG | AND_LONG | OR_LONG | XOR_LONG | SHL_LONG
  | SHR_LONG | USHR_LONG | ADD_FLOAT | SUB_FLOAT | MUL_FLOAT | DIV_FLOAT | REM_FLOAT | ADD_DOUBLE
  | SUB_DOUBLE | MUL_DOUBLE | DIV_DOUBLE | REM_DOUBLE => Some F23x
  | IF_EQ | IF_NE | IF_LT | IF_GE | IF_GT | IF_LE => Some F22t
  | IF_EQZ | IF_NEZ | IF_LTZ | IF_GEZ | IF_GTZ | IF_LEZ => Some F21t
  | ADD_INT_LIT16 | RSUB_INT_LIT16 | MUL_INT_LIT16 | DIV_INT_LIT16 | REM_INT_LIT16 | AND_INT_LIT16
  | OR_INT_LIT16 | XOR_INT_LIT16 => Some F22s
  | ADD_INT_LIT8 | RSUB_INT_LIT8 | MUL_INT_LIT8 | DIV_INT_LIT8 | REM_INT_LIT8 | AND_INT_LIT8
  | OR_INT_LIT8 | XOR_INT_LIT8 | SHL_INT_LIT8 | SHR_INT_LIT8 | USHR_INT_LIT8 => Some F22b
  | IGET_QUICK | IGET_WIDE_QUICK | IGET_OBJECT_QUICK | IPUT_QUICK | IPUT_WIDE_QUICK
  | IPUT_OBJECT_QUICK => Some (F22cs Offset)
  | IPUT_BOOLEAN_QUICK | IPUT_BYTE_QUICK | IPUT_CHAR_QUICK | IPUT_SHORT_QUICK
  | IGET_BOOLEAN_QUICK | IGET_BYTE_QUICK | IGET_CHAR_QUICK
  | IGET_SHORT_QUICK => Some (F22cs Thing)
  | INVOKE_VIRTUAL_QUICK => Some (F35ms Vtable)
  | INVOKE_VIRTUAL_QUICK_RANGE => Some (F3rms Vtable)
  | INVOKE_CUSTOM => Some (F35ms CallSite)
  | INVOKE_CUSTOM_RANGE => Some (F3rms CallSite)
  | CONST_METHOD_HANDLE => Some (F21c MethodHandle)
  | _ => None
  end.
Definition mnemonic (o : dexop) : list Z :=
  chars match o with
  | NOP => "nop" | MOVE => "move" | MOVE_FROM16 => "move/from16" | MOVE_16 => "move/16"
  | MOVE_WIDE => "move-wide" | MOVE_WIDE_FROM16 => "move-wide/from16"
  | MOVE_WIDE_16 => "move-wide/16" | MOVE_OBJECT => "move-object"
  | MOVE_OBJECT_FROM16 => "move-object/from16" | MOVE_OBJECT_16 => "move-object/16"
  | MOVE_RESULT => "move-result" | MOVE_RESULT_WIDE => "move-result-wide"
  | MOVE_RESULT_OBJECT => "move-result-object" | MOVE_EXCEPTION => "move-exception"
  | RETURN_VOID => "return-void" | RETURN => "return" | RETURN_WIDE => "return-wide"
  | RETURN_OBJECT => "return-object" | CONST_4 => "const/4" | CONST_16 => "const/16"
  | CONST => "const" | CONST_HIGH16 => "const/high16" | CONST_WIDE_16 => "const-wide/16"
  | CONST_WIDE_32 => "const-wide/32" | CONST_WIDE => "const-wide"
  | CONST_WIDE_HIGH16 => "const-wide/high16" | CONST_STRING => "const-string"
  | CONST_STRING_JUMBO => "const-string/jumbo" | CONST_CLASS => "const-class"
  | MONITOR_ENTER => "monitor-enter" | MONITOR_EXIT => "monitor-exit" | CHECK_CAST => "check-cast"
  | INSTANCE_OF => "instance-of" | ARRAY_LENGTH => "array-length" | NEW_INSTANCE => "new-instance"
  | NEW_ARRAY => "new-array" | FILLED_NEW_ARRAY => "filled-new-array"
  | FILLED_NEW_ARRAY_RANGE => "filled-new-array/range" | FILL_ARRAY_DATA => "fill-array-data"
  | THROW => "throw" | GOTO => "goto" | GOTO_16 => "goto/16" | GOTO_32 => "goto/32"
  | PACKED_SWITCH => "packed-switch" | SPARSE_SWITCH => "sparse-switch"
  | CMPL_FLOAT => "cmpl-float" | CMPG_FLOAT => "cmpg-float" | CMPL_DOUBLE => "cmpl-double"
  | CMPG_DOUBLE => "cmpg-double" | CMP_LONG => "cmp-long" | IF_EQ => "if-eq" | IF_NE => "if-ne"
  | IF_LT => "if-lt" | IF_GE => "if-ge" | IF_GT => "if-gt" | IF_LE => "if-le" | IF_EQZ => "if-eqz"
  | IF_NEZ => "if-nez" | IF_LTZ => "if-ltz" | IF_GEZ => "if-gez" | IF_GTZ => "if-gtz"
  | IF_LEZ => "if-lez" | AGET => "aget" | AGET_WIDE => "aget-wide" | AGET_OBJECT => "aget-object"
  | AGET_BOOLEAN => "aget-boolean" | AGET_BYTE => "aget-byte" | AGET_CHAR => "aget-char"
  | AGET_SHORT => "aget-short" | APUT => "aput" | APUT_WIDE => "aput-wide"
  | APUT_OBJECT => "aput-object" | APUT_BOOLEAN => "aput-boolean" | APUT_BYTE => "aput-byte"
  | APUT_CHAR => "aput-char" | APUT_SHORT => "aput-short" | IGET => "iget"
  | IGET_WIDE => "iget-wide" | IGET_OBJECT => "iget-object" | IGET_BOOLEAN => "iget-boolean"
  | IGET_BYTE => "iget-byte" | IGET_CHAR => "iget-char" | IGET_SHORT => "iget-short"
  | IPUT => "iput" | IPUT_WIDE => "iput-wide" | IPUT_OBJECT => "iput-object"
  | IPUT_BOOLEAN => "iput-boolean" | IPUT_BYTE => "iput-byte" | IPUT_CHAR => "iput-char"
  | IPUT_SHORT => "iput-short" | SGET => "sget" | SGET_WIDE => "sget-wide"
  | SGET_OBJECT => "sget-object" | SGET_BOOLEAN => "sget-boolean" | SGET_BYTE => "sget-byte"
  | SGET_CHAR => "sget-char" | SGET_SHORT => "sget-short" | SPUT => "sput"
  | SPUT_WIDE => "sput-wide" | SPUT_OBJECT => "sput-object" | SPUT_BOOLEAN => "sput-boolean"
  | SPUT_BYTE => "sput-byte" | SPUT_CHAR => "sput-char" | SPUT_SHORT => "sput-short"
  | INVOKE_VIRTUAL => "invoke-virtual" | INVOKE_SUPER => "invoke-super"
  | INVOKE_DIRECT => "invoke-direct" | INVOKE_STATIC => "invoke-static"
  | INVOKE_INTERFACE => "invoke-interface" | RETURN_VOID_NO_BARRIER => "return-void-no-barrier"
  | INVOKE_VIRTUAL_RANGE => "invoke-virtual/range" | INVOKE_SUPER_RANGE => "invoke-super/range"
  | INVOKE_DIRECT_RANGE => "invoke-direct/range" | INVOKE_STATIC_RANGE => "invoke-static/range"
  | INVOKE_INTERFACE_RANGE => "invoke-interface/range" | NEG_INT => "neg-int"
  | NOT_INT => "not-int" | NEG_LONG => "neg-long" | NOT_LONG => "not-long"
  | NEG_FLOAT => "neg-float" | NEG_DOUBLE => "neg-double" | INT_TO_LONG => "int-to-long"
  | INT_TO_FLOAT => "int-to-float" | INT_TO_DOUBLE => "int-to-double"
  | LONG_TO_INT => "long-to-int" | LONG_TO_FLOAT => "long-to-float"
  | LONG_TO_DOUBLE => "long-to-double" | FLOAT_TO_INT => "float-to-int"
  | FLOAT_TO_LONG => "float-to-long" | FLOAT_TO_DOUBLE => "float-to-double"
  | DOUBLE_TO_INT => "double-to-int" | DOUBLE_TO_LONG => "double-to-long"
  | DOUBLE_TO_FLOAT => "double-to-float" | INT_TO_BYTE => "int-to-byte"
  | INT_TO_CHAR => "int-to-char" | INT_TO_SHORT => "int-to-short" | ADD_INT => "add-int"
  | SUB_INT => "sub-int" | MUL_INT => "mul-int" | DIV_INT => "div-int" | REM_INT => "rem-int"
  | AND_INT => "and-int" | OR_INT => "or-int" | XOR_INT => "xor-int" | SHL_INT => "shl-int"
  | SHR_INT => "shr-int" | USHR_INT => "ushr-int" | ADD_LONG => "add-long"
  | SUB_LONG => "sub-long" | MUL_LONG => "mul-long" | DIV_LONG => "div-long"
  | REM_LONG => "rem-long" | AND_LONG => "and-long" | OR_LONG => "or-long"
  | XOR_LONG => "xor-long" | SHL_LONG => "shl-long" | SHR_LONG => "shr-long"
  | USHR_LONG => "ushr-long" | ADD_FLOAT => "add-float" | SUB_FLOAT => "sub-float"
  | MUL_FLOAT => "mul-float" | DIV_FLOAT => "div-float" | REM_FLOAT => "rem-float"
  | ADD_DOUBLE => "add-double" | SUB_DOUBLE => "sub-double" | MUL_DOUBLE => "mul-double"
  | DIV_DOUBLE => "div-double" | REM_DOUBLE => "rem-double" | ADD_INT_2ADDR => "add-int/2addr"
  | SUB_INT_2ADDR => "sub-int/2addr" | MUL_INT_2ADDR => "mul-int/2addr"
  | DIV_INT_2ADDR => "div-int/2addr" | REM_INT_2ADDR => "rem-int/2addr"
  | AND_INT_2ADDR => "and-int/2addr" | OR_INT_2ADDR => "or-int/2addr"
  | XOR_INT_2ADDR => "xor-int/2addr" | SHL_INT_2ADDR => "shl-int/2addr"
  | SHR_INT_2ADDR => "shr-int/2addr" | USHR_INT_2ADDR => "ushr-int/2addr"
  | ADD_LONG_2ADDR => "add-long/2addr" | SUB_LONG_2ADDR => "sub-long/2addr"
  | MUL_LONG_2ADDR => "mul-long/2addr" | DIV_LONG_2ADDR => "div-long/2addr"
  | REM_LONG_2ADDR => "rem-long/2addr" | AND_LONG_2ADDR => "and-long/2addr"
  | OR_LONG_2ADDR => "or-long/2addr" | XOR_LONG_2ADDR => "xor-long/2addr"
  | SHL_LONG_2ADDR => "shl-long/2addr" | SHR_LONG_2ADDR => "shr-long/2addr"
  | USHR_LONG_2ADDR => "ushr-long/2addr" | ADD_FLOAT_2ADDR => "add-float/2addr"
  | SUB_FLOAT_2ADDR => "sub-float/2addr" | MUL_FLOAT_2ADDR => "mul-float/2addr"
  | DIV_FLOAT_2ADDR => "div-float/2addr" | REM_FLOAT_2ADDR => "rem-float/2addr"
  | ADD_DOUBLE_2ADDR => "add-double/2addr" | SUB_DOUBLE_2ADDR => "sub-double/2addr"
  | MUL_DOUBLE_2ADDR => "mul-double/2addr" | DIV_DOUBLE_2ADDR => "div-double/2addr"
  | REM_DOUBLE_2ADDR => "rem-double/2addr" | ADD_INT_LIT16 => "add-int/lit16"
  | RSUB_INT_LIT16 => "rsub-int/lit16" | MUL_INT_LIT16 => "mul-int/lit16"
  | DIV_INT_LIT16 => "div-int/lit16" | REM_INT_LIT16 => "rem-int/lit16"
  | AND_INT_LIT16 => "and-int/lit16" | OR_INT_LIT16 => "or-int/lit16"
  | XOR_INT_LIT16 => "xor-int/lit16" | ADD_INT_LIT8 => "add-int/lit8"
  | RSUB_INT_LIT8 => "rsub-int/lit8" | MUL_INT_LIT8 => "mul-int/lit8"
  | DIV_INT_LIT8 => "div-int/lit8" | REM_INT_LIT8 => "rem-int/lit8"
  | AND_INT_LIT8 => "and-int/lit8" | OR_INT_LIT8 => "or-int/lit8" | XOR_INT_LIT8 => "xor-int/lit8"
  | SHL_INT_LIT8 => "shl-int/lit8" | SHR_INT_LIT8 => "shr-int/lit8"
  | USHR_INT_LIT8 => "ushr-int/lit8" | IGET_QUICK => "iget-quick"
  | IGET_WIDE_QUICK => "iget-wide-quick" | IGET_OBJECT_QUICK => "iget-object-quick"
  | IPUT_QUICK => "iput-quick" | IPUT_WIDE_QUICK => "iput-wide-quick"
  | IPUT_OBJECT_QUICK => "iput-object-quick" | INVOKE_VIRTUAL_QUICK => "invoke-virtual-quick"
  | INVOKE_VIRTUAL_QUICK_RANGE => "invoke-virtual-quick/range"
  | IPUT_BOOLEAN_QUICK => "iput-boolean-quick" | IPUT_BYTE_QUICK => "iput-byte-quick"
  | IPUT_CHAR_QUICK => "iput-char-quick" | IPUT_SHORT_QUICK => "iput-short-quick"
  | IGET_BOOLEAN_QUICK => "iget-boolean-quick" | IGET_BYTE_QUICK => "iget-byte-quick"
  | IGET_CHAR_QUICK => "iget-char-quick" | IGET_SHORT_QUICK => "iget-short-quick"
  | INVOKE_POLYMORPHIC => "invoke-polymorphic"
  | INVOKE_POLYMORPHIC_RANGE => "invoke-polymorphic/range" | INVOKE_CUSTOM => "invoke-custom"
  | INVOKE_CUSTOM_RANGE => "invoke-custom/range" | CONST_METHOD_HANDLE => "const-method-handle"
  | CONST_METHOD_TYPE => "const-method-type"
  end%string.

(** The operands of a format: registers, then a literal, the distance of a jump or a number;
    a call has a list of registers, or the first register and their number. *)
Inductive operands :=
  | P10x | P12x (a b : Z) | P11n (a v : Z) | P11x (a : Z) | P22x (a b : Z) | P32x (a b : Z)
  | P21s (a v : Z) | P31i (a v : Z) | P21h (shift a v : Z) | P51l (a v : Z) | P23x (a b c : Z)
  | P22b (a b v : Z) | P22s (a b v : Z) | P10t (d : Z) | P20t (d : Z) | P30t (d : Z)
  | P22t (a b d : Z) | P21t (a d : Z) | P22cs (k : counted) (a b n : Z)
  | P35ms (k : counted) (regs : list Z) (n : Z) | P3rms (k : counted) (first num n : Z)
  | P21c (k : counted) (a n : Z).
Definition shape (ops : operands) : fmt :=
  match ops with
  | P10x => F10x | P12x _ _ => F12x | P11n _ _ => F11n | P11x _ => F11x | P22x _ _ => F22x
  | P32x _ _ => F32x | P21s _ _ => F21s | P31i _ _ => F31i | P21h k _ _ => F21h k
  | P51l _ _ => F51l | P23x _ _ _ => F23x | P22b _ _ _ => F22b | P22s _ _ _ => F22s
  | P10t _ => F10t | P20t _ => F20t | P30t _ => F30t | P22t _ _ _ => F22t | P21t _ _ => F21t
  | P22cs k _ _ _ => F22cs k | P35ms k _ _ => F35ms k | P3rms k _ _ _ => F3rms k
  | P21c k _ _ => F21c k
  end.
(** The operands fit the widths of the format. *)
Definition bits (n v : Z) : Prop := 0 <= v < 2 ^ n.
Definition signed (n v : Z) : Prop := - 2 ^ (n - 1) <= v < 2 ^ (n - 1).
Definition operands_ok (ops : operands) : Prop :=
  match ops with
  | P10x => True
  | P12x a b => bits 4 a /\ bits 4 b
  | P11n a v => bits 4 a /\ signed 4 v
  | P11x a => bits 8 a
  | P22x a b => bits 8 a /\ bits 16 b
  | P32x a b => bits 16 a /\ bits 16 b
  | P21s a v | P21h _ a v | P21t a v => bits 8 a /\ signed 16 v
  | P31i a v => bits 8 a /\ signed 32 v
  | P51l a v => bits 8 a /\ signed 64 v
  | P23x a b c => bits 8 a /\ bits 8 b /\ bits 8 c
  | P22b a b v => bits 8 a /\ bits 8 b /\ signed 8 v
  | P22s a b v | P22t a b v => bits 4 a /\ bits 4 b /\ signed 16 v
  | P10t d => signed 8 d
  | P20t d => signed 16 d
  | P30t d => signed 32 d
  | P22cs _ a b n => bits 4 a /\ bits 4 b /\ bits 16 n
  | P35ms _ regs n => (length regs <= 5)%nat /\ Forall (bits 4) regs /\ bits 16 n
  | P3rms _ first num n => bits 16 first /\ bits 8 num /\ bits 16 n
  | P21c _ a n => bits 8 a /\ bits 16 n
  end.

(** The code units of an instruction. *)
Definition part (v k : Z) : Z := (v / 2 ^ k) mod 2 ^ 16.
Definition assemble (o : dexop) (ops : operands) : list Z :=
  let unit aa := opcode o + aa * 2 ^ 8 in
  let unit2 a b := opcode o + a * 2 ^ 8 + b * 2 ^ 12 in
  match ops with
  | P10x => [unit 0]
  | P12x a b => [unit2 a b]
  | P11n a v => [unit2 a (v mod 2 ^ 4)]
  | P11x a => [unit a]
  | P22x a b => [unit a; b]
  | P32x a b => [unit 0; a; b]
  | P21s a v | P21h _ a v | P21t a v => [unit a; v mod 2 ^ 16]
  | P31i a v => [unit a; part v 0; part v 16]
  | P51l a v => [unit a; part v 0; part v 16; part v 32; part v 48]
  | P23x a b c => [unit a; b + c * 2 ^ 8]
  | P22b a b v => [unit a; b + (v mod 2 ^ 8) * 2 ^ 8]
  | P22s a b v | P22t a b v => [unit2 a b; v mod 2 ^ 16]
  | P10t d => [unit (d mod 2 ^ 8)]
  | P20t d => [unit 0; d mod 2 ^ 16]
  | P30t d => [unit 0; part d 0; part d 16]
  | P22cs _ a b n => [unit2 a b; n]
  | P35ms _ regs n =>
      let r i := nth i regs 0 in
      [unit2 (r 4%nat) (Z.of_nat (length regs)); n;
       r 0%nat + r 1%nat * 2 ^ 4 + r 2%nat * 2 ^ 8 + r 3%nat * 2 ^ 12]
  | P3rms _ first num n => [unit num; n; first]
  | P21c _ a n => [unit a; n]
  end.

(** The assembly of the operands, for an instruction at [p].  The digits of a negative number
    of [n] bits are those of its magnitude, but the least number shows as 0. *)
Definition shown_digits (n v : Z) : Z := if v =? - 2 ^ (n - 1) then 0 else - v.
Definition lit (n shift v : Z) : list Z :=
  if v <? 0 then chars "#-" ++ to_string (shown_digits n v * 2 ^ shift)
  else chars "#+" ++ to_string (v * 2 ^ shift).
(** A jump over [d] code units, a number of [n] bits; forward, only the low [w] bits count. *)
Definition jump (p n w d : Z) : list Z :=
  if d <? 0 then ToHex (u64 (p - 2 * shown_digits n d)) ++ chars " //-" ++ to_string (shown_digits n d)
  else ToHex (u64 (p + 2 * (d mod 2 ^ w))) ++ chars " //+" ++ to_string (d mod 2 ^ w).
(** A number, and the registers of a call. *)
Definition number (k : counted) (n : Z) : list Z :=
  chars match k with
        | Offset => " // offset@" | Thing => " // thing@" | Vtable => " // vtable@"
        | CallSite => " // call_site@" | MethodHandle => " // method_handle@"
        end%string ++ to_string n.
Fixpoint listed (regs : list Z) : list Z :=
  match regs with
  | [] => []
  | [r] => vreg r
  | r :: regs => vreg r ++ comma_sp ++ listed regs
  end.
Definition operand_text (p : Z) (ops : operands) : list Z :=
  match ops with
  | P10x => []
  | P12x a b | P22x a b | P32x a b => chars " " ++ vreg a ++ comma_sp ++ vreg b
  | P11x a => chars " " ++ vreg a
  | P11n a v => chars " " ++ vreg a ++ comma_sp ++ lit 4 0 v
  | P21s a v => chars " " ++ vreg a ++ comma_sp ++ lit 16 0 v
  | P31i a v => chars " " ++ vreg a ++ comma_sp ++ lit 32 0 v
  | P51l a v => chars " " ++ vreg a ++ comma_sp ++ lit 64 0 v
  | P21h k a v => chars " " ++ vreg a ++ comma_sp ++ lit 16 k v
  | P23x a b c => chars " " ++ vreg a ++ comma_sp ++ vreg b ++ comma_sp ++ vreg c
  | P22b a b v => chars " " ++ vreg a ++ comma_sp ++ vreg b ++ comma_sp ++ lit 8 0 v
  | P22s a b v => chars " " ++ vreg a ++ comma_sp ++ vreg b ++ comma_sp ++ lit 16 0 v
  | P10t d => chars " " ++ jump p 8 8 d
  | P20t d => chars " " ++ jump p 16 8 d
  | P30t d => chars " " ++ jump p 32 32 d
  | P22t a b d => chars " " ++ vreg a ++ comma_sp ++ vreg b ++ comma_sp ++ jump p 16 16 d
  | P21t a d => chars " " ++ vreg a ++ comma_sp ++ jump p 16 16 d
  | P22cs k a b n => chars " " ++ vreg a ++ comma_sp ++ vreg b ++ comma_sp ++ number k n
  | P35ms k regs n => chars " " ++ chars "{" ++ listed regs ++ chars "}, " ++ number k n
  | P3rms k first num n =>
      chars " " ++ chars "{" ++ vreg first ++ chars " .. " ++ vreg (first + num - 1) ++ chars "}, "
      ++ number k n
  | P21c k a n => chars " " ++ vreg a ++ comma_sp ++ number k n
  end.

(** * Fields of code units *)

Lemma unit_aa_div u : bits 16 u -> unit_aa u = u / 2 ^ 8.
Proof.
  unfold bits, unit_aa. intros Hu. rewrite Z.shiftr_land. change (Z.shiftr 0xFF00 8) with (Z.ones 8).
  rewrite Z.land_ones, Z.shiftr_div_pow2, Z.mod_small by lia. done.
Qed.
Lemma unit_a_div u : bits 16 u -> unit_a u = (u / 2 ^ 8) mod 2 ^ 4.
Proof.
  intros Hu. unfold unit_a. rewrite unit_aa_div by done. change 0x0F with (Z.ones 4).
  by rewrite Z.land_ones by lia.
Qed.
Lemma unit_b_div u : bits 16 u -> unit_b u = u / 2 ^ 12.
Proof.
  unfold bits. intros Hu. unfold unit_b. rewrite unit_aa_div by done. rewrite Z.shiftr_land.
  change (Z.shiftr 0xF0 4) with (Z.ones 4). rewrite Z.land_ones, Z.shiftr_div_pow2 by lia.
  rewrite Z.mod_small; lia.
Qed.
Lemma high_nibble u : bits 16 u -> Z.shiftr (Z.land u 0xF000) 12 = u / 2 ^ 12.
Proof.
  unfold bits. intros Hu. rewrite Z.shiftr_land. change (Z.shiftr 0xF000 12) with (Z.ones 4).
  rewrite Z.land_ones, Z.shiftr_div_pow2, Z.mod_small by lia. done.
Qed.
Lemma low_nibble u : bits 16 u -> Z.shiftr (Z.land u 0x0F00) 8 = (u / 2 ^ 8) mod 2 ^ 4.
Proof.
  intros Hu. rewrite Z.shiftr_land. change (Z.shiftr 0x0F00 8) with (Z.ones 4).
  by rewrite Z.land_ones, Z.shiftr_div_pow2 by lia.
Qed.
Lemma low_byte_mod u : low_byte u = u mod 2 ^ 8.
Proof. unfold low_byte. change 0x00FF with (Z.ones 8). by rewrite Z.land_ones by lia. Qed.
Lemma wide_sum lo hi : bits 16 lo -> bits 16 hi -> wide lo hi = lo + hi * 2 ^ 16.
Proof.
  unfold bits. intros Hl Hh. unfold wide. change 0xFFFF with (Z.ones 16).
  rewrite Z.land_ones, Z.mod_small, Z.shiftl_mul_pow2, Z.lor_comm by lia. by apply lor_high.
Qed.
Lemma wide4_sum a b c d : bits 16 a -> bits 16 b -> bits 16 c -> bits 16 d ->
  wide4 a b c d = a + b * 2 ^ 16 + c * 2 ^ 32 + d * 2 ^ 48.
Proof.
  unfold bits. intros Ha Hb Hc Hd. unfold wide4. change 0xFFFF with (Z.ones 16).
  rewrite !Z.land_ones, !Z.mod_small, !Z.shiftl_mul_pow2 by lia.
  rewrite (Z.lor_comm (d * _)), (lor_high _ d 48) by lia.
  replace (c * 2 ^ 32 + d * 2 ^ 48) with ((c + d * 2 ^ 16) * 2 ^ 32) by lia.
  rewrite (Z.lor_comm _ (b * _)), (lor_high _ _ 32) by lia.
  replace (b * 2 ^ 16 + (c + d * 2 ^ 16) * 2 ^ 32)
    with ((b + (c + d * 2 ^ 16) * 2 ^ 16) * 2 ^ 16) by lia.
  rewrite Z.lor_comm, (lor_high _ _ 16) by lia. lia.
Qed.

(** * Numbers with a sign *)

Lemma negative_high k u : 0 <= k -> 0 <= u < 2 ^ (k + 1) -> negative (2 ^ k) u = (2 ^ k <=? u).
Proof.
  intros Hk Hu. rewrite Z.pow_add_r in Hu by lia.
  assert (Ht : Z.testbit u k = (2 ^ k <=? u)).
  { rewrite <- (Z.add_0_l k) at 1. rewrite <- Z.shiftr_spec, Z.bit0_odd, Z.shiftr_div_pow2 by lia.
    destruct (Z.leb_spec (2 ^ k) u).
    - by replace (u / 2 ^ k) with 1 by (apply Z.div_unique with (u - 2 ^ k); lia).
    - by rewrite Z.div_small by lia. }
  unfold negative, nz. rewrite <- Ht. destruct (Z.eqb_spec (Z.land u (2 ^ k)) 0) as [E|E].
  - apply (f_equal (fun v => Z.testbit v k)) in E.
    by rewrite Z.land_spec, Z.pow2_bits_true, Z.bits_0, andb_true_r in E by lia.
  - cbn. destruct (Z.testbit u k) eqn:Eb; [done|]. exfalso. apply E. apply Z.bits_inj'. intros i Hi.
    rewrite Z.land_spec, Z.bits_0, Z.pow2_bits_eqb by lia.
    destruct (Z.eqb_spec k i) as [<-|]; by rewrite ?Eb, ?andb_false_r.
Qed.
Lemma magnitude_mod k u : 0 <= k -> magnitude (2 ^ k - 1) u = (- u) mod 2 ^ k.
Proof.
  intros Hk. unfold magnitude. replace (2 ^ k - 1) with (Z.ones k) by (rewrite Z.ones_equiv; lia).
  rewrite !Z.land_ones by lia. unfold Z.lnot.
  replace (Z.pred (- (u mod 2 ^ k - 1))) with (- (u mod 2 ^ k)) by lia.
  by rewrite <- Z.sub_0_l, Zminus_mod_idemp_r, Z.sub_0_l.
Qed.
(** The parts of a signed number kept in [k + 1] bits. *)
Lemma signed_parts k v : 0 <= k -> signed (k + 1) v ->
  let u := v mod 2 ^ (k + 1) in
  negative (2 ^ k) u = (v <? 0) /\
  (v < 0 -> magnitude (2 ^ k - 1) u = shown_digits (k + 1) v) /\ (0 <= v -> Z.land u (2 ^ k - 1) = v).
Proof.
  intros Hk Hv u. unfold signed in Hv. replace (k + 1 - 1) with k in Hv by lia.
  assert (Hp : 2 ^ (k + 1) = 2 * 2 ^ k) by (rewrite Z.pow_add_r; lia).
  assert (Hu : u = if v <? 0 then v + 2 * 2 ^ k else v).
  { unfold u. rewrite Hp. destruct (Z.ltb_spec v 0).
    - rewrite <- (Z_mod_plus_full v 1), Z.mod_small; lia.
    - apply Z.mod_small. lia. }
  split_and!.
  - rewrite negative_high by (try apply Z.mod_pos_bound; lia). rewrite Hu.
    destruct (Z.ltb_spec v 0); [apply Z.leb_le|apply Z.leb_gt]; lia.
  - intros Hn. rewrite magnitude_mod by lia. rewrite Hu, (proj2 (Z.ltb_lt v 0) Hn).
    replace (- (v + 2 * 2 ^ k)) with (- v + -2 * 2 ^ k) by lia.
    rewrite Z_mod_plus_full. unfold shown_digits. replace (k + 1 - 1) with k by lia.
    destruct (Z.eqb_spec v (- 2 ^ k)) as [->|Hne].
    + by rewrite Z.opp_involutive, Z_mod_same_full.
    + apply Z.mod_small. lia.
  - intros Hn. rewrite Hu, (proj2 (Z.ltb_ge v 0) Hn).
    replace (2 ^ k - 1) with (Z.ones k) by (rewrite Z.ones_equiv; lia).
    rewrite Z.land_ones, Z.mod_small; lia.
Qed.
Lemma digits_range n v : 0 < n -> signed n v -> v < 0 -> 0 <= shown_digits n v < 2 ^ (n - 1).
Proof.
  intros Hn Hv Hneg. unfold shown_digits, signed in *. pose proof (Z.pow_pos_nonneg 2 (n - 1)).
  destruct (Z.eqb_spec v (- 2 ^ (n - 1))); lia.
Qed.
(** A literal of [k + 1] bits. *)
Lemma literal_text k shift v : 0 <= k -> 0 <= shift -> signed (k + 1) v ->
  literal (2 ^ k) shift (v mod 2 ^ (k + 1)) = lit (k + 1) shift v.
Proof.
  intros Hk Hs Hv. destruct (signed_parts k v Hk Hv) as (Hn & Hneg & Hpos).
  unfold literal, lit. rewrite Hn. destruct (Z.ltb_spec v 0).
  - by rewrite Hneg, Z.shiftl_mul_pow2 by lia.
  - by rewrite Hpos, Z.shiftl_mul_pow2 by lia.
Qed.
(** A jump over a number of [k + 1] bits, the distance forward kept in [w] bits. *)
Lemma branch_text k w p d : 0 <= k < 32 -> 0 <= w <= 32 -> signed (k + 1) d ->
  branch p (2 ^ k) w (d mod 2 ^ (k + 1)) = jump p (k + 1) w d.
Proof.
  intros Hk Hw Hd. destruct (signed_parts k d ltac:(lia) Hd) as (Hn & Hneg & Hpos).
  pose proof (digits_range (k + 1) d ltac:(lia) Hd) as Hr. pose proof Hd as Hd'. unfold signed in Hd'.
  replace (k + 1 - 1) with k in * by lia. pose proof (Z.pow_le_mono_r 2 k 31 ltac:(lia) ltac:(lia)).
  unfold branch, jump. rewrite Hn. destruct (Z.ltb_spec d 0).
  - specialize (Hr ltac:(lia)). rewrite Hneg, (wrap_small 32) by lia. do 2 f_equal. f_equal. lia.
  - rewrite Hpos by lia. fold (d mod 2 ^ w). change (wrap w d) with (d mod 2 ^ w).
    pose proof (Z.mod_pos_bound d (2 ^ w) ltac:(apply Z.pow_pos_nonneg; lia)).
    pose proof (Z.mod_le d (2 ^ w) ltac:(lia) ltac:(apply Z.pow_pos_nonneg; lia)).
    rewrite (wrap_small 32) by lia. do 2 f_equal. f_equal. lia.
Qed.

(** * Code units of the target *)

Definition unit_bytes (us : list Z) : list Z := flat_map (le_bytes 2) us.
Lemma value_byte o : bits 8 (opcode o).
Proof. unfold bits. destruct o; cbn; lia. Qed.

Section Print.
Context {M : Machine} (sdk : Z) (c : CoreApi) (run : Z -> Z -> option (list Z))
  `{!Presents c run} (light : bool).

(** The code unit [i] of an instruction in the target. *)
Lemma unit_read us : forall r a i u, ref_ok c r -> vaddr r = a ->
  shown c run a (unit_bytes us) -> us !! i = Some u -> bits 16 u ->
  code_unit c r (2 * Z.of_nat i) = Ok u.
Proof.
  intros r a i u Hr Ha Hs Hi Hu. unfold code_unit.
  assert (Hsplit : unit_bytes us
      = unit_bytes (take i us) ++ le_bytes 2 u ++ unit_bytes (drop (S i) us)).
  { unfold unit_bytes. rewrite <- (take_drop_middle us i u Hi) at 1. by rewrite flat_map_app. }
  assert (Hlen : forall l, length (unit_bytes l) = (2 * length l)%nat).
  { induction l as [|x l IH]; [done|]. unfold unit_bytes in *. cbn [flat_map].
    rewrite length_app, le_bytes_length, IH. cbn. lia. }
  pose proof (lookup_lt_Some _ _ _ Hi) as Hlt.
  rewrite (word_shown c run r a _ _ 2 Hr Ha Hs) by (rewrite ?Hlen; lia).
  rewrite Hsplit. replace (Z.to_nat (2 * Z.of_nat i)) with (length (unit_bytes (take i us)))
    by (rewrite Hlen, length_take; lia).
  rewrite drop_app_length, take_app_length' by (by rewrite le_bytes_length).
  rewrite le_value_bytes. f_equal. by apply Z.mod_small.
Qed.
(** Its opcode. *)
Lemma op_read u us r a : ref_ok c r -> vaddr r = a ->
  shown c run a (unit_bytes (u :: us)) -> bits 16 u -> GetDexOp c r = Ok (u mod 2 ^ 8).
Proof.
  intros Hr Ha Hs Hu. unfold GetDexOp.
  rewrite (word_shown c run r a _ 0 1 Hr Ha Hs) by
    (unfold unit_bytes; cbn [flat_map]; rewrite ?length_app, ?le_bytes_length; lia).
  change (Z.to_nat 0) with 0%nat. change (Z.to_nat 1) with 1%nat. unfold unit_bytes.
  cbn [flat_map app le_bytes drop take le_value]. f_equal. lia.
Qed.

(** * The switches *)

Lemma dex_op_opcode o : dex_op (opcode o) = Some o.
Proof. destruct o; reflexivity. Qed.
Lemma valid_value o : IsVaildDexOp (opcode o) = true.
Proof. destruct o; reflexivity. Qed.

(** The function for a format. *)
Definition codec_of (f : fmt) (o : dexop) (r : MemoryRef) : result (list Z) :=
  match f with
  | F10x => AppendCodecNoArgs c light (mnemonic o) r
  | F12x => AppendCodecArgsvAvB c light (mnemonic o) r
  | F11n => AppendCodecArgsvAB c light (mnemonic o) r
  | F11x => AppendCodecArgsvAA c light (mnemonic o) r
  | F22x => AppendCodecArgsvAAvBBBB c light (mnemonic o) r
  | F32x => AppendCodecArgsvAAAAvBBBB c light (mnemonic o) r
  | F21s => AppendCodecArgsvAABBBB c light (mnemonic o) r
  | F31i => AppendCodecArgsvAABBBBBBBB c light (mnemonic o) r
  | F21h k => if k =? 16 then AppendCodecArgsvAABBBB0000 c light (mnemonic o) r
              else AppendCodecArgsvAABBBB000000000000 c light (mnemonic o) r
  | F51l => AppendCodecArgsvAABBBBBBBBBBBBBBBB c light (mnemonic o) r
  | F23x => AppendCodecArgsvAAvBBvCC c light (mnemonic o) r
  | F22b => AppendCodecArgsvAAvBBCC c light (mnemonic o) r
  | F22s => AppendCodecArgsvAvBCCCC c light (mnemonic o) r
  | F10t => AppendCodecGoto c light r
  | F20t => AppendCodecGoto16 c light r
  | F30t => AppendCodecGoto32 c light r
  | F22t => AppendCodecIfTest c light o r
  | F21t => AppendCodecIfTestz c light o r
  | F22cs k => match k with
               | Thing => AppendCodecIInstanceQuickThingOp c light o r
               | _ => AppendCodecIInstanceQuickOffsetOp c light o r
               end
  | F35ms k => match k with
               | CallSite => AppendCodecInvokeCustom c light r r
               | _ => AppendCodecInvokeVirtualQuick c light r
               end
  | F3rms k => match k with
               | CallSite => AppendCodecInvokeCustomRange c light r r
               | _ => AppendCodecInvokeVirtualQuickRange c light r
               end
  | F21c _ => AppendCodecConstMethodHandle c light r r
  end.
Lemma pretty_codec o f r dex : format o = Some f -> o <> NOP ->
  pretty_op sdk c light o r dex = codec_of f o r.
Proof. destruct o; intros [=]; subst f; intros Hn; try reflexivity; by destruct Hn. Qed.
Lemma goto_name o : format o = Some F10t -> mnemonic o = chars "goto".
Proof. by destruct o. Qed.
Lemma goto16_name o : format o = Some F20t -> mnemonic o = chars "goto/16".
Proof. by destruct o. Qed.
Lemma goto32_name o : format o = Some F30t -> mnemonic o = chars "goto/32".
Proof. by destruct o. Qed.
Lemma if_name o : format o = Some F22t -> op_name kIfTest o IF_EQ = Ok (mnemonic o).
Proof. by destruct o. Qed.
Lemma ifz_name o : format o = Some F21t -> op_name kIfTestz o IF_EQZ = Ok (mnemonic o).
Proof. by destruct o. Qed.
Lemma offset_name o : format o = Some (F22cs Offset) ->
  op_name kIInstanceQuickOffsetOp o IGET_QUICK = Ok (mnemonic o).
Proof. by destruct o. Qed.
Lemma thing_name o : format o = Some (F22cs Thing) ->
  op_name kIInstanceQuickThingOp o IPUT_BOOLEAN_QUICK = Ok (mnemonic o).
Proof. by destruct o. Qed.
Lemma high_shift o k : format o = Some (F21h k) -> k = 16 \/ k = 48.
Proof. destruct o; intros [=]; auto. Qed.
Lemma nop_format o : o = NOP -> format o = Some F10x.
Proof. by intros ->. Qed.

(** The size of an instruction is that of its encoding. *)
Lemma size_units o ops r : format o = Some (shape ops) -> operands_ok ops ->
  GetDexOp c r = Ok (opcode o) -> (o = NOP -> code_unit c r 0 = Ok 0) ->
  GetDexInstSize c r = Ok (2 * Z.of_nat (length (assemble o ops))).
Proof.
  intros Hf _ Hop Hnop. unfold GetDexInstSize. rewrite Hop. cbn [rbind].
  rewrite valid_value, dex_op_opcode. cbn [negb].
  destruct o; try discriminate Hf; destruct ops; try discriminate Hf; try reflexivity.
  by rewrite Hnop.
Qed.

(** * The text of an instruction *)

Lemma aa_unit o aa : bits 8 aa ->
  let u := opcode o + aa * 2 ^ 8 in bits 16 u /\ unit_aa u = aa.
Proof.
  intros Ha u. pose proof (value_byte o) as Hv. unfold bits in *.
  assert (Hu : bits 16 u) by (unfold bits, u; lia). split; [done|].
  rewrite unit_aa_div by done. unfold u. lia.
Qed.
Lemma ab_unit o a b : bits 4 a -> bits 4 b ->
  let u := opcode o + a * 2 ^ 8 + b * 2 ^ 12 in
  bits 16 u /\ unit_a u = a /\ unit_b u = b /\
  Z.shiftr (Z.land u 0x0F00) 8 = a /\ Z.shiftr (Z.land u 0xF000) 12 = b.
Proof.
  intros Ha Hb u. pose proof (value_byte o) as Hv. unfold bits in *.
  assert (Hu : bits 16 u) by (unfold bits, u; lia).
  rewrite unit_a_div, unit_b_div, low_nibble, high_nibble by done. split; [done|].
  unfold u. split_and!; lia.
Qed.
Lemma bc_unit b cc : bits 8 b -> bits 8 cc ->
  let u := b + cc * 2 ^ 8 in bits 16 u /\ low_byte u = b /\ unit_aa u = cc.
Proof.
  intros Hb Hc u. unfold bits in *. assert (Hu : bits 16 u) by (unfold bits, u; lia).
  rewrite unit_aa_div, low_byte_mod by done. split; [done|]. unfold u. split; lia.
Qed.
Lemma part_bits v k : bits 16 (part v k).
Proof. unfold part, bits. lia. Qed.
Lemma wide_parts v : wide (part v 0) (part v 16) = v mod 2 ^ 32.
Proof. rewrite wide_sum by apply part_bits. unfold part. lia. Qed.
Lemma wide4_parts v :
  wide4 (part v 0) (part v 16) (part v 32) (part v 48) = v mod 2 ^ 64.
Proof. rewrite wide4_sum by apply part_bits. unfold part. lia. Qed.
Lemma mod_bits n v : 0 <= n -> bits n (v mod 2 ^ n).
Proof. intros Hn. apply Z.mod_pos_bound. lia. Qed.

(** The same for the numbers that occur. *)
Lemma literal_plain k n sign v : 0 <= k -> n = k + 1 -> sign = 2 ^ k -> signed n v ->
  literal sign 0 (v mod 2 ^ n) = lit n 0 v.
Proof. intros Hk -> -> Hv. by apply literal_text. Qed.
Lemma literal_high k n v : 0 <= k -> signed 16 v -> n = k ->
  literal 0x8000 n (v mod 2 ^ 16) = lit 16 k v.
Proof. intros Hk Hv ->. by apply (literal_text 15). Qed.
Lemma branch_plain k n w sign p d : 0 <= k < 32 -> 0 <= w <= 32 -> n = k + 1 -> sign = 2 ^ k ->
  signed n d -> branch p sign w (d mod 2 ^ n) = jump p n w d.
Proof. intros Hk Hw -> -> Hd. by apply branch_text. Qed.

Ltac in_range :=
  first [assumption | apply part_bits | apply mod_bits; lia | unfold bits in *; lia].

Lemma unit_at us r i u off : ref_ok c r -> shown c run (vaddr r) (unit_bytes us) ->
  off = 2 * Z.of_nat i -> us !! i = Some u -> bits 16 u -> code_unit c r off = Ok u.
Proof. intros Hr Hs -> Hi Hu. by eapply unit_read. Qed.

Ltac read_units :=
  repeat match goal with
  | |- context [code_unit c ?r 0] =>
      rewrite (unit_at _ r 0%nat _ 0 ltac:(eassumption) ltac:(eassumption) eq_refl eq_refl)
        by in_range
  | |- context [code_unit c ?r 2] =>
      rewrite (unit_at _ r 1%nat _ 2 ltac:(eassumption) ltac:(eassumption) eq_refl eq_refl)
        by in_range
  | |- context [code_unit c ?r 4] =>
      rewrite (unit_at _ r 2%nat _ 4 ltac:(eassumption) ltac:(eassumption) eq_refl eq_refl)
        by in_range
  | |- context [code_unit c ?r 6] =>
      rewrite (unit_at _ r 3%nat _ 6 ltac:(eassumption) ltac:(eassumption) eq_refl eq_refl)
        by in_range
  | |- context [code_unit c ?r 8] =>
      rewrite (unit_at _ r 4%nat _ 8 ltac:(eassumption) ltac:(eassumption) eq_refl eq_refl)
        by in_range
  end; cbn [rbind assemble].

(** What is to show of a format, and the three groups of formats. *)
Definition prints (o : dexop) (ops : operands) : Prop := forall r,
  format o = Some (shape ops) -> operands_ok ops -> ref_ok c r ->
  shown c run (vaddr r) (unit_bytes (assemble o ops)) ->
  codec_of (shape ops) o r
    = Ok (inst light (assemble o ops) (mnemonic o) ++ operand_text (vaddr r) ops).
Ltac start r :=
  intros r Hf Hok Hr Hs; cbn [shape codec_of operands_ok operand_text] in *.
Ltac finish := unfold inst_sp; rewrite <- !app_assoc; try done.

Lemma prints_nothing o : prints o P10x.
Proof.
  start r. destruct (aa_unit o 0) as [H0 _]; [done|]. unfold AppendCodecNoArgs. read_units.
  by rewrite app_nil_r.
Qed.
Lemma prints_12x o a b : prints o (P12x a b).
Proof.
  start r. destruct Hok as [Ha Hb]. destruct (ab_unit o a b Ha Hb) as (Hu & Ea & Eb & _).
  unfold AppendCodecArgsvAvB. read_units. rewrite Ea, Eb. finish.
Qed.
Lemma prints_11x o a : prints o (P11x a).
Proof.
  start r. destruct (aa_unit o a Hok) as [Hu Ea]. unfold AppendCodecArgsvAA. read_units.
  rewrite Ea. finish.
Qed.
Lemma prints_22x o a b : prints o (P22x a b).
Proof.
  start r. destruct Hok as [Ha Hb]. destruct (aa_unit o a Ha) as [Hu Ea].
  unfold AppendCodecArgsvAAvBBBB. read_units. rewrite Ea. finish.
Qed.
Lemma prints_32x o a b : prints o (P32x a b).
Proof.
  start r. destruct Hok as [Ha Hb]. destruct (aa_unit o 0) as [H0 _]; [done|].
  unfold AppendCodecArgsvAAAAvBBBB. read_units. finish.
Qed.
Lemma prints_23x o a b d : prints o (P23x a b d).
Proof.
  start r. destruct Hok as (Ha & Hb & Hd). destruct (aa_unit o a Ha) as [Hu Ea].
  destruct (bc_unit b d Hb Hd) as (Hw & Eb & Ec).
  unfold AppendCodecArgsvAAvBBvCC. read_units. rewrite Ea, Eb, Ec. finish.
Qed.

Lemma prints_11n o a v : prints o (P11n a v).
Proof.
  start r. destruct Hok as [Ha Hv].
  destruct (ab_unit o a (v mod 2 ^ 4)) as (Hu & _ & _ & Ea & Eb); [done|in_range|].
  unfold AppendCodecArgsvAB. read_units. rewrite Ea, Eb, (literal_plain 3) by done. finish.
Qed.
Lemma prints_21s o a v : prints o (P21s a v).
Proof.
  start r. destruct Hok as [Ha Hv]. destruct (aa_unit o a Ha) as [Hu Ea].
  unfold AppendCodecArgsvAABBBB. read_units. rewrite Ea, (literal_plain 15) by done. finish.
Qed.
Lemma prints_31i o a v : prints o (P31i a v).
Proof.
  start r. destruct Hok as [Ha Hv]. destruct (aa_unit o a Ha) as [Hu Ea].
  unfold AppendCodecArgsvAABBBBBBBB. read_units.
  rewrite Ea, wide_parts, (literal_plain 31) by done. finish.
Qed.
Lemma prints_21h o k a v : prints o (P21h k a v).
Proof.
  start r. destruct Hok as [Ha Hv]. destruct (aa_unit o a Ha) as [Hu Ea].
  destruct (high_shift o k Hf) as [-> | ->]; cbn [Z.eqb Pos.eqb];
    unfold AppendCodecArgsvAABBBB0000, AppendCodecArgsvAABBBB000000000000; read_units.
  - rewrite Ea, (literal_high 16) by done. finish.
  - rewrite Ea, (literal_high 48) by done. finish.
Qed.
Lemma prints_51l o a v : prints o (P51l a v).
Proof.
  start r. destruct Hok as [Ha Hv]. destruct (aa_unit o a Ha) as [Hu Ea].
  unfold AppendCodecArgsvAABBBBBBBBBBBBBBBB. read_units.
  rewrite Ea, wide4_parts, (literal_plain 63) by done. finish.
Qed.
Lemma prints_22b o a b v : prints o (P22b a b v).
Proof.
  start r. destruct Hok as (Ha & Hb & Hv). destruct (aa_unit o a Ha) as [Hu Ea].
  destruct (bc_unit b (v mod 2 ^ 8)) as (Hw & Eb & Ec); [done|in_range|].
  unfold AppendCodecArgsvAAvBBCC. read_units.
  rewrite Ea, Eb, Ec, (literal_plain 7) by done. finish.
Qed.
Lemma prints_22s o a b v : prints o (P22s a b v).
Proof.
  start r. destruct Hok as (Ha & Hb & Hv). destruct (ab_unit o a b Ha Hb) as (Hu & Ea & Eb & _).
  unfold AppendCodecArgsvAvBCCCC. read_units. rewrite Ea, Eb, (literal_plain 15) by done. finish.
Qed.

Lemma prints_10t o d : prints o (P10t d).
Proof.
  start r. destruct (aa_unit o (d mod 2 ^ 8)) as [Hu Ea]; [in_range|].
  rewrite (goto_name o Hf). unfold AppendCodecGoto. read_units.
  rewrite Ea, (branch_plain 7) by done. finish.
Qed.
Lemma prints_20t o d : prints o (P20t d).
Proof.
  start r. destruct (aa_unit o 0) as [H0 _]; [done|].
  rewrite (goto16_name o Hf). unfold AppendCodecGoto16. read_units.
  rewrite (branch_plain 15) by done. finish.
Qed.
Lemma prints_30t o d : prints o (P30t d).
Proof.
  start r. destruct (aa_unit o 0) as [H0 _]; [done|].
  rewrite (goto32_name o Hf). unfold AppendCodecGoto32. read_units.
  rewrite wide_parts, (branch_plain 31) by done. finish.
Qed.
Lemma prints_22t o a b d : prints o (P22t a b d).
Proof.
  start r. destruct Hok as (Ha & Hb & Hd). destruct (ab_unit o a b Ha Hb) as (Hu & Ea & Eb & _).
  unfold AppendCodecIfTest. read_units. rewrite (if_name o Hf). cbn [rbind].
  rewrite Ea, Eb, (branch_plain 15) by done. finish.
Qed.
Lemma prints_21t o a d : prints o (P21t a d).
Proof.
  start r. destruct Hok as [Ha Hd]. destruct (aa_unit o a Ha) as [Hu Ea].
  unfold AppendCodecIfTestz. read_units. rewrite (ifz_name o Hf). cbn [rbind].
  rewrite Ea, (branch_plain 15) by done. finish.
Qed.
Lemma prints_22cs o k a b n : prints o (P22cs k a b n).
Proof.
  start r. destruct Hok as (Ha & Hb & Hn). destruct (ab_unit o a b Ha Hb) as (Hu & Ea & Eb & _).
  assert (k = Offset \/ k = Thing) as [-> | ->] by (clear - Hf; destruct o; try discriminate Hf; injection Hf as <-; auto).
  - unfold AppendCodecIInstanceQuickOffsetOp, quick_inst. read_units.
    rewrite (offset_name o Hf). cbn [rbind]. rewrite Ea, Eb. finish.
  - unfold AppendCodecIInstanceQuickThingOp, quick_inst. read_units.
    rewrite (thing_name o Hf). cbn [rbind]. rewrite Ea, Eb. finish.
Qed.
(** The registers of a call are the nibbles of its last unit, and one of the first. *)
Lemma nibble_at u i : 0 <= i -> Z.shiftr (Z.land u (Z.shiftl 0xF (i * 4))) (i * 4)
  = (u / 2 ^ (i * 4)) mod 2 ^ 4.
Proof.
  intros Hi. rewrite Z.shiftr_land, Z.shiftr_shiftl_l by lia. rewrite Z.sub_diag, Z.shiftl_0_r.
  change 0xF with (Z.ones 4). by rewrite Z.land_ones, Z.shiftr_div_pow2 by lia.
Qed.
Lemma nth_bits regs i : Forall (bits 4) regs -> bits 4 (nth i regs 0).
Proof.
  intros Hr. destruct (decide (i < length regs)%nat).
  - rewrite Forall_forall in Hr. apply Hr. by apply nth_In.
  - rewrite nth_overflow by lia. unfold bits. lia.
Qed.
Lemma arguments_listed u w regs : (length regs <= 5)%nat -> Forall (bits 4) regs ->
  unit_b u = Z.of_nat (length regs) -> Z.shiftr (Z.land u 0x0F00) 8 = nth 4 regs 0 ->
  w = nth 0 regs 0 + nth 1 regs 0 * 2 ^ 4 + nth 2 regs 0 * 2 ^ 8 + nth 3 regs 0 * 2 ^ 12 ->
  arguments u w = chars "{" ++ listed regs ++ chars "}, ".
Proof.
  intros Hl Hr Eu E4 Ew. unfold arguments. rewrite Eu, Nat2Z.id.
  pose proof (fun i => nth_bits regs i Hr) as Hn. unfold bits in Hn.
  pose proof (Hn 0%nat). pose proof (Hn 1%nat). pose proof (Hn 2%nat). pose proof (Hn 3%nat).
  assert (Hw : forall i, (i < 4)%nat ->
    Z.shiftr (Z.land w (Z.shiftl 0xF (Z.of_nat i * 4))) (Z.of_nat i * 4) = nth i regs 0).
  { intros i Hi. rewrite nibble_at by lia. subst w.
    destruct i as [|[|[|[|]]]]; [| | | |lia]; change (2 ^ (Z.of_nat _ * 4)) with 1 in * || idtac;
      cbn [Z.of_nat Pos.of_succ_nat Pos.succ Z.mul Pos.mul Pos.add Z.pow Z.pow_pos Pos.iter] in *; lia. }
  pose proof (Hw 0%nat ltac:(lia) : Z.shiftr (Z.land w (Z.shiftl 15 (0 * 4))) (0 * 4) = _) as W0.
  pose proof (Hw 1%nat ltac:(lia) : Z.shiftr (Z.land w (Z.shiftl 15 (1 * 4))) (1 * 4) = _) as W1.
  pose proof (Hw 2%nat ltac:(lia) : Z.shiftr (Z.land w (Z.shiftl 15 (2 * 4))) (2 * 4) = _) as W2.
  pose proof (Hw 3%nat ltac:(lia) : Z.shiftr (Z.land w (Z.shiftl 15 (3 * 4))) (3 * 4) = _) as W3.
  do 2 f_equal. clear Hn Hw Hr Ew Eu.
  destruct regs as [|r0 [|r1 [|r2 [|r3 [|r4 [|]]]]]]; [..|cbn in Hl; lia];
    cbn [nth length registers listed] in *; change (0 + 1) with 1; change (1 + 1) with 2;
    change (2 + 1) with 3; change (3 + 1) with 4; rewrite ?W0, ?W1, ?W2, ?W3, ?E4;
    unfold vreg; cbn -[chars to_string comma_sp]; rewrite <- ?app_assoc, ?app_nil_r; done.
Qed.
Lemma prints_35ms o k regs n : prints o (P35ms k regs n).
Proof.
  start r. destruct Hok as (Hl & Hregs & Hn).
  pose proof (fun i => nth_bits regs i Hregs) as Hb.
  destruct (ab_unit o (nth 4 regs 0) (Z.of_nat (length regs))) as (Hu & _ & Eb & E4 & _);
    [done|unfold bits; lia|].
  pose proof (Hb 0%nat). pose proof (Hb 1%nat). pose proof (Hb 2%nat). pose proof (Hb 3%nat).
  assert (Hw : bits 16 (nth 0 regs 0 + nth 1 regs 0 * 2 ^ 4 + nth 2 regs 0 * 2 ^ 8 + nth 3 regs 0 * 2 ^ 12))
    by (unfold bits in *; lia).
  destruct o; try discriminate Hf; injection Hf as <-;
    unfold AppendCodecInvokeVirtualQuick, AppendCodecInvokeCustom, numbered_call; read_units;
    rewrite (arguments_listed _ _ regs) by done; finish.
Qed.
Lemma prints_3rms o k first num n : prints o (P3rms k first num n).
Proof.
  start r. destruct Hok as (Ha & Hb & Hn). destruct (aa_unit o num Hb) as [Hu Ea].
  destruct o; try discriminate Hf; injection Hf as <-;
    unfold AppendCodecInvokeVirtualQuickRange, AppendCodecInvokeCustomRange, numbered_call, argument_range;
    read_units; rewrite Ea; finish.
Qed.
Lemma prints_21c o k a n : prints o (P21c k a n).
Proof.
  start r. destruct Hok as (Ha & Hn). destruct (aa_unit o a Ha) as [Hu Ea].
  destruct o; try discriminate Hf; injection Hf as <-.
  unfold AppendCodecConstMethodHandle. read_units. rewrite Ea. finish.
Qed.
#[local] Hint Resolve prints_22cs prints_35ms prints_3rms prints_21c : prints.
#[local] Hint Resolve prints_nothing prints_12x prints_11x prints_22x prints_32x prints_23x
  prints_11n prints_21s prints_31i prints_21h prints_51l prints_22b prints_22s
  prints_10t prints_20t prints_30t prints_22t prints_21t : prints.
Lemma prints_all o ops : prints o ops.
Proof. destruct ops; auto with prints. Qed.

(** The first code unit. *)
Lemma assemble_head o ops : operands_ok ops ->
  exists u us, assemble o ops = u :: us /\ bits 16 u /\ u mod 2 ^ 8 = opcode o.
Proof.
  intros Hok. pose proof (value_byte o) as Hv.
  assert (H4 : match ops with P35ms _ regs _ => bits 4 (nth 4 regs 0) | _ => True end)
    by (destruct ops; try done; by apply nth_bits, Hok).
  unfold bits in *. destruct ops; cbn [assemble operands_ok] in *; unfold bits, signed in *;
    (eexists; eexists; split; [reflexivity|lia]).
Qed.

(** C31: The text of an instruction that names nothing of the dex file, for all its operands,
    is its assembly: the address, the code units, the mnemonic ([mnemonic]) and the operands
    that were encoded: registers, literals, the targets and distances of jumps, the numbers
    and register lists of quick instructions and of call sites.  The least number of a width
    shows as -0 and a forward distance of goto/16 modulo 256 ([shown_digits], [jump]).  The size
    that [GetDexInstSize] computes is that of the encoding. *)
Theorem PrettyDexInst_assembly (o : dexop) (ops : operands) (ref dex_file : MemoryRef)
    (Hf : format o = Some (shape ops)) (Hok : operands_ok ops) (Hr : ref_ok c ref)
    (Hs : shown c run (vaddr ref) (unit_bytes (assemble o ops))) :
  PrettyDexInst sdk c light ref dex_file
    = Ok (LightCyan light ++ ToHex (vaddr ref) ++ ColorEnd light ++ chars ": "
          ++ inst light (assemble o ops) (mnemonic o) ++ operand_text (vaddr ref) ops
          ++ ColorEnd light) /\
  GetDexInstSize c ref = Ok (2 * Z.of_nat (length (assemble o ops))).
Proof.
  destruct (assemble_head o ops Hok) as (u & us & E & Hu & Hop).
  assert (Hread : GetDexOp c ref = Ok (opcode o)).
  { rewrite <- Hop. eapply op_read; [done|reflexivity| |done]. by rewrite <- E. }
  assert (Hnop : o = NOP -> ops = P10x).
  { intros ->. by destruct ops. }
  split.
  - unfold PrettyDexInst. rewrite Hread. cbn [rbind]. rewrite valid_value, dex_op_opcode. cbn [negb].
    destruct (decide (o = NOP)) as [Ho|Ho].
    + rewrite (Hnop Ho) in *. subst o. cbn [pretty_op]. unfold AppendCodecNop.
      change (assemble NOP P10x) with [0] in *. read_units. cbn [nz Z.eqb negb rbind operand_text].
      by rewrite <- !app_assoc.
    + rewrite (pretty_codec o _ ref dex_file Hf Ho), (prints_all o ops ref Hf Hok Hr Hs).
      cbn [rbind]. by rewrite <- !app_assoc.
  - apply (size_units o ops ref Hf Hok Hread). intros Ho. rewrite (Hnop Ho) in *. subst o.
    change (assemble NOP P10x) with [0] in *. by read_units.
Qed.
End Print.

(** A jump of goto/16 over 300 units forward is shown as one over 44, and const/4 -8 as -0. *)
Example goto16_truncated : jump 0x1000 16 8 300 = ToHex 0x1058 ++ chars " //+44".
Proof. by vm_compute. Qed.
Example literal_least : lit 4 0 (-8) = chars "#-0".
Proof. reflexivity. Qed.

(** "if-eqz v2, -4" at 0x1010 and a quick call at 0x1020. *)
Definition demo_code : list Z :=
  memory 0x40 [(0x10, unit_bytes (assemble IF_EQZ (P21t 2 (-4))));
    (0x20, unit_bytes (assemble INVOKE_VIRTUAL_QUICK (P35ms Vtable [1; 2; 3; 4; 5] 17)))].
Definition code_core : CoreApi := one_core 0x1000 demo_code.
#[local] Instance code_presents : Presents code_core (target_run code_core).
Proof. apply one_presents; [done|apply Nat.ltb_lt; by vm_compute]. Qed.

Lemma PrettyDexInst_assembly_witness :
  @PrettyDexInst arm64_Core 30 code_core false (ref_at 0x1010) (ref_at 0)
    = Ok (chars "0x1010: 0238 fffc                | if-eqz v2, 0x1008 //-4") /\
  GetDexInstSize code_core (ref_at 0x1010) = Ok 4 /\
  @PrettyDexInst arm64_Core 30 code_core false (ref_at 0x1020) (ref_at 0)
    = Ok (chars "0x1020: 55e9 0011 4321           | invoke-virtual-quick {v1, v2, v3, v4, v5},  // vtable@17").
Proof.
  destruct (@PrettyDexInst_assembly arm64_Core 30 code_core (target_run code_core) _ false IF_EQZ
    (P21t 2 (-4)) (ref_at 0x1010) (ref_at 0)) as [E Z]; [reflexivity|..].
  - unfold operands_ok, bits, signed. lia.
  - by split.
  - apply check_shown_ok; [vm_compute; reflexivity|apply Nat.ltb_lt; by vm_compute].
  - destruct (@PrettyDexInst_assembly arm64_Core 30 code_core (target_run code_core) _ false
      INVOKE_VIRTUAL_QUICK (P35ms Vtable [1; 2; 3; 4; 5] 17) (ref_at 0x1020) (ref_at 0)) as [E' _];
      [reflexivity|..].
    + split_and!; [cbn; lia|repeat constructor; lia|unfold bits; lia].
    + by split.
    + apply check_shown_ok; [vm_compute; reflexivity|apply Nat.ltb_lt; by vm_compute].
    + split; [rewrite E; vm_compute; reflexivity|split; [exact Z|rewrite E'; vm_compute; reflexivity]].
Defined.
