(* ===== verification/RuntimeTables.v ===== *)
(** Offset tables of the Java runtime: the [Init] functions of android/art/runtime (and of
    base/mem_map.cpp), which fill the tables [__X_offset__] and [__X_size__] for a version of
    Android and a word size.

    [X_InitNN] is the table one function writes; a field that the initialiser does not name is
    0.  [X_table sdk] is the table after the listeners have run, in the order in which [X::Init]
    registers them: each runs when the version is at least its own, and the last one wins. *)

From Stdlib Require Import ZArith Lia Bool.
From stdpp Require Import base list numbers.
From S2P Require Import Prelude Words Host Blocks Notes CoreApi Segments AddressSpace MemRef Elf.
From S2P Require Import Mirrors.
Open Scope Z_scope.

(** [SdkListener::execute] for every listener; [init] is the table before. *)
Definition listen {A} (version : Z) (init : A) (listeners : list (Z * A)) : A :=
  fold_left (fun table '(least, update) => if least <=? version then update else table)
    listeners init.

Section Tables.
Context {M : Machine} (sdk : Z).

Record Runtime_OffsetTable := { rt_callee_save_methods_ : Z; rt_resolution_method_ : Z;
  rt_imt_conflict_method_ : Z; rt_imt_unimplemented_method_ : Z; rt_heap_ : Z;
  rt_monitor_pool_ : Z; rt_thread_list_ : Z; rt_class_linker_ : Z; rt_java_vm_ : Z; rt_jit_ : Z }.
Definition Runtime_Init23 : Runtime_OffsetTable :=
  if bits =? 64 then
    {| rt_callee_save_methods_ := 0; rt_resolution_method_ := 32; rt_imt_conflict_method_ := 40;
       rt_imt_unimplemented_method_ := 48; rt_heap_ := 320; rt_monitor_pool_ := 368;
       rt_thread_list_ := 376; rt_class_linker_ := 392; rt_java_vm_ := 432; rt_jit_ := 440 |}
  else
    {| rt_callee_save_methods_ := 0; rt_resolution_method_ := 32; rt_imt_conflict_method_ := 36;
       rt_imt_unimplemented_method_ := 40; rt_heap_ := 200; rt_monitor_pool_ := 224;
       rt_thread_list_ := 228; rt_class_linker_ := 236; rt_java_vm_ := 256; rt_jit_ := 260 |}.
Definition Runtime_Init24 : Runtime_OffsetTable :=
  if bits =? 64 then
    {| rt_callee_save_methods_ := 0; rt_resolution_method_ := 32; rt_imt_conflict_method_ := 40;
       rt_imt_unimplemented_method_ := 48; rt_heap_ := 320; rt_monitor_pool_ := 376;
       rt_thread_list_ := 384; rt_class_linker_ := 400; rt_java_vm_ := 440; rt_jit_ := 448 |}
  else
    {| rt_callee_save_methods_ := 0; rt_resolution_method_ := 32; rt_imt_conflict_method_ := 40;
       rt_imt_unimplemented_method_ := 48; rt_heap_ := 200; rt_monitor_pool_ := 228;
       rt_thread_list_ := 232; rt_class_linker_ := 240; rt_java_vm_ := 260; rt_jit_ := 264 |}.
Definition Runtime_Init26 : Runtime_OffsetTable :=
  if bits =? 64 then
    {| rt_callee_save_methods_ := 0; rt_resolution_method_ := 40; rt_imt_conflict_method_ := 48;
       rt_imt_unimplemented_method_ := 56; rt_heap_ := 384; rt_monitor_pool_ := 440;
       rt_thread_list_ := 448; rt_class_linker_ := 464; rt_java_vm_ := 504; rt_jit_ := 512 |}
  else
    {| rt_callee_save_methods_ := 0; rt_resolution_method_ := 40; rt_imt_conflict_method_ := 48;
       rt_imt_unimplemented_method_ := 56; rt_heap_ := 244; rt_monitor_pool_ := 272;
       rt_thread_list_ := 276; rt_class_linker_ := 284; rt_java_vm_ := 304; rt_jit_ := 308 |}.
Definition Runtime_Init28 : Runtime_OffsetTable :=
  if bits =? 64 then
    {| rt_callee_save_methods_ := 0; rt_resolution_method_ := 56; rt_imt_conflict_method_ := 64;
       rt_imt_unimplemented_method_ := 72; rt_heap_ := 448; rt_monitor_pool_ := 504;
       rt_thread_list_ := 512; rt_class_linker_ := 528; rt_java_vm_ := 576; rt_jit_ := 584 |}
  else
    {| rt_callee_save_methods_ := 0; rt_resolution_method_ := 56; rt_imt_conflict_method_ := 64;
       rt_imt_unimplemented_method_ := 72; rt_heap_ := 296; rt_monitor_pool_ := 324;
       rt_thread_list_ := 328; rt_class_linker_ := 336; rt_java_vm_ := 360; rt_jit_ := 304 |}.
Definition Runtime_Init29 : Runtime_OffsetTable :=
  if bits =? 64 then
    {| rt_callee_save_methods_ := 0; rt_resolution_method_ := 64; rt_imt_conflict_method_ := 72;
       rt_imt_unimplemented_method_ := 80; rt_heap_ := 400; rt_monitor_pool_ := 456;
       rt_thread_list_ := 464; rt_class_linker_ := 480; rt_java_vm_ := 496; rt_jit_ := 504 |}
  else
    {| rt_callee_save_methods_ := 0; rt_resolution_method_ := 64; rt_imt_conflict_method_ := 68;
       rt_imt_unimplemented_method_ := 72; rt_heap_ := 240; rt_monitor_pool_ := 268;
       rt_thread_list_ := 272; rt_class_linker_ := 280; rt_java_vm_ := 288; rt_jit_ := 292 |}.
Definition Runtime_Init30 : Runtime_OffsetTable :=
  if bits =? 64 then
    {| rt_callee_save_methods_ := 0; rt_resolution_method_ := 64; rt_imt_conflict_method_ := 72;
       rt_imt_unimplemented_method_ := 80; rt_heap_ := 392; rt_monitor_pool_ := 448;
       rt_thread_list_ := 456; rt_class_linker_ := 472; rt_java_vm_ := 496; rt_jit_ := 504 |}
  else
    {| rt_callee_save_methods_ := 0; rt_resolution_method_ := 64; rt_imt_conflict_method_ := 68;
       rt_imt_unimplemented_method_ := 72; rt_heap_ := 236; rt_monitor_pool_ := 264;
       rt_thread_list_ := 268; rt_class_linker_ := 276; rt_java_vm_ := 288; rt_jit_ := 292 |}.
Definition Runtime_Init31 : Runtime_OffsetTable :=
  if bits =? 64 then
    {| rt_callee_save_methods_ := 0; rt_resolution_method_ := 64; rt_imt_conflict_method_ := 72;
       rt_imt_unimplemented_method_ := 80; rt_heap_ := 416; rt_monitor_pool_ := 472;
       rt_thread_list_ := 480; rt_class_linker_ := 496; rt_java_vm_ := 520; rt_jit_ := 528 |}
  else
    {| rt_callee_save_methods_ := 0; rt_resolution_method_ := 64; rt_imt_conflict_method_ := 68;
       rt_imt_unimplemented_method_ := 72; rt_heap_ := 248; rt_monitor_pool_ := 276;
       rt_thread_list_ := 280; rt_class_linker_ := 288; rt_java_vm_ := 300; rt_jit_ := 304 |}.
Definition Runtime_Init33 : Runtime_OffsetTable :=
  if bits =? 64 then
    {| rt_callee_save_methods_ := 0; rt_resolution_method_ := 64; rt_imt_conflict_method_ := 72;
       rt_imt_unimplemented_method_ := 80; rt_heap_ := 512; rt_monitor_pool_ := 568;
       rt_thread_list_ := 576; rt_class_linker_ := 592; rt_java_vm_ := 624; rt_jit_ := 632 |}
  else
    {| rt_callee_save_methods_ := 0; rt_resolution_method_ := 64; rt_imt_conflict_method_ := 68;
       rt_imt_unimplemented_method_ := 72; rt_heap_ := 296; rt_monitor_pool_ := 324;
       rt_thread_list_ := 328; rt_class_linker_ := 336; rt_java_vm_ := 352; rt_jit_ := 356 |}.
Definition Runtime_Init34 : Runtime_OffsetTable :=
  if bits =? 64 then
    {| rt_callee_save_methods_ := 0; rt_resolution_method_ := 64; rt_imt_conflict_method_ := 72;
       rt_imt_unimplemented_method_ := 80; rt_heap_ := 512; rt_monitor_pool_ := 576;
       rt_thread_list_ := 584; rt_class_linker_ := 600; rt_java_vm_ := 632; rt_jit_ := 640 |}
  else
    {| rt_callee_save_methods_ := 0; rt_resolution_method_ := 64; rt_imt_conflict_method_ := 68;
       rt_imt_unimplemented_method_ := 72; rt_heap_ := 296; rt_monitor_pool_ := 328;
       rt_thread_list_ := 332; rt_class_linker_ := 340; rt_java_vm_ := 356; rt_jit_ := 360 |}.
Definition Runtime_Init35 : Runtime_OffsetTable :=
  if bits =? 64 then
    {| rt_callee_save_methods_ := 0; rt_resolution_method_ := 64; rt_imt_conflict_method_ := 72;
       rt_imt_unimplemented_method_ := 80; rt_heap_ := 512; rt_monitor_pool_ := 576;
       rt_thread_list_ := 584; rt_class_linker_ := 600; rt_java_vm_ := 632; rt_jit_ := 640 |}
  else
    {| rt_callee_save_methods_ := 0; rt_resolution_method_ := 64; rt_imt_conflict_method_ := 68;
       rt_imt_unimplemented_method_ := 72; rt_heap_ := 296; rt_monitor_pool_ := 328;
       rt_thread_list_ := 332; rt_class_linker_ := 340; rt_java_vm_ := 356; rt_jit_ := 360 |}.
Definition Runtime_Init36 : Runtime_OffsetTable :=
  if bits =? 64 then
    {| rt_callee_save_methods_ := 0; rt_resolution_method_ := 64; rt_imt_conflict_method_ := 72;
       rt_imt_unimplemented_method_ := 80; rt_heap_ := 512; rt_monitor_pool_ := 576;
       rt_thread_list_ := 584; rt_class_linker_ := 600; rt_java_vm_ := 632; rt_jit_ := 640 |}
  else
    {| rt_callee_save_methods_ := 0; rt_resolution_method_ := 64; rt_imt_conflict_method_ := 68;
       rt_imt_unimplemented_method_ := 72; rt_heap_ := 296; rt_monitor_pool_ := 328;
       rt_thread_list_ := 332; rt_class_linker_ := 340; rt_java_vm_ := 356; rt_jit_ := 360 |}.
Definition Runtime_Init37 : Runtime_OffsetTable :=
  if bits =? 64 then
    {| rt_callee_save_methods_ := 0; rt_resolution_method_ := 64; rt_imt_conflict_method_ := 72;
       rt_imt_unimplemented_method_ := 80; rt_heap_ := 512; rt_monitor_pool_ := 576;
       rt_thread_list_ := 584; rt_class_linker_ := 600; rt_java_vm_ := 632; rt_jit_ := 640 |}
  else
    {| rt_callee_save_methods_ := 0; rt_resolution_method_ := 64; rt_imt_conflict_method_ := 68;
       rt_imt_unimplemented_method_ := 72; rt_heap_ := 296; rt_monitor_pool_ := 328;
       rt_thread_list_ := 332; rt_class_linker_ := 340; rt_java_vm_ := 356; rt_jit_ := 360 |}.
Definition Runtime_table : Runtime_OffsetTable :=
  listen sdk
    {| rt_callee_save_methods_ := 0; rt_resolution_method_ := 0; rt_imt_conflict_method_ := 0;
       rt_imt_unimplemented_method_ := 0; rt_heap_ := 0; rt_monitor_pool_ := 0;
       rt_thread_list_ := 0; rt_class_linker_ := 0; rt_java_vm_ := 0; rt_jit_ := 0 |}
    [(Sdk.M, Runtime_Init23); (Sdk.N, Runtime_Init24); (Sdk.O, Runtime_Init26);
     (Sdk.P, Runtime_Init28); (Sdk.Q, Runtime_Init29); (Sdk.R, Runtime_Init30);
     (Sdk.S, Runtime_Init31); (Sdk.T, Runtime_Init33); (Sdk.U, Runtime_Init34);
     (Sdk.V, Runtime_Init35); (Sdk.W, Runtime_Init36); (Sdk.X, Runtime_Init37)].

Record Thread_OffsetTable := { th_tls32_ : Z; th_tlsPtr_ : Z; th_wait_mutex_ : Z;
  th_wait_cond_ : Z; th_wait_monitor_ : Z }.
Definition Thread_Init23 : Thread_OffsetTable :=
  if bits =? 64 then
    {| th_tls32_ := 0; th_tlsPtr_ := 128; th_wait_mutex_ := 2088; th_wait_cond_ := 2096;
       th_wait_monitor_ := 2104 |}
  else
    {| th_tls32_ := 0; th_tlsPtr_ := 128; th_wait_mutex_ := 1108; th_wait_cond_ := 1112;
       th_wait_monitor_ := 1116 |}.
Definition Thread_Init24 : Thread_OffsetTable :=
  if bits =? 64 then
    {| th_tls32_ := 0; th_tlsPtr_ := 128; th_wait_mutex_ := 2208; th_wait_cond_ := 2216;
       th_wait_monitor_ := 2224 |}
  else
    {| th_tls32_ := 0; th_tlsPtr_ := 128; th_wait_mutex_ := 1168; th_wait_cond_ := 1172;
       th_wait_monitor_ := 1176 |}.
Definition Thread_Init26 : Thread_OffsetTable :=
  if bits =? 64 then
    {| th_tls32_ := 0; th_tlsPtr_ := 128; th_wait_mutex_ := 2432; th_wait_cond_ := 2440;
       th_wait_monitor_ := 2448 |}
  else
    {| th_tls32_ := 0; th_tlsPtr_ := 128; th_wait_mutex_ := 1280; th_wait_cond_ := 1284;
       th_wait_monitor_ := 1288 |}.
Definition Thread_Init28 : Thread_OffsetTable :=
  if bits =? 64 then
    {| th_tls32_ := 0; th_tlsPtr_ := 136; th_wait_mutex_ := 2504; th_wait_cond_ := 2512;
       th_wait_monitor_ := 2520 |}
  else
    {| th_tls32_ := 0; th_tlsPtr_ := 136; th_wait_mutex_ := 1320; th_wait_cond_ := 1324;
       th_wait_monitor_ := 1328 |}.
Definition Thread_Init29 : Thread_OffsetTable :=
  if bits =? 64 then
    {| th_tls32_ := 0; th_tlsPtr_ := 152; th_wait_mutex_ := 6672; th_wait_cond_ := 6680;
       th_wait_monitor_ := 6688 |}
  else
    {| th_tls32_ := 0; th_tlsPtr_ := 152; th_wait_mutex_ := 3424; th_wait_cond_ := 3428;
       th_wait_monitor_ := 3432 |}.
Definition Thread_Init30 : Thread_OffsetTable :=
  if bits =? 64 then
    {| th_tls32_ := 0; th_tlsPtr_ := 160; th_wait_mutex_ := 6736; th_wait_cond_ := 6744;
       th_wait_monitor_ := 6752 |}
  else
    {| th_tls32_ := 0; th_tlsPtr_ := 160; th_wait_mutex_ := 3456; th_wait_cond_ := 3460;
       th_wait_monitor_ := 3464 |}.
Definition Thread_Init31 : Thread_OffsetTable :=
  if bits =? 64 then
    {| th_tls32_ := 0; th_tlsPtr_ := 152; th_wait_mutex_ := 6720; th_wait_cond_ := 6728;
       th_wait_monitor_ := 6736 |}
  else
    {| th_tls32_ := 0; th_tlsPtr_ := 152; th_wait_mutex_ := 3440; th_wait_cond_ := 3444;
       th_wait_monitor_ := 3448 |}.
Definition Thread_Init33 : Thread_OffsetTable :=
  if bits =? 64 then
    {| th_tls32_ := 0; th_tlsPtr_ := 144; th_wait_mutex_ := 6704; th_wait_cond_ := 6712;
       th_wait_monitor_ := 6720 |}
  else
    {| th_tls32_ := 0; th_tlsPtr_ := 144; th_wait_mutex_ := 3424; th_wait_cond_ := 3428;
       th_wait_monitor_ := 3432 |}.
Definition Thread_Init34 : Thread_OffsetTable :=
  if bits =? 64 then
    {| th_tls32_ := 0; th_tlsPtr_ := 152; th_wait_mutex_ := 6736; th_wait_cond_ := 6744;
       th_wait_monitor_ := 6752 |}
  else
    {| th_tls32_ := 0; th_tlsPtr_ := 152; th_wait_mutex_ := 3456; th_wait_cond_ := 3460;
       th_wait_monitor_ := 3464 |}.
Definition Thread_Init35 : Thread_OffsetTable :=
  if bits =? 64 then
    {| th_tls32_ := 0; th_tlsPtr_ := 144; th_wait_mutex_ := 6720; th_wait_cond_ := 6728;
       th_wait_monitor_ := 6736 |}
  else
    {| th_tls32_ := 0; th_tlsPtr_ := 144; th_wait_mutex_ := 3440; th_wait_cond_ := 3444;
       th_wait_monitor_ := 3448 |}.
Definition Thread_Init36 : Thread_OffsetTable :=
  if bits =? 64 then
    {| th_tls32_ := 0; th_tlsPtr_ := 144; th_wait_mutex_ := 6752; th_wait_cond_ := 6776;
       th_wait_monitor_ := 6784 |}
  else
    {| th_tls32_ := 0; th_tlsPtr_ := 144; th_wait_mutex_ := 3456; th_wait_cond_ := 3468;
       th_wait_monitor_ := 3472 |}.
Definition Thread_Init37 : Thread_OffsetTable :=
  if bits =? 64 then
    {| th_tls32_ := 0; th_tlsPtr_ := 144; th_wait_mutex_ := 6768; th_wait_cond_ := 6792;
       th_wait_monitor_ := 6800 |}
  else
    {| th_tls32_ := 0; th_tlsPtr_ := 144; th_wait_mutex_ := 3456; th_wait_cond_ := 3468;
       th_wait_monitor_ := 3472 |}.
Definition Thread_table : Thread_OffsetTable :=
  listen sdk
    {| th_tls32_ := 0; th_tlsPtr_ := 0; th_wait_mutex_ := 0; th_wait_cond_ := 0;
       th_wait_monitor_ := 0 |}
    [(Sdk.M, Thread_Init23); (Sdk.N, Thread_Init24); (Sdk.O, Thread_Init26);
     (Sdk.P, Thread_Init28); (Sdk.Q, Thread_Init29); (Sdk.R, Thread_Init30);
     (Sdk.S, Thread_Init31); (Sdk.T, Thread_Init33); (Sdk.U, Thread_Init34);
     (Sdk.V, Thread_Init35); (Sdk.W, Thread_Init36); (Sdk.X, Thread_Init37)].

Record tls_32bit_sized_values_OffsetTable := { tls_state_and_flags : Z; tls_suspend_count : Z;
  tls_thin_lock_thread_id : Z; tls_tid : Z }.
Definition tls_32bit_sized_values_Init23 : tls_32bit_sized_values_OffsetTable :=
  {| tls_state_and_flags := 0; tls_suspend_count := 4; tls_thin_lock_thread_id := 12;
     tls_tid := 16 |}.
Definition tls_32bit_sized_values_Init31 : tls_32bit_sized_values_OffsetTable :=
  {| tls_state_and_flags := 0; tls_suspend_count := 4; tls_thin_lock_thread_id := 8;
     tls_tid := 12 |}.
Definition tls_32bit_sized_values_table : tls_32bit_sized_values_OffsetTable :=
  listen sdk
    {| tls_state_and_flags := 0; tls_suspend_count := 0; tls_thin_lock_thread_id := 0;
       tls_tid := 0 |}
    [(Sdk.M, tls_32bit_sized_values_Init23); (Sdk.S, tls_32bit_sized_values_Init31)].

Record tls_ptr_sized_values_OffsetTable := { tls_stack_end : Z; tls_managed_stack : Z;
  tls_jni_env : Z; tls_self : Z; tls_opeer : Z; tls_stack_begin : Z; tls_stack_size : Z;
  tls_monitor_enter_object : Z; tls_name : Z; tls_pthread_self : Z; tls_held_mutexes : Z }.
Definition tls_ptr_sized_values_Init23 : tls_ptr_sized_values_OffsetTable :=
  if bits =? 64 then
    {| tls_stack_end := 16; tls_managed_stack := 24; tls_jni_env := 56; tls_self := 72;
       tls_opeer := 80; tls_stack_begin := 96; tls_stack_size := 104;
       tls_monitor_enter_object := 128; tls_name := 200; tls_pthread_self := 208;
       tls_held_mutexes := 1488 |}
  else
    {| tls_stack_end := 8; tls_managed_stack := 12; tls_jni_env := 28; tls_self := 36;
       tls_opeer := 40; tls_stack_begin := 48; tls_stack_size := 52;
       tls_monitor_enter_object := 64; tls_name := 100; tls_pthread_self := 104;
       tls_held_mutexes := 744 |}.
Definition tls_ptr_sized_values_Init24 : tls_ptr_sized_values_OffsetTable :=
  if bits =? 64 then
    {| tls_stack_end := 16; tls_managed_stack := 24; tls_jni_env := 56; tls_self := 72;
       tls_opeer := 80; tls_stack_begin := 96; tls_stack_size := 104;
       tls_monitor_enter_object := 128; tls_name := 208; tls_pthread_self := 216;
       tls_held_mutexes := 1544 |}
  else
    {| tls_stack_end := 8; tls_managed_stack := 12; tls_jni_env := 28; tls_self := 36;
       tls_opeer := 40; tls_stack_begin := 48; tls_stack_size := 52;
       tls_monitor_enter_object := 64; tls_name := 104; tls_pthread_self := 108;
       tls_held_mutexes := 884 |}.
Definition tls_ptr_sized_values_Init26 : tls_ptr_sized_values_OffsetTable :=
  if bits =? 64 then
    {| tls_stack_end := 16; tls_managed_stack := 24; tls_jni_env := 56; tls_self := 72;
       tls_opeer := 80; tls_stack_begin := 96; tls_stack_size := 104;
       tls_monitor_enter_object := 128; tls_name := 208; tls_pthread_self := 216;
       tls_held_mutexes := 1768 |}
  else
    {| tls_stack_end := 8; tls_managed_stack := 12; tls_jni_env := 28; tls_self := 36;
       tls_opeer := 40; tls_stack_begin := 48; tls_stack_size := 52;
       tls_monitor_enter_object := 64; tls_name := 104; tls_pthread_self := 108;
       tls_held_mutexes := 884 |}.
Definition tls_ptr_sized_values_Init28 : tls_ptr_sized_values_OffsetTable :=
  if bits =? 64 then
    {| tls_stack_end := 16; tls_managed_stack := 24; tls_jni_env := 56; tls_self := 72;
       tls_opeer := 80; tls_stack_begin := 96; tls_stack_size := 104;
       tls_monitor_enter_object := 128; tls_name := 208; tls_pthread_self := 216;
       tls_held_mutexes := 1776 |}
  else
    {| tls_stack_end := 8; tls_managed_stack := 12; tls_jni_env := 28; tls_self := 36;
       tls_opeer := 40; tls_stack_begin := 48; tls_stack_size := 52;
       tls_monitor_enter_object := 64; tls_name := 104; tls_pthread_self := 108;
       tls_held_mutexes := 888 |}.
Definition tls_ptr_sized_values_Init29 : tls_ptr_sized_values_OffsetTable :=
  if bits =? 64 then
    {| tls_stack_end := 16; tls_managed_stack := 24; tls_jni_env := 56; tls_self := 72;
       tls_opeer := 80; tls_stack_begin := 96; tls_stack_size := 104;
       tls_monitor_enter_object := 128; tls_name := 208; tls_pthread_self := 216;
       tls_held_mutexes := 1792 |}
  else
    {| tls_stack_end := 8; tls_managed_stack := 12; tls_jni_env := 28; tls_self := 36;
       tls_opeer := 40; tls_stack_begin := 48; tls_stack_size := 52;
       tls_monitor_enter_object := 64; tls_name := 104; tls_pthread_self := 108;
       tls_held_mutexes := 896 |}.
Definition tls_ptr_sized_values_Init30 : tls_ptr_sized_values_OffsetTable :=
  if bits =? 64 then
    {| tls_stack_end := 16; tls_managed_stack := 24; tls_jni_env := 56; tls_self := 72;
       tls_opeer := 80; tls_stack_begin := 96; tls_stack_size := 104;
       tls_monitor_enter_object := 128; tls_name := 192; tls_pthread_self := 200;
       tls_held_mutexes := 1808 |}
  else
    {| tls_stack_end := 8; tls_managed_stack := 12; tls_jni_env := 28; tls_self := 36;
       tls_opeer := 40; tls_stack_begin := 48; tls_stack_size := 52;
       tls_monitor_enter_object := 64; tls_name := 96; tls_pthread_self := 100;
       tls_held_mutexes := 904 |}.
Definition tls_ptr_sized_values_Init33 : tls_ptr_sized_values_OffsetTable :=
  if bits =? 64 then
    {| tls_stack_end := 16; tls_managed_stack := 24; tls_jni_env := 56; tls_self := 72;
       tls_opeer := 80; tls_stack_begin := 96; tls_stack_size := 104;
       tls_monitor_enter_object := 128; tls_name := 192; tls_pthread_self := 200;
       tls_held_mutexes := 1792 |}
  else
    {| tls_stack_end := 8; tls_managed_stack := 12; tls_jni_env := 28; tls_self := 36;
       tls_opeer := 40; tls_stack_begin := 48; tls_stack_size := 52;
       tls_monitor_enter_object := 64; tls_name := 96; tls_pthread_self := 100;
       tls_held_mutexes := 896 |}.
Definition tls_ptr_sized_values_Init34 : tls_ptr_sized_values_OffsetTable :=
  if bits =? 64 then
    {| tls_stack_end := 16; tls_managed_stack := 24; tls_jni_env := 56; tls_self := 72;
       tls_opeer := 80; tls_stack_begin := 96; tls_stack_size := 104;
       tls_monitor_enter_object := 128; tls_name := 184; tls_pthread_self := 192;
       tls_held_mutexes := 1808 |}
  else
    {| tls_stack_end := 8; tls_managed_stack := 12; tls_jni_env := 28; tls_self := 36;
       tls_opeer := 40; tls_stack_begin := 48; tls_stack_size := 52;
       tls_monitor_enter_object := 64; tls_name := 92; tls_pthread_self := 96;
       tls_held_mutexes := 904 |}.
Definition tls_ptr_sized_values_Init35 : tls_ptr_sized_values_OffsetTable :=
  if bits =? 64 then
    {| tls_stack_end := 16; tls_managed_stack := 24; tls_jni_env := 56; tls_self := 72;
       tls_opeer := 80; tls_stack_begin := 96; tls_stack_size := 104;
       tls_monitor_enter_object := 128; tls_name := 184; tls_pthread_self := 192;
       tls_held_mutexes := 1800 |}
  else
    {| tls_stack_end := 8; tls_managed_stack := 12; tls_jni_env := 28; tls_self := 36;
       tls_opeer := 40; tls_stack_begin := 48; tls_stack_size := 52;
       tls_monitor_enter_object := 64; tls_name := 92; tls_pthread_self := 96;
       tls_held_mutexes := 900 |}.
Definition tls_ptr_sized_values_Init36 : tls_ptr_sized_values_OffsetTable :=
  if bits =? 64 then
    {| tls_stack_end := 16; tls_managed_stack := 24; tls_jni_env := 56; tls_self := 72;
       tls_opeer := 80; tls_stack_begin := 96; tls_stack_size := 104;
       tls_monitor_enter_object := 128; tls_name := 176; tls_pthread_self := 184;
       tls_held_mutexes := 1808 |}
  else
    {| tls_stack_end := 8; tls_managed_stack := 12; tls_jni_env := 28; tls_self := 36;
       tls_opeer := 40; tls_stack_begin := 48; tls_stack_size := 52;
       tls_monitor_enter_object := 64; tls_name := 88; tls_pthread_self := 92;
       tls_held_mutexes := 904 |}.
Definition tls_ptr_sized_values_Init37 : tls_ptr_sized_values_OffsetTable :=
  if bits =? 64 then
    {| tls_stack_end := 16; tls_managed_stack := 24; tls_jni_env := 56; tls_self := 72;
       tls_opeer := 80; tls_stack_begin := 96; tls_stack_size := 104;
       tls_monitor_enter_object := 128; tls_name := 176; tls_pthread_self := 184;
       tls_held_mutexes := 1816 |}
  else
    {| tls_stack_end := 8; tls_managed_stack := 12; tls_jni_env := 28; tls_self := 36;
       tls_opeer := 40; tls_stack_begin := 48; tls_stack_size := 52;
       tls_monitor_enter_object := 64; tls_name := 88; tls_pthread_self := 92;
       tls_held_mutexes := 908 |}.
Definition tls_ptr_sized_values_table : tls_ptr_sized_values_OffsetTable :=
  listen sdk
    {| tls_stack_end := 0; tls_managed_stack := 0; tls_jni_env := 0; tls_self := 0;
       tls_opeer := 0; tls_stack_begin := 0; tls_stack_size := 0; tls_monitor_enter_object := 0;
       tls_name := 0; tls_pthread_self := 0; tls_held_mutexes := 0 |}
    [(Sdk.M, tls_ptr_sized_values_Init23); (Sdk.N, tls_ptr_sized_values_Init24);
     (Sdk.O, tls_ptr_sized_values_Init26); (Sdk.P, tls_ptr_sized_values_Init28);
     (Sdk.Q, tls_ptr_sized_values_Init29); (Sdk.R, tls_ptr_sized_values_Init30);
     (Sdk.T, tls_ptr_sized_values_Init33); (Sdk.U, tls_ptr_sized_values_Init34);
     (Sdk.V, tls_ptr_sized_values_Init35); (Sdk.W, tls_ptr_sized_values_Init36);
     (Sdk.X, tls_ptr_sized_values_Init37)].

Record ThreadList_OffsetTable := { tl_list_ : Z }.
Definition ThreadList_Init23 : ThreadList_OffsetTable :=
  {| tl_list_ := 8192 |}.
Definition ThreadList_Init37 : ThreadList_OffsetTable :=
  {| tl_list_ := 8232 |}.
Definition ThreadList_table : ThreadList_OffsetTable :=
  listen sdk
    {| tl_list_ := 0 |}
    [(Sdk.M, ThreadList_Init23); (Sdk.X, ThreadList_Init37)].

Record Heap_OffsetTable := { heap_continuous_spaces_ : Z; heap_discontinuous_spaces_ : Z }.
Definition Heap_Init23 : Heap_OffsetTable :=
  if bits =? 64 then
    {| heap_continuous_spaces_ := 0; heap_discontinuous_spaces_ := 24 |}
  else
    {| heap_continuous_spaces_ := 0; heap_discontinuous_spaces_ := 12 |}.
Definition Heap_table : Heap_OffsetTable :=
  listen sdk
    {| heap_continuous_spaces_ := 0; heap_discontinuous_spaces_ := 0 |}
    [(Sdk.M, Heap_Init23)].

Record BaseMutex_OffsetTable := { bm_vtbl : Z; bm_vtbl_IsMutex : Z;
  bm_vtbl_IsReaderWriterMutex : Z; bm_vtbl_IsMutatorMutex : Z; bm_name_ : Z }.
Definition BaseMutex_Init23 : BaseMutex_OffsetTable :=
  if bits =? 64 then
    {| bm_vtbl := 0; bm_vtbl_IsMutex := 0; bm_vtbl_IsReaderWriterMutex := 8;
       bm_vtbl_IsMutatorMutex := 16; bm_name_ := 16 |}
  else
    {| bm_vtbl := 0; bm_vtbl_IsMutex := 0; bm_vtbl_IsReaderWriterMutex := 4;
       bm_vtbl_IsMutatorMutex := 8; bm_name_ := 8 |}.
Definition BaseMutex_Init29 : BaseMutex_OffsetTable :=
  if bits =? 64 then
    {| bm_vtbl := 0; bm_vtbl_IsMutex := 0; bm_vtbl_IsReaderWriterMutex := 8;
       bm_vtbl_IsMutatorMutex := 16; bm_name_ := 8 |}
  else
    {| bm_vtbl := 0; bm_vtbl_IsMutex := 0; bm_vtbl_IsReaderWriterMutex := 4;
       bm_vtbl_IsMutatorMutex := 8; bm_name_ := 4 |}.
Definition BaseMutex_table : BaseMutex_OffsetTable :=
  listen sdk
    {| bm_vtbl := 0; bm_vtbl_IsMutex := 0; bm_vtbl_IsReaderWriterMutex := 0;
       bm_vtbl_IsMutatorMutex := 0; bm_name_ := 0 |}
    [(Sdk.M, BaseMutex_Init23); (Sdk.Q, BaseMutex_Init29)].

Record Mutex_OffsetTable := { mutex_exclusive_owner_ : Z }.
Definition Mutex_Init23 : Mutex_OffsetTable :=
  if bits =? 64 then
    {| mutex_exclusive_owner_ := 32 |}
  else
    {| mutex_exclusive_owner_ := 24 |}.
Definition Mutex_Init26 : Mutex_OffsetTable :=
  if bits =? 64 then
    {| mutex_exclusive_owner_ := 24 |}
  else
    {| mutex_exclusive_owner_ := 16 |}.
Definition Mutex_table : Mutex_OffsetTable :=
  listen sdk
    {| mutex_exclusive_owner_ := 0 |}
    [(Sdk.M, Mutex_Init23); (Sdk.O, Mutex_Init26)].

Record ReaderWriterMutex_OffsetTable := { rw_state_ : Z; rw_exclusive_owner_ : Z }.
Definition ReaderWriterMutex_Init23 : ReaderWriterMutex_OffsetTable :=
  if bits =? 64 then
    {| rw_state_ := 24; rw_exclusive_owner_ := 32 |}
  else
    {| rw_state_ := 16; rw_exclusive_owner_ := 24 |}.
Definition ReaderWriterMutex_Init26 : ReaderWriterMutex_OffsetTable :=
  if bits =? 64 then
    {| rw_state_ := 20; rw_exclusive_owner_ := 24 |}
  else
    {| rw_state_ := 12; rw_exclusive_owner_ := 16 |}.
Definition ReaderWriterMutex_Init37 : ReaderWriterMutex_OffsetTable :=
  if bits =? 64 then
    {| rw_state_ := 20; rw_exclusive_owner_ := 28 |}
  else
    {| rw_state_ := 12; rw_exclusive_owner_ := 20 |}.
Definition ReaderWriterMutex_table : ReaderWriterMutex_OffsetTable :=
  listen sdk
    {| rw_state_ := 0; rw_exclusive_owner_ := 0 |}
    [(Sdk.M, ReaderWriterMutex_Init23); (Sdk.O, ReaderWriterMutex_Init26);
     (Sdk.X, ReaderWriterMutex_Init37)].

Record ConditionVariable_OffsetTable := { cond_name_ : Z; cond_guard_ : Z; cond_sequence_ : Z;
  cond_num_waiters_ : Z }.
Definition ConditionVariable_Init23 : ConditionVariable_OffsetTable :=
  if bits =? 64 then
    {| cond_name_ := 0; cond_guard_ := 8; cond_sequence_ := 16; cond_num_waiters_ := 20 |}
  else
    {| cond_name_ := 0; cond_guard_ := 4; cond_sequence_ := 8; cond_num_waiters_ := 12 |}.
Definition ConditionVariable_table : ConditionVariable_OffsetTable :=
  listen sdk
    {| cond_name_ := 0; cond_guard_ := 0; cond_sequence_ := 0; cond_num_waiters_ := 0 |}
    [(Sdk.M, ConditionVariable_Init23)].

Record MonitorPool_OffsetTable := { mp_monitor_chunks_ : Z }.
Definition MonitorPool_Init : MonitorPool_OffsetTable :=
  {| mp_monitor_chunks_ := 0 |}.

Record JNIEnvExt_OffsetTable := { env_functions : Z; env_self_ : Z; env_vm_ : Z;
  env_locals_ : Z }.
Definition JNIEnvExt_Init23 : JNIEnvExt_OffsetTable :=
  if bits =? 64 then
    {| env_functions := 0; env_self_ := 8; env_vm_ := 16; env_locals_ := 32 |}
  else
    {| env_functions := 0; env_self_ := 4; env_vm_ := 8; env_locals_ := 16 |}.
Definition JNIEnvExt_Init35 : JNIEnvExt_OffsetTable :=
  if bits =? 64 then
    {| env_functions := 0; env_self_ := 8; env_vm_ := 16; env_locals_ := 24 |}
  else
    {| env_functions := 0; env_self_ := 4; env_vm_ := 8; env_locals_ := 12 |}.
Definition JNIEnvExt_table : JNIEnvExt_OffsetTable :=
  listen sdk
    {| env_functions := 0; env_self_ := 0; env_vm_ := 0; env_locals_ := 0 |}
    [(Sdk.M, JNIEnvExt_Init23); (Sdk.V, JNIEnvExt_Init35)].

Record IrtEntry_OffsetTable := { irt_serial_ : Z; irt_references_ : Z; IrtEntry_THIS : Z }.
Definition IrtEntry_Init23 : IrtEntry_OffsetTable :=
  {| irt_serial_ := 0; irt_references_ := 4; IrtEntry_THIS := 16 |}.
Definition IrtEntry_Init33 : IrtEntry_OffsetTable :=
  {| irt_serial_ := 0; irt_references_ := 4; IrtEntry_THIS := 8 |}.
Definition IrtEntry_table : IrtEntry_OffsetTable :=
  listen sdk
    {| irt_serial_ := 0; irt_references_ := 0; IrtEntry_THIS := 0 |}
    [(Sdk.M, IrtEntry_Init23); (Sdk.T, IrtEntry_Init33)].

Record IndirectReferenceTable_OffsetTable := { irt_segment_state_ : Z; irt_table_mem_map_ : Z;
  irt_table_ : Z; irt_kind_ : Z; irt_top_index_ : Z }.
Definition IndirectReferenceTable_Init23 : IndirectReferenceTable_OffsetTable :=
  if bits =? 64 then
    {| irt_segment_state_ := 0; irt_table_mem_map_ := 8; irt_table_ := 16; irt_kind_ := 24;
       irt_top_index_ := 0 |}
  else
    {| irt_segment_state_ := 0; irt_table_mem_map_ := 4; irt_table_ := 8; irt_kind_ := 12;
       irt_top_index_ := 0 |}.
Definition IndirectReferenceTable_Init29 : IndirectReferenceTable_OffsetTable :=
  if bits =? 64 then
    {| irt_segment_state_ := 0; irt_table_mem_map_ := 8; irt_table_ := 80; irt_kind_ := 88;
       irt_top_index_ := 0 |}
  else
    {| irt_segment_state_ := 0; irt_table_mem_map_ := 4; irt_table_ := 44; irt_kind_ := 48;
       irt_top_index_ := 0 |}.
Definition IndirectReferenceTable_Init34 : IndirectReferenceTable_OffsetTable :=
  if bits =? 64 then
    {| irt_segment_state_ := 0; irt_table_mem_map_ := 0; irt_table_ := 72; irt_kind_ := 80;
       irt_top_index_ := 88 |}
  else
    {| irt_segment_state_ := 0; irt_table_mem_map_ := 0; irt_table_ := 40; irt_kind_ := 44;
       irt_top_index_ := 48 |}.
Definition IndirectReferenceTable_Init37 : IndirectReferenceTable_OffsetTable :=
  if bits =? 64 then
    {| irt_segment_state_ := 0; irt_table_mem_map_ := 0; irt_table_ := 72; irt_kind_ := 160;
       irt_top_index_ := 168 |}
  else
    {| irt_segment_state_ := 0; irt_table_mem_map_ := 0; irt_table_ := 40; irt_kind_ := 88;
       irt_top_index_ := 92 |}.
Definition IndirectReferenceTable_table : IndirectReferenceTable_OffsetTable :=
  listen sdk
    {| irt_segment_state_ := 0; irt_table_mem_map_ := 0; irt_table_ := 0; irt_kind_ := 0;
       irt_top_index_ := 0 |}
    [(Sdk.M, IndirectReferenceTable_Init23); (Sdk.Q, IndirectReferenceTable_Init29);
     (Sdk.U, IndirectReferenceTable_Init34); (Sdk.X, IndirectReferenceTable_Init37)].

Record LocalReferenceTable_OffsetTable := { lrt_segment_state_ : Z; lrt_tables_ : Z }.
Definition LocalReferenceTable_Init34 : LocalReferenceTable_OffsetTable :=
  if bits =? 64 then
    {| lrt_segment_state_ := 0; lrt_tables_ := 24 |}
  else
    {| lrt_segment_state_ := 0; lrt_tables_ := 16 |}.
Definition LocalReferenceTable_Init35 : LocalReferenceTable_OffsetTable :=
  if bits =? 64 then
    {| lrt_segment_state_ := 4; lrt_tables_ := 24 |}
  else
    {| lrt_segment_state_ := 4; lrt_tables_ := 20 |}.
Definition LocalReferenceTable_table : LocalReferenceTable_OffsetTable :=
  listen sdk
    {| lrt_segment_state_ := 0; lrt_tables_ := 0 |}
    [(Sdk.U, LocalReferenceTable_Init34); (Sdk.V, LocalReferenceTable_Init35)].

Record ClassLinker_OffsetTable := { cl_dex_caches_ : Z }.
Definition ClassLinker_Init23 : ClassLinker_OffsetTable :=
  if bits =? 64 then
    {| cl_dex_caches_ := 120 |}
  else
    {| cl_dex_caches_ := 76 |}.
Definition ClassLinker_Init24 : ClassLinker_OffsetTable :=
  if bits =? 64 then
    {| cl_dex_caches_ := 96 |}
  else
    {| cl_dex_caches_ := 64 |}.
Definition ClassLinker_Init26 : ClassLinker_OffsetTable :=
  if bits =? 64 then
    {| cl_dex_caches_ := 48 |}
  else
    {| cl_dex_caches_ := 24 |}.
Definition ClassLinker_Init28 : ClassLinker_OffsetTable :=
  if bits =? 64 then
    {| cl_dex_caches_ := 56 |}
  else
    {| cl_dex_caches_ := 28 |}.
Definition ClassLinker_table : ClassLinker_OffsetTable :=
  listen sdk
    {| cl_dex_caches_ := 0 |}
    [(Sdk.M, ClassLinker_Init23); (Sdk.N, ClassLinker_Init24); (Sdk.O, ClassLinker_Init26);
     (Sdk.P, ClassLinker_Init28)].

Record DexCacheData_OffsetTable := { dcd_weak_root : Z; dcd_dex_file : Z; dcd_class_table : Z;
  dcd_registration_index : Z }.
Definition DexCacheData_Init24 : DexCacheData_OffsetTable :=
  if bits =? 64 then
    {| dcd_weak_root := 0; dcd_dex_file := 8; dcd_class_table := 0;
       dcd_registration_index := 0 |}
  else
    {| dcd_weak_root := 0; dcd_dex_file := 4; dcd_class_table := 0;
       dcd_registration_index := 0 |}.
Definition DexCacheData_Init26 : DexCacheData_OffsetTable :=
  if bits =? 64 then
    {| dcd_weak_root := 0; dcd_dex_file := 8; dcd_class_table := 24;
       dcd_registration_index := 0 |}
  else
    {| dcd_weak_root := 0; dcd_dex_file := 4; dcd_class_table := 12;
       dcd_registration_index := 0 |}.
Definition DexCacheData_Init28 : DexCacheData_OffsetTable :=
  if bits =? 64 then
    {| dcd_weak_root := 0; dcd_dex_file := 8; dcd_class_table := 16;
       dcd_registration_index := 0 |}
  else
    {| dcd_weak_root := 0; dcd_dex_file := 4; dcd_class_table := 8;
       dcd_registration_index := 0 |}.
Definition DexCacheData_Init33 : DexCacheData_OffsetTable :=
  if bits =? 64 then
    {| dcd_weak_root := 0; dcd_dex_file := 0; dcd_class_table := 8;
       dcd_registration_index := 16 |}
  else
    {| dcd_weak_root := 0; dcd_dex_file := 0; dcd_class_table := 4;
       dcd_registration_index := 8 |}.
Definition DexCacheData_Init37 : DexCacheData_OffsetTable :=
  if bits =? 64 then
    {| dcd_weak_root := 0; dcd_dex_file := 24; dcd_class_table := 8;
       dcd_registration_index := 16 |}
  else
    {| dcd_weak_root := 0; dcd_dex_file := 12; dcd_class_table := 4;
       dcd_registration_index := 8 |}.
Definition DexCacheData_table : DexCacheData_OffsetTable :=
  listen sdk
    {| dcd_weak_root := 0; dcd_dex_file := 0; dcd_class_table := 0;
       dcd_registration_index := 0 |}
    [(Sdk.N, DexCacheData_Init24); (Sdk.O, DexCacheData_Init26); (Sdk.P, DexCacheData_Init28);
     (Sdk.T, DexCacheData_Init33); (Sdk.X, DexCacheData_Init37)].

Record ArtMethod_OffsetTable := { am_declaring_class_ : Z; am_access_flags_ : Z;
  am_dex_code_item_offset_ : Z; am_dex_method_index_ : Z; am_method_index_ : Z;
  am_hotness_count_ : Z; am_imt_index_ : Z; am_ptr_sized_fields_ : Z; ArtMethod_THIS : Z }.
Definition ArtMethod_Init23 : ArtMethod_OffsetTable :=
  if bits =? 64 then
    {| am_declaring_class_ := 0; am_access_flags_ := 12; am_dex_code_item_offset_ := 16;
       am_dex_method_index_ := 20; am_method_index_ := 24; am_hotness_count_ := 0;
       am_imt_index_ := 0; am_ptr_sized_fields_ := 32; ArtMethod_THIS := 56 |}
  else
    {| am_declaring_class_ := 0; am_access_flags_ := 12; am_dex_code_item_offset_ := 16;
       am_dex_method_index_ := 20; am_method_index_ := 24; am_hotness_count_ := 0;
       am_imt_index_ := 0; am_ptr_sized_fields_ := 28; ArtMethod_THIS := 40 |}.
Definition ArtMethod_Init24 : ArtMethod_OffsetTable :=
  if bits =? 64 then
    {| am_declaring_class_ := 0; am_access_flags_ := 4; am_dex_code_item_offset_ := 8;
       am_dex_method_index_ := 12; am_method_index_ := 16; am_hotness_count_ := 18;
       am_imt_index_ := 18; am_ptr_sized_fields_ := 24; ArtMethod_THIS := 56 |}
  else
    {| am_declaring_class_ := 0; am_access_flags_ := 4; am_dex_code_item_offset_ := 8;
       am_dex_method_index_ := 12; am_method_index_ := 16; am_hotness_count_ := 18;
       am_imt_index_ := 18; am_ptr_sized_fields_ := 20; ArtMethod_THIS := 36 |}.
Definition ArtMethod_Init26 : ArtMethod_OffsetTable :=
  if bits =? 64 then
    {| am_declaring_class_ := 0; am_access_flags_ := 4; am_dex_code_item_offset_ := 8;
       am_dex_method_index_ := 12; am_method_index_ := 16; am_hotness_count_ := 18;
       am_imt_index_ := 18; am_ptr_sized_fields_ := 24; ArtMethod_THIS := 48 |}
  else
    {| am_declaring_class_ := 0; am_access_flags_ := 4; am_dex_code_item_offset_ := 8;
       am_dex_method_index_ := 12; am_method_index_ := 16; am_hotness_count_ := 18;
       am_imt_index_ := 18; am_ptr_sized_fields_ := 20; ArtMethod_THIS := 32 |}.
Definition ArtMethod_Init28 : ArtMethod_OffsetTable :=
  if bits =? 64 then
    {| am_declaring_class_ := 0; am_access_flags_ := 4; am_dex_code_item_offset_ := 8;
       am_dex_method_index_ := 12; am_method_index_ := 16; am_hotness_count_ := 18;
       am_imt_index_ := 18; am_ptr_sized_fields_ := 24; ArtMethod_THIS := 40 |}
  else
    {| am_declaring_class_ := 0; am_access_flags_ := 4; am_dex_code_item_offset_ := 8;
       am_dex_method_index_ := 12; am_method_index_ := 16; am_hotness_count_ := 18;
       am_imt_index_ := 18; am_ptr_sized_fields_ := 20; ArtMethod_THIS := 28 |}.
Definition ArtMethod_Init31 : ArtMethod_OffsetTable :=
  if bits =? 64 then
    {| am_declaring_class_ := 0; am_access_flags_ := 4; am_dex_code_item_offset_ := 0;
       am_dex_method_index_ := 8; am_method_index_ := 12; am_hotness_count_ := 14;
       am_imt_index_ := 14; am_ptr_sized_fields_ := 16; ArtMethod_THIS := 32 |}
  else
    {| am_declaring_class_ := 0; am_access_flags_ := 4; am_dex_code_item_offset_ := 0;
       am_dex_method_index_ := 8; am_method_index_ := 12; am_hotness_count_ := 14;
       am_imt_index_ := 14; am_ptr_sized_fields_ := 16; ArtMethod_THIS := 24 |}.
Definition ArtMethod_table : ArtMethod_OffsetTable :=
  listen sdk
    {| am_declaring_class_ := 0; am_access_flags_ := 0; am_dex_code_item_offset_ := 0;
       am_dex_method_index_ := 0; am_method_index_ := 0; am_hotness_count_ := 0;
       am_imt_index_ := 0; am_ptr_sized_fields_ := 0; ArtMethod_THIS := 0 |}
    [(Sdk.M, ArtMethod_Init23); (Sdk.N, ArtMethod_Init24); (Sdk.O, ArtMethod_Init26);
     (Sdk.P, ArtMethod_Init28); (Sdk.S, ArtMethod_Init31)].

Record PtrSizedFields_OffsetTable := { ps_dex_cache_resolved_methods_ : Z; ps_data_ : Z;
  ps_entry_point_from_quick_compiled_code_ : Z }.
Definition PtrSizedFields_Init23 : PtrSizedFields_OffsetTable :=
  if bits =? 64 then
    {| ps_dex_cache_resolved_methods_ := 0; ps_data_ := 8;
       ps_entry_point_from_quick_compiled_code_ := 16 |}
  else
    {| ps_dex_cache_resolved_methods_ := 0; ps_data_ := 4;
       ps_entry_point_from_quick_compiled_code_ := 8 |}.
Definition PtrSizedFields_Init24 : PtrSizedFields_OffsetTable :=
  if bits =? 64 then
    {| ps_dex_cache_resolved_methods_ := 0; ps_data_ := 16;
       ps_entry_point_from_quick_compiled_code_ := 24 |}
  else
    {| ps_dex_cache_resolved_methods_ := 0; ps_data_ := 8;
       ps_entry_point_from_quick_compiled_code_ := 12 |}.
Definition PtrSizedFields_Init26 : PtrSizedFields_OffsetTable :=
  if bits =? 64 then
    {| ps_dex_cache_resolved_methods_ := 0; ps_data_ := 8;
       ps_entry_point_from_quick_compiled_code_ := 16 |}
  else
    {| ps_dex_cache_resolved_methods_ := 0; ps_data_ := 4;
       ps_entry_point_from_quick_compiled_code_ := 8 |}.
Definition PtrSizedFields_Init28 : PtrSizedFields_OffsetTable :=
  if bits =? 64 then
    {| ps_dex_cache_resolved_methods_ := 0; ps_data_ := 0;
       ps_entry_point_from_quick_compiled_code_ := 8 |}
  else
    {| ps_dex_cache_resolved_methods_ := 0; ps_data_ := 0;
       ps_entry_point_from_quick_compiled_code_ := 4 |}.
Definition PtrSizedFields_table : PtrSizedFields_OffsetTable :=
  listen sdk
    {| ps_dex_cache_resolved_methods_ := 0; ps_data_ := 0;
       ps_entry_point_from_quick_compiled_code_ := 0 |}
    [(Sdk.M, PtrSizedFields_Init23); (Sdk.N, PtrSizedFields_Init24);
     (Sdk.O, PtrSizedFields_Init26); (Sdk.P, PtrSizedFields_Init28)].

Record ArtField_OffsetTable := { af_declaring_class_ : Z; af_access_flags_ : Z;
  af_field_dex_idx_ : Z; af_offset_ : Z; ArtField_THIS : Z }.
Definition ArtField_Init : ArtField_OffsetTable :=
  {| af_declaring_class_ := 0; af_access_flags_ := 4; af_field_dex_idx_ := 8; af_offset_ := 12;
     ArtField_THIS := 16 |}.

Record HandleScope_OffsetTable := { HandleScope_THIS : Z }.
Definition HandleScope_Init23 : HandleScope_OffsetTable :=
  if bits =? 64 then
    {| HandleScope_THIS := 12 |}
  else
    {| HandleScope_THIS := 8 |}.
Definition HandleScope_Init34 : HandleScope_OffsetTable :=
  if bits =? 64 then
    {| HandleScope_THIS := 16 |}
  else
    {| HandleScope_THIS := 12 |}.
Definition HandleScope_table : HandleScope_OffsetTable :=
  listen sdk
    {| HandleScope_THIS := 0 |}
    [(Sdk.M, HandleScope_Init23); (Sdk.U, HandleScope_Init34)].

Record OatFile_OffsetTable := { of_vdex_ : Z; of_begin_ : Z; of_is_executable_ : Z }.
Definition OatFile_Init23 : OatFile_OffsetTable :=
  if bits =? 64 then
    {| of_vdex_ := 0; of_begin_ := 24; of_is_executable_ := 64 |}
  else
    {| of_vdex_ := 0; of_begin_ := 12; of_is_executable_ := 28 |}.
Definition OatFile_Init26 : OatFile_OffsetTable :=
  if bits =? 64 then
    {| of_vdex_ := 32; of_begin_ := 40; of_is_executable_ := 104 |}
  else
    {| of_vdex_ := 16; of_begin_ := 20; of_is_executable_ := 52 |}.
Definition OatFile_Init36 : OatFile_OffsetTable :=
  if bits =? 64 then
    {| of_vdex_ := 32; of_begin_ := 40; of_is_executable_ := 112 |}
  else
    {| of_vdex_ := 16; of_begin_ := 20; of_is_executable_ := 56 |}.
Definition OatFile_Init37 : OatFile_OffsetTable :=
  if bits =? 64 then
    {| of_vdex_ := 32; of_begin_ := 40; of_is_executable_ := 120 |}
  else
    {| of_vdex_ := 16; of_begin_ := 20; of_is_executable_ := 60 |}.
Definition OatFile_table : OatFile_OffsetTable :=
  listen sdk
    {| of_vdex_ := 0; of_begin_ := 0; of_is_executable_ := 0 |}
    [(Sdk.M, OatFile_Init23); (Sdk.O, OatFile_Init26); (Sdk.W, OatFile_Init36);
     (Sdk.X, OatFile_Init37)].

Record OatDexFile_OffsetTable := { odf_oat_file_ : Z; odf_oat_class_offsets_pointer_ : Z }.
Definition OatDexFile_Init23 : OatDexFile_OffsetTable :=
  if bits =? 64 then
    {| odf_oat_file_ := 0; odf_oat_class_offsets_pointer_ := 72 |}
  else
    {| odf_oat_file_ := 0; odf_oat_class_offsets_pointer_ := 36 |}.
Definition OatDexFile_Init24 : OatDexFile_OffsetTable :=
  if bits =? 64 then
    {| odf_oat_file_ := 0; odf_oat_class_offsets_pointer_ := 80 |}
  else
    {| odf_oat_file_ := 0; odf_oat_class_offsets_pointer_ := 40 |}.
Definition OatDexFile_Init28 : OatDexFile_OffsetTable :=
  if bits =? 64 then
    {| odf_oat_file_ := 0; odf_oat_class_offsets_pointer_ := 104 |}
  else
    {| odf_oat_file_ := 0; odf_oat_class_offsets_pointer_ := 52 |}.
Definition OatDexFile_Init31 : OatDexFile_OffsetTable :=
  if bits =? 64 then
    {| odf_oat_file_ := 0; odf_oat_class_offsets_pointer_ := 120 |}
  else
    {| odf_oat_file_ := 0; odf_oat_class_offsets_pointer_ := 60 |}.
Definition OatDexFile_Init35 : OatDexFile_OffsetTable :=
  if bits =? 64 then
    {| odf_oat_file_ := 0; odf_oat_class_offsets_pointer_ := 168 |}
  else
    {| odf_oat_file_ := 0; odf_oat_class_offsets_pointer_ := 96 |}.
Definition OatDexFile_Init37 : OatDexFile_OffsetTable :=
  if bits =? 64 then
    {| odf_oat_file_ := 0; odf_oat_class_offsets_pointer_ := 176 |}
  else
    {| odf_oat_file_ := 0; odf_oat_class_offsets_pointer_ := 108 |}.
Definition OatDexFile_table : OatDexFile_OffsetTable :=
  listen sdk
    {| odf_oat_file_ := 0; odf_oat_class_offsets_pointer_ := 0 |}
    [(Sdk.M, OatDexFile_Init23); (Sdk.N, OatDexFile_Init24); (Sdk.P, OatDexFile_Init28);
     (Sdk.S, OatDexFile_Init31); (Sdk.V, OatDexFile_Init35); (Sdk.X, OatDexFile_Init37)].

Record Jit_OffsetTable := { jit_code_cache_ : Z }.
Definition Jit_Init23 : Jit_OffsetTable :=
  if bits =? 64 then
    {| jit_code_cache_ := 208 |}
  else
    {| jit_code_cache_ := 140 |}.
Definition Jit_Init24 : Jit_OffsetTable :=
  if bits =? 64 then
    {| jit_code_cache_ := 368 |}
  else
    {| jit_code_cache_ := 248 |}.
Definition Jit_Init26 : Jit_OffsetTable :=
  if bits =? 64 then
    {| jit_code_cache_ := 368 |}
  else
    {| jit_code_cache_ := 248 |}.
Definition Jit_Init28 : Jit_OffsetTable :=
  if bits =? 64 then
    {| jit_code_cache_ := 352 |}
  else
    {| jit_code_cache_ := 240 |}.
Definition Jit_Init29 : Jit_OffsetTable :=
  if bits =? 64 then
    {| jit_code_cache_ := 8 |}
  else
    {| jit_code_cache_ := 4 |}.
Definition Jit_table : Jit_OffsetTable :=
  listen sdk
    {| jit_code_cache_ := 0 |}
    [(Sdk.M, Jit_Init23); (Sdk.N, Jit_Init24); (Sdk.O, Jit_Init26); (Sdk.P, Jit_Init28);
     (Sdk.Q, Jit_Init29)].

Record JitMemoryRegion_OffsetTable := { jmr_exec_pages_ : Z }.
Definition JitMemoryRegion_Init30 : JitMemoryRegion_OffsetTable :=
  if bits =? 64 then
    {| jmr_exec_pages_ := 200 |}
  else
    {| jmr_exec_pages_ := 108 |}.
Definition JitMemoryRegion_table : JitMemoryRegion_OffsetTable :=
  listen sdk
    {| jmr_exec_pages_ := 0 |}
    [(Sdk.R, JitMemoryRegion_Init30)].

Record JitCodeCache_OffsetTable := { jcc_code_map_ : Z; jcc_exec_pages_ : Z;
  jcc_shared_region_ : Z; jcc_private_region_ : Z; jcc_jni_stubs_map_ : Z;
  jcc_method_code_map_ : Z; jcc_zygote_exec_pages_ : Z; jcc_zygote_map_ : Z }.
Definition JitCodeCache_Init23 : JitCodeCache_OffsetTable :=
  if bits =? 64 then
    {| jcc_code_map_ := 0; jcc_exec_pages_ := 0; jcc_shared_region_ := 0;
       jcc_private_region_ := 0; jcc_jni_stubs_map_ := 0; jcc_method_code_map_ := 136;
       jcc_zygote_exec_pages_ := 0; jcc_zygote_map_ := 0 |}
  else
    {| jcc_code_map_ := 0; jcc_exec_pages_ := 0; jcc_shared_region_ := 0;
       jcc_private_region_ := 0; jcc_jni_stubs_map_ := 0; jcc_method_code_map_ := 80;
       jcc_zygote_exec_pages_ := 0; jcc_zygote_map_ := 0 |}.
Definition JitCodeCache_Init24 : JitCodeCache_OffsetTable :=
  if bits =? 64 then
    {| jcc_code_map_ := 96; jcc_exec_pages_ := 0; jcc_shared_region_ := 0;
       jcc_private_region_ := 0; jcc_jni_stubs_map_ := 0; jcc_method_code_map_ := 136;
       jcc_zygote_exec_pages_ := 0; jcc_zygote_map_ := 0 |}
  else
    {| jcc_code_map_ := 60; jcc_exec_pages_ := 0; jcc_shared_region_ := 0;
       jcc_private_region_ := 0; jcc_jni_stubs_map_ := 0; jcc_method_code_map_ := 80;
       jcc_zygote_exec_pages_ := 0; jcc_zygote_map_ := 0 |}.
Definition JitCodeCache_Init26 : JitCodeCache_OffsetTable :=
  if bits =? 64 then
    {| jcc_code_map_ := 96; jcc_exec_pages_ := 0; jcc_shared_region_ := 0;
       jcc_private_region_ := 0; jcc_jni_stubs_map_ := 0; jcc_method_code_map_ := 136;
       jcc_zygote_exec_pages_ := 0; jcc_zygote_map_ := 0 |}
  else
    {| jcc_code_map_ := 60; jcc_exec_pages_ := 0; jcc_shared_region_ := 0;
       jcc_private_region_ := 0; jcc_jni_stubs_map_ := 0; jcc_method_code_map_ := 80;
       jcc_zygote_exec_pages_ := 0; jcc_zygote_map_ := 0 |}.
Definition JitCodeCache_Init28 : JitCodeCache_OffsetTable :=
  if bits =? 64 then
    {| jcc_code_map_ := 96; jcc_exec_pages_ := 0; jcc_shared_region_ := 0;
       jcc_private_region_ := 0; jcc_jni_stubs_map_ := 136; jcc_method_code_map_ := 160;
       jcc_zygote_exec_pages_ := 0; jcc_zygote_map_ := 0 |}
  else
    {| jcc_code_map_ := 60; jcc_exec_pages_ := 0; jcc_shared_region_ := 0;
       jcc_private_region_ := 0; jcc_jni_stubs_map_ := 80; jcc_method_code_map_ := 92;
       jcc_zygote_exec_pages_ := 0; jcc_zygote_map_ := 0 |}.
Definition JitCodeCache_Init29 : JitCodeCache_OffsetTable :=
  if bits =? 64 then
    {| jcc_code_map_ := 0; jcc_exec_pages_ := 90; jcc_shared_region_ := 0;
       jcc_private_region_ := 0; jcc_jni_stubs_map_ := 312; jcc_method_code_map_ := 336;
       jcc_zygote_exec_pages_ := 1008; jcc_zygote_map_ := 0 |}
  else
    {| jcc_code_map_ := 0; jcc_exec_pages_ := 88; jcc_shared_region_ := 0;
       jcc_private_region_ := 0; jcc_jni_stubs_map_ := 180; jcc_method_code_map_ := 192;
       jcc_zygote_exec_pages_ := 624; jcc_zygote_map_ := 0 |}.
Definition JitCodeCache_Init30 : JitCodeCache_OffsetTable :=
  if bits =? 64 then
    {| jcc_code_map_ := 0; jcc_exec_pages_ := 0; jcc_shared_region_ := 32;
       jcc_private_region_ := 392; jcc_jni_stubs_map_ := 752; jcc_method_code_map_ := 776;
       jcc_zygote_exec_pages_ := 0; jcc_zygote_map_ := 872 |}
  else
    {| jcc_code_map_ := 0; jcc_exec_pages_ := 0; jcc_shared_region_ := 20;
       jcc_private_region_ := 216; jcc_jni_stubs_map_ := 412; jcc_method_code_map_ := 424;
       jcc_zygote_exec_pages_ := 0; jcc_zygote_map_ := 472 |}.
Definition JitCodeCache_Init31 : JitCodeCache_OffsetTable :=
  if bits =? 64 then
    {| jcc_code_map_ := 0; jcc_exec_pages_ := 0; jcc_shared_region_ := 32;
       jcc_private_region_ := 392; jcc_jni_stubs_map_ := 752; jcc_method_code_map_ := 776;
       jcc_zygote_exec_pages_ := 0; jcc_zygote_map_ := 944 |}
  else
    {| jcc_code_map_ := 0; jcc_exec_pages_ := 0; jcc_shared_region_ := 20;
       jcc_private_region_ := 216; jcc_jni_stubs_map_ := 412; jcc_method_code_map_ := 424;
       jcc_zygote_exec_pages_ := 0; jcc_zygote_map_ := 508 |}.
Definition JitCodeCache_Init35 : JitCodeCache_OffsetTable :=
  if bits =? 64 then
    {| jcc_code_map_ := 0; jcc_exec_pages_ := 0; jcc_shared_region_ := 40;
       jcc_private_region_ := 400; jcc_jni_stubs_map_ := 760; jcc_method_code_map_ := 784;
       jcc_zygote_exec_pages_ := 0; jcc_zygote_map_ := 880 |}
  else
    {| jcc_code_map_ := 0; jcc_exec_pages_ := 0; jcc_shared_region_ := 24;
       jcc_private_region_ := 220; jcc_jni_stubs_map_ := 416; jcc_method_code_map_ := 428;
       jcc_zygote_exec_pages_ := 0; jcc_zygote_map_ := 524 |}.
Definition JitCodeCache_Init36 : JitCodeCache_OffsetTable :=
  if bits =? 64 then
    {| jcc_code_map_ := 0; jcc_exec_pages_ := 0; jcc_shared_region_ := 40;
       jcc_private_region_ := 400; jcc_jni_stubs_map_ := 760; jcc_method_code_map_ := 784;
       jcc_zygote_exec_pages_ := 0; jcc_zygote_map_ := 952 |}
  else
    {| jcc_code_map_ := 0; jcc_exec_pages_ := 0; jcc_shared_region_ := 24;
       jcc_private_region_ := 220; jcc_jni_stubs_map_ := 416; jcc_method_code_map_ := 428;
       jcc_zygote_exec_pages_ := 0; jcc_zygote_map_ := 512 |}.
Definition JitCodeCache_table : JitCodeCache_OffsetTable :=
  listen sdk
    {| jcc_code_map_ := 0; jcc_exec_pages_ := 0; jcc_shared_region_ := 0;
       jcc_private_region_ := 0; jcc_jni_stubs_map_ := 0; jcc_method_code_map_ := 0;
       jcc_zygote_exec_pages_ := 0; jcc_zygote_map_ := 0 |}
    [(Sdk.M, JitCodeCache_Init23); (Sdk.N, JitCodeCache_Init24); (Sdk.O, JitCodeCache_Init26);
     (Sdk.P, JitCodeCache_Init28); (Sdk.Q, JitCodeCache_Init29); (Sdk.R, JitCodeCache_Init30);
     (Sdk.S, JitCodeCache_Init31); (Sdk.V, JitCodeCache_Init35); (Sdk.W, JitCodeCache_Init36)].

Record JniStubData_OffsetTable := { jsd_code_ : Z; jsd_methods_ : Z }.
Definition JniStubData_Init28 : JniStubData_OffsetTable :=
  if bits =? 64 then
    {| jsd_code_ := 0; jsd_methods_ := 8 |}
  else
    {| jsd_code_ := 0; jsd_methods_ := 4 |}.
Definition JniStubData_table : JniStubData_OffsetTable :=
  listen sdk
    {| jsd_code_ := 0; jsd_methods_ := 0 |}
    [(Sdk.P, JniStubData_Init28)].

Record JniStubsMapPair_OffsetTable := { jsp_first : Z; jsp_second : Z }.
Definition JniStubsMapPair_Init28 : JniStubsMapPair_OffsetTable :=
  if bits =? 64 then
    {| jsp_first := 0; jsp_second := 16 |}
  else
    {| jsp_first := 0; jsp_second := 8 |}.
Definition JniStubsMapPair_table : JniStubsMapPair_OffsetTable :=
  listen sdk
    {| jsp_first := 0; jsp_second := 0 |}
    [(Sdk.P, JniStubsMapPair_Init28)].

Record ZygoteMap_OffsetTable := { zm_array_ : Z; zm_size_ : Z; zm_region_ : Z;
  zm_compilation_state_ : Z }.
Definition ZygoteMap_Init30 : ZygoteMap_OffsetTable :=
  if bits =? 64 then
    {| zm_array_ := 0; zm_size_ := 8; zm_region_ := 16; zm_compilation_state_ := 24 |}
  else
    {| zm_array_ := 0; zm_size_ := 4; zm_region_ := 8; zm_compilation_state_ := 12 |}.
Definition ZygoteMap_table : ZygoteMap_OffsetTable :=
  listen sdk
    {| zm_array_ := 0; zm_size_ := 0; zm_region_ := 0; zm_compilation_state_ := 0 |}
    [(Sdk.R, ZygoteMap_Init30)].

Record ShadowFrame_OffsetTable := { sf_link_ : Z; sf_method_ : Z; sf_result_register_ : Z;
  sf_dex_pc_ptr_ : Z; sf_dex_instructions_ : Z; sf_lock_count_data_ : Z; sf_number_of_vregs_ : Z;
  sf_dex_pc_ : Z; sf_cached_hotness_countdown_ : Z; sf_hotness_countdown_ : Z;
  sf_frame_flags_ : Z; sf_vregs_ : Z }.
Definition ShadowFrame_Init23 : ShadowFrame_OffsetTable :=
  if bits =? 64 then
    {| sf_link_ := 0; sf_method_ := 8; sf_result_register_ := 16; sf_dex_pc_ptr_ := 24;
       sf_dex_instructions_ := 32; sf_lock_count_data_ := 40; sf_number_of_vregs_ := 48;
       sf_dex_pc_ := 52; sf_cached_hotness_countdown_ := 56; sf_hotness_countdown_ := 58;
       sf_frame_flags_ := 60; sf_vregs_ := 64 |}
  else
    {| sf_link_ := 0; sf_method_ := 4; sf_result_register_ := 8; sf_dex_pc_ptr_ := 12;
       sf_dex_instructions_ := 16; sf_lock_count_data_ := 20; sf_number_of_vregs_ := 24;
       sf_dex_pc_ := 28; sf_cached_hotness_countdown_ := 28; sf_hotness_countdown_ := 32;
       sf_frame_flags_ := 36; sf_vregs_ := 40 |}.
Definition ShadowFrame_Init36 : ShadowFrame_OffsetTable :=
  if bits =? 64 then
    {| sf_link_ := 0; sf_method_ := 8; sf_result_register_ := 0; sf_dex_pc_ptr_ := 28;
       sf_dex_instructions_ := 0; sf_lock_count_data_ := 16; sf_number_of_vregs_ := 24;
       sf_dex_pc_ := 28; sf_cached_hotness_countdown_ := 0; sf_hotness_countdown_ := 0;
       sf_frame_flags_ := 32; sf_vregs_ := 36 |}
  else
    {| sf_link_ := 0; sf_method_ := 4; sf_result_register_ := 0; sf_dex_pc_ptr_ := 16;
       sf_dex_instructions_ := 0; sf_lock_count_data_ := 8; sf_number_of_vregs_ := 12;
       sf_dex_pc_ := 16; sf_cached_hotness_countdown_ := 0; sf_hotness_countdown_ := 0;
       sf_frame_flags_ := 20; sf_vregs_ := 24 |}.
Definition ShadowFrame_table : ShadowFrame_OffsetTable :=
  listen sdk
    {| sf_link_ := 0; sf_method_ := 0; sf_result_register_ := 0; sf_dex_pc_ptr_ := 0;
       sf_dex_instructions_ := 0; sf_lock_count_data_ := 0; sf_number_of_vregs_ := 0;
       sf_dex_pc_ := 0; sf_cached_hotness_countdown_ := 0; sf_hotness_countdown_ := 0;
       sf_frame_flags_ := 0; sf_vregs_ := 0 |}
    [(Sdk.M, ShadowFrame_Init23); (Sdk.W, ShadowFrame_Init36)].

Record MemMap_OffsetTable := { mm_name_ : Z; mm_begin_ : Z; mm_size_ : Z }.
Definition MemMap_Init : MemMap_OffsetTable :=
  if bits =? 64 then
    {| mm_name_ := 0; mm_begin_ := 24; mm_size_ := 32 |}
  else
    {| mm_name_ := 0; mm_begin_ := 12; mm_size_ := 16 |}.

Record VdexFile_OffsetTable := { vdex_mmap_ : Z }.
Definition VdexFile_Init : VdexFile_OffsetTable :=
  {| vdex_mmap_ := 0 |}.

(** * Tables that depend on the patch level, and other constants *)

(** [Android::Patch()]: of the release 6.0.1 it is 1. *)
Record Monitor_OffsetTable := { mon_monitor_lock_ : Z; mon_owner_ : Z; mon_obj_ : Z }.
Definition monitor_at (owner obj : Z) : Monitor_OffsetTable :=
  {| mon_monitor_lock_ := 0; mon_owner_ := owner; mon_obj_ := obj |}.
Definition Monitor_Init23 (patch : Z) : Monitor_OffsetTable :=
  if bits =? 64 then monitor_at 96 100
  else if 1 <=? patch then monitor_at 68 76 else monitor_at 60 68.
Definition Monitor_Init24 := if bits =? 64 then monitor_at 96 100 else monitor_at 60 68.
Definition Monitor_Init26 := if bits =? 64 then monitor_at 96 108 else monitor_at 60 68.
Definition Monitor_Init28 := if bits =? 64 then monitor_at 88 100 else monitor_at 60 68.
Definition Monitor_Init29 := if bits =? 64 then monitor_at 72 84 else monitor_at 52 60.
Definition Monitor_Init30 := if bits =? 64 then monitor_at 48 60 else monitor_at 36 44.
Definition Monitor_table (patch : Z) : Monitor_OffsetTable :=
  listen sdk (monitor_at 0 0)
    [(Sdk.M, Monitor_Init23 patch); (Sdk.N, Monitor_Init24); (Sdk.O, Monitor_Init26);
     (Sdk.P, Monitor_Init28); (Sdk.Q, Monitor_Init29); (Sdk.R, Monitor_Init30)].

Record JavaVMExt_OffsetTable := { vm_globals_ : Z; vm_weak_globals_ : Z }.
Definition JavaVMExt_Init23 (patch : Z) : JavaVMExt_OffsetTable :=
  if bits =? 64 then {| vm_globals_ := 112; vm_weak_globals_ := 224 |}
  else {| vm_globals_ := 72; vm_weak_globals_ := if 1 <=? patch then 152 else 144 |}.
Definition JavaVMExt_Init24 : JavaVMExt_OffsetTable :=
  if bits =? 64 then {| vm_globals_ := 112; vm_weak_globals_ := 224 |}
  else {| vm_globals_ := 72; vm_weak_globals_ := 144 |}.
Definition JavaVMExt_Init26 : JavaVMExt_OffsetTable :=
  if bits =? 64 then {| vm_globals_ := 64; vm_weak_globals_ := 136 |}
  else {| vm_globals_ := 32; vm_weak_globals_ := 72 |}.
Definition JavaVMExt_Init29 : JavaVMExt_OffsetTable :=
  if bits =? 64 then {| vm_globals_ := 64; vm_weak_globals_ := 200 |}
  else {| vm_globals_ := 32; vm_weak_globals_ := 108 |}.
Definition JavaVMExt_Init31 : JavaVMExt_OffsetTable := JavaVMExt_Init29.
Definition JavaVMExt_Init33 : JavaVMExt_OffsetTable := JavaVMExt_Init29.
Definition JavaVMExt_Init34 : JavaVMExt_OffsetTable :=
  if bits =? 64 then {| vm_globals_ := 64; vm_weak_globals_ := 192 |}
  else {| vm_globals_ := 32; vm_weak_globals_ := 100 |}.
Definition JavaVMExt_table (patch : Z) : JavaVMExt_OffsetTable :=
  listen sdk {| vm_globals_ := 0; vm_weak_globals_ := 0 |}
    [(Sdk.M, JavaVMExt_Init23 patch); (Sdk.N, JavaVMExt_Init24); (Sdk.O, JavaVMExt_Init26);
     (Sdk.Q, JavaVMExt_Init29); (Sdk.S, JavaVMExt_Init31); (Sdk.T, JavaVMExt_Init33);
     (Sdk.U, JavaVMExt_Init34)].

(** [LockLevel::kMonitorLock] and [kLockLevelCount]. *)
Definition LockLevel : Z * Z :=
  listen sdk (56, 78)
    [(Sdk.M, (39, 56)); (Sdk.N, (46, 63)); (Sdk.O, (49, 64)); (Sdk.P, (51, 70));
     (Sdk.Q, (54, 75)); (Sdk.R, (56, 78)); (Sdk.X, (70, 78))].

(** [ManagedStack::Init]. *)
Record ManagedStack_OffsetTable := {
  ms_tagged_top_quick_frame_ : Z; ms_link_ : Z; ms_top_shadow_frame_ : Z }.
Definition ManagedStack_Init : ManagedStack_OffsetTable :=
  let cap := 64 / bits in
  {| ms_tagged_top_quick_frame_ := 0; ms_link_ := 8 / cap; ms_top_shadow_frame_ := 16 / cap |}.
End Tables.

(** [Runtime::kNumCalleeMethodsCount], set by the [Init] functions of [Runtime]. *)
Definition kNumCalleeMethodsCount (sdk : Z) : Z :=
  listen sdk 3 [(Sdk.M, 3); (Sdk.N, 3); (Sdk.O, 4); (Sdk.P, 6)].
