(* ===== verification/Frames.v ===== *)
(** Frames of the managed code: android/art/runtime/quick/quick_method_frame_info.{h,cpp},
    runtime/base/callee_save_type.h, runtime/arch/<machine>/callee_save_frame_<machine>.h,
    quick_method_frame_info_<machine>.cpp and registers_<machine>.cpp, and
    entrypoints/quick/callee_save_frame.cpp.

    The frames of the runtime's callee-save methods are described by the registers they save.
    The five machines have the same functions over their own masks: one [SaveFrame] per
    machine.  The masks are written as the lists of registers of the source. *)

From Stdlib Require Import ZArith Lia Bool String.
From stdpp Require Import base list gmap numbers.
From S2P Require Import Prelude Words Host Blocks Notes CoreApi Segments AddressSpace MemRef Elf.
From S2P Require Import Bits Mirrors.
Open Scope Z_scope.

(** * Kinds of callee-save methods *)

Inductive CalleeSaveType : Type :=
  | kSaveAllCalleeSaves | kSaveRefsOnly | kSaveRefsAndArgs | kSaveEverything
  | kSaveEverythingForClinit | kSaveEverythingForSuspendCheck.
#[export] Instance CalleeSaveType_eq : EqDecision CalleeSaveType.
Proof. solve_decision. Defined.

Definition GetCanonicalCalleeSaveType (type : CalleeSaveType) : CalleeSaveType :=
  match type with
  | kSaveEverythingForClinit | kSaveEverythingForSuspendCheck => kSaveEverything
  | _ => type
  end.
Definition CalleeSaveType_index (type : CalleeSaveType) : Z :=
  match type with
  | kSaveAllCalleeSaves => 0 | kSaveRefsOnly => 1 | kSaveRefsAndArgs => 2
  | kSaveEverything => 3 | kSaveEverythingForClinit => 4 | kSaveEverythingForSuspendCheck => 5
  end.

(** * Frame descriptions *)

Record QuickMethodFrameInfo := {
  frame_size_in_bytes : Z; core_spill_mask : Z; fp_spill_mask : Z }.
Definition no_frame : QuickMethodFrameInfo :=
  {| frame_size_in_bytes := 0; core_spill_mask := 0; fp_spill_mask := 0 |}.

(** The registers a machine saves, per kind of method; [fp_words]: the pointers that a saved
    floating-point register takes. *)
Record SaveFrame := {
  sf_pointer_size : Z; fp_words : Z;
  AlwaysSpills : list Z; RefSpills : list Z; ArgSpills : list Z; AllSpills : list Z;
  EverythingSpills : list Z;
  FpAlwaysSpills : list Z; FpArgSpills : list Z; FpAllSpills : list Z;
  FpEverythingSpills : list Z }.
(** [(1 << r1) | (1 << r2) | ...] in 32 bits. *)
Definition spills (registers : list Z) : Z :=
  fold_right (fun r mask => Z.lor (shl 32 1 r) mask) 0 registers.

Definition kNumberOfCpuRegisters_x86 : Z := 9.
Definition kNumberOfCpuRegisters_x86_64 : Z := 17.

Definition ArmCalleeSaveFrame : SaveFrame :=
  {| sf_pointer_size := 4; fp_words := 1; AlwaysSpills := [14];
     RefSpills := [5; 6; 7; 8; 10; 11]; ArgSpills := [1; 2; 3]; AllSpills := [4; 9];
     EverythingSpills := [0; 1; 2; 3; 4; 9; 12];
     FpAlwaysSpills := []; FpArgSpills := seqZ 0 16; FpAllSpills := seqZ 16 16;
     FpEverythingSpills := seqZ 0 32 |}.
Definition Arm64CalleeSaveFrame : SaveFrame :=
  {| sf_pointer_size := 8; fp_words := 1; AlwaysSpills := [30];
     RefSpills := [20; 21; 22; 23; 24; 25; 26; 27; 28; 29]; ArgSpills := [1; 2; 3; 4; 5; 6; 7];
     AllSpills := [19];
     EverythingSpills := [0; 1; 2; 3; 4; 5; 6; 7; 8; 9; 10; 11; 12; 13; 14; 15; 16; 17; 19];
     FpAlwaysSpills := []; FpArgSpills := seqZ 0 8; FpAllSpills := seqZ 8 8;
     FpEverythingSpills := seqZ 0 32 |}.
Definition Riscv64CalleeSaveFrame : SaveFrame :=
  {| sf_pointer_size := 8; fp_words := 1; AlwaysSpills := [1];
     RefSpills := [8; 18; 19; 20; 21; 22; 23; 24; 25; 26; 27];
     ArgSpills := [11; 12; 13; 14; 15; 16; 17]; AllSpills := [];
     EverythingSpills := [5; 6; 7; 28; 29; 30; 31; 10; 11; 12; 13; 14; 15; 16; 17];
     FpAlwaysSpills := []; FpArgSpills := [10; 11; 12; 13; 14; 15; 16; 17];
     FpAllSpills := [8; 9; 18; 19; 20; 21; 22; 23; 24; 25; 26; 27];
     FpEverythingSpills := [0; 1; 2; 3; 4; 5; 6; 7; 28; 29; 30; 31; 8; 9; 18; 19; 20; 21; 22;
       23; 24; 25; 26; 27; 10; 11; 12; 13; 14; 15; 16; 17] |}.
Definition X86CalleeSaveFrame : SaveFrame :=
  {| sf_pointer_size := 4; fp_words := 2; AlwaysSpills := [kNumberOfCpuRegisters_x86];
     RefSpills := [5; 6; 7]; ArgSpills := [1; 2; 3]; AllSpills := [];
     EverythingSpills := [0; 1; 2; 3];
     FpAlwaysSpills := []; FpArgSpills := [0; 1; 2; 3]; FpAllSpills := [];
     FpEverythingSpills := [0; 1; 2; 3; 4; 5; 6; 7] |}.
Definition X86_64CalleeSaveFrame : SaveFrame :=
  {| sf_pointer_size := 8; fp_words := 1; AlwaysSpills := [kNumberOfCpuRegisters_x86_64];
     RefSpills := [3; 5; 12; 13; 14; 15]; ArgSpills := [6; 2; 1; 8; 9]; AllSpills := [];
     EverythingSpills := [0; 1; 2; 6; 7; 8; 9; 10; 11];
     FpAlwaysSpills := [12; 13; 14; 15]; FpArgSpills := [0; 1; 2; 3; 4; 5; 6; 7];
     FpAllSpills := []; FpEverythingSpills := [0; 1; 2; 3; 4; 5; 6; 7; 8; 9; 10; 11] |}.

Section SaveFrame.
Context (f : SaveFrame).

Definition by_save_type (always args all everything : Z) (type : CalleeSaveType) : Z :=
  let type := GetCanonicalCalleeSaveType type in
  Z.lor always
    (Z.lor (if decide (type = kSaveRefsAndArgs) then args else 0)
       (Z.lor (if decide (type = kSaveAllCalleeSaves) then all else 0)
          (if decide (type = kSaveEverything) then everything else 0))).
Definition GetCoreSpills : CalleeSaveType -> Z :=
  by_save_type (Z.lor (spills (AlwaysSpills f)) (spills (RefSpills f)))
    (spills (ArgSpills f)) (spills (AllSpills f)) (spills (EverythingSpills f)).
Definition GetFpSpills : CalleeSaveType -> Z :=
  by_save_type (spills (FpAlwaysSpills f)) (spills (FpArgSpills f)) (spills (FpAllSpills f))
    (spills (FpEverythingSpills f)).
Definition GetFrameSize (type : CalleeSaveType) : Z :=
  u32 (RoundUp 64
    (u64 ((POPCOUNT (GetCoreSpills type) + fp_words f * POPCOUNT (GetFpSpills type) + 1)
          * sf_pointer_size f)) kStackAlignment).
Definition GetMethodFrameInfo (type : CalleeSaveType) : QuickMethodFrameInfo :=
  {| frame_size_in_bytes := GetFrameSize type; core_spill_mask := GetCoreSpills type;
     fp_spill_mask := GetFpSpills type |}.
Definition GetFpr1Offset (type : CalleeSaveType) : Z :=
  u64 (GetFrameSize type
       - (POPCOUNT (GetCoreSpills type) + fp_words f * POPCOUNT (GetFpSpills type))
         * sf_pointer_size f).
Definition GetGpr1Offset (type : CalleeSaveType) : Z :=
  u64 (GetFrameSize type - POPCOUNT (GetCoreSpills type) * sf_pointer_size f).
Definition GetReturnPcOffset (type : CalleeSaveType) : Z :=
  u64 (GetFrameSize type - sf_pointer_size f).
End SaveFrame.

(** * Names of the registers *)

Definition names (l : list string) : list (list Z) := map chars l.
Definition arm_kRegisterNames : list (list Z) := names
  ["r0"; "r1"; "r2"; "r3"; "r4"; "r5"; "r6"; "r7"; "r8"; "r9"; "r10"; "fp"; "ip"; "sp"; "lr";
   "pc"]%string.
Definition arm64_kRegisterNames : list (list Z) := names
  ["x0"; "x1"; "x2"; "x3"; "x4"; "x5"; "x6"; "x7"; "x8"; "x9"; "x10"; "x11"; "x12"; "x13";
   "x14"; "x15"; "x16"; "x17"; "x18"; "x19"; "x20"; "x21"; "x22"; "x23"; "x24"; "x25"; "x26";
   "x27"; "x28"; "fp"; "lr"; "sp"; "xzr"]%string.
Definition x86_kRegisterNames : list (list Z) := names
  ["eax"; "ecx"; "edx"; "ebx"; "esp"; "ebp"; "esi"; "edi"; "eip"]%string.
Definition x86_64_kRegisterNames : list (list Z) := names
  ["rax"; "rcx"; "rdx"; "rbx"; "rsp"; "rbp"; "rsi"; "rdi"; "r8"; "r9"; "r10"; "r11"; "r12";
   "r13"; "r14"; "r15"; "rip"]%string.
Definition riscv64_kXRegisterNames : list (list Z) := names
  ["zero"; "ra"; "sp"; "gp"; "tp"; "t0"; "t1"; "t2"; "fp"; "s1"; "a0"; "a1"; "a2"; "a3"; "a4";
   "a5"; "a6"; "a7"; "s2"; "s3"; "s4"; "s5"; "s6"; "s7"; "s8"; "s9"; "s10"; "s11"; "t3"; "t4";
   "t5"; "t6"]%string.
Definition RegisterName (table : list (list Z)) (r : Z) : list Z :=
  default [] (table !! Z.to_nat r).

(** * What the machine selects *)

Section OnMachine.
Context {M : Machine}.

Definition by_machine {A} (x86 x86_64 arm arm64 riscv64 : A) (other : A) : A :=
  if machine =? EM_386 then x86 else if machine =? EM_X86_64 then x86_64
  else if machine =? EM_ARM then arm else if machine =? EM_AARCH64 then arm64
  else if machine =? EM_RISCV then riscv64 else other.
Definition save_frame : option SaveFrame :=
  by_machine (Some X86CalleeSaveFrame) (Some X86_64CalleeSaveFrame) (Some ArmCalleeSaveFrame)
    (Some Arm64CalleeSaveFrame) (Some Riscv64CalleeSaveFrame) None.

(** [RuntimeCalleeSaveFrame]. *)
Definition Runtime_GetMethodFrameInfo (type : CalleeSaveType) : QuickMethodFrameInfo :=
  match save_frame with Some f => GetMethodFrameInfo f type | None => no_frame end.
Definition Runtime_GetFpSpills (type : CalleeSaveType) : Z :=
  match save_frame with Some f => GetFpSpills f type | None => 0 end.
Definition Runtime_GetCoreSpills (type : CalleeSaveType) : Z :=
  match save_frame with Some f => GetCoreSpills f type | None => 0 end.

(** [QuickMethodFrameInfo::GetReturnPcOffset()] and [GetReturnPcAddr(sp)]. *)
Definition Info_GetReturnPcOffset (i : QuickMethodFrameInfo) : Z :=
  u32 (frame_size_in_bytes i - point_size).
Definition GetReturnPcAddr (i : QuickMethodFrameInfo) (sp : Z) : Z :=
  u64 (sp + Info_GetReturnPcOffset i).

(** The names, and how many registers the loops over a mask consider: all but [xzr] on arm64. *)
Definition register_names : list (list Z) :=
  by_machine x86_kRegisterNames x86_64_kRegisterNames arm_kRegisterNames arm64_kRegisterNames
    riscv64_kXRegisterNames [].
Definition register_count : Z :=
  by_machine kNumberOfCpuRegisters_x86 kNumberOfCpuRegisters_x86_64 16 (33 - 1) 32 0.
(** The registers of a mask, in the order of the loop. *)
Definition mask_registers (mask : Z) : list Z :=
  filter (fun index => nz (Z.land mask (shl 32 1 index)) = true) (seqZ 0 register_count).

Fixpoint comma (l : list (list Z)) : list Z :=
  match l with
  | [] => []
  | [s] => s
  | s :: t => s ++ chars ", " ++ comma t
  end.
Definition PrettySpillMask (mask : Z) : list Z :=
  match mask_registers mask with
  | [] => []
  | rs => chars "(" ++ comma (map (RegisterName register_names) rs) ++ chars ")"
  end.

(** [DumpCoreSpill(prefix, sp)]: the registers it names and where it reads them. *)
Definition core_spill_slots (i : QuickMethodFrameInfo) (sp : Z) : list (Z * Z) :=
  let regs := mask_registers (core_spill_mask i) in
  let fp := u64 (sp + frame_size_in_bytes i - u32 (Z.of_nat (length regs) * point_size)) in
  imap (fun num r => (r, u64 (fp + u32 (Z.of_nat num * point_size)))) regs.
Definition DumpCoreSpill (c : CoreApi) (i : QuickMethodFrameInfo) (sp : Z)
    : result (list (list Z * Z)) :=
  let regs := mask_registers (core_spill_mask i) in
  let fp := ref_at (u64 (sp + frame_size_in_bytes i - u32 (Z.of_nat (length regs) * point_size))) in
  (fix go (num : Z) (rs : list Z) : result (list (list Z * Z)) :=
     match rs with
     | [] => Ok []
     | r :: rs =>
         let! v := word c fp (u32 (num * point_size)) point_size in
         let! t := go (num + 1) rs in Ok ((RegisterName register_names r, v) :: t)
     end) 0 regs.
End OnMachine.

(** * Theorems *)

(** The machines of the analyser. *)
Definition machines : list Machine :=
  [arm64_Core; arm_Core; x86_64_Core; x86_Core; riscv64_Core].
Definition save_types : list CalleeSaveType :=
  [kSaveAllCalleeSaves; kSaveRefsOnly; kSaveRefsAndArgs; kSaveEverything;
   kSaveEverythingForClinit; kSaveEverythingForSuspendCheck].

(** Below the top of a frame: the return address, the general registers, the floating-point
    registers, and at the bottom at least the method; the size is aligned. *)
Definition frame_layout_ok (M : Machine) (type : CalleeSaveType) : bool :=
  match @save_frame M with
  | None => false
  | Some f =>
      (GetFrameSize f type mod kStackAlignment =? 0) &&
      (GetReturnPcOffset f type =? @Info_GetReturnPcOffset M (GetMethodFrameInfo f type)) &&
      (GetReturnPcOffset f type + @point_size M =? GetFrameSize f type) &&
      (GetGpr1Offset f type + POPCOUNT (GetCoreSpills f type) * @point_size M
       =? GetFrameSize f type) &&
      (GetFpr1Offset f type + fp_words f * POPCOUNT (GetFpSpills f type) * @point_size M
       =? GetGpr1Offset f type) &&
      (@point_size M <=? GetFpr1Offset f type)
  end.
Lemma frame_layouts : forallb (fun m => forallb (frame_layout_ok m) save_types) machines = true.
Proof. by vm_compute. Qed.

(** The sizes that the source asserts for riscv64. *)
Example riscv64_sizes :
  map (GetFrameSize Riscv64CalleeSaveFrame) [kSaveRefsAndArgs; kSaveAllCalleeSaves; kSaveEverything]
    = [224; 208; 480].
Proof. by vm_compute. Qed.

(** The slot that is read for the highest register of a mask is the one of the return address. *)
Lemma core_spill_top {M : Machine} (i : QuickMethodFrameInfo) (sp lr : Z) :
  point_size = 4 \/ point_size = 8 -> list.last (mask_registers (core_spill_mask i)) = Some lr ->
  0 <= sp -> sp + frame_size_in_bytes i < 2 ^ 64 -> frame_size_in_bytes i < 2 ^ 32 ->
  Z.of_nat (length (mask_registers (core_spill_mask i))) * point_size <= frame_size_in_bytes i ->
  list.last (core_spill_slots i sp) = Some (lr, GetReturnPcAddr i sp).
Proof.
  intros Hps Hlast Hsp Hsum Hfs Hfit. unfold core_spill_slots, GetReturnPcAddr, Info_GetReturnPcOffset.
  apply last_Some in Hlast as [l E]. rewrite E in *. rewrite length_app in *. cbn [length] in *.
  rewrite imap_app, last_app. cbn [imap list.last]. rewrite Nat.add_0_r.
  do 2 f_equal. set (n := Z.of_nat (length l)).
  assert (Hn : Z.of_nat (length l + 1) = n + 1) by lia. rewrite Hn in *.
  rewrite !(wrap_small 32) by lia. unfold n in *. rewrite wrap_add_l by lia.
  f_equal. lia.
Qed.

Lemma riscv64_ra_slot :
  @core_spill_slots riscv64_Core (GetMethodFrameInfo Riscv64CalleeSaveFrame kSaveRefsOnly) 0x1000
    !! 0%nat = Some (1, 0x1010) /\
  @GetReturnPcAddr riscv64_Core (GetMethodFrameInfo Riscv64CalleeSaveFrame kSaveRefsOnly) 0x1000
    = 0x1068.
Proof. by vm_compute. Qed.
Lemma x86_edi_slot :
  list.last (@core_spill_slots x86_Core (GetMethodFrameInfo X86CalleeSaveFrame kSaveRefsOnly) 0x1000)
    = Some (7, 0x101c) /\
  @GetReturnPcAddr x86_Core (GetMethodFrameInfo X86CalleeSaveFrame kSaveRefsOnly) 0x1000 = 0x101c.
Proof. by vm_compute. Qed.
