(* ===== verification/OatFiles.v ===== *)
(** Compiled code on disk: android/art/base/bit_vector.h, base/mem_map.{h,cpp},
    runtime/vdex_file.{h,cpp}, runtime/oat.cpp and runtime/oat/oat_file.{h,cpp}.

    An oat file holds, per class of a dex file, the offsets of the compiled code of its methods:
    of all methods, of those in a bitmap, or of none.  [GetOatClass] decodes the class and
    [GetOatMethod] finds a method in it. *)

From Stdlib Require Import ZArith Lia Bool.
From stdpp Require Import base list gmap numbers.
From S2P Require Import Prelude Words Host Blocks Notes CoreApi Segments AddressSpace MemRef Elf.
From S2P Require Import Mirrors Cxx Dex RuntimeTables.
Open Scope Z_scope.

(** * Bit vectors in the target *)

Definition kWordBytes : Z := 4.
Definition kWordBits : Z := kWordBytes * 8.
Definition WordIndex (idx : Z) : Z := Z.shiftr idx 5.
Definition BitMask (idx : Z) : Z := shl 32 1 (Z.land idx 0x1f).
(** [BitsToWords(bits)], in [uint32_t]. *)
Definition BitsToWords (bits : Z) : Z := RoundUp 32 bits kWordBits / kWordBits.

Section BitVector.
Context (c : CoreApi) (storage : MemoryRef).

Definition vector_word (k : Z) : result Z := word c storage (u64 (k * 4)) 4.
Definition IsBitSet (idx : Z) : result bool :=
  let! w := vector_word (WordIndex idx) in Ok (nz (Z.land w (BitMask idx))).

(** The loop of [NumSetBits] from word [k] on, over [n] words. *)
Fixpoint count_words (n : nat) (k count : Z) : result Z :=
  match n with
  | O => Ok count
  | S m => let! w := vector_word k in count_words m (k + 1) (u32 (count + POPCOUNT w))
  end.
Definition NumSetBits (end_ : Z) : result Z :=
  let word_end := WordIndex end_ in
  let partial_word_bits := Z.land end_ 0x1f in
  let! count := count_words (Z.to_nat word_end) 0 0 in
  if nz partial_word_bits then
    let! w := vector_word word_end in
    Ok (u32 (count + POPCOUNT (Z.land w (bnot 32 (shl 32 0xffffffff partial_word_bits)))))
  else Ok count.
End BitVector.

(** * Memory maps and vdex files *)

Section Files.
Context {M : Machine} (sdk : Z) (c : CoreApi).

Definition MemMap_begin (m : MemoryRef) : result Z := vword c m (mm_begin_ MemMap_Init).
Definition MemMap_size (m : MemoryRef) : result Z := vword c m (mm_size_ MemMap_Init).
(** [GetName()]: an address of the process. *)
Definition MemMap_GetName (m : MemoryRef) : result Z :=
  c_str c (ref_at (u64 (vaddr m + mm_name_ MemMap_Init))).
(** [HasAddress(addr)]: [begin()] is read twice. *)
Definition HasAddress (m : MemoryRef) (addr : Z) : result bool :=
  let! b := MemMap_begin m in
  if b <=? addr then
    let! s := MemMap_size m in Ok (addr <? u64 (b + s))
  else Ok false.

(** A reference kept in a member, made of an address only. *)
Definition plain_cache (v : result Z) : result MemoryRef :=
  let! v := v in Prepare c (ref_at v) false.

Definition VdexFile_GetMap (v : MemoryRef) : result MemoryRef :=
  plain_cache
    (if Sdk.Q <=? sdk then Ok (u64 (vaddr v + vdex_mmap_ VdexFile_Init))
     else vword c v (vdex_mmap_ VdexFile_Init)).
Definition VdexFile_GetName (v : MemoryRef) : result Z :=
  let! m := VdexFile_GetMap v in MemMap_GetName m.
Definition VdexFile_Begin (v : MemoryRef) : result Z :=
  let! m := VdexFile_GetMap v in MemMap_begin m.

(** * Oat files *)

Definition of_word (f : OatFile_OffsetTable -> Z) (o : MemoryRef) : result Z :=
  vword c o (f (OatFile_table sdk)).
Definition OatFile_begin : MemoryRef -> result Z := of_word of_begin_.
Definition is_executable (o : MemoryRef) : result Z :=
  word c o (of_is_executable_ (OatFile_table sdk)) 1.
Definition GetVdexFile (o : MemoryRef) : result MemoryRef := plain_cache (of_word of_vdex_ o).
Definition GetVdexBegin (o : MemoryRef) : result Z :=
  let! v := GetVdexFile o in
  if (Sdk.O <=? sdk) && nz (vaddr v) then VdexFile_Begin v else Ok 0.

(** [OatMethod(base, code_offset)]. *)
Record OatMethod := { om_begin_ : Z; code_offset_ : Z }.
Definition OatMethod_Invalid : OatMethod := {| om_begin_ := 0; code_offset_ := u32 (-1) |}.
Definition GetQuickCode (m : OatMethod) : Z :=
  if nz (code_offset_ m) then u64 (om_begin_ m + code_offset_ m) else 0.

(** [OatClassType]; a value the code does not name is kept as it is. *)
Definition kAllCompiled : Z := 0.
Definition kSomeCompiled : Z := 1.
Definition kNoneCompiled : Z := 2.

Record OatClass := {
  oc_oat_file_ : MemoryRef; oc_status_ : Z; oc_type_ : Z; oc_num_methods_ : Z;
  oc_bitmap_ : MemoryRef; oc_methods_pointer_ : MemoryRef }.
Definition OatClass_Invalid : OatClass :=
  {| oc_oat_file_ := ref_at 0; oc_status_ := kErrorUnresolved; oc_type_ := kNoneCompiled;
     oc_num_methods_ := 0; oc_bitmap_ := ref_at 0; oc_methods_pointer_ := ref_at 0 |}.

(** [GetOatMethodOffsets(method_index)]: 0 when the method has no code. *)
Definition GetOatMethodOffsets (k : OatClass) (method_index : Z) : result MemoryRef :=
  if negb (nz (vaddr (oc_methods_pointer_ k))) then Ok (ref_at 0)
  else
    let entry (i : Z) := ref_at (u64 (vaddr (oc_methods_pointer_ k) + i * 4)) in
    if negb (nz (vaddr (oc_bitmap_ k))) then Ok (entry method_index)
    else
      let! set := IsBitSet c (oc_bitmap_ k) method_index in
      if set : bool then
        let! num_set_bits := NumSetBits c (oc_bitmap_ k) method_index in Ok (entry num_set_bits)
      else Ok (ref_at 0).

Definition GetOatMethod (k : OatClass) (method_index : Z) : result OatMethod :=
  let! method_offsets := GetOatMethodOffsets k method_index in
  if negb (nz (vaddr method_offsets)) then Ok {| om_begin_ := 0; code_offset_ := 0 |}
  else
    let! x := is_executable (oc_oat_file_ k) in
    let! b := OatFile_begin (oc_oat_file_ k) in
    if nz x then
      let! off := word c method_offsets 0 4 in Ok {| om_begin_ := b; code_offset_ := off |}
    else Ok {| om_begin_ := b; code_offset_ := 0 |}.

(** * Oat dex files *)

Definition odf_word (f : OatDexFile_OffsetTable -> Z) (o : MemoryRef) : result Z :=
  vword c o (f (OatDexFile_table sdk)).
Definition oat_class_offsets_pointer : MemoryRef -> result Z :=
  odf_word odf_oat_class_offsets_pointer_.
Definition GetOatFile (o : MemoryRef) : result MemoryRef :=
  plain_cache (odf_word odf_oat_file_ o).
Definition IsBackedByVdexOnly (o : MemoryRef) : result bool :=
  let! p := oat_class_offsets_pointer o in Ok (p =? 0).

(** Where the bitmap and the offsets of a class are, behind its type: from Android S on the
    number of methods is stored, before it the size of the bitmap in bytes. *)
Definition class_layout (type : Z) (current_pointer : MemoryRef) : result (Z * Z * Z) :=
  if type =? kNoneCompiled then Ok (0, 0, 0)
  else if Sdk.S <=? sdk then
    let! num_methods := word c current_pointer 0 4 in
    let! cur := MovePtr c current_pointer 4 in
    if type =? kSomeCompiled then
      let bitmap_size := u32 (BitsToWords num_methods * kWordBytes) in
      let! cur' := MovePtr c cur bitmap_size in
      Ok (num_methods, vaddr cur, vaddr cur')
    else Ok (num_methods, 0, vaddr cur)
  else if type =? kSomeCompiled then
    let! bitmap_size := word c current_pointer 0 4 in
    let bitmap_pointer := u64 (vaddr current_pointer + 4) in
    Ok (bitmap_size, bitmap_pointer, u64 (bitmap_pointer + bitmap_size))
  else Ok (0, 0, vaddr current_pointer).

Definition GetOatClass (o : MemoryRef) (class_def_index : Z) : result OatClass :=
  let! vdex_only := IsBackedByVdexOnly o in
  if vdex_only : bool then Ok OatClass_Invalid
  else
    let! p := oat_class_offsets_pointer o in
    let! oat_class_offset := word c (ref_at p) (u64 (class_def_index * 4)) 4 in
    let! oat_file_ := GetOatFile o in
    let! b := OatFile_begin oat_file_ in
    let cur := ref_at (u64 (b + oat_class_offset)) in
    let! status_value := word c cur 0 2 in
    let! cur := MovePtr c cur 2 in
    let! type_value := word c cur 0 2 in
    let! cur := MovePtr c cur 2 in
    let type := u8 type_value in
    let! '(num_methods, bitmap_pointer, methods_pointer) := class_layout type cur in
    Ok {| oc_oat_file_ := ref_at (vaddr oat_file_); oc_status_ := u8 status_value;
          oc_type_ := type; oc_num_methods_ := num_methods;
          oc_bitmap_ := ref_at bitmap_pointer; oc_methods_pointer_ := ref_at methods_pointer |}.

(** [OatFile::FindOatClass(dex_file, class_def_idx, found)]. *)
Definition FindOatClass (dex_file : MemoryRef) (class_def_idx : Z) : result (bool * OatClass) :=
  let! odf := GetOatDexFile sdk c dex_file in
  let! o := (if nz (vaddr odf) then GetOatFile odf else Ok (ref_at 0)) in
  if nz (vaddr o) then let! k := GetOatClass odf class_def_idx in Ok (true, k)
  else Ok (false, OatClass_Invalid).

(** * The version of the oat format *)

Definition oat_magic : list Z := [0x6F; 0x61; 0x74; 0x0A].
(** The four bytes behind [Real()] of a reference. *)
Definition real_bytes (r : MemoryRef) (n : Z) : result (list Z) :=
  let! '(_, p) := Real c r in host_load (host_mem c) p n.
Definition digit (b : Z) : bool := (0x30 <=? b) && (b <=? 0x39).
(** Three digits and the end of the string; [std::stoi] of it. *)
Definition version_digits (bs : list Z) : option Z :=
  match bs with
  | [a; b; d; z] =>
      if digit a && digit b && digit d && (z =? 0)
      then Some (100 * (a - 0x30) + 10 * (b - 0x30) + (d - 0x30)) else None
  | _ => None
  end.

(** The search in one segment, in steps of the pointer size. *)
Fixpoint oat_scan (fuel : nat) (id : nat) (current : MemoryRef) (outsize : Z) : result (option Z) :=
  match fuel with
  | O => OutOfFuel
  | S n =>
      if u64 (vaddr current + 8) <=? outsize then
        let! magic := real_bytes current 4 in
        let! found :=
          (if bool_decide (magic = oat_magic) then
             let version := checkCopyBlock c (ref_at (u64 (vaddr current + 4))) (Some id) in
             let! a := word c version 0 1 in
             let! b := word c version 1 1 in
             let! d := word c version 2 1 in
             let! z := word c version 3 1 in Ok (version_digits [a; b; d; z])
           else Ok None) in
        match found with
        | Some v => Ok (Some v)
        | None => let! current := MovePtr c current point_size in oat_scan n id current outsize
        end
      else Ok None
  end.
(** The callback of [AnalysiOatVersion]: segments that start with an ELF header. *)
Definition oat_block (fuel : nat) (id : nat) : result (option Z) :=
  let b := lb c id in
  let! ident := host_load (host_mem c) (begin b OPT_READ_ALL) 4 in
  if bool_decide (ident = [0x7F; 0x45; 0x4C; 0x46]) then
    oat_scan fuel id (checkCopyBlock c (ref_at (mVaddr b)) (Some id))
      (u64 (mVaddr b + size b OPT_READ_ALL))
  else Ok None.
(** [AnalysiOatVersion()]: 0 when no segment has a version. *)
Definition AnalysiOatVersion (fuel : nat) : result Z :=
  let! v := foreachLoadBlock c
    (fun id _ => match oat_block fuel id with
                 | Ok None => (Ok None, false)
                 | r => (r, true)
                 end) true true (Ok None) in
  Ok (match v with Some v => v | None => 0 end).
End Files.
