(* ===== verification/OatFilesProofs.v ===== *)
(** Theorems about [OatFiles]: the code of a method in an oat file, against the encoding of a
    class that the compiler writes. *)

From Stdlib Require Import ZArith Lia Bool.
From stdpp Require Import base list gmap numbers.
From S2P Require Import Prelude Words Host Blocks Notes CoreApi Segments AddressSpace MemRef Elf.
From S2P Require Import Bits BitsProofs OatVRegs Mirrors Cxx Reading Dex RuntimeTables OatFiles.
Open Scope Z_scope.

#[local] Ltac Zify.zify_post_hook ::= Z.to_euclidean_division_equations.

(** * Bit vectors *)

Section Bitmap.
Context (c : CoreApi) (storage : MemoryRef) (V n : Z).
Context (Hword : forall k, 0 <= k < n -> vector_word c storage k = Ok (field_at V (32 * k) 32)).

Lemma IsBitSet_bit idx :
  0 <= idx < 32 * n -> IsBitSet c storage idx = Ok (Z.testbit V idx).
Proof.
  intros Hi. unfold IsBitSet, WordIndex, BitMask, shl. change 0x1f with (Z.ones 5).
  rewrite Z.shiftr_div_pow2, Z.land_ones, Z.shiftl_1_l by lia.
  rewrite Hword by lia. cbn [rbind]. f_equal.
  set (j := idx mod 2 ^ 5). assert (0 <= j < 32) by (unfold j; lia).
  assert (2 ^ j < 2 ^ 32) by (apply Z.pow_lt_mono_r; lia).
  rewrite wrap_small by (split; [apply Z.pow_nonneg|]; lia).
  assert (Hb : Z.testbit (field_at V (32 * (idx / 2 ^ 5)) 32) j = Z.testbit V idx).
  { rewrite field_at_testbit by lia. rewrite (proj2 (Z.ltb_lt j 32)) by lia.
    cbn. f_equal. unfold j. lia. }
  rewrite <- Hb. unfold nz. generalize (field_at V (32 * (idx / 2 ^ 5)) 32). intros w.
  destruct (Z.testbit w j) eqn:E.
  - apply negb_true_iff, Z.eqb_neq. intros Hz. apply (f_equal (fun z => Z.testbit z j)) in Hz.
    rewrite Z.land_spec, E, Z.pow2_bits_true, Z.bits_0 in Hz by lia. done.
  - apply negb_false_iff, Z.eqb_eq, Z.bits_inj'. intros i Hi'. rewrite Z.land_spec, Z.bits_0.
    destruct (Z.eq_dec i j) as [->|Hne]; [by rewrite E|].
    rewrite Z.pow2_bits_false by lia. apply andb_false_r.
Qed.

Lemma count_words_ones m : forall k count,
  0 <= k -> k + Z.of_nat m <= n -> n < 2 ^ 27 -> count = ones_at V 0 (32 * k) ->
  count_words c storage m k count = Ok (ones_at V 0 (32 * (k + Z.of_nat m))).
Proof.
  induction m as [|m IH]; intros k count Hk Hm Hn ->; cbn [count_words].
  - do 3 f_equal. lia.
  - rewrite Hword by lia. cbn [rbind].
    assert (E : ones_at V 0 (32 * (k + 1)) = ones_at V 0 (32 * k) + ones_at V (32 * k) 32)
      by (replace (32 * (k + 1)) with (32 * k + 32) by lia; rewrite ones_at_add by lia; done).
    rewrite (POPCOUNT_field V (32 * k) 32) by (try lia; intros; apply field_at_testbit; lia).
    rewrite <- E, wrap_small by (pose proof (ones_at_range V 0 (32 * (k + 1))); lia).
    rewrite IH by lia. do 3 f_equal. lia.
Qed.

Lemma NumSetBits_ones e :
  0 <= e < 32 * n -> n < 2 ^ 27 -> NumSetBits c storage e = Ok (ones_at V 0 e).
Proof.
  intros He Hn. unfold NumSetBits, WordIndex. change 0x1f with (Z.ones 5).
  rewrite Z.shiftr_div_pow2, Z.land_ones by lia.
  rewrite (count_words_ones _ 0 0) by (try lia; reflexivity). cbn [rbind].
  rewrite Z.add_0_l, Z2Nat.id by lia.
  unfold nz. destruct (Z.eqb_spec (e mod 2 ^ 5) 0) as [E|E]; cbn [negb].
  - do 2 f_equal. lia.
  - rewrite Hword by lia. cbn [rbind]. set (p := e mod 2 ^ 5) in *.
    rewrite (POPCOUNT_field V (32 * (e / 2 ^ 5)) p).
    + replace e with (32 * (e / 2 ^ 5) + p) at 3 by lia. rewrite (ones_at_add V 0) by lia.
      rewrite Z.add_0_l.
      pose proof (ones_at_range V 0 (32 * (e / 2 ^ 5))).
      pose proof (ones_at_range V (32 * (e / 2 ^ 5)) p). f_equal. apply wrap_small. lia.
    + lia.
    + lia.
    + intros i Hi. unfold bnot, shl. change 0xffffffff with (Z.ones 32).
      autorewrite with words. rewrite field_at_testbit by lia.
      destruct (Z.ltb_spec i 32); cbn [andb].
      * destruct (Z.ltb_spec i p).
        -- rewrite (Z.testbit_neg_r _ (i - p)) by lia. by rewrite andb_true_r.
        -- rewrite Z.testbit_ones_nonneg, (proj2 (Z.ltb_lt (i - p) 32)) by lia.
           cbn. apply andb_false_r.
      * by rewrite (proj2 (Z.ltb_ge i p)) by lia.
Qed.
End Bitmap.

(** * A class of an oat file *)

(** The methods of a class: the offset of the code of each compiled method. *)
Abbreviation methods := (list (option Z)).
Definition is_compiled (m : option Z) : bool := match m with Some _ => true | None => false end.
Fixpoint bitmap (ms : methods) : Z :=
  match ms with
  | [] => 0
  | m :: ms => Z.b2z (is_compiled m) + 2 * bitmap ms
  end.

Lemma bitmap_testbit ms i :
  Z.testbit (bitmap ms) (Z.of_nat i) = match ms !! i with Some m => is_compiled m | None => false end.
Proof.
  revert i. induction ms as [|m ms IH]; intros i; [apply Z.bits_0|].
  cbn [bitmap]. rewrite (Z.add_comm (Z.b2z _)). destruct i as [|i].
  - by rewrite Z.testbit_0_r.
  - rewrite Nat2Z.inj_succ, Z.testbit_succ_r by lia. apply IH.
Qed.

(** The rank of a bit is the number of compiled methods before it. *)
Lemma bitmap_rank ms i : (i <= length ms)%nat ->
  ones_at (bitmap ms) 0 (Z.of_nat i) = Z.of_nat (length (omap id (take i ms))).
Proof.
  induction i as [|i IH]; intros Hi; [reflexivity|].
  destruct (lookup_lt_is_Some_2 ms i ltac:(lia)) as [m Hm].
  rewrite Nat2Z.inj_succ. unfold Z.succ. rewrite ones_at_add, IH, ones_at_1 by lia.
  rewrite Z.add_0_l, bitmap_testbit, Hm, (take_S_r _ _ m) by done.
  rewrite omap_app, length_app. destruct m; cbn; lia.
Qed.

Lemma compiled_lookup (ms : methods) i v : ms !! i = Some (Some v) ->
  omap id ms !! length (omap id (take i ms)) = Some v.
Proof.
  intros Hi. apply list_elem_of_split_length in Hi as (l1 & l2 & -> & ->).
  rewrite take_app_length, omap_app, lookup_app_r, Nat.sub_diag by lia. done.
Qed.

(** The kinds of classes, and what each can hold. *)
Definition representable (type : Z) (ms : methods) : Prop :=
  type = kAllCompiled /\ Forall (fun m => is_compiled m = true) ms \/
  type = kSomeCompiled \/
  type = kNoneCompiled /\ Forall (fun m => m = None) ms.

(** The words of the bitmap. *)
Definition bitmap_words (ms : methods) : nat := Z.to_nat ((Z.of_nat (length ms) + 31) / 32).
(** The header behind the type: the number of methods, before Android S the size of the
    bitmap. *)
Definition class_tail (sdk type : Z) (ms : methods) : list Z :=
  if type =? kNoneCompiled then []
  else
    (if Sdk.S <=? sdk then le_bytes 4 (Z.of_nat (length ms))
     else if type =? kSomeCompiled then le_bytes 4 (4 * Z.of_nat (bitmap_words ms)) else []) ++
    (if type =? kSomeCompiled then le_bytes (4 * bitmap_words ms) (bitmap ms) else []) ++
    table_bytes 4 (omap id ms).
Definition class_bytes (sdk status type : Z) (ms : methods) : list Z :=
  le_bytes 2 status ++ le_bytes 2 type ++ class_tail sdk type ms.

Lemma all_compiled ms i :
  Forall (fun m => is_compiled m = true) ms -> (i <= length ms)%nat ->
  length (omap id (take i ms)) = i.
Proof.
  revert i. induction ms as [|m ms IH]; intros i Hf Hi; cbn in Hi.
  - by replace i with 0%nat by lia.
  - apply Forall_cons_iff in Hf as [Hm Hf]. destruct i as [|i]; [done|]. cbn.
    destruct m as [v|]; [|done]. cbn. by rewrite IH by (done || lia).
Qed.

Section OatClass.
Context {M : Machine} (sdk : Z) (c : CoreApi) (run : Z -> Z -> option (list Z)) `{!Presents c run}.
Abbreviation field := (has_field c run).
Abbreviation bytes_at := (shown c run).

Lemma plain_cache_field v a off n x :
  v = Ok a -> field a off n x -> exists r, plain_cache c v = Ok r /\ vaddr r = a /\ ref_ok c r.
Proof.
  intros -> Hf. unfold plain_cache. cbn [rbind].
  eapply Prepare_field; [done|apply ref_at_ok; destruct Hf; lia|done|done].
Qed.

(** What a decoded class points to. *)
Definition class_points (k : OatClass) (ms : methods) : Prop :=
  (forall i, (i < length ms)%nat -> exists r, GetOatMethodOffsets c k (Z.of_nat i) = Ok r /\
     ref_ok c r /\
     match ms !! i with
     | Some (Some v) => vaddr r <> 0 /\ word c r 0 4 = Ok v
     | _ => vaddr r = 0
     end).

Lemma entry_word mp ms i v :
  bytes_at mp (table_bytes 4 (omap id ms)) -> Forall (fun v => 0 <= v < 2 ^ 32) (omap id ms) ->
  ms !! i = Some (Some v) ->
  let p := u64 (mp + Z.of_nat (length (omap id (take i ms))) * 4) in
  p <> 0 /\ ref_ok c (ref_at p) /\ word c (ref_at p) 0 4 = Ok v.
Proof.
  intros Hs Hv Hi. cbn zeta. pose proof (compiled_lookup _ _ _ Hi) as Hl.
  pose proof (shown_entry _ _ _ _ _ _ _ Hs Hl) as Hw.
  set (n := length (omap id (take i ms))) in *.
  assert (Ha : 0 < mp + Z.of_nat n * 4 < 2 ^ 64).
  { destruct Hw as (H1 & H2 & _). rewrite le_bytes_length in H2. lia. }
  rewrite wrap_small by lia. split_and!; [lia|apply ref_at_ok; lia|].
  apply (word_head c run _ (mp + Z.of_nat n * 4) 4 v []); try done; try lia.
  - apply ref_at_ok. lia.
  - rewrite Forall_lookup in Hv. apply (Hv _ _ Hl).
  - rewrite app_nil_r. by replace (mp + Z.of_nat n * 4) with (mp + Z.of_nat (4 * n)) by lia.
Qed.

Lemma dense_points k mp ms :
  bytes_at mp (table_bytes 4 (omap id ms)) -> Forall (fun v => 0 <= v < 2 ^ 32) (omap id ms) ->
  Forall (fun m => is_compiled m = true) ms ->
  oc_methods_pointer_ k = ref_at mp -> oc_bitmap_ k = ref_at 0 -> class_points k ms.
Proof.
  intros Hs Hv Hall Hmp Hbm i Hi. unfold GetOatMethodOffsets. rewrite Hmp, Hbm. cbn [vaddr ref_at].
  destruct (lookup_lt_is_Some_2 ms i Hi) as [m Hm]. rewrite Hm.
  pose proof (Forall_lookup_1 _ _ _ _ Hall Hm) as Hc. destruct m as [v|]; [|done].
  destruct (entry_word mp ms i v Hs Hv Hm) as (Hp & Hr & Hw).
  rewrite all_compiled in Hp, Hr, Hw by (done || lia).
  unfold nz. destruct (Z.eqb_spec mp 0) as [->|]; [by destruct Hs|]. cbn. eauto.
Qed.

Lemma sparse_points k bp mp ms :
  bytes_at bp (le_bytes (4 * bitmap_words ms) (bitmap ms)) ->
  bytes_at mp (table_bytes 4 (omap id ms)) -> Forall (fun v => 0 <= v < 2 ^ 32) (omap id ms) ->
  Z.of_nat (length ms) < 2 ^ 31 ->
  oc_methods_pointer_ k = ref_at mp -> oc_bitmap_ k = ref_at bp -> class_points k ms.
Proof.
  intros Hb Hs Hv Hlen Hmp Hbm i Hi. unfold GetOatMethodOffsets. rewrite Hmp, Hbm. cbn [vaddr ref_at].
  destruct (lookup_lt_is_Some_2 ms i Hi) as [m Hm]. rewrite Hm.
  unfold nz. destruct (Z.eqb_spec mp 0) as [->|]; [by destruct Hs|].
  destruct (Z.eqb_spec bp 0) as [->|]; [by destruct Hb|]. cbn [negb].
  assert (Hrng : 0 <= bp < 2 ^ 64) by (destruct Hb as (? & ? & _); lia).
  assert (Hword : forall j, 0 <= j < Z.of_nat (bitmap_words ms) ->
    vector_word c (ref_at bp) j = Ok (field_at (bitmap ms) (32 * j) 32)).
  { intros j Hj. unfold vector_word. unfold bitmap_words in Hj. rewrite wrap_small by lia.
    rewrite (word_number c run (ref_at bp) bp (4 * bitmap_words ms) (bitmap ms) (j * 4) 4)
      by (done || (unfold bitmap_words; lia) || by apply ref_at_ok).
    do 2 f_equal. lia. }
  rewrite (IsBitSet_bit _ _ _ _ Hword), bitmap_testbit, Hm by (unfold bitmap_words; lia).
  cbn [rbind]. destruct m as [v|]; cbn [is_compiled].
  - rewrite (NumSetBits_ones _ _ _ _ Hword) by (unfold bitmap_words; lia). cbn [rbind].
    rewrite bitmap_rank by lia.
    destruct (entry_word mp ms i v Hs Hv Hm) as (Hp & Hr & Hw). eauto.
  - exists (ref_at 0). split_and!; [done|by apply ref_at_ok|done].
Qed.

Lemma none_points k ms :
  Forall (fun m => m = None) ms -> oc_methods_pointer_ k = ref_at 0 -> class_points k ms.
Proof.
  intros Hn Hmp i Hi. unfold GetOatMethodOffsets. rewrite Hmp. cbn.
  destruct (lookup_lt_is_Some_2 ms i Hi) as [m Hm]. rewrite Hm.
  pose proof (Forall_lookup_1 _ _ _ _ Hn Hm) as ->.
  exists (ref_at 0). split_and!; [done|by apply ref_at_ok|done].
Qed.

Lemma BitsToWords_words (ms : methods) : Z.of_nat (length ms) < 2 ^ 31 ->
  u32 (BitsToWords (Z.of_nat (length ms)) * kWordBytes) = 4 * Z.of_nat (bitmap_words ms).
Proof.
  intros Hl. unfold BitsToWords, RoundUp, bitmap_words. change kWordBits with (2 ^ 5).
  rewrite RoundDown_pow2 by (try apply wrap_range; lia).
  rewrite (wrap_small 32 (_ + _ - 1)) by lia. change kWordBytes with 4. rewrite wrap_small; lia.
Qed.

Definition limits (ms : methods) : Prop :=
  ms <> [] /\ Z.of_nat (length ms) < 2 ^ 31 /\ Forall (fun v => 0 <= v < 2 ^ 32) (omap id ms).

Lemma class_layout_points type ms cur a :
  ref_ok c cur -> vaddr cur = a -> bytes_at a (class_tail sdk type ms) ->
  representable type ms -> limits ms ->
  exists n bp mp, class_layout sdk c type cur = Ok (n, bp, mp) /\
    forall k, oc_bitmap_ k = ref_at bp -> oc_methods_pointer_ k = ref_at mp -> class_points k ms.
Proof.
  intros Hr Ha Hs Hrep (Hne & Hlen & Hv). unfold class_layout, class_tail in *.
  destruct Hrep as [[-> Hall]|[->|[-> Hnone]]];
    change (kAllCompiled =? kNoneCompiled) with false in *;
    change (kAllCompiled =? kSomeCompiled) with false in *;
    change (kSomeCompiled =? kNoneCompiled) with false in *;
    change (kSomeCompiled =? kSomeCompiled) with true in *;
    change (kNoneCompiled =? kNoneCompiled) with true in *; cbn [app] in *.
  - destruct (Sdk.S <=? sdk).
    + rewrite ((fun H => word32_head c run cur a _ _ Hr Ha H Hs) ltac:(lia)).
      cbn [rbind]. destruct (MovePtr_shown c run cur a _ 4 Hr Ha Hs) as (r' & -> & Hr1 & Hr2);
        [by destruct ms|destruct Hs as (? & Hs & _); rewrite length_app, le_bytes_length in Hs; lia|].
      cbn [rbind]. do 3 eexists. split; [reflexivity|]. intros k Hb Hm.
      apply shown_app in Hs as [_ Hs]. rewrite le_bytes_length in Hs.
      rewrite Hr1 in Hm. by eapply dense_points.
    + do 3 eexists. split; [reflexivity|]. intros k Hb Hm. rewrite Ha in Hm.
      by eapply dense_points.
  - assert (Hbl : 4 * Z.of_nat (bitmap_words ms) < 2 ^ 32) by (unfold bitmap_words; lia).
    assert (Hbw : le_bytes (4 * bitmap_words ms) (bitmap ms) <> []).
    { intros E. apply (f_equal length) in E. rewrite le_bytes_length in E. unfold bitmap_words in E.
      destruct ms; [done|]. cbn in E. lia. }
    destruct (Sdk.S <=? sdk).
    + rewrite ((fun H => word32_head c run cur a _ _ Hr Ha H Hs) ltac:(lia)).
      cbn [rbind]. destruct (MovePtr_shown c run cur a _ 4 Hr Ha Hs) as (r' & -> & Hr1 & Hr2);
        [done|destruct Hs as (? & Hs & _); rewrite length_app, le_bytes_length in Hs; lia|].
      cbn [rbind]. rewrite BitsToWords_words by done.
      apply shown_app in Hs as [_ Hs]. rewrite le_bytes_length in Hs.
      destruct (MovePtr_shown c run r' (a + 4) _ (4 * Z.of_nat (bitmap_words ms)) Hr2 Hr1 Hs)
        as (r2 & -> & Hr3 & Hr4);
        [by destruct (le_bytes _ _)
        |destruct Hs as (? & Hs & _); rewrite length_app, le_bytes_length in Hs; lia|].
      cbn [rbind]. do 3 eexists. split; [reflexivity|]. intros k Hb Hm. rewrite Hr1 in Hb.
      apply shown_app in Hs as [Hs1 Hs2]. rewrite le_bytes_length in Hs2. rewrite Hr3 in Hm.
      replace (Z.of_nat (4 * bitmap_words ms)) with (4 * Z.of_nat (bitmap_words ms)) in Hs2 by lia.
      by eapply sparse_points.
    + rewrite ((fun H => word32_head c run cur a _ _ Hr Ha H Hs) ltac:(lia)). cbn [rbind]. rewrite Ha.
      apply shown_app in Hs as [_ Hs]. rewrite le_bytes_length in Hs.
      pose proof Hs as (H1 & H2 & _). rewrite length_app, le_bytes_length in H2.
      rewrite (wrap_small 64 (a + 4)) by lia.
      rewrite wrap_small by lia.
      apply shown_app in Hs as [Hs1 Hs2]. rewrite le_bytes_length in Hs2.
      do 3 eexists. split; [reflexivity|]. intros k Hb Hm.
      replace (Z.of_nat (4 * bitmap_words ms)) with (4 * Z.of_nat (bitmap_words ms)) in Hs2 by lia.
      by eapply sparse_points.
  - do 3 eexists. split; [reflexivity|]. intros k Hb Hm. by apply none_points.
Qed.

(** The target has an oat dex file [o] whose class [idx] has the methods [ms], in an executable
    oat file that starts at [b]. *)
Definition oat_class_at (o idx b status type : Z) (ms : methods) : Prop :=
  exists pv fv bv off x,
    field o (odf_oat_class_offsets_pointer_ (OatDexFile_table sdk)) 8 pv /\
    field (Z.land pv (pointer_mask c)) (4 * idx) 4 off /\
    field o (odf_oat_file_ (OatDexFile_table sdk)) 8 fv /\
    field (Z.land fv (pointer_mask c)) (of_begin_ (OatFile_table sdk)) 8 bv /\
    field (Z.land fv (pointer_mask c)) (of_is_executable_ (OatFile_table sdk)) 1 x /\ x <> 0 /\
    b = Z.land bv (pointer_mask c) /\ 0 <= off /\ 0 <= b /\ b + 2 ^ 32 <= 2 ^ 64 /\
    bytes_at (b + off) (class_bytes sdk status type ms) /\ 0 <= status < 2 ^ 16 /\
    representable type ms /\ limits ms.

Lemma representable_type type ms : representable type ms -> 0 <= type < 256.
Proof. intros [[-> _]|[->|[-> _]]]; done. Qed.

Lemma GetOatClass_points o idx b status type ms :
  0 <= idx < 2 ^ 16 -> ref_ok c o -> oat_class_at (vaddr o) idx b status type ms ->
  exists k f x, GetOatClass sdk c o idx = Ok k /\ oc_type_ k = type /\ class_points k ms /\
    oc_oat_file_ k = ref_at f /\ OatFile_begin sdk c (ref_at f) = Ok b /\
    is_executable sdk c (ref_at f) = Ok x /\ x <> 0.
Proof.
  intros Hidx Hr (pv & fv & bv & off & x & Hp & Ho & Hf & Hb & Hx & Hxn & -> & Hoff & Hbn & Hbm &
    Hs & Hst & Hrep & Hlim).
  set (b := Z.land bv (pointer_mask c)) in *.
  pose proof (representable_type _ _ Hrep) as Ht.
  unfold GetOatClass, IsBackedByVdexOnly, oat_class_offsets_pointer, odf_word.
  rewrite (vword_field c run o _ _ _ Hr eq_refl Hp). cbn [rbind].
  destruct (Z.eqb_spec (Z.land pv (pointer_mask c)) 0) as [E|_]; [destruct Ho; lia|].
  rewrite (wrap_small 64 (idx * 4)) by lia. rewrite (Z.mul_comm idx).
  rewrite (word_at_field c run _ _ _ _ Ho).
  cbn [rbind]. unfold GetOatFile, odf_word. rewrite (vword_field c run o _ _ _ Hr eq_refl Hf).
  destruct (plain_cache_field _ _ _ _ _ (eq_refl (Ok _)) Hb) as (r & -> & Hrv & Hrr). cbn [rbind].
  unfold OatFile_begin, of_word. rewrite (vword_field c run r _ _ _ Hrr Hrv Hb). cbn [rbind].
  fold b. pose proof Hs as (H0 & H1 & _). rewrite (wrap_small 64 (b + off)) by lia.
  unfold class_bytes in Hs.
  assert (Hcur : ref_ok c (ref_at (b + off))) by (apply ref_at_ok; lia).
  rewrite (word16_head c run _ (b + off) status _ Hcur eq_refl Hst Hs). cbn [rbind].
  unfold class_bytes in H1. rewrite !length_app, !le_bytes_length in H1.
  destruct (MovePtr_shown c run _ (b + off) _ 2 Hcur eq_refl Hs ltac:(done) ltac:(lia))
    as (r1 & -> & Hv1 & Hr1). cbn [rbind].
  apply shown_app in Hs as [_ Hs]. rewrite le_bytes_length in Hs.
  rewrite (word16_head c run _ _ type _ Hr1 Hv1 ltac:(lia) Hs). cbn [rbind].
  destruct (MovePtr_shown c run _ _ _ 2 Hr1 Hv1 Hs ltac:(done) ltac:(lia)) as (r2 & -> & Hv2 & Hr2).
  cbn [rbind]. apply shown_app in Hs as [_ Hs]. rewrite le_bytes_length in Hs.
  rewrite (wrap_small 8 type) by lia.
  destruct (class_layout_points type ms r2 _ Hr2 Hv2 Hs Hrep Hlim) as (n & bp & mp & -> & Hk).
  cbn [rbind]. do 3 eexists. split; [reflexivity|]. cbn [oc_type_ oc_oat_file_].
  split_and!; [done|by apply Hk|done| | |done].
  - rewrite Hrv. by apply (vword_at_field c run).
  - rewrite Hrv. by apply (word_at_field c run).
Qed.

(** C26: The code found for a method of a class is the code that the compiler put there: the
    decoder of the class and the lookup in it read every class a compiler writes, in both
    formats, whether all, some or none of its methods are compiled. *)
Theorem GetOatMethod_code (o : MemoryRef) (idx b status type : Z) (ms : methods)
    (Hidx : 0 <= idx < 2 ^ 16) (Hr : ref_ok c o) (Ho : oat_class_at (vaddr o) idx b status type ms)
    (Hpos : Forall (fun v => 0 < v) (omap id ms)) :
  exists k, GetOatClass sdk c o idx = Ok k /\
    forall i m, ms !! i = Some m -> exists om, GetOatMethod sdk c k (Z.of_nat i) = Ok om /\
      GetQuickCode om = match m with Some code => b + code | None => 0 end.
Proof.
  destruct (GetOatClass_points o idx b status type ms Hidx Hr Ho)
    as (k & f & x & Hk & _ & Hp & Hf & Hb & Hx & Hxn).
  destruct Ho as (_ & _ & _ & _ & _ & _ & _ & _ & _ & _ & _ & _ & _ & Hb0 & Hbm & _ & _ & _ & _ & _ & Hv).
  exists k. split; [done|]. intros i m Hm. unfold GetOatMethod.
  destruct (Hp i) as (r & -> & Hr' & Hw); [by eapply lookup_lt_Some|]. rewrite Hm in Hw.
  cbn [rbind]. unfold nz. destruct m as [v|].
  - destruct Hw as [Hn Hw]. rewrite (proj2 (Z.eqb_neq _ 0) Hn). cbn [negb].
    rewrite Hf, Hx, Hb. cbn [rbind]. rewrite (proj2 (Z.eqb_neq x 0) Hxn), Hw. cbn [negb rbind].
    eexists. split; [done|]. unfold GetQuickCode, nz. cbn [om_begin_ code_offset_].
    pose proof (compiled_lookup _ _ _ Hm) as Hl.
    pose proof (Forall_lookup_1 _ _ _ _ Hpos Hl). pose proof (Forall_lookup_1 _ _ _ _ Hv Hl).
    cbn beta in *. rewrite (proj2 (Z.eqb_neq v 0)) by lia. apply wrap_small. lia.
  - rewrite Hw. by eexists.
Qed.
End OatClass.

(** An oat dex file at 0x1000, its oat file at 0x1100 and its class, the third of the dex file,
    with 40 methods of which three are compiled. *)
Definition demo_methods : methods :=
  replicate 3 None ++ [Some 0x500] ++ replicate 30 None ++ [Some 0x640; None; Some 0x800]
  ++ replicate 3 None.
Definition pad (n : nat) (l : list Z) : list Z := l ++ replicate (n - length l) 0.
Definition demo_oat : list Z :=
  pad 256 (le_bytes 8 0x1100 ++ replicate 112 0 ++ le_bytes 8 0x1200) ++
  pad 256 (replicate 40 0 ++ le_bytes 8 0x1300 ++ replicate 56 0 ++ [1]) ++
  pad 256 (le_bytes 4 0 ++ le_bytes 4 0 ++ le_bytes 4 0x20) ++
  pad 256 (replicate 32 0 ++ class_bytes Sdk.T 11 kSomeCompiled demo_methods).
Definition oat_core : CoreApi := one_core 0x1000 demo_oat.
#[local] Instance oat_presents : Presents oat_core (target_run oat_core).
Proof. apply one_presents; [done|cbn; lia]. Qed.

Lemma GetOatMethod_code_witness :
  exists k, @GetOatClass arm64_Core Sdk.T oat_core (ref_at 0x1000) 2 = Ok k /\
    forall i m, demo_methods !! i = Some m ->
    exists om, @GetOatMethod arm64_Core Sdk.T oat_core k (Z.of_nat i) = Ok om /\
      GetQuickCode om = match m with Some code => 0x1300 + code | None => 0 end.
Proof.
  apply (@GetOatMethod_code arm64_Core Sdk.T oat_core (target_run oat_core) _ (ref_at 0x1000) 2
    0x1300 11 kSomeCompiled demo_methods).
  - lia.
  - by split.
  - exists 0x1200, 0x1100, 0x1300, 0x20, 1.
    split_and!; try (apply check_field_ok; vm_compute; reflexivity);
      try (apply check_shown_ok; [vm_compute; reflexivity|cbn; lia]); try done.
    + by right; left.
    + split_and!; [done|done|].
      change (omap id demo_methods) with [0x500; 0x640; 0x800]. repeat constructor; done.
  - change (omap id demo_methods) with [0x500; 0x640; 0x800]. repeat constructor; done.
Defined.
