(* ===== verification/Runtimes.v ===== *)
(** The runtime object: android/art/runtime/runtime.cpp, runtime/image.cpp.

    [Runtime::Current()] takes the runtime from the symbol of libart, or searches it by the
    methods that an image file names.  From Android V on it also measures how far the fields
    behind [heap_] have moved, and changes the offset table: the model returns that distance.
    The caches of [Runtime] are not state of the model: a getter reads the target.  A runtime
    that is already known, and a version that is not, are left to the caller. *)

From Stdlib Require Import ZArith Lia Bool.
From stdpp Require Import base list gmap numbers.
From S2P Require Import Prelude Words Host Blocks Notes CoreApi Segments AddressSpace MemRef Elf.
From S2P Require Import Mirrors Cxx Dex RuntimeTables OatFiles Frames.
Open Scope Z_scope.

(** * Image headers *)

(** [__ImageHeader_offset__] and [kNumImageMethodsCount]. *)
Definition ImageHeader_table (sdk : Z) : Z * Z :=
  listen sdk (0, 7)
    [(Sdk.M, (92, 6)); (Sdk.N, (144, 6)); (Sdk.O, (152, 7)); (Sdk.P, (152, 9)); (Sdk.Q, (160, 9));
     (Sdk.R, (168, 9)); (Sdk.S, (160, 9)); (Sdk.U, (168, 9)); (Sdk.V, (176, 9))].
Definition image_methods_ (sdk : Z) : Z := fst (ImageHeader_table sdk).
Definition image_kMagic : list Z := [0x61; 0x72; 0x74; 0x0A].
Definition kSaveAllCalleeSavesMethod : Z := 3.

Section Search.
Context {M : Machine} (sdk : Z) (c : CoreApi).

(** [memcmp] of a segment's first bytes. *)
Definition starts_with (id : nat) (magic : list Z) : result bool :=
  let! bs := host_load (host_mem c) (begin (lb c id) OPT_READ_ALL) (Z.of_nat (length magic)) in
  Ok (bool_decide (bs = magic)).

(** [SizeOfCalleeMethods()]. *)
Definition SizeOfCalleeMethods : Z := u32 (kNumCalleeMethodsCount sdk * 8).

(** A search of the valid segments that ends with the first answer. *)
Definition first_block {A} (f : nat -> result (option A)) : result (option A) :=
  foreachLoadBlock c
    (fun id _ => match f id with
                 | Ok None => (Ok None, false)
                 | r => (r, true)
                 end) true true (Ok None).

(** [AnalysisCalleeSaveMethods]: the bytes of the methods in the first image that has them. *)
Definition image_callee_methods (id : nat) : result (option (list Z)) :=
  let! image := starts_with id image_kMagic in
  if image : bool then
    let b := lb c id in
    let! '(_, p) := Real c (checkCopyBlock c (ref_at (mVaddr b)) (Some id)) in
    let methods := u64 (u64 (p + image_methods_ sdk) + kSaveAllCalleeSavesMethod * 8) in
    let! first := host_word (host_mem c) methods 8 in
    if nz first then
      let! bs := host_load (host_mem c) methods SizeOfCalleeMethods in Ok (Some bs)
    else Ok None
  else Ok None.
Definition AnalysisCalleeSaveMethods : result (option (list Z)) :=
  first_block image_callee_methods.

(** * Fields of the runtime *)

Definition rt_word (f : Runtime_OffsetTable -> Z) (rt : Runtime_OffsetTable) (runtime : MemoryRef)
    : result Z := vword c runtime (f rt).
(** A method in a cached reference. *)
Definition rt_method (f : Runtime_OffsetTable -> Z) (rt : Runtime_OffsetTable)
    (runtime : MemoryRef) : result MemoryRef :=
  plain_cache c (rt_word f rt runtime).
Definition GetResolutionMethod := rt_method rt_resolution_method_.
Definition GetImtConflictMethod := rt_method rt_imt_conflict_method_.
Definition GetImtUnimplementedMethod := rt_method rt_imt_unimplemented_method_.
Definition rt_object (f : Runtime_OffsetTable -> Z) (rt : Runtime_OffsetTable)
    (runtime : MemoryRef) : result MemoryRef :=
  quick_cache c (rt_word f rt runtime) runtime.
Definition GetHeap := rt_object rt_heap_.
Definition GetMonitorPool := rt_object rt_monitor_pool_.
Definition GetThreadList := rt_object rt_thread_list_.
Definition GetClassLinker := rt_object rt_class_linker_.
Definition GetJavaVM := rt_object rt_java_vm_.
Definition GetJit := rt_object rt_jit_.

(** * The search of the runtime *)

(** The loop of [AnalysisRuntime] over one segment: the last candidate, and whether it was
    accepted. *)
Fixpoint match_loop (fuel : nat) (rt : Runtime_OffsetTable) (methods : list Z) (id : nat)
    (current outsize : Z) (candidate : MemoryRef) : result (MemoryRef * bool) :=
  match fuel with
  | O => OutOfFuel
  | S n =>
      if u64 (current + SizeOfCalleeMethods) <? outsize then
        let! bs := host_load (host_mem c) current SizeOfCalleeMethods in
        if bool_decide (bs = methods) then
          let b := lb c id in
          let runtime := checkCopyBlock c
            (ref_at (u64 (current - begin b OPT_READ_ALL + mVaddr b))) (Some id) in
          let! m := GetResolutionMethod rt runtime in
          let found := match ref_block m with
                       | Some k => virtualContains (lb c k) (le_value (take 8 methods))
                       | None => false
                       end in
          if found then Ok (runtime, true)
          else match_loop n rt methods id (u64 (current + point_size)) outsize runtime
        else match_loop n rt methods id (u64 (current + point_size)) outsize candidate
      else Ok (candidate, false)
  end.
Definition match_block (fuel : nat) (rt : Runtime_OffsetTable) (methods : list Z) (id : nat)
    (candidate : MemoryRef) : result (MemoryRef * bool) :=
  let b := lb c id in
  if negb (bit_set (mFlags b) FLAG_W) then Ok (candidate, false)
  else
    let! image := starts_with id image_kMagic in
    if image : bool then Ok (candidate, false)
    else
      let from := begin b OPT_READ_ALL in
      match_loop fuel rt methods id from (u64 (from + size b OPT_READ_ALL)) candidate.
(** [AnalysisRuntime]. *)
Definition AnalysisRuntime (fuel : nat) (rt : Runtime_OffsetTable) (methods : list Z)
    : result MemoryRef :=
  foreachLoadBlock c
    (fun id r =>
       match r with
       | Ok candidate =>
           match match_block fuel rt methods id candidate with
           | Ok (m, found) => (Ok m, found)
           | Throw a => (Throw a, true)
           | Fault => (Fault, true)
           | OutOfFuel => (OutOfFuel, true)
           end
       | r => (r, true)
       end) true true (Ok (ref_at 0)).
(** [AnalysisInstance()]. *)
Definition AnalysisInstance (fuel : nat) (rt : Runtime_OffsetTable) : result MemoryRef :=
  let! methods := AnalysisCalleeSaveMethods in
  match methods with
  | Some bs => AnalysisRuntime fuel rt bs
  | None => Ok (ref_at 0)
  end.

(** [memcmp] with the methods in front of the runtime. *)
Definition same_methods (runtime : MemoryRef) (methods : list Z) : result bool :=
  let! '(_, p) := Real c runtime in
  let! bs := host_load (host_mem c) p SizeOfCalleeMethods in Ok (bool_decide (bs = methods)).

(** The part of [Current()] inside the [try]: the runtime, and whether the function returns
    at once; [symbol] is the address of [ART_RUNTIME_INSTANCE]. *)
Definition symbol_runtime (fuel : nat) (rt : Runtime_OffsetTable) (symbol : Z)
    : result (MemoryRef * bool) :=
  let! v := vword c (ref_at symbol) 0 in
  let! '(ori, valid) := IsValid c (ref_at v) in
  if negb valid then Throw (vaddr ori)
  else
    let! methods := AnalysisCalleeSaveMethods in
    match methods with
    | None => Ok (ori, true)
    | Some bs =>
        let! same := same_methods ori bs in
        if same : bool then Ok (ori, false)
        else let! r := AnalysisRuntime fuel rt bs in Ok (r, false)
    end.

(** The loop that looks for the field [heap_], and what it moves. *)
Definition heap_tries : Z := 100.
Fixpoint heap_loop (n : nat) (rt : Runtime_OffsetTable) (runtime : MemoryRef) (counter : Z)
    : result (option nat * Z) :=
  match n with
  | O => OutOfFuel
  | S m =>
      let offset := u32 (rt_heap_ rt + u64 (counter * point_size)) in
      let! finalizer_timeout_ms_ := word c runtime (u64 (offset - point_size)) 4 in
      let! v := vword c runtime offset in
      let! block :=
        (if nz (Z.land v 0xFFFFFFFFFFF00000) && (10000 <=? finalizer_timeout_ms_)
            && (finalizer_timeout_ms_ <? 1048576)
         then FindLoadBlock c v false true else Ok None) in
      if negb (has block) && (counter <? heap_tries) then heap_loop m rt runtime (counter + 1)
      else Ok (block, counter)
  end.
Definition move_fields (cloc_off : Z) (rt : Runtime_OffsetTable) : Runtime_OffsetTable :=
  let m f := u32 (f rt + cloc_off) in
  {| rt_callee_save_methods_ := rt_callee_save_methods_ rt;
     rt_resolution_method_ := rt_resolution_method_ rt;
     rt_imt_conflict_method_ := rt_imt_conflict_method_ rt;
     rt_imt_unimplemented_method_ := rt_imt_unimplemented_method_ rt;
     rt_heap_ := m rt_heap_; rt_monitor_pool_ := m rt_monitor_pool_;
     rt_thread_list_ := m rt_thread_list_; rt_class_linker_ := m rt_class_linker_;
     rt_java_vm_ := m rt_java_vm_; rt_jit_ := m rt_jit_ |}.
(** [Runtime::Current()]: the runtime and the offset table from then on. *)
Definition Runtime_Current (fuel : nat) (rt : Runtime_OffsetTable) (symbol : Z)
    : result (MemoryRef * Runtime_OffsetTable) :=
  let! '(runtime, stop) :=
    catch (symbol_runtime fuel rt symbol)
      (fun _ => let! r := AnalysisInstance fuel rt in Ok (r, false)) in
  if stop || negb ((Sdk.V <=? sdk) && nz (vaddr runtime)) then Ok (runtime, rt)
  else
    let! '(block, counter) := heap_loop (S (Z.to_nat heap_tries)) rt runtime 0 in
    if nz counter && (counter <? heap_tries) && has block
    then Ok (runtime, move_fields (u32 (counter * point_size)) rt)
    else Ok (runtime, rt).

(** * Callee-save methods *)

Definition GetCalleeSaveMethod (rt : Runtime_OffsetTable) (runtime : MemoryRef)
    (type : CalleeSaveType) : result MemoryRef :=
  let methods := ref_at (u64 (vaddr runtime + rt_callee_save_methods_ rt)) in
  let! ms :=
    (fix go (i : Z) (n : nat) : result (list MemoryRef) :=
       match n with
       | O => Ok []
       | S n =>
           let! m := plain_cache c (word c methods (u64 (i * 8)) 8) in
           let! t := go (i + 1) n in Ok (m :: t)
       end) 0 (Z.to_nat (kNumCalleeMethodsCount sdk)) in
  Ok (default (ref_at 0) (ms !! Z.to_nat (CalleeSaveType_index type))).

(** [GetRuntimeMethodFrameInfo(method)]. *)
Definition GetRuntimeMethodFrameInfo (rt : Runtime_OffsetTable) (runtime method : MemoryRef)
    : result QuickMethodFrameInfo :=
  let same type := let! m := GetCalleeSaveMethod rt runtime type in Ok (vaddr method =? vaddr m) in
  let! a := same kSaveRefsAndArgs in
  if a : bool then Ok (Runtime_GetMethodFrameInfo kSaveRefsAndArgs) else
  let! b := same kSaveAllCalleeSaves in
  if b : bool then Ok (Runtime_GetMethodFrameInfo kSaveAllCalleeSaves) else
  let! d := same kSaveRefsOnly in
  if d : bool then Ok (Runtime_GetMethodFrameInfo kSaveRefsOnly)
  else Ok (Runtime_GetMethodFrameInfo kSaveEverything).
End Search.
