(* ===== verification/Methods.v ===== *)
(** Fields and methods of Java classes: android/art/runtime/art_field.{h,cpp},
    art_method.{h,cpp}, the field counts of mirror/class.cpp, and the walks
    [ForeachInstanceField], [ForeachStaticField], [ForeachArtMethods] and
    [ForeachVirtualArtMethods] of android.cpp.

    A callback of a walk is a program over its caller's state that returns whether to stop.
    Methods with escape sequences for the terminal are left out. *)

From Stdlib Require Import ZArith Lia Bool.
From stdpp Require Import base list gmap numbers.
From S2P Require Import Prelude Words Host Blocks Notes CoreApi Segments AddressSpace MemRef Elf.
From S2P Require Import Mirrors Cxx Dex RuntimeTables OatFiles Frames Runtimes.
Open Scope Z_scope.

(** * Flags of methods *)

Definition kAccVarargs : Z := 0x80.
Definition kAccObsoleteMethod : Z := 0x40000.
Definition kAccFastNative : Z := 0x80000.
Definition kAccCriticalNative : Z := 0x100000.
Definition kAccPreviouslyWarm : Z := 0x800000.
Definition kAccCompileDontBother : Z := 0x2000000.
Definition kAccPreCompiled : Z := 0x800000.
Definition kAccMustCountLocks : Z := 0x4000000.
Definition kAccNterpEntryPointFastPathFlag : Z := 0x100000.
Definition kAccMemorySharedMethod : Z := 0x40000000.

Definition any_of (mask access_flags : Z) : bool := nz (Z.land access_flags mask).
Definition masked (mask value access_flags : Z) : bool := Z.land access_flags mask =? value.

Definition Method_IsPublic := any_of kAccPublic.
Definition Method_IsPrivate := any_of kAccPrivate.
Definition Method_IsStatic := any_of kAccStatic.
Definition Method_IsConstructor := any_of kAccConstructor.
Definition Method_IsClassInitializer (access_flags : Z) : bool :=
  Method_IsConstructor access_flags && Method_IsStatic access_flags.
Definition Method_IsDirect := any_of (Z.lor (Z.lor kAccStatic kAccPrivate) kAccConstructor).
Definition Method_IsSynchronized := any_of (Z.lor kAccSynchronized kAccDeclaredSynchronized).
Definition Method_IsFinal := any_of kAccFinal.
Definition Method_IsIntrinsic := any_of kAccIntrinsic.
Definition Method_IsCopied := masked (Z.lor kAccIntrinsic kAccCopied) kAccCopied.
Definition kMethodMask : Z :=
  Z.lor (Z.lor kAccIntrinsic kAccCopied) (Z.lor kAccAbstract kAccDefault).
Definition Method_IsMiranda := masked kMethodMask (Z.lor kAccCopied kAccAbstract).
Definition Method_IsDefaultConflicting :=
  masked kMethodMask (Z.lor (Z.lor kAccCopied kAccAbstract) kAccDefault).
Definition Method_IsInvokable (access_flags : Z) : bool := negb (any_of kAccAbstract access_flags).
Definition Method_IsPreCompiled :=
  masked (Z.lor kAccIntrinsic (Z.lor kAccCompileDontBother kAccPreCompiled))
    (Z.lor kAccCompileDontBother kAccPreCompiled).
Definition Method_IsMemorySharedMethod := any_of kAccMemorySharedMethod.
Definition Method_IsCompilable (access_flags : Z) : bool :=
  if Method_IsIntrinsic access_flags then true
  else if Method_IsPreCompiled access_flags then true
  else negb (any_of kAccCompileDontBother access_flags).
Definition Method_IsDefault := any_of kAccDefault.
Definition Method_IsObsolete := any_of kAccObsoleteMethod.
Definition Method_IsNative := any_of kAccNative.
Definition all_of (mask : Z) : Z -> bool := masked mask mask.
Definition Method_IsFastNative := all_of (Z.lor kAccFastNative kAccNative).
Definition Method_IsCriticalNative := all_of (Z.lor kAccCriticalNative kAccNative).
Definition Method_IsManaged (access_flags : Z) : bool := negb (Method_IsNative access_flags).
Definition Method_IsManagedAndInvokable (access_flags : Z) : bool :=
  Method_IsManaged access_flags && Method_IsInvokable access_flags.
Definition Method_IsAbstract (access_flags : Z) : bool :=
  any_of kAccAbstract access_flags && negb (Method_IsDefaultConflicting access_flags).
Definition Method_IsSynthetic := any_of kAccSynthetic.
Definition Method_IsVarargs := any_of kAccVarargs.
Definition PreviouslyWarm := any_of (Z.lor kAccPreviouslyWarm kAccIntrinsic).
Definition MustCountLocks (access_flags : Z) : bool :=
  if Method_IsIntrinsic access_flags then false else any_of kAccMustCountLocks access_flags.
Definition HasNterpEntryPointFastPathFlag :=
  masked (Z.lor kAccNative kAccNterpEntryPointFastPathFlag) kAccNterpEntryPointFastPathFlag.

Section Methods.
Context {M : Machine} (sdk : Z) (c : CoreApi).

(** * Fields *)

Definition af_word (f : ArtField_OffsetTable -> Z) (field : MemoryRef) : result Z :=
  word c field (f ArtField_Init) 4.
Definition af_offset : MemoryRef -> result Z := af_word af_offset_.
Definition Field_IsStatic (field : MemoryRef) : result bool :=
  has_flags (af_word af_access_flags_ field) kAccStatic.
Definition Field_GetDeclaringClass (field : MemoryRef) : result MemoryRef :=
  quick_cache c (af_word af_declaring_class_ field) field.
Definition IsProxyField (field : MemoryRef) : result bool :=
  let! k := Field_GetDeclaringClass field in IsProxyClass sdk c k.
Definition Field_GetDexFile (field : MemoryRef) : result MemoryRef :=
  let! k := Field_GetDeclaringClass field in Class_GetDexFile sdk c k.

(** [GetTypeDescriptor(def)] and [GetName(def)]. *)
Definition Field_GetTypeDescriptor (field : MemoryRef) (def : list Z) : result (list Z) :=
  let! k := Field_GetDeclaringClass field in
  if negb (nz (vaddr k)) then Ok def
  else
    let! field_index := af_word af_field_dex_idx_ field in
    let! proxy := IsProxyField field in
    if proxy : bool then
      Ok (chars (if field_index =? 0 then "[Ljava/lang/Class;" else "[[Ljava/lang/Class;"))
    else
      let! dex := Field_GetDexFile field in
      let! id := GetFieldId sdk c dex field_index in
      GetFieldTypeDescriptor sdk c dex id (chars "B").
Definition PrettyTypeDescriptor (field : MemoryRef) : result (list Z) :=
  let! d := Field_GetTypeDescriptor field (chars "B") in AppendPrettyDescriptor_def d (chars "B").
Definition Field_GetName (field : MemoryRef) (def : list Z) : result (list Z) :=
  let! k := Field_GetDeclaringClass field in
  if negb (nz (vaddr k)) then Ok def
  else
    let! field_index := af_word af_field_dex_idx_ field in
    let! proxy := IsProxyField field in
    if proxy : bool then Ok (chars (if field_index =? 0 then "interfaces" else "throws"))
    else
      let! dex := Field_GetDexFile field in
      let! id := GetFieldId sdk c dex field_index in
      GetFieldName sdk c dex id (chars "<invalid-field>").

(** The value of a field of an object, of [n] bytes; [signed_field] for the signed types. *)
Definition field_value (n : Z) (field obj : MemoryRef) : result Z :=
  let! '(_, p) := Real c obj in
  let! off := af_offset field in host_word (host_mem c) (u64 (p + off)) n.
Definition signed_field (n : Z) (field obj : MemoryRef) : result Z :=
  let! v := field_value n field obj in Ok (sint (8 * n) v).
Definition Field_GetByte := signed_field 1.
Definition Field_GetBoolean := field_value 1.
Definition Field_GetChar := field_value 2.
Definition Field_GetShort := signed_field 2.
Definition Field_GetInt := signed_field 4.
Definition Field_GetLong := signed_field 8.
Definition Field_Get32 := field_value 4.
Definition Field_Get64 := field_value 8.
Definition Field_GetObject := field_value 4.

(** The static or the other fields among [n] from [field] on, counted. *)
Fixpoint count_fields (n : nat) (static : bool) (field : MemoryRef) (count : Z) : result Z :=
  match n with
  | O => Ok count
  | S m =>
      let! s := Field_IsStatic field in
      let! next := MovePtr c field (ArtField_THIS ArtField_Init) in
      count_fields m static next (if Bool.eqb s static then u32 (count + 1) else count)
  end.
Definition fields_counted (static : bool) (array number : Class_OffsetTable -> Z) (k : MemoryRef)
    : result Z :=
  if Sdk.W <=? sdk then
    let! size := NumFields sdk c k in
    let! fields := GetFields sdk c k in
    count_fields (Z.to_nat size) static (ref_from c fields k) 0
  else if Sdk.N <=? sdk then let! v := class_quad sdk c k array in lpa_size c k v
  else class_word sdk c k number.
Definition NumInstanceFields := fields_counted false ifields_ num_instance_fields_.
Definition NumStaticFields := fields_counted true sfields_ num_static_fields_.

(** * Methods *)

Definition am_word (f : ArtMethod_OffsetTable -> Z) (n : Z) (m : MemoryRef) : result Z :=
  word c m (f (ArtMethod_table sdk)) n.
Definition Method_GetAccessFlags := am_word am_access_flags_ 4.
Definition GetDexMethodIndex := am_word am_dex_method_index_ 4.
Definition GetMethodIndex := am_word am_method_index_ 2.
Definition GetCounter := am_word am_hotness_count_ 2.
Definition GetImtIndex := am_word am_imt_index_ 2.
Definition method_is (p : Z -> bool) (m : MemoryRef) : result bool :=
  test (Method_GetAccessFlags m) p.
Definition Method_GetDeclaringClass (m : MemoryRef) : result MemoryRef :=
  plain_cache c (am_word am_declaring_class_ 4 m).
Definition IsProxyMethod (m : MemoryRef) : result bool :=
  let! k := Method_GetDeclaringClass m in IsProxyClass sdk c k.
Definition kRuntimeMethodDexMethodIndex : Z := 0xFFFFFFFF.
Definition kDexNoIndex : Z := 0xFFFFFFFF.
Definition IsRuntimeMethod (m : MemoryRef) : result bool :=
  test (GetDexMethodIndex m) (Z.eqb kRuntimeMethodDexMethodIndex).

(** The dex cache of an obsolete method is the empty reference. *)
Definition Method_GetDexCache (m : MemoryRef) : result MemoryRef :=
  let! obsolete := method_is Method_IsObsolete m in
  if obsolete : bool then Ok (ref_at 0)
  else let! k := Method_GetDeclaringClass m in GetDexCache sdk c k.
Definition Method_GetDexFile (m : MemoryRef) : result MemoryRef :=
  let! dc := Method_GetDexCache m in DexCache_GetDexFile sdk c dc.
(** The dex file of a method and its entry there. *)
Definition method_id (m : MemoryRef) : result (MemoryRef * MemoryRef) :=
  let! dex := Method_GetDexFile m in
  let! idx := GetDexMethodIndex m in
  let! id := GetMethodId sdk c dex idx in Ok (dex, id).
Definition GetReturnTypeIndex (m : MemoryRef) : result Z :=
  let! '(dex, id) := method_id m in
  let! p := GetMethodPrototype sdk c dex id in word c p (return_type_idx_ ProtoId_Init) 2.
Definition GetReturnTypeDescriptor (m : MemoryRef) : result (list Z) :=
  let! dex := Method_GetDexFile m in
  let! idx := GetReturnTypeIndex m in
  let! id := GetTypeId sdk c dex idx in GetTypeDescriptor sdk c dex id invalid_class.
Definition PrettyReturnTypeDescriptor (m : MemoryRef) : result (list Z) :=
  let! d := GetReturnTypeDescriptor m in AppendPrettyDescriptor_def d (chars "V").
Definition PrettyParameters (m : MemoryRef) : result (list Z) :=
  let! '(dex, id) := method_id m in PrettyMethodParameters sdk c dex id.
Definition GetShorty (m : MemoryRef) : result (option Z * list Z) :=
  let! '(dex, id) := method_id m in GetMethodShorty sdk c dex id.

(** The methods of the runtime, in the order of the tests. *)
Definition GetRuntimeMethodName (rt : Runtime_OffsetTable) (runtime m : MemoryRef)
    : result (list Z) :=
  let save type := GetCalleeSaveMethod sdk c rt runtime type in
  (fix go (l : list (result MemoryRef * string)) : result (list Z) :=
     match l with
     | [] => Ok (chars "<unknown runtime internal method>")
     | (r, name) :: l =>
         let! r := r in if vaddr m =? vaddr r then Ok (chars name) else go l
     end)
    [(GetResolutionMethod c rt runtime, "<runtime internal resolution method>"%string);
     (GetImtConflictMethod c rt runtime, "<runtime internal imt conflict method>"%string);
     (save kSaveAllCalleeSaves, "<runtime internal callee-save all registers method>"%string);
     (save kSaveRefsOnly, "<runtime internal callee-save reference registers method>"%string);
     (save kSaveRefsAndArgs,
        "<runtime internal callee-save reference and argument registers method>"%string);
     (save kSaveEverything, "<runtime internal save-every-register method>"%string);
     (save kSaveEverythingForClinit,
        "<runtime internal save-every-register method for clinit>"%string);
     (save kSaveEverythingForSuspendCheck,
        "<runtime internal save-every-register method for suspend check>"%string)].
Definition Method_GetName (rt : Runtime_OffsetTable) (runtime m : MemoryRef) : result (list Z) :=
  let! dex_method_idx := GetDexMethodIndex m in
  if dex_method_idx =? kDexNoIndex then GetRuntimeMethodName rt runtime m
  else
    let! dex := Method_GetDexFile m in
    let! id := GetMethodId sdk c dex dex_method_idx in GetMethodName sdk c dex id.

(** * Code *)

Definition HasCodeItem (m : MemoryRef) : result bool :=
  let! access_flags := Method_GetAccessFlags m in
  let! ok :=
    (if negb (Method_IsNative access_flags) && negb (Method_IsAbstract access_flags) then
       let! r := IsRuntimeMethod m in
       if r : bool then Ok false else let! p := IsProxyMethod m in Ok (negb p)
     else Ok false) in
  Ok (if Sdk.U <? sdk then ok && negb (Method_IsDefaultConflicting access_flags) else ok).
Definition ps_data (m : MemoryRef) : result Z :=
  let fields := ref_from c (u64 (vaddr m + am_ptr_sized_fields_ (ArtMethod_table sdk))) m in
  vword c fields (ps_data_ (PtrSizedFields_table sdk)).
(** [GetCodeItem()]: the code item, and its fields when there is one. *)
Definition GetCodeItem (m : MemoryRef) : result (MemoryRef * option CodeFields) :=
  let! has := HasCodeItem m in
  if negb has then Ok (ref_at 0, None)
  else
    let! dex := Method_GetDexFile m in
    let! item :=
      (if sdk <? Sdk.S then
         let! d := DataBegin sdk c dex in
         let! off := am_word am_dex_code_item_offset_ 4 m in Ok (u64 (vaddr d + off))
       else ps_data m) in
    let item := ref_at (Z.land item 0xFFFFFFFFFFFFFFFE) in
    let! compact := (if Sdk.P <=? sdk then IsCompactDexFile sdk c dex else Ok false) in
    let! fields :=
      (if compact : bool then Compact_DecodeFields c item else Standard_DecodeFields c item) in
    Ok (item, Some fields).

Definition EntryPointFromQuickCompiledCodeOffset (pointer_size : Z) : Z :=
  u32 (am_ptr_sized_fields_ (ArtMethod_table sdk)
       + ps_entry_point_from_quick_compiled_code_ (PtrSizedFields_table sdk)
         / pointer_size * pointer_size).
Definition GetNativePointer (m : MemoryRef) (offset pointer_size : Z) : result Z :=
  word c m offset (if pointer_size =? 4 then 4 else 8).
Definition GetEntryPointFromQuickCompiledCode (m : MemoryRef) : result Z :=
  GetNativePointer m (EntryPointFromQuickCompiledCodeOffset point_size) point_size.

(** * Walks over the members of a class *)

Section Walks.
Context {S : Type}.

(** The loops of the field walks over [n > 0] fields: [wanted] fields are shown to [fn]. *)
Fixpoint field_loop (n : nat) (wanted : MemoryRef -> result bool)
    (fn : MemoryRef -> prog S bool) (field : MemoryRef) : prog S unit :=
  match n with
  | O => pret tt
  | Datatypes.S m =>
      let$ w := lift (wanted field) in
      let$ stop := (if w : bool then fn field else pret false) in
      if stop : bool then pret tt
      else
        let$ next := lift (MovePtr c field (ArtField_THIS ArtField_Init)) in
        field_loop m wanted fn next
  end.
Definition foreach_field (static : bool) (number : MemoryRef -> result Z)
    (array : MemoryRef -> result Z) (k : MemoryRef) (fn : MemoryRef -> prog S bool)
    : prog S unit :=
  let$ size := lift (if Sdk.W <=? sdk then NumFields sdk c k else number k) in
  if nz size then
    let$ fields := lift (if Sdk.W <=? sdk then GetFields sdk c k else array k) in
    field_loop (Z.to_nat size)
      (fun f => if Sdk.W <=? sdk then let! s := Field_IsStatic f in Ok (Bool.eqb s static)
                else Ok true) fn (ref_from c fields k)
  else pret tt.
Definition ForeachInstanceField := foreach_field false NumInstanceFields (GetIFields sdk c).
Definition ForeachStaticField := foreach_field true NumStaticFields (GetSFields sdk c).

(** [visit_methods_fn(methods, size, off)]: the loop tests its condition after the first
    round. *)
Fixpoint method_loop (n : nat) (fn : MemoryRef -> prog S bool) (base : MemoryRef) (i : Z)
    : prog S unit :=
  match n with
  | O => pret tt
  | Datatypes.S m =>
      let$ stop := fn (ref_from c
        (u64 (vaddr base + u32 (i * ArtMethod_THIS (ArtMethod_table sdk)))) base) in
      if stop : bool then pret tt else method_loop m fn base (i + 1)
  end.
Definition visit_methods (methods size off : Z) (k : MemoryRef) (fn : MemoryRef -> prog S bool)
    : prog S unit :=
  if nz (u32 (size - off)) then
    let$ base := lift (Prepare c (ref_from c methods k) false) in
    method_loop (Z.to_nat (Z.max 1 (size - off))) fn base off
  else pret tt.
Definition ForeachArtMethods (k : MemoryRef) (fn : MemoryRef -> prog S bool) : prog S unit :=
  if Sdk.N <=? sdk then
    let$ methods := lift (GetMethods sdk c k) in
    let$ n := lift (NumMethods sdk c k) in visit_methods methods n 0 k fn
  else
    let$ direct := lift (GetDirectMethods sdk c k) in
    let$ n := lift (NumDirectMethods sdk c k) in
    let$ _ := visit_methods direct n 0 k fn in
    let$ virtual := lift (GetVirtualMethods sdk c k) in
    let$ n := lift (NumVirtualMethods sdk c k) in visit_methods virtual n 0 k fn.
Definition ForeachVirtualArtMethods (k : MemoryRef) (fn : MemoryRef -> prog S bool)
    : prog S unit :=
  if Sdk.N <=? sdk then
    let$ methods := lift (GetMethods sdk c k) in
    let$ n := lift (NumMethods sdk c k) in
    let$ direct := lift (NumDirectMethods sdk c k) in visit_methods methods n direct k fn
  else
    let$ virtual := lift (GetVirtualMethods sdk c k) in
    let$ n := lift (NumVirtualMethods sdk c k) in visit_methods virtual n 0 k fn.
End Walks.

(** * The compiled code of a method *)

(** The search of the virtual method: its state is the index of the next method and whether
    it was found. *)
Definition find_virtual (method k : MemoryRef) : prog (Z * bool) unit :=
  ForeachVirtualArtMethods k (fun art_method =>
    let$ a := lift (GetDexMethodIndex method) in
    let$ b := lift (GetDexMethodIndex art_method) in
    if a =? b then let$ _ := modify (fun s => (fst s, true)) in pret true
    else let$ _ := modify (fun s => (u16 (fst s + 1), snd s)) in pret false).
(** The index of a method in its oat class. *)
Definition oat_method_index (method : MemoryRef) : result (option Z) :=
  let! k := Method_GetDeclaringClass method in
  let! static := method_is Method_IsStatic method in
  let! direct := (if static : bool then Ok true else method_is Method_IsDirect method) in
  if direct : bool then let! i := GetMethodIndex method in Ok (Some i)
  else
    let! n := NumDirectMethods sdk c k in
    let '(s, r) := find_virtual method k (u16 n, false) in
    let! _ := r in Ok (if snd s then Some (fst s) else None).
(** [FindOatMethodFor(method, pointer_size, found)]. *)
Definition FindOatMethodFor (method : MemoryRef) : result (bool * OatMethod) :=
  let! obsolete := method_is Method_IsObsolete method in
  if obsolete : bool then Ok (false, OatMethod_Invalid)
  else
    let! index := oat_method_index method in
    match index with
    | None => Ok (false, OatMethod_Invalid)
    | Some index =>
        let! k := Method_GetDeclaringClass method in
        let! dex := Class_GetDexFile sdk c k in
        let! def := GetDexClassDefIndex sdk c k in
        let! '(found, oat_class) := FindOatClass sdk c dex def in
        if negb found then Ok (false, OatMethod_Invalid)
        else let! m := GetOatMethod sdk c oat_class index in Ok (true, m)
    end.
End Methods.
