(* ===== verification/MethodsProofs.v ===== *)
(** Theorems about [Methods]: the index of a method in the oat file against a search of the
    methods of its class. *)

From Stdlib Require Import ZArith Lia Bool.
From stdpp Require Import base list gmap numbers.
From S2P Require Import Prelude Words Host Blocks Notes CoreApi Segments AddressSpace MemRef Elf.
From S2P Require Import Mirrors Cxx Reading Dex RuntimeTables OatFiles Frames Runtimes Methods.
Open Scope Z_scope.

Section Methods.
Context {M : Machine} (sdk : Z) (c : CoreApi) (run : Z -> Z -> option (list Z)) `{!Presents c run}.
Abbreviation field := (has_field c run).
Abbreviation method_size := (ArtMethod_THIS (ArtMethod_table sdk)).

Lemma method_size_range : 0 <= method_size <= 56.
Proof.
  unfold ArtMethod_table, listen, ArtMethod_Init23, ArtMethod_Init24, ArtMethod_Init26,
    ArtMethod_Init28, ArtMethod_Init31. cbn.
  repeat destruct (_ <=? sdk); destruct (bits =? 64); cbn; lia.
Qed.

(** The methods of a class from index [i] on have the dex method indices [ids]. *)
Definition indices_at (B i : Z) (ids : list Z) : Prop :=
  forall j id, ids !! j = Some id ->
    field (B + (i + Z.of_nat j) * method_size) (am_dex_method_index_ (ArtMethod_table sdk)) 4 id.

(** Where a search for [idx] from index [i] on ends. *)
Definition search (idx i : Z) (ids : list Z) : Z * bool :=
  match list_find (fun id => id = idx) ids with
  | Some (j, _) => (i + Z.of_nat j, true)
  | None => (i + Z.of_nat (length ids), false)
  end.

Definition step (method : MemoryRef) : MemoryRef -> prog (Z * bool) bool := fun art_method =>
  let$ a := lift (GetDexMethodIndex sdk c method) in
  let$ b := lift (GetDexMethodIndex sdk c art_method) in
  if a =? b then let$ _ := modify (fun s => (fst s, true)) in pret true
  else let$ _ := modify (fun s => (u16 (fst s + 1), snd s)) in pret false.

Lemma search_cons idx i id ids :
  search idx i (id :: ids) = if id =? idx then (i, true) else search idx (i + 1) ids.
Proof.
  unfold search. cbn [list_find]. destruct (Z.eqb_spec id idx) as [->|Hne].
  - rewrite decide_True by done. f_equal. lia.
  - rewrite decide_False by done. destruct (list_find _ ids) as [[j x]|]; cbn; f_equal; lia.
Qed.

Lemma method_loop_search method idx base B ids : forall i,
  GetDexMethodIndex sdk c method = Ok idx -> ref_ok c base -> vaddr base = B ->
  indices_at B i ids -> 0 <= i -> i + Z.of_nat (length ids) < 2 ^ 16 ->
  B + (i + Z.of_nat (length ids)) * method_size < 2 ^ 64 -> 0 <= B ->
  method_loop sdk c (length ids) (step method) base i (i, false) = (search idx i ids, Ok tt).
Proof.
  pose proof method_size_range as Hsz.
  induction ids as [|id ids IH]; intros i Hm Hb HB Hids Hi Hn He HB0; cbn [method_loop length].
  - unfold search. cbn. rewrite Z.add_0_r. done.
  - pose proof (Hids 0%nat id eq_refl) as Hf. rewrite Z.add_0_r in Hf.
    cbn [length] in *. rewrite HB. rewrite (wrap_small 32) by nia. rewrite wrap_small by nia.
    unfold step at 1. rewrite Hm.
    assert (E : GetDexMethodIndex sdk c (ref_from c (B + i * method_size) base) = Ok id).
    { eapply (word_field c run); [apply (ref_from_ok c run); [done|nia]|apply ref_from_vaddr|done]. }
    rewrite E, search_cons. unfold pbind, lift. rewrite (Z.eqb_sym idx id).
    destruct (Z.eqb_spec id idx) as [->|Hne]; cbn [modify pret fst snd]; [done|].
    rewrite wrap_small by lia. fold (step method). apply IH; try done; try lia; try nia.
    intros j x Hj. specialize (Hids (S j) x Hj).
    by replace (i + 1 + Z.of_nat j) with (i + Z.of_nat (S j)) by lia.
Qed.

(** The target has a class at [k] with the direct methods [direct], and behind them the virtual
    methods [virtual], each by its dex method index. *)
Definition class_methods_at (k : Z) (direct virtual : list Z) : Prop :=
  exists v B, let n := Z.of_nat (length direct) + Z.of_nat (length virtual) in
    field k (methods_ (Class_Init sdk)) 8 v /\
    field k (virtual_methods_offset_ (Class_Init sdk)) 2 (Z.of_nat (length direct)) /\
    field v (lpa_size_ LengthPrefixedArray_Init) 4 n /\
    B = RoundUp 64 (u64 (v + lpa_data_ LengthPrefixedArray_Init)) point_size /\
    indices_at B 0 (direct ++ virtual) /\ n < 2 ^ 16 /\ 0 < B /\ B + n * method_size < 2 ^ 64.

Lemma indices_behind B direct virtual :
  indices_at B 0 (direct ++ virtual) -> indices_at B (Z.of_nat (length direct)) virtual.
Proof.
  intros H j id Hj. specialize (H (length direct + j)%nat id).
  rewrite lookup_app_r, Nat.add_comm, Nat.add_sub in H by lia. specialize (H Hj).
  by replace (Z.of_nat (length direct) + Z.of_nat j) with (0 + Z.of_nat (j + length direct)) by lia.
Qed.

(** A virtual method has in the oat file the index it has in its class, counted from
    the direct methods on: the index found is the one of the first virtual method with its dex
    method index, and there is none when the class has no such method. *)
Theorem oat_method_index_virtual (m : MemoryRef) (flags kv idx : Z) (direct virtual : list Z)
    (Hsdk : Sdk.N <= sdk) (Hr : ref_ok c m)
    (Hf : field (vaddr m) (am_access_flags_ (ArtMethod_table sdk)) 4 flags)
    (Hd : Method_IsStatic flags = false /\ Method_IsDirect flags = false)
    (Hk : field (vaddr m) (am_declaring_class_ (ArtMethod_table sdk)) 4 kv)
    (Hi : field (vaddr m) (am_dex_method_index_ (ArtMethod_table sdk)) 4 idx)
    (Hc : class_methods_at kv direct virtual) :
  oat_method_index sdk c m =
    Ok (match list_find (fun id => id = idx) virtual with
        | Some (j, _) => Some (Z.of_nat (length direct) + Z.of_nat j)
        | None => None
        end).
Proof.
  destruct Hc as (v & B & Hv & Hvo & Hn & HB & Hids & Hlen & HB0 & He). destruct Hd as [Hs Hdir].
  set (d := Z.of_nat (length direct)) in *. rename virtual into ids.
  assert (Hnsdk : (Sdk.N <=? sdk) = true) by (apply Z.leb_le; done).
  unfold oat_method_index, Method_GetDeclaringClass, plain_cache, am_word.
  rewrite (word_field c run m _ _ _ _ Hr eq_refl Hk). cbn [rbind].
  destruct (Prepare_field c run (ref_at kv) _ _ _ _ ltac:(apply ref_at_ok; destruct Hv; lia) eq_refl Hv)
    as (k & -> & Hkv & Hkr). cbn [rbind].
  unfold method_is, test, Method_GetAccessFlags, am_word.
  rewrite (word_field c run m _ _ _ _ Hr eq_refl Hf). cbn [rbind]. rewrite Hs, Hdir. cbn [rbind].
  assert (End : NumDirectMethods sdk c k = Ok d).
  { unfold NumDirectMethods. rewrite Hnsdk. eapply (word_field c run); done. }
  assert (Em : class_quad sdk c k methods_ = Ok v) by (eapply (word_field c run); done).
  assert (Hvnz : nz v = true) by (destruct Hn; unfold nz; by rewrite (proj2 (Z.eqb_neq v 0)) by lia).
  assert (Enm : NumMethods sdk c k = Ok (d + Z.of_nat (length ids))).
  { unfold NumMethods, lpa_size. rewrite Hnsdk, Em. cbn [rbind]. rewrite ref_from_vaddr, Hvnz.
    eapply (word_field c run); [apply (ref_from_ok c run); [done|destruct Hn; lia]|apply ref_from_vaddr|done]. }
  assert (Egm : GetMethods sdk c k = Ok B).
  { unfold GetMethods, lpa_data. rewrite Em. cbn [rbind]. rewrite Hvnz, ref_from_vaddr, Hvnz.
    by rewrite HB. }
  rewrite End. cbn [rbind]. rewrite wrap_small by lia.
  unfold find_virtual, ForeachVirtualArtMethods. rewrite Hnsdk, Egm, Enm, End.
  unfold pbind at 1 2 3, lift at 1 2 3. unfold visit_methods.
  replace (d + Z.of_nat (length ids) - d) with (Z.of_nat (length ids)) by lia.
  rewrite wrap_small by lia. fold (step m).
  destruct ids as [|id ids']; [reflexivity|].
  unfold nz at 1. rewrite (proj2 (Z.eqb_neq (Z.of_nat (length (id :: ids'))) 0)) by (cbn; lia).
  cbn [negb]. rewrite Z.max_r, Nat2Z.id by (cbn [length]; lia).
  assert (Hdm : GetDexMethodIndex sdk c m = Ok idx) by (eapply (word_field c run); done).
  destruct (lookup_lt_is_Some_2 (direct ++ id :: ids') 0) as [x Hx];
    [rewrite length_app; cbn; lia|].
  pose proof (Hids 0%nat x Hx) as Hf0. rewrite Z.mul_0_l, Z.add_0_r in Hf0.
  destruct (Prepare_field c run (ref_from c B k) B _ _ _
    ltac:(apply (ref_from_ok c run); [done|destruct Hf0; lia]) ltac:(apply ref_from_vaddr) Hf0)
    as (b & Eb & Hb2 & Hb1).
  unfold pbind at 1, lift at 1. rewrite Eb.
  rewrite (method_loop_search m idx b B) by (done || lia || by apply indices_behind).
  cbn [rbind]. unfold search. by destruct (list_find _ _) as [[j y]|].
Qed.
End Methods.

(** A class at 0x1000 with two direct and three virtual methods at 0x1108; the method at 0x1168
    is the second virtual one. *)
Definition demo_class : list Z :=
  memory 512
    ([(48, le_bytes 8 0x1100); (118, le_bytes 2 2); (0x100, le_bytes 4 5);
      (0x168, le_bytes 4 0x1000 ++ le_bytes 4 1)] ++
     imap (fun i id => (0x108 + 32 * Z.of_nat i + 8, le_bytes 4 id)) [7; 8; 20; 21; 22]).
Definition class_core : CoreApi := one_core 0x1000 demo_class.
#[local] Instance class_presents : Presents class_core (target_run class_core).
Proof. apply one_presents; [done|apply Nat.ltb_lt; by vm_compute]. Qed.

Lemma oat_method_index_virtual_witness :
  @oat_method_index arm64_Core Sdk.T class_core (ref_at 0x1168) = Ok (Some 3).
Proof.
  apply (@oat_method_index_virtual arm64_Core Sdk.T class_core (target_run class_core) _
    (ref_at 0x1168) 1 0x1000 21 [7; 8] [20; 21; 22]); try done;
    try (apply check_field_ok; vm_compute; reflexivity).
  exists 0x1100, 0x1108. cbn zeta.
  split_and!; try done; try (apply check_field_ok; vm_compute; reflexivity).
  intros j id Hj. do 5 (destruct j as [|j];
    [cbn in Hj; simplify_eq; apply check_field_ok; vm_compute; reflexivity|]). done.
Defined.
