(* ===== verification/RefCache.v ===== *)
(** The cache of a reference cannot be observed.

    Every [MemoryRef] of core/api/memory_ref.h may hold the segment it was resolved to,
    and the copying constructors hand the segment on.  [same_ref] relates references to one address
    whatever they hold; the operations of [MemRef], the readers of fields and the walks built
    from them take related references to equal results, so that a theorem may choose the
    reference it speaks of.  The address space is well formed and nothing is mapped at 0,
    where the code takes an address for a null reference. *)

From Stdlib Require Import ZArith Lia Bool String.
From stdpp Require Import base list gmap numbers.
From S2P Require Import Prelude Words Host Blocks Notes CoreApi Segments AddressSpace MemRef Elf.
From S2P Require Import Mirrors Cxx Dex RuntimeTables Methods.
Open Scope Z_scope.

(** * Related results *)

Inductive result_rel {A B} (R : A -> B -> Prop) : result A -> result B -> Prop :=
  | rel_Ok a b : R a b -> result_rel R (Ok a) (Ok b)
  | rel_Throw p : result_rel R (Throw p) (Throw p)
  | rel_Fault : result_rel R Fault Fault
  | rel_OutOfFuel : result_rel R OutOfFuel OutOfFuel.

Lemma rel_eq {A} (m m' : result A) : m = m' -> result_rel eq m m'.
Proof. intros <-. by destruct m; constructor. Qed.
Lemma eq_rel {A} (m m' : result A) : result_rel eq m m' -> m = m'.
Proof. by destruct 1; subst. Qed.
Lemma rel_rbind {A A' B B'} (R : A -> A' -> Prop) (T : B -> B' -> Prop) m m' f f' :
  result_rel R m m' -> (forall a a', R a a' -> result_rel T (f a) (f' a')) ->
  result_rel T (rbind m f) (rbind m' f').
Proof. destruct 1; cbn; auto; constructor. Qed.

(** Related programs: from related states to related states and results. *)
Definition prog_rel {S A B} (RS : S -> S -> Prop) (R : A -> B -> Prop)
    (m : prog S A) (m' : prog S B) : Prop :=
  forall s s', RS s s' -> RS (fst (m s)) (fst (m' s')) /\ result_rel R (snd (m s)) (snd (m' s')).

Section Programs.
Context {S : Type} (RS : S -> S -> Prop).

Lemma prel_pret {A B} (R : A -> B -> Prop) a b : R a b -> prog_rel RS R (pret a) (pret b).
Proof. intros H s s' Hs. split; [done|by constructor]. Qed.
Lemma prel_lift {A B} (R : A -> B -> Prop) m m' :
  result_rel R m m' -> prog_rel RS R (lift m) (lift m').
Proof. intros H s s' Hs. by split. Qed.
Lemma prel_modify (g g' : S -> S) :
  (forall s s', RS s s' -> RS (g s) (g' s')) -> prog_rel RS eq (modify g) (modify g').
Proof. intros H s s' Hs. split; [by apply H|by constructor]. Qed.
(** What follows may use what the first part returned. *)
Lemma prel_pbind_dep {A A' B B'} (R : A -> A' -> Prop) (T : B -> B' -> Prop)
    (m : prog S A) (m' : prog S A') f f' :
  prog_rel RS R m m' ->
  (forall s s' a a', m s = (s', Ok a) -> R a a' -> prog_rel RS T (f a) (f' a')) ->
  prog_rel RS T (pbind m f) (pbind m' f').
Proof.
  intros Hm Hf s s' Hss. destruct (Hm s s' Hss) as [Hs Hr]. specialize (Hf s). unfold pbind.
  destruct (m s) as [s1 r], (m' s') as [s2 r']. cbn in Hs, Hr.
  destruct Hr; cbn; try by split; [|constructor]. by eapply Hf.
Qed.
Lemma prel_pbind {A A' B B'} (R : A -> A' -> Prop) (T : B -> B' -> Prop)
    (m : prog S A) (m' : prog S A') f f' :
  prog_rel RS R m m' -> (forall a a', R a a' -> prog_rel RS T (f a) (f' a')) ->
  prog_rel RS T (pbind m f) (pbind m' f').
Proof. intros Hm Hf. eapply prel_pbind_dep; eauto. Qed.
End Programs.

Create HintDb same_db.
#[export] Hint Resolve rel_Ok rel_Throw rel_Fault rel_OutOfFuel prel_pret prel_lift
  prel_modify : same_db.

(** Follows two programs that differ in the references they are given. *)
Ltac same_step :=
  match goal with
  | |- ?m = ?m => reflexivity
  | |- result_rel _ (rbind _ _) (rbind _ _) => eapply rel_rbind; [|intros ? ? ?]
  | |- prog_rel _ _ (pbind _ _) (pbind _ _) => eapply prel_pbind; [|intros ? ? ?]
  | |- prog_rel _ _ (lift _) (lift _) => apply prel_lift
  | H : @eq (_ * _) (_, _) (_, _) |- _ => injection H as ?
  | H : @eq (_ * _) ?x ?y |- _ => is_var x; subst x
  | H : @eq _ ?x ?y |- _ => first [is_var x; subst x | is_var y; subst y]
  | |- context [if ?b then _ else _] => destruct b
  | |- context [match ?x with _ => _ end] => is_var x; destruct x
  end.

Section Cache.
Context (c : CoreApi) (Hc : space_ok c)
  (Hnull : linear_find c 0 (mQuickLoad c) = None).

(** * References to one address *)

(** The segment held is the one of the address. *)
Definition settled (r : MemoryRef) : Prop :=
  forall id, ref_block r = Some id ->
    linear_find c (Z.land (vaddr r) (vabits_mask c)) (mQuickLoad c) = Some id.
Definition same_ref (r r' : MemoryRef) : Prop := vaddr r = vaddr r' /\ settled r /\ settled r'.

Lemma settled_at v : settled (ref_at v).
Proof. done. Qed.
Lemma same_at v : same_ref (ref_at v) (ref_at v).
Proof. done. Qed.
Lemma same_of r : settled r -> same_ref r (ref_at (vaddr r)).
Proof. done. Qed.
Lemma settled_refl r : settled r -> same_ref r r.
Proof. done. Qed.

#[global] Instance same_ref_per : RelationClasses.PER same_ref.
Proof.
  split.
  - intros r r' (? & ? & ?). by split_and!.
  - intros r r' r'' (? & ? & ?) (? & ? & ?). split_and!; [congruence|done..].
Qed.

Lemma settled_nonnull r id : settled r -> ref_block r = Some id -> vaddr r <> 0.
Proof.
  intros Hr Hb H0. specialize (Hr id Hb). rewrite H0, Z.land_0_l in Hr. congruence.
Qed.

Lemma settled_from v r : settled r -> settled (ref_from c v r).
Proof.
  intros Hr. unfold ref_from, checkCopyBlock. destruct (ref_block r) as [id|] eqn:Hb; [|done].
  cbn [vaddr ref_at]. destruct (virtualContains (lb c id) v) eqn:E; [|done].
  specialize (Hr id Hb). apply linear_find_Some in Hr as [Hin _].
  pose proof (sorted_range _ _ (sp_sorted _ Hc)) as Hrg. rewrite Forall_elem in Hrg.
  pose proof (Hrg id Hin) as Hid. unfold range_ok in Hid.
  intros id' [= <-]. cbn [vaddr].
  apply virtualContains_spec in E; [|lia..]. rewrite (sp_mask _ Hc) in E by done.
  apply linear_find_elem; [apply Hc|done|]. by apply covers_spec.
Qed.

Lemma same_from v r r' : same_ref r r' -> same_ref (ref_from c v r) (ref_from c v r').
Proof.
  intros (? & ? & ?). split_and!; [by rewrite !ref_from_vaddr|by apply settled_from..].
Qed.

(** The segment a reference resolves to. *)
Definition segment_of (r : MemoryRef) : option nat :=
  if vaddr r =? 0 then None
  else linear_find c (Z.land (vaddr r) (vabits_mask c)) (mQuickLoad c).
(** Its bytes are there. *)
Definition readable (r : MemoryRef) : Prop :=
  exists id, segment_of r = Some id /\ isValid (lb c id) = true.

Lemma settled_block r id :
  settled r -> ref_block r = Some id -> segment_of r = Some id /\ r = MkRef (vaddr r) (Some id).
Proof.
  intros Hr Hb. unfold segment_of. rewrite (proj2 (Z.eqb_neq _ _)) by by eapply settled_nonnull.
  rewrite (Hr id Hb). split; [done|]. destruct r. cbn in *. by subst.
Qed.
Lemma settled_free r :
  ref_block r = None -> Prepare c r false = Ok (MkRef (vaddr r) (segment_of r)).
Proof.
  intros Hb.
  unfold Prepare, segment_of, nz. rewrite Hb. cbn.
  destruct (Z.eqb_spec (vaddr r) 0) as [E|]; cbn; [destruct r; cbn in *; by subst|].
  unfold FindLoadBlock. by rewrite findLoadBlock_space.
Qed.

Lemma Prepare_false r :
  settled r -> Prepare c r false = Ok (MkRef (vaddr r) (segment_of r)).
Proof.
  intros Hr. destruct (ref_block r) as [id|] eqn:Hb; [|by apply settled_free].
  destruct (settled_block r id Hr Hb) as [-> E]. unfold Prepare. by rewrite Hb, <- E.
Qed.
Lemma settled_found v : settled (MkRef v (segment_of (ref_at v))).
Proof. intros id. unfold segment_of. cbn. by destruct (v =? 0). Qed.

Lemma Real_settled r :
  settled r ->
  Real c r =
    match segment_of r with
    | Some id =>
        if isValid (lb c id) then
          Ok (MkRef (vaddr r) (Some id),
              u64 (begin (lb c id) OPT_READ_ALL
                   + (Z.land (vaddr r) (mVabitsMask (lb c id)) - mVaddr (lb c id))))
        else Throw (vaddr r)
    | None => Throw (vaddr r)
    end.
Proof.
  intros Hr. unfold Real, Prepare. destruct (ref_block r) as [id|] eqn:Hb.
  - destruct (settled_block r id Hr Hb) as [-> E]. cbn. rewrite Hb. by rewrite <- E.
  - unfold segment_of, nz. cbn. destruct (Z.eqb_spec (vaddr r) 0) as [E|]; cbn; [by rewrite Hb|].
    unfold FindLoadBlock. rewrite findLoadBlock_space by done. cbn.
    destruct (linear_find c (Z.land _ _) _) as [id|]; cbn; [|done].
    destruct (isValid (lb c id)) eqn:Ev; cbn; [by rewrite Ev|done].
Qed.

Lemma MovePtr_readable r len :
  settled r -> readable r ->
  exists r', MovePtr c r len = Ok r' /\ vaddr r' = u64 (vaddr r + len) /\ settled r'.
Proof.
  intros Hr (id & Hs & Hv). unfold MovePtr.
  assert (E : Prepare c r true = Ok (MkRef (vaddr r) (Some id))).
  { unfold Prepare. destruct (ref_block r) as [id'|] eqn:Hb.
    - destruct (settled_block r id' Hr Hb) as [Hs' E]. cbn. congruence.
    - unfold segment_of, nz in *. cbn. destruct (Z.eqb_spec (vaddr r) 0); [done|]. cbn.
      unfold FindLoadBlock. rewrite findLoadBlock_space by done. cbn. by rewrite Hs, Hv. }
  rewrite E. cbn.
  assert (Hset : settled (MkRef (vaddr r) (Some id))).
  { intros id' [= <-]. cbn. unfold segment_of in Hs. by destruct (vaddr r =? 0). }
  pose proof (settled_from (u64 (vaddr r + len)) _ Hset) as Hf.
  unfold ref_from, checkCopyBlock in Hf. cbn in Hf.
  destruct (virtualContains _ _); eauto.
Qed.

(** * The operations *)

Section Same.
Context (r r' : MemoryRef) (H : same_ref r r').

Lemma same_vaddr : vaddr r = vaddr r'.
Proof. apply H. Qed.
Lemma same_segment : segment_of r = segment_of r'.
Proof. unfold segment_of. by rewrite same_vaddr. Qed.
Lemma same_Prepare : result_rel same_ref (Prepare c r false) (Prepare c r' false).
Proof.
  destruct H as (Hv & Hr & Hr'). rewrite !Prepare_false by done. constructor.
  rewrite <- Hv, <- same_segment. split_and!; [done|..];
    intros id; unfold segment_of; cbn; by destruct (vaddr r =? 0).
Qed.
Definition same_fst {A} (x y : MemoryRef * A) : Prop := same_ref (fst x) (fst y) /\ snd x = snd y.
Lemma same_Real : result_rel same_fst (Real c r) (Real c r').
Proof.
  destruct H as (Hv & Hr & Hr'). rewrite !Real_settled by done.
  rewrite <- same_segment, <- Hv. destruct (segment_of r) as [id|] eqn:Hs; [|constructor].
  destruct (isValid _); constructor. split; [|done].
  assert (settled (MkRef (vaddr r) (Some id))); [|done].
  intros id' [= <-]. cbn. unfold segment_of in Hs. by destruct (vaddr r =? 0).
Qed.
Lemma same_load off n : result_rel same_fst (load_at c r off n) (load_at c r' off n).
Proof.
  unfold load_at. eapply rel_rbind; [apply same_Real|].
  intros [a p] [a' p'] [Ha E]. cbn in *. subst p'.
  eapply rel_rbind; [by apply rel_eq|]. intros v ? <-. by constructor.
Qed.
Lemma same_word off n : word c r off n = word c r' off n.
Proof.
  apply eq_rel. unfold word. eapply rel_rbind; [apply same_load|].
  intros ?? [_ ->]. by constructor.
Qed.
Lemma same_vword off : vword c r off = vword c r' off.
Proof.
  unfold vword, valueOf, load_at. destruct H as (Hv & Hr & Hr').
  rewrite !Real_settled by done. rewrite <- same_segment, <- Hv.
  destruct (segment_of r) as [id|]; [|done]. by destruct (isValid _).
Qed.
Lemma same_IsValid : result_rel same_fst (IsValid c r) (IsValid c r').
Proof.
  unfold IsValid. destruct H as (Hv & Hr & Hr'). rewrite !Prepare_false by done. cbn.
  rewrite <- same_segment, <- Hv. constructor. split; [|done]. cbn.
  assert (settled (MkRef (vaddr r) (segment_of r))); [|done].
  intros id. unfold segment_of. cbn. by destruct (vaddr r =? 0).
Qed.
Lemma same_quick_cache (m m' : result Z) :
  m = m' -> result_rel same_ref (quick_cache c m r) (quick_cache c m' r').
Proof.
  intros <-. unfold quick_cache. eapply rel_rbind; [by apply rel_eq|].
  intros v ? <-. destruct (same_from v r r' H) as (Hv & H1 & H2). rewrite !Prepare_false by done.
  constructor. unfold segment_of. rewrite <- Hv.
  split_and!; [done|..]; intros id; cbn; by destruct (vaddr _ =? 0).
Qed.
Lemma same_Object v : same_ref (Object_from c v r) (Object_from c v r').
Proof. by apply same_from. Qed.
End Same.

(** What was read was there. *)
Lemma word_readable r off n v : settled r -> word c r off n = Ok v -> readable r.
Proof.
  intros Hr. unfold word, load_at. rewrite Real_settled by done. unfold readable.
  destruct (segment_of r) as [id|]; [|done]. destruct (isValid _) eqn:E; [|done]. eauto.
Qed.
Lemma same_readable r r' : same_ref r r' -> readable r -> readable r'.
Proof. intros H (id & Hs & Hv). exists id. by rewrite <- (same_segment r r' H). Qed.
Lemma same_MovePtr r r' len :
  same_ref r r' -> readable r -> result_rel same_ref (MovePtr c r len) (MovePtr c r' len).
Proof.
  intros H Hv. pose proof (same_readable _ _ H Hv) as Hv'. destruct H as (E & Hr & Hr').
  destruct (MovePtr_readable r len Hr Hv) as (m & -> & E1 & H1).
  destruct (MovePtr_readable r' len Hr' Hv') as (m' & -> & E2 & H2).
  constructor. split_and!; congruence || done.
Qed.
End Cache.

#[export] Hint Resolve same_at same_from same_Prepare same_Real same_load same_word same_vword
  same_IsValid same_quick_cache same_Object same_MovePtr : same_db.

(** * Sequences of operations *)

(** What a client does with a reference: the constructors of another address from the
    reference or from its [Block()], and the operations of [MemoryRef]. *)
Inductive ref_op : Type :=
  | OpCopy (v : Z)
  | OpBlock (v : Z)
  | OpPrepare (check : bool)
  | OpReal
  | OpIsValid
  | OpLoad (off n : Z)
  | OpMove (len : Z).
Definition run_op (c : CoreApi) (op : ref_op) (r : MemoryRef) : result MemoryRef :=
  match op with
  | OpCopy v => Ok (ref_from c v r)
  | OpBlock v => Ok (checkCopyBlock c (ref_at v) (ref_block r))
  | OpPrepare check => Prepare c r check
  | OpReal => let! '(r, _) := Real c r in Ok r
  | OpIsValid => let! '(r, _) := IsValid c r in Ok r
  | OpLoad off n => let! '(r, _) := load_at c r off n in Ok r
  | OpMove len => MovePtr c r len
  end.
Fixpoint run_ops (c : CoreApi) (ops : list ref_op) (r : MemoryRef) : result MemoryRef :=
  match ops with
  | [] => Ok r
  | op :: ops => let! r := run_op c op r in run_ops c ops r
  end.

Section Invariant.
Context (c : CoreApi) (Hc : space_ok c).

Lemma settled_Prepare r check r' : settled c r -> Prepare c r check = Ok r' -> settled c r'.
Proof.
  intros Hr H. unfold Prepare in H. destruct (_ || _); [by simplify_eq|].
  unfold FindLoadBlock in H. rewrite findLoadBlock_space in H by done. cbn [rbind] in H.
  intros id E. res_inv. subst r'. cbn [vaddr ref_block] in *. subst.
  destruct check, (linear_find c (Z.land _ _) _) as [id'|]; try done; try congruence.
  destruct (isValid (lb c id')); congruence.
Qed.
Lemma settled_Real r r' p : settled c r -> Real c r = Ok (r', p) -> settled c r'.
Proof.
  intros Hr H. unfold Real in H. res_inv.
  match goal with E : Prepare _ _ _ = Ok ?x |- _ => apply settled_Prepare in E; [|done] end.
  destruct (ref_block _) as [id|]; [|done]. destruct (isValid _); [|done]. by simplify_eq.
Qed.
Lemma settled_op op r r' : settled c r -> run_op c op r = Ok r' -> settled c r'.
Proof.
  intros Hr H. destruct op; cbn [run_op] in H.
  - simplify_eq. by apply settled_from.
  - simplify_eq. by apply (settled_from c Hc v).
  - by eapply settled_Prepare.
  - res_inv. destruct v as [x p]. simplify_eq. by eapply settled_Real.
  - res_inv. destruct v as [x ok]. simplify_eq. unfold IsValid in *. res_inv. simplify_eq.
    by eapply settled_Prepare.
  - res_inv. destruct v as [x v]. simplify_eq. unfold load_at in *. res_inv.
    match goal with p : MemoryRef * Z |- _ => destruct p end. res_inv. simplify_eq.
    by eapply settled_Real.
  - unfold MovePtr in H. res_inv.
    match goal with E : Prepare _ _ _ = Ok ?x |- _ => apply settled_Prepare in E; [|done] end.
    destruct (ref_block v) as [id|] eqn:Hb; [|by simplify_eq].
    pose proof (settled_from c Hc (u64 (vaddr v + len)) v E) as Hf.
    unfold ref_from, checkCopyBlock in Hf. rewrite Hb in Hf. cbn [vaddr ref_at] in Hf.
    destruct (virtualContains _ _); by simplify_eq.
Qed.

(** C32: Whatever a client does with a reference, and in which order, the segment it holds is
    the one its address lies in: a moved or copied reference never keeps a foreign segment. *)
Theorem references_stay_settled (ops : list ref_op) (v : Z) (r : MemoryRef)
    (H : run_ops c ops (ref_at v) = Ok r) : settled c r.
Proof.
  assert (Hr : settled c (ref_at v)) by done. revert H Hr. generalize (ref_at v) as r0.
  induction ops as [|op ops IH]; intros r0 H Hr; cbn [run_ops] in H; [by simplify_eq|].
  res_inv. eapply IH; [done|]. by eapply settled_op.
Qed.
End Invariant.

Definition four_words : CoreApi := one_core 0x1000 (replicate 16 7).
Lemma four_words_ok : space_ok four_words.
Proof. apply one_core_ok; [done|apply Nat.ltb_lt; by vm_compute]. Qed.
Lemma references_stay_settled_witness : settled four_words (MkRef 0x1008 (Some 0%nat)).
Proof.
  apply (references_stay_settled four_words four_words_ok
    [OpLoad 0 4; OpMove 4; OpReal; OpCopy 0x100c; OpBlock 0x1008; OpIsValid] 0x1000).
  vm_compute. reflexivity.
Defined.

(** ** Automation *)

Ltac same_side :=
  match goal with
  | H : same_ref _ ?a ?b |- context [vaddr ?a] => rewrite (same_vaddr _ a b H)
  | H : same_fst _ ?x ?y |- _ => destruct H as [? ?]; destruct x, y; cbn [fst snd] in *
  end.
Ltac same_tac :=
  repeat first [same_side | same_step | apply rel_eq; reflexivity |
    solve [eauto 6 using rel_eq with same_db nocore] |
    solve [constructor; eauto using eq_refl with same_db nocore]].
Ltac same_eq := apply eq_rel; same_tac.

Section Readers.
Context {M : Machine} (sdk : Z) (c : CoreApi) (Hc : space_ok c)
  (Hnull : linear_find c 0 (mQuickLoad c) = None).
Implicit Types r k f : MemoryRef.
Abbreviation same := (same_ref c).

(** * Classes *)

Lemma same_GetClass r r' : same r r' -> result_rel same (GetClass c r) (GetClass c r').
Proof. intros H. unfold GetClass. apply same_quick_cache; [done..|]. by apply same_word. Qed.
Lemma same_class_word g k k' : same k k' -> class_word sdk c k g = class_word sdk c k' g.
Proof. intros H. by apply same_word. Qed.
Lemma same_class_quad g k k' : same k k' -> class_quad sdk c k g = class_quad sdk c k' g.
Proof. intros H. by apply same_word. Qed.
#[local] Hint Resolve same_GetClass same_class_word same_class_quad : same_db.
Lemma same_class_ref g k k' :
  same k k' -> result_rel same (class_ref sdk c k g) (class_ref sdk c k' g).
Proof. intros H. unfold class_ref. same_tac. Qed.
#[local] Hint Resolve same_class_ref : same_db.
Lemma same_has_flags m m' mask : m = m' -> has_flags m mask = has_flags m' mask.
Proof. by intros ->. Qed.
Lemma same_test m m' p : m = m' -> test m p = test m' p.
Proof. by intros ->. Qed.
#[local] Hint Resolve same_has_flags same_test : same_db.

Lemma same_IsArrayClass k k' : same k k' -> IsArrayClass sdk c k = IsArrayClass sdk c k'.
Proof. intros H. unfold IsArrayClass, GetComponentType. same_eq. Qed.
Lemma same_IsProxyClass k k' : same k k' -> IsProxyClass sdk c k = IsProxyClass sdk c k'.
Proof. intros H. unfold IsProxyClass, GetAccessFlags. by apply same_has_flags, same_class_word. Qed.
Lemma same_GetPrimitiveType k k' :
  same k k' -> GetPrimitiveType sdk c k = GetPrimitiveType sdk c k'.
Proof. intros H. unfold GetPrimitiveType. same_eq. Qed.
Lemma same_IsPrimitive k k' : same k k' -> IsPrimitive sdk c k = IsPrimitive sdk c k'.
Proof. intros H. unfold IsPrimitive. by apply same_test, same_GetPrimitiveType. Qed.
Lemma same_GetDexTypeIndex k k' :
  same k k' -> GetDexTypeIndex sdk c k = GetDexTypeIndex sdk c k'.
Proof. intros H. unfold GetDexTypeIndex. same_eq. Qed.
Lemma same_GetSuperClass k k' :
  same k k' -> result_rel same (GetSuperClass sdk c k) (GetSuperClass sdk c k').
Proof. intros H. by apply same_class_ref. Qed.
Lemma same_GetName k k' :
  same k k' -> result_rel same (GetName sdk c k) (GetName sdk c k').
Proof. intros H. by apply same_class_ref. Qed.
Lemma same_GetComponentType k k' :
  same k k' -> result_rel same (GetComponentType sdk c k) (GetComponentType sdk c k').
Proof. intros H. by apply same_class_ref. Qed.
Lemma same_IsClass r r' : same r r' -> IsClass c r = IsClass c r'.
Proof. intros H. unfold IsClass. same_eq. Qed.
#[local] Hint Resolve same_IsArrayClass same_IsProxyClass same_GetPrimitiveType same_IsPrimitive
  same_GetDexTypeIndex same_GetSuperClass same_GetName same_GetComponentType
  same_IsClass : same_db.

(** ** Arrays of fields *)

Lemma same_lpa_size v k k' : same k k' -> lpa_size c k v = lpa_size c k' v.
Proof.
  intros H. unfold lpa_size. rewrite !ref_from_vaddr. destruct (nz v); [|done].
  by apply same_word, same_from.
Qed.
Lemma same_lpa_data v k k' : lpa_data c k v = lpa_data c k' v.
Proof. unfold lpa_data. by rewrite !ref_from_vaddr. Qed.
#[local] Hint Resolve same_lpa_size : same_db.
Lemma same_NumFields k k' : same k k' -> NumFields sdk c k = NumFields sdk c k'.
Proof. intros H. unfold NumFields. same_eq. Qed.
Lemma same_GetFields k k' : same k k' -> GetFields sdk c k = GetFields sdk c k'.
Proof.
  intros H. unfold GetFields. rewrite (same_class_quad _ k k' H).
  destruct (class_quad sdk c k' _) as [v| | |]; cbn; [|done..]. by rewrite (same_lpa_data v k k').
Qed.
Lemma same_GetIFields k k' : same k k' -> GetIFields sdk c k = GetIFields sdk c k'.
Proof.
  intros H. unfold GetIFields. rewrite (same_class_quad _ k k' H).
  destruct (class_quad sdk c k' _) as [v| | |]; cbn; [|done..]. by rewrite (same_lpa_data v k k').
Qed.
Lemma same_GetSFields k k' : same k k' -> GetSFields sdk c k = GetSFields sdk c k'.
Proof.
  intros H. unfold GetSFields. rewrite (same_class_quad _ k k' H).
  destruct (class_quad sdk c k' _) as [v| | |]; cbn; [|done..]. by rewrite (same_lpa_data v k k').
Qed.
#[local] Hint Resolve same_NumFields same_GetFields : same_db.

(** * Strings *)

Lemma same_GetCount r r' : same r r' -> GetCount c r = GetCount c r'.
Proof. intros H. unfold GetCount. same_eq. Qed.
#[local] Hint Resolve same_GetCount : same_db.
Lemma same_String_GetLength r r' :
  same r r' -> String_GetLength sdk c r = String_GetLength sdk c r'.
Proof. intros H. unfold String_GetLength. same_eq. Qed.
Lemma same_IsCompressed r r' : same r r' -> IsCompressed sdk c r = IsCompressed sdk c r'.
Proof. intros H. unfold IsCompressed. same_eq. Qed.
Lemma same_GetValue r r' n : same r r' -> GetValue c r n = GetValue c r' n.
Proof. intros H. unfold GetValue. same_eq. Qed.
#[local] Hint Resolve same_String_GetLength same_IsCompressed same_GetValue : same_db.
Lemma same_GetUtfLength r r' : same r r' -> GetUtfLength sdk c r = GetUtfLength sdk c r'.
Proof. intros H. unfold GetUtfLength. same_eq. Qed.
#[local] Hint Resolve same_GetUtfLength : same_db.
Lemma same_ToModifiedUtf8 r r' : same r r' -> ToModifiedUtf8 sdk c r = ToModifiedUtf8 sdk c r'.
Proof. intros H. unfold ToModifiedUtf8. same_eq. Qed.
#[local] Hint Resolve same_ToModifiedUtf8 : same_db.

(** * Dex files *)

Lemma same_dex_field g r r' : same r r' -> dex_field sdk c r g = dex_field sdk c r' g.
Proof. intros H. by apply same_vword. Qed.
#[local] Hint Resolve same_dex_field : same_db.
Lemma same_DataBegin r r' : same r r' -> result_rel same (DataBegin sdk c r) (DataBegin sdk c r').
Proof. intros H. apply same_quick_cache; auto with same_db. Qed.
#[local] Hint Resolve same_DataBegin : same_db.
Lemma same_id_at g size idx r r' :
  same r r' -> result_rel same (id_at sdk c r g size idx) (id_at sdk c r' g size idx).
Proof. intros H. unfold id_at, id_table. same_tac. Qed.
Lemma same_GetTypeId idx r r' :
  same r r' -> result_rel same (GetTypeId sdk c r idx) (GetTypeId sdk c r' idx).
Proof. apply same_id_at. Qed.
Lemma same_GetStringId idx r r' :
  same r r' -> result_rel same (GetStringId sdk c r idx) (GetStringId sdk c r' idx).
Proof. apply same_id_at. Qed.
Lemma same_GetFieldId idx r r' :
  same r r' -> result_rel same (GetFieldId sdk c r idx) (GetFieldId sdk c r' idx).
Proof. apply same_id_at. Qed.
#[local] Hint Resolve same_GetTypeId same_GetStringId same_GetFieldId : same_db.
Lemma same_with_valid {A} (id id' : MemoryRef) (def : A) g g' :
  same id id' -> (forall i i', same i i' -> g i = g' i') ->
  with_valid c id def g = with_valid c id' def g'.
Proof. intros H Hg. unfold with_valid. same_eq. Qed.
Lemma same_StringData r r' id id' def :
  same r r' -> same id id' ->
  GetStringDataAndUtf16Length sdk c r id def = GetStringDataAndUtf16Length sdk c r' id' def.
Proof. intros H Hi. apply same_with_valid; [done|]. intros i i' Hii. same_eq. Qed.
#[local] Hint Resolve same_StringData : same_db.
Lemma same_StringDataByIdx r r' idx def :
  same r r' -> StringDataByIdx sdk c r idx def = StringDataByIdx sdk c r' idx def.
Proof. intros H. unfold StringDataByIdx, StringDataAndUtf16LengthByIdx. same_eq. Qed.
#[local] Hint Resolve same_StringDataByIdx : same_db.
Lemma same_GetTypeDescriptor r r' id id' def :
  same r r' -> same id id' ->
  GetTypeDescriptor sdk c r id def = GetTypeDescriptor sdk c r' id' def.
Proof. intros H Hi. apply same_with_valid; [done|]. intros i i' Hii. same_eq. Qed.
Lemma same_GetFieldName r r' id id' def :
  same r r' -> same id id' -> GetFieldName sdk c r id def = GetFieldName sdk c r' id' def.
Proof. intros H Hi. apply same_with_valid; [done|]. intros i i' Hii. same_eq. Qed.
Lemma same_Class_GetDexFile k k' :
  same k k' -> result_rel same (Class_GetDexFile sdk c k) (Class_GetDexFile sdk c k').
Proof. intros H. unfold Class_GetDexFile, GetDexCache, DexCache_GetDexFile. same_tac. Qed.
#[local] Hint Resolve same_GetTypeDescriptor same_GetFieldName same_Class_GetDexFile : same_db.

(** * Descriptors of classes, names of fields *)

Definition same_snd {A} (x y : A * MemoryRef) : Prop := fst x = fst y /\ same (snd x) (snd y).
Lemma same_component_loop fuel : forall k k' dim,
  same k k' ->
  result_rel same_snd (component_loop sdk c fuel k dim) (component_loop sdk c fuel k' dim).
Proof.
  induction fuel as [|n IH]; intros k k' dim H; cbn [component_loop]; [constructor|].
  rewrite (same_vaddr c k k' H). destruct (vaddr k' =? 0); [by constructor|].
  eapply rel_rbind; [by apply rel_eq, same_IsArrayClass|]. intros a ? <-.
  destruct a; [|by constructor].
  eapply rel_rbind; [by apply same_GetComponentType|]. auto.
Qed.
Lemma same_GetDescriptor fuel k k' :
  same k k' -> GetDescriptor sdk c fuel k = GetDescriptor sdk c fuel k'.
Proof.
  intros H. apply eq_rel. unfold GetDescriptor.
  eapply rel_rbind; [by apply same_component_loop|]. intros [d x] [d' x'] [E Hx].
  cbn in E, Hx. subst d'. same_tac.
Qed.
Lemma same_PrettyDescriptor fuel k k' :
  same k k' -> PrettyDescriptor sdk c fuel k = PrettyDescriptor sdk c fuel k'.
Proof. intros H. unfold PrettyDescriptor. by rewrite (same_GetDescriptor fuel k k' H). Qed.
#[local] Hint Resolve same_PrettyDescriptor : same_db.

Lemma same_af_word g f f' : same f f' -> af_word c g f = af_word c g f'.
Proof. intros H. by apply same_word. Qed.
#[local] Hint Resolve same_af_word : same_db.
Lemma same_DeclaringClass f f' :
  same f f' -> result_rel same (Field_GetDeclaringClass c f) (Field_GetDeclaringClass c f').
Proof. intros H. unfold Field_GetDeclaringClass. auto with same_db. Qed.
#[local] Hint Resolve same_DeclaringClass : same_db.
Lemma same_Field_GetName f f' def :
  same f f' -> Field_GetName sdk c f def = Field_GetName sdk c f' def.
Proof. intros H. unfold Field_GetName, IsProxyField, Field_GetDexFile. same_eq. Qed.
Lemma same_field_value n f f' r r' :
  same f f' -> same r r' -> field_value c n f r = field_value c n f' r'.
Proof. intros Hf H. unfold field_value, af_offset. same_eq. Qed.
#[local] Hint Resolve same_Field_GetName same_field_value : same_db.
Lemma same_signed_field n f f' r r' :
  same f f' -> same r r' -> signed_field c n f r = signed_field c n f' r'.
Proof. intros Hf H. unfold signed_field. same_eq. Qed.
End Readers.

#[export] Hint Resolve same_GetClass same_lpa_size same_NumFields
  same_GetFields same_GetIFields same_GetSFields same_class_word same_class_quad same_class_ref
  same_has_flags same_test same_IsArrayClass same_IsProxyClass same_GetPrimitiveType
  same_IsPrimitive same_GetDexTypeIndex same_GetSuperClass same_GetName same_GetComponentType
  same_IsClass same_GetCount same_String_GetLength same_IsCompressed same_GetValue
  same_GetUtfLength same_ToModifiedUtf8 same_dex_field same_DataBegin same_GetTypeId
  same_GetStringId same_GetFieldId same_StringData same_StringDataByIdx same_GetTypeDescriptor
  same_GetFieldName same_Class_GetDexFile same_GetDescriptor same_PrettyDescriptor same_af_word
  same_DeclaringClass same_Field_GetName same_field_value same_signed_field : same_db.
