(* ===== verification/JavaObjects.v ===== *)
(** Reading Java objects by the names of their fields: android/jdk/java/lang, the maps of
    android/sdk/android/util, ContextImpl, and the native side of binders
    (android/sdk/native).

    A wrapper of the code ([java::lang::Object] and its subclasses) is the object it holds,
    a [MemoryRef].  Names are lists of bytes; the values of [float] and [double] fields are
    their bits.  [cf] bounds the dimensions of an array class, [n] the superclasses. *)

From Stdlib Require Import ZArith Lia Bool String.
From stdpp Require Import base list gmap numbers.
From S2P Require Import Prelude Words Host Blocks Notes CoreApi Segments AddressSpace MemRef Elf.
From S2P Require Import Text Mirrors Cxx Dex RuntimeTables Methods.
Open Scope Z_scope.

(** [IfTable::kMax]. *)
Definition kMax : Z := 2.

Section Objects.
Context {M : Machine} (sdk : Z) (c : CoreApi) (cf : nat).

Definition isNull (obj : MemoryRef) : bool := vaddr obj =? 0.

(** * Classes and interfaces *)

(** [k.PrettyDescriptor() == classname]. *)
Definition class_named (classname : list Z) (k : MemoryRef) : result bool :=
  let! d := PrettyDescriptor sdk c cf k in Ok (bool_decide (d = classname)).
Definition GetIfTable (k : MemoryRef) : result MemoryRef :=
  quick_cache c (class_word sdk c k iftable_) k.
Definition IfTable_Count (t : MemoryRef) : result Z :=
  let! len := GetLength c t in Ok (Z.quot len kMax).
Definition GetInterface (t : MemoryRef) (i : Z) : result Z :=
  let! '(_, p) := Real c (ref_from c (GetRawData t 4 (i * kMax)) t) in
  host_word (host_mem c) p 4.

(** The loop over a class and its superclasses. *)
Fixpoint super_named (n : nat) (classname : list Z) (super : MemoryRef) : result bool :=
  match n with
  | O => OutOfFuel
  | S n =>
      let! named := class_named classname super in
      if named : bool then Ok true
      else
        let! super := GetSuperClass sdk c super in
        if nz (vaddr super) then super_named n classname super else Ok false
  end.
(** The loop over [count] interfaces from number [i] on. *)
Fixpoint interface_named (count : nat) (i : Z) (classname : list Z) (t : MemoryRef)
    : result bool :=
  match count with
  | O => Ok false
  | S count =>
      let! v := GetInterface t i in
      let! named := class_named classname (Object v) in
      if named : bool then Ok true else interface_named count (i + 1) classname t
  end.
Definition iftable_named (classname : list Z) (t : MemoryRef) : result bool :=
  if isNull t then Ok false
  else
    let! count := IfTable_Count t in interface_named (Z.to_nat count) 0 classname t.

(** [Object::instanceof(classname)] and [Object::mirror_instanceof(classname)], which looks
    at the object itself when it is a class. *)
Definition instanceof (n : nat) (obj : MemoryRef) (classname : list Z) : result bool :=
  if isNull obj then Ok false
  else
    let! k := GetClass c obj in
    let! found := super_named n classname k in
    if found : bool then Ok true
    else let! t := GetIfTable k in iftable_named classname t.
Definition mirror_instanceof (n : nat) (obj : MemoryRef) (classname : list Z) : result bool :=
  if isNull obj then Ok false
  else
    let current := Object (vaddr obj) in
    let! is_class := IsClass c obj in
    let! super := (if is_class : bool then Ok current else GetClass c obj) in
    let! found := super_named n classname super in
    if found : bool then Ok true
    else
      let! t := GetIfTable current in
      let! t := (if is_class : bool then Ok t
                 else let! k := GetClass c obj in GetIfTable k) in
      iftable_named classname t.

(** [Class::getSimpleName()] and [Object::toString()]. *)
Definition getSimpleName (k : MemoryRef) : result (list Z) := PrettyDescriptor sdk c cf k.
Definition Object_toString (obj : MemoryRef) : result (list Z) :=
  if isNull obj then Ok (chars "null")
  else
    let! k := GetClass c obj in
    let! name := getSimpleName k in Ok (name ++ chars "@" ++ ToHex (u32 (vaddr obj))).

(** * Fields by name *)

(** A walk over the fields of a class moves one [ArtField], which keeps the declaring class and
    the dex file it found first. *)
Record FieldCache := { fc_class : MemoryRef; fc_dex : MemoryRef }.
Definition no_cache : FieldCache := {| fc_class := ref_at 0; fc_dex := ref_at 0 |}.
Definition cached (r : MemoryRef) (m : result MemoryRef) : result MemoryRef :=
  if nz (vaddr r) then Ok r else m.
(** [ArtField::GetName()] of that field. *)
Definition walk_GetName (f : MemoryRef) (fc : FieldCache) : result (FieldCache * list Z) :=
  let! k := cached (fc_class fc) (Field_GetDeclaringClass c f) in
  if negb (nz (vaddr k)) then Ok (fc, chars "<invalid>")
  else
    let! field_index := af_word c af_field_dex_idx_ f in
    let! proxy := IsProxyClass sdk c k in
    if proxy : bool then
      Ok ({| fc_class := k; fc_dex := fc_dex fc |},
          chars (if field_index =? 0 then "interfaces" else "throws"))
    else
      let! dex := cached (fc_dex fc) (Class_GetDexFile sdk c k) in
      let! id := GetFieldId sdk c dex field_index in
      let! name := GetFieldName sdk c dex id (chars "<invalid-field>") in
      Ok ({| fc_class := k; fc_dex := dex |}, name).

(** The callback of the macros: the value of the field with the name stops the walk.  The
    state is the value and the cache of the field. *)
Definition named_field (read : MemoryRef -> result Z) (field : list Z) (f : MemoryRef)
    : prog (Z * FieldCache) bool :=
  let$ name := on_part snd (fun s fc => (fst s, fc)) (walk_GetName f) in
  if bool_decide (name = field) then
    let$ v := lift (read f) in let$ _ := modify (fun s => (v, snd s)) in pret true
  else pret false.
Definition fresh_field : prog (Z * FieldCache) unit := modify (fun s => (fst s, no_cache)).
(** [classname && super.PrettyDescriptor() != classname]. *)
Definition other_class (classname : option (list Z)) (super : MemoryRef) : result bool :=
  match classname with
  | Some name => let! named := class_named name super in Ok (negb named)
  | None => Ok false
  end.
Fixpoint super_fields (n : nat) (read : MemoryRef -> result Z) (field : list Z)
    (classname : option (list Z)) (super : MemoryRef) : prog (Z * FieldCache) unit :=
  match n with
  | O => lift OutOfFuel
  | S n =>
      let$ skip := lift (other_class classname super) in
      let$ _ := (if skip : bool then pret tt
                 else let$ _ := fresh_field in
                      ForeachInstanceField sdk c super (named_field read field)) in
      let$ super := lift (GetSuperClass sdk c super) in
      if nz (vaddr super) then super_fields n read field classname super else pret tt
  end.
(** [GET_INSTANCE_FIELD]: the value is a local variable of the function. *)
Definition instance_field (n : nat) (get_value : MemoryRef -> MemoryRef -> result Z)
    (obj : MemoryRef) (field : list Z) (classname : option (list Z)) : result Z :=
  let! super := GetClass c obj in
  let! '(value, _) :=
    snd ((let$ _ := super_fields n (fun f => get_value f obj) field classname super in get)
           (0, no_cache)) in Ok value.
(** [GET_STATIC_FIELD]. *)
Definition static_field (get_value : MemoryRef -> MemoryRef -> result Z) (obj : MemoryRef)
    (field : list Z) : result Z :=
  let! is_class := IsClass c obj in
  let! clazz := (if is_class : bool then Ok obj else GetClass c obj) in
  let! '(value, _) :=
    snd ((let$ _ := ForeachStaticField sdk c clazz (named_field (fun f => get_value f clazz) field)
          in get) (0, no_cache)) in Ok value.

Definition GetBooleanField n := instance_field n (Field_GetBoolean c).
Definition GetByteField n := instance_field n (Field_GetByte c).
Definition GetCharField n := instance_field n (Field_GetChar c).
Definition GetShortField n := instance_field n (Field_GetShort c).
Definition GetObjectField n := instance_field n (Field_GetObject c).
Definition GetIntField n := instance_field n (Field_GetInt c).
Definition GetLongField n := instance_field n (Field_GetLong c).
Definition GetFloatField n := instance_field n (Field_Get32 c).
Definition GetDoubleField n := instance_field n (Field_Get64 c).
Definition GetStaticBooleanField := static_field (Field_GetBoolean c).
Definition GetStaticByteField := static_field (Field_GetByte c).
Definition GetStaticCharField := static_field (Field_GetChar c).
Definition GetStaticShortField := static_field (Field_GetShort c).
Definition GetStaticObjectField := static_field (Field_GetObject c).
Definition GetStaticIntField := static_field (Field_GetInt c).
Definition GetStaticLongField := static_field (Field_GetLong c).
Definition GetStaticFloatField := static_field (Field_Get32 c).
Definition GetStaticDoubleField := static_field (Field_Get64 c).

(** [DEFINE_OBJECT_FIELD_CACHE]: the object of a field, with the block of its owner. *)
Definition object_field (n : nat) (name : string) (obj : MemoryRef) : result MemoryRef :=
  let! v := GetObjectField n obj (chars name) None in Ok (Object_from c v obj).

(** * Arrays, strings and the classes built on them *)

(** [ObjectArray::operator[](idx)]. *)
Definition ObjectArray_at (arr : MemoryRef) (idx : Z) : result MemoryRef :=
  let! '(_, p) := Real c (ref_from c (GetRawData arr 4 idx) arr) in
  let! v := host_word (host_mem c) p 4 in Ok (Object_from c v arr).
Definition String_toString (s : MemoryRef) : result (list Z) :=
  if nz (vaddr s) then ToModifiedUtf8 sdk c s else Ok (chars "null").

(** The place of a frame, from the name of its file and its line. *)
Definition source_place (file : option (list Z)) (lineNumber : Z) : list Z :=
  if lineNumber =? -2 then chars "(Native Method)"
  else
    match file with
    | Some name => if 0 <=? lineNumber
                   then chars "(" ++ name ++ chars ":" ++ to_string lineNumber ++ chars ")"
                   else chars "(" ++ name ++ chars ")"
    | None => if 0 <=? lineNumber
              then chars "(Unknown Source:" ++ to_string lineNumber ++ chars ")"
              else chars "(Unknown Source)"
    end.
Definition StackTraceElement_toString (n : nat) (e : MemoryRef) : result (list Z) :=
  let! declaringClass := object_field n "declaringClass" e in
  let! methodName := object_field n "methodName" e in
  let! fileName := object_field n "fileName" e in
  let! lineNumber := GetIntField n e (chars "lineNumber") None in
  let! cls := String_toString declaringClass in
  let! method := String_toString methodName in
  let! file := (if (lineNumber =? -2) || isNull fileName then Ok None
                else let! s := String_toString fileName in Ok (Some s)) in
  Ok (cls ++ chars "." ++ method ++ source_place file lineNumber).

(** [BaseArrayMap] and [ArrayMap]: keys and values alternate in one array. *)
Definition ArrayMap_size (n : nat) (m : MemoryRef) : result Z :=
  GetIntField n m (chars "mSize") None.
Definition getArray (n : nat) : MemoryRef -> result MemoryRef := object_field n "mArray".
Definition keyAt (n : nat) (m : MemoryRef) (idx : Z) : result MemoryRef :=
  let! a := getArray n m in ObjectArray_at a (i32 (Z.shiftl idx 1)).
Definition valueAt (n : nat) (m : MemoryRef) (idx : Z) : result MemoryRef :=
  let! a := getArray n m in ObjectArray_at a (i32 (Z.shiftl idx 1 + 1)).
(** The loop of [get(key)] from entry [idx] on; [k] is what is left of the entries. *)
Fixpoint get_from (k : nat) (n : nat) (m key : MemoryRef) (idx : Z) : result MemoryRef :=
  match k with
  | O => Ok (Object 0)
  | S k =>
      let! at_idx := keyAt n m idx in
      if vaddr at_idx =? vaddr key then valueAt n m idx else get_from k n m key (idx + 1)
  end.
Definition ArrayMap_get (n : nat) (m key : MemoryRef) : result MemoryRef :=
  let! size := ArrayMap_size n m in get_from (Z.to_nat size) n m key 0.
(** The text of a key or a value. *)
Definition entry_text (n : nat) (obj : MemoryRef) : result (list Z) :=
  let! is_string := instanceof n obj (chars "java.lang.String") in
  if is_string : bool then String_toString obj else Object_toString obj.
Fixpoint entries_text (k : nat) (n : nat) (m : MemoryRef) (idx : Z) (sb : list Z)
    : result (list Z) :=
  match k with
  | O => Ok sb
  | S k =>
      let! key := keyAt n m idx in
      let! value := valueAt n m idx in
      let! kt := entry_text n key in
      let! vt := entry_text n value in
      entries_text k n m (idx + 1)
        (sb ++ (if 0 <? idx then chars ", " else []) ++ kt ++ chars "=" ++ vt)
  end.
Definition ArrayMap_toString (n : nat) (m : MemoryRef) : result (list Z) :=
  let! size := ArrayMap_size n m in
  let! sb := entries_text (Z.to_nat size) n m 0 (chars "{") in Ok (sb ++ chars "}").

(** * Services of a context *)

(** The loop of [ContextImpl::getSystemService(serviceName)] over the fetchers. *)
Fixpoint fetcher_loop (k : nat) (n : nat) (this fetchers : MemoryRef) (serviceName : list Z)
    (i : Z) : result MemoryRef :=
  match k with
  | O => Ok (Object 0)
  | S k =>
      let! key := keyAt n fetchers i in
      let! name := String_toString (Object (vaddr key)) in
      if bool_decide (name = serviceName) then
        let! fetcher := valueAt n fetchers i in
        let! cached := instanceof n fetcher
          (chars "android.app.SystemServiceRegistry$CachedServiceFetcher") in
        if cached : bool then
          let! mCacheIndex := GetIntField n fetcher (chars "mCacheIndex") None in
          let! mServiceCache := object_field n "mServiceCache" this in
          let! len := GetLength c mServiceCache in
          if mCacheIndex <? len then ObjectArray_at mServiceCache mCacheIndex
          else Ok (Object 0)
        else Ok (Object 0)
      else fetcher_loop k n this fetchers serviceName (i + 1)
  end.
(** [registry] is the class [android.app.SystemServiceRegistry] found by [forName]. *)
Definition getSystemService (n : nat) (this registry : MemoryRef) (serviceName : list Z)
    : result MemoryRef :=
  let! v := GetStaticObjectField registry (chars "SYSTEM_SERVICE_FETCHERS") in
  let fetchers := Object v in
  let! size := ArrayMap_size n fetchers in
  fetcher_loop (Z.to_nat size) n this fetchers serviceName 0.
End Objects.

(** * The native objects of binders *)

Record BpBinder_OffsetTable := { bp_mAlive : Z; bp_mObjects : Z; bp_mDescriptorCache : Z;
  bp_mTrackedUid : Z }.
Record BinderProxyNativeData_OffsetTable := { bpn_mObject : Z; bpn_mOrgue : Z;
  bpn_mFrozenStateChangeCallbackList : Z }.

Section Binders.
Context {M : Machine} (sdk : Z) (c : CoreApi).

Definition bp_binder (alive objects cache uid : Z) : BpBinder_OffsetTable :=
  {| bp_mAlive := alive; bp_mObjects := objects; bp_mDescriptorCache := cache;
     bp_mTrackedUid := uid |}.
Definition BpBinder_Init30 : BpBinder_OffsetTable :=
  if bits =? 64 then bp_binder 56 72 128 128 else bp_binder 16 28 52 56.
Definition BpBinder_Init31 : BpBinder_OffsetTable :=
  if bits =? 64 then bp_binder 88 104 144 152 else bp_binder 28 40 60 64.
Definition BpBinder_Init33 : BpBinder_OffsetTable :=
  if bits =? 64 then bp_binder 80 96 120 128 else bp_binder 36 48 60 64.
Definition BpBinder_Init34 : BpBinder_OffsetTable :=
  if bits =? 64 then bp_binder 80 96 120 128 else bp_binder 36 48 60 64.
Definition BpBinder_Init35 : BpBinder_OffsetTable :=
  if bits =? 64 then bp_binder 80 96 120 128 else bp_binder 36 48 60 64.
Definition BpBinder_Init36 : BpBinder_OffsetTable :=
  if bits =? 64 then bp_binder 80 96 120 128 else bp_binder 36 48 60 64.
Definition BpBinder_table : BpBinder_OffsetTable :=
  listen sdk (bp_binder 0 0 0 0)
    [(Sdk.R, BpBinder_Init30); (Sdk.S, BpBinder_Init31); (Sdk.T, BpBinder_Init33);
     (Sdk.U, BpBinder_Init34); (Sdk.V, BpBinder_Init35); (Sdk.W, BpBinder_Init36)].
Definition mAlive (b : MemoryRef) : result Z :=
  let! v := word c b (bp_mAlive BpBinder_table) 4 in Ok (i32 v).
Definition mObjects (b : MemoryRef) : Z := u64 (vaddr b + bp_mObjects BpBinder_table).
Definition mDescriptorCache (b : MemoryRef) : result Z :=
  vword c b (bp_mDescriptorCache BpBinder_table).
Definition mTrackedUid (b : MemoryRef) : result Z :=
  let! v := word c b (bp_mTrackedUid BpBinder_table) 4 in Ok (i32 v).

Definition bp_native (object orgue frozen : Z) : BinderProxyNativeData_OffsetTable :=
  {| bpn_mObject := object; bpn_mOrgue := orgue; bpn_mFrozenStateChangeCallbackList := frozen |}.
Definition BinderProxyNativeData_Init28 : BinderProxyNativeData_OffsetTable :=
  if bits =? 64 then bp_native 0 8 0 else bp_native 0 4 0.
Definition BinderProxyNativeData_Init36 : BinderProxyNativeData_OffsetTable :=
  if bits =? 64 then bp_native 0 8 16 else bp_native 0 4 8.
Definition BinderProxyNativeData_table : BinderProxyNativeData_OffsetTable :=
  listen sdk (bp_native 0 0 0)
    [(Sdk.P, BinderProxyNativeData_Init28); (Sdk.W, BinderProxyNativeData_Init36)].
Definition bpn_word (f : BinderProxyNativeData_OffsetTable -> Z) (d : MemoryRef) : result Z :=
  vword c d (f BinderProxyNativeData_table).
Definition mObject := bpn_word bpn_mObject.
Definition mOrgue := bpn_word bpn_mOrgue.
Definition mFrozenStateChangeCallbackList := bpn_word bpn_mFrozenStateChangeCallbackList.
End Binders.
