(* ===== verification/JavaObjectsProofs.v ===== *)
(** Theorems about [JavaObjects]: reading an object does not depend on the segments its
    references hold; [instanceof] and the search of a field by name are what they mean over
    the superclasses, the interfaces and the fields of a class. *)

From Stdlib Require Import ZArith Lia Bool String.
From stdpp Require Import base list gmap numbers.
From S2P Require Import Prelude Words Host Blocks Notes CoreApi Segments AddressSpace MemRef Elf.
From S2P Require Import Text Mirrors Cxx Reading Dex RuntimeTables Methods RefCache JavaObjects.
Open Scope Z_scope.

Section Objects.
Context {M : Machine} (sdk : Z) (c : CoreApi) (cf : nat) (Hc : space_ok c)
  (Hnull : linear_find c 0 (mQuickLoad c) = None).
Implicit Types r k f : MemoryRef.
Abbreviation same := (same_ref c).

(** * The cache of an object's reference *)

Lemma same_class_named name k k' :
  same k k' -> class_named sdk c cf name k = class_named sdk c cf name k'.
Proof. intros H. unfold class_named. same_eq. Qed.
Lemma same_GetIfTable k k' :
  same k k' -> result_rel same (GetIfTable sdk c k) (GetIfTable sdk c k').
Proof. intros H. apply same_quick_cache; auto with same_db. Qed.
Lemma same_GetInterface i r r' : same r r' -> GetInterface c r i = GetInterface c r' i.
Proof. intros H. unfold GetInterface, GetRawData. same_eq. Qed.
#[local] Hint Resolve same_class_named same_GetIfTable same_GetInterface : same_db.
Lemma same_interface_named name count : forall i r r',
  same r r' ->
  interface_named sdk c cf count i name r = interface_named sdk c cf count i name r'.
Proof.
  induction count as [|n IH]; intros i r r' H; cbn [interface_named]; [done|]. same_eq.
Qed.
#[local] Hint Resolve same_interface_named : same_db.
Lemma same_GetLength r r' : same r r' -> GetLength c r = GetLength c r'.
Proof. intros H. unfold GetLength. same_eq. Qed.
#[local] Hint Resolve same_GetLength : same_db.
Lemma same_iftable_named name r r' :
  same r r' -> iftable_named sdk c cf name r = iftable_named sdk c cf name r'.
Proof. intros H. unfold iftable_named, isNull, IfTable_Count. same_eq. Qed.
#[local] Hint Resolve same_iftable_named : same_db.
Lemma same_super_named name n : forall k k',
  same k k' -> super_named sdk c cf n name k = super_named sdk c cf n name k'.
Proof.
  induction n as [|n IH]; intros k k' H; cbn [super_named]; [done|]. same_eq.
Qed.
#[local] Hint Resolve same_super_named : same_db.
Lemma same_instanceof n name r r' :
  same r r' -> instanceof sdk c cf n r name = instanceof sdk c cf n r' name.
Proof. intros H. unfold instanceof, isNull. same_eq. Qed.
#[local] Hint Resolve same_instanceof : same_db.

(** ** Fields *)

Lemma same_IsStatic f f' : same f f' -> Field_IsStatic c f = Field_IsStatic c f'.
Proof. intros H. unfold Field_IsStatic. auto with same_db. Qed.
#[local] Hint Resolve same_IsStatic : same_db.
Lemma af_word_readable g f v : settled c f -> af_word c g f = Ok v -> readable c f.
Proof. apply word_readable; done. Qed.
Lemma IsStatic_readable f b : settled c f -> Field_IsStatic c f = Ok b -> readable c f.
Proof.
  intros Hf H. unfold Field_IsStatic, has_flags in H. res_inv. by eapply af_word_readable.
Qed.
Lemma walk_GetName_readable f fc x :
  settled c f -> walk_GetName sdk c f fc = Ok x -> readable c f.
Proof.
  intros Hf H. unfold walk_GetName, cached in H. destruct (nz (vaddr (fc_class fc))) eqn:E.
  - cbn [rbind] in H. rewrite E in H. cbn [negb] in H. res_inv. by eapply af_word_readable.
  - unfold Field_GetDeclaringClass, quick_cache in H. res_inv. by eapply af_word_readable.
Qed.

Lemma same_count_fields n static : forall f f' count,
  same f f' -> count_fields c n static f count = count_fields c n static f' count.
Proof.
  induction n as [|n IH]; intros f f' count H; cbn [count_fields]; [done|]. apply eq_rel.
  rewrite <- (same_IsStatic f f' H).
  destruct (Field_IsStatic c f) as [b| | |] eqn:E; cbn; try constructor.
  pose proof (IsStatic_readable f b ltac:(apply H) E) as Hr.
  eapply rel_rbind; [by apply same_MovePtr|]. intros m m' Hm. by apply rel_eq, IH.
Qed.

Section Loops.
Context {S : Type} (RS : S -> S -> Prop) (fn fn' : MemoryRef -> prog S bool)
  (Hfn : forall f f', same f f' -> prog_rel RS eq (fn f) (fn' f'))
  (Hread : forall f s s' b, settled c f -> fn f s = (s', Ok b) -> readable c f).

Lemma same_field_loop (wanted : MemoryRef -> result bool) n : forall f f',
  (forall f f', same f f' -> wanted f = wanted f') ->
  (forall f, settled c f -> wanted f = Ok false -> readable c f) ->
  same f f' -> prog_rel RS eq (field_loop c n wanted fn f) (field_loop c n wanted fn' f').
Proof.
  induction n as [|n IH]; intros f f' Hw Hwr H; cbn [field_loop]; [by apply prel_pret|].
  rewrite <- (Hw f f' H).
  eapply prel_pbind_dep; [by apply prel_lift, rel_eq|]. intros s0 s1 w ? Ew <-. cbn in Ew.
  eapply (prel_pbind_dep RS eq).
  { destruct w; [by apply Hfn|by apply prel_pret]. }
  intros s2 s3 b ? Eb <-. destruct b; [by apply prel_pret|].
  assert (Hr : readable c f).
  { destruct w; [eapply Hread; [apply H|done]|]. apply Hwr; [apply H|]. by injection Ew. }
  eapply prel_pbind; [by apply prel_lift, same_MovePtr|]. intros. by apply IH.
Qed.

Lemma same_foreach_field static number array k k' :
  (forall k k', same k k' -> number k = number k') ->
  (forall k k', same k k' -> array k = array k') ->
  same k k' ->
  prog_rel RS eq (foreach_field sdk c static number array k fn)
                 (foreach_field sdk c static number array k' fn').
Proof.
  intros Hn Ha H. unfold foreach_field. rewrite <- (Hn k k' H), <- (Ha k k' H).
  rewrite <- (same_NumFields sdk c Hc Hnull k k' H), <- (same_GetFields sdk c Hc Hnull k k' H).
  eapply prel_pbind; [by apply prel_lift, rel_eq|]. intros size ? <-.
  destruct (nz size); [|by apply prel_pret].
  eapply prel_pbind; [by apply prel_lift, rel_eq|]. intros fields ? <-.
  apply same_field_loop.
  - intros f f' Hf. by rewrite (same_IsStatic f f' Hf).
  - intros f Hf. destruct (Sdk.W <=? sdk); [|done]. intros E. res_inv.
    by eapply IsStatic_readable.
  - by apply same_from.
Qed.
End Loops.

Lemma same_fields_counted static array number k k' :
  same k k' ->
  fields_counted sdk c static array number k = fields_counted sdk c static array number k'.
Proof.
  intros H. unfold fields_counted.
  rewrite <- (same_NumFields sdk c Hc Hnull k k' H), <- (same_GetFields sdk c Hc Hnull k k' H).
  same_eq. by apply rel_eq, same_count_fields, same_from.
Qed.

(** ** Values *)

Definition same_cache (fc fc' : FieldCache) : Prop :=
  same (fc_class fc) (fc_class fc') /\ same (fc_dex fc) (fc_dex fc').
Definition same_state (s s' : Z * FieldCache) : Prop :=
  fst s = fst s' /\ same_cache (snd s) (snd s').

Lemma same_cached r r' m m' :
  same r r' -> result_rel same m m' -> result_rel same (cached r m) (cached r' m').
Proof.
  intros H Hm. unfold cached. rewrite (same_vaddr _ r r' H). by destruct (nz _); [constructor|].
Qed.
Lemma same_walk_GetName f f' fc fc' :
  same f f' -> same_cache fc fc' ->
  result_rel (fun x y => same_cache (fst x) (fst y) /\ snd x = snd y)
    (walk_GetName sdk c f fc) (walk_GetName sdk c f' fc').
Proof.
  intros H [Hk Hd]. unfold walk_GetName.
  eapply rel_rbind; [apply same_cached; [done|by apply (same_DeclaringClass c Hc Hnull)]|].
  intros k k' Hkk. rewrite (same_vaddr _ k k' Hkk).
  destruct (nz (vaddr k')); cbn [negb]; [|by constructor].
  rewrite (same_af_word c Hc Hnull _ f f' H). eapply rel_rbind; [by apply rel_eq|]. intros i ? <-.
  rewrite (same_IsProxyClass sdk c Hc Hnull k k' Hkk).
  eapply rel_rbind; [by apply rel_eq|]. intros proxy ? <-. destruct proxy; [by constructor|].
  eapply rel_rbind; [apply same_cached; [done|by apply (same_Class_GetDexFile sdk c Hc Hnull)]|].
  intros d d' Hdd.
  eapply rel_rbind; [by apply (same_GetFieldId sdk c Hc Hnull)|]. intros id id' Hid.
  rewrite (same_GetFieldName sdk c Hc Hnull d d' id id' _ Hdd Hid).
  eapply rel_rbind; [by apply rel_eq|]. intros name ? <-. by constructor.
Qed.

(** [read] takes the value of a field from the object. *)
Lemma same_named_field read read' field f f' :
  (forall f f', same f f' -> read f = read' f') -> same f f' ->
  prog_rel same_state eq (named_field sdk c read field f) (named_field sdk c read' field f').
Proof.
  intros Hv H. unfold named_field. eapply (prel_pbind same_state eq).
  { intros [v fc] [v' fc'] [E Hfc]. cbn in E, Hfc. subst v'. unfold on_part. cbn [fst snd].
    destruct (same_walk_GetName f f' fc fc' H Hfc) as [[t a] [t' a'] [Ht Ha]| | |];
      cbn in *; (split; [done|by constructor]). }
  intros name ? <-. destruct (bool_decide _); [|by apply prel_pret].
  rewrite <- (Hv f f' H).
  eapply prel_pbind; [by apply prel_lift, rel_eq|]. intros v ? <-.
  eapply (prel_pbind same_state eq); [|intros; by apply prel_pret].
  apply prel_modify. intros s s' [_ Hs]. by split.
Qed.
Lemma named_field_readable read field f s s' b :
  settled c f -> named_field sdk c read field f s = (s', Ok b) -> readable c f.
Proof.
  intros Hf H. unfold named_field in H. apply pbind_Ok_inv in H as (s1 & name & H & _).
  unfold on_part in H. destruct (walk_GetName sdk c f (snd s)) as [x| | |] eqn:E; try done.
  by eapply walk_GetName_readable.
Qed.
Lemma same_super_fields read read' field classname n : forall k k',
  (forall f f', same f f' -> read f = read' f') -> same k k' ->
  prog_rel same_state eq (super_fields sdk c cf n read field classname k)
                         (super_fields sdk c cf n read' field classname k').
Proof.
  induction n as [|n IH]; intros k k' Hv H; cbn [super_fields]; [apply prel_lift; constructor|].
  assert (Eo : other_class sdk c cf classname k = other_class sdk c cf classname k').
  { destruct classname; cbn; [|done]. same_eq. }
  rewrite <- Eo. eapply prel_pbind; [by apply prel_lift, rel_eq|]. intros skip ? <-.
  eapply (prel_pbind same_state eq).
  { destruct skip; [by apply prel_pret|].
    eapply (prel_pbind same_state eq); [by apply prel_modify; intros s s' []|].
    intros _ _ _. apply same_foreach_field; [| | | |done].
    - intros. by apply same_named_field.
    - intros. by eapply named_field_readable.
    - intros. by apply same_fields_counted.
    - intros. by apply (same_GetIFields sdk c Hc Hnull). }
  intros _ _ _. eapply prel_pbind; [by apply prel_lift, (same_GetSuperClass sdk c Hc Hnull)|].
  intros s s' Hs. rewrite (same_vaddr _ s s' Hs). destruct (nz (vaddr s')); [|by apply prel_pret].
  by apply IH.
Qed.

Lemma same_instance_field get_value n r r' field classname :
  (forall f f' r r', same f f' -> same r r' -> get_value f r = get_value f' r') -> same r r' ->
  instance_field sdk c cf n get_value r field classname =
    instance_field sdk c cf n get_value r' field classname.
Proof.
  intros Hv H. apply eq_rel. unfold instance_field.
  eapply rel_rbind; [by apply (same_GetClass c Hc Hnull)|]. intros k k' Hk.
  assert (H0 : same_state (0, no_cache) (0, no_cache)) by done.
  eapply (rel_rbind same_state).
  - refine (proj2 (prel_pbind _ eq same_state _ _ _ _
      (same_super_fields _ _ field classname n k k' _ Hk) _ _ _ H0)).
    + intros f f' Hf. by apply Hv.
    + intros _ _ _ s s' Hs. split; [done|by constructor].
  - intros [v fc] [v' fc'] [E _]. cbn in E. subst. by constructor.
Qed.

(** C33: What is read of an object does not depend on the segments that references hold: two
    references to one address, each holding no segment or the one its address lies in, give
    the same answers to [instanceof], to every search of a field and as strings, errors
    included. *)
Theorem object_cache_unobservable (n : nat) (r r' : MemoryRef) (name field : list Z)
    (classname : option (list Z)) (H : same r r') :
  instanceof sdk c cf n r name = instanceof sdk c cf n r' name /\
  GetObjectField sdk c cf n r field classname = GetObjectField sdk c cf n r' field classname /\
  GetIntField sdk c cf n r field classname = GetIntField sdk c cf n r' field classname /\
  GetLongField sdk c cf n r field classname = GetLongField sdk c cf n r' field classname /\
  String_toString sdk c r = String_toString sdk c r' /\
  Object_toString sdk c cf r = Object_toString sdk c cf r'.
Proof.
  split_and!.
  - by apply same_instanceof.
  - apply same_instance_field; [|done]. intros. by apply same_field_value.
  - apply same_instance_field; [|done]. intros. by apply same_signed_field.
  - apply same_instance_field; [|done]. intros. by apply same_signed_field.
  - unfold String_toString. rewrite (same_vaddr _ r r' H). destruct (nz _); [|done].
    by apply same_ToModifiedUtf8.
  - unfold Object_toString, isNull, getSimpleName. same_eq.
Qed.
End Objects.

(** * What [instanceof] and the searches of fields find *)

(** A class of the target: its address, its name, and the array of its fields with the names of
    the instance fields; static fields, which share the array from Android W on, are [None]. *)
Record ClassView := {
  cv_at : Z; cv_name : list Z; cv_array : Z; cv_fields : list (option (list Z)) }.

Section Classes.
Context {M : Machine} (sdk : Z) (c : CoreApi) (cf : nat) (Hc : space_ok c)
  (Hnull : linear_find c 0 (mQuickLoad c) = None).
Implicit Types r k f : MemoryRef.
Implicit Types (x : ClassView) (chain : list ClassView).
Abbreviation same := (same_ref c).

Definition next_class chain : Z := match chain with x :: _ => cv_at x | [] => 0 end.
(** The classes of the list are each the superclass of the one before; the last has none. *)
Fixpoint linked chain : Prop :=
  match chain with
  | [] => True
  | x :: rest =>
      PrettyDescriptor sdk c cf (ref_at (cv_at x)) = Ok (cv_name x) /\
      (exists s, GetSuperClass sdk c (ref_at (cv_at x)) = Ok s /\ vaddr s = next_class rest) /\
      (rest = [] \/ next_class rest <> 0) /\ linked rest
  end.

Lemma super_of x rest k :
  linked (x :: rest) -> same k (ref_at (cv_at x)) ->
  exists s, GetSuperClass sdk c k = Ok s /\ same s (ref_at (next_class rest)) /\
    nz (vaddr s) = (match rest with [] => false | _ => true end).
Proof.
  intros (_ & (s & Es & Hs) & Hn & _) Hk.
  pose proof (same_GetSuperClass sdk c Hc Hnull _ _ Hk) as H. rewrite Es in H.
  inversion H as [s' ? (Hv & H1 & _)| | |]. subst. exists s'.
  split_and!; [done|by split_and!; [cbn; congruence|..]|].
  rewrite Hv, Hs. unfold nz. destruct rest; cbn in *; [done|].
  destruct Hn; [done|]. by rewrite (proj2 (Z.eqb_neq _ _)).
Qed.

Lemma super_named_spec name chain : forall n k,
  linked chain -> chain <> [] -> same k (ref_at (next_class chain)) ->
  (length chain <= n)%nat ->
  super_named sdk c cf n name k = Ok (bool_decide (name ∈ map cv_name chain)).
Proof.
  induction chain as [|x rest IH]; intros n k Hl Hne Hk Hn; [done|].
  destruct n as [|n]; cbn [length] in Hn; [lia|]. cbn [super_named map].
  unfold class_named. rewrite (same_PrettyDescriptor sdk c Hc Hnull cf _ _ Hk).
  cbn [next_class]. rewrite (proj1 Hl). cbn [rbind].
  destruct (decide (cv_name x = name)) as [<-|E].
  { rewrite !bool_decide_eq_true_2; [done| |done]. by left. }
  rewrite (bool_decide_eq_false_2 (_ = _)) by done.
  destruct (super_of x rest k Hl Hk) as (s & -> & Hs & Hz). cbn [rbind]. rewrite Hz.
  destruct rest as [|y rest].
  - symmetry. f_equal. apply bool_decide_eq_false_2. intros H.
    apply list_elem_of_singleton in H. congruence.
  - rewrite (IH n s); [|apply Hl|done|done|cbn in *; lia].
    f_equal. apply bool_decide_ext. rewrite elem_of_cons. naive_solver.
Qed.

(** The interfaces of a class, from number [i] on, by the addresses and names of their classes. *)
Definition interfaces_at (t : Z) (i : Z) (names : list (list Z)) : Prop :=
  forall j name, names !! j = Some name ->
    exists v, GetInterface c (ref_at t) (i + Z.of_nat j) = Ok v /\
      PrettyDescriptor sdk c cf (Object v) = Ok name.

Lemma interface_named_spec name t r names : forall i,
  interfaces_at t i names -> same r (ref_at t) ->
  interface_named sdk c cf (length names) i name r = Ok (bool_decide (name ∈ names)).
Proof.
  induction names as [|nm names IH]; intros i H Hr; cbn [interface_named length]; [done|].
  destruct (H 0%nat nm eq_refl) as (v & Ev & En). rewrite Z.add_0_r in Ev.
  rewrite (same_GetInterface c Hc Hnull i _ _ Hr), Ev. cbn [rbind].
  unfold class_named. rewrite En. cbn [rbind].
  destruct (decide (nm = name)) as [<-|E].
  { rewrite !bool_decide_eq_true_2; [done| |done]. by left. }
  rewrite (bool_decide_eq_false_2 (_ = _)), IH; [|intros j x Hj|done|done].
  - f_equal. apply bool_decide_ext. rewrite elem_of_cons. naive_solver.
  - specialize (H (S j) x Hj). by replace (i + 1 + Z.of_nat j) with (i + Z.of_nat (S j)) by lia.
Qed.

(** The interface table of a class. *)
Definition iftable_at (k : Z) (names : list (list Z)) : Prop :=
  exists t, GetIfTable sdk c (ref_at k) = Ok t /\
    (vaddr t = 0 /\ names = [] \/
     vaddr t <> 0 /\ IfTable_Count c (ref_at (vaddr t)) = Ok (Z.of_nat (length names)) /\
     interfaces_at (vaddr t) 0 names).

(** C34: [instanceof] says whether the name is the one of the class of the object, of one of
    its superclasses or of an interface of its class; the walk over the superclasses ends. *)
Theorem instanceof_membership (n : nat) (obj k : MemoryRef) (name : list Z) chain
    (interfaces : list (list Z))
    (Ho : isNull obj = false) (Hk : GetClass c (ref_at (vaddr obj)) = Ok k)
    (Hobj : settled c obj) (Hl : linked chain) (Hv : next_class chain = vaddr k)
    (Hne : chain <> []) (Hn : (length chain <= n)%nat) (Hi : iftable_at (vaddr k) interfaces) :
  instanceof sdk c cf n obj name =
    Ok (bool_decide (name ∈ map cv_name chain ++ interfaces)).
Proof.
  unfold instanceof. rewrite Ho.
  pose proof (same_GetClass c Hc Hnull _ _ (same_of c obj Hobj)) as H. rewrite Hk in H.
  inversion H as [k' ? (Hkv & H1 & H2) E1| | |]. subst. cbn [rbind].
  assert (Hs : same k' (ref_at (next_class chain))) by (split_and!; [cbn; congruence|done..]).
  rewrite (super_named_spec name chain) by done. cbn [rbind].
  destruct (decide (name ∈ map cv_name chain)) as [Hin|Hin].
  { rewrite !bool_decide_eq_true_2; [done| |done]. apply elem_of_app. by left. }
  rewrite (bool_decide_eq_false_2 (name ∈ map _ _)) by done.
  destruct Hi as (t & Et & Ht). rewrite <- Hv in Et.
  pose proof (same_GetIfTable sdk c Hc Hnull _ _ Hs) as Hti. rewrite Et in Hti.
  inversion Hti as [t' ? (Htv & T1 & T2) E2| | |]. subst. cbn [rbind].
  assert (Hst : same t' (ref_at (vaddr t))) by (split_and!; [done..]).
  unfold iftable_named, isNull. rewrite Htv.
  destruct Ht as [[-> ->]|(Hz & Hcount & Hit)].
  - rewrite app_nil_r. by rewrite (bool_decide_eq_false_2 (name ∈ _)).
  - rewrite (proj2 (Z.eqb_neq _ _)) by done.
    assert (Ec : IfTable_Count c t' = Ok (Z.of_nat (length interfaces))).
    { rewrite <- Hcount. unfold IfTable_Count. by rewrite (same_GetLength c Hc Hnull _ _ Hst). }
    rewrite Ec. cbn [rbind]. rewrite Nat2Z.id, (interface_named_spec name (vaddr t)) by done.
    f_equal. apply bool_decide_ext. rewrite elem_of_app. naive_solver.
Qed.

(** ** Fields *)

Abbreviation field_size := (ArtField_THIS ArtField_Init).
Definition shown_field (f : MemoryRef) : result bool :=
  if Sdk.W <=? sdk then let! s := Field_IsStatic c f in Ok (Bool.eqb s false) else Ok true.
(** A field of the class at [K], and its name. *)
Definition named_by (K : Z) (f : MemoryRef) (name : list Z) : Prop :=
  af_word c af_declaring_class_ f = Ok K /\
  Field_GetName sdk c f (chars "<invalid>") = Ok name.
(** The target has the fields of the class where its view says. *)
Definition fields_at x : Prop :=
  (if Sdk.W <=? sdk then NumFields sdk c (ref_at (cv_at x))
   else NumInstanceFields sdk c (ref_at (cv_at x))) = Ok (Z.of_nat (length (cv_fields x))) /\
  (if Sdk.W <=? sdk then GetFields sdk c (ref_at (cv_at x))
   else GetIFields sdk c (ref_at (cv_at x))) = Ok (cv_array x) /\
  0 <= cv_array x /\ cv_array x + field_size * Z.of_nat (length (cv_fields x)) < 2 ^ 64 /\
  forall i o, cv_fields x !! i = Some o ->
    let f := ref_at (cv_array x + field_size * Z.of_nat i) in
    shown_field f = Ok (has o) /\
    forall name, o = Some name -> named_by (cv_at x) f name.

(** The first instance field with the name, from the place [a] on. *)
Fixpoint place_from (field : list Z) (l : list (option (list Z))) (a : Z) : option Z :=
  match l with
  | [] => None
  | o :: l => if bool_decide (o = Some field) then Some a else place_from field l (a + field_size)
  end.
Definition field_place (field : list Z) x : option Z := place_from field (cv_fields x) (cv_array x).
(** The field that a search of the whole chain ends with: the one of the last class that has
    one, among the classes with the wanted name. *)
Definition wanted_class (classname : option (list Z)) x : bool :=
  match classname with Some name => bool_decide (cv_name x = name) | None => true end.
Definition last_place (classname : option (list Z)) (field : list Z) chain : option Z :=
  foldl (fun found x => if wanted_class classname x then union (field_place field x) found else found)
    None chain.
Lemma last_place_cons classname field x chain :
  last_place classname field (x :: chain) =
    union (last_place classname field chain)
      (if wanted_class classname x then field_place field x else None).
Proof.
  unfold last_place. cbn [foldl].
  assert (H : forall chain (o : option Z), foldl (fun found x =>
      if wanted_class classname x then union (field_place field x) found else found) o chain =
    union (foldl (fun found x =>
      if wanted_class classname x then union (field_place field x) found else found) None chain) o).
  { clear. induction chain as [|y l IH]; intros o; cbn [foldl]; [by destruct o|].
    rewrite IH, (IH (if wanted_class classname y then union (field_place field y) None else None)).
    destruct (wanted_class classname y), (field_place field y), o; by destruct (foldl _ None l). }
  rewrite H. f_equal. destruct (wanted_class classname x); [|done]. by destruct (field_place field x).
Qed.

(** ** The cache of a walk *)

Definition cache_of (K : Z) (fc : FieldCache) : Prop :=
  settled c (fc_class fc) /\ settled c (fc_dex fc) /\
  (vaddr (fc_class fc) = 0 \/ vaddr (fc_class fc) = K) /\
  (vaddr (fc_dex fc) = 0 \/
   exists d, Class_GetDexFile sdk c (ref_at K) = Ok d /\ same (fc_dex fc) d).

Lemma cache_class K fc f :
  cache_of K fc -> settled c f -> af_word c af_declaring_class_ f = Ok K ->
  exists k1 k, Field_GetDeclaringClass c f = Ok k1 /\ same k1 (ref_at K) /\
    cached (fc_class fc) (Field_GetDeclaringClass c f) = Ok k /\ same k (ref_at K).
Proof.
  intros (Hk & _ & Hv & _) Hf Ew. unfold Field_GetDeclaringClass. rewrite Ew. unfold quick_cache.
  cbn [rbind]. rewrite (Prepare_false c Hc Hnull) by by apply settled_from.
  rewrite ref_from_vaddr. set (k1 := MkRef K (segment_of c (ref_from c K f))).
  assert (H1 : same k1 (ref_at K)).
  { split_and!; [done| |done]. intros id. unfold k1, segment_of. rewrite ref_from_vaddr. cbn.
    destruct (K =? 0); [done|]. by intros ->. }
  unfold cached, nz. destruct (Z.eqb_spec (vaddr (fc_class fc)) 0); cbn.
  - by exists k1, k1.
  - exists k1, (fc_class fc). do 3 (split; [done|]). split; [|done]. destruct Hv; [done|by cbn].
Qed.

Lemma walk_GetName_fresh K f fc name :
  cache_of K fc -> settled c f -> named_by K f name ->
  exists fc', walk_GetName sdk c f fc = Ok (fc', name) /\ cache_of K fc'.
Proof.
  intros Hfc Hf [Ew En].
  destruct (cache_class K fc f Hfc Hf Ew) as (k1 & k & E1 & H1 & E2 & H2).
  unfold walk_GetName. rewrite E2. cbn [rbind].
  unfold Field_GetName, IsProxyField, Field_GetDexFile in En. rewrite E1 in En. cbn [rbind] in En.
  rewrite (same_vaddr c _ _ H1) in En. rewrite (same_vaddr c _ _ H2).
  destruct (nz (vaddr (ref_at K))); cbn [negb] in *; [|injection En as <-; eauto].
  destruct (af_word c af_field_dex_idx_ f) as [i| | |]; try done. cbn [rbind] in *.
  rewrite (same_IsProxyClass sdk c Hc Hnull k1 _ H1) in En.
  rewrite (same_IsProxyClass sdk c Hc Hnull k _ H2).
  destruct (IsProxyClass sdk c (ref_at K)) as [proxy| | |]; try done. cbn [rbind] in *.
  destruct Hfc as (_ & Hd & _ & Hdv).
  assert (Hset : forall dex, settled c dex -> (vaddr dex = 0 \/
    exists d, Class_GetDexFile sdk c (ref_at K) = Ok d /\ same dex d) ->
    cache_of K {| fc_class := k; fc_dex := dex |}).
  { intros dex Hs Hx. split_and!; [apply H2|done|right; apply H2|done]. }
  destruct proxy; [injection En as <-; eauto|].
  pose proof (same_Class_GetDexFile sdk c Hc Hnull k1 _ H1) as Hd1.
  pose proof (same_Class_GetDexFile sdk c Hc Hnull k _ H2) as Hd2.
  destruct Hd1 as [d1 d Hd1| | |]; try done.
  inversion Hd2 as [d2 d' Hd2' E3| | |]; subst.
  assert (Ec : exists dex, cached (fc_dex fc) (Ok d2) = Ok dex /\ same dex d).
  { unfold cached, nz. destruct (Z.eqb_spec (vaddr (fc_dex fc)) 0) as [|Hz]; cbn; [eauto|].
    destruct Hdv as [|(d' & [= <-] & Hdd)]; [done|eauto]. }
  destruct Ec as (dex & -> & Hdex). cbn [rbind] in *.
  assert (Hdd : same dex d1) by (by transitivity d).
  pose proof (same_GetFieldId sdk c Hc Hnull i _ _ Hdd) as Hid.
  destruct Hid as [id id' Hid| | |]; try done. cbn [rbind] in *.
  rewrite (same_GetFieldName sdk c Hc Hnull _ _ _ _ (chars "<invalid-field>") Hdd Hid), En.
  cbn [rbind]. eexists. split; [done|]. apply Hset; [apply Hdd|]. right. eauto.
Qed.

Section Search.
Context (get_value : MemoryRef -> result Z) (field : list Z) (value : Z -> Z)
  (Hget : forall f f', same f f' -> get_value f = get_value f').

Lemma field_loop_spec K l a : forall f s,
  (forall i o, l !! i = Some o ->
    let f := ref_at (a + field_size * Z.of_nat i) in
    shown_field f = Ok (has o) /\ forall name, o = Some name -> named_by K f name) ->
  (forall p, place_from field l a = Some p -> get_value (ref_at p) = Ok (value p)) ->
  0 <= a -> a + field_size * Z.of_nat (length l) < 2 ^ 64 -> same f (ref_at a) ->
  cache_of K (snd s) ->
  exists fc, field_loop c (length l) shown_field (named_field sdk c get_value field) f s =
    ((default (fst s) (value <$> place_from field l a), fc), Ok tt).
Proof.
  revert a. induction l as [|o l IH]; intros a f s Hl Hp Ha He Hf Hs;
    [exists (snd s); by destruct s|].
  cbn [field_loop length place_from] in *.
  destruct (Hl 0%nat o eq_refl) as [Hw Hname]. rewrite Z.mul_0_r, Z.add_0_r in Hw, Hname.
  assert (Ew : shown_field f = Ok (has o)).
  { rewrite <- Hw. unfold shown_field. by rewrite (same_IsStatic c Hc Hnull _ _ Hf). }
  rewrite (pbind_lift _ _ _ _ Ew).
  assert (Hnext : forall fc, readable c f -> cache_of K fc ->
    bool_decide (o = Some field) = false ->
    exists fc', (let$ next := lift (MovePtr c f field_size) in
     field_loop c (length l) shown_field (named_field sdk c get_value field) next) (fst s, fc) =
    ((default (fst s) (value <$> place_from field l (a + field_size)), fc'), Ok tt)).
  { intros fc Hr Hfc Eo. rewrite Eo in Hp.
    destruct (MovePtr_readable c Hc Hnull f field_size (proj1 (proj2 Hf)) Hr) as (m & Em & Hv & Hm).
    rewrite (pbind_lift _ _ _ _ Em). destruct Hf as (Hfa & _). cbn in Hfa. rewrite Hfa in Hv.
    rewrite wrap_small in Hv by (cbn in *; lia).
    apply (IH (a + field_size) m (fst s, fc)); [|done|cbn; lia|cbn in *; lia|by split_and!|done].
    intros i o' Hi. specialize (Hl (S i) o' Hi).
    by replace (a + field_size + field_size * Z.of_nat i)
      with (a + field_size * Z.of_nat (S i)) by lia. }
  destruct o as [name|]; cbn [has].
  - specialize (Hname name eq_refl). destruct Hname as [Edecl Ename].
    rewrite <- (same_af_word c Hc Hnull _ f _ Hf) in Edecl.
    rewrite <- (same_Field_GetName sdk c Hc Hnull f _ _ Hf) in Ename.
    destruct (walk_GetName_fresh K f (snd s) name Hs (proj1 (proj2 Hf)) (conj Edecl Ename))
      as (fc & En & Hfc).
    assert (Hr : readable c f)
      by (eapply (walk_GetName_readable sdk c Hc Hnull); [apply Hf|exact En]).
    unfold named_field at 1. unfold pbind at 1 2, on_part at 1. rewrite En.
    destruct (decide (name = field)) as [->|Hne].
    + rewrite !bool_decide_eq_true_2 in * by done. specialize (Hp a eq_refl).
      rewrite (Hget _ _ Hf), Hp. by exists fc.
    + rewrite (bool_decide_eq_false_2 (name = field)) by done.
      rewrite (bool_decide_eq_false_2 (Some name = Some field)) in * by congruence.
      by apply Hnext.
  - rewrite (bool_decide_eq_false_2 (None = Some field)) in * by done.
    unfold pbind at 1, pret at 1. destruct s as [v fc]. apply Hnext; [|done|done].
    unfold shown_field in Ew. destruct (Sdk.W <=? sdk); [|done]. res_inv.
    eapply (IsStatic_readable c Hc Hnull); [apply Hf|done].
Qed.

Lemma foreach_spec x k s :
  fields_at x -> same k (ref_at (cv_at x)) ->
  (forall p, field_place field x = Some p -> get_value (ref_at p) = Ok (value p)) ->
  exists fc, (let$ _ := fresh_field in
              ForeachInstanceField sdk c k (named_field sdk c get_value field)) s =
    ((default (fst s) (value <$> field_place field x), fc), Ok tt).
Proof.
  intros (Hn & Ha & H0 & He & Hl) Hk Hp.
  unfold pbind at 1, fresh_field, modify. unfold ForeachInstanceField, foreach_field.
  assert (En : (if Sdk.W <=? sdk then NumFields sdk c k else NumInstanceFields sdk c k) =
    Ok (Z.of_nat (length (cv_fields x)))).
  { rewrite <- Hn. destruct (Sdk.W <=? sdk); [by apply (same_NumFields sdk c Hc Hnull)|].
    by apply (same_fields_counted sdk c Hc Hnull). }
  rewrite (pbind_lift _ _ _ _ En).
  assert (Ea : (if Sdk.W <=? sdk then GetFields sdk c k else GetIFields sdk c k) = Ok (cv_array x)).
  { rewrite <- Ha. destruct (Sdk.W <=? sdk); [by apply (same_GetFields sdk c Hc Hnull)|].
    by apply (same_GetIFields sdk c Hc Hnull). }
  unfold field_place in *. destruct (cv_fields x) as [|o l] eqn:El; [by exists no_cache|].
  unfold nz. rewrite (proj2 (Z.eqb_neq _ 0)) by (cbn; lia). cbn [negb].
  rewrite (pbind_lift _ _ _ _ Ea), Nat2Z.id.
  apply (field_loop_spec (cv_at x) (o :: l) (cv_array x) _ (fst s, no_cache)); try done.
  - split_and!; [apply ref_from_vaddr| |done]. apply settled_from; [done..|apply Hk].
  - split_and!; [done..|by left|by left].
Qed.

Lemma super_fields_spec classname chain : forall n k s,
  linked chain -> chain <> [] -> Forall fields_at chain -> same k (ref_at (next_class chain)) ->
  (length chain <= n)%nat ->
  (forall x p, x ∈ chain -> field_place field x = Some p -> get_value (ref_at p) = Ok (value p)) ->
  exists fc, super_fields sdk c cf n get_value field classname k s =
    ((default (fst s) (value <$> last_place classname field chain), fc), Ok tt).
Proof.
  induction chain as [|x rest IH]; intros n k s Hl Hne Hf Hk Hn Hp; [done|].
  destruct n as [|n]; cbn [length] in Hn; [lia|]. cbn [super_fields].
  apply Forall_cons_1 in Hf as [Hx Hf].
  assert (Eo : other_class sdk c cf classname k = Ok (negb (wanted_class classname x))).
  { destruct classname as [name|]; [|done]. cbn. unfold class_named.
    rewrite (same_PrettyDescriptor sdk c Hc Hnull cf _ _ Hk). cbn [next_class].
    by rewrite (proj1 Hl). }
  rewrite (pbind_lift _ _ _ _ Eo).
  destruct (super_of x rest k Hl Hk) as (sup & Es & Hs & Hz).
  rewrite last_place_cons.
  assert (E1 : exists fc, (if negb (wanted_class classname x) then pret tt
    else let$ _ := fresh_field in
         ForeachInstanceField sdk c k (named_field sdk c get_value field)) s =
    ((default (fst s) (value <$> if wanted_class classname x then field_place field x else None), fc),
     Ok tt)).
  { destruct (wanted_class classname x); cbn [negb]; [|exists (snd s); by destruct s].
    apply foreach_spec; [done..|]. intros p. apply Hp. by left. }
  destruct E1 as [fc E1]. rewrite (pbind_Ok _ _ _ _ _ E1), (pbind_lift _ _ _ _ Es), Hz.
  destruct rest as [|y rest];
    [exists fc; by destruct (wanted_class classname x), (field_place field x)|].
  edestruct IH as [fc' ->]; [apply Hl|done..|cbn in *; lia| |].
  { intros x' p Hx'. apply Hp. by right. }
  exists fc'. cbn [fst]. destruct (last_place _ _ _);
    by destruct (wanted_class classname x), (field_place field x).
Qed.
End Search.

(** C35: The search of a field by name takes the value from the last class, from the class of
    the object upwards, that has an instance field of the name (among the classes of the wanted
    name, when one is given), and there from its first such field; without one it answers 0. *)
Theorem instance_field_last (n : nat) (obj k : MemoryRef)
    (get_value : MemoryRef -> MemoryRef -> result Z) (field : list Z)
    (classname : option (list Z)) chain (value : Z -> Z)
    (Hget : forall f f' r r', same f f' -> same r r' -> get_value f r = get_value f' r')
    (Hobj : settled c obj) (Hk : GetClass c (ref_at (vaddr obj)) = Ok k)
    (Hl : linked chain) (Hv : next_class chain = vaddr k) (Hne : chain <> [])
    (Hn : (length chain <= n)%nat) (Hf : Forall fields_at chain)
    (Hp : forall x p, x ∈ chain -> field_place field x = Some p ->
      get_value (ref_at p) (ref_at (vaddr obj)) = Ok (value p)) :
  instance_field sdk c cf n get_value obj field classname =
    Ok (default 0 (value <$> last_place classname field chain)).
Proof.
  rewrite (same_instance_field sdk c cf Hc Hnull get_value n obj (ref_at (vaddr obj)))
    by done || by apply same_of.
  unfold instance_field. rewrite Hk. cbn [rbind].
  pose proof (same_GetClass c Hc Hnull _ _ (same_at c (vaddr obj))) as H. rewrite Hk in H.
  inversion H as [? ? (_ & _ & Hks)| | |]. subst.
  edestruct (super_fields_spec (fun f => get_value f (ref_at (vaddr obj))) field value)
    as [fc E]; [|exact Hl|done|exact Hf| |exact Hn|exact Hp|].
  - intros f f' Hff. by apply Hget.
  - by split_and!.
  - rewrite (pbind_Ok _ _ _ _ _ E). done.
Qed.
End Classes.

(** ** An object *)

(** An object at 0x1000 of the class demo.A at 0x1100, which has the superclass demo.B and the
    interface demo.I; A has the fields size and next, B again a field size. *)
Definition class_bytes (super iftable type fields : Z) : list Z :=
  memory 120
    [(16, le_bytes 4 0x1600); (24, le_bytes 4 iftable); (32, le_bytes 4 super);
     (40, le_bytes 8 fields); (84, le_bytes 4 type)].
Definition field_bytes (class idx off : Z) : list Z :=
  le_bytes 4 class ++ le_bytes 4 1 ++ le_bytes 4 idx ++ le_bytes 4 off.
Definition text (s : string) : list Z := Z.of_nat (String.length s) :: chars s ++ [0].
Definition object_memory : list Z :=
  memory 0xA00
    [(0, le_bytes 4 0x1100 ++ le_bytes 4 0 ++ le_bytes 4 21 ++ le_bytes 4 34 ++ le_bytes 4 0x1400);
     (0x100, class_bytes 0x1200 0x1300 0 0x1500);
     (0x200, class_bytes 0 0 1 0x1540);
     (0x300, le_bytes 4 0 ++ le_bytes 4 0 ++ le_bytes 4 2 ++ le_bytes 4 0x1400);
     (0x400, class_bytes 0 0 2 0);
     (0x500, le_bytes 4 2 ++ field_bytes 0x1100 0 8 ++ field_bytes 0x1100 1 16);
     (0x540, le_bytes 4 1 ++ field_bytes 0x1200 2 12);
     (0x610, le_bytes 8 0x1700);
     (0x718, le_bytes 8 0x1900); (0x750, table_bytes 8 [0x1800; 0x1840; 0x1880]);
     (0x800, table_bytes 4 [0; 16; 32; 48; 64]);
     (0x840, table_bytes 4 [0; 1; 2]);
     (0x880, table_bytes 4 [0; 3; 0; 4; 0; 3]);
     (0x900, text "Ldemo/A;"); (0x910, text "Ldemo/B;"); (0x920, text "Ldemo/I;");
     (0x930, text "size"); (0x940, text "next")].
Definition object_core : CoreApi := one_core 0x1000 object_memory.
Lemma object_space : space_ok object_core.
Proof. apply one_core_ok; [done|apply Nat.ltb_lt; by vm_compute]. Qed.
Lemma object_null : linear_find object_core 0 (mQuickLoad object_core) = None.
Proof. by vm_compute. Qed.

Definition view_A : ClassView :=
  {| cv_at := 0x1100; cv_name := chars "demo.A"; cv_array := 0x1504;
     cv_fields := [Some (chars "size"); Some (chars "next")] |}.
Definition view_B : ClassView :=
  {| cv_at := 0x1200; cv_name := chars "demo.B"; cv_array := 0x1544;
     cv_fields := [Some (chars "size")] |}.
Lemma demo_linked : @linked arm64_Core Sdk.T object_core 3 [view_A; view_B].
Proof.
  split; [by vm_compute|split; [|split; [by right|]]].
  { exists (MkRef 0x1200 None). split; by vm_compute. }
  split; [by vm_compute|split; [|split; [by left|done]]].
  exists (MkRef 0 None). split; by vm_compute.
Qed.
Lemma demo_fields : Forall (@fields_at arm64_Core Sdk.T object_core) [view_A; view_B].
Proof.
  apply Forall_cons_2; [|apply Forall_cons_2; [|apply Forall_nil_2]].
  all: split; [by vm_compute|split; [by vm_compute|split; [done|split; [done|]]]].
  all: intros i o Hi f.
  - destruct i as [|[|i]]; [| |done]; injection Hi as <-;
      (split; [by vm_compute|intros name [= <-]; split; by vm_compute]).
  - destruct i as [|i]; [|done]; injection Hi as <-;
      (split; [by vm_compute|intros name [= <-]; split; by vm_compute]).
Qed.
Lemma demo_class : GetClass object_core (ref_at (vaddr (MkRef 0x1000 (Some 0%nat)))) =
  Ok (MkRef 0x1100 (Some 0%nat)).
Proof. by vm_compute. Qed.
Lemma demo_settled : settled object_core (MkRef 0x1000 (Some 0%nat)).
Proof. intros id [= <-]. by vm_compute. Qed.

Lemma object_cache_unobservable_witness :
  @instanceof arm64_Core Sdk.T object_core 3 2 (MkRef 0x1000 (Some 0%nat)) (chars "demo.I") =
  @instanceof arm64_Core Sdk.T object_core 3 2 (ref_at 0x1000) (chars "demo.I").
Proof.
  apply (@object_cache_unobservable arm64_Core Sdk.T object_core 3 object_space object_null 2
    (MkRef 0x1000 (Some 0%nat)) (ref_at 0x1000) (chars "demo.I") [] None).
  exact (same_of _ _ demo_settled).
Defined.

Lemma instanceof_membership_witness :
  @instanceof arm64_Core Sdk.T object_core 3 2 (MkRef 0x1000 (Some 0%nat)) (chars "demo.I") =
  Ok true.
Proof.
  apply (@instanceof_membership arm64_Core Sdk.T object_core 3 object_space object_null 2
    (MkRef 0x1000 (Some 0%nat)) (MkRef 0x1100 (Some 0%nat)) (chars "demo.I") [view_A; view_B]
    [chars "demo.I"]); try done; try exact demo_linked; try exact demo_class;
    try exact demo_settled.
  exists (MkRef 0x1300 (Some 0%nat)). split; [by vm_compute|right].
  split_and!; [done|by vm_compute|]. intros [|j] name Hj; [|done]. cbn in Hj. simplify_eq.
  exists 0x1400. split; by vm_compute.
Defined.

Lemma instance_field_last_witness :
  @GetIntField arm64_Core Sdk.T object_core 3 2 (MkRef 0x1000 (Some 0%nat)) (chars "size") None =
  Ok 34.
Proof.
  apply (@instance_field_last arm64_Core Sdk.T object_core 3 object_space object_null 2
    (MkRef 0x1000 (Some 0%nat)) (MkRef 0x1100 (Some 0%nat)) (Field_GetInt object_core)
    (chars "size") None [view_A; view_B] (fun p => if p =? 0x1504 then 21 else 34)); try done;
    try exact demo_linked; try exact demo_class; try exact demo_settled; try exact demo_fields.
  - intros. by apply (same_signed_field _ object_space object_null).
  - intros x p Hx Hp. repeat (apply elem_of_cons in Hx as [->|Hx];
      [vm_compute in Hp; simplify_eq; by vm_compute|]). by apply elem_of_nil in Hx.
Defined.
