(* ===== verification/QuickHeaders.v ===== *)
(** Headers of compiled methods: android/art/runtime/oat_quick_method_header.{h,cpp},
    cache_helpers.cpp and the stub tests of class_linker.cpp.

    The entry points are symbols of libart; [dlsym] is [Android::DlSym], the lookup of
    [Modules] in the link map of libart, 0 for a symbol that is not found.  The caches of
    [CacheHelper] hold what the lookup returns.  The version of the oat format is an
    argument, as in [OatCode]. *)

From Stdlib Require Import ZArith Lia Bool String.
From stdpp Require Import base list gmap numbers.
From S2P Require Import Prelude Words Host Blocks Notes CoreApi Segments AddressSpace MemRef Elf.
From S2P Require Import Bits OatCode OatVRegs Mirrors Cxx Dex RuntimeTables OatFiles Frames.
From S2P Require Import Runtimes Methods.
Open Scope Z_scope.

(** * The layout of a header *)

Record OatQuickMethodHeader_OffsetTable := {
  code_info_offset_ : Z; qh_data_ : Z; vmap_table_offset_ : Z; method_info_offset_ : Z;
  frame_info_ : Z; qh_code_size_ : Z; qh_code_ : Z; mapping_table_offset_ : Z;
  gc_map_offset_ : Z }.
Definition header_table (info data vmap method frame size code mapping gc : Z)
    : OatQuickMethodHeader_OffsetTable :=
  {| code_info_offset_ := info; qh_data_ := data; vmap_table_offset_ := vmap;
     method_info_offset_ := method; frame_info_ := frame; qh_code_size_ := size;
     qh_code_ := code; mapping_table_offset_ := mapping; gc_map_offset_ := gc |}.
Definition OatInit64 := header_table 0 0 4 0 12 24 28 0 8.
Definition OatInit79 := header_table 0 0 0 0 4 16 20 0 0.
Definition OatInit124 := header_table 0 0 0 4 8 20 24 0 0.
Definition OatInit156 := header_table 0 0 0 4 0 8 12 0 0.
Definition OatInit158 := header_table 0 0 0 0 0 4 8 0 0.
Definition OatInit192 := header_table 0 0 0 0 0 0 4 0 0.
Definition OatInit239 := header_table 0 0 0 0 0 0 4 0 0.
Definition OatQuickMethodHeader_table (oat : Z) : OatQuickMethodHeader_OffsetTable :=
  listen oat (header_table 0 0 0 0 0 0 0 0 0)
    [(64, OatInit64); (79, OatInit79); (124, OatInit124); (156, OatInit156); (158, OatInit158);
     (192, OatInit192); (239, OatInit239)].
(** [kIsCodeInfoMask], [kCodeInfoMask] and [kCodeSizeMask]. *)
Definition kShouldDeoptimizeMask : Z := 0x80000000.
Definition kIsCodeInfoMask (oat : Z) : Z := if 238 <=? oat then 0x80000000 else 0x40000000.
Definition kCodeInfoMask (oat : Z) : Z := if 238 <=? oat then 0x7FFFFFFF else 0x3FFFFFFF.
Definition kCodeSizeMask (oat : Z) : Z :=
  listen oat 0x3FFFFFFF
    [(124, bnot 32 kShouldDeoptimizeMask); (192, 0x3FFFFFFF); (238, 0x7FFFFFFF)].

Section Headers.
Context {M : Machine} (sdk oat : Z) (left : bool) (c : CoreApi) (dlsym : string -> Z).

(** * Entry points *)

Definition JniDlsymLookupStub : Z := dlsym "art_jni_dlsym_lookup_stub".
Definition JniDlsymLookupCriticalStub : Z := dlsym "art_jni_dlsym_lookup_critical_stub".
Definition QuickImtConflictStub : Z := dlsym "art_quick_imt_conflict_trampoline".
Definition QuickToInterpreterBridge : Z := dlsym "art_quick_to_interpreter_bridge".
Definition InvokeObsoleteMethodStub : Z := dlsym "art_invoke_obsolete_method_stub".
Definition QuickGenericJniStub : Z := dlsym "art_quick_generic_jni_trampoline".
Definition QuickProxyInvokeHandler : Z := dlsym "art_quick_proxy_invoke_handler".
Definition QuickResolutionStub : Z := dlsym "art_quick_resolution_trampoline".
Definition QuickDeoptimizationEntryPoint : Z := dlsym "art_quick_deoptimize".
Definition ExecuteNterpImplEntryPoint : Z := dlsym "ExecuteNterpImpl".
Definition NterpWithClinitImpl : MemoryRef :=
  ref_at (dlsym "_ZN3art20OatQuickMethodHeader19NterpWithClinitImplE").
Definition NterpImpl : MemoryRef := ref_at (dlsym "_ZN3art20OatQuickMethodHeader9NterpImplE").

(** [ClassLinker]. *)
Definition is_stub (stub entry_point : Z) : bool := nz entry_point && (entry_point =? stub).
Definition IsQuickGenericJniStub : Z -> bool := is_stub QuickGenericJniStub.
Definition IsQuickResolutionStub : Z -> bool := is_stub QuickResolutionStub.
Definition IsQuickToInterpreterBridge : Z -> bool := is_stub QuickToInterpreterBridge.

(** * Headers *)

Definition qh_word (f : OatQuickMethodHeader_OffsetTable -> Z) (h : MemoryRef) : result Z :=
  word c h (f (OatQuickMethodHeader_table oat)) 4.
Definition qh_code (h : MemoryRef) : Z :=
  u64 (vaddr h + qh_code_ (OatQuickMethodHeader_table oat)).
Definition FromCodePointer (code_ptr : Z) : MemoryRef :=
  ref_at (u64 (code_ptr - qh_code_ (OatQuickMethodHeader_table oat))).
Definition FromEntryPoint (entry_point : Z) : MemoryRef :=
  FromCodePointer (Z.land entry_point (bnot 64 1)).

Definition valid_ref (r : MemoryRef) : result bool := let! x := IsValid c r in Ok (snd x).
(** [NterpMethodHeader()]. *)
Definition NterpMethodHeader : result MemoryRef :=
  if nz ExecuteNterpImplEntryPoint then Ok (FromEntryPoint ExecuteNterpImplEntryPoint)
  else
    let value := ref_at (dlsym "_ZN3art20OatQuickMethodHeader17NterpMethodHeaderE") in
    let! valid := valid_ref value in
    let! header := (if valid : bool then vword c value 0 else Ok 0) in
    if nz header then Ok (ref_at header)
    else if 239 <=? oat then
      let! valid := valid_ref NterpImpl in
      if valid : bool then let! v := vword c NterpImpl 0 in Ok (FromCodePointer v)
      else Ok (ref_at 0)
    else Ok (ref_at 0).
Definition HasNterpImpl : bool := nz (vaddr NterpImpl) || nz (vaddr NterpWithClinitImpl).
Definition IsNterpMethodHeader (h : MemoryRef) : result bool :=
  let! n := NterpMethodHeader in Ok (vaddr n =? vaddr h).

(** From version 241 on, and from 239 on when the symbols exist, nterp is two stubs whose
    code and size are in two variables. *)
Definition nterp_stubs : bool := (241 <=? oat) || ((239 <=? oat) && HasNterpImpl).
Definition is_impl (impl h : MemoryRef) : result bool :=
  let! valid := valid_ref impl in
  if valid : bool then let! v := vword c impl 0 in Ok (qh_code h =? v) else Ok false.

Definition IsOptimized (h : MemoryRef) : result bool :=
  if nterp_stubs then
    let! a := is_impl NterpWithClinitImpl h in
    let! b := (if a : bool then Ok true else is_impl NterpImpl h) in Ok (negb b)
  else if 192 <=? oat then
    let! d := qh_word qh_data_ h in Ok (nz (Z.land d (kIsCodeInfoMask oat)))
  else
    (* [GetCodeSize()] of these versions *)
    let! size :=
      (let! s := qh_word qh_code_size_ h in
       Ok (if 124 <=? oat then Z.land s (kCodeSizeMask oat) else s)) in
    if nz size then let! v := qh_word vmap_table_offset_ h in Ok (nz v) else Ok false.
Definition GetCodeStart (h : MemoryRef) : Z :=
  if machine =? EM_AARCH64 then Z.land (qh_code h) (2 ^ 56 - 1) else qh_code h.
Definition GetCodeInfoOffset (h : MemoryRef) : result Z :=
  if nterp_stubs then qh_word code_info_offset_ h
  else if 192 <=? oat then let! d := qh_word qh_data_ h in Ok (Z.land d (kCodeInfoMask oat))
  else qh_word vmap_table_offset_ h.
Definition GetOptimizedCodeInfoPtr (h : MemoryRef) : result Z :=
  let! off := GetCodeInfoOffset h in Ok (u64 (qh_code h - off)).
Definition info_code_size (h : MemoryRef) : result Z :=
  let! p := GetOptimizedCodeInfoPtr h in DecodeCodeSize oat c p.
Definition GetCodeSize (h : MemoryRef) : result Z :=
  if nterp_stubs then
    let! a := is_impl NterpWithClinitImpl h in
    if a : bool then let! v := vword c NterpWithClinitImpl point_size in Ok (u32 v)
    else
      let! b := is_impl NterpImpl h in
      if b : bool then let! v := vword c NterpImpl point_size in Ok (u32 v)
      else info_code_size h
  else if 192 <=? oat then
    let! o := IsOptimized h in
    if o : bool then info_code_size h
    else let! d := qh_word qh_data_ h in Ok (Z.land d (kCodeSizeMask oat))
  else if 124 <=? oat then
    let! s := qh_word qh_code_size_ h in Ok (Z.land s (kCodeSizeMask oat))
  else qh_word qh_code_size_ h.
Definition Contains (h : MemoryRef) (pc : Z) : result bool :=
  let code_start := GetCodeStart h in
  if code_start <=? pc then
    let! size := GetCodeSize h in Ok (pc <=? u64 (code_start + size))
  else Ok false.
Definition IsNterpPc (pc : Z) : result bool :=
  let! h := NterpMethodHeader in
  if nz (vaddr h) then Contains h pc else Ok false.

Definition GetFrameInfo (h : MemoryRef) : result QuickMethodFrameInfo :=
  if 156 <=? oat then
    let! p := GetOptimizedCodeInfoPtr h in
    let! '(size, core, fp) := DecodeFrameInfo oat c p in
    Ok {| frame_size_in_bytes := size; core_spill_mask := core; fp_spill_mask := fp |}
  else
    let ref := ref_from c
      (u64 (vaddr h + frame_info_ (OatQuickMethodHeader_table oat))) h in
    let! size := word c ref 0 4 in
    let! core := word c ref 4 4 in
    let! fp := word c ref 8 4 in
    Ok {| frame_size_in_bytes := size; core_spill_mask := core; fp_spill_mask := fp |}.

(** The stack maps of the method. *)
Definition header_code_info (h : MemoryRef) : result CodeInfo :=
  let! p := GetOptimizedCodeInfoPtr h in Decode left oat c p.
Definition Header_NativePc2DexPc (h : MemoryRef) (native_pc : Z) : result Z :=
  let! i := header_code_info h in NativePc2DexPc oat c i native_pc.
Definition Header_NativeStackMaps (h : MemoryRef) : result (list (Z * Z)) :=
  let! i := header_code_info h in NativeStackMaps oat c i.
(** [ExtendNumRegister(method)] looks at the method before version 150 only. *)
Definition method_registers (method : MemoryRef) : result (option Z) :=
  if oat <? 150 then
    let! '(item, fields) := GetCodeItem sdk c method in
    let! _ := Method_GetDexFile sdk c method in
    Ok (if nz (vaddr item) then num_regs_ <$> fields else None)
  else Ok None.
Definition Header_NativePc2VRegs (h : MemoryRef) (native_pc : Z) (vregs : gmap Z (Z * Z))
    (method : MemoryRef) : result (gmap Z (Z * Z)) :=
  let! i := header_code_info h in
  let! n := method_registers method in
  NativePc2VRegs oat c (ExtendNumRegister oat n i) native_pc vregs.
End Headers.
