(* ===== verification/Jit.v ===== *)
(** Code of the just-in-time compiler: android/art/runtime/jit/jit.cpp, jit_code_cache.{h,cpp},
    jit_memory_region.{h,cpp}.

    A method's code is found by the program counter in a map from code addresses, or by the
    method in the map of native stubs and in the hash table of the zygote.  [std::hash] is an
    argument. *)

From Stdlib Require Import ZArith Lia Bool String.
From stdpp Require Import base list gmap numbers.
From S2P Require Import Prelude Words Host Blocks Notes CoreApi Segments AddressSpace MemRef Elf.
From S2P Require Import Bits OatCode OatVRegs Mirrors Cxx Dex RuntimeTables OatFiles Frames.
From S2P Require Import Runtimes Methods QuickHeaders.
Open Scope Z_scope.

(** * Loops over containers that the function returns from *)

Section Loops.
Context {M : Machine} (c : CoreApi) {A : Type} (body : Z -> result (option A)).

Fixpoint map_find_loop (n : nat) (cache : list MemoryRef) (current : nat) : result (option A) :=
  match n with
  | O => Ok None
  | S k =>
      match cache !! current with
      | None => Fault
      | Some p =>
          let! r := body (u64 (vaddr p + pair__data_)) in
          match r with
          | Some a => Ok (Some a)
          | None => map_find_loop k cache (S current)
          end
      end
  end.
Definition map_find (fuel : nat) (m : MemoryRef) : result (option A) :=
  match map_begin c fuel m [] with
  | (cache, Ok _) => let! n := map_size c m in map_find_loop (Z.to_nat n) cache 0
  | (_, Throw p) => Throw p
  | (_, Fault) => Fault
  | (_, OutOfFuel) => OutOfFuel
  end.
Fixpoint vector_find_loop (fuel : nat) (current last entry_size : Z) : result (option A) :=
  match fuel with
  | O => OutOfFuel
  | S n =>
      if current =? last then Ok None
      else
        let! r := body current in
        match r with
        | Some a => Ok (Some a)
        | None => vector_find_loop n (u64 (current + entry_size)) last entry_size
        end
  end.
Definition vector_find (fuel : nat) (v : MemoryRef) (entry_size : Z) : result (option A) :=
  let! b := vword c v vector__begin_ in
  let! e := vword c v vector__end_ in vector_find_loop fuel b e entry_size.
End Loops.

Section Jit.
Context {M : Machine} (sdk oat : Z) (c : CoreApi) (dlsym : string -> Z) (hf : Z -> Z).

(** * The parts of the code cache *)

Definition GetCodeCache (jit : MemoryRef) : result MemoryRef :=
  quick_cache c (vword c jit (jit_code_cache_ (Jit_table sdk))) jit.
Definition Region_GetExecPages (region : MemoryRef) : MemoryRef :=
  ref_from c (u64 (vaddr region + jmr_exec_pages_ (JitMemoryRegion_table sdk))) region.
Definition IsInExecSpace (region : MemoryRef) (pc : Z) : result bool :=
  HasAddress c (Region_GetExecPages region) pc.

(** A part of the cache at an offset. *)
Definition jcc_part (f : JitCodeCache_OffsetTable -> Z) (cc : MemoryRef) : MemoryRef :=
  ref_from c (u64 (vaddr cc + f (JitCodeCache_table sdk))) cc.
Definition GetCodeMap (cc : MemoryRef) : result MemoryRef :=
  quick_cache c (vword c cc (jcc_code_map_ (JitCodeCache_table sdk))) cc.
Definition GetExecPages := jcc_part jcc_exec_pages_.
Definition GetSharedRegion := jcc_part jcc_shared_region_.
Definition GetPrivateRegion := jcc_part jcc_private_region_.
Definition GetJniStubsMap := jcc_part jcc_jni_stubs_map_.
Definition GetMethodCodeMap := jcc_part jcc_method_code_map_.
Definition GetZygoteExecPages := jcc_part jcc_zygote_exec_pages_.
Definition GetZygoteMap := jcc_part jcc_zygote_map_.

Definition either (a b : result bool) : result bool :=
  let! x := a in if x : bool then Ok true else b.
Definition PrivateRegionContainsPc (cc : MemoryRef) (pc : Z) : result bool :=
  IsInExecSpace (GetPrivateRegion cc) pc.
Definition ContainsPc (cc : MemoryRef) (pc : Z) : result bool :=
  if Sdk.R <=? sdk then
    either (PrivateRegionContainsPc cc pc) (IsInExecSpace (GetSharedRegion cc) pc)
  else if Sdk.Q <=? sdk then
    either (HasAddress c (GetExecPages cc) pc) (HasAddress c (GetZygoteExecPages cc) pc)
  else if Sdk.N <=? sdk then let! m := GetCodeMap cc in HasAddress c m pc
  else Ok false.

(** * Stubs of native methods *)

Definition GetJniStubCode (fuel : nat) (cc method : MemoryRef) : result Z :=
  let! r := map_find c (fun value =>
    let data := ref_at (u64 (value + jsp_second (JniStubsMapPair_table sdk))) in
    let methods := ref_from c (u64 (vaddr data + jsd_methods_ (JniStubData_table sdk))) data in
    let! found := vector_find c (fun m =>
      let! v := vword c (ref_at m) 0 in
      if v =? vaddr method then Ok (Some tt) else Ok None) fuel methods point_size in
    match found with
    | Some _ => let! code := vword c data (jsd_code_ (JniStubData_table sdk)) in Ok (Some code)
    | None => Ok None
    end) fuel (GetJniStubsMap cc) in
  Ok (default 0 r).

(** * The hash table of the zygote *)

(** What [GetCodeFor] returns for the entry of the method. *)
Definition zygote_answer (code_ptr pc : Z) : result Z :=
  if negb (nz code_ptr) then Ok 0
  else if nz pc then
    let! inside := Contains oat c dlsym (FromCodePointer oat code_ptr) pc in
    Ok (if inside : bool then code_ptr else 0)
  else Ok code_ptr.
Definition zm_word (f : ZygoteMap_OffsetTable -> Z) (z : MemoryRef) : result Z :=
  vword c z (f (ZygoteMap_table sdk)).
Fixpoint zygote_loop (fuel : nat) (z array_ method : MemoryRef) (pc index : Z) : result Z :=
  match fuel with
  | O => OutOfFuel
  | S n =>
      let! m := vword c array_ (u64 (u64 (index * 2) * point_size)) in
      let! code_ptr := vword c array_ (u64 (u64 (index * 2) * point_size + point_size)) in
      if negb (nz m) then Ok 0
      else if m =? vaddr method then zygote_answer code_ptr pc
      else
        let! size := zm_word zm_size_ z in
        zygote_loop n z array_ method pc (Z.land (u64 (index + 1)) (u64 (size - 1)))
  end.
Definition GetCodeFor (fuel : nat) (z method : MemoryRef) (pc : Z) : result Z :=
  let! size := zm_word zm_size_ z in
  if negb (nz size) then Ok 0
  else
    let index := Z.land (hf (vaddr method)) (u64 (size - 1)) in
    let! array := zm_word zm_array_ z in
    zygote_loop fuel z (ref_at array) method pc index.

(** * The lookup *)

(** The loop of [LookupMethodCodeMap]: the distance and the address of the nearest code. *)
Definition nearest (pc tmp_pc : Z) (s : Z * option Z) : Z * option Z :=
  if pc <? tmp_pc then s
  else if pc - tmp_pc <=? fst s then (pc - tmp_pc, Some tmp_pc) else s.
Definition map_nearest (fuel : nat) (pc : Z) (m : MemoryRef)
    : prog (Z * option Z) unit :=
  new_map_for c fuel m (fun value =>
    let$ tmp_pc := lift (vword c (ref_at value) 0) in modify (nearest pc tmp_pc)).
(** When no code lies before [pc], the code reads a variable that was never set. *)
Definition LookupMethodCodeMap (fuel : nat) (cc : MemoryRef) (pc : Z) : result MemoryRef :=
  let m := GetMethodCodeMap cc in
  let! n := map_size c m in
  if negb (nz n) then Ok (ref_at 0)
  else
    let '((_, code_ptr), r) := map_nearest fuel pc m (2 ^ 64 - 1, None) in
    let! _ := r in
    match code_ptr with
    | Some p => Ok (FromCodePointer oat p)
    | None => Fault
    end.

(** A header that has to contain the program counter. *)
Definition containing (pc : Z) (h : MemoryRef) : result MemoryRef :=
  let! inside := Contains oat c dlsym h pc in Ok (if inside : bool then h else ref_at 0).
Definition LookupMethodHeader (fuel : nat) (cc : MemoryRef) (pc : Z) (method : MemoryRef)
    : result MemoryRef :=
  let pc := if machine =? EM_ARM then Z.land pc (u64 (pointer_mask c - 1)) else pc in
  let! mine := ContainsPc cc pc in
  if negb mine then Ok (ref_at 0)
  else
    let by_pc := let! h := LookupMethodCodeMap fuel cc pc in containing pc h in
    if Sdk.P <=? sdk then
      let! native :=
        (if nz (vaddr method) then method_is sdk c Method_IsNative method else Ok false) in
      if native : bool then
        let! entry_point := GetJniStubCode fuel cc method in
        if nz entry_point then containing pc (FromCodePointer oat entry_point) else Ok (ref_at 0)
      else
        let! shared :=
          (if Sdk.R <=? sdk then IsInExecSpace (GetSharedRegion cc) pc else Ok false) in
        let! code_ptr :=
          (if shared : bool then GetCodeFor fuel (GetZygoteMap cc) method pc else Ok 0) in
        if nz code_ptr then Ok (FromCodePointer oat code_ptr) else by_pc
    else by_pc.

(** * The header of a method *)

(** [ArtMethod::GetOatQuickMethodHeader(pc)]; the empty reference for none. *)
Definition unless_throws (m : result (option MemoryRef)) : result (option MemoryRef) :=
  catch m (fun _ => Ok None).
Definition entry_header (existing_entry_point pc : Z) : result (option MemoryRef) :=
  if negb (IsQuickGenericJniStub dlsym existing_entry_point)
     && negb (IsQuickResolutionStub dlsym existing_entry_point)
     && negb (IsQuickToInterpreterBridge dlsym existing_entry_point)
     && negb (existing_entry_point =? InvokeObsoleteMethodStub dlsym) then
    let h := FromEntryPoint oat existing_entry_point in
    unless_throws
      (let! inside := Contains oat c dlsym h pc in Ok (if inside : bool then Some h else None))
  else Ok None.
Definition jit_header (fuel : nat) (rt : Runtime_OffsetTable) (runtime method : MemoryRef)
    (pc : Z) : result (option MemoryRef) :=
  let! jit := GetJit c rt runtime in
  if nz (vaddr jit) then
    let! cc := GetCodeCache jit in
    unless_throws
      (let! h := LookupMethodHeader fuel cc pc method in
       Ok (if nz (vaddr h) then Some h else None))
  else Ok None.
(** The code in the oat file. *)
Definition oat_header (method : MemoryRef) (existing_entry_point pc : Z) : result MemoryRef :=
  let! '(found, oat_method) := FindOatMethodFor sdk c method in
  if negb found then
    if Sdk.U <=? sdk then Ok (ref_at 0)
    else if Sdk.P <=? sdk then
      let! native := method_is sdk c Method_IsNative method in
      Ok (if native : bool then ref_at 0 else FromEntryPoint oat existing_entry_point)
    else if Sdk.N <=? sdk then
      Ok (if IsQuickResolutionStub dlsym existing_entry_point then ref_at 0
          else FromEntryPoint oat existing_entry_point)
    else Ok (ref_at 0)
  else
    let oat_entry_point := GetQuickCode oat_method in
    if negb (nz oat_entry_point) || IsQuickGenericJniStub dlsym oat_entry_point then Ok (ref_at 0)
    else
      let h := FromEntryPoint oat oat_entry_point in
      if Sdk.U <=? sdk then
        let! native := method_is sdk c Method_IsNative method in
        let! outside :=
          (if native : bool then let! x := Contains oat c dlsym h pc in Ok (negb x) else Ok false) in
        Ok (if outside : bool then ref_at 0 else h)
      else Ok h.
Definition GetOatQuickMethodHeader (fuel : nat) (rt : Runtime_OffsetTable)
    (runtime method : MemoryRef) (pc : Z) : result MemoryRef :=
  let! r := IsRuntimeMethod sdk c method in
  if r : bool then Ok (ref_at 0)
  else
    let! existing_entry_point := GetEntryPointFromQuickCompiledCode sdk c method in
    let! _ := GetClassLinker c rt runtime in
    if (sdk <? Sdk.P) && IsQuickGenericJniStub dlsym existing_entry_point then Ok (ref_at 0)
    else
      let! proxy :=
        (if existing_entry_point =? QuickProxyInvokeHandler dlsym then Ok true
         else IsProxyMethod sdk c method) in
      if proxy : bool then Ok (ref_at 0)
      else
        let! h := entry_header existing_entry_point pc in
        match h with
        | Some h => Ok h
        | None =>
            let! nterp := (if Sdk.R <=? sdk then IsNterpPc oat c dlsym pc else Ok false) in
            if nterp : bool then NterpMethodHeader oat c dlsym
            else
              let! h := jit_header fuel rt runtime method pc in
              match h with
              | Some h => Ok h
              | None => oat_header method existing_entry_point pc
              end
        end.
End Jit.
