(* ===== verification/JitProofs.v ===== *)
(** Theorems about [Jit]: the hash table of the zygote against a search of its entries, and the
    lookup by address against the nearest code below. *)

From Stdlib Require Import ZArith Lia Bool String.
From stdpp Require Import base list gmap numbers.
From S2P Require Import Prelude Words Host Blocks Notes CoreApi Segments AddressSpace MemRef Elf.
From S2P Require Import Bits OatCode OatVRegs Mirrors Cxx Reading Dex RuntimeTables OatFiles Frames.
From S2P Require Import Runtimes Methods QuickHeaders Jit.
Open Scope Z_scope.

(** The least number with a property. *)
Lemma least_from (P : nat -> Prop) `{forall n, Decision (P n)} n :
  P n -> exists d, (d <= n)%nat /\ P d /\ forall e, (e < d)%nat -> ~ P e.
Proof.
  induction n as [n IH] using lt_wf_ind. intros Hn.
  destruct (decide (Exists P (seq 0 n))) as [He|He].
  - apply Exists_exists in He as (m & Hm & HP). apply in_seq in Hm.
    destruct (IH m ltac:(lia) HP) as (d & Hd & H1 & H2). exists d. split_and!; [lia|done|done].
  - exists n. split_and!; [lia|done|]. intros e He' HP. apply He, Exists_exists.
    exists e. split; [apply in_seq; lia|done].
Qed.

Section Zygote.
Context {M : Machine} (sdk oat : Z) (c : CoreApi) (run : Z -> Z -> option (list Z))
  `{!Presents c run} (dlsym : string -> Z) (hf : Z -> Z).
Context (slots : list (Z * Z)) (k : Z).
Abbreviation n := (2 ^ k).

Definition probe (i : Z) : option (Z * Z) := slots !! Z.to_nat (i mod n).

(** The table of the target: [n] pairs of a method and its code. *)
Definition table_at (z A : Z) : Prop :=
  0 <= k <= 32 /\ Z.of_nat (length slots) = n /\ (point_size = 4 \/ point_size = 8) /\
  0 < z < 2 ^ 64 /\
  pointer_at c run z (zm_size_ (ZygoteMap_table sdk)) n /\
  pointer_at c run z (zm_array_ (ZygoteMap_table sdk)) A /\
  forall j m code, slots !! j = Some (m, code) ->
    pointer_at c run A (Z.of_nat j * 2 * point_size) m /\
    pointer_at c run A (Z.of_nat j * 2 * point_size + point_size) code.

(** Every method is reached from its hash over occupied slots of other methods. *)
Definition hashed : Prop :=
  forall j m code, slots !! j = Some (m, code) -> m <> 0 ->
    exists d, (d < length slots)%nat /\ probe (hf m + Z.of_nat d) = Some (m, code) /\
      forall e, (e < d)%nat ->
        exists m' code', probe (hf m + Z.of_nat e) = Some (m', code') /\ m' <> 0 /\ m' <> m.

(** The code of a method. *)
Definition code_of (m : Z) : Z :=
  match list_find (fun s => s.1 = m) slots with Some (_, s) => s.2 | None => 0 end.

Lemma next_index i : 0 <= k <= 32 -> Z.land (u64 (i mod n + 1)) (u64 (n - 1)) = (i + 1) mod n.
Proof.
  intros Hk. assert (Hn : 0 < n) by (apply Z.pow_pos_nonneg; lia).
  assert (n <= 2 ^ 32) by (apply Z.pow_le_mono_r; lia).
  pose proof (Z.mod_pos_bound i n Hn).
  rewrite !wrap_small by lia. replace (n - 1) with (Z.ones k) by (rewrite Z.ones_equiv; lia).
  by rewrite Z.land_ones, Zplus_mod_idemp_l by lia.
Qed.

Lemma zygote_run z A method pc d : forall fuel h,
  table_at (vaddr z) A -> ref_ok c z -> (d < fuel)%nat ->
  (forall e, (e < d)%nat ->
     exists m' code', probe (h + Z.of_nat e) = Some (m', code') /\ m' <> 0 /\ m' <> vaddr method) ->
  forall m0 code0, probe (h + Z.of_nat d) = Some (m0, code0) -> m0 = 0 \/ m0 = vaddr method ->
  zygote_loop sdk oat c dlsym fuel z (ref_at A) method pc (h mod n)
    = if nz m0 then zygote_answer oat c dlsym code0 pc else Ok 0.
Proof.
  induction d as [|d IH]; intros fuel h Ht Hz Hfuel Hbefore m0 code0 Hd Hm0;
    (destruct fuel as [|fuel]; [lia|]); cbn [zygote_loop];
    pose proof Ht as (Hk & Hlen & Hps & Hzr & Hsize & _ & Hslots).
  - rewrite Z.add_0_r in Hd. unfold probe in Hd.
    pose proof (Z.mod_pos_bound h n ltac:(apply Z.pow_pos_nonneg; lia)) as Hh.
    destruct (Hslots _ _ _ Hd) as [H1 H2]. rewrite Z2Nat.id in H1, H2 by lia.
    assert (n <= 2 ^ 32) by (apply Z.pow_le_mono_r; lia).
    assert (HA : ref_ok c (ref_at A)) by (destruct H1 as (w & Hf & _); apply ref_at_ok; destruct Hf; lia).
    rewrite (wrap_small 64 (h mod n * 2)) by lia.
    rewrite !wrap_small by (destruct Hps as [-> | ->]; lia).
    rewrite (pointer_word c run _ A _ _ HA eq_refl H1). cbn [rbind].
    rewrite (pointer_word c run _ A _ _ HA eq_refl H2). cbn [rbind].
    unfold nz. destruct (Z.eqb_spec m0 0); cbn [negb]; [done|].
    destruct Hm0 as [->| ->]; [done|]. by rewrite Z.eqb_refl.
  - destruct (Hbefore 0%nat ltac:(lia)) as (m' & code' & Hs & Hn0 & Hne).
    rewrite Z.add_0_r in Hs. unfold probe in Hs.
    pose proof (Z.mod_pos_bound h n ltac:(apply Z.pow_pos_nonneg; lia)) as Hh.
    destruct (Hslots _ _ _ Hs) as [H1 H2]. rewrite Z2Nat.id in H1, H2 by lia.
    assert (n <= 2 ^ 32) by (apply Z.pow_le_mono_r; lia).
    assert (HA : ref_ok c (ref_at A)) by (destruct H1 as (w & Hf & _); apply ref_at_ok; destruct Hf; lia).
    rewrite (wrap_small 64 (h mod n * 2)) by lia.
    rewrite !(wrap_small 64 (_ * point_size + _)), !(wrap_small 64 (_ * point_size))
      by (destruct Hps as [-> | ->]; lia).
    rewrite (pointer_word c run _ A _ _ HA eq_refl H1). cbn [rbind].
    rewrite (pointer_word c run _ A _ _ HA eq_refl H2). cbn [rbind].
    unfold nz at 1. rewrite (proj2 (Z.eqb_neq m' 0) Hn0), (proj2 (Z.eqb_neq m' _) Hne). cbn [negb].
    unfold zm_word. rewrite (pointer_word c run _ _ _ _ Hz eq_refl Hsize). cbn [rbind].
    rewrite next_index by lia.
    apply IH; try done; try lia.
    + intros e He. destruct (Hbefore (S e) ltac:(lia)) as (m1 & c1 & Hs1 & Hr1).
      exists m1, c1. split; [|done]. by replace (h + 1 + Z.of_nat e) with (h + Z.of_nat (S e)) by lia.
    + by replace (h + 1 + Z.of_nat d) with (h + Z.of_nat (S d)) by lia.
Qed.

Lemma slot_cyclic h j s :
  0 <= k -> Z.of_nat (length slots) = n -> slots !! j = Some s ->
  exists d, (d < length slots)%nat /\ probe (h + Z.of_nat d) = Some s.
Proof.
  intros Hk Hlen Hj. pose proof (lookup_lt_Some _ _ _ Hj) as Hlt.
  assert (Hn : 0 < n) by (apply Z.pow_pos_nonneg; lia).
  pose proof (Z.mod_pos_bound (Z.of_nat j - h) n Hn).
  exists (Z.to_nat ((Z.of_nat j - h) mod n)). split; [lia|].
  unfold probe. rewrite Z2Nat.id by lia. rewrite Zplus_mod_idemp_r.
  replace (h + (Z.of_nat j - h)) with (Z.of_nat j) by lia.
  rewrite Z.mod_small by lia. by rewrite Nat2Z.id.
Qed.

(** C28: In a well-formed hash table of the zygote, the lookup of a method gives the code of its
    entry (when that contains the program counter), and nothing for a method without an
    entry: probing from the hash is a search of the whole table, and ends. *)
Theorem GetCodeFor_lookup (z method : MemoryRef) (A pc : Z)
    (Ht : table_at (vaddr z) A) (Hz : ref_ok c z) (Hh : hashed) (Hm : vaddr method <> 0)
    (Hroom : (exists j code, slots !! j = Some (0, code)) \/
             (exists j code, slots !! j = Some (vaddr method, code))) :
  GetCodeFor sdk oat c dlsym hf (length slots) z method pc
    = zygote_answer oat c dlsym (code_of (vaddr method)) pc.
Proof.
  pose proof Ht as (Hk & Hlen & Hps & Hzr & Hsize & Harr & Hslots).
  assert (Hn : 0 < n) by (apply Z.pow_pos_nonneg; lia).
  assert (n <= 2 ^ 32) by (apply Z.pow_le_mono_r; lia).
  unfold GetCodeFor, zm_word. rewrite (pointer_word c run _ _ _ _ Hz eq_refl Hsize). cbn [rbind].
  unfold nz at 1. rewrite (proj2 (Z.eqb_neq n 0)) by lia. cbn [negb].
  rewrite (pointer_word c run _ _ _ _ Hz eq_refl Harr). cbn [rbind].
  rewrite (wrap_small 64 (n - 1)) by lia.
  replace (n - 1) with (Z.ones k) by (rewrite Z.ones_equiv; lia). rewrite Z.land_ones by lia.
  unfold code_of. destruct (list_find _ slots) as [[j [m code]]|] eqn:Ef.
  - apply list_find_Some in Ef as (Hj & Heq & _). cbn in Heq. subst m.
    destruct (Hh _ _ _ Hj Hm) as (d & Hd & Hs & Hb).
    rewrite (zygote_run z A method pc d _ (hf (vaddr method))) with (m0 := vaddr method) (code0 := code);
      try done; try lia; try (by right).
    unfold nz. by rewrite (proj2 (Z.eqb_neq _ 0) Hm).
  - apply list_find_None in Ef. rewrite Forall_forall in Ef.
    assert (Ef' : forall j m code, slots !! j = Some (m, code) -> m <> vaddr method)
      by (intros j m code Hj; apply (Ef (m, code)), list_elem_of_In; by eapply list_elem_of_lookup_2).
    clear Ef.
    assert (Habs : forall i m code, probe i = Some (m, code) -> m <> vaddr method).
    { intros i m code. apply Ef'. }
    destruct Hroom as [(j & code & Hj)|(j & code & Hj)].
    2: { by destruct (Ef' _ _ _ Hj). }
    destruct (slot_cyclic (hf (vaddr method)) j _ ltac:(lia) Hlen Hj) as (d0 & Hd0 & Hs0).
    destruct (least_from (fun d => (fst <$> probe (hf (vaddr method) + Z.of_nat d)) = Some 0) d0)
      as (d & Hd & Hs & Hb); [by rewrite Hs0|].
    destruct (probe (hf (vaddr method) + Z.of_nat d)) as [[m1 c1]|] eqn:E1; [|done].
    cbn in Hs. simplify_eq.
    rewrite (zygote_run z A method pc d _ (hf (vaddr method))) with (m0 := 0) (code0 := c1);
      try done; try lia; try (by left).
    intros e He. specialize (Hb e He).
    destruct (probe (hf (vaddr method) + Z.of_nat e)) as [[m2 c2]|] eqn:E2.
    + exists m2, c2. split_and!; [done| |by eapply Habs]. intros ->. by apply Hb.
    + exfalso. unfold probe in E2. apply lookup_ge_None in E2.
      pose proof (Z.mod_pos_bound (hf (vaddr method) + Z.of_nat e) n Hn). lia.
Qed.
End Zygote.

(** A table of four entries at 0x1040, whose methods collide: the hash gives both the last
    entry, and the second is found in the first. *)
Definition demo_slots : list (Z * Z) := [(0x7010, 0x9100); (0, 0); (0, 0); (0x7000, 0x9000)].
Definition demo_zygote : list Z :=
  memory 256 [(0, le_bytes 8 0x1040 ++ le_bytes 8 4);
    (0x40, table_bytes 8 (flat_map (fun s => [s.1; s.2]) demo_slots))].
Definition zygote_core : CoreApi := one_core 0x1000 demo_zygote.
#[local] Instance zygote_presents : Presents zygote_core (target_run zygote_core).
Proof. apply one_presents; [done|apply Nat.ltb_lt; by vm_compute]. Qed.
Lemma GetCodeFor_lookup_witness :
  @GetCodeFor arm64_Core Sdk.T 0 zygote_core (fun _ => 0) (fun _ => 3) 4
    (ref_at 0x1000) (ref_at 0x7010) 0 = Ok 0x9100.
Proof.
  apply (@GetCodeFor_lookup arm64_Core Sdk.T 0 zygote_core (target_run zygote_core) _
    (fun _ => 0) (fun _ => 3) demo_slots 2 (ref_at 0x1000) (ref_at 0x7010) 0x1040 0).
  - split_and!; try done; try (by right).
    1, 2: apply check_pointer_ok; by vm_compute.
    intros j m code Hj. do 4 (destruct j as [|j]; [injection Hj as <- <-;
      split; apply check_pointer_ok; by vm_compute|]). done.
  - by split.
  - intros j m code Hj Hm. destruct j as [|[|[|[|j]]]]; [..|done];
      injection Hj as <- <-; try done.
    + exists 1%nat. split_and!; [cbn; lia|done|]. intros [|e] He; [|lia]. by exists 0x7000, 0x9000.
    + exists 0%nat. split_and!; [cbn; lia|done|]. intros e He. lia.
  - done.
  - left. by exists 1%nat, 0.
Defined.
