(* ===== verification/JavaStack.v ===== *)
(** The Java stack of a thread: android/art/runtime/interpreter (quick_frame, shadow_frame),
    nterp_helpers.cpp, handle_scope.cpp, managed_stack.{h,cpp}, java_frame.{h,cpp} and
    stack.{h,cpp}.

    A thread has a list of fragments ([ManagedStack]).  A fragment is either a run of compiled
    frames, found by the size of each, or a list of frames of the interpreter.
    [StackVisitor] is the state of the walk, a program in which frames found before an
    exception stay.  The runtime and its offset table are arguments, as in [Jit]. *)

From Stdlib Require Import ZArith Lia Bool String.
From stdpp Require Import base list gmap numbers.
From S2P Require Import Prelude Words Host Blocks Notes CoreApi Segments AddressSpace MemRef Elf.
From S2P Require Import Bits OatCode OatVRegs Text Mirrors Cxx Dex RuntimeTables OatFiles Frames.
From S2P Require Import Runtimes Methods QuickHeaders Jit.
Open Scope Z_scope.

(** [kVRegSize], and [DexRegisterInfo::Kind::kConstant] as it is stored. *)
Definition kVRegSize : Z := 4.
Definition Object_THIS : Z := 8.
Definition Kind_kConstant : Z := 1.

(** A compiled frame: its address, the method once it is read, the header of its code and
    the program counter. *)
Record QuickFrame := {
  qf_ref : MemoryRef; qf_method : MemoryRef; method_header : MemoryRef; frame_pc : Z }.
Definition quick_frame_of (r : MemoryRef) : QuickFrame :=
  {| qf_ref := r; qf_method := ref_at 0; method_header := ref_at 0; frame_pc := 0 |}.
Definition set_method (m : MemoryRef) (q : QuickFrame) : QuickFrame :=
  {| qf_ref := qf_ref q; qf_method := m; method_header := method_header q;
     frame_pc := frame_pc q |}.
Definition set_method_header (h : MemoryRef) (q : QuickFrame) : QuickFrame :=
  {| qf_ref := qf_ref q; qf_method := qf_method q; method_header := h; frame_pc := frame_pc q |}.

Definition arm64_kWRegisterNames : list (list Z) :=
  map (fun i => chars "w" ++ to_string i) (seqZ 0 31) ++ [chars "wsp"; chars "wzr"].

Section Stacks.
Context {M : Machine} (sdk oat : Z) (left : bool) (c : CoreApi) (dlsym : string -> Z)
  (rt : Runtime_OffsetTable) (runtime : MemoryRef).

(** * Nterp frames *)

Definition NterpGetFrameEntrySize : Z :=
  u32 ((POPCOUNT (Runtime_GetCoreSpills kSaveAllCalleeSaves)
        + POPCOUNT (Runtime_GetFpSpills kSaveAllCalleeSaves)) * point_size).
(** The fields of the code item; without one the code reads a record that was never set. *)
Definition code_fields (method : MemoryRef) : result CodeFields :=
  let! '(_, fields) := GetCodeItem sdk c method in
  match fields with Some f => Ok f | None => Fault end.
Definition NterpGetFrameSizeWithoutPadding (method : MemoryRef) : result Z :=
  let! f := code_fields method in
  Ok (u64 (NterpGetFrameEntrySize + num_regs_ f * kVRegSize * 2 + point_size + point_size
           + out_regs_ f * kVRegSize + point_size)).
Definition NterpGetFrameSize (method : MemoryRef) : result Z :=
  let! n := NterpGetFrameSizeWithoutPadding method in Ok (RoundUp 64 n kStackAlignment).
Definition NterpFrameInfo (method : MemoryRef) : result QuickMethodFrameInfo :=
  let! n := NterpGetFrameSize method in
  Ok {| frame_size_in_bytes := u32 n;
        core_spill_mask := Runtime_GetCoreSpills kSaveAllCalleeSaves;
        fp_spill_mask := Runtime_GetFpSpills kSaveAllCalleeSaves |}.
(** The places behind the method and the out arguments: the saved dex pc, and the registers
    behind it, the previous frame and the reference registers. *)
Definition nterp_dex_pc (sp : MemoryRef) (f : CodeFields) : MemoryRef :=
  ref_from c
    (u64 (vaddr sp + point_size + RoundUp 64 (out_regs_ f * kVRegSize) point_size)) sp.
Definition NterpGetFrameDexPcPtr (sp method : MemoryRef) : result Z :=
  let! f := code_fields method in vword c (nterp_dex_pc sp f) 0.
Definition nterp_vregs (sp : MemoryRef) (f : CodeFields) : MemoryRef :=
  ref_from c
    (u64 (vaddr sp + point_size + RoundUp 64 (out_regs_ f * kVRegSize) point_size
          + point_size + point_size + num_regs_ f * kVRegSize)) sp.
(** Registers [i] to [i + n - 1] from words at [r]; the key of register [i] is [i + base]. *)
Fixpoint read_vregs (n : nat) (r : MemoryRef) (base i : Z) (vregs : gmap Z (Z * Z))
    : result (gmap Z (Z * Z)) :=
  match n with
  | O => Ok vregs
  | S k =>
      let! v := word c r (u64 (i * 4)) 4 in
      read_vregs k r base (i + 1) (<[i + base := (Kind_kConstant, v)]> vregs)
  end.
Definition NterpGetFrameVRegs (sp method : MemoryRef) (vregs : gmap Z (Z * Z))
    : result (gmap Z (Z * Z)) :=
  let! f := code_fields method in
  read_vregs (Z.to_nat (num_regs_ f)) (nterp_vregs sp f) 0 0 vregs.

(** * Compiled frames *)

Definition QuickFrame_GetMethod (q : QuickFrame) : result (QuickFrame * MemoryRef) :=
  if nz (vaddr (qf_method q)) then Ok (q, qf_method q)
  else
    let! v := vword c (qf_ref q) 0 in
    let q := set_method (ref_at v) q in Ok (q, qf_method q).
Definition SetFramePc (pc : Z) (q : QuickFrame) : QuickFrame :=
  {| qf_ref := qf_ref q; qf_method := qf_method q; method_header := method_header q;
     frame_pc := if machine =? EM_ARM then Z.land pc (u64 (pointer_mask c - 1)) else pc |}.
Definition ReturnPc2FramePc (rpc : Z) : Z :=
  if nz rpc then u64 (rpc - by_machine 3 3 2 4 4 0) else rpc.
(** The offset of the program counter in the code. *)
Definition native_pc (q : QuickFrame) : Z :=
  u32 (frame_pc q - GetCodeStart oat (method_header q)).
(** The address of an instruction, given the dex pc. *)
Definition dex_pc_ptr_at (method : MemoryRef) (dex_pc : result Z) : result (option Z) :=
  let! '(item, fields) := GetCodeItem sdk c method in
  if nz (vaddr item) then
    let! dex_pc := dex_pc in
    match fields with
    | Some f => Ok (Some (u64 (vaddr item + Dex.code_offset_ f + u32 (2 * dex_pc))))
    | None => Fault
    end
  else Ok None.
Definition QuickFrame_GetDexPcPtr (q : QuickFrame) : result Z :=
  let! '(q, method) := QuickFrame_GetMethod q in
  let! native := method_is sdk c Method_IsNative method in
  if native : bool then Ok 0
  else if nz (vaddr (method_header q)) then
    let! optimized := IsOptimized oat c dlsym (method_header q) in
    if optimized : bool then
      let! dex_pc := Header_NativePc2DexPc oat left c dlsym (method_header q) (native_pc q) in
      let! p := dex_pc_ptr_at method (Ok dex_pc) in Ok (default 0 p)
    else NterpGetFrameDexPcPtr (qf_ref q) method
  else Ok 0.
(** [GetVRegs()]; [cached] are the registers found before. *)
Definition QuickFrame_GetVRegs (q : QuickFrame) (cached : gmap Z (Z * Z))
    : result (gmap Z (Z * Z)) :=
  if negb (bool_decide (cached = ∅)) then Ok cached
  else
    let! '(q, method) := QuickFrame_GetMethod q in
    let! native := method_is sdk c Method_IsNative method in
    if native : bool then Ok cached
    else if nz (vaddr (method_header q)) then
      let! optimized := IsOptimized oat c dlsym (method_header q) in
      if optimized : bool then
        Header_NativePc2VRegs sdk oat left c dlsym (method_header q) (native_pc q) cached method
      else NterpGetFrameVRegs (qf_ref q) method cached
    else Ok cached.

(** The arguments of reference type, by the shorty; its first letter is the return type. *)
Definition kObject : Z := 76.
Definition GetNumberOfReferenceArgsWithoutReceiver (method : MemoryRef) : result Z :=
  let! '(len, shorty) := GetShorty sdk c method in
  match len with
  | None => Fault
  | Some len =>
      (fix go (n : nat) (i refs : Z) : result Z :=
         match n with
         | O => Ok refs
         | S n =>
             match (shorty ++ [0]) !! Z.to_nat i with
             | None => Fault
             | Some ch => go n (i + 1) (if ch =? kObject then u32 (refs + 1) else refs)
             end
         end) (Z.to_nat (len - 1)) 1 0
  end.
(** [HandleScope::SizeOf(num_references)]: for each reference the size of an object. *)
Definition HandleScope_SizeOf (num_references : Z) : Z :=
  u32 (HandleScope_THIS (HandleScope_table sdk) + u32 (Object_THIS * num_references)).
Definition refs_and_args : QuickMethodFrameInfo := Runtime_GetMethodFrameInfo kSaveRefsAndArgs.
(** The frame of a generic JNI stub. *)
Definition jni_frame (method : MemoryRef) : result QuickMethodFrameInfo :=
  if Sdk.R <=? sdk then Ok refs_and_args
  else
    let! n := GetNumberOfReferenceArgsWithoutReceiver method in
    let scope_size := HandleScope_SizeOf (u32 (n + 1)) in
    Ok {| frame_size_in_bytes :=
            RoundUp 32 (u32 (frame_size_in_bytes refs_and_args + scope_size)) kStackAlignment;
          core_spill_mask := core_spill_mask refs_and_args;
          fp_spill_mask := fp_spill_mask refs_and_args |}.
(** The frame of a method without a header. *)
Definition stub_frame (method : MemoryRef) : result QuickMethodFrameInfo :=
  let! abstract := method_is sdk c Method_IsAbstract method in
  if abstract : bool then Ok refs_and_args
  else
    let! r := IsRuntimeMethod sdk c method in
    if r : bool then GetRuntimeMethodFrameInfo sdk c rt runtime method
    else
      let! proxy := IsProxyMethod sdk c method in
      if proxy : bool then Ok refs_and_args else jni_frame method.
Definition QuickFrame_GetFrameInfo (q : QuickFrame)
    : result (QuickFrame * QuickMethodFrameInfo) :=
  let h := method_header q in
  if nz (vaddr h) then
    let! optimized := (if Sdk.R <=? sdk then IsOptimized oat c dlsym h else Ok true) in
    if optimized : bool then let! i := GetFrameInfo oat c dlsym h in Ok (q, i)
    else let! '(q, method) := QuickFrame_GetMethod q in let! i := NterpFrameInfo method in Ok (q, i)
  else let! '(q, method) := QuickFrame_GetMethod q in let! i := stub_frame method in Ok (q, i).

(** [RegisterDesc(idx, compat)]. *)
Definition RegisterDesc (idx : Z) (compat : bool) : list Z :=
  let table :=
    if (machine =? EM_AARCH64) && compat then arm64_kWRegisterNames else register_names in
  let sb := if idx <? 0 then [] else RegisterName table idx in
  match sb with [] => chars "r" ++ to_string idx | _ => sb end.

(** * Frames of the interpreter *)

Definition sf_word (f : ShadowFrame_OffsetTable -> Z) (s : MemoryRef) : result Z :=
  vword c s (f (ShadowFrame_table sdk)).
Definition sf_number (f : ShadowFrame_OffsetTable -> Z) (s : MemoryRef) : result Z :=
  word c s (f (ShadowFrame_table sdk)) 4.
Definition ShadowFrame_GetMethod (s : MemoryRef) : result MemoryRef :=
  let! v := sf_word sf_method_ s in Ok (ref_at v).
Definition ShadowFrame_link (s : MemoryRef) : result MemoryRef :=
  let! v := sf_word sf_link_ s in Ok (ref_at v).
Definition ShadowFrame_GetDexPcPtr (s : MemoryRef) : result Z :=
  let! p := sf_word sf_dex_pc_ptr_ s in
  let! computed :=
    (if negb (nz p) || (Sdk.W <=? sdk) then
       let! method := ShadowFrame_GetMethod s in
       dex_pc_ptr_at method (sf_number sf_dex_pc_ s)
     else Ok None) in
  match computed with Some q => Ok q | None => sf_word sf_dex_pc_ptr_ s end.
Definition ShadowFrame_GetVRegs (s : MemoryRef) (cached : gmap Z (Z * Z))
    : result (gmap Z (Z * Z)) :=
  if negb (bool_decide (cached = ∅)) then Ok cached
  else
    let! n := sf_number sf_number_of_vregs_ s in
    let r := ref_at (u64 (vaddr s + sf_vregs_ (ShadowFrame_table sdk))) in
    read_vregs (Z.to_nat n) r (if Sdk.P <=? sdk then 0 else 1) 0 cached.

(** * Fragments of the stack *)

Definition GetTaggedTopQuickFrame (m : MemoryRef) : MemoryRef :=
  ref_from c (u64 (vaddr m + ms_tagged_top_quick_frame_ ManagedStack_Init)) m.
(** [GetSp()] of the tagged word; its low bits are the tags. *)
Definition GetSp (r : MemoryRef) : result Z :=
  let! '(r, v) := valueOf c r 0 in
  match ref_block r with
  | Some id => Ok (Z.land v (Z.land (bnot 64 3) (mPointMask (lb c id))))
  | None => Fault
  end.
Definition stack_tag (mask : Z) (m : MemoryRef) : result bool :=
  let! v := vword c (GetTaggedTopQuickFrame m) 0 in Ok (nz (Z.land v mask)).
Definition GetTopQuickFrameGenericJniTag := stack_tag 1.
Definition GetTopQuickFrameJitJniTag := stack_tag 2.
Definition GetTopShadowFrame (m : MemoryRef) : result MemoryRef :=
  let! v := vword c m (ms_top_shadow_frame_ ManagedStack_Init) in Ok (ref_at v).
Definition GetTopQuickFrame (m : MemoryRef) : result MemoryRef :=
  let! sp := GetSp (GetTaggedTopQuickFrame m) in Ok (ref_at sp).
Definition ManagedStack_link (m : MemoryRef) : result MemoryRef :=
  let! v := vword c m (ms_link_ ManagedStack_Init) in Ok (ref_at v).

(** * The walk *)

Record JavaFrame := {
  jf_method : MemoryRef; jf_quick_frame : QuickFrame; jf_shadow_frame : MemoryRef;
  jf_prev_quick_frame : QuickFrame }.
Record StackVisitor := {
  java_frames_ : list JavaFrame; cur_shadow_frame_ : MemoryRef; cur_quick_frame_ : QuickFrame;
  prev_quick_frame_ : QuickFrame }.
Definition no_quick_frame : QuickFrame := quick_frame_of (ref_at 0).
Definition reset_frames (shadow : MemoryRef) (quick prev : QuickFrame) (s : StackVisitor)
    : StackVisitor :=
  {| java_frames_ := java_frames_ s; cur_shadow_frame_ := shadow; cur_quick_frame_ := quick;
     prev_quick_frame_ := prev |}.
Definition set_shadow (shadow : MemoryRef) (s : StackVisitor) : StackVisitor :=
  reset_frames shadow (cur_quick_frame_ s) (prev_quick_frame_ s) s.
Definition set_quick (q : QuickFrame) (s : StackVisitor) : StackVisitor :=
  reset_frames (cur_shadow_frame_ s) q (prev_quick_frame_ s) s.
Definition push_frame (f : JavaFrame) (s : StackVisitor) : StackVisitor :=
  {| java_frames_ := java_frames_ s ++ [f]; cur_shadow_frame_ := cur_shadow_frame_ s;
     cur_quick_frame_ := cur_quick_frame_ s; prev_quick_frame_ := prev_quick_frame_ s |}.
(** Code of [QuickFrame] that updates the current frame. *)
Definition on_quick {A} (f : QuickFrame -> result (QuickFrame * A)) : prog StackVisitor A :=
  on_part cur_quick_frame_ (fun s q => set_quick q s) f.

Definition Visitor_GetMethod : prog StackVisitor MemoryRef :=
  let$ s := get in
  if nz (vaddr (cur_shadow_frame_ s)) then lift (ShadowFrame_GetMethod (cur_shadow_frame_ s))
  else if nz (vaddr (qf_ref (cur_quick_frame_ s))) then on_quick QuickFrame_GetMethod
  else pret (ref_at 0).
(** [StackVisitor_VisitFrame()], which always continues. *)
Definition StackVisitor_VisitFrame : prog StackVisitor unit :=
  let$ method := Visitor_GetMethod in
  let$ r := lift (IsRuntimeMethod sdk c method) in
  if r : bool then pret tt
  else
    modify (fun s => push_frame
      {| jf_method := method; jf_quick_frame := cur_quick_frame_ s;
         jf_shadow_frame := cur_shadow_frame_ s; jf_prev_quick_frame := prev_quick_frame_ s |} s).

(** The header of a native method at the top of a fragment; [None] leaves it. *)
Definition native_header (fuel : nat) (fragment method : MemoryRef)
    : result (option MemoryRef) :=
  let! generic := GetTopQuickFrameGenericJniTag fragment in
  if generic : bool then Ok (Some (ref_at 0))
  else
    let! jit_tag := GetTopQuickFrameJitJniTag fragment in
    if jit_tag : bool then
      let! jit := GetJit c rt runtime in
      let! cc := GetCodeCache sdk c jit in
      let! code := GetJniStubCode sdk c fuel cc method in Ok (Some (FromCodePointer oat code))
    else
      let! existing_entry_point := GetEntryPointFromQuickCompiledCode sdk c method in
      let! _ := GetClassLinker c rt runtime in
      if negb (IsQuickGenericJniStub dlsym existing_entry_point)
         && negb (IsQuickResolutionStub dlsym existing_entry_point)
      then Ok (Some (FromEntryPoint oat existing_entry_point)) else Ok None.

Context (hf : Z -> Z).

(** Leaving a frame: the frame above it and the program counter there. *)
Definition next_frame : prog StackVisitor unit :=
  let$ frame_info := on_quick QuickFrame_GetFrameInfo in
  let$ s := get in
  let q := cur_quick_frame_ s in
  let sp := vaddr (qf_ref q) in
  let$ return_pc := lift (vword c (ref_at (GetReturnPcAddr frame_info sp)) 0) in
  let next := quick_frame_of (ref_from c (u64 (sp + frame_size_in_bytes frame_info)) (qf_ref q)) in
  modify (reset_frames (cur_shadow_frame_ s) (SetFramePc (ReturnPc2FramePc return_pc) next) q).
(** [while (method.Ptr())]; [inner] is the fuel of the lookups of code. *)
Fixpoint quick_loop (fuel inner : nat) (method : MemoryRef) (header_retrieved : bool)
    : prog StackVisitor unit :=
  if nz (vaddr method) then
    match fuel with
    | O => lift OutOfFuel
    | S n =>
        let$ s := get in
        let$ _ :=
          (if header_retrieved then pret tt
           else
             let$ h := lift (GetOatQuickMethodHeader sdk oat c dlsym hf inner rt runtime method
                               (frame_pc (cur_quick_frame_ s))) in
             modify (set_quick (set_method_header h (cur_quick_frame_ s)))) in
        let$ _ := StackVisitor_VisitFrame in
        let$ _ := next_frame in
        let$ method := on_quick QuickFrame_GetMethod in
        quick_loop n inner method false
    end
  else pret tt.
Definition walk_quick (fuel inner : nat) (fragment : MemoryRef) : prog StackVisitor unit :=
  let$ s := get in
  let$ v := lift (vword c (qf_ref (cur_quick_frame_ s)) 0) in
  let method := ref_at v in
  let$ native := lift (method_is sdk c Method_IsNative method) in
  let$ _ :=
    (if native : bool then
       let$ h := lift (native_header inner fragment method) in
       match h with
       | Some h => modify (fun s => set_quick (set_method_header h (cur_quick_frame_ s)) s)
       | None => pret tt
       end
     else pret tt) in
  let$ _ := quick_loop fuel inner method native in
  modify (fun s => set_quick (set_method_header (ref_at 0) (cur_quick_frame_ s)) s).
(** [do ... while (cur_shadow_frame_.Ptr())]. *)
Fixpoint shadow_loop (fuel : nat) : prog StackVisitor unit :=
  match fuel with
  | O => lift OutOfFuel
  | S n =>
      let$ _ := StackVisitor_VisitFrame in
      let$ s := get in
      let$ link := lift (ShadowFrame_link (cur_shadow_frame_ s)) in
      let$ _ := modify (set_shadow link) in
      if nz (vaddr link) then shadow_loop n else pret tt
  end.
(** The reads of a fragment's tops. *)
Definition load_fragment (fragment : MemoryRef) : prog StackVisitor unit :=
  let$ shadow := lift (GetTopShadowFrame fragment) in
  let$ _ := modify (set_shadow shadow) in
  let$ quick := lift (GetTopQuickFrame fragment) in
  modify (reset_frames shadow (quick_frame_of quick) no_quick_frame).
(** What is done with a fragment then; [fake] is the frame that the user has set for the
    thread, which replaces the tops of the first fragment. *)
Definition walk_fragment (fuel : nat) (fake : QuickFrame) (fragment : MemoryRef)
    (first_stack : bool) : prog StackVisitor unit :=
  let$ _ :=
    (if first_stack then
       let$ valid := lift (valid_ref c (qf_ref fake)) in
       if valid : bool then modify (reset_frames (ref_at 0) fake no_quick_frame) else pret tt
     else pret tt) in
  let$ s := get in
  if nz (vaddr (qf_ref (cur_quick_frame_ s))) then walk_quick fuel fuel fragment
  else if nz (vaddr (cur_shadow_frame_ s)) then shadow_loop fuel
  else pret tt.
(** The fragments; an exception ends its fragment only, but the link is read outside of the
    [try].  A fragment whose tops cannot be read leaves [first_stack] set. *)
Fixpoint fragment_loop (fuel inner : nat) (fake : QuickFrame) (fragment : MemoryRef)
    (first_stack : bool) : prog StackVisitor unit :=
  if nz (vaddr fragment) then
    match fuel with
    | O => lift OutOfFuel
    | S n =>
        let$ loaded :=
          ptry (let$ _ := load_fragment fragment in pret true) (fun _ => pret false) in
        let$ _ :=
          (if loaded : bool then
             ptry (walk_fragment inner fake fragment first_stack) (fun _ => pret tt)
           else pret tt) in
        let$ next := lift (ManagedStack_link fragment) in
        fragment_loop n inner fake next (first_stack && negb loaded)
    end
  else pret tt.
(** [GetTlsPtr()] of a thread and [managed_stack()] there. *)
Definition GetTlsPtr (thread : MemoryRef) : MemoryRef :=
  ref_from c (u64 (vaddr thread + th_tlsPtr_ (Thread_table sdk))) thread.
Definition tls_word (f : tls_ptr_sized_values_OffsetTable -> Z) (thread : MemoryRef) : result Z :=
  vword c (GetTlsPtr thread) (f (tls_ptr_sized_values_table sdk)).
Definition managed_stack (thread : MemoryRef) : MemoryRef :=
  ref_at (u64 (vaddr (GetTlsPtr thread) + tls_managed_stack (tls_ptr_sized_values_table sdk))).
(** [StackVisitor::WalkStack()]. *)
Definition StackVisitor_WalkStack (fuel inner : nat) (thread : MemoryRef) (fake : QuickFrame)
    : prog StackVisitor unit :=
  let$ _ := modify (fun s =>
    {| java_frames_ := []; cur_shadow_frame_ := cur_shadow_frame_ s;
       cur_quick_frame_ := cur_quick_frame_ s; prev_quick_frame_ := prev_quick_frame_ s |}) in
  fragment_loop fuel inner fake (managed_stack thread) true.
(** [StackVisitor::GetTopMethod()]. *)
Definition GetTopMethod (thread : MemoryRef) : prog StackVisitor MemoryRef :=
  let fragment := managed_stack thread in
  let$ _ := modify (fun s => reset_frames (ref_at 0) no_quick_frame (prev_quick_frame_ s) s) in
  let$ _ :=
    (if nz (vaddr fragment) then
       let$ shadow := lift (GetTopShadowFrame fragment) in
       let$ _ := modify (set_shadow shadow) in
       let$ quick := lift (GetTopQuickFrame fragment) in
       modify (set_quick (quick_frame_of quick))
     else pret tt) in
  Visitor_GetMethod.

(** [JavaFrame::GetDexPcPtr()] and [GetVRegs()]. *)
Definition JavaFrame_GetDexPcPtr (f : JavaFrame) : result Z :=
  if nz (vaddr (jf_shadow_frame f)) then ShadowFrame_GetDexPcPtr (jf_shadow_frame f)
  else if nz (vaddr (qf_ref (jf_quick_frame f))) then QuickFrame_GetDexPcPtr (jf_quick_frame f)
  else Ok 0.
Definition JavaFrame_GetVRegs (f : JavaFrame) (cached : gmap Z (Z * Z))
    : result (gmap Z (Z * Z)) :=
  if nz (vaddr (jf_shadow_frame f)) then ShadowFrame_GetVRegs (jf_shadow_frame f) cached
  else if nz (vaddr (qf_ref (jf_quick_frame f)))
  then QuickFrame_GetVRegs (jf_quick_frame f) cached
  else Ok ∅.
End Stacks.
