(* ===== verification/JavaStackProofs.v ===== *)
(** Theorems about [JavaStack]: the walk of a thread's stack against the list of its frames. *)

From Stdlib Require Import ZArith Lia Bool String.
From stdpp Require Import base list gmap numbers.
From S2P Require Import Prelude Words Host Blocks Notes CoreApi Segments AddressSpace MemRef Elf.
From S2P Require Import Bits OatCode OatVRegs Mirrors Cxx Reading Dex RuntimeTables OatFiles Frames.
From S2P Require Import Runtimes Methods QuickHeaders Jit JavaStack.
Open Scope Z_scope.

(** A compiled frame and a frame of the interpreter, as the stack has them. *)
Record compiled := {
  cf_sp : Z; cf_method : Z; cf_pc : Z; cf_header : MemoryRef; cf_runtime : bool;
  cf_info : QuickMethodFrameInfo; cf_ret : Z }.
Record interpreted := { if_addr : Z; if_method : Z; if_runtime : bool }.
Inductive fragment := Compiled (fs : list compiled) | Interpreted (fs : list interpreted).
Definition frames_in (f : fragment) : nat :=
  match f with Compiled fs => length fs | Interpreted fs => length fs end.

(** What is seen of a frame: the method, the frame and its program counter, the header, the
    frame of the interpreter, the frame below. *)
Definition seen : Type := Z * Z * Z * MemoryRef * Z * Z.
Definition view (f : JavaFrame) : seen :=
  (vaddr (jf_method f), vaddr (qf_ref (jf_quick_frame f)), frame_pc (jf_quick_frame f),
   method_header (jf_quick_frame f), vaddr (jf_shadow_frame f),
   vaddr (qf_ref (jf_prev_quick_frame f))).
Definition compiled_seen (prev : Z) (f : compiled) : list seen :=
  if cf_runtime f then [] else [(cf_method f, cf_sp f, cf_pc f, cf_header f, 0, prev)].
Fixpoint all_compiled (prev : Z) (fs : list compiled) : list seen :=
  match fs with [] => [] | f :: fs => compiled_seen prev f ++ all_compiled (cf_sp f) fs end.
Definition interpreted_seen (f : interpreted) : list seen :=
  if if_runtime f then [] else [(if_method f, 0, 0, ref_at 0, if_addr f, 0)].
Definition fragment_seen (f : fragment) : list seen :=
  match f with
  | Compiled fs => all_compiled 0 fs
  | Interpreted fs => flat_map interpreted_seen fs
  end.

Section Walk.
Context {M : Machine} (sdk oat : Z) (c : CoreApi) (run : Z -> Z -> option (list Z))
  `{!Presents c run} (dlsym : string -> Z) (hf : Z -> Z).
Context (rt : Runtime_OffsetTable) (runtime : MemoryRef) (inner : nat).
Abbreviation ptr := (pointer_at c run).
Abbreviation frame_info_of := (QuickFrame_GetFrameInfo sdk oat c dlsym rt runtime).

(** * The stack of the target *)

(** The program counter in the frame above a return address. *)
Definition pc_above (ret : Z) : Z := frame_pc (SetFramePc c (ReturnPc2FramePc ret) no_quick_frame).
Definition quick_of (f : compiled) : QuickFrame :=
  {| qf_ref := ref_at (cf_sp f); qf_method := ref_at (cf_method f);
     method_header := cf_header f; frame_pc := cf_pc f |}.
Definition compiled_ok (f : compiled) : Prop :=
  ptr (cf_sp f) 0 (cf_method f) /\ cf_method f <> 0 /\
  IsRuntimeMethod sdk c (ref_at (cf_method f)) = Ok (cf_runtime f) /\
  frame_info_of (quick_of f) = Ok (quick_of f, cf_info f) /\
  ptr (GetReturnPcAddr (cf_info f) (cf_sp f)) 0 (cf_ret f).
Definition header_found (f : compiled) : Prop :=
  GetOatQuickMethodHeader sdk oat c dlsym hf inner rt runtime (ref_at (cf_method f)) (cf_pc f)
    = Ok (cf_header f).
(** Frames from [sp] up, the first with program counter [pc]; the last is followed by a
    null method. *)
Fixpoint callers (sp pc : Z) (fs : list compiled) : Prop :=
  match fs with
  | [] => ptr sp 0 0
  | f :: fs =>
      cf_sp f = sp /\ cf_pc f = pc /\ compiled_ok f /\ header_found f /\
      callers (u64 (sp + frame_size_in_bytes (cf_info f))) (pc_above (cf_ret f)) fs
  end.
(** The header of the frame at the top; a native method has none of its own. *)
Definition top_header (a : Z) (f : compiled) : Prop :=
  exists native, method_is sdk c Method_IsNative (ref_at (cf_method f)) = Ok native /\
    if native : bool then
      exists oh, native_header sdk oat c dlsym rt runtime inner (ref_at a) (ref_at (cf_method f))
          = Ok oh /\ cf_header f = default (ref_at 0) oh
    else header_found f.
Fixpoint interpreters (a : Z) (fs : list interpreted) : Prop :=
  match fs with
  | [] => a = 0
  | f :: fs =>
      if_addr f = a /\ ptr a (sf_method_ (ShadowFrame_table sdk)) (if_method f) /\
      IsRuntimeMethod sdk c (ref_at (if_method f)) = Ok (if_runtime f) /\
      exists next, ptr a (sf_link_ (ShadowFrame_table sdk)) next /\ interpreters next fs
  end.
Definition fragment_at (a : Z) (f : fragment) : Prop :=
  exists tagged shadow, ptr a 0 tagged /\ ptr a (ms_top_shadow_frame_ ManagedStack_Init) shadow /\
    let sp := Z.land tagged (bnot 64 3) in
    match f with
    | Compiled [] => False
    | Compiled (f :: fs) =>
        shadow = 0 /\ cf_sp f = sp /\ cf_pc f = 0 /\ compiled_ok f /\ top_header a f /\
        callers (u64 (sp + frame_size_in_bytes (cf_info f))) (pc_above (cf_ret f)) fs
    | Interpreted fs => sp = 0 /\ interpreters shadow fs
    end.
Fixpoint fragments (a : Z) (l : list fragment) : Prop :=
  match l with
  | [] => a = 0
  | f :: l => fragment_at a f /\
      exists next, ptr a (ms_link_ ManagedStack_Init) next /\ fragments next l
  end.

(** * One compiled frame *)

(** Once the method is read, the frame's reference does not matter. *)
Definition frame_info (h m : MemoryRef) : result QuickMethodFrameInfo :=
  if nz (vaddr h) then
    let! optimized := (if Sdk.R <=? sdk then IsOptimized oat c dlsym h else Ok true) in
    if optimized : bool then GetFrameInfo oat c dlsym h else NterpFrameInfo sdk c m
  else stub_frame sdk c rt runtime m.
Lemma frame_info_eq q :
  vaddr (qf_method q) <> 0 ->
  frame_info_of q = (let! i := frame_info (method_header q) (qf_method q) in Ok (q, i)).
Proof.
  intros Hm. unfold QuickFrame_GetFrameInfo, frame_info, QuickFrame_GetMethod.
  replace (nz (vaddr (qf_method q))) with true
    by (unfold nz; by rewrite (proj2 (Z.eqb_neq _ 0) Hm)).
  cbn [rbind]. destruct (nz _); [|done].
  by destruct (if Sdk.R <=? sdk then _ else _) as [[]| | |].
Qed.
Lemma frame_info_ref f r :
  compiled_ok f ->
  let q := {| qf_ref := r; qf_method := ref_at (cf_method f); method_header := cf_header f;
              frame_pc := cf_pc f |} in
  frame_info_of q = Ok (q, cf_info f).
Proof.
  intros (_ & Hm & _ & Hi & _) q. subst q. rewrite frame_info_eq in Hi |- * by exact Hm.
  cbn [method_header qf_method quick_of] in *. res_inv. simplify_eq.
  by replace (frame_info _ _) with (Ok (cf_info f)).
Qed.

(** Reading the method of the current frame. *)
Lemma GetMethod_at q m :
  ref_ok c (qf_ref q) -> ptr (vaddr (qf_ref q)) 0 m ->
  qf_method q = ref_at 0 \/ qf_method q = ref_at m ->
  QuickFrame_GetMethod c q = Ok (set_method (ref_at m) q, ref_at m).
Proof.
  intros Hr Hp Hm. unfold QuickFrame_GetMethod, nz.
  destruct (Z.eqb_spec (vaddr (qf_method q)) 0) as [E|E]; cbn [negb].
  - by rewrite (pointer_word c run _ _ _ _ Hr eq_refl Hp).
  - destruct Hm as [Hm|Hm]; rewrite Hm in E |- *; [done|]. destruct q. cbn in *. by subst.
Qed.

(** The state of the walk at a compiled frame. *)
Definition at_frame (f : compiled) (prev : Z) (s : StackVisitor) : Prop :=
  let q := cur_quick_frame_ s in
  vaddr (cur_shadow_frame_ s) = 0 /\ ref_ok c (qf_ref q) /\ vaddr (qf_ref q) = cf_sp f /\
  frame_pc q = cf_pc f /\
  (qf_method q = ref_at 0 \/ qf_method q = ref_at (cf_method f)) /\
  vaddr (qf_ref (prev_quick_frame_ s)) = prev.

Definition views (s : StackVisitor) : list seen := map view (java_frames_ s).

Lemma VisitFrame_at f prev s :
  compiled_ok f -> at_frame f prev s -> method_header (cur_quick_frame_ s) = cf_header f ->
  exists s', StackVisitor_VisitFrame sdk c s = (s', Ok tt) /\ views s' = views s ++ compiled_seen prev f /\
    cur_shadow_frame_ s' = cur_shadow_frame_ s /\
    cur_quick_frame_ s' = set_method (ref_at (cf_method f)) (cur_quick_frame_ s).
Proof.
  intros (Hp & Hm & Hrt & _) (Hs & Hr & Ha & Hpc & Hq & Hprev) Hh.
  unfold StackVisitor_VisitFrame, Visitor_GetMethod. cbn [pbind get].
  unfold pbind at 1 2. unfold get, nz. rewrite Hs. cbn [negb Z.eqb].
  pose proof (pointer_at_range c run _ _ _ Hp) as Hrange.
  rewrite (proj2 (Z.eqb_neq (vaddr (qf_ref _)) 0)) by lia. cbn [negb]. unfold on_quick, on_part.
  rewrite (GetMethod_at _ (cf_method f)) by (rewrite ?Ha; done).
  rewrite (pbind_lift _ _ _ _ Hrt). unfold compiled_seen. destruct (cf_runtime f).
  - eexists. split; [done|]. by rewrite app_nil_r.
  - eexists. split; [done|]. unfold views, modify. cbn. rewrite map_app. cbn.
    unfold view. cbn. by rewrite Ha, Hpc, Hh, Hs, Hprev.
Qed.
Lemma next_frame_at f s :
  compiled_ok f -> ref_ok c (qf_ref (cur_quick_frame_ s)) ->
  vaddr (qf_ref (cur_quick_frame_ s)) = cf_sp f ->
  qf_method (cur_quick_frame_ s) = ref_at (cf_method f) ->
  method_header (cur_quick_frame_ s) = cf_header f ->
  exists s', next_frame sdk oat c dlsym rt runtime s = (s', Ok tt) /\ views s' = views s /\
    cur_shadow_frame_ s' = cur_shadow_frame_ s /\
    vaddr (qf_ref (prev_quick_frame_ s')) = cf_sp f /\
    exists r, ref_ok c r /\ vaddr r = u64 (cf_sp f + frame_size_in_bytes (cf_info f)) /\
      cur_quick_frame_ s' = SetFramePc c (ReturnPc2FramePc (cf_ret f)) (quick_frame_of r).
Proof.
  intros Hf Hr Ha Hm Hh. destruct s as [fs sh [r0 m h pc] pv]. cbn in *. subst m h.
  unfold next_frame, on_quick, on_part. unfold pbind at 1. cbn [cur_quick_frame_].
  rewrite (frame_info_eq _) by apply Hf. pose proof (frame_info_ref f r0 Hf) as Hi. cbn in Hi.
  rewrite frame_info_eq in Hi by apply Hf. cbn in Hi |- *. res_inv. simplify_eq.
  match goal with E : frame_info _ _ = _ |- _ => rewrite E end.
  unfold pbind, get, lift, modify, set_quick. cbn. rewrite Ha.
  pose proof (pointer_at_range c run _ _ _ (proj2 (proj2 (proj2 (proj2 Hf))))) as Hrange.
  rewrite (pointer_word c run _ (GetReturnPcAddr (cf_info f) (cf_sp f)) _ (cf_ret f))
    by first [apply ref_at_ok; lia|done|apply Hf].
  eexists. split_and!; [done..|]. eexists. split_and!; [|apply ref_from_vaddr|done].
  by apply ref_from_ok with run; [done..|apply wrap_range].
Qed.

(** The method of the first of some frames. *)
Definition first_method (fs : list compiled) : Z :=
  match fs with [] => 0 | f :: _ => cf_method f end.
Lemma callers_method sp pc fs : callers sp pc fs -> ptr sp 0 (first_method fs).
Proof. destruct fs as [|f fs]; [done|]. intros (<- & _ & Hf & _). apply Hf. Qed.

(** The state of the walk before a frame of [fs], or at their end. *)
Definition before (sp pc prev : Z) (fs : list compiled) (s : StackVisitor) : Prop :=
  vaddr (cur_shadow_frame_ s) = 0 /\ ref_ok c (qf_ref (cur_quick_frame_ s)) /\
  vaddr (qf_ref (cur_quick_frame_ s)) = sp /\ frame_pc (cur_quick_frame_ s) = pc /\
  qf_method (cur_quick_frame_ s) = ref_at (first_method fs) /\
  vaddr (qf_ref (prev_quick_frame_ s)) = prev.

(** One round of the walk, whatever follows. *)
Lemma round {A} f fs prev s (k : MemoryRef -> prog StackVisitor A) :
  compiled_ok f -> at_frame f prev s -> method_header (cur_quick_frame_ s) = cf_header f ->
  let sp := u64 (cf_sp f + frame_size_in_bytes (cf_info f)) in
  let pc := pc_above (cf_ret f) in
  callers sp pc fs ->
  exists s', before sp pc (cf_sp f) fs s' /\ views s' = views s ++ compiled_seen prev f /\
    (let$ _ := StackVisitor_VisitFrame sdk c in
     let$ _ := next_frame sdk oat c dlsym rt runtime in
     let$ method := on_quick (QuickFrame_GetMethod c) in k method) s
      = k (ref_at (first_method fs)) s'.
Proof.
  intros Hf Hat Hh sp pc Hc.
  destruct (VisitFrame_at f prev s Hf Hat Hh) as (s1 & E1 & V1 & S1 & Q1).
  pose proof Hat as (Hs & Hr & Ha & _).
  destruct (next_frame_at f s1 Hf) as (s2 & E2 & V2 & S2 & P2 & r & Hr2 & Ha2 & Q2);
    [by rewrite Q1..|].
  rewrite (pbind_Ok _ _ _ _ _ E1), (pbind_Ok _ _ _ _ _ E2). unfold pbind, on_quick, on_part.
  rewrite (GetMethod_at _ (first_method fs)).
  - eexists. split; [|split; [|done]]; [|by rewrite <- V1, <- V2].
    unfold before. cbn. rewrite S2, S1, Q2. by split_and!.
  - by rewrite Q2.
  - rewrite Q2. cbn. rewrite Ha2. by apply callers_method with pc.
  - rewrite Q2. by left.
Qed.

(** A round of the loop, by its equation. *)
Lemma quick_loop_round fuel n m header_retrieved s :
  n = S fuel -> m <> 0 ->
  quick_loop sdk oat c dlsym rt runtime hf n inner (ref_at m) header_retrieved s =
  (let$ s := get in
   let$ _ :=
     (if header_retrieved then pret tt
      else
        let$ h := lift (GetOatQuickMethodHeader sdk oat c dlsym hf inner rt runtime (ref_at m)
                          (frame_pc (cur_quick_frame_ s))) in
        modify (set_quick (set_method_header h (cur_quick_frame_ s)))) in
   let$ _ := StackVisitor_VisitFrame sdk c in
   let$ _ := next_frame sdk oat c dlsym rt runtime in
   let$ method := on_quick (QuickFrame_GetMethod c) in
   quick_loop sdk oat c dlsym rt runtime hf fuel inner method false) s.
Proof. intros -> Hm. cbn [quick_loop]. unfold nz. cbn. by rewrite (proj2 (Z.eqb_neq m 0) Hm). Qed.

(** The walk along the compiled frames. *)
Lemma quick_loop_callers fs : forall fuel sp pc prev s,
  callers sp pc fs -> before sp pc prev fs s -> (length fs <= fuel)%nat ->
  exists s', quick_loop sdk oat c dlsym rt runtime hf fuel inner (ref_at (first_method fs)) false s
      = (s', Ok tt) /\
    views s' = views s ++ all_compiled prev fs.
Proof.
  induction fs as [|f fs IH]; intros fuel sp pc prev s Hc Hb Hfuel.
  { exists s. split; [by destruct fuel|by rewrite app_nil_r]. }
  cbn [callers] in Hc. destruct Hc as (<- & <- & Hf & Hh & Hc). destruct Hb as (Hs & Hr & Ha & Hpc & Hm & Hprev).
  destruct fuel as [|fuel]; [cbn in Hfuel; lia|]. cbn [all_compiled first_method].
  rewrite (quick_loop_round fuel) by (done || apply Hf).
  unfold pbind at 1. unfold get at 1. unfold pbind at 1. unfold pbind at 1. unfold lift at 1.
  rewrite Hpc, Hh. unfold modify at 1.
  destruct (round f fs prev (set_quick (set_method_header (cf_header f) (cur_quick_frame_ s)) s)
    (fun m => quick_loop sdk oat c dlsym rt runtime hf fuel inner m false))
    as (s1 & Hb1 & V1 & ->); [done| |done..|].
  { unfold at_frame. cbn. split_and!; try congruence; by right. }
  destruct (IH fuel _ _ _ s1 Hc Hb1) as (s2 & -> & V2); [cbn in Hfuel; lia|].
  exists s2. split; [done|]. by rewrite V2, V1, <- app_assoc.
Qed.

(** * Fragments *)

(** The current frame has its header. *)
Definition with_current (h : MemoryRef) (s : StackVisitor) : StackVisitor :=
  set_quick (set_method_header h (cur_quick_frame_ s)) s.
Lemma with_current_id s : with_current (method_header (cur_quick_frame_ s)) s = s.
Proof. by destruct s as [? ? [] ?]. Qed.

Lemma walk_quick_at a f fs s :
  top_header a f -> compiled_ok f -> at_frame f 0 s -> qf_method (cur_quick_frame_ s) = ref_at 0 ->
  method_header (cur_quick_frame_ s) = ref_at 0 -> cf_pc f = 0 ->
  callers (u64 (cf_sp f + frame_size_in_bytes (cf_info f))) (pc_above (cf_ret f)) fs ->
  (length (f :: fs) <= inner)%nat ->
  exists s', walk_quick sdk oat c dlsym rt runtime hf inner inner (ref_at a) s = (s', Ok tt) /\
    views s' = views s ++ all_compiled 0 (f :: fs).
Proof.
  intros (native & Hn & Hh) Hf Hat Hm0 Hh0 Hpc0 Hc Hfuel. pose proof Hat as (Hs & Hr & Ha & Hpc & _).
  assert (exists fuel, inner = S fuel) as [fuel Ei] by (exists (pred inner); cbn in Hfuel; lia).
  set (s0 := with_current (cf_header f) s).
  assert (H0 : at_frame f 0 s0) by (unfold at_frame in *; cbn; tauto).
  destruct (round f fs 0 s0 (fun m => quick_loop sdk oat c dlsym rt runtime hf fuel inner m false))
    as (s1 & Hb1 & V1 & E1); [done|done|done|done|].
  destruct (quick_loop_callers fs fuel _ _ _ s1 Hc Hb1) as (s2 & E2 & V2); [cbn in Hfuel; lia|].
  rewrite E2 in E1. exists (with_current (ref_at 0) s2).
  split; [|by unfold with_current, views in *; cbn; rewrite V2, V1, <- app_assoc].
  unfold walk_quick. unfold pbind at 1. unfold get at 1.
  rewrite (pbind_lift _ _ _ (cf_method f)) by (apply (pointer_word c run _ _ _ _ Hr Ha), Hf).
  rewrite (pbind_lift _ _ _ _ Hn).
  assert (Hm : cf_method f <> 0) by apply Hf. destruct native.
  - destruct Hh as (oh & Hnat & Hoh).
    assert (Es : (match oh with Some h => modify (fun s => set_quick (set_method_header h (cur_quick_frame_ s)) s)
      | None => pret tt end) s = (s0, Ok tt)).
    { destruct oh as [h|]; cbn in Hoh; [by unfold s0; rewrite Hoh|].
      unfold s0. by rewrite Hoh, <- Hh0, with_current_id. }
    unfold pbind at 1. unfold pbind at 1. rewrite Hnat. cbn [lift]. rewrite Es.
    unfold pbind at 1. rewrite (quick_loop_round fuel) by done.
    unfold pbind at 1. unfold get at 1. unfold pbind at 1. unfold pret at 1. by rewrite E1.
  - unfold pbind at 1. unfold pret at 1. unfold pbind at 1. rewrite (quick_loop_round fuel) by done.
    unfold pbind at 1. unfold get at 1. unfold pbind at 1. unfold pbind at 1. unfold lift at 1.
    rewrite Hpc, Hh. unfold modify at 1. fold (with_current (cf_header f) s). fold s0.
    by rewrite E1.
Qed.

(** The walk along the frames of the interpreter. *)
Definition at_shadow (a : Z) (s : StackVisitor) : Prop :=
  cur_shadow_frame_ s = ref_at a /\ cur_quick_frame_ s = no_quick_frame /\
  prev_quick_frame_ s = no_quick_frame.
Lemma VisitFrame_shadow f fs a s :
  interpreters a (f :: fs) -> at_shadow a s ->
  exists s', StackVisitor_VisitFrame sdk c s = (s', Ok tt) /\ views s' = views s ++ interpreted_seen f /\
    at_shadow a s'.
Proof.
  intros (Ha & Hm & Hrt & _) (Hs & Hq & Hprev).
  pose proof (pointer_at_range c run _ _ _ Hm).
  unfold StackVisitor_VisitFrame, Visitor_GetMethod. unfold pbind at 1 2. unfold get, nz. rewrite Hs. cbn [vaddr ref_at].
  rewrite (proj2 (Z.eqb_neq a 0)) by lia. cbn [negb]. unfold lift at 1, ShadowFrame_GetMethod, sf_word.
  rewrite (pointer_word c run _ a _ _ (ref_at_ok c a ltac:(lia)) eq_refl Hm). cbn [rbind].
  rewrite (pbind_lift _ _ _ _ Hrt). unfold interpreted_seen. destruct (if_runtime f).
  - exists s. by rewrite app_nil_r.
  - eexists. split; [done|]. split; [|done]. unfold views, modify. cbn. rewrite map_app. cbn.
    unfold view. cbn. by rewrite Hs, Hq, Hprev, Ha.
Qed.
Lemma shadow_loop_interpreters fs : forall fuel a s,
  interpreters a fs -> a <> 0 -> at_shadow a s -> (length fs <= fuel)%nat ->
  exists s', shadow_loop sdk c fuel s = (s', Ok tt) /\
    views s' = views s ++ flat_map interpreted_seen fs.
Proof.
  induction fs as [|f fs IH]; intros fuel a s Hi Hne Hat Hfuel; [done|].
  destruct fuel as [|fuel]; [cbn in Hfuel; lia|]. cbn [shadow_loop flat_map].
  destruct (VisitFrame_shadow f fs a s Hi Hat) as (s1 & E1 & V1 & Hs1 & Hq1 & Hp1).
  destruct Hi as (_ & Hm & _ & next & Hl & Hi). pose proof (pointer_at_range c run _ _ _ Hm).
  rewrite (pbind_Ok _ _ _ _ _ E1). unfold pbind at 1. unfold get at 1. rewrite Hs1.
  rewrite (pbind_lift _ _ _ (ref_at next)).
  2: { unfold ShadowFrame_link, sf_word.
       by rewrite (pointer_word c run _ a _ _ (ref_at_ok c a ltac:(lia)) eq_refl Hl). }
  unfold pbind at 1. unfold modify at 1. unfold nz. cbn [vaddr ref_at].
  set (s2 := set_shadow (ref_at next) s1).
  assert (views s2 = views s ++ interpreted_seen f) as V2 by done.
  destruct (Z.eqb_spec next 0) as [->|Hnext]; cbn [negb].
  - destruct fs as [|f' fs]; [|destruct Hi as (_ & Hm' & _);
      pose proof (pointer_at_range c run _ _ _ Hm'); lia].
    exists s2. by rewrite V2, app_nil_r.
  - destruct (IH fuel next s2 Hi Hnext) as (s3 & E3 & V3); [done|cbn in Hfuel; lia|].
    exists s3. split; [done|]. by rewrite V3, V2, <- app_assoc.
Qed.

Lemma masked_pointer v : Z.land (Z.land v (pointer_mask c)) (Z.land (bnot 64 3) (pointer_mask c))
  = Z.land (Z.land v (pointer_mask c)) (bnot 64 3).
Proof.
  apply Z.bits_inj'. intros i Hi. rewrite !Z.land_spec.
  by destruct (Z.testbit v i), (Z.testbit (pointer_mask c) i), (Z.testbit (bnot 64 3) i).
Qed.
Lemma GetTopQuickFrame_at r a tagged :
  ref_ok c r -> vaddr r = a -> ptr a 0 tagged ->
  GetTopQuickFrame c r = Ok (ref_at (Z.land tagged (bnot 64 3))).
Proof.
  intros Hr Ha Hp. pose proof (pointer_at_range c run _ _ _ Hp) as Hrange.
  unfold GetTopQuickFrame, GetSp, GetTaggedTopQuickFrame. change (ms_tagged_top_quick_frame_ _) with 0.
  rewrite Z.add_0_r, Ha, wrap_small by lia.
  assert (Hr' : ref_ok c (ref_from c a r)) by (apply ref_from_ok with run; [done..|lia]).
  destruct Hp as (w & (_ & _ & _ & bs & Hrun & Hw) & <-).
  unfold valueOf. destruct (present_load (ref_from c a r) 0 8 bs Hr') as (r' & E & _ & Hok & Hb);
    [rewrite ref_from_vaddr; lia|done..|by rewrite ref_from_vaddr|].
  rewrite E, Hw. cbn [rbind]. destruct (ref_block r') as [id|] eqn:Eb; [|done]. cbn [rbind].
  rewrite Eb, (present_mask r' id Hok Eb), masked_pointer. done.
Qed.

Lemma load_fragment_at a tagged shadow s :
  ptr a 0 tagged -> ptr a (ms_top_shadow_frame_ ManagedStack_Init) shadow ->
  load_fragment c (ref_at a) s
    = (reset_frames (ref_at shadow) (quick_frame_of (ref_at (Z.land tagged (bnot 64 3))))
         no_quick_frame s, Ok tt).
Proof.
  intros Ht Hs. pose proof (pointer_at_range c run _ _ _ Ht).
  assert (Hr : ref_ok c (ref_at a)) by (apply ref_at_ok; lia).
  unfold load_fragment, GetTopShadowFrame.
  rewrite (pointer_word c run _ a _ _ Hr eq_refl Hs). cbn [rbind]. unfold pbind, lift, modify.
  by rewrite (GetTopQuickFrame_at _ a tagged Hr eq_refl Ht).
Qed.
(** Without a frame set by the user the tops stay. *)
Lemma walk_fragment_own fuel a (first : bool) s :
  walk_fragment sdk oat c dlsym rt runtime hf fuel no_quick_frame (ref_at a) first s =
  (if nz (vaddr (qf_ref (cur_quick_frame_ s)))
   then walk_quick sdk oat c dlsym rt runtime hf fuel fuel (ref_at a)
   else if nz (vaddr (cur_shadow_frame_ s)) then shadow_loop sdk c fuel else pret tt) s.
Proof. by destruct first. Qed.

Lemma fragment_walked a f (first : bool) s :
  fragment_at a f -> (frames_in f <= inner)%nat ->
  exists s1 s2, load_fragment c (ref_at a) s = (s1, Ok tt) /\
    walk_fragment sdk oat c dlsym rt runtime hf inner no_quick_frame (ref_at a) first s1
      = (s2, Ok tt) /\
    views s2 = views s ++ fragment_seen f.
Proof.
  intros (tagged & shadow & Ht & Hs & Hf) Hn.
  eexists. rewrite (load_fragment_at a tagged shadow s Ht Hs).
  set (s1 := reset_frames _ _ _ s). rewrite walk_fragment_own.
  destruct f as [[|f fs]|fs]; [done| |].
  - destruct Hf as (-> & Hsp & Hpc & Hf & Htop & Hc).
    pose proof (pointer_at_range c run _ _ _ (proj1 Hf)) as Hrange.
    destruct (walk_quick_at a f fs s1) as (s2 & E2 & V2); try done.
    { unfold at_frame, s1. cbn. rewrite <- Hsp. split_and!; try done; [|by left].
      apply ref_at_ok; lia. }
    { by rewrite Hsp. }
    exists s2. split_and!; [done| |done].
    assert (Hnz : nz (Z.land tagged (bnot 64 3)) = true)
      by (unfold nz; rewrite <- Hsp; by rewrite (proj2 (Z.eqb_neq (cf_sp f) 0)) by lia).
    cbn [reset_frames cur_quick_frame_ quick_frame_of qf_ref vaddr ref_at]. rewrite Hnz. exact E2.
  - destruct Hf as [Hsp Hi]. cbn in Hn. revert s1. rewrite Hsp. intros s1.
    unfold nz. cbn [reset_frames cur_quick_frame_ cur_shadow_frame_ quick_frame_of qf_ref vaddr ref_at].
    cbn [Z.eqb negb]. destruct (Z.eqb_spec shadow 0) as [->|Hne]; cbn [negb].
    + exists s1. split_and!; [done..|]. destruct fs as [|f fs]; [by rewrite app_nil_r|].
      destruct Hi as (_ & Hm & _). pose proof (pointer_at_range c run _ _ _ Hm). lia.
    + destruct (shadow_loop_interpreters fs inner shadow s1 Hi Hne) as (s2 & E2 & V2); [done..|].
      by exists s2.
Qed.

Lemma fragment_loop_walked l : forall fuel a (first : bool) s,
  fragments a l -> Forall (fun f => (frames_in f <= inner)%nat) l -> (length l <= fuel)%nat ->
  exists s', fragment_loop sdk oat c dlsym rt runtime hf fuel inner no_quick_frame (ref_at a) first s
      = (s', Ok tt) /\
    views s' = views s ++ flat_map fragment_seen l.
Proof.
  induction l as [|f l IH]; intros fuel a first s Hl Hn Hfuel.
  { cbn in Hl. subst a. exists s. split; [by destruct fuel|by rewrite app_nil_r]. }
  destruct Hl as (Hf & next & Hnext & Hl). apply Forall_cons_iff in Hn as [Hn Hns].
  destruct fuel as [|fuel]; [cbn in Hfuel; lia|].
  pose proof (pointer_at_range c run _ _ _ Hnext) as Hrange. cbn [fragment_loop flat_map].
  unfold nz. cbn [vaddr ref_at]. rewrite (proj2 (Z.eqb_neq a 0)) by lia. cbn [negb].
  destruct (fragment_walked a f first s Hf Hn) as (s1 & s2 & E1 & E2 & V2).
  unfold pbind at 1. unfold ptry at 1. rewrite (pbind_Ok _ _ _ _ _ E1). cbn [pret].
  unfold pbind at 1. unfold ptry at 1. rewrite E2.
  rewrite (pbind_lift _ _ _ (ref_at next)).
  2: { unfold ManagedStack_link.
       by rewrite (pointer_word c run _ a _ _ (ref_at_ok c a ltac:(lia)) eq_refl Hnext). }
  destruct (IH fuel next (first && negb true) s2 Hl Hns) as (s3 & E3 & V3); [cbn in Hfuel; lia|].
  exists s3. split; [done|]. by rewrite V3, V2, <- app_assoc.
Qed.

(** C29: The stack walk collects the frames of the thread: fragment by fragment, the compiled
    frames that the sizes and return addresses of their methods delimit and the frames the
    interpreter has linked, each with its method, its program counter, its header and the frame
    below, without those of the runtime's own methods.  It ends. *)
Theorem WalkStack_frames (fuel : nat) (thread : MemoryRef) (l : list fragment) (s : StackVisitor)
    (Hl : fragments (vaddr (managed_stack sdk c thread)) l)
    (Hin : Forall (fun f => (frames_in f <= inner)%nat) l) (Hfuel : (length l <= fuel)%nat) :
  exists s', StackVisitor_WalkStack sdk oat c dlsym rt runtime hf fuel inner thread no_quick_frame s
      = (s', Ok tt) /\
    map view (java_frames_ s') = flat_map fragment_seen l.
Proof.
  unfold StackVisitor_WalkStack. unfold pbind, modify.
  destruct (fragment_loop_walked l fuel _ true
    {| java_frames_ := []; cur_shadow_frame_ := cur_shadow_frame_ s;
       cur_quick_frame_ := cur_quick_frame_ s; prev_quick_frame_ := prev_quick_frame_ s |} Hl Hin Hfuel)
    as (s' & E & V).
  exists s'. split; [exact E|exact V].
Qed.
End Walk.

(** A thread at 0x1400 with two fragments: a callee-save method of the runtime below a compiled
    method, and the same method in the interpreter. *)
Definition demo_stack : list Z :=
  memory 0xF00 [(8, le_bytes 8 0x1800);
    (0x4A0, le_bytes 8 0x1C00 ++ le_bytes 8 0x1E00);
    (0x80C, le_bytes 4 0xFFFFFFFF);
    (0x840, le_bytes 4 0x1900 ++ le_bytes 4 1); (0x860, le_bytes 8 0x1B18);
    (0xB08, le_bytes 4 32); (0xB14, le_bytes 4 0x40);
    (0xC00, le_bytes 8 0x1800); (0xC58, le_bytes 8 0x1B30);
    (0xC60, le_bytes 8 0x1840); (0xC78, le_bytes 8 0x5000);
    (0xD08, le_bytes 8 0x1840); (0xE10, le_bytes 8 0x1D00)].
Definition stack_core : CoreApi := one_core 0x1000 demo_stack.
#[local] Instance stack_presents : Presents stack_core (target_run stack_core).
Proof. apply one_presents; [done|apply Nat.ltb_lt; by vm_compute]. Qed.
Definition demo_table : Runtime_OffsetTable := @Runtime_table arm64_Core Sdk.P.
Definition demo_fragments : list fragment :=
  [Compiled
     [{| cf_sp := 0x1C00; cf_method := 0x1800; cf_pc := 0; cf_header := ref_at 0;
         cf_runtime := true; cf_info := @Runtime_GetMethodFrameInfo arm64_Core kSaveRefsOnly;
         cf_ret := 0x1B30 |};
      {| cf_sp := 0x1C60; cf_method := 0x1840; cf_pc := 0x1B2C; cf_header := ref_at 0x1B00;
         cf_runtime := false;
         cf_info := {| frame_size_in_bytes := 32; core_spill_mask := 0; fp_spill_mask := 0 |};
         cf_ret := 0x5000 |}];
   Interpreted [{| if_addr := 0x1D00; if_method := 0x1840; if_runtime := false |}]].

Ltac demo_facts :=
  repeat lazymatch goal with
  | |- pointer_at _ _ _ _ _ => apply check_pointer_ok; by vm_compute
  | |- _ /\ _ => split
  | |- let _ := _ in _ => split
  | |- compiled_ok _ _ _ _ _ _ _ _ => split
  | |- callers _ _ _ _ _ _ _ _ _ _ _ (_ :: _) => split
  | |- callers _ _ _ _ _ _ _ _ _ _ _ [] => apply check_pointer_ok; by vm_compute
  | |- interpreters _ _ _ _ (_ :: _) => split
  | |- top_header _ _ _ _ _ _ _ _ _ _ => idtac
  | |- exists _, _ => idtac
  | _ => by vm_compute
  end.

Lemma WalkStack_frames_witness :
  let s := {| java_frames_ := []; cur_shadow_frame_ := ref_at 0;
              cur_quick_frame_ := no_quick_frame; prev_quick_frame_ := no_quick_frame |} in
  exists s', @StackVisitor_WalkStack arm64_Core Sdk.P 138 stack_core (fun _ => 0) demo_table (ref_at 0x1000)
      (fun _ => 0) 2 2 (ref_at 0x1400) no_quick_frame s = (s', Ok tt) /\
    map view (java_frames_ s') =
      [(0x1840, 0x1C60, 0x1B2C, ref_at 0x1B00, 0, 0x1C00);
       (0x1840, 0, 0, ref_at 0, 0x1D00, 0)].
Proof.
  intros s.
  apply (@WalkStack_frames arm64_Core Sdk.P 138 stack_core (target_run stack_core) _ (fun _ => 0)
    (fun _ => 0) demo_table (ref_at 0x1000) 2 2 (ref_at 0x1400) demo_fragments s).
  - split; [exists 0x1C00, 0; demo_facts; exists false; split; by vm_compute|].
    exists 0x1E00. split; [demo_facts|].
    split.
    { exists 0, 0x1D00. demo_facts. exists 0. demo_facts. }
    exists 0. demo_facts.
  - repeat constructor; cbn; lia.
  - cbn. lia.
Defined.
