(* ===== verification/JavaThreads.v ===== *)
(** Java threads and their locks: android/art/runtime/thread.cpp, thread_state.h,
    thread_list.cpp, lock_word.{h,cpp}, monitor.{h,cpp}, monitor_pool.{h,cpp}, base/mutex.cpp
    and base/locks.cpp.

    The lock word of an object is a thin lock (owner and count), the number of a monitor, a
    hash or a forwarding address; monitors lie in chunks of the monitor pool.  [runtime] and its
    offset table [rt], the version [sdk] and its patch level are arguments. *)

From Stdlib Require Import ZArith Lia Bool String.
From stdpp Require Import base list gmap numbers.
From S2P Require Import Prelude Words Host Blocks Notes CoreApi Segments AddressSpace MemRef Elf.
From S2P Require Import Bits OatCode OatVRegs Text Mirrors Cxx Dex RuntimeTables OatFiles Frames.
From S2P Require Import Runtimes Methods JavaObjects QuickHeaders Jit JavaStack.
Open Scope Z_scope.

(** * Lock words *)

(** [LockWord::SizeShiftsAndMasks]. *)
Definition kStateSize : Z := 2.
Definition kReadBarrierStateSize : Z := 1.
Definition kMarkBitStateSize : Z := 1.
Definition kThinLockOwnerSize : Z := 16.
Definition kThinLockCountSize : Z :=
  32 - kThinLockOwnerSize - kStateSize - kReadBarrierStateSize - kMarkBitStateSize.
Definition kThinLockOwnerShift : Z := 0.
Definition kThinLockOwnerMask : Z := 2 ^ kThinLockOwnerSize - 1.
Definition kThinLockCountShift : Z := kThinLockOwnerSize + kThinLockOwnerShift.
Definition kStateShift : Z :=
  kReadBarrierStateSize + kThinLockCountSize + kThinLockCountShift + kMarkBitStateSize.
Definition kStateMask : Z := 2 ^ kStateSize - 1.
Definition kStateThinOrUnlocked : Z := 0.
Definition kStateFat : Z := 1.
Definition kStateHash : Z := 2.
Definition kStateForwardingAddress : Z := 3.
Definition kReadBarrierStateShift : Z := kThinLockCountSize + kThinLockCountShift.
Definition kMarkBitStateShift : Z := kReadBarrierStateSize + kReadBarrierStateShift.
Definition kGCStateMaskShifted : Z :=
  Z.lor (Z.shiftl (2 ^ kReadBarrierStateSize - 1) kReadBarrierStateShift)
        (Z.shiftl (2 ^ kMarkBitStateSize - 1) kMarkBitStateShift).
Definition kGCStateMaskShiftedToggled : Z := bnot 32 kGCStateMaskShifted.
Definition kHashShift : Z := 0.
Definition kHashSize : Z := 32 - kStateSize - kReadBarrierStateSize - kMarkBitStateSize.
Definition kHashMask : Z := 2 ^ kHashSize - 1.
Definition kMonitorIdShift : Z := kHashShift.
Definition kMonitorIdMask : Z := kHashMask.
Definition kMonitorIdAlignmentShift : Z := 32 - kHashSize.

Inductive LockState : Type :=
  | kUnlocked | kThinLocked | kFatLocked | kHashCode | kForwardingAddress.

(** [LockWord::GetState()], [ThinLockOwner()] and the number of the monitor. *)
Definition LockWord_GetState (value : Z) : LockState :=
  if Z.land value kGCStateMaskShiftedToggled =? 0 then kUnlocked
  else if value =? 0 then kUnlocked
  else
    let internal_state := Z.land (Z.shiftr value kStateShift) kStateMask in
    if internal_state =? kStateThinOrUnlocked then kThinLocked
    else if internal_state =? kStateHash then kHashCode
    else if internal_state =? kStateForwardingAddress then kForwardingAddress
    else kFatLocked.
Definition ThinLockOwner (value : Z) : Z :=
  Z.land (Z.shiftr value kThinLockOwnerShift) kThinLockOwnerMask.
Definition FatLockMonitorId (value : Z) : Z :=
  Z.land (Z.shiftr value kMonitorIdShift) kMonitorIdMask.

Definition kInvalidThreadId : Z := 0.

(** [MonitorPool]. *)
Definition kChunkSize : Z := 4096.
Definition kMaxChunkLists : Z := 8.
Definition kInitialChunkStorage : Z := 256.
Definition kMaxListSize : Z := Z.shiftl kInitialChunkStorage (kMaxChunkLists - 1).
Definition MonitorIdToOffset (id : Z) : Z := shl 32 id 3.

(** * Thread states *)

Module ThreadState.
Definition kTerminated : Z := 66.
Definition kRunnable : Z := 0.
Definition kObsoleteRunnable : Z := 67.
Definition kTimedWaiting : Z := 68.
Definition kSleeping : Z := 69.
Definition kBlocked : Z := 70.
Definition kWaiting : Z := 71.
Definition kWaitingForLockInflation : Z := 72.
Definition kWaitingWeakGcRootRead : Z := 88.
Definition kNativeForAbort : Z := 90.
End ThreadState.

(** The states from [kTimedWaiting] on, in the order of the enumeration. *)
Definition state_names : list string :=
  ["TimedWaiting"; "Sleeping"; "Blocked"; "Waiting"; "WaitingForLockInflation";
   "WaitingForTaskProcessor"; "WaitingForGcToComplete"; "WaitingForCheckPointsToRun";
   "WaitingPerformingGc"; "WaitingForDebuggerSend"; "WaitingForDebuggerToAttach";
   "WaitingInMainDebuggerLoop"; "WaitingForDebuggerSuspension"; "WaitingForJniOnLoad";
   "WaitingForSignalCatcherOutput"; "WaitingInMainSignalCatcherLoop";
   "WaitingForDeoptimization"; "WaitingForMethodTracingStart"; "WaitingForVisitObjects";
   "WaitingForGetObjectsAllocated"; "WaitingWeakGcRootRead"; "WaitingForGcThreadFlip";
   "NativeForAbort"; "Starting"; "Native"; "Suspended"]%string.
(** The switch of [GetStateDescriptor]. *)
Definition state_name (state : Z) : string :=
  if state =? ThreadState.kTerminated then "Terminated"
  else if (state =? ThreadState.kRunnable) || (state =? ThreadState.kObsoleteRunnable)
  then "Runnable"
  else if state <? ThreadState.kTimedWaiting then "Unknown"
  else default "Unknown"%string
         (state_names !! Z.to_nat (state - ThreadState.kTimedWaiting)).
(** The number a state of an older version has in the newest one. *)
Definition newest_state (sdk state : Z) : Z :=
  if sdk <? Sdk.Q then
    let state :=
      if (sdk <=? 27) && (ThreadState.kWaitingForLockInflation <=? state)
      then u8 (state + 2) else state in
    let state :=
      if (sdk <=? Sdk.M) && (ThreadState.kWaitingWeakGcRootRead <=? state)
      then u8 (state + 2) else state in
    if ThreadState.kNativeForAbort <=? state then u8 (state + 1) else state
  else state.

(** * Mutexes *)

(** [kLockTable]. *)
Definition kLockTable : list (string * string) :=
  [("user code suspension lock", "Mutex"); ("instrument entrypoint lock", "Mutex");
   ("mutator lock", "MutatorMutex"); ("heap bitmap lock", "ReaderWriterMutex");
   ("trace lock", "Mutex"); ("runtime shutdown lock", "Mutex");
   ("runtime thread pool lock", "Mutex"); ("profiler lock", "Mutex");
   ("Deoptimization lock", "Mutex"); ("AllocTracker lock", "Mutex");
   ("thread list lock", "Mutex"); ("breakpoint lock", "ReaderWriterMutex");
   ("SubtypeCheck lock", "Mutex"); ("ClassLinker classes lock", "ReaderWriterMutex");
   ("allocated monitor ids lock", "Mutex"); ("allocated thread ids lock", "Mutex");
   ("modify_ldt lock", "Mutex"); ("ClassLinker dex lock", "ReaderWriterMutex");
   ("DexCache lock", "Mutex"); ("JNI shared libraries map lock", "Mutex");
   ("OatFile manager lock", "ReaderWriterMutex"); ("verifier deps lock", "ReaderWriterMutex");
   ("host dlopen handles lock", "Mutex"); ("InternTable lock", "Mutex");
   ("ReferenceProcessor lock", "Mutex"); ("ReferenceQueue cleared references lock", "Mutex");
   ("ReferenceQueue weak references lock", "Mutex");
   ("ReferenceQueue finalizer references lock", "Mutex");
   ("ReferenceQueue phantom references lock", "Mutex");
   ("ReferenceQueue soft references lock", "Mutex");
   ("JNI global reference table lock", "ReaderWriterMutex");
   ("JNI weak global reference table lock", "Mutex"); ("JNI function table lock", "Mutex");
   ("Thread::custom_tls_ lock", "Mutex"); ("Jit code cache", "Mutex"); ("CHA lock", "Mutex");
   ("Native debug interface lock", "Mutex"); ("JNI id map lock", "ReaderWriterMutex");
   ("abort lock", "Mutex"); ("thread suspend count lock", "Mutex");
   ("unexpected signal lock", "Mutex"); ("logging lock", "Mutex");
   ("a monitor lock", "Mutex")]%string.
Fixpoint lock_type (table : list (string * string)) (name : list Z) : option (list Z) :=
  match table with
  | [] => None
  | (n, t) :: table => if bool_decide (name = chars n) then Some (chars t) else lock_type table name
  end.

(** [arm64::MoveWideImmediateOp] and [thumb::mov_expr]. *)
Definition MoveWideImmediateFixed : Z := 0x12800000.
Definition MoveWideImmediateMask : Z := 0xFF800000.
Definition MOVZ : Z := 0x40000000.
Definition MOVZ_w : Z := Z.lor MoveWideImmediateFixed MOVZ.
Definition MOVZ_x : Z := Z.lor (Z.lor MoveWideImmediateFixed MOVZ) 0x80000000.
Definition mov_expr : Z := 4.

Section Mutexes.
Context {M : Machine} (sdk : Z) (c : CoreApi).

(** The loop over the first [retry] instructions at [p]: does the function return 1?  A shift
    of a [uint32_t] by 32 or more is undefined. *)
Fixpoint arm64_returns_one (retry : nat) (p : Z) : result bool :=
  match retry with
  | O => Ok false
  | S retry =>
      let! inst := host_word (host_mem c) p 4 in
      if (inst =? 0xaa1f03e0) || (inst =? 0x2a1f03e0) then Ok false
      else if inst =? 0x320003e0 then Ok true
      else
        let checkop := Z.land inst MoveWideImmediateMask in
        if negb (checkop =? MOVZ_w) && negb (checkop =? MOVZ_x)
        then arm64_returns_one retry (u64 (p + 4))
        else
          let rd := Z.land inst 0x1F in
          let opc := Z.land (Z.shiftr inst 29) 3 in
          if negb (rd =? 0) || negb (opc =? 2) then arm64_returns_one retry (u64 (p + 4))
          else
            let hw := Z.land (Z.shiftr inst 21) 3 in
            let imm16 := Z.land (Z.shiftr inst 5) 0xFFFF in
            let pos := Z.shiftl hw 4 in
            if 32 <=? pos then Fault
            else
              let imm := shl 32 imm16 pos in
              if 1 <? imm then arm64_returns_one retry (u64 (p + 4)) else Ok (imm =? 1)
  end.
Definition thumb_returns_one (inst : Z) : bool :=
  let checkop := Z.shiftr inst 11 in
  let rd := Z.land (Z.shiftr inst 8) 7 in
  let imm8 := Z.land inst 0xFF in
  if negb (checkop =? mov_expr) || negb (rd =? 0) || (1 <? imm8) then false else imm8 =? 1.
(** The eight bytes at the start of a function; [any] accepts every opcode that is no xor. *)
Definition x86_returns_one (any : bool) (inst : Z) : bool :=
  if Z.land inst 0xFFFF =? 0xc031 then false
  else
    let inst := Z.land inst 0xFFFFFFFFFF in
    if any || (Z.land inst 0xb8 =? 0xb8) then Z.land (Z.shiftr inst 8) 0xFF =? 1 else false.
(** The switch over the machines, for the function at [fn]. *)
Definition machine_returns_one (fn : MemoryRef) : result bool :=
  if machine =? EM_AARCH64 then let! '(_, p) := Real c fn in arm64_returns_one 2 p
  else if machine =? EM_ARM then
    if nz (Z.land (vaddr fn) 1) then
      let! fn := MovePtr c fn (-1) in
      let! '(_, p) := Real c fn in
      let! inst := host_word (host_mem c) p 2 in Ok (thumb_returns_one inst)
    else Ok false
  else if machine =? EM_X86_64 then
    let! '(_, p) := Real c fn in
    let! inst := host_word (host_mem c) p 8 in Ok (x86_returns_one false inst)
  else if machine =? EM_386 then
    let! '(_, p) := Real c fn in
    let! inst := host_word (host_mem c) p 8 in
    if x86_returns_one false inst then Ok true
    else
      let! inst := host_word (host_mem c) (u64 (p + 6)) 8 in Ok (x86_returns_one true inst)
  else Ok false.

Definition mutex_name (name_ : result Z) : result (list Z) :=
  let! v := name_ in
  let! '(_, p) := Real c (ref_at v) in host_cstr (host_mem c) p.
Definition Mutex_GetName (m : MemoryRef) : result (list Z) :=
  mutex_name (vword c m (bm_name_ (BaseMutex_table sdk))).
Definition GetVTBL (m : MemoryRef) : result MemoryRef :=
  let! v := vword c m (bm_vtbl (BaseMutex_table sdk)) in Prepare c (ref_at v) false.
(** The test by the function at [off] in the table of virtual functions. *)
Definition vtbl_says (m : MemoryRef) (off : Z) : result bool :=
  let! cache := GetVTBL m in
  let! '(cache, ok) := IsValid c cache in
  if ok : bool then
    let! v := vword c cache off in
    let! '(fn, ok) := IsValid c (ref_at v) in
    if ok : bool then machine_returns_one fn else Ok false
  else Ok false.
Definition IsSpecialMutex (m : MemoryRef) (type : string) (off : Z) : result bool :=
  let! ret := vtbl_says m off in
  if ret : bool then Ok true
  else
    let! name := Mutex_GetName m in
    Ok (bool_decide (lock_type kLockTable name = Some (chars type))).
Definition IsMutex (m : MemoryRef) : result bool :=
  IsSpecialMutex m "Mutex" (bm_vtbl_IsMutex (BaseMutex_table sdk)).
Definition IsReaderWriterMutex (m : MemoryRef) : result bool :=
  IsSpecialMutex m "ReaderWriterMutex" (bm_vtbl_IsReaderWriterMutex (BaseMutex_table sdk)).
Definition IsMutatorMutex (m : MemoryRef) : result bool :=
  IsSpecialMutex m "MutatorMutex" (bm_vtbl_IsMutatorMutex (BaseMutex_table sdk)).
Definition Mutex_GetExclusiveOwnerTid (m : MemoryRef) : result Z :=
  word c m (mutex_exclusive_owner_ (Mutex_table sdk)) 4.
Definition ReaderWriterMutex_GetExclusiveOwnerTid (m : MemoryRef) : result Z :=
  let! state := word c m (rw_state_ (ReaderWriterMutex_table sdk)) 4 in
  if i32 state =? 0 then Ok 0
  else if 0 <? i32 state then Ok (u32 (-1))
  else word c m (rw_exclusive_owner_ (ReaderWriterMutex_table sdk)) 4.
Definition ConditionVariable_GetName (v : MemoryRef) : result (list Z) :=
  mutex_name (vword c v (cond_name_ (ConditionVariable_table sdk))).
End Mutexes.

Section Threads.
Context {M : Machine} (sdk patch : Z) (c : CoreApi) (cf : nat)
  (rt : Runtime_OffsetTable) (runtime : MemoryRef).

(** * Threads *)

(** [GetTls32()] and its fields. *)
Definition GetTls32 (thread : MemoryRef) : MemoryRef :=
  ref_from c (u64 (vaddr thread + th_tls32_ (Thread_table sdk))) thread.
Definition tls32_word (f : tls_32bit_sized_values_OffsetTable -> Z) (thread : MemoryRef)
    : result Z := word c (GetTls32 thread) (f (tls_32bit_sized_values_table sdk)) 4.
Definition GetFlags (thread : MemoryRef) : result Z :=
  let! v := tls32_word tls_state_and_flags thread in Ok (Z.land v 0xFFFF).
Definition GetState (thread : MemoryRef) : result Z :=
  let! v := tls32_word tls_state_and_flags thread in
  Ok (if sdk <? Sdk.T then Z.land (Z.shiftr v 16) 0xFF else Z.land (Z.shiftr v 24) 0xFF).
Definition GetStateDescriptor (thread : MemoryRef) : result string :=
  let! state := GetState thread in Ok (state_name (newest_state sdk state)).
Definition GetThreadId (thread : MemoryRef) : result Z :=
  tls32_word tls_thin_lock_thread_id thread.
Definition GetTid (thread : MemoryRef) : result Z := tls32_word tls_tid thread.

(** [Object::IsValid()] of a wrapper. *)
Definition lang_IsValid (obj : MemoryRef) : result bool :=
  if isNull obj then Ok false else obj_IsValid sdk c obj.
(** The name the runtime keeps, an [std::string] or a string of C. *)
Definition native_name (ref : MemoryRef) : result (list Z) :=
  let! '(ref, ok) := IsValid c ref in
  if ok : bool then
    if sdk <? Sdk.T then let! p := c_str c ref in host_cstr (host_mem c) p
    else let! '(_, p) := Real c ref in host_cstr (host_mem c) p
  else Ok [].
(** [Thread::GetName()]; [n] bounds the superclasses of the Java thread. *)
Definition Thread_GetName (n : nat) (thread : MemoryRef) : result (list Z) :=
  let! v := tls_word sdk c tls_name thread in
  let! name := native_name (ref_at v) in
  if nz (Z.of_nat (length name)) then Ok name
  else
    let! opeer := tls_word sdk c tls_opeer thread in
    let self := Object opeer in
    let! ok := lang_IsValid self in
    if ok : bool then
      let! name := object_field sdk c cf n "name" self in
      let! ok := lang_IsValid name in
      if ok : bool then String_toString sdk c name else Ok []
    else Ok [].

(** [GetWaitMonitor()]: where the condition variable is not the one of a waiting thread, the
    two fields are looked for at up to 200 later places. *)
Definition wait_condition_name : list Z := chars "a thread wait condition variable".
Definition is_wait_condition (cond : MemoryRef) : result bool :=
  let! '(cond, ok) := IsValid c cond in
  if ok : bool then
    let! name := ConditionVariable_GetName sdk c cond in
    Ok (bool_decide (name = wait_condition_name))
  else Ok false.
Fixpoint wait_loop (n : nat) (thread : MemoryRef) (count : Z) (monitor : MemoryRef)
    : result MemoryRef :=
  match n with
  | O => Ok monitor
  | S n =>
      let! cv := vword c thread (u64 (th_wait_cond_ (Thread_table sdk) + count * point_size)) in
      let! mv := vword c thread (u64 (th_wait_monitor_ (Thread_table sdk) + count * point_size)) in
      let! found := is_wait_condition (ref_from c cv thread) in
      if found : bool then Ok (ref_from c mv thread) else wait_loop n thread (count + 1) monitor
  end.
Definition GetWaitMonitor (thread : MemoryRef) : result MemoryRef :=
  let! cond := quick_cache c (vword c thread (th_wait_cond_ (Thread_table sdk))) thread in
  let! monitor := quick_cache c (vword c thread (th_wait_monitor_ (Thread_table sdk))) thread in
  let! found := is_wait_condition cond in
  if found : bool then Ok monitor else wait_loop 200 thread 1 monitor.
Definition GetMonitorEnterObject (thread : MemoryRef) : result MemoryRef :=
  let! v := tls_word sdk c tls_monitor_enter_object thread in Ok (Object v).

(** [GetHeldMutex(level)], and the mutexes of all levels as [DumpState] shows them. *)
Definition GetHeldMutex (thread : MemoryRef) (level : Z) : result MemoryRef :=
  let tls := GetTlsPtr sdk c thread in
  let held := ref_from c (u64 (vaddr tls + tls_held_mutexes (tls_ptr_sized_values_table sdk))) tls in
  let! v := vword c held (u64 (point_size * level)) in Ok (ref_at v).
(** The character of a quotation mark. *)
Definition quote : Z := 34.
Definition held_mutex_text (thread mutex : MemoryRef) : result (list Z) :=
  let! name := Mutex_GetName sdk c mutex in
  let! rw := IsReaderWriterMutex sdk c mutex in
  let! how :=
    (if rw : bool then
       let! owner := ReaderWriterMutex_GetExclusiveOwnerTid sdk c mutex in
       let! tid := GetTid thread in
       Ok (chars (if owner =? tid then "(exclusive held)" else "(shared held)"))
     else Ok []) in
  Ok (quote :: name ++ quote :: how ++ chars " ").
Fixpoint held_mutexes_from (n : nat) (thread : MemoryRef) (i : Z) : result (list Z) :=
  match n with
  | O => Ok []
  | S n =>
      let! text :=
        (if i =? fst (LockLevel sdk) then Ok []
         else
           let! mutex := GetHeldMutex thread i in
           if nz (vaddr mutex) then held_mutex_text thread mutex else Ok []) in
      let! rest := held_mutexes_from n thread (i + 1) in Ok (text ++ rest)
  end.
Definition held_mutexes (thread : MemoryRef) : result (list Z) :=
  held_mutexes_from (Z.to_nat (snd (LockLevel sdk))) thread 0.

Definition StackEmpty (thread : MemoryRef) : result bool :=
  let fragment := ref_from c (vaddr (managed_stack sdk c thread)) thread in
  let! shadow := GetTopShadowFrame c fragment in
  if nz (vaddr shadow) then Ok false
  else
    let! link := ManagedStack_link c fragment in
    if nz (vaddr link) then Ok false
    else let! quick := GetTopQuickFrame c fragment in Ok (vaddr quick =? 0).

(** * Monitors *)

(** [MonitorPool::LookupMonitor(mon_id)], over a list of lists of chunks. *)
Definition LookupMonitor (pool : MemoryRef) (mon_id : Z) : result Z :=
  let offset := MonitorIdToOffset mon_id in
  let index := offset / kChunkSize in
  let top_index := index / kMaxListSize in
  let list_index := index mod kMaxListSize in
  let offset_in_chunk := offset mod kChunkSize in
  let monitor_chunks := ref_at (u64 (vaddr pool + mp_monitor_chunks_ MonitorPool_Init)) in
  let! top := vword c monitor_chunks (u32 (top_index * point_size)) in
  let! base := vword c (ref_at top) (u32 (list_index * point_size)) in
  Ok (u64 (base + offset_in_chunk)).
Definition MonitorFromMonitorId (mon_id : Z) : result MemoryRef :=
  if bits =? 64 then
    let! pool := GetMonitorPool c rt runtime in
    let! '(pool, ok) := IsValid c pool in
    if ok : bool then let! v := LookupMonitor pool mon_id in Ok (ref_at v) else Ok (ref_at 0)
  else Ok (ref_at (shl 32 mon_id kMonitorIdAlignmentShift)).
Definition FatLockMonitor (value : Z) : result MemoryRef :=
  MonitorFromMonitorId (FatLockMonitorId value).

Definition Monitor_GetObject (m : MemoryRef) : result MemoryRef :=
  let! v := vword c m (mon_obj_ (Monitor_table sdk patch)) in Ok (Object v).
Definition Monitor_GetOwner (m : MemoryRef) : result MemoryRef :=
  let! v := vword c m (mon_owner_ (Monitor_table sdk patch)) in Ok (ref_at v).
Definition GetOwnerThreadId (m : MemoryRef) : result Z :=
  let! owner := Monitor_GetOwner m in
  if nz (vaddr owner) then GetThreadId owner else Ok kInvalidThreadId.

Definition GetLockWord (obj : MemoryRef) : result Z := word c obj (monitor_ Object_Init) 4.
(** [Monitor::GetLockOwnerThreadId(obj)]. *)
Definition GetLockOwnerThreadId (obj : MemoryRef) : result Z :=
  let! lock_word := GetLockWord obj in
  match LockWord_GetState lock_word with
  | kThinLocked => Ok (ThinLockOwner lock_word)
  | kFatLocked =>
      let! monitor := FatLockMonitor lock_word in
      let! '(monitor, ok) := IsValid c monitor in
      if ok : bool then GetOwnerThreadId monitor else Ok kInvalidThreadId
  | _ => Ok kInvalidThreadId
  end.
(** [Monitor::FetchState(thread, monitor_object, lock_owner_tid)]: the state, and what is
    stored through the pointers. *)
Definition FetchState (thread : MemoryRef) : result (Z * MemoryRef * Z) :=
  let! state := GetState thread in
  if (state =? ThreadState.kWaiting) || (state =? ThreadState.kTimedWaiting)
     || (state =? ThreadState.kSleeping) then
    let! monitor := GetWaitMonitor thread in
    if nz (vaddr monitor) then
      let! obj := Monitor_GetObject monitor in Ok (state, obj, kInvalidThreadId)
    else Ok (state, Object 0, kInvalidThreadId)
  else if (state =? ThreadState.kBlocked) || (state =? ThreadState.kWaitingForLockInflation) then
    let! lock_object := GetMonitorEnterObject thread in
    if nz (vaddr lock_object) then
      let! owner := GetLockOwnerThreadId lock_object in Ok (state, lock_object, owner)
    else Ok (state, Object 0, kInvalidThreadId)
  else Ok (state, Object 0, kInvalidThreadId).

(** * The thread list *)

(** [ThreadList::GetList()]: an exception ends the list. *)
Definition GetListCache (threads : MemoryRef) : MemoryRef :=
  ref_from c (u64 (vaddr threads + tl_list_ (ThreadList_table sdk))) threads.
Definition push_thread (value : Z) : prog (list MemoryRef) unit :=
  let$ v := lift (vword c (ref_at value) 0) in
  let$ x := lift (IsValid c (ref_at v)) in
  if snd x : bool then modify (fun l => l ++ [fst x]) else pret tt.
Definition GetList (fuel : nat) (threads : MemoryRef) : result (list MemoryRef) :=
  let! '(l, _) :=
    snd ((let$ _ := ptry (list_for c fuel (GetListCache threads) push_thread) (fun _ => pret tt) in
          let$ l := get in pret (l, tt)) []) in Ok l.
(** The loops over the list. *)
Fixpoint find_thread (key : MemoryRef -> result Z) (id : Z) (l : list MemoryRef)
    : result (option MemoryRef) :=
  match l with
  | [] => Ok None
  | thread :: l =>
      let! v := key thread in if v =? u32 id then Ok (Some thread) else find_thread key id l
  end.
Definition FindThreadByTid (fuel : nat) (threads : MemoryRef) (tid : Z)
    : result (option MemoryRef) :=
  let! l := GetList fuel threads in find_thread GetTid tid l.
Definition FindThreadByThreadId (fuel : nat) (threads : MemoryRef) (id : Z)
    : result (option MemoryRef) :=
  let! l := GetList fuel threads in find_thread GetThreadId id l.
Definition ThreadList_Contains (fuel : nat) (threads : MemoryRef) (tid : Z) : result bool :=
  let! t := FindThreadByTid fuel threads tid in Ok (has t).
End Threads.
