(* ===== verification/JavaThreadsProofs.v ===== *)
(** Theorems about [JavaThreads]: the owner of a lock is the one its lock word was written
    for; the threads found are those of the thread list. *)

From Stdlib Require Import ZArith Lia Bool String.
From stdpp Require Import base list gmap numbers.
From S2P Require Import Prelude Words Host Blocks Notes CoreApi Segments AddressSpace MemRef Elf.
From S2P Require Import Mirrors Cxx Reading Dex RuntimeTables Frames Runtimes RefCache JavaObjects.
From S2P Require Import JavaStack JavaThreads.
Open Scope Z_scope.
#[local] Ltac Zify.zify_post_hook ::= Z.to_euclidean_division_equations.

(** * Lock words *)

(** What a lock word says; the runtime keeps two more bits for the collector. *)
Inductive Lock : Type :=
  | Thin (owner count : Z)
  | Fat (id : Z)
  | Hash (h : Z)
  | Forward (a : Z).
Definition lock_state (l : Lock) : Z :=
  match l with
  | Thin _ _ => kStateThinOrUnlocked
  | Fat _ => kStateFat
  | Hash _ => kStateHash
  | Forward _ => kStateForwardingAddress
  end.
Definition lock_payload (l : Lock) : Z :=
  match l with Thin owner count => count * 2 ^ 16 + owner | Fat v | Hash v | Forward v => v end.
Definition lock_ok (l : Lock) : Prop :=
  match l with
  | Thin owner count => 0 <= owner < 2 ^ 16 /\ 0 <= count < 2 ^ 12
  | Fat v | Hash v | Forward v => 0 <= v < 2 ^ 28
  end.
(** The lock word, with the bits [gc] of the collector. *)
Definition lock_word (gc : Z) (l : Lock) : Z :=
  lock_state l * 2 ^ 30 + gc * 2 ^ 28 + lock_payload l.
Definition unlocked (l : Lock) : bool := (lock_state l =? 0) && (lock_payload l =? 0).

Section Word.
Context (gc : Z) (l : Lock) (Hgc : 0 <= gc < 4) (Hl : lock_ok l).

Lemma payload_range : 0 <= lock_payload l < 2 ^ 28.
Proof. destruct l; cbn in *; lia. Qed.
Lemma state_range : 0 <= lock_state l < 4.
Proof. destruct l; split; by vm_compute. Qed.

Lemma word_state : Z.land (Z.shiftr (lock_word gc l) kStateShift) kStateMask = lock_state l.
Proof.
  pose proof payload_range. pose proof state_range.
  change kStateMask with (Z.ones 2). change kStateShift with 30.
  rewrite Z.land_ones, Z.shiftr_div_pow2 by lia. unfold lock_word. lia.
Qed.
Lemma word_payload : Z.land (lock_word gc l) (Z.ones 28) = lock_payload l.
Proof.
  pose proof payload_range. pose proof state_range.
  rewrite Z.land_ones by lia. unfold lock_word. lia.
Qed.
Lemma word_unlocked :
  (Z.land (lock_word gc l) kGCStateMaskShiftedToggled =? 0) = unlocked l.
Proof.
  pose proof payload_range. pose proof state_range. apply eq_true_iff_eq.
  unfold unlocked. rewrite andb_true_iff, !Z.eqb_eq. split.
  - intros E. rewrite <- word_state, <- word_payload.
    change kStateMask with (Z.shiftr kGCStateMaskShiftedToggled kStateShift).
    change (Z.ones 28) with (Z.land kGCStateMaskShiftedToggled (Z.ones 28)).
    by rewrite <- Z.shiftr_land, Z.land_assoc, E, Z.shiftr_0_l.
  - intros [Es Ep]. unfold lock_word. rewrite Es, Ep.
    assert (gc = 0 \/ gc = 1 \/ gc = 2 \/ gc = 3) as [-> | [-> | [-> | ->]]] by lia; by vm_compute.
Qed.

Definition decoded (l : Lock) : LockState :=
  if unlocked l then kUnlocked
  else match l with
       | Thin _ _ => kThinLocked
       | Fat _ => kFatLocked
       | Hash _ => kHashCode
       | Forward _ => kForwardingAddress
       end.
Lemma GetState_decoded : LockWord_GetState (lock_word gc l) = decoded l.
Proof.
  unfold LockWord_GetState, decoded. rewrite word_unlocked.
  destruct (unlocked l) eqn:E; [done|]. rewrite word_state.
  destruct (Z.eqb_spec (lock_word gc l) 0) as [E0|_]; [|by destruct l].
  exfalso. pose proof word_unlocked as W. rewrite E0, E in W. done.
Qed.
Lemma Owner_decoded owner count :
  l = Thin owner count -> ThinLockOwner (lock_word gc l) = owner.
Proof.
  intros ->. cbn in Hl. unfold ThinLockOwner.
  change kThinLockOwnerShift with 0. change kThinLockOwnerMask with (Z.ones 16).
  rewrite Z.shiftr_0_r, Z.land_ones by lia. unfold lock_word. cbn. lia.
Qed.
Lemma Id_decoded id : l = Fat id -> FatLockMonitorId (lock_word gc l) = id.
Proof.
  intros E. unfold FatLockMonitorId. change kMonitorIdShift with 0.
  change kMonitorIdMask with (Z.ones 28). rewrite Z.shiftr_0_r, word_payload. by rewrite E.
Qed.
End Word.

(** The first part of a thread is at its start, in every version. *)
Lemma tls32_start {M : Machine} sdk : th_tls32_ (Thread_table sdk) = 0.
Proof.
  unfold Thread_table, listen, Thread_Init23, Thread_Init24, Thread_Init26, Thread_Init28,
    Thread_Init29, Thread_Init30, Thread_Init31, Thread_Init33, Thread_Init34, Thread_Init35,
    Thread_Init36, Thread_Init37. cbn.
  repeat destruct (_ <=? sdk); by destruct (bits =? 64).
Qed.

Section Owners.
Context {M : Machine} (sdk patch : Z) (c : CoreApi) (run : Z -> Z -> option (list Z))
  `{!Presents c run} (rt : Runtime_OffsetTable) (runtime : MemoryRef).
Abbreviation field := (has_field c run).
Abbreviation pointer := (pointer_at c run).

Lemma field_valid r a off n v :
  ref_ok c r -> vaddr r = a -> field a off n v ->
  exists r', IsValid c r = Ok (r', true) /\ vaddr r' = a /\ ref_ok c r'.
Proof.
  intros Hr <- (Ha & Ho & Hn & bs & Hrun & _).
  pose proof (present_part _ _ 0 1 _ Hrun) as H1. rewrite Z.add_0_r in H1.
  eapply (present_valid r); [done|lia|apply H1; lia].
Qed.
Lemma pointer_valid r a off v :
  ref_ok c r -> vaddr r = a -> pointer a off v ->
  exists r', IsValid c r = Ok (r', true) /\ vaddr r' = a /\ ref_ok c r'.
Proof. intros Hr Ha (w & Hw & _). by eapply field_valid. Qed.

Lemma tls32_field f r t v :
  ref_ok c r -> vaddr r = t -> field t (f (tls_32bit_sized_values_table sdk)) 4 v ->
  tls32_word sdk c f r = Ok v.
Proof.
  intros Hr Hv Hf. unfold tls32_word, GetTls32. rewrite tls32_start, Z.add_0_r, Hv.
  rewrite wrap_small by (destruct Hf; lia).
  eapply (word_field c run); [apply (ref_from_ok c run); [done|destruct Hf; lia]|
    apply ref_from_vaddr|done].
Qed.

(** Where the monitor with the number [id] is: in a chunk of the pool of the runtime, or, on
    32-bit targets, at the address the number stands for. *)
Definition monitor_place (id a : Z) : Prop :=
  if bits =? 64 then
    exists pool top base,
      pointer (vaddr runtime) (rt_monitor_pool_ rt) pool /\
      pointer pool (id * 8 / 4096 / 32768 * point_size) top /\
      pointer top (id * 8 / 4096 mod 32768 * point_size) base /\
      0 <= base /\ a = base + id * 8 mod 4096
  else a = id * 16.
(** The monitor is there and owned by the thread [tid]; by none when that is 0. *)
Definition monitor_owned (id tid : Z) : Prop :=
  exists a owner, monitor_place id a /\
    pointer a (mon_owner_ (Monitor_table sdk patch)) owner /\
    (owner = 0 /\ tid = 0 \/
     field owner (tls_thin_lock_thread_id (tls_32bit_sized_values_table sdk)) 4 tid).
Definition lock_owner (l : Lock) (tid : Z) : Prop :=
  match l with
  | Thin owner _ => tid = owner
  | Fat id => monitor_owned id tid
  | Hash _ | Forward _ => tid = 0
  end.

Lemma MonitorFromMonitorId_place id a off v :
  0 < point_size <= 8 -> 0 <= id < 2 ^ 28 -> ref_ok c runtime -> monitor_place id a ->
  pointer a off v ->
  MonitorFromMonitorId c rt runtime id = Ok (ref_at a).
Proof.
  intros Hp Hid Hrt Hm Ha. apply pointer_at_range in Ha. unfold MonitorFromMonitorId.
  unfold monitor_place in Hm. destruct (bits =? 64).
  - destruct Hm as (pool & top & base & Hpool & Htop & Hbase & Hb0 & ->).
    unfold GetMonitorPool, rt_object, quick_cache, rt_word.
    rewrite (pointer_word c run _ _ _ _ Hrt eq_refl Hpool). cbn [rbind].
    pose proof (pointer_at_range _ _ _ _ _ Htop) as Hpr.
    destruct Htop as (w & Hw & Ew).
    destruct (Prepare_field c run (ref_from c pool runtime) pool _ _ _
      ltac:(apply (ref_from_ok c run); [done|lia]) ltac:(apply ref_from_vaddr) Hw)
      as (r1 & -> & Hv1 & Hr1). cbn [rbind].
    assert (Htop : pointer pool (id * 8 / 4096 / 32768 * point_size) top) by by exists w.
    destruct (pointer_valid r1 _ _ _ Hr1 Hv1 Htop) as (r2 & -> & Hv2 & Hr2). cbn [rbind].
    unfold LookupMonitor, MonitorIdToOffset, shl. rewrite Z.shiftl_mul_pow2 by lia.
    change (2 ^ 3) with 8. rewrite !(wrap_small 32 (id * 8)) by lia.
    change kChunkSize with 4096. change kMaxListSize with 32768.
    change (mp_monitor_chunks_ MonitorPool_Init) with 0.
    rewrite Hv2, Z.add_0_r, (wrap_small 64) by lia.
    assert (Ht : 0 <= id * 8 / 4096 / 32768 < 2 ^ 20) by lia.
    assert (Hi : 0 <= id * 8 / 4096 mod 32768 < 2 ^ 20) by lia.
    rewrite (wrap_small 32) by (clear - Ht Hp; nia).
    rewrite (pointer_word c run _ _ _ _ (ref_at_ok c pool ltac:(lia)) eq_refl Htop). cbn [rbind].
    pose proof (pointer_at_range _ _ _ _ _ Hbase) as Htr.
    rewrite (wrap_small 32) by (clear - Hi Hp; nia).
    rewrite (pointer_word c run _ _ _ _ (ref_at_ok c top ltac:(lia)) eq_refl Hbase). cbn [rbind].
    by rewrite wrap_small by lia.
  - subst. unfold shl. change kMonitorIdAlignmentShift with 4.
    rewrite Z.shiftl_mul_pow2 by lia. change (2 ^ 4) with 16. by rewrite wrap_small by lia.
Qed.

Lemma GetOwnerThreadId_owned m a owner tid :
  ref_ok c m -> vaddr m = a ->
  pointer a (mon_owner_ (Monitor_table sdk patch)) owner ->
  owner = 0 /\ tid = 0 \/
    field owner (tls_thin_lock_thread_id (tls_32bit_sized_values_table sdk)) 4 tid ->
  GetOwnerThreadId sdk patch c m = Ok tid.
Proof.
  intros Hm Hv Ho Hc. unfold GetOwnerThreadId, Monitor_GetOwner.
  rewrite (pointer_word c run _ _ _ _ Hm Hv Ho). cbn [rbind vaddr ref_at]. unfold nz.
  destruct Hc as [[-> ->]|Hf]; [done|]. rewrite (proj2 (Z.eqb_neq owner 0)) by (destruct Hf; lia).
  eapply tls32_field; [apply ref_at_ok; destruct Hf; lia|done|done].
Qed.

(** C36: The owner found for an object is the one its lock word was written for: the owner of
    a thin lock, the thread that owns the monitor of a fat lock, found through the chunks of the
    monitor pool, and none for an unlocked object, a hash or a forwarding address; whatever the
    bits of the collector. *)
Theorem GetLockOwnerThreadId_owner (obj : MemoryRef) (gc tid : Z) (l : Lock)
    (Hp : 0 < point_size <= 8) (Hrt : ref_ok c runtime) (Hobj : ref_ok c obj)
    (Hgc : 0 <= gc < 4) (Hl : lock_ok l)
    (Hw : field (vaddr obj) (monitor_ Object_Init) 4 (lock_word gc l)) (Ho : lock_owner l tid) :
  GetLockOwnerThreadId sdk patch c rt runtime obj = Ok tid.
Proof.
  unfold GetLockOwnerThreadId, GetLockWord.
  rewrite (word_field c run _ _ _ _ _ Hobj eq_refl Hw). cbn [rbind].
  rewrite (GetState_decoded gc l Hgc Hl). unfold decoded.
  destruct (unlocked l) eqn:Eu.
  { unfold unlocked in Eu. to_prop. destruct l; try done.
    cbn [lock_payload lock_owner lock_ok] in *. unfold kInvalidThreadId. f_equal. lia. }
  destruct l as [owner count|id|h|a]; cbn [lock_owner] in Ho; try by subst.
  - by rewrite (Owner_decoded gc _ Hgc Hl owner count eq_refl), Ho.
  - destruct Ho as (a & owner & Hm & Hown & Hc). unfold FatLockMonitor.
    rewrite (Id_decoded gc _ Hgc Hl id eq_refl).
    rewrite (MonitorFromMonitorId_place id a _ _ Hp Hl Hrt Hm Hown). cbn [rbind].
    pose proof (pointer_at_range _ _ _ _ _ Hown).
    destruct (pointer_valid (ref_at a) a _ _ (ref_at_ok c a ltac:(lia)) eq_refl Hown)
      as (m & -> & Hv & Hr). cbn [rbind].
    by apply (GetOwnerThreadId_owned m a owner tid).
Qed.
End Owners.

(** * The thread list *)

(** A node of the list of threads: its address, the thread and the thread's id in the system. *)
Record ThreadNode := { tn_at : Z; tn_thread : Z; tn_tid : Z }.

Section Lists.
Context {M : Machine} (sdk : Z) (c : CoreApi) (run : Z -> Z -> option (list Z))
  `{!Presents c run}.
Abbreviation field := (has_field c run).
Abbreviation pointer := (pointer_at c run).
Implicit Types (e : ThreadNode) (l : list ThreadNode).

Definition clean (a : Z) : Prop := Z.land a (vabits_mask c) = a.
Definition next_node (head : Z) l : Z := match l with e :: _ => tn_at e | [] => head end.
(** The nodes form a ring with the head of the list, and lead to threads. *)
Fixpoint ring (head : Z) l : Prop :=
  match l with
  | [] => True
  | e :: rest =>
      tn_at e <> head /\ clean (tn_at e) /\
      pointer (tn_at e) list__next_ (next_node head rest) /\
      0 <= list__value_ /\ pointer (tn_at e + list__value_) 0 (tn_thread e) /\
      field (tn_thread e) (tls_tid (tls_32bit_sized_values_table sdk)) 4 (tn_tid e) /\
      ring head rest
  end.

Lemma push_thread_ring head e rest s :
  ring head (e :: rest) ->
  exists r, push_thread c (u64 (tn_at e + list__value_)) s = (s ++ [r], Ok tt) /\
    vaddr r = tn_thread e /\ ref_ok c r.
Proof.
  intros (_ & _ & Hn & Hv0 & Hv & Ht & _). unfold push_thread.
  pose proof (pointer_at_range _ _ _ _ _ Hv) as Hvr. pose proof (pointer_at_range _ _ _ _ _ Hn).
  rewrite wrap_small by lia.
  assert (Hr : ref_ok c (ref_at (tn_at e + list__value_))) by (apply ref_at_ok; lia).
  rewrite (pbind_lift _ _ _ _ (pointer_word c run _ _ _ _ Hr eq_refl Hv)).
  destruct (field_valid c run (ref_at (tn_thread e)) _ _ _ _
    (ref_at_ok c (tn_thread e) ltac:(destruct Ht; lia)) eq_refl Ht) as (r & Er & Hrv & Hrr).
  rewrite (pbind_lift _ _ _ _ Er). cbn [snd fst]. by exists r.
Qed.

(** The references the walk collects. *)
Definition leads_to (r : MemoryRef) e : Prop := vaddr r = tn_thread e /\ ref_ok c r.
Lemma list_loop_ring head l : forall fuel current s,
  ring head l -> vaddr current = next_node head l -> ref_ok c current -> clean head -> 0 <= head < 2 ^ 64 ->
  (length l < fuel)%nat ->
  exists rs, list_loop c fuel current head (push_thread c) s = (s ++ rs, Ok tt) /\
    Forall2 leads_to rs l.
Proof.
  induction l as [|e rest IH]; intros fuel current s Hl Hcur Hr Hhead Hh Hf;
    destruct fuel as [|fuel]; cbn [length] in Hf; try lia; cbn [list_loop].
  - rewrite Hcur. cbn [next_node]. rewrite Z.eqb_refl. exists []. by rewrite app_nil_r.
  - destruct (push_thread_ring head e rest s Hl) as (r & Ep & Hrv & Hrk).
    destruct Hl as (Hne & Hclean & Hn & _ & _ & _ & Hrest).
    rewrite Hcur. cbn [next_node]. rewrite (proj2 (Z.eqb_neq _ _)) by done.
    rewrite (pbind_Ok _ _ _ _ _ Ep).
    rewrite (pbind_lift _ _ _ _ (pointer_word c run _ _ _ _ Hr Hcur Hn)).
    assert (Hc : Z.land (next_node head rest) (vabits_mask c) = next_node head rest).
    { destruct rest as [|e2 rest]; [done|apply Hrest]. }
    rewrite Hc.
    destruct (IH fuel (ref_at (next_node head rest)) (s ++ [r]) Hrest eq_refl) as (rs & -> & Hrs).
    + apply ref_at_ok. destruct rest as [|e2 rest]; cbn [next_node].
      * done.
      * destruct Hrest as (_ & _ & Hp & _). apply pointer_at_range in Hp. lia.
    + done.
    + done.
    + lia.
    + exists (r :: rs). rewrite <- app_assoc. split; [done|]. by constructor.
Qed.

Lemma find_thread_first key id (value : ThreadNode -> Z) rs l :
  (forall r e, leads_to r e -> e ∈ l -> key r = Ok (value e)) -> Forall2 leads_to rs l ->
  exists o, find_thread key id rs = Ok o /\
    match list_find (fun e => value e = u32 id) l with
    | Some (_, e) => exists r, o = Some r /\ leads_to r e
    | None => o = None
    end.
Proof.
  intros Hkey H. induction H as [|r e rs l Hre H IH]; cbn [find_thread list_find];
    [by exists None|].
  rewrite (Hkey r e Hre) by by left. cbn [rbind].
  destruct (decide (value e = u32 id)) as [E|E].
  - rewrite (proj2 (Z.eqb_eq _ _) E). exists (Some r). split; [done|]. by exists r.
  - rewrite (proj2 (Z.eqb_neq _ _) E).
    destruct IH as (o & Eo & Ho); [intros; apply Hkey; [done|by right]|].
    exists o. split; [done|]. by destruct (list_find _ l) as [[i x]|].
Qed.

Lemma ring_tid head l e r :
  ring head l -> e ∈ l -> leads_to r e -> GetTid sdk c r = Ok (tn_tid e).
Proof.
  intros Hl He [Hv Hr]. induction l as [|e' l IH]; [by apply elem_of_nil in He|].
  destruct Hl as (_ & _ & _ & _ & _ & Ht & Hl).
  apply elem_of_cons in He as [->|He]; [|by apply IH].
  unfold GetTid. by eapply (tls32_field sdk c run).
Qed.

(** C37: The thread found by an id of the system is the first of the thread list that has it,
    whatever lies between its nodes in memory; without one nothing is found.  The walk over the
    list ends. *)
Theorem FindThreadByTid_first (fuel : nat) (threads : MemoryRef) (tid : Z) l
    (Hr : ref_ok c threads)
    (Hhead : clean (vaddr threads + tl_list_ (ThreadList_table sdk)))
    (Hrange : 0 <= vaddr threads + tl_list_ (ThreadList_table sdk) < 2 ^ 64)
    (Hfirst : pointer (vaddr threads + tl_list_ (ThreadList_table sdk)) list__next_
      (next_node (vaddr threads + tl_list_ (ThreadList_table sdk)) l))
    (Hl : ring (vaddr threads + tl_list_ (ThreadList_table sdk)) l) (Hf : (length l < fuel)%nat) :
  exists o, FindThreadByTid sdk c fuel threads tid = Ok o /\
    match list_find (fun e => tn_tid e = u32 tid) l with
    | Some (_, e) => exists r, o = Some r /\ vaddr r = tn_thread e
    | None => o = None
    end.
Proof.
  set (head := vaddr threads + tl_list_ (ThreadList_table sdk)) in *.
  assert (Hc : ref_ok c (GetListCache sdk c threads) /\ vaddr (GetListCache sdk c threads) = head).
  { unfold GetListCache. fold head. rewrite wrap_small by lia.
    split; [by apply (ref_from_ok c run)|apply ref_from_vaddr]. }
  destruct Hc as [Hc Hcv].
  assert (Hn : Z.land (next_node head l) (vabits_mask c) = next_node head l).
  { destruct l as [|e l]; [done|apply Hl]. }
  assert (Hnr : 0 <= next_node head l < 2 ^ 64).
  { destruct l as [|e l]; cbn [next_node]; [done|]. destruct Hl as (_ & _ & Hp & _).
    apply pointer_at_range in Hp. lia. }
  destruct (list_loop_ring head l fuel (ref_at (next_node head l)) [] Hl eq_refl
    (ref_at_ok c _ Hnr) Hhead Hrange Hf) as (rs & El & Hrs).
  assert (EL : GetList sdk c fuel threads = Ok rs).
  { assert (E : list_for c fuel (GetListCache sdk c threads) (push_thread c) [] = (rs, Ok tt)).
    { unfold list_for.
      rewrite (pbind_lift _ _ _ _ (pointer_word c run _ _ _ _ Hc Hcv Hfirst)), Hcv.
      by rewrite Hn, Hhead. }
    unfold GetList, pbind, ptry. by rewrite E. }
  unfold FindThreadByTid. rewrite EL. cbn [rbind].
  destruct (find_thread_first (GetTid sdk c) tid tn_tid rs l) as (o & Eo & Ho); [|done|].
  { intros r e Hre He. by eapply ring_tid. }
  exists o. split; [done|]. destruct (list_find _ l) as [[i e]|]; [|done].
  destruct Ho as (r & -> & Hv & _). by exists r.
Qed.
End Lists.

(** ** A list of two threads *)

(** The head of the list at 0x4000, the nodes behind it, and the threads 1 (process id 100) and 2
    (200).  The runtime is at 0x4300; the monitor 600 is in the second chunk of the pool at
    0x4600, and thread 2 owns it.  The lock word of the object at 0x4700 leads to it. *)
Definition thread_bytes (id tid : Z) : list Z :=
  le_bytes 4 0 ++ le_bytes 4 0 ++ le_bytes 4 id ++ le_bytes 4 tid.
Definition thread_memory : list Z :=
  memory 0x800
    [(8, le_bytes 8 0x4020);
     (0x28, le_bytes 8 0x4040 ++ le_bytes 8 0x4100);
     (0x48, le_bytes 8 0x4000 ++ le_bytes 8 0x4200);
     (0x100, thread_bytes 1 100); (0x200, thread_bytes 2 200);
     (0x300 + 568, le_bytes 8 0x4600);
     (0x600, le_bytes 8 0x4610); (0x618, le_bytes 8 (0x4680 - 704));
     (0x680 + 48, le_bytes 8 0x4200);
     (0x704, le_bytes 4 (lock_word 2 (Fat 600)))].
Definition thread_core : CoreApi := one_core 0x4000 thread_memory.
#[local] Instance thread_presents : Presents thread_core (target_run thread_core).
Proof. apply one_presents; [done|apply Nat.ltb_lt; by vm_compute]. Qed.
Definition thread_runtime : Runtime_OffsetTable := @Runtime_table arm64_Core Sdk.T.

Lemma GetLockOwnerThreadId_owner_witness :
  @GetLockOwnerThreadId arm64_Core Sdk.T 0 thread_core thread_runtime (ref_at 0x4300)
    (ref_at 0x4700) = Ok 2.
Proof.
  apply (@GetLockOwnerThreadId_owner arm64_Core Sdk.T 0 thread_core (target_run thread_core) _
    thread_runtime (ref_at 0x4300) (ref_at 0x4700) 2 2 (Fat 600)); try done.
  - by apply check_field_ok; vm_compute.
  - exists 0x4680, 0x4200. split; [|split].
    + exists 0x4600, 0x4610, (0x4680 - 704).
      split_and!; try done; by apply check_pointer_ok; vm_compute.
    + by apply check_pointer_ok; vm_compute.
    + right. by apply check_field_ok; vm_compute.
Defined.

Lemma FindThreadByTid_first_witness : exists o,
  @FindThreadByTid arm64_Core Sdk.T thread_core 3 (ref_at 0x2000) 200 = Ok o /\
  exists r, o = Some r /\ vaddr r = 0x4200.
Proof.
  apply (@FindThreadByTid_first arm64_Core Sdk.T thread_core (target_run thread_core) _ 3
    (ref_at 0x2000) 200
    [{| tn_at := 0x4020; tn_thread := 0x4100; tn_tid := 100 |};
     {| tn_at := 0x4040; tn_thread := 0x4200; tn_tid := 200 |}]); try done.
  - by apply check_pointer_ok; vm_compute.
  - cbn [ring next_node tn_at tn_thread tn_tid].
    split_and!; try done; try (by apply check_pointer_ok; vm_compute);
      by apply check_field_ok; vm_compute.
  - cbn; lia.
Defined.
