(* ===== verification/Refs.v ===== *)
(** JNI references: android/art/runtime/indirect_reference_table.{h,cpp} and jni
    (java_vm_ext, jni_env_ext, local_reference_table), and the dex caches that
    class_linker.cpp finds through them.

    [kind_ext_] of a table is a member that only some code sets; [None] is the indeterminate
    value, and reading it is [Fault]. *)

From Stdlib Require Import ZArith Lia Bool String.
From stdpp Require Import base list gmap numbers.
From S2P Require Import Prelude Words Host Blocks Notes CoreApi Segments AddressSpace MemRef Elf.
From S2P Require Import Mirrors Cxx Dex RuntimeTables OatFiles Frames Runtimes QuickHeaders Jit.
Open Scope Z_scope.

(** [IndirectRefKind]. *)
Definition kJniTransitionOrInvalid : Z := 0.
Definition kLocal : Z := 1.
Definition kGlobal : Z := 2.
Definition kWeakGlobal : Z := 3.
Definition kSerialBits : Z := 2.
Definition kKindBits : Z := 2.
Definition kKindMask : Z := 2 ^ kKindBits - 1.
Definition kIRTSerialBits : Z := 3.
Definition kGlobalsMax : Z := 51200.
Definition kWeakGlobalsMax : Z := 51200.
Definition kInitialLrtBytes : Z := 512.
Definition LrtEntry_THIS : Z := 4.
Definition kSmallLrtEntries : Z := kInitialLrtBytes / LrtEntry_THIS.

Record IndirectReferenceTable := { irt_ref : MemoryRef; kind_ext_ : option Z }.

(** [GetDescriptor(kind)] and [DecodeIndirectRefKind(uref)]. *)
Definition ref_kind_descriptor (kind : Z) : list Z :=
  chars (if kind =? kLocal then "JNI_LOCAL" else if kind =? kGlobal then "JNI_GLOBAL"
         else if kind =? kWeakGlobal then "JNI_WEAK_GLOBAL" else "JNI_UNK").
Definition DecodeIndirectRefKind (uref : Z) : Z := Z.land uref kKindMask.

Section Refs.
Context {M : Machine} (sdk : Z) (c : CoreApi).

(** * The bits of a reference *)

(** The bits of the serial number in front of the index, from Android O on. *)
Definition serial_bits : Z := if Sdk.T <=? sdk then kIRTSerialBits else kSerialBits.
Definition DecodeIndex (uref : Z) : Z :=
  if Sdk.O <=? sdk then u32 (Z.shiftr (Z.shiftr uref kKindBits) serial_bits)
  else Z.land (Z.shiftr uref 2) 0xffff.
Definition EncodeIndex (table_index : Z) : Z :=
  if Sdk.O <=? sdk then shl 64 (shl 64 table_index kKindBits) serial_bits
  else shl 64 table_index 2.
Definition EncodeSerial (serial : Z) : Z :=
  if Sdk.O <=? sdk then shl 32 serial kKindBits else shl 32 serial 20.
Definition EncodeIndirectRef (t : IndirectReferenceTable) (table_index serial : Z) : result Z :=
  match kind_ext_ t with
  | Some kind => Ok (Z.lor (Z.lor (EncodeIndex table_index) (EncodeSerial serial)) kind)
  | None => Fault
  end.

(** * A table *)

Definition irt_word (f : IndirectReferenceTable_OffsetTable -> Z) (t : IndirectReferenceTable)
    : result Z := vword c (irt_ref t) (f (IndirectReferenceTable_table sdk)).
Definition irt_segment_state (t : IndirectReferenceTable) : result Z :=
  word c (irt_ref t) (irt_segment_state_ (IndirectReferenceTable_table sdk)) 4.
(** [top_index_] of [DecodeReference] and [Walk]. *)
Definition irt_top (t : IndirectReferenceTable) : result Z :=
  if Sdk.T <=? sdk then irt_word irt_top_index_ t
  else if Sdk.O <=? sdk then irt_segment_state t
  else let! s := irt_segment_state t in Ok (Z.land s 0xFFFF).
Definition irt_max (t : IndirectReferenceTable) : result Z :=
  match kind_ext_ t with
  | None => Fault
  | Some kind =>
      Ok (if kind =? kGlobal then kGlobalsMax
          else if kind =? kWeakGlobal then kWeakGlobalsMax else 0)
  end.
Definition irt_entry (t : IndirectReferenceTable) (idx : Z) : result MemoryRef :=
  let! v := irt_word irt_table_ t in
  MovePtr c (ref_at v) (u32 (IrtEntry_THIS (IrtEntry_table sdk) * idx)).
Definition irt_serial (entry : MemoryRef) : result Z :=
  word c entry (irt_serial_ (IrtEntry_table sdk)) 4.
(** The object of an entry; [None] when its reference cannot be read. *)
Definition irt_object (entry : MemoryRef) : result (option MemoryRef) :=
  let r := ref_at (u64 (vaddr entry + irt_references_ (IrtEntry_table sdk))) in
  let! valid := (if nz (vaddr r) then valid_ref c r else Ok false) in
  if valid : bool then
    let! v :=
      (if sdk <? Sdk.T then let! serial := irt_serial entry in word c r (u64 (serial * 4)) 4
       else word c r 0 4) in
    Ok (Some (Object v))
  else Ok None.
Definition irt_DecodeReference (t : IndirectReferenceTable) (idx : Z) : result MemoryRef :=
  let! top := irt_top t in
  let! max := irt_max t in
  if (idx <? top) && (idx <? max) then
    let! entry := irt_entry t idx in
    let! object := irt_object entry in Ok (default (Object 0) object)
  else Ok (Object 0).

(** The visits of [Walk]: the valid objects, each with the reference that stands for it. *)
Section Walk.
Context {S : Type} (fn : MemoryRef -> Z -> prog S unit).
Fixpoint irt_loop (n : nat) (t : IndirectReferenceTable) (idx : Z) : prog S unit :=
  match n with
  | O => pret tt
  | Datatypes.S n =>
      let$ entry := lift (irt_entry t idx) in
      let$ object := lift (irt_object entry) in
      let$ _ :=
        match object with
        | None => pret tt
        | Some object =>
            let$ valid := lift (if nz (vaddr object) then obj_IsValid sdk c object else Ok false) in
            if valid : bool then
              let$ serial := lift (irt_serial entry) in
              let$ iref := lift (EncodeIndirectRef t idx serial) in fn object iref
            else pret tt
        end in
      irt_loop n t (idx + 1)
  end.
Definition irt_Walk (t : IndirectReferenceTable) : prog S unit :=
  let$ top := lift (irt_top t) in
  let$ max := lift (irt_max t) in irt_loop (Z.to_nat (Z.min (u32 top) max)) t 0.
End Walk.

(** * The tables of the virtual machine *)

Section JavaVM.
Context (patch : Z) (vm : MemoryRef).

Definition vm_table (f : JavaVMExt_OffsetTable -> Z) (kind : Z) : result IndirectReferenceTable :=
  let! r := Prepare c (ref_from c (u64 (vaddr vm + f (JavaVMExt_table patch sdk))) vm) false in
  Ok {| irt_ref := r; kind_ext_ := Some kind |}.
Definition GetGlobalsTable : result IndirectReferenceTable := vm_table vm_globals_ kGlobal.

(** The search for the name of a memory map near the table: the map found, and the number of
    steps. *)
Definition irt_mem_map (t : IndirectReferenceTable) (count : Z) : MemoryRef :=
  ref_from c (u64 (point_size * count
    + u64 (vaddr (irt_ref t) + irt_table_mem_map_ (IndirectReferenceTable_table sdk))))
    (irt_ref t).
Definition named_ref_table (m : MemoryRef) : result bool :=
  catch
    (let! p := MemMap_GetName c m in
     let! s := host_cstr (host_mem c) p in
     Ok (bool_decide (s = chars "indirect ref table")))
    (fun _ => Ok false).
Fixpoint mem_map_loop (n : nat) (t : IndirectReferenceTable) (count : Z)
    : result (option (MemoryRef * Z)) :=
  match n with
  | O => Ok None
  | S n =>
      let m := irt_mem_map t count in
      let! valid := valid_ref c m in
      if negb valid then Ok None
      else
        let! found := named_ref_table m in
        if found : bool then Ok (Some (m, count)) else mem_map_loop n t (count + 1)
  end.
(** A table that has been moved is a new object, whose kind is not set. *)
Definition GetWeakGlobalsTable : result IndirectReferenceTable :=
  let! t := vm_table vm_weak_globals_ kWeakGlobal in
  if Sdk.P <=? sdk then
    let! valid := valid_ref c (irt_ref t) in
    if valid : bool then
      let! r := mem_map_loop 200 t 0 in
      match r with
      | Some (m, count) =>
          if nz count then
            Ok {| irt_ref := ref_from c
                    (u64 (vaddr m - irt_table_mem_map_ (IndirectReferenceTable_table sdk))) m;
                  kind_ext_ := None |}
          else Ok t
      | None => Ok t
      end
    else Ok t
  else Ok t.

Definition DecodeGlobal (uref : Z) : result MemoryRef :=
  let! t := GetGlobalsTable in irt_DecodeReference t (DecodeIndex uref).
Definition DecodeWeakGlobal (uref : Z) : result MemoryRef :=
  let! t := GetWeakGlobalsTable in irt_DecodeReference t (DecodeIndex uref).
Definition JavaVM_Decode (uref : Z) : result MemoryRef :=
  let kind := DecodeIndirectRefKind uref in
  catch
    (if kind =? kGlobal then DecodeGlobal uref
     else if kind =? kWeakGlobal then DecodeWeakGlobal uref
     else Ok (Object 0))
    (fun _ => Ok (Object 0)).
End JavaVM.

(** * Local references *)

Definition lrt_tables (t : MemoryRef) : MemoryRef :=
  ref_at (u64 (vaddr t + lrt_tables_ (LocalReferenceTable_table sdk))).
(** [LocalReferenceTable::DecodeReference(iref)]: the entry is a pointer, and has to lie in
    the segment of one of the tables. *)
Definition lrt_DecodeReference (fuel : nat) (t : MemoryRef) (iref : Z) : result MemoryRef :=
  let entry := Z.land iref (bnot 64 kKindMask) in
  let! r := vector_find c (fun value =>
    let! local := vword c (ref_at value) 0 in
    let! '(l, valid) := IsValid c (ref_at local) in
    match ref_block l with
    | Some id =>
        if valid && virtualContains (lb c id) entry then
          let! v := word c (ref_at entry) 0 4 in Ok (Some (Object v))
        else Ok None
    | None => Ok None
    end) fuel (lrt_tables t) kDefEntrySize in
  Ok (default (Object 0) r).
Section LrtWalk.
Context {S : Type} (fn : MemoryRef -> Z -> prog S unit).
(** The loop over one table: [pos] counts bytes, and is tested against a number of entries. *)
Fixpoint lrt_entries (n : nat) (entry : MemoryRef) (pos : Z) : prog S unit :=
  match n with
  | O => pret tt
  | Datatypes.S n =>
      let$ v := lift (word c entry pos 4) in
      let object := Object v in
      let$ valid := lift (if nz (vaddr object) then obj_IsValid sdk c object else Ok false) in
      let$ _ :=
        (if valid : bool then fn object (Z.lor (u64 (vaddr entry + pos)) kLocal) else pret tt) in
      lrt_entries n entry (pos + LrtEntry_THIS)
  end.
Fixpoint lrt_loop (n : nat) (tables : MemoryRef) (i : Z) : prog S unit :=
  match n with
  | O => pret tt
  | Datatypes.S n =>
      let$ p := lift (vector_at c tables point_size i) in
      let$ v := lift (vword c (ref_at p) 0) in
      let$ _ := lrt_entries (Z.to_nat (kSmallLrtEntries / LrtEntry_THIS)) (ref_at v) 0 in
      lrt_loop n tables (i + 1)
  end.
Definition lrt_Walk (t : MemoryRef) : prog S unit :=
  let tables := lrt_tables t in
  let$ n := lift (vector_size c tables point_size) in lrt_loop (Z.to_nat n) tables 0.
End LrtWalk.

(** [JNIEnvExt]: the table of the local references, whose kind is never set. *)
Definition env_locals (env : MemoryRef) : result MemoryRef :=
  quick_cache c (Ok (u64 (vaddr env + env_locals_ (JNIEnvExt_table sdk)))) env.
Definition GetLocalsTable (env : MemoryRef) : result IndirectReferenceTable :=
  let! r := env_locals env in Ok {| irt_ref := r; kind_ext_ := None |}.
Definition DecodeLocal (fuel : nat) (env : MemoryRef) (uref : Z) : result MemoryRef :=
  if Sdk.U <=? sdk then let! t := env_locals env in lrt_DecodeReference fuel t uref
  else let! t := GetLocalsTable env in irt_DecodeReference t (DecodeIndex uref).
Definition JNIEnv_Decode (fuel : nat) (env : MemoryRef) (uref : Z) : result MemoryRef :=
  if DecodeIndirectRefKind uref =? kLocal then DecodeLocal fuel env uref else Ok (Object 0).

(** * The dex caches of the class linker *)

Record DexCacheData := { dcd_ref : MemoryRef; dex_cache_cache : MemoryRef; dex_file_cache : MemoryRef }.
Definition cl_dex_caches (cl : MemoryRef) : result MemoryRef :=
  quick_cache c (Ok (u64 (vaddr cl + cl_dex_caches_ (ClassLinker_table sdk)))) cl.
Definition GetDexCacheCount (cl : MemoryRef) : result Z :=
  let! t := cl_dex_caches cl in
  let! n :=
    (if Sdk.T <=? sdk then unordered_map_size c t
     else if Sdk.N <=? sdk then list_size c t else vector_size c t 4) in
  Ok (u32 n).
Definition dcd_word (f : DexCacheData_OffsetTable -> Z) (data : MemoryRef) : result Z :=
  vword c data (f (DexCacheData_table sdk)).
(** The caches appended; [dex] gives the dex file of an element. *)
Definition add_dex_cache (patch : Z) (vm : MemoryRef) (data : MemoryRef)
    (dex : result Z) : prog (list DexCacheData) unit :=
  let$ root := lift (dcd_word dcd_weak_root data) in
  let$ cache := lift (JavaVM_Decode patch vm root) in
  let$ d := lift dex in
  modify (fun l => l ++ [{| dcd_ref := data; dex_cache_cache := cache; dex_file_cache := ref_at d |}]).
Definition GetDexCacheDatas (fuel : nat) (patch : Z) (vm cl : MemoryRef)
    : prog (list DexCacheData) unit :=
  let$ t := lift (cl_dex_caches cl) in
  if Sdk.X <=? sdk then
    new_map_for c fuel t (fun value =>
      let data := ref_at (u64 (value + 0x8)) in
      add_dex_cache patch vm data (dcd_word dcd_dex_file data))
  else if Sdk.T <=? sdk then
    unordered_map_for c fuel t (fun value =>
      add_dex_cache patch vm (ref_at (u64 (value + 0x8))) (vword c (ref_at value) 0))
  else if Sdk.N <=? sdk then
    list_for c fuel t (fun value =>
      let data := ref_at value in add_dex_cache patch vm data (dcd_word dcd_dex_file data))
  else
    vector_for c fuel t 4 (fun value =>
      let$ v := lift (word c (ref_at value) 0 4) in
      let dex_cache := Object v in
      let$ dex := lift (DexCache_GetDexFile sdk c dex_cache) in
      modify (fun l => l ++ [{| dcd_ref := ref_at 0; dex_cache_cache := ref_at (vaddr dex_cache);
                                dex_file_cache := ref_at (vaddr dex) |}])).
End Refs.
