(* ===== verification/RefsProofs.v ===== *)
(** Theorems about [Refs]: the references that a walk over a table of references reports are
    the ones that decode to its objects. *)

From Stdlib Require Import ZArith Lia Bool String.
From stdpp Require Import base list gmap numbers.
From S2P Require Import Prelude Words Host Blocks Notes CoreApi Segments AddressSpace MemRef Elf.
From S2P Require Import Mirrors Cxx Reading Dex RuntimeTables OatFiles Frames Runtimes QuickHeaders.
From S2P Require Import BitsProofs Jit Refs.
Open Scope Z_scope.

(** A slot of a table: without a valid object, or with one and its serial number. *)
Inductive ref_slot := Empty | Live (object : MemoryRef) (serial : Z).
Definition live (s : ref_slot) : list MemoryRef :=
  match s with Empty => [] | Live o _ => [o] end.

Section Refs.
Context {M : Machine} (sdk : Z) (c : CoreApi).

(** * The bits of a reference *)

(** The serial numbers that leave the index alone. *)
Definition serial_ok (serial : Z) : Prop :=
  0 <= serial < (if Sdk.O <=? sdk then 2 ^ serial_bits sdk else 2 ^ 32).

Lemma serial_bits_range : serial_bits sdk = 2 \/ serial_bits sdk = 3.
Proof. unfold serial_bits. destruct (Sdk.T <=? sdk); auto. Qed.

(** A number below a power of two has no bits above it; one shifted left has none below. *)
Lemma shiftr_below v n : 0 <= n -> 0 <= v < 2 ^ n -> Z.shiftr v n = 0.
Proof. intros Hn Hv. rewrite Z.shiftr_div_pow2 by lia. by apply Z.div_small. Qed.
Lemma land_above v n k : 0 <= k <= n -> Z.land (Z.shiftl v n) (Z.ones k) = 0.
Proof.
  intros Hk. rewrite Z.land_ones, Z.shiftl_mul_pow2 by lia.
  replace n with (n - k + k) by lia. rewrite Z.pow_add_r, Z.mul_assoc by lia.
  apply Z.mod_mul. pose proof (Z.pow_pos_nonneg 2 k). lia.
Qed.

(** The parts of a reference from Android O on: kind, serial number, index. *)
Lemma new_reference idx serial kind b :
  0 <= b -> 0 <= serial < 2 ^ b -> 0 <= kind < 4 ->
  let uref := Z.lor (Z.lor (Z.shiftl idx (2 + b)) (Z.shiftl serial 2)) kind in
  Z.shiftr uref (2 + b) = idx /\ Z.land uref (Z.ones 2) = kind.
Proof.
  intros Hb Hs Hk uref. unfold uref. rewrite !Z.shiftr_lor, !Z.land_lor_distr_l. split.
  - rewrite Z.shiftr_shiftl_l, Z.sub_diag, Z.shiftl_0_r by lia.
    rewrite (shiftr_below (Z.shiftl serial 2)) by
      (rewrite ?Z.shiftl_mul_pow2, ?Z.pow_add_r by lia; lia).
    rewrite (shiftr_below kind) by (rewrite ?Z.pow_add_r by lia; nia).
    by rewrite !Z.lor_0_r.
  - rewrite !land_above, Z.land_ones, Z.mod_small by lia. done.
Qed.
(** Before: kind, index, serial number. *)
Lemma old_reference idx serial kind :
  0 <= idx < 2 ^ 16 -> 0 <= kind < 4 ->
  let uref := Z.lor (Z.lor (Z.shiftl idx 2) (Z.shiftl serial 20)) kind in
  Z.land (Z.shiftr uref 2) 0xffff = idx /\ Z.land uref (Z.ones 2) = kind.
Proof.
  intros Hi Hk uref. unfold uref. rewrite !Z.shiftr_lor, !Z.land_lor_distr_l. split.
  - change 0xffff with (Z.ones 16).
    rewrite Z.shiftr_shiftl_l, Z.sub_diag, Z.shiftl_0_r by lia. rewrite Z.shiftr_shiftl_l by lia.
    rewrite (shiftr_below kind) by lia. rewrite (land_above serial) by lia.
    rewrite Z.land_ones, Z.mod_small by lia. by rewrite !Z.lor_0_r.
  - rewrite !land_above, Z.land_ones, Z.mod_small by lia. done.
Qed.

(** Index and kind of an encoded reference. *)
Lemma EncodeIndirectRef_parts t idx serial kind :
  0 <= idx < 2 ^ 16 -> serial_ok serial -> 0 <= kind < 4 -> kind_ext_ t = Some kind ->
  exists uref, EncodeIndirectRef sdk t idx serial = Ok uref /\
    DecodeIndex sdk uref = idx /\ DecodeIndirectRefKind uref = kind.
Proof.
  intros Hidx Hs Hkind Hk. unfold EncodeIndirectRef. rewrite Hk. eexists. split; [done|].
  unfold serial_ok in Hs. pose proof serial_bits_range as Hb.
  unfold DecodeIndirectRefKind, DecodeIndex, EncodeIndex, EncodeSerial, shl.
  change kKindMask with (Z.ones 2). change kKindBits with 2.
  destruct (Sdk.O <=? sdk).
  - assert (0 <= idx * 2 ^ (2 + serial_bits sdk) < 2 ^ 64 /\ serial * 2 ^ 2 < 2 ^ 32)
      by (destruct Hb as [E|E]; rewrite E in Hs |- *;
          [change (2 ^ (2 + 2)) with 16; change (2 ^ 2) with 4 in *
          | change (2 ^ (2 + 3)) with 32; change (2 ^ 3) with 8 in *]; lia).
    rewrite (wrap_small 64 (Z.shiftl idx 2)) by (rewrite Z.shiftl_mul_pow2; lia).
    rewrite Z.shiftl_shiftl, Z.shiftr_shiftr by lia.
    rewrite (wrap_small 64 (Z.shiftl idx _)), (wrap_small 32 (Z.shiftl serial 2))
      by (rewrite Z.shiftl_mul_pow2; lia).
    destruct (new_reference idx serial kind (serial_bits sdk)) as [-> ->]; [lia|done|done|].
    by rewrite wrap_small by lia.
  - rewrite (wrap_small 64) by (rewrite Z.shiftl_mul_pow2; lia).
    assert (wrap 32 (Z.shiftl serial 20) = Z.shiftl (serial mod 2 ^ 12) 20) as ->.
    { unfold wrap. rewrite !Z.shiftl_mul_pow2 by lia.
      by rewrite <- Z.mul_mod_distr_r by lia. }
    by apply old_reference.
Qed.

(** * A walk over a table *)

Definition record (object : MemoryRef) (iref : Z) : prog (list (MemoryRef * Z)) unit :=
  modify (fun l => l ++ [(object, iref)]).
Definition slot_at (t : IndirectReferenceTable) (idx : Z) (s : ref_slot) : Prop :=
  exists entry, irt_entry sdk c t idx = Ok entry /\
  match s with
  | Empty => irt_object sdk c entry = Ok None \/
      exists o, irt_object sdk c entry = Ok (Some o) /\
        (vaddr o = 0 \/ obj_IsValid sdk c o = Ok false)
  | Live o serial => irt_object sdk c entry = Ok (Some o) /\ vaddr o <> 0 /\
      obj_IsValid sdk c o = Ok true /\ irt_serial sdk c entry = Ok serial /\ serial_ok serial
  end.
(** A table of globals: its slots from the first to the top index. *)
Record table_at (t : IndirectReferenceTable) (kind : Z) (slots : list ref_slot) : Prop := {
  table_kind : kind_ext_ t = Some kind;
  table_global : kind = kGlobal \/ kind = kWeakGlobal;
  table_top : irt_top sdk c t = Ok (Z.of_nat (length slots));
  table_max : Z.of_nat (length slots) <= kGlobalsMax;
  table_slots : forall i s, slots !! i = Some s -> slot_at t (Z.of_nat i) s }.
(** A pair reported: the reference is of the kind of the table and decodes to the object. *)
Definition decodes (t : IndirectReferenceTable) (kind : Z) (p : MemoryRef * Z) : Prop :=
  DecodeIndirectRefKind p.2 = kind /\
  irt_DecodeReference sdk c t (DecodeIndex sdk p.2) = Ok p.1.

Lemma table_limit t kind slots :
  table_at t kind slots -> irt_max t = Ok kGlobalsMax /\ 0 <= kind < 4.
Proof.
  intros [Hk [-> | ->] _ _ _]; unfold irt_max; rewrite Hk; split; done.
Qed.

(** One slot. *)
Lemma visit_slot t kind slots idx s n rec :
  table_at t kind slots -> slots !! idx = Some s ->
  exists seen, irt_loop sdk c record (S n) t (Z.of_nat idx) rec
      = irt_loop sdk c record n t (Z.of_nat idx + 1) (rec ++ seen) /\
    map fst seen = live s /\ Forall (decodes t kind) seen.
Proof.
  intros Ht Hs. destruct (table_limit t kind slots Ht) as [Hmax Hkind].
  pose proof (lookup_lt_Some _ _ _ Hs) as Hlt. pose proof (table_max _ _ _ Ht) as Hn.
  change kGlobalsMax with 51200 in Hn.
  destruct (table_slots _ _ _ Ht idx s Hs) as (entry & He & Hentry).
  cbn [irt_loop]. rewrite (pbind_lift _ _ _ entry He).
  destruct s as [|o serial].
  - exists []. rewrite app_nil_r. split; [|by split; [|constructor]].
    destruct Hentry as [Ho | (o & Ho & Hv)]; rewrite (pbind_lift _ _ _ _ Ho); [done|].
    unfold nz. destruct Hv as [-> | Hv]; [done|].
    destruct (negb _); [by rewrite Hv|done].
  - destruct Hentry as (Ho & Hne & Hv & Hserial & Hok).
    destruct (EncodeIndirectRef_parts t (Z.of_nat idx) serial kind) as (uref & Hu & Hi & Hu2);
      [lia|done..|apply Ht|].
    exists [(o, uref)]. split; [|split; [done|]].
    + rewrite (pbind_lift _ _ _ _ Ho). unfold nz. rewrite (proj2 (Z.eqb_neq _ _) Hne).
      cbn [negb]. rewrite Hv. unfold pbind, lift, record, modify. by rewrite Hserial, Hu.
    + constructor; [|done]. split; [done|]. cbn [fst snd]. rewrite Hi.
      unfold irt_DecodeReference. rewrite (table_top _ _ _ Ht), Hmax. cbn [rbind].
      change kGlobalsMax with 51200. rewrite (proj2 (Z.ltb_lt _ _)), (proj2 (Z.ltb_lt _ 51200)) by lia.
      cbn [andb]. rewrite He. cbn [rbind]. by rewrite Ho.
Qed.

Lemma visit_slots t kind slots : table_at t kind slots -> forall rest done rec,
  slots = done ++ rest ->
  exists seen, irt_loop sdk c record (length rest) t (Z.of_nat (length done)) rec
      = (rec ++ seen, Ok tt) /\
    map fst seen = flat_map live rest /\ Forall (decodes t kind) seen.
Proof.
  intros Ht rest. induction rest as [|s rest IH]; intros seen_slots rec E.
  { exists []. by rewrite app_nil_r. }
  destruct (visit_slot t kind slots (length seen_slots) s (length rest) rec Ht) as (one & E1 & F1 & D1).
  { by rewrite E, lookup_app_r, Nat.sub_diag by lia. }
  destruct (IH (seen_slots ++ [s]) (rec ++ one)) as (more & E2 & F2 & D2).
  { by rewrite <- app_assoc. }
  exists (one ++ more). cbn [length]. rewrite E1, app_assoc. split; [|split].
  - by replace (Z.of_nat (length seen_slots) + 1) with (Z.of_nat (length (seen_slots ++ [s])))
      by (rewrite length_app; cbn; lia).
  - by rewrite map_app, F1, F2.
  - by apply Forall_app.
Qed.

(** C30: A walk over a table of global references reports the valid objects of its slots in
    their order, and the reference it makes up for each from its index, its serial
    number and the kind of the table is one that [DecodeReference] takes back to the object. *)
Theorem Walk_Decode (t : IndirectReferenceTable) (kind : Z) (slots : list ref_slot)
    (Ht : table_at t kind slots) :
  exists seen, irt_Walk sdk c record t [] = (seen, Ok tt) /\
    map fst seen = flat_map live slots /\ Forall (decodes t kind) seen.
Proof.
  destruct (table_limit t kind slots Ht) as [Hmax _]. pose proof (table_max _ _ _ Ht) as Hn.
  unfold irt_Walk. rewrite (pbind_lift _ _ _ _ (table_top _ _ _ Ht)), (pbind_lift _ _ _ _ Hmax).
  change kGlobalsMax with 51200 in *. rewrite wrap_small, Z.min_l, Nat2Z.id by lia.
  destruct (visit_slots t kind slots Ht slots [] []) as (seen & E & F & D); [done|].
  by exists seen.
Qed.
End Refs.

(** At 0x1000 the class of classes, at 0x1080 a class whose objects have 16 bytes, at 0x1100 a
    table of two slots at 0x1200: an empty one, and the object at 0x1300 under the serial
    number 2. *)
Definition demo_refs : list Z :=
  memory 0x400 [(0, le_bytes 4 0x1000); (0x80, le_bytes 4 0x1000); (0x80 + 96, le_bytes 4 16);
    (0x100, le_bytes 4 2); (0x150, le_bytes 8 0x1200);
    (0x210, le_bytes 4 2); (0x21C, le_bytes 4 0x1300); (0x300, le_bytes 4 0x1080)].
Definition refs_core : CoreApi := one_core 0x1000 demo_refs.
Definition demo_ref_table : IndirectReferenceTable :=
  {| irt_ref := ref_at 0x1100; kind_ext_ := Some kGlobal |}.

Lemma Walk_Decode_witness :
  exists seen, @irt_Walk arm64_Core Sdk.R refs_core _ record demo_ref_table [] = (seen, Ok tt) /\
    map fst seen = [Object 0x1300] /\
    Forall (@decodes arm64_Core Sdk.R refs_core demo_ref_table kGlobal) seen.
Proof.
  apply (@Walk_Decode arm64_Core Sdk.R refs_core demo_ref_table kGlobal
    [Empty; Live (Object 0x1300) 2]).
  constructor; [done|by left|by vm_compute|by vm_compute|].
  intros [|[|i]] s Hs; cbn in Hs; [| |done]; injection Hs as <-.
  - eexists. split; [vm_compute; reflexivity|]. right.
    eexists. split; [vm_compute; reflexivity|by left].
  - eexists. split; [vm_compute; reflexivity|]. split_and!; [by vm_compute..|split; by vm_compute].
Defined.
