(* ===== verification/Spaces.v ===== *)
(** The spaces of the heap: android/art/runtime/gc/space/space.{h,cpp}, the classes derived
    from [Space] and android/art/runtime/gc/heap.{h,cpp}, and the walk over all objects of
    android/android.cpp.

    The type of a space is what its virtual function [GetType] returns: the code decodes the
    first instructions of that function in the target, and falls back to the name of the
    space.  A [Space] of the model is an object of one of the classes, with the reference it
    is; the lists of the heap, and the caches of maps in the spaces, are a [HeapCache], filled
    at the first use.  [FakeSpace] objects are never made
    (heap.cpp compiles them out).  Caches of single words are left out, as in [Mirrors]; so is
    that of the reference to a vector of spaces, which an exception during the search for the
    vector would leave moved. *)

From Stdlib Require Import ZArith Lia Bool String.
From stdpp Require Import base list gmap numbers.
From S2P Require Import Prelude Words Host Blocks Notes CoreApi Segments AddressSpace MemRef Elf.
From S2P Require Import Mirrors Cxx Heap RuntimeTables Runtimes JavaThreads Refs.
Open Scope Z_scope.

(** [SpaceType]. *)
Definition kSpaceTypeFakeSpace : Z := -2.
Definition kSpaceTypeInvalidSpace : Z := -1.
Definition kSpaceTypeImageSpace : Z := 0.
Definition kSpaceTypeMallocSpace : Z := 1.
Definition kSpaceTypeZygoteSpace : Z := 2.
Definition kSpaceTypeBumpPointerSpace : Z := 3.
Definition kSpaceTypeLargeObjectSpace : Z := 4.
Definition kSpaceTypeRegionSpace : Z := 5.

Definition REGION_SPACE : list Z := chars "main space (region space)".
Definition ZYGOTE_SPACE : list Z := chars "Zygote space".
Definition NON_MOVING_SPACE : list Z := chars "non moving space".
Definition ROSALLOC_SPACE : list Z := chars "main rosalloc space".
Definition FREELIST_SPACE : list Z := chars "free list large object space".
Definition MEMMAP_SPACE : list Z := chars "mem map large object space".
Definition BUMP_POINTER_SPACE : list Z := chars "Bump pointer space".

Record Space_OffsetTable := { sp_vtbl : Z; sp_vtbl_GetType : Z; sp_vtbl_IsDlMallocSpace : Z;
  sp_vtbl_IsRosAllocSpace : Z; sp_name_ : Z }.

(** The class of a C++ object, and the object. *)
Inductive space_class :=
  | ContinuousSpace | RegionSpace | ImageSpace | ZygoteSpace | BumpPointerSpace
  | MallocSpace | RosAllocSpace | DlMallocSpace
  | DiscontinuousSpace | LargeObjectSpace | FreeListSpace | LargeObjectMapSpace.
#[export] Instance space_class_eq : EqDecision space_class.
Proof. solve_decision. Defined.
Record Space := { sp_class : space_class; sp_ref : MemoryRef }.

(** The lists of spaces that the heap keeps; [hc_maps] holds, by the position of the space in
    its list, the cache of a map of large objects. *)
Record HeapCache := { hc_continuous : list Space; hc_discontinuous : list Space;
  hc_maps : gmap nat (list MemoryRef) }.
Definition no_spaces : HeapCache :=
  {| hc_continuous := []; hc_discontinuous := []; hc_maps := ∅ |}.

(** [strncmp(name, prefix, strlen(prefix)) == 0]. *)
Definition name_starts_with (prefix name : list Z) : bool :=
  bool_decide (take (length prefix) name = prefix).
(** The type the name of a space tells. *)
Definition type_of_name (name : list Z) : Z :=
  if bool_decide (name = REGION_SPACE) then kSpaceTypeRegionSpace
  else if bool_decide (name = ZYGOTE_SPACE) then kSpaceTypeZygoteSpace
  else if bool_decide (name = NON_MOVING_SPACE) || bool_decide (name = ROSALLOC_SPACE)
  then kSpaceTypeMallocSpace
  else if bool_decide (name = FREELIST_SPACE) || bool_decide (name = MEMMAP_SPACE)
  then kSpaceTypeLargeObjectSpace
  else if name_starts_with BUMP_POINTER_SPACE name then kSpaceTypeBumpPointerSpace
  else
    let len := length name in
    if (4 <? Z.of_nat len) && bool_decide (drop (len - 4) name = chars ".art")
    then kSpaceTypeImageSpace
    else if name_starts_with ROSALLOC_SPACE name then kSpaceTypeMallocSpace
    else kSpaceTypeInvalidSpace.

Section Spaces.
Context {M : Machine} (sdk patch : Z) (c : CoreApi).

Definition Space_Init : Space_OffsetTable :=
  if bits =? 64 then
    {| sp_vtbl := 0; sp_vtbl_GetType := 16; sp_vtbl_IsDlMallocSpace := 24;
       sp_vtbl_IsRosAllocSpace := 40; sp_name_ := 8 |}
  else
    {| sp_vtbl := 0; sp_vtbl_GetType := 8; sp_vtbl_IsDlMallocSpace := 12;
       sp_vtbl_IsRosAllocSpace := 20; sp_name_ := 4 |}.

(** * The type of a space *)

Definition Space_GetName (space : MemoryRef) : result (list Z) :=
  let! p := c_str c (ref_from c (u64 (vaddr space + sp_name_ Space_Init)) space) in
  host_cstr (host_mem c) p.

(** The type that the first [retry] instructions at [p] return. *)
Fixpoint arm64_type (retry : nat) (p : Z) : result Z :=
  match retry with
  | O => Ok kSpaceTypeInvalidSpace
  | S retry =>
      let! inst := host_word (host_mem c) p 4 in
      if (inst =? 0xaa1f03e0) || (inst =? 0x2a1f03e0) then Ok kSpaceTypeImageSpace
      else
        let checkop := Z.land inst MoveWideImmediateMask in
        if negb (checkop =? MOVZ_w) && negb (checkop =? MOVZ_x)
        then arm64_type retry (u64 (p + 4))
        else
          let rd := Z.land inst 0x1F in
          let opc := Z.land (Z.shiftr inst 29) 3 in
          if negb (rd =? 0) || negb (opc =? 2) then arm64_type retry (u64 (p + 4))
          else
            let hw := Z.land (Z.shiftr inst 21) 3 in
            let imm16 := Z.land (Z.shiftr inst 5) 0xFFFF in
            let pos := Z.shiftl hw 4 in
            if 32 <=? pos then Fault
            else
              let imm := shl 32 imm16 pos in
              if kSpaceTypeRegionSpace <? imm then arm64_type retry (u64 (p + 4)) else Ok imm
  end.
Definition thumb_type (inst : Z) : Z :=
  let checkop := Z.shiftr inst 11 in
  let rd := Z.land (Z.shiftr inst 8) 7 in
  let imm8 := Z.land inst 0xFF in
  if negb (checkop =? mov_expr) || negb (rd =? 0) || (kSpaceTypeRegionSpace <? imm8)
  then kSpaceTypeInvalidSpace else imm8.
(** The eight bytes at the start of a function. *)
Definition x86_type (inst : Z) : Z :=
  if Z.land inst 0xFFFF =? 0xc031 then kSpaceTypeImageSpace
  else
    let inst := Z.land inst 0xFFFFFFFFFF in
    let type := Z.land (Z.shiftr inst 8) 0xFF in
    if negb (Z.land inst 0xFF =? 0xb8) || (kSpaceTypeRegionSpace <? type)
    then kSpaceTypeInvalidSpace else type.
(** The switch over the machines, for the function at [fn]. *)
Definition type_of_code (fn : MemoryRef) : result Z :=
  if machine =? EM_AARCH64 then let! '(_, p) := Real c fn in arm64_type 2 p
  else if machine =? EM_ARM then
    if nz (Z.land (vaddr fn) 1) then
      let! fn := MovePtr c fn (-1) in
      let! '(_, p) := Real c fn in
      let! inst := host_word (host_mem c) p 2 in Ok (thumb_type inst)
    else Ok kSpaceTypeInvalidSpace
  else if machine =? EM_X86_64 then
    let! '(_, p) := Real c fn in
    let! inst := host_word (host_mem c) p 8 in Ok (x86_type inst)
  else if machine =? EM_386 then
    let! '(_, p) := Real c fn in
    let! inst := host_word (host_mem c) p 8 in
    let type := x86_type inst in
    if negb (type =? kSpaceTypeInvalidSpace) then Ok type
    else
      let! inst := host_word (host_mem c) (u64 (p + 6)) 8 in Ok (x86_type inst)
  else Ok kSpaceTypeInvalidSpace.

(** The function at [off] in the table of virtual functions, when it can be read. *)
Definition virtual_function (space : MemoryRef) (off : Z) : result (option MemoryRef) :=
  let! v := vword c space (sp_vtbl Space_Init) in
  let! vtbl := Prepare c (ref_at v) false in
  let! '(vtbl, ok) := IsValid c vtbl in
  if ok : bool then
    let! v := vword c vtbl off in
    let! '(fn, ok) := IsValid c (ref_from c v vtbl) in Ok (if ok : bool then Some fn else None)
  else Ok None.
(** [Space::GetType()]. *)
Definition Space_GetType (space : MemoryRef) : result Z :=
  let! fn := virtual_function space (sp_vtbl_GetType Space_Init) in
  let! type := match fn with
               | Some fn => type_of_code fn
               | None => Ok kSpaceTypeInvalidSpace
               end in
  if negb (type =? kSpaceTypeInvalidSpace) then Ok type
  else let! name := Space_GetName space in Ok (type_of_name name).

(** [GetXMallocSpaceFlag(off)]: does the function return 1? *)
Definition x86_flag (inst : Z) : bool :=
  if Z.land inst 0xFFFF =? 0xc031 then false
  else
    let inst := Z.land inst 0xFFFFFFFFFF in
    (Z.land inst 0xFF =? 0xb8) && (Z.land (Z.shiftr inst 8) 0xFF =? 1).
Definition flag_of_code (fn : MemoryRef) : result bool :=
  if machine =? EM_AARCH64 then let! '(_, p) := Real c fn in arm64_returns_one c 2 p
  else if machine =? EM_ARM then
    if nz (Z.land (vaddr fn) 1) then
      let! fn := MovePtr c fn (-1) in
      let! '(_, p) := Real c fn in
      let! inst := host_word (host_mem c) p 2 in Ok (thumb_returns_one inst)
    else Ok false
  else if machine =? EM_X86_64 then
    let! '(_, p) := Real c fn in
    let! inst := host_word (host_mem c) p 8 in
    Ok (if Z.land inst 0xFFFF =? 0x01b0 then true else x86_flag inst)
  else if machine =? EM_386 then
    let! '(_, p) := Real c fn in
    let! inst := host_word (host_mem c) p 8 in
    if x86_flag inst then Ok true
    else let! inst := host_word (host_mem c) (u64 (p + 6)) 8 in Ok (x86_flag inst)
  else Ok false.
Definition GetXMallocSpaceFlag (space : MemoryRef) (off : Z) : result bool :=
  let! fn := virtual_function space off in
  match fn with Some fn => flag_of_code fn | None => Ok false end.
Definition Space_IsRosAllocSpace (space : MemoryRef) : result bool :=
  let! flag := GetXMallocSpaceFlag space (sp_vtbl_IsRosAllocSpace Space_Init) in
  if flag : bool then Ok true
  else
    let! name := Space_GetName space in
    Ok (bool_decide (name = ROSALLOC_SPACE) || name_starts_with ROSALLOC_SPACE name).
Definition Space_IsDlMallocSpace (space : MemoryRef) : result bool :=
  let! flag := GetXMallocSpaceFlag space (sp_vtbl_IsDlMallocSpace Space_Init) in
  if flag : bool then Ok true
  else let! name := Space_GetName space in Ok (bool_decide (name = NON_MOVING_SPACE)).

(** * The virtual functions of the classes *)

Definition GetType (s : Space) : result Z :=
  match sp_class s with
  | RegionSpace => Ok kSpaceTypeRegionSpace
  | ImageSpace => Ok kSpaceTypeImageSpace
  | ZygoteSpace => Ok kSpaceTypeZygoteSpace
  | BumpPointerSpace => Ok kSpaceTypeBumpPointerSpace
  | LargeObjectSpace | FreeListSpace | LargeObjectMapSpace => Ok kSpaceTypeLargeObjectSpace
  | ContinuousSpace | MallocSpace | RosAllocSpace | DlMallocSpace | DiscontinuousSpace =>
      Space_GetType (sp_ref s)
  end.
Definition is_type (type : Z) (s : Space) : result bool :=
  let! t := GetType s in Ok (t =? type).
Definition IsRosAllocSpace (s : Space) : result bool :=
  match sp_class s with
  | RosAllocSpace => Ok true
  | RegionSpace | ImageSpace | ZygoteSpace | BumpPointerSpace | MallocSpace | DlMallocSpace =>
      Ok false
  | _ => Space_IsRosAllocSpace (sp_ref s)
  end.
Definition IsDlMallocSpace (s : Space) : result bool :=
  match sp_class s with
  | DlMallocSpace => Ok true
  | RegionSpace | ImageSpace | ZygoteSpace | BumpPointerSpace | MallocSpace | RosAllocSpace =>
      Ok false
  | _ => Space_IsDlMallocSpace (sp_ref s)
  end.
(** [IsFreeListSpace()] and [IsMemMapSpace()]. *)
Definition is_named (name : list Z) (space : MemoryRef) : result bool :=
  let! n := Space_GetName space in Ok (bool_decide (n = name)).

Definition valid_begin (a : result Z) : result bool :=
  let! b := a in
  if nz b then let! b := a in virtualValid c b else Ok false.
Definition IsVaildSpace (s : Space) : result bool :=
  match sp_class s with
  | DiscontinuousSpace | LargeObjectSpace => Ok false
  | FreeListSpace => valid_begin (vword c (sp_ref s) (los_begin_ (LargeObjectSpace_Init sdk)))
  | LargeObjectMapSpace =>
      valid_begin (let! m := GetLargeObjectsCache sdk c patch (sp_ref s) in Ok (vaddr m))
  | _ => valid_begin (Begin c (sp_ref s))
  end.

(** * The lists of spaces *)

(** A vector of a number of pointers in the range. *)
Definition good_vector (least most : Z) (v : MemoryRef) : result bool :=
  let! n := vector_size c v point_size in
  if (least <=? n) && (n <? most) then
    let! e := vword c v vector__end_ in
    let! b := vword c v vector__begin_ in Ok (u64 (e - b) mod point_size =? 0)
  else Ok false.
Definition cxx_vector_THIS : Z := 24 / cap.
(** The search for the vector behind a place where it is not. *)
Fixpoint vector_search (rounds : nat) (least most : Z) (v : MemoryRef) : result MemoryRef :=
  match rounds with
  | O => Ok v
  | S rounds =>
      let! good := good_vector least most v in
      if good : bool then Ok v
      else let! v := MovePtr c v point_size in vector_search rounds least most v
  end.
Definition spaces_cache (off least most : Z) (heap : MemoryRef) : result MemoryRef :=
  let v := ref_from c (u64 (vaddr heap + off)) heap in
  let! good := good_vector least most v in
  if good : bool then Ok v
  else
    let endloop := u64 (RoundUp 64 (vaddr v) 0x2000 - cxx_vector_THIS) in
    let loopcount := i32 (u64 (endloop - vaddr v) / point_size) in
    vector_search (Z.to_nat (Z.max 1 loopcount)) least most v.
Definition GetContinuousSpacesCache (heap : MemoryRef) : result MemoryRef :=
  spaces_cache (heap_continuous_spaces_ (Heap_table sdk)) 2 64 heap.
Definition GetDiscontinuousSpacesCache (heap : MemoryRef) : result MemoryRef :=
  spaces_cache (heap_discontinuous_spaces_ (Heap_table sdk)) 0 8 heap.

(** The class of the object made for a space of the continuous list. *)
Definition continuous_class (space : MemoryRef) : result space_class :=
  let! t := Space_GetType space in
  if t =? kSpaceTypeRegionSpace then Ok RegionSpace
  else if t =? kSpaceTypeImageSpace then Ok ImageSpace
  else if t =? kSpaceTypeZygoteSpace then Ok ZygoteSpace
  else if t =? kSpaceTypeBumpPointerSpace then Ok BumpPointerSpace
  else if t =? kSpaceTypeMallocSpace then
    let! ros := Space_IsRosAllocSpace space in
    if ros : bool then Ok RosAllocSpace
    else
      let! dl := Space_IsDlMallocSpace space in
      Ok (if dl : bool then DlMallocSpace else MallocSpace)
  else Ok ContinuousSpace.
Definition discontinuous_class (space : MemoryRef) : result space_class :=
  let! t := Space_GetType space in
  if t =? kSpaceTypeLargeObjectSpace then
    let! free := is_named FREELIST_SPACE space in
    if free : bool then Ok FreeListSpace
    else
      let! map := is_named MEMMAP_SPACE space in
      Ok (if map : bool then LargeObjectMapSpace else LargeObjectSpace)
  else Ok DiscontinuousSpace.
Definition push_space (kind : MemoryRef -> result space_class) (value : Z)
    : prog (list Space) unit :=
  let$ v := lift (vword c (ref_at value) 0) in
  let space := ref_at v in
  let$ k := lift (kind space) in
  modify (fun l => l ++ [{| sp_class := k; sp_ref := space |}]).

(** [GetContinuousSpaces()] and [GetDiscontinuousSpaces()]: an empty list is filled; an
    exception on the way leaves what has been found. *)
Definition fill_spaces (vector : MemoryRef -> result MemoryRef)
    (kind : MemoryRef -> result space_class) (fuel : nat) (heap : MemoryRef)
    : prog (list Space) (list Space) :=
  let$ l := get in
  let$ _ := (match l with
             | [] => let$ v := lift (vector heap) in
                     vector_for c fuel v point_size (push_space kind)
             | _ => pret tt
             end) in get.
Definition GetContinuousSpaces (fuel : nat) (heap : MemoryRef) : prog HeapCache (list Space) :=
  zoom hc_continuous
    (fun h l => {| hc_continuous := l; hc_discontinuous := hc_discontinuous h;
                   hc_maps := hc_maps h |})
    (fill_spaces GetContinuousSpacesCache continuous_class fuel heap).
Definition GetDiscontinuousSpaces (fuel : nat) (heap : MemoryRef) : prog HeapCache (list Space) :=
  zoom hc_discontinuous
    (fun h l => {| hc_continuous := hc_continuous h; hc_discontinuous := l;
                   hc_maps := hc_maps h |})
    (fill_spaces GetDiscontinuousSpacesCache discontinuous_class fuel heap).

Definition Limit (space : MemoryRef) : result Z := vword c space (limit_ ContinuousSpace_Init).
(** The loop of [FindContinuousSpaceFromObject(object)]. *)
Fixpoint find_space (object : Z) (l : list Space) : result (option Space) :=
  match l with
  | [] => Ok None
  | s :: l =>
      let! b := Begin c (sp_ref s) in
      let! inside := (if b <=? object then let! e := Limit (sp_ref s) in Ok (object <? e)
                      else Ok false) in
      if inside : bool then Ok (Some s) else find_space object l
  end.
Definition FindContinuousSpaceFromObject (fuel : nat) (heap object : MemoryRef)
    : prog HeapCache (option Space) :=
  let$ l := GetContinuousSpaces fuel heap in lift (find_space (vaddr object) l).

(** * The walk over all objects *)

Definition EACH_APP_OBJECTS : Z := 1.
Definition EACH_ZYGOTE_OBJECTS : Z := 2.
Definition EACH_IMAGE_OBJECTS : Z := 4.
Definition EACH_FAKE_OBJECTS : Z := 8.
Definition flagged (flag mask : Z) : bool := nz (Z.land flag mask).

Section Objects.
Context {S : Type} (visitor : MemoryRef -> prog (S * HeapCache) unit) (fuel : nat).

(** The cache of the map of large objects in the [i]-th discontinuous space. *)
Definition map_cache (i : nat) (h : HeapCache) : list MemoryRef := default [] (hc_maps h !! i).
Definition set_map_cache (i : nat) (h : HeapCache) (m : list MemoryRef) : HeapCache :=
  {| hc_continuous := hc_continuous h; hc_discontinuous := hc_discontinuous h;
     hc_maps := <[i := m]> (hc_maps h) |}.

(** [Walk(visitor, check)] of the space, the [i]-th of its list. *)
Definition Space_Walk (i : nat) (s : Space) : prog (S * HeapCache) unit :=
  match sp_class s with
  | RegionSpace => RegionSpace_Walk sdk c visitor fuel (sp_ref s)
  | ImageSpace => ImageSpace_Walk sdk c visitor fuel (sp_ref s)
  | ZygoteSpace => ZygoteSpace_Walk sdk c visitor fuel (sp_ref s)
  | BumpPointerSpace => BumpPointerSpace_Walk sdk c visitor fuel (sp_ref s)
  | FreeListSpace => FreeListSpace_Walk sdk c visitor fuel (sp_ref s)
  | LargeObjectMapSpace =>
      LargeObjectMapSpace_Walk sdk c visitor (fun st => map_cache i (snd st))
        (fun st m => (fst st, set_map_cache i (snd st) m)) patch fuel (sp_ref s)
  | _ => pret tt
  end.
(** [walkfn(space)]: an exception ends the walk of the space only. *)
Definition walkfn (i : nat) (s : Space) : prog (S * HeapCache) unit :=
  ptry (let$ ok := lift (IsVaildSpace s) in if ok : bool then Space_Walk i s else pret tt)
    (fun _ => pret tt).
(** Is a space of the continuous list walked? *)
Definition chosen (flag : Z) (s : Space) : result bool :=
  let! t := GetType s in
  if t =? kSpaceTypeImageSpace then Ok (flagged flag EACH_IMAGE_OBJECTS)
  else if t =? kSpaceTypeZygoteSpace then Ok (flagged flag EACH_ZYGOTE_OBJECTS)
  else if (t =? kSpaceTypeRegionSpace) || (t =? kSpaceTypeBumpPointerSpace)
  then Ok (flagged flag EACH_APP_OBJECTS)
  else if t =? kSpaceTypeMallocSpace then
    let! ros := IsRosAllocSpace s in
    let! malloc := (if ros : bool then Ok true else IsDlMallocSpace s) in
    Ok (malloc && flagged flag EACH_APP_OBJECTS)
  else if t =? kSpaceTypeFakeSpace then Ok (flagged flag EACH_FAKE_OBJECTS)
  else Ok (negb (t =? kSpaceTypeInvalidSpace)).
(** The loop over the spaces of a list, from number [i] on. *)
Fixpoint spaces_loop (choose : Space -> result bool) (i : nat) (l : list Space)
    : prog (S * HeapCache) unit :=
  match l with
  | [] => pret tt
  | s :: l =>
      let$ walk := lift (choose s) in
      let$ _ := (if walk : bool then walkfn i s else pret tt) in
      spaces_loop choose (Datatypes.S i) l
  end.
Definition in_heap {A} (m : prog HeapCache A) : prog (S * HeapCache) A :=
  zoom snd (fun s h => (fst s, h)) m.
(** [ForeachObjects(fn, flag, check)] on the heap. *)
Definition ForeachObjects_flag (heap : MemoryRef) (flag : Z) : prog (S * HeapCache) unit :=
  let$ l := in_heap (GetContinuousSpaces fuel heap) in
  let$ _ := spaces_loop (chosen flag) 0 l in
  let$ l := in_heap (GetDiscontinuousSpaces fuel heap) in
  spaces_loop (fun _ => Ok (flagged flag EACH_APP_OBJECTS)) 0 l.
Definition ForeachObjects (heap : MemoryRef) : prog (S * HeapCache) unit :=
  ForeachObjects_flag heap
    (Z.lor EACH_IMAGE_OBJECTS (Z.lor EACH_ZYGOTE_OBJECTS
      (Z.lor EACH_APP_OBJECTS EACH_FAKE_OBJECTS))).
End Objects.
End Spaces.
