(* ===== verification/Replay.v ===== *)
(** Running a program twice.

    A dump of the heap runs the same program twice: the first run collects, in tables that only
    grow, what the second run needs, and measures what the second run writes.  [replay] says
    that a program, started a second time with the final tables of the first run, does the same
    again, or leaves the defined behaviour.  The second half of the file shows it of the walks
    over the heap ([Heap], [Spaces]) for every visitor that is replayed. *)

From Stdlib Require Import ZArith Lia Bool.
From stdpp Require Import base list gmap numbers.
From S2P Require Import Prelude Words Host Blocks Notes CoreApi Segments AddressSpace MemRef Elf.
From S2P Require Import Mirrors Cxx Heap Dex RuntimeTables Runtimes Methods RefCache Spaces.
Open Scope Z_scope.

(** A state of the first run: [st_le] is the growth of the tables, [st_in] that they are part
    of the final ones; [st_rel] relates it to the state of the second run. *)
Class Recorded (S : Type) := {
  st_le : S -> S -> Prop;
  st_in : S -> Prop;
  st_rel : S -> S -> Prop;
  st_le_refl s : st_le s s;
  st_le_trans s1 s2 s3 : st_le s1 s2 -> st_le s2 s3 -> st_le s1 s3;
  st_in_le s s' : st_le s s' -> st_in s' -> st_in s }.

(** A state that both runs change alike. *)
Definition plain (S : Type) : Recorded S.
Proof. by refine {| st_le _ _ := True; st_in _ := True; st_rel := eq |}. Defined.
#[export] Instance recorded_prod {S T} `{Recorded S, Recorded T} : Recorded (S * T).
Proof.
  refine {| st_le x y := st_le (fst x) (fst y) /\ st_le (snd x) (snd y);
            st_in x := st_in (fst x) /\ st_in (snd x);
            st_rel x y := st_rel (fst x) (fst y) /\ st_rel (snd x) (snd y) |}.
  - intros s. split; apply st_le_refl.
  - intros s1 s2 s3 [] []. split; by eapply st_le_trans.
  - intros s s' [] []. split; by eapply st_in_le.
Defined.

(** * Replayed programs *)

(** [P] is what is known of the final tables. *)
Section Replay.
Context (P : Prop).

Definition replay_at {S} `{Recorded S} {A} (s1 s2 : S) (p1 p2 : prog S A) : Prop :=
  st_in (fst (p1 s1)) ->
  snd (p2 s2) = Fault \/
  snd (p1 s1) = snd (p2 s2) /\ st_rel (fst (p1 s1)) (fst (p2 s2)).
Definition grows {S} `{Recorded S} {A} (p : prog S A) : Prop := forall s, st_le s (fst (p s)).
Record replay {S} `{Recorded S} {A} (p : prog S A) : Prop := {
  rp_grows : grows p;
  rp_at : P -> forall s1 s2, st_rel s1 s2 -> replay_at s1 s2 p p }.

Section State.
Context {S : Type} `{Recorded S}.

Lemma replay_result {A} (m : result A) : replay (fun s : S => (s, m)).
Proof.
  split; [intros s; apply st_le_refl|]. intros _ s1 s2 Hs _. right. by split.
Qed.
Lemma replay_pret {A} (a : A) : replay (pret (S := S) a).
Proof. apply replay_result. Qed.
Lemma replay_lift {A} (m : result A) : replay (lift (S := S) m).
Proof. apply replay_result. Qed.

Lemma grows_bind {A B} (m : prog S A) (f : A -> prog S B) :
  grows m -> (forall a, grows (f a)) -> grows (pbind m f).
Proof.
  intros Hm Hf s. specialize (Hm s). unfold pbind. destruct (m s) as [s' [a| | |]]; cbn in *;
    [|done..]. by eapply st_le_trans; [|apply Hf].
Qed.
Lemma replay_at_bind {A B} s1 s2 (m1 m2 : prog S A) (f1 f2 : A -> prog S B) :
  replay_at s1 s2 m1 m2 -> (forall a, grows (f1 a)) ->
  (forall a s1' s2', m1 s1 = (s1', Ok a) -> m2 s2 = (s2', Ok a) -> st_rel s1' s2' ->
     replay_at s1' s2' (f1 a) (f2 a)) ->
  replay_at s1 s2 (pbind m1 f1) (pbind m2 f2).
Proof.
  intros Hm Hg Hf. unfold replay_at, pbind in *.
  destruct (m1 s1) as [s1' r1] eqn:E1, (m2 s2) as [s2' r2] eqn:E2. cbn in Hm.
  destruct r1 as [a| | |]; cbn; intros Hin.
  - destruct Hm as [->|[<- Hs]]; [by eapply st_in_le; [apply Hg|]|by left|].
    by eapply Hf.
  - destruct Hm as [->|[<- Hs]]; [done|by left|]. by right.
  - destruct Hm as [->|[<- Hs]]; [done|by left|]. by left.
  - destruct Hm as [->|[<- Hs]]; [done|by left|]. by right.
Qed.
Lemma replay_bind {A B} (m : prog S A) (f : A -> prog S B) :
  replay m -> (forall a, replay (f a)) -> replay (pbind m f).
Proof.
  intros Hm Hf. split.
  - apply grows_bind; [apply Hm|]. intros a. apply Hf.
  - intros p s1 s2 Hs. apply replay_at_bind; [by apply Hm|intros a; apply Hf|].
    intros a s1' s2' _ _ Hs'. by apply Hf.
Qed.
(** What follows may use what the second run knows of the result. *)
Lemma replay_bind_known {A B} (K : A -> Prop) (m : prog S A) (f : A -> prog S B) :
  replay m -> (P -> forall s1 s2 s2' a, st_rel s1 s2 -> m s2 = (s2', Ok a) -> K a) ->
  (forall a, grows (f a)) -> (forall a, K a -> replay (f a)) -> replay (pbind m f).
Proof.
  intros Hm HK Hg Hf. split; [by apply grows_bind; [apply Hm|]|].
  intros p s1 s2 Hs. apply replay_at_bind; [by apply Hm|done|].
  intros a s1' s2' _ E2 Hs'. by apply (Hf a (HK p s1 s2 s2' a Hs E2)).
Qed.
(** What is read does not change the state. *)
Lemma replay_read {A B} (m : result A) (f : A -> prog S B) :
  (forall a, m = Ok a -> replay (f a)) -> replay (pbind (lift m) f).
Proof.
  intros Hf. destruct m as [a| | |]; cbn; [by apply (Hf a)|apply replay_result..].
Qed.
Lemma replay_ptry {A} (m : prog S A) h :
  replay m -> (forall p, replay (h p)) -> replay (ptry m h).
Proof.
  intros Hm Hh. split.
  - intros s. pose proof (rp_grows _ Hm s) as Hg. unfold ptry.
    destruct (m s) as [s' [a|p| |]]; cbn in *; try done.
    by eapply st_le_trans; [|apply Hh].
  - intros p s1 s2 Hs. pose proof (rp_at _ Hm p _ _ Hs) as Ha. unfold replay_at, ptry in *.
    destruct (m s1) as [s1' r1], (m s2) as [s2' r2]. cbn in Ha.
    destruct r1 as [a|e| |]; cbn; intros Hin.
    + destruct Ha as [->|[<- Hs']]; [done|by left|by right].
    + destruct Ha as [->|[<- Hs']]; [by eapply st_in_le; [apply Hh|]|by left|].
      by apply Hh.
    + destruct Ha as [->|[<- Hs']]; [done|by left|by left].
    + destruct Ha as [->|[<- Hs']]; [done|by left|by right].
Qed.
(** A program that looks at a part of the state on which both runs agree. *)
Lemma replay_view {A B} (g : S -> B) (f : B -> prog S A) :
  (forall s1 s2, st_rel s1 s2 -> g s1 = g s2) -> (forall b, replay (f b)) ->
  replay (let$ s := get in f (g s)).
Proof.
  intros Hg Hf. split.
  - intros s. apply Hf.
  - intros p s1 s2 Hs. unfold replay_at. cbn. rewrite <- (Hg s1 s2 Hs). by apply Hf.
Qed.
Lemma replay_modify (g : S -> S) :
  (forall s, st_le s (g s)) -> (forall s1 s2, st_rel s1 s2 -> st_rel (g s1) (g s2)) ->
  replay (modify g).
Proof. intros Hle Hr. split; [done|]. intros p s1 s2 Hs _. right. split; [done|by apply Hr]. Qed.
Lemma replay_ext {A} (p q : prog S A) : (forall s, p s = q s) -> replay p -> replay q.
Proof.
  intros E [Hg Ha]. split; [intros s; rewrite <- E; apply Hg|].
  intros HP s1 s2 Hs. unfold replay_at. rewrite <- !E. by apply Ha.
Qed.

(** A program on a part of the state. *)
Lemma replay_zoom {T A} `{Recorded T} (view : S -> T) (update : S -> T -> S) (m : prog T A) :
  replay m ->
  (forall s t, st_le (view s) t -> st_le s (update s t)) ->
  (forall s t, st_in (update s t) -> st_in t) ->
  (forall s1 s2, st_rel s1 s2 -> st_rel (view s1) (view s2)) ->
  (forall s1 s2 t1 t2, st_rel s1 s2 -> st_rel t1 t2 -> st_rel (update s1 t1) (update s2 t2)) ->
  replay (zoom view update m).
Proof.
  intros [Hg Ha] Hle Hin Hv Hu. split.
  - intros s. specialize (Hg (view s)). unfold zoom. destruct (m (view s)). by apply Hle.
  - intros p s1 s2 Hs. specialize (Ha p _ _ (Hv _ _ Hs)). unfold replay_at, zoom in *.
    destruct (m (view s1)) as [t1 r1], (m (view s2)) as [t2 r2]. cbn in *.
    intros Hi. destruct (Ha (Hin _ _ Hi)) as [->|[-> Ht]]; [by left|].
    right. split; [done|by apply Hu].
Qed.
End State.

Section Parts.
Context {S T : Type} `{Recorded S, Recorded T}.

Lemma replay_zoom_fst {A} (m : prog S A) :
  replay m -> replay (zoom fst (fun (s : S * T) x => (x, snd s)) m).
Proof.
  intros Hm. apply replay_zoom; [done|..].
  - intros s t Ht. split; [done|apply st_le_refl].
  - by intros s t [].
  - by intros s1 s2 [].
  - by intros s1 s2 t1 t2 [].
Qed.
Lemma replay_zoom_snd {A} (m : prog T A) :
  replay m -> replay (zoom snd (fun (s : S * T) x => (fst s, x)) m).
Proof.
  intros Hm. apply replay_zoom; [done|..].
  - intros s t Ht. split; [apply st_le_refl|done].
  - by intros s t [].
  - by intros s1 s2 [].
  - by intros s1 s2 t1 t2 [].
Qed.
End Parts.
End Replay.

Create HintDb replay_db.
#[export] Hint Resolve replay_pret replay_lift replay_zoom_fst replay_zoom_snd : replay_db.

(** Follows a program. *)
Ltac replay_step :=
  match goal with
  | |- replay _ (pbind (lift _) _) => apply replay_read; intros ? ?
  | |- replay _ (pbind _ _) => apply replay_bind; [|intros ?]
  | |- replay _ (ptry _ _) => apply replay_ptry; [|intros ?]
  | |- replay _ (if ?b then _ else _) => destruct b eqn:?
  | |- replay _ (let '_ := ?x in _) => destruct x
  | |- replay _ (match ?x with _ => _ end) => destruct x
  | |- replay _ (let _ := _ in _) => cbv zeta
  end.
Ltac replay_tac := repeat (cbv zeta; first [solve [eauto with replay_db] | replay_step]).

(** * Walks *)

Section Walks.
Context (P : Prop) {M : Machine} (sdk : Z) (c : CoreApi) (Hc : space_ok c).
Local Notation settled := (settled c).

Lemma settled_Object v r : settled r -> settled (Object_from c v r).
Proof. intros Hr. by apply settled_from. Qed.
Lemma settled_cache pos r : cache_at c pos = Ok r -> settled r.
Proof. intros Hr. by eapply settled_Prepare; [| |exact Hr]. Qed.
Lemma settled_prepared v b r : Prepare c (ref_at v) b = Ok r -> settled r.
Proof. intros Hr. by eapply settled_Prepare; [| |exact Hr]. Qed.
Lemma settled_valid r r' b : settled r -> IsValid c r = Ok (r', b) -> settled r'.
Proof.
  intros Hr H. apply (settled_op c Hc OpIsValid r r' Hr). cbn. by rewrite H.
Qed.
#[local] Hint Resolve settled_Object settled_cache settled_prepared settled_at : replay_db.

Section Visitor.
Context {S : Type} `{Recorded S} (visitor : MemoryRef -> prog S unit)
  (Hv : forall obj, settled obj -> replay P (visitor obj)).
#[local] Hint Resolve Hv : replay_db.

Lemma replay_visit_valid obj : settled obj -> replay P (visit_valid sdk c visitor obj).
Proof. intros Ho. unfold visit_valid. replay_tac. Qed.
#[local] Hint Resolve replay_visit_valid : replay_db.
Lemma replay_bits_loop n w base heap :
  settled heap -> replay P (bits_loop sdk c visitor n w base heap).
Proof.
  intros Hh. revert w. induction n as [|n IH]; intros w; cbn [bits_loop]; replay_tac.
Qed.
#[local] Hint Resolve replay_bits_loop : replay_db.
Lemma replay_visit_word w index heap :
  settled heap -> replay P (visit_word sdk c visitor w index heap).
Proof. intros Hh. unfold visit_word. replay_tac. Qed.
#[local] Hint Resolve replay_visit_word : replay_db.
Lemma replay_middle_loop n i words heap :
  settled heap -> replay P (middle_loop sdk c visitor n i words heap).
Proof. intros Hh. revert i. induction n as [|n IH]; intros i; cbn [middle_loop]; replay_tac. Qed.
#[local] Hint Resolve replay_middle_loop : replay_db.
Lemma replay_VisitMarkedRange bitmap b e :
  replay P (VisitMarkedRange sdk c visitor bitmap b e).
Proof. unfold VisitMarkedRange. replay_tac. Qed.
#[local] Hint Resolve replay_VisitMarkedRange : replay_db.

Lemma replay_walk_loop fuel valid cache pos top :
  settled cache -> replay P (walk_loop sdk c visitor fuel valid cache pos top).
Proof.
  intros Hs. revert pos. induction fuel as [|n IH]; intros pos; cbn [walk_loop]; replay_tac.
Qed.
#[local] Hint Resolve replay_walk_loop : replay_db.
Lemma replay_ZygoteSpace fuel space : replay P (ZygoteSpace_Walk sdk c visitor fuel space).
Proof. unfold ZygoteSpace_Walk. replay_tac. Qed.
Lemma replay_ImageSpace fuel space : replay P (ImageSpace_Walk sdk c visitor fuel space).
Proof. unfold ImageSpace_Walk. replay_tac. Qed.
Lemma replay_WalkNonLarge fuel space r :
  replay P (WalkNonLargeRegion sdk c visitor fuel space r).
Proof. unfold WalkNonLargeRegion. replay_tac. Qed.
#[local] Hint Resolve replay_WalkNonLarge : replay_db.
Lemma replay_walk_region fuel space r only :
  replay P (walk_region sdk c visitor fuel space r only).
Proof. unfold walk_region. replay_tac. all: by apply Hv. Qed.
#[local] Hint Resolve replay_walk_region : replay_db.
Lemma replay_regions_loop n i fuel space regions only :
  replay P (regions_loop sdk c visitor n i fuel space regions only).
Proof. revert i. induction n as [|n IH]; intros i; cbn [regions_loop]; replay_tac. Qed.
#[local] Hint Resolve replay_regions_loop : replay_db.
Lemma replay_RegionSpace fuel space : replay P (RegionSpace_Walk sdk c visitor fuel space).
Proof. unfold RegionSpace_Walk, RegionSpace_WalkInternal. replay_tac. Qed.
Lemma replay_blocks_loop sizes fuel cache pos :
  settled cache -> replay P (blocks_loop sdk c visitor sizes fuel cache pos).
Proof.
  intros Hs. revert pos. induction sizes as [|n l IH]; intros pos; cbn [blocks_loop]; replay_tac.
Qed.
#[local] Hint Resolve replay_blocks_loop : replay_db.
Lemma replay_visit_any obj : settled obj -> replay P (visit_any sdk c visitor obj).
Proof. intros Ho. unfold visit_any. replay_tac. Qed.
#[local] Hint Resolve replay_visit_any : replay_db.
Lemma replay_free_list_loop fuel info last infos space cache :
  settled cache -> replay P (free_list_loop sdk c visitor fuel info last infos space cache).
Proof.
  intros Hs. revert info. induction fuel as [|n IH]; intros info; cbn [free_list_loop];
    replay_tac.
Qed.
#[local] Hint Resolve replay_free_list_loop : replay_db.
Lemma replay_FreeListSpace fuel space : replay P (FreeListSpace_Walk sdk c visitor fuel space).
Proof. unfold FreeListSpace_Walk. replay_tac. Qed.
(** The rounds of the loop over a map that has its nodes. *)
Lemma replay_map_loop n cache i (body : Z -> prog S unit) :
  (forall v, replay P (body v)) -> replay P (map_loop n cache i body).
Proof. intros Hb. revert i. induction n as [|n IH]; intros i; cbn [map_loop]; replay_tac. Qed.
End Visitor.

#[local] Instance plain_ref : Recorded MemoryRef := plain MemoryRef.
Section BumpSpaces.
Context {S : Type} `{Recorded S} (visitor : MemoryRef -> prog S unit)
  (Hv : forall obj, settled obj -> replay P (visitor obj)).

(** The walk that remembers the last object: the state is that of the visitor and the object. *)
Definition remembering (obj : MemoryRef) : prog (S * MemoryRef) unit := fun st =>
  match visitor obj (fst st) with
  | (s', Ok _) => ((s', obj), Ok tt)
  | (s', r) => ((s', snd st), r)
  end.
Lemma replay_remembering obj : settled obj -> replay P (remembering obj).
Proof.
  intros Ho. apply replay_ext with
    (let$ _ := zoom fst (fun (s : S * MemoryRef) x => (x, snd s)) (visitor obj) in
     modify (fun s => (fst s, obj))).
  { intros [s x]. unfold remembering, zoom, pbind. cbn. destruct (visitor obj s) as [s' [[]| | |]];
      done. }
  replay_tac. apply replay_modify.
  - intros [s x]. split; [apply st_le_refl|done].
  - intros [s x] [s' x'] [? _]. by split.
Qed.
Lemma replay_visit_last bitmap b e : replay P (visit_last sdk c visitor bitmap b e).
Proof.
  pose proof (replay_VisitMarkedRange remembering replay_remembering bitmap b e) as [Hg Ha].
  split.
  - intros s. specialize (Hg (s, Object 0)). unfold visit_last.
    change (VisitMarkedRange _ _ _ _ _ _) with
      (VisitMarkedRange sdk c remembering bitmap b e) in *.
    destruct (VisitMarkedRange sdk c remembering bitmap b e _) as [[s' x] [[]| | |]];
      apply Hg.
  - intros p s1 s2 Hs. specialize (Ha p (s1, Object 0) (s2, Object 0) (conj Hs eq_refl)).
    unfold replay_at, visit_last in *.
    change (VisitMarkedRange _ _ (fun _ _ => _) _ _ _) with
      (VisitMarkedRange sdk c remembering bitmap b e) in *.
    destruct (VisitMarkedRange sdk c remembering bitmap b e (s1, _)) as [[s1' x1] r1],
      (VisitMarkedRange sdk c remembering bitmap b e (s2, _)) as [[s2' x2] r2]. cbn in *.
    destruct r1 as [[]| | |]; cbn; intros Hi.
    all: destruct (Ha (conj Hi I)) as [->|[<- [Hs' E]]]; [by left|right].
    all: cbn in *; by subst.
Qed.
#[local] Hint Resolve replay_visit_last replay_walk_loop replay_blocks_loop
  settled_Object settled_cache : replay_db.
Lemma replay_BumpPointerSpace fuel space :
  replay P (BumpPointerSpace_Walk sdk c visitor fuel space).
Proof. unfold BumpPointerSpace_Walk, SlowWalk. replay_tac. Qed.
End BumpSpaces.
End Walks.
