(* ===== verification/SpacesProofs.v ===== *)
(** Theorems about [Spaces]: the type that is decoded from the function of a space is the one
    the function returns, and a walk over all objects of the heap can be replayed ([Replay]):
    the second walk finds the lists and the caches that the first one has filled. *)

From Stdlib Require Import ZArith Lia Bool String.
From stdpp Require Import base list gmap numbers.
From S2P Require Import Prelude Words Host Blocks Notes CoreApi Segments AddressSpace MemRef Elf.
From S2P Require Import Mirrors Cxx Heap RuntimeTables Runtimes JavaThreads RefCache Spaces Replay.
Open Scope Z_scope.

Section Lists.
Context {M : Machine} (sdk patch : Z) (c : CoreApi) (Hc : space_ok c) (fuel : nat)
  (heap : MemoryRef) (final : HeapCache).

(** * The lists of spaces in two runs *)

Definition heap_le (h h' : HeapCache) : Prop :=
  (hc_continuous h = [] \/ hc_continuous h' = hc_continuous h) /\
  (hc_discontinuous h = [] \/ hc_discontinuous h' = hc_discontinuous h) /\
  forall i, map_cache i h = [] \/ map_cache i h' = map_cache i h.
Definition heap_eq (h : HeapCache) : Prop :=
  hc_continuous h = hc_continuous final /\ hc_discontinuous h = hc_discontinuous final /\
  forall i, map_cache i h = map_cache i final.

Lemma grown {A} (x y z : list A) : (x = [] \/ y = x) -> (y = [] \/ z = y) -> x = [] \/ z = x.
Proof. intuition congruence. Qed.
#[export] Instance recorded_heap : Recorded HeapCache.
Proof.
  refine {| st_le := heap_le; st_in h := heap_le h final; st_rel _ h2 := heap_eq h2 |}.
  - intros h. split_and!; auto.
  - intros h1 h2 h3 (A1 & B1 & C1) (A2 & B2 & C2).
    split_and!; [by eapply grown|by eapply grown|]. intros i. by eapply grown.
  - intros h1 h2 (A1 & B1 & C1) (A2 & B2 & C2).
    split_and!; [by eapply grown|by eapply grown|]. intros i. by eapply grown.
Defined.

Definition fill_continuous : prog (list Space) (list Space) :=
  fill_spaces c (GetContinuousSpacesCache sdk c) (continuous_class c) fuel heap.
Definition fill_discontinuous : prog (list Space) (list Space) :=
  fill_spaces c (GetDiscontinuousSpacesCache sdk c) (discontinuous_class c) fuel heap.

(** No exception interrupted the filling of the lists and of the caches. *)
Record complete : Prop := {
  cm_continuous : fill_continuous [] = (hc_continuous final, Ok (hc_continuous final));
  cm_discontinuous :
    fill_discontinuous [] = (hc_discontinuous final, Ok (hc_discontinuous final));
  cm_maps i s m :
    hc_discontinuous final !! i = Some s -> sp_class s = LargeObjectMapSpace ->
    GetLargeObjectsCache sdk c patch (sp_ref s) = Ok m -> map_cache i final <> [] ->
    map_begin c fuel m [] = (map_cache i final, Ok tt) }.

Lemma fill_nonempty vector kind l :
  l <> [] -> fill_spaces c vector kind fuel heap l = (l, Ok l).
Proof. by destruct l. Qed.

(** The list of continuous spaces holds no map of large objects. *)
Lemma continuous_class_not_map space k :
  continuous_class c space = Ok k -> k <> LargeObjectMapSpace.
Proof.
  unfold continuous_class. intros H. res_inv.
  repeat match goal with
         | H : context [if ?b then _ else _] |- _ => destruct b; res_inv
         end; by subst.
Qed.
Lemma pushed_classes fuel' current last (l l' : list Space) r :
  Forall (fun s => sp_class s <> LargeObjectMapSpace) l ->
  vector_loop fuel' current last point_size (push_space c (continuous_class c)) l = (l', r) ->
  Forall (fun s => sp_class s <> LargeObjectMapSpace) l'.
Proof.
  revert current l. induction fuel' as [|n IH]; intros current l Hl H; cbn [vector_loop] in H.
  { by unfold lift in H; simplify_eq. }
  destruct (current =? last); [by unfold pret in H; simplify_eq|].
  unfold push_space, pbind, lift, modify in H.
  destruct (vword c (ref_at current) 0) as [v| | |]; [|by simplify_eq..].
  destruct (continuous_class c (ref_at v)) as [k| | |] eqn:Ek; [|by simplify_eq..].
  apply IH in H; [done|]. apply Forall_app. split; [done|]. apply Forall_singleton. cbn.
  by eapply continuous_class_not_map.
Qed.
Lemma filled_classes l r :
  fill_continuous [] = (l, r) -> Forall (fun s => sp_class s <> LargeObjectMapSpace) l.
Proof.
  unfold fill_continuous, fill_spaces, pbind, get, lift, vector_for. intros H.
  destruct (GetContinuousSpacesCache sdk c heap) as [v| | |]; [|by simplify_eq..].
  unfold pbind, lift in H. destruct (vword c v vector__begin_) as [b| | |]; [|by simplify_eq..].
  destruct (vword c v vector__end_) as [e| | |]; [|by simplify_eq..].
  destruct (vector_loop _ _ _ _ _ _) as [l' r'] eqn:E.
  apply pushed_classes in E; [|done]. destruct r'; by simplify_eq.
Qed.
Lemma fill_again (fill : prog (list Space) (list Space)) l :
  fill [] = (l, Ok l) -> (forall l, l <> [] -> fill l = (l, Ok l)) -> fill l = (l, Ok l).
Proof. intros H0 Hne. destruct (decide (l = [])) as [->|]; [done|by apply Hne]. Qed.

Context (P : Prop) (HP : P -> complete).

(** A list that is filled at its first use. *)
Lemma replay_list (view : HeapCache -> list Space) (update : HeapCache -> list Space -> HeapCache)
    (fill : prog (list Space) (list Space)) :
  (P -> fill [] = (view final, Ok (view final))) ->
  (forall l, l <> [] -> fill l = (l, Ok l)) ->
  (forall h h', heap_le h h' -> view h = [] \/ view h' = view h) ->
  (forall h l, view h = [] \/ l = view h -> heap_le h (update h l)) ->
  (forall h l, view (update h l) = l) ->
  (forall h, heap_eq h -> view h = view final) ->
  (forall h, heap_eq h -> heap_eq (update h (view final))) ->
  replay P (zoom view update fill).
Proof.
  intros Hfill Hne Hview Hup Hget Heq Hset. split.
  - intros h. unfold zoom. destruct (fill (view h)) as [l r] eqn:E. apply Hup.
    destruct (decide (view h = [])) as [|Hn]; [by left|]. rewrite Hne in E by done.
    right. by simplify_eq.
  - intros HPP h1 h2 H2. unfold replay_at, zoom. cbn. cbn in H2.
    rewrite (Heq h2 H2). specialize (Hfill HPP).
    rewrite (fill_again fill _ Hfill Hne). cbn. intros Hin. right.
    destruct (decide (view h1 = [])) as [E|E].
    + rewrite E, Hfill. split; [done|]. cbn. by apply Hset.
    + rewrite (Hne _ E) in *. cbn in *. destruct (Hview _ _ Hin) as [E'|E'].
      * by rewrite Hget in E'.
      * rewrite Hget in E'. rewrite <- E'. split; [done|by apply Hset].
Qed.
Lemma replay_GetContinuousSpaces : replay P (GetContinuousSpaces sdk c fuel heap).
Proof.
  apply replay_list.
  - intros H. apply HP, H.
  - apply fill_nonempty.
  - by intros h h' (? & _).
  - intros h l Hl. split_and!; [done|by right|]. by right.
  - done.
  - by intros h (? & _).
  - intros h (H1 & H2 & H3). by split_and!.
Qed.
Lemma replay_GetDiscontinuousSpaces : replay P (GetDiscontinuousSpaces sdk c fuel heap).
Proof.
  apply replay_list.
  - intros H. apply HP, H.
  - apply fill_nonempty.
  - by intros h h' (_ & ? & _).
  - intros h l Hl. split_and!; [by right|done|]. by right.
  - done.
  - by intros h (_ & ? & _).
  - intros h (H1 & H2 & H3). by split_and!.
Qed.
Lemma replay_FindContinuousSpace object :
  replay P (FindContinuousSpaceFromObject sdk c fuel heap object).
Proof. pose proof replay_GetContinuousSpaces. unfold FindContinuousSpaceFromObject. replay_tac. Qed.

(** * The walk over all objects, in two runs *)

Section Objects.
Context {S : Type} `{Recorded S} (visitor : MemoryRef -> prog (S * HeapCache) unit)
  (Hv : forall obj, settled c obj -> replay P (visitor obj)).

#[local] Arguments map_begin : simpl never.
#[local] Arguments map_cache : simpl never.
#[local] Arguments set_map_cache : simpl never.
Notation map_view i := (fun st : S * HeapCache => map_cache i (snd st)).
Notation map_update i := (fun (st : S * HeapCache) m => (fst st, set_map_cache i (snd st) m)).

Lemma map_cache_set i j h m : map_cache j (set_map_cache i h m) = if decide (i = j) then m
                                                                  else map_cache j h.
Proof.
  unfold map_cache, set_map_cache. cbn. destruct (decide (i = j)) as [<-|Hn].
  - by rewrite lookup_insert_eq.
  - by rewrite lookup_insert_ne.
Qed.
Lemma map_begin_nonempty m cache : cache <> [] -> map_begin c fuel m cache = (cache, Ok tt).
Proof. by destruct cache. Qed.

Lemma grows_map_nodes i m : grows (map_nodes c (map_view i) (map_update i) fuel m).
Proof.
  assert (Hz : grows (zoom (map_view i) (map_update i) (map_begin c fuel m))).
  { intros [s h]. unfold zoom. cbn.
    destruct (map_begin c fuel m (map_cache i h)) as [cache r] eqn:E. cbn.
    split; [apply st_le_refl|]. cbn. split_and!; [by right..|]. intros j.
    rewrite map_cache_set. destruct (decide (i = j)) as [->|]; [|by right].
    destruct (decide (map_cache j h = [])) as [|Hn]; [by left|right].
    rewrite map_begin_nonempty in E by done. by simplify_eq. }
  apply grows_bind; [done|]. intros _ s. cbn. unfold pbind.
  destruct (lift (map_size c m) s) as [s' r] eqn:E. unfold lift in E. simplify_eq.
  destruct (map_size c m); exact (st_le_refl s').
Qed.
Lemma replay_map_nodes i s m :
  hc_discontinuous final !! i = Some s -> sp_class s = LargeObjectMapSpace ->
  GetLargeObjectsCache sdk c patch (sp_ref s) = Ok m ->
  replay P (map_nodes c (map_view i) (map_update i) fuel m).
Proof.
  intros Hs Hk Hm. split; [apply grows_map_nodes|].
  intros HPP [s1 h1] [s2 h2] [Hs12 H2]. cbn in Hs12, H2.
  pose proof (cm_maps (HP HPP) i s m Hs Hk Hm) as Hfill.
  unfold replay_at, map_nodes, zoom, pbind, lift. cbn.
  destruct H2 as (H2c & H2d & H2m). rewrite (H2m i).
  (* the second run finds what the first one has left *)
  destruct (map_begin c fuel m (map_cache i h1)) as [cache1 r1] eqn:E1.
  destruct (map_begin c fuel m (map_cache i final)) as [cache2 r2] eqn:E2.
  assert (Hagree : cache1 = [] \/ map_cache i final = cache1 ->
                   (map_cache i h1 = [] \/ map_cache i final = map_cache i h1) ->
                   cache2 = cache1 /\ r2 = r1 /\ cache1 = map_cache i final).
  { intros Hin Hin1. destruct (decide (map_cache i final = [])) as [Ef|Ef].
    - destruct Hin1 as [E|E]; rewrite Ef in *; [rewrite E in E1|rewrite <- E in E1];
        rewrite E1 in E2; simplify_eq; destruct Hin as [->| <-]; done.
    - rewrite (map_begin_nonempty _ _ Ef) in E2. simplify_eq.
      destruct Hin1 as [E|E].
      + rewrite E, Hfill in E1 by done. by simplify_eq.
      + rewrite <- E, map_begin_nonempty in E1 by done. by simplify_eq. }
  assert (Hh : forall cache, heap_le (set_map_cache i h1 cache) final ->
               (cache1 = cache) ->
               cache1 = [] \/ map_cache i final = cache1).
  { intros cache (_ & _ & Hi) <-. specialize (Hi i). rewrite map_cache_set in Hi.
    by rewrite decide_True in Hi. }
  assert (Hh1 : forall cache, heap_le (set_map_cache i h1 cache) final -> cache1 = cache ->
                map_cache i h1 = [] \/ map_cache i final = map_cache i h1).
  { intros cache Hle <-. destruct (decide (map_cache i h1 = [])) as [|Hn]; [by left|right].
    rewrite map_begin_nonempty in E1 by done. simplify_eq.
    destruct (Hh _ Hle eq_refl); [done|congruence]. }
  assert (Hfin : cache1 = map_cache i final -> heap_eq (set_map_cache i h2 cache1)).
  { intros ->. split_and!; [done..|]. intros j. rewrite map_cache_set.
    destruct (decide (i = j)) as [<-|]; [done|apply H2m]. }
  destruct r1 as [[]| | |]; [destruct (map_size c m) as [n| | |]|..]; cbn; intros [_ Hin];
    destruct (Hagree (Hh _ Hin eq_refl) (Hh1 _ Hin eq_refl)) as (-> & -> & Hc1);
    cbn; right; split; try done; try (split; [done|by apply Hfin]).
  rewrite !map_cache_set. by destruct (decide (i = i)).
Qed.

(** A space of the list of discontinuous spaces, or no map of large objects. *)
Definition listed (i : nat) (s : Space) : Prop :=
  sp_class s = LargeObjectMapSpace -> hc_discontinuous final !! i = Some s.
Lemma grows_map_loop n cache i (body : Z -> prog (S * HeapCache) unit) :
  (forall v, grows (body v)) -> grows (map_loop n cache i body).
Proof.
  intros Hb. revert i. induction n as [|n IH]; intros i s; cbn [map_loop].
  - exact (st_le_refl s).
  - destruct (cache !! i); [|exact (st_le_refl s)]. apply grows_bind; [apply Hb|]. intros _. apply IH.
Qed.
Lemma replay_large_object pair :
  replay P (let$ first := lift (vword c (ref_at pair) 0) in
            let$ v := lift (IsValid c (ref_at first)) in
            if snd v then visit_any sdk c visitor (fst v) else pret tt).
Proof.
  replay_tac. apply replay_visit_any; [done|].
  destruct a0 as [r b]. by eapply settled_valid; [..|eassumption].
Qed.
Lemma Space_Walk_grows i s : grows (Space_Walk sdk patch c visitor fuel i s).
Proof.
  unfold Space_Walk. destruct (sp_class s);
    try exact (rp_grows _ _ (replay_pret P tt));
    try (eapply rp_grows; first [by apply replay_RegionSpace|by apply replay_ImageSpace
      |by apply replay_ZygoteSpace|by apply replay_BumpPointerSpace|by apply replay_FreeListSpace]).
  unfold LargeObjectMapSpace_Walk. apply grows_bind; [exact (rp_grows _ _ (replay_lift P _))|].
  intros m. unfold map_for. apply grows_bind; [apply grows_map_nodes|]. intros nodes.
  apply grows_map_loop. intros v. apply (rp_grows _ _ (replay_large_object v)).
Qed.
Lemma replay_Space_Walk i s : listed i s -> replay P (Space_Walk sdk patch c visitor fuel i s).
Proof.
  intros Hl. unfold Space_Walk. destruct (sp_class s) eqn:Hk;
    try apply replay_pret;
    try first [by apply replay_RegionSpace|by apply replay_ImageSpace
      |by apply replay_ZygoteSpace|by apply replay_BumpPointerSpace|by apply replay_FreeListSpace].
  unfold LargeObjectMapSpace_Walk. apply replay_read. intros m Hm. unfold map_for.
  apply replay_bind; [by eapply replay_map_nodes; [apply Hl| |exact Hm]|]. intros nodes.
  apply replay_map_loop. intros v. apply replay_large_object.
Qed.
Lemma walkfn_grows i s : grows (walkfn sdk patch c visitor fuel i s).
Proof.
  unfold walkfn, ptry. intros st.
  assert (Hg : grows (let$ ok := lift (IsVaildSpace sdk patch c s) in
                      if ok : bool then Space_Walk sdk patch c visitor fuel i s else pret tt)).
  { apply grows_bind; [exact (rp_grows _ _ (replay_lift P _))|]. intros [|];
      [apply Space_Walk_grows|exact (rp_grows _ _ (replay_pret P tt))]. }
  specialize (Hg st). by destruct (pbind _ _ st) as [st' [[]| | |]].
Qed.
Lemma replay_walkfn i s : listed i s -> replay P (walkfn sdk patch c visitor fuel i s).
Proof.
  intros Hl. pose proof (replay_Space_Walk i s Hl). unfold walkfn. replay_tac.
Qed.
Lemma spaces_loop_grows choose i l : grows (spaces_loop sdk patch c visitor fuel choose i l).
Proof.
  revert i. induction l as [|s l IH]; intros i; cbn [spaces_loop].
  - exact (rp_grows _ _ (replay_pret P tt)).
  - apply grows_bind; [exact (rp_grows _ _ (replay_lift P _))|]. intros walk.
    apply grows_bind; [|intros _; apply IH].
    destruct walk; [apply walkfn_grows|exact (rp_grows _ _ (replay_pret P tt))].
Qed.
Lemma replay_spaces_loop choose i l :
  (forall k s, l !! k = Some s -> listed (i + k) s) ->
  replay P (spaces_loop sdk patch c visitor fuel choose i l).
Proof.
  revert i. induction l as [|s l IH]; intros i Hl; cbn [spaces_loop]; [apply replay_pret|].
  apply replay_read. intros walk _. apply replay_bind.
  - destruct walk; [|apply replay_pret]. apply replay_walkfn.
    specialize (Hl 0%nat s eq_refl). by rewrite Nat.add_0_r in Hl.
  - intros _. apply IH. intros k x Hk. specialize (Hl (Datatypes.S k) x Hk).
    by rewrite Nat.add_succ_r in Hl.
Qed.
Lemma replay_in_heap {A} (m : prog HeapCache A) : replay P m -> replay P (in_heap (S := S) m).
Proof. apply replay_zoom_snd. Qed.
Lemma replay_ForeachObjects : replay P (ForeachObjects sdk patch c visitor fuel heap).
Proof.
  unfold ForeachObjects, ForeachObjects_flag.
  apply (replay_bind_known P (fun l => forall i s, l !! i = Some s -> listed i s)).
  - apply replay_in_heap, replay_GetContinuousSpaces.
  - intros HPP s1 [s2 h2] s2' l [_ (H2 & _)] E i s Hi Hk. exfalso.
    cbn in H2. unfold in_heap, zoom, GetContinuousSpaces, zoom in E. cbn -[fill_spaces] in E.
    fold fill_continuous in E.
    rewrite H2, (fill_again fill_continuous) in E by
      first [apply HP, HPP|apply fill_nonempty]. simplify_eq.
    pose proof (filled_classes _ _ (cm_continuous (HP HPP))) as Hall.
    rewrite Forall_lookup in Hall. by apply (Hall i s).
  - intros l. apply grows_bind; [apply spaces_loop_grows|]. intros _.
    apply grows_bind; [apply (replay_in_heap _ replay_GetDiscontinuousSpaces)|]. intros l'.
    apply spaces_loop_grows.
  - intros l Hl. apply replay_bind; [by apply replay_spaces_loop|]. intros _.
    apply (replay_bind_known P (fun l => l = hc_discontinuous final)).
    + apply replay_in_heap, replay_GetDiscontinuousSpaces.
    + intros HPP s1 [s2 h2] s2' l' [_ (_ & H2 & _)] E.
      cbn in H2. unfold in_heap, zoom, GetDiscontinuousSpaces, zoom in E.
      cbn -[fill_spaces] in E. fold fill_discontinuous in E.
      rewrite H2, (fill_again fill_discontinuous) in E by
        first [apply HP, HPP|apply fill_nonempty]. by simplify_eq.
    + intros l'. apply spaces_loop_grows.
    + intros l' ->. apply replay_spaces_loop. by intros k s Hk _.
Qed.
End Objects.
End Lists.
