(* ===== verification/Hprof.v ===== *)
(** The writer of heap dumps: android/art/runtime/hprof/hprof.cpp, with the basic types of
    android/basic.cpp.

    The heap is walked twice: the first time into an output that only counts, which also
    collects the strings and the classes, the second time into the file.  The [Hprof] object
    is the state; an [EndianOutput] is the counting one, or a buffered one with its file.
    [fopen] and [fwrite] are the class [Stdio]; the order in which a hash map is iterated is
    [hash_order].  Names are lists of bytes; log output is left
    out, with the names that only [visible_] would ask for. *)

From Stdlib Require Import ZArith Lia Bool String.
From stdpp Require Import base list gmap numbers.
From S2P Require Import Prelude Words Host Blocks Notes CoreApi Segments AddressSpace MemRef Elf.
From S2P Require Import Text Mirrors Cxx Heap Dex RuntimeTables Runtimes Methods JavaObjects Spaces.
Open Scope Z_scope.

(** [fopen], and [fwrite(buffer, length, 1, fp)] behind the bytes already written: the bytes
    then in the file, and whether all were written. *)
Class Stdio := { fopen : bool; fwrite : list Z -> list Z -> list Z * bool }.
Class StdioLaws `{Stdio} := {
  fwrite_all : forall file bs file',
    fwrite file bs = (file', true) -> file' = file ++ bs /\ bs <> [] }.

(** The order of a loop over a hash map. *)
Class HashOrder := {
  hash_order : forall {A}, list A -> list A;
  hash_order_perm : forall A (l : list A), hash_order l ≡ₚ l }.

Definition kHprofTime : Z := 0.
Definition kHprofNullThread : Z := 0.
Definition kMaxObjectsPerSegment : Z := 128.
Definition kMaxBytesPerSegment : Z := 4096.
Definition kClassOverheadName : list Z := chars "$classOverhead".
Definition kHprofNullStackTrace : Z := 0.

(** [HprofTag]. *)
Definition HPROF_TAG_STRING : Z := 0x01.
Definition HPROF_TAG_LOAD_CLASS : Z := 0x02.
Definition HPROF_TAG_STACK_TRACE : Z := 0x05.
Definition HPROF_TAG_HEAP_DUMP_SEGMENT : Z := 0x1C.
Definition HPROF_TAG_HEAP_DUMP_END : Z := 0x2C.
(** [HprofHeapTag]. *)
Definition HPROF_CLASS_DUMP : Z := 0x20.
Definition HPROF_INSTANCE_DUMP : Z := 0x21.
Definition HPROF_OBJECT_ARRAY_DUMP : Z := 0x22.
Definition HPROF_PRIMITIVE_ARRAY_DUMP : Z := 0x23.
Definition HPROF_HEAP_DUMP_INFO : Z := 0xfe.
(** [HprofHeapId]. *)
Definition HPROF_HEAP_DEFAULT : Z := 0.
Definition HPROF_HEAP_ZYGOTE : Z := 90.
Definition HPROF_HEAP_APP : Z := 65.
Definition HPROF_HEAP_IMAGE : Z := 73.

(** [Android::BasicType]. *)
Definition basic_object : Z := 2.
Definition basic_boolean : Z := 4.
Definition basic_char : Z := 5.
Definition basic_float : Z := 6.
Definition basic_double : Z := 7.
Definition basic_byte : Z := 8.
Definition basic_short : Z := 9.
Definition basic_int : Z := 10.
Definition basic_long : Z := 11.
(** [SignatureToBasicTypeAndSize(sig, size_out)] on the first character of the signature: the
    type and its size; there is none for [V]. *)
Definition basic_type (c : Z) : option (Z * Z) :=
  if (c =? chr "[") || (c =? chr "L") then Some (basic_object, 4)
  else if c =? chr "Z" then Some (basic_boolean, 1)
  else if c =? chr "C" then Some (basic_char, 2)
  else if c =? chr "F" then Some (basic_float, 4)
  else if c =? chr "D" then Some (basic_double, 8)
  else if c =? chr "B" then Some (basic_byte, 1)
  else if c =? chr "S" then Some (basic_short, 2)
  else if c =? chr "I" then Some (basic_int, 4)
  else if c =? chr "J" then Some (basic_long, 8)
  else None.
(** [SignatureToBasicTypeAndSize(sig, size_out, def)]: an unknown signature counts as the
    default; the type of [V] is undefined. *)
Definition SignatureToBasicTypeAndSize (sig def : list Z) : result (Z * Z) :=
  let c := default 0 (head sig) in
  match basic_type c with
  | Some t => Ok t
  | None => if c =? chr "V" then Fault else of_option (basic_type (default 0 (head def)))
  end.

(** * Output *)

(** [EndianOutputBuffered] and [FileEndianOutput]: the buffer, the file, and [errors_]. *)
Record FileBuffer := { fb_buffer : list Z; fb_file : list Z; fb_errors : bool }.
(** [EndianOutput]; without a buffer it is the counting one. *)
Record EndianOutput := { eo_length : Z; eo_sum : Z; eo_max : Z; eo_started : bool;
  eo_buffer : option FileBuffer }.
Definition new_output (b : option FileBuffer) : EndianOutput :=
  {| eo_length := 0; eo_sum := 0; eo_max := 0; eo_started := false; eo_buffer := b |}.
Definition with_length (n : Z) (b : option FileBuffer) (o : EndianOutput) : EndianOutput :=
  {| eo_length := n; eo_sum := eo_sum o; eo_max := eo_max o; eo_started := eo_started o;
     eo_buffer := b |}.
Definition set_started (o : EndianOutput) : EndianOutput :=
  {| eo_length := eo_length o; eo_sum := eo_sum o; eo_max := eo_max o; eo_started := true;
     eo_buffer := eo_buffer o |}.

(** The [n] bytes of a value, the highest first. *)
Fixpoint big_endian (n : nat) (v : Z) : list Z :=
  match n with
  | O => []
  | S n => Z.land (Z.shiftr v (8 * Z.of_nat n)) 0xFF :: big_endian n v
  end.

(** A vector of bytes holds less than 2^63 of them: [std::length_error] is not caught. *)
Definition append (b : FileBuffer) (bs : list Z) : result FileBuffer :=
  let buffer := fb_buffer b ++ bs in
  if 2 ^ 63 <=? Z.of_nat (length buffer) then Fault
  else Ok {| fb_buffer := buffer; fb_file := fb_file b; fb_errors := fb_errors b |}.
(** [AddU1List] to [AddU8List]: [count] values of [w] bytes, which only the buffered output
    reads. *)
Definition AddList (w : nat) (values : result (list Z)) (count : Z) : prog EndianOutput unit :=
  fun o =>
    let len := u64 (eo_length o + u64 (count * Z.of_nat w)) in
    match eo_buffer o with
    | None => (with_length len None o, Ok tt)
    | Some b =>
        match (let! vs := values in append b (flat_map (big_endian w) vs)) with
        | Ok b => (with_length len (Some b) o, Ok tt)
        | Throw p => (o, Throw p)
        | Fault => (o, Fault)
        | OutOfFuel => (o, OutOfFuel)
        end
    end.
Definition out_U1 (v : Z) : prog EndianOutput unit := AddList 1 (Ok [u8 v]) 1.
Definition out_U4 (v : Z) : prog EndianOutput unit := AddList 4 (Ok [u32 v]) 1.

(** [UpdateU4(offset, new_value)]: an index outside the buffer is undefined. *)
Definition out_UpdateU4 (offset new_value : Z) : prog EndianOutput unit := fun o =>
  match eo_buffer o with
  | None => (o, Ok tt)
  | Some b =>
      if offset + 4 <=? Z.of_nat (length (fb_buffer b)) then
        let bs := big_endian 4 (u32 new_value) in
        let n := Z.to_nat offset in
        let buffer := take n (fb_buffer b) ++ bs ++ drop (n + 4) (fb_buffer b) in
        (with_length (eo_length o)
           (Some {| fb_buffer := buffer; fb_file := fb_file b; fb_errors := fb_errors b |}) o,
         Ok tt)
      else (o, Fault)
  end.
Section Files.
Context `{Stdio}.

(** [HandleEndRecord()], with [HandleFlush(buffer, length)]. *)
Definition HandleFlush (b : FileBuffer) (len : Z) : result FileBuffer :=
  if Z.of_nat (length (fb_buffer b)) <? len then Fault
  else if fb_errors b then Ok b
  else
    let '(file, ok) := fwrite (fb_file b) (take (Z.to_nat len) (fb_buffer b)) in
    Ok {| fb_buffer := fb_buffer b; fb_file := file; fb_errors := negb ok |}.
Definition HandleEndRecord : prog EndianOutput unit := fun o =>
  match eo_buffer o with
  | None => (o, Ok tt)
  | Some b =>
      match HandleFlush b (eo_length o) with
      | Ok b => (with_length (eo_length o)
                   (Some {| fb_buffer := []; fb_file := fb_file b; fb_errors := fb_errors b |}) o,
                 Ok tt)
      | _ => (o, Fault)
      end
  end.
Definition out_EndRecord : prog EndianOutput unit :=
  let$ o := get in
  let$ _ := (if eo_started o then out_UpdateU4 5 (u64 (eo_length o - 9)) else pret tt) in
  let$ _ := HandleEndRecord in
  modify (fun o =>
    {| eo_length := 0; eo_sum := u64 (eo_sum o + eo_length o);
       eo_max := Z.max (eo_max o) (eo_length o); eo_started := false;
       eo_buffer := eo_buffer o |}).
Definition out_StartNewRecord (tag time : Z) : prog EndianOutput unit :=
  let$ o := get in
  let$ _ := (if 0 <? eo_length o then out_EndRecord else pret tt) in
  let$ _ := out_U1 tag in
  let$ _ := out_U4 time in
  let$ _ := out_U4 0xdeaddead in modify set_started.
End Files.

(** * The state of a dump *)

Record Hprof := { hp_first : bool; hp_output : EndianOutput; current_heap : Z;
  objects_in_segment : Z; total_objects : Z; next_string_id : Z;
  hp_strings : list (list Z * Z); next_class_serial_number : Z;
  hp_classes : list (MemoryRef * Z) }.
Definition new_hprof : Hprof :=
  {| hp_first := true; hp_output := new_output None; current_heap := HPROF_HEAP_DEFAULT;
     objects_in_segment := 0; total_objects := 0; next_string_id := 0x400000; hp_strings := [];
     next_class_serial_number := 1; hp_classes := [] |}.
Definition with_output (o : EndianOutput) (h : Hprof) : Hprof :=
  {| hp_first := hp_first h; hp_output := o; current_heap := current_heap h;
     objects_in_segment := objects_in_segment h; total_objects := total_objects h;
     next_string_id := next_string_id h; hp_strings := hp_strings h;
     next_class_serial_number := next_class_serial_number h; hp_classes := hp_classes h |}.
Definition with_heap (heap objects : Z) (h : Hprof) : Hprof :=
  {| hp_first := hp_first h; hp_output := hp_output h; current_heap := heap;
     objects_in_segment := objects; total_objects := total_objects h;
     next_string_id := next_string_id h; hp_strings := hp_strings h;
     next_class_serial_number := next_class_serial_number h; hp_classes := hp_classes h |}.
Definition count_object (h : Hprof) : Hprof :=
  {| hp_first := hp_first h; hp_output := hp_output h; current_heap := current_heap h;
     objects_in_segment := objects_in_segment h; total_objects := u64 (total_objects h + 1);
     next_string_id := next_string_id h; hp_strings := hp_strings h;
     next_class_serial_number := next_class_serial_number h; hp_classes := hp_classes h |}.
Definition add_string (s : list Z) (h : Hprof) : Hprof :=
  {| hp_first := hp_first h; hp_output := hp_output h; current_heap := current_heap h;
     objects_in_segment := objects_in_segment h; total_objects := total_objects h;
     next_string_id := u32 (next_string_id h + 1);
     hp_strings := hp_strings h ++ [(s, next_string_id h)];
     next_class_serial_number := next_class_serial_number h; hp_classes := hp_classes h |}.
Definition take_serial (h : Hprof) : Hprof :=
  {| hp_first := hp_first h; hp_output := hp_output h; current_heap := current_heap h;
     objects_in_segment := objects_in_segment h; total_objects := total_objects h;
     next_string_id := next_string_id h; hp_strings := hp_strings h;
     next_class_serial_number := u32 (next_class_serial_number h + 1);
     hp_classes := hp_classes h |}.
Definition add_class (k : MemoryRef) (sn : Z) (h : Hprof) : Hprof :=
  {| hp_first := hp_first h; hp_output := hp_output h; current_heap := current_heap h;
     objects_in_segment := objects_in_segment h; total_objects := total_objects h;
     next_string_id := next_string_id h; hp_strings := hp_strings h;
     next_class_serial_number := next_class_serial_number h;
     hp_classes := hp_classes h ++ [(k, sn)] |}.
Definition not_first (h : Hprof) : Hprof :=
  {| hp_first := false; hp_output := hp_output h; current_heap := current_heap h;
     objects_in_segment := objects_in_segment h; total_objects := total_objects h;
     next_string_id := next_string_id h; hp_strings := hp_strings h;
     next_class_serial_number := next_class_serial_number h; hp_classes := hp_classes h |}.

(** Calls of the output. *)
Definition on_output {A} (m : prog EndianOutput A) : prog Hprof A :=
  zoom hp_output (fun h o => with_output o h) m.
Definition AddU1 (v : Z) : prog Hprof unit := on_output (out_U1 v).
Definition AddU2 (v : Z) : prog Hprof unit := on_output (AddList 2 (Ok [u16 v]) 1).
Definition AddU4 (v : Z) : prog Hprof unit := on_output (out_U4 v).
Definition AddU8 (v : Z) : prog Hprof unit := on_output (AddList 8 (Ok [u64 v]) 1).
Definition AddObjectId (obj : MemoryRef) : prog Hprof unit := AddU4 (vaddr obj).
Definition AddStackTraceSerialNumber : Z -> prog Hprof unit := AddU4.
Definition AddClassStaticsId (k : MemoryRef) : prog Hprof unit := AddU4 (Z.lor 1 (vaddr k)).
Definition AddClassId : Z -> prog Hprof unit := AddU4.
Definition AddStringId : Z -> prog Hprof unit := AddU4.
Definition UpdateU4 (offset v : Z) : prog Hprof unit := on_output (out_UpdateU4 offset v).
(** [AddUtf8String(str)]: the bytes before the first zero. *)
Definition AddUtf8String (s : list Z) : prog Hprof unit :=
  let str := default [] (cstr_of (s ++ [0])) in
  on_output (AddList 1 (Ok str) (Z.of_nat (length str))).
(** [output_->Length()]. *)
Definition Length : prog Hprof Z := let$ h := get in pret (eo_length (hp_output h)).
(** What [m] writes, behind a word that holds the number of its bytes in the end. *)
Definition sized {A} (m : prog Hprof A) : prog Hprof A :=
  let$ size_patch_offset := Length in
  let$ _ := AddU4 0x77777777 in
  let$ a := m in
  let$ len := Length in
  let$ _ := UpdateU4 size_patch_offset (u64 (len - u64 (size_patch_offset + 4))) in pret a.
(** [n] bytes of zero. *)
Fixpoint add_zeros (n : nat) : prog Hprof unit :=
  match n with
  | O => pret tt
  | S n => let$ _ := AddU1 0 in add_zeros n
  end.

(** [strings_.find(string)] and [classes_.find(c)]. *)
Definition find_string (s : list Z) (l : list (list Z * Z)) : option Z :=
  snd <$> find (fun p => bool_decide (fst p = s)) l.
Definition find_class (k : MemoryRef) (l : list (MemoryRef * Z)) : option Z :=
  snd <$> find (fun p => vaddr (fst p) =? vaddr k) l.
Definition LookupStringId (s : list Z) : prog Hprof Z :=
  let$ h := get in
  match find_string s (hp_strings h) with
  | Some id => pret id
  | None => let$ _ := modify (add_string s) in pret (next_string_id h)
  end.

(** [ArtField::GetTypeDescriptor()] of the field that a walk moves. *)
Section WalkedField.
Context {M : Machine} (sdk : Z) (c : CoreApi).
Definition walk_GetTypeDescriptor (f : MemoryRef) (fc : FieldCache)
    : result (FieldCache * list Z) :=
  let! k := cached (fc_class fc) (Field_GetDeclaringClass c f) in
  if negb (nz (vaddr k)) then Ok (fc, chars "B")
  else
    let! field_index := af_word c af_field_dex_idx_ f in
    let! proxy := IsProxyClass sdk c k in
    if proxy : bool then
      Ok ({| fc_class := k; fc_dex := fc_dex fc |},
          chars (if field_index =? 0 then "[Ljava/lang/Class;" else "[[Ljava/lang/Class;"))
    else
      let! dex := cached (fc_dex fc) (Class_GetDexFile sdk c k) in
      let! id := GetFieldId sdk c dex field_index in
      let! type := GetFieldTypeDescriptor sdk c dex id (chars "B") in
      Ok ({| fc_class := k; fc_dex := dex |}, type).
End WalkedField.

(** * Dumping objects *)

Section Dump.
Context {M : Machine} `{Stdio} `{HashOrder} (sdk patch : Z) (c : CoreApi) (cf : nat)
  (rt : Runtime_OffsetTable) (runtime : MemoryRef) (quick : bool).

Definition LookupClassNameId (k : MemoryRef) : prog Hprof Z :=
  let$ desc := lift (PrettyDescriptor sdk c cf k) in LookupStringId desc.
(** The branch of [LookupClassId] for a class that is not in the table yet. *)
Definition enter_class (k : MemoryRef) : prog Hprof unit :=
  let$ h := get in
  let sn := next_class_serial_number h in
  let$ _ := modify take_serial in
  let$ _ := LookupClassNameId k in modify (add_class k sn).
Definition LookupClassId (k : MemoryRef) : prog Hprof Z :=
  let$ h := get in
  let$ _ :=
    (if nz (vaddr k) then
       match find_class k (hp_classes h) with
       | Some _ => pret tt
       | None => enter_class k
       end
     else pret tt) in
  pret (vaddr k).

Definition StartNewRecord (tag time : Z) : prog Hprof unit :=
  on_output (out_StartNewRecord tag time).
Definition EndRecord : prog Hprof unit := on_output out_EndRecord.
Definition StartNewHeapDumpSegment : prog Hprof unit :=
  let$ _ := StartNewRecord HPROF_TAG_HEAP_DUMP_SEGMENT kHprofTime in
  modify (with_heap HPROF_HEAP_DEFAULT 0).
Definition CheckHeapSegmentConstraints : prog Hprof unit :=
  let$ h := get in
  if (kMaxObjectsPerSegment <=? objects_in_segment h)
     || (kMaxBytesPerSegment <=? eo_length (hp_output h))
  then StartNewHeapDumpSegment else pret tt.

Definition AddRuntimeInternalObjectsField (k : MemoryRef) : result bool :=
  if Sdk.N <=? sdk then
    let! dex_cache := IsDexCacheClass sdk c k in
    if dex_cache : bool then Ok true
    else
      let! super := GetSuperClass sdk c k in
      let! loader := IsClassLoaderClass sdk c k in
      if (loader : bool) && nz (vaddr super) then IsObjectClass sdk c super else Ok false
  else Ok false.

(** The walks over the fields of a class, with the cache of the field that moves. *)
Definition at_field {A} (m : prog Hprof A) : prog (Hprof * FieldCache) A :=
  zoom fst (fun s h => (h, snd s)) m.
Definition field_string (read : FieldCache -> result (FieldCache * list Z))
    : prog (Hprof * FieldCache) (list Z) := on_part snd (fun s fc => (fst s, fc)) read.
Definition field_type (f : MemoryRef) : prog (Hprof * FieldCache) (Z * Z) :=
  let$ sig := field_string (walk_GetTypeDescriptor sdk c f) in
  lift (SignatureToBasicTypeAndSize sig (chars "B")).
Definition each_field
    (walk : MemoryRef -> (MemoryRef -> prog (Hprof * FieldCache) bool)
            -> prog (Hprof * FieldCache) unit)
    (k : MemoryRef) (body : MemoryRef -> prog (Hprof * FieldCache) unit) : prog Hprof unit :=
  fun h =>
    let '(s, r) := walk k (fun f => let$ _ := body f in pret false) (h, no_cache) in (fst s, r).
Definition each_instance_field := each_field (ForeachInstanceField sdk c).
Definition each_static_field := each_field (ForeachStaticField sdk c).

(** The value of a field of [obj], by its type. *)
Definition add_value (type : Z) (f obj : MemoryRef) : prog Hprof unit :=
  if type =? basic_byte then let$ v := lift (Field_GetByte c f obj) in AddU1 v
  else if type =? basic_boolean then let$ v := lift (Field_GetBoolean c f obj) in AddU1 v
  else if type =? basic_char then let$ v := lift (Field_GetChar c f obj) in AddU2 v
  else if type =? basic_short then let$ v := lift (Field_GetShort c f obj) in AddU2 v
  else if (type =? basic_float) || (type =? basic_int) || (type =? basic_object)
  then let$ v := lift (Field_Get32 c f obj) in AddU4 v
  else if (type =? basic_double) || (type =? basic_long)
  then let$ v := lift (Field_Get64 c f obj) in AddU8 v
  else pret tt.

(** The sizes of the static fields of a class. *)
Definition static_fields_size (k : MemoryRef) : result Z :=
  let '((size, _), r) :=
    ForeachStaticField sdk c k (fun f =>
      let$ sig := on_part snd (fun s fc => (fst s, fc)) (walk_GetTypeDescriptor sdk c f) in
      let$ t := lift (SignatureToBasicTypeAndSize sig (chars "B")) in
      let$ _ := modify (fun s => (u64 (fst s + snd t), snd s)) in pret false) (0, no_cache) in
  let! _ := r in Ok size.

(** [static_field_writer(field, name_fn)]: [prefix] is what [name_fn] puts before the name. *)
Definition static_field_writer (k : MemoryRef) (prefix : list Z) (f : MemoryRef)
    : prog (Hprof * FieldCache) unit :=
  let$ name := field_string (walk_GetName sdk c f) in
  let$ _ := at_field (let$ id := LookupStringId (prefix ++ name) in AddStringId id) in
  let$ t := field_type f in
  at_field (let$ _ := AddU1 (fst t) in add_value (fst t) f k).
Definition klass_field_writer (f : MemoryRef) : prog (Hprof * FieldCache) unit :=
  let$ name := field_string (walk_GetName sdk c f) in
  let$ _ := at_field (let$ id := LookupStringId name in AddStringId id) in
  let$ t := field_type f in at_field (AddU1 (fst t)).

(** The name and the type of one more field. *)
Definition add_named (name : list Z) (type : Z) : prog Hprof unit :=
  let$ id := LookupStringId name in
  let$ _ := AddStringId id in AddU1 type.
(** The array that stands for the part of the class object that no field covers. *)
Definition overhead_array (k : MemoryRef) (size : Z) : prog Hprof unit :=
  if 4 <? size then
    let$ _ := AddU1 HPROF_PRIMITIVE_ARRAY_DUMP in
    let$ _ := AddClassStaticsId k in
    let$ _ := AddStackTraceSerialNumber kHprofNullStackTrace in
    let$ _ := AddU4 (u64 (size - 4)) in
    let$ _ := AddU1 basic_byte in add_zeros (Z.to_nat (size - 4))
  else pret tt.
(** The fields that refer to it, or stand for it when it is small. *)
Definition overhead_fields (k : MemoryRef) (size : Z) : prog Hprof unit :=
  if nz size then
    let$ id := LookupStringId kClassOverheadName in
    let$ _ := AddStringId id in
    if 4 <? size then let$ _ := AddU1 basic_object in AddClassStaticsId k
    else if size =? 4 then let$ _ := AddU1 basic_int in AddU4 0
    else if size =? 2 then let$ _ := AddU1 basic_short in AddU2 0
    else if size =? 3 then
      let$ _ := AddU1 basic_short in
      let$ _ := AddU2 0 in
      let$ id := LookupStringId (kClassOverheadName ++ chars "2") in
      let$ _ := AddStringId id in
      let$ _ := AddU1 basic_byte in AddU1 0
    else let$ _ := AddU1 basic_byte in AddU1 0
  else pret tt.
Definition overhead_field_count (size : Z) : Z :=
  if 0 <? size then if size =? 3 then 2 else 1 else 0.

Definition instance_size (k : MemoryRef) : prog Hprof unit :=
  let$ is_class := lift (IsClassClass c k) in
  if is_class : bool then AddU4 0
  else
    let$ is_string := lift (IsStringClass sdk c k) in
    if is_string : bool then AddU4 (String_THIS String_Init)
    else
      let$ array := lift (IsArrayClass sdk c k) in
      let$ none := (if array : bool then pret true else lift (IsPrimitive sdk c k)) in
      if none : bool then AddU4 0
      else let$ n := lift (GetObjectSize sdk c k) in AddU4 n.

Definition class_head (k super_class class_loader : MemoryRef) : prog Hprof unit :=
  let$ _ := AddU1 HPROF_CLASS_DUMP in
  let$ id := LookupClassId k in
  let$ _ := AddClassId id in
  let$ _ := AddStackTraceSerialNumber kHprofNullStackTrace in
  let$ id := LookupClassId super_class in
  let$ _ := AddClassId id in
  let$ _ := AddObjectId class_loader in
  let$ _ := AddU4 0 in
  let$ _ := AddU4 0 in
  let$ _ := AddU4 0 in
  let$ _ := AddU4 0 in
  let$ _ := instance_size k in AddU2 0.
Definition class_statics (k : MemoryRef) (size num_static_fields : Z) : prog Hprof unit :=
  let$ class_class := lift (GetClass c k) in
  let$ super_class_class := lift (GetSuperClass sdk c class_class) in
  let$ n := lift (NumInstanceFields sdk c class_class) in
  let$ m := lift (NumInstanceFields sdk c super_class_class) in
  let$ _ := AddU2 (u64 (u32 (n + m) + overhead_field_count size + num_static_fields)) in
  let$ _ := overhead_fields k size in
  let$ _ := each_instance_field class_class (static_field_writer k (chars "$class$")) in
  let$ _ := each_instance_field super_class_class (static_field_writer k (chars "$class$")) in
  each_static_field k (static_field_writer k []).
Definition class_fields (k : MemoryRef) : prog Hprof unit :=
  let$ n := lift (NumInstanceFields sdk c k) in
  let$ internal := lift (AddRuntimeInternalObjectsField k) in
  let$ is_string := lift (IsStringClass sdk c k) in
  let$ _ := AddU2 (if (is_string : bool) || (internal : bool) then u16 n + 1 else u16 n) in
  let$ _ := each_instance_field k klass_field_writer in
  if is_string then add_named (chars "value") basic_object
  else if internal then add_named (chars "runtimeInternalObjects") basic_object
  else pret tt.
Definition DumpHeapClass (k : MemoryRef) : prog Hprof unit :=
  let$ resolved := lift (IsResolved sdk c k) in
  if resolved : bool then
    let$ num_static_fields := lift (NumStaticFields sdk c k) in
    let$ n := lift (GetClassSize sdk c k) in
    let total_class_size := RoundUp 32 n kObjectAlignment in
    let base_overhead_size := u64 (total_class_size - Class_THIS (Class_Init sdk)) in
    let$ statics := lift (static_fields_size k) in
    let size := u64 (base_overhead_size - statics) in
    let$ _ := overhead_array k size in
    let$ super_class := lift (GetSuperClass sdk c k) in
    let$ class_loader := lift (GetClassLoader sdk c k) in
    let$ _ := class_head k super_class class_loader in
    let$ _ := class_statics k size num_static_fields in
    class_fields k
  else pret tt.

(** [AddIdList(values)]: [n] references from number [i] on. *)
Fixpoint AddIdList (n : nat) (arr : MemoryRef) (i : Z) : prog Hprof unit :=
  match n with
  | O => pret tt
  | S n =>
      let$ v := lift (let! '(_, p) := Real c (ref_from c (GetRawData arr 4 i) arr) in
                      host_word (host_mem c) p 4) in
      let$ _ := AddObjectId (Object_from c v arr) in AddIdList n arr (i + 1)
  end.
(** The values of [w] bytes at [p]. *)
Fixpoint words_of (fuel : nat) (w : nat) (bs : list Z) : list Z :=
  match fuel with
  | O => []
  | S fuel =>
      match bs with
      | [] => []
      | _ => le_value (take w bs) :: words_of fuel w (drop w bs)
      end
  end.
Definition host_values (p : Z) (w : nat) (n : Z) : result (list Z) :=
  let! bs := host_load (host_mem c) p (Z.of_nat w * n) in Ok (words_of (Z.to_nat n) w bs).
Definition array_values (w : nat) (arr : MemoryRef) (n : Z) : prog Hprof unit :=
  let$ p := lift (let! '(_, p) := Real c (ref_from c (GetRawData arr (Z.of_nat w) 0) arr) in Ok p) in
  on_output (AddList w (host_values p w n) n).
Definition array_head (tag : Z) (arr : MemoryRef) (n : Z) : prog Hprof unit :=
  let$ _ := AddU1 tag in
  let$ _ := AddObjectId arr in
  let$ _ := AddStackTraceSerialNumber kHprofNullStackTrace in AddU4 n.
Definition DumpHeapArray (arr k : MemoryRef) : prog Hprof unit :=
  let$ n := lift (GetLength c arr) in
  let$ of_objects := lift (IsObjectArray sdk c arr) in
  if of_objects : bool then
    let$ _ := array_head HPROF_OBJECT_ARRAY_DUMP arr (u32 n) in
    let$ id := LookupClassId k in
    let$ _ := AddClassId id in AddIdList (Z.to_nat n) arr 0
  else
    let$ component := lift (GetComponentType sdk c k) in
    let$ t := lift (GetPrimitiveType sdk c component) in
    let$ sig := lift (of_option (Primitive_Descriptor t)) in
    let$ ts := lift (SignatureToBasicTypeAndSize sig (chars "B")) in
    let$ _ := array_head HPROF_PRIMITIVE_ARRAY_DUMP arr (u32 n) in
    let$ _ := AddU1 (fst ts) in
    if snd ts =? 1 then array_values 1 arr (u32 n)
    else if snd ts =? 2 then array_values 2 arr (u32 n)
    else if snd ts =? 4 then array_values 4 arr (u32 n)
    else if snd ts =? 8 then array_values 8 arr (u32 n)
    else pret tt.

(** [instance_field_writer] for a field of the class [super]. *)
Definition instance_field_writer (object super f : MemoryRef) : prog (Hprof * FieldCache) unit :=
  let$ t := field_type f in
  at_field
    (let$ count :=
       (if fst t =? basic_int then
          let$ off := lift (af_offset c f) in
          if off =? count_ String_Init then lift (IsStringClass sdk c super) else pret false
        else pret false) in
     if count : bool then let$ n := lift (String_GetLength sdk c object) in AddU4 n
     else add_value (fst t) f object).
(** The address the dump gives to the characters of a string. *)
Definition string_chars (object : MemoryRef) : result MemoryRef :=
  let! n := String_GetLength sdk c object in
  Ok (Object (u64 (vaddr object + (if n =? 0 then kObjectAlignment
                                   else String_THIS String_Init)))).
(** The loop over the classes of the object, from [super] on. *)
Fixpoint instance_fields (n : nat) (object super string_value : MemoryRef)
    : prog Hprof MemoryRef :=
  match n with
  | O => lift OutOfFuel
  | S n =>
      let$ _ := each_instance_field super (instance_field_writer object super) in
      let$ is_string := lift (IsStringClass sdk c super) in
      let$ string_value :=
        (if is_string : bool then
           let$ v := lift (string_chars object) in
           let$ _ := AddObjectId v in pret v
         else let$ _ := lift (AddRuntimeInternalObjectsField super) in pret string_value) in
      let$ super := lift (GetSuperClass sdk c super) in
      if nz (vaddr super) then instance_fields n object super string_value
      else pret string_value
  end.
(** The characters of a string, as an array behind the object. *)
Definition string_array (object string_value : MemoryRef) : prog Hprof unit :=
  let$ _ := AddU1 HPROF_PRIMITIVE_ARRAY_DUMP in
  let$ _ := AddObjectId string_value in
  let$ _ := AddStackTraceSerialNumber kHprofNullStackTrace in
  let$ n := lift (String_GetLength sdk c object) in
  let$ _ := AddU4 n in
  let$ compressed := lift (IsCompressed sdk c object) in
  let chars_at off w :=
    let$ p := lift (let! '(_, p) := Real c object in Ok p) in
    on_output (AddList w (host_values (u64 (p + off)) w (u64 n)) (u64 n)) in
  if compressed : bool then
    let$ _ := AddU1 basic_byte in chars_at (value_compressed_ String_Init) 1%nat
  else
    let$ _ := AddU1 basic_char in chars_at (value_ String_Init) 2%nat.
Definition DumpHeapInstanceObject (n : nat) (object k : MemoryRef) : prog Hprof unit :=
  let$ _ := AddU1 HPROF_INSTANCE_DUMP in
  let$ _ := AddObjectId object in
  let$ _ := AddStackTraceSerialNumber kHprofNullStackTrace in
  let$ id := LookupClassId k in
  let$ _ := AddClassId id in
  let$ string_value := sized (instance_fields n object k (Object 0)) in
  if nz (vaddr string_value) then string_array object string_value else pret tt.

(** * The dump *)

Definition heap_name (heap : Z) : list Z :=
  if heap =? HPROF_HEAP_APP then chars "app"
  else if heap =? HPROF_HEAP_ZYGOTE then chars "zygote"
  else if heap =? HPROF_HEAP_IMAGE then chars "image" else chars "<ILLEGAL>".
(** The record that switches to another heap. *)
Definition heap_info (heap_type : Z) : prog Hprof unit :=
  let$ h := get in
  if heap_type =? current_heap h then pret tt
  else
    let$ _ := AddU1 HPROF_HEAP_DUMP_INFO in
    let$ _ := AddU4 heap_type in
    let$ id := LookupStringId (heap_name heap_type) in
    let$ _ := AddStringId id in
    modify (fun h => with_heap heap_type (objects_in_segment h) h).
Definition space_heap (space : option Space) : result Z :=
  match space with
  | None => Ok HPROF_HEAP_APP
  | Some s =>
      let! t := GetType c s in
      Ok (if t =? kSpaceTypeZygoteSpace then HPROF_HEAP_ZYGOTE
          else if t =? kSpaceTypeImageSpace then HPROF_HEAP_IMAGE else HPROF_HEAP_APP)
  end.
(** Is the object left out? *)
Definition skipped (object : MemoryRef) : prog Hprof bool :=
  let$ is_class := lift (IsClass c object) in
  if is_class : bool then lift (IsRetired sdk c object)
  else let$ h := get in pret (quick && hp_first h).
Definition dump_object (n : nat) (object : MemoryRef) (heap_type : Z) : prog Hprof unit :=
  let$ _ := CheckHeapSegmentConstraints in
  let$ _ := heap_info heap_type in
  let$ k := lift (GetClass c object) in
  let$ _ :=
    (if nz (vaddr k) then
       let$ is_class := lift (IsClass c object) in
       if is_class : bool then DumpHeapClass object
       else
         let$ array := lift (IsArrayClass sdk c k) in
         if array : bool then DumpHeapArray object k else DumpHeapInstanceObject n object k
     else pret tt) in
  modify (fun h => with_heap (current_heap h) (u64 (objects_in_segment h + 1)) h).
Definition at_hprof {A} (m : prog Hprof A) : prog (Hprof * HeapCache) A :=
  zoom fst (fun s h => (h, snd s)) m.
(** [DumpHeapObject(object)]; [fuel] bounds the loops over the heap, [n] the superclasses. *)
Definition DumpHeapObject (fuel n : nat) (object : MemoryRef) : prog (Hprof * HeapCache) unit :=
  let$ skip := at_hprof (skipped object) in
  if skip : bool then pret tt
  else
    let$ _ := at_hprof (modify count_object) in
    let$ heap := lift (GetHeap c rt runtime) in
    let$ space := in_heap (FindContinuousSpaceFromObject sdk c fuel heap object) in
    let$ heap_type := lift (space_heap space) in
    at_hprof (dump_object n object heap_type).

Definition WriteFixedHeader : prog Hprof unit :=
  let$ _ := on_output (AddList 1 (Ok (chars "JAVA PROFILE 1.0.3" ++ [0])) 19) in
  let$ _ := AddU4 4 in
  let$ _ := AddU4 0 in AddU4 0.
Definition write_string (p : list Z * Z) : prog Hprof unit :=
  let$ _ := StartNewRecord HPROF_TAG_STRING kHprofTime in
  let$ _ := AddU4 (snd p) in AddUtf8String (fst p).
Definition write_class (p : MemoryRef * Z) : prog Hprof unit :=
  let$ _ := StartNewRecord HPROF_TAG_LOAD_CLASS kHprofTime in
  let$ _ := AddU4 (snd p) in
  let$ _ := AddObjectId (fst p) in
  let$ _ := AddStackTraceSerialNumber kHprofNullStackTrace in
  let$ id := LookupClassNameId (fst p) in AddStringId id.
Fixpoint for_each {A} (l : list A) (body : A -> prog Hprof unit) : prog Hprof unit :=
  match l with
  | [] => pret tt
  | x :: l => let$ _ := body x in for_each l body
  end.
Definition WriteStringTable : prog Hprof unit :=
  let$ h := get in for_each (hash_order (hp_strings h)) write_string.
Definition WriteClassTable : prog Hprof unit :=
  let$ h := get in for_each (hash_order (hp_classes h)) write_class.
Definition WriteStackTraces : prog Hprof unit :=
  let$ _ := StartNewRecord HPROF_TAG_STACK_TRACE kHprofTime in
  let$ _ := AddStackTraceSerialNumber kHprofNullStackTrace in
  let$ _ := AddU4 kHprofNullThread in AddU4 0.
Definition ProcessHeader (string_first : bool) : prog Hprof unit :=
  let$ _ := WriteFixedHeader in
  let$ _ := (if string_first then WriteStringTable else pret tt) in
  let$ _ := WriteClassTable in
  let$ _ := WriteStackTraces in
  let$ _ := (if string_first then pret tt else WriteStringTable) in EndRecord.
Definition ProcessBody (fuel n : nat) : prog (Hprof * HeapCache) unit :=
  let$ _ := at_hprof (StartNewRecord HPROF_TAG_HEAP_DUMP_SEGMENT 0) in
  let$ heap := lift (GetHeap c rt runtime) in
  let$ _ := ForeachObjects sdk patch c (DumpHeapObject fuel n) fuel heap in
  let$ _ := at_hprof (StartNewRecord HPROF_TAG_HEAP_DUMP_END 0) in at_hprof EndRecord.
Definition ProcessHeap (header_first : bool) (fuel n : nat) : prog (Hprof * HeapCache) unit :=
  let$ _ := at_hprof (modify (with_heap HPROF_HEAP_DEFAULT 0)) in
  if header_first then
    let$ _ := at_hprof (ProcessHeader true) in ProcessBody fuel n
  else
    let$ _ := ProcessBody fuel n in at_hprof (ProcessHeader false).

Definition new_file : FileBuffer := {| fb_buffer := []; fb_file := []; fb_errors := false |}.
(** [DumpToFile(max_length)]; the capacity reserved is not modelled. *)
Definition DumpToFile (fuel n : nat) : prog (Hprof * HeapCache) bool :=
  if fopen then
    let$ _ := at_hprof (modify (with_output (new_output (Some new_file)))) in
    let$ _ := ProcessHeap true fuel n in pret true
  else pret false.
(** [Dump()]. *)
Definition Dump (fuel n : nat) : prog (Hprof * HeapCache) bool :=
  let$ _ := at_hprof (modify (with_output (new_output None))) in
  let$ _ := ProcessHeap false fuel n in
  let$ _ := at_hprof (modify not_first) in DumpToFile fuel n.
(** [DumpHeap(output, visible, quick)]. *)
Definition DumpHeap (fuel n : nat) (spaces : HeapCache) : (Hprof * HeapCache) * result bool :=
  Dump fuel n (new_hprof, spaces).
End Dump.
