(* ===== verification/HprofDump.v ===== *)
(** The programs of a heap dump, step by step.

    What [Hprof] writes for an object is built from few steps: bytes, the start of a new
    segment, a part whose size is written in front of it, look-ups in the tables of strings
    and classes.  [Dumps] states what a growth and a relation of states ([Replay]) have to
    keep for these steps; then every program of a dump keeps it, the walk over the heap
    included.  [HprofReplay] and [HprofProofs] give the instances. *)

From Stdlib Require Import ZArith Lia Bool String.
From stdpp Require Import base list gmap numbers.
From S2P Require Import Prelude Words Host Blocks Notes CoreApi Segments AddressSpace MemRef Elf.
From S2P Require Import Text Mirrors Cxx Heap Dex RuntimeTables Runtimes Methods RefCache.
From S2P Require Import JavaObjects Spaces Replay SpacesProofs Hprof.
Open Scope Z_scope.

(** [count] values that can be read, or whose reading is undefined. *)
Definition quiet (count : Z) (m : result (list Z)) : Prop :=
  match m with Ok vs => Z.of_nat (length vs) = count | Fault => True | _ => False end.

Class Dumps `{Stdio, HashOrder} {M : Machine} (sdk : Z) (c : CoreApi) (cf : nat) (P : Prop)
    `{Recorded Hprof} : Prop := {
  dumps_list w values count : quiet count values -> replay P (on_output (AddList w values count));
  dumps_segment : replay P (StartNewRecord HPROF_TAG_HEAP_DUMP_SEGMENT kHprofTime);
  dumps_sized {A} (m : prog Hprof A) : replay P m -> replay P (sized m);
  dumps_string s : replay P (LookupStringId s);
  dumps_class k : settled c k -> replay P (LookupClassId sdk c cf k);
  dumps_rel (h1 h2 : Hprof) : st_rel h1 h2 ->
    eo_length (hp_output h1) = eo_length (hp_output h2) /\ current_heap h1 = current_heap h2 /\
    objects_in_segment h1 = objects_in_segment h2;
  dumps_heap (heap objects : Hprof -> Z) :
    (forall h1 h2, st_rel h1 h2 -> heap h1 = heap h2 /\ objects h1 = objects h2) ->
    replay P (modify (fun h => with_heap (heap h) (objects h) h));
  dumps_count : replay P (modify count_object) }.

Section Dump.
Context {M : Machine} `{Stdio} `{HashOrder} (sdk patch : Z) (c : CoreApi) (Hc : space_ok c)
  (cf : nat) (rt : Runtime_OffsetTable) (runtime : MemoryRef) (P : Prop)
  {R : Recorded Hprof} {D : Dumps sdk c cf P}.
Local Notation settled := (settled c).
#[local] Hint Resolve dumps_segment dumps_sized dumps_string dumps_class dumps_count : replay_db.

Lemma replay_add w v : replay P (on_output (AddList w (Ok [v]) 1)).
Proof. by apply dumps_list. Qed.
Lemma replay_AddU1 v : replay P (AddU1 v).
Proof. apply replay_add. Qed.
Lemma replay_AddU2 v : replay P (AddU2 v).
Proof. apply replay_add. Qed.
Lemma replay_AddU4 v : replay P (AddU4 v).
Proof. apply replay_add. Qed.
Lemma replay_AddU8 v : replay P (AddU8 v).
Proof. apply replay_add. Qed.
Lemma replay_AddObjectId obj : replay P (AddObjectId obj).
Proof. apply replay_add. Qed.
#[local] Hint Resolve replay_AddU1 replay_AddU2 replay_AddU4 replay_AddU8 replay_AddObjectId
  : replay_db.
Lemma replay_add_zeros n : replay P (add_zeros n).
Proof. induction n as [|n IH]; cbn [add_zeros]; replay_tac. Qed.
#[local] Hint Resolve replay_add_zeros : replay_db.

(** * Fields *)

#[local] Instance plain_field_cache : Recorded FieldCache := plain FieldCache.

Lemma replay_at_field {A} (m : prog Hprof A) : replay P m -> replay P (at_field m).
Proof. apply replay_zoom_fst. Qed.
Lemma replay_field_string read : replay P (field_string read).
Proof.
  unfold field_string, on_part. split.
  - intros [h fc]. cbn. destruct (read fc) as [[fc' a]| | |]; split; try done; exact (st_le_refl h).
  - intros _ [h1 fc1] [h2 fc2] [Hr E] _. cbn in E. subst fc2. cbn. right.
    by destruct (read fc1) as [[fc' a]| | |].
Qed.
#[local] Hint Resolve replay_at_field replay_field_string : replay_db.
Lemma replay_field_type f : replay P (field_type sdk c f).
Proof. unfold field_type. replay_tac. Qed.
#[local] Hint Resolve replay_field_type : replay_db.

Lemma replay_field_loop n wanted (fn : MemoryRef -> prog (Hprof * FieldCache) bool) f :
  (forall f, replay P (fn f)) -> replay P (field_loop c n wanted fn f).
Proof.
  intros Hf. revert f. induction n as [|n IH]; intros f; cbn [field_loop]; replay_tac.
Qed.
Lemma replay_foreach_field static number array k
    (fn : MemoryRef -> prog (Hprof * FieldCache) bool) :
  (forall f, replay P (fn f)) -> replay P (foreach_field sdk c static number array k fn).
Proof.
  intros Hf. unfold foreach_field. replay_tac. by apply replay_field_loop.
Qed.
Lemma replay_each_field walk k body :
  (forall fn : MemoryRef -> prog (Hprof * FieldCache) bool, (forall f, replay P (fn f)) -> replay P (walk k fn)) ->
  (forall f, replay P (body f)) -> replay P (each_field walk k body).
Proof.
  intros Hw Hb. unfold each_field. set (fn := fun f => let$ _ := body f in pret false).
  destruct (Hw fn) as [Hg Ha]; [intros f; subst fn; cbn; replay_tac|]. split.
  - intros h. specialize (Hg (h, no_cache)). by destruct (walk k fn (h, no_cache)) as [s r], Hg.
  - intros HPP h1 h2 Hr. specialize (Ha HPP (h1, no_cache) (h2, no_cache) (conj Hr eq_refl)).
    unfold replay_at in *.
    destruct (walk k fn (h1, no_cache)) as [[h1' fc1] r1],
      (walk k fn (h2, no_cache)) as [[h2' fc2] r2]. cbn in *.
    intros Hin. by destruct (Ha (conj Hin I)) as [->|[-> [Hr' _]]]; [left|right].
Qed.
Lemma replay_each_instance k body :
  (forall f, replay P (body f)) -> replay P (each_instance_field sdk c k body).
Proof. apply replay_each_field. intros fn. apply replay_foreach_field. Qed.
Lemma replay_each_static k body :
  (forall f, replay P (body f)) -> replay P (each_static_field sdk c k body).
Proof. apply replay_each_field. intros fn. apply replay_foreach_field. Qed.

Lemma replay_add_value type f obj : replay P (add_value c type f obj).
Proof. unfold add_value. replay_tac. Qed.
#[local] Hint Resolve replay_add_value : replay_db.
Lemma replay_static_field_writer k prefix f :
  replay P (static_field_writer sdk c k prefix f).
Proof. unfold static_field_writer. replay_tac; apply replay_at_field; replay_tac. Qed.
Lemma replay_klass_field_writer f : replay P (klass_field_writer sdk c f).
Proof. unfold klass_field_writer. replay_tac; apply replay_at_field; replay_tac. Qed.
#[local] Hint Resolve replay_static_field_writer replay_klass_field_writer replay_each_instance
  replay_each_static : replay_db.

(** * Objects *)

Lemma replay_add_named name type : replay P (add_named name type).
Proof. unfold add_named. replay_tac. Qed.
Lemma replay_overhead_array k size : replay P (overhead_array k size).
Proof. unfold overhead_array. replay_tac. Qed.
Lemma replay_overhead_fields k size : replay P (overhead_fields k size).
Proof. unfold overhead_fields. replay_tac. Qed.
Lemma replay_instance_size k : replay P (instance_size sdk c k).
Proof. unfold instance_size. replay_tac. Qed.
#[local] Hint Resolve replay_add_named replay_overhead_array replay_overhead_fields
  replay_instance_size : replay_db.
Lemma replay_class_head k super loader :
  settled k -> settled super -> replay P (class_head sdk c cf k super loader).
Proof. intros Hk Hs. unfold class_head. replay_tac. Qed.
Lemma replay_class_statics k size n : replay P (class_statics sdk c k size n).
Proof. unfold class_statics. replay_tac. Qed.
Lemma replay_class_fields k : replay P (class_fields sdk c k).
Proof. unfold class_fields. replay_tac. Qed.
#[local] Hint Resolve replay_class_head replay_class_statics replay_class_fields : replay_db.
Lemma settled_class_ref g k r : settled k -> class_ref sdk c k g = Ok r -> settled r.
Proof. intros Hk H'. unfold class_ref in H'. res_inv. subst. by apply settled_from. Qed.
Lemma settled_GetClass obj k : settled obj -> GetClass c obj = Ok k -> settled k.
Proof.
  intros Ho H'. unfold GetClass in H'. res_inv.
  eapply settled_Prepare; [done| |exact H']. by apply settled_from.
Qed.
#[local] Hint Resolve settled_class_ref settled_GetClass : replay_db.
Lemma replay_DumpHeapClass k : settled k -> replay P (DumpHeapClass sdk c cf k).
Proof.
  intros Hk. unfold DumpHeapClass. replay_tac.
Qed.
#[local] Hint Resolve replay_DumpHeapClass : replay_db.

Lemma replay_AddIdList n arr i : replay P (AddIdList c n arr i).
Proof. revert i. induction n as [|n IH]; intros i; cbn [AddIdList]; replay_tac. Qed.
Lemma words_of_length n w bs :
  (0 < w)%nat -> length bs = (w * n)%nat -> length (words_of n w bs) = n.
Proof.
  intros Hw. revert bs. induction n as [|n IH]; intros bs Hl; cbn [words_of]; [done|].
  destruct bs as [|b bs]; [cbn in Hl; lia|]. cbn [length].
  by rewrite IH; [|rewrite length_drop; lia].
Qed.
Lemma quiet_host_values p w n : (0 < w)%nat -> 0 <= n -> quiet n (host_values c p w n).
Proof.
  intros Hw Hn. unfold host_values. destruct (host_load (host_mem c) p (Z.of_nat w * n)) eqn:E;
    [|by unfold host_load in E; destruct (host_find _ _ _) as [[]|]..].
  cbn. rewrite words_of_length; [lia|done|]. apply host_load_length in E; lia.
Qed.
Lemma replay_host_values p w n :
  (0 < w)%nat -> 0 <= n -> replay P (on_output (AddList w (host_values c p w n) n)).
Proof. intros Hw Hn. by apply dumps_list, quiet_host_values. Qed.
#[local] Hint Resolve replay_AddIdList : replay_db.
Lemma replay_array_values w arr n :
  (0 < w)%nat -> 0 <= n -> replay P (array_values c w arr n).
Proof. intros Hw Hn. unfold array_values. replay_tac. by apply replay_host_values. Qed.
Lemma wrap_nonneg k x : 0 <= k -> 0 <= wrap k x.
Proof. intros Hk. unfold wrap. apply Z.mod_pos_bound. lia. Qed.
#[local] Hint Extern 1 (0 < _)%nat => lia : replay_db.
#[local] Hint Extern 1 (0 <= wrap _ _) => by apply wrap_nonneg : replay_db.
Lemma replay_array_head tag arr n : replay P (array_head tag arr n).
Proof. unfold array_head. replay_tac. Qed.
#[local] Hint Resolve replay_array_values replay_array_head : replay_db.
Lemma replay_DumpHeapArray arr k : settled k -> replay P (DumpHeapArray sdk c cf arr k).
Proof. intros Hk. unfold DumpHeapArray. replay_tac. Qed.

Lemma replay_instance_field_writer object super f :
  replay P (instance_field_writer sdk c object super f).
Proof.
  unfold instance_field_writer. replay_tac. apply replay_at_field. replay_tac.
Qed.
#[local] Hint Resolve replay_instance_field_writer : replay_db.
Lemma replay_instance_fields n object super v :
  replay P (instance_fields sdk c n object super v).
Proof.
  revert super v. induction n as [|n IH]; intros super v; cbn [instance_fields]; replay_tac.
Qed.
Lemma replay_string_array object v : replay P (string_array sdk c object v).
Proof.
  unfold string_array. replay_tac; apply replay_host_values; first [lia|by apply wrap_nonneg].
Qed.
#[local] Hint Resolve replay_instance_fields replay_string_array : replay_db.
Lemma replay_DumpHeapInstanceObject n object k :
  settled k -> replay P (DumpHeapInstanceObject sdk c cf n object k).
Proof.
  intros Hk. unfold DumpHeapInstanceObject.
  replay_tac.
Qed.
#[local] Hint Resolve replay_DumpHeapArray replay_DumpHeapInstanceObject : replay_db.

(** * The dump *)

Lemma replay_CheckHeapSegmentConstraints : replay P CheckHeapSegmentConstraints.
Proof.
  unfold CheckHeapSegmentConstraints.
  apply (replay_view P (fun h => (objects_in_segment h, eo_length (hp_output h))) (fun x =>
    if (kMaxObjectsPerSegment <=? fst x) || (kMaxBytesPerSegment <=? snd x)
    then StartNewHeapDumpSegment else pret tt)).
  { intros h1 h2 Hr. by destruct (dumps_rel _ _ Hr) as (-> & _ & ->). }
  intros [n l]. unfold StartNewHeapDumpSegment. replay_tac.
  by apply (dumps_heap (fun _ => _) (fun _ => _)).
Qed.
Lemma replay_heap_info heap_type : replay P (heap_info heap_type).
Proof.
  unfold heap_info.
  apply (replay_view P current_heap (fun x => if heap_type =? x then pret tt else _)).
  { intros h1 h2 Hr. by destruct (dumps_rel _ _ Hr) as (_ & ? & _). }
  intros heap. replay_tac. apply (dumps_heap (fun _ => _) objects_in_segment).
  intros h1 h2 Hr. by destruct (dumps_rel _ _ Hr) as (_ & _ & ?).
Qed.
#[local] Hint Resolve replay_CheckHeapSegmentConstraints replay_heap_info : replay_db.
Lemma replay_dump_object n object heap_type :
  settled object -> replay P (dump_object sdk c cf n object heap_type).
Proof.
  intros Ho. unfold dump_object. replay_tac.
  apply (dumps_heap current_heap (fun h => u64 (objects_in_segment h + 1))).
  intros h1 h2 Hr. by destruct (dumps_rel _ _ Hr) as (_ & -> & ->).
Qed.
Lemma replay_skipped quick object :
  (quick = true -> forall h1 h2, st_rel h1 h2 -> hp_first h1 = hp_first h2) ->
  replay P (skipped sdk c quick object).
Proof.
  intros Hq. unfold skipped. apply replay_read. intros [|] _; [apply replay_lift|].
  apply (replay_view P (fun h => quick && hp_first h) (fun b => pret b)).
  - intros h1 h2 Hr. destruct quick; [|done]. cbn. by apply Hq.
  - intros b. apply replay_pret.
Qed.
#[local] Hint Resolve replay_dump_object : replay_db.

Context (quick : bool)
  (Hquick : quick = true -> forall h1 h2, st_rel h1 h2 -> hp_first h1 = hp_first h2)
  (fuel : nat) (heap : MemoryRef) (final : HeapCache)
  (HC : P -> complete sdk patch c fuel heap final)
  (Hheap : GetHeap c rt runtime = Ok heap).
#[local] Instance recorded_cache : Recorded HeapCache := recorded_heap final.
Lemma replay_at_hprof {A} (m : prog Hprof A) : replay P m -> replay P (at_hprof m).
Proof. apply replay_zoom_fst. Qed.
#[local] Hint Resolve replay_at_hprof : replay_db.
Lemma replay_DumpHeapObject n object :
  settled object ->
  replay P (DumpHeapObject sdk c cf rt runtime quick fuel n object).
Proof.
  intros Ho. unfold DumpHeapObject.
  apply replay_bind; [by apply replay_at_hprof, replay_skipped|intros skip].
  destruct skip; [apply replay_pret|].
  apply replay_bind; [solve [eauto with replay_db]|intros _].
  rewrite Hheap. apply replay_read. intros heap' [= <-].
  apply replay_bind; [apply replay_zoom_snd; by eapply replay_FindContinuousSpace|].
  intros space. replay_tac.
Qed.
Lemma replay_walk n :
  replay P (ForeachObjects sdk patch c (DumpHeapObject sdk c cf rt runtime quick fuel n) fuel heap).
Proof.
  eapply replay_ForeachObjects; [done|done|]. intros obj Hobj. by apply replay_DumpHeapObject.
Qed.
End Dump.
