(* ===== verification/HprofReplay.v ===== *)
(** The two runs of a heap dump.

    The first run of [Hprof] only counts; [st_rel] relates it to the second run, which writes:
    the records are as long, the heap and the number of objects in the segment are the same,
    and the second run has the tables of strings and classes that the first one ends with.
    Every program of [Hprof] is replayed under this relation: it looks up no string and no
    class that the first run has not seen. *)

From Stdlib Require Import ZArith Lia Bool String.
From stdpp Require Import base list gmap numbers.
From S2P Require Import Prelude Words Host Blocks Notes CoreApi Segments AddressSpace MemRef Elf.
From S2P Require Import Text Mirrors Cxx Heap Dex RuntimeTables Runtimes Methods RefCache.
From S2P Require Import JavaObjects Spaces Replay SpacesProofs Hprof HprofDump.
Open Scope Z_scope.

(** * Output *)

(** The second run had already written [written] bytes, in records of at most [most2] bytes,
    where the first run had seen [most1]. *)
Record Offsets := { written : Z; most1 : Z; most2 : Z }.

Section Output.
Context (off : Offsets).

Definition output_rel (o1 o2 : EndianOutput) : Prop :=
  eo_length o1 = eo_length o2 /\ eo_started o1 = eo_started o2 /\
  eo_buffer o1 = None /\ eo_buffer o2 <> None /\
  eo_sum o2 = u64 (eo_sum o1 + written off) /\
  exists m, eo_max o1 = Z.max (most1 off) m /\ eo_max o2 = Z.max (most2 off) m.
#[export] Instance recorded_output : Recorded EndianOutput.
Proof. by refine {| st_le _ _ := True; st_in _ := True; st_rel := output_rel |}. Defined.

(** A step of the output that the first run does not notice. *)
Lemma replay_step P (p : prog EndianOutput unit) :
  (forall o1 o2, output_rel o1 o2 ->
     snd (p o2) = Fault \/ snd (p o1) = snd (p o2) /\ output_rel (fst (p o1)) (fst (p o2))) ->
  replay P p.
Proof. intros Hp. split; [done|]. intros _ o1 o2 Ho _. by apply Hp. Qed.

Lemma replay_AddList P w values count : quiet count values -> replay P (AddList w values count).
Proof.
  intros Hq. apply replay_step. intros o1 o2 (Hl & Hs & Hb1 & Hb2 & Hsum & Hm).
  unfold AddList. rewrite Hb1. destruct (eo_buffer o2) as [b|]; [|done].
  destruct values as [vs| | |]; [|done|by left|done]. cbn. unfold append.
  destruct (_ <=? _); cbn; [by left|right]. split; [done|].
  split_and!; cbn; rewrite ?Hl; done.
Qed.
Lemma replay_out_UpdateU4 P offset v : replay P (out_UpdateU4 offset v).
Proof.
  apply replay_step. intros o1 o2 (Hl & Hs & Hb1 & Hb2 & Hsum & Hm).
  unfold out_UpdateU4. rewrite Hb1. destruct (eo_buffer o2) as [b|]; [|done].
  destruct (_ <=? _); [|by left]. right. split; [done|]. by split_and!.
Qed.
Section Files.
Context `{Stdio}.
Lemma replay_HandleEndRecord P : replay P HandleEndRecord.
Proof.
  apply replay_step. intros o1 o2 (Hl & Hs & Hb1 & Hb2 & Hsum & Hm).
  unfold HandleEndRecord. rewrite Hb1. destruct (eo_buffer o2) as [b|]; [|done].
  destruct (HandleFlush b (eo_length o2)); [|by left..]. right. split; [done|]. by split_and!.
Qed.
#[local] Hint Resolve replay_AddList replay_out_UpdateU4 replay_HandleEndRecord : replay_db.
Lemma replay_out_EndRecord P : replay P out_EndRecord.
Proof.
  unfold out_EndRecord.
  apply (replay_view P (fun o => (eo_started o, eo_length o)) (fun x =>
    let$ _ := (if fst x : bool then out_UpdateU4 5 (u64 (snd x - 9)) else pret tt) in
    let$ _ := HandleEndRecord in modify _)).
  { intros o1 o2 (Hl & Hs & _). by rewrite Hl, Hs. }
  intros [s l]. replay_tac. apply replay_modify; [done|].
  intros o1 o2 (Hl & Hs & Hb1 & Hb2 & Hsum & m & Hm1 & Hm2). split_and!;
    cbn -[wrap]; try done.
  - rewrite Hsum, Hl. rewrite !wrap_add_l by done. f_equal. lia.
  - exists (Z.max m (eo_length o2)). rewrite Hl, Hm1, Hm2. lia.
Qed.
#[local] Hint Resolve replay_out_EndRecord : replay_db.
Lemma replay_out_StartNewRecord P tag time : replay P (out_StartNewRecord tag time).
Proof.
  unfold out_StartNewRecord, out_U1, out_U4.
  apply (replay_view P eo_length (fun l =>
    let$ _ := (if 0 <? l then out_EndRecord else pret tt) in _)).
  { by intros o1 o2 (? & _). }
  intros l. replay_tac; [by apply replay_AddList..|].
  apply replay_modify; [done|].
  intros o1 o2 (Hl & Hs & Hb1 & Hb2 & Hsum & Hm). by split_and!.
Qed.
End Files.
End Output.

(** * The state of a dump *)

Section Dump.
Context {M : Machine} `{Stdio} `{HashOrder} (sdk patch : Z) (c : CoreApi) (Hc : space_ok c)
  (Hnull : linear_find c 0 (mQuickLoad c) = None) (cf : nat)
  (rt : Runtime_OffsetTable) (runtime : MemoryRef).
(** What the first run ends with. *)
Context (off : Offsets) (all_strings : list (list Z * Z)) (all_classes : list (MemoryRef * Z)).
Local Notation settled := (settled c).

(** The descriptor of every class of the table is a string of the table. *)
Definition described (strings : list (list Z * Z)) (p : MemoryRef * Z) : Prop :=
  settled (fst p) /\
  exists d, PrettyDescriptor sdk c cf (fst p) = Ok d /\ is_Some (find_string d strings).
Definition good_tables (strings : list (list Z * Z)) : list (MemoryRef * Z) -> Prop :=
  Forall (described strings).

Definition hprof_le (h h' : Hprof) : Prop :=
  hp_strings h `prefix_of` hp_strings h' /\ hp_classes h `prefix_of` hp_classes h' /\
  (good_tables (hp_strings h) (hp_classes h) -> good_tables (hp_strings h') (hp_classes h')).
Definition hprof_rel (h1 h2 : Hprof) : Prop :=
  output_rel off (hp_output h1) (hp_output h2) /\ current_heap h1 = current_heap h2 /\
  objects_in_segment h1 = objects_in_segment h2 /\
  hp_strings h2 = all_strings /\ hp_classes h2 = all_classes.
#[export] Instance recorded_hprof : Recorded Hprof.
Proof.
  refine {| st_le := hprof_le;
            st_in h := hp_strings h `prefix_of` all_strings /\ hp_classes h `prefix_of` all_classes;
            st_rel := hprof_rel |}.
  - intros h. by split_and!.
  - intros h1 h2 h3 (A1 & B1 & C1) (A2 & B2 & C2).
    split_and!; [by etrans|by etrans|auto].
  - intros h h' (A & B & _) [A' B']. split; by etrans.
Defined.

Context (P : Prop) (HP : P -> good_tables all_strings all_classes).

Lemma replay_on_output {A} (m : prog EndianOutput A) :
  replay (H := recorded_output off) P m -> replay P (on_output m).
Proof.
  intros Hm. eapply replay_zoom; [exact Hm|..].
  - intros h o _. by split_and!.
  - done.
  - by intros h1 h2 (? & _).
  - intros h1 h2 o1 o2 (_ & Hr) Ho. by split.
Qed.
Lemma replay_UpdateU4 offset v : replay P (UpdateU4 offset v).
Proof. apply replay_on_output, replay_out_UpdateU4. Qed.
Lemma replay_StartNewRecord tag time : replay P (StartNewRecord tag time).
Proof. apply replay_on_output, replay_out_StartNewRecord. Qed.
Lemma replay_EndRecord : replay P EndRecord.
Proof. apply replay_on_output, replay_out_EndRecord. Qed.
(** The length of the record may be used. *)
Lemma replay_Length {A} (f : Z -> prog Hprof A) :
  (forall n, replay P (f n)) -> replay P (let$ n := Length in f n).
Proof.
  intros Hf. apply (replay_view P (fun h => eo_length (hp_output h)) f); [|done].
  by intros h1 h2 ((? & _) & _).
Qed.
Lemma replay_sized {A} (m : prog Hprof A) : replay P m -> replay P (sized m).
Proof.
  intros Hm. unfold sized. apply replay_Length. intros start.
  apply replay_bind; [by apply replay_on_output, replay_AddList|intros _].
  apply replay_bind; [done|intros a]. apply replay_Length. intros len.
  apply replay_bind; [apply replay_UpdateU4|intros _; apply replay_pret].
Qed.
(** What changes neither tables nor output. *)
Lemma replay_with_heap (heap objects : Hprof -> Z) :
  (forall h1 h2, hprof_rel h1 h2 -> heap h1 = heap h2 /\ objects h1 = objects h2) ->
  replay P (modify (fun h => with_heap (heap h) (objects h) h)).
Proof.
  intros He. apply replay_modify; [by intros h; split_and!|].
  intros h1 h2 Hr. destruct (He _ _ Hr) as [-> ->]. destruct Hr as (? & _ & _ & ? & ?).
  by split_and!.
Qed.

(** * Tables *)

Lemma find_string_app s l l' id :
  find_string s l = Some id -> find_string s (l ++ l') = Some id.
Proof.
  unfold find_string. induction l as [|p l IH]; [done|]. cbn. by destruct (bool_decide _).
Qed.
Lemma find_string_prefix s l l' id :
  l `prefix_of` l' -> find_string s l = Some id -> find_string s l' = Some id.
Proof. intros [k ->]. apply find_string_app. Qed.
Lemma find_string_new s l id :
  find_string s l = None -> find_string s (l ++ [(s, id)]) = Some id.
Proof.
  unfold find_string. induction l as [|p l IH]; cbn; [by rewrite bool_decide_eq_true_2|].
  by destruct (bool_decide _).
Qed.
Lemma described_app l l' p : l `prefix_of` l' -> described l p -> described l' p.
Proof.
  intros Hl (Hs & d & Hd & id & Hid). split; [done|]. exists d. split; [done|].
  exists id. by eapply find_string_prefix.
Qed.
Lemma replay_LookupStringId s : replay P (LookupStringId s).
Proof.
  unfold LookupStringId. split.
  - intros h. unfold pbind, get. destruct (find_string s (hp_strings h)); cbn; [by split_and!|].
    split_and!; cbn; [by eexists|done|]. intros Hg. eapply List.Forall_impl; [|exact Hg].
    intros p. apply described_app. by eexists.
  - intros HPP h1 h2 Hr. unfold replay_at, pbind, get. cbn.
    destruct Hr as (Ho & Hh & Hb & Hs & Hcl). rewrite Hs.
    destruct (find_string s (hp_strings h1)) as [id|] eqn:E; cbn; intros [Hin _].
    + rewrite (find_string_prefix _ _ _ _ Hin E). right. by split_and!.
    + rewrite (find_string_prefix _ _ _ _ Hin (find_string_new _ _ _ E)).
      right. by split_and!.
Qed.
#[local] Hint Resolve replay_LookupStringId : replay_db.
Lemma replay_LookupClassNameId k : replay P (LookupClassNameId sdk c cf k).
Proof. unfold LookupClassNameId. replay_tac. Qed.
#[local] Hint Resolve replay_LookupClassNameId : replay_db.
Lemma LookupClassNameId_run k h :
  match PrettyDescriptor sdk c cf k with
  | Ok d => exists h' id, LookupClassNameId sdk c cf k h = (h', Ok id) /\
      (h' = h \/ h' = add_string d h) /\ is_Some (find_string d (hp_strings h'))
  | Throw p => LookupClassNameId sdk c cf k h = (h, Throw p)
  | Fault => LookupClassNameId sdk c cf k h = (h, Fault)
  | OutOfFuel => LookupClassNameId sdk c cf k h = (h, OutOfFuel)
  end.
Proof.
  unfold LookupClassNameId, LookupStringId, pbind, lift, get.
  destruct (PrettyDescriptor sdk c cf k) as [d| | |]; [|done..].
  destruct (find_string d (hp_strings h)) as [i|] eqn:Ef; cbn; do 2 eexists.
  - split_and!; [done|by left|]. by rewrite Ef; eexists.
  - split_and!; [done|by right|]. exists (next_string_id h). by apply find_string_new.
Qed.

Lemma find_class_app k l l' sn :
  find_class k l = Some sn -> find_class k (l ++ l') = Some sn.
Proof. unfold find_class. induction l as [|p l IH]; [done|]. cbn. by destruct (_ =? _). Qed.
Lemma find_class_prefix k l l' sn :
  l `prefix_of` l' -> find_class k l = Some sn -> find_class k l' = Some sn.
Proof. intros [x ->]. apply find_class_app. Qed.
Lemma find_class_new k l sn :
  find_class k l = None -> find_class k (l ++ [(k, sn)]) = Some sn.
Proof.
  unfold find_class. induction l as [|p l IH]; cbn; [by rewrite Z.eqb_refl|].
  by destruct (_ =? _).
Qed.
Lemma find_class_in k l sn :
  find_class k l = Some sn -> exists p, p ∈ l /\ vaddr (fst p) = vaddr k.
Proof.
  unfold find_class. intros E. destruct (find _ l) as [p|] eqn:Ef; [|done].
  apply find_some in Ef as [Hin Hv]. exists p. rewrite list_elem_of_In. by to_prop.
Qed.

Lemma enter_class_run k h :
  enter_class sdk c cf k h =
  (let '(h', r) := LookupClassNameId sdk c cf k (take_serial h) in
   match r with
   | Ok _ => (add_class k (next_class_serial_number h) h', Ok tt)
   | Throw p => (h', Throw p) | Fault => (h', Fault) | OutOfFuel => (h', OutOfFuel)
   end).
Proof.
  unfold enter_class, pbind, get, modify. cbn.
  by destruct (LookupClassNameId sdk c cf k (take_serial h)) as [h' []].
Qed.
Lemma enter_class_grows k h : settled k -> hprof_le h (fst (enter_class sdk c cf k h)).
Proof.
  intros Hk. rewrite enter_class_run.
  pose proof (rp_grows _ _ (replay_LookupClassNameId k) (take_serial h)) as (Hs & Hcl & Hg).
  pose proof (LookupClassNameId_run k (take_serial h)) as Hrun.
  destruct (PrettyDescriptor sdk c cf k) as [d| | |] eqn:Ed.
  - destruct Hrun as (h' & id & E & _ & Hd). rewrite E in *. cbn in *.
    split_and!; cbn; [done|by apply prefix_app_r|]. intros Hgood.
    apply Forall_app. split; [by apply Hg|]. apply Forall_singleton. split; [done|eauto].
  - rewrite Hrun in *. by split_and!.
  - rewrite Hrun in *. by split_and!.
  - rewrite Hrun in *. by split_and!.
Qed.
(** A class of the final table has a descriptor, by whatever reference it is looked up. *)
Lemma class_has_name k sn :
  P -> settled k -> find_class k all_classes = Some sn ->
  exists d, PrettyDescriptor sdk c cf k = Ok d.
Proof.
  intros HPP Hk E. apply find_class_in in E as (p & Hin & Hv).
  pose proof (HP HPP) as Hg. unfold good_tables in Hg. rewrite Forall_forall in Hg.
  destruct (Hg p) as (Hs & d & Hd & _); [by apply list_elem_of_In|].
  exists d. rewrite <- Hd. by apply same_PrettyDescriptor.
Qed.
Lemma replay_LookupClassId k : settled k -> replay P (LookupClassId sdk c cf k).
Proof.
  intros Hk. unfold LookupClassId. split.
  - intros h. unfold pbind at 1, get. cbn -[enter_class]. unfold pbind.
    destruct (nz (vaddr k)); [|by split_and!].
    destruct (find_class k (hp_classes h)); [by split_and!|].
    pose proof (enter_class_grows k h Hk) as Hg.
    by destruct (enter_class sdk c cf k h) as [h' []].
  - intros HPP h1 h2 Hr. unfold replay_at, pbind, get. cbn -[enter_class].
    destruct (nz (vaddr k)); [|by right]. pose proof Hr as (Ho & Hh & Hb & Hs & Hcl).
    rewrite Hcl. destruct (find_class k (hp_classes h1)) as [sn|] eqn:E1; cbn -[enter_class].
    + intros [_ Hin]. rewrite (find_class_prefix _ _ _ _ Hin E1). by right.
    + rewrite enter_class_run.
      pose proof (LookupClassNameId_run k (take_serial h1)) as Hn1.
      pose proof (LookupClassNameId_run k (take_serial h2)) as Hn2.
      destruct (PrettyDescriptor sdk c cf k) as [d| | |] eqn:Ed;
        [|destruct (find_class k all_classes) as [sn|] eqn:E2;
          [by destruct (class_has_name k sn HPP Hk E2); congruence|];
          rewrite ?enter_class_run, Hn1, Hn2; cbn; intros _; right; by split_and!..].
      destruct Hn1 as (h1' & id1 & -> & Hk1 & _). cbn. intros [_ Hin]. cbn in Hin.
      assert (Hcl1 : hp_classes h1' = hp_classes h1) by by destruct Hk1 as [->| ->].
      rewrite (find_class_prefix k _ _ (next_class_serial_number h1) Hin)
        by by rewrite Hcl1; apply find_class_new.
      right. split; [done|]. by destruct Hk1 as [->| ->]; split_and!.
Qed.

Lemma replay_count_object : replay P (modify count_object).
Proof.
  apply replay_modify; [by intros h; split_and!|].
  intros h1 h2 (? & ? & ? & ? & ?). by split_and!.
Qed.
#[export] Instance dumps_twice : Dumps sdk c cf P.
Proof.
  split.
  - intros w values count Hq. by apply replay_on_output, replay_AddList.
  - apply replay_StartNewRecord.
  - intros A m. apply replay_sized.
  - apply replay_LookupStringId.
  - apply replay_LookupClassId.
  - by intros h1 h2 ((? & _) & ? & ? & _).
  - apply replay_with_heap.
  - apply replay_count_object.
Qed.

Context (fuel : nat) (heap : MemoryRef) (final : HeapCache)
  (HC : P -> complete sdk patch c fuel heap final)
  (Hheap : GetHeap c rt runtime = Ok heap).
#[local] Instance recorded_cache : Recorded HeapCache := recorded_heap final.
Lemma replay_ProcessBody n : replay P (ProcessBody sdk patch c cf rt runtime false fuel n).
Proof.
  unfold ProcessBody, at_hprof.
  apply replay_bind; [apply replay_zoom_fst, replay_StartNewRecord|intros _].
  rewrite Hheap. apply replay_read. intros heap' [= <-].
  apply replay_bind; [eapply replay_walk; try done; apply dumps_twice|intros _].
  apply replay_bind; [apply replay_zoom_fst, replay_StartNewRecord|intros _].
  apply replay_zoom_fst, replay_EndRecord.
Qed.
End Dump.
