(* ===== verification/HprofFile.v ===== *)
(** The file a heap dump writes ([Hprof]): the format, a parser for it, and the theorem that
    the parser reads back the records of the dump.

    [framed file pending o] is the invariant of an output: the bytes of the closed records, and
    the record that is being written, whose length is patched when it is closed. *)

From Stdlib Require Import ZArith Lia Bool String.
From stdpp Require Import base list gmap numbers.
From S2P Require Import Prelude Words Host Blocks Notes CoreApi Segments AddressSpace MemRef Elf.
From S2P Require Import Text Mirrors Cxx Heap Dex RuntimeTables Runtimes Methods RefCache.
From S2P Require Import JavaObjects Spaces Replay SpacesProofs Hprof HprofDump.
Open Scope Z_scope.

(** * The format *)

(** A record: a tag, a time, and a body behind its length. *)
Record HprofRecord := { hr_tag : Z; hr_time : Z; hr_body : list Z }.
Definition encode (r : HprofRecord) : list Z :=
  big_endian 1 (u8 (hr_tag r)) ++ big_endian 4 (u32 (hr_time r)) ++
  big_endian 4 (u32 (Z.of_nat (length (hr_body r)))) ++ hr_body r.
Definition encode_all (rs : list HprofRecord) : list Z := flat_map encode rs.
(** The version, the size of an identifier, and a time of two words. *)
Definition file_header : list Z :=
  chars "JAVA PROFILE 1.0.3" ++ [0] ++ big_endian 4 4 ++ big_endian 4 0 ++ big_endian 4 0.

Definition be_value (bs : list Z) : Z := foldl (fun v b => v * 256 + b) 0 bs.
Definition parse_record (bs : list Z) : option (HprofRecord * list Z) :=
  let len := Z.to_nat (be_value (take 4 (drop 5 bs))) in
  if (length bs <? 9 + len)%nat then None
  else Some ({| hr_tag := be_value (take 1 bs); hr_time := be_value (take 4 (drop 1 bs));
                hr_body := take len (drop 9 bs) |}, drop (9 + len) bs).
Fixpoint parse_records (fuel : nat) (bs : list Z) : option (list HprofRecord) :=
  match bs, fuel with
  | [], _ => Some []
  | _, O => None
  | _, S fuel =>
      match parse_record bs with
      | Some (r, rest) => (fun rs => r :: rs) <$> parse_records fuel rest
      | None => None
      end
  end.
Definition parse_file (bs : list Z) : option (list HprofRecord) :=
  if bool_decide (take 31 bs = file_header) then parse_records (length bs) (drop 31 bs) else None.

Definition valid_record (r : HprofRecord) : Prop :=
  0 <= hr_tag r < 2 ^ 8 /\ 0 <= hr_time r < 2 ^ 32 /\ Z.of_nat (length (hr_body r)) < 2 ^ 32.

Lemma big_endian_length n v : length (big_endian n v) = n.
Proof. induction n; cbn; congruence. Qed.
Lemma values_length w vs : length (flat_map (big_endian w) vs) = (length vs * w)%nat.
Proof. induction vs as [|v vs IH]; [done|]. cbn. by rewrite length_app, big_endian_length, IH. Qed.
Lemma be_value_cons b bs : be_value (b :: bs) = b * 256 ^ Z.of_nat (length bs) + be_value bs.
Proof.
  unfold be_value. cbn [foldl].
  assert (H : forall l x, foldl (fun v b : Z => v * 256 + b) x l =
                x * 256 ^ Z.of_nat (length l) + foldl (fun v b : Z => v * 256 + b) 0 l).
  { induction l as [|y l IH]; intros x; cbn [foldl length]; [lia|].
    rewrite (IH (x * 256 + y)), (IH (0 * 256 + y)), Nat2Z.inj_succ, Z.pow_succ_r by lia. ring. }
  rewrite H. ring.
Qed.
Lemma be_value_big_endian n v : be_value (big_endian n v) = wrap (8 * Z.of_nat n) v.
Proof.
  induction n as [|n IH]; [cbn; unfold wrap; by rewrite Z.mod_1_r|].
  cbn [big_endian]. rewrite be_value_cons, IH, big_endian_length.
  change 0xFF with (Z.ones 8). rewrite Z.land_ones, Z.shiftr_div_pow2 by lia. unfold wrap.
  replace (8 * Z.of_nat (S n)) with (8 * Z.of_nat n + 8) by lia.
  rewrite Z.pow_add_r, Z.rem_mul_r by lia.
  replace (256 ^ Z.of_nat n) with (2 ^ (8 * Z.of_nat n)) by (by rewrite Z.pow_mul_r by lia). lia.
Qed.
Lemma be_value_u32 v : be_value (big_endian 4 (u32 v)) = u32 v.
Proof. rewrite be_value_big_endian. by apply wrap_wrap. Qed.

Lemma encode_length r : length (encode r) = (9 + length (hr_body r))%nat.
Proof. unfold encode. rewrite !length_app, !big_endian_length. lia. Qed.
Lemma parse_encode r rest : valid_record r -> parse_record (encode r ++ rest) = Some (r, rest).
Proof.
  intros (Ht & Hm & Hb). unfold parse_record, encode.
  set (b1 := big_endian 1 _). set (b2 := big_endian 4 (u32 (hr_time r))).
  set (b3 := big_endian 4 _). set (body := hr_body r).
  assert (L1 : length b1 = 1%nat) by apply big_endian_length.
  assert (L2 : length b2 = 4%nat) by apply big_endian_length.
  assert (L3 : length b3 = 4%nat) by apply big_endian_length.
  rewrite <- !app_assoc.
  assert (D1 : drop 1 (b1 ++ b2 ++ b3 ++ body ++ rest) = b2 ++ b3 ++ body ++ rest)
    by by rewrite drop_app_length'.
  assert (D5 : drop 5 (b1 ++ b2 ++ b3 ++ body ++ rest) = b3 ++ body ++ rest)
    by (change 5%nat with (1 + 4)%nat; rewrite <- drop_drop, D1; by rewrite drop_app_length').
  assert (D9 : drop 9 (b1 ++ b2 ++ b3 ++ body ++ rest) = body ++ rest)
    by (change 9%nat with (5 + 4)%nat; rewrite <- drop_drop, D5; by rewrite drop_app_length').
  rewrite D1, D5, D9, !take_app_length' by done.
  assert (V3 : be_value b3 = Z.of_nat (length body))
    by (unfold b3; rewrite be_value_u32; apply wrap_small; fold body in Hb; fold body; lia).
  rewrite V3, Nat2Z.id.
  rewrite (proj2 (Nat.ltb_ge _ _)) by (rewrite !length_app; lia).
  rewrite take_app_length' by done. rewrite <- drop_drop, D9, drop_app_length' by done.
  unfold b1, b2. rewrite be_value_u32, be_value_big_endian. cbn [Z.of_nat].
  rewrite (wrap_wrap 8), !wrap_small by lia. by destruct r.
Qed.
Lemma parse_encode_all rs fuel :
  Forall valid_record rs -> (length (encode_all rs) <= fuel)%nat ->
  parse_records fuel (encode_all rs) = Some rs.
Proof.
  intros Hv. revert fuel. induction Hv as [|r rs Hr _ IH]; intros fuel Hf; [by destruct fuel|].
  cbn [encode_all flat_map] in *. fold (encode_all rs) in *.
  pose proof (encode_length r) as Hl. rewrite length_app in Hf.
  destruct fuel as [|fuel]; [lia|]. cbn [parse_records].
  destruct (encode r ++ encode_all rs) as [|b bs] eqn:E.
  { apply (f_equal length) in E. rewrite length_app in E. cbn in E. lia. }
  rewrite <- E, parse_encode by done. by rewrite IH by lia.
Qed.
Lemma encode_all_app rs rs' : encode_all (rs ++ rs') = encode_all rs ++ encode_all rs'.
Proof. apply flat_map_app. Qed.
Lemma record_count rs : (length rs <= length (encode_all rs))%nat.
Proof.
  induction rs as [|x rs IH]; [done|]. cbn [encode_all flat_map length]. fold (encode_all rs).
  rewrite length_app, encode_length. lia.
Qed.
Lemma record_in_file r rs : In r rs -> (length (hr_body r) <= length (encode_all rs))%nat.
Proof.
  induction rs as [|x rs IH]; [done|]. cbn [encode_all flat_map]. fold (encode_all rs).
  rewrite length_app, encode_length. intros [->|Hin]; [lia|]. specialize (IH Hin). lia.
Qed.

(** * The output *)

(** What has been written since the last record was closed. *)
Inductive Pending := Raw (bs : list Z) | Open (tag time : Z) (body : list Z).
Definition pending_bytes (p : Pending) : list Z :=
  match p with
  | Raw bs => bs
  | Open tag time body =>
      big_endian 1 (u8 tag) ++ big_endian 4 (u32 time) ++ big_endian 4 (u32 0xdeaddead) ++ body
  end.
Definition extend (p : Pending) (bs : list Z) : Pending :=
  match p with
  | Raw l => Raw (l ++ bs)
  | Open tag time body => Open tag time (body ++ bs)
  end.
(** What closing it writes. *)
Definition sealed (p : Pending) : list Z :=
  match p with
  | Raw bs => bs
  | Open tag time body => encode {| hr_tag := tag; hr_time := time; hr_body := body |}
  end.
Definition is_open (p : Pending) : bool := match p with Open _ _ _ => true | Raw _ => false end.

(** The output has [file] behind it, unless a write failed, and is writing [p]. *)
Record framed (file : list Z) (p : Pending) (o : EndianOutput) : Prop := {
  fr_buffer : exists b, eo_buffer o = Some b /\ fb_buffer b = pending_bytes p /\
                        (fb_errors b = false -> fb_file b = file);
  fr_length : eo_length o = Z.of_nat (length (pending_bytes p));
  fr_bound : eo_length o < 2 ^ 63;
  fr_started : eo_started o = is_open p }.

Lemma extend_bytes p bs : pending_bytes (extend p bs) = pending_bytes p ++ bs.
Proof. destruct p; cbn [extend pending_bytes]; by rewrite <- ?app_assoc. Qed.
Lemma extend_open p bs : is_open (extend p bs) = is_open p.
Proof. by destruct p. Qed.
Lemma open_length tag time body :
  length (pending_bytes (Open tag time body)) = (9 + length body)%nat.
Proof. cbn [pending_bytes]. rewrite !length_app, !big_endian_length. lia. Qed.

(** Four bytes in the middle of a list are overwritten. *)
Lemma overwrite (a b d bs : list Z) :
  length b = length bs ->
  take (length a) (a ++ b ++ d) ++ bs ++ drop (length a + length bs) (a ++ b ++ d) = a ++ bs ++ d.
Proof.
  intros Hl. rewrite take_app_length' by done. rewrite <- drop_drop, drop_app_length' by done.
  by rewrite drop_app_length' by done.
Qed.
Lemma overwrite_length n (l bs : list Z) :
  (n + length bs <= length l)%nat ->
  length (take n l ++ bs ++ drop (n + length bs) l) = length l.
Proof. intros Hn. rewrite !length_app, length_take, length_drop. lia. Qed.

Lemma framed_AddList w values count file p o :
  quiet count values -> framed file p o ->
  match AddList w values count o with
  | (o', Ok _) => exists vs, values = Ok vs /\ framed file (extend p (flat_map (big_endian w) vs)) o'
  | (o', r) => o' = o /\ r = Fault
  end.
Proof.
  intros Hq [(b & Hb & Hbuf & Hf) Hl Hbd Hs]. unfold AddList. rewrite Hb.
  destruct values as [vs| | |]; [|done..]. cbn in Hq. cbn [rbind]. unfold append.
  set (bs := flat_map (big_endian w) vs).
  assert (Hbs : Z.of_nat (length bs) = count * Z.of_nat w)
    by (unfold bs; rewrite values_length, <- Hq; lia).
  destruct (Z.leb_spec (2 ^ 63) (Z.of_nat (length (fb_buffer b ++ bs)))) as [|Hlt]; [done|].
  rewrite Hbuf in *. exists vs. split; [done|]. rewrite length_app in Hlt.
  assert (E : u64 (eo_length o + u64 (count * Z.of_nat w))
              = Z.of_nat (length (pending_bytes p ++ bs))).
  { rewrite <- Hbs, Hl, length_app, (wrap_small 64 (Z.of_nat _)), wrap_small by lia. lia. }
  split; cbn [eo_length eo_started eo_buffer with_length]; fold bs.
  - eexists. split; [done|]. by rewrite extend_bytes.
  - by rewrite extend_bytes.
  - rewrite E, length_app. lia.
  - by rewrite extend_open.
Qed.
Lemma framed_add w v file p o :
  framed file p o -> eo_length o + Z.of_nat w < 2 ^ 63 ->
  exists o', AddList w (Ok [v]) 1 o = (o', Ok tt) /\ framed file (extend p (big_endian w v)) o'.
Proof.
  intros Ho Hl. pose proof (framed_AddList w (Ok [v]) 1 file p o eq_refl Ho) as H.
  destruct (AddList w (Ok [v]) 1 o) as [o' r] eqn:E. destruct r as [[]| | |].
  - destruct H as (vs & [= <-] & H). cbn in H. rewrite app_nil_r in H. eauto.
  - by destruct H.
  - exfalso. destruct Ho as [(b & Hb & Hbuf & _) Ho1 _ _]. unfold AddList in E. rewrite Hb in E.
    cbn [rbind] in E. unfold append in E.
    destruct (Z.leb_spec (2 ^ 63) (Z.of_nat (length (fb_buffer b ++ flat_map (big_endian w) [v]))))
      as [Hge|]; [|by simplify_eq].
    rewrite length_app, values_length, Hbuf in Hge. cbn in Hge. lia.
  - by destruct H.
Qed.
Lemma framed_UpdateU4 offset v file tag time body o :
  9 <= offset -> framed file (Open tag time body) o ->
  match out_UpdateU4 offset v o with
  | (o', Ok _) => offset + 4 <= eo_length o /\
      framed file (Open tag time (take (Z.to_nat (offset - 9)) body ++ big_endian 4 (u32 v) ++
                                  drop (Z.to_nat (offset - 9) + 4) body)) o'
  | (o', r) => o' = o /\ r = Fault
  end.
Proof.
  intros Hoff [(b & Hb & Hbuf & Hf) Hl Hbd Hs]. unfold out_UpdateU4. rewrite Hb.
  destruct (Z.leb_spec (offset + 4) (Z.of_nat (length (fb_buffer b)))) as [Hin|]; [|done].
  rewrite Hbuf in Hin. split; [lia|]. rewrite open_length in *.
  split; cbn [eo_length eo_started eo_buffer with_length]; [|..|done].
  - eexists. split; [done|]. split; [|done]. cbn [fb_buffer]. rewrite Hbuf. cbn [pending_bytes].
    set (h := big_endian 1 (u8 tag) ++ big_endian 4 (u32 time) ++ big_endian 4 (u32 0xdeaddead)).
    assert (Hh : length h = 9%nat) by (unfold h; rewrite !length_app, !big_endian_length; lia).
    replace (_ ++ _ ++ _ ++ body) with (h ++ body) by (unfold h; by rewrite <- !app_assoc).
    replace (Z.to_nat offset) with (9 + Z.to_nat (offset - 9))%nat by lia.
    rewrite <- Nat.add_assoc, <- Hh, take_app_add, drop_app_add.
    unfold h. by rewrite <- !app_assoc.
  - rewrite open_length. pose proof (overwrite_length (Z.to_nat (offset - 9)) body
      (big_endian 4 (u32 v))) as E. rewrite big_endian_length in E. rewrite E by lia. done.
  - done.
Qed.

Section Files.
Context `{StdioLaws}.

Lemma framed_HandleEndRecord (file file' : list Z) o b :
  eo_buffer o = Some b -> Z.of_nat (length (fb_buffer b)) = eo_length o ->
  (fb_errors b = false -> fb_file b = file) ->
  exists b', HandleEndRecord o = (with_length (eo_length o) (Some b') o, Ok tt) /\
    fb_buffer b' = [] /\ (fb_errors b' = false -> fb_file b' = file ++ fb_buffer b).
Proof.
  intros Hb Hl Hf. unfold HandleEndRecord, HandleFlush. rewrite Hb, Hl, Z.ltb_irrefl.
  destruct (fb_errors b) eqn:He.
  - eexists. split; [done|]. split; [done|]. cbn. by rewrite He.
  - destruct (fwrite _ _) as [file1 ok] eqn:E. eexists. split; [done|]. split; [done|]. cbn.
    destruct ok; [|done]. intros _. apply fwrite_all in E as [-> _].
    by rewrite Hf, firstn_all2 by (done || lia).
Qed.
Lemma framed_EndRecord file p o :
  framed file p o ->
  exists o', out_EndRecord o = (o', Ok tt) /\ framed (file ++ sealed p) (Raw []) o'.
Proof.
  intros Ho. unfold out_EndRecord, pbind, get.
  set (patch := if eo_started o then _ else _).
  assert (Hp : exists o1 b, patch o = (o1, Ok tt) /\ eo_buffer o1 = Some b /\
            fb_buffer b = sealed p /\ eo_length o1 = Z.of_nat (length (sealed p)) /\
            (fb_errors b = false -> fb_file b = file)).
  { destruct Ho as [(b & Hb & Hbuf & Hf) Hl Hbd Hs]. unfold patch. rewrite Hs.
    destruct p as [bs|tag time body]; cbn [is_open]; [by exists o, b|].
    unfold out_UpdateU4. rewrite Hb, Hbuf. rewrite open_length in *.
    rewrite (proj2 (Z.leb_le _ _)) by lia. do 2 eexists. split; [done|]. split; [done|].
    cbn [fb_buffer eo_length with_length sealed fb_errors fb_file].
    rewrite encode_length. split; [|by split].
    unfold encode. cbn [hr_tag hr_time hr_body pending_bytes].
    rewrite (wrap_small 64), Hl by lia.
    replace (Z.of_nat (9 + length body) - 9) with (Z.of_nat (length body)) by lia.
    pose proof (overwrite (big_endian 1 (u8 tag) ++ big_endian 4 (u32 time))
      (big_endian 4 (u32 0xdeaddead)) body (big_endian 4 (u32 (Z.of_nat (length body)))) eq_refl)
      as E. rewrite <- !app_assoc in E. exact E. }
  destruct Hp as (o1 & b & -> & Hb & Hbuf & Hl & Hf).
  destruct (framed_HandleEndRecord file file o1 b Hb) as (b' & -> & Hb' & Hf');
    [by rewrite Hbuf|done|].
  eexists. split; [done|]. split; cbn; [|done..].
  exists b'. split; [done|]. split; [done|]. intros He. by rewrite Hf', Hbuf.
Qed.
Lemma framed_StartNewRecord tag time file p o :
  framed file p o ->
  exists o', out_StartNewRecord tag time o = (o', Ok tt) /\
             framed (file ++ sealed p) (Open tag time []) o'.
Proof.
  intros Ho. unfold out_StartNewRecord. unfold pbind at 1, get. cbn -[pbind].
  assert (He : exists o1, (if 0 <? eo_length o then out_EndRecord else pret tt) o = (o1, Ok tt) /\
            framed (file ++ sealed p) (Raw []) o1).
  { destruct (Z.ltb_spec 0 (eo_length o)) as [|Hz]; [by apply framed_EndRecord|].
    exists o. split; [done|]. destruct p as [bs|? ? body].
    - assert (bs = []) as ->; [|by rewrite app_nil_r]. destruct Ho as [_ Hl _ _].
      cbn in Hl. destruct bs; [done|cbn in Hl; lia].
    - destruct Ho as [_ Hl _ _]. rewrite open_length in Hl. lia. }
  destruct He as (o1 & E1 & H1). unfold pbind at 1. rewrite E1.
  destruct (framed_add 1 (u8 tag) _ _ o1 H1) as (o2 & E2 & H2).
  { destruct H1 as [_ -> _ _]. cbn. lia. }
  unfold pbind at 1, out_U1. rewrite E2.
  destruct (framed_add 4 (u32 time) _ _ o2 H2) as (o3 & E3 & H3).
  { destruct H2 as [_ -> _ _]. cbn. lia. }
  unfold pbind at 1, out_U4. rewrite E3.
  destruct (framed_add 4 (u32 0xdeaddead) _ _ o3 H3) as (o4 & E4 & H4).
  { destruct H3 as [_ -> _ _]. cbn. lia. }
  unfold pbind at 1. rewrite E4. eexists. split; [done|].
  destruct H4 as [Hb Hl Hbd Hs]. split; [|..|done]; cbn [eo_length eo_buffer set_started];
    cbn [extend app pending_bytes] in *; rewrite ?app_nil_r; rewrite <- ?app_assoc in *; done.
Qed.
End Files.

(** * The dump *)

Definition segment_record (body : list Z) : HprofRecord :=
  {| hr_tag := HPROF_TAG_HEAP_DUMP_SEGMENT; hr_time := kHprofTime; hr_body := body |}.
(** Behind [file] there are heap dump segments, the last one open. *)
Definition in_segments (file : list Z) (o : EndianOutput) : Prop :=
  exists bodies body,
    framed (file ++ encode_all (segment_record <$> bodies))
           (Open HPROF_TAG_HEAP_DUMP_SEGMENT kHprofTime body) o.

Lemma in_segments_AddList w values count file o :
  quiet count values -> in_segments file o -> in_segments file (fst (AddList w values count o)).
Proof.
  intros Hq (bodies & body & Ho). pose proof (framed_AddList w values count _ _ o Hq Ho) as H.
  destruct (AddList w values count o) as [o' [[]| | |]]; cbn.
  - destruct H as (vs & _ & H). by do 2 eexists.
  - destruct H as [-> _]. by do 2 eexists.
  - destruct H as [-> _]. by do 2 eexists.
  - destruct H as [-> _]. by do 2 eexists.
Qed.
Lemma in_segments_UpdateU4 offset v file o :
  9 <= offset -> in_segments file o -> in_segments file (fst (out_UpdateU4 offset v o)).
Proof.
  intros Hoff (bodies & body & Ho).
  pose proof (framed_UpdateU4 offset v _ _ _ body o Hoff Ho) as H.
  destruct (out_UpdateU4 offset v o) as [o' [[]| | |]]; cbn.
  - destruct H as (_ & H). by do 2 eexists.
  - destruct H as [-> _]. by do 2 eexists.
  - destruct H as [-> _]. by do 2 eexists.
  - destruct H as [-> _]. by do 2 eexists.
Qed.
Lemma in_segments_length file o : in_segments file o -> 9 <= eo_length o.
Proof. intros (bodies & body & [_ Hl _ _]). rewrite open_length in Hl. lia. Qed.

Section Dump.
Context {M : Machine} {Io : Stdio} {Laws : StdioLaws} {Order : HashOrder} (sdk patch : Z)
  (c : CoreApi) (Hc : space_ok c)
  (cf : nat) (rt : Runtime_OffsetTable) (runtime : MemoryRef).

Lemma in_segments_start file o :
  in_segments file o ->
  in_segments file (fst (out_StartNewRecord HPROF_TAG_HEAP_DUMP_SEGMENT kHprofTime o)).
Proof.
  intros (bodies & body & Ho).
  destruct (framed_StartNewRecord HPROF_TAG_HEAP_DUMP_SEGMENT kHprofTime _ _ o Ho)
    as (o' & -> & Ho').
  exists (bodies ++ [body]), []. rewrite fmap_app, encode_all_app, app_assoc.
  cbn [fmap list_fmap encode_all flat_map]. by rewrite app_nil_r.
Qed.

(** The strings are numbered as they come, each once. *)
Definition numbered_strings (l : list (list Z * Z)) : Prop :=
  forall i p, l !! i = Some p -> snd p = u32 (0x400000 + Z.of_nat i).
Record numbered (h : Hprof) : Prop := {
  nb_once : NoDup (fst <$> hp_strings h);
  nb_ids : numbered_strings (hp_strings h);
  nb_next : next_string_id h = u32 (0x400000 + Z.of_nat (length (hp_strings h))) }.
Lemma same_numbered h h' :
  hp_strings h' = hp_strings h -> next_string_id h' = next_string_id h ->
  numbered h -> numbered h'.
Proof. intros Es En [Ho Hi Hn]. split; by rewrite ?En, ?Es. Qed.
Lemma find_string_None s l : find_string s l = None -> s ∉ (fst <$> l).
Proof.
  unfold find_string. intros E Hin. apply list_elem_of_fmap in Hin as (p & -> & Hin).
  destruct (find _ l) eqn:Ef; [done|]. apply list_elem_of_In in Hin.
  pose proof (List.find_none _ _ Ef _ Hin) as Hn. cbn in Hn. by rewrite bool_decide_eq_true_2 in Hn.
Qed.
Lemma numbered_add s h :
  find_string s (hp_strings h) = None -> numbered h -> numbered (add_string s h).
Proof.
  intros Hs [Ho Hi Hn]. split; cbn -[wrap].
  - rewrite fmap_app. apply list.NoDup_app. split_and!; [done| |apply list.NoDup_singleton].
    intros x Hx ->%list_elem_of_singleton. by apply find_string_None in Hs.
  - intros i p. rewrite lookup_app_Some. intros [Hp|[Hle Hp]]; [by apply Hi|].
    apply list_lookup_singleton_Some in Hp as [Hz <-]. cbn -[wrap]. rewrite Hn. f_equal. lia.
  - rewrite Hn, length_app, wrap_add_l by done. cbn. f_equal. lia.
Qed.
(** So no two strings have the same number, as long as the numbers suffice. *)
Lemma numbered_ids l p q :
  numbered_strings l -> Z.of_nat (length l) <= 2 ^ 32 ->
  p ∈ l -> q ∈ l -> snd p = snd q -> p = q.
Proof.
  intros Hi Hl (i & Hp)%list_elem_of_lookup (j & Hq)%list_elem_of_lookup E.
  rewrite (Hi _ _ Hp), (Hi _ _ Hq) in E.
  apply lookup_lt_Some in Hp as Li, Hq as Lj.
  assert (i = j) as ->; [|congruence]. unfold wrap in E.
  assert (Em : (Z.of_nat i - Z.of_nat j) mod 2 ^ 32 = 0).
  { replace (Z.of_nat i - Z.of_nat j) with
      ((0x400000 + Z.of_nat i) - (0x400000 + Z.of_nat j)) by lia.
    by rewrite Zminus_mod, E, Z.sub_diag, Z.mod_0_l. }
  apply Z.mod_divide in Em as [k Hk]; [|done]. nia.
Qed.

(** The growth of the first and of the second run: tables only grow, in their numbering, and
    the output stays within the segments. *)
Definition written_le (h h' : Hprof) : Prop :=
  hp_strings h `prefix_of` hp_strings h' /\ hp_classes h `prefix_of` hp_classes h' /\
  (numbered h -> numbered h') /\
  forall file, in_segments file (hp_output h) -> in_segments file (hp_output h').
#[export] Instance recorded_file : Recorded Hprof.
Proof.
  refine {| st_le := written_le; st_in _ := True; st_rel := eq |}; [..|done].
  - intros h. by split_and!.
  - intros h1 h2 h3 (A1 & B1 & C1 & D1) (A2 & B2 & C2 & D2).
    split_and!; [by etrans|by etrans|auto|auto].
Defined.

Lemma only_grows {S} `{Recorded S} {A} (p : prog S A) : grows p -> replay False p.
Proof. by split. Qed.
Lemma grows_output {A} (m : prog EndianOutput A) :
  (forall file o, in_segments file o -> in_segments file (fst (m o))) -> grows (on_output m).
Proof.
  intros Hm h. unfold on_output, zoom. specialize (Hm).
  destruct (m (hp_output h)) as [o r] eqn:E. split_and!; [done|done|by apply same_numbered|].
  intros file Hf. cbn. specialize (Hm file _ Hf). by rewrite E in Hm.
Qed.
Lemma grows_modify (g : Hprof -> Hprof) :
  (forall h, hp_strings (g h) = hp_strings h /\ next_string_id (g h) = next_string_id h /\
             hp_classes h `prefix_of` hp_classes (g h) /\ hp_output (g h) = hp_output h) ->
  grows (modify g).
Proof.
  intros Hg h. destruct (Hg h) as (Es & En & Hcl & E). cbn. split_and!; [by rewrite Es|done|..].
  - by apply same_numbered.
  - by rewrite E.
Qed.
Lemma grows_pret {A} (a : A) : grows (pret (S := Hprof) a).
Proof. intros h. by split_and!. Qed.
Lemma grows_LookupStringId s : grows (LookupStringId s).
Proof.
  intros h. unfold LookupStringId, pbind, get.
  destruct (find_string s (hp_strings h)) eqn:E; cbn; [exact (grows_pret tt h)|].
  split_and!; [by eexists|done| |done]. by apply numbered_add.
Qed.
Lemma grows_LookupClassNameId k : grows (LookupClassNameId sdk c cf k).
Proof.
  unfold LookupClassNameId. apply grows_bind.
  - intros h. by split_and!.
  - apply grows_LookupStringId.
Qed.
Lemma grows_enter_class k : grows (enter_class sdk c cf k).
Proof.
  intros h. set (sn := next_class_serial_number h).
  assert (Hg : grows (let$ _ := modify take_serial in
                      let$ _ := LookupClassNameId sdk c cf k in modify (add_class k sn))).
  { apply grows_bind; [apply grows_modify; by intros x; split_and!|]. intros _.
    apply grows_bind; [apply grows_LookupClassNameId|]. intros _.
    apply grows_modify. intros x. split_and!; [done|done|by eexists|done]. }
  exact (Hg h).
Qed.
Lemma grows_LookupClassId k : grows (LookupClassId sdk c cf k).
Proof.
  intros h. unfold LookupClassId, get. unfold pbind at 1.
  assert (Hg : grows (if nz (vaddr k) then
             match find_class k (hp_classes h) with
             | Some _ => pret tt | None => enter_class sdk c cf k end else pret tt)).
  { destruct (nz (vaddr k)); [|apply grows_pret].
    destruct (find_class k (hp_classes h)); [apply grows_pret|apply grows_enter_class]. }
  apply (grows_bind _ (fun _ => pret (vaddr k)) Hg). intros _. apply grows_pret.
Qed.
(** The size is written into the record that was open at the start. *)
Lemma grows_sized {A} (m : prog Hprof A) : grows m -> grows (sized m).
Proof.
  intros Hm h.
  assert (H4 : forall file o, in_segments file o -> in_segments file (fst (out_U4 0x77777777 o)))
    by by intros; apply in_segments_AddList.
  unfold sized, AddU4, UpdateU4, pbind, Length, get, pret, on_output, zoom. cbn -[out_U4].
  specialize (fun file => H4 file (hp_output h)).
  destruct (out_U4 _ (hp_output h)) as [o1 r1]. cbn in H4.
  assert (H1' : st_le h (with_output o1 h)).
  { split_and!; [done|done|by apply same_numbered|done]. }
  destruct r1 as [[]| | |]; [|done..]. specialize (Hm (with_output o1 h)).
  destruct (m (with_output o1 h)) as [h2 r2]. cbn in Hm.
  assert (H2 : st_le h h2) by by eapply st_le_trans.
  destruct r2 as [a| | |]; [|done..].
  set (v := u64 _). destruct H2 as (Hs & Hcl & Hnum & Hf).
  destruct (out_UpdateU4 (eo_length (hp_output h)) v (hp_output h2)) as [o3 r3] eqn:E3.
  assert (H3 : st_le h (with_output o3 h2)).
  { split_and!; [done|done|intros Hn; eapply same_numbered; [..|by apply Hnum]; done|].
    intros file Hin. cbn. pose proof (in_segments_length _ _ Hin) as H9.
    pose proof (in_segments_UpdateU4 _ v _ _ H9 (Hf _ Hin)) as H'. by rewrite E3 in H'. }
  by destruct r3.
Qed.
#[export] Instance dumps_framed : Dumps sdk c cf False.
Proof.
  split.
  - intros w values count Hq. apply only_grows, grows_output. intros file o.
    by apply in_segments_AddList.
  - apply only_grows, grows_output. intros file o. apply in_segments_start.
  - intros A m Hm. by apply only_grows, grows_sized, Hm.
  - intros s. apply only_grows, grows_LookupStringId.
  - intros k _. apply only_grows, grows_LookupClassId.
  - by intros h1 h2 ->.
  - intros heap objects _. apply only_grows, grows_modify. by intros h; split_and!.
  - apply only_grows, grows_modify. by intros h; split_and!.
Qed.

(** * The header *)

Definition string_record (p : list Z * Z) : HprofRecord :=
  {| hr_tag := HPROF_TAG_STRING; hr_time := kHprofTime;
     hr_body := big_endian 4 (u32 (snd p)) ++
                flat_map (big_endian 1) (default [] (cstr_of (fst p ++ [0]))) |}.
(** The record of a class, with the number of its name. *)
Definition load_class_record (p : MemoryRef * Z) (id : Z) : HprofRecord :=
  {| hr_tag := HPROF_TAG_LOAD_CLASS; hr_time := kHprofTime;
     hr_body := big_endian 4 (u32 (snd p)) ++ big_endian 4 (u32 (vaddr (fst p))) ++
                big_endian 4 0 ++ big_endian 4 (u32 id) |}.
Definition class_record (strings : list (list Z * Z)) (p : MemoryRef * Z) (r : HprofRecord)
    : Prop :=
  exists d id, PrettyDescriptor sdk c cf (fst p) = Ok d /\ find_string d strings = Some id /\
    r = load_class_record p id.
Definition stack_trace_record : HprofRecord :=
  {| hr_tag := HPROF_TAG_STACK_TRACE; hr_time := kHprofTime;
     hr_body := big_endian 4 0 ++ big_endian 4 0 ++ big_endian 4 0 |}.
Definition end_record : HprofRecord :=
  {| hr_tag := HPROF_TAG_HEAP_DUMP_END; hr_time := 0; hr_body := [] |}.

(** Closing the output makes the file [bs]. *)
Definition covers (bs : list Z) (o : EndianOutput) : Prop :=
  exists file p, framed file p o /\ file ++ sealed p = bs.
(** What the header leaves as it is, besides the strings. *)
Definition rest (h : Hprof) : list (MemoryRef * Z) * Z * Z :=
  (hp_classes h, current_heap h, objects_in_segment h).
Definition tables_le (h h' : Hprof) : Prop :=
  hp_strings h `prefix_of` hp_strings h' /\ rest h' = rest h.
Definition same_tables (h h' : Hprof) : Prop :=
  hp_strings h' = hp_strings h /\ rest h' = rest h.
Lemma rest_classes h h' : rest h' = rest h -> hp_classes h' = hp_classes h.
Proof. by intros [= ? ? ?]. Qed.
Lemma same_tables_le h h' : same_tables h h' -> tables_le h h'.
Proof. intros [E ?]. split; [by rewrite E|done]. Qed.
Lemma tables_le_trans h1 h2 h3 : tables_le h1 h2 -> tables_le h2 h3 -> tables_le h1 h3.
Proof. intros [A B] [A' B']. split; [by etrans|congruence]. Qed.

Lemma on_output_Ok {A} (m : prog EndianOutput A) h h' a :
  on_output m h = (h', Ok a) -> m (hp_output h) = (hp_output h', Ok a) /\ same_tables h h'.
Proof. unfold on_output, zoom. destruct (m (hp_output h)) as [o r]. intros [= <- ->]. by split. Qed.
Lemma added w vs count file p h h' :
  Z.of_nat (length vs) = count -> framed file p (hp_output h) ->
  on_output (AddList w (Ok vs) count) h = (h', Ok tt) ->
  framed file (extend p (flat_map (big_endian w) vs)) (hp_output h') /\ same_tables h h'.
Proof.
  intros Hq Ho E. apply on_output_Ok in E as [E Ht]. split; [|done].
  pose proof (framed_AddList w (Ok vs) count file p _ Hq Ho) as Hf. rewrite E in Hf.
  by destruct Hf as (? & [= <-] & Hf).
Qed.
Lemma added_U4 v file p h h' :
  framed file p (hp_output h) -> AddU4 v h = (h', Ok tt) ->
  framed file (extend p (big_endian 4 (u32 v))) (hp_output h') /\ same_tables h h'.
Proof.
  intros Ho E. destruct (added 4 [u32 v] 1 file p h h' eq_refl Ho E) as [Hf Ht].
  cbn [flat_map] in Hf. by rewrite app_nil_r in Hf.
Qed.
Lemma started_record tag time bs h h' :
  covers bs (hp_output h) -> StartNewRecord tag time h = (h', Ok tt) ->
  framed bs (Open tag time []) (hp_output h') /\ same_tables h h'.
Proof.
  intros (file & p & Ho & <-) E. apply on_output_Ok in E as [E Ht].
  destruct (framed_StartNewRecord tag time file p _ Ho) as (o & E' & Hf).
  rewrite E' in E. by injection E as ->.
Qed.
Lemma ended_record bs h h' :
  covers bs (hp_output h) -> EndRecord h = (h', Ok tt) ->
  framed bs (Raw []) (hp_output h') /\ same_tables h h'.
Proof.
  intros (file & p & Ho & <-) E. apply on_output_Ok in E as [E Ht].
  destruct (framed_EndRecord file p _ Ho) as (o & E' & Hf). rewrite E' in E. by injection E as ->.
Qed.
Lemma covers_open bs r h :
  framed bs (Open (hr_tag r) (hr_time r) (hr_body r)) (hp_output h) ->
  covers (bs ++ encode r) (hp_output h).
Proof. intros Ho. do 2 eexists. split; [done|]. by destruct r. Qed.

(** [m] writes one record, which [R] relates to the tables it leaves. *)
Definition writes_record (R : list (list Z * Z) -> HprofRecord -> Prop) (m : prog Hprof unit)
    : Prop :=
  forall bs h h', covers bs (hp_output h) -> m h = (h', Ok tt) ->
    exists r, R (hp_strings h') r /\ covers (bs ++ encode r) (hp_output h') /\ tables_le h h'.

Lemma find_string_kept d id (l l' : list (list Z * Z)) :
  l `prefix_of` l' -> find_string d l = Some id -> find_string d l' = Some id.
Proof.
  intros [k ->]. unfold find_string. induction l as [|p l IH]; [done|]. cbn.
  by destruct (bool_decide _).
Qed.
Lemma LookupStringId_Ok s h h' id :
  LookupStringId s h = (h', Ok id) ->
  find_string s (hp_strings h') = Some id /\ hp_output h' = hp_output h /\ tables_le h h'.
Proof.
  unfold LookupStringId, pbind, get. destruct (find_string s (hp_strings h)) as [i|] eqn:E; cbn.
  - intros [= <- <-]. split_and!; [done|done|]. by apply same_tables_le.
  - intros [= <- <-]. cbn. split_and!; [|done|by split; [eexists|]].
    revert E. unfold find_string. induction (hp_strings h) as [|p l IH]; cbn;
      [by rewrite bool_decide_eq_true_2|]. by destruct (bool_decide _).
Qed.
Lemma write_string_writes p : writes_record (fun _ r => r = string_record p) (write_string p).
Proof.
  intros bs h h' Ho E. unfold write_string in E.
  apply pbind_Ok_inv in E as (h1 & [] & E1 & E). apply pbind_Ok_inv in E as (h2 & [] & E2 & E3).
  destruct (started_record _ _ _ _ _ Ho E1) as [H1 T1].
  destruct (added_U4 _ _ _ _ _ H1 E2) as [H2 T2].
  eapply added in E3 as [H3 T3]; [|done|exact H2].
  exists (string_record p). split; [done|]. split; [by apply covers_open|].
  apply same_tables_le. destruct T1, T2, T3. split; congruence.
Qed.
Lemma write_class_writes p :
  writes_record (fun strings => class_record strings p) (write_class sdk c cf p).
Proof.
  intros bs h h' Ho E. unfold write_class in E.
  apply pbind_Ok_inv in E as (h1 & [] & E1 & E). apply pbind_Ok_inv in E as (h2 & [] & E2 & E).
  apply pbind_Ok_inv in E as (h3 & [] & E3 & E). apply pbind_Ok_inv in E as (h4 & [] & E4 & E).
  apply pbind_Ok_inv in E as (h5 & id & E5 & E6).
  destruct (started_record _ _ _ _ _ Ho E1) as [H1 T1].
  destruct (added_U4 _ _ _ _ _ H1 E2) as [H2 T2].
  destruct (added_U4 _ _ _ _ _ H2 E3) as [H3 T3].
  destruct (added_U4 _ _ _ _ _ H3 E4) as [H4 T4].
  unfold LookupClassNameId in E5. apply pbind_Ok_inv in E5 as (h4' & d & E5 & E5').
  apply lift_Ok_inv in E5 as [-> Ed]. apply LookupStringId_Ok in E5' as (Hid & Eo & T5).
  rewrite <- Eo in H4. destruct (added_U4 _ _ _ _ _ H4 E6) as [H6 T6].
  eexists. split; [|split].
  - exists d, id. split; [exact Ed|]. split; [|reflexivity]. by rewrite (proj1 T6).
  - apply covers_open. unfold load_class_record. cbn [extend hr_tag hr_time hr_body app] in *.
    rewrite <- !app_assoc in H6. exact H6.
  - repeat (eapply tables_le_trans; [by apply same_tables_le|]).
    eapply tables_le_trans; [exact T5|by apply same_tables_le].
Qed.
Lemma writes_for_each {A} (R : list (list Z * Z) -> A -> HprofRecord -> Prop) body l :
  (forall s s' x r, s `prefix_of` s' -> R s x r -> R s' x r) ->
  (forall x, writes_record (fun s => R s x) (body x)) ->
  forall bs h h', covers bs (hp_output h) -> for_each l body h = (h', Ok tt) ->
  exists rs, Forall2 (R (hp_strings h')) l rs /\ covers (bs ++ encode_all rs) (hp_output h') /\
    tables_le h h'.
Proof.
  intros HR Hbody. induction l as [|x l IH]; intros bs h h' Ho E; cbn [for_each] in E.
  { unfold pret in E. simplify_eq. exists []. cbn. rewrite app_nil_r. split_and!; [done|done|].
    by split. }
  apply pbind_Ok_inv in E as (h1 & [] & E1 & E).
  destruct (Hbody x _ _ _ Ho E1) as (r & Hr & H1 & T1).
  destruct (IH _ _ _ H1 E) as (rs & Hrs & H2 & T2).
  exists (r :: rs). split; [|split].
  - constructor; [|done]. eapply HR; [apply T2|done].
  - cbn [encode_all flat_map]. by rewrite app_assoc.
  - by eapply tables_le_trans.
Qed.
Lemma strings_written bs h h' :
  covers bs (hp_output h) -> WriteStringTable h = (h', Ok tt) ->
  covers (bs ++ encode_all (string_record <$> hash_order (hp_strings h))) (hp_output h') /\
  tables_le h h'.
Proof.
  intros Ho E. unfold WriteStringTable, pbind, get in E.
  destruct (writes_for_each (fun _ p r => r = string_record p) write_string
    (hash_order (hp_strings h)) (fun _ _ _ _ _ E => E) write_string_writes bs h h' Ho E)
    as (rs & Hrs & H' & T).
  replace (string_record <$> hash_order (hp_strings h)) with rs; [done|].
  clear -Hrs. induction Hrs as [|x r l rs -> _ IH]; [done|]. cbn. by f_equal.
Qed.
Lemma classes_written bs h h' :
  covers bs (hp_output h) -> WriteClassTable sdk c cf h = (h', Ok tt) ->
  exists rs, Forall2 (class_record (hp_strings h')) (hash_order (hp_classes h)) rs /\
    covers (bs ++ encode_all rs) (hp_output h') /\ tables_le h h'.
Proof.
  intros Ho E. unfold WriteClassTable, pbind, get in E.
  eapply (writes_for_each class_record); [|exact write_class_writes|exact Ho|exact E].
  intros s s' x r Hs (d & id & Hd & Hid & ->). exists d, id.
  split_and!; [done| |done]. by eapply find_string_kept.
Qed.

(** * The whole file *)

Lemma header_written spaces spaces' h h' :
  framed [] (Raw []) (hp_output h) ->
  at_hprof (ProcessHeader sdk c cf true) (h, spaces) = ((h', spaces'), Ok tt) ->
  exists classes, Forall2 (class_record (hp_strings h')) (hash_order (hp_classes h)) classes /\
    framed (file_header ++ encode_all ((string_record <$> hash_order (hp_strings h)) ++ classes ++
              [stack_trace_record])) (Raw []) (hp_output h') /\
    tables_le h h' /\ spaces' = spaces.
Proof.
  intros Ho E. unfold at_hprof, zoom in E. cbn [fst snd] in E.
  destruct (ProcessHeader sdk c cf true h) as [h0 r] eqn:E'. injection E as -> <- ->.
  rename E' into E. unfold ProcessHeader in E.
  apply pbind_Ok_inv in E as (h1 & [] & E1 & E). apply pbind_Ok_inv in E as (h2 & [] & E2 & E).
  apply pbind_Ok_inv in E as (h3 & [] & E3 & E). apply pbind_Ok_inv in E as (h4 & [] & E4 & E).
  apply pbind_Ok_inv in E as (h5 & [] & E5 & E6). injection E5 as <-.
  assert (H1 : covers file_header (hp_output h1) /\ same_tables h h1).
  { unfold WriteFixedHeader in E1. apply pbind_Ok_inv in E1 as (g1 & [] & G1 & E1).
    apply pbind_Ok_inv in E1 as (g2 & [] & G2 & E1). apply pbind_Ok_inv in E1 as (g3 & [] & G3 & G4).
    eapply added in G1 as [F1 T1]; [|done|exact Ho].
    destruct (added_U4 _ _ _ _ _ F1 G2) as [F2 T2].
    destruct (added_U4 _ _ _ _ _ F2 G3) as [F3 T3].
    destruct (added_U4 _ _ _ _ _ F3 G4) as [F4 T4].
    split; [by do 2 eexists|]. destruct T1, T2, T3, T4. split; congruence. }
  destruct H1 as [H1 T1]. destruct (strings_written _ _ _ H1 E2) as [H2 T2].
  destruct (classes_written _ _ _ H2 E3) as (classes & Hc3 & H3 & T3).
  assert (H4 : covers ((((file_header ++ encode_all (string_record <$> hash_order (hp_strings h1))))
                 ++ encode_all classes) ++ encode stack_trace_record) (hp_output h4) /\
               same_tables h3 h4).
  { unfold WriteStackTraces in E4. apply pbind_Ok_inv in E4 as (g1 & [] & G1 & E4).
    apply pbind_Ok_inv in E4 as (g2 & [] & G2 & E4). apply pbind_Ok_inv in E4 as (g3 & [] & G3 & G4).
    destruct (started_record _ _ _ _ _ H3 G1) as [F1 U1].
    destruct (added_U4 _ _ _ _ _ F1 G2) as [F2 U2].
    destruct (added_U4 _ _ _ _ _ F2 G3) as [F3 U3].
    destruct (added_U4 _ _ _ _ _ F3 G4) as [F4 U4].
    split; [by apply covers_open|]. destruct U1, U2, U3, U4. split; congruence. }
  destruct H4 as [H4 T4]. destruct (ended_record _ _ _ H4 E6) as [H6 T6].
  destruct T1 as [T1s T1c]. exists classes. split; [|split; [|split; [|done]]].
  - rewrite (proj1 T6), (proj1 T4), <- (rest_classes _ _ T1c).
    by rewrite (rest_classes _ _ (proj2 T2)) in Hc3.
  - rewrite !encode_all_app. cbn [encode_all flat_map]. rewrite app_nil_r, !app_assoc.
    by rewrite T1s in H6.
  - eapply tables_le_trans; [by apply same_tables_le|]. eapply tables_le_trans; [exact T2|].
    eapply tables_le_trans; [exact T3|]. eapply tables_le_trans; by apply same_tables_le.
Qed.

(** A run of the body: the start of the first segment, the walk, the end. *)
Lemma body_steps quick fuel n h spaces h' spaces' :
  ProcessBody sdk patch c cf rt runtime quick fuel n (h, spaces) = ((h', spaces'), Ok tt) ->
  exists h1 h3 h4,
    StartNewRecord HPROF_TAG_HEAP_DUMP_SEGMENT 0 h = (h1, Ok tt) /\ written_le h1 h3 /\
    StartNewRecord HPROF_TAG_HEAP_DUMP_END 0 h3 = (h4, Ok tt) /\ EndRecord h4 = (h', Ok tt).
Proof.
  intros E. unfold ProcessBody in E. apply pbind_Ok_inv in E as ([h1 s1] & [] & E1 & E).
  apply pbind_Ok_inv in E as (hs & heap & E2 & E). apply lift_Ok_inv in E2 as [-> Hheap].
  apply pbind_Ok_inv in E as ([h3 s3] & [] & E3 & E).
  apply pbind_Ok_inv in E as ([h4 s4] & [] & E4 & E5).
  assert (at_run : forall m g g' s s', at_hprof m (g, s) = ((g', s'), Ok tt) -> m g = (g', Ok tt)).
  { intros m g g' s s' Hg. unfold at_hprof, zoom in Hg. cbn in Hg. destruct (m g). by simplify_eq. }
  apply at_run in E1, E4, E5.
  assert (Hw : replay (H := recorded_prod (H0 := recorded_heap spaces)) False
    (ForeachObjects sdk patch c (DumpHeapObject sdk c cf rt runtime quick fuel n) fuel heap)).
  { apply replay_walk; [done|apply dumps_framed| |done|done]. by intros _ h1' h2' ->. }
  pose proof (rp_grows _ _ Hw (h1, s1)) as [Hg _]. rewrite E3 in Hg. by exists h1, h3, h4.
Qed.
Lemma output_numbered {A} (m : prog EndianOutput A) h h' a :
  on_output m h = (h', Ok a) -> numbered h -> numbered h'.
Proof.
  unfold on_output, zoom. destruct (m (hp_output h)) as [o r]. intros [= <- ->].
  by apply same_numbered.
Qed.
Lemma body_numbered quick fuel n h spaces h' spaces' :
  ProcessBody sdk patch c cf rt runtime quick fuel n (h, spaces) = ((h', spaces'), Ok tt) ->
  numbered h -> numbered h'.
Proof.
  intros E Hn. destruct (body_steps _ _ _ _ _ _ _ E)
    as (h1 & h3 & h4 & E1 & (_ & _ & Hw & _) & E4 & E5).
  eapply output_numbered; [exact E5|]. eapply output_numbered; [exact E4|].
  apply Hw. by eapply output_numbered; [exact E1|].
Qed.
Lemma body_written quick fuel n bs h spaces h' spaces' :
  framed bs (Raw []) (hp_output h) ->
  ProcessBody sdk patch c cf rt runtime quick fuel n (h, spaces) = ((h', spaces'), Ok tt) ->
  exists bodies,
    framed (bs ++ encode_all ((segment_record <$> bodies) ++ [end_record])) (Raw [])
      (hp_output h') /\ hp_strings h `prefix_of` hp_strings h'.
Proof.
  intros Ho E. destruct (body_steps _ _ _ _ _ _ _ E)
    as (h1 & h3 & h4 & E1 & (Hs & _ & _ & Hf) & E4 & E5).
  assert (H0 : covers bs (hp_output h)) by (do 2 eexists; split; [done|apply app_nil_r]).
  destruct (started_record _ _ _ _ _ H0 E1) as [H1 T1].
  destruct (Hf bs) as (bodies & body & H3).
  { exists [], []. cbn. by rewrite app_nil_r. }
  assert (H3' : covers (bs ++ encode_all (segment_record <$> bodies ++ [body])) (hp_output h3)).
  { do 2 eexists. split; [exact H3|]. rewrite fmap_app, encode_all_app. cbn.
    by rewrite app_nil_r, app_assoc. }
  destruct (started_record _ _ _ _ _ H3' E4) as [H4 T4].
  apply (covers_open _ end_record) in H4. destruct (ended_record _ _ _ H4 E5) as [H5 T5].
  exists (bodies ++ [body]). split.
  - rewrite encode_all_app. cbn [encode_all flat_map]. by rewrite app_nil_r, app_assoc.
  - destruct T1 as [Es _], T4 as [Es' _], T5 as [Es'' _]. rewrite Es'', Es'. by rewrite <- Es.
Qed.

(** What a second run writes that reports success, if no write failed, is a file of records:
    the strings of the table, the classes, each with the number of its name, the stack trace,
    segments of the heap, the end. *)
Lemma DumpToFile_written quick fuel n h spaces h' spaces' b :
  DumpToFile sdk patch c cf rt runtime quick fuel n (h, spaces) = ((h', spaces'), Ok true) ->
  eo_buffer (hp_output h') = Some b -> fb_errors b = false ->
  exists classes bodies,
    Forall2 (class_record (hp_strings h')) (hash_order (hp_classes h)) classes /\
    fb_file b = file_header ++ encode_all ((string_record <$> hash_order (hp_strings h)) ++
      classes ++ [stack_trace_record] ++ (segment_record <$> bodies) ++ [end_record]).
Proof.
  intros E Hb He. unfold DumpToFile in E. destruct fopen; [|by unfold pret in E; simplify_eq].
  apply pbind_Ok_inv in E as ([h1 s1] & [] & E1 & E).
  apply pbind_Ok_inv in E as ([h2 s2] & [] & E2 & E).
  unfold pret in E. injection E as -> ->. unfold at_hprof, zoom, modify in E1. cbn in E1.
  injection E1 as <- <-. unfold ProcessHeap in E2.
  apply pbind_Ok_inv in E2 as ([h3 s3] & [] & E3 & E).
  unfold at_hprof, zoom, modify in E3. cbn in E3. injection E3 as <- <-.
  apply pbind_Ok_inv in E as ([h4 s4] & [] & E4 & E5).
  eapply header_written in E4; [|by split; cbn; [eexists|..]].
  destruct E4 as (classes & Hcls & H4 & T4 & ->).
  eapply body_written in E5; [|exact H4]. destruct E5 as (bodies & H5 & T5).
  exists classes, bodies. split.
  - eapply Forall2_impl; [|exact Hcls]. intros p r (d & id & Hd & Hid & ->).
    exists d, id. split_and!; [done| |done]. by eapply find_string_kept.
  - destruct H5 as [(b' & Hb' & _ & Hf) _ _ _]. rewrite Hb in Hb'. injection Hb' as <-.
    rewrite Hf by done. rewrite <- app_assoc. f_equal. rewrite <- encode_all_app. f_equal.
    by rewrite <- !app_assoc.
Qed.
Lemma records_valid quick fuel n h spaces h' spaces' b :
  DumpToFile sdk patch c cf rt runtime quick fuel n (h, spaces) = ((h', spaces'), Ok true) ->
  eo_buffer (hp_output h') = Some b -> fb_errors b = false ->
  Z.of_nat (length (fb_file b)) < 2 ^ 32 ->
  exists classes bodies,
    Forall2 (class_record (hp_strings h')) (hash_order (hp_classes h)) classes /\
    parse_file (fb_file b) = Some ((string_record <$> hash_order (hp_strings h)) ++
      classes ++ [stack_trace_record] ++ (segment_record <$> bodies) ++ [end_record]) /\
    Z.of_nat (length (hp_strings h)) < 2 ^ 32.
Proof.
  intros E Hb He Hlen.
  destruct (DumpToFile_written _ _ _ _ _ _ _ _ E Hb He) as (classes & bodies & Hcls & Hf).
  exists classes, bodies. set (rs := (string_record <$> _) ++ _) in *. split; [done|].
  rewrite Hf in Hlen |- *. rewrite length_app in Hlen.
  assert (Hfixed : Forall (fun r => 0 <= hr_tag r < 2 ^ 8 /\ 0 <= hr_time r < 2 ^ 32) rs).
  { unfold rs. repeat (apply Forall_app; split); try by repeat constructor.
    - apply Forall_fmap, Forall_true. intros p. by cbn.
    - clear -Hcls. induction Hcls as [|p r l' k (d & id & _ & _ & ->) _ IH]; constructor;
        [by cbn|done].
    - apply Forall_fmap, Forall_true. intros p. by cbn. }
  split.
  - unfold parse_file. rewrite take_app_length', drop_app_length' by done.
    rewrite bool_decide_eq_true_2 by done. apply parse_encode_all; [|rewrite length_app; lia].
    apply List.Forall_forall. intros r Hr.
    rewrite List.Forall_forall in Hfixed. destruct (Hfixed r Hr) as [Ht Hm].
    split_and!; [lia..|]. apply record_in_file in Hr. lia.
  - pose proof (record_count rs) as Hc'. unfold rs in Hc' at 1.
    rewrite !length_app, length_fmap, (Permutation_length (hash_order_perm _ _)) in Hc'. lia.
Qed.
End Dump.
