(* ===== verification/HprofProofs.v ===== *)
(** Theorems about [Hprof]: the file of a dump is parsed back into its records, and the first
    run of a dump measures what the second one writes. *)

From Stdlib Require Import ZArith Lia Bool String.
From stdpp Require Import base list gmap numbers.
From S2P Require Import Prelude Words Host Blocks Notes CoreApi Segments AddressSpace MemRef Elf.
From S2P Require Import Text Mirrors Cxx Reading Heap Dex RuntimeTables Runtimes Methods RefCache.
From S2P Require Import JavaObjects JavaObjectsProofs Spaces Replay SpacesProofs Hprof HprofDump.
From S2P Require Import HprofReplay HprofFile.
Open Scope Z_scope.

(** * What an output has measured *)

Definition total (l : list Z) : Z := foldr Z.add 0 l.
Definition peak (m : Z) (l : list Z) : Z := foldr Z.max m l.
Lemma total_app l l' : total (l ++ l') = total l + total l'.
Proof. unfold total. induction l as [|x l IH]; cbn in *; lia. Qed.
Lemma total_perm l l' : l ≡ₚ l' -> total l = total l'.
Proof. unfold total. induction 1; cbn in *; lia. Qed.
Lemma peak_split m l : 0 <= m -> peak m l = Z.max m (peak 0 l).
Proof. intros Hm. unfold peak. induction l as [|x l IH]; cbn in *; lia. Qed.
Lemma peak_app m l l' : peak m (l ++ l') = peak (peak m l') l.
Proof. apply foldr_app. Qed.
Lemma peak_snoc m l x : peak m (l ++ [x]) = Z.max x (peak m l).
Proof. rewrite peak_app. unfold peak. induction l as [|y l IH]; cbn in *; lia. Qed.
Lemma peak_perm m l l' : l ≡ₚ l' -> peak m l = peak m l'.
Proof. unfold peak. induction 1; cbn in *; lia. Qed.
Lemma peak_le m l : m <= peak m l.
Proof. unfold peak. induction l as [|x l IH]; cbn in *; lia. Qed.

(** Since it had [s] bytes in records of at most [m] bytes, the output has closed records of
    the lengths [l], and the last one has [len] bytes by now. *)
Record logged (s m : Z) (l : list Z) (len : Z) (o : EndianOutput) : Prop := {
  lg_sum : eo_sum o = u64 (s + total l);
  lg_max : eo_max o = peak m l;
  lg_length : eo_length o = len;
  lg_nonneg : 0 <= len /\ 0 <= m }.

Section Output.
Context {Io : Stdio} (s m : Z).

Lemma logged_AddList w values count l len o o' :
  AddList w values count o = (o', Ok tt) -> logged s m l len o ->
  logged s m l (u64 (len + u64 (count * Z.of_nat w))) o'.
Proof.
  intros E [Hs Hm <- [? ?]]. unfold AddList in E.
  assert (E' : exists b, o' = with_length (u64 (eo_length o + u64 (count * Z.of_nat w))) b o).
  { destruct (eo_buffer o) as [b|]; [destruct (rbind _ _) in E|]; simplify_eq; eauto. }
  destruct E' as [b ->]. split; cbn -[wrap]; [done..|].
  pose proof (wrap_range 64 (eo_length o + u64 (count * Z.of_nat w))). lia.
Qed.
Lemma logged_EndRecord l len o o' :
  out_EndRecord o = (o', Ok tt) -> logged s m l len o -> logged s m (l ++ [len]) 0 o'.
Proof.
  intros E Ho. unfold out_EndRecord, pbind at 1, get in E.
  apply pbind_Ok_inv in E as (o1 & [] & E1 & E).
  apply pbind_Ok_inv in E as (o2 & [] & E2 & E). unfold modify in E. injection E as <-.
  assert (H1 : logged s m l len o1).
  { destruct (eo_started o); [|by unfold pret in E1; simplify_eq].
    unfold out_UpdateU4 in E1. destruct (eo_buffer o); [|by simplify_eq].
    destruct (_ <=? _); simplify_eq. destruct Ho. by split. }
  assert (H2 : logged s m l len o2).
  { unfold HandleEndRecord in E2. destruct (eo_buffer o1); [|by simplify_eq].
    destruct (HandleFlush _ _); simplify_eq. destruct H1. by split. }
  destruct H2 as [Hs Hm Hl ?]. split; cbn -[wrap];
    [|by rewrite peak_snoc, Hm, Hl, Z.max_comm|done|lia].
  rewrite Hs, Hl, wrap_add_l, total_app by done. cbn. f_equal. lia.
Qed.
Lemma logged_StartNewRecord tag time l len o o' :
  out_StartNewRecord tag time o = (o', Ok tt) -> logged s m l len o ->
  logged s m (l ++ [len]) 9 o'.
Proof.
  intros E Ho. unfold out_StartNewRecord, pbind at 1, get in E.
  apply pbind_Ok_inv in E as (o1 & [] & E1 & E). apply pbind_Ok_inv in E as (o2 & [] & E2 & E).
  apply pbind_Ok_inv in E as (o3 & [] & E3 & E). apply pbind_Ok_inv in E as (o4 & [] & E4 & E).
  unfold modify in E. injection E as <-.
  assert (H1 : logged s m (l ++ [len]) 0 o1).
  { destruct (Z.ltb_spec 0 (eo_length o)); [by eapply logged_EndRecord|].
    unfold pret in E1. simplify_eq. destruct Ho as [Hs Hm Hl [? ?]].
    assert (len = 0) as -> by lia. pose proof (peak_le m l).
    split; [by rewrite total_app, Hs, Z.add_0_r|rewrite peak_snoc, Hm; lia|done|done]. }
  eapply logged_AddList in E2; [|exact H1]. eapply logged_AddList in E3; [|exact E2].
  eapply logged_AddList in E4; [|exact E3]. by destruct E4.
Qed.
End Output.

Section Dump.
Context {M : Machine} {Io : Stdio} {Laws : StdioLaws} {Order : HashOrder} (sdk patch : Z)
  (c : CoreApi) (Hc : space_ok c) (Hnull : linear_find c 0 (mQuickLoad c) = None) (cf : nat)
  (rt : Runtime_OffsetTable) (runtime : MemoryRef).

(** * What the header measures *)

Section Header.
Context (s m : Z).

(** Closing the output makes the lengths [l]. *)
Definition logs (l : list Z) (o : EndianOutput) : Prop :=
  exists closed len, logged s m closed len o /\ closed ++ [len] = l.
Definition string_size (p : list Z * Z) : Z :=
  u64 (13 + u64 (Z.of_nat (length (default [] (cstr_of (fst p ++ [0])))) * 1)).

Lemma log_added w vs count l len h h' :
  on_output (AddList w vs count) h = (h', Ok tt) -> logged s m l len (hp_output h) ->
  logged s m l (u64 (len + u64 (count * Z.of_nat w))) (hp_output h').
Proof. intros E Ho. apply on_output_Ok in E as [E _]. by eapply logged_AddList. Qed.
Lemma log_started tag time l h h' :
  StartNewRecord tag time h = (h', Ok tt) -> logs l (hp_output h) ->
  logged s m l 9 (hp_output h').
Proof.
  intros E (closed & len & Ho & <-). apply on_output_Ok in E as [E _].
  by eapply logged_StartNewRecord.
Qed.
Lemma log_string p l h h' :
  write_string p h = (h', Ok tt) -> logs l (hp_output h) ->
  logs (l ++ [string_size p]) (hp_output h').
Proof.
  intros E Ho. unfold write_string in E. apply pbind_Ok_inv in E as (h1 & [] & E1 & E).
  apply pbind_Ok_inv in E as (h2 & [] & E2 & E3).
  eapply log_started in E1; [|done]. eapply log_added in E2; [|exact E1].
  eapply log_added in E3; [|exact E2]. by do 2 eexists.
Qed.
Lemma log_class p l h h' :
  write_class sdk c cf p h = (h', Ok tt) -> logs l (hp_output h) ->
  logs (l ++ [25]) (hp_output h').
Proof.
  intros E Ho. unfold write_class in E.
  apply pbind_Ok_inv in E as (h1 & [] & E1 & E). apply pbind_Ok_inv in E as (h2 & [] & E2 & E).
  apply pbind_Ok_inv in E as (h3 & [] & E3 & E). apply pbind_Ok_inv in E as (h4 & [] & E4 & E).
  apply pbind_Ok_inv in E as (h5 & id & E5 & E6).
  unfold LookupClassNameId in E5. apply pbind_Ok_inv in E5 as (h4' & d & E5 & E5').
  apply lift_Ok_inv in E5 as [-> _]. apply LookupStringId_Ok in E5' as (_ & Eo & _).
  eapply log_started in E1; [|done]. eapply log_added in E2; [|exact E1].
  eapply log_added in E3; [|exact E2]. eapply log_added in E4; [|exact E3].
  rewrite <- Eo in E4. eapply log_added in E6; [|exact E4]. by do 2 eexists.
Qed.
Lemma log_for_each {A} (size : A -> Z) body (xs : list A) :
  (forall x l h h', body x h = (h', Ok tt) -> logs l (hp_output h) ->
     logs (l ++ [size x]) (hp_output h')) ->
  forall l h h', for_each xs body h = (h', Ok tt) -> logs l (hp_output h) ->
    logs (l ++ (size <$> xs)) (hp_output h').
Proof.
  intros Hb. induction xs as [|x xs IH]; intros l h h' E Ho; cbn [for_each] in E.
  { unfold pret in E. simplify_eq. cbn. by rewrite app_nil_r. }
  apply pbind_Ok_inv in E as (h1 & [] & E1 & E). eapply Hb in E1; [|exact Ho].
  apply (IH _ _ _ E) in E1. by rewrite <- app_assoc in E1.
Qed.
Lemma log_traces l h h' :
  WriteStackTraces h = (h', Ok tt) -> logs l (hp_output h) -> logs (l ++ [21]) (hp_output h').
Proof.
  intros E Ho. unfold WriteStackTraces in E. apply pbind_Ok_inv in E as (h1 & [] & E1 & E).
  apply pbind_Ok_inv in E as (h2 & [] & E2 & E). apply pbind_Ok_inv in E as (h3 & [] & E3 & E4).
  eapply log_started in E1; [|done]. eapply log_added in E2; [|exact E1].
  eapply log_added in E3; [|exact E2]. eapply log_added in E4; [|exact E3]. by do 2 eexists.
Qed.
Lemma log_fixed h h' :
  WriteFixedHeader h = (h', Ok tt) -> logged s m [] 0 (hp_output h) -> logs [31] (hp_output h').
Proof.
  intros E Ho. unfold WriteFixedHeader in E. apply pbind_Ok_inv in E as (h1 & [] & E1 & E).
  apply pbind_Ok_inv in E as (h2 & [] & E2 & E). apply pbind_Ok_inv in E as (h3 & [] & E3 & E4).
  eapply log_added in E1; [|done]. eapply log_added in E2; [|exact E1].
  eapply log_added in E3; [|exact E2]. eapply log_added in E4; [|exact E3]. by do 2 eexists.
Qed.
Lemma log_ended l h h' :
  EndRecord h = (h', Ok tt) -> logs l (hp_output h) -> logged s m l 0 (hp_output h').
Proof.
  intros E (closed & len & Ho & <-). apply on_output_Ok in E as [E _].
  by eapply logged_EndRecord.
Qed.
End Header.

(** With a name for every class in the table of strings, the header leaves the tables as they
    are. *)
Local Notation good := (good_tables sdk c cf).
Lemma same_tables_trans h1 h2 h3 : same_tables h1 h2 -> same_tables h2 h3 -> same_tables h1 h3.
Proof. intros [A B] [A' B']. split; congruence. Qed.
Lemma kept_bind {A} (m : prog Hprof unit) (f : unit -> prog Hprof A) h h' a :
  (forall g g', m g = (g', Ok tt) -> same_tables g g') ->
  (forall g, f tt g = (h', Ok a) -> same_tables g h') ->
  pbind m f h = (h', Ok a) -> same_tables h h'.
Proof.
  intros Hm Hf E. apply pbind_Ok_inv in E as (h1 & [] & E1 & E).
  eapply same_tables_trans; [by apply Hm|by apply Hf].
Qed.
Lemma kept_output {A} (m : prog EndianOutput A) h h' a :
  on_output m h = (h', Ok a) -> same_tables h h'.
Proof. intros E. by apply on_output_Ok in E as [_ ?]. Qed.
Lemma kept_string p h h' : write_string p h = (h', Ok tt) -> same_tables h h'.
Proof.
  apply kept_bind; [intros g g'; apply kept_output|intros g].
  apply kept_bind; [intros ? ?; apply kept_output|intros ?; apply kept_output].
Qed.
Lemma kept_class p h h' :
  described sdk c cf (hp_strings h) p -> write_class sdk c cf p h = (h', Ok tt) ->
  same_tables h h'.
Proof.
  intros (_ & d & Hd & id & Hid) E. unfold write_class in E.
  apply pbind_Ok_inv in E as (h1 & [] & E1 & E). apply pbind_Ok_inv in E as (h2 & [] & E2 & E).
  apply pbind_Ok_inv in E as (h3 & [] & E3 & E). apply pbind_Ok_inv in E as (h4 & [] & E4 & E).
  apply pbind_Ok_inv in E as (h5 & id' & E5 & E6).
  apply kept_output in E1, E2, E3, E4, E6.
  assert (T4 : same_tables h h4) by
    (eapply same_tables_trans; [exact E1|]; eapply same_tables_trans; [exact E2|];
     by eapply same_tables_trans).
  unfold LookupClassNameId, LookupStringId, pbind, lift, get in E5.
  rewrite Hd, (proj1 T4), Hid in E5. unfold pret in E5. injection E5 as <- <-.
  by eapply same_tables_trans.
Qed.
Lemma kept_for_each {A} body (xs : list A) h h' :
  (forall x g g', In x xs -> same_tables h g -> body x g = (g', Ok tt) -> same_tables g g') ->
  for_each xs body h = (h', Ok tt) -> same_tables h h'.
Proof.
  intros Hb. assert (H : forall ys g, (forall x, In x ys -> In x xs) -> same_tables h g ->
                       for_each ys body g = (h', Ok tt) -> same_tables h h').
  { induction ys as [|y ys IH]; intros g Hin Hg E; cbn [for_each] in E.
    - unfold pret in E. by simplify_eq.
    - apply pbind_Ok_inv in E as (g1 & [] & E1 & E). apply (IH g1); [|..|done].
      + intros x Hx. apply Hin. by right.
      + eapply same_tables_trans; [exact Hg|]. eapply Hb; [apply Hin; by left|done|done]. }
  apply H; [auto|done].
Qed.

Definition header_log (strings : list (list Z * Z)) (classes : list (MemoryRef * Z)) : list Z :=
  31 :: 21 :: (string_size <$> strings) ++ ((fun _ => 25) <$> classes).

Lemma strings_logged s m l h h' :
  WriteStringTable h = (h', Ok tt) -> logs s m l (hp_output h) ->
  logs s m (l ++ (string_size <$> hash_order (hp_strings h))) (hp_output h').
Proof.
  intros E Ho. change (for_each (hash_order (hp_strings h)) write_string h = (h', Ok tt)) in E.
  eapply (log_for_each s m string_size); [|exact E|exact Ho]. intros x l' g g'. apply log_string.
Qed.
Lemma strings_kept h h' : WriteStringTable h = (h', Ok tt) -> same_tables h h'.
Proof.
  intros E. change (for_each (hash_order (hp_strings h)) write_string h = (h', Ok tt)) in E.
  eapply kept_for_each; [|exact E]. intros x g g' _ _. apply kept_string.
Qed.
Lemma classes_logged s m l h h' :
  WriteClassTable sdk c cf h = (h', Ok tt) -> logs s m l (hp_output h) ->
  logs s m (l ++ ((fun _ => 25) <$> hash_order (hp_classes h))) (hp_output h').
Proof.
  intros E Ho.
  change (for_each (hash_order (hp_classes h)) (write_class sdk c cf) h = (h', Ok tt)) in E.
  eapply (log_for_each s m (fun _ => 25)); [|exact E|exact Ho]. intros x l' g g'. apply log_class.
Qed.
Lemma classes_kept h h' :
  good (hp_strings h) (hp_classes h) -> WriteClassTable sdk c cf h = (h', Ok tt) ->
  same_tables h h'.
Proof.
  intros Hg E.
  change (for_each (hash_order (hp_classes h)) (write_class sdk c cf) h = (h', Ok tt)) in E.
  eapply kept_for_each; [|exact E]. intros x g g' Hx [Hs _]. apply kept_class. rewrite Hs.
  unfold good_tables in Hg. rewrite List.Forall_forall in Hg. apply Hg.
  apply list_elem_of_In. apply list_elem_of_In in Hx. by rewrite hash_order_perm in Hx.
Qed.
Lemma traces_kept h h' : WriteStackTraces h = (h', Ok tt) -> same_tables h h'.
Proof.
  unfold WriteStackTraces. do 3 (apply kept_bind; [intros ? ?; apply kept_output|intros ?]).
  apply kept_output.
Qed.
Lemma fixed_kept h h' : WriteFixedHeader h = (h', Ok tt) -> same_tables h h'.
Proof.
  unfold WriteFixedHeader. do 3 (apply kept_bind; [intros ? ?; apply kept_output|intros ?]).
  apply kept_output.
Qed.
(** The tables at each step of the header. *)
Lemma header_steps b h h' :
  good (hp_strings h) (hp_classes h) -> ProcessHeader sdk c cf b h = (h', Ok tt) ->
  exists h1 h2 h3 h4 h5,
    WriteFixedHeader h = (h1, Ok tt) /\
    (if b then WriteStringTable else pret tt) h1 = (h2, Ok tt) /\
    WriteClassTable sdk c cf h2 = (h3, Ok tt) /\ WriteStackTraces h3 = (h4, Ok tt) /\
    (if b then pret tt else WriteStringTable) h4 = (h5, Ok tt) /\ EndRecord h5 = (h', Ok tt) /\
    same_tables h h1 /\ same_tables h h2 /\ same_tables h h4 /\ same_tables h h'.
Proof.
  intros Hg E. unfold ProcessHeader in E.
  apply pbind_Ok_inv in E as (h1 & [] & E1 & E). apply pbind_Ok_inv in E as (h2 & [] & E2 & E).
  apply pbind_Ok_inv in E as (h3 & [] & E3 & E). apply pbind_Ok_inv in E as (h4 & [] & E4 & E).
  apply pbind_Ok_inv in E as (h5 & [] & E5 & E6). exists h1, h2, h3, h4, h5.
  assert (Hopt : forall (x : bool) g g',
    (if x then WriteStringTable else pret tt) g = (g', Ok tt) -> same_tables g g').
  { intros [] g g' Hx; [by apply strings_kept|]. unfold pret in Hx. by simplify_eq. }
  pose proof (fixed_kept _ _ E1) as T1.
  pose proof (same_tables_trans _ _ _ T1 (Hopt _ _ _ E2)) as T2.
  assert (T3 : same_tables h h3).
  { eapply same_tables_trans; [exact T2|]. apply classes_kept; [|done].
    by rewrite (proj1 T2), (rest_classes _ _ (proj2 T2)). }
  pose proof (same_tables_trans _ _ _ T3 (traces_kept _ _ E4)) as T4.
  assert (T5 : same_tables h h5).
  { eapply same_tables_trans; [exact T4|]. apply (Hopt (negb b)). by destruct b. }
  split_and!; try done. eapply same_tables_trans; [exact T5|by eapply kept_output].
Qed.
Lemma header_kept b h h' :
  good (hp_strings h) (hp_classes h) -> ProcessHeader sdk c cf b h = (h', Ok tt) ->
  same_tables h h'.
Proof.
  intros Hg E. by destruct (header_steps b h h' Hg E) as (? & ? & ? & ? & ? & ?); intuition.
Qed.
Lemma header_measured b s m h h' :
  good (hp_strings h) (hp_classes h) -> logged s m [] 0 (hp_output h) ->
  ProcessHeader sdk c cf b h = (h', Ok tt) ->
  exists l, l ≡ₚ header_log (hp_strings h) (hp_classes h) /\ logged s m l 0 (hp_output h').
Proof.
  intros Hg Ho E. destruct (header_steps b h h' Hg E)
    as (h1 & h2 & h3 & h4 & h5 & E1 & E2 & E3 & E4 & E5 & E6 & T1 & T2 & T4 & _).
  pose proof (log_fixed _ _ _ _ E1 Ho) as H1.
  assert (Hs : forall g, same_tables h g ->
            string_size <$> hash_order (hp_strings g) ≡ₚ string_size <$> hp_strings h)
    by (intros g [-> _]; by rewrite hash_order_perm).
  assert (Hcl : (fun _ => 25) <$> hash_order (hp_classes h2) ≡ₚ (fun _ => 25) <$> hp_classes h)
    by by rewrite (rest_classes _ _ (proj2 T2)), hash_order_perm.
  destruct b.
  - pose proof (strings_logged _ _ _ _ _ E2 H1) as H2.
    pose proof (classes_logged _ _ _ _ _ E3 H2) as H3.
    pose proof (log_traces _ _ _ _ _ E4 H3) as H4. unfold pret in E5. injection E5 as <-.
    pose proof (log_ended _ _ _ _ _ E6 H4) as H6. eexists. split; [|exact H6].
    rewrite (Hs h1 T1), Hcl. unfold header_log. solve_Permutation.
  - unfold pret in E2. injection E2 as <-.
    pose proof (classes_logged _ _ _ _ _ E3 H1) as H3.
    pose proof (log_traces _ _ _ _ _ E4 H3) as H4.
    pose proof (strings_logged _ _ _ _ _ E5 H4) as H5.
    pose proof (log_ended _ _ _ _ _ E6 H5) as H6. eexists. split; [|exact H6].
    rewrite (Hs h4 T4), Hcl. unfold header_log. solve_Permutation.
Qed.

(** * The first run measures the second *)

(** The first run: into an output that counts. *)
Definition first_run (quick : bool) (fuel n : nat) (spaces : HeapCache)
    : (Hprof * HeapCache) * result unit :=
  ProcessHeap sdk patch c cf rt runtime quick false fuel n
    (with_output (new_output None) new_hprof, spaces).

Lemma at_hprof_Ok {A} (m : prog Hprof A) h h' s s' a :
  at_hprof m (h, s) = ((h', s'), Ok a) -> m h = (h', Ok a) /\ s' = s.
Proof. unfold at_hprof, zoom. cbn. destruct (m h). by intros [= -> -> ->]. Qed.
Lemma first_run_parts quick fuel n spaces h s :
  first_run quick fuel n spaces = ((h, s), Ok tt) ->
  exists h1,
    ProcessBody sdk patch c cf rt runtime quick fuel n
      (with_heap HPROF_HEAP_DEFAULT 0 (with_output (new_output None) new_hprof), spaces)
    = ((h1, s), Ok tt) /\
    ProcessHeader sdk c cf false h1 = (h, Ok tt).
Proof.
  intros E. unfold first_run, ProcessHeap in E.
  apply pbind_Ok_inv in E as ([h0 s0] & [] & E0 & E). apply at_hprof_Ok in E0 as [E0 ->].
  unfold modify in E0. injection E0 as <-.
  apply pbind_Ok_inv in E as ([h1 s1] & [] & E1 & E). apply at_hprof_Ok in E as [E ->]. eauto.
Qed.
Lemma second_run_parts quick fuel n h s h' s' :
  DumpToFile sdk patch c cf rt runtime quick fuel n (h, s) = ((h', s'), Ok true) ->
  exists h1,
    ProcessHeader sdk c cf true
      (with_heap HPROF_HEAP_DEFAULT 0 (with_output (new_output (Some new_file)) h))
    = (h1, Ok tt) /\
    ProcessBody sdk patch c cf rt runtime quick fuel n (h1, s) = ((h', s'), Ok tt).
Proof.
  intros E. unfold DumpToFile in E. destruct fopen; [|by unfold pret in E; simplify_eq].
  apply pbind_Ok_inv in E as ([g1 s1] & [] & E1 & E). apply at_hprof_Ok in E1 as [E1 ->].
  apply pbind_Ok_inv in E as ([g2 s2] & [] & E2 & E). unfold pret in E. injection E as <- <-.
  unfold modify in E1. injection E1 as <-. unfold ProcessHeap in E2.
  apply pbind_Ok_inv in E2 as ([g3 s3] & [] & E3 & E). apply at_hprof_Ok in E3 as [E3 ->].
  unfold modify in E3. injection E3 as <-.
  apply pbind_Ok_inv in E as ([g4 s4] & [] & E4 & E). apply at_hprof_Ok in E4 as [E4 ->]. eauto.
Qed.

(** Where a run of the body ends. *)
Lemma body_ends quick fuel n st h s :
  ProcessBody sdk patch c cf rt runtime quick fuel n st = ((h, s), Ok tt) ->
  eo_length (hp_output h) = 0 /\ u64 (eo_sum (hp_output h)) = eo_sum (hp_output h).
Proof.
  intros E. unfold ProcessBody in E. apply pbind_Ok_inv in E as (g1 & [] & _ & E).
  apply pbind_Ok_inv in E as (g2 & heap & _ & E). apply pbind_Ok_inv in E as (g3 & [] & _ & E).
  apply pbind_Ok_inv in E as ([h4 s4] & [] & _ & E). apply at_hprof_Ok in E as [E ->].
  apply on_output_Ok in E as [E _]. unfold out_EndRecord in E.
  apply pbind_Ok_inv in E as (o1 & x & _ & E). apply pbind_Ok_inv in E as (o2 & [] & _ & E).
  apply pbind_Ok_inv in E as (o3 & [] & _ & E). unfold modify in E. injection E as E.
  rewrite <- E. cbn -[wrap]. split; [done|]. by rewrite wrap_wrap.
Qed.

Context (fuel n : nat) (heap : MemoryRef) (Hheap : GetHeap c rt runtime = Ok heap).

(** The first run ends with a name for every class. *)
Lemma first_run_good spaces h s :
  first_run false fuel n spaces = ((h, s), Ok tt) ->
  good (hp_strings h) (hp_classes h) /\
  exists hb,
    ProcessBody sdk patch c cf rt runtime false fuel n
      (with_heap HPROF_HEAP_DEFAULT 0 (with_output (new_output None) new_hprof), spaces)
    = ((hb, s), Ok tt) /\
    ProcessHeader sdk c cf false hb = (h, Ok tt) /\ same_tables hb h.
Proof.
  intros E. destruct (first_run_parts _ _ _ _ _ _ E) as (hb & Eb & Eh).
  assert (Hr : replay False (H := recorded_prod (H := recorded_hprof sdk c cf
      {| written := 0; most1 := 0; most2 := 0 |} [] []) (H0 := recorded_heap s))
      (ProcessBody sdk patch c cf rt runtime false fuel n)) by by eapply replay_ProcessBody.
  pose proof (rp_grows _ _ Hr (with_heap HPROF_HEAP_DEFAULT 0
    (with_output (new_output None) new_hprof), spaces)) as [(_ & _ & Hg) _].
  rewrite Eb in Hg. cbn [fst hp_strings hp_classes with_heap with_output new_hprof] in Hg.
  assert (Hgood : good (hp_strings hb) (hp_classes hb)) by (apply Hg; constructor).
  pose proof (header_kept _ _ _ Hgood Eh) as T. split; [|eauto].
  by rewrite (proj1 T), (rest_classes _ _ (proj2 T)).
Qed.

Lemma runs_agree spaces h1 s1 h2 s2 :
  first_run false fuel n spaces = ((h1, s1), Ok tt) ->
  complete sdk patch c fuel heap s1 ->
  DumpToFile sdk patch c cf rt runtime false fuel n (not_first h1, s1) = ((h2, s2), Ok true) ->
  hp_strings h2 = hp_strings h1 /\ hp_classes h2 = hp_classes h1 /\
  eo_sum (hp_output h2) = eo_sum (hp_output h1) /\
  eo_max (hp_output h2) = eo_max (hp_output h1).
Proof.
  intros E1 Hcomp E2. destruct (first_run_good _ _ _ E1) as (Hgood & hb & Eb & Eh & Tb).
  destruct (second_run_parts _ _ _ _ _ _ _ E2) as (hh & Ehh & Ehb).
  set (h0 := with_heap _ _ _) in Ehh. pose proof (header_kept true h0 hh Hgood Ehh) as Thh.
  (* the header of the second run *)
  destruct (header_measured true 0 0 h0 hh Hgood) as (l2 & P2 & [Hs2 Hm2 Hl2 _]);
    [by split|exact Ehh|].
  edestruct (header_written sdk c cf s1 s1 h0 hh) as (_ & _ & [(b & Hb & _) _ _ Hst] & _ & _);
    [|unfold at_hprof, zoom; cbn [fst snd]; by rewrite Ehh|]; [split; cbn; [by eexists|done..]|].
  (* its body *)
  assert (Hr : replay (good (hp_strings h1) (hp_classes h1) /\ complete sdk patch c fuel heap s1)
      (H := recorded_prod (H := recorded_hprof sdk c cf
        {| written := total l2; most1 := 0; most2 := peak 0 l2 |} (hp_strings h1) (hp_classes h1))
        (H0 := recorded_heap s1))
      (ProcessBody sdk patch c cf rt runtime false fuel n))
    by (eapply replay_ProcessBody; try done; by intros [? ?]).
  pose proof (rp_at _ _ Hr (conj Hgood Hcomp) (with_heap HPROF_HEAP_DEFAULT 0
    (with_output (new_output None) new_hprof), spaces) (hh, s1)) as Ha.
  unfold replay_at in Ha. rewrite Eb, Ehb in Ha. cbn [fst snd] in Ha.
  destruct Thh as [Thh1 [= Thh2 Thh3 Thh4]].
  destruct Ha as [?|[_ [((Hl & _ & _ & _ & Hs & mx & Hmx1 & Hmx2) & _ & _ & Hst' & Hcl') _]]];
    [|..|done|].
  { split; cbn [fst snd]; [|by split_and!]. split; [|by rewrite Thh1, Thh2, Thh3, Thh4].
    cbn [hp_output with_heap with_output new_output]. split_and!; cbn -[wrap]; try done.
    - by rewrite Hb.
    - exists 0. rewrite Hm2. pose proof (peak_le 0 l2). cbn [most2]. lia. }
  { split; cbn [fst snd]; [|split_and!; by right]. destruct Tb as [-> Tr].
    by rewrite (rest_classes _ _ Tr). }
  cbn [written most1 most2 fst] in Hs, Hmx1, Hmx2.
  (* the header of the first run *)
  destruct (body_ends _ _ _ _ _ _ Eb) as [Hz Hu].
  assert (Hgb : good (hp_strings hb) (hp_classes hb))
    by by rewrite <- (proj1 Tb), <- (rest_classes _ _ (proj2 Tb)).
  destruct (header_measured false (eo_sum (hp_output hb)) (eo_max (hp_output hb)) hb h1 Hgb)
    as (l1 & P1 & [Hs1 Hm1 _ _]); [|exact Eh|].
  { split; [cbn -[wrap]; by rewrite Z.add_0_r|done|done|lia]. }
  assert (Hp : l2 ≡ₚ l1).
  { rewrite P1, P2. unfold h0. cbn [hp_strings hp_classes with_heap with_output not_first].
    by rewrite (proj1 Tb), (rest_classes _ _ (proj2 Tb)). }
  split_and!; [done|done|..].
  - rewrite Hs, Hs1. by rewrite (total_perm _ _ Hp).
  - rewrite Hmx2, Hm1, (peak_perm _ _ _ Hp), (peak_split (eo_max _)) by lia.
    pose proof (peak_le 0 l1). lia.
Qed.

Lemma Dump_parts spaces h s :
  Dump sdk patch c cf rt runtime false fuel n (new_hprof, spaces) = ((h, s), Ok true) ->
  exists h1 s1, first_run false fuel n spaces = ((h1, s1), Ok tt) /\
    DumpToFile sdk patch c cf rt runtime false fuel n (not_first h1, s1) = ((h, s), Ok true).
Proof.
  intros E. unfold Dump in E. apply pbind_Ok_inv in E as ([g0 t0] & [] & E0 & E).
  apply at_hprof_Ok in E0 as [E0 ->]. unfold modify in E0. injection E0 as <-.
  apply pbind_Ok_inv in E as ([g1 t1] & [] & E1 & E).
  apply pbind_Ok_inv in E as ([g2 t2] & [] & E2 & E).
  apply at_hprof_Ok in E2 as [E2 ->]. unfold modify in E2. injection E2 as <-.
  by exists g1, t1.
Qed.
(** The spaces as the first run leaves them. *)
Definition spaces_seen (spaces : HeapCache) : HeapCache :=
  snd (fst (first_run false fuel n spaces)).
Definition measured (spaces : HeapCache) : Hprof := fst (fst (first_run false fuel n spaces)).

Lemma class_resolved strings p r :
  class_record sdk c cf strings p r -> exists d id,
    PrettyDescriptor sdk c cf (fst p) = Ok d /\ (d, id) ∈ strings /\ r = load_class_record p id.
Proof.
  intros (d & id & Hd & Hid & ->). exists d, id. split_and!; [done| |done].
  unfold find_string in Hid. destruct (find _ strings) as [[d' id']|] eqn:E; [|done].
  apply List.find_some in E as [Hin Heq]. cbn in *. injection Hid as ->.
  apply bool_decide_eq_true_1 in Heq as ->. by apply list_elem_of_In.
Qed.
Lemma first_run_numbered spaces h s :
  first_run false fuel n spaces = ((h, s), Ok tt) -> numbered_strings (hp_strings h).
Proof.
  intros E. destruct (first_run_good _ _ _ E) as (_ & hb & Eb & _ & Tb).
  rewrite (proj1 Tb). apply nb_ids. eapply body_numbered; [exact Hc|exact Eb|].
  split; [constructor|by intros [|i]|done].
Qed.

(** C38: The parser of the format reads the file of a dump back: when the second run reports
    success, no write failed and the file is shorter than 2^32, it has the strings of the
    table, a record for every class with the number that the table gives to its name, the
    stack trace, segments of the heap, and the end. *)
Theorem DumpToFile_parses (quick : bool) h spaces h' spaces' b
    (Hrun : DumpToFile sdk patch c cf rt runtime quick fuel n (h, spaces)
            = ((h', spaces'), Ok true))
    (Hb : eo_buffer (hp_output h') = Some b) (Herr : fb_errors b = false)
    (Hlen : Z.of_nat (length (fb_file b)) < 2 ^ 32) :
  exists classes bodies,
    Forall2 (class_record sdk c cf (hp_strings h')) (hash_order (hp_classes h)) classes /\
    parse_file (fb_file b) = Some ((string_record <$> hash_order (hp_strings h)) ++ classes ++
      [stack_trace_record] ++ (segment_record <$> bodies) ++ [end_record]).
Proof.
  destruct (records_valid sdk patch c Hc cf rt runtime quick fuel n h spaces h' spaces' b)
    as (classes & bodies & ? & ? & _); eauto.
Qed.

(** C39: The first run of a full dump ([quick] false) measures what the second run writes.  When
    both runs of [Hprof::Dump] succeed (no exception, and the second run does not find its
    lengths wrong) and the lists of spaces and of large objects are [complete] after the first
    run (no exception interrupted their filling, so that the second run walks the same
    spaces), the second run needs no string and no class that the first one has not collected,
    and it writes as many bytes, in records no longer than the longest one that was measured.
    A quick dump leaves the objects out of the first run only, and this does not hold for
    it. *)
Theorem Dump_measured spaces h s
    (Hrun : Dump sdk patch c cf rt runtime false fuel n (new_hprof, spaces) = ((h, s), Ok true))
    (Hall : complete sdk patch c fuel heap (spaces_seen spaces)) :
  hp_strings h = hp_strings (measured spaces) /\ hp_classes h = hp_classes (measured spaces) /\
  eo_sum (hp_output h) = eo_sum (hp_output (measured spaces)) /\
  eo_max (hp_output h) = eo_max (hp_output (measured spaces)).
Proof.
  destruct (Dump_parts _ _ _ Hrun) as (h1 & s1 & E1 & E2).
  unfold spaces_seen, measured in *. rewrite E1 in *. by eapply runs_agree.
Qed.

(** C40: Every class of a full dump ([quick] false) has a name in its file, when the dump
    succeeds, the lists of spaces are [complete], no write failed and the file is shorter than
    2^32: the file parses, the record of the class refers to a string record that holds the
    descriptor of the class, and no other string of the dump has the same number. *)
Theorem Dump_class_names spaces h s b
    (Hrun : Dump sdk patch c cf rt runtime false fuel n (new_hprof, spaces) = ((h, s), Ok true))
    (Hall : complete sdk patch c fuel heap (spaces_seen spaces))
    (Hb : eo_buffer (hp_output h) = Some b) (Herr : fb_errors b = false)
    (Hlen : Z.of_nat (length (fb_file b)) < 2 ^ 32) :
  exists rs, parse_file (fb_file b) = Some rs /\
    forall p, p ∈ hp_classes h -> exists d id,
      PrettyDescriptor sdk c cf (fst p) = Ok d /\
      load_class_record p id ∈ rs /\ string_record (d, id) ∈ rs /\
      forall q, q ∈ hp_strings h -> snd q = id -> q = (d, id).
Proof.
  destruct (Dump_parts _ _ _ Hrun) as (h1 & s1 & E1 & E2).
  unfold spaces_seen in Hall. rewrite E1 in Hall.
  destruct (runs_agree _ _ _ _ _ E1 Hall E2) as (Es & Ecl & _).
  destruct (records_valid sdk patch c Hc cf rt runtime false fuel n (not_first h1) s1 h s b)
    as (classes & bodies & Hcls & Hp & Hcount); [done..|].
  eexists. split; [exact Hp|]. intros p Hin. rewrite Ecl in Hin.
  cbn [hp_strings hp_classes not_first] in *. rewrite <- (hash_order_perm _ (hp_classes h1)) in Hin.
  apply list_elem_of_lookup in Hin as [i Hi].
  destruct (Forall2_lookup_l _ _ _ _ _ Hcls Hi) as (r & Hr & Hrec).
  apply class_resolved in Hrec as (d & id & Hd & Hid & ->). exists d, id.
  rewrite Es in *. split_and!; [done|..].
  - apply elem_of_app. right. apply elem_of_app. left. by apply list_elem_of_lookup_2 in Hr.
  - apply elem_of_app. left. apply list_elem_of_fmap. exists (d, id). split; [done|].
    by rewrite hash_order_perm.
  - intros q Hq <-. eapply numbered_ids; [by eapply first_run_numbered|lia|done..].
Qed.
End Dump.

(** * A dump *)

#[local] Existing Instance arm64_Core.
#[local] Instance demo_stdio : Stdio :=
  {| fopen := true;
     fwrite file bs := match bs with [] => (file, false) | _ => (file ++ bs, true) end |}.
#[local] Instance demo_stdio_laws : StdioLaws.
Proof. by split; intros file [|x bs] file' [= <-]. Qed.
#[local] Instance demo_order : HashOrder.
Proof. refine {| hash_order _ l := rev l |}. intros A l. symmetry. apply Permutation_rev. Defined.

(** The runtime at 0x1A00 has its heap at 0x1C08, the heap a vector of two zygote spaces, of
    which the first holds an object at 0x1000 of the class demo.A at 0x1100; the class has the
    superclass demo.B and the fields size and next, demo.B again a field size. *)
Definition hprof_class_bytes (super fields type : Z) : list Z :=
  memory 120
    [(0, le_bytes 4 0x1980); (16, le_bytes 4 0x1600); (32, le_bytes 4 super);
     (40, le_bytes 8 fields); (84, le_bytes 4 type); (96, le_bytes 4 24); (112, le_bytes 4 4)].
Definition hprof_memory : list Z :=
  memory 0x1000
    [(0, le_bytes 4 0x1100 ++ le_bytes 4 0 ++ le_bytes 4 21 ++ le_bytes 4 34 ++ le_bytes 4 0x1400);
     (0x100, hprof_class_bytes 0x1200 0x1500 0);
     (0x200, hprof_class_bytes 0 0x1540 1);
     (0x500, le_bytes 4 2 ++ field_bytes 0x1100 0 8 ++ field_bytes 0x1100 1 16);
     (0x540, le_bytes 4 1 ++ field_bytes 0x1200 2 12);
     (0x610, le_bytes 8 0x1700);
     (0x718, le_bytes 8 0x1900); (0x750, table_bytes 8 [0x1800; 0x1840; 0x1880]);
     (0x800, table_bytes 4 [0; 16; 32; 48; 64; 80]);
     (0x840, table_bytes 4 [0; 1; 2; 5]);
     (0x880, table_bytes 4 [0x30000; 3; 0; 4; 0x30000; 3]);
     (0x900, text "Ldemo/A;"); (0x910, text "Ldemo/B;"); (0x920, text "Ldemo/I;");
     (0x930, text "size"); (0x940, text "next"); (0x950, text "I");
     (0x980, hprof_class_bytes 0 0 2); (0x980, le_bytes 4 0x1980);
     (0xC00, le_bytes 8 0x1C08 ++ le_bytes 8 0x1C40 ++ le_bytes 8 0x1C50 ++ le_bytes 8 0x1C50);
     (0xC20, le_bytes 8 0x1C50 ++ le_bytes 8 0x1C50 ++ le_bytes 8 0x1C50);
     (0xC40, le_bytes 8 0x1D00 ++ le_bytes 8 0x1E00);
     (0xC60, le_bytes 8 0 ++ le_bytes 8 0 ++ le_bytes 8 0x1C80);
     (0xC80, le_bytes 4 0x52800040);
     (0xD00, le_bytes 8 0x1C60); 
     (0xD00 + 40, le_bytes 8 0x1000 ++ le_bytes 8 0x1018 ++ le_bytes 8 0x1018);
     (0xE00, le_bytes 8 0x1C60)].
Definition hprof_core : CoreApi := one_core 0x1000 hprof_memory.
Lemma hprof_space : space_ok hprof_core.
Proof. apply one_core_ok; [done|apply Nat.ltb_lt; by vm_compute]. Qed.
Lemma hprof_null : linear_find hprof_core 0 (mQuickLoad hprof_core) = None.
Proof. by vm_compute. Qed.
Definition hprof_runtime : Runtime_OffsetTable := @Runtime_table arm64_Core Sdk.T.
Definition hprof_heap : MemoryRef := MkRef 0x1C08 (Some 0%nat).
Definition demo_dump : (Hprof * HeapCache) * result bool :=
  Dump Sdk.T 0 hprof_core 3 hprof_runtime (ref_at 0x1A00) false 10 4 (new_hprof, no_spaces).
Local Notation demo_spaces :=
  (spaces_seen Sdk.T 0 hprof_core 3 hprof_runtime (ref_at 0x1A00) 10 4 no_spaces).
Local Notation demo_measured :=
  (measured Sdk.T 0 hprof_core 3 hprof_runtime (ref_at 0x1A00) 10 4 no_spaces).
Definition dumped : Hprof := fst (fst demo_dump).
Definition dumped_file : FileBuffer := default new_file (eo_buffer (hp_output dumped)).

Lemma demo_complete : complete Sdk.T 0 hprof_core 10 hprof_heap demo_spaces.
Proof.
  split; [by vm_compute|by vm_compute|].
  assert (E : hc_discontinuous demo_spaces = []) by by vm_compute.
  intros i s m Hs. by rewrite E in Hs.
Qed.

Lemma DumpToFile_parses_witness : exists classes bodies,
  length classes = 1%nat /\
  parse_file (fb_file dumped_file) =
    Some ((string_record <$> hash_order (hp_strings (not_first demo_measured))) ++ classes ++
      [stack_trace_record] ++ (segment_record <$> bodies) ++ [end_record]).
Proof.
  destruct (DumpToFile_parses Sdk.T 0 hprof_core hprof_space 3 hprof_runtime (ref_at 0x1A00) 10 4
    false (not_first demo_measured) demo_spaces dumped (snd (fst demo_dump)) dumped_file)
    as (classes & bodies & Hcls & Hp);
    [by vm_compute|by vm_compute|by vm_compute|by vm_compute|].
  exists classes, bodies. split; [|exact Hp]. apply Forall2_length in Hcls.
  rewrite <- Hcls. clear. by vm_compute.
Defined.

Lemma Dump_measured_witness :
  eo_sum (hp_output dumped) = 171 /\
  eo_sum (hp_output dumped) = eo_sum (hp_output demo_measured) /\
  eo_max (hp_output dumped) = eo_max (hp_output demo_measured).
Proof.
  destruct (Dump_measured Sdk.T 0 hprof_core hprof_space hprof_null 3 hprof_runtime (ref_at 0x1A00)
    10 4 hprof_heap eq_refl no_spaces dumped (snd (fst demo_dump)))
    as (_ & _ & Hsum & Hmax); [by vm_compute|exact demo_complete|].
  split; [clear; by vm_compute|]. split; [exact Hsum|exact Hmax].
Defined.

Lemma Dump_class_names_witness : exists rs,
  parse_file (fb_file dumped_file) = Some rs /\ exists id,
    load_class_record (MkRef 0x1100 (Some 0%nat), 1) id ∈ rs /\
    string_record (chars "demo.A", id) ∈ rs.
Proof.
  destruct (Dump_class_names Sdk.T 0 hprof_core hprof_space hprof_null 3 hprof_runtime
    (ref_at 0x1A00) 10 4 hprof_heap eq_refl no_spaces dumped (snd (fst demo_dump)) dumped_file)
    as (rs & Hp & Hnames);
    [by vm_compute|exact demo_complete|by vm_compute|by vm_compute|by vm_compute|].
  exists rs. split; [exact Hp|].
  destruct (Hnames (MkRef 0x1100 (Some 0%nat), 1)) as (d & id & Hd & Hload & Hs & _).
  { clear. assert (E : hp_classes dumped = [(MkRef 0x1100 (Some 0%nat), 1)]) by by vm_compute.
    rewrite E. by apply list_elem_of_singleton. }
  assert (E : d = chars "demo.A") by (clear -Hd; vm_compute in Hd; by simplify_eq).
  subst d. exists id. split; [exact Hload|exact Hs].
Defined.
