(* ===== verification/References.v ===== *)
(** The walk over all references of native code: [Android::ForeachReferences] of
    android/android.cpp, over the tables of [Refs] and the threads of [JavaThreads].

    The flags choose the kinds of references; above them they may hold the id of the only
    thread whose local references are wanted. *)

From Stdlib Require Import ZArith Lia Bool String.
From stdpp Require Import base list gmap numbers.
From S2P Require Import Prelude Words Host Blocks Notes CoreApi Segments AddressSpace MemRef Elf.
From S2P Require Import Mirrors Cxx RuntimeTables Dex Runtimes JavaStack JavaThreads Refs.
Open Scope Z_scope.

Definition EACH_LOCAL_REFERENCES : Z := 1.
Definition EACH_GLOBAL_REFERENCES : Z := 2.
Definition EACH_WEAK_GLOBAL_REFERENCES : Z := 4.
Definition EACH_LOCAL_REFERENCES_BY_TID_SHIFT : Z := 8.

Section References.
Context {M : Machine} (sdk patch : Z) (c : CoreApi) (rt : Runtime_OffsetTable)
  (runtime : MemoryRef).
Context {S : Type} (fn : MemoryRef -> Z -> Z -> prog S unit).

Definition GetJNIEnv (thread : MemoryRef) : result MemoryRef :=
  quick_cache c (tls_word sdk c tls_jni_env thread) (GetTlsPtr sdk c thread).
(** The type a local reference of a thread is reported with. *)
Definition local_type (tid : Z) : Z :=
  i32 (Z.lor kLocal (shl 32 tid EACH_LOCAL_REFERENCES_BY_TID_SHIFT)).
Definition local_references (thread : MemoryRef) (current : Z) : prog S unit :=
  let visit obj idx := fn obj (local_type current) idx in
  let$ env := lift (GetJNIEnv thread) in
  if Sdk.U <=? sdk then let$ t := lift (env_locals sdk c env) in lrt_Walk sdk c visit t
  else let$ t := lift (GetLocalsTable sdk c env) in irt_Walk sdk c visit t.
(** Is a thread left out? *)
Definition other_thread (tid current : Z) : bool :=
  (nz tid && negb (tid =? current)) || negb (nz current).
Fixpoint threads_loop (tid : Z) (l : list MemoryRef) : prog S unit :=
  match l with
  | [] => pret tt
  | thread :: l =>
      let$ id := lift (GetTid sdk c thread) in
      let current := i32 id in
      let$ _ := (if other_thread tid current then pret tt else local_references thread current) in
      threads_loop tid l
  end.
(** [ForeachReferences(fn, flag)]. *)
Definition ForeachReferences_flag (fuel : nat) (flag : Z) : prog S unit :=
  let$ vm := lift (GetJavaVM c rt runtime) in
  let tid := Z.shiftr (i32 flag) EACH_LOCAL_REFERENCES_BY_TID_SHIFT in
  let$ _ :=
    (if nz (Z.land flag EACH_LOCAL_REFERENCES) then
       let$ threads := lift (GetThreadList c rt runtime) in
       let$ l := lift (GetList sdk c fuel threads) in threads_loop tid l
     else pret tt) in
  let$ _ :=
    (if nz (Z.land flag EACH_GLOBAL_REFERENCES) then
       let$ t := lift (GetGlobalsTable sdk c patch vm) in
       irt_Walk sdk c (fun obj idx => fn obj kGlobal idx) t
     else pret tt) in
  if nz (Z.land flag EACH_WEAK_GLOBAL_REFERENCES) then
    let$ t := lift (GetWeakGlobalsTable sdk c patch vm) in
    irt_Walk sdk c (fun obj idx => fn obj kWeakGlobal idx) t
  else pret tt.
Definition ForeachReferences (fuel : nat) : prog S unit :=
  ForeachReferences_flag fuel
    (Z.lor EACH_LOCAL_REFERENCES (Z.lor EACH_GLOBAL_REFERENCES EACH_WEAK_GLOBAL_REFERENCES)).

(** With an id in the flags only the threads of this id are walked. *)
Lemma threads_loop_tid tid l ids s :
  tid <> 0 -> Forall2 (fun t id => GetTid sdk c t = Ok id) l ids ->
  threads_loop tid l s =
  foldr (fun '(t, id) (p : prog S unit) =>
      if i32 id =? tid then let$ _ := local_references t tid in p else p)
    (pret tt) (zip l ids) s.
Proof.
  intros Ht Hl. revert s. induction Hl as [|t id l ids E _ IH]; intros s; [done|].
  cbn [threads_loop zip_with foldr]. rewrite (pbind_lift _ _ _ _ E). unfold other_thread, nz.
  destruct (Z.eqb_spec tid 0) as [|_]; [done|]. cbn [negb andb].
  destruct (Z.eqb_spec tid (i32 id)) as [He|Hne].
  - rewrite <- He, Z.eqb_refl, (proj2 (Z.eqb_neq tid 0) Ht). cbn [negb orb].
    unfold pbind. by destruct (local_references t tid s) as [s' [[]| | |]].
  - rewrite (proj2 (Z.eqb_neq (i32 id) tid)) by done. cbn [negb orb]. unfold pbind, pret. apply IH.
Qed.
End References.
