(* ===== verification/Logcat.v ===== *)
(** The log buffers of the log daemon: android/logcat and parser/command/android/cmd_logcat.cpp.

    A core of logd holds, per buffer, a list of chunks; a chunk is a run of entries: a header of
    30 bytes and a message.  [DecodeDump] prints the entries of a chunk, one line for every line
    of the message; the printed lines are the state, so that those in front of an exception
    remain.  [localtime] and [strftime] depend on the time zone of the analyser and are the
    class [TimeZone].  Names and lines are lists of bytes. *)

From Stdlib Require Import ZArith Lia Bool String.
From stdpp Require Import base list gmap numbers.
From S2P Require Import Prelude Words Host Blocks Notes CoreApi Segments AddressSpace MemRef Elf.
From S2P Require Import Text Mirrors Cxx RuntimeTables EventTags.
Open Scope Z_scope.

(** The time as [%Y-%m-%d %H:%M:%S]. *)
Class TimeZone := { local_time : Z -> list Z }.

(** * Constants *)

Definition LOG_ID_MAIN : Z := 0.
Definition LOG_ID_RADIO : Z := 1.
Definition LOG_ID_EVENTS : Z := 2.
Definition LOG_ID_SYSTEM : Z := 3.
Definition LOG_ID_CRASH : Z := 4.
Definition LOG_ID_KERNEL : Z := 7.
Definition LOG_ID_MAX : Z := 8.
Definition ANDROID_LOG_INFO : Z := 4.
(** [ConvertPriority(prio)]. *)
Definition ConvertPriority (prio : Z) : list Z :=
  chars (if prio =? 2 then "V" else if prio =? 3 then "D" else if prio =? 4 then "I"
         else if prio =? 5 then "W" else if prio =? 6 then "E" else if prio =? 7 then "F"
         else if prio =? 8 then "S" else "I").
(** [SerializedData::FILTER_PID] and the others. *)
Definition FILTER_PID : Z := 1.
Definition FILTER_UID : Z := 2.
Definition FILTER_TID : Z := 4.
(** [EventTags::DataType]. *)
Definition TAGS_TYPE_INT : Z := 0.
Definition TAGS_TYPE_LONG : Z := 1.
Definition TAGS_TYPE_STRING : Z := 2.
Definition TAGS_TYPE_LIST : Z := 3.
(** [EventTags::ConvertTags(id)]. *)
Definition ConvertTags (id : Z) : list Z :=
  match find (fun e => fst e =? id) kEventTags with
  | Some e => chars (snd e)
  | None => to_string id
  end.

Record SerializedData_OffsetTable := { sd_data_ : Z; sd_size_ : Z }.
Record SerializedLogBuffer_OffsetTable := { slb_vtbl : Z; slb_reader_list_ : Z; slb_tags_ : Z;
  slb_stats_ : Z; slb_max_size_ : Z; slb_logs_ : Z }.
Record SerializedLogBuffer_SizeTable := { slb_THIS : Z; slb_vtbl_size : Z }.

(** * Text *)

(** [submsg.resize(len)]. *)
Definition resize (len : Z) (s : list Z) : list Z :=
  take (Z.to_nat len) s ++ replicate (Z.to_nat len - length s) 0.
(** The tokens of [strtok(s, "\n")], behind the bytes [token] of the current one. *)
Fixpoint lines_of (token s : list Z) : list (list Z) :=
  match s with
  | [] => match token with [] => [] | _ => [token] end
  | b :: s =>
      if b =? 10 then match token with [] => lines_of [] s | _ => token :: lines_of [] s end
      else lines_of (token ++ [b]) s
  end.
(** The text of [s] as a string of C. *)
Definition c_text (s : list Z) : list Z := default [] (cstr_of (s ++ [0])).
(** [%<w>d] and [%03d]. *)
Definition padded (w : nat) (fill : Z) (s : list Z) : list Z := replicate (w - length s) fill ++ s.
Definition decimal (w : nat) (v : Z) : list Z := padded w 32 (to_string (i32 v)).

(** * Entries *)

(** [SerializedElement]. *)
Record SerializedElement := { se_uid : Z; se_pid : Z; se_tid : Z; se_tv_sec : Z; se_tv_nsec : Z;
  se_log_id : Z; se_tag : list Z; se_msg : list Z }.
(** What the header tells, and the first byte of the message. *)
Record EntryHeader := { eh_uid : Z; eh_pid : Z; eh_tid : Z; eh_tv_sec : Z; eh_tv_nsec : Z;
  eh_msg_len : Z; eh_log_id : Z }.

Section Logcat.
Context `{TimeZone} {M : Machine} (sdk : Z) (c : CoreApi).

Definition SerializedData_Init : SerializedData_OffsetTable :=
  if bits =? 64 then {| sd_data_ := 0; sd_size_ := 8 |} else {| sd_data_ := 0; sd_size_ := 0 |}.
Definition SerializedLogBuffer_Init31 : SerializedLogBuffer_OffsetTable :=
  {| slb_vtbl := 0; slb_reader_list_ := 8; slb_tags_ := 16; slb_stats_ := 24;
     slb_max_size_ := 32; slb_logs_ := 96 |}.
Definition SerializedLogBuffer_size31 : SerializedLogBuffer_SizeTable :=
  {| slb_THIS := 288; slb_vtbl_size := 10 |}.
Definition SerializedLogBuffer_table : SerializedLogBuffer_OffsetTable :=
  listen sdk {| slb_vtbl := 0; slb_reader_list_ := 0; slb_tags_ := 0; slb_stats_ := 0;
                slb_max_size_ := 0; slb_logs_ := 0 |} [(Sdk.S, SerializedLogBuffer_Init31)].
Definition SerializedLogBuffer_size : SerializedLogBuffer_SizeTable :=
  listen sdk {| slb_THIS := 0; slb_vtbl_size := 0 |} [(Sdk.S, SerializedLogBuffer_size31)].

(** The string [off] bytes behind the reference. *)
Definition text_at (r : MemoryRef) (off : Z) : result (list Z) :=
  let! '(_, p) := Real c r in host_cstr (host_mem c) (u64 (p + off)).

(** An element of a list: its text, and the reference behind it. *)
Definition list_item (r : MemoryRef) : result (list Z * MemoryRef) :=
  let! subtype := word c r 0 1 in
  if subtype =? TAGS_TYPE_INT then
    let! v := word c r 1 4 in
    let! r := MovePtr c r 5 in Ok (to_string v, r)
  else if subtype =? TAGS_TYPE_LONG then
    let! v := word c r 1 8 in
    let! r := MovePtr c r 9 in Ok (to_string v, r)
  else if subtype =? TAGS_TYPE_STRING then
    let! len := word c r 1 4 in
    let! s := text_at r 5 in
    let! r := MovePtr c r (len + 5) in Ok (resize len s, r)
  else Ok ([], r).
Fixpoint list_items (n : nat) (r : MemoryRef) : result (list Z) :=
  match n with
  | O => Ok []
  | S n =>
      let! '(s, r) := list_item r in
      let! rest := list_items n r in
      Ok (s ++ (match n with O => [] | _ => chars "," end) ++ rest)
  end.
(** The message of an event. *)
Definition event_text (data : MemoryRef) : result (list Z) :=
  let! type := word c data 34 1 in
  if type =? TAGS_TYPE_INT then let! v := word c data 35 4 in Ok (to_string v)
  else if type =? TAGS_TYPE_LONG then let! v := word c data 35 8 in Ok (to_string v)
  else if type =? TAGS_TYPE_STRING then
    let! len := word c data 35 4 in
    let! s := text_at data 39 in Ok (resize len s)
  else if type =? TAGS_TYPE_LIST then
    let! count := word c data 35 1 in
    let! s := list_items (Z.to_nat count) (ref_at (u64 (vaddr data + 36))) in
    Ok (chars "[" ++ s ++ chars "]")
  else Ok [].
(** The priority, the tag and the message. *)
Definition entry_payload (log_id : Z) (data : MemoryRef) : result (Z * list Z * list Z) :=
  if LOG_ID_MAX <? log_id then
    let! event_id := word c data 30 4 in
    let! msg := event_text data in Ok (ANDROID_LOG_INFO, ConvertTags (i32 event_id), msg)
  else
    let! tag := text_at data 31 in
    let! msg := text_at data (31 + Z.of_nat (length tag) + 1) in Ok (log_id, tag, msg).

(** The lines printed for an entry. *)
Definition time_text (sec nsec : Z) : list Z :=
  let timestamp := u64 (sec * 1000 + nsec / 1000000) in
  local_time (timestamp / 1000) ++ chars "." ++ padded 3 48 (to_string (timestamp mod 1000)).
Definition line (e : SerializedElement) (token : list Z) : list Z :=
  time_text (se_tv_sec e) (se_tv_nsec e) ++ chars " " ++ decimal 6 (se_uid e) ++ chars " " ++
  decimal 5 (se_pid e) ++ chars " " ++ decimal 5 (se_tid e) ++ chars " " ++
  ConvertPriority (se_log_id e) ++ chars " " ++ c_text (se_tag e) ++ chars ": " ++ token.
Definition entry_lines (e : SerializedElement) : list (list Z) :=
  map (line e) (lines_of [] (c_text (se_msg e))).

Definition filtered_out (filter id : Z) (h : EntryHeader) : bool :=
  (nz (Z.land filter FILTER_PID) && negb (eh_pid h =? u32 id))
  || (nz (Z.land filter FILTER_UID) && negb (eh_uid h =? u32 id))
  || (nz (Z.land filter FILTER_TID) && negb (eh_tid h =? u32 id)).
(** The header of the entry at [data]; an entry without a process ends the chunk. *)
Definition log_header (data : MemoryRef) : result (option EntryHeader) :=
  let! uid := word c data 0 4 in
  let! pid := word c data 4 4 in
  let! tid := word c data 8 4 in
  if pid =? 0 then Ok None
  else
    let! sec := word c data 20 4 in
    let! nsec := word c data 24 4 in
    let! len := word c data 28 2 in
    let! log_id := word c data 30 1 in
    Ok (Some {| eh_uid := uid; eh_pid := pid; eh_tid := tid; eh_tv_sec := sec; eh_tv_nsec := nsec;
                eh_msg_len := len; eh_log_id := log_id |}).
Definition log_element (h : EntryHeader) (p : Z * list Z * list Z) : SerializedElement :=
  {| se_uid := eh_uid h; se_pid := eh_pid h; se_tid := eh_tid h; se_tv_sec := eh_tv_sec h;
     se_tv_nsec := eh_tv_nsec h; se_log_id := fst (fst p); se_tag := snd (fst p);
     se_msg := snd p |}.
(** The loop of [DecodeDump]: the counter is an [int]. *)
Fixpoint decode_loop (fuel : nat) (filter id : Z) (chunk data : MemoryRef) (i : Z)
    : prog (list (list Z)) unit :=
  match fuel with
  | O => lift OutOfFuel
  | S n =>
      let$ size := lift (vword c chunk (sd_size_ SerializedData_Init)) in
      if i <? size then
        let$ header := lift (log_header data) in
        match header with
        | None => pret tt
        | Some h =>
            let$ _ :=
              (if filtered_out filter id h then pret tt
               else
                 let$ p := lift (entry_payload (eh_log_id h) data) in
                 modify (fun lines => lines ++ entry_lines (log_element h p))) in
            let$ data := lift (MovePtr c data (30 + eh_msg_len h)) in
            if i =? 2 ^ 31 - 1 then lift Fault
            else decode_loop n filter id chunk data (i + 1)
        end
      else pret tt
  end.
Definition DecodeDump (fuel : nat) (filter id : Z) (chunk : MemoryRef)
    : prog (list (list Z)) unit :=
  let$ data := lift (vword c chunk (sd_data_ SerializedData_Init)) in
  decode_loop fuel filter id chunk (ref_at data) 0.

(** * The buffers *)

(** [PrintSerializedLogBuf(header, logs, filter, id)]. *)
Definition PrintSerializedLogBuf (fuel : nat) (header : list Z) (logs : MemoryRef)
    (filter id : Z) : prog (list (list Z)) unit :=
  let$ _ := modify (fun lines => lines ++ [header]) in
  ptry
    (list_for c fuel logs (fun value =>
       let content := ref_at value in
       let$ data := lift (vword c content (sd_data_ SerializedData_Init)) in
       if nz data then DecodeDump fuel filter id content else pret tt))
    (fun _ => modify (fun lines => lines ++ [chars "maybe loss of partial logs!!"])).

Definition AT_ENTRY : Z := 9.
Definition AT_PLATFORM : Z := 15.
(** [block->virtualContains(address)] for the segment of a reference. *)
Definition block_contains (r : MemoryRef) (address : Z) : result bool :=
  match ref_block r with
  | Some id => Ok (virtualContains (lb c id) address)
  | None => Fault
  end.
Fixpoint methods_match (n : nat) (exec_text vtbl : MemoryRef) (k : Z) : result bool :=
  match n with
  | O => Ok true
  | S n =>
      let! v := vword c vtbl (k * point_size) in
      let! inside := block_contains exec_text v in
      if inside : bool then methods_match n exec_text vtbl (k + 1) else Ok false
  end.
Definition buffer_word (f : SerializedLogBuffer_OffsetTable -> Z) (buffer : MemoryRef) : result Z :=
  vword c buffer (f SerializedLogBuffer_table).
(** Does the object at [buffer] look like a log buffer? *)
Definition is_buffer (exec_text platform buffer : MemoryRef) : result bool :=
  let! v := vword c buffer 0 in
  let! '(vtbl, valid) := IsValid c (ref_at v) in
  if valid : bool then
    let! methods :=
      methods_match (Z.to_nat (slb_vtbl_size SerializedLogBuffer_size)) exec_text vtbl 0 in
    if methods : bool then
      let! readers := buffer_word slb_reader_list_ buffer in
      let! a := block_contains platform readers in
      let! tags := buffer_word slb_tags_ buffer in
      let! b := block_contains platform tags in
      let! stats := buffer_word slb_stats_ buffer in
      let! c := block_contains platform stats in Ok (a && b && c)
    else Ok false
  else Ok false.
Fixpoint scan_buffer (fuel : nat) (exec_text platform buffer : MemoryRef) (end_ : Z)
    : result (option MemoryRef) :=
  match fuel with
  | O => OutOfFuel
  | S n =>
      let! found := is_buffer exec_text platform buffer in
      if found : bool then Ok (Some buffer)
      else
        let! buffer := MovePtr c buffer point_size in
        if u64 (vaddr buffer + slb_THIS SerializedLogBuffer_size) <? end_
        then scan_buffer n exec_text platform buffer end_ else Ok None
  end.
Definition scan_block (fuel : nat) (exec_text platform : MemoryRef) (id : nat)
    : result (option MemoryRef) :=
  let b := lb c id in
  if bit_set (mFlags b) FLAG_W then
    scan_buffer fuel exec_text platform (checkCopyBlock c (ref_at (mVaddr b)) (Some id))
      (u64 (mVaddr b + size b OPT_READ_ALL))
  else Ok None.
(** [Logcat::AnalysisSerializedLogBuffer()]. *)
Definition AnalysisSerializedLogBuffer (fuel : nat) : result MemoryRef :=
  let! exec_text := Prepare c (ref_at (findAuxv c AT_ENTRY)) false in
  let! exec_fn := Prepare c (ref_at (findAuxv c AT_EXECFN)) false in
  let! platform := Prepare c (ref_at (findAuxv c AT_PLATFORM)) false in
  let! '(exec_fn, valid) := IsValid c exec_fn in
  let! other :=
    (if valid : bool then
       let! name := text_at exec_fn 0 in
       Ok (negb (bool_decide (name = [])) && negb (bool_decide (name = chars "/system/bin/logd")))
     else Ok false) in
  if other : bool then Ok (ref_at 0)
  else
    foreachLoadBlock c
      (fun id r =>
         match r with
         | Ok _ =>
             match scan_block fuel exec_text platform id with
             | Ok (Some buffer) => (Ok buffer, true)
             | Ok None => (r, false)
             | Throw a => (Throw a, true)
             | Fault => (Fault, true)
             | OutOfFuel => (OutOfFuel, true)
             end
         | r => (r, true)
         end) true true (Ok (ref_at 0)).

(** [LogcatCommand::main]: the buffers chosen by [dump_flag], in the order of the code. *)
Definition DUMP_MAIN : Z := 1.
Definition DUMP_RADIO : Z := 2.
Definition DUMP_EVENTS : Z := 4.
Definition DUMP_SYSTEM : Z := 8.
Definition DUMP_CRASH : Z := 16.
Definition DUMP_KERNEL : Z := 32.
Definition cxx_list_THIS : Z := 24 / cap.
Definition log_buffers : list (Z * Z * string) :=
  [(DUMP_MAIN, LOG_ID_MAIN, "main"%string); (DUMP_RADIO, LOG_ID_RADIO, "radio"%string);
   (DUMP_EVENTS, LOG_ID_EVENTS, "events"%string); (DUMP_SYSTEM, LOG_ID_SYSTEM, "system"%string);
   (DUMP_CRASH, LOG_ID_CRASH, "crash"%string); (DUMP_KERNEL, LOG_ID_KERNEL, "kernel"%string)].
Fixpoint print_buffers (fuel : nat) (log_buffer : MemoryRef) (flag filter id : Z)
    (l : list (Z * Z * string)) : prog (list (list Z)) unit :=
  match l with
  | [] => pret tt
  | (mask, log_id, name) :: l =>
      let$ _ :=
        (if nz (Z.land flag mask) then
           PrintSerializedLogBuf fuel (chars "--------- beginning of " ++ chars name)
             (ref_at (u64 (vaddr log_buffer + slb_logs_ SerializedLogBuffer_table
                           + log_id * cxx_list_THIS))) filter id
         else pret tt) in
      print_buffers fuel log_buffer flag filter id l
  end.
Definition LogcatCommand_main (fuel : nat) (flag filter id : Z) : prog (list (list Z)) unit :=
  if Sdk.S <=? sdk then
    let$ log_buffer := lift (AnalysisSerializedLogBuffer fuel) in
    if vaddr log_buffer =? 0 then modify (fun lines => lines ++ [chars "Not found SerializedLogBuffer!"])
    else print_buffers fuel log_buffer flag filter id log_buffers
  else pret tt.
End Logcat.
