(* ===== verification/LogcatProofs.v ===== *)
(** What logd writes into a chunk is what [DecodeDump] prints.

    [LogEntry] is an entry as the log daemon stores it, [entry_bytes] its bytes: a packed header
    of 30 bytes, then a priority, a tag and a message, or the id of an event and its values.
    Behind the entries of a chunk lie zero bytes. *)

From Stdlib Require Import ZArith Lia Bool String.
From stdpp Require Import base list gmap numbers.
From S2P Require Import Prelude Words Host Blocks Notes CoreApi Segments AddressSpace MemRef Elf.
From S2P Require Import Text Mirrors Cxx Reading RuntimeTables NoteProofs EventTags Logcat.
Open Scope Z_scope.

(** * The format *)

Inductive EventItem :=
| IntItem (v : Z)
| LongItem (v : Z)
| StringItem (s : list Z).
Inductive EventValue :=
| OneItem (i : EventItem)
| ManyItems (l : list EventItem).
Inductive Payload :=
| TextMessage (prio : Z) (tag msg : list Z)
| EventMessage (id : Z) (v : EventValue).
Record LogEntry := { le_uid : Z; le_pid : Z; le_tid : Z; le_sequence : Z; le_sec : Z; le_nsec : Z;
  le_payload : Payload }.

Definition item_bytes (i : EventItem) : list Z :=
  match i with
  | IntItem v => 0 :: le_bytes 4 v
  | LongItem v => 1 :: le_bytes 8 v
  | StringItem s => 2 :: le_bytes 4 (Z.of_nat (length s)) ++ s
  end.
Definition value_bytes (v : EventValue) : list Z :=
  match v with
  | OneItem i => item_bytes i
  | ManyItems l => 3 :: Z.of_nat (length l) :: concat (map item_bytes l)
  end.
Definition payload_bytes (p : Payload) : list Z :=
  match p with
  | TextMessage prio tag msg => prio :: tag ++ 0 :: msg ++ [0]
  | EventMessage id v => le_bytes 4 id ++ value_bytes v
  end.
Definition header_bytes (e : LogEntry) : list Z :=
  le_bytes 4 (le_uid e) ++ le_bytes 4 (le_pid e) ++ le_bytes 4 (le_tid e) ++
  le_bytes 8 (le_sequence e) ++ le_bytes 4 (le_sec e) ++ le_bytes 4 (le_nsec e) ++
  le_bytes 2 (Z.of_nat (length (payload_bytes (le_payload e)))).
Definition entry_bytes (e : LogEntry) : list Z := header_bytes e ++ payload_bytes (le_payload e).
Definition chunk_bytes (es : list LogEntry) : list Z :=
  concat (map entry_bytes es) ++ replicate 12 0.

Definition item_ok (i : EventItem) : Prop :=
  match i with
  | IntItem v => 0 <= v < 2 ^ 32
  | LongItem v => 0 <= v < 2 ^ 64
  | StringItem s => name_ok s /\ Z.of_nat (length s) < 2 ^ 32
  end.
(** The priorities of text messages are at most [LOG_ID_MAX]; an event may have any id. *)
Definition payload_ok (p : Payload) : Prop :=
  match p with
  | TextMessage prio tag msg => 0 <= prio <= LOG_ID_MAX /\ name_ok tag /\ name_ok msg
  | EventMessage id v =>
      0 <= id < 2 ^ 32 /\
      match v with OneItem i => item_ok i | ManyItems l => Forall item_ok l end
  end.
Definition entry_ok (e : LogEntry) : Prop :=
  0 <= le_uid e < 2 ^ 32 /\ 0 < le_pid e < 2 ^ 32 /\ 0 <= le_tid e < 2 ^ 32 /\
  0 <= le_sec e < 2 ^ 32 /\ 0 <= le_nsec e < 2 ^ 32 /\
  Z.of_nat (length (payload_bytes (le_payload e))) < 2 ^ 16 /\ payload_ok (le_payload e).

(** * What is printed *)

Definition item_text (i : EventItem) : list Z :=
  match i with IntItem v | LongItem v => to_string v | StringItem s => s end.
Fixpoint comma_separated (l : list (list Z)) : list Z :=
  match l with
  | [] => []
  | [s] => s
  | s :: l => s ++ chars "," ++ comma_separated l
  end.
Definition value_text (v : EventValue) : list Z :=
  match v with
  | OneItem i => item_text i
  | ManyItems l => chars "[" ++ comma_separated (map item_text l) ++ chars "]"
  end.
Fixpoint before_zero (l : list Z) : list Z :=
  match l with
  | [] => []
  | b :: l => if b =? 0 then [] else b :: before_zero l
  end.
(** The priority, the tag and the message of an entry, [rest] being the bytes behind it.  An
    event whose id has a low byte of at most [LOG_ID_MAX] is taken for a text message: its
    tag and its message are made of the other bytes of the id, the values and what follows. *)
Definition payload_text (p : Payload) (rest : list Z) : Z * list Z * list Z :=
  match p with
  | TextMessage prio tag msg => (prio, tag, msg)
  | EventMessage id v =>
      if LOG_ID_MAX <? id mod 256 then (ANDROID_LOG_INFO, ConvertTags (i32 id), value_text v)
      else
        let l := drop 1 (payload_bytes p) ++ rest in
        let tag := before_zero l in
        (id mod 256, tag, before_zero (drop (length tag + 1) l))
  end.
Definition printed (e : LogEntry) (rest : list Z) : SerializedElement :=
  let '(prio, tag, msg) := payload_text (le_payload e) rest in
  {| se_uid := le_uid e; se_pid := le_pid e; se_tid := le_tid e; se_tv_sec := le_sec e;
     se_tv_nsec := le_nsec e; se_log_id := prio; se_tag := tag; se_msg := msg |}.

(** The choice of the options: everything, or the entries of one process, user or thread. *)
Inductive Selection := All | OfPid (id : Z) | OfUid (id : Z) | OfTid (id : Z).
Definition selects (s : Selection) (e : LogEntry) : bool :=
  match s with
  | All => true
  | OfPid id => le_pid e =? id
  | OfUid id => le_uid e =? id
  | OfTid id => le_tid e =? id
  end.
(** The lines of the selected entries of a chunk. *)
Fixpoint chunk_lines `{TimeZone} (s : Selection) (es : list LogEntry) : list (list Z) :=
  match es with
  | [] => []
  | e :: es =>
      (if selects s e then entry_lines (printed e (chunk_bytes es)) else []) ++ chunk_lines s es
  end.
Definition selection_filter (s : Selection) : Z :=
  match s with All => 0 | OfPid _ => FILTER_PID | OfUid _ => FILTER_UID | OfTid _ => FILTER_TID end.
Definition selection_id (s : Selection) : Z :=
  match s with All => 0 | OfPid id | OfUid id | OfTid id => id end.

(** The lines of a text are the tokens between its newlines. *)
Lemma lines_of_joined l :
  Forall (fun t => t <> [] /\ Forall (fun b => b <> 10) t) l ->
  lines_of [] (concat (map (fun t => t ++ [10]) l)) = l.
Proof.
  assert (Hgo : forall t w s, Forall (fun b => b <> 10) t ->
    lines_of w (t ++ s) = lines_of (w ++ t) s).
  { intros t. induction t as [|b t IH]; intros w s Ht; cbn; [by rewrite app_nil_r|].
    apply Forall_cons_1 in Ht as [Hb Ht]. rewrite (proj2 (Z.eqb_neq b 10) Hb), IH by done.
    by rewrite <- app_assoc. }
  induction 1 as [|t l [Hne Ht] _ IH]; [done|]. cbn [map concat].
  rewrite <- app_assoc, Hgo by done. cbn. rewrite IH. by destruct t.
Qed.

(** * Reading a chunk *)

Lemma cstr_of_ends rest : 0 ∈ rest -> exists s, cstr_of rest = Some s.
Proof.
  induction rest as [|b rest IH]; [by intros ?%elem_of_nil|].
  intros H. cbn. destruct (Z.eqb_spec b 0); [by eexists|].
  apply elem_of_cons in H as [H|H]; [congruence|]. destruct (IH H) as [s ->]. by eexists.
Qed.
Lemma cstr_of_head s rest :
  name_ok s -> 0 ∈ rest -> exists s', cstr_of (s ++ rest) = Some (s ++ s').
Proof.
  intros Hs Hr. destruct (cstr_of_ends rest Hr) as [s' E]. exists s'.
  induction Hs as [|b s Hb _ IH]; cbn; [done|].
  rewrite (proj2 (Z.eqb_neq b 0) Hb). by rewrite IH.
Qed.
Lemma resize_head s s' : resize (Z.of_nat (length s)) (s ++ s') = s.
Proof.
  unfold resize. rewrite Nat2Z.id, take_app_length, length_app.
  replace (length s - (length s + length s'))%nat with 0%nat by lia. apply app_nil_r.
Qed.

Section Chunk.
Context {M : Machine} (c : CoreApi) (run : Z -> Z -> option (list Z)) `{!Presents c run}.

Lemma word_inside r a l1 l2 n v off m bs :
  ref_ok c r -> vaddr r = a -> shown c run a bs -> bs = l1 ++ le_bytes n v ++ l2 ->
  (0 < n)%nat -> 0 <= v < 2 ^ (8 * Z.of_nat n) ->
  off = Z.of_nat (length l1) -> m = Z.of_nat n -> word c r off m = Ok v.
Proof.
  intros Hr Ha Hs -> Hn Hv -> ->.
  rewrite (word_shown c run r a _ _ _ Hr Ha Hs) by
    (try rewrite !length_app, le_bytes_length; lia).
  rewrite !Nat2Z.id, drop_app_length, take_app_length' by (by rewrite le_bytes_length).
  rewrite le_value_bytes. f_equal. by apply Z.mod_small.
Qed.
Lemma byte_inside r a l1 l2 b off bs :
  ref_ok c r -> vaddr r = a -> shown c run a bs -> bs = l1 ++ b :: l2 ->
  off = Z.of_nat (length l1) -> word c r off 1 = Ok b.
Proof.
  intros Hr Ha Hs -> ->.
  rewrite (word_shown c run r a _ _ _ Hr Ha Hs) by
    (try rewrite length_app, length_cons; lia).
  rewrite Nat2Z.id, drop_app_length. change (Z.to_nat 1) with 1%nat. cbn [firstn le_value].
  rewrite take_0. cbn [le_value]. f_equal. lia.
Qed.
Lemma text_inside r a off bs s :
  ref_ok c r -> vaddr r = a -> shown c run a bs -> 0 <= off ->
  cstr_of (drop (Z.to_nat off) bs) = Some s -> text_at c r off = Ok s.
Proof.
  intros Hr <- (Ha & He & _ & Hrun) Ho Hs. unfold text_at.
  assert (Hl : (Z.to_nat off < length bs)%nat).
  { destruct (decide (Z.to_nat off < length bs)%nat); [done|].
    by rewrite drop_ge in Hs by lia. }
  specialize (Hrun 0 (Z.of_nat (length bs)) ltac:(lia) ltac:(lia) ltac:(lia)).
  rewrite Z.add_0_r, Nat2Z.id in Hrun. cbn [Z.to_nat] in Hrun. rewrite drop_0, firstn_all in Hrun.
  destruct (present_real r (Z.of_nat (length bs)) _ Hr ltac:(lia) ltac:(lia) Hrun)
    as (r' & p & -> & _ & _ & _ & Hp & Hpe & _ & Hstr).
  cbn [rbind]. rewrite wrap_small by lia. by apply Hstr.
Qed.

(** An item of a list. *)
Lemma list_item_shown r a i rest :
  ref_ok c r -> vaddr r = a -> shown c run a (item_bytes i ++ rest) -> item_ok i -> 0 ∈ rest ->
  exists r', list_item c r = Ok (item_text i, r') /\ ref_ok c r' /\
    vaddr r' = a + Z.of_nat (length (item_bytes i)).
Proof.
  intros Hr Ha Hs Hi H0. unfold list_item.
  assert (Hend : a + Z.of_nat (length (item_bytes i)) < 2 ^ 64 /\ 0 < a).
  { destruct Hs as (? & He & _). rewrite length_app in He. lia. }
  assert (Hmove : forall len, len = Z.of_nat (length (item_bytes i)) -> exists r',
    MovePtr c r len = Ok r' /\ vaddr r' = a + len /\ ref_ok c r').
  { intros len ->. apply (MovePtr_shown c run r a _ _ Hr Ha Hs); [|lia]. by destruct i. }
  destruct i as [v|v|s]; cbn [item_bytes item_text app] in *.
  all: rewrite (byte_inside r a [] _ _ 0 _ Hr Ha Hs eq_refl eq_refl); cbn [rbind].
  - rewrite (word_inside r a [0] rest 4 v 1 4 _ Hr Ha Hs) by (done || lia). cbn [rbind].
    destruct (Hmove 5) as (r' & E & Hv & Hr'); [done|]. cbn. rewrite E. cbn. eauto.
  - rewrite (word_inside r a [1] rest 8 v 1 8 _ Hr Ha Hs) by (done || lia). cbn [rbind].
    destruct (Hmove 9) as (r' & E & Hv & Hr'); [done|]. cbn. rewrite E. cbn. eauto.
  - destruct Hi as [Hs0 Hlen].
    rewrite (word_inside r a [2] (s ++ rest) 4 (Z.of_nat (length s)) 1 4 _ Hr Ha Hs) by
      (try (cbn [app]; by rewrite <- app_assoc); done || lia).
    destruct (cstr_of_head s rest Hs0 H0) as [s' Ec].
    rewrite <- app_assoc in Hs.
    rewrite (text_inside r a 5 _ (s ++ s') Hr Ha Hs) by (try exact Ec; lia).
    destruct (Hmove (Z.of_nat (length s) + 5)) as (r' & E & Hv & Hr').
    { rewrite length_cons, length_app, le_bytes_length. lia. }
    cbn -[resize Z.add le_bytes length Z.of_nat]. rewrite E. cbn -[resize Z.add le_bytes length Z.of_nat]. rewrite resize_head. exists r'.
    split_and!; [done|done|]. rewrite Hv, length_cons, length_app, le_bytes_length. lia.
Qed.

Lemma list_items_shown l : forall r a rest,
  ref_ok c r -> vaddr r = a -> shown c run a (concat (map item_bytes l) ++ rest) ->
  Forall item_ok l -> 0 ∈ rest ->
  list_items c (length l) r = Ok (comma_separated (map item_text l)).
Proof.
  induction l as [|i l IH]; intros r a rest Hr Ha Hs Hl H0; [done|].
  apply Forall_cons_1 in Hl as [Hi Hl]. cbn [map concat] in Hs. rewrite <- app_assoc in Hs.
  destruct (list_item_shown r a i _ Hr Ha Hs Hi) as (r' & E & Hr' & Ha').
  { apply elem_of_app. by right. }
  apply shown_app in Hs as [_ Hs].
  cbn [length list_items]. rewrite E. cbn [rbind].
  rewrite (IH r' _ rest Hr' Ha' Hs Hl H0). destruct l; cbn; [by rewrite !app_nil_r|done].
Qed.
(** The message of an event. *)
Lemma event_text_shown r a (e : LogEntry) id v rest :
  ref_ok c r -> vaddr r = a -> le_payload e = EventMessage id v ->
  shown c run a (entry_bytes e ++ rest) -> entry_ok e -> 0 ∈ rest ->
  event_text c r = Ok (value_text v).
Proof.
  intros Hr Ha Ep Hs (_ & _ & _ & _ & _ & _ & Hok) H0.
  unfold entry_bytes in Hs. rewrite Ep in *. cbn [payload_bytes payload_ok] in *.
  destruct Hok as (_ & Hv). set (h := header_bytes e) in Hs.
  assert (Hh : length (h ++ le_bytes 4 id) = 34%nat) by reflexivity.
  rewrite (app_assoc h), <- (app_assoc (h ++ _)) in Hs. revert Hs Hh.
  generalize (h ++ le_bytes 4 id). clear h. intros h Hs Hh. unfold event_text.
  destruct v as [i|l]; cbn [value_bytes value_text] in *.
  - destruct i as [v|v|s]; cbn [item_bytes item_text] in *; cbn [app] in Hs.
    all: rewrite (byte_inside r a h _ _ 34 _ Hr Ha Hs eq_refl) by (by rewrite Hh).
    + rewrite (word_inside r a (h ++ [0]) rest 4 v 35 4 _ Hr Ha Hs)
        by (try (by rewrite <- app_assoc); rewrite ?length_app, ?Hh; done || lia). done.
    + rewrite (word_inside r a (h ++ [1]) rest 8 v 35 8 _ Hr Ha Hs)
        by (try (by rewrite <- app_assoc); rewrite ?length_app, ?Hh; done || lia). done.
    + destruct Hv as [Hs0 Hlen]. rewrite <- app_assoc in Hs.
      rewrite (word_inside r a (h ++ [2]) (s ++ rest) 4 (Z.of_nat (length s)) 35 4 _ Hr Ha Hs)
        by (try (by rewrite <- app_assoc); rewrite ?length_app, ?Hh; done || lia).
      destruct (cstr_of_head s rest Hs0 H0) as [s' Ec].
      rewrite (text_inside r a 39 _ (s ++ s') Hr Ha Hs);
        [cbn -[resize]; by rewrite resize_head|lia|].
      rewrite drop_app_ge by lia. by rewrite Hh.
  - cbn [app] in Hs.
    rewrite (byte_inside r a h _ _ 34 _ Hr Ha Hs eq_refl) by (by rewrite Hh). cbn [rbind].
    rewrite (byte_inside r a (h ++ [3]) _ (Z.of_nat (length l)) 35 _ Hr Ha Hs)
      by (try (by rewrite <- app_assoc); rewrite ?length_app, ?Hh; done).
    cbn -[list_items]. rewrite Nat2Z.id.
    replace (h ++ 3 :: Z.of_nat (length l) :: concat (map item_bytes l) ++ rest)
      with ((h ++ [3; Z.of_nat (length l)]) ++ concat (map item_bytes l) ++ rest) in Hs
      by (by rewrite <- app_assoc).
    apply shown_app in Hs as [_ Hs]. rewrite length_app, Hh in Hs.
    replace (Z.of_nat (34 + length [3; Z.of_nat (length l)])) with 36 in Hs by reflexivity.
    pose proof Hs as (Hp & He & _).
    rewrite Ha, wrap_small by lia.
    rewrite (list_items_shown l (ref_at (a + 36)) (a + 36) rest); try done.
    apply ref_at_ok. lia.
Qed.

(** Two strings can be read where enough zero bytes follow. *)
Lemma cstr_of_before l s : cstr_of l = Some s ->
  s = before_zero l /\ l = s ++ 0 :: drop (length s + 1) l.
Proof.
  revert s. induction l as [|b l IH]; intros s Hs; [done|]. cbn in Hs |- *.
  destruct (Z.eqb_spec b 0) as [->|_]; [by injection Hs as <-|].
  destruct (cstr_of l) as [s'|]; [|done]. injection Hs as <-.
  destruct (IH s' eq_refl) as [E1 E2]. split; [by f_equal|]. cbn. by f_equal.
Qed.
Lemma two_strings l n :
  (2 <= n)%nat -> exists msg, cstr_of (l ++ replicate n 0) = Some (before_zero (l ++ replicate n 0)) /\
    let rest := drop (length (before_zero (l ++ replicate n 0)) + 1) (l ++ replicate n 0) in
    cstr_of rest = Some msg /\ msg = before_zero rest.
Proof.
  intros Hn. destruct (cstr_of_ends (l ++ replicate n 0)) as [tag Et].
  { apply elem_of_app. right. destruct n; [lia|]. by left. }
  destruct (cstr_of_before _ _ Et) as [E1 _]. rewrite <- E1. cbn zeta.
  set (rest := drop _ _).
  assert (Hlen : (length tag <= length l)%nat).
  { clear - Et Hn. revert tag Et. induction l as [|b l IH]; intros tag Et.
    - destruct n as [|n]; [lia|]. cbn in Et. by injection Et as <-.
    - cbn in Et. destruct (b =? 0); [injection Et as <-; cbn; lia|].
      destruct (cstr_of _) as [s|]; [|done]. injection Et as <-. specialize (IH s eq_refl). cbn. lia. }
  destruct (cstr_of_ends rest) as [msg Em].
  { apply list_elem_of_lookup. exists (length l + (n - 1) - (length tag + 1))%nat.
    unfold rest. rewrite lookup_drop, lookup_app_r by lia. apply lookup_replicate_2. lia. }
  exists msg. split_and!; [done|done|]. by apply cstr_of_before in Em as [-> _].
Qed.

Definition first_byte (p : Payload) : Z :=
  match p with TextMessage prio _ _ => prio | EventMessage id _ => id mod 256 end.
Lemma payload_first p : exists bs, payload_bytes p = first_byte p :: bs.
Proof. destruct p; by eexists. Qed.

(** A text message: the two strings behind the first byte of the payload. *)
Lemma text_payload_shown r a e rest tag msg :
  ref_ok c r -> vaddr r = a -> shown c run a (entry_bytes e ++ rest) ->
  cstr_of (drop 1 (payload_bytes (le_payload e)) ++ rest) = Some tag ->
  cstr_of (drop (length tag + 1) (drop 1 (payload_bytes (le_payload e)) ++ rest)) = Some msg ->
  first_byte (le_payload e) <= LOG_ID_MAX ->
  entry_payload c (first_byte (le_payload e)) r = Ok (first_byte (le_payload e), tag, msg).
Proof.
  intros Hr Ha Hs Htag Hmsg Hf. unfold entry_payload.
  rewrite (proj2 (Z.ltb_ge LOG_ID_MAX _)) by done.
  destruct (payload_first (le_payload e)) as [bs Eb]. unfold entry_bytes in Hs. rewrite Eb in *.
  cbn [drop skipn] in *.
  assert (Hh : length (header_bytes e) = 30%nat) by reflexivity.
  revert Hs Hh. generalize (header_bytes e). intros h Hs Hh.
  rewrite <- app_assoc in Hs. cbn [app] in Hs.
  assert (Hd : forall k, drop (31 + k) (h ++ first_byte (le_payload e) :: bs ++ rest) = drop k (bs ++ rest)).
  { intros k. rewrite drop_app_ge, Hh by lia. by replace (31 + k - 30)%nat with (S k) by lia. }
  rewrite (text_inside r a 31 _ tag Hr Ha Hs); [|lia|exact (eq_trans (f_equal cstr_of (Hd 0%nat)) Htag)].
  cbn [rbind]. rewrite (text_inside r a _ _ msg Hr Ha Hs); [done|lia|].
  replace (Z.to_nat (31 + Z.of_nat (length tag) + 1)) with (31 + (length tag + 1))%nat by lia.
  by rewrite Hd.
Qed.

Lemma entry_payload_shown r a e l :
  let rest := l ++ replicate 12 0 in
  ref_ok c r -> vaddr r = a -> shown c run a (entry_bytes e ++ rest) -> entry_ok e ->
  entry_payload c (first_byte (le_payload e)) r = Ok (payload_text (le_payload e) rest).
Proof.
  intros rest Hr Ha Hs He. pose proof He as (_ & _ & _ & _ & _ & _ & Hok).
  assert (H0 : 0 ∈ rest) by (apply elem_of_app; right; by left).
  pose proof (fun tag msg => text_payload_shown r a e rest tag msg Hr Ha Hs) as Htext.
  destruct (le_payload e) as [prio tag msg|id v] eqn:Ep; cbn [first_byte payload_text payload_ok] in *.
  - destruct Hok as (Hprio & Htag & Hmsg). apply Htext; [| |lia].
    all: change (drop 1 (payload_bytes (TextMessage prio tag msg))) with (tag ++ 0 :: msg ++ [0]).
    all: rewrite <- app_assoc; cbn [app]. { by apply cstr_of_name. }
    rewrite <- drop_drop, drop_app_length. match goal with |- context [drop 1 (0 :: ?l)] => change (drop 1 (0 :: l)) with l end.
    rewrite <- app_assoc. by apply cstr_of_name.
  - destruct Hok as (Hid & _). destruct (Z.ltb_spec LOG_ID_MAX (id mod 256)) as [Hmax|Hmax].
    + unfold entry_payload. rewrite (proj2 (Z.ltb_lt _ _) Hmax).
      rewrite (event_text_shown r a e id v rest) by done.
      unfold entry_bytes in Hs. rewrite Ep in Hs. cbn [payload_bytes] in Hs.
      rewrite (word_inside r a (header_bytes e) (value_bytes v ++ rest) 4 id 30 4 _ Hr Ha Hs)
        by (try (by rewrite <- !app_assoc); done || lia).
      done.
    + unfold rest in *. rewrite (app_assoc (drop 1 _)) in Htext |- *.
      destruct (two_strings (drop 1 (payload_bytes (EventMessage id v)) ++ l) 12 ltac:(lia))
        as (m & E1 & E2 & ->). by apply Htext.
Qed.

Definition printed_header (e : LogEntry) : EntryHeader :=
  {| eh_uid := le_uid e; eh_pid := le_pid e; eh_tid := le_tid e; eh_tv_sec := le_sec e;
     eh_tv_nsec := le_nsec e; eh_msg_len := Z.of_nat (length (payload_bytes (le_payload e)));
     eh_log_id := first_byte (le_payload e) |}.
Lemma entry_header_shown r a e rest :
  ref_ok c r -> vaddr r = a -> shown c run a (entry_bytes e ++ rest) -> entry_ok e ->
  log_header c r = Ok (Some (printed_header e)).
Proof.
  intros Hr Ha Hs (Hu & Hp & Ht & Hsec & Hnsec & Hlen & _). unfold log_header, printed_header.
  destruct (payload_first (le_payload e)) as [bs Eb].
  assert (Hw : forall l1 l2 n v off m,
    header_bytes e = l1 ++ le_bytes n v ++ l2 -> (0 < n)%nat -> 0 <= v < 2 ^ (8 * Z.of_nat n) ->
    off = Z.of_nat (length l1) -> m = Z.of_nat n -> word c r off m = Ok v).
  { intros l1 l2 n v off m E Hn Hv Ho Hm. eapply (word_inside r a l1 _ n v _ _ _ Hr Ha Hs); try done.
    unfold entry_bytes. by rewrite E, <- !app_assoc. }
  unfold header_bytes in Hw. set (u := le_bytes 4 (le_uid e)) in *.
  set (p := le_bytes 4 (le_pid e)) in *. set (t := le_bytes 4 (le_tid e)) in *.
  set (q := le_bytes 8 (le_sequence e)) in *. set (x := le_bytes 4 (le_sec e)) in *.
  set (y := le_bytes 4 (le_nsec e)) in *. set (z := le_bytes 2 _) in *.
  rewrite (Hw [] (p ++ t ++ q ++ x ++ y ++ z) 4%nat (le_uid e)) by (done || lia).
  rewrite (Hw u (t ++ q ++ x ++ y ++ z) 4%nat (le_pid e)) by (done || lia).
  rewrite (Hw (u ++ p) (q ++ x ++ y ++ z) 4%nat (le_tid e)) by
    (done || lia || by rewrite <- !app_assoc).
  rewrite (Hw (u ++ p ++ t ++ q) (y ++ z) 4%nat (le_sec e)) by
    (done || lia || by rewrite <- !app_assoc).
  rewrite (Hw (u ++ p ++ t ++ q ++ x) z 4%nat (le_nsec e)) by
    (done || lia || by rewrite <- !app_assoc).
  rewrite (Hw (u ++ p ++ t ++ q ++ x ++ y) [] 2%nat
    (Z.of_nat (length (payload_bytes (le_payload e))))) by
    (done || lia || by rewrite <- !app_assoc, app_nil_r).
  unfold entry_bytes in Hs. rewrite Eb in Hs.
  rewrite (byte_inside r a (header_bytes e) (bs ++ rest) (first_byte (le_payload e)) 30 _ Hr Ha Hs)
    by (try (by rewrite <- app_assoc); done).
  cbn [rbind]. by rewrite (proj2 (Z.eqb_neq (le_pid e) 0)) by lia.
Qed.

Lemma header_end r a :
  ref_ok c r -> vaddr r = a -> shown c run a (replicate 12 0) -> log_header c r = Ok None.
Proof.
  intros Hr Ha Hs. unfold log_header.
  rewrite (word_inside r a [] (replicate 8 0) 4 0 0 4 _ Hr Ha Hs) by (done || lia).
  rewrite (word_inside r a (replicate 4 0) (replicate 4 0) 4 0 4 4 _ Hr Ha Hs) by (done || lia).
  by rewrite (word_inside r a (replicate 8 0) [] 4 0 8 4 _ Hr Ha Hs) by (done || lia).
Qed.

Lemma filtered_out_selects s e :
  entry_ok e -> 0 <= selection_id s < 2 ^ 31 ->
  filtered_out (selection_filter s) (selection_id s) (printed_header e) = negb (selects s e).
Proof.
  intros _ Hs. unfold filtered_out.
  rewrite (wrap_small 32) by lia. destruct s as [|n|n|n]; cbn; by rewrite ?orb_false_r.
Qed.

Context `{TimeZone}.

Lemma decode_loop_entries s chunk size es : forall fuel r i lines,
  (length es < fuel)%nat -> 0 <= i -> i + Z.of_nat (length es) < Z.min size (2 ^ 31) ->
  vword c chunk (sd_size_ SerializedData_Init) = Ok size ->
  0 <= selection_id s < 2 ^ 31 -> Forall entry_ok es ->
  ref_ok c r -> shown c run (vaddr r) (chunk_bytes es) ->
  decode_loop c fuel (selection_filter s) (selection_id s) chunk r i lines =
    (lines ++ chunk_lines s es, Ok tt).
Proof.
  induction es as [|e es IH]; intros fuel r i lines Hf Hi Hn Hsize Hs He Hr Hb;
    (destruct fuel as [|fuel]; [cbn in Hf; lia|]); cbn [decode_loop];
    rewrite (pbind_lift _ _ _ _ Hsize).
  - rewrite (proj2 (Z.ltb_lt i size)) by (cbn in Hn; lia).
    rewrite (pbind_lift _ _ _ _ (header_end r _ Hr eq_refl Hb)). cbn. by rewrite app_nil_r.
  - rewrite length_cons in Hn, Hf.
    rewrite (proj2 (Z.ltb_lt i size)) by lia. apply Forall_cons_1 in He as [He Hes].
    unfold chunk_bytes in Hb. cbn [map concat] in Hb. rewrite <- app_assoc in Hb.
    fold (chunk_bytes es) in Hb.
    rewrite (pbind_lift _ _ _ _ (entry_header_shown r _ e _ Hr eq_refl Hb He)).
    rewrite filtered_out_selects by done.
    pose proof (entry_payload_shown r _ e (concat (map entry_bytes es)) Hr eq_refl Hb He) as Hpay.
    fold (chunk_bytes es) in Hpay.
    assert (Hmove : exists r', MovePtr c r (30 + eh_msg_len (printed_header e)) = Ok r' /\
      ref_ok c r' /\ shown c run (vaddr r') (chunk_bytes es)).
    { pose proof Hb as (Hv & Hend & _). rewrite length_app in Hend.
      assert (Hlen : Z.of_nat (length (entry_bytes e)) = 30 + eh_msg_len (printed_header e)).
      { unfold entry_bytes. rewrite length_app. by rewrite Nat2Z.inj_add. }
      destruct (MovePtr_shown c run r _ _ (30 + eh_msg_len (printed_header e)) Hr eq_refl Hb)
        as (r' & E & Hv' & Hr'); [done|lia|].
      exists r'. split_and!; [done|done|]. rewrite Hv', <- Hlen. exact (proj2 (shown_app c run _ _ _ Hb)). }
    destruct Hmove as (r' & Hmove & Hr' & Hb'). cbn [chunk_lines].
    assert (Hrest : forall lines',
      (let$ data := lift (MovePtr c r (30 + eh_msg_len (printed_header e))) in
       if i =? 2 ^ 31 - 1 then lift Fault
       else decode_loop c fuel (selection_filter s) (selection_id s) chunk data (i + 1)) lines' =
      (lines' ++ chunk_lines s es, Ok tt)).
    { intros lines'. rewrite (pbind_lift _ _ _ _ Hmove), (proj2 (Z.eqb_neq i (2 ^ 31 - 1))) by lia.
      apply IH; done || lia. }
    destruct (selects s e); cbn [negb]; [|apply Hrest].
    erewrite pbind_Ok by (rewrite (pbind_lift _ _ _ _ Hpay); reflexivity). rewrite Hrest.
    rewrite app_assoc. do 4 f_equal.
    unfold log_element, printed. by destruct (payload_text _ _) as [[] ?].
Qed.

(** C27: [DecodeDump] prints what logd wrote.  When a chunk of the target points to the entries
    [es], text messages and events with int, long and string values or a list of these, and
    the zero bytes behind them, the lines added are those of the entries that the option
    selects (all, or one process, user or thread), in order, with the time and the ids of the
    entry.  A text message is shown with its priority, tag and message; an event whose id has
    a low byte above [LOG_ID_MAX] with the name of the id and its values as unsigned numbers
    and text; any other event as the text message that the code takes it for
    ([payload_text]).  No exception interrupts it, and a fuel above the number of entries is
    enough. *)
Theorem DecodeDump_prints s chunk data size es fuel lines
    (Hc : ref_ok c chunk)
    (Hdata : pointer_at c run (vaddr chunk) (sd_data_ SerializedData_Init) data)
    (Hsize : pointer_at c run (vaddr chunk) (sd_size_ SerializedData_Init) size)
    (Hn : Z.of_nat (length es) < Z.min size (2 ^ 31)) (Hs : 0 <= selection_id s < 2 ^ 31)
    (He : Forall entry_ok es) (Hb : shown c run data (chunk_bytes es))
    (Hf : (length es < fuel)%nat) :
  DecodeDump c fuel (selection_filter s) (selection_id s) chunk lines =
    (lines ++ chunk_lines s es, Ok tt).
Proof.
  unfold DecodeDump. rewrite (pbind_lift _ _ _ _ (pointer_word c run chunk _ _ _ Hc eq_refl Hdata)).
  apply (decode_loop_entries s chunk size); try done; [by eapply pointer_word|].
  apply ref_at_ok. destruct Hb as (? & ? & _). lia.
Qed.
End Chunk.

(** * A chunk with a message, an event, an event that is taken for a text message, which has
    no text and prints no line, and a message of another process *)

Definition demo_log : list LogEntry :=
  [{| le_uid := 1000; le_pid := 321; le_tid := 330; le_sequence := 7; le_sec := 86400;
      le_nsec := 5000000; le_payload := TextMessage 4 (chars "Zygote") (chars "first"
        ++ 10 :: chars "second") |};
   {| le_uid := 0; le_pid := 321; le_tid := 321; le_sequence := 8; le_sec := 86401;
      le_nsec := 999999999; le_payload := EventMessage 30023 (ManyItems [IntItem 0;
        IntItem 4321; StringItem (chars "com.example"); LongItem 900]) |};
   {| le_uid := 0; le_pid := 321; le_tid := 321; le_sequence := 9; le_sec := 86401;
      le_nsec := 0; le_payload := EventMessage 2820 (OneItem (StringItem (chars "lost"))) |};
   {| le_uid := 1001; le_pid := 77; le_tid := 77; le_sequence := 10; le_sec := 86402;
      le_nsec := 0; le_payload := TextMessage 7 (chars "libc") (chars "abort") |}].
Definition demo_chunk : list Z :=
  le_bytes 8 0x1010 ++ le_bytes 8 (Z.of_nat (length (chunk_bytes demo_log))) ++
  chunk_bytes demo_log.
Definition log_core : CoreApi := one_core 0x1000 demo_chunk.
#[export] Instance log_presents : Presents log_core (target_run log_core).
Proof.
  apply space_presents; [apply one_core_ok|apply one_core_masks]; vm_compute; lia || done.
Qed.
(** A clock that shows the seconds. *)
Definition seconds : TimeZone := {| local_time := to_string |}.

Lemma demo_log_ok : Forall entry_ok demo_log.
Proof. repeat constructor; vm_compute; done. Qed.

Lemma DecodeDump_prints_witness :
  DecodeDump (H := seconds) (M := arm64_Core) log_core 5 FILTER_PID 321 (ref_at 0x1000) [] =
    (map chars ["86400.005   1000   321   330 I Zygote: first"%string;
                "86400.005   1000   321   330 I Zygote: second"%string;
                "86401.999      0   321   321 I am_kill: [0,4321,com.example,900]"%string], Ok tt).
Proof.
  refine (eq_trans (DecodeDump_prints (M := arm64_Core) log_core (target_run log_core) (H := seconds)
    (OfPid 321) (ref_at 0x1000) 0x1010 (Z.of_nat (length (chunk_bytes demo_log))) demo_log 5 []
    _ _ _ _ _ _ _ _) _).
  - by split.
  - apply check_pointer_ok. vm_compute. reflexivity.
  - apply check_pointer_ok. vm_compute. reflexivity.
  - vm_compute. done.
  - cbn. lia.
  - exact demo_log_ok.
  - apply check_shown_ok; [vm_compute; reflexivity|cbn; lia].
  - cbn. lia.
  - vm_compute. reflexivity.
Defined.
