(* ===== verification/Props.v ===== *)
(** The property area of Android processes: android/properties/prop_area.{h,cpp}
    ([PropArea], [Propbt]), prop_info.{h,cpp} ([PropInfo]), property.cpp ([Property]).

    An area is a segment that holds a trie: every level is a binary search tree of name
    parts, and every part has the tree of the parts behind its dot.  Links are offsets
    from the data of the area, and 0 is no link.  [Property::Get] searches the areas of
    the core.  A name is the list of its bytes, without the terminator. *)

From Stdlib Require Import ZArith Lia Bool.
From stdpp Require Import base list gmap numbers.
From S2P Require Import Prelude Words Host Blocks Notes CoreApi Segments AddressSpace MemRef.
Open Scope Z_scope.

(** * Offset tables *)

Record PropArea_OffsetTable := {
  bytes_used_ : Z; serial_ : Z; magic_ : Z; version_ : Z; data_ : Z }.
Record Propbt_OffsetTable := {
  bt_namelen : Z; bt_prop : Z; bt_left : Z; bt_right : Z; bt_children : Z; bt_name : Z }.
Record PropInfo_OffsetTable := {
  info_serial : Z; info_value : Z; info_name : Z; info_long_offset : Z }.

Definition kLongFlag : Z := Z.shiftl 1 16.
Definition kLongLegacyErrorBufferSize : Z := 56.

Definition PropArea_Init : PropArea_OffsetTable :=
  {| bytes_used_ := 0; serial_ := 4; magic_ := 8; version_ := 12; data_ := 128 |}.
Definition Propbt_Init : Propbt_OffsetTable :=
  {| bt_namelen := 0; bt_prop := 4; bt_left := 8; bt_right := 12; bt_children := 16;
     bt_name := 20 |}.
Definition PropInfo_Init : PropInfo_OffsetTable :=
  {| info_serial := 0; info_value := 4; info_name := 96;
     info_long_offset := kLongLegacyErrorBufferSize + 4 |}.

Definition LARGE_PA_SIZE : Z := 1024 * 1024.
Definition PA_SIZE : Z := 128 * 1024.
Definition PROP_AREA_MAGIC : Z := 0x504f5250.
Definition PROP_AREA_VERSION : Z := 0xfc6ed0ab.

(** * Strings of the C library *)

(** [strncmp(one, two, n)] of a string of the caller and one at the address [two]: the
    difference of the first bytes that differ, as unsigned characters. *)
Fixpoint strncmp (h : host) (one : list Z) (two : Z) (n : nat) : result Z :=
  match n with
  | O => Ok 0
  | S m =>
      let a := hd 0 one in
      let! b := host_word h two 1 in
      if a =? b then if a =? 0 then Ok 0 else strncmp h (tl one) (two + 1) m
      else Ok (a - b)
  end.

(** [strchr(s, '.')]: what is before the separator, and what is behind it if there is one. *)
Fixpoint strchr_dot (s : list Z) : list Z * option (list Z) :=
  match s with
  | [] => ([], None)
  | b :: t =>
      if b =? 46 then ([], Some t) else let '(p, q) := strchr_dot t in (b :: p, q)
  end.

(** * Searching an area *)

Section Area.
Context (c : CoreApi).

(** [data()], [toPropObj(off)], [toPropbt(off)], [toPropInfo(off)], [rootNode()]. *)
Definition area_data (area : MemoryRef) : Z := u64 (vaddr area + data_ PropArea_Init).
Definition toPropObj (area : MemoryRef) (off : Z) : Z := u64 (area_data area + off).
Definition toPropbt (area : MemoryRef) (off : Z) : MemoryRef :=
  ref_from c (toPropObj area off) area.
Definition toPropInfo (area : MemoryRef) (off : Z) : MemoryRef :=
  ref_from c (toPropObj area off) area.
Definition rootNode (area : MemoryRef) : MemoryRef := toPropbt area 0.

(** The accessors of [Propbt] other than [name()]. *)
Definition bt_field (bt : MemoryRef) (off : Propbt_OffsetTable -> Z) : result (MemoryRef * Z) :=
  load_at c bt (off Propbt_Init) 4.

(** [ComparePropName(one, one_len, two, two_len)]; [two] is an address of the process. *)
Definition ComparePropName (one : list Z) (one_len two two_len : Z) : result Z :=
  if one_len <? two_len then Ok (-1)
  else if two_len <? one_len then Ok 1
  else strncmp (host_mem c) one two (Z.to_nat one_len).

(** [findPropbt(bt, name, namelen)]. *)
Fixpoint findPropbt (fuel : nat) (area bt : MemoryRef) (name : list Z) (namelen : Z)
    : result MemoryRef :=
  match fuel with
  | O => OutOfFuel
  | S n =>
      if negb (nz (vaddr bt)) then Ok (ref_at 0) else
      let! '(r1, p) := Real c bt in
      let! '(r2, len) := bt_field r1 bt_namelen in
      let! ret := ComparePropName name namelen (u64 (p + bt_name Propbt_Init)) len in
      if ret =? 0 then Ok r2
      else
        let! '(_, off) := bt_field r2 (if ret <? 0 then bt_left else bt_right) in
        if nz off then findPropbt n area (toPropbt area off) name namelen
        else Ok (ref_at 0)
  end.

(** The [while (true)] loop of [findProperty]; each round takes a part off the name, so
    [parts] rounds are enough when the name is shorter. The result is the node of the name,
    or a null reference where the code returns 0. *)
Fixpoint property_loop (parts fuel : nat) (area current : MemoryRef) (remaining_name : list Z)
    : result MemoryRef :=
  match parts with
  | O => OutOfFuel
  | S n =>
      let '(part, sep) := strchr_dot remaining_name in
      let substr_size := u32 (Z.of_nat (length part)) in
      if negb (nz substr_size) then Ok (ref_at 0) else
      let! '(_, off) := bt_field current bt_children in
      let root := if nz off then toPropbt area off else ref_at 0 in
      if negb (nz (vaddr root)) then Ok (ref_at 0) else
      let! current := findPropbt fuel area root remaining_name substr_size in
      if negb (nz (vaddr current)) then Ok (ref_at 0)
      else match sep with
           | None => Ok current
           | Some rest => property_loop n fuel area current rest
           end
  end.

(** [findProperty(trie, name)]. *)
Definition findProperty (fuel : nat) (area trie : MemoryRef) (name : list Z)
    : result MemoryRef :=
  if negb (nz (vaddr trie)) then Ok (ref_at 0) else
  let! current := property_loop (S (length name)) fuel area trie name in
  if negb (nz (vaddr current)) then Ok (ref_at 0) else
  let! '(_, off) := bt_field current bt_prop in
  if nz off then Ok (toPropInfo area off) else Ok (ref_at 0).

(** The test both [find] and [foreach] start with; the area gets its segment. *)
Definition area_ok (area : MemoryRef) : result (MemoryRef * bool) :=
  let! '(area, v) := load_at c area (version_ PropArea_Init) 4 in
  if negb (v =? PROP_AREA_VERSION) then Ok (area, false)
  else
    let! '(area, m) := load_at c area (magic_ PropArea_Init) 4 in
    Ok (area, m =? PROP_AREA_MAGIC).

(** [PropArea::find(name)]. *)
Definition area_find (fuel : nat) (area : MemoryRef) (name : list Z) : result MemoryRef :=
  let! '(area, ok) := area_ok area in
  if ok : bool then findProperty fuel area (rootNode area) name else Ok (ref_at 0).

(** * Visiting an area *)

(** [foreachProperty(trie, propfn)]; the [bool] a call returns is tested as the [int] it is
    stored in. *)
Fixpoint foreachProperty {S} (fuel : nat) (area trie : MemoryRef)
    (propfn : MemoryRef -> prog S unit) : prog S bool :=
  match fuel with
  | O => lift OutOfFuel
  | Datatypes.S n =>
      if negb (nz (vaddr trie)) then pret false else
      let visit bt (off : Z) : prog S bool :=
        if nz off then
          let$ err := foreachProperty n area (toPropbt area off) propfn in
          pret (Z.b2z err <? 0)
        else pret false in
      let$ l := lift (bt_field trie bt_left) in
      let$ stop := visit (fst l) (snd l) in
      if stop : bool then pret false else
      let$ p := lift (bt_field (fst l) bt_prop) in
      let info := toPropInfo area (snd p) in
      if nz (snd p) && negb (nz (vaddr info)) then pret false else
      let$ _ := (if nz (snd p) then propfn info else pret tt) in
      let$ k := lift (bt_field (fst p) bt_children) in
      let$ stop := visit (fst k) (snd k) in
      if stop : bool then pret false else
      let$ r := lift (bt_field (fst k) bt_right) in
      let$ stop := visit (fst r) (snd r) in
      pret (negb stop)
  end.

(** [PropArea::foreach(propfn)]. *)
Definition area_foreach {S} (fuel : nat) (area : MemoryRef) (propfn : MemoryRef -> prog S unit)
    : prog S bool :=
  let$ a := lift (area_ok area) in
  if snd a then foreachProperty fuel (fst a) (rootNode (fst a)) propfn else pret false.

(** * The properties of a core *)

(** [PropInfo]: the value of a property, in place or behind the property. *)
Definition is_long (info : MemoryRef) : result (MemoryRef * bool) :=
  let! '(r, s) := value32Of c info (info_serial PropInfo_Init) in
  Ok (r, nz (Z.land s kLongFlag)).
Definition info_pointer (info : MemoryRef) : result Z :=
  let! '(r, long) := is_long info in
  if long : bool then
    let! '(r, p) := Real c r in
    let! '(_, off) := value32Of c r (info_long_offset PropInfo_Init) in
    Ok (u64 (p + off))
  else
    let! '(_, p) := Real c r in Ok (u64 (p + info_value PropInfo_Init)).

(** The segments that may be areas, by size. *)
Definition area_size (id : nat) : bool :=
  let n := mFileSize (lb c id) in
  (PA_SIZE <=? n) && (n <=? LARGE_PA_SIZE) && (n mod PA_SIZE =? 0).
(** [PropArea area(block->vaddr(), block)]. *)
Definition area_of (id : nat) : MemoryRef :=
  checkCopyBlock c (ref_at (mVaddr (lb c id))) (Some id).

(** The callback of [Property::Get]: what the search left in [result], and whether it
    stops.  Behaviour that is not an exception of the code ends the search too. *)
Definition get_callback (fuel : nat) (name : list Z) (id : nat) (s : result MemoryRef)
    : result MemoryRef * bool :=
  if area_size id then
    match area_find fuel (area_of id) name with
    | Ok info => if nz (vaddr info) then (Ok info, true) else (s, false)
    | Throw _ => (s, false)
    | r => (r, true)
    end
  else (s, false).

(** [Property::Get(name, def)]: the string returned. *)
Definition Property_Get (fuel : nat) (name def : list Z) : result (list Z) :=
  let! info := foreachLoadBlock c (get_callback fuel name) true true (Ok (ref_at 0)) in
  if nz (vaddr info) then
    let! p := info_pointer info in host_cstr (host_mem c) p
  else Ok def.

(** [Property::Foreach(propfn)]: an exception leaves the loop. *)
Definition Property_Foreach {S} (fuel : nat) (propfn : MemoryRef -> prog S unit) : prog S unit :=
  fun s => foreachLoadBlock c
    (fun id st =>
       if area_size id then
         match area_foreach fuel (area_of id) propfn (fst st) with
         | (s', Ok _) => ((s', Ok tt), false)
         | (s', Throw p) => ((s', Throw p), true)
         | (s', Fault) => ((s', Fault), true)
         | (s', OutOfFuel) => ((s', OutOfFuel), true)
         end
       else (st, false)) true true (s, Ok tt).

(** * Numbers *)

Definition is_space (b : Z) : bool := (b =? 32) || ((9 <=? b) && (b <=? 13)).
Definition is_digit (b : Z) : bool := (48 <=? b) && (b <=? 57).

Fixpoint digits (s : list Z) (acc : Z) : Z :=
  match s with
  | b :: t => if is_digit b then digits t (10 * acc + (b - 48)) else acc
  | [] => acc
  end.
Fixpoint skip_space (s : list Z) : list Z :=
  match s with
  | b :: t => if is_space b then skip_space t else s
  | [] => []
  end.
(** [atol] and [atoi], for a result of [w] bits: a number that does not fit is undefined. *)
Definition ato (w : Z) (s : list Z) : result Z :=
  let v :=
    match skip_space s with
    | 45 :: t => - digits t 0
    | 43 :: t => digits t 0
    | t => digits t 0
    end in
  if (- 2 ^ (w - 1) <=? v) && (v <? 2 ^ (w - 1)) then Ok v else Fault.

(** [Property::GetInt64(name, def)] and [GetInt32(name, def)]. *)
Definition GetInt (w : Z) (fuel : nat) (name : list Z) (def : Z) : result Z :=
  let! value := Property_Get fuel name [] in
  match value with
  | [] => Ok def
  | _ => ato w value
  end.
Definition GetInt64 := GetInt 64.
Definition GetInt32 := GetInt 32.
End Area.
