(* ===== verification/PropsProofs.v ===== *)
(** Properties of the property area ([Props]): what an area in the target holds is a
    finite map from dotted names to values, and the searches and visits of the code are
    lookups and traversals of these maps. *)

From Stdlib Require Import ZArith Lia Bool.
From stdpp Require Import base list gmap numbers.
From S2P Require Import Prelude Words Host Blocks Notes CoreApi Segments AddressSpace MemRef.
From S2P Require Import Props.
Open Scope Z_scope.

(** * Dotted names *)

Fixpoint split_dots (s : list Z) : list (list Z) :=
  match s with
  | [] => [[]]
  | b :: t =>
      if b =? 46 then [] :: split_dots t
      else match split_dots t with
           | p :: ps => (b :: p) :: ps
           | [] => [[b]]
           end
  end.

Lemma strchr_dot_spec s p q :
  strchr_dot s = (p, q) ->
  split_dots s = p :: match q with Some t => split_dots t | None => [] end /\
  s = p ++ match q with Some t => 46 :: t | None => [] end.
Proof.
  revert p q. induction s as [|b s IH]; intros p q; cbn; [by intros [= <- <-]|].
  destruct (Z.eqb_spec b 46) as [->|]; [by intros [= <- <-]|].
  destruct (strchr_dot s) as [p' q'] eqn:E. intros [= <- <-].
  destruct (IH p' q' eq_refl) as [-> Hs]. split; [done|]. cbn. by rewrite <- Hs.
Qed.

(** * The order of the parts in a level *)

(** The difference of the first bytes that differ. *)
Fixpoint lex (a b : list Z) : Z :=
  match a, b with
  | x :: a', y :: b' => if x =? y then lex a' b' else x - y
  | _, _ => 0
  end.
Definition name_cmp (a b : list Z) : Z :=
  if Z.of_nat (length a) <? Z.of_nat (length b) then -1
  else if Z.of_nat (length b) <? Z.of_nat (length a) then 1
  else lex a b.

Lemma lex_eq a b : length a = length b -> lex a b = 0 -> a = b.
Proof.
  revert b. induction a as [|x a IH]; intros [|y b]; cbn; try done.
  intros [= H]. destruct (Z.eqb_spec x y) as [->|]; [|lia]. intros Hl. f_equal. auto.
Qed.
Lemma lex_refl a : lex a a = 0.
Proof. induction a; cbn; [done|]. by rewrite Z.eqb_refl. Qed.

Lemma name_cmp_eq a b : name_cmp a b = 0 <-> a = b.
Proof.
  unfold name_cmp. split.
  - bool_cases; try lia. apply lex_eq. lia.
  - intros ->. rewrite Z.ltb_irrefl. apply lex_refl.
Qed.

(** * The trie of an area *)

(** A level: a binary tree of parts, each with the offset of its property (0 when the part
    has none) and the level behind its dot. *)
Inductive trie :=
  | Tip
  | Part (name : list Z) (prop : Z) (left children right : trie).

Fixpoint height (t : trie) : nat :=
  match t with
  | Tip => O
  | Part _ _ l k r => S (Nat.max (height l) (Nat.max (height k) (height r)))
  end.

(** The names of a level, and the properties below it in the order of the code's visit. *)
Fixpoint level (t : trie) : list (list Z) :=
  match t with
  | Tip => []
  | Part n _ l _ r => level l ++ n :: level r
  end.
Fixpoint entries (t : trie) : list (list (list Z) * Z) :=
  match t with
  | Tip => []
  | Part n p l k r =>
      entries l ++ (if nz p then [([n], p)] else []) ++
      map (fun e => (n :: fst e, snd e)) (entries k) ++ entries r
  end.
Fixpoint bst (t : trie) : Prop :=
  match t with
  | Tip => True
  | Part n _ l k r =>
      Forall (fun x => name_cmp x n < 0) (level l) /\
      Forall (fun x => 0 < name_cmp x n) (level r) /\ bst l /\ bst k /\ bst r
  end.

(** The map a trie stands for: from the parts of a name to the offset of the property. *)
Definition props_of (t : trie) : gmap (list (list Z)) Z := list_to_map (entries t).

(** The search of the code on the trie itself. *)
Fixpoint level_find (t : trie) (q : list Z) : option (Z * trie) :=
  match t with
  | Tip => None
  | Part n p l k r =>
      if name_cmp q n =? 0 then Some (p, k)
      else if name_cmp q n <? 0 then level_find l q else level_find r q
  end.
Fixpoint path_find (t : trie) (parts : list (list Z)) : option Z :=
  match parts with
  | [] => None
  | q :: rest =>
      let? (p, k) := level_find t q in
      match rest with
      | [] => if nz p then Some p else None
      | _ => path_find k rest
      end
  end.

(** The same for the node of a name. *)
Fixpoint node_find (t : trie) (parts : list (list Z)) : option (Z * trie) :=
  match parts with
  | [] => None
  | q :: rest =>
      let? (p, k) := level_find t q in
      match rest with [] => Some (p, k) | _ => node_find k rest end
  end.

Lemma path_find_node t parts :
  path_find t parts =
    match node_find t parts with
    | Some (p, _) => if nz p then Some p else None
    | None => None
    end.
Proof.
  revert t. induction parts as [|q rest IH]; intros t; [done|]. cbn [path_find node_find].
  destruct (level_find t q) as [[p k]|]; [|done]. destruct rest; [done|]. apply IH.
Qed.

Lemma level_find_height t q p k : level_find t q = Some (p, k) -> (height k <= height t)%nat.
Proof.
  induction t as [|n p' l IHl k' _ r IHr]; cbn; [done|].
  destruct (name_cmp q n =? 0); [intros [= <- <-]; lia|].
  destruct (name_cmp q n <? 0); intros H; [apply IHl in H|apply IHr in H]; lia.
Qed.

Lemma entries_level t e :
  e ∈ entries t -> exists q rest, fst e = q :: rest /\ q ∈ level t.
Proof.
  induction t as [|n p l IHl k _ r IHr]; cbn; [by intros ?%not_elem_of_nil|].
  rewrite !elem_of_app. intros [H|[H|[H|H]]].
  - destruct (IHl H) as (q & rest & ? & ?). exists q, rest. rewrite elem_of_app. auto.
  - destruct (nz p); [|by apply not_elem_of_nil in H].
    apply list_elem_of_singleton in H as ->. exists n, []. split; [done|]. set_solver.
  - apply list_elem_of_fmap in H as (e' & -> & _). exists n, (fst e'). split; [done|]. set_solver.
  - destruct (IHr H) as (q & rest & ? & ?). exists q, rest. set_solver.
Qed.

Lemma props_of_outside t q rest : q ∉ level t -> props_of t !! (q :: rest) = None.
Proof.
  intros Hq. apply not_elem_of_list_to_map_1. intros H.
  apply list_elem_of_fmap in H as (e & He & Hin).
  destruct (entries_level t e Hin) as (q' & rest' & E & Hl). congruence.
Qed.

Lemma props_of_nil t : props_of t !! [] = None.
Proof.
  apply not_elem_of_list_to_map_1. intros H. apply list_elem_of_fmap in H as (e & He & Hin).
  destruct (entries_level t e Hin) as (q' & rest' & E & Hl). congruence.
Qed.

Lemma lookup_below (n : list Z) (E : list (list (list Z) * Z)) rest :
  (list_to_map (map (fun e => (n :: fst e, snd e)) E) : gmap _ Z) !! (n :: rest)
  = (list_to_map E : gmap _ Z) !! rest.
Proof.
  induction E as [|[x v] E IH]; [done|]. cbn -[lookup insert].
  destruct (decide (x = rest)) as [->|Hn].
  - by rewrite !lookup_insert_eq.
  - by rewrite !lookup_insert_ne by congruence.
Qed.

Lemma lookup_below_ne (n q : list Z) (E : list (list (list Z) * Z)) rest :
  q <> n ->
  (list_to_map (map (fun e => (n :: fst e, snd e)) E) : gmap _ Z) !! (q :: rest) = None.
Proof.
  intros Hn. induction E as [|[x v] E IH]; [done|]. cbn -[lookup insert].
  by rewrite lookup_insert_ne by congruence.
Qed.

Lemma outside_level (P : list Z -> Prop) t q :
  Forall P (level t) -> ~ P q -> forall rest, props_of t !! (q :: rest) = None.
Proof. intros Ht Hq rest. apply props_of_outside. intros H. by eapply Forall_elem in H. Qed.

Lemma none_union {A} (o : option A) : None ∪ o = o.
Proof. by destruct o. Qed.
Lemma union_none {A} (o : option A) : o ∪ None = o.
Proof. by destruct o. Qed.

(** On a search tree, the search finds what the map holds. *)
Lemma path_find_map t parts : bst t -> props_of t !! parts = path_find t parts.
Proof.
  revert parts. induction t as [|n p l IHl k IHk r IHr]; intros parts Hs; [by destruct parts|].
  destruct Hs as (Hl & Hr & Sl & Sk & Sr). destruct parts as [|q rest]; [by apply props_of_nil|].
  unfold props_of. cbn [entries path_find level_find]. rewrite !list_to_map_app, !lookup_union.
  fold (props_of l) (props_of r).
  assert (forall q' : list Z, q' <> n \/ rest <> [] ->
    ((list_to_map (if nz p then [([n], p)] else []) : gmap (list (list Z)) Z)
      !! (q' :: rest)) = None) as Hown.
  { intros q' H. destruct (nz p); cbn; [|done]. rewrite lookup_insert_ne; [done|].
    intros [= ? ?]. naive_solver. }
  destruct (Z.eqb_spec (name_cmp q n) 0) as [E|E].
  - apply name_cmp_eq in E as ->.
    pose proof (proj2 (name_cmp_eq n n) eq_refl) as Hnn.
    rewrite (outside_level _ l n Hl) by lia. rewrite (outside_level _ r n Hr) by lia.
    rewrite lookup_below, none_union, union_none. fold (props_of k). destruct rest as [|q' rest].
    + rewrite props_of_nil, union_none. unfold nz.
      destruct (Z.eqb_spec p 0); cbn; [done|]. by rewrite lookup_insert_eq.
    + rewrite Hown by auto. rewrite none_union. by apply IHk.
  - assert (q <> n) as Hqn by (intros ->; by rewrite (proj2 (name_cmp_eq n n)) in E).
    rewrite (lookup_below_ne n q), Hown, !none_union by auto.
    destruct (Z.ltb_spec (name_cmp q n) 0).
    + rewrite (outside_level _ r q Hr), union_none by lia. by apply (IHl (q :: rest)).
    + rewrite (outside_level _ l q Hl), none_union by lia. by apply (IHr (q :: rest)).
Qed.

(** * Areas in the target *)

(** What [strncmp] computes on readable bytes. *)
Lemma strncmp_lex h one p name n :
  shows h p name -> n = length name -> length one = n -> Forall (fun b => b <> 0) one ->
  forall rest, strncmp h (one ++ rest) p n = Ok (lex one name).
Proof.
  intros Hs -> Hl Hz rest. revert p one Hs Hl Hz.
  induction name as [|b name IH]; intros p [|a one] Hs Hl Hz; try done.
  pose proof (Forall_inv Hz) as Ha. apply Forall_inv_tail in Hz. cbn. destruct Hs as [Hs Hc].
  assert (host_word h p 1 = Ok b) as ->.
  { unfold host_word. pose proof (Hs 0 1 ltac:(lia) ltac:(lia) ltac:(cbn [length]; lia)) as H.
    rewrite Z.add_0_r in H. rewrite H. change (Ok (b + 256 * 0) = Ok b). f_equal. lia. }
  cbn. destruct (Z.eqb_spec a b) as [<-|]; [|done]. destruct (Z.eqb_spec a 0); [done|].
  apply IH; [|by injection Hl|done]. split.
  - intros k m Hk Hm Hkm. rewrite <- Z.add_assoc, (Hs (1 + k) m) by (cbn [length]; lia).
    by replace (Z.to_nat (1 + k)) with (S (Z.to_nat k)) by lia.
  - intros k s Hk Hcs. rewrite <- Z.add_assoc. apply Hc; [lia|].
    by replace (Z.to_nat (1 + k)) with (S (Z.to_nat k)) by lia.
Qed.

Lemma shows_part h p bs k n :
  shows h p bs -> 0 <= k -> n = Z.of_nat (length bs) - k ->
  shows h (p + k) (drop (Z.to_nat k) bs).
Proof.
  intros [H1 H2] Hk ->. split.
  - intros i m Hi Hm. rewrite length_drop. intros Him.
    rewrite <- Z.add_assoc, H1 by lia. rewrite drop_drop. do 3 f_equal. lia.
  - intros i s Hi Hs. rewrite drop_drop in Hs. rewrite <- Z.add_assoc. apply H2; [lia|].
    rewrite <- Hs. do 2 f_equal. lia.
Qed.

Definition node_bytes (name : list Z) (p l r k : Z) : list Z :=
  le_bytes 4 (Z.of_nat (length name)) ++ le_bytes 4 p ++ le_bytes 4 l ++ le_bytes 4 r ++
  le_bytes 4 k ++ name.

Section Areas.
Context (c : CoreApi) (run : Z -> Z -> option (list Z)) `{!Presents c run}.

Section OneArea.
Context (a : Z).

(** The address of the object at an offset of the area at [a]. *)
Definition obj (off : Z) : Z := toPropObj (ref_at a) off.

(** A node at offset [off]: its name, property and links. *)
Definition node_at (off : Z) (name : list Z) (p l r k : Z) : Prop :=
  obj off <> 0 /\ Forall (fun v => 0 <= v < 2 ^ 32) [Z.of_nat (length name); p; l; r; k] /\
  run (Z.land (obj off) (vabits_mask c)) (20 + Z.of_nat (length name))
    = Some (node_bytes name p l r k).

(** The level whose link is [off]. *)
Fixpoint trie_at (off : Z) (t : trie) : Prop :=
  match t with
  | Tip => off = 0
  | Part name p tl tk tr =>
      off <> 0 /\ name <> [] /\ (p <> 0 -> obj p <> 0) /\
      exists l r k, node_at off name p l r k /\ trie_at l tl /\ trie_at r tr /\ trie_at k tk
  end.

(** A reference to a node. *)
Definition at_node (bt : MemoryRef) (off : Z) : Prop := ref_ok c bt /\ vaddr bt = obj off.

Lemma obj_range off : 0 <= obj off < 2 ^ 64.
Proof. apply wrap_range. lia. Qed.

Lemma node_words name p l r k (f : Propbt_OffsetTable -> Z) v :
  (f, v) ∈ [(bt_namelen, Z.of_nat (length name)); (bt_prop, p); (bt_left, l); (bt_right, r);
    (bt_children, k)] ->
  take 4 (drop (Z.to_nat (f Propbt_Init)) (node_bytes name p l r k)) = le_bytes 4 v /\
  0 <= f Propbt_Init /\ f Propbt_Init + 4 <= 20.
Proof.
  intros H. repeat (apply elem_of_cons in H as [[= -> ->]|H]; [by split|]). by apply not_elem_of_nil in H.
Qed.

Lemma bt_field_at bt off name p l r k f v :
  at_node bt off -> node_at off name p l r k ->
  (f, v) ∈ [(bt_namelen, Z.of_nat (length name)); (bt_prop, p); (bt_left, l); (bt_right, r);
    (bt_children, k)] ->
  exists bt', bt_field c bt f = Ok (bt', v) /\ at_node bt' off.
Proof.
  intros [Hr Hv] (Hnz & Hw & Hrun) Hf. destruct (node_words _ _ _ _ _ _ _ Hf) as (E & H1 & H2).
  destruct (load_field c run bt (f Propbt_Init) 4 (20 + Z.of_nat (length name)) _ Hr
    ltac:(congruence) H1 ltac:(lia) ltac:(lia) ltac:(rewrite Hv; exact Hrun))
    as (bt' & Hl & Hv' & Hr' & _).
  exists bt'. unfold bt_field. rewrite Hl. unfold at_node. rewrite Hv'. split_and!; [|done..].
  do 2 f_equal. change (Z.to_nat 4) with 4%nat. rewrite E, le_value_bytes. apply Z.mod_small.
  rewrite Forall_elem in Hw. apply Hw. apply (list_elem_of_fmap_2 snd) in Hf. exact Hf.
Qed.
(** [ComparePropName] of a part of the name asked for and the name of a node. *)
Lemma compare_node bt off name p l r k q rest :
  at_node bt off -> node_at off name p l r k ->
  Forall (fun b => b <> 0) q ->
  exists bt' w, Real c bt = Ok (bt', w) /\ at_node bt' off /\
    ComparePropName c (q ++ rest) (Z.of_nat (length q)) (u64 (w + bt_name Propbt_Init))
      (Z.of_nat (length name)) = Ok (name_cmp q name).
Proof.
  intros [Hr Hv] (Hnz & Hw & Hrun) Hq. rewrite <- Hv in Hrun.
  destruct (present_real bt (20 + Z.of_nat (length name)) _ Hr ltac:(congruence) ltac:(lia) Hrun)
    as (bt' & w & HR & Hv' & Hr' & _ & H0 & H1 & Hs).
  exists bt', w. split; [done|]. split; [split; [done|congruence]|]. unfold ComparePropName, name_cmp.
  cbn [bt_name Propbt_Init]. rewrite wrap_small by lia.
  assert (shows (host_mem c) (w + 20) name) as Hn.
  { apply (shows_part _ w (node_bytes name p l r k) 20 (Z.of_nat (length name))) in Hs; try lia.
    - exact Hs.
    - unfold node_bytes. rewrite !length_app, !le_bytes_length. lia. }
  bool_cases; try done. apply strncmp_lex; [done|lia|lia|done].
Qed.

Lemma at_child area off :
  ref_ok c area -> vaddr area = a -> at_node (toPropbt c area off) off.
Proof.
  intros Hr Hv. unfold at_node, toPropbt. rewrite ref_from_vaddr. split.
  - apply ref_from_ok with run; [done..|]. apply wrap_range. lia.
  - unfold obj, toPropObj, area_data. by rewrite Hv.
Qed.

(** Picks a field of a node. *)
Ltac elem_field := repeat first [apply list_elem_of_here | apply list_elem_of_further].

(** What a search returns: a reference to the node, or null. *)
Definition found (r : MemoryRef) (o : option (Z * trie)) : Prop :=
  match o with
  | Some (p, t) => exists off name lo ro ko,
      at_node r off /\ node_at off name p lo ro ko /\ trie_at ko t /\ (p <> 0 -> obj p <> 0)
  | None => r = ref_at 0
  end.

Lemma at_node_nz bt off name p l r k :
  at_node bt off -> node_at off name p l r k -> nz (vaddr bt) = true.
Proof. intros [_ ->] [H _]. unfold nz. by destruct (Z.eqb_spec (obj off) 0). Qed.

Lemma findPropbt_ok fuel area q rest t :
  ref_ok c area -> vaddr area = a -> Forall (fun b => b <> 0) q ->
  forall bt off, (height t <= fuel)%nat -> off <> 0 -> trie_at off t -> at_node bt off ->
  exists r, findPropbt c fuel area bt (q ++ rest) (Z.of_nat (length q)) = Ok r /\
    found r (level_find t q).
Proof.
  intros Ha Hva Hq. revert fuel.
  induction t as [|name p tl IHl tk _ tr IHr]; intros fuel bt off Hf Hoff Ht Hbt; [done|].
  destruct Ht as (_ & _ & Hp & l & r & k & Hn & Hl & Hr & Hk).
  destruct fuel as [|fuel]; [cbn in Hf; lia|]. cbn [height] in Hf. cbn [findPropbt].
  rewrite (at_node_nz _ _ _ _ _ _ _ Hbt Hn). cbn [negb].
  destruct (compare_node _ _ _ _ _ _ _ q rest Hbt Hn Hq) as (r1 & w & -> & Hr1 & Hcmp).
  cbn [rbind]. destruct (bt_field_at r1 _ _ _ _ _ _ bt_namelen _ Hr1 Hn ltac:(elem_field))
    as (r2 & -> & Hr2). cbn [rbind]. rewrite Hcmp. cbn [rbind level_find].
  destruct (Z.eqb_spec (name_cmp q name) 0) as [E|E].
  - exists r2. split; [done|]. by exists off, name, l, r, k.
  - assert (forall f v, f = (if name_cmp q name <? 0 then bt_left else bt_right) ->
      v = (if name_cmp q name <? 0 then l else r) ->
      exists r3, bt_field c r2 f = Ok (r3, v)) as Hstep.
    { intros f v -> ->. destruct (name_cmp q name <? 0).
      - destruct (bt_field_at r2 _ _ _ _ _ _ bt_left _ Hr2 Hn ltac:(elem_field)) as (r3 & H & _).
        by exists r3.
      - destruct (bt_field_at r2 _ _ _ _ _ _ bt_right _ Hr2 Hn ltac:(elem_field)) as (r3 & H & _).
        by exists r3. }
    destruct (Hstep _ _ eq_refl eq_refl) as (r3 & ->). cbn [rbind]. unfold nz.
    destruct (name_cmp q name <? 0).
    + destruct (Z.eqb_spec l 0) as [->|Hl0]; cbn [negb].
      * destruct tl; [by exists (ref_at 0)|]. by destruct Hl.
      * apply (IHl fuel _ l); [lia|done|done|by apply at_child].
    + destruct (Z.eqb_spec r 0) as [->|Hr0]; cbn [negb].
      * destruct tr; [by exists (ref_at 0)|]. by destruct Hr.
      * apply (IHr fuel _ r); [lia|done|done|by apply at_child].
Qed.
(** No name of an area has an empty part. *)
Lemma level_find_nil off t : trie_at off t -> level_find t [] = None.
Proof.
  revert off. induction t as [|[|b n] p l IHl k _ r IHr]; intros off; cbn [trie_at]; [done|naive_solver|].
  intros (_ & _ & _ & lo & ro & ko & _ & Hl & _). cbn [level_find].
  change (name_cmp [] (b :: n)) with (-1). eauto.
Qed.

(** A node whose left link is itself: a search that goes left there does not end. *)
Lemma findPropbt_cycle area off name p r k q rest :
  ref_ok c area -> vaddr area = a -> Forall (fun b => b <> 0) q ->
  off <> 0 -> node_at off name p off r k -> name_cmp q name < 0 ->
  forall fuel bt, at_node bt off ->
  findPropbt c fuel area bt (q ++ rest) (Z.of_nat (length q)) = OutOfFuel.
Proof.
  intros Ha Hva Hq Hoff Hn Hlt fuel. induction fuel as [|fuel IH]; intros bt Hbt; [done|].
  cbn [findPropbt]. rewrite (at_node_nz _ _ _ _ _ _ _ Hbt Hn). cbn [negb].
  destruct (compare_node _ _ _ _ _ _ _ q rest Hbt Hn Hq) as (r1 & w & -> & Hr1 & Hcmp).
  cbn [rbind]. destruct (bt_field_at r1 _ _ _ _ _ _ bt_namelen _ Hr1 Hn ltac:(elem_field))
    as (r2 & -> & Hr2). cbn [rbind]. rewrite Hcmp. cbn [rbind].
  rewrite (proj2 (Z.eqb_neq _ _)), (proj2 (Z.ltb_lt _ _)) by lia.
  destruct (bt_field_at r2 _ _ _ _ _ _ bt_left _ Hr2 Hn ltac:(elem_field)) as (r3 & -> & _).
  cbn [rbind]. unfold nz. rewrite (proj2 (Z.eqb_neq _ _)) by done. cbn [negb].
  apply IH. by apply at_child.
Qed.

Lemma property_loop_ok parts fuel area tk : forall remaining current off name p l r k,
  ref_ok c area -> vaddr area = a -> Forall (fun b => b <> 0) remaining ->
  Z.of_nat (length remaining) < 2 ^ 32 -> (length remaining < parts)%nat ->
  at_node current off -> node_at off name p l r k -> trie_at k tk -> (height tk <= fuel)%nat ->
  exists res, property_loop c parts fuel area current remaining = Ok res /\
    found res (node_find tk (split_dots remaining)).
Proof.
  revert tk. induction parts as [|parts IH]; [lia|].
  intros tk remaining current off name p l r k Ha Hva Hz Hlen Hparts Hcur Hn Hk Hf.
  cbn [property_loop]. destruct (strchr_dot remaining) as [part sep] eqn:E.
  apply strchr_dot_spec in E as [-> ->].
  rewrite length_app in Hlen, Hparts. apply Forall_app in Hz as [Hzp Hzs].
  rewrite wrap_small by lia. cbn [node_find].
  destruct part as [|b0 part'] eqn:Ep.
  { exists (ref_at 0). by rewrite (level_find_nil _ _ Hk). }
  rewrite <- Ep in *. assert (nz (Z.of_nat (length part)) = true) as ->.
  { unfold nz. destruct (Z.eqb_spec (Z.of_nat (length part)) 0); [|done].
    rewrite Ep in *. cbn [length] in *. lia. }
  destruct (bt_field_at current _ _ _ _ _ _ bt_children _ Hcur Hn ltac:(elem_field))
    as (cur' & -> & _). cbn [rbind negb].
  destruct tk as [|name' p' tl' tk' tr'].
  { cbn [trie_at] in Hk. subst k. by exists (ref_at 0). }
  pose proof Hk as (Hk0 & _ & _ & l' & r' & k' & Hn' & _).
  assert (nz k = true) as -> by (unfold nz; by destruct (Z.eqb_spec k 0)).
  pose proof (at_child area k Ha Hva) as Hc. rewrite (at_node_nz _ _ _ _ _ _ _ Hc Hn').
  cbn [negb].
  destruct (findPropbt_ok fuel area part (match sep with Some t => 46 :: t | None => [] end)
    _ Ha Hva Hzp _ _ Hf Hk0 Hk Hc) as (res & -> & Hres). cbn [rbind].
  destruct (level_find _ part) as [[pv tv]|] eqn:El; cbn [found] in Hres.
  2: { subst res. by exists (ref_at 0). }
  pose proof Hres as (off2 & name2 & l2 & r2 & k2 & Hat & Hnode & Htv & Hpv).
  rewrite (at_node_nz _ _ _ _ _ _ _ Hat Hnode). cbn [negb].
  destruct sep as [rest|]; [|by exists res].
  apply Forall_inv_tail in Hzs. apply level_find_height in El. cbn [length] in *.
  destruct (IH tv rest res off2 name2 pv l2 r2 k2) as (res' & -> & Hf'); try done; try lia.
  exists res'. split; [done|]. destruct (split_dots rest) eqn:Es; [|done].
  exfalso. destruct rest as [|x rest]; [done|]. cbn in Es.
  destruct (x =? 46); [done|]. by destruct (split_dots rest).
Qed.

(** An area: the header, and the root, whose only link is the first level. *)
Definition area_header (v m : Z) : Prop :=
  a <> 0 /\ exists bs, run (Z.land a (vabits_mask c)) 16 = Some bs /\
    le_value (take 4 (drop 12 bs)) = v /\ le_value (take 4 (drop 8 bs)) = m.
Definition area_at (t : trie) : Prop :=
  area_header PROP_AREA_VERSION PROP_AREA_MAGIC /\ bst t /\
  exists name k, node_at 0 name 0 0 0 k /\ trie_at k t.

Lemma area_ok_spec area v m :
  ref_ok c area -> vaddr area = a -> area_header v m ->
  exists area', area_ok c area = Ok (area', (v =? PROP_AREA_VERSION) && (m =? PROP_AREA_MAGIC)) /\
    ref_ok c area' /\ vaddr area' = a.
Proof.
  intros Hr Hv (Hnz & bs & Hrun & <- & <-). unfold area_ok. rewrite <- Hv in Hrun, Hnz.
  destruct (load_field c run area (version_ PropArea_Init) 4 16 _ Hr Hnz
    ltac:(done) ltac:(done) ltac:(done) Hrun) as (a1 & -> & Hv1 & Hr1 & _).
  cbn [rbind]. change (Z.to_nat (version_ PropArea_Init)) with 12%nat. change (Z.to_nat 4) with 4%nat.
  destruct (_ =? PROP_AREA_VERSION); cbn [negb andb]; [|exists a1; by rewrite Hv1].
  rewrite <- Hv1 in Hrun, Hnz.
  destruct (load_field c run a1 (magic_ PropArea_Init) 4 16 _ Hr1 Hnz
    ltac:(done) ltac:(done) ltac:(done) Hrun) as (a2 & -> & Hv2 & Hr2 & _).
  cbn [rbind]. exists a2. split; [done|]. split; [done|congruence].
Qed.

(** [PropArea::find] is the lookup of the dotted name. *)
Lemma area_find_ok fuel area name t :
  ref_ok c area -> vaddr area = a -> area_at t -> (height t <= fuel)%nat ->
  Forall (fun b => b <> 0) name -> Z.of_nat (length name) < 2 ^ 32 ->
  exists info, area_find c fuel area name = Ok info /\ ref_ok c info /\
    match props_of t !! split_dots name with
    | Some p => vaddr info = obj p /\ obj p <> 0
    | None => vaddr info = 0
    end.
Proof.
  intros Hr Hv (Hh & Hb & rname & k & Hroot & Hk) Hf Hz Hlen. unfold area_find.
  destruct (area_ok_spec _ _ _ Hr Hv Hh) as (area' & -> & Hr' & Hv'). cbn [rbind].
  rewrite !Z.eqb_refl. cbn [andb]. unfold findProperty.
  pose proof (at_child area' 0 Hr' Hv') as Hat. change (toPropbt c area' 0) with (rootNode c area') in Hat.
  rewrite (at_node_nz _ _ _ _ _ _ _ Hat Hroot). cbn [negb].
  destruct (property_loop_ok (S (length name)) fuel area' t name _ _ _ _ _ _ _ Hr' Hv' Hz Hlen
    ltac:(lia) Hat Hroot Hk Hf) as (res & -> & Hres). cbn [rbind].
  rewrite path_find_map, path_find_node by done.
  destruct (node_find t (split_dots name)) as [[p tk]|]; cbn [found] in Hres.
  2: { subst res. by exists (ref_at 0). }
  destruct Hres as (off & nm & lo & ro & ko & Hat' & Hnode & _ & Hp).
  rewrite (at_node_nz _ _ _ _ _ _ _ Hat' Hnode). cbn [negb].
  destruct (bt_field_at res _ _ _ _ _ _ bt_prop _ Hat' Hnode ltac:(elem_field))
    as (res' & -> & _). cbn [rbind]. unfold nz. destruct (Z.eqb_spec p 0) as [->|Hp0]; cbn [negb].
  - by exists (ref_at 0).
  - exists (toPropInfo c area' p). destruct (at_child area' p Hr' Hv') as [H1 H2].
    split_and!; [done|exact H1|exact H2|by apply Hp].
Qed.
(** The visit of a trie calls the function on the properties in the order of [entries]. *)
Definition offsets (t : trie) : list Z := map snd (entries t).

Lemma offsets_Part n p l k r :
  offsets (Part n p l k r) = offsets l ++ (if nz p then [p] else []) ++ offsets k ++ offsets r.
Proof.
  unfold offsets. cbn [entries]. rewrite !map_app, map_map. f_equal. by destruct (nz p).
Qed.

Section Visit.
Context {S : Type} (propfn : MemoryRef -> prog S unit) (f : Z -> S -> S) (area : MemoryRef).
Context (Hfn : forall info s, propfn info s = (f (vaddr info) s, Ok tt)).
Context (Ha : ref_ok c area) (Hva : vaddr area = a).

Definition visits (t : trie) : Prop := forall fuel bt off s,
  (height t <= fuel)%nat -> off <> 0 -> trie_at off t -> at_node bt off ->
  foreachProperty c fuel area bt propfn s
    = (foldl (fun s p => f (obj p) s) s (offsets t), Ok true).

(** Following a link. *)
Lemma visit_link fuel t lo s :
  visits t -> (height t <= fuel)%nat -> trie_at lo t ->
  (if nz lo then
     let$ err := foreachProperty c fuel area (toPropbt c area lo) propfn in
     pret (Z.b2z err <? 0)
   else pret false) s = (foldl (fun s p => f (obj p) s) s (offsets t), Ok false).
Proof.
  intros IH Hh Hat. unfold nz. destruct (Z.eqb_spec lo 0) as [->|Hlo]; cbn [negb].
  - destruct t; [done|]. by destruct Hat.
  - by rewrite (pbind_Ok _ _ _ _ _ (IH _ _ _ _ Hh Hlo Hat (at_child area lo Ha Hva))).
Qed.

(** Calling the function on the property of a node. *)
Lemma visit_prop p s :
  (p <> 0 -> obj p <> 0) ->
  nz p && negb (nz (vaddr (toPropInfo c area p))) = false /\
  (if nz p then propfn (toPropInfo c area p) else pret tt) s
    = (foldl (fun s p => f (obj p) s) s (if nz p then [p] else []), Ok tt).
Proof.
  intros Hp. destruct (at_child area p Ha Hva) as [_ Hinfo].
  change (toPropbt c area p) with (toPropInfo c area p) in Hinfo.
  unfold nz at 1 3 4. destruct (Z.eqb_spec p 0); [done|]. cbn [negb andb foldl].
  rewrite Hfn, Hinfo. unfold nz. by destruct (Z.eqb_spec (obj p) 0) as [E|]; [apply Hp in E|].
Qed.

Lemma visit_node fuel bt off name p l r k tl tk tr s :
  visits tl -> visits tk -> visits tr ->
  (height (Part name p tl tk tr) <= fuel)%nat -> at_node bt off -> (p <> 0 -> obj p <> 0) ->
  node_at off name p l r k -> trie_at l tl -> trie_at r tr -> trie_at k tk ->
  foreachProperty c fuel area bt propfn s
    = (foldl (fun s p => f (obj p) s) s (offsets (Part name p tl tk tr)), Ok true).
Proof.
  intros IHl IHk IHr Hf Hbt Hp Hn Hl Hr Hk.
  destruct fuel as [|fuel]; [cbn in Hf; lia|]. cbn [height] in Hf. cbn [foreachProperty].
  rewrite (at_node_nz _ _ _ _ _ _ _ Hbt Hn). cbn [negb].
  destruct (bt_field_at bt _ _ _ _ _ _ bt_left _ Hbt Hn ltac:(elem_field)) as (b1 & E1 & H1).
  rewrite (pbind_lift _ _ _ _ E1). cbn [fst snd].
  rewrite (pbind_Ok _ _ _ _ _ (visit_link fuel tl l s IHl ltac:(lia) Hl)).
  destruct (bt_field_at b1 _ _ _ _ _ _ bt_prop _ H1 Hn ltac:(elem_field)) as (b2 & E2 & H2).
  rewrite (pbind_lift _ _ _ _ E2). cbn [fst snd].
  set (s1 := foldl _ s (offsets tl)). destruct (visit_prop p s1 Hp) as [-> Hcall].
  rewrite (pbind_Ok _ _ _ _ _ Hcall).
  destruct (bt_field_at b2 _ _ _ _ _ _ bt_children _ H2 Hn ltac:(elem_field)) as (b3 & E3 & H3).
  rewrite (pbind_lift _ _ _ _ E3). cbn [fst snd].
  rewrite (pbind_Ok _ _ _ _ _ (visit_link fuel tk k _ IHk ltac:(lia) Hk)).
  destruct (bt_field_at b3 _ _ _ _ _ _ bt_right _ H3 Hn ltac:(elem_field)) as (b4 & E4 & H4).
  rewrite (pbind_lift _ _ _ _ E4). cbn [fst snd].
  rewrite (pbind_Ok _ _ _ _ _ (visit_link fuel tr r _ IHr ltac:(lia) Hr)).
  unfold s1. by rewrite offsets_Part, !foldl_app.
Qed.

Lemma visits_all t : visits t.
Proof.
  induction t as [|name p tl IHl tk IHk tr IHr]; intros fuel bt off s Hf Hoff Ht Hbt; [done|].
  destruct Ht as (_ & _ & Hp & l & r & k & Hn & Hl & Hr & Hk). by eapply visit_node.
Qed.

End Visit.

(** [PropArea::foreach] calls the function on the properties of the area. *)
Lemma area_foreach_ok {S} (propfn : MemoryRef -> prog S unit) (f : Z -> S -> S) area fuel t s :
  (forall info s, propfn info s = (f (vaddr info) s, Ok tt)) ->
  ref_ok c area -> vaddr area = a -> area_at t -> (height t < fuel)%nat ->
  area_foreach c fuel area propfn s
    = (foldl (fun s p => f (obj p) s) s (offsets t), Ok true).
Proof.
  intros Hfn Hr Hv (Hh & _ & rname & k & Hroot & Hk) Hf. unfold area_foreach.
  destruct (area_ok_spec _ _ _ Hr Hv Hh) as (area' & Hok & Hr' & Hv').
  rewrite (pbind_lift _ _ _ _ Hok), !Z.eqb_refl. cbn [andb fst snd].
  pose proof (visits_all propfn f area' Hfn Hr' Hv') as Hall.
  rewrite (visit_node propfn f area' Hfn Hr' Hv' fuel _ 0 rname 0 0 0 k Tip t Tip _ (Hall Tip)
    (Hall t) (Hall Tip) ltac:(cbn [height]; lia) (at_child area' 0 Hr' Hv') ltac:(done) Hroot
    eq_refl eq_refl Hk).
  by rewrite offsets_Part, app_nil_r.
Qed.

(** The property at [p] has the value [v], in place or behind it. *)
Definition info_at (p : Z) (v : list Z) : Prop :=
  exists bs n, 64 <= n /\ run (Z.land (obj p) (vabits_mask c)) n = Some bs /\
    let long := nz (Z.land (le_value (take 4 bs)) kLongFlag) in
    let off := if long then le_value (take 4 (drop 60 bs)) else 4 in
    0 <= off /\ cstr_of (drop (Z.to_nat off) bs) = Some v.

Lemma info_pointer_ok info p v :
  ref_ok c info -> vaddr info = obj p -> obj p <> 0 -> info_at p v ->
  exists w, info_pointer c info = Ok w /\ host_cstr (host_mem c) w = Ok v.
Proof.
  intros Hr Hv Hnz (bs & n & Hn & Hrun & Ho & Hs). rewrite <- Hv in Hrun, Hnz.
  unfold info_pointer, is_long, value32Of. pose proof (present_length _ _ _ Hrun) as Hlen.
  destruct (load_field c run info (info_serial PropInfo_Init) 4 n _ Hr Hnz
    ltac:(done) ltac:(done) ltac:(cbn; lia) Hrun) as (i1 & -> & Hv1 & Hr1 & _).
  cbn [rbind]. change (Z.to_nat (info_serial PropInfo_Init)) with 0%nat.
  change (Z.to_nat 4) with 4%nat. rewrite drop_0. rewrite <- Hv1 in Hrun, Hnz.
  destruct (present_real i1 n _ Hr1 Hnz ltac:(lia) Hrun)
    as (i2 & w & -> & Hv2 & Hr2 & _ & Hw0 & Hwn & Hshow). cbn [rbind].
  assert (forall off, 0 <= off -> cstr_of (drop (Z.to_nat off) bs) = Some v ->
    u64 (w + off) = w + off /\ host_cstr (host_mem c) (w + off) = Ok v) as Hread.
  { intros off Hoff Hc. split; [|by apply Hshow]. apply wrap_small.
    destruct (Z.le_gt_cases (Z.of_nat (length bs)) off); [|lia].
    by rewrite drop_ge in Hc by lia. }
  destruct (nz (Z.land _ kLongFlag)).
  - rewrite <- Hv2 in Hrun, Hnz.
    change (info_long_offset PropInfo_Init) with 60.
    destruct (load_field c run i2 60 4 n _ Hr2 Hnz
      ltac:(done) ltac:(done) ltac:(lia) Hrun) as (i3 & -> & _). cbn [rbind].
    change (Z.to_nat 60) with 60%nat. change (Z.to_nat 4) with 4%nat.
    destruct (Hread _ Ho Hs) as [E1 E2]. eexists. split; [done|]. by rewrite E1.
  - destruct (Hread _ Ho Hs) as [E1 E2]. eexists. split; [done|].
    change (info_value PropInfo_Init) with 4. by rewrite E1.
Qed.
End OneArea.

(** * The properties of a core *)

Context (fuel : nat).

(** The segments [Property::Get] looks into. *)
Definition candidate (id : nat) : Prop := isValid (lb c id) = true /\ area_size c id = true.

(** What such a segment is: an area with the trie [o], or something else. *)
Definition contents (id : nat) (o : option trie) : Prop :=
  let a := mVaddr (lb c id) in
  0 <= a < 2 ^ 64 /\
  match o with
  | Some t => area_at a t /\ (height t < fuel)%nat
  | None => exists v m, area_header a v m /\
      (v =? PROP_AREA_VERSION) && (m =? PROP_AREA_MAGIC) = false
  end.

(** The map from the parts of a name to the value, for such a segment. *)
Definition values (id : nat) (o : option trie) (m : gmap (list (list Z)) (list Z)) : Prop :=
  match o with
  | Some t => forall path,
      match props_of t !! path with
      | Some p => exists v, m !! path = Some v /\ info_at (mVaddr (lb c id)) p v
      | None => m !! path = None
      end
  | None => m = ∅
  end.

#[export] Instance candidate_dec id : Decision (candidate id).
Proof. unfold candidate. apply _. Defined.

(** The map of the whole core: the first segment that has the name counts. *)
Definition core_props (areas : nat -> gmap (list (list Z)) (list Z)) (l : list nat)
    : gmap (list (list Z)) (list Z) :=
  union_list (areas <$> filter candidate l).
(** The addresses of all properties of the core, in the order of the code's visit. *)
Definition core_visit (tries : nat -> option trie) (l : list nat) : list Z :=
  concat ((fun id => match tries id with
                     | Some t => obj (mVaddr (lb c id)) <$> offsets t
                     | None => []
                     end) <$> filter candidate l).

Lemma area_of_ok id :
  id ∈ mQuickLoad c -> 0 <= mVaddr (lb c id) < 2 ^ 64 ->
  ref_ok c (area_of c id) /\ vaddr (area_of c id) = mVaddr (lb c id).
Proof.
  intros Hin Ha. split; [by apply present_adopt|].
  unfold area_of, checkCopyBlock. by destruct (virtualContains _ _).
Qed.

Lemma get_loop_ok name tries areas l :
  Forall (fun b => b <> 0) name -> Z.of_nat (length name) < 2 ^ 32 ->
  (forall id, id ∈ l -> id ∈ mQuickLoad c) ->
  (forall id, id ∈ l -> candidate id -> contents id (tries id) /\ values id (tries id) (areas id)) ->
  exists info, fst (foreach (fun id s => if true && negb (isValid (lb c id)) then (s, false)
                                         else get_callback c fuel name id s) l (Ok (ref_at 0)))
      = Ok info /\ ref_ok c info /\
    match core_props areas l !! split_dots name with
    | Some v => exists a p, vaddr info = obj a p /\ obj a p <> 0 /\ info_at a p v
    | None => vaddr info = 0
    end.
Proof.
  intros Hz Hlen. unfold core_props. induction l as [|id l IH]; intros Hin Hl.
  { exists (ref_at 0). split_and!; try done. }
  cbn [foreach andb]. rewrite filter_cons.
  destruct (decide (candidate id)) as [Hc|Hc].
  - destruct (Hl id ltac:(set_solver) Hc) as [Hcont Hvals]. destruct Hc as [Hval Hsz].
    destruct Hcont as [Ha Hcont]. rewrite Hval. cbn [negb]. unfold get_callback. rewrite Hsz.
    destruct (area_of_ok id ltac:(set_solver) Ha) as [Hr Hv].
    rewrite fmap_cons, union_list_cons, lookup_union.
    destruct (tries id) as [t|].
    + destruct Hcont as [Hat Hh].
      destruct (area_find_ok _ fuel (area_of c id) name t Hr Hv Hat ltac:(lia) Hz Hlen)
        as (info & -> & Hri & Hres).
      specialize (Hvals (split_dots name)). destruct (props_of t !! split_dots name) as [p|].
      * destruct Hres as [Hvi Hp]. destruct Hvals as (v & -> & Hinfo). rewrite Hvi. unfold nz.
        destruct (Z.eqb_spec (obj (mVaddr (lb c id)) p) 0); [done|]. cbn [negb fst].
        exists info. split_and!; [done|done|]. rewrite union_Some_l.
        by exists (mVaddr (lb c id)), p.
      * rewrite Hvals, none_union, Hres. cbn [nz Z.eqb negb].
        apply IH; intros; [apply Hin|apply Hl]; set_solver.
    + destruct Hcont as (v & m & Hh & Hbad). cbn [values] in Hvals.
      destruct (area_ok_spec _ _ _ _ Hr Hv Hh) as (area' & Hok & _).
      unfold area_find. rewrite Hok. cbn [rbind]. rewrite Hbad. cbn [vaddr ref_at nz Z.eqb negb].
      rewrite Hvals, lookup_empty, none_union.
      apply IH; intros; [apply Hin|apply Hl]; set_solver.
  - assert ((if negb (isValid (lb c id)) then (@Ok MemoryRef (ref_at 0), false)
             else get_callback c fuel name id (Ok (ref_at 0))) = (Ok (ref_at 0), false)) as ->.
    { unfold candidate in Hc. unfold get_callback. destruct (isValid (lb c id)); [|done].
      destruct (area_size c id); [naive_solver|done]. }
    apply IH; intros; [apply Hin|apply Hl]; set_solver.
Qed.

Lemma foreach_loop_ok {S} (propfn : MemoryRef -> prog S unit) (f : Z -> S -> S) tries l :
  (forall info s, propfn info s = (f (vaddr info) s, Ok tt)) ->
  (forall id, id ∈ l -> id ∈ mQuickLoad c) ->
  (forall id, id ∈ l -> candidate id -> contents id (tries id)) ->
  forall s,
  fst (foreach (fun id st => if true && negb (isValid (lb c id)) then (st, false) else
       if area_size c id then
         match area_foreach c fuel (area_of c id) propfn (fst st) with
         | (s', Ok _) => ((s', Ok tt), false)
         | (s', Throw p) => ((s', Throw p), true)
         | (s', Fault) => ((s', Fault), true)
         | (s', OutOfFuel) => ((s', OutOfFuel), true)
         end
       else (st, false)) l (s, Ok tt))
    = (foldl (fun s x => f x s) s (core_visit tries l), Ok tt).
Proof.
  intros Hfn. unfold core_visit. induction l as [|id l IH]; intros Hin Hl s; [done|].
  cbn [foreach andb]. rewrite filter_cons. destruct (decide (candidate id)) as [Hc|Hc].
  - pose proof (Hl id ltac:(set_solver) Hc) as [Ha Hcont]. destruct Hc as [Hval Hsz].
    rewrite Hval, Hsz. cbn [negb fst]. rewrite fmap_cons. cbn [concat]. rewrite foldl_app.
    destruct (area_of_ok id ltac:(set_solver) Ha) as [Hr Hv].
    destruct (tries id) as [t|].
    + destruct Hcont as [Hat Hht].
      rewrite (area_foreach_ok _ propfn f _ _ t s Hfn Hr Hv Hat Hht), IH, foldl_fmap;
        [done|intros; apply Hin; set_solver|intros; apply Hl; set_solver].
    + destruct Hcont as (v & m & Hh & Hbad). unfold area_foreach.
      destruct (area_ok_spec _ _ _ _ Hr Hv Hh) as (area' & Hok & _).
      rewrite (pbind_lift _ _ _ _ Hok). cbn [fst snd]. rewrite Hbad.
      apply IH; intros; [apply Hin|apply Hl]; set_solver.
  - assert (forall X (st x : X * bool), st.2 = false -> (if negb (isValid (lb c id)) then st else
      if area_size c id then x else st) = st) as Hskip.
    { intros X st x _. unfold candidate in Hc. destruct (isValid (lb c id)); [|done].
      destruct (area_size c id); [naive_solver|done]. }
    rewrite Hskip by done. apply IH; intros; [apply Hin|apply Hl]; set_solver.
Qed.

(** C9: [Property::Get] is a lookup in the map of the core: when every segment of the size of
    an area is an area with a sorted trie or has another header, then the string returned is
    the value in the first area that has the dotted name, and [def] when none has it. *)
Theorem Property_Get_map name def tries areas :
  (forall id, id ∈ mQuickLoad c -> candidate id ->
     contents id (tries id) /\ values id (tries id) (areas id)) ->
  Forall (fun b => b <> 0) name -> Z.of_nat (length name) < 2 ^ 32 ->
  Property_Get c fuel name def
    = Ok (default def (core_props areas (mQuickLoad c) !! split_dots name)).
Proof.
  intros Hc Hz Hlen. unfold Property_Get, foreachLoadBlock, getLoads.
  destruct (get_loop_ok name tries areas (mQuickLoad c) Hz Hlen) as (info & -> & Hr & Hres);
    [done..|]. cbn [rbind].
  destruct (core_props _ _ !! _) as [v|]; [|by rewrite Hres].
  destruct Hres as (a & p & Hv & Hp & Hi). rewrite Hv. unfold nz.
  destruct (Z.eqb_spec (obj a p) 0); [done|]. cbn [negb].
  destruct (info_pointer_ok a info p v Hr Hv Hp Hi) as (w & -> & Hw). done.
Qed.

(** [Property::Foreach] calls the function once for every property of the core: area by
    area in the order of the segments, and in an area in the order of the trie. *)
Theorem Property_Foreach_visits {S} (propfn : MemoryRef -> prog S unit) (f : Z -> S -> S) tries s :
  (forall info s, propfn info s = (f (vaddr info) s, Ok tt)) ->
  (forall id, id ∈ mQuickLoad c -> candidate id -> contents id (tries id)) ->
  Property_Foreach c fuel propfn s
    = (foldl (fun s x => f x s) s (core_visit tries (mQuickLoad c)), Ok tt).
Proof. intros Hfn Hc. by apply foreach_loop_ok. Qed.
End Areas.

(** * A core with one area *)

(** [l] filled up to [n] bytes. *)
Definition fill (n : nat) (l : list Z) : list Z := l ++ replicate (n - length l) 0.

(** The header of an area and its data: the properties [x], which is short, and [ro.a],
    which is long. *)
Definition demo_data : list Z :=
  fill 128 (le_bytes 4 0 ++ le_bytes 4 0 ++ le_bytes 4 PROP_AREA_MAGIC ++
            le_bytes 4 PROP_AREA_VERSION) ++
  node_bytes [] 0 0 0 20 ++
  fill 24 (node_bytes [114; 111] 0 44 0 68) ++
  fill 24 (node_bytes [120] 200 0 0 0) ++
  fill 132 (node_bytes [97] 300 0 0 0) ++
  fill 100 (le_bytes 4 0 ++ [104; 105; 0]) ++
  fill 60 (le_bytes 4 kLongFlag) ++ fill 40 (le_bytes 4 100) ++ fill 100 [108; 111; 110; 103].
Definition demo_area : list Z := demo_data ++ replicate (Z.to_nat (PA_SIZE - 628)) 0.
Definition demo_core : CoreApi := one_core 0x1000 demo_area.
Definition demo_trie : trie :=
  Part [114; 111] 0 (Part [120] 200 Tip Tip Tip) (Part [97] 300 Tip Tip Tip) Tip.
Definition demo_map : gmap (list (list Z)) (list Z) :=
  <[ [[120]] := [104; 105] ]> (<[ [[114; 111]; [97]] := [108; 111; 110; 103] ]> ∅).

Lemma demo_length : Z.of_nat (length demo_area) = PA_SIZE.
Proof.
  unfold demo_area. rewrite length_app, length_replicate.
  change (length demo_data) with 628%nat. unfold PA_SIZE. lia.
Qed.

Lemma demo_ok : 0 <= 0x1000 /\ 0x1000 + Z.of_nat (length demo_area) < 2 ^ 63.
Proof. rewrite demo_length. done. Qed.
Lemma demo_nonempty : (0 < length demo_area)%nat.
Proof. pose proof demo_length. unfold PA_SIZE in *. lia. Qed.

#[export] Instance demo_presents : Presents demo_core (target_run demo_core).
Proof. apply one_presents; [apply demo_ok|apply demo_nonempty]. Qed.

Lemma demo_run a n :
  0x1000 <= a -> 0 < n -> a + n <= 0x1000 + 628 ->
  target_run demo_core (Z.land a (vabits_mask demo_core)) n
    = Some (take (Z.to_nat n) (drop (Z.to_nat (a - 0x1000)) demo_data)).
Proof.
  intros Ha Hn Hle. change (vabits_mask demo_core) with (Z.ones 39).
  rewrite Z.land_ones, Z.mod_small by lia. unfold demo_core.
  rewrite one_run by (rewrite ?demo_length; unfold PA_SIZE; first [apply demo_ok|apply demo_nonempty|lia]).
  unfold demo_area. assert (length demo_data = 628%nat) by done.
  rewrite drop_app_le, take_app_le by (rewrite ?length_drop; lia). done.
Qed.

Lemma demo_segment :
  mVaddr (lb demo_core 0) = 0x1000 /\ candidate demo_core 0.
Proof.
  pose proof demo_ok. pose proof demo_nonempty. unfold demo_core, candidate, area_size.
  rewrite one_lb. destruct (one_fields 0x1000 demo_area) as (_ & _ & Hv & _ & Hf & _); [done..|].
  rewrite Hv, Hf, demo_length. split_and!; [done| |done]. by apply one_valid.
Qed.

Lemma demo_contents : contents demo_core (target_run demo_core) 3 0 (Some demo_trie).
Proof.
  destruct demo_segment as [Hv _]. unfold contents. rewrite Hv. split; [done|].
  split; [|cbn; lia]. split_and!.
  - split; [done|]. eexists. rewrite demo_run by done. done.
  - cbn. split_and!; repeat constructor.
  - exists [], 20. split.
    + unfold node_at. split_and!; [done|repeat constructor; done|]. by rewrite demo_run.
    + cbn [trie_at demo_trie]. split_and!; try done. exists 44, 0, 68.
      split_and!; try done; try (unfold node_at; split_and!;
        [done|repeat constructor; done|by rewrite demo_run]).
      * exists 0, 0, 0. split_and!; try done. unfold node_at; split_and!;
        [done|repeat constructor; done|by rewrite demo_run].
      * exists 0, 0, 0. split_and!; try done. unfold node_at; split_and!;
        [done|repeat constructor; done|by rewrite demo_run].
Qed.

Lemma demo_values : values demo_core (target_run demo_core) 0 (Some demo_trie) demo_map.
Proof.
  destruct demo_segment as [Hv _]. unfold values. rewrite Hv. intros path.
  change (props_of demo_trie) with
    (<[ [[120]] := 200 ]> (<[ [[114; 111]; [97]] := 300 ]> (∅ : gmap (list (list Z)) Z))).
  unfold demo_map. destruct (decide (path = [[120]])) as [->|].
  - rewrite !lookup_insert_eq. exists [104; 105]. split; [done|].
    exists (take 96 (drop 328 demo_data)), 96. split; [done|]. split; [by rewrite demo_run|].
    by split.
  - rewrite !(lookup_insert_ne _ [[120]]) by done.
    destruct (decide (path = [[114; 111]; [97]])) as [->|]; [|by rewrite !lookup_insert_ne].
    rewrite !lookup_insert_eq. exists [108; 111; 110; 103]. split; [done|].
    exists (take 200 (drop 428 demo_data)), 200. split; [done|]. split; [by rewrite demo_run|].
    by split.
Qed.

Lemma demo_quick id : id ∈ mQuickLoad demo_core -> id = 0%nat.
Proof. apply one_quick. Qed.
Lemma demo_filter : filter (candidate demo_core) (mQuickLoad demo_core) = [0%nat].
Proof.
  assert (mQuickLoad demo_core = [0%nat]) as -> by apply one_quick_list.
  rewrite filter_cons, decide_True by apply demo_segment. done.
Qed.

Lemma Property_Get_map_witness :
  Property_Get demo_core 3 [114; 111; 46; 97] [] = Ok [108; 111; 110; 103] /\
  Property_Get demo_core 3 [114; 111] [63] = Ok [63].
Proof.
  assert (core_props demo_core (fun _ => demo_map) (mQuickLoad demo_core) = demo_map) as E.
  { unfold core_props. rewrite demo_filter. apply (right_id_L ∅ (∪)). }
  split.
  - rewrite (Property_Get_map demo_core (target_run demo_core) 3 [114; 111; 46; 97] []
      (fun _ => Some demo_trie) (fun _ => demo_map)).
    + rewrite E. reflexivity.
    + intros id ->%demo_quick _. split; [apply demo_contents|apply demo_values].
    + repeat constructor; done.
    + done.
  - rewrite (Property_Get_map demo_core (target_run demo_core) 3 [114; 111] [63]
      (fun _ => Some demo_trie) (fun _ => demo_map)).
    + rewrite E. reflexivity.
    + intros id ->%demo_quick _. split; [apply demo_contents|apply demo_values].
    + repeat constructor; done.
    + done.
Defined.

Lemma Property_Foreach_visits_witness :
  Property_Foreach demo_core 3 (fun info s => (s ++ [vaddr info], Ok tt)) []
    = ([0x1000 + 128 + 200; 0x1000 + 128 + 300], Ok tt).
Proof.
  rewrite (Property_Foreach_visits demo_core (target_run demo_core) 3 _
    (fun x s => s ++ [x]) (fun _ => Some demo_trie)).
  - unfold core_visit. rewrite demo_filter. cbn [fmap list_fmap].
    destruct demo_segment as [-> _]. reflexivity.
  - done.
  - intros id ->%demo_quick _. apply demo_contents.
Defined.
